(* ===== verification/_CoqProject ===== *)
-Q . S2P
Prelude.v
Codec.v
CodecFacts.v
Compress.v
PageStore.v
PageStoreFacts.v
Pager.v
Frame.v
Heap.v
Vmm.v
Clone.v
Paths.v
Tmpfs.v
Exec.v
Initrd.v
Fat.v
Sched.v
SchedFacts.v
Text.v
Machine.v
Pseudo.v
Vfs.v
Uaccess.v
Lcl.v
Hsched.v
Paging.v
Gdt.v
Trap.v
Apic.v
Memory.v
Runtime.v
Acpi.v
Power.v
Serial.v
Font.v
Fb.v
FbFacts.v
Tty.v
TtyFacts.v
Log.v
InitExec.v
InitExecFacts.v
Syscall.v
SyscallFacts.v
Interrupts.v
InterruptsFacts.v
Idle.v
Probe.v
Secinter.v
Rk3588.v
Gboot.v
GbootFacts.v
Lock.v
Supernova.v
Vector.v
Percpu.v
User.v
Bga.v
Neoio.v
Modules.v
Limine.v
ApBoot.v
Boot.v
BootFacts.v
Late.v
