(* ===== verification/Prelude.v ===== *)
(** * HXNU kernel: a verification library

    HXNU is a small x86_64 kernel in Rust (src/kernel/src), with a boot loader for the
    RK3588 board (src/boot/gboot/src) and the first user programs (src/user). This library
    translates its code into Rocq definitions, component by component, and proves what
    makes each component correct. The definitions are executable; the witness of a theorem
    evaluates them on a concrete input.

    ** The program

    The boot loader hands over a memory map, modules and a frame buffer. [_start] (main.rs)
    takes them through the Limine responses, sets up the frame allocator, the heap, the
    terminal, the descriptor tables, ACPI with the processor topology, the file systems and
    the modules, activates the init program, starts the scheduler and finally probes the
    system calls. From then on the machine runs user threads: an interrupt or exception
    enters through the assembly stubs, a system call goes through the gate to [dispatch],
    whose handlers use the scheduler (whose threads hold the descriptor tables), the open
    files, the virtual file system, user memory, the page tables and the queues. Pages can
    be compressed and parked by the pager.

    ** Conventions

    - A fallible pure function returns an [outcome]: [Ok], [Err], [Panic] (index out of range,
      failed [unwrap], overflow of a plain operator) or [Diverge] (a loop left its bound).
      State is threaded by the monad [M S E A]; [let!], [do!], [gets], [modify], [zoom] and
      [catch] are its operations. A component's globals are a record, and a component that
      calls another runs on a record of both.
    - Integers are [Z]; a width is written where the code has it: [cast U64], [add U64],
      [wrap_add], [sat_add], [chk_add]. Bytes and strings are lists of [Z].
    - Physical memory is a map of 8-byte words seen through the direct map (Vmm, Paging, with
      the byte view of Memory); memory that user copies reach is a map of bytes (Uaccess).
    - Hardware is an argument: what [cpuid], [rdmsr], [rdtsc], a port, a device register or
      the firmware answers. Device writes are traces in order. Code outside src/ is an
      argument or a class: the block layer ([Block], with its laws [BlockLaws]), the counters
      of the HFS submodule.
    - [Where], the layouts ([Layout], [demo_layout]) and the addresses of statics are what the
      compiler and the linker choose, so they are arguments too.

    ** Files and sources (paths under src/kernel/src unless they start with boot or user)

    Memory
    - Codec, CodecFacts: mm/compress/{checksum,header,profile_generated,codec}.rs; Compress:
      mm/compress/mod.rs, the trait as the class [CompressionBackend] with its laws
      [LawfulBackend], discharged by the codec's round trip; PageStore, PageStoreFacts:
      mm/compress/store.rs, a refinement of a finite map from page ids to pages; Pager: mm/pager.rs.
    - Frame: mm/frame.rs; Heap: mm/heap.rs; Vmm: mm/vmm.rs (regions, page faults); Clone:
      [clone_space] of mm/vmm.rs; Paging: arch/x86_64/early_map.rs; Memory: bytes of words;
      Runtime: runtime.rs; Modules: module_loader.rs and live_update.rs.

    Files and programs
    - Paths: normalisation and [str]; Text: [core::fmt]; Tmpfs: tmpfs.rs; Initrd: initrd.rs;
      Fat: fat.rs; Pseudo: devfs.rs and procfs.rs; Vfs: vfs.rs; Exec: exec.rs; InitExec,
      InitExecFacts: init_exec.rs; User: user/init-zero and user/interp-zero.

    Threads and calls
    - Sched, SchedFacts: sched.rs; Idle: its idle thread; Uaccess: uaccess.rs; Lcl: the message queue of syscall.rs;
      Hsched: hsched.rs; Syscall, SyscallFacts: syscall.rs; Probe: the boot-time probes of
      syscall.rs and interrupts.rs; Secinter: secinter.rs; Lock: lock.rs.

    Machine
    - Machine: cpuid.rs, cpu.rs, smp.rs, time.rs; Gdt: gdt.rs; Trap: the assembly of
      interrupts.rs and context.rs; Interrupts, InterruptsFacts: interrupts.rs; Apic: apic.rs;
      Acpi: acpi.rs; Power: power.rs; ApBoot: ap_boot.rs; Percpu: percpu.rs; Vector: vector.rs;
      Supernova: supernova.rs and sxrc_core.rs; Bga: drivers/bga.rs; Neoio: neoio/mod.rs and
      neoio/iommu.rs.

    Consoles
    - Serial: serial.rs; Font: font.rs; Fb, FbFacts: fb.rs; Tty, TtyFacts: tty.rs; Log: log.rs
      and panic.rs.

    Boot
    - Limine: limine.rs; Boot, BootFacts, Late: the stages of main.rs; Rk3588, Gboot,
      GbootFacts: boot/gboot/src.

    A definition carries the name of the function it translates. Where two components use one
    name, the file's name tells them apart.

    ** What the theorems show

    - Round trips: decoding inverts encoding for every page, and a changed byte of an encoded
      page is detected ([encode_decode_roundtrip], [single_byte_corruption_detected]); a
      reclaimed page is restored ([reclaim_restore]); the archive of a tree parses to its
      files and directories ([initrd_parse_encoded]); a copy out is read back ([copyout_copyin]); what the
      boot loader wrote is what the kernel reads ([boot_answers_read]); the interpreter reads
      back the stack the kernel built ([interpreter_reads_stack]); a system call leaves every
      register but its result ([int80_roundtrip]); open, read and close ([open_read_close]).
    - Refinement of abstract specifications: the page store and the temporary files are finite
      maps, the message queue is a list, the frame buffer shows a [Term] and each virtual console
      holds the one its texts leave ([tty_shows_active_console]), a file read from a FAT volume is what
      the walk along the table on the disk gives ([fat_read_file_spec]), mounting an archive gives
      its files under the name space, whatever the block layer ([boot_mounts_archive]).
    - Invariants and safety over every sequence of operations: granted frames and heap blocks
      are disjoint ([frames_exclusive], [heap_blocks_exclusive]); the scheduler's tables from the
      boot through the switch of [idle_loop] on ([sched_safe]), and the turns of its threads
      ([turns_round_robin]); the reference counts of open files ([descriptors_consistent]); the
      restarts of init, which the idle thread brings back ([idle_restarts_init]); mutual
      exclusion and the lock-free queue for every interleaving ([lock_exclusive],
      [hsched_queue]); a cloned address space shares nothing writable of
      the user half with its parent ([clone_space_spec]).
    - Totality on untrusted input: page decoding, ELF images, firmware tables (up to a header at
      a misaligned address), FAT chains.
    - Whole operations: page faults, the stack of a new program, the interrupt table, the
      death of a faulting program, the memory stage of the boot, the start of the other
      processors, the hand-over of the boot loader, and the probes that run the calls from
      end to end ([late_probes_spec]).

    Where the code does not do what its comments or its callers expect, the theorem states what
    it does; [ioctl_closed_panics], [lseek_overflow_panics] and [fork_loses_reference] are such. A
    condition a theorem needs is a hypothesis of it and named in its comment; where the code breaks
    without it, a theorem shows that ([alloc_huge_align_escapes], [failed_forks_break_exit],
    [parse_bpb_overflow], [switching_exhausts_heap], [handover_clobbers], [odd_table_misaligned]).

    ** Bounds

    Loops over a list, a range or a table recurse on it. The others carry a bound that the
    theorems show to be enough, or that is an argument the theorem quantifies over:
    - loops over the bytes of a buffer (codec, cpio, ELF, MADT entries) are bounded by its
      length, since each round consumes at least one byte; the chain of a FAT directory by the number of
      clusters the source itself allows, that of a file by the sectors of its size; pages of a region by its length in pages;
    - decimal digits by 20 or more, as many as a 64-bit number has;
    - [strlen], the Limine strings and iterators by [turns], which the theorems bound by the
      length of what the loader wrote;
    - polls of a device (serial line, accelerator, SoC registers) and attempts on a lock by an
      argument; the theorems assume a device that answers within it ([uart_drains] and the
      like), and [Diverge] is the case that it does not;
    - the waits of the APIC timer and of the processor start by the list of what the clock and
      the processors show, one element a round;
    - the allocation error handler, which can call itself, by its number of calls.

    ** Not modelled

    - The HFS and heterexec submodules, whose directories are empty here: [initialize_hfs], the
      heterexec self test and the bridges (hps_bridge.rs, neoio_bridge.rs) that only pass
      pointers to them.
    - The self tests of [_start] that a build can select; what they call is modelled.
    - The instruction sequences of interrupts.rs that raise an exception on purpose; the
      trampoline of the other processors and the start-up assembly before [_start].
    - slice_writer.rs and the sources the kernel does not compile (lcl, topkapi stubs); the host
      tests and the build script.
    - Weak memory: the queue and the lock interleave their atomic accesses in one order. *)
From stdpp Require Import base list numbers option.
From Stdlib Require Import ZArith Lia Bool.

Declare Scope rust_scope.
Delimit Scope rust_scope with rust.
Open Scope rust_scope.
Open Scope Z_scope.

(** ** Outcomes of Rust code

    [Ok]/[Err] are the constructors of [Result]; [Panic] is an index out of
    range, an [unwrap] of [None] or an overflow of a plain [+], [-] or [*];
    [Diverge] is a loop whose iteration bound in the model was exhausted. *)
Inductive outcome (E A : Type) : Type :=
| Ok (a : A)
| Err (e : E)
| Panic
| Diverge.
Arguments Ok {E A} _.
Arguments Err {E A} _.
Arguments Panic {E A}.
Arguments Diverge {E A}.

Definition obind {E A B} (o : outcome E A) (k : A -> outcome E B) : outcome E B :=
  match o with
  | Ok a => k a
  | Err e => Err e
  | Panic => Panic
  | Diverge => Diverge
  end.

(** [ok_or]: an [Option] turned into a [Result]. *)
Definition ok_or {E A} (e : E) (o : option A) : outcome E A :=
  match o with Some a => Ok a | None => Err e end.

(** [unwrap]: an [Option] whose [None] panics. *)
Definition unwrap {E A} (o : option A) : outcome E A :=
  match o with Some a => Ok a | None => Panic end.

Definition omap_err {E F A} (f : E -> F) (o : outcome E A) : outcome F A :=
  match o with
  | Ok a => Ok a
  | Err e => Err (f e)
  | Panic => Panic
  | Diverge => Diverge
  end.

(** The computation returned to its caller: neither a panic nor a loop that ran
    out of its bound. *)
Definition returns {E A} (o : outcome E A) : Prop :=
  match o with Ok _ | Err _ => True | Panic | Diverge => False end.

Notation "'let?' x := c 'in' k" := (obind c (fun x => k))
  (at level 10, x name, c at level 100, k at level 200) : rust_scope.
Notation "'let?' ' p := c 'in' k" := (obind c (fun x => match x with p => k end))
  (at level 10, p pattern, c at level 100, k at level 200) : rust_scope.

(** ** The state-and-outcome monad: [&mut self] methods

    [M S E A] is a computation that reads and writes a state [S] and ends in an
    outcome; the state survives an [Err], as it does in Rust. *)
Definition M (S E A : Type) : Type := S -> outcome E A * S.

Definition ret {S E A} (a : A) : M S E A := fun s => (Ok a, s).
Definition bind {S E A B} (m : M S E A) (k : A -> M S E B) : M S E B := fun s =>
  match m s with
  | (Ok a, s') => k a s'
  | (Err e, s') => (Err e, s')
  | (Panic, s') => (Panic, s')
  | (Diverge, s') => (Diverge, s')
  end.
Definition throw {S E A} (e : E) : M S E A := fun s => (Err e, s).
Definition panic {S E A} : M S E A := fun s => (Panic, s).
Definition diverge {S E A} : M S E A := fun s => (Diverge, s).
Definition lift {S E A} (o : outcome E A) : M S E A := fun s => (o, s).
Definition gets {S E A} (f : S -> A) : M S E A := fun s => (Ok (f s), s).
Definition modify {S E} (f : S -> S) : M S E unit := fun s => (Ok tt, f s).
Definition put {S E} (s' : S) : M S E unit := fun _ => (Ok tt, s').

Notation "'let!' x := c 'in' k" := (bind c (fun x => k))
  (at level 10, x name, c at level 100, k at level 200) : rust_scope.
Notation "'let!' ' p := c 'in' k" := (bind c (fun x => match x with p => k end))
  (at level 10, p pattern, c at level 100, k at level 200) : rust_scope.
Notation "'do!' c 'in' k" := (bind c (fun _ => k))
  (at level 10, c at level 100, k at level 200) : rust_scope.

(** A method of a component run on the component's part of a larger state. *)
Definition zoom {S T E A} (get : S -> T) (set : T -> S -> S) (m : M T E A) : M S E A := fun s =>
  let '(o, t) := m (get s) in (o, set t s).

(** [catch m k]: run [m] and hand its [Result] to [k]; the [match] on a
    [Result] of the source. *)
Definition catch {S E F A B} (m : M S E A) (k : A + E -> M S F B) : M S F B := fun s =>
  match m s with
  | (Ok a, s') => k (inl a) s'
  | (Err e, s') => k (inr e) s'
  | (Panic, s') => (Panic, s')
  | (Diverge, s') => (Diverge, s')
  end.

(** [loop fuel body a]: repeat [body]; [inl] is the next iteration's locals,
    [inr] the value the loop breaks with. *)
Fixpoint loop {S E A B} (fuel : nat) (body : A -> M S E (A + B)) (a : A) : M S E B :=
  match fuel with
  | O => diverge
  | Datatypes.S fuel' =>
      let! r := body a in
      match r with
      | inl a' => loop fuel' body a'
      | inr b => ret b
      end
  end.

(** The rule for loops: an invariant [I] kept by every iteration and a measure
    that every continuing iteration decreases give the postcondition [Q] of the
    whole loop, its termination included. *)
Lemma loop_rule {S E A B} (body : A -> M S E (A + B))
    (I : A -> S -> Prop) (Q : outcome E B * S -> Prop) (m : A -> nat) :
  (forall a s, I a s ->
     match body a s with
     | (Ok (inl a'), s') => I a' s' /\ (m a' < m a)%nat
     | (Ok (inr b), s') => Q (Ok b, s')
     | (Err e, s') => Q (Err e, s')
     | (Panic, s') => Q (Panic, s')
     | (Diverge, s') => Q (Diverge, s')
     end) ->
  forall fuel a s, (m a < fuel)%nat -> I a s -> Q (loop fuel body a s).
Proof.
  intros Hbody fuel; induction fuel as [|fuel IH]; intros a s Hm HI; [lia|].
  simpl. unfold bind. specialize (Hbody a s HI).
  destruct (body a s) as [[[a'|b]|e| |] s']; simpl; try assumption.
  destruct Hbody as [HI' Hlt]. apply IH; [lia|exact HI'].
Qed.

(** ** Record field update

    [upd f g r] is [r] with field [f] replaced by [g (f r)]. A record declares
    how it is rebuilt from its fields by an instance of [RecordEta]. *)
Class RecordEta (R : Type) : Type := record_eta : R -> R.
Class FieldUpd {R T : Type} (f : R -> T) : Type := upd : (T -> T) -> R -> R.
Arguments upd {R T} f {_} _ _.

Ltac solve_field_upd :=
  match goal with
  | |- @FieldUpd ?R ?T ?f =>
      let inst := constr:(_ : RecordEta R) in
      let body := eval hnf in (@record_eta R inst) in
      match eval pattern f in body with
      | ?abs _ =>
          let t := constr:(fun (g : T -> T) => abs (fun r => g (f r))) in
          let t' := eval cbv beta in t in
          exact t'
      end
  end.
#[global] Hint Extern 0 (FieldUpd _) => solve_field_upd : typeclass_instances.

Definition set_field {R T} (f : R -> T) {U : FieldUpd f} (v : T) (r : R) : R := upd f (fun _ => v) r.
Arguments set_field {R T} f {_} _ _ /.

(** ** Machine integers

    A [w]-bit unsigned integer is a [Z] in [0, 2^w); the operations take the
    modulus [2^w], written [U8], [U16], [U32], [U64]. [usize] is [U64]: the
    kernel targets x86_64. *)
Abbreviation U8 := 256 (only parsing).
Abbreviation U16 := 65536 (only parsing).
Abbreviation U32 := 4294967296 (only parsing).
Abbreviation U64 := 18446744073709551616 (only parsing).

(** [2^63]: no slice has more than [isize::MAX] elements. *)
Abbreviation SLICE_LIMIT := 9223372036854775808 (only parsing).

Definition in_range (m z : Z) : Prop := 0 <= z < m.

Definition sat_add (m a b : Z) : Z := Z.min (a + b) (m - 1).
Definition sat_sub (a b : Z) : Z := Z.max (a - b) 0.
Definition sat_mul (m a b : Z) : Z := Z.min (a * b) (m - 1).
Definition chk_add (m a b : Z) : option Z := if a + b <? m then Some (a + b) else None.
Definition chk_sub (a b : Z) : option Z := if b <=? a then Some (a - b) else None.
Definition chk_mul (m a b : Z) : option Z := if a * b <? m then Some (a * b) else None.
Definition wrap_add (m a b : Z) : Z := (a + b) mod m.
Definition wrap_sub (m a b : Z) : Z := (a - b) mod m.
Definition wrap_mul (m a b : Z) : Z := (a * b) mod m.

(** The plain operators: an overflow is a [Panic], as with overflow checks on. *)
Definition add {E} (m a b : Z) : outcome E Z := unwrap (chk_add m a b).
Definition sub {E} (a b : Z) : outcome E Z := unwrap (chk_sub a b).
Definition mul {E} (m a b : Z) : outcome E Z := unwrap (chk_mul m a b).

(** Bitwise complement [!a] at modulus [m], and a cast [a as uW]. *)
Definition bitnot (m a : Z) : Z := m - 1 - a.
Definition cast (m a : Z) : Z := a mod m.

(** ** Slices: [Z] positions, out of range panics *)
Section slices.
Context {E A : Type}.
Implicit Types l : list A.

Definition len l : Z := Z.of_nat (length l).

Definition idx l (i : Z) : outcome E A :=
  if (0 <=? i) && (i <? len l) then unwrap (l !! Z.to_nat i) else Panic.

Definition slice l (a b : Z) : outcome E (list A) :=
  if (0 <=? a) && (a <=? b) && (b <=? len l)
  then Ok (take (Z.to_nat (b - a)) (drop (Z.to_nat a) l)) else Panic.

(** [l[pos..pos + bs.len()].copy_from_slice(bs)] *)
Definition blit l (pos : Z) (bs : list A) : outcome E (list A) :=
  if (0 <=? pos) && (pos + len bs <=? len l)
  then Ok (take (Z.to_nat pos) l ++ bs ++ drop (Z.to_nat (pos + len bs)) l) else Panic.

(** [l[i] = x] *)
Definition set_at l (i : Z) (x : A) : outcome E (list A) := blit l i [x].
End slices.

Definition byte_list (bs : list Z) : Prop := Forall (in_range U8) bs.

(** ** Little-endian bytes: [to_le_bytes] and [from_le_bytes] *)
Fixpoint le_bytes (n : nat) (z : Z) : list Z :=
  match n with
  | O => []
  | S n' => z mod 256 :: le_bytes n' (z / 256)
  end.

Fixpoint le_val (bs : list Z) : Z :=
  match bs with
  | [] => 0
  | b :: bs' => b + 256 * le_val bs'
  end.

(** * Lemmas shared by the components *)

Create Rewrite HintDb len.
#[export] Hint Rewrite @length_app @length_take @length_drop @length_replicate
  @length_fmap @length_insert @length_cons @length_nil : len.

(** Arithmetic on lengths and positions. *)
Ltac len_solve := unfold len in *; autorewrite with len in *; simpl length in *; lia.

(** Case split on the boolean comparison that the goal (or a hypothesis)
    branches on, keeping what it decides. *)
Ltac bdestruct_if :=
  match goal with
  | |- context [if ?a <? ?b then _ else _] => destruct (Z.ltb_spec a b)
  | |- context [if ?a <=? ?b then _ else _] => destruct (Z.leb_spec a b)
  | |- context [if ?a =? ?b then _ else _] => destruct (Z.eqb_spec a b)
  | |- context [if ?c then _ else _] => destruct c eqn:?
  end.

Ltac bool_prop :=
  repeat match goal with
  | H : (_ && _) = true |- _ => apply andb_true_iff in H; destruct H
  | H : (_ || _) = false |- _ => apply orb_false_iff in H; destruct H
  | H : (_ <? _) = true |- _ => apply Z.ltb_lt in H
  | H : (_ <? _) = false |- _ => apply Z.ltb_ge in H
  | H : (_ <=? _) = true |- _ => apply Z.leb_le in H
  | H : (_ <=? _) = false |- _ => apply Z.leb_gt in H
  | H : (_ =? _) = true |- _ => apply Z.eqb_eq in H
  | H : (_ =? _) = false |- _ => apply Z.eqb_neq in H
  | H : negb _ = true |- _ => apply negb_true_iff in H
  | H : negb _ = false |- _ => apply negb_false_iff in H
  end.

(** Evaluate the monadic plumbing of a goal. *)
Ltac run := cbv beta iota zeta delta
  [bind ret throw panic diverge lift gets modify put zoom catch obind ok_or unwrap omap_err] in *.

Lemma add_ok {E} m a b : a + b < m -> add (E:=E) m a b = Ok (a + b).
Proof. intros H. unfold add, chk_add. by rewrite (proj2 (Z.ltb_lt _ _) H). Qed.

Lemma sub_ok {E} a b : b <= a -> sub (E:=E) a b = Ok (a - b).
Proof. intros H. unfold sub, chk_sub. by rewrite (proj2 (Z.leb_le _ _) H). Qed.

Lemma mul_ok {E} m a b : a * b < m -> mul (E:=E) m a b = Ok (a * b).
Proof. intros H. unfold mul, chk_mul. by rewrite (proj2 (Z.ltb_lt _ _) H). Qed.

Lemma len_nonneg {A} (l : list A) : 0 <= len l.
Proof. unfold len; lia. Qed.

Lemma len_app {A} (l1 l2 : list A) : len (l1 ++ l2) = len l1 + len l2.
Proof. len_solve. Qed.

Lemma len_cons {A} (x : A) l : len (x :: l) = 1 + len l.
Proof. len_solve. Qed.

Lemma len_nil {A} : len (@nil A) = 0.
Proof. reflexivity. Qed.

#[export] Hint Resolve len_nonneg : core.

Section slice_lemmas.
Context {E A : Type}.
Implicit Types l bs : list A.

Lemma idx_ok l i x : 0 <= i -> l !! Z.to_nat i = Some x -> idx (E:=E) l i = Ok x.
Proof.
  intros Hi Hl. unfold idx. pose proof (lookup_lt_Some _ _ _ Hl).
  rewrite (proj2 (Z.leb_le 0 i)), (proj2 (Z.ltb_lt i (len l))) by (unfold len; lia).
  simpl. by rewrite Hl.
Qed.

Lemma idx_inv l i x : idx (E:=E) l i = Ok x -> 0 <= i < len l /\ l !! Z.to_nat i = Some x.
Proof.
  unfold idx. destruct ((0 <=? i) && (i <? len l)) eqn:Hb; [|done]. bool_prop.
  destruct (l !! Z.to_nat i); simpl; [|done]. intros [= ->]. by split; [lia|].
Qed.

Lemma idx_total l i : 0 <= i < len l -> exists x, idx (E:=E) l i = Ok x /\ l !! Z.to_nat i = Some x.
Proof.
  intros Hi. destruct (lookup_lt_is_Some_2 l (Z.to_nat i)) as [x Hx]; [unfold len in Hi; lia|].
  exists x. split; [|done]. apply idx_ok; [lia|done].
Qed.

Lemma slice_ok l a b :
  0 <= a <= b -> b <= len l ->
  slice (E:=E) l a b = Ok (take (Z.to_nat (b - a)) (drop (Z.to_nat a) l)).
Proof.
  intros Ha Hb. unfold slice.
  rewrite (proj2 (Z.leb_le 0 a)), (proj2 (Z.leb_le a b)), (proj2 (Z.leb_le b (len l))) by lia.
  done.
Qed.

Lemma slice_app l1 l2 l3 a b :
  a = len l1 -> b = len l1 + len l2 -> slice (E:=E) (l1 ++ l2 ++ l3) a b = Ok l2.
Proof.
  intros -> ->. rewrite slice_ok by len_solve.
  replace (Z.to_nat (len l1)) with (length l1) by len_solve.
  rewrite drop_app_length. f_equal.
  replace (Z.to_nat _) with (length l2) by len_solve. apply take_app_length.
Qed.

Lemma blit_ok l pos bs :
  0 <= pos -> pos + len bs <= len l ->
  blit (E:=E) l pos bs = Ok (take (Z.to_nat pos) l ++ bs ++ drop (Z.to_nat (pos + len bs)) l).
Proof.
  intros Hp Hb. unfold blit.
  rewrite (proj2 (Z.leb_le 0 pos)), (proj2 (Z.leb_le _ (len l))) by lia. done.
Qed.

Lemma blit_length l pos bs l' : blit (E:=E) l pos bs = Ok l' -> length l' = length l.
Proof.
  unfold blit. destruct (_ && _) eqn:Hb; [|done]. bool_prop. intros [= <-]. len_solve.
Qed.

Lemma blit_app l1 l2 l3 bs pos :
  pos = len l1 -> length l2 = length bs ->
  blit (E:=E) (l1 ++ l2 ++ l3) pos bs = Ok (l1 ++ bs ++ l3).
Proof.
  intros -> Hl. rewrite blit_ok by len_solve.
  replace (Z.to_nat (len l1)) with (length l1) by len_solve.
  rewrite take_app_length. do 3 f_equal.
  replace (Z.to_nat _) with (length l1 + length bs)%nat by len_solve.
  rewrite <- drop_drop, drop_app_length, <- Hl. by rewrite drop_app_length.
Qed.

(** A prefix written so far, extended by the next write. *)
Lemma blit_prefix l pos bs l' :
  blit (E:=E) l pos bs = Ok l' ->
  take (Z.to_nat (pos + len bs)) l' = take (Z.to_nat pos) l ++ bs.
Proof.
  unfold blit. destruct (_ && _) eqn:Hb; [|done]. bool_prop. intros [= <-].
  rewrite app_assoc, take_app_le by len_solve.
  apply take_ge. len_solve.
Qed.
End slice_lemmas.

Lemma length_le_bytes n z : length (le_bytes n z) = n.
Proof. revert z; induction n; intros; simpl; auto. Qed.
#[export] Hint Rewrite length_le_bytes : len.

Lemma le_bytes_byte n z : byte_list (le_bytes n z).
Proof.
  revert z; induction n; intros; simpl; constructor; [|apply IHn].
  unfold in_range. apply Z.mod_pos_bound; lia.
Qed.

Lemma le_val_bytes n z : 0 <= z -> le_val (le_bytes n z) = z mod 256 ^ Z.of_nat n.
Proof.
  revert z; induction n as [|n IH]; intros z Hz.
  { cbn. by rewrite Z.mod_1_r. }
  cbn [le_bytes le_val].
  rewrite IH by (apply Z.div_pos; lia).
  rewrite Nat2Z.inj_succ, Z.pow_succ_r by lia.
  by rewrite Z.rem_mul_r by lia.
Qed.

Lemma le_val_bytes_small n z : 0 <= z < 256 ^ Z.of_nat n -> le_val (le_bytes n z) = z.
Proof. intros Hz. rewrite le_val_bytes by lia. by apply Z.mod_small. Qed.

Lemma le_val_range bs : byte_list bs -> 0 <= le_val bs < 256 ^ len bs.
Proof.
  unfold len. induction 1 as [|b bs Hb _ IH]; [done|].
  cbn [le_val length]. rewrite Nat2Z.inj_succ, Z.pow_succ_r by lia.
  unfold in_range in Hb. lia.
Qed.

Lemma le_bytes_val bs : byte_list bs -> le_bytes (length bs) (le_val bs) = bs.
Proof.
  induction 1 as [|b bs Hb _ IH]; [done|]. cbn [length le_val le_bytes]. unfold in_range in Hb.
  rewrite (Z.mul_comm 256), Z.mod_add, Z.div_add, (Z.mod_small b), (Z.div_small b) by lia.
  by rewrite Z.add_0_l, IH.
Qed.

(** ** Alignment: masking with the complement of [2^k - 1] *)
Lemma land_bitnot_pow2 v k w :
  0 <= k <= w -> 0 <= v < 2 ^ w -> Z.land v (bitnot (2 ^ w) (2 ^ k - 1)) = v - v mod 2 ^ k.
Proof.
  intros Hk Hv. unfold bitnot.
  replace (2 ^ w - 1 - (2 ^ k - 1)) with (Z.shiftl (Z.ones (w - k)) k).
  2:{ rewrite Z.shiftl_mul_pow2, Z.ones_equiv by lia.
      assert (2 ^ w = 2 ^ (w - k) * 2 ^ k) by (rewrite <- Z.pow_add_r by lia; f_equal; lia).
      lia. }
  replace (v - v mod 2 ^ k) with (Z.shiftl (Z.shiftr v k) k).
  2:{ rewrite Z.shiftl_mul_pow2, Z.shiftr_div_pow2 by lia.
      pose proof (Z.div_mod v (2 ^ k)). lia. }
  apply Z.bits_inj'. intros i Hi. rewrite Z.land_spec.
  destruct (decide (i < k)).
  { rewrite !Z.shiftl_spec_low by lia. apply andb_false_r. }
  rewrite !Z.shiftl_spec by lia. rewrite Z.shiftr_spec by lia.
  replace (i - k + k) with i by lia.
  destruct (decide (i < w)).
  { rewrite Z.ones_spec_low by lia. apply andb_true_r. }
  rewrite Z.ones_spec_high by lia. rewrite andb_false_r.
  symmetry. rewrite <- (Z.mod_small v (2 ^ w)) by lia. by apply Z.mod_pow2_bits_high; lia.
Qed.

(** [v.saturating_add(2^k - 1) & !(2^k - 1)]: the result is a multiple of [2^k];
    it is the next one above [v] unless the addition saturated, when it is the
    last one of the type. *)
Lemma lor_disjoint a b k : 0 <= k -> 0 <= b < 2 ^ k -> (2 ^ k | a) -> Z.lor a b = a + b.
Proof.
  intros Hk Hb [q ->]. assert (Hd : Z.land (q * 2 ^ k) b = 0).
  { apply Z.bits_inj'. intros n Hn. rewrite Z.land_spec, Z.bits_0. destruct (Z.ltb_spec n k); [by rewrite Z.mul_pow2_bits_low by lia|].
    destruct (Z.eq_dec b 0) as [->|]; [by rewrite Z.bits_0, andb_false_r|]. rewrite (Z.bits_above_log2 b n), andb_false_r; [done|lia|].
    apply Z.log2_lt_pow2; [lia|]. apply Z.lt_le_trans with (2 ^ k); [lia|]. apply Z.pow_le_mono_r; lia. }
  rewrite <- Z.lxor_lor by done. symmetry. by apply Z.add_nocarry_lxor.
Qed.

Lemma align_up_pow2 v k w :
  0 <= k <= w -> 0 <= v < 2 ^ w ->
  let r := Z.land (sat_add (2 ^ w) v (2 ^ k - 1)) (bitnot (2 ^ w) (2 ^ k - 1)) in
  r mod 2 ^ k = 0 /\ 0 <= r <= 2 ^ w - 2 ^ k /\
  (v + 2 ^ k <= 2 ^ w -> v <= r < v + 2 ^ k) /\ (2 ^ w < v + 2 ^ k -> r = 2 ^ w - 2 ^ k).
Proof.
  intros Hk Hv r. assert (0 < 2 ^ k) by (apply Z.pow_pos_nonneg; lia).
  assert (Hle : 2 ^ k <= 2 ^ w) by (apply Z.pow_le_mono_r; lia).
  assert (Hdvd : 2 ^ w mod 2 ^ k = 0).
  { replace w with ((w - k) + k) by lia. rewrite Z.pow_add_r by lia. apply Z.mod_mul; lia. }
  assert (Hr : r = sat_add (2 ^ w) v (2 ^ k - 1) - sat_add (2 ^ w) v (2 ^ k - 1) mod 2 ^ k)
    by (apply land_bitnot_pow2; unfold sat_add; lia).
  set (m := 2 ^ k) in *. set (t := 2 ^ w) in *. clearbody r m t. unfold sat_add in Hr.
  set (u := Z.min (v + (m - 1)) (t - 1)) in *.
  pose proof (Z.div_mod u m). pose proof (Z.mod_pos_bound u m).
  assert (Hq : t = m * (t / m)) by (pose proof (Z.div_mod t m); lia).
  assert (Hrm : r = m * (u / m)) by lia.
  split; [rewrite Hrm, Z.mul_comm; apply Z.mod_mul; lia|].
  assert (Hb : u / m <= t / m - 1).
  { apply Z.lt_le_pred. apply Z.div_lt_upper_bound; lia. }
  assert (0 <= u / m) by (apply Z.div_pos; lia).
  assert (Hs : t < v + m -> t / m - 1 <= u / m).
  { intros Hs. apply Z.div_le_lower_bound; nia. }
  repeat split; nia.
Qed.

Lemma align_down_pow2 v k w :
  0 <= k <= w -> 0 <= v < 2 ^ w ->
  let r := Z.land v (bitnot (2 ^ w) (2 ^ k - 1)) in
  r mod 2 ^ k = 0 /\ 0 <= r <= v /\ v < r + 2 ^ k /\ r <= 2 ^ w - 2 ^ k.
Proof.
  intros Hk Hv r. assert (0 < 2 ^ k) by (apply Z.pow_pos_nonneg; lia).
  assert (Hw : 2 ^ w = 2 ^ (w - k) * 2 ^ k) by (rewrite <- Z.pow_add_r by lia; f_equal; lia).
  unfold r. rewrite land_bitnot_pow2 by lia.
  pose proof (Z.div_mod v (2 ^ k)). pose proof (Z.mod_pos_bound v (2 ^ k)).
  assert (0 <= v / 2 ^ k) by (apply Z.div_pos; lia).
  assert (v / 2 ^ k < 2 ^ (w - k)) by (apply Z.div_lt_upper_bound; lia).
  repeat split; try nia.
  replace (v - v mod 2 ^ k) with (v / 2 ^ k * 2 ^ k) by lia. apply Z.mod_mul; lia.
Qed.

(** The two at the page size and at 64 bits. *)
Lemma align_up_page v :
  0 <= v < U64 ->
  let r := Z.land (sat_add U64 v 4095) (bitnot U64 4095) in
  r mod 4096 = 0 /\ 0 <= r <= U64 - 4096 /\
  (v + 4096 <= U64 -> v <= r < v + 4096) /\ (U64 < v + 4096 -> r = U64 - 4096).
Proof.
  intros Hv. assert (E1 : U64 = 2 ^ 64) by reflexivity. assert (E2 : 4096 = 2 ^ 12) by reflexivity.
  assert (E3 : 4095 = 2 ^ 12 - 1) by reflexivity. rewrite E3, E2, E1 in *. apply align_up_pow2; [split; discriminate|exact Hv].
Qed.

Lemma align_down_page v :
  0 <= v < U64 ->
  let r := Z.land v (bitnot U64 4095) in
  r mod 4096 = 0 /\ 0 <= r <= v /\ v < r + 4096 /\ r <= U64 - 4096.
Proof.
  intros Hv. assert (E1 : U64 = 2 ^ 64) by reflexivity. assert (E2 : 4096 = 2 ^ 12) by reflexivity.
  assert (E3 : 4095 = 2 ^ 12 - 1) by reflexivity. rewrite E3, E2, E1 in *. apply align_down_pow2; [split; discriminate|exact Hv].
Qed.

(** ** Pairwise relations on lists *)
Lemma FOP_mid {A} (R : A -> A -> Prop) `{!Symmetric R} l1 x l2 :
  ForallOrdPairs R (l1 ++ x :: l2) -> forall y, y ∈ l1 ++ l2 -> R x y.
Proof.
  induction l1 as [|z l1 IH]; simpl; intros HF y Hy; inversion HF as [|? ? Hz Htl]; subst.
  - rewrite list.Forall_forall in Hz. by apply Hz.
  - apply elem_of_cons in Hy as [->|Hy]; [|by apply IH].
    rewrite list.Forall_forall in Hz. symmetry. apply Hz. rewrite elem_of_app, elem_of_cons. auto.
Qed.

Lemma FOP_omap {A B} (R : A -> A -> Prop) (S : B -> B -> Prop) (f : A -> option B) l :
  (forall x y u v, f x = Some u -> f y = Some v -> R x y -> S u v) ->
  ForallOrdPairs R l -> ForallOrdPairs S (omap f l).
Proof.
  intros Hf. induction 1 as [|x l Hx _ IH]; [constructor|]. simpl.
  destruct (f x) as [u|] eqn:Hu; [|done]. constructor; [|done].
  apply list.Forall_forall. intros v (y & Hy & Hv)%list_elem_of_omap.
  rewrite list.Forall_forall in Hx. eauto.
Qed.

(** Replacing an element by one the relation cannot tell apart. *)
Lemma FOP_replace {A} (R : A -> A -> Prop) l1 x x' l2 :
  (forall y, R y x -> R y x') -> (forall y, R x y -> R x' y) ->
  ForallOrdPairs R (l1 ++ x :: l2) -> ForallOrdPairs R (l1 ++ x' :: l2).
Proof.
  intros H1 H2. induction l1 as [|z l1 IH]; simpl; inversion 1 as [|? ? Hz Htl]; subst.
  - constructor; [|done]. eapply Forall_impl; eauto.
  - constructor; [|by apply IH].
    apply Forall_app in Hz as [? [? ?]%Forall_cons_iff]. apply Forall_app. split; [done|].
    apply Forall_cons_iff; auto.
Qed.

(** ** Sums over a list *)
Definition zsum {A} (f : A -> Z) (l : list A) : Z := foldr (fun x z => f x + z) 0 l.

Lemma zsum_app {A} (f : A -> Z) l1 l2 : zsum f (l1 ++ l2) = zsum f l1 + zsum f l2.
Proof. unfold zsum. induction l1 as [|x l1 IH]; cbn [foldr app]; [lia|]. rewrite IH. lia. Qed.

Lemma zsum_cons {A} (f : A -> Z) x l : zsum f (x :: l) = f x + zsum f l.
Proof. reflexivity. Qed.

Lemma zsum_bound {A} (f : A -> Z) c l : Forall (fun x => f x <= c) l -> zsum f l <= c * len l.
Proof. induction 1; [unfold zsum, len; simpl; lia|]. rewrite zsum_cons, len_cons. lia. Qed.

Lemma zsum_ext {A} (f g : A -> Z) l : Forall (fun x => f x = g x) l -> zsum f l = zsum g l.
Proof. induction 1; [done|]. rewrite !zsum_cons. lia. Qed.

(** ** The first position that satisfies a test: a search loop with an early return *)
Fixpoint position {A} (P : A -> bool) (l : list A) : option nat :=
  match l with
  | [] => None
  | x :: l' => if P x then Some O else option_map S (position P l')
  end.

Lemma position_Some {A} (P : A -> bool) l i :
  position P l = Some i ->
  (exists x, l !! i = Some x /\ P x = true) /\
  (forall j y, (j < i)%nat -> l !! j = Some y -> P y = false).
Proof.
  revert i. induction l as [|x l IH]; intros i; simpl; [done|]. destruct (P x) eqn:HP.
  { intros [= <-]. split; [by exists x|]. intros; lia. }
  destruct (position P l) as [k|]; simpl; [|done]. intros [= <-]. destruct (IH k eq_refl) as [(y & Hy & HPy) Hlt].
  split; [by exists y|]. intros [|j] z Hj; simpl; [congruence|]. apply Hlt. lia.
Qed.

Lemma position_None {A} (P : A -> bool) l : position P l = None <-> Forall (fun x => P x = false) l.
Proof.
  induction l as [|x l IH]; simpl; [split; auto|]. rewrite Forall_cons_iff, <- IH.
  destruct (P x); [split; [done|intros [? _]; done]|]. destruct (position P l); split; try done; by intros [_ ?].
Qed.

(** [byte_list] of a concrete list, by evaluation. *)
Lemma byte_list_check bs : forallb (fun b => (0 <=? b) && (b <? 256)) bs = true -> byte_list bs.
Proof.
  intros H. rewrite forallb_forall in H. apply list.Forall_forall. intros b Hb.
  specialize (H b (proj1 (list_elem_of_In bs b) Hb)). bool_prop. split; lia.
Qed.

(** ** Bounded loops: [for x in xs] and [for i in a..b] *)
Fixpoint for_each {S E A} (xs : list A) (body : A -> M S E unit) : M S E unit :=
  match xs with
  | [] => ret tt
  | x :: xs' => do! body x in for_each xs' body
  end.
Definition for_range {S E} (a b : Z) (body : Z -> M S E unit) : M S E unit := for_each (seqZ a (b - a)) body.

(** An invariant carried from [a] to [b] by a body that never fails. *)
Lemma for_range_rule {S E} (I : Z -> S -> Prop) a b (body : Z -> M S E unit) s :
  a <= b -> I a s ->
  (forall i s, a <= i < b -> I i s -> exists s', body i s = (Ok tt, s') /\ I (i + 1) s') ->
  exists s', for_range a b body s = (Ok tt, s') /\ I b s'.
Proof.
  intros Hab Ha Hbody. unfold for_range. remember (Z.to_nat (b - a)) as n eqn:Hn.
  revert a Hab s Ha Hbody Hn. induction n as [|n IH]; intros a Hab s Ha Hbody Hn.
  - rewrite seqZ_nil by lia. exists s. split; [done|]. by replace b with a by lia.
  - rewrite seqZ_cons by lia. cbn [for_each]. destruct (Hbody a s) as (s' & Hr & HI); [lia|done|].
    unfold bind. rewrite Hr. replace (Z.succ a) with (a + 1) by lia. replace (Z.pred (b - a)) with (b - (a + 1)) by lia.
    apply (IH (a + 1)); [lia|done| |lia]. intros i s0 Hi. apply Hbody. lia.
Qed.

Lemma for_each_rule {S E A} (I : list A -> S -> Prop) (xs : list A) (body : A -> M S E unit) s :
  I [] s ->
  (forall done_ x rest s, xs = done_ ++ x :: rest -> I done_ s -> exists s', body x s = (Ok tt, s') /\ I (done_ ++ [x]) s') ->
  exists s', for_each xs body s = (Ok tt, s') /\ I xs s'.
Proof.
  intros H0 Hbody. assert (Hg : forall rest pre s, xs = pre ++ rest -> I pre s -> exists s', for_each rest body s = (Ok tt, s') /\ I xs s').
  { induction rest as [|x rest IH]; intros pre s1 Heq HI; cbn [for_each].
    - rewrite app_nil_r in Heq. subst. by exists s1.
    - destruct (Hbody pre x rest s1 Heq HI) as (s2 & Hr & HI2). unfold bind. rewrite Hr.
      apply (IH (pre ++ [x])); [by rewrite <- app_assoc|done]. }
  by apply (Hg xs []).
Qed.
