(* ===== verification/Codec.v ===== *)
(** * Page codec: [kernel/src/mm/compress/{checksum,header,profile_generated,codec}.rs]

    A page of 4096 bytes is encoded as a 16-byte header followed by a payload
    whose form is given by the compression class: nothing (all-zero page), one
    byte (constant page), a token stream (SXRC) or the raw page. Scratch and
    output buffers are the state of the computation ([M (list Z)]), so that what
    an operation leaves in them on an error is modelled too.

    The theorems relate the two directions through a specification of the wire
    format, [stream_of]: the encoder only emits such streams, the decoder accepts
    exactly those that describe 4096 bytes. *)
From stdpp Require Import base list numbers option.
From Stdlib Require Import ZArith Lia Bool.
From S2P Require Import Prelude.

Inductive CompressionClass : Type := Zero | Same | Sxrc | Raw.

Inductive CompressionError : Type :=
| NotInitialized | OutputTooSmall | TruncatedInput | InvalidHeaderMagic
| UnsupportedHeaderVersion | InvalidPayloadLength | InvalidDecodedLength
| ChecksumMismatch | UnsupportedClass.

#[export] Instance CompressionClass_eq_dec : EqDecision CompressionClass.
Proof. solve_decision. Defined.
#[export] Instance CompressionError_eq_dec : EqDecision CompressionError.
Proof. solve_decision. Defined.

Definition class_id (c : CompressionClass) : Z :=
  match c with Zero => 0 | Same => 1 | Sxrc => 2 | Raw => 3 end.

Definition from_id (id : Z) : outcome CompressionError CompressionClass :=
  if id =? 0 then Ok Zero
  else if id =? 1 then Ok Same
  else if id =? 2 then Ok Sxrc
  else if id =? 3 then Ok Raw
  else Err UnsupportedClass.

Record EncodedPage : Type := mkEncodedPage { ep_class : CompressionClass; ep_bytes : list Z }.

Definition HXNU_SXRC_PAGE_SIZE : Z := 4096.
Definition PAGE_BYTES : Z := HXNU_SXRC_PAGE_SIZE.
Definition HEADER_BYTES : Z := 16.
Definition MAX_ENCODED_PAGE_BYTES : Z := HEADER_BYTES + PAGE_BYTES.

(** Loops of the codec advance a position inside a page: [PAGE_BYTES + 1]
    iterations are enough. *)
Definition page_fuel : nat := Z.to_nat (PAGE_BYTES + 1).

Definition is_page (p : list Z) : Prop := len p = PAGE_BYTES /\ byte_list p.

(** [EncodedPage::payload] *)
Definition ep_payload (ep : EncodedPage) : list Z :=
  if HEADER_BYTES <=? len (ep_bytes ep) then drop (Z.to_nat HEADER_BYTES) (ep_bytes ep) else [].

(** Writes through [&mut [u8]]. *)
Definition write_bytes {E} (pos : Z) (bs : list Z) : M (list Z) E unit := fun s =>
  match blit (E:=E) s pos bs with
  | Ok s' => (Ok tt, s')
  | _ => (Panic, s)
  end.

(** A method run on [&mut s[start..]]. *)
Definition on_tail {E A} (start : Z) (m : M (list Z) E A) : M (list Z) E A := fun s =>
  if len s <? start then (Panic, s)
  else zoom (drop (Z.to_nat start)) (fun t s => take (Z.to_nat start) s ++ t) m s.

(** ** checksum.rs *)
Definition FNV1A32_OFFSET_BASIS : Z := 0x811c9dc5.
Definition FNV1A32_PRIME : Z := 0x01000193.

Definition fnv_step (hash byte : Z) : Z := wrap_mul U32 (Z.lxor hash byte) FNV1A32_PRIME.
Definition fnv1a32 (bytes : list Z) : Z := foldl fnv_step FNV1A32_OFFSET_BASIS bytes.

(** ** header.rs *)
Definition MAGIC : Z := le_val [0x48; 0x58; 0x43; 0x50].
Definition VERSION : Z := 1.

Record EncodedHeader : Type :=
  mkHeader { h_class : CompressionClass; payload_len : Z; checksum : Z }.

Definition encode_into (h : EncodedHeader) : M (list Z) CompressionError unit :=
  let! n := gets len in
  if n <? HEADER_BYTES then throw OutputTooSmall else
  do! write_bytes 0 (le_bytes 4 MAGIC) in
  do! write_bytes 4 [VERSION] in
  do! write_bytes 5 [class_id (h_class h)] in
  do! write_bytes 6 (le_bytes 2 (payload_len h)) in
  do! write_bytes 8 (le_bytes 2 (cast U16 PAGE_BYTES)) in
  do! write_bytes 10 (le_bytes 2 0) in
  do! write_bytes 12 (le_bytes 4 (checksum h)) in
  ret tt.

Definition read_u16_le {E} (input : list Z) (offset : Z) : outcome E Z :=
  let? b0 := idx input offset in
  let? o1 := add U64 offset 1 in
  let? b1 := idx input o1 in
  Ok (le_val [b0; b1]).

Definition read_u32_le {E} (input : list Z) (offset : Z) : outcome E Z :=
  let? b0 := idx input offset in
  let? o1 := add U64 offset 1 in
  let? b1 := idx input o1 in
  let? o2 := add U64 offset 2 in
  let? b2 := idx input o2 in
  let? o3 := add U64 offset 3 in
  let? b3 := idx input o3 in
  Ok (le_val [b0; b1; b2; b3]).

Definition header_decode (input : list Z) : outcome CompressionError EncodedHeader :=
  if len input <? HEADER_BYTES then Err TruncatedInput else
  let? magic := read_u32_le input 0 in
  if negb (magic =? MAGIC) then Err InvalidHeaderMagic else
  let? version := idx input 4 in
  if negb (version =? VERSION) then Err UnsupportedHeaderVersion else
  let? id := idx input 5 in
  let? class := from_id id in
  let? plen := read_u16_le input 6 in
  let? decoded_len := read_u16_le input 8 in
  if negb (decoded_len =? cast U16 PAGE_BYTES) then Err InvalidDecodedLength else
  let? sum := read_u32_le input 12 in
  Ok (mkHeader class plen sum).

(** ** profile_generated.rs *)
Definition HXNU_SXRC_STATIC_DICTIONARY : list (Z * Z) :=
  [(0x0001, 0x00000000); (0x0002, 0x0000ffff); (0x0003, 0x000007fe);
   (0x0004, 0x000004ee); (0x0005, 0x00009090)].

Definition HXNU_SXRC_STATIC_PATTERNS : list (Z * list Z) :=
  [(0x0001, [0x48; 0x89; 0xd8]); (0x0002, [0x55])].

(** ** codec.rs: lookups *)
Definition TOKEN_LITERAL : Z := 0.
Definition TOKEN_DICT : Z := 1.
Definition TOKEN_PATTERN : Z := 2.
Definition TOKEN_REF_BYTES : Z := 3.
Definition DICT_DECODE_BYTES : Z := 4.

Fixpoint dict_by_value (d : list (Z * Z)) (value : Z) : option Z :=
  match d with
  | [] => None
  | (id, word) :: d' => if word =? value then Some id else dict_by_value d' value
  end.
Definition lookup_dictionary_by_value (value : Z) : option Z :=
  dict_by_value HXNU_SXRC_STATIC_DICTIONARY value.

Fixpoint assoc_by_id {A} (d : list (Z * A)) (id : Z) : option A :=
  match d with
  | [] => None
  | (entry_id, v) :: d' => if entry_id =? id then Some v else assoc_by_id d' id
  end.
Definition lookup_dictionary_by_id (id : Z) : option Z := assoc_by_id HXNU_SXRC_STATIC_DICTIONARY id.
Definition lookup_pattern_by_id (id : Z) : option (list Z) := assoc_by_id HXNU_SXRC_STATIC_PATTERNS id.

(** ** codec.rs: the token picked at an offset *)
Inductive EncodeToken : Type :=
| Dictionary (id decoded_len : Z)
| Pattern (id decoded_len : Z).

Fixpoint best_pattern_in {E} (pats : list (Z * list Z)) (page : list Z) (offset : Z)
    (best : option (Z * list Z)) : outcome E (option (Z * list Z)) :=
  match pats with
  | [] => Ok best
  | (id, bytes) :: pats' =>
      if len bytes =? 0 then best_pattern_in pats' page offset best else
      let? e := add U64 offset (len bytes) in
      if PAGE_BYTES <? e then best_pattern_in pats' page offset best else
      let? window := slice page offset e in
      if negb (bool_decide (window = bytes)) then best_pattern_in pats' page offset best else
      if match best with None => true | Some (_, current) => len current <? len bytes end
      then best_pattern_in pats' page offset (Some (id, bytes))
      else best_pattern_in pats' page offset best
  end.
Definition best_pattern_at {E} (page : list Z) (offset : Z) : outcome E (option (Z * list Z)) :=
  best_pattern_in HXNU_SXRC_STATIC_PATTERNS page offset None.

Definition pick_token {E} (page : list Z) (offset : Z) : outcome E (option EncodeToken) :=
  let? e := add U64 offset DICT_DECODE_BYTES in
  let? best :=
    if e <=? PAGE_BYTES then
      let? value := read_u32_le page offset in
      match lookup_dictionary_by_value value with
      | Some id =>
          let savings := sat_sub DICT_DECODE_BYTES TOKEN_REF_BYTES in
          if 0 <? savings then Ok (Some (savings, Dictionary id DICT_DECODE_BYTES)) else Ok None
      | None => Ok None
      end
    else Ok None in
  let? pat := best_pattern_at page offset in
  let best :=
    match pat with
    | Some (id, bytes) =>
        let decoded_len := len bytes in
        let savings := sat_sub decoded_len TOKEN_REF_BYTES in
        if 0 <? savings then
          if match best with None => true | Some (current_savings, _) => current_savings <? savings end
          then Some (savings, Pattern id decoded_len) else best
        else best
    | None => best
    end in
  Ok (option_map snd best).

(** ** codec.rs: encoding *)

(** [write.checked_add(n).is_none_or(|end| end > limit)] *)
Definition exceeds (pos n limit : Z) : bool :=
  match chk_add U64 pos n with None => true | Some e => limit <? e end.

Definition emit_literal_step (bytes : list Z) (st : Z * Z)
    : M (list Z) CompressionError ((Z * Z) + Z) :=
  let '(write, offset) := st in
  if offset <? len bytes then
    let chunk := Z.min (len bytes - offset) 255 in
    let needed := sat_add U64 2 chunk in
    let! n := gets len in
    if exceeds write needed n then throw OutputTooSmall else
    do! write_bytes write [TOKEN_LITERAL] in
    let! w1 := lift (add U64 write 1) in
    do! write_bytes w1 [cast U8 chunk] in
    let! o1 := lift (add U64 offset chunk) in
    let! run := lift (slice bytes offset o1) in
    let! w2 := lift (add U64 write 2) in
    do! write_bytes w2 run in
    ret (inl (sat_add U64 write needed, sat_add U64 offset chunk))
  else ret (inr write).
Definition emit_literal_run (write : Z) (bytes : list Z) : M (list Z) CompressionError Z :=
  loop (S (length bytes)) (emit_literal_step bytes) (write, 0).

Definition emit_ref_token (write tag id : Z) : M (list Z) CompressionError Z :=
  let! n := gets len in
  if exceeds write TOKEN_REF_BYTES n then throw OutputTooSmall else
  do! write_bytes write [tag] in
  let! w1 := lift (add U64 write 1) in
  do! write_bytes w1 (le_bytes 2 id) in
  lift (add U64 write TOKEN_REF_BYTES).

Record enc_locals : Type := mkEnc { e_read : Z; e_write : Z; e_start : Z; e_llen : Z }.

(** [emit_literal_run(out, write, &page[literal_start..literal_start + literal_len])] *)
Definition flush_literals (page : list Z) (l : enc_locals) : M (list Z) CompressionError Z :=
  let! e := lift (add U64 (e_start l) (e_llen l)) in
  let! run := lift (slice page (e_start l) e) in
  emit_literal_run (e_write l) run.

(** [if literal_len > 0 { write = ..; literal_len = 0; }] *)
Definition flush_pending (page : list Z) (l : enc_locals) : M (list Z) CompressionError (Z * Z) :=
  if 0 <? e_llen l then let! w := flush_literals page l in ret (w, 0)
  else ret (e_write l, e_llen l).

Definition encode_sxrc_step (page : list Z) (l : enc_locals)
    : M (list Z) CompressionError (enc_locals + enc_locals) :=
  if e_read l <? PAGE_BYTES then
    let! tok := lift (pick_token page (e_read l)) in
    match tok with
    | Some token =>
        let! '(write, llen) := flush_pending page l in
        match token with
        | Dictionary id decoded_len =>
            let! write := emit_ref_token write TOKEN_DICT id in
            ret (inl (mkEnc (sat_add U64 (e_read l) decoded_len) write (e_start l) llen))
        | Pattern id decoded_len =>
            let! write := emit_ref_token write TOKEN_PATTERN id in
            ret (inl (mkEnc (sat_add U64 (e_read l) decoded_len) write (e_start l) llen))
        end
    | None =>
        let start := if e_llen l =? 0 then e_read l else e_start l in
        let llen := sat_add U64 (e_llen l) 1 in
        let l' := mkEnc (sat_add U64 (e_read l) 1) (e_write l) start llen in
        if llen =? 255 then
          let! w := flush_literals page l' in
          ret (inl (mkEnc (e_read l') w start 0))
        else ret (inl l')
    end
  else ret (inr l).

Definition encode_sxrc_payload (page : list Z) : M (list Z) CompressionError Z :=
  let! l := loop page_fuel (encode_sxrc_step page) (mkEnc 0 0 0 0) in
  if 0 <? e_llen l then flush_literals page l else ret (e_write l).

Definition is_zero_page (page : list Z) : bool := forallb (fun b => b =? 0) page.
Definition is_same_page (page : list Z) : outcome CompressionError bool :=
  let? first := idx page 0 in
  Ok (forallb (fun b => b =? first) page).

(** The [match encode_sxrc_payload(..)] of [encode_page]: SXRC when it is
    smaller than the page, the raw page otherwise. *)
Definition encode_sxrc_or_raw (page : list Z) : M (list Z) CompressionError (CompressionClass * Z) :=
  catch (encode_sxrc_payload page) (fun r =>
    let fallback : M (list Z) CompressionError (CompressionClass * Z) :=
      do! write_bytes 0 page in ret (Raw, PAGE_BYTES) in
    match r with
    | inl sxrc_len => if sxrc_len <? PAGE_BYTES then ret (Sxrc, sxrc_len) else fallback
    | inr OutputTooSmall => fallback
    | inr error => throw error
    end).

Definition encode_page (page : list Z) : M (list Z) CompressionError EncodedPage :=
  let! n := gets len in
  if n <? HEADER_BYTES then throw OutputTooSmall else
  let! '(class, plen) :=
    if is_zero_page page then ret (Zero, 0) else
    let! same := lift (is_same_page page) in
    if same then
      if n <? HEADER_BYTES + 1 then throw OutputTooSmall else
      let! first := lift (idx page 0) in
      do! write_bytes HEADER_BYTES [first] in
      ret (Same, 1)
    else
      if n <? HEADER_BYTES + PAGE_BYTES then throw OutputTooSmall else
      on_tail HEADER_BYTES (encode_sxrc_or_raw page) in
  let! encoded_len := lift (ok_or InvalidPayloadLength (chk_add U64 HEADER_BYTES plen)) in
  let! scratch := gets id in
  let! payload := lift (slice scratch HEADER_BYTES encoded_len) in
  do! encode_into (mkHeader class (cast U16 plen) (fnv1a32 payload)) in
  let! scratch := gets id in
  let! bytes := lift (slice scratch 0 encoded_len) in
  ret (mkEncodedPage class bytes).

(** ** codec.rs: decoding *)
Definition read_u16 (payload : list Z) (read : Z) : outcome CompressionError (Z * Z) :=
  if exceeds read 2 (len payload) then Err InvalidPayloadLength else
  let? b0 := idx payload read in
  let? r1 := add U64 read 1 in
  let? b1 := idx payload r1 in
  Ok (le_val [b0; b1], sat_add U64 read 2).

Definition decode_sxrc_step (payload : list Z) (st : Z * Z)
    : M (list Z) CompressionError ((Z * Z) + Z) :=
  let '(read, write) := st in
  if write <? PAGE_BYTES then
    if len payload <=? read then throw InvalidPayloadLength else
    let! token := lift (idx payload read) in
    let read := sat_add U64 read 1 in
    if token =? TOKEN_LITERAL then
      if len payload <=? read then throw InvalidPayloadLength else
      let! n := lift (idx payload read) in
      let read := sat_add U64 read 1 in
      if n =? 0 then throw InvalidPayloadLength else
      if exceeds read n (len payload) then throw InvalidPayloadLength else
      if exceeds write n PAGE_BYTES then throw InvalidPayloadLength else
      let! e := lift (add U64 read n) in
      let! run := lift (slice payload read e) in
      do! write_bytes write run in
      ret (inl (sat_add U64 read n, sat_add U64 write n))
    else if token =? TOKEN_DICT then
      let! '(id, read) := lift (read_u16 payload read) in
      let! value := lift (ok_or InvalidPayloadLength (lookup_dictionary_by_id id)) in
      if exceeds write DICT_DECODE_BYTES PAGE_BYTES then throw InvalidPayloadLength else
      do! write_bytes write (le_bytes 4 value) in
      ret (inl (read, sat_add U64 write DICT_DECODE_BYTES))
    else if token =? TOKEN_PATTERN then
      let! '(id, read) := lift (read_u16 payload read) in
      let! bytes := lift (ok_or InvalidPayloadLength (lookup_pattern_by_id id)) in
      if exceeds write (len bytes) PAGE_BYTES then throw InvalidPayloadLength else
      do! write_bytes write bytes in
      ret (inl (read, sat_add U64 write (len bytes)))
    else throw InvalidPayloadLength
  else ret (inr read).

Definition decode_sxrc_payload (payload : list Z) : M (list Z) CompressionError unit :=
  let! read := loop page_fuel (decode_sxrc_step payload) (0, 0) in
  if negb (read =? len payload) then throw InvalidPayloadLength else ret tt.

(** [out.fill(b)] *)
Definition fill {E} (b : Z) : M (list Z) E unit := modify (fun out => replicate (length out) b).

(** The [match header.class()] of [decode_page]. *)
Definition decode_payload (class : CompressionClass) (payload : list Z) : M (list Z) CompressionError unit :=
  match class with
  | Zero => if negb (len payload =? 0) then throw InvalidPayloadLength else fill 0
  | Same => if negb (len payload =? 1) then throw InvalidPayloadLength else
            let! b := lift (idx payload 0) in fill b
  | Raw => if negb (len payload =? PAGE_BYTES) then throw InvalidPayloadLength
           else write_bytes 0 payload
  | Sxrc => decode_sxrc_payload payload
  end.

Definition decode_page (encoded : list Z) : M (list Z) CompressionError CompressionClass :=
  let! header := lift (header_decode encoded) in
  let plen := payload_len header in
  let! encoded_len := lift (ok_or InvalidPayloadLength (chk_add U64 HEADER_BYTES plen)) in
  if negb (len encoded =? encoded_len) then throw InvalidPayloadLength else
  let! payload := lift (slice encoded HEADER_BYTES encoded_len) in
  if negb (fnv1a32 payload =? checksum header) then throw ChecksumMismatch else
  do! decode_payload (h_class header) payload in
  ret (h_class header).
