(* ===== verification/CodecFacts.v ===== *)
(** * Page codec: the wire format and the theorems

    [stream_of] specifies the SXRC token stream independently of the two loops.
    The encoder's output is shown to be such a stream for the page
    ([encode_sxrc_payload_spec]); the decoder restores exactly the bytes a stream
    describes ([decode_sxrc_stream]) and, on arbitrary input, never panics and
    accepts nothing else ([decode_sxrc_payload_spec]). The page-level theorems
    add the header, the checksum and the choice of the compression class. *)
From stdpp Require Import base list numbers option.
From Stdlib Require Import ZArith Lia Bool.
From S2P Require Import Prelude Codec.

(** * The wire format *)

(** One token of a SXRC payload and the page bytes it stands for. *)
Inductive chunk : list Z -> list Z -> Prop :=
| chunk_literal bs : 1 <= len bs <= 255 -> chunk (TOKEN_LITERAL :: len bs :: bs) bs
| chunk_dict id w : lookup_dictionary_by_id id = Some w ->
    chunk (TOKEN_DICT :: le_bytes 2 id) (le_bytes 4 w)
| chunk_pattern id bs : lookup_pattern_by_id id = Some bs ->
    chunk (TOKEN_PATTERN :: le_bytes 2 id) bs.

(** [stream_of toks p]: the token stream [toks] describes the bytes [p]. *)
Inductive stream_of : list Z -> list Z -> Prop :=
| stream_nil : stream_of [] []
| stream_cons tok bs toks p : chunk tok bs -> stream_of toks p -> stream_of (tok ++ toks) (bs ++ p).

Create HintDb codec.
#[export] Hint Constructors chunk stream_of : codec.

Lemma stream_one tok bs : chunk tok bs -> stream_of tok bs.
Proof.
  intros H. rewrite <- (app_nil_r tok), <- (app_nil_r bs). by constructor; [|constructor].
Qed.

Lemma stream_app t1 p1 t2 p2 :
  stream_of t1 p1 -> stream_of t2 p2 -> stream_of (t1 ++ t2) (p1 ++ p2).
Proof.
  induction 1 as [|tok bs toks p Hc _ IH]; intros H2; [done|].
  rewrite <- !app_assoc. constructor; auto.
Qed.
#[export] Hint Resolve stream_one stream_app : codec.

(** * Lemmas *)

(** Linear arithmetic with the layout constants unfolded. *)
Ltac plia := unfold MAX_ENCODED_PAGE_BYTES, HEADER_BYTES, PAGE_BYTES, HXNU_SXRC_PAGE_SIZE in *; lia.

Lemma exceeds_spec pos n limit : limit < U64 -> exceeds pos n limit = (limit <? pos + n).
Proof.
  intros H. unfold exceeds, chk_add. destruct (Z.ltb_spec (pos + n) U64); [done|].
  symmetry. apply Z.ltb_lt. lia.
Qed.

Lemma write_bytes_app {E} pos done_ rest bs :
  pos = len done_ -> len bs <= len rest ->
  write_bytes (E:=E) pos bs (done_ ++ rest) = (Ok tt, (done_ ++ bs) ++ drop (length bs) rest).
Proof.
  intros -> Hl. unfold write_bytes.
  rewrite <- (take_drop (length bs) rest) at 1.
  rewrite blit_app; [by rewrite app_assoc|done|]. len_solve.
Qed.

(** Splits of a run of bytes at the position a loop has reached. *)
Lemma take_add {A} (l : list A) (a b : Z) :
  0 <= a -> 0 <= b ->
  take (Z.to_nat (a + b)) l = take (Z.to_nat a) l ++ take (Z.to_nat b) (drop (Z.to_nat a) l).
Proof. intros. rewrite Z2Nat.inj_add by lia. by rewrite take_take_drop. Qed.

Section emit.
(** What an emitting operation establishes from an output buffer [done ++ rest]:
    either it ran out of room, or it appended a token stream for [bs]. *)
Definition emitted (done_ rest bs : list Z) (r : outcome CompressionError Z * list Z) : Prop :=
  match r with
  | (Ok w, s) => exists toks rest', s = (done_ ++ toks) ++ rest' /\ w = len (done_ ++ toks) /\
      stream_of toks bs /\ length s = length (done_ ++ rest)
  | (Err e, s) => e = OutputTooSmall /\ length s = length (done_ ++ rest)
  | _ => False
  end.

Lemma emit_ref_token_spec done_ rest tag id bs :
  len (done_ ++ rest) < U64 - 512 -> chunk (tag :: le_bytes 2 id) bs ->
  emitted done_ rest bs (emit_ref_token (len done_) tag id (done_ ++ rest)).
Proof.
  intros Hlen Hc. unfold emit_ref_token, bind, gets. rewrite exceeds_spec by lia.
  unfold TOKEN_REF_BYTES. destruct (Z.ltb_spec (len (done_ ++ rest)) (len done_ + 3)); [done|].
  rewrite len_app in *. rewrite write_bytes_app by (done || len_solve).
  unfold lift. rewrite add_ok by len_solve.
  rewrite write_bytes_app by len_solve. rewrite add_ok by len_solve. simpl.
  exists (tag :: le_bytes 2 id), (drop 2 (drop 1 rest)).
  split; [|split; [|split; [by apply stream_one|]]]; try len_solve.
  by rewrite <- !app_assoc.
Qed.

Lemma emit_literal_run_spec done_ rest bs :
  len (done_ ++ rest) < U64 - 512 -> len bs < U64 - 512 ->
  emitted done_ rest bs (emit_literal_run (len done_) bs (done_ ++ rest)).
Proof.
  intros Hlen Hbs. unfold emit_literal_run.
  apply (loop_rule _
    (fun st s => exists toks rest', s = (done_ ++ toks) ++ rest' /\ fst st = len (done_ ++ toks) /\
       0 <= snd st <= len bs /\ stream_of toks (take (Z.to_nat (snd st)) bs) /\
       length s = length (done_ ++ rest))
    _ (fun st => Z.to_nat (len bs - snd st))).
  2:{ simpl. len_solve. }
  2:{ exists [], rest. rewrite app_nil_r. simpl. repeat split; eauto with codec; len_solve. }
  intros [write offset] s (toks & rest' & -> & Hw & Ho & Hs & Hl). simpl in Hw, Ho, Hs.
  unfold emit_literal_step.
  destruct (Z.ltb_spec offset (len bs)) as [Hlt|Hge]; cbn [ret].
  2:{ unfold emitted, ret. exists toks, rest'. repeat split; auto.
      rewrite take_ge in Hs by len_solve. done. }
  set (chunk_ := Z.min (len bs - offset) 255).
  assert (1 <= chunk_ <= 255) by lia.
  unfold sat_add. rewrite (Z.min_l (2 + chunk_)) by lia.
  assert (len ((done_ ++ toks) ++ rest') < U64 - 512).
  { unfold len in *. rewrite Hl. done. }
  unfold bind, gets, lift. rewrite exceeds_spec by lia.
  destruct (Z.ltb_spec (len ((done_ ++ toks) ++ rest')) (write + (2 + chunk_))); [done|].
  subst write. rewrite len_app in *.
  rewrite write_bytes_app by (done || len_solve).
  rewrite !add_ok by (rewrite ?len_app in *; len_solve).
  rewrite write_bytes_app by len_solve.
  rewrite slice_ok by lia. replace (offset + chunk_ - offset) with chunk_ by lia.
  set (run := take (Z.to_nat chunk_) (drop (Z.to_nat offset) bs)).
  assert (len run = chunk_) by (unfold run; len_solve).
  rewrite write_bytes_app by len_solve.
  assert (0 <= cast U8 chunk_ /\ cast U8 chunk_ = len run) as [_ ->].
  { unfold cast. rewrite Z.mod_small by lia. lia. }
  unfold ret. cbn [fst snd]. split.
  - exists (toks ++ TOKEN_LITERAL :: len run :: run), (drop (length run) (drop 1 (drop 1 rest'))).
    rewrite !Z.min_l by (rewrite ?len_app in *; len_solve).
    split; [by rewrite <- !app_assoc|].
    split; [len_solve|]. split; [lia|]. split; [|len_solve].
    rewrite take_add by lia. apply stream_app; [done|]. fold run. apply stream_one, chunk_literal. lia.
  - lia.
Qed.
End emit.

(** ** Reading little-endian fields *)
Lemma idx_drop {E A} (l : list A) o i x rest :
  0 <= o -> 0 <= i -> drop (Z.to_nat o) l = rest -> rest !! Z.to_nat i = Some x ->
  idx (E:=E) l (o + i) = Ok x.
Proof.
  intros Ho Hi <- Hx. apply idx_ok; [lia|]. rewrite lookup_drop in Hx. rewrite Z2Nat.inj_add by lia. done.
Qed.

Lemma drop_cons_inv {A} (l : list A) o :
  0 <= o < len l -> exists x rest, drop (Z.to_nat o) l = x :: rest /\ len rest = len l - o - 1.
Proof.
  intros Ho. destruct (drop (Z.to_nat o) l) as [|x rest] eqn:Hd.
  - apply (f_equal length) in Hd. len_solve.
  - exists x, rest. split; [done|]. apply (f_equal length) in Hd. len_solve.
Qed.

Lemma read_u16_le_spec {E} l o :
  0 <= o -> o + 2 <= len l -> len l < U64 ->
  read_u16_le (E:=E) l o = Ok (le_val (take 2 (drop (Z.to_nat o) l))).
Proof.
  intros Ho Hl HU. destruct (drop_cons_inv l o) as (b0 & r & Hd & Hr); [lia|].
  destruct r as [|b1 r]; [rewrite len_nil in Hr; lia|].
  unfold read_u16_le. rewrite (idx_ok _ _ b0); [|done|by rewrite <- (Nat.add_0_r (Z.to_nat o)), <- lookup_drop, Hd].
  cbn [obind]. rewrite add_ok by lia. cbn [obind]. by rewrite (idx_drop _ _ 1 b1 _ Ho ltac:(lia) Hd eq_refl), Hd.
Qed.

Lemma read_u32_le_spec {E} l o :
  0 <= o -> o + 4 <= len l -> len l < U64 ->
  read_u32_le (E:=E) l o = Ok (le_val (take 4 (drop (Z.to_nat o) l))).
Proof.
  intros Ho Hl HU. destruct (drop_cons_inv l o) as (b0 & r & Hd & Hr); [lia|].
  destruct r as [|b1 [|b2 [|b3 r]]]; rewrite ?len_cons, ?len_nil in Hr; try lia.
  unfold read_u32_le. rewrite (idx_ok _ _ b0); [|done|by rewrite <- (Nat.add_0_r (Z.to_nat o)), <- lookup_drop, Hd].
  cbn [obind]. rewrite !add_ok by lia. cbn [obind].
  rewrite (idx_drop _ _ 1 b1 _ Ho ltac:(lia) Hd eq_refl), (idx_drop _ _ 2 b2 _ Ho ltac:(lia) Hd eq_refl),
    (idx_drop _ _ 3 b3 _ Ho ltac:(lia) Hd eq_refl), Hd. done.
Qed.

Lemma byte_list_sub l n k : byte_list l -> byte_list (take n (drop k l)).
Proof. intros H. by apply Forall_take, Forall_drop. Qed.

(** ** The static tables *)
Lemma dictionary_value_id v id : lookup_dictionary_by_value v = Some id -> lookup_dictionary_by_id id = Some v.
Proof.
  unfold lookup_dictionary_by_value, HXNU_SXRC_STATIC_DICTIONARY, dict_by_value.
  repeat (bdestruct_if; [intros [= <-]; subst; reflexivity|]). done.
Qed.

Lemma pattern_in_table id bs : (id, bs) ∈ HXNU_SXRC_STATIC_PATTERNS -> lookup_pattern_by_id id = Some bs.
Proof.
  unfold HXNU_SXRC_STATIC_PATTERNS. rewrite !elem_of_cons.
  intros [[= -> ->]|[[= -> ->]|H]]; [done|done|]. by apply elem_of_nil in H.
Qed.

Lemma pattern_len id bs : lookup_pattern_by_id id = Some bs -> 1 <= len bs <= 3.
Proof.
  unfold lookup_pattern_by_id, HXNU_SXRC_STATIC_PATTERNS, assoc_by_id.
  repeat (bdestruct_if; [intros [= <-]; vm_compute; intuition congruence|]). done.
Qed.

Lemma table_ids id : (exists w, lookup_dictionary_by_id id = Some w) \/ (exists bs, lookup_pattern_by_id id = Some bs) ->
  0 <= id < U16.
Proof.
  unfold lookup_dictionary_by_id, lookup_pattern_by_id, HXNU_SXRC_STATIC_DICTIONARY,
    HXNU_SXRC_STATIC_PATTERNS, assoc_by_id.
  intros [[w H]|[bs H]]; revert H; repeat (bdestruct_if; [lia|]); done.
Qed.

Lemma dictionary_word_range id w : lookup_dictionary_by_id id = Some w -> 0 <= w < U32.
Proof.
  unfold lookup_dictionary_by_id, HXNU_SXRC_STATIC_DICTIONARY, assoc_by_id.
  repeat (bdestruct_if; [intros [= <-]; lia|]). done.
Qed.

(** ** The token picked is one the page really contains at that offset *)
Definition token_at (page : list Z) (off : Z) (t : EncodeToken) : Prop :=
  match t with
  | Dictionary id n => exists w, lookup_dictionary_by_id id = Some w /\ n = 4 /\ off + n <= PAGE_BYTES /\
      take (Z.to_nat n) (drop (Z.to_nat off) page) = le_bytes 4 w
  | Pattern id n => exists bs, lookup_pattern_by_id id = Some bs /\ n = len bs /\ off + n <= PAGE_BYTES /\
      take (Z.to_nat n) (drop (Z.to_nat off) page) = bs
  end.

Lemma best_pattern_in_spec {E} pats page off best :
  len page = PAGE_BYTES -> 0 <= off <= PAGE_BYTES ->
  (forall id bs, (id, bs) ∈ pats -> len bs < 1000) ->
  exists r, best_pattern_in (E:=E) pats page off best = Ok r /\
    (r = best \/ exists id bs, r = Some (id, bs) /\ (id, bs) ∈ pats /\ off + len bs <= PAGE_BYTES /\
       take (length bs) (drop (Z.to_nat off) page) = bs).
Proof.
  intros Hp Hoff. revert best. induction pats as [|[id bs] pats IH]; intros best Hsmall; simpl; [by eauto|].
  assert (len bs < 1000) by (eapply Hsmall; left).
  assert (forall b', exists r, best_pattern_in (E:=E) pats page off b' = Ok r /\
    (r = b' \/ exists id0 bs0, r = Some (id0, bs0) /\ (id0, bs0) ∈ (id, bs) :: pats /\
      off + len bs0 <= PAGE_BYTES /\ take (length bs0) (drop (Z.to_nat off) page) = bs0)) as IH'.
  { intros b'. destruct (IH b') as (r & Hr & Hcase); [intros; eapply Hsmall; by right|].
    exists r. split; [done|]. destruct Hcase as [|(i0 & b0 & ? & ? & ? & ?)]; [by left|right].
    exists i0, b0. repeat split; auto. by right. }
  destruct (len bs =? 0); [apply IH'|].
  unfold PAGE_BYTES, HXNU_SXRC_PAGE_SIZE in *.
  rewrite add_ok by lia. cbn [obind]. destruct (Z.ltb_spec 4096 (off + len bs)); [apply IH'|].
  rewrite slice_ok by (pose proof (len_nonneg bs); lia). cbn [obind].
  replace (Z.to_nat (off + len bs - off)) with (length bs) by len_solve.
  case_bool_decide as Hw; cbn [negb]; [|apply IH'].
  destruct (match best with Some (_, c) => len c <? len bs | None => true end); [|apply IH'].
  destruct (IH' (Some (id, bs))) as (r & Hr & Hcase). exists r. split; [done|]. right.
  destruct Hcase as [->|?]; [|done]. exists id, bs. repeat split; auto. left.
Qed.

Lemma pick_token_spec {E} page off :
  is_page page -> 0 <= off < PAGE_BYTES ->
  exists r, pick_token (E:=E) page off = Ok r /\ match r with Some t => token_at page off t | None => True end.
Proof.
  intros [Hp Hb] Hoff. unfold pick_token, best_pattern_at, DICT_DECODE_BYTES.
  unfold PAGE_BYTES, HXNU_SXRC_PAGE_SIZE in *. rewrite add_ok by lia. cbn [obind].
  destruct (best_pattern_in_spec (E:=E) HXNU_SXRC_STATIC_PATTERNS page off None) as (pr & -> & Hpr);
    [done|plia| |].
  { intros id bs Hin. apply pattern_in_table, pattern_len in Hin. lia. }
  set (D := if off + 4 <=? 4096 then _ else _).
  assert (exists d, D = Ok d /\ match d with Some (_, t) => token_at page off t | None => True end)
    as (d & -> & Hd).
  { unfold D. destruct (Z.leb_spec (off + 4) 4096); [|by exists None].
    rewrite read_u32_le_spec by lia. cbn [obind].
    destruct (lookup_dictionary_by_value _) as [id|] eqn:Hv; [|by exists None].
    eexists. split; [reflexivity|]. cbn. apply dictionary_value_id in Hv.
    eexists. split; [exact Hv|]. split; [done|]. split; [plia|].
    change (Z.to_nat 4) with 4%nat.
    pose proof (le_bytes_val (take 4 (drop (Z.to_nat off) page)) (byte_list_sub _ _ _ Hb)) as HW.
    replace (length _) with 4%nat in HW by len_solve. done. }
  cbn [obind]. eexists. split; [reflexivity|].
  destruct pr as [[id bs]|]; [|destruct d as [[? ?]|]; done].
  destruct Hpr as [|(id' & bs' & [= <- <-] & Hin & Hle & Htk)]; [done|].
  apply pattern_in_table in Hin.
  destruct (0 <? _); [|destruct d as [[? ?]|]; done].
  destruct (match d with Some _ => _ | None => true end); [|destruct d as [[? ?]|]; done].
  cbn. exists bs. repeat split; auto. by unfold len; rewrite Nat2Z.id.
Qed.

(** ** The encoder emits a stream for the page *)
Lemma flush_literals_spec page l done_ rest :
  len page = PAGE_BYTES -> len (done_ ++ rest) < U64 - 512 ->
  e_write l = len done_ -> 0 <= e_llen l <= e_read l -> e_read l <= PAGE_BYTES ->
  e_start l = e_read l - e_llen l ->
  emitted done_ rest (take (Z.to_nat (e_llen l)) (drop (Z.to_nat (e_read l - e_llen l)) page))
    (flush_literals page l (done_ ++ rest)).
Proof.
  intros Hp Hl Hw Hll Hr Hs. unfold flush_literals, bind, lift.
  unfold PAGE_BYTES, HXNU_SXRC_PAGE_SIZE in *.
  rewrite Hs, add_ok by lia. rewrite slice_ok by lia.
  replace (_ + _ - _) with (e_llen l) by lia. rewrite Hw.
  apply emit_literal_run_spec; [done|]. len_solve.
Qed.

Definition enc_inv (page out : list Z) (l : enc_locals) (s : list Z) : Prop :=
  exists done_ rest, s = done_ ++ rest /\ e_write l = len done_ /\ 0 <= e_llen l < 255 /\
    e_llen l <= e_read l <= PAGE_BYTES /\ (0 < e_llen l -> e_start l = e_read l - e_llen l) /\
    stream_of done_ (take (Z.to_nat (e_read l - e_llen l)) page) /\ length s = length out.

(** Flushing the pending literals completes the stream up to [e_read l]. *)
Lemma flush_completes page l (out done_ rest : list Z) :
  len page = PAGE_BYTES -> len out < U64 - 512 -> length (done_ ++ rest) = length out ->
  e_write l = len done_ -> 0 < e_llen l <= e_read l -> e_read l <= PAGE_BYTES ->
  e_start l = e_read l - e_llen l ->
  stream_of done_ (take (Z.to_nat (e_read l - e_llen l)) page) ->
  match flush_literals page l (done_ ++ rest) with
  | (Ok w, s) => exists done' rest', s = done' ++ rest' /\ w = len done' /\
      stream_of done' (take (Z.to_nat (e_read l)) page) /\ length s = length out
  | (Err e, s) => e = OutputTooSmall /\ length s = length out
  | _ => False
  end.
Proof.
  intros Hp Ho Hl Hw Hll Hr Hs Hst.
  assert (Hlen' : len (done_ ++ rest) < U64 - 512) by (unfold len in *; lia).
  pose proof (flush_literals_spec page l done_ rest Hp Hlen' Hw ltac:(lia) Hr Hs) as H'.
  destruct (flush_literals page l (done_ ++ rest)) as [[w|e| |] s]; cbn in *; try done;
    [|by rewrite <- Hl].
  destruct H' as (toks & rest' & -> & -> & Hs' & Hlen). exists (done_ ++ toks), rest'.
  repeat split; [|by rewrite <- Hl].
  replace (e_read l) with ((e_read l - e_llen l) + e_llen l) at 1 by lia.
  rewrite take_add by lia. by apply stream_app.
Qed.

(** The optional flush before a token: afterwards no literal is pending. *)
Lemma pending_flushed page l (out done_ rest : list Z) :
  len page = PAGE_BYTES -> len out < U64 - 512 -> length (done_ ++ rest) = length out ->
  e_write l = len done_ -> 0 <= e_llen l <= e_read l -> e_read l <= PAGE_BYTES ->
  (0 < e_llen l -> e_start l = e_read l - e_llen l) ->
  stream_of done_ (take (Z.to_nat (e_read l - e_llen l)) page) ->
  match flush_pending page l (done_ ++ rest) with
  | (Ok (w, n), s) => n = 0 /\ exists done' rest', s = done' ++ rest' /\ w = len done' /\
      stream_of done' (take (Z.to_nat (e_read l)) page) /\ length s = length out
  | (Err e, s) => e = OutputTooSmall /\ length s = length out
  | _ => False
  end.
Proof.
  intros Hp Ho Hl Hw Hll Hr Hs Hst. unfold flush_pending. destruct (Z.ltb_spec 0 (e_llen l)).
  - pose proof (flush_completes page l out done_ rest Hp Ho Hl Hw ltac:(lia) Hr ltac:(auto) Hst) as Hf.
    unfold bind. destruct (flush_literals page l (done_ ++ rest)) as [[w|e| |] s]; try done.
  - unfold ret. split; [lia|]. exists done_, rest. repeat split; auto.
    by replace (e_read l - e_llen l) with (e_read l) in Hst by lia.
Qed.

(** Emitting a token that the page contains at [off]. *)
Lemma emit_token_at page (out done_ rest : list Z) off start tag id n bs :
  len out < U64 - 512 -> length (done_ ++ rest) = length out ->
  stream_of done_ (take (Z.to_nat off) page) -> 0 <= off -> 0 < n -> off + n <= PAGE_BYTES ->
  take (Z.to_nat n) (drop (Z.to_nat off) page) = bs -> chunk (tag :: le_bytes 2 id) bs ->
  match emit_ref_token (len done_) tag id (done_ ++ rest) with
  | (Ok w, s) => enc_inv page out (mkEnc (sat_add U64 off n) w start 0) s /\
      (Z.to_nat (PAGE_BYTES - sat_add U64 off n) < Z.to_nat (PAGE_BYTES - off))%nat
  | (Err e, s) => e = OutputTooSmall /\ length s = length out
  | _ => False
  end.
Proof.
  intros Ho Hl Hst Hoff Hn Hle Hbs Hc.
  assert (Hlen' : len (done_ ++ rest) < U64 - 512) by (unfold len in *; lia).
  pose proof (emit_ref_token_spec done_ rest tag id bs Hlen' Hc) as He.
  destruct (emit_ref_token (len done_) tag id (done_ ++ rest)) as [[w|e| |] s]; cbn in He; try done;
    [|by rewrite <- Hl].
  destruct He as (toks & rest' & -> & -> & Hs & Hlen).
  unfold sat_add. unfold PAGE_BYTES, HXNU_SXRC_PAGE_SIZE in *. rewrite Z.min_l by lia.
  split; [|lia]. exists (done_ ++ toks), rest'. cbn.
  repeat split; try plia.
  rewrite Z.sub_0_r, take_add, Hbs by lia. by apply stream_app.
Qed.

Lemma encode_sxrc_step_inv page out l s :
  is_page page -> len out < U64 - 512 -> enc_inv page out l s ->
  match encode_sxrc_step page l s with
  | (Ok (inl l'), s') => enc_inv page out l' s' /\
      (Z.to_nat (PAGE_BYTES - e_read l') < Z.to_nat (PAGE_BYTES - e_read l))%nat
  | (Ok (inr l'), s') => enc_inv page out l' s' /\ e_read l' = PAGE_BYTES
  | (Err e, s') => e = OutputTooSmall /\ length s' = length out
  | _ => False
  end.
Proof.
  intros Hp Ho (done_ & rest & -> & Hw & Hll & Hr & Hst & Hstream & Hlen).
  unfold encode_sxrc_step. destruct (Z.ltb_spec (e_read l) PAGE_BYTES) as [Hlt|Hge].
  2:{ unfold ret. split; [|lia]. by exists done_, rest. }
  destruct (pick_token_spec (E:=CompressionError) page (e_read l) Hp) as (r & Hr' & Htok); [lia|].
  unfold bind at 1, lift. rewrite Hr'. destruct r as [t|].
  - pose proof (pending_flushed page l out done_ rest (proj1 Hp) Ho Hlen Hw ltac:(lia) ltac:(lia) Hst Hstream) as Hf.
    unfold bind at 1.
    destruct (flush_pending page l (done_ ++ rest)) as [[[w n]|e| |] s]; try done.
    destruct Hf as (-> & done' & rest' & -> & -> & Hst' & Hlen').
    destruct t as [id n|id n]; cbn in Htok.
    + destruct Htok as (v & Hv & -> & Hle & Htk).
      pose proof (emit_token_at page out done' rest' (e_read l) (e_start l) TOKEN_DICT id 4 _ Ho Hlen' Hst'
        ltac:(lia) ltac:(lia) Hle Htk (chunk_dict _ _ Hv)) as He.
      unfold bind. by destruct (emit_ref_token _ _ _ _) as [[w|e| |] s].
    + destruct Htok as (bs & Hv & -> & Hle & Htk). pose proof (pattern_len _ _ Hv).
      pose proof (emit_token_at page out done' rest' (e_read l) (e_start l) TOKEN_PATTERN id (len bs) _ Ho Hlen' Hst'
        ltac:(lia) ltac:(lia) Hle Htk (chunk_pattern _ _ Hv)) as He.
      unfold bind. by destruct (emit_ref_token _ _ _ _) as [[w|e| |] s].
  - unfold sat_add. unfold PAGE_BYTES, HXNU_SXRC_PAGE_SIZE in *. rewrite !Z.min_l by lia.
    set (start := if e_llen l =? 0 then _ else _).
    assert (start = e_read l - e_llen l) by (unfold start; bdestruct_if; [lia|apply Hst; lia]).
    assert (Hsub : e_read l + 1 - (e_llen l + 1) = e_read l - e_llen l) by lia.
    destruct (Z.eqb_spec (e_llen l + 1) 255).
    + set (l' := mkEnc _ _ _ _).
      assert (Hsub' : e_read l' - e_llen l' = e_read l - e_llen l) by (cbn; lia).
      assert (Hrl : e_read l' = e_read l + 1) by done.
      pose proof (flush_completes page l' out done_ rest (proj1 Hp) Ho Hlen Hw
        ltac:(cbn; lia) ltac:(cbn; plia) ltac:(cbn; lia)) as Hf.
      rewrite Hsub', Hrl in Hf. specialize (Hf Hstream).
      unfold bind. destruct (flush_literals page l' (done_ ++ rest)) as [[w|e' | |] s]; try done.
      destruct Hf as (done' & rest' & -> & -> & Hst' & Hlen'). unfold ret. cbn.
      split; [|lia]. exists done', rest'. cbn. rewrite Z.sub_0_r.
      repeat split; auto; plia.
    + unfold ret. cbn. split; [|lia]. exists done_, rest. cbn. rewrite Hsub.
      repeat split; auto; plia.
Qed.

Lemma encode_sxrc_payload_spec page out :
  is_page page -> len out < U64 - 512 -> emitted [] out page (encode_sxrc_payload page out).
Proof.
  intros Hp Ho. unfold encode_sxrc_payload, bind at 1.
  pose proof (loop_rule (encode_sxrc_step page) (enc_inv page out)
    (fun r => match r with
       | (Ok l, s) => enc_inv page out l s /\ e_read l = PAGE_BYTES
       | (Err e, s) => e = OutputTooSmall /\ length s = length out
       | _ => False end)
    (fun l => Z.to_nat (PAGE_BYTES - e_read l))) as Hloop.
  specialize (Hloop (fun l s => encode_sxrc_step_inv page out l s Hp Ho) page_fuel (mkEnc 0 0 0 0) out).
  destruct (loop page_fuel (encode_sxrc_step page) _ out) as [[l|e| |] s];
    (assert (Hinit : enc_inv page out (mkEnc 0 0 0 0) out) by
      (exists [], out; cbn; repeat split; auto with codec; plia));
    specialize (Hloop ltac:(unfold page_fuel; cbn [e_read]; plia) Hinit); try done.
  destruct Hloop as [(done_ & rest & -> & Hw & Hll & Hr & Hst & Hstream & Hlen) Hread].
  assert (Htake : take (Z.to_nat (e_read l)) page = page).
  { rewrite Hread, <- (proj1 Hp). apply take_ge. len_solve. }
  destruct (Z.ltb_spec 0 (e_llen l)).
  - pose proof (flush_completes page l out done_ rest (proj1 Hp) Ho Hlen Hw ltac:(lia) ltac:(lia) ltac:(auto) Hstream) as Hf.
    destruct (flush_literals page l (done_ ++ rest)) as [[w|e| |] s]; try done.
    destruct Hf as (done' & rest' & -> & -> & Hst' & Hlen'). rewrite Htake in Hst'.
    exists done', rest'. repeat split; auto.
  - unfold ret. exists done_, rest. repeat split; auto.
    by replace (e_read l - e_llen l) with (e_read l) in Hstream by lia; rewrite Htake in Hstream.
Qed.

(** ** The decoder accepts every stream *)
Lemma idx_mid {E A} (l1 : list A) x l2 i : i = len l1 -> idx (E:=E) (l1 ++ x :: l2) i = Ok x.
Proof.
  intros ->. apply idx_ok; [done|]. unfold len. rewrite Nat2Z.id. by apply list_lookup_middle.
Qed.

Lemma read_u16_mid payload pre id post read :
  payload = pre ++ le_bytes 2 id ++ post -> read = len pre -> len payload < U64 - 512 -> 0 <= id < U16 ->
  read_u16 payload read = Ok (id, read + 2).
Proof.
  intros Hp -> Hl Hid. subst payload. unfold read_u16. rewrite exceeds_spec by lia.
  rewrite (proj2 (Z.ltb_ge _ _)) by len_solve. cbn [le_bytes app].
  rewrite idx_mid by done. cbn [obind]. rewrite add_ok by len_solve. cbn [obind].
  change (pre ++ id mod 256 :: id / 256 mod 256 :: post)
    with (pre ++ [id mod 256] ++ id / 256 mod 256 :: post).
  rewrite app_assoc, idx_mid by len_solve. cbn [obind]. unfold sat_add. rewrite Z.min_l by len_solve.
  do 3 f_equal. exact (le_val_bytes_small 2 id ltac:(cbn; lia)).
Qed.

Lemma chunk_nonempty tok bs : chunk tok bs -> 1 <= len bs <= 255.
Proof.
  destruct 1 as [bs H|id w H|id bs H]; [done| |].
  - unfold len. rewrite length_le_bytes. lia.
  - apply pattern_len in H. lia.
Qed.

Section decode_step.
(** A decoder positioned between the tokens already consumed, [pre], and the
    next one; [done_] is the part of the page restored so far. *)
Context (pre post done_ rest : list Z).
Hypothesis (Hout : len (done_ ++ rest) = PAGE_BYTES).

Lemma decode_step_literal bs :
  len (pre ++ (TOKEN_LITERAL :: len bs :: bs) ++ post) < U64 - 512 ->
  1 <= len bs <= 255 -> len done_ + len bs <= PAGE_BYTES ->
  decode_sxrc_step (pre ++ (TOKEN_LITERAL :: len bs :: bs) ++ post) (len pre, len done_) (done_ ++ rest) =
    (Ok (inl (len pre + (2 + len bs), len done_ + len bs)), (done_ ++ bs) ++ drop (length bs) rest).
Proof.
  cbn [app]. set (payload := pre ++ _). intros Hlen Hb Hfit.
  assert (Hpl : len payload = len pre + 2 + len bs + len post) by (unfold payload; len_solve).
  rewrite len_app in Hout. pose proof (len_nonneg pre). pose proof (len_nonneg post).
  unfold decode_sxrc_step. rewrite (proj2 (Z.ltb_lt (len done_) PAGE_BYTES)) by lia.
  rewrite (proj2 (Z.leb_gt (len payload) (len pre))) by lia.
  unfold bind, lift. assert (idx (E:=CompressionError) payload (len pre) = Ok TOKEN_LITERAL) as -> by by apply idx_mid.
  unfold sat_add. rewrite !Z.min_l by lia. cbn [Z.eqb TOKEN_LITERAL].
  rewrite (proj2 (Z.leb_gt (len payload) (len pre + 1))) by lia.
  assert (idx (E:=CompressionError) payload (len pre + 1) = Ok (len bs)) as ->.
  { unfold payload. rewrite (cons_middle TOKEN_LITERAL), app_assoc. apply idx_mid. len_solve. }
  rewrite (proj2 (Z.eqb_neq (len bs) 0)), !exceeds_spec by plia.
  rewrite !(proj2 (Z.ltb_ge _ _)), add_ok by plia.
  assert (slice (E:=CompressionError) payload (len pre + 1 + 1) (len pre + 1 + 1 + len bs) = Ok bs) as ->.
  { unfold payload. rewrite (cons_middle TOKEN_LITERAL), (app_assoc pre), (cons_middle (len bs)), (app_assoc (pre ++ _)).
    apply slice_app; len_solve. }
  rewrite write_bytes_app by (done || lia). unfold ret. rewrite !Z.min_l by plia.
  do 4 f_equal. lia.
Qed.

Lemma decode_step_dict id w :
  len (pre ++ (TOKEN_DICT :: le_bytes 2 id) ++ post) < U64 - 512 ->
  lookup_dictionary_by_id id = Some w -> len done_ + 4 <= PAGE_BYTES ->
  decode_sxrc_step (pre ++ (TOKEN_DICT :: le_bytes 2 id) ++ post) (len pre, len done_) (done_ ++ rest) =
    (Ok (inl (len pre + 3, len done_ + 4)), (done_ ++ le_bytes 4 w) ++ drop 4 rest).
Proof.
  rewrite <- app_comm_cons. set (payload := pre ++ _). intros Hlen Hw Hfit.
  pose proof (table_ids id (or_introl (ex_intro _ w Hw))).
  assert (Hpl : len payload = len pre + 3 + len post) by (unfold payload; len_solve).
  rewrite len_app in Hout. pose proof (len_nonneg pre). pose proof (len_nonneg post).
  unfold decode_sxrc_step. rewrite (proj2 (Z.ltb_lt (len done_) PAGE_BYTES)) by lia.
  rewrite (proj2 (Z.leb_gt (len payload) (len pre))) by lia.
  unfold bind, lift. assert (idx (E:=CompressionError) payload (len pre) = Ok TOKEN_DICT) as -> by by apply idx_mid.
  unfold sat_add. rewrite (Z.min_l (len pre + 1)) by lia. change (TOKEN_DICT =? TOKEN_LITERAL) with false. change (TOKEN_DICT =? TOKEN_DICT) with true. cbn iota.
  rewrite (read_u16_mid payload (pre ++ [TOKEN_DICT]) id post) by (by unfold payload; rewrite <- app_assoc || len_solve).
  rewrite Hw. cbn [ok_or]. unfold DICT_DECODE_BYTES. rewrite exceeds_spec by plia.
  rewrite (proj2 (Z.ltb_ge _ _)) by lia. rewrite write_bytes_app by (done || len_solve).
  unfold ret. rewrite Z.min_l by plia. rewrite length_le_bytes. do 4 f_equal. lia.
Qed.

Lemma decode_step_pattern id bs :
  len (pre ++ (TOKEN_PATTERN :: le_bytes 2 id) ++ post) < U64 - 512 ->
  lookup_pattern_by_id id = Some bs -> len done_ + len bs <= PAGE_BYTES ->
  decode_sxrc_step (pre ++ (TOKEN_PATTERN :: le_bytes 2 id) ++ post) (len pre, len done_) (done_ ++ rest) =
    (Ok (inl (len pre + 3, len done_ + len bs)), (done_ ++ bs) ++ drop (length bs) rest).
Proof.
  rewrite <- app_comm_cons. set (payload := pre ++ _). intros Hlen Hw Hfit.
  pose proof (table_ids id (or_intror (ex_intro _ bs Hw))). pose proof (pattern_len _ _ Hw).
  assert (Hpl : len payload = len pre + 3 + len post) by (unfold payload; len_solve).
  rewrite len_app in Hout. pose proof (len_nonneg pre). pose proof (len_nonneg post).
  unfold decode_sxrc_step. rewrite (proj2 (Z.ltb_lt (len done_) PAGE_BYTES)) by lia.
  rewrite (proj2 (Z.leb_gt (len payload) (len pre))) by lia.
  unfold bind, lift. assert (idx (E:=CompressionError) payload (len pre) = Ok TOKEN_PATTERN) as -> by by apply idx_mid.
  unfold sat_add. rewrite (Z.min_l (len pre + 1)) by lia. change (TOKEN_PATTERN =? TOKEN_LITERAL) with false. change (TOKEN_PATTERN =? TOKEN_DICT) with false. change (TOKEN_PATTERN =? TOKEN_PATTERN) with true. cbn iota.
  rewrite (read_u16_mid payload (pre ++ [TOKEN_PATTERN]) id post) by (by unfold payload; rewrite <- app_assoc || len_solve).
  rewrite Hw. cbn [ok_or]. rewrite exceeds_spec by plia.
  rewrite (proj2 (Z.ltb_ge _ _)) by lia. rewrite write_bytes_app by (done || len_solve).
  unfold ret. rewrite Z.min_l by plia. do 4 f_equal. lia.
Qed.

Lemma decode_step_chunk tok bs :
  len (pre ++ tok ++ post) < U64 - 512 -> chunk tok bs -> len done_ + len bs <= PAGE_BYTES ->
  decode_sxrc_step (pre ++ tok ++ post) (len pre, len done_) (done_ ++ rest) =
    (Ok (inl (len pre + len tok, len done_ + len bs)), (done_ ++ bs) ++ drop (length bs) rest).
Proof.
  intros Hlen Hc Hfit. destruct Hc as [bs Hb|id w Hw|id bs Hw].
  - rewrite decode_step_literal by done. do 4 f_equal. len_solve.
  - rewrite (decode_step_dict id w) by (done || len_solve). rewrite length_le_bytes. do 4 f_equal; len_solve.
  - rewrite (decode_step_pattern id bs) by done. done.
Qed.
End decode_step.

Lemma decode_loop_stream toks p :
  stream_of toks p -> forall fuel pre done_ rest,
  len (pre ++ toks) < U64 - 512 -> len (done_ ++ rest) = PAGE_BYTES -> len done_ + len p = PAGE_BYTES ->
  (length p < fuel)%nat ->
  loop fuel (decode_sxrc_step (pre ++ toks)) (len pre, len done_) (done_ ++ rest) =
    (Ok (len (pre ++ toks)), done_ ++ p).
Proof.
  induction 1 as [|tok bs toks p Hc Hs IH]; intros fuel pre done_ rest Hlen Hout Hfit Hf;
    (destruct fuel as [|fuel]; [lia|]); cbn [loop]; unfold bind.
  - rewrite len_nil in Hfit. unfold decode_sxrc_step at 1.
    rewrite (proj2 (Z.ltb_ge (len done_) PAGE_BYTES)) by lia. unfold ret. rewrite !app_nil_r.
    replace rest with (@nil Z); [by rewrite app_nil_r|]. symmetry. apply length_zero_iff_nil. len_solve.
  - rewrite len_app in Hfit. pose proof (chunk_nonempty _ _ Hc). pose proof (len_nonneg p).
    rewrite (decode_step_chunk pre toks done_ rest Hout tok bs) by (done || lia).
    rewrite <- !len_app, app_assoc. rewrite IH by len_solve. by rewrite (app_assoc done_).
Qed.

Lemma decode_sxrc_stream toks p out :
  stream_of toks p -> len p = PAGE_BYTES -> len out = PAGE_BYTES -> len toks < U64 - 512 ->
  decode_sxrc_payload toks out = (Ok tt, p).
Proof.
  intros Hs Hp Ho Hl. unfold decode_sxrc_payload, bind.
  pose proof (decode_loop_stream toks p Hs page_fuel [] [] out) as H. cbn [app] in H.
  change (len []) with 0 in H. rewrite H by (done || (unfold page_fuel; plia) || (unfold page_fuel, len in *; plia)).
  by rewrite Z.eqb_refl.
Qed.

(** ** The decoder on arbitrary input: no panic, and what it accepts is a stream *)
Lemma write_bytes_ok {E} pos bs s :
  0 <= pos -> pos + len bs <= len s ->
  exists s', write_bytes (E:=E) pos bs s = (Ok tt, s') /\ len s' = len s /\
    take (Z.to_nat (pos + len bs)) s' = take (Z.to_nat pos) s ++ bs.
Proof.
  intros Hp Hl. unfold write_bytes. pose proof (blit_ok (E:=E) s pos bs Hp Hl) as Hb.
  rewrite Hb. eexists. split; [reflexivity|]. split.
  - apply blit_length in Hb. exact (f_equal Z.of_nat Hb).
  - by apply blit_prefix in Hb.
Qed.

Lemma drop_idx {E A} (l : list A) i x :
  idx (E:=E) l i = Ok x -> drop (Z.to_nat i) l = x :: drop (Z.to_nat (i + 1)) l.
Proof.
  intros H. apply idx_inv in H as [Hi Hl]. rewrite (drop_S _ _ _ Hl). do 2 f_equal. lia.
Qed.

Lemma read_u16_inv payload read id read' :
  byte_list payload -> len payload < U64 - 512 -> 0 <= read ->
  read_u16 payload read = Ok (id, read') ->
  read' = read + 2 /\ read' <= len payload /\ take 2 (drop (Z.to_nat read) payload) = le_bytes 2 id.
Proof.
  intros Hb Hl Hr. unfold read_u16. rewrite exceeds_spec by lia.
  destruct (Z.ltb_spec (len payload) (read + 2)); [done|].
  destruct (idx_total (E:=CompressionError) payload read) as (b0 & H0 & L0); [lia|].
  rewrite H0. cbn [obind]. rewrite add_ok by lia. cbn [obind].
  destruct (idx_total (E:=CompressionError) payload (read + 1)) as (b1 & H1 & L1); [lia|].
  rewrite H1. cbn [obind]. unfold sat_add. rewrite Z.min_l by lia. intros [= Hid <-].
  split; [done|]. split; [lia|]. rewrite (drop_idx _ _ _ H0), (drop_idx _ _ _ H1). cbn [take].
  pose proof (proj1 (Forall_lookup _ _) Hb _ _ L0). pose proof (proj1 (Forall_lookup _ _) Hb _ _ L1).
  rewrite <- Hid. symmetry. apply (le_bytes_val [b0; b1]). constructor; [done|]. by apply Forall_singleton.
Qed.

Lemma read_u16_returns payload read :
  len payload < U64 - 512 -> 0 <= read ->
  (exists id read', read_u16 payload read = Ok (id, read')) \/ read_u16 payload read = Err InvalidPayloadLength.
Proof.
  intros Hl Hr. unfold read_u16. rewrite exceeds_spec by lia.
  destruct (Z.ltb_spec (len payload) (read + 2)); [by right|left].
  destruct (idx_total (E:=CompressionError) payload read) as (b0 & -> & _); [lia|].
  cbn [obind]. rewrite add_ok by lia. cbn [obind].
  destruct (idx_total (E:=CompressionError) payload (read + 1)) as (b1 & -> & _); [lia|]. cbn. eauto.
Qed.

Definition dec_inv (payload : list Z) (st : Z * Z) (s : list Z) : Prop :=
  0 <= fst st <= len payload /\ 0 <= snd st <= PAGE_BYTES /\ len s = PAGE_BYTES /\
  stream_of (take (Z.to_nat (fst st)) payload) (take (Z.to_nat (snd st)) s).

(** Consuming one chunk at the position the decoder has reached. *)
Lemma dec_inv_chunk payload read write s tok bs n :
  dec_inv payload (read, write) s -> chunk tok bs -> n = len bs ->
  take (length tok) (drop (Z.to_nat read) payload) = tok -> read + len tok <= len payload ->
  write + n <= PAGE_BYTES ->
  exists s', write_bytes (E:=CompressionError) write bs s = (Ok tt, s') /\
    dec_inv payload (read + len tok, write + n) s' /\
    (Z.to_nat (PAGE_BYTES - (write + n)) < Z.to_nat (PAGE_BYTES - write))%nat.
Proof.
  intros (Hr & Hw & Hs & Hst) Hc -> Htok Hrl Hfit. cbn in *. pose proof (chunk_nonempty _ _ Hc).
  destruct (write_bytes_ok (E:=CompressionError) write bs s) as (s' & -> & Hs' & Htk); [lia|lia|].
  exists s'. split; [done|]. split; [|lia]. pose proof (len_nonneg tok).
  repeat split; cbn; [lia|lia|lia|lia|lia|]. rewrite Htk, take_add by lia.
  apply stream_app; [done|]. unfold len at 1. rewrite Nat2Z.id, Htok. by apply stream_one.
Qed.

Definition dec_step_ok (payload : list Z) (st : Z * Z)
    (r : outcome CompressionError ((Z * Z) + Z) * list Z) : Prop :=
  match r with
  | (Ok (inl st'), s') => dec_inv payload st' s' /\
      (Z.to_nat (PAGE_BYTES - snd st') < Z.to_nat (PAGE_BYTES - snd st))%nat
  | (Ok (inr rd), s') => dec_inv payload (rd, PAGE_BYTES) s'
  | (Err e, s') => e = InvalidPayloadLength /\ len s' = PAGE_BYTES
  | _ => False
  end.

Section decode_any.
Context (payload : list Z).
Hypothesis (Hb : byte_list payload) (Hl : len payload < U64 - 512).

(** The two tokens that refer to a static table. *)
Lemma dec_ref_step {A} read write s tag (lookup_ : Z -> option A) (bytes_of : A -> list Z) :
  dec_inv payload (read, write) s -> idx (E:=CompressionError) payload read = Ok tag ->
  (forall id v, lookup_ id = Some v -> chunk (tag :: le_bytes 2 id) (bytes_of v)) ->
  dec_step_ok payload (read, write)
    ((let! '(id, read) := lift (read_u16 payload (read + 1)) in
      let! v := lift (ok_or InvalidPayloadLength (lookup_ id)) in
      if exceeds write (len (bytes_of v)) PAGE_BYTES then throw InvalidPayloadLength else
      do! write_bytes write (bytes_of v) in
      ret (inl (read, sat_add U64 write (len (bytes_of v))))) s).
Proof.
  intros HI Htag Hlk. pose proof HI as (Hr & Hw & Hs & Hst). cbn in Hr, Hw.
  apply idx_inv in Htag as Htag'. unfold bind at 1, lift.
  destruct (read_u16_returns payload (read + 1)) as [(id & rd & Hu)| ->]; [lia|lia| |done].
  rewrite Hu. apply read_u16_inv in Hu as (-> & Hle & Hid); [|done|lia|lia].
  unfold bind at 1. destruct (lookup_ id) as [v|] eqn:Hv; cbn [ok_or]; [|done].
  rewrite exceeds_spec by plia. destruct (Z.ltb_spec PAGE_BYTES (write + len (bytes_of v))); [done|].
  pose proof (Hlk _ _ Hv) as Hc. pose proof (chunk_nonempty _ _ Hc).
  destruct (dec_inv_chunk payload read write s _ _ _ HI Hc eq_refl) as (s' & Hws & Hinv & Hm);
    [|len_solve|lia|].
  { cbn [length]. rewrite length_le_bytes, (drop_idx _ _ _ Htag). cbn [take]. by rewrite Hid. }
  unfold bind. rewrite Hws. unfold ret, sat_add. rewrite Z.min_l by plia.
  replace (read + len (tag :: le_bytes 2 id)) with (read + 1 + 2) in Hinv by len_solve. done.
Qed.

Lemma dec_literal_step read write s :
  dec_inv payload (read, write) s -> idx (E:=CompressionError) payload read = Ok TOKEN_LITERAL ->
  write < PAGE_BYTES -> dec_step_ok payload (read, write) (decode_sxrc_step payload (read, write) s).
Proof.
  intros HI Htag Hlt. pose proof HI as (Hr & Hw & Hs & Hst). cbn in Hr, Hw.
  apply idx_inv in Htag as Htag'. unfold decode_sxrc_step.
  rewrite (proj2 (Z.ltb_lt write PAGE_BYTES)), (proj2 (Z.leb_gt (len payload) read)) by lia.
  unfold bind, lift. rewrite Htag. unfold sat_add. rewrite (Z.min_l (read + 1)) by lia.
  change (TOKEN_LITERAL =? TOKEN_LITERAL) with true. cbn iota.
  destruct (Z.leb_spec (len payload) (read + 1)); [done|].
  destruct (idx_total (E:=CompressionError) payload (read + 1)) as (n & Hn & Ln); [lia|].
  pose proof (proj1 (Forall_lookup _ _) Hb _ _ Ln) as Hnr. unfold in_range in Hnr.
  rewrite Hn, (Z.min_l (read + 1 + 1)) by lia. destruct (Z.eqb_spec n 0); [done|].
  rewrite !exceeds_spec by plia. destruct (Z.ltb_spec (len payload) (read + 1 + 1 + n)); [done|].
  destruct (Z.ltb_spec PAGE_BYTES (write + n)); [done|].
  rewrite add_ok by lia. rewrite slice_ok by lia.
  replace (read + 1 + 1 + n - (read + 1 + 1)) with n by lia.
  set (run := take (Z.to_nat n) (drop (Z.to_nat (read + 1 + 1)) payload)).
  assert (Hrun : len run = n) by (unfold run; len_solve).
  destruct (dec_inv_chunk payload read write s (TOKEN_LITERAL :: len run :: run) run n HI)
    as (s' & Hws & Hinv & Hm); [apply chunk_literal; lia|done| |len_solve|lia|].
  { cbn [length]. rewrite (drop_idx _ _ _ Htag), (drop_idx _ _ _ Hn). cbn [take]. rewrite Hrun.
    do 2 f_equal. unfold run. replace (length _) with (Z.to_nat n); [done|]. len_solve. }
  rewrite Hws. unfold ret. rewrite !Z.min_l by plia. cbn. split; [|done].
  by replace (read + 1 + 1 + n) with (read + len (TOKEN_LITERAL :: len run :: run)) by len_solve.
Qed.
End decode_any.

Lemma decode_sxrc_step_inv payload st s :
  byte_list payload -> len payload < U64 - 512 -> dec_inv payload st s ->
  dec_step_ok payload st (decode_sxrc_step payload st s).
Proof.
  destruct st as [read write]. intros Hb Hl HI. pose proof HI as (Hr & Hw & Hs & Hst). cbn in Hr, Hw.
  destruct (Z.ltb_spec write PAGE_BYTES) as [Hlt|Hge].
  2:{ unfold decode_sxrc_step. rewrite (proj2 (Z.ltb_ge _ _)) by lia. cbn.
      by replace PAGE_BYTES with write at 1 by lia. }
  destruct (Z.leb_spec (len payload) read).
  { unfold decode_sxrc_step. rewrite (proj2 (Z.ltb_lt _ _)), (proj2 (Z.leb_le _ _)) by lia. done. }
  destruct (idx_total (E:=CompressionError) payload read) as (tag & Htag & _); [lia|].
  destruct (Z.eqb_spec tag TOKEN_LITERAL) as [->|]; [by apply dec_literal_step|].
  unfold decode_sxrc_step.
  rewrite (proj2 (Z.ltb_lt write PAGE_BYTES)), (proj2 (Z.leb_gt (len payload) read)) by lia.
  unfold bind at 1, lift at 1. rewrite Htag. cbv zeta.
  assert (sat_add U64 read 1 = read + 1) as -> by (unfold sat_add; lia).
  rewrite (proj2 (Z.eqb_neq tag TOKEN_LITERAL)) by done.
  destruct (Z.eqb_spec tag TOKEN_DICT) as [->|].
  { refine (dec_ref_step payload Hb Hl read write s TOKEN_DICT lookup_dictionary_by_id (le_bytes 4) HI Htag _).
    auto with codec. }
  destruct (Z.eqb_spec tag TOKEN_PATTERN) as [->|]; [|done].
  refine (dec_ref_step payload Hb Hl read write s TOKEN_PATTERN lookup_pattern_by_id (fun bs => bs) HI Htag _).
  auto with codec.
Qed.

Lemma decode_sxrc_payload_spec payload out :
  byte_list payload -> len payload < U64 - 512 -> len out = PAGE_BYTES ->
  match decode_sxrc_payload payload out with
  | (Ok _, s) => stream_of payload s /\ len s = PAGE_BYTES
  | (Err e, s) => e = InvalidPayloadLength /\ len s = PAGE_BYTES
  | _ => False
  end.
Proof.
  intros Hb Hl Ho. unfold decode_sxrc_payload, bind.
  pose proof (loop_rule (decode_sxrc_step payload) (dec_inv payload)
    (fun r => match r with
       | (Ok rd, s) => dec_inv payload (rd, PAGE_BYTES) s
       | (Err e, s) => e = InvalidPayloadLength /\ len s = PAGE_BYTES
       | _ => False end)
    (fun st => Z.to_nat (PAGE_BYTES - snd st))
    (fun st s => decode_sxrc_step_inv payload st s Hb Hl) page_fuel (0, 0) out) as Hloop.
  cbv beta in Hloop. specialize (Hloop ltac:(unfold page_fuel; cbn [snd]; plia)).
  assert (Hinit : dec_inv payload (0, 0) out).
  { pose proof (len_nonneg payload). repeat split; cbn; try plia. constructor. }
  specialize (Hloop Hinit).
  destruct (loop page_fuel (decode_sxrc_step payload) (0, 0) out) as [[rd|e| |] s]; try done.
  destruct Hloop as (Hr & _ & Hs & Hst). cbn in Hr, Hst.
  destruct (Z.eqb_spec rd (len payload)) as [->|]; [|done]. split; [|done].
  rewrite !take_ge in Hst; [done|..]; unfold len in *; lia.
Qed.

(** ** The header *)
Definition header_bytes (h : EncodedHeader) : list Z :=
  le_bytes 4 MAGIC ++ [VERSION] ++ [class_id (h_class h)] ++ le_bytes 2 (payload_len h) ++
  le_bytes 2 (cast U16 PAGE_BYTES) ++ le_bytes 2 0 ++ le_bytes 4 (checksum h).

Lemma encode_into_spec h hdr rest :
  len hdr = HEADER_BYTES -> encode_into h (hdr ++ rest) = (Ok tt, header_bytes h ++ rest).
Proof.
  intros Hh. unfold encode_into, bind at 1, gets. rewrite len_app, Hh.
  rewrite (proj2 (Z.ltb_ge _ _)) by (pose proof (len_nonneg rest); plia).
  unfold HEADER_BYTES, len in Hh. do 17 (destruct hdr as [|? hdr]; cbn [length] in Hh; [lia||idtac|]); [|lia].
  cbn [app]. unfold header_bytes, bind. cbn [le_bytes app].
  repeat (unfold write_bytes at 1; rewrite blit_ok by (pose proof (len_nonneg rest); len_solve);
    unfold len; cbn -[Z.div Z.modulo]). done.
Qed.

Lemma header_decode_bytes h rest :
  0 <= payload_len h < U16 -> 0 <= checksum h < U32 -> len rest < U64 - 512 ->
  header_decode (header_bytes h ++ rest) = Ok h.
Proof.
  intros Hpl Hck Hr. unfold header_decode. set (input := header_bytes h ++ rest).
  assert (Hlen : len input = 16 + len rest) by (unfold input; by rewrite len_app).
  pose proof (len_nonneg rest). unfold HEADER_BYTES. rewrite (proj2 (Z.ltb_ge _ _)) by lia.
  rewrite !read_u32_le_spec, !read_u16_le_spec by lia.
  assert (idx (E:=CompressionError) input 4 = Ok VERSION) as -> by by apply idx_ok.
  assert (idx (E:=CompressionError) input 5 = Ok (class_id (h_class h))) as -> by by apply idx_ok.
  cbn [obind]. change (take 4 (drop (Z.to_nat 0) input)) with (le_bytes 4 MAGIC).
  change (take 2 (drop (Z.to_nat 6) input)) with (le_bytes 2 (payload_len h)).
  change (take 2 (drop (Z.to_nat 8) input)) with (le_bytes 2 (cast U16 PAGE_BYTES)).
  change (take 4 (drop (Z.to_nat 12) input)) with (le_bytes 4 (checksum h)).
  rewrite (le_val_bytes_small 2 (payload_len h)), (le_val_bytes_small 4 (checksum h)) by (cbn; lia).
  destruct h as [c pl ck]. by destruct c.
Qed.

Lemma header_decode_returns input :
  len input < U64 - 512 -> returns (header_decode input).
Proof.
  intros Hl. unfold header_decode, HEADER_BYTES. destruct (Z.ltb_spec (len input) 16); [done|].
  rewrite !read_u32_le_spec, !read_u16_le_spec by lia. cbn [obind].
  destruct (idx_total (E:=CompressionError) input 4) as (v & -> & _); [lia|].
  destruct (idx_total (E:=CompressionError) input 5) as (c & -> & _); [lia|]. cbn [obind].
  unfold from_id. by repeat (bdestruct_if; try done).
Qed.

Lemma header_decode_inv input h :
  byte_list input -> len input < U64 - 512 -> header_decode input = Ok h -> 0 <= payload_len h < U16 /\ HEADER_BYTES <= len input.
Proof.
  intros Hb Hl. unfold header_decode, HEADER_BYTES. destruct (Z.ltb_spec (len input) 16); [done|].
  rewrite !read_u32_le_spec, !read_u16_le_spec by lia. cbn [obind].
  destruct (idx_total (E:=CompressionError) input 4) as (v & -> & _); [lia|].
  destruct (idx_total (E:=CompressionError) input 5) as (c & -> & _); [lia|]. cbn [obind].
  pose proof (le_val_range _ (byte_list_sub _ 2 (Z.to_nat 6) Hb)) as Hrange.
  replace (len (take 2 _)) with 2 in Hrange by len_solve. change (256 ^ 2) with U16 in Hrange.
  bdestruct_if; [done|]. bdestruct_if; [done|]. destruct (from_id c); cbn [obind]; try done.
  bdestruct_if; [done|]. intros [= <-]. cbn. done.
Qed.

(** ** The checksum *)
Definition FNV1A32_PRIME_INV : Z := 899433627.

Lemma lxor_u32 a b : 0 <= a < U32 -> 0 <= b < U32 -> 0 <= Z.lxor a b < U32.
Proof.
  intros Ha Hb. assert (0 <= Z.lxor a b) by (apply Z.lxor_nonneg; lia). split; [done|].
  destruct (decide (Z.lxor a b = 0)) as [->|]; [done|]. change U32 with (2 ^ 32).
  apply Z.log2_lt_pow2; [lia|]. eapply Z.le_lt_trans; [apply Z.log2_lxor; lia|].
  assert (forall x, 0 <= x < U32 -> Z.log2 x < 32) as Hlog.
  { intros x Hx. destruct (decide (x = 0)) as [->|]; [done|]. apply Z.log2_lt_pow2; lia. }
  pose proof (Hlog a Ha). pose proof (Hlog b Hb). lia.
Qed.

Lemma fnv_step_range h b : 0 <= fnv_step h b < U32.
Proof. apply Z.mod_pos_bound. lia. Qed.

Lemma fnv_fold_range l h : 0 <= h < U32 -> 0 <= foldl fnv_step h l < U32.
Proof. revert h; induction l as [|b l IH]; intros h Hh; [done|]. apply IH, fnv_step_range. Qed.

Lemma fnv1a32_range l : 0 <= fnv1a32 l < U32.
Proof. apply fnv_fold_range. done. Qed.

(** One step determines both of its arguments given the other: multiplication
    by the odd prime is invertible modulo [2^32]. *)
Lemma fnv_mul_inj x y :
  0 <= x < U32 -> 0 <= y < U32 ->
  wrap_mul U32 x FNV1A32_PRIME = wrap_mul U32 y FNV1A32_PRIME -> x = y.
Proof.
  intros Hx Hy H. unfold wrap_mul in H.
  assert (forall z, 0 <= z < U32 -> (z * FNV1A32_PRIME) mod U32 * FNV1A32_PRIME_INV mod U32 = z) as Hinv.
  { intros z Hz. rewrite Z.mul_mod_idemp_l by lia. rewrite <- Z.mul_assoc, <- Z.mul_mod_idemp_r by lia.
    change (FNV1A32_PRIME * FNV1A32_PRIME_INV mod U32) with 1. rewrite Z.mul_1_r. by apply Z.mod_small. }
  by rewrite <- (Hinv x Hx), <- (Hinv y Hy), H.
Qed.

Lemma fnv_step_inj_hash h1 h2 b :
  0 <= h1 < U32 -> 0 <= h2 < U32 -> 0 <= b < U8 -> fnv_step h1 b = fnv_step h2 b -> h1 = h2.
Proof.
  intros H1 H2 Hb H. apply fnv_mul_inj in H; [|apply lxor_u32; lia..].
  apply (f_equal (fun z => Z.lxor z b)) in H. by rewrite !Z.lxor_assoc, Z.lxor_nilpotent, !Z.lxor_0_r in H.
Qed.

Lemma fnv_step_inj_byte h b1 b2 :
  0 <= h < U32 -> 0 <= b1 < U8 -> 0 <= b2 < U8 -> fnv_step h b1 = fnv_step h b2 -> b1 = b2.
Proof.
  intros Hh H1 H2 H. apply fnv_mul_inj in H; [|apply lxor_u32; lia..].
  apply (f_equal (Z.lxor h)) in H. by rewrite <- !Z.lxor_assoc, Z.lxor_nilpotent, !Z.lxor_0_l in H.
Qed.

Lemma fnv_fold_inj l h1 h2 :
  byte_list l -> 0 <= h1 < U32 -> 0 <= h2 < U32 -> foldl fnv_step h1 l = foldl fnv_step h2 l -> h1 = h2.
Proof.
  intros Hl. revert h1 h2. induction Hl as [|b l Hb _ IH]; intros h1 h2 H1 H2 H; [done|].
  apply (fnv_step_inj_hash _ _ b); [done|done|done|]. apply IH; [apply fnv_step_range..|done].
Qed.

Lemma fnv1a32_one_byte l x y r :
  in_range U8 x -> in_range U8 y -> byte_list r ->
  fnv1a32 (l ++ x :: r) = fnv1a32 (l ++ y :: r) -> x = y.
Proof.
  intros Hx Hy Hr H. unfold fnv1a32 in H. rewrite !foldl_app in H. cbn [foldl] in H.
  apply fnv_fold_inj in H; [|done|apply fnv_step_range..].
  by apply fnv_step_inj_byte in H; [|apply fnv_fold_range|..].
Qed.

(** ** Pages *)
Lemma stream_bytes toks p : stream_of toks p -> byte_list p -> byte_list toks.
Proof.
  induction 1 as [|tok bs toks p Hc _ IH]; intros Hp; [done|].
  apply Forall_app in Hp as [Hbs Hp]. apply Forall_app. split; [|by apply IH].
  destruct Hc as [bs Hl|id w Hw|id bs Hw]; (constructor; [by unfold in_range|]); try apply le_bytes_byte.
  constructor; [unfold in_range; lia|done].
Qed.

Lemma forallb_replicate b page :
  forallb (fun x => x =? b) page = true <-> page = replicate (length page) b.
Proof.
  rewrite forallb_forall. split.
  - induction page as [|x page IH]; [done|]. intros H. cbn. f_equal.
    + apply Z.eqb_eq, H. by left.
    + apply IH. intros y Hy. apply H. by right.
  - intros -> x Hx. apply Z.eqb_eq. by apply list_elem_of_In, elem_of_replicate in Hx as [-> _].
Qed.

Definition constant_page (b : Z) : list Z := replicate (Z.to_nat PAGE_BYTES) b.

(** What each class says about the page and what its payload holds. *)
Definition payload_for (class : CompressionClass) (page payload : list Z) : Prop :=
  match class with
  | Zero => payload = [] /\ page = constant_page 0
  | Same => exists b, payload = [b] /\ page = constant_page b /\ b <> 0
  | Sxrc => (stream_of payload page /\ len payload < PAGE_BYTES) /\ forall b, page <> constant_page b
  | Raw => payload = page /\ forall b, page <> constant_page b
  end.

Lemma payload_for_bound class page payload :
  is_page page -> payload_for class page payload -> byte_list payload /\ len payload <= PAGE_BYTES.
Proof.
  intros [Hp Hb]. destruct class; cbn.
  - intros [-> _]. split; [apply Forall_nil_2|rewrite len_nil; plia].
  - intros (b & -> & Hpage & _). split; [|rewrite len_cons, len_nil; plia]. apply Forall_singleton.
    rewrite Hpage in Hb. eapply (proj1 (Forall_lookup _ _) Hb 0%nat), lookup_replicate. split; [done|plia].
  - intros [[Hs Hl] _]. split; [by eapply stream_bytes|lia].
  - intros [-> _]. split; [done|lia].
Qed.

(** The tail of [encode_page]: header written in front of a payload in place. *)
Lemma encode_finish class payload hdr rest plen :
  len hdr = HEADER_BYTES -> plen = len payload -> len payload <= PAGE_BYTES ->
  (let! encoded_len := lift (ok_or InvalidPayloadLength (chk_add U64 HEADER_BYTES plen)) in
   let! scratch := gets id in
   let! payload := lift (slice scratch HEADER_BYTES encoded_len) in
   do! encode_into (mkHeader class (cast U16 plen) (fnv1a32 payload)) in
   let! scratch := gets id in
   let! bytes := lift (slice scratch 0 encoded_len) in
   ret (mkEncodedPage class bytes)) (hdr ++ payload ++ rest) =
  (let bytes := header_bytes (mkHeader class (len payload) (fnv1a32 payload)) ++ payload in
   (Ok (mkEncodedPage class bytes), bytes ++ rest)).
Proof.
  intros Hh -> Hp. unfold bind, lift, gets, chk_add. rewrite (proj2 (Z.ltb_lt _ _)) by plia. cbn [ok_or].
  unfold id. rewrite <- Hh at 1 2. rewrite slice_app by done.
  unfold cast. rewrite Z.mod_small by (pose proof (len_nonneg payload); plia).
  rewrite encode_into_spec by done. set (h := mkHeader _ _ _).
  pose proof (slice_app (E:=CompressionError) [] (header_bytes h ++ payload) rest 0 (HEADER_BYTES + len payload)) as Hs.
  cbn [app] in Hs. rewrite <- app_assoc in Hs. rewrite Hs by (done || by rewrite len_nil, len_app).
  unfold ret. by rewrite <- app_assoc.
Qed.

Lemma encode_sxrc_or_raw_spec page tail :
  is_page page -> (forall b, page <> constant_page b) -> PAGE_BYTES <= len tail -> len tail < U64 - 512 ->
  exists class payload rest,
    encode_sxrc_or_raw page tail = (Ok (class, len payload), payload ++ rest) /\
    len (payload ++ rest) = len tail /\ (class = Sxrc \/ class = Raw) /\ payload_for class page payload.
Proof.
  intros Hp Hnc Hmin Hmax. unfold encode_sxrc_or_raw, catch.
  pose proof (encode_sxrc_payload_spec page tail Hp Hmax) as He.
  assert (Hraw : forall s : list Z, length s = length tail ->
    bind (write_bytes (E:=CompressionError) 0 page) (fun _ => ret (Raw, PAGE_BYTES)) s =
      (Ok (Raw, len page), page ++ drop (length page) s)).
  { intros s Hs. unfold bind. rewrite (write_bytes_app 0 [] s page);
      [by rewrite (proj1 Hp)|done|destruct Hp; unfold len in *; lia]. }
  assert (Hfall : forall s : list Z, length s = length tail -> exists class payload rest,
    (Ok (Raw, len page), page ++ drop (length page) s) = (Ok (E:=CompressionError) (class, len payload), payload ++ rest) /\
    len (payload ++ rest) = len tail /\ (class = Sxrc \/ class = Raw) /\ payload_for class page payload).
  { intros s Hs. exists Raw, page, (drop (length page) s). destruct Hp. repeat split; [len_solve|by right|done]. }
  destruct (encode_sxrc_payload page tail) as [[w|e| |] s]; cbn in He; try done.
  - destruct He as (toks & rest & -> & -> & Hst & Hl). destruct (Z.ltb_spec (len toks) PAGE_BYTES).
    + exists Sxrc, toks, rest. repeat split; auto. unfold len. by rewrite Hl.
    + rewrite Hraw by done. by apply Hfall.
  - destruct He as [-> Hl]. rewrite Hraw by done. by apply Hfall.
Qed.

Lemma encode_page_spec page scratch :
  is_page page -> MAX_ENCODED_PAGE_BYTES <= len scratch -> len scratch < U64 - 512 ->
  exists class payload rest,
    let bytes := header_bytes (mkHeader class (len payload) (fnv1a32 payload)) ++ payload in
    encode_page page scratch = (Ok (mkEncodedPage class bytes), bytes ++ rest) /\
    payload_for class page payload.
Proof.
  intros Hp Hmin Hmax. pose proof Hp as [Hlen Hb].
  rewrite <- (take_drop (Z.to_nat HEADER_BYTES) scratch).
  set (hdr := take _ scratch). set (tail := drop _ scratch).
  assert (Hh : len hdr = HEADER_BYTES) by (unfold hdr; len_solve || (unfold len; rewrite length_take; unfold len in *; plia)).
  assert (Ht : len tail = len scratch - HEADER_BYTES) by (unfold tail, len in *; rewrite length_drop; plia).
  assert (Hs : len (hdr ++ tail) = len scratch) by (rewrite len_app; lia).
  assert (Hfirst : exists b, page !! 0%nat = Some b /\ idx (E:=CompressionError) page 0 = Ok b).
  { destruct (idx_total (E:=CompressionError) page 0) as (b & ? & ?); [plia|]. by exists b. }
  destruct Hfirst as (b & Hb0 & Hidx).
  assert (Hrep : forall c, page = replicate (length page) c <-> page = constant_page c).
  { intros c. unfold constant_page. by replace (Z.to_nat PAGE_BYTES) with (length page) by (unfold len in Hlen; lia). }
  unfold encode_page, bind at 1, gets at 1. rewrite Hs, (proj2 (Z.ltb_ge _ _)) by plia.
  unfold bind at 1. destruct (is_zero_page page) eqn:Hz.
  { apply forallb_replicate in Hz. exists Zero, [], tail. unfold ret at 1.
    change (hdr ++ tail) with (hdr ++ [] ++ tail).
    rewrite (encode_finish Zero [] hdr tail 0) by (done || (rewrite len_nil; plia)). split; [done|]. split; [done|by apply Hrep]. }
  unfold bind at 1, lift at 1, is_same_page. rewrite Hidx. cbn [obind].
  destruct (forallb (fun x => x =? b) page) eqn:Hsame.
  - apply forallb_replicate in Hsame. rewrite (proj2 (Z.ltb_ge _ _)) by plia.
    unfold bind at 1, lift at 1. unfold bind at 1.
    rewrite (write_bytes_app HEADER_BYTES hdr tail [b]) by (done || (rewrite len_cons, len_nil; plia)).
    unfold ret at 1. rewrite <- app_assoc. change (drop (length [b]) tail) with (drop 1 tail).
    rewrite (encode_finish Same [b] hdr (drop 1 tail) 1) by (done || (rewrite ?len_cons, ?len_nil; plia)).
    exists Same, [b], (drop 1 tail). split; [done|]. exists b. split; [done|]. split; [by apply Hrep|].
    intros ->. unfold is_zero_page in Hz. by rewrite (proj2 (forallb_replicate 0 page) Hsame) in Hz.
  - rewrite (proj2 (Z.ltb_ge _ _)) by plia. unfold on_tail. rewrite Hs, (proj2 (Z.ltb_ge _ _)) by plia.
    unfold zoom. replace (Z.to_nat HEADER_BYTES) with (length hdr) by (unfold len in Hh; lia).
    rewrite drop_app_length, take_app_length.
    assert (Hnc : forall c, page <> constant_page c).
    { intros c Hc. apply Hrep in Hc as Hc'. assert (c = b) as ->.
      { rewrite Hc' in Hb0. by apply lookup_replicate in Hb0 as [-> _]. }
      by rewrite (proj2 (forallb_replicate b page) Hc') in Hsame. }
    destruct (encode_sxrc_or_raw_spec page tail Hp Hnc) as (class & payload & rest & -> & Hl & Hcl & Hpf); [plia|plia|].
    destruct (payload_for_bound _ _ _ Hp Hpf).
    rewrite (encode_finish class payload hdr rest (len payload)) by done. by exists class, payload, rest.
Qed.

(** Decoding a well-formed encoding reduces to decoding its payload. *)
Lemma decode_page_bytes class payload out :
  len payload <= PAGE_BYTES ->
  decode_page (header_bytes (mkHeader class (len payload) (fnv1a32 payload)) ++ payload) out =
    (do! decode_payload class payload in ret class) out.
Proof.
  intros Hp. pose proof (len_nonneg payload). set (h := mkHeader _ _ _).
  unfold decode_page, bind at 1, lift at 1.
  rewrite header_decode_bytes by (cbn; apply fnv1a32_range || plia). cbv zeta.
  unfold bind at 1, lift at 1, chk_add. cbn [payload_len h]. rewrite (proj2 (Z.ltb_lt _ _)) by plia. cbn [ok_or].
  rewrite len_app. change (len (header_bytes h)) with HEADER_BYTES. rewrite Z.eqb_refl. cbn [negb].
  unfold bind at 1, lift at 1.
  rewrite <- (app_nil_r payload) at 1. rewrite slice_app by done. cbn [checksum h].
  by rewrite Z.eqb_refl.
Qed.

Lemma decode_payload_for class page payload out :
  is_page page -> payload_for class page payload -> len out = PAGE_BYTES ->
  decode_payload class payload out = (Ok tt, page).
Proof.
  intros Hp Hpf Ho. pose proof (payload_for_bound _ _ _ Hp Hpf) as [_ Hbound]. destruct Hp as [Hlen _].
  destruct class; unfold payload_for, constant_page in Hpf.
  - destruct Hpf as [-> ->].
    change (decode_payload Zero [] out) with (@Ok CompressionError unit tt, replicate (length out) 0).
    do 2 f_equal. unfold len in Ho. lia.
  - destruct Hpf as (b & -> & -> & _).
    change (decode_payload Same [b] out) with (@Ok CompressionError unit tt, replicate (length out) b).
    do 2 f_equal. unfold len in Ho. lia.
  - destruct Hpf as [[? ?] _]. apply decode_sxrc_stream; [done..|plia].
  - destruct Hpf as [-> _]. unfold decode_payload. rewrite Hlen, Z.eqb_refl. cbn [negb].
    rewrite (write_bytes_app 0 [] out page) by (done || lia).
    rewrite drop_ge by (unfold len in *; lia). by rewrite app_nil_r.
Qed.

Lemma replicate_page b : in_range U8 b -> is_page (replicate (Z.to_nat PAGE_BYTES) b).
Proof. intros Hb. split; [unfold len; by rewrite length_replicate|by apply Forall_replicate]. Qed.

Lemma len_replicate {A} n (x : A) : 0 <= n -> len (replicate (Z.to_nat n) x) = n.
Proof. intros. unfold len. rewrite length_replicate. lia. Qed.

(** Damage to one payload byte of a well-formed encoding. *)
Lemma insert_split {A} (l : list A) i x y :
  l !! i = Some x -> exists l1 l2, l = l1 ++ x :: l2 /\ <[i:=y]> l = l1 ++ y :: l2 /\ length l1 = i.
Proof.
  intros Hx. exists (take i l), (drop (S i) l). pose proof (lookup_lt_Some _ _ _ Hx).
  split; [by rewrite take_drop_middle|]. split; [by apply insert_take_drop|]. rewrite length_take. lia.
Qed.

Lemma decode_payload_safe class payload out :
  byte_list payload -> len payload < U64 - 512 -> len out = PAGE_BYTES ->
  match decode_payload class payload out with
  | (Ok _, s) | (Err _, s) => len s = PAGE_BYTES
  | _ => False
  end.
Proof.
  intros Hpb Hplen Ho. destruct class; unfold decode_payload.
  - destruct (_ =? 0); [|done]. unfold fill, modify. cbn [negb]. rewrite <- Ho. unfold len. by rewrite length_replicate.
  - destruct (Z.eqb_spec (len payload) 1); [|done]. cbn [negb]. unfold bind, lift.
    destruct (idx_total (E:=CompressionError) payload 0) as (b & -> & _); [lia|].
    unfold fill, modify. cbn beta iota. rewrite <- Ho. unfold len. by rewrite length_replicate.
  - pose proof (decode_sxrc_payload_spec payload out Hpb Hplen Ho) as H.
    destruct (decode_sxrc_payload payload out) as [[|e| |] s]; by destruct H.
  - destruct (Z.eqb_spec (len payload) PAGE_BYTES); [|done]. cbn [negb].
    destruct (write_bytes_ok (E:=CompressionError) 0 payload out) as (s & -> & -> & _); [lia|lia|done].
Qed.

Lemma decode_page_safe encoded out :
  byte_list encoded -> len encoded < SLICE_LIMIT -> len out = PAGE_BYTES ->
  match decode_page encoded out with
  | (Ok _, s) | (Err _, s) => len s = PAGE_BYTES
  | _ => False
  end.
Proof.
  intros Hb Hl Ho. unfold decode_page, bind at 1, lift at 1.
  pose proof (header_decode_returns encoded ltac:(lia)) as Hret.
  destruct (header_decode encoded) as [h|e| |] eqn:Hh; try done.
  destruct (header_decode_inv encoded h Hb ltac:(lia) Hh) as [Hpl Hhdr]. cbv zeta.
  unfold bind at 1, lift at 1, chk_add. rewrite (proj2 (Z.ltb_lt _ _)) by plia. cbn [ok_or].
  destruct (Z.eqb_spec (len encoded) (HEADER_BYTES + payload_len h)) as [Heq|]; [|done]. cbn [negb].
  unfold bind at 1, lift at 1. rewrite slice_ok by plia.
  set (payload := take _ (drop _ encoded)). destruct (fnv1a32 payload =? checksum h); [|done]. cbn [negb].
  pose proof (decode_payload_safe (h_class h) payload out) as Hdp.
  unfold bind. destruct (decode_payload (h_class h) payload out) as [[|e| |] s];
    (apply Hdp; [by apply byte_list_sub| |done]); unfold payload, len in *; rewrite length_take, length_drop; plia.
Qed.

(** * Theorems *)

(** C1. Encoding a page into a scratch buffer of [MAX_ENCODED_PAGE_BYTES] always
    succeeds, and decoding the encoded bytes into any page buffer restores the
    page exactly and reports the class the encoder chose. *)
Theorem encode_decode_roundtrip page scratch out :
  is_page page -> MAX_ENCODED_PAGE_BYTES <= len scratch < SLICE_LIMIT -> len out = PAGE_BYTES ->
  exists ep scratch',
    encode_page page scratch = (Ok ep, scratch') /\
    decode_page (ep_bytes ep) out = (Ok (ep_class ep), page).
Proof.
  intros Hp [Hmin Hmax] Ho.
  destruct (encode_page_spec page scratch Hp Hmin) as (class & payload & rest & He & Hpf); [lia|].
  destruct (payload_for_bound _ _ _ Hp Hpf) as [_ Hlen].
  do 2 eexists. split; [exact He|]. cbn [ep_bytes ep_class].
  rewrite decode_page_bytes by done. unfold bind.
  by rewrite (decode_payload_for class page payload out Hp Hpf Ho).
Qed.

Lemma encode_decode_roundtrip_witness :
  exists ep scratch',
    encode_page (replicate (Z.to_nat PAGE_BYTES) 0xAA) (replicate (Z.to_nat MAX_ENCODED_PAGE_BYTES) 0) = (Ok ep, scratch') /\
    decode_page (ep_bytes ep) (replicate (Z.to_nat PAGE_BYTES) 0) = (Ok (ep_class ep), replicate (Z.to_nat PAGE_BYTES) 0xAA).
Proof.
  apply encode_decode_roundtrip.
  - apply replicate_page. done.
  - rewrite len_replicate; plia.
  - rewrite len_replicate; plia.
Defined.

(** C2. Decoding is total and memory safe on untrusted input: whatever the bytes
    handed to [decode_page], it returns a class or an error (no index out of
    range, no overflow, no endless loop) and leaves a page-sized buffer. *)
Theorem decode_page_total encoded out :
  byte_list encoded -> len encoded < SLICE_LIMIT -> len out = PAGE_BYTES ->
  returns (fst (decode_page encoded out)) /\ len (snd (decode_page encoded out)) = PAGE_BYTES.
Proof.
  intros Hb Hl Ho. pose proof (decode_page_safe encoded out Hb Hl Ho) as H.
  by destruct (decode_page encoded out) as [[|e| |] s].
Qed.

Lemma decode_page_total_witness :
  returns (fst (decode_page [0x48; 0x58; 0x43; 0x50; 1; 2; 255; 255] (replicate (Z.to_nat PAGE_BYTES) 9))) /\
  len (snd (decode_page [0x48; 0x58; 0x43; 0x50; 1; 2; 255; 255] (replicate (Z.to_nat PAGE_BYTES) 9))) = PAGE_BYTES.
Proof.
  apply decode_page_total.
  - repeat constructor; unfold in_range; lia.
  - done.
  - rewrite len_replicate; plia.
Defined.

(** C3. The SXRC decoder accepts a payload, producing the page [p], exactly when
    the payload is a token stream that describes [p] and [p] fills the page:
    the loop implements the wire format, nothing more and nothing less. *)
Theorem decode_sxrc_accepts_iff payload out p :
  byte_list payload -> len payload < SLICE_LIMIT -> len out = PAGE_BYTES ->
  decode_sxrc_payload payload out = (Ok tt, p) <-> (stream_of payload p /\ len p = PAGE_BYTES).
Proof.
  intros Hb Hl Ho. split.
  - intros H. pose proof (decode_sxrc_payload_spec payload out Hb ltac:(lia) Ho) as Hs. by rewrite H in Hs.
  - intros [Hs Hp]. apply decode_sxrc_stream; [done|done|done|lia].
Qed.

(** 1024 dictionary tokens for the word 0x0000ffff describe a full page. *)
Definition dict_payload : list Z := concat (replicate 1024 [TOKEN_DICT; 2; 0]).
Definition dict_page : list Z := concat (replicate 1024 [0xff; 0xff; 0; 0]).

Lemma dict_stream n : stream_of (concat (replicate n [TOKEN_DICT; 2; 0])) (concat (replicate n [0xff; 0xff; 0; 0])).
Proof.
  induction n as [|n IH]; [constructor|].
  exact (stream_cons _ _ _ _ (chunk_dict 2 0x0000ffff eq_refl) IH).
Qed.

Lemma decode_sxrc_accepts_iff_witness :
  decode_sxrc_payload dict_payload (replicate (Z.to_nat PAGE_BYTES) 0) = (Ok tt, dict_page) <->
  (stream_of dict_payload dict_page /\ len dict_page = PAGE_BYTES).
Proof.
  apply decode_sxrc_accepts_iff.
  - apply Forall_concat, Forall_replicate. repeat constructor; unfold in_range, TOKEN_DICT; lia.
  - vm_compute. reflexivity.
  - rewrite len_replicate; plia.
Defined.

(** C4. A single damaged payload byte never goes unnoticed: if one byte after the
    header of an encoded page is replaced by a different byte, [decode_page]
    reports [ChecksumMismatch] and does not touch the output buffer. *)
Theorem single_byte_corruption_detected page scratch ep scratch' out i x y :
  is_page page -> MAX_ENCODED_PAGE_BYTES <= len scratch < SLICE_LIMIT ->
  encode_page page scratch = (Ok ep, scratch') ->
  (Z.to_nat HEADER_BYTES <= i)%nat -> ep_bytes ep !! i = Some x -> in_range U8 y -> y <> x ->
  decode_page (<[i:=y]> (ep_bytes ep)) out = (Err ChecksumMismatch, out).
Proof.
  intros Hp [Hmin Hmax] He Hi Hx Hy Hne.
  destruct (encode_page_spec page scratch Hp Hmin) as (class & payload & rest & He' & Hpf); [lia|].
  cbv zeta in He'. assert (Hep := eq_trans (eq_sym He) He').
  assert (ep = mkEncodedPage class (header_bytes (mkHeader class (len payload) (fnv1a32 payload)) ++ payload))
    as -> by congruence. clear He' Hep. cbn [ep_bytes] in *.
  destruct (payload_for_bound _ _ _ Hp Hpf) as [Hb Hlen]. set (h := mkHeader _ _ _) in *.
  rewrite lookup_app_r in Hx by done. change (length (header_bytes h)) with 16%nat in Hx.
  rewrite insert_app_r_alt by done. change (length (header_bytes h)) with 16%nat.
  destruct (insert_split payload (i - 16) x y Hx) as (l1 & l2 & Hl & Hins & _). rewrite Hins.
  assert (Hlen2 : len (l1 ++ y :: l2) = len payload) by (rewrite Hl; len_solve).
  pose proof (len_nonneg payload).
  unfold decode_page, bind at 1, lift at 1.
  rewrite header_decode_bytes by (cbn; apply fnv1a32_range || plia). cbv zeta.
  unfold bind at 1, lift at 1, chk_add. cbn [payload_len h]. rewrite (proj2 (Z.ltb_lt _ _)) by plia. cbn [ok_or].
  rewrite len_app, Hlen2. change (len (header_bytes h)) with HEADER_BYTES. rewrite Z.eqb_refl. cbn [negb].
  unfold bind at 1, lift at 1. rewrite <- (app_nil_r (l1 ++ y :: l2)), slice_app by (done || by rewrite Hlen2).
  destruct (Z.eqb_spec (fnv1a32 (l1 ++ y :: l2)) (checksum h)) as [Heq|]; [|done]. exfalso. apply Hne.
  cbn in Heq. rewrite Hl in Heq, Hb. apply Forall_app in Hb as [_ Hb]. inversion Hb; subst.
  by eapply fnv1a32_one_byte.
Qed.

Lemma dict_page_ok : is_page dict_page.
Proof. split; [reflexivity|]. apply Forall_concat, Forall_replicate. repeat constructor; unfold in_range; lia. Qed.

(** The constant page 0xAA is encoded as a header and one byte; damaging that
    byte is reported. *)
Lemma single_byte_corruption_detected_witness :
  exists ep scratch',
    encode_page (replicate (Z.to_nat PAGE_BYTES) 0xAA) (replicate (Z.to_nat MAX_ENCODED_PAGE_BYTES) 0) = (Ok ep, scratch') /\
    decode_page (<[16%nat:=0xAB]> (ep_bytes ep)) (replicate (Z.to_nat PAGE_BYTES) 0)
      = (Err ChecksumMismatch, replicate (Z.to_nat PAGE_BYTES) 0).
Proof.
  assert (Hp : is_page (replicate (Z.to_nat PAGE_BYTES) 0xAA)) by by apply replicate_page.
  assert (Hs : MAX_ENCODED_PAGE_BYTES <= len (replicate (Z.to_nat MAX_ENCODED_PAGE_BYTES) 0) < SLICE_LIMIT)
    by (rewrite len_replicate; plia).
  destruct (encode_page_spec _ _ Hp (proj1 Hs)) as (class & payload & rest & He & Hpf); [lia|].
  destruct class; cbn [payload_for] in Hpf.
  - destruct Hpf as [_ Hpf]. apply (f_equal (fun l => l !! 0%nat)) in Hpf. discriminate Hpf.
  - destruct Hpf as (b & -> & Hpf & _). apply (f_equal (fun l => l !! 0%nat)) in Hpf. injection Hpf as <-.
    do 2 eexists. split; [exact He|].
    apply (single_byte_corruption_detected _ _ _ _ _ 16%nat 0xAA 0xAB Hp Hs He);
      [unfold HEADER_BYTES; lia|reflexivity|unfold in_range; lia|lia].
  - by destruct (proj2 Hpf 0xAA).
  - by destruct (proj2 Hpf 0xAA).
Defined.

(** The class and the size of an encoding: the zero page costs 16 bytes, a
    constant page 17, SXRC strictly less than the raw form, and no encoding
    exceeds [MAX_ENCODED_PAGE_BYTES]; [Zero] and [Same] are chosen exactly for
    the constant pages. *)
Theorem encode_page_class_and_size page scratch ep scratch' :
  is_page page -> MAX_ENCODED_PAGE_BYTES <= len scratch < SLICE_LIMIT ->
  encode_page page scratch = (Ok ep, scratch') ->
  len (ep_bytes ep) <= MAX_ENCODED_PAGE_BYTES /\
  match ep_class ep with
  | Zero => page = constant_page 0 /\ len (ep_bytes ep) = HEADER_BYTES
  | Same => (exists b, b <> 0 /\ page = constant_page b) /\ len (ep_bytes ep) = HEADER_BYTES + 1
  | Sxrc => (forall b, page <> constant_page b) /\ len (ep_bytes ep) < MAX_ENCODED_PAGE_BYTES
  | Raw => (forall b, page <> constant_page b) /\ len (ep_bytes ep) = MAX_ENCODED_PAGE_BYTES
  end.
Proof.
  intros Hp [Hmin Hmax] He.
  destruct (encode_page_spec page scratch Hp Hmin) as (class & payload & rest & He' & Hpf); [lia|].
  cbv zeta in He'. assert (Hep := eq_trans (eq_sym He) He').
  assert (ep = mkEncodedPage class (header_bytes (mkHeader class (len payload) (fnv1a32 payload)) ++ payload))
    as -> by congruence. clear He' Hep. cbn [ep_bytes ep_class].
  destruct (payload_for_bound _ _ _ Hp Hpf) as [_ Hlen].
  rewrite len_app. change (len (header_bytes _)) with HEADER_BYTES.
  split; [plia|]. destruct class; unfold payload_for in Hpf.
  - destruct Hpf as [-> Hpf]. split; [exact Hpf|reflexivity].
  - destruct Hpf as (b & -> & Hpf & Hb). split; [by exists b|reflexivity].
  - destruct Hpf as [[_ Hl] Hpf]. split; [done|plia].
  - destruct Hpf as [-> Hpf]. split; [done|]. destruct Hp as [Hl _]. plia.
Qed.

Lemma encode_page_class_and_size_witness :
  exists ep scratch', encode_page dict_page (replicate (Z.to_nat MAX_ENCODED_PAGE_BYTES) 0) = (Ok ep, scratch') /\
    len (ep_bytes ep) <= MAX_ENCODED_PAGE_BYTES.
Proof.
  assert (Hs : MAX_ENCODED_PAGE_BYTES <= len (replicate (Z.to_nat MAX_ENCODED_PAGE_BYTES) 0) < SLICE_LIMIT)
    by (rewrite len_replicate; plia).
  destruct (encode_page_spec _ _ dict_page_ok (proj1 Hs)) as (class & payload & rest & He & _); [lia|].
  do 2 eexists. split; [exact He|].
  apply (encode_page_class_and_size dict_page _ _ _ dict_page_ok Hs He).
Defined.
