(* ===== verification/Compress.v ===== *)
(** * Compression runtime: [kernel/src/mm/compress/mod.rs]

    The trait [CompressionBackend] is a type class; what a client (the page
    store) relies on is the class [LawfulBackend]: encoding a page succeeds and
    gives bytes that any later decode turns back into the page, whatever the
    backend's state is by then. [NullBackend], the backend the kernel links,
    is an instance of both, through the codec's round trip. *)
From stdpp Require Import base list numbers option strings.
From Stdlib Require Import ZArith Lia Bool.
From S2P Require Import Prelude Codec CodecFacts.

Record CompressionStats : Type := mkCompressionStats {
  encoded_pages : Z; decoded_pages : Z; zero_pages : Z; same_pages : Z; sxrc_pages : Z;
  raw_pages : Z; fallback_raw_pages : Z; encode_failures : Z; decode_failures : Z }.

#[export] Instance eta_CompressionStats : RecordEta CompressionStats := fun s =>
  mkCompressionStats (encoded_pages s) (decoded_pages s) (zero_pages s) (same_pages s) (sxrc_pages s)
    (raw_pages s) (fallback_raw_pages s) (encode_failures s) (decode_failures s).

(** [x = x.saturating_add(1)] on a [u64] counter *)
Definition incr (c : Z) : Z := sat_add U64 c 1.
Definition decr (c : Z) : Z := sat_sub c 1.

(** The trait: [&mut self] is the first component of the state, the scratch or
    output buffer the second. *)
Class CompressionBackend (B : Type) : Type := {
  backend_name : string;
  profile_name : string;
  profile_version : Z;
  backend_encode_page : list Z -> M (B * list Z) CompressionError EncodedPage;
  backend_decode_page : EncodedPage -> M (B * list Z) CompressionError unit;
  backend_stats : B -> CompressionStats;
}.

(** [restores ep page]: decoding [ep] gives [page], from every backend state and
    into every page buffer. *)
Definition restores {B} `{CompressionBackend B} (ep : EncodedPage) (page : list Z) : Prop :=
  forall (b : B) out, len out = PAGE_BYTES ->
    exists b', backend_decode_page ep (b, out) = (Ok tt, (b', page)).

Class LawfulBackend (B : Type) `{CompressionBackend B} : Prop := {
  backend_encode_restores : forall page (b : B) scratch,
    is_page page -> MAX_ENCODED_PAGE_BYTES <= len scratch < SLICE_LIMIT ->
    exists ep b' scratch',
      backend_encode_page page (b, scratch) = (Ok ep, (b', scratch')) /\
      len (ep_bytes ep) <= MAX_ENCODED_PAGE_BYTES /\ restores (B:=B) ep page;
}.

(** ** [NullBackend] *)
Record NullBackend : Type := mkNullBackend { nb_stats : CompressionStats }.

#[export] Instance eta_NullBackend : RecordEta NullBackend := fun b => mkNullBackend (nb_stats b).

Definition null_backend_new : NullBackend := mkNullBackend (mkCompressionStats 0 0 0 0 0 0 0 0 0).

Definition account_encoded_class (class : CompressionClass) (b : NullBackend) : NullBackend :=
  match class with
  | Zero => upd nb_stats (upd zero_pages incr) b
  | Same => upd nb_stats (upd same_pages incr) b
  | Sxrc => upd nb_stats (upd sxrc_pages incr) b
  | Raw => upd nb_stats (upd fallback_raw_pages incr) (upd nb_stats (upd raw_pages incr) b)
  end.

(** A codec operation on the buffer half of the state. *)
Definition on_buffer {B A} (m : M (list Z) CompressionError A) : M (B * list Z) CompressionError A :=
  zoom snd (fun buf s => (fst s, buf)) m.
Definition on_backend {B E} (f : B -> B) : M (B * list Z) E unit := modify (fun s => (f (fst s), snd s)).

Definition null_encode_page (page : list Z) : M (NullBackend * list Z) CompressionError EncodedPage :=
  do! on_backend (upd nb_stats (upd encoded_pages incr)) in
  catch (on_buffer (encode_page page)) (fun r =>
    match r with
    | inl encoded => do! on_backend (account_encoded_class (ep_class encoded)) in ret encoded
    | inr error => do! on_backend (upd nb_stats (upd encode_failures incr)) in throw error
    end).

Definition null_decode_page (encoded : EncodedPage) : M (NullBackend * list Z) CompressionError unit :=
  catch (on_buffer (decode_page (ep_bytes encoded))) (fun r =>
    match r with
    | inl _ => on_backend (upd nb_stats (upd decoded_pages incr))
    | inr error => do! on_backend (upd nb_stats (upd decode_failures incr)) in throw error
    end).

#[export] Instance NullBackend_backend : CompressionBackend NullBackend := {|
  backend_name := "null";
  profile_name := "minimal-v1";
  profile_version := 1;
  backend_encode_page := null_encode_page;
  backend_decode_page := null_decode_page;
  backend_stats := nb_stats;
|}.

#[export] Instance NullBackend_lawful : LawfulBackend NullBackend.
Proof.
  constructor. intros page b scratch Hp Hs.
  destruct (encode_page_spec page scratch Hp (proj1 Hs)) as (class & payload & rest & He & Hpf); [lia|].
  destruct (payload_for_bound _ _ _ Hp Hpf) as [_ Hlen]. cbv zeta in He. set (h := mkHeader _ _ _) in *.
  do 3 eexists. split.
  { cbn [backend_encode_page NullBackend_backend]. unfold null_encode_page, bind at 1, on_backend at 1, modify at 1.
    unfold catch, on_buffer, zoom. cbn [fst snd]. rewrite He. reflexivity. }
  cbn [ep_bytes]. split.
  { rewrite len_app. change (len (header_bytes h)) with HEADER_BYTES. plia. }
  intros b2 out Ho. eexists. cbn [backend_decode_page NullBackend_backend]. unfold null_decode_page.
  unfold catch, on_buffer, zoom. cbn [snd ep_bytes]. unfold h. rewrite decode_page_bytes by done.
  unfold bind. rewrite (decode_payload_for class page payload out Hp Hpf Ho). reflexivity.
Qed.

(** ** [CompressionRuntime] *)
Inductive CompressionInitError : Type := CompressionAlreadyInitialized.

Record CompressionRuntimeSummary : Type := mkRuntimeSummary {
  rs_backend : string; rs_profile : string; rs_profile_version : Z; rs_page_bytes : Z; rs_compression_unit_bytes : Z; rs_little_endian : bool;
  rs_dynamic_patterns : bool; rs_static_dictionary_entries : Z; rs_static_pattern_entries : Z;
  rs_encoded_header_bytes : Z; rs_max_encoded_page_bytes : Z }.

Section runtime.
Context {B : Type} `{CompressionBackend B}.

Record CompressionRuntime : Type := mkRuntime { rt_initialized : bool; rt_backend : B }.

#[export] Instance eta_CompressionRuntime : RecordEta CompressionRuntime := fun r =>
  mkRuntime (rt_initialized r) (rt_backend r).

Definition rt_summary (r : CompressionRuntime) : CompressionRuntimeSummary :=
  mkRuntimeSummary (backend_name (B:=B)) (profile_name (B:=B)) (profile_version (B:=B)) PAGE_BYTES 2 true false (len HXNU_SXRC_STATIC_DICTIONARY)
    (len HXNU_SXRC_STATIC_PATTERNS) HEADER_BYTES MAX_ENCODED_PAGE_BYTES.

Definition rt_initialize : M CompressionRuntime CompressionInitError CompressionRuntimeSummary :=
  let! init := gets rt_initialized in
  if init then throw CompressionAlreadyInitialized else
  do! modify (set_field rt_initialized true) in
  gets rt_summary.

Definition on_rt_backend {A} (m : M (B * list Z) CompressionError A)
    : M (CompressionRuntime * list Z) CompressionError A :=
  zoom (fun s => (rt_backend (fst s), snd s))
       (fun t s => (set_field rt_backend (fst t) (fst s), snd t)) m.

Definition rt_encode_page (page : list Z) : M (CompressionRuntime * list Z) CompressionError EncodedPage :=
  let! init := gets (fun s => rt_initialized (fst s)) in
  if negb init then throw NotInitialized else on_rt_backend (backend_encode_page page).

Definition rt_decode_page (encoded : EncodedPage) : M (CompressionRuntime * list Z) CompressionError unit :=
  let! init := gets (fun s => rt_initialized (fst s)) in
  if negb init then throw NotInitialized else on_rt_backend (backend_decode_page encoded).

Definition rt_stats (r : CompressionRuntime) : CompressionStats := backend_stats (rt_backend r).
End runtime.
Arguments CompressionRuntime B : clear implicits.
Arguments mkRuntime {B} _ _.
Arguments rt_initialize {B _}.

(** The runtime before [initialize], as the kernel links it. *)
Definition runtime_new : CompressionRuntime NullBackend := mkRuntime false null_backend_new.

Section runtime_lemmas.
Context {B : Type} `{LawfulBackend B}.

(** What the runtime promises once initialised: encoding a page yields bytes
    that restore it through any initialised runtime. *)
Definition rt_restores (ep : EncodedPage) (page : list Z) : Prop :=
  forall (r : CompressionRuntime B) out, rt_initialized r = true -> len out = PAGE_BYTES ->
    exists r', rt_decode_page ep (r, out) = (Ok tt, (r', page)) /\ rt_initialized r' = true.

Lemma restores_rt ep page : restores (B:=B) ep page -> rt_restores ep page.
Proof.
  intros Hr [init b] out Hi Ho. cbn in Hi. subst init. destruct (Hr b out Ho) as [b' Hd].
  exists (mkRuntime true b'). unfold rt_decode_page, bind, gets. cbn [fst rt_initialized negb].
  unfold on_rt_backend, zoom. cbn [fst snd rt_backend]. by rewrite Hd.
Qed.

Lemma rt_encode_restores page (r : CompressionRuntime B) scratch :
  is_page page -> MAX_ENCODED_PAGE_BYTES <= len scratch < SLICE_LIMIT -> rt_initialized r = true ->
  exists ep r' scratch',
    rt_encode_page page (r, scratch) = (Ok ep, (r', scratch')) /\ rt_initialized r' = true /\
    len (ep_bytes ep) <= MAX_ENCODED_PAGE_BYTES /\ rt_restores ep page.
Proof.
  intros Hp Hs Hi. destruct r as [init b]. cbn in Hi. subst init.
  destruct (backend_encode_restores page b scratch Hp Hs) as (ep & b' & s' & He & Hl & Hr).
  exists ep, (mkRuntime true b'), s'. split; [|split; [done|split; [done|by apply restores_rt]]].
  unfold rt_encode_page, bind, gets. cbn [fst rt_initialized negb].
  unfold on_rt_backend, zoom. cbn [fst snd rt_backend]. by rewrite He.
Qed.
End runtime_lemmas.
