(* ===== verification/PageStore.v ===== *)
(** * Compressed page store: [kernel/src/mm/compress/store.rs]

    A fixed table of 64 slots maps page ids to encoded pages; a full table
    evicts round-robin. The store calls the compression runtime, so its methods
    run on the pair of both ([mm]); [load_page] also writes the caller's page
    buffer.

    The specification is a finite map from page ids to pages ([gmap]); [Rep]
    relates a state to the map it implements. *)
From stdpp Require Import base list numbers option gmap.
From Stdlib Require Import ZArith Lia Bool.
From S2P Require Import Prelude Codec CodecFacts Compress.

Definition STORE_CAPACITY_PAGES : Z := 64.
Definition STORE_CAPACITY_BYTES : Z := STORE_CAPACITY_PAGES * MAX_ENCODED_PAGE_BYTES.

Record StoreSummary : Type := mkStoreSummary {
  ss_capacity_pages : Z; ss_capacity_bytes : Z; ss_page_bytes : Z; ss_max_encoded_page_bytes : Z }.

Inductive StoreInitError : Type := StoreAlreadyInitialized | CompressionRuntimeUnavailable.

Inductive StoreError : Type :=
| StoreNotInitialized
| StoreNotFound
| StoreEncode (e : CompressionError)
| StoreDecode (e : CompressionError).

Record StoreEntry : Type := mkStoreEntry { se_page_id : Z; se_class : CompressionClass; se_encoded_bytes : Z }.

Record StoreStats : Type := mkStoreStats {
  capacity_pages : Z; capacity_bytes : Z; stored_pages : Z; stored_zero_pages : Z;
  stored_same_pages : Z; stored_sxrc_pages : Z; stored_raw_pages : Z; current_encoded_bytes : Z;
  total_input_bytes : Z; total_encoded_bytes : Z; store_requests : Z; store_successes : Z;
  load_requests : Z; load_successes : Z; load_misses : Z; replacements : Z; evictions : Z;
  store_encode_failures : Z; store_decode_failures : Z }.

#[export] Instance eta_StoreStats : RecordEta StoreStats := fun s =>
  mkStoreStats (capacity_pages s) (capacity_bytes s) (stored_pages s) (stored_zero_pages s)
    (stored_same_pages s) (stored_sxrc_pages s) (stored_raw_pages s) (current_encoded_bytes s)
    (total_input_bytes s) (total_encoded_bytes s) (store_requests s) (store_successes s)
    (load_requests s) (load_successes s) (load_misses s) (replacements s) (evictions s)
    (store_encode_failures s) (store_decode_failures s).

Definition store_stats_new : StoreStats :=
  mkStoreStats STORE_CAPACITY_PAGES STORE_CAPACITY_BYTES 0 0 0 0 0 0 0 0 0 0 0 0 0 0 0 0 0.

Record StoreSlot : Type := mkSlot {
  occupied : bool; slot_page_id : Z; slot_class : CompressionClass; encoded_len : Z; encoded : list Z }.

#[export] Instance eta_StoreSlot : RecordEta StoreSlot := fun s =>
  mkSlot (occupied s) (slot_page_id s) (slot_class s) (encoded_len s) (encoded s).

Definition slot_empty : StoreSlot :=
  mkSlot false 0 Raw 0 (replicate (Z.to_nat MAX_ENCODED_PAGE_BYTES) 0).

Record StoreState : Type := mkStore {
  st_initialized : bool; next_evict : Z; slots : list StoreSlot; st_stats : StoreStats }.

#[export] Instance eta_StoreState : RecordEta StoreState := fun s =>
  mkStore (st_initialized s) (next_evict s) (slots s) (st_stats s).

Definition store_new : StoreState :=
  mkStore false 0 (replicate (Z.to_nat STORE_CAPACITY_PAGES) slot_empty) store_stats_new.

(** ** Slot search: the two [while] loops *)
Fixpoint find_index (P : StoreSlot -> bool) (l : list StoreSlot) (i : Z) : option Z :=
  match l with
  | [] => None
  | s :: l' => if P s then Some i else find_index P l' (i + 1)
  end.

Definition find_slot (page_id : Z) (st : StoreState) : option Z :=
  find_index (fun s => occupied s && (slot_page_id s =? page_id)) (slots st) 0.
Definition find_empty_slot (st : StoreState) : option Z :=
  find_index (fun s => negb (occupied s)) (slots st) 0.

(** ** Accounting *)
Definition account_added (class : CompressionClass) (n : Z) (st : StoreState) : StoreState :=
  upd st_stats (fun t =>
    let t := upd current_encoded_bytes (fun c => sat_add U64 c n) t in
    match class with
    | Zero => upd stored_zero_pages incr t
    | Same => upd stored_same_pages incr t
    | Sxrc => upd stored_sxrc_pages incr t
    | Raw => upd stored_raw_pages incr t
    end) st.

Definition account_removed (class : CompressionClass) (n : Z) (st : StoreState) : StoreState :=
  upd st_stats (fun t =>
    let t := upd current_encoded_bytes (fun c => sat_sub c n) t in
    match class with
    | Zero => upd stored_zero_pages decr t
    | Same => upd stored_same_pages decr t
    | Sxrc => upd stored_sxrc_pages decr t
    | Raw => upd stored_raw_pages decr t
    end) st.

(** ** Operations *)
Section store.
Context {B : Type} `{CompressionBackend B}.

(** The runtime and the store, the two globals a store method touches. *)
Record mm : Type := mkMm { mm_rt : CompressionRuntime B; mm_store : StoreState }.

#[export] Instance eta_mm : RecordEta mm := fun m => mkMm (mm_rt m) (mm_store m).

Definition store_summary : StoreSummary :=
  mkStoreSummary STORE_CAPACITY_PAGES STORE_CAPACITY_BYTES PAGE_BYTES MAX_ENCODED_PAGE_BYTES.

Definition on_store {E} (f : StoreState -> StoreState) : M mm E unit := modify (upd mm_store f).
Definition on_stats {E} (f : StoreStats -> StoreStats) : M mm E unit := on_store (upd st_stats f).

Definition store_initialize : M mm StoreInitError StoreSummary :=
  let! m := gets id in
  if st_initialized (mm_store m) then throw StoreAlreadyInitialized else
  if negb (rt_initialized (mm_rt m)) then throw CompressionRuntimeUnavailable else
  do! on_store (set_field st_initialized true) in
  ret store_summary.

(** [super::encode_page(page, &mut scratch)] with a zeroed local scratch. *)
Definition encode_to_scratch (page : list Z) : M mm CompressionError EncodedPage :=
  zoom (fun m => (mm_rt m, replicate (Z.to_nat MAX_ENCODED_PAGE_BYTES) 0))
       (fun t m => set_field mm_rt (fst t) m) (rt_encode_page page).

(** [self.slots[i]] *)
Definition slot_at {E} (i : Z) : M mm E StoreSlot := fun m => (idx (slots (mm_store m)) i, m).

Definition write_slot {E} (i : Z) (s : StoreSlot) : M mm E unit := fun m =>
  match set_at (E:=E) (slots (mm_store m)) i s with
  | Ok l => (Ok tt, upd mm_store (set_field slots l) m)
  | _ => (Panic, m)
  end.

(** The slot [store_page] writes: the page's own, a free one, or the next victim. *)
Definition choose_slot (page_id : Z) : M mm StoreError Z :=
  let! st := gets mm_store in
  match find_slot page_id st with
  | Some i => do! on_stats (upd replacements incr) in ret i
  | None =>
      match find_empty_slot st with
      | Some i => ret i
      | None =>
          let i := next_evict st in
          do! on_store (upd next_evict (fun n => (n + 1) mod STORE_CAPACITY_PAGES)) in
          do! on_stats (upd evictions incr) in
          ret i
      end
  end.

Definition store_page (page_id : Z) (page : list Z) : M mm StoreError StoreEntry :=
  let! st := gets mm_store in
  if negb (st_initialized st) then throw StoreNotInitialized else
  do! on_stats (upd store_requests incr) in
  do! on_stats (upd total_input_bytes (fun c => sat_add U64 c PAGE_BYTES)) in
  let! enc := catch (encode_to_scratch page) (fun r =>
    match r with
    | inl ep => ret ep
    | inr error => do! on_stats (upd store_encode_failures incr) in throw (StoreEncode error)
    end) in
  let encoded_class := ep_class enc in
  let encoded_bytes := ep_bytes enc in
  let n := len encoded_bytes in
  let! target_idx := choose_slot page_id in
  let! slot := slot_at target_idx in
  do! (if occupied slot
       then on_store (account_removed (slot_class slot) (encoded_len slot))
       else on_stats (upd stored_pages incr)) in
  let! slot := slot_at target_idx in
  let! buffer := lift (blit (encoded slot) 0 encoded_bytes) in
  do! write_slot target_idx (mkSlot true page_id encoded_class (cast U16 n) buffer) in
  do! on_store (account_added encoded_class n) in
  do! on_stats (upd store_successes incr) in
  do! on_stats (upd total_encoded_bytes (fun c => sat_add U64 c n)) in
  ret (mkStoreEntry page_id encoded_class n).

(** [load_page]: the second half of the state is the caller's [out]. *)
Definition on_mm {E A} (m : M mm E A) : M (mm * list Z) E A := zoom fst (fun t s => (t, snd s)) m.

Definition decode_into_out (ep : EncodedPage) : M (mm * list Z) CompressionError unit :=
  zoom (fun s => (mm_rt (fst s), snd s))
       (fun t s => (set_field mm_rt (fst t) (fst s), snd t)) (rt_decode_page ep).

Definition load_page (page_id : Z) : M (mm * list Z) StoreError StoreEntry :=
  let! st := gets (fun s => mm_store (fst s)) in
  if negb (st_initialized st) then throw StoreNotInitialized else
  do! on_mm (on_stats (upd load_requests incr)) in
  match find_slot page_id st with
  | None => do! on_mm (on_stats (upd load_misses incr)) in throw StoreNotFound
  | Some slot_idx =>
      let! slot := on_mm (slot_at slot_idx) in
      let! bytes := lift (slice (encoded slot) 0 (encoded_len slot)) in
      catch (decode_into_out (mkEncodedPage (slot_class slot) bytes)) (fun r =>
        match r with
        | inl _ =>
            do! on_mm (on_stats (upd load_successes incr)) in
            ret (mkStoreEntry page_id (slot_class slot) (encoded_len slot))
        | inr error =>
            do! on_mm (on_stats (upd store_decode_failures incr)) in throw (StoreDecode error)
        end)
  end.
End store.
Arguments mm B : clear implicits.
Arguments mkMm {B} _ _.

(** The globals before any initialisation. *)
Definition mm_new : mm NullBackend := mkMm runtime_new store_new.
