(* ===== verification/PageStoreFacts.v ===== *)
(** * Compressed page store: invariant, refinement of a finite map, accounting *)
From stdpp Require Import base list numbers option gmap.
From Stdlib Require Import ZArith Lia Bool.
From S2P Require Import Prelude Codec CodecFacts Compress PageStore.

(** ** Search *)
Lemma find_index_Some P l k i :
  find_index P l k = Some i ->
  exists s, k <= i /\ l !! Z.to_nat (i - k) = Some s /\ P s = true.
Proof.
  revert k. induction l as [|s l IH]; intros k; cbn; [done|]. destruct (P s) eqn:Hs.
  - intros [= <-]. exists s. rewrite Z.sub_diag. split; [lia|done].
  - intros H. apply IH in H as (t & Hk & Hl & Ht). exists t. split; [lia|]. split; [|done].
    replace (Z.to_nat (i - k)) with (S (Z.to_nat (i - (k + 1)))) by lia. done.
Qed.

Lemma find_index_None P l k : find_index P l k = None -> forall j s, l !! j = Some s -> P s = false.
Proof.
  revert k. induction l as [|s l IH]; intros k; cbn; [done|]. destruct (P s) eqn:Hs; [done|].
  intros H [|j] t; cbn; [by intros [= <-]|]. by eapply IH.
Qed.

(** ** Sums over the slots *)
Definition total (f : StoreSlot -> Z) (l : list StoreSlot) : Z := foldr (fun s z => f s + z) 0 l.

Lemma total_cons f s l : total f (s :: l) = f s + total f l.
Proof. done. Qed.

Lemma total_insert f l i s s' :
  l !! i = Some s -> total f (<[i:=s']> l) = total f l - f s + f s'.
Proof.
  revert i. induction l as [|t l IH]; intros [|i] Hl; [done|done| |].
  - injection Hl as ->. unfold total. cbn. lia.
  - change (<[S i:=s']> (t :: l)) with (t :: <[i:=s']> l). rewrite !total_cons, (IH i Hl). lia.
Qed.

Lemma total_bound f l lo hi :
  (forall s, s ∈ l -> lo <= f s <= hi) -> lo * len l <= total f l <= hi * len l.
Proof.
  induction l as [|s l IH]; intros H; [unfold total, len; cbn; lia|].
  rewrite len_cons. cbn [total foldr]. fold (total f l). destruct (H s) as [? ?]; [by left|].
  destruct IH as [? ?]; [intros t Ht; apply H; by right|]. lia.
Qed.

Lemma total_member f l i s :
  l !! i = Some s -> (forall t, t ∈ l -> 0 <= f t) -> f s <= total f l.
Proof.
  revert i. induction l as [|t l IH]; intros [|i] Hl Hpos; cbn in *; try done.
  - injection Hl as ->. assert (0 <= total f l); [|unfold total in *; lia].
    clear IH. induction l as [|u l IHl]; cbn; [lia|].
    assert (0 <= f u) by (apply Hpos; right; left).
    assert (0 <= total f l); [|unfold total in *; lia].
    apply IHl. intros v Hv. apply Hpos. apply elem_of_cons in Hv as [->|Hv]; [left|right; by right].
  - assert (f s <= total f l) by (eapply IH; [done|intros u Hu; apply Hpos; by right]).
    assert (0 <= f t) by (apply Hpos; left). unfold total in *. lia.
Qed.

Definition count_if (P : StoreSlot -> bool) : StoreSlot -> Z := fun s => if P s then 1 else 0.
Definition is_class (c : CompressionClass) (s : StoreSlot) : bool := occupied s && (class_id (slot_class s) =? class_id c).
Definition occupied_bytes (s : StoreSlot) : Z := if occupied s then encoded_len s else 0.

Section facts.
Context {B : Type} `{LawfulBackend B}.

(** ** Representation: the finite map a table of slots implements *)
Definition slot_ep (s : StoreSlot) : EncodedPage :=
  mkEncodedPage (slot_class s) (take (Z.to_nat (encoded_len s)) (encoded s)).

Record RepSlots (l : list StoreSlot) (a : gmap Z (list Z)) : Prop := mkRepSlots {
  rep_len : len l = STORE_CAPACITY_PAGES;
  rep_buf : forall i s, l !! i = Some s ->
    len (encoded s) = MAX_ENCODED_PAGE_BYTES /\ 0 <= encoded_len s <= MAX_ENCODED_PAGE_BYTES;
  rep_uniq : forall i j s t, l !! i = Some s -> l !! j = Some t -> occupied s = true ->
    occupied t = true -> slot_page_id s = slot_page_id t -> i = j;
  rep_page : forall i s, l !! i = Some s -> occupied s = true ->
    exists p, a !! slot_page_id s = Some p /\ rt_restores (B:=B) (slot_ep s) p;
  rep_dom : forall k p, a !! k = Some p ->
    exists i s, l !! i = Some s /\ occupied s = true /\ slot_page_id s = k;
}.

Record Rep (m : mm B) (a : gmap Z (list Z)) : Prop := mkRep {
  rep_rt : rt_initialized (mm_rt m) = true;
  rep_st : st_initialized (mm_store m) = true;
  rep_next : 0 <= next_evict (mm_store m) < STORE_CAPACITY_PAGES;
  rep_slots : RepSlots (slots (mm_store m)) a;
}.

(** A free slot, or one whose page is given up, overwritten by a fresh entry. *)
Lemma rep_write l a i s s' k p :
  RepSlots l a -> l !! i = Some s ->
  (forall j t, j <> i -> l !! j = Some t -> occupied t = true -> slot_page_id t <> k) ->
  occupied s' = true -> slot_page_id s' = k -> len (encoded s') = MAX_ENCODED_PAGE_BYTES ->
  0 <= encoded_len s' <= MAX_ENCODED_PAGE_BYTES -> rt_restores (B:=B) (slot_ep s') p ->
  RepSlots (<[i:=s']> l) (<[k:=p]> (if occupied s then delete (slot_page_id s) a else a)).
Proof.
  intros HR Hi Hother Ho Hk Hbuf Hel Hres. pose proof (lookup_lt_Some _ _ _ Hi) as Hlt.
  assert (Hold : forall j t, j <> i -> l !! j = Some t -> occupied t = true ->
    occupied s = true -> slot_page_id t <> slot_page_id s).
  { intros j t Hj Ht Hot Hos Heq. apply Hj. by eapply (rep_uniq _ _ HR). }
  constructor.
  - unfold len. rewrite length_insert. apply (rep_len _ _ HR).
  - intros j t Hj. apply list_lookup_insert_Some in Hj as [(-> & <- & _)|[Hne Hj]]; [done|].
    by eapply (rep_buf _ _ HR).
  - intros j1 j2 t1 t2 H1 H2 O1 O2 Heq.
    apply list_lookup_insert_Some in H1 as [(<- & <- & _)|[Hne1 H1]];
      apply list_lookup_insert_Some in H2 as [(<- & <- & _)|[Hne2 H2]]; [done|..].
    + exfalso. eapply (Hother j2); [done|exact H2|done|congruence].
    + exfalso. eapply (Hother j1); [done|exact H1|done|congruence].
    + by eapply (rep_uniq _ _ HR).
  - intros j t Hj Hot. apply list_lookup_insert_Some in Hj as [(-> & <- & _)|[Hne Hj]].
    + exists p. rewrite Hk, lookup_insert_eq. done.
    + destruct (rep_page _ _ HR j t Hj Hot) as (q & Hq & Hr). exists q. split; [|done].
      rewrite lookup_insert_ne by (intros ->; by eapply (Hother j t)).
      destruct (occupied s) eqn:Hos; [|done].
      rewrite lookup_delete_ne; [done|]. intros Heq. by eapply (Hold j t).
  - intros k' q Hq. destruct (decide (k = k')) as [<-|Hne].
    + exists i, s'. rewrite list_lookup_insert_eq by done. done.
    + rewrite lookup_insert_ne in Hq by done.
      assert (a !! k' = Some q /\ (occupied s = true -> slot_page_id s <> k')) as [Ha Hns].
      { destruct (occupied s); [|done]. apply lookup_delete_Some in Hq as [? ?]. done. }
      destruct (rep_dom _ _ HR _ _ Ha) as (j & t & Hj & Hot & Ht).
      exists j, t. split; [|done]. rewrite list_lookup_insert_ne; [done|]. intros ->.
      rewrite Hi in Hj. injection Hj as <-. by apply Hns.
Qed.

(** ** Accounting: the counters describe the table *)
Definition Acct (st : StoreState) : Prop :=
  stored_pages (st_stats st) = total (count_if occupied) (slots st) /\
  current_encoded_bytes (st_stats st) = total occupied_bytes (slots st) /\
  stored_zero_pages (st_stats st) = total (count_if (is_class Zero)) (slots st) /\
  stored_same_pages (st_stats st) = total (count_if (is_class Same)) (slots st) /\
  stored_sxrc_pages (st_stats st) = total (count_if (is_class Sxrc)) (slots st) /\
  stored_raw_pages (st_stats st) = total (count_if (is_class Raw)) (slots st).

(** ** Specification of [store_page] *)

(** The page given up when [k] is stored: only when [k] is new and no slot is free. *)
Definition victim (k : Z) (st : StoreState) : option Z :=
  match find_slot k st, find_empty_slot st with
  | None, None => slot_page_id <$> slots st !! Z.to_nat (next_evict st)
  | _, _ => None
  end.

Definition spec_store (k : Z) (p : list Z) (st : StoreState) (a : gmap Z (list Z)) : gmap Z (list Z) :=
  <[k:=p]> (match victim k st with Some v => delete v a | None => a end).

(** [choose_slot] picks an index that is safe to overwrite. *)
Lemma choose_slot_spec (m : mm B) a k :
  Rep m a ->
  exists i s st', choose_slot k m = (Ok i, mkMm (mm_rt m) st') /\
    0 <= i < STORE_CAPACITY_PAGES /\ slots (mm_store m) !! Z.to_nat i = Some s /\
    slots st' = slots (mm_store m) /\ st_initialized st' = st_initialized (mm_store m) /\
    0 <= next_evict st' < STORE_CAPACITY_PAGES /\
    (forall j t, j <> Z.to_nat i -> slots (mm_store m) !! j = Some t -> occupied t = true -> slot_page_id t <> k) /\
    (forall p, <[k:=p]> (if occupied s then delete (slot_page_id s) a else a) = spec_store k p (mm_store m) a) /\
    (Acct (mm_store m) -> Acct st').
Proof.
  intros HR. pose proof (rep_slots _ _ HR) as HS. unfold choose_slot, bind at 1, gets, spec_store, victim.
  destruct (find_slot k (mm_store m)) as [i|] eqn:Hf.
  { apply find_index_Some in Hf as (s & Hi & Hl & HP). rewrite Z.sub_0_r in Hl. bool_prop.
    exists i, s. eexists. split; [reflexivity|]. cbn. pose proof (lookup_lt_Some _ _ _ Hl).
    pose proof (rep_len _ _ HS) as Hlen. unfold len in Hlen.
    split; [lia|]. split; [done|]. split; [done|]. split; [done|]. split; [apply HR|]. split.
    - intros j t Hj Ht Hot Hk. apply Hj. eapply (rep_uniq _ _ HS); [exact Ht|exact Hl|done|done|congruence].
    - split; [|done]. intros p. rewrite H1, H2. apply insert_delete_eq. }
  assert (Hnone : forall j t, slots (mm_store m) !! j = Some t -> occupied t = true -> slot_page_id t <> k).
  { intros j t Ht Hot Hk. pose proof (find_index_None _ _ _ Hf j t Ht) as HP. cbn in HP.
    rewrite Hot, Hk, Z.eqb_refl in HP. done. }
  destruct (find_empty_slot (mm_store m)) as [i|] eqn:He.
  { apply find_index_Some in He as (s & Hi & Hl & HP). rewrite Z.sub_0_r in Hl. bool_prop.
    exists i, s, (mm_store m). destruct m as [rt st]. split; [reflexivity|]. cbn in *.
    pose proof (lookup_lt_Some _ _ _ Hl). pose proof (rep_len _ _ HS) as Hlen. unfold len in Hlen.
    split; [lia|]. repeat (split; [done|]). split; [apply HR|]. split; [eauto|].
    split; [|done]. intros p. by rewrite HP. }
  destruct (lookup_lt_is_Some_2 (slots (mm_store m)) (Z.to_nat (next_evict (mm_store m)))) as [s Hs].
  { pose proof (rep_len _ _ HS). pose proof (rep_next _ _ HR). unfold len in *. lia. }
  exists (next_evict (mm_store m)), s. eexists. split; [reflexivity|]. cbn.
  split; [apply HR|]. repeat (split; [done|]). split; [apply Z.mod_pos_bound; done|]. split; [eauto|].
  split; [|done]. intros p. rewrite Hs. pose proof (find_index_None _ _ _ He _ _ Hs) as HP. cbn in HP |- *.
  apply negb_false_iff in HP. by rewrite HP.
Qed.

(** The middle of [store_page]: account for the old entry, write the new one,
    account for it. *)
Definition place (i : nat) (old new : StoreSlot) (st : StoreState) : StoreState :=
  let st := if occupied old then account_removed (slot_class old) (encoded_len old) st
            else upd st_stats (upd stored_pages incr) st in
  account_added (slot_class new) (encoded_len new) (set_field slots (<[i:=new]> (slots st)) st).

Lemma count_range P l a : RepSlots l a -> 0 <= total (count_if P) l <= 64.
Proof.
  intros HR. pose proof (total_bound (count_if P) l 0 1) as Hb.
  rewrite (rep_len _ _ HR) in Hb. unfold STORE_CAPACITY_PAGES in Hb.
  destruct Hb; [|lia]. intros s _. unfold count_if. destruct (P s); lia.
Qed.

Lemma bytes_range l a : RepSlots l a -> 0 <= total occupied_bytes l <= 64 * MAX_ENCODED_PAGE_BYTES.
Proof.
  intros HR. pose proof (total_bound occupied_bytes l 0 MAX_ENCODED_PAGE_BYTES) as Hb.
  rewrite (rep_len _ _ HR) in Hb. unfold STORE_CAPACITY_PAGES in Hb.
  destruct Hb; [|lia]. intros s Hs. apply list_elem_of_lookup in Hs as [i Hi].
  destruct (rep_buf _ _ HR _ _ Hi). unfold occupied_bytes. destruct (occupied s); plia.
Qed.

Lemma count_member P l a i s : RepSlots l a -> l !! i = Some s -> P s = true -> 1 <= total (count_if P) l.
Proof.
  intros HR Hi HP. pose proof (total_member (count_if P) l i s Hi) as Hm.
  unfold count_if in Hm at 2. rewrite HP in Hm. apply Hm. intros t _. unfold count_if. destruct (P t); lia.
Qed.

Lemma bytes_member l a i s :
  RepSlots l a -> l !! i = Some s -> occupied s = true -> encoded_len s <= total occupied_bytes l.
Proof.
  intros HR Hi Ho. pose proof (total_member occupied_bytes l i s Hi) as Hm.
  unfold occupied_bytes in Hm at 2. rewrite Ho in Hm. apply Hm. intros t Ht.
  apply list_elem_of_lookup in Ht as [j Hj]. destruct (rep_buf _ _ HR _ _ Hj).
  unfold occupied_bytes. destruct (occupied t); lia.
Qed.

Lemma place_acct i old new st a :
  Acct st -> RepSlots (slots st) a -> slots st !! i = Some old -> occupied new = true ->
  0 <= encoded_len new <= MAX_ENCODED_PAGE_BYTES -> Acct (place i old new st).
Proof.
  intros (A1 & A2 & A3 & A4 & A5 & A6) HR Hi Hon Hel.
  pose proof (bytes_range _ _ HR). destruct (rep_buf _ _ HR _ _ Hi) as [_ Hol].
  pose proof (count_range occupied _ _ HR).
  pose proof (count_range (is_class Zero) _ _ HR). pose proof (count_range (is_class Same) _ _ HR).
  pose proof (count_range (is_class Sxrc) _ _ HR). pose proof (count_range (is_class Raw) _ _ HR).
  assert (Hmem : forall c, occupied old = true -> slot_class old = c ->
    1 <= total (count_if (is_class c)) (slots st)).
  { intros c Ho Hc. eapply count_member; [done|exact Hi|]. unfold is_class. by rewrite Ho, Hc, Z.eqb_refl. }
  pose proof (fun Ho => count_member occupied _ _ _ _ HR Hi Ho) as Hmo.
  pose proof (fun Ho => bytes_member _ _ _ _ HR Hi Ho) as Hmb.
  destruct old as [oo oid oc ol ob], new as [no nid nc nl nb]. cbn [occupied slot_class encoded_len] in *. subst no.
  unfold Acct, place. cbn [occupied slot_class encoded_len].
  destruct oo; [specialize (Hmem oc eq_refl eq_refl); specialize (Hmo eq_refl); specialize (Hmb eq_refl)|clear Hmem Hmo Hmb];
    destruct oc, nc; cbn -[insert total Z.add Z.sub];
    rewrite ?A1, ?A2, ?A3, ?A4, ?A5, ?A6; rewrite !(total_insert _ _ _ _ _ Hi);
    repeat match goal with |- context [total ?f (slots st)] => generalize dependent (total f (slots st)) end;
    intros; cbn -[Z.add Z.sub]; unfold incr, decr, sat_add, sat_sub; repeat split; plia.
Qed.

(** ** Runs of the operations *)
Lemma encode_to_scratch_spec page (rt : CompressionRuntime B) st :
  is_page page -> rt_initialized rt = true ->
  exists ep rt', encode_to_scratch page (mkMm rt st) = (Ok ep, mkMm rt' st) /\
    rt_initialized rt' = true /\ len (ep_bytes ep) <= MAX_ENCODED_PAGE_BYTES /\ rt_restores (B:=B) ep page.
Proof.
  intros Hp Hi.
  destruct (rt_encode_restores page rt (replicate (Z.to_nat MAX_ENCODED_PAGE_BYTES) 0) Hp)
    as (ep & rt' & sc & He & Hi' & Hl & Hr); [rewrite len_replicate; plia|done|].
  exists ep, rt'. split; [|done]. unfold encode_to_scratch, zoom. cbn [mm_rt]. by rewrite He.
Qed.

(** The entry [store_page] writes restores the page. *)
Lemma stored_slot_restores k ep buf page :
  len buf = MAX_ENCODED_PAGE_BYTES -> len (ep_bytes ep) <= MAX_ENCODED_PAGE_BYTES ->
  rt_restores (B:=B) ep page ->
  exists buf', blit (E:=StoreError) buf 0 (ep_bytes ep) = Ok buf' /\ len buf' = MAX_ENCODED_PAGE_BYTES /\
    cast U16 (len (ep_bytes ep)) = len (ep_bytes ep) /\
    rt_restores (B:=B) (slot_ep (mkSlot true k (ep_class ep) (len (ep_bytes ep)) buf')) page.
Proof.
  intros Hb Hl Hr. pose proof (blit_ok (E:=StoreError) buf 0 (ep_bytes ep) ltac:(lia) ltac:(lia)) as Hbl.
  remember (take _ buf ++ _) as buf' eqn:HB in Hbl. clear HB.
  exists buf'. split; [exact Hbl|]. split.
  { apply blit_length in Hbl. rewrite <- Hb. exact (f_equal Z.of_nat Hbl). }
  split; [apply Z.mod_small; pose proof (len_nonneg (ep_bytes ep)); plia|].
  unfold slot_ep. cbn [slot_class encoded_len encoded]. apply blit_prefix in Hbl. rewrite Z.add_0_l in Hbl.
  rewrite Hbl. cbn [Z.to_nat take app]. by destruct ep.
Qed.

Lemma on_store_run {E} f (rt : CompressionRuntime B) st :
  on_store (E:=E) f (mkMm rt st) = (Ok tt, mkMm rt (f st)).
Proof. done. Qed.

Lemma on_stats_run {E} f (rt : CompressionRuntime B) st :
  on_stats (E:=E) f (mkMm rt st) = (Ok tt, mkMm rt (upd st_stats f st)).
Proof. done. Qed.

Lemma Rep_stats (rt rt' : CompressionRuntime B) st f a :
  Rep (mkMm rt st) a -> rt_initialized rt' = true -> Rep (mkMm rt' (upd st_stats f st)) a.
Proof. intros [? ? ? ?] Hi. by constructor. Qed.

Lemma store_page_run (m : mm B) a k page :
  Rep m a -> is_page page ->
  exists e m', store_page k page m = (Ok e, m') /\ Rep m' (spec_store k page (mm_store m) a) /\
    se_page_id e = k /\ 0 <= se_encoded_bytes e <= MAX_ENCODED_PAGE_BYTES /\
    (Acct (mm_store m) -> Acct (mm_store m')).
Proof.
  intros HR Hp. destruct m as [rt st]. pose proof (rep_rt _ _ HR) as Hrt. pose proof (rep_st _ _ HR) as Hst.
  unfold store_page, bind at 1, gets. cbn [mm_store] in *. rewrite Hst. cbn [negb].
  unfold bind at 1. rewrite on_stats_run. unfold bind at 1. rewrite on_stats_run.
  set (st1 := upd st_stats _ (upd st_stats _ st)).
  destruct (encode_to_scratch_spec page rt st1 Hp Hrt) as (ep & rt' & He & Hrt' & Hl & Hr).
  unfold bind at 1, catch. rewrite He. unfold ret at 1.
  assert (HR1 : Rep (mkMm rt' st1) a).
  { apply (Rep_stats rt rt' st (fun t => upd total_input_bytes (fun c => sat_add U64 c PAGE_BYTES) (upd store_requests incr t)) a HR Hrt'). }
  destruct (choose_slot_spec _ _ k HR1) as (i & s & st2 & Hc & Hi & Hs & Hsl & Hin & Hnx & Hoth & Hspec & Hacct).
  unfold bind at 1. rewrite Hc. cbn [mm_rt mm_store] in *.
  pose proof (rep_slots _ _ HR1) as HS. cbn [mm_store] in HS. rewrite <- Hsl in Hs, Hoth, HS.
  assert (Hidx : forall sl : list StoreSlot, sl = slots st2 -> idx (E:=StoreError) sl i = Ok s).
  { intros sl ->. apply idx_ok; [lia|done]. }
  destruct (rep_buf _ _ HS _ _ Hs) as [Hbuf _].
  destruct (stored_slot_restores k ep (encoded s) page Hbuf Hl Hr) as (buf' & Hblit & Hb' & Hcast & Hres).
  set (new := mkSlot true k (ep_class ep) (len (ep_bytes ep)) buf') in *.
  unfold bind at 1, slot_at at 1. cbn [mm_store]. rewrite Hidx by done.
  set (st3 := if occupied s then account_removed (slot_class s) (encoded_len s) st2
              else upd st_stats (upd stored_pages incr) st2).
  assert (Hst3 : slots st3 = slots st2 /\ st_initialized st3 = st_initialized st2 /\ next_evict st3 = next_evict st2).
  { unfold st3. destruct (occupied s); [|done]. by destruct (slot_class s). }
  destruct Hst3 as (Hsl3 & Hin3 & Hnx3).
  unfold bind at 1.
  assert (((if occupied s then on_store (account_removed (slot_class s) (encoded_len s))
            else on_stats (upd stored_pages incr)) : M (mm B) StoreError unit) (mkMm rt' st2)
          = (Ok tt, mkMm rt' st3)) as -> by (unfold st3; by destruct (occupied s)).
  unfold bind at 1, slot_at at 1. cbn [mm_store]. rewrite Hidx by done.
  unfold bind at 1, lift at 1. rewrite Hblit, Hcast. fold new. unfold bind at 1, write_slot, set_at.
  pose proof (rep_len _ _ HS) as Hlen. pose proof (lookup_lt_Some _ _ _ Hs) as Hlt.
  assert (blit (E:=StoreError) (slots (mm_store (mkMm rt' st3))) i [new] = Ok (<[Z.to_nat i:=new]> (slots st2))) as ->.
  { cbn [mm_store]. rewrite Hsl3, blit_ok by (rewrite ?len_cons, ?len_nil; lia). f_equal.
    rewrite insert_take_drop by done. do 3 f_equal. rewrite len_cons, len_nil. lia. }
  do 2 eexists. split; [reflexivity|]. cbn [mm_store mm_rt se_page_id se_encoded_bytes].
  pose proof (len_nonneg (ep_bytes ep)).
  assert (HW := rep_write _ _ _ _ new k page HS Hs Hoth eq_refl eq_refl Hb' ltac:(cbn; lia) Hres).
  rewrite Hspec in HW. split; [|split; [done|split; [lia|]]].
  - constructor; cbn [mm_store mm_rt].
    + done.
    + transitivity (st_initialized st3); [by destruct (ep_class ep)|]. by rewrite Hin3, Hin.
    + replace (next_evict _) with (next_evict st3) by (by destruct (ep_class ep)). by rewrite Hnx3.
    + replace (slots _) with (<[Z.to_nat i:=new]> (slots st2)) by (by destruct (ep_class ep)). exact HW.
  - intros HA. assert (HA2 : Acct st2) by by apply Hacct.
    pose proof (place_acct (Z.to_nat i) s new st2 a HA2 HS Hs eq_refl ltac:(cbn; lia)) as HP.
    unfold place in HP. fold st3 in HP. rewrite Hsl3 in HP. exact HP.
Qed.

Lemma find_slot_rep (m : mm B) a k :
  Rep m a ->
  match find_slot k (mm_store m) with
  | Some i => exists s p, 0 <= i /\ slots (mm_store m) !! Z.to_nat i = Some s /\
      a !! k = Some p /\ rt_restores (B:=B) (slot_ep s) p
  | None => a !! k = None
  end.
Proof.
  intros HR. pose proof (rep_slots _ _ HR) as HS. destruct (find_slot k (mm_store m)) as [i|] eqn:Hf.
  - apply find_index_Some in Hf as (s & Hi & Hl & HP). rewrite Z.sub_0_r in Hl. bool_prop.
    destruct (rep_page _ _ HS _ _ Hl) as (p & Hp & Hr); [done|].
    exists s, p. repeat (split; [done|]). split; [congruence|done].
  - destruct (a !! k) as [p|] eqn:Ha; [|done]. exfalso.
    destruct (rep_dom _ _ HS _ _ Ha) as (j & t & Hj & Hot & Ht).
    pose proof (find_index_None _ _ _ Hf j t Hj) as HP. cbn in HP. rewrite Hot, Ht, Z.eqb_refl in HP. done.
Qed.

Lemma load_page_run (m : mm B) a k out :
  Rep m a -> len out = PAGE_BYTES ->
  exists r m' out', load_page k (m, out) = (r, (m', out')) /\ Rep m' a /\
    (Acct (mm_store m) -> Acct (mm_store m')) /\
    match a !! k with
    | Some p => (exists e, r = Ok e /\ se_page_id e = k) /\ out' = p
    | None => r = Err StoreNotFound /\ out' = out
    end.
Proof.
  intros HR Ho. pose proof (find_slot_rep m a k HR) as Hf. destruct m as [rt st].
  pose proof (rep_rt _ _ HR) as Hrt. pose proof (rep_st _ _ HR) as Hst. cbn [mm_store mm_rt] in *.
  unfold load_page, bind at 1, gets. cbn [fst mm_store]. rewrite Hst. cbn [negb].
  unfold bind at 1, on_mm at 1, zoom at 1. cbn [fst snd]. rewrite on_stats_run.
  destruct (find_slot k st) as [i|] eqn:Hfs.
  - destruct Hf as (s & p & Hi & Hs & Ha & Hr). rewrite Ha.
    unfold bind at 1, on_mm at 1, zoom at 1, slot_at. cbn [fst snd mm_store].
    assert (idx (E:=StoreError) (slots (upd st_stats (upd load_requests incr) st)) i = Ok s) as -> by (by apply idx_ok).
    destruct (rep_buf _ _ (rep_slots _ _ HR) _ _ Hs) as [Hbuf Hel].
    unfold bind at 1, lift at 1. rewrite slice_ok by lia. rewrite Z.sub_0_r, drop_0.
    unfold catch, decode_into_out, zoom. cbn [fst snd mm_rt].
    destruct (Hr rt out Hrt Ho) as (rt' & Hd & Hrt'). unfold slot_ep in Hd. rewrite Hd.
    do 3 eexists. split; [reflexivity|]. split; [|split; [done|split; [by eexists|done]]].
    apply (Rep_stats rt rt' st (fun t => upd load_successes incr (upd load_requests incr t)) a HR Hrt').
  - rewrite Hf. do 3 eexists. split; [reflexivity|]. split; [|done].
    apply (Rep_stats rt rt st (fun t => upd load_misses incr (upd load_requests incr t)) a HR Hrt).
Qed.

(** A store with a free slot gives up nothing. *)
Lemma no_victim (m : mm B) a k :
  Rep m a -> Acct (mm_store m) -> stored_pages (st_stats (mm_store m)) < STORE_CAPACITY_PAGES ->
  victim k (mm_store m) = None.
Proof.
  intros HR HA Hlt. unfold victim. destruct (find_slot k (mm_store m)); [done|].
  destruct (find_empty_slot (mm_store m)) eqn:He; [done|]. exfalso.
  pose proof (total_bound (count_if occupied) (slots (mm_store m)) 1 1) as Hb.
  rewrite (rep_len _ _ (rep_slots _ _ HR)) in Hb.
  assert (1 * STORE_CAPACITY_PAGES <= total (count_if occupied) (slots (mm_store m))) as Hge.
  { apply Hb. intros s Hs. apply list_elem_of_lookup in Hs as [j Hj].
    pose proof (find_index_None _ _ _ He j s Hj) as HP. apply negb_false_iff in HP.
    unfold count_if. rewrite HP. lia. }
  destruct HA as [HA _]. lia.
Qed.
End facts.

(** ** The kernel's own store *)

(** The globals after [compress::initialize] and [store::initialize]. *)
Definition mm_booted : mm NullBackend :=
  snd (store_initialize (mkMm (snd (rt_initialize runtime_new)) store_new)).

Lemma total_replicate f n s : total f (replicate n s) = Z.of_nat n * f s.
Proof. induction n as [|n IH]; [done|]. cbn [replicate]. rewrite total_cons, IH. lia. Qed.

Lemma mm_booted_rep : Rep mm_booted ∅ /\ Acct (mm_store mm_booted).
Proof.
  assert (Hsl : slots (mm_store mm_booted) = replicate (Z.to_nat STORE_CAPACITY_PAGES) slot_empty) by reflexivity.
  split.
  - constructor; [reflexivity|reflexivity|change (0 <= 0 < STORE_CAPACITY_PAGES); unfold STORE_CAPACITY_PAGES; lia|]. rewrite Hsl. constructor.
    + by rewrite len_replicate.
    + intros i s Hi. apply lookup_replicate in Hi as [-> _]. cbn [slot_empty encoded encoded_len].
      rewrite len_replicate; plia.
    + intros i j s t Hi _ Ho. apply lookup_replicate in Hi as [-> _]. done.
    + intros i s Hi Ho. apply lookup_replicate in Hi as [-> _]. done.
    + intros k p Hk. by rewrite lookup_empty in Hk.
  - unfold Acct. rewrite Hsl, !total_replicate. repeat split; reflexivity.
Qed.

(** States the store can reach, with the map each implements. *)
Inductive store_reach : mm NullBackend -> gmap Z (list Z) -> Prop :=
| reach_boot : store_reach mm_booted ∅
| reach_store m a k page e m' : store_reach m a -> is_page page ->
    store_page k page m = (Ok e, m') -> store_reach m' (spec_store k page (mm_store m) a)
| reach_load m a k out r m' out' : store_reach m a -> len out = PAGE_BYTES ->
    load_page k (m, out) = (r, (m', out')) -> store_reach m' a.

Lemma store_reach_inv m a : store_reach m a -> Rep m a /\ Acct (mm_store m).
Proof.
  induction 1 as [|m a k page e m' _ [HR HA] Hp Hs|m a k out r m' out' _ [HR HA] Ho Hl].
  - apply mm_booted_rep.
  - destruct (store_page_run m a k page HR Hp) as (e2 & m2 & Hs2 & HR2 & _ & _ & HA2).
    rewrite Hs in Hs2. injection Hs2 as -> ->. auto.
  - destruct (load_page_run m a k out HR Ho) as (r2 & m2 & o2 & Hl2 & HR2 & HA2 & _).
    rewrite Hl in Hl2. injection Hl2 as -> -> ->. auto.
Qed.

(** * Theorems *)

(** C5. Refinement of a bounded map, write side: on a store that implements the
    map [a], [store_page] always succeeds (no error, no panic, no lost
    metadata) and the new store implements [a] with the page inserted, less the
    one page given up when the table is full. *)
Theorem store_page_refines {B} `{LawfulBackend B} (m : mm B) a k page :
  Rep m a -> is_page page ->
  exists e m', store_page k page m = (Ok e, m') /\ se_page_id e = k /\
    Rep m' (spec_store k page (mm_store m) a).
Proof.
  intros HR Hp. destruct (store_page_run m a k page HR Hp) as (e & m' & Hs & HR' & He & _). by exists e, m'.
Qed.

Lemma store_page_refines_witness :
  exists e m', store_page 7 (constant_page 0xAA) mm_booted = (Ok e, m') /\ se_page_id e = 7 /\
    Rep m' (spec_store 7 (constant_page 0xAA) (mm_store mm_booted) ∅).
Proof. apply store_page_refines; [apply mm_booted_rep|by apply replicate_page]. Defined.

(** Refinement of a bounded map, read side: [load_page] returns exactly the
    page the map holds under that id and leaves the map unchanged; an absent id
    is [NotFound] and leaves the caller's buffer untouched. *)
Theorem load_page_refines {B} `{LawfulBackend B} (m : mm B) a k out :
  Rep m a -> len out = PAGE_BYTES ->
  exists r m' out', load_page k (m, out) = (r, (m', out')) /\ Rep m' a /\
    match a !! k with
    | Some p => (exists e, r = Ok e /\ se_page_id e = k) /\ out' = p
    | None => r = Err StoreNotFound /\ out' = out
    end.
Proof.
  intros HR Ho. destruct (load_page_run m a k out HR Ho) as (r & m' & out' & Hl & HR' & _ & Hm).
  by exists r, m', out'.
Qed.

Lemma load_page_refines_witness :
  exists r m' out', load_page 7 (mm_booted, constant_page 1) = (r, (m', out')) /\ Rep m' ∅ /\
    r = Err StoreNotFound /\ out' = constant_page 1.
Proof.
  destruct (load_page_refines mm_booted ∅ 7 (constant_page 1)) as (r & m' & out' & Hl & HR & Hm).
  - apply mm_booted_rep.
  - unfold constant_page. rewrite len_replicate; plia.
  - exists r, m', out'. rewrite lookup_empty in Hm. split; [exact Hl|]. split; [exact HR|exact Hm].
Defined.

(** Read your writes, and nothing else changes: after [store_page k page],
    loading [k] yields [page], and loading any other stored id that was not the
    evicted one yields what it yielded before. *)
Theorem store_then_load {B} `{LawfulBackend B} (m : mm B) a k page k' q out :
  Rep m a -> is_page page -> len out = PAGE_BYTES ->
  (k' = k /\ q = page) \/ (k' <> k /\ a !! k' = Some q /\ victim k (mm_store m) <> Some k') ->
  exists e m' e' m'', store_page k page m = (Ok e, m') /\ load_page k' (m', out) = (Ok e', (m'', q)).
Proof.
  intros HR Hp Ho Hq. destruct (store_page_run m a k page HR Hp) as (e & m' & Hs & HR' & _).
  assert (Hlk : spec_store k page (mm_store m) a !! k' = Some q).
  { unfold spec_store. destruct Hq as [[-> ->]|(Hne & Ha & Hv)]; [by rewrite lookup_insert_eq|].
    rewrite lookup_insert_ne by done. destruct (victim k (mm_store m)) as [v|]; [|done].
    rewrite lookup_delete_ne; [done|congruence]. }
  destruct (load_page_run m' _ k' out HR' Ho) as (r & m'' & out' & Hl & _ & _ & Hm).
  rewrite Hlk in Hm. destruct Hm as [(e' & -> & _) ->]. by exists e, m', e', m''.
Qed.

Lemma store_then_load_witness :
  exists e m' e' m'', store_page 7 (constant_page 0xAA) mm_booted = (Ok e, m') /\
    load_page 7 (m', constant_page 0) = (Ok e', (m'', constant_page 0xAA)).
Proof.
  apply (store_then_load mm_booted ∅).
  - apply mm_booted_rep.
  - by apply replicate_page.
  - unfold constant_page. rewrite len_replicate; plia.
  - left. split; reflexivity.
Defined.

(** C6. Every state the kernel's store reaches by any sequence of stores and
    loads implements its map and keeps exact books: [stored_pages], the four
    per-class counters and [current_encoded_bytes] equal the counts over the
    occupied slots, so no saturation ever distorts them. *)
Theorem store_reachable_invariant m a :
  store_reach m a -> Rep m a /\ Acct (mm_store m).
Proof. apply store_reach_inv. Qed.

Lemma store_reachable_invariant_witness : Rep mm_booted ∅ /\ Acct (mm_store mm_booted).
Proof. apply store_reachable_invariant. apply reach_boot. Defined.

(** Nothing is evicted below capacity: while the store reports fewer than 64
    stored pages, storing any page keeps every page already there. *)
Theorem no_eviction_below_capacity m a k page :
  store_reach m a -> is_page page ->
  stored_pages (st_stats (mm_store m)) < STORE_CAPACITY_PAGES ->
  exists e m', store_page k page m = (Ok e, m') /\ Rep m' (<[k:=page]> a).
Proof.
  intros Hre Hp Hlt. destruct (store_reach_inv _ _ Hre) as [HR HA].
  destruct (store_page_run m a k page HR Hp) as (e & m' & Hs & HR' & _).
  exists e, m'. split; [done|]. unfold spec_store in HR'. by rewrite (no_victim m a k HR HA Hlt) in HR'.
Qed.

Lemma no_eviction_below_capacity_witness :
  exists e m', store_page 3 (constant_page 5) mm_booted = (Ok e, m') /\ Rep m' (<[3:=constant_page 5]> ∅).
Proof. apply no_eviction_below_capacity; [apply reach_boot|by apply replicate_page|reflexivity]. Defined.
