(* ===== verification/Pager.v ===== *)
(** * Pager: [kernel/src/mm/pager.rs]

    Reclaim stores a page in compressed form, restore brings it back; both are
    counted. The pager calls the page store, so its methods run on the record
    [sys] of the pager's own state and the store's globals. *)
From stdpp Require Import base list numbers option gmap.
From Stdlib Require Import ZArith Lia Bool.
From S2P Require Import Prelude Codec CodecFacts Compress PageStore PageStoreFacts.

Record PagerSummary : Type := mkPagerSummary { pg_page_bytes : Z; pg_store_capacity_pages : Z }.

Inductive PagerInitError : Type := PagerAlreadyInitialized | CompressionStoreUnavailable.

Inductive PagerError : Type := PagerNotInitialized | PagerStore (e : StoreError) | VerifyFailed.

Record PagerEntry : Type := mkPagerEntry { pe_page_id : Z; pe_class : CompressionClass; pe_encoded_bytes : Z }.

Record PagerStats : Type := mkPagerStats {
  reclaim_requests : Z; reclaim_successes : Z; reclaim_failures : Z; restore_requests : Z;
  restore_successes : Z; restore_failures : Z; restore_misses : Z; verify_failures : Z;
  reclaimed_zero_pages : Z; reclaimed_same_pages : Z; reclaimed_sxrc_pages : Z; reclaimed_raw_pages : Z;
  restored_zero_pages : Z; restored_same_pages : Z; restored_sxrc_pages : Z; restored_raw_pages : Z;
  smoke_runs : Z; smoke_successes : Z }.

#[export] Instance eta_PagerStats : RecordEta PagerStats := fun s =>
  mkPagerStats (reclaim_requests s) (reclaim_successes s) (reclaim_failures s) (restore_requests s)
    (restore_successes s) (restore_failures s) (restore_misses s) (verify_failures s)
    (reclaimed_zero_pages s) (reclaimed_same_pages s) (reclaimed_sxrc_pages s) (reclaimed_raw_pages s)
    (restored_zero_pages s) (restored_same_pages s) (restored_sxrc_pages s) (restored_raw_pages s)
    (smoke_runs s) (smoke_successes s).

Record PagerSmokeSummary : Type := mkSmoke { tested_pages : Z; verified_pages : Z }.

Record PagerState : Type := mkPager { pg_initialized : bool; pg_stats : PagerStats }.

#[export] Instance eta_PagerState : RecordEta PagerState := fun s => mkPager (pg_initialized s) (pg_stats s).

Definition pager_new : PagerState := mkPager false (mkPagerStats 0 0 0 0 0 0 0 0 0 0 0 0 0 0 0 0 0 0).

Definition account_reclaimed_class (class : CompressionClass) (t : PagerStats) : PagerStats :=
  match class with
  | Zero => upd reclaimed_zero_pages incr t
  | Same => upd reclaimed_same_pages incr t
  | Sxrc => upd reclaimed_sxrc_pages incr t
  | Raw => upd reclaimed_raw_pages incr t
  end.

Definition account_restored_class (class : CompressionClass) (t : PagerStats) : PagerStats :=
  match class with
  | Zero => upd restored_zero_pages incr t
  | Same => upd restored_same_pages incr t
  | Sxrc => upd restored_sxrc_pages incr t
  | Raw => upd restored_raw_pages incr t
  end.

(** ** The pages of the smoke test *)
Definition zero_page : list Z := replicate (Z.to_nat PAGE_BYTES) 0.
Definition same_byte_page (byte : Z) : list Z := replicate (Z.to_nat PAGE_BYTES) byte.

(** [page[index] = (index as u8).wrapping_mul(17).wrapping_add(5)] *)
Definition pattern_byte (index : Z) : Z := wrap_add U8 (wrap_mul U8 (cast U8 index) 17) 5.
Definition pattern_page : list Z := (fun i => pattern_byte (Z.of_nat i)) <$> seq 0 (Z.to_nat PAGE_BYTES).

(** [while index + 4 <= page.len()]: the word repeated over the page. *)
Definition dictionary_word_page (word : Z) : list Z :=
  concat (replicate (Z.to_nat (PAGE_BYTES / 4)) (le_bytes 4 word)).

Section pager.
Context {B : Type} `{CompressionBackend B}.

Record sys : Type := mkSys { sys_mm : mm B; sys_pager : PagerState }.

#[export] Instance eta_sys : RecordEta sys := fun s => mkSys (sys_mm s) (sys_pager s).

Definition pager_summary : PagerSummary := mkPagerSummary PAGE_BYTES (ss_capacity_pages store_summary).

Definition on_pager {E} (f : PagerStats -> PagerStats) : M sys E unit := modify (upd sys_pager (upd pg_stats f)).

Definition pager_initialize : M sys PagerInitError PagerSummary :=
  let! s := gets id in
  if pg_initialized (sys_pager s) then throw PagerAlreadyInitialized else
  if negb (st_initialized (mm_store (sys_mm s))) then throw CompressionStoreUnavailable else
  do! modify (upd sys_pager (set_field pg_initialized true)) in
  ret pager_summary.

Definition reclaim_page (page_id : Z) (page : list Z) : M sys PagerError PagerEntry :=
  let! s := gets id in
  if negb (pg_initialized (sys_pager s)) then throw PagerNotInitialized else
  do! on_pager (upd reclaim_requests incr) in
  catch (zoom sys_mm (set_field sys_mm) (store_page page_id page)) (fun r =>
    match r with
    | inl entry =>
        do! on_pager (upd reclaim_successes incr) in
        do! on_pager (account_reclaimed_class (se_class entry)) in
        ret (mkPagerEntry (se_page_id entry) (se_class entry) (se_encoded_bytes entry))
    | inr error =>
        do! on_pager (upd reclaim_failures incr) in throw (PagerStore error)
    end).

(** [restore_page]: the second half of the state is the caller's [out]. *)
Definition on_sys {E A} (m : M sys E A) : M (sys * list Z) E A := zoom fst (fun t s => (t, snd s)) m.

Definition restore_page (page_id : Z) : M (sys * list Z) PagerError PagerEntry :=
  let! s := gets fst in
  if negb (pg_initialized (sys_pager s)) then throw PagerNotInitialized else
  do! on_sys (on_pager (upd restore_requests incr)) in
  catch (zoom (fun s => (sys_mm (fst s), snd s)) (fun t s => (set_field sys_mm (fst t) (fst s), snd t))
           (load_page page_id)) (fun r =>
    match r with
    | inl entry =>
        do! on_sys (on_pager (upd restore_successes incr)) in
        do! on_sys (on_pager (account_restored_class (se_class entry))) in
        ret (mkPagerEntry (se_page_id entry) (se_class entry) (se_encoded_bytes entry))
    | inr error =>
        do! on_sys (on_pager (upd restore_failures incr)) in
        do! (match error with
             | StoreNotFound => on_sys (on_pager (upd restore_misses incr))
             | _ => ret tt
             end) in
        throw (PagerStore error)
    end).

(** [self.restore_page(page_id, &mut restored)] with a zeroed local buffer. *)
Definition restore_fresh (page_id : Z) : M sys PagerError (list Z) := fun s =>
  match restore_page page_id (s, replicate (Z.to_nat PAGE_BYTES) 0) with
  | (Ok _, (s', restored)) => (Ok restored, s')
  | (Err e, (s', _)) => (Err e, s')
  | (Panic, (s', _)) => (Panic, s')
  | (Diverge, (s', _)) => (Diverge, s')
  end.

Definition verify_roundtrip (page_id : Z) (page : list Z) : M sys PagerError unit :=
  do! reclaim_page page_id page in
  let! restored := restore_fresh page_id in
  if negb (bool_decide (page = restored)) then
    do! on_pager (upd verify_failures incr) in throw VerifyFailed
  else ret tt.

Definition run_bootstrap_smoke : M sys PagerError PagerSmokeSummary :=
  let! s := gets id in
  if negb (pg_initialized (sys_pager s)) then throw PagerNotInitialized else
  do! on_pager (upd smoke_runs incr) in
  do! verify_roundtrip 0x1000 zero_page in
  do! verify_roundtrip 0x1001 (same_byte_page 0xAA) in
  do! verify_roundtrip 0x1002 pattern_page in
  do! verify_roundtrip 0x1003 (dictionary_word_page 0x0000ffff) in
  do! on_pager (upd smoke_successes incr) in
  ret (mkSmoke 4 4).
End pager.
Arguments sys B : clear implicits.
Arguments mkSys {B} _ _.

(** * Lemmas *)
Lemma zero_page_ok : is_page zero_page.
Proof. by apply replicate_page. Qed.

Lemma same_byte_page_ok b : in_range U8 b -> is_page (same_byte_page b).
Proof. apply replicate_page. Qed.

Lemma pattern_page_ok : is_page pattern_page.
Proof.
  split.
  - unfold len, pattern_page. by rewrite length_fmap, length_seq.
  - apply Forall_fmap, Forall_true. intros i. apply Z.mod_pos_bound. lia.
Qed.

Lemma len_concat_replicate {A} n (bs : list A) : len (concat (replicate n bs)) = Z.of_nat n * len bs.
Proof. induction n as [|n IH]; [done|]. cbn [replicate concat]. rewrite len_app, IH. lia. Qed.

Lemma dictionary_word_page_ok w : is_page (dictionary_word_page w).
Proof.
  split; [|apply Forall_concat, Forall_replicate, le_bytes_byte].
  unfold dictionary_word_page. rewrite len_concat_replicate. unfold len. by rewrite length_le_bytes.
Qed.

(** ** What the counters show *)
Definition reclaimed_pages (c : CompressionClass) (t : PagerStats) : Z :=
  match c with
  | Zero => reclaimed_zero_pages t | Same => reclaimed_same_pages t | Sxrc => reclaimed_sxrc_pages t | Raw => reclaimed_raw_pages t
  end.
Definition restored_pages (c : CompressionClass) (t : PagerStats) : Z :=
  match c with
  | Zero => restored_zero_pages t | Same => restored_same_pages t | Sxrc => restored_sxrc_pages t | Raw => restored_raw_pages t
  end.
(** Requests, successes and failures of the two directions; misses; failed verifications. *)
Definition reclaim_counts (t : PagerStats) : Z * Z * Z := (reclaim_requests t, reclaim_successes t, reclaim_failures t).
Definition restore_counts (t : PagerStats) : Z * Z * Z * Z := (restore_requests t, restore_successes t, restore_failures t, restore_misses t).

(** One page of class [c] was reclaimed, restored; one page was asked for in vain. *)
Definition counted_reclaim (c : CompressionClass) (t t' : PagerStats) : Prop :=
  reclaim_counts t' = (incr (reclaim_requests t), incr (reclaim_successes t), reclaim_failures t) /\ restore_counts t' = restore_counts t /\
  (forall d, reclaimed_pages d t' = if decide (d = c) then incr (reclaimed_pages d t) else reclaimed_pages d t) /\
  (forall d, restored_pages d t' = restored_pages d t) /\ verify_failures t' = verify_failures t.
Definition counted_restore (c : CompressionClass) (t t' : PagerStats) : Prop :=
  restore_counts t' = (incr (restore_requests t), incr (restore_successes t), restore_failures t, restore_misses t) /\ reclaim_counts t' = reclaim_counts t /\
  (forall d, restored_pages d t' = if decide (d = c) then incr (restored_pages d t) else restored_pages d t) /\
  (forall d, reclaimed_pages d t' = reclaimed_pages d t) /\ verify_failures t' = verify_failures t.
Definition counted_miss (t t' : PagerStats) : Prop :=
  restore_counts t' = (incr (restore_requests t), restore_successes t, incr (restore_failures t), incr (restore_misses t)) /\ reclaim_counts t' = reclaim_counts t /\
  (forall d, restored_pages d t' = restored_pages d t) /\ (forall d, reclaimed_pages d t' = reclaimed_pages d t) /\ verify_failures t' = verify_failures t.

Lemma account_reclaimed_counts c t : counted_reclaim c t (account_reclaimed_class c (upd reclaim_successes incr (upd reclaim_requests incr t))).
Proof. destruct c; (split; [done|]; split; [done|]; split; [by intros []|]; split; [by intros []|done]). Qed.
Lemma account_restored_counts c t : counted_restore c t (account_restored_class c (upd restore_successes incr (upd restore_requests incr t))).
Proof. destruct c; (split; [done|]; split; [done|]; split; [by intros []|]; split; [by intros []|done]). Qed.

Section pager_facts.
Context {B : Type} `{LawfulBackend B}.

(** An initialised pager over a store that implements the map [a]. *)
Definition PRep (s : sys B) (a : gmap Z (list Z)) : Prop :=
  pg_initialized (sys_pager s) = true /\ Rep (sys_mm s) a.

Lemma reclaim_page_run (s : sys B) a k page :
  PRep s a -> is_page page ->
  exists e s', reclaim_page k page s = (Ok e, s') /\ pe_page_id e = k /\
    PRep s' (spec_store k page (mm_store (sys_mm s)) a) /\
    counted_reclaim (pe_class e) (pg_stats (sys_pager s)) (pg_stats (sys_pager s')).
Proof.
  intros [Hi HR] Hp. destruct s as [m p]. cbn [sys_mm sys_pager] in *.
  destruct (store_page_run m a k page HR Hp) as (e & m' & Hs & HR' & He & _).
  unfold reclaim_page, bind at 1, gets. cbn [id sys_pager]. rewrite Hi. cbn [negb].
  unfold bind at 1, on_pager at 1, modify at 1, catch, zoom. cbn [sys_mm upd].
  rewrite Hs. do 2 eexists. split; [reflexivity|]. split; [done|].
  split; [split; [by destruct (se_class e)|exact HR']|]. apply account_reclaimed_counts.
Qed.

Lemma restore_page_run (s : sys B) a k out :
  PRep s a -> len out = PAGE_BYTES ->
  exists r s' out', restore_page k (s, out) = (r, (s', out')) /\ PRep s' a /\
    match a !! k with
    | Some p => (exists e, r = Ok e /\ pe_page_id e = k /\ counted_restore (pe_class e) (pg_stats (sys_pager s)) (pg_stats (sys_pager s'))) /\ out' = p
    | None => r = Err (PagerStore StoreNotFound) /\ out' = out /\ counted_miss (pg_stats (sys_pager s)) (pg_stats (sys_pager s'))
    end.
Proof.
  intros [Hi HR] Ho. destruct s as [m p]. cbn [sys_mm sys_pager] in *.
  destruct (load_page_run m a k out HR Ho) as (r & m' & out' & Hl & HR' & _ & Hm).
  unfold restore_page, bind at 1, gets. cbn [fst sys_pager]. rewrite Hi. cbn [negb].
  unfold bind at 1, on_sys at 1, on_pager at 1, modify at 1, catch, zoom. cbn [sys_mm upd fst snd].
  rewrite Hl. destruct (a !! k) as [q|].
  - destruct Hm as [(e & -> & He) ->]. do 3 eexists. split; [reflexivity|].
    split; [split; [by destruct (se_class e)|exact HR']|]. split; [|done].
    eexists. split; [reflexivity|]. split; [done|]. apply account_restored_counts.
  - destruct Hm as [-> ->]. do 3 eexists. split; [reflexivity|]. split; [by split|]. split; [done|]. split; [done|].
    split; [done|]. split; [done|]. split; [by intros []|]. split; [by intros []|done].
Qed.

Lemma verify_roundtrip_run (s : sys B) a k page :
  PRep s a -> is_page page ->
  exists s', verify_roundtrip k page s = (Ok tt, s') /\
    PRep s' (spec_store k page (mm_store (sys_mm s)) a) /\
    verify_failures (pg_stats (sys_pager s')) = verify_failures (pg_stats (sys_pager s)).
Proof.
  intros HR Hp. destruct (reclaim_page_run s a k page HR Hp) as (e & s1 & Hr & _ & HR1 & (_ & _ & _ & _ & Hv1)).
  unfold verify_roundtrip, bind at 1. rewrite Hr. unfold bind at 1, restore_fresh.
  destruct (restore_page_run s1 _ k (replicate (Z.to_nat PAGE_BYTES) 0) HR1)
    as (r & s2 & out' & Hl & HR2 & Hm); [rewrite len_replicate; plia|].
  unfold spec_store in Hm. rewrite lookup_insert_eq in Hm. destruct Hm as [(e' & -> & _ & (_ & _ & _ & _ & Hv2)) ->].
  rewrite Hl. rewrite bool_decide_eq_true_2 by done. cbn [negb].
  exists s2. split; [done|]. split; [done|congruence].
Qed.
End pager_facts.

(** The kernel's memory compression stack after [pager::initialize]. *)
Definition sys_booted : sys NullBackend := snd (pager_initialize (mkSys mm_booted pager_new)).

Lemma sys_booted_rep : PRep sys_booted ∅.
Proof. split; [reflexivity|]. apply mm_booted_rep. Qed.

(** * Theorems *)



(** The bootstrap smoke test passes: on any initialised pager over a lawful
    backend, [run_bootstrap_smoke] returns the summary "4 tested, 4 verified";
    no verification failure is ever counted. *)
Theorem bootstrap_smoke_passes {B} `{LawfulBackend B} (s : sys B) a :
  PRep s a ->
  exists s', run_bootstrap_smoke s = (Ok (mkSmoke 4 4), s') /\
    verify_failures (pg_stats (sys_pager s')) = verify_failures (pg_stats (sys_pager s)).
Proof.
  intros HR. pose proof HR as [Hi HM]. unfold run_bootstrap_smoke, bind at 1, gets. cbn [id].
  rewrite Hi. cbn [negb]. unfold bind at 1, on_pager at 1, modify at 1.
  set (s0 := upd sys_pager _ s). assert (HR0 : PRep s0 a) by (destruct s; exact HR).
  assert (Hv0 : verify_failures (pg_stats (sys_pager s0)) = verify_failures (pg_stats (sys_pager s))) by done.
  destruct (verify_roundtrip_run s0 a 0x1000 zero_page HR0 zero_page_ok) as (s1 & H1 & HR1 & Hv1).
  destruct (verify_roundtrip_run s1 _ 0x1001 (same_byte_page 0xAA) HR1) as (s2 & H2 & HR2 & Hv2);
    [by apply same_byte_page_ok|].
  destruct (verify_roundtrip_run s2 _ 0x1002 pattern_page HR2 pattern_page_ok) as (s3 & H3 & HR3 & Hv3).
  destruct (verify_roundtrip_run s3 _ 0x1003 (dictionary_word_page 0x0000ffff) HR3 (dictionary_word_page_ok _))
    as (s4 & H4 & _ & Hv4).
  unfold bind. rewrite H1, H2, H3, H4. eexists. split; [reflexivity|]. cbn. congruence.
Qed.

Lemma bootstrap_smoke_passes_witness :
  exists s', run_bootstrap_smoke sys_booted = (Ok (mkSmoke 4 4), s') /\
    verify_failures (pg_stats (sys_pager s')) = verify_failures (pg_stats (sys_pager sys_booted)).
Proof. apply (bootstrap_smoke_passes sys_booted ∅). apply sys_booted_rep. Defined.
