(* ===== verification/Frame.v ===== *)
(** * Physical frame allocator: [kernel/src/mm/frame.rs]

    The allocator keeps up to 64 usable regions of the boot memory map, cut to
    page boundaries and to addresses above 1 MiB, and hands out page frames by
    moving a cursor through each region; frames are never returned. A request
    takes the first region with enough room.

    The theorems follow an arbitrary sequence of requests from boot: what is
    granted is page aligned, inside usable memory, and disjoint from everything
    granted before; a refusal means no region had the room. *)
From stdpp Require Import base list numbers option.
From Stdlib Require Import ZArith Lia Bool.
From S2P Require Import Prelude.

Definition PAGE_SIZE : Z := 4096.
Definition MAX_USABLE_REGIONS : Z := 64.
Definition BOOTSTRAP_RESERVED_END : Z := 0x00100000.

(** ** limine.rs: the memory map *)
Inductive MemoryMapEntryType : Type :=
| Usable | Reserved | AcpiReclaimable | AcpiNvs | BadMemory | BootloaderReclaimable
| ExecutableAndModules | MapFramebuffer | UnknownType (raw : Z).

#[export] Instance MemoryMapEntryType_eq_dec : EqDecision MemoryMapEntryType.
Proof. solve_decision. Defined.

Definition from_raw (raw : Z) : MemoryMapEntryType :=
  if raw =? 0 then Usable
  else if raw =? 1 then Reserved
  else if raw =? 2 then AcpiReclaimable
  else if raw =? 3 then AcpiNvs
  else if raw =? 4 then BadMemory
  else if raw =? 5 then BootloaderReclaimable
  else if raw =? 6 then ExecutableAndModules
  else if raw =? 7 then MapFramebuffer
  else UnknownType raw.

Record MemoryMapEntry : Type := mkEntry { e_base : Z; e_length : Z; entry_type : MemoryMapEntryType }.

Definition is_usable (e : MemoryMapEntry) : bool := bool_decide (entry_type e = Usable).

(** ** frame.rs *)
Record FrameRegion : Type := mkRegion { r_start : Z; r_end : Z; r_next : Z }.
#[export] Instance eta_FrameRegion : RecordEta FrameRegion := fun r => mkRegion (r_start r) (r_end r) (r_next r).

Definition region_empty : FrameRegion := mkRegion 0 0 0.
Definition region_size (r : FrameRegion) : Z := sat_sub (r_end r) (r_start r).
Definition remaining (r : FrameRegion) : Z := sat_sub (r_end r) (r_next r).

(** A frame is its start address. *)
Record PhysicalFrame : Type := mkFrame { start_address : Z }.

Record FrameAllocatorStats : Type := mkFrameStats {
  fs_usable_regions : Z; fs_total_bytes : Z; fs_allocatable_bytes : Z; fs_allocated_frames : Z }.

Inductive FrameAllocatorInitError : Type := FrameAlreadyInitialized | NoUsableRegions | TooManyRegions.

Record FrameAllocator : Type := mkFrameAllocator {
  fa_initialized : bool; region_count : Z; total_bytes : Z; allocatable_bytes : Z;
  allocated_frames : Z; regions : list FrameRegion }.
#[export] Instance eta_FrameAllocator : RecordEta FrameAllocator := fun a =>
  mkFrameAllocator (fa_initialized a) (region_count a) (total_bytes a) (allocatable_bytes a)
    (allocated_frames a) (regions a).

Definition frame_allocator_new : FrameAllocator :=
  mkFrameAllocator false 0 0 0 0 (replicate (Z.to_nat MAX_USABLE_REGIONS) region_empty).

Definition align_up (value alignment : Z) : Z :=
  if alignment =? 0 then value
  else Z.land (sat_add U64 value (alignment - 1)) (bitnot U64 (alignment - 1)).

Definition align_down (value alignment : Z) : Z :=
  if alignment =? 0 then value else Z.land value (bitnot U64 (alignment - 1)).

Definition frame_stats (a : FrameAllocator) : FrameAllocatorStats :=
  mkFrameStats (region_count a) (total_bytes a) (allocatable_bytes a) (allocated_frames a).

(** The region of an entry: what is left above [BOOTSTRAP_RESERVED_END], in whole pages. *)
Definition entry_region (e : MemoryMapEntry) : FrameRegion :=
  let original_end := sat_add U64 (e_base e) (e_length e) in
  let region_start := align_up (Z.max (e_base e) BOOTSTRAP_RESERVED_END) PAGE_SIZE in
  let region_end := align_down original_end PAGE_SIZE in
  mkRegion region_start region_end region_start.

(** One iteration of the loop over the memory map. *)
Definition add_entry (e : MemoryMapEntry) : M FrameAllocator FrameAllocatorInitError unit :=
  if negb (is_usable e) then ret tt else
  do! modify (upd total_bytes (fun t => sat_add U64 t (e_length e))) in
  let region := entry_region e in
  if r_end region <=? r_start region then ret tt else
  let! a := gets id in
  if MAX_USABLE_REGIONS <=? region_count a then throw TooManyRegions else
  do! modify (upd allocatable_bytes (fun t => sat_add U64 t (region_size region))) in
  let! rs := lift (set_at (regions a) (region_count a) region) in
  do! modify (set_field regions rs) in
  let! n := lift (add U64 (region_count a) 1) in
  modify (set_field region_count n).

Fixpoint add_entries (es : list MemoryMapEntry) : M FrameAllocator FrameAllocatorInitError unit :=
  match es with
  | [] => ret tt
  | e :: es' => do! add_entry e in add_entries es'
  end.

Definition frame_initialize (memory_map : list MemoryMapEntry)
    : M FrameAllocator FrameAllocatorInitError FrameAllocatorStats :=
  let! init := gets fa_initialized in
  if init then throw FrameAlreadyInitialized else
  do! add_entries memory_map in
  let! n := gets region_count in
  if n =? 0 then throw NoUsableRegions else
  do! modify (set_field fa_initialized true) in
  gets frame_stats.

(** The [for region in &mut self.regions[..]] loop of both requests. *)
Fixpoint first_fit (bytes : Z) (rs : list FrameRegion) : option (Z * list FrameRegion) :=
  match rs with
  | [] => None
  | r :: rs' =>
      if remaining r <? bytes then
        match first_fit bytes rs' with
        | Some (a, rs'') => Some (a, r :: rs'')
        | None => None
        end
      else Some (r_next r, upd r_next (fun n => sat_add U64 n bytes) r :: rs')
  end.

(** The loop run on the slice [self.regions[..self.region_count]]. *)
Definition take_frames {E} (bytes count : Z) : M FrameAllocator E (option PhysicalFrame) :=
  let! a := gets id in
  let! rs := lift (slice (regions a) 0 (region_count a)) in
  match first_fit bytes rs with
  | Some (addr, rs') =>
      do! modify (upd regions (fun l => rs' ++ drop (Z.to_nat (region_count a)) l)) in
      do! modify (upd allocated_frames (fun n => sat_add U64 n count)) in
      ret (Some (mkFrame addr))
  | None => ret None
  end.

Definition allocate {E} : M FrameAllocator E (option PhysicalFrame) :=
  let! init := gets fa_initialized in
  if negb init then ret None else take_frames PAGE_SIZE 1.

Definition allocate_contiguous {E} (count : Z) : M FrameAllocator E (option PhysicalFrame) :=
  let! init := gets fa_initialized in
  if negb init || (count =? 0) then ret None else
  take_frames (sat_mul U64 count PAGE_SIZE) count.

(** * Facts *)

(** ** Initialisation as a function of the memory map *)

(** The region an entry contributes, if any. *)
Definition region_of (e : MemoryMapEntry) : option FrameRegion :=
  if is_usable e && negb (r_end (entry_region e) <=? r_start (entry_region e))
  then Some (entry_region e) else None.

Definition used (a : FrameAllocator) : list FrameRegion :=
  take (Z.to_nat (region_count a)) (regions a).

Definition table_ok (a : FrameAllocator) : Prop :=
  len (regions a) = MAX_USABLE_REGIONS /\ 0 <= region_count a <= MAX_USABLE_REGIONS.

Definition entry_ok (e : MemoryMapEntry) : Prop := in_range U64 (e_base e) /\ in_range U64 (e_length e).

Lemma len_used a : table_ok a -> len (used a) = region_count a.
Proof. intros [? ?]. unfold used. len_solve. Qed.

(** Writing the next free region slot extends the list of used ones. *)
Lemma push_region a r :
  table_ok a -> region_count a < MAX_USABLE_REGIONS ->
  exists rs, set_at (E:=FrameAllocatorInitError) (regions a) (region_count a) r = Ok rs /\
    len rs = MAX_USABLE_REGIONS /\
    take (Z.to_nat (region_count a + 1)) rs = used a ++ [r].
Proof.
  intros [Hl Hc] Hlt. unfold set_at. destruct (blit (regions a) (region_count a) [r]) as [rs| | |] eqn:Hb.
  2-4: by rewrite blit_ok in Hb by len_solve.
  exists rs. split; [done|]. split; [rewrite <- Hl; unfold len; f_equal; eauto using blit_length|].
  apply blit_prefix in Hb. by rewrite len_cons, len_nil, Z.add_0_r in Hb.
Qed.

Lemma add_entry_run e a :
  table_ok a ->
  match add_entry e a, region_of e with
  | (Ok _, a'), None => table_ok a' /\ used a' = used a /\ allocated_frames a' = allocated_frames a
  | (Ok _, a'), Some r =>
      table_ok a' /\ used a' = used a ++ [r] /\ allocated_frames a' = allocated_frames a
  | (Err TooManyRegions, _), Some _ => region_count a = MAX_USABLE_REGIONS
  | _, _ => False
  end.
Proof.
  intros Hok. unfold add_entry, region_of. destruct (is_usable e); [|by run].
  run. cbn [negb andb]. destruct (r_end (entry_region e) <=? r_start (entry_region e)); [by simpl|].
  cbn [negb]. bdestruct_if; simpl in *.
  { destruct Hok. lia. }
  destruct (push_region a (entry_region e) Hok ltac:(lia)) as (rs & Hrs & Hlen & Htk).
  simpl. rewrite Hrs. unfold add, chk_add. rewrite (proj2 (Z.ltb_lt _ U64)) by (unfold MAX_USABLE_REGIONS in *; simpl in *; lia).
  simpl. unfold table_ok, used in *. simpl. destruct Hok. repeat split; auto; lia.
Qed.

Lemma add_entries_run es a :
  table_ok a ->
  match add_entries es a with
  | (Ok _, a') =>
      table_ok a' /\ used a' = used a ++ omap region_of es /\ allocated_frames a' = allocated_frames a
  | (Err TooManyRegions, _) => MAX_USABLE_REGIONS < region_count a + len (omap region_of es)
  | _ => False
  end.
Proof.
  revert a. induction es as [|e es IH]; intros a Hok; cbn [add_entries].
  { run. rewrite app_nil_r. auto. }
  change (omap region_of (e :: es))
    with (match region_of e with Some r => r :: omap region_of es | None => omap region_of es end).
  pose proof (add_entry_run e a Hok) as He. unfold bind.
  destruct (add_entry e a) as [[[]|[]| |] a1].
  - destruct (region_of e) as [r|]; destruct He as (Hok1 & Hu & Hf); specialize (IH a1 Hok1);
      destruct (add_entries es a1) as [[[]|[]| |] a2]; try done.
    + destruct IH as (? & -> & ->). rewrite Hu, <- app_assoc. auto.
    + pose proof (len_used a Hok). pose proof (len_used a1 Hok1). rewrite Hu in *. len_solve.
    + destruct IH as (? & -> & ->). rewrite Hu. auto.
    + pose proof (len_used a Hok). pose proof (len_used a1 Hok1). rewrite Hu in *. lia.
  - by destruct (region_of e).
  - by destruct (region_of e).
  - destruct (region_of e); [|done]. rewrite len_cons. pose proof (len_nonneg (omap region_of es)). lia.
  - by destruct (region_of e).
  - by destruct (region_of e).
Qed.

(** ** Regions *)
Definition region_ok (r : FrameRegion) : Prop :=
  BOOTSTRAP_RESERVED_END <= r_start r <= r_next r /\ r_next r <= r_end r /\ r_end r <= U64 - PAGE_SIZE /\
  r_start r mod PAGE_SIZE = 0 /\ r_next r mod PAGE_SIZE = 0 /\ r_end r mod PAGE_SIZE = 0.

(** The region lies inside a usable entry of the map. *)
Definition inside (e : MemoryMapEntry) (a n : Z) : Prop :=
  is_usable e = true /\ e_base e <= a /\ a + n <= e_base e + e_length e.

Lemma align_up_PAGE v : align_up v PAGE_SIZE = Z.land (sat_add U64 v 4095) (bitnot U64 4095).
Proof. reflexivity. Qed.
Lemma align_down_PAGE v : align_down v PAGE_SIZE = Z.land v (bitnot U64 4095).
Proof. reflexivity. Qed.

Lemma region_of_ok e r :
  entry_ok e -> region_of e = Some r ->
  region_ok r /\ r_next r = r_start r /\ inside e (r_start r) (r_end r - r_start r).
Proof.
  intros [Hb Hl]. unfold region_of. destruct (is_usable e) eqn:Hus; [|done]. cbn [andb].
  destruct (r_end (entry_region e) <=? r_start (entry_region e)) eqn:Hle; [done|]. intros [= <-]. bool_prop.
  unfold in_range in *.
  pose proof (align_up_page (e_base e `max` BOOTSTRAP_RESERVED_END) ltac:(unfold BOOTSTRAP_RESERVED_END; lia)) as Hu.
  pose proof (align_down_page (sat_add U64 (e_base e) (e_length e)) ltac:(unfold sat_add; lia)) as Hd.
  cbv zeta in Hu, Hd. rewrite <- align_up_PAGE in Hu. rewrite <- align_down_PAGE in Hd.
  unfold region_ok, inside. unfold entry_region in *. cbn [r_start r_end r_next] in *.
  set (x := align_up _ _) in *. set (y := align_down _ _) in *. clearbody x y.
  unfold BOOTSTRAP_RESERVED_END, PAGE_SIZE, sat_add in *. destruct Hu as (? & ? & Hu1 & Hu2). destruct Hd as (? & ? & ? & ?).
  destruct (Z.le_gt_cases (e_base e `max` 1048576 + 4096) U64) as [Hc|Hc];
    [specialize (Hu1 Hc)|specialize (Hu2 ltac:(lia))]; repeat split; try assumption; lia.
Qed.

(** ** First fit *)
Lemma first_fit_Some n rs addr rs' :
  first_fit n rs = Some (addr, rs') ->
  exists l1 r l2, rs = l1 ++ r :: l2 /\ Forall (fun r => remaining r < n) l1 /\ n <= remaining r /\
    addr = r_next r /\ rs' = l1 ++ upd r_next (fun x => sat_add U64 x n) r :: l2.
Proof.
  revert rs'. induction rs as [|r rs IH]; intros rs'; simpl; [done|]. bdestruct_if.
  - destruct (first_fit n rs) as [[a rs1]|] eqn:Hf; [|done]. intros [= -> <-].
    destruct (IH _ eq_refl) as (l1 & r1 & l2 & -> & ? & ? & -> & ->).
    exists (r :: l1), r1, l2. repeat split; auto.
  - intros [= <- <-]. exists [], r, rs. repeat split; auto.
Qed.

Lemma first_fit_None n rs : first_fit n rs = None <-> Forall (fun r => remaining r < n) rs.
Proof.
  induction rs as [|r rs IH]; simpl; [split; auto|]. bdestruct_if.
  - rewrite Forall_cons_iff, <- IH. destruct (first_fit n rs) as [[? ?]|]; intuition congruence.
  - rewrite Forall_cons_iff. split; [done|intros []; lia].
Qed.

(** ** Requests from boot *)
Inductive frame_request : Type := OneFrame | Contiguous (count : Z).

Definition serve (q : frame_request) : M FrameAllocator FrameAllocatorInitError (option PhysicalFrame) :=
  match q with OneFrame => allocate | Contiguous n => allocate_contiguous n end.

(** Frames asked for; a count is a [u64]. *)
Definition frames_of (q : frame_request) : Z := match q with OneFrame => 1 | Contiguous n => n end.
Definition request_ok (q : frame_request) : Prop := in_range U64 (frames_of q).

(** [frame_reach map a g]: the allocator initialised from [map] can be in state
    [a] having granted the address ranges [g], latest first. *)
Inductive frame_reach (map : list MemoryMapEntry) : FrameAllocator -> list (Z * Z) -> Prop :=
| fr_boot st a :
    frame_initialize map frame_allocator_new = (Ok st, a) -> frame_reach map a []
| fr_grant q a a' g f :
    frame_reach map a g -> request_ok q -> serve q a = (Ok (Some f), a') ->
    frame_reach map a' ((start_address f, frames_of q * PAGE_SIZE) :: g)
| fr_refuse q a a' g :
    frame_reach map a g -> request_ok q -> serve q a = (Ok None, a') -> frame_reach map a' g.

Definition ranges_disjoint (x y : Z * Z) : Prop := x.1 + x.2 <= y.1 \/ y.1 + y.2 <= x.1.
Definition regions_apart (r s : FrameRegion) : Prop := r_end r <= r_start s \/ r_end s <= r_start r.
Definition entries_apart (e f : MemoryMapEntry) : Prop :=
  is_usable e = true -> is_usable f = true ->
  e_base e + e_length e <= e_base f \/ e_base f + e_length f <= e_base e.

(** What Limine documents of its memory map: [u64] fields, usable entries do not overlap. *)
Definition map_ok (map : list MemoryMapEntry) : Prop :=
  Forall entry_ok map /\ ForallOrdPairs entries_apart map.

#[export] Instance regions_apart_sym : Symmetric regions_apart.
Proof. unfold regions_apart. intros ? ? ?; tauto. Qed.

Definition granted_in (r : FrameRegion) (x : Z * Z) : Prop := r_start r <= x.1 /\ x.1 + x.2 <= r_next r.
Definition taken (r : FrameRegion) : Z := r_next r - r_start r.

Record frame_inv (map : list MemoryMapEntry) (a : FrameAllocator) (g : list (Z * Z)) : Prop := {
  fi_table : table_ok a;
  fi_init : fa_initialized a = true;
  fi_regions : Forall region_ok (used a);
  fi_map : Forall (fun r => exists e, e ∈ map /\ inside e (r_start r) (r_end r - r_start r)) (used a);
  fi_apart : ForallOrdPairs regions_apart (used a);
  fi_grants : Forall (fun x => x.1 mod PAGE_SIZE = 0 /\ exists r, r ∈ used a /\ granted_in r x) g;
  fi_disjoint : ForallOrdPairs ranges_disjoint g;
  fi_count : allocated_frames a * PAGE_SIZE = zsum taken (used a) /\ zsum taken (used a) = zsum snd g }.

Lemma take_frames_run E n c a :
  table_ok a ->
  match first_fit n (used a) with
  | None => take_frames (E:=E) n c a = (Ok None, a)
  | Some (addr, rs') => exists a',
      take_frames (E:=E) n c a = (Ok (Some (mkFrame addr)), a') /\
      (len rs' = region_count a -> table_ok a' /\ used a' = rs') /\
      fa_initialized a' = fa_initialized a /\ allocated_frames a' = sat_add U64 (allocated_frames a) c
  end.
Proof.
  intros [Hl Hc]. unfold take_frames. run. unfold id.
  rewrite slice_ok by lia. rewrite Z.sub_0_r, drop_0.
  fold (used a). destruct (first_fit n (used a)) as [[addr rs']|]; [|done].
  eexists. split; [reflexivity|]. simpl. split; [|done]. intros Hn. unfold table_ok, used. simpl.
  split; [split; [|lia]; len_solve|]. rewrite take_app_le by len_solve. apply take_ge. len_solve.
Qed.

Lemma remaining_eq r : region_ok r -> remaining r = r_end r - r_next r.
Proof. intros H. unfold region_ok in H. unfold remaining, sat_sub. lia. Qed.

(** The region a grant was taken from, after the cursor moved. *)
Lemma advance_ok r n :
  region_ok r -> 0 < n <= remaining r -> n mod PAGE_SIZE = 0 ->
  let r' := upd r_next (fun x => sat_add U64 x n) r in
  region_ok r' /\ r_next r' = r_next r + n.
Proof.
  intros Hr Hn Hm r'. pose proof (remaining_eq r Hr). unfold region_ok in *.
  assert (Hx : r_next r' = r_next r + n) by (unfold r', PAGE_SIZE in *; simpl; unfold sat_add; lia).
  split; [|done]. rewrite !Hx. change (r_start r') with (r_start r). change (r_end r') with (r_end r).
  repeat split; try tauto; try lia.
  unfold PAGE_SIZE in *. rewrite Z.add_mod by lia. destruct Hr as (_ & _ & _ & _ & -> & _). by rewrite Hm.
Qed.

(** A step that takes [n] bytes for [c] frames from region [r] keeps the invariant. *)
Section grant.
Context (map : list MemoryMapEntry) (a a' : FrameAllocator) (g : list (Z * Z)) (n c : Z).
Context (l1 l2 : list FrameRegion) (r : FrameRegion).
Let r' := upd r_next (fun x => sat_add U64 x n) r.
Context (Hinv : frame_inv map a g) (Hold : used a = l1 ++ r :: l2) (Hnew : used a' = l1 ++ r' :: l2).
Context (Hroom : 0 < n <= remaining r) (Hpages : n = c * PAGE_SIZE).
Context (Htable : table_ok a') (Hcount : allocated_frames a' = sat_add U64 (allocated_frames a) c).

Lemma grant_region_ok : region_ok r /\ region_ok r' /\ r_next r' = r_next r + n.
Proof.
  assert (Hr : region_ok r).
  { pose proof (fi_regions _ _ _ Hinv) as Hr. rewrite Hold, list.Forall_forall in Hr.
    apply Hr. rewrite elem_of_app, elem_of_cons. auto. }
  split; [done|]. apply advance_ok; [done..|]. rewrite Hpages. unfold PAGE_SIZE. apply Z.mod_mul. lia.
Qed.

Lemma grant_regions : Forall region_ok (used a').
Proof.
  pose proof (fi_regions _ _ _ Hinv) as Hr. rewrite Hold in Hr. rewrite Hnew.
  apply Forall_app in Hr as [? [_ ?]%Forall_cons_iff]. apply Forall_app. split; [done|].
  apply Forall_cons_iff. split; [apply grant_region_ok|done].
Qed.

Lemma grant_old_region s : s ∈ used a -> s = r \/ (s ∈ l1 ++ l2 /\ s ∈ used a').
Proof. rewrite Hold, Hnew, !elem_of_app, !elem_of_cons. tauto. Qed.

Lemma grant_new_region : r' ∈ used a'.
Proof. rewrite Hnew, elem_of_app, elem_of_cons. auto. Qed.

Lemma grant_granted x s :
  s ∈ used a -> granted_in s x -> exists s', s' ∈ used a' /\ granted_in s' x.
Proof.
  intros Hs Hx. destruct grant_region_ok as (_ & _ & Hnext).
  destruct (grant_old_region s Hs) as [->|[_ Hs']]; [|eauto].
  exists r'. split; [apply grant_new_region|]. unfold granted_in in *. change (r_start r') with (r_start r). lia.
Qed.

(** What was granted before does not meet the new range. *)
Lemma grant_apart x s : s ∈ used a -> granted_in s x -> ranges_disjoint (r_next r, n) x.
Proof.
  intros Hs Hx. destruct grant_region_ok as (Hr & _ & _).
  unfold ranges_disjoint, granted_in in *. simpl.
  destruct (grant_old_region s Hs) as [->|[Hs' _]]; [lia|].
  assert (Hap : regions_apart r s).
  { eapply FOP_mid; [apply _| |exact Hs']. rewrite <- Hold. apply (fi_apart _ _ _ Hinv). }
  assert (Hsok : region_ok s).
  { pose proof (fi_regions _ _ _ Hinv) as Hall. rewrite list.Forall_forall in Hall. auto. }
  pose proof (remaining_eq r Hr). unfold regions_apart, region_ok in *. lia.
Qed.

Lemma grant_sum : zsum taken (used a') = zsum taken (used a) + n.
Proof.
  destruct grant_region_ok as (_ & _ & Hnext).
  assert (taken r' = taken r + n) by (unfold taken; rewrite Hnext; change (r_start r') with (r_start r); lia).
  rewrite Hold, Hnew, !zsum_app, !zsum_cons. lia.
Qed.

Lemma grant_count : allocated_frames a' = allocated_frames a + c.
Proof.
  pose proof (fi_count _ _ _ Hinv) as [Hc _]. pose proof grant_sum as Hsum.
  assert (zsum taken (used a') <= U64 * len (used a')).
  { apply zsum_bound. eapply Forall_impl; [|exact grant_regions]. intros x Hx.
    unfold region_ok, taken, PAGE_SIZE, BOOTSTRAP_RESERVED_END in *; lia. }
  rewrite (len_used a' Htable) in *. destruct Htable as [_ ?].
  rewrite Hcount. unfold sat_add, PAGE_SIZE, MAX_USABLE_REGIONS in *. lia.
Qed.

Lemma grant_inv :
  fa_initialized a' = fa_initialized a -> frame_inv map a' ((r_next r, n) :: g).
Proof.
  intros Hi. destruct grant_region_ok as (Hr & _ & _). destruct Hinv as [_ Hi0 _ Hm Ha Hg Hd [Hc1 Hc2]].
  split; [done|congruence|apply grant_regions| | | | |].
  - rewrite Hold in Hm. rewrite Hnew. apply Forall_app in Hm as [? [? ?]%Forall_cons_iff].
    apply Forall_app. split; [done|]. by apply Forall_cons_iff.
  - rewrite Hnew. rewrite Hold in Ha. eapply FOP_replace; [| |exact Ha]; intros y; exact id.
  - constructor.
    + split; [apply Hr|]. exists r'. split; [apply grant_new_region|].
      destruct grant_region_ok as (_ & Hr' & Hnext). unfold granted_in, region_ok in *. simpl in *. lia.
    + eapply Forall_impl; [|exact Hg]. intros x [Hal (s & Hs & Hx)]. split; [done|]. by eapply grant_granted.
  - constructor; [|done]. eapply Forall_impl; [|exact Hg]. intros x [_ (s & Hs & Hx)]. by eapply grant_apart.
  - rewrite grant_sum, grant_count, zsum_cons. simpl. lia.
Qed.
End grant.

(** ** A request on an allocator that keeps the invariant *)
Definition room_for (q : frame_request) (r : FrameRegion) : Prop := frames_of q * PAGE_SIZE <= remaining r.
#[export] Instance room_for_dec q r : Decision (room_for q r).
Proof. unfold room_for. apply _. Defined.

Lemma serve_run map a g q :
  frame_inv map a g -> request_ok q ->
  match serve q a with
  | (Ok (Some f), a') =>
      frame_inv map a' ((start_address f, frames_of q * PAGE_SIZE) :: g) /\ 0 < frames_of q /\ Exists (room_for q) (used a)
  | (Ok None, a') => a' = a /\ (frames_of q = 0 \/ Forall (fun r => ~ room_for q r) (used a))
  | _ => False
  end.
Proof.
  intros Hinv Hq. pose proof (fi_table _ _ _ Hinv) as Ht.
  assert (Hserve : serve q a = if frames_of q =? 0 then (Ok None, a)
    else take_frames (sat_mul U64 (frames_of q) PAGE_SIZE) (frames_of q) a).
  { destruct q; simpl; unfold allocate, allocate_contiguous; run; rewrite (fi_init _ _ _ Hinv); simpl; [done|].
    by bdestruct_if. }
  rewrite Hserve. unfold request_ok, in_range in Hq. bdestruct_if; [auto|].
  set (bytes := sat_mul U64 (frames_of q) PAGE_SIZE). pose proof (take_frames_run FrameAllocatorInitError bytes (frames_of q) a Ht) as Hrun.
  assert (Hfit : forall r, region_ok r -> bytes <= remaining r <-> room_for q r).
  { intros r Hr. pose proof (remaining_eq r Hr). unfold room_for, bytes, sat_mul, region_ok, PAGE_SIZE, BOOTSTRAP_RESERVED_END in *. lia. }
  pose proof (fi_regions _ _ _ Hinv) as Hregs. rewrite list.Forall_forall in Hregs.
  destruct (first_fit bytes (used a)) as [[addr rs']|] eqn:Hf.
  - destruct Hrun as (a' & -> & Hu & Hi & Hc).
    apply first_fit_Some in Hf as (l1 & r & l2 & Hold & _ & Hroom & -> & ->).
    assert (Hr : region_ok r) by (apply Hregs; rewrite Hold, elem_of_app, elem_of_cons; auto).
    pose proof (proj1 (Hfit r Hr) Hroom) as Hroom'. pose proof (remaining_eq r Hr).
    assert (Hn : bytes = frames_of q * PAGE_SIZE).
    { unfold bytes, sat_mul, room_for, region_ok, PAGE_SIZE, BOOTSTRAP_RESERVED_END in *. lia. }
    destruct Hu as [Ht' Hu']; [rewrite <- (len_used a Ht), Hold; len_solve|].
    split; [|split; [lia|]]; [|apply Exists_exists; exists r; split; [apply list_elem_of_In; rewrite Hold, elem_of_app, elem_of_cons; auto|done]].
    simpl. rewrite <- Hn. eapply grant_inv; eauto. unfold PAGE_SIZE in *. lia.
  - rewrite Hrun. split; [done|]. right. apply first_fit_None in Hf. apply list.Forall_forall.
    intros r Hin Hroom. rewrite list.Forall_forall in Hf. specialize (Hf r Hin).
    apply (Hfit r (Hregs r Hin)) in Hroom. lia.
Qed.

(** ** What is still free *)
Definition free_at (a : FrameAllocator) (x : Z) : Prop := exists r, r ∈ used a /\ r_next r <= x < r_end r.

(** A frame obtained from [allocate]: a whole free page, free no more. *)
Lemma allocate_free E map a g :
  frame_inv map a g ->
  match allocate (E:=E) a with
  | (Ok (Some f), a') =>
      frame_inv map a' ((start_address f, PAGE_SIZE) :: g) /\ start_address f mod PAGE_SIZE = 0 /\
      BOOTSTRAP_RESERVED_END <= start_address f /\
      (forall x, start_address f <= x < start_address f + PAGE_SIZE -> free_at a x /\ ~ free_at a' x) /\
      (forall x, free_at a' x -> free_at a x)
  | (Ok None, a') => a' = a
  | _ => False
  end.
Proof.
  intros Hinv. pose proof (fi_table _ _ _ Hinv) as Ht. unfold allocate. run. rewrite (fi_init _ _ _ Hinv). cbn [negb].
  pose proof (take_frames_run E PAGE_SIZE 1 a Ht) as Hrun.
  destruct (first_fit PAGE_SIZE (used a)) as [[addr rs']|] eqn:Hf; [|by rewrite Hrun].
  destruct Hrun as (a' & -> & Hu & Hi & Hc).
  apply first_fit_Some in Hf as (l1 & r & l2 & Hold & _ & Hroom & -> & ->).
  destruct Hu as [Ht' Hu']; [rewrite <- (len_used a Ht), Hold; len_solve|].
  assert (Hpos : 0 < PAGE_SIZE <= remaining r) by (unfold PAGE_SIZE in *; lia).
  destruct (grant_region_ok map a g PAGE_SIZE 1 l1 l2 r Hinv Hold Hpos eq_refl) as (Hr & _ & Hnext).
  pose proof (remaining_eq r Hr) as Hrem. cbn [start_address].
  split; [eapply (grant_inv map a a' g PAGE_SIZE 1 l1 l2 r); eauto|]. split; [apply Hr|]. split; [unfold region_ok in Hr; lia|].
  pose proof (fi_apart _ _ _ Hinv) as Hap. rewrite Hold in Hap.
  pose proof (fi_regions _ _ _ Hinv) as Hall. rewrite list.Forall_forall in Hall.
  assert (Hin : r ∈ used a) by (rewrite Hold, elem_of_app, elem_of_cons; auto).
  assert (Hcases : forall s, s ∈ used a' -> s = upd r_next (fun x => sat_add U64 x PAGE_SIZE) r \/ (s ∈ l1 ++ l2 /\ s ∈ used a)).
  { intros s. rewrite Hu', Hold, !elem_of_app, !elem_of_cons. tauto. }
  split.
  - intros x Hx. split; [exists r; split; [done|lia]|]. intros (s & Hs & Hsx).
    destruct (Hcases s Hs) as [->|[Hs' Hs'']]; [rewrite Hnext in Hsx; lia|].
    pose proof (FOP_mid regions_apart l1 r l2 Hap s Hs') as Hrs. specialize (Hall s Hs'').
    unfold regions_apart, region_ok in *. lia.
  - intros x (s & Hs & Hsx). destruct (Hcases s Hs) as [->|[_ Hs'']]; [|by exists s].
    exists r. split; [done|]. rewrite Hnext in Hsx. simpl in Hsx. unfold PAGE_SIZE in *. lia.
Qed.

Lemma boot_inv map st a :
  map_ok map -> frame_initialize map frame_allocator_new = (Ok st, a) ->
  frame_inv map a [] /\ used a = omap region_of map.
Proof.
  intros [Hes Hap]. unfold frame_initialize. run. cbn [fa_initialized frame_allocator_new].
  assert (Hok : table_ok frame_allocator_new) by (split; [reflexivity|unfold MAX_USABLE_REGIONS; simpl; lia]).
  pose proof (add_entries_run map _ Hok) as Hadd.
  destruct (add_entries map frame_allocator_new) as [[[]|[]| |] a1]; try done.
  destruct Hadd as (Ht & Hu & Hf). bdestruct_if; [done|]. intros [= _ <-].
  change (used frame_allocator_new) with (@nil FrameRegion) in Hu. simpl in Hu.
  set (a := upd fa_initialized (fun _ => true) a1).
  assert (Hua : used a = omap region_of map) by exact Hu. split; [|done].
  assert (Hreg : Forall (fun r => (region_ok r /\ r_next r = r_start r) /\
      exists e, e ∈ map /\ inside e (r_start r) (r_end r - r_start r)) (omap region_of map)).
  { apply list.Forall_forall. intros r (e & He & Hr)%list_elem_of_omap. rewrite list.Forall_forall in Hes.
    destruct (region_of_ok e r (Hes e He) Hr) as (? & ? & ?). eauto. }
  split; rewrite ?Hua; try done; try (constructor; fail).
  - eapply Forall_impl; [|exact Hreg]. by intros r [[? ?] ?].
  - eapply Forall_impl; [|exact Hreg]. by intros r [[? ?] ?].
  - eapply (FOP_omap (fun x y => entry_ok x /\ entry_ok y /\ entries_apart x y)).
    + intros e f r s Hr Hs (He & Hf' & Hx). destruct (region_of_ok e r He Hr) as (_ & _ & He1 & ? & ?).
      destruct (region_of_ok f s Hf' Hs) as (_ & _ & Hf1 & ? & ?). destruct (Hx He1 Hf1); unfold regions_apart; lia.
    + revert Hap Hes. clear. induction 1 as [|x l Hx _ IH]; intros Hes; constructor; inversion Hes as [|? ? ? Hes']; subst; [|auto].
      rewrite list.Forall_forall in *. auto.
  - change (allocated_frames a) with (allocated_frames a1). rewrite Hf.
    enough (Hz : zsum taken (omap region_of map) = 0) by (rewrite Hz; done).
    clear -Hreg. induction Hreg as [|r l [[_ Hn] _] _ IH]; [done|]. rewrite zsum_cons, IH. unfold taken. lia.
Qed.

Lemma frame_reach_inv map a g : map_ok map -> frame_reach map a g -> frame_inv map a g.
Proof.
  intros Hmap. induction 1 as [st a Hb|q a a' g f _ IH Hq Hs|q a a' g _ IH Hq Hs].
  - eapply boot_inv; eauto.
  - pose proof (serve_run map a g q IH Hq) as Hr. rewrite Hs in Hr. apply Hr.
  - pose proof (serve_run map a g q IH Hq) as Hr. rewrite Hs in Hr. by destruct Hr as [-> _].
Qed.

(** * Theorems *)

(** Initialisation succeeds exactly when the memory map has between one and
    64 usable ranges that hold a whole page above 1 MiB, keeps those ranges in
    map order, and fails with [TooManyRegions] or [NoUsableRegions] otherwise;
    it never panics. *)
Theorem frame_initialize_spec (map : list MemoryMapEntry) (Hmap : map_ok map) :
  match frame_initialize map frame_allocator_new with
  | (Ok st, a) =>
      used a = omap region_of map /\ 1 <= len (omap region_of map) <= MAX_USABLE_REGIONS /\
      fs_usable_regions st = len (omap region_of map) /\ fs_allocated_frames st = 0
  | (Err TooManyRegions, _) => MAX_USABLE_REGIONS < len (omap region_of map)
  | (Err NoUsableRegions, _) => omap region_of map = []
  | _ => False
  end.
Proof.
  unfold frame_initialize. run. cbn [fa_initialized frame_allocator_new].
  assert (Hok : table_ok frame_allocator_new) by (split; [reflexivity|unfold MAX_USABLE_REGIONS; simpl; lia]).
  pose proof (add_entries_run map _ Hok) as Hadd.
  destruct (add_entries map frame_allocator_new) as [[[]|[]| |] a1]; try done.
  destruct Hadd as (Ht & Hu & Hf). change (used frame_allocator_new) with (@nil FrameRegion) in Hu. simpl app in Hu.
  pose proof (len_used a1 Ht) as Hl. rewrite Hu in Hl. pose proof Ht as [_ ?]. bdestruct_if.
  - destruct (omap region_of map); [done|]. rewrite len_cons in Hl. pose proof (len_nonneg l). lia.
  - split; [exact Hu|]. split; [pose proof (len_nonneg (omap region_of map)); lia|]. simpl. by rewrite Hf.
Qed.

(** A small memory map: low memory, two usable ranges with ragged ends and a reserved one. *)
Definition small_map : list MemoryMapEntry :=
  [mkEntry 0 0x9f000 Usable; mkEntry 0x100800 0x5000 Usable;
   mkEntry 0x106000 0x1000 Reserved; mkEntry 0x200000 0x3800 Usable].

Lemma small_map_ok : map_ok small_map.
Proof.
  split.
  - repeat constructor; unfold in_range; simpl; lia.
  - repeat (constructor; [repeat (constructor; [unfold entries_apart; simpl; intros; (discriminate || lia)|]); constructor|]).
    constructor.
Qed.

Lemma frame_initialize_spec_witness :
  map_ok small_map /\
  fst (frame_initialize small_map frame_allocator_new) = Ok (mkFrameStats 2 0xa7800 0x7000 0) /\
  match frame_initialize small_map frame_allocator_new with
  | (Ok st, a) =>
      used a = omap region_of small_map /\ 1 <= len (omap region_of small_map) <= MAX_USABLE_REGIONS /\
      fs_usable_regions st = len (omap region_of small_map) /\ fs_allocated_frames st = 0
  | (Err TooManyRegions, _) => MAX_USABLE_REGIONS < len (omap region_of small_map)
  | (Err NoUsableRegions, _) => omap region_of small_map = []
  | _ => False
  end.
Proof.
  split; [exact small_map_ok|]. split; [reflexivity|].
  exact (frame_initialize_spec small_map small_map_ok).
Defined.

(** C8: whatever the sequence of requests since boot, every range of frames
    granted starts on a page boundary, lies above 1 MiB and inside one usable
    entry of the memory map, no two granted ranges overlap, and the allocator's
    frame counter is exactly the number of frames granted. *)
Theorem frames_exclusive (map : list MemoryMapEntry) (a : FrameAllocator) (g : list (Z * Z))
    (Hmap : map_ok map) (Hreach : frame_reach map a g) :
  Forall (fun x => x.1 mod PAGE_SIZE = 0 /\ BOOTSTRAP_RESERVED_END <= x.1 /\
                   exists e, e ∈ map /\ inside e x.1 x.2) g /\
  ForallOrdPairs ranges_disjoint g /\
  allocated_frames a * PAGE_SIZE = zsum snd g.
Proof.
  pose proof (frame_reach_inv map a g Hmap Hreach) as [Ht Hi Hr Hm Ha Hg Hd Hc].
  split; [|split; [done|lia]]. eapply Forall_impl; [|exact Hg].
  intros x [Hal (r & Hin & Hx)]. rewrite list.Forall_forall in Hr, Hm. specialize (Hr r Hin).
  destruct (Hm r Hin) as (e & He & Hus & Hin1 & Hin2).
  unfold granted_in, region_ok in *. split; [done|]. split; [lia|].
  exists e. split; [done|]. unfold inside. split; [done|]. lia.
Qed.

Definition small_booted : FrameAllocator := snd (frame_initialize small_map frame_allocator_new).

Lemma frames_exclusive_witness :
  let a1 := snd (serve (Contiguous 3) small_booted) in
  let a2 := snd (serve OneFrame a1) in
  let a3 := snd (serve (Contiguous 2) a2) in
  let g := [(0x200000, 0x2000); (0x104000, 0x1000); (0x101000, 0x3000)] in
  Forall (fun x => x.1 mod PAGE_SIZE = 0 /\ BOOTSTRAP_RESERVED_END <= x.1 /\
                   exists e, e ∈ small_map /\ inside e x.1 x.2) g /\
  ForallOrdPairs ranges_disjoint g /\ allocated_frames a3 * PAGE_SIZE = zsum snd g.
Proof.
  intros a1 a2 a3 g. apply (frames_exclusive small_map a3 g small_map_ok).
  apply (fr_grant small_map (Contiguous 2) a2 a3 _ (mkFrame 0x200000)); [|by compute|reflexivity].
  apply (fr_grant small_map OneFrame a1 a2 _ (mkFrame 0x104000)); [|by compute|reflexivity].
  apply (fr_grant small_map (Contiguous 3) small_booted a1 [] (mkFrame 0x101000)); [|by compute|reflexivity].
  apply (fr_boot small_map (mkFrameStats 2 0xa7800 0x7000 0)). reflexivity.
Defined.


(** On every reachable allocator a request returns; it is refused, leaving
    the allocator as it was, exactly when it asks for no frame or when no region
    has that many frames left. *)
Theorem frame_request_refused_iff (map : list MemoryMapEntry) (a : FrameAllocator) (g : list (Z * Z))
    (q : frame_request) (Hmap : map_ok map) (Hreach : frame_reach map a g) (Hq : request_ok q) :
  if decide (frames_of q = 0 \/ Forall (fun r => ~ room_for q r) (used a))
  then serve q a = (Ok None, a)
  else exists f a', serve q a = (Ok (Some f), a').
Proof.
  pose proof (serve_run map a g q (frame_reach_inv map a g Hmap Hreach) Hq) as Hr.
  destruct (serve q a) as [[[f|]|e| |] a']; try done; destruct (decide _) as [Hd|Hd]; try done.
  - destruct Hr as (_ & Hpos & Hex). exfalso. destruct Hd as [Hd|Hd]; [lia|].
    apply Exists_exists in Hex as (r & Hin & Hroom). rewrite Forall_forall in Hd. by apply (Hd r).
  - eauto.
  - by destruct Hr as [-> _].
  - destruct Hr as [_ Hr]. by destruct Hd.
Qed.

Lemma frame_request_refused_iff_witness :
  let a1 := snd (serve (Contiguous 3) small_booted) in
  (if decide (frames_of (Contiguous 4) = 0 \/ Forall (fun r => ~ room_for (Contiguous 4) r) (used a1))
   then serve (Contiguous 4) a1 = (Ok None, a1)
   else exists f a', serve (Contiguous 4) a1 = (Ok (Some f), a')) /\
  serve (Contiguous 4) a1 = (Ok None, a1).
Proof.
  intros a1. split; [|reflexivity].
  apply (frame_request_refused_iff small_map a1 [(0x101000, 0x3000)] (Contiguous 4) small_map_ok); [|by compute].
  apply (fr_grant small_map (Contiguous 3) small_booted a1 [] (mkFrame 0x101000)); [|by compute|reflexivity].
  apply (fr_boot small_map (mkFrameStats 2 0xa7800 0x7000 0)). reflexivity.
Defined.
