(* ===== verification/Heap.v ===== *)
(** * Kernel heap: [kernel/src/mm/heap.rs]

    A bump allocator over 2048 contiguous frames: [alloc] rounds the cursor up to
    the alignment and moves it past the block, [dealloc] only counts, and the
    cursor returns to the start when the count reaches zero. [heap_initialize]
    takes the frames from the frame allocator, so it runs on both globals.

    The main theorem follows any sequence of calls that respects the contract of
    [GlobalAlloc], with alignments for which there is room above the heap: the blocks in use
    never overlap, although [dealloc] recycles the whole heap at once. *)
From stdpp Require Import base list numbers option.
From Stdlib Require Import ZArith Lia Bool.
From S2P Require Import Prelude Frame.

Definition HEAP_PAGES : Z := 2048.

Record BumpAllocator : Type := mkBump {
  b_start : Z; b_end : Z; b_next : Z; allocations : Z; b_initialized : bool }.
#[export] Instance eta_BumpAllocator : RecordEta BumpAllocator := fun b =>
  mkBump (b_start b) (b_end b) (b_next b) (allocations b) (b_initialized b).

Definition bump_new : BumpAllocator := mkBump 0 0 0 0 false.

Record HeapStats : Type := mkHeapStats { hs_start : Z; hs_size_bytes : Z; hs_used_bytes : Z; allocation_count : Z }.
Inductive HeapInitError : Type := HeapAlreadyInitialized | OutOfFrames.

(** [core::alloc::Layout] *)
Record Layout : Type := mkLayout { l_size : Z; l_align : Z }.

Definition heap_stats (b : BumpAllocator) : HeapStats :=
  mkHeapStats (b_start b) (sat_sub (b_end b) (b_start b)) (sat_sub (b_next b) (b_start b)) (allocations b).

Definition bump_initialize (start size : Z) : M BumpAllocator HeapInitError HeapStats :=
  let! init := gets b_initialized in
  if init then throw HeapAlreadyInitialized else
  if size =? 0 then throw OutOfFrames else
  do! modify (set_field b_start start) in
  do! modify (set_field b_end (sat_add U64 start size)) in
  do! modify (set_field b_next start) in
  do! modify (set_field allocations 0) in
  do! modify (set_field b_initialized true) in
  gets heap_stats.

Definition heap_align_up (value alignment : Z) : Z :=
  if alignment =? 0 then value
  else Z.land (sat_add U64 value (alignment - 1)) (bitnot U64 (alignment - 1)).

(** [GlobalAlloc::alloc]; [None] is the null pointer. *)
Definition alloc {E} (layout : Layout) : M BumpAllocator E (option Z) :=
  let! b := gets id in
  if negb (b_initialized b) then ret None else
  let alloc_start := heap_align_up (b_next b) (l_align layout) in
  let alloc_end := sat_add U64 alloc_start (l_size layout) in
  if b_end b <? alloc_end then ret None else
  do! modify (set_field b_next alloc_end) in
  do! modify (upd allocations (fun n => sat_add U64 n 1)) in
  ret (Some alloc_start).

(** [GlobalAlloc::dealloc]: neither argument is used. *)
Definition dealloc {E} (ptr : Z) (layout : Layout) : M BumpAllocator E unit :=
  let! b := gets id in
  if 0 <? allocations b then
    let! n := lift (sub (allocations b) 1) in
    do! modify (set_field allocations n) in
    if n =? 0 then modify (fun b => set_field b_next (b_start b) b) else ret tt
  else ret tt.

(** [heap::initialize]: the state is the frame allocator and the heap. *)
Definition heap_initialize (hhdm_offset : Z) : M (FrameAllocator * BumpAllocator) HeapInitError HeapStats :=
  let! f := zoom fst (fun t s => (t, snd s)) (allocate_contiguous HEAP_PAGES) in
  let! heap_frame := lift (ok_or OutOfFrames f) in
  let heap_start := sat_add U64 hhdm_offset (start_address heap_frame) in
  let! heap_size := lift (mul U64 HEAP_PAGES PAGE_SIZE) in
  zoom snd (fun t s => (fst s, t)) (bump_initialize heap_start heap_size).

(** * Facts *)

(** What [Layout] guarantees (a power-of-two alignment) and the [GlobalAlloc]
    contract requires (a non-zero size); [align_limit] bounds the alignment. *)
Definition layout_ok (align_limit : Z) (l : Layout) : Prop :=
  0 < l_size l < SLICE_LIMIT /\ exists k, 0 <= k < 64 /\ l_align l = 2 ^ k /\ 2 ^ k <= align_limit.

(** A heap ready for use; its last [align_limit] bytes of address space above
    the end are what the rounding may need. *)
Definition heap_ok (align_limit : Z) (b : BumpAllocator) : Prop :=
  b_initialized b = true /\ 0 <= b_start b <= b_next b /\ b_next b <= b_end b /\
  b_end b + align_limit < U64 /\ 0 <= allocations b <= b_next b - b_start b.

Lemma heap_align_up_spec limit v l :
  layout_ok limit l -> 0 <= v -> v + limit <= U64 ->
  v <= heap_align_up v (l_align l) /\ heap_align_up v (l_align l) mod l_align l = 0 /\
  heap_align_up v (l_align l) < U64.
Proof.
  intros (_ & k & Hk & -> & Hlim) Hv Hb. assert (0 < 2 ^ k) by (apply Z.pow_pos_nonneg; lia).
  unfold heap_align_up. rewrite (proj2 (Z.eqb_neq _ 0)) by lia.
  pose proof (align_up_pow2 v k 64 ltac:(lia) ltac:(change (2 ^ 64) with U64; lia)) as Hu.
  cbv zeta in Hu. change (2 ^ 64) with U64 in Hu. destruct Hu as (? & ? & Hu & _). specialize (Hu ltac:(lia)).
  split; [lia|]. split; [done|]. lia.
Qed.

Lemma alloc_run E limit l b :
  heap_ok limit b -> layout_ok limit l ->
  match alloc (E:=E) l b with
  | (Ok None, b') => b' = b /\ b_end b < heap_align_up (b_next b) (l_align l) + l_size l
  | (Ok (Some p), b') =>
      heap_ok limit b' /\ p mod l_align l = 0 /\ b_next b <= p /\ p + l_size l = b_next b' /\
      b_start b' = b_start b /\ b_end b' = b_end b /\ allocations b' = allocations b + 1
  | _ => False
  end.
Proof.
  intros (Hi & Hs & Hn & He & Hc) Hl.
  destruct (heap_align_up_spec limit (b_next b) l Hl ltac:(lia) ltac:(lia)) as (Hup & Hal & Hlt).
  unfold alloc. run. unfold id. rewrite Hi. cbn [negb].
  set (p := heap_align_up (b_next b) (l_align l)) in *. destruct Hl as (Hsz & k & Hk & Ha & Hlim).
  assert (0 < 2 ^ k) by (apply Z.pow_pos_nonneg; lia).
  bdestruct_if; [split; [done|]; unfold sat_add in *; lia|].
  unfold heap_ok. simpl. unfold sat_add in *. repeat split; try done; lia.
Qed.

(** A request that fits behind the cursor, rounding included, is granted. *)
Lemma alloc_fits E limit l b :
  heap_ok limit b -> layout_ok limit l -> b_next b + l_align l + l_size l <= b_end b ->
  exists p b', alloc (E:=E) l b = (Ok (Some p), b') /\ heap_ok limit b' /\ b_next b' <= b_next b + l_align l + l_size l /\
    b_start b' = b_start b /\ b_end b' = b_end b /\ allocations b' = allocations b + 1.
Proof.
  intros Hok Hl Hfit. pose proof (alloc_run E limit l b Hok Hl) as Hrun. destruct Hok as (Hi & Hs & Hn & He & Hc). pose proof Hl as (Hsz & k & Hk & Ha & Hlim).
  assert (Hup : heap_align_up (b_next b) (l_align l) < b_next b + l_align l).
  { unfold heap_align_up. assert (0 < 2 ^ k) by (apply Z.pow_pos_nonneg; lia). rewrite Ha, (proj2 (Z.eqb_neq _ 0)) by lia.
    pose proof (align_up_pow2 (b_next b) k 64 ltac:(lia) ltac:(change (2 ^ 64) with U64; lia)) as Hu. cbv zeta in Hu. change (2 ^ 64) with U64 in Hu.
    destruct Hu as (_ & _ & Hu & _). specialize (Hu ltac:(lia)). lia. }
  unfold alloc in *. revert Hrun. run. unfold id. rewrite Hi. cbn [negb]. bdestruct_if; [intros [_ Hx]; unfold sat_add in *; lia|].
  intros (Hok' & _ & _ & Hp & Hst & Hen & Hal). eexists _, _. split; [reflexivity|]. split; [exact Hok'|]. split; [rewrite <- Hp; lia|]. done.
Qed.

(** ** Sequences of calls *)

(** A block in use: its address and layout. *)
Definition block_range (x : Z * Layout) : Z * Z := (x.1, l_size x.2).

(** [heap_reach limit b0 b live]: from [b0], calls that respect the contract of
    [GlobalAlloc] (a block is released at most once, with what it was allocated
    with) lead to [b] with the blocks [live] in use. *)
Inductive heap_reach (limit : Z) (b0 : BumpAllocator) : BumpAllocator -> list (Z * Layout) -> Prop :=
| hr_start : heap_reach limit b0 b0 []
| hr_alloc b b' live l p :
    heap_reach limit b0 b live -> layout_ok limit l ->
    alloc (E:=HeapInitError) l b = (Ok (Some p), b') -> heap_reach limit b0 b' ((p, l) :: live)
| hr_null b b' live l :
    heap_reach limit b0 b live -> layout_ok limit l ->
    alloc (E:=HeapInitError) l b = (Ok None, b') -> heap_reach limit b0 b' live
| hr_dealloc b b' l1 l2 p l :
    heap_reach limit b0 b (l1 ++ (p, l) :: l2) ->
    dealloc (E:=HeapInitError) p l b = (Ok tt, b') -> heap_reach limit b0 b' (l1 ++ l2).

Record heap_inv (limit : Z) (b0 b : BumpAllocator) (live : list (Z * Layout)) : Prop := {
  hi_ok : heap_ok limit b;
  hi_bounds : b_start b = b_start b0 /\ b_end b = b_end b0;
  hi_count : allocations b = len live;
  hi_live : Forall (fun x => b_start b <= x.1 /\ x.1 + l_size x.2 <= b_next b /\ x.1 mod l_align x.2 = 0) live;
  hi_disjoint : ForallOrdPairs (fun x y => ranges_disjoint (block_range x) (block_range y)) live }.

Lemma FOP_remove {A} (R : A -> A -> Prop) l1 x l2 :
  ForallOrdPairs R (l1 ++ x :: l2) -> ForallOrdPairs R (l1 ++ l2).
Proof.
  induction l1 as [|y l1 IH]; simpl; inversion 1 as [|? ? Hy Htl]; subst; [done|].
  constructor; [|auto]. apply Forall_app in Hy as [? [_ ?]%Forall_cons_iff]. by apply Forall_app.
Qed.

Lemma alloc_inv limit b0 b b' live l p :
  heap_inv limit b0 b live -> layout_ok limit l ->
  alloc (E:=HeapInitError) l b = (Ok (Some p), b') -> heap_inv limit b0 b' ((p, l) :: live).
Proof.
  intros [Hok [Hb1 Hb2] Hc Hl Hd] Hlay Ha. pose proof (alloc_run HeapInitError limit l b Hok Hlay) as Hr.
  rewrite Ha in Hr. destruct Hr as (Hok' & Hal & Hp & Hend & Hs & He & Hn). destruct Hlay as [Hsz _].
  split; [done|lia|rewrite len_cons; lia| |].
  - constructor; [simpl; unfold heap_ok in *; lia|].
    eapply Forall_impl; [|exact Hl]. simpl. intros x Hx. lia.
  - constructor; [|done]. eapply Forall_impl; [|exact Hl]. simpl. intros x Hx.
    unfold ranges_disjoint, block_range. simpl. lia.
Qed.

Lemma dealloc_inv limit b0 b l1 l2 p l :
  heap_inv limit b0 b (l1 ++ (p, l) :: l2) ->
  exists b', dealloc (E:=HeapInitError) p l b = (Ok tt, b') /\ heap_inv limit b0 b' (l1 ++ l2).
Proof.
  intros [Hok [Hb1 Hb2] Hc Hl Hd]. apply FOP_remove in Hd.
  apply Forall_app in Hl as [Hf1 [_ Hf2]%Forall_cons_iff].
  rewrite len_app, len_cons in Hc. pose proof (len_nonneg l1). pose proof (len_nonneg l2).
  unfold dealloc. run. unfold id. rewrite (proj2 (Z.ltb_lt 0 _)) by lia.
  unfold sub, chk_sub. rewrite (proj2 (Z.leb_le 1 _)) by lia. simpl.
  bdestruct_if; eexists; (split; [reflexivity|]).
  - assert (l1 = [] /\ l2 = []) as [-> ->] by (destruct l1, l2; try done; len_solve).
    unfold heap_ok in Hok. split; [unfold heap_ok; simpl; repeat split; try tauto; lia|simpl; lia|done|constructor|constructor].
  - unfold heap_ok in Hok. split; [unfold heap_ok; simpl; repeat split; try tauto; lia|done|rewrite len_app; simpl; lia| |done].
    by apply Forall_app.
Qed.

Lemma heap_reach_inv limit b0 b live :
  heap_ok limit b0 -> allocations b0 = 0 -> heap_reach limit b0 b live -> heap_inv limit b0 b live.
Proof.
  intros Hok H0. induction 1 as [|b b' live l p _ IH Hl Ha|b b' live l _ IH Hl Ha|b b' l1 l2 p l _ IH Hd].
  - split; [done|done|done|constructor|constructor].
  - by eapply alloc_inv.
  - pose proof (alloc_run HeapInitError limit l b (hi_ok _ _ _ _ IH) Hl) as Hr. rewrite Ha in Hr. by destruct Hr as [-> _].
  - destruct (dealloc_inv limit b0 b l1 l2 p l IH) as (b'' & Hd' & Hi). rewrite Hd in Hd'. by injection Hd' as <-.
Qed.

(** * Theorems *)

(** C9: take an initialised heap with no block in use and more than [limit] bytes of address
    space above its end, and calls within the contract of [GlobalAlloc] whose alignments are
    at most [limit] ([layout_ok]: a size that is not zero, a power of two) and which free
    only blocks in use. After any such sequence the blocks in use are aligned, inside the
    heap and pairwise disjoint; in particular the reset in [dealloc] never recycles a
    block that is still in use. The counter of allocations is their number. Without the
    room above its end a block can lie outside the heap: [alloc_huge_align_escapes]. *)
Theorem heap_blocks_exclusive (limit : Z) (b0 b : BumpAllocator) (live : list (Z * Layout))
    (Hok : heap_ok limit b0) (Hempty : allocations b0 = 0) (Hreach : heap_reach limit b0 b live) :
  Forall (fun x => x.1 mod l_align x.2 = 0 /\ b_start b0 <= x.1 /\ x.1 + l_size x.2 <= b_end b0) live /\
  ForallOrdPairs (fun x y => ranges_disjoint (block_range x) (block_range y)) live /\
  allocations b = len live.
Proof.
  destruct (heap_reach_inv limit b0 b live Hok Hempty Hreach) as [Hb [Hb1 Hb2] Hc Hl Hd].
  split; [|done]. eapply Forall_impl; [|exact Hl]. simpl. intros x Hx. unfold heap_ok in Hb. lia.
Qed.

(** A heap of the size the kernel gives it, in the higher half. *)
Definition kernel_heap : BumpAllocator :=
  snd (bump_initialize 0xffff800000101000 (HEAP_PAGES * PAGE_SIZE) bump_new).
Definition page_limit : Z := 4096.

Lemma kernel_heap_ok : heap_ok page_limit kernel_heap.
Proof. unfold heap_ok, page_limit. vm_compute. repeat split; discriminate. Qed.

Lemma small_layout_ok n k : 0 < n < 1000 -> 0 <= k <= 12 -> layout_ok page_limit (mkLayout n (2 ^ k)).
Proof.
  intros Hn Hk. split; [simpl; lia|]. exists k. simpl. split; [lia|]. split; [done|].
  unfold page_limit. change 4096 with (2 ^ 12). apply Z.pow_le_mono_r; lia.
Qed.

Lemma heap_blocks_exclusive_witness :
  let b1 := snd (alloc (E:=HeapInitError) (mkLayout 24 (2 ^ 3)) kernel_heap) in
  let b2 := snd (alloc (E:=HeapInitError) (mkLayout 100 (2 ^ 6)) b1) in
  let b3 := snd (dealloc (E:=HeapInitError) 0xffff800000101000 (mkLayout 24 (2 ^ 3)) b2) in
  let live := [(0xffff800000101040, mkLayout 100 (2 ^ 6))] in
  Forall (fun x => x.1 mod l_align x.2 = 0 /\ b_start kernel_heap <= x.1 /\
                   x.1 + l_size x.2 <= b_end kernel_heap) live /\
  ForallOrdPairs (fun x y => ranges_disjoint (block_range x) (block_range y)) live /\
  allocations b3 = len live.
Proof.
  intros b1 b2 b3 live.
  apply (heap_blocks_exclusive page_limit kernel_heap b3 live kernel_heap_ok eq_refl).
  apply (hr_dealloc page_limit kernel_heap b2 b3 live [] 0xffff800000101000 (mkLayout 24 (2 ^ 3))); [|reflexivity].
  apply (hr_alloc page_limit kernel_heap b1 b2 _ _ 0xffff800000101040); [|by apply small_layout_ok|reflexivity].
  apply (hr_alloc page_limit kernel_heap kernel_heap b1 _ _ 0xffff800000101000);
    [constructor|by apply small_layout_ok|reflexivity].
Defined.

(** [heap::initialize] on a frame allocator reached from boot either fails
    with [OutOfFrames] because no region has 2048 frames left, or sets up a heap
    of 8 MiB at the direct-map address of frames that no one else was granted;
    with a higher-half offset the heap is then ready for allocations up to any
    alignment that fits above it. *)
Theorem heap_initialize_spec (map : list MemoryMapEntry) (a : FrameAllocator) (g : list (Z * Z))
    (hhdm limit : Z) (Hmap : map_ok map) (Hreach : frame_reach map a g) (Hlimit : 0 < limit)
    (Hhhdm : 0 <= hhdm)
    (Hfits : Forall (fun e => hhdm + e_base e + e_length e + limit < U64) map) :
  match heap_initialize hhdm (a, bump_new) with
  | (Ok st, (a', b)) => exists f,
      frame_reach map a' ((f, HEAP_PAGES * PAGE_SIZE) :: g) /\
      b_start b = hhdm + f /\ b_end b = hhdm + f + HEAP_PAGES * PAGE_SIZE /\
      heap_ok limit b /\ b_next b = b_start b /\ allocations b = 0 /\ hs_size_bytes st = HEAP_PAGES * PAGE_SIZE
  | (Err OutOfFrames, (a', b)) =>
      a' = a /\ b = bump_new /\ Forall (fun r => ~ room_for (Contiguous HEAP_PAGES) r) (used a)
  | _ => False
  end.
Proof.
  pose proof (frame_reach_inv map a g Hmap Hreach) as Hinv.
  assert (Hq : request_ok (Contiguous HEAP_PAGES)) by (unfold request_ok, in_range; simpl; unfold HEAP_PAGES; lia).
  pose proof (serve_run map a g (Contiguous HEAP_PAGES) Hinv Hq) as Hs.
  assert (Hsame : allocate_contiguous (E:=HeapInitError) HEAP_PAGES a =
    match serve (Contiguous HEAP_PAGES) a with (Ok x, s) => (Ok x, s) | (_, s) => (Panic, s) end).
  { simpl. unfold allocate_contiguous, take_frames. run. destruct (negb (fa_initialized a) || (HEAP_PAGES =? 0)); [done|].
    unfold slice. destruct ((0 <=? 0) && _ && _); [|done]. by destruct (first_fit _ _) as [[? ?]|]. }
  unfold heap_initialize. unfold zoom at 1. unfold bind at 1. cbn [fst snd]. rewrite Hsame.
  destruct (serve (Contiguous HEAP_PAGES) a) as [[[f|]|e| |] a'] eqn:Hserve; try done.
  - destruct Hs as (Hinv' & _ & _).
    pose proof (fi_grants _ _ _ Hinv') as [[_ (r & Hin & Hgr)] _]%Forall_cons_iff.
    pose proof (fi_map _ _ _ Hinv') as Hm. rewrite list.Forall_forall in Hm. destruct (Hm r Hin) as (e & He & _ & He1 & He2).
    pose proof (fi_regions _ _ _ Hinv') as Hr. rewrite list.Forall_forall in Hr. specialize (Hr r Hin).
    rewrite list.Forall_forall in Hfits. specialize (Hfits e He).
    unfold granted_in, region_ok in *. cbn [fst snd frames_of] in Hgr.
    run. cbn [b_initialized bump_new]. exists (start_address f).
    split; [by eapply (fr_grant map (Contiguous HEAP_PAGES))|].
    unfold heap_ok, HEAP_PAGES, PAGE_SIZE, BOOTSTRAP_RESERVED_END in *. simpl. unfold sat_add, sat_sub. repeat split; try done; lia.
  - destruct Hs as [-> [Hz|Hno]]; [done|]. run. by simpl.
Qed.

(** One usable range of 16 MiB. *)
Definition heap_map : list MemoryMapEntry := [mkEntry 0x100000 0x1000000 Usable].

Lemma heap_initialize_spec_witness :
  let a := snd (frame_initialize heap_map frame_allocator_new) in
  let hhdm := 0xffff800000000000 in
  fst (heap_initialize hhdm (a, bump_new)) = Ok (mkHeapStats 0xffff800000100000 0x800000 0 0) /\
  match heap_initialize hhdm (a, bump_new) with
  | (Ok st, (a', b)) => exists f,
      frame_reach heap_map a' ((f, HEAP_PAGES * PAGE_SIZE) :: []) /\
      b_start b = hhdm + f /\ b_end b = hhdm + f + HEAP_PAGES * PAGE_SIZE /\
      heap_ok page_limit b /\ b_next b = b_start b /\ allocations b = 0 /\ hs_size_bytes st = HEAP_PAGES * PAGE_SIZE
  | (Err OutOfFrames, (a', b)) =>
      a' = a /\ b = bump_new /\ Forall (fun r => ~ room_for (Contiguous HEAP_PAGES) r) (used a)
  | _ => False
  end.
Proof.
  intros a hhdm. split; [reflexivity|]. apply (heap_initialize_spec heap_map a [] hhdm page_limit).
  - split; repeat constructor; unfold in_range; simpl; lia.
  - apply (fr_boot heap_map (mkFrameStats 1 0x1000000 0x1000000 0)). reflexivity.
  - reflexivity.
  - discriminate.
  - repeat constructor.
Defined.

(** The saturating addition of [align_up] breaks [alloc] for alignments
    larger than the address space left above the heap: on the kernel's own heap a
    request of one byte aligned to [2^62] is granted at an address far below the
    heap, and the cursor moves there. *)
Theorem alloc_huge_align_escapes :
  let '(r, b) := alloc (E:=HeapInitError) (mkLayout 1 (2 ^ 62)) kernel_heap in
  r = Ok (Some 0xc000000000000000) /\ 0xc000000000000000 < b_start kernel_heap /\ b_next b < b_start b.
Proof. vm_compute. repeat split; reflexivity. Qed.
