(* ===== verification/Vmm.v ===== *)
(** * Virtual memory: [kernel/src/mm/vmm.rs]

    Two parts: the table of native regions of each process, with the search for
    a free address range, and the demand mapping of a page on a fault, which
    walks the four levels of page tables and creates those that are missing.

    Physical memory is a finite map from the addresses of 8-byte words, as seen
    through the direct map, to their contents. The page tables are specified by
    [walk], the translation a processor performs. *)
From stdpp Require Import base list numbers option gmap.
From Stdlib Require Import ZArith Lia Bool.
From S2P Require Import Prelude Frame.

Definition MAX_PROCESSES : Z := 64.
Definition MAX_REGIONS_PER_PROCESS : Z := 128.
Definition HHDM_BASE : Z := 0xFFFF800000000000.

Record NativeRegion : Type := mkNative { n_start : Z; n_end : Z; n_flags : Z; n_used : bool }.
#[export] Instance eta_NativeRegion : RecordEta NativeRegion := fun r =>
  mkNative (n_start r) (n_end r) (n_flags r) (n_used r).

Record ProcessVmm : Type := mkProcessVmm { process_id : Z; pv_active : bool; pv_regions : list NativeRegion }.
#[export] Instance eta_ProcessVmm : RecordEta ProcessVmm := fun p =>
  mkProcessVmm (process_id p) (pv_active p) (pv_regions p).

Definition vmm_table_new : list ProcessVmm :=
  replicate (Z.to_nat MAX_PROCESSES)
    (mkProcessVmm 0 false (replicate (Z.to_nat MAX_REGIONS_PER_PROCESS) (mkNative 0 0 0 false))).

(** The state a fault touches: the region table, the frame allocator and memory. *)
Record vmm : Type := mkVmm { v_table : list ProcessVmm; v_frames : FrameAllocator; v_mem : gmap Z Z }.
#[export] Instance eta_vmm : RecordEta vmm := fun s => mkVmm (v_table s) (v_frames s) (v_mem s).

(** ** The region table *)

(** [get_process_vmm]: the index of the process's slot, claimed if it had none. *)
Definition get_process_vmm {E} (pid : Z) : M vmm E nat :=
  let! table := gets v_table in
  match position (fun p => pv_active p && (process_id p =? pid)) table with
  | Some i => ret i
  | None =>
      match position (fun p => negb (pv_active p)) table with
      | Some i =>
          do! modify (upd v_table (alter (fun p =>
            mkProcessVmm pid true (set_field n_used false <$> pv_regions p)) i)) in
          ret i
      | None => panic
      end
  end.

(** [&mut table[i].regions] *)
Definition regions_of {E} (i : nat) : M vmm E (list NativeRegion) :=
  let! table := gets v_table in
  lift (unwrap (pv_regions <$> table !! i)).

(** The region the scan of the search loop stops at. *)
Fixpoint first_overlap {E} (try_addr aligned_len : Z) (rs : list NativeRegion) : outcome E (option NativeRegion) :=
  match rs with
  | [] => Ok None
  | r :: rs' =>
      if n_used r then
        let? e := add U64 try_addr aligned_len in
        if (n_start r <? e) && (try_addr <? n_end r) then Ok (Some r)
        else first_overlap try_addr aligned_len rs'
      else first_overlap try_addr aligned_len rs'
  end.

Definition search_step (aligned_len : Z) (rs : list NativeRegion) (try_addr : Z) : M vmm Empty_set (Z + Z) :=
  let! hit := lift (first_overlap try_addr aligned_len rs) in
  match hit with
  | Some r => ret (inl (n_end r))
  | None => ret (inr try_addr)
  end.

(** Each failing scan moves past the end of another region: one more scan than
    there are regions is enough. *)
Definition search_fuel : nat := Z.to_nat (MAX_REGIONS_PER_PROCESS + 2).

Definition MMAP_BASE : Z := 0x400000000000.
Definition ENOMEM_RESULT : Z := -12.

(** [pid] is [sched::current_process_id()]. *)
Definition map_native_region (pid addr length flags : Z) : M vmm Empty_set Z :=
  let! i := get_process_vmm pid in
  let! padded := lift (add U64 length 4095) in
  let aligned_len := Z.land padded (bitnot U64 4095) in
  let! rs := regions_of i in
  let! map_addr :=
    if addr =? 0 then loop search_fuel (search_step aligned_len rs) MMAP_BASE
    else ret (Z.land addr (bitnot U64 4095)) in
  match position (fun r => negb (n_used r)) rs with
  | Some j =>
      let! e := lift (add U64 map_addr aligned_len) in
      do! modify (upd v_table (alter (upd pv_regions (fun l =>
        <[j := mkNative map_addr e flags true]> l)) i)) in
      ret (if map_addr <? SLICE_LIMIT then map_addr else map_addr - U64)
  | None => ret ENOMEM_RESULT
  end.

(** ** Page tables *)
Definition phys_to_virt {E} (addr : Z) : outcome E Z := add U64 addr HHDM_BASE.

Definition load (m : gmap Z Z) (va : Z) : Z := default 0 (m !! va).

(** [&mut *(phys_to_virt(table) as *mut u64).offset(i)] *)
Definition entry_ptr {E} (table i : Z) : outcome E Z :=
  let? va := phys_to_virt table in Ok (va + 8 * i).

(** [write_bytes(va, 0, 4096)] *)
Definition zero_bytes (va : Z) (m : gmap Z Z) : gmap Z Z :=
  foldr (fun i m => <[va + 8 * i := 0]> m) m (seqZ 0 512).

(** [if *entry & 1 == 0 { allocate, clear, link } ]: one level of [map_page];
    [false] when there is no frame. *)
Definition ensure_present {E} (slot flags : Z) : M vmm E bool :=
  let! m := gets v_mem in
  if Z.land (load m slot) 1 =? 0 then
    let! f := zoom v_frames (fun t s => set_field v_frames t s) allocate in
    match f with
    | Some frame =>
        let addr := start_address frame in
        let! va := lift (phys_to_virt addr) in
        do! modify (upd v_mem (zero_bytes va)) in
        do! modify (upd v_mem <[slot := Z.lor addr flags]>) in
        ret true
    | None => ret false
    end
  else ret true.

Definition TABLE_FLAGS : Z := 7.
Definition page_of (e : Z) : Z := Z.land e (bitnot U64 0xFFF).

(** [cr3] is the register the code reads. *)
Definition map_page {E} (cr3 vaddr flags : Z) : M vmm E bool :=
  let pml4 := Z.land cr3 (bitnot U64 0xFFF) in
  let pml4_idx := Z.land (Z.shiftr vaddr 39) 0x1FF in
  let pdpt_idx := Z.land (Z.shiftr vaddr 30) 0x1FF in
  let pd_idx := Z.land (Z.shiftr vaddr 21) 0x1FF in
  let pt_idx := Z.land (Z.shiftr vaddr 12) 0x1FF in
  let! pml4_entry := lift (entry_ptr pml4 pml4_idx) in
  let! ok := ensure_present pml4_entry TABLE_FLAGS in
  if negb ok then ret false else
  let! m := gets v_mem in
  let pdpt := page_of (load m pml4_entry) in
  let! pdpt_entry := lift (entry_ptr pdpt pdpt_idx) in
  let! ok := ensure_present pdpt_entry TABLE_FLAGS in
  if negb ok then ret false else
  let! m := gets v_mem in
  let pd := page_of (load m pdpt_entry) in
  let! pd_entry := lift (entry_ptr pd pd_idx) in
  let! ok := ensure_present pd_entry TABLE_FLAGS in
  if negb ok then ret false else
  let! m := gets v_mem in
  let pt := page_of (load m pd_entry) in
  let! pt_entry := lift (entry_ptr pt pt_idx) in
  let! ok := ensure_present pt_entry flags in
  if negb ok then ret false else
  ret true.

Definition handle_page_fault {E} (pid cr3 cr2 error_code : Z) : M vmm E bool :=
  let! i := get_process_vmm pid in
  let! rs := regions_of i in
  match position (fun r => n_used r && (n_start r <=? cr2) && (cr2 <? n_end r)) rs with
  | Some j =>
      let! r := lift (unwrap (rs !! j)) in
      map_page cr3 cr2 (n_flags r)
  | None => ret false
  end.

(** * Facts: the region table *)
Definition slot_of (pid : Z) (p : ProcessVmm) : Prop := pv_active p = true /\ process_id p = pid.

(** The shape of the table, and at most one slot per process. *)
Definition vt_ok (t : list ProcessVmm) : Prop :=
  len t = MAX_PROCESSES /\ Forall (fun p => len (pv_regions p) = MAX_REGIONS_PER_PROCESS) t /\
  forall pid i j p q, t !! i = Some p -> t !! j = Some q -> slot_of pid p -> slot_of pid q -> i = j.

Lemma vt_new_ok : vt_ok vmm_table_new.
Proof.
  split; [reflexivity|]. split; [apply Forall_replicate; reflexivity|].
  intros pid i j p q Hp _ [Ha _]. apply lookup_replicate in Hp as [-> _]. done.
Qed.

(** What [get_process_vmm] leaves in the table [t'] at slot [i]. *)
Definition slot_ready (pid : Z) (t t' : list ProcessVmm) (i : nat) : Prop :=
  vt_ok t' /\ exists p, t' !! i = Some p /\ slot_of pid p /\ (forall j, j <> i -> t' !! j = t !! j) /\
  (t !! i = Some p \/
   Forall (fun q => ~ slot_of pid q) t /\ Forall (fun r => n_used r = false) (pv_regions p)).

Lemma claim_slot pid t i p :
  vt_ok t -> Forall (fun q => ~ slot_of pid q) t -> t !! i = Some p -> pv_active p = false ->
  slot_ready pid t (alter (fun p => mkProcessVmm pid true (set_field n_used false <$> pv_regions p)) i t) i.
Proof.
  intros (Hl & Hr & Hu) Hnone Hi Hact. set (f := fun p => mkProcessVmm _ _ _).
  assert (Hnew : forall j q, alter f i t !! j = Some q -> (j = i /\ q = f p) \/ (j <> i /\ t !! j = Some q)).
  { intros j q. destruct (decide (j = i)) as [->|Hne].
    - rewrite list_lookup_alter_eq, Hi. intros [= <-]. auto.
    - rewrite list_lookup_alter_ne by done. auto. }
  rewrite list.Forall_forall in Hnone. split; [split; [|split]|].
  - unfold len in *. by rewrite length_alter.
  - apply Forall_lookup. intros j q Hq. rewrite Forall_lookup in Hr. destruct (Hnew j q Hq) as [[-> ->]|[_ Hq']].
    + unfold f, len. simpl. rewrite length_fmap. by apply (Hr i p).
    + eauto.
  - intros pid' j k q q' Hj Hk Hq Hq'. destruct (Hnew j q Hj) as [[-> ->]|[Hne Hj']], (Hnew k q' Hk) as [[-> ->]|[Hne' Hk']]; auto.
    + destruct Hq as [_ Hq]. simpl in Hq. subst pid'. destruct (Hnone q'); [by eapply list_elem_of_lookup_2|done].
    + destruct Hq' as [_ Hq']. simpl in Hq'. subst pid'. destruct (Hnone q); [by eapply list_elem_of_lookup_2|done].
    + eauto.
  - exists (f p). rewrite list_lookup_alter_eq, Hi. split; [done|]. split; [by split|].
    split; [intros j Hj; by rewrite list_lookup_alter_ne|]. right. split; [by apply list.Forall_forall|].
    unfold f. simpl. apply Forall_fmap. by apply list.Forall_forall.
Qed.

Lemma get_process_vmm_run E pid s :
  vt_ok (v_table s) ->
  match get_process_vmm (E:=E) pid s with
  | (Ok i, s') => slot_ready pid (v_table s) (v_table s') i /\ v_frames s' = v_frames s /\ v_mem s' = v_mem s
  | (Panic, s') => s' = s /\ Forall (fun p => pv_active p = true /\ process_id p <> pid) (v_table s)
  | _ => False
  end.
Proof.
  intros Hok. unfold get_process_vmm. run.
  destruct (position (fun p => pv_active p && (process_id p =? pid)) (v_table s)) as [i|] eqn:Hpos.
  { apply position_Some in Hpos as [(p & Hi & Hp) _]. bool_prop. split; [|done]. split; [done|].
    exists p. split; [done|]. split; [done|]. split; [done|]. by left. }
  apply position_None in Hpos.
  assert (Hnone : Forall (fun q => ~ slot_of pid q) (v_table s)).
  { eapply Forall_impl; [exact Hpos|]. simpl. intros q Hq [Ha Hb]. rewrite Ha, Hb, Z.eqb_refl in Hq. done. }
  destruct (position (fun p => negb (pv_active p)) (v_table s)) as [i|] eqn:Hfree.
  { apply position_Some in Hfree as [(p & Hi & Hp) _]. bool_prop. split; [|done]. simpl.
    by apply (claim_slot pid (v_table s) i p). }
  split; [done|]. apply position_None in Hfree. rewrite !list.Forall_forall in *. intros q Hq.
  specialize (Hfree q Hq). simpl in Hfree. bool_prop. split; [done|]. intros Hid. by apply (Hnone q Hq).
Qed.

(** ** The address search *)
Definition overlap_free (a n : Z) (r : NativeRegion) : Prop := n_used r = true -> a + n <= n_start r \/ n_end r <= a.

(** Used regions are page aligned, end below [bound] and do not overlap. *)
Definition regions_ok (bound : Z) (rs : list NativeRegion) : Prop :=
  Forall (fun r => n_used r = true ->
    0 <= n_start r <= n_end r /\ n_end r <= bound /\ n_start r mod 4096 = 0 /\ n_end r mod 4096 = 0) rs /\
  forall i j r s, i <> j -> rs !! i = Some r -> rs !! j = Some s -> n_used r = true -> n_used s = true ->
    n_end r <= n_start s \/ n_end s <= n_start r.

Lemma first_overlap_run E a n rs :
  a + n < U64 ->
  match first_overlap (E:=E) a n rs with
  | Ok (Some r) => r ∈ rs /\ n_used r = true /\ a < n_end r
  | Ok None => Forall (overlap_free a n) rs
  | _ => False
  end.
Proof.
  intros Hn. induction rs as [|r rs IH]; simpl; [constructor|].
  assert (Hrest : overlap_free a n r ->
    match first_overlap (E:=E) a n rs with
    | Ok (Some r0) => r0 ∈ r :: rs /\ n_used r0 = true /\ a < n_end r0
    | Ok None => Forall (overlap_free a n) (r :: rs)
    | _ => False
    end).
  { intros Hfree. destruct (first_overlap a n rs) as [[r0|]| | |]; try done.
    - destruct IH as (Hin & ? & ?). rewrite elem_of_cons. auto.
    - by apply Forall_cons_iff. }
  destruct (n_used r) eqn:Hu; [|apply Hrest; intros Hc; congruence].
  unfold add, chk_add. rewrite (proj2 (Z.ltb_lt _ _)) by lia. simpl.
  destruct ((n_start r <? a + n) && (a <? n_end r)) eqn:Hb.
  - bool_prop. rewrite elem_of_cons. auto.
  - apply Hrest. intros _. apply andb_false_iff in Hb as [Hb|Hb]; bool_prop; lia.
Qed.

(** The regions still ahead of an address: every failing scan lowers their number. *)
Definition ahead (rs : list NativeRegion) (a : Z) : nat := length (filter (fun r => n_used r = true /\ a < n_end r) rs).

Lemma ahead_decreases rs a r : r ∈ rs -> n_used r = true -> a < n_end r -> (ahead rs (n_end r) < ahead rs a)%nat.
Proof.
  intros Hin Hu Ha. unfold ahead.
  assert (Hle : forall l : list NativeRegion,
    (length (filter (fun x => n_used x = true /\ (n_end r < n_end x)%Z) l) <=
     length (filter (fun x => n_used x = true /\ (a < n_end x)%Z) l))%nat).
  { induction l as [|x l IH]; [done|]. rewrite !filter_cons.
    repeat case_decide; simpl; try lia. exfalso. destruct_and!. intuition lia. }
  apply list_elem_of_split in Hin as (l1 & l2 & ->). rewrite !filter_app, !length_app, !filter_cons.
  pose proof (Hle l1). pose proof (Hle l2).
  rewrite decide_False by lia. rewrite decide_True by done. simpl. lia.
Qed.

Lemma search_run bound rs n s :
  regions_ok bound rs -> len rs = MAX_REGIONS_PER_PROCESS -> MMAP_BASE <= bound -> 0 <= n -> bound + n < U64 ->
  exists a, loop search_fuel (search_step n rs) MMAP_BASE s = (Ok a, s) /\
    MMAP_BASE <= a <= bound /\ a mod 4096 = 0 /\ Forall (overlap_free a n) rs.
Proof.
  intros [Hrs _] Hlen Hb Hn Hsum.
  set (Q := fun r : outcome Empty_set Z * vmm => exists a, r = (Ok a, s) /\ MMAP_BASE <= a <= bound /\ a mod 4096 = 0 /\ Forall (overlap_free a n) rs).
  enough (HQ : Q (loop search_fuel (search_step n rs) MMAP_BASE s)) by exact HQ.
  apply (loop_rule (search_step n rs) (fun a s' => s' = s /\ MMAP_BASE <= a <= bound /\ a mod 4096 = 0) Q (ahead rs)).
  - intros a s' (-> & Ha & Hal). unfold search_step. run.
    pose proof (first_overlap_run Empty_set a n rs ltac:(lia)) as Hf.
    destruct (first_overlap a n rs) as [[r|]| | |]; try done.
    + destruct Hf as (Hin & Hu & Hlt). rewrite list.Forall_forall in Hrs. specialize (Hrs r Hin Hu).
      split; [|by apply ahead_decreases]. split; [done|]. lia.
    + exists a. auto.
  - pose proof (length_filter (fun r => n_used r = true /\ MMAP_BASE < n_end r) rs).
    unfold ahead, search_fuel, MAX_REGIONS_PER_PROCESS, len in *. lia.
  - split; [done|]. split; [lia|reflexivity].
Qed.

(** [(len + 4095) & !4095]: the length in whole pages. *)
Definition page_aligned_len (n : Z) : Z := Z.land (n + 4095) (bitnot U64 4095).

Lemma page_aligned_len_spec n :
  0 <= n -> n + 4095 < U64 ->
  n <= page_aligned_len n <= n + 4095 /\ page_aligned_len n mod 4096 = 0.
Proof.
  intros Hn Hb. unfold page_aligned_len.
  pose proof (align_down_page (n + 4095) ltac:(lia)) as Hd. cbv zeta in Hd. lia.
Qed.

(** Entering a new region that meets none of the others. *)
Lemma regions_ok_insert bound rs j a n flags :
  regions_ok bound rs -> 0 <= a <= bound -> a mod 4096 = 0 -> 0 <= n -> n mod 4096 = 0 ->
  Forall (overlap_free a n) rs ->
  regions_ok (bound + n) (<[j := mkNative a (a + n) flags true]> rs).
Proof.
  intros [Hrs Hdis] Ha Hal Hn Hnal Hfree. set (new := mkNative a (a + n) flags true).
  rewrite list.Forall_forall in Hfree. split.
  - apply Forall_lookup. intros k r Hk Hu. apply list_lookup_insert_Some in Hk as [(-> & <- & _)|[_ Hk]].
    + simpl. rewrite Z.add_mod, Hal, Hnal by lia. split; [lia|]. split; [lia|]. by split.
    + rewrite Forall_lookup in Hrs. specialize (Hrs k r Hk Hu). lia.
  - intros k l r t Hne Hk Hl Hr Ht.
    apply list_lookup_insert_Some in Hk as [(-> & <- & _)|[_ Hk]]; apply list_lookup_insert_Some in Hl as [(-> & <- & _)|[_ Hl]].
    + done.
    + apply list_elem_of_lookup_2 in Hl. destruct (Hfree t Hl Ht); simpl; lia.
    + apply list_elem_of_lookup_2 in Hk. destruct (Hfree r Hk Hr); simpl; lia.
    + by eapply (Hdis k l).
Qed.

Lemma vt_ok_alter_regions t i f :
  vt_ok t -> (forall l, len (f l) = len l) -> vt_ok (alter (upd pv_regions f) i t).
Proof.
  intros (Hl & Hr & Hu) Hf.
  assert (Hold : forall j q, alter (upd pv_regions f) i t !! j = Some q ->
    exists p, t !! j = Some p /\ (forall pid, slot_of pid q -> slot_of pid p) /\ len (pv_regions q) = len (pv_regions p)).
  { intros j q. destruct (decide (j = i)) as [->|Hne].
    - rewrite list_lookup_alter_eq. destruct (t !! i) as [p|]; simpl; [|done]. intros [= <-]. exists p. simpl. auto.
    - rewrite list_lookup_alter_ne by done. eauto. }
  split; [unfold len in *; by rewrite length_alter|]. split.
  - apply Forall_lookup. intros j q Hq. destruct (Hold j q Hq) as (p & Hp & _ & ->). rewrite Forall_lookup in Hr. eauto.
  - intros pid j k q q' Hj Hk Hs Hs'. destruct (Hold j q Hj) as (p & Hp & H1 & _), (Hold k q' Hk) as (p' & Hp' & H2 & _). eauto.
Qed.

(** A request for any address ([addr = 0]) by a process whose used regions
    are page aligned and disjoint ends, without a panic unless all 64 process
    slots belong to others: with [-12] when all 128 regions are used, and
    otherwise with a page-aligned address at or above [0x4000_0000_0000] for a new
    region of the padded length that overlaps no used region of the process. The
    search loop terminates within its bound, and other processes are untouched. *)
Theorem map_native_region_disjoint (s : vmm) (pid length flags bound : Z)
    (Htable : vt_ok (v_table s))
    (Hregions : Forall (fun p => slot_of pid p -> regions_ok bound (pv_regions p)) (v_table s))
    (Hbound : MMAP_BASE <= bound) (Hlength : 0 <= length) (Hroom : bound + length + 4096 < SLICE_LIMIT) :
  match map_native_region pid 0 length flags s with
  | (Ok z, s') => exists i p rs, v_table s' !! i = Some p /\ slot_of pid p /\ vt_ok (v_table s') /\
      (forall j, j <> i -> v_table s' !! j = v_table s !! j) /\
      (v_table s !! i = Some (set_field pv_regions rs p) \/ Forall (fun r => n_used r = false) rs) /\
      regions_ok (bound + page_aligned_len length) (pv_regions p) /\
      (z = -12 /\ pv_regions p = rs /\ Forall (fun r => n_used r = true) rs \/
       MMAP_BASE <= z /\ z mod 4096 = 0 /\ Forall (overlap_free z (page_aligned_len length)) rs /\
       exists j, position (fun r => negb (n_used r)) rs = Some j /\
         pv_regions p = <[j := mkNative z (z + page_aligned_len length) flags true]> rs)
  | (Panic, s') => s' = s /\ Forall (fun p => pv_active p = true /\ process_id p <> pid) (v_table s)
  | _ => False
  end.
Proof.
  unfold map_native_region. pose proof (get_process_vmm_run Empty_set pid s Htable) as Hget. unfold bind at 1.
  destruct (get_process_vmm pid s) as [[i|e| |] s1]; try done. destruct Hget as [(Ht1 & p & Hp & Hslot & Hoth & Hold) _].
  assert (Hrok : regions_ok bound (pv_regions p)).
  { destruct Hold as [Hold|[_ Hunused]].
    - rewrite Forall_lookup in Hregions. by eapply Hregions.
    - rewrite Forall_lookup in Hunused. split; [apply Forall_lookup|]; intros; exfalso;
        [assert (n_used x = false) by eauto|assert (n_used r = false) by eauto]; congruence. }
  assert (Hlen : len (pv_regions p) = MAX_REGIONS_PER_PROCESS) by (destruct Ht1 as (_ & Hl & _); rewrite Forall_lookup in Hl; eauto).
  assert (0 <= bound) by (unfold MMAP_BASE in Hbound; lia).
  rewrite add_ok by lia. run. fold (page_aligned_len length).
  destruct (page_aligned_len_spec length Hlength ltac:(lia)) as [Hal Halm]. set (n := page_aligned_len length) in *.
  unfold regions_of. run. rewrite Hp. cbn [fmap option_fmap option_map].
  destruct (search_run bound (pv_regions p) n s1 Hrok Hlen Hbound ltac:(lia) ltac:(lia)) as (a & Hloop & Ha & Ham & Hfree).
  rewrite Z.eqb_refl, Hloop.
  destruct (position (fun r => negb (n_used r)) (pv_regions p)) as [j|] eqn:Hj.
  - rewrite add_ok by lia.
    rewrite (proj2 (Z.ltb_lt a SLICE_LIMIT)) by (unfold MMAP_BASE in *; lia).
    exists i, (upd pv_regions (fun l => <[j := mkNative a (a + n) flags true]> l) p), (pv_regions p). simpl.
    rewrite list_lookup_alter_eq, Hp. split; [done|]. split; [done|].
    split; [apply vt_ok_alter_regions; [done|]; intros l; unfold len; by rewrite length_insert|].
    split; [intros k Hk; rewrite list_lookup_alter_ne by done; auto|].
    split; [destruct Hold as [Hold|[_ ?]]; [left; rewrite Hold; by destruct p|auto]|].
    split; [apply regions_ok_insert; auto; unfold MMAP_BASE in *; lia|]. right.
    split; [lia|]. split; [done|]. split; [done|]. by exists j.
  - exists i, p, (pv_regions p). split; [done|]. split; [done|]. split; [done|]. split; [done|].
    split; [destruct Hold as [Hold|[_ ?]]; [left; rewrite Hold; by destruct p|auto]|].
    split; [|left; split; [done|]; split; [done|]].
    + destruct Hrok as [H1 H2]. split; [|done]. eapply Forall_impl; [exact H1|]. simpl. intros r Hr Hu. specialize (Hr Hu). lia.
    + apply position_None in Hj. eapply Forall_impl; [exact Hj|]. simpl. intros r Hr. by bool_prop.
Qed.

(** A process that already has a region of two pages at the base address. *)
Definition demo_region : NativeRegion := mkNative MMAP_BASE (MMAP_BASE + 0x2000) 7 true.
Definition claimed_table : list ProcessVmm :=
  alter (fun p => mkProcessVmm 7 true (set_field n_used false <$> pv_regions p)) O vmm_table_new.
Definition demo_table : list ProcessVmm := alter (upd pv_regions <[O := demo_region]>) O claimed_table.
Definition demo_vmm : vmm := mkVmm demo_table frame_allocator_new ∅.

Lemma demo_vmm_table : vt_ok demo_table.
Proof.
  apply (vt_ok_alter_regions claimed_table O); [|intros l; unfold len; by rewrite length_insert].
  apply (claim_slot 7 vmm_table_new O (mkProcessVmm 0 false (replicate 128 (mkNative 0 0 0 false))));
    [apply vt_new_ok| |reflexivity..].
  apply Forall_replicate. by intros [? _].
Qed.

Lemma demo_vmm_regions :
  Forall (fun p => slot_of 7 p -> regions_ok (MMAP_BASE + 0x2000) (pv_regions p)) demo_table.
Proof.
  apply Forall_lookup. intros j p Hp Hs. unfold demo_table, claimed_table in Hp. destruct (decide (j = O)) as [->|Hj].
  - rewrite !list_lookup_alter_eq in Hp. unfold vmm_table_new in Hp. rewrite lookup_replicate_2 in Hp by (vm_compute; lia).
    apply (inj Some) in Hp as <-. change (regions_ok (MMAP_BASE + 0x2000)
      (<[O := demo_region]> (set_field n_used false <$> replicate 128 (mkNative 0 0 0 false)))).
    apply regions_ok_insert; try (unfold MMAP_BASE; lia); try reflexivity; rewrite fmap_replicate.
    + split; [by apply Forall_replicate|]. intros i j r s _ Hi. apply lookup_replicate in Hi as [-> _]. done.
    + by apply Forall_replicate.
  - rewrite !list_lookup_alter_ne in Hp by done. apply lookup_replicate in Hp as [-> _]. destruct Hs as [Hs _]. done.
Qed.

Lemma map_native_region_disjoint_witness :
  fst (map_native_region 7 0 0x1001 6 demo_vmm) = Ok 0x400000002000 /\
  exists i p rs, v_table (snd (map_native_region 7 0 0x1001 6 demo_vmm)) !! i = Some p /\ slot_of 7 p /\
    regions_ok (MMAP_BASE + 0x2000 + page_aligned_len 0x1001) (pv_regions p) /\
    Forall (overlap_free 0x400000002000 (page_aligned_len 0x1001)) rs.
Proof.
  assert (Hz : fst (map_native_region 7 0 0x1001 6 demo_vmm) = Ok 0x400000002000) by (vm_compute; reflexivity).
  split; [exact Hz|].
  pose proof (map_native_region_disjoint demo_vmm 7 0x1001 6 (MMAP_BASE + 0x2000) demo_vmm_table demo_vmm_regions
    ltac:(unfold MMAP_BASE; lia) ltac:(lia) ltac:(unfold MMAP_BASE; lia)) as H.
  destruct (map_native_region 7 0 0x1001 6 demo_vmm) as [o s']. cbn [fst] in Hz. subst o.
  destruct H as (i & p & rs & Hp & Hs & _ & _ & _ & Hr & [[H _]|(_ & _ & Hf & _)]); [discriminate H|].
  exists i, p, rs. auto.
Defined.

(** * Facts: page tables *)

(** The entries met by the processor's walk along the given table indices. *)
Fixpoint walk (m : gmap Z Z) (table : Z) (idxs : list Z) : option (list Z) :=
  match idxs with
  | [] => Some []
  | i :: idxs' =>
      let e := load m (table + HHDM_BASE + 8 * i) in
      if Z.land e 1 =? 0 then None else cons e <$> walk m (page_of e) idxs'
  end.

(** The page a walk ends in. *)
Definition end_page (table : Z) (es : list Z) : Z := default table (page_of <$> last es).

(** The four indices of a virtual address. *)
Definition indices (vaddr : Z) : list Z :=
  [Z.land (Z.shiftr vaddr 39) 0x1FF; Z.land (Z.shiftr vaddr 30) 0x1FF;
   Z.land (Z.shiftr vaddr 21) 0x1FF; Z.land (Z.shiftr vaddr 12) 0x1FF].

Definition index_ok (i : Z) : Prop := in_range 512 i.
Definition PHYS_LIMIT : Z := 2 ^ 47.

(** A page that the direct map reaches and that the allocator will not hand out. *)
Definition page_ok (a : FrameAllocator) (p : Z) : Prop :=
  p mod 4096 = 0 /\ 0 <= p /\ p + 4096 <= PHYS_LIMIT /\ forall x, p <= x < p + 4096 -> ~ free_at a x.

(** Every page that at most [n] levels of tables lead to from [t] is such a page. *)
Definition tables_ok (a : FrameAllocator) (m : gmap Z Z) (n : nat) (t : Z) : Prop :=
  forall idxs es, (length idxs <= n)%nat -> Forall index_ok idxs -> walk m t idxs = Some es ->
    page_ok a (end_page t es).

Lemma end_page_cons t e es : end_page t (e :: es) = end_page (page_of e) es.
Proof. unfold end_page. rewrite last_cons. by destruct (last es). Qed.

Lemma tables_ok_here a m n t : tables_ok a m n t -> page_ok a t.
Proof. intros H. apply (H [] []); [simpl; lia|constructor|done]. Qed.

Lemma tables_ok_step a m n t i :
  tables_ok a m (S n) t -> index_ok i -> Z.land (load m (t + HHDM_BASE + 8 * i)) 1 <> 0 ->
  tables_ok a m n (page_of (load m (t + HHDM_BASE + 8 * i))).
Proof.
  intros H Hi Hp idxs es Hl Hf Hw. rewrite <- end_page_cons with (t := t). apply (H (i :: idxs)).
  - simpl. lia.
  - by constructor.
  - simpl. rewrite (proj2 (Z.eqb_neq _ _) Hp), Hw. done.
Qed.

Lemma load_insert m x v y : load (<[x := v]> m) y = if decide (x = y) then v else load m y.
Proof.
  unfold load. destruct (decide (x = y)) as [->|Hne]; [by rewrite lookup_insert_eq|by rewrite lookup_insert_ne].
Qed.

Lemma load_zero_out va m y : (forall i, 0 <= i < 512 -> y <> va + 8 * i) -> load (zero_bytes va m) y = load m y.
Proof.
  intros Hy. unfold zero_bytes. assert (Hin : forall i, i ∈ seqZ 0 512 -> y <> va + 8 * i)
    by (intros i Hi%elem_of_seqZ; apply Hy; lia).
  induction (seqZ 0 512) as [|i l IH]; [done|]. cbn [foldr]. rewrite load_insert.
  rewrite decide_False; [apply IH; intros; apply Hin; by right|]. intros <-. by apply (Hin i); [left|].
Qed.

Lemma load_zero_in va m i : 0 <= i < 512 -> load (zero_bytes va m) (va + 8 * i) = 0.
Proof.
  intros Hi. unfold zero_bytes. assert (Hin : i ∈ seqZ 0 512) by (apply elem_of_seqZ; lia).
  induction (seqZ 0 512) as [|j l IH]; [by apply elem_of_nil in Hin|]. cbn [foldr]. rewrite load_insert.
  case_decide; [done|]. apply elem_of_cons in Hin as [->|Hin]; [done|auto].
Qed.

(** The memory and allocator may change from one to the other without touching
    what the tables translate. *)
Record ext (a : FrameAllocator) (m : gmap Z Z) (a' : FrameAllocator) (m' : gmap Z Z) : Prop := {
  ext_tables n t : tables_ok a m n t -> tables_ok a' m' n t;
  ext_walk n t idxs es : tables_ok a m n t -> (length idxs <= n)%nat -> Forall index_ok idxs ->
    walk m t idxs = Some es -> walk m' t idxs = Some es;
  ext_free x : free_at a' x -> free_at a x }.

Lemma ext_refl a m : ext a m a m.
Proof. by split. Qed.

Lemma ext_trans a m a1 m1 a2 m2 : ext a m a1 m1 -> ext a1 m1 a2 m2 -> ext a m a2 m2.
Proof. intros [T1 W1 F1] [T2 W2 F2]. split; eauto. Qed.

(** ** Linking a fresh page into a table *)
Section link.
Context (a a' : FrameAllocator) (m : gmap Z Z) (t i f flags : Z).
Let slot := t + HHDM_BASE + 8 * i.
Let m' := <[slot := Z.lor f flags]> (zero_bytes (f + HHDM_BASE) m).
Context (Ht : page_ok a t) (Hi : index_ok i) (Habsent : Z.land (load m slot) 1 = 0).
Context (Hf : f mod 4096 = 0) (Hf0 : 0 <= f) (Hflimit : f + 4096 <= PHYS_LIMIT).
Context (Hfresh : forall x, f <= x < f + 4096 -> free_at a x /\ ~ free_at a' x).
Context (Hshrink : forall x, free_at a' x -> free_at a x).
Context (Hpage : page_of (Z.lor f flags) = f).

(** A table page and the fresh page share no word. *)
Lemma page_word_apart p j k :
  page_ok a p -> index_ok j -> index_ok k -> p + HHDM_BASE + 8 * j <> f + HHDM_BASE + 8 * k.
Proof.
  intros (_ & _ & _ & Hp) Hj Hk Heq. unfold index_ok, in_range in *.
  apply (Hp (p + 8 * j)); [lia|]. apply Hfresh. lia.
Qed.

Lemma load_linked p j :
  page_ok a p -> index_ok j ->
  load m' (p + HHDM_BASE + 8 * j) =
    if decide (p + HHDM_BASE + 8 * j = slot) then Z.lor f flags else load m (p + HHDM_BASE + 8 * j).
Proof.
  intros Hp Hj. unfold m'. rewrite load_insert. destruct (decide (slot = _)) as [<-|Hne].
  - by rewrite decide_True.
  - rewrite decide_False by congruence. apply load_zero_out. intros k Hk. by apply page_word_apart.
Qed.

Lemma load_fresh j : index_ok j -> load m' (f + HHDM_BASE + 8 * j) = 0.
Proof.
  intros Hj. unfold m'. rewrite load_insert. rewrite decide_False; [by apply load_zero_in|].
  intros Heq. by apply (page_word_apart t i j).
Qed.

Lemma fresh_page_ok : page_ok a' f.
Proof. repeat split; try done. intros x Hx. by apply Hfresh. Qed.

Lemma page_ok_shrink p : page_ok a p -> page_ok a' p.
Proof. intros (? & ? & ? & Hp). repeat split; try done. intros x Hx Hfree. by eapply Hp, Hshrink. Qed.

Lemma link_walk n p idxs es :
  tables_ok a m n p -> (length idxs <= n)%nat -> Forall index_ok idxs ->
  walk m p idxs = Some es -> walk m' p idxs = Some es.
Proof.
  revert n p es. induction idxs as [|j idxs IH]; intros n p es Hok Hl Hall; [done|].
  apply Forall_cons_iff in Hall as [Hj Hall]. destruct n as [|n]; [simpl in Hl; lia|].
  cbn [walk]. rewrite load_linked by eauto using tables_ok_here.
  set (e := load m (p + HHDM_BASE + 8 * j)). destruct (Z.eqb_spec (Z.land e 1) 0) as [|Hp]; [done|].
  rewrite decide_False by (intros Heq; apply Hp; unfold e; by rewrite Heq).
  rewrite (proj2 (Z.eqb_neq _ 0) Hp). destruct (walk m (page_of e) idxs) as [es'|] eqn:Hw; [|done].
  intros [= <-]. erewrite (IH n); [done| |simpl in Hl; lia|done|done]. by apply tables_ok_step.
Qed.

Lemma link_tables n p : tables_ok a m n p -> tables_ok a' m' n p.
Proof.
  intros Hok idxs. revert n p Hok. induction idxs as [|j idxs IH]; intros n p Hok es Hl Hall Hw.
  { injection Hw as <-. apply page_ok_shrink. by eapply tables_ok_here. }
  apply Forall_cons_iff in Hall as [Hj Hall]. destruct n as [|n]; [simpl in Hl; lia|].
  cbn [walk] in Hw. rewrite load_linked in Hw by eauto using tables_ok_here.
  destruct (decide (p + HHDM_BASE + 8 * j = slot)) as [Heq|Hne].
  - rewrite Hpage in Hw. destruct (Z.land (Z.lor f flags) 1 =? 0); [done|]. destruct idxs as [|k idxs].
    + injection Hw as <-. rewrite end_page_cons, Hpage. apply fresh_page_ok.
    + apply Forall_cons_iff in Hall as [Hk _]. cbn [walk] in Hw. by rewrite load_fresh in Hw.
  - set (e := load m (p + HHDM_BASE + 8 * j)) in *. destruct (Z.eqb_spec (Z.land e 1) 0) as [|Hp]; [done|].
    destruct (walk m' (page_of e) idxs) as [es'|] eqn:Hw'; [|done]. injection Hw as <-. rewrite end_page_cons.
    apply (IH n); [by apply tables_ok_step|simpl in Hl; lia|done|done].
Qed.

Lemma link_ext : ext a m a' m'.
Proof. split; [apply link_tables|apply link_walk|exact Hshrink]. Qed.

Lemma link_slot : load m' slot = Z.lor f flags.
Proof. unfold m'. rewrite load_insert. by rewrite decide_True. Qed.
End link.

(** ** Entries: a page address and twelve bits of flags *)
Lemma lor_page f flags : f mod 4096 = 0 -> 0 <= f -> 0 <= flags < 4096 -> Z.lor f flags = f + flags.
Proof.
  intros Hf H0 Hfl. rewrite <- Z.lxor_lor, <- Z.add_nocarry_lxor; [done| |];
    apply Z.bits_inj'; intros i Hi; rewrite Z.land_spec, Z.bits_0; apply andb_false_iff.
  all: destruct (Z.lt_ge_cases i 12);
    [left; replace f with (f / 2 ^ 12 * 2 ^ 12) by (change (2 ^ 12) with 4096; pose proof (Z.div_mod f 4096); lia);
      by apply Z.mul_pow2_bits_low
    |right; rewrite <- (Z.mod_small flags (2 ^ 12)) by (change (2 ^ 12) with 4096; lia); apply Z.mod_pow2_bits_high; lia].
Qed.

Definition flags_ok (flags : Z) : Prop := 0 <= flags < 4096 /\ flags mod 2 = 1.

Lemma page_of_eq e : 0 <= e < U64 -> page_of e = e - e mod 4096.
Proof.
  intros He. unfold page_of. change 0xFFF with (2 ^ 12 - 1).
  apply (land_bitnot_pow2 e 12 64); [lia|exact He].
Qed.

Lemma entry_fields f flags :
  f mod 4096 = 0 -> 0 <= f -> f + 4096 <= PHYS_LIMIT -> flags_ok flags ->
  page_of (Z.lor f flags) = f /\ Z.land (Z.lor f flags) 1 <> 0.
Proof.
  intros Hf H0 Hl [Hfl Hodd]. rewrite lor_page by done. unfold PHYS_LIMIT in Hl. change (2 ^ 47) with 140737488355328 in Hl.
  rewrite page_of_eq by lia.
  assert (Hm : (f + flags) mod 4096 = flags) by (rewrite Z.add_mod, Hf, (Z.mod_small flags) by lia; simpl; apply Z.mod_small; lia).
  split; [lia|]. change 1 with (Z.ones 1). rewrite Z.land_ones by lia. change (2 ^ 1) with 2.
  pose proof (Z.div_mod f 4096). pose proof (Z.div_mod flags 2). pose proof (Z.div_mod (f + flags) 2).
  pose proof (Z.mod_pos_bound (f + flags) 2). lia.
Qed.

(** ** One level, and the whole path *)

(** The allocator is as left by a sequence of requests, with only memory that
    the direct map reaches left to give. *)
Definition alloc_ok (map : list MemoryMapEntry) (g : list (Z * Z)) (a : FrameAllocator) : Prop :=
  frame_inv map a g /\ forall x, free_at a x -> x < PHYS_LIMIT.

(** [e] is a new entry: a page that was free, that is no longer, and that reads as zeros. *)
Definition new_entry (a a' : FrameAllocator) (m' : gmap Z Z) (flags e : Z) : Prop :=
  exists f, e = Z.lor f flags /\ page_of e = f /\ f mod 4096 = 0 /\
    (forall x, f <= x < f + 4096 -> free_at a x /\ ~ free_at a' x) /\
    (forall j, index_ok j -> load m' (f + HHDM_BASE + 8 * j) = 0).

Lemma ensure_present_run E map g s t i flags :
  alloc_ok map g (v_frames s) -> page_ok (v_frames s) t -> index_ok i -> flags_ok flags ->
  let slot := t + HHDM_BASE + 8 * i in
  match ensure_present (E:=E) slot flags s with
  | (Ok true, s') =>
      (exists g', alloc_ok map g' (v_frames s')) /\ v_table s' = v_table s /\
      ext (v_frames s) (v_mem s) (v_frames s') (v_mem s') /\ Z.land (load (v_mem s') slot) 1 <> 0 /\
      (s' = s \/ Z.land (load (v_mem s) slot) 1 = 0 /\
        new_entry (v_frames s) (v_frames s') (v_mem s') flags (load (v_mem s') slot))
  | (Ok false, s') => s' = s /\ allocate (E:=E) (v_frames s) = (Ok None, v_frames s)
  | _ => False
  end.
Proof.
  intros [Hinv Hlim] Ht Hi Hfl slot. unfold ensure_present. run. destruct (Z.eqb_spec (Z.land (load (v_mem s) slot) 1) 0) as [Habs|Hp].
  2:{ split; [exists g; by split|]. split; [done|]. split; [apply ext_refl|]. auto. }
  pose proof (allocate_free E map (v_frames s) g Hinv) as Ha.
  destruct (allocate (v_frames s)) as [[[f|]|e| |] a'] eqn:Halloc; try done.
  2:{ subst a'. split; [by destruct s|]. done. }
  destruct Ha as (Hinv' & Hal & Hlow & Hfresh & Hshrink). set (fa := start_address f) in *.
  unfold PAGE_SIZE, BOOTSTRAP_RESERVED_END in *.
  assert (Hbound : fa + 4096 <= PHYS_LIMIT).
  { specialize (Hlim (fa + 4095)). destruct (Hfresh (fa + 4095) ltac:(lia)) as [Hfr _]. specialize (Hlim Hfr). lia. }
  destruct (entry_fields fa flags Hal ltac:(lia) Hbound Hfl) as [Hpg Hpr].
  unfold phys_to_virt. rewrite add_ok by (unfold PHYS_LIMIT, HHDM_BASE in *; lia).
  simpl. split; [exists ((fa, 4096) :: g); split; [done|]; eauto|]. split; [done|].
  assert (Hfa : 0 <= fa) by lia.
  split; [by apply (link_ext _ _ _ t i)|].
  subst slot. rewrite link_slot. split; [done|]. right. split; [done|]. exists fa. split; [done|]. split; [done|]. split; [done|].
  split; [done|]. intros j Hj. by apply (load_fresh (v_frames s) a' (v_mem s) t i fa).
Qed.

(** [map_page] is this recursion on its four indices. *)
Fixpoint ensure_path {E} (table : Z) (path : list (Z * Z)) : M vmm E bool :=
  match path with
  | [] => ret true
  | (i, flags) :: rest =>
      let! slot := lift (entry_ptr table i) in
      let! ok := ensure_present slot flags in
      if negb ok then ret false else
      match rest with
      | [] => ret true
      | _ => let! m := gets v_mem in ensure_path (page_of (load m slot)) rest
      end
  end.

Definition path_of (vaddr flags : Z) : list (Z * Z) := zip (indices vaddr) [TABLE_FLAGS; TABLE_FLAGS; TABLE_FLAGS; flags].

Lemma map_page_path E cr3 vaddr flags s :
  map_page (E:=E) cr3 vaddr flags s = ensure_path (page_of cr3) (path_of vaddr flags) s.
Proof. reflexivity. Qed.

Definition path_ok (path : list (Z * Z)) : Prop := Forall (fun x => index_ok x.1 /\ flags_ok x.2) path.


Lemma ensure_path_run E map path : forall g s n table,
  alloc_ok map g (v_frames s) -> tables_ok (v_frames s) (v_mem s) n table -> (length path <= n)%nat -> path_ok path ->
  match ensure_path (E:=E) table path s with
  | (Ok b, s') =>
      (exists g', alloc_ok map g' (v_frames s')) /\ v_table s' = v_table s /\
      ext (v_frames s) (v_mem s) (v_frames s') (v_mem s') /\
      if b : bool then exists es, walk (v_mem s') table path.*1 = Some es /\
        (walk (v_mem s) table path.*1 = Some es \/
         exists flags e, last path.*2 = Some flags /\ last es = Some e /\
           new_entry (v_frames s) (v_frames s') (v_mem s') flags e)
      else allocate (E:=E) (v_frames s') = (Ok None, v_frames s')
  | _ => False
  end.
Proof.
  induction path as [|[i flags] rest IH]; intros g s n table Ha Ht Hl Hp.
  { cbn [ensure_path]. run. split; [eauto|]. split; [done|]. split; [apply ext_refl|]. exists []. auto. }
  apply Forall_cons_iff in Hp as [[Hi Hfl] Hp]. cbn [fst snd] in Hi, Hfl. destruct n as [|n]; [simpl in Hl; lia|].
  pose proof (tables_ok_here _ _ _ _ Ht) as Hpage. pose proof (ensure_present_run E map g s table i flags Ha Hpage Hi Hfl) as Hone.
  cbv zeta in Hone. cbn [ensure_path]. unfold entry_ptr, phys_to_virt.
  destruct Hpage as (_ & Hpos & Hlim & _). unfold PHYS_LIMIT in Hlim. change (2 ^ 47) with 140737488355328 in Hlim.
  rewrite add_ok by (unfold HHDM_BASE; lia). run. set (slot := table + HHDM_BASE + 8 * i) in *.
  destruct (ensure_present slot flags s) as [[[]|e| |] s1]; try done; cbn [negb].
  2:{ destruct Hone as [-> Hnone]. split; [eauto|]. split; [done|]. split; [apply ext_refl|]. done. }
  destruct Hone as ([g1 Ha1] & Htab1 & Hext1 & Hpres & Hnew). set (e := load (v_mem s1) slot) in *.
  assert (Ht1 : tables_ok (v_frames s1) (v_mem s1) n (page_of e)).
  { apply tables_ok_step; [by apply (ext_tables _ _ _ _ Hext1)|done..]. }
  destruct rest as [|x rest].
  { split; [eauto|]. split; [done|]. split; [done|]. exists [e]. simpl. fold slot e. rewrite (proj2 (Z.eqb_neq _ 0) Hpres).
    split; [done|]. destruct Hnew as [->|[_ Hnew]]; [left; unfold e in *; by rewrite (proj2 (Z.eqb_neq _ 0) Hpres)|].
    right. exists flags, e. done. }
  specialize (IH g1 s1 n (page_of e) Ha1 Ht1 ltac:(simpl in *; lia) Hp). fold e.
  destruct (ensure_path (page_of e) (x :: rest) s1) as [[b|?| |] s2]; try done.
  destruct IH as (Hg2 & Htab2 & Hext2 & Hres). split; [done|]. split; [congruence|].
  split; [by eapply ext_trans|]. destruct b; [|done]. destruct Hres as (es & Hw & Hcase). exists (e :: es).
  assert (He : load (v_mem s2) slot = e).
  { assert (Hw1 : walk (v_mem s1) table [i] = Some [e]) by (simpl; fold slot e; by rewrite (proj2 (Z.eqb_neq _ 0) Hpres)).
    apply (ext_walk _ _ _ _ Hext2 (S n)) in Hw1; [|by apply (ext_tables _ _ _ _ Hext1)|simpl; lia|constructor; [done|constructor]].
    simpl in Hw1. fold slot in Hw1. by destruct (_ =? 0); [|injection Hw1]. }
  split; [rewrite fmap_cons; cbn [walk fst]; fold slot; rewrite He, (proj2 (Z.eqb_neq _ 0) Hpres), Hw; done|].
  destruct Hcase as [Hold|(fl & e' & Hlast & Hlast' & f & Hf)].
  - left. destruct Hnew as [->|[_ (f & _ & Hpf & _ & _ & Hzero)]].
    + rewrite fmap_cons; cbn [walk fst]. fold slot e. by rewrite (proj2 (Z.eqb_neq _ 0) Hpres), Hold.
    + exfalso. apply Forall_cons_iff in Hp as [[Hx _] _]. rewrite fmap_cons, Hpf in Hold. cbn [walk] in Hold.
      by rewrite (Hzero _ Hx) in Hold.
  - right. exists fl, e'. split; [by rewrite fmap_cons, last_cons, Hlast|].
    split; [by rewrite last_cons, Hlast'|]. destruct Hf as (H1 & H2 & H3 & H4 & H5).
    exists f. repeat split; try done; apply H4 in H as [? ?]; auto. by apply (ext_free _ _ _ _ Hext1).
Qed.

Lemma indices_ok v : Forall index_ok (indices v).
Proof.
  assert (H : forall x, index_ok (Z.land x 0x1FF)).
  { intros x. change 0x1FF with (Z.ones 9). rewrite Z.land_ones by lia. apply Z.mod_pos_bound. reflexivity. }
  repeat (constructor; [apply H|]). constructor.
Qed.

Lemma map_page_run E map g s cr3 vaddr flags :
  alloc_ok map g (v_frames s) -> tables_ok (v_frames s) (v_mem s) 4 (page_of cr3) -> flags_ok flags ->
  exists b s', map_page (E:=E) cr3 vaddr flags s = (Ok b, s') /\
    v_table s' = v_table s /\ ext (v_frames s) (v_mem s) (v_frames s') (v_mem s') /\
    if b : bool then exists es, walk (v_mem s') (page_of cr3) (indices vaddr) = Some es /\
      (walk (v_mem s) (page_of cr3) (indices vaddr) = Some es \/
       exists e, last es = Some e /\ new_entry (v_frames s) (v_frames s') (v_mem s') flags e)
    else allocate (E:=E) (v_frames s') = (Ok None, v_frames s').
Proof.
  intros Ha Ht Hfl. rewrite map_page_path.
  assert (Hpath : path_ok (path_of vaddr flags)).
  { assert (H7 : flags_ok TABLE_FLAGS) by (split; [unfold TABLE_FLAGS; lia|reflexivity]).
    pose proof (indices_ok vaddr) as Hi. unfold path_of, path_ok, indices in *.
    rewrite !Forall_cons_iff in Hi. simpl. repeat (constructor; [by split; [tauto|]|]). constructor. }
  pose proof (ensure_path_run E map (path_of vaddr flags) g s 4 (page_of cr3) Ha Ht ltac:(simpl; lia) Hpath) as Hrun.
  destruct (ensure_path (page_of cr3) (path_of vaddr flags) s) as [[b|e| |] s']; try done.
  destruct Hrun as (_ & Htab & Hext & Hres). exists b, s'. split; [done|]. split; [done|]. split; [done|].
  destruct b; [|done]. destruct Hres as (es & Hw & Hc). exists es. split; [exact Hw|].
  destruct Hc as [Hc|(fl & e & Hl & He & Hn)]; [left; exact Hc|]. right. exists e. split; [done|].
  injection Hl as <-. done.
Qed.

Lemma get_process_vmm_present E pid s i p :
  vt_ok (v_table s) -> v_table s !! i = Some p -> slot_of pid p -> get_process_vmm (E:=E) pid s = (Ok i, s).
Proof.
  intros (_ & _ & Huniq) Hi Hs. unfold get_process_vmm. run.
  destruct (position (fun p => pv_active p && (process_id p =? pid)) (v_table s)) as [j|] eqn:Hpos.
  - apply position_Some in Hpos as [(q & Hj & Hq) _]. bool_prop. by rewrite (Huniq pid i j p q Hi Hj Hs).
  - apply position_None in Hpos. rewrite Forall_lookup in Hpos. specialize (Hpos i p Hi). destruct Hs as [Ha Hid].
    simpl in Hpos. by rewrite Ha, Hid, Z.eqb_refl in Hpos.
Qed.

Definition covers (addr : Z) (r : NativeRegion) : bool := n_used r && (n_start r <=? addr) && (addr <? n_end r).

(** The regions of the process's slot, in the table a search for it leaves. *)
Definition flags_mapped (pid : Z) (t : list ProcessVmm) : Prop :=
  Forall (fun p => slot_of pid p -> Forall (fun r => n_used r = true -> flags_ok (n_flags r)) (pv_regions p)) t.

Lemma fault_in_slot E pid cr3 cr2 error_code s i s1 p : get_process_vmm (E:=E) pid s = (Ok i, s1) -> v_table s1 !! i = Some p ->
  handle_page_fault (E:=E) pid cr3 cr2 error_code s =
    match position (covers cr2) (pv_regions p) with
    | Some j => match pv_regions p !! j with Some r => map_page cr3 cr2 (n_flags r) s1 | None => (Panic, s1) end
    | None => (Ok false, s1)
    end.
Proof.
  intros Hg Hi. unfold handle_page_fault, regions_of. unfold bind at 1. rewrite Hg. run. rewrite Hi. cbn [fmap option_fmap option_map].
  change (fun r => n_used r && (n_start r <=? cr2) && (cr2 <? n_end r)) with (covers cr2).
  destruct (position (covers cr2) (pv_regions p)) as [j|]; [|done]. by destruct (pv_regions p !! j).
Qed.


(** A process whose top-level table is the first frame, empty. *)
Definition demo_map : list MemoryMapEntry := [mkEntry 0x100000 0x10000 Usable].
Definition demo_frames : FrameAllocator :=
  snd (serve OneFrame (snd (frame_initialize demo_map frame_allocator_new))).
Definition demo_state : vmm := mkVmm demo_table demo_frames ∅.

Lemma demo_alloc_ok : alloc_ok demo_map [(0x100000, 0x1000)] demo_frames.
Proof.
  split.
  - apply frame_reach_inv; [split; repeat constructor; unfold in_range; simpl; lia|].
    apply (fr_grant demo_map OneFrame (snd (frame_initialize demo_map frame_allocator_new)) _ [] (mkFrame 0x100000));
      [|by compute|reflexivity].
    apply (fr_boot demo_map (mkFrameStats 1 0x10000 0x10000 0)). reflexivity.
  - intros x (r & Hr & Hx). assert (Hu : used demo_frames = [mkRegion 0x100000 0x110000 0x101000]) by reflexivity.
    rewrite Hu in Hr. apply list_elem_of_singleton in Hr as ->. simpl in Hx. unfold PHYS_LIMIT. lia.
Qed.

Lemma demo_tables_ok : tables_ok demo_frames ∅ 4 (page_of 0x100000).
Proof.
  intros [|j idxs] es _ _ Hw; [|done]. injection Hw as <-. change (end_page (page_of 0x100000) []) with 0x100000.
  split; [reflexivity|]. split; [lia|]. split; [unfold PHYS_LIMIT; lia|]. intros x Hx (r & Hr & Hx').
  assert (Hu : used demo_frames = [mkRegion 0x100000 0x110000 0x101000]) by reflexivity.
  rewrite Hu in Hr. apply list_elem_of_singleton in Hr as ->. simpl in Hx'. lia.
Qed.

Lemma demo_flags : Forall (fun r => n_used r = true -> flags_ok (n_flags r))
  (<[O := demo_region]> (set_field n_used false <$> replicate 128 (mkNative 0 0 0 false))).
Proof.
  apply Forall_lookup. intros j r Hj Hu. apply list_lookup_insert_Some in Hj as [(_ & <- & _)|[_ Hj]].
  - split; [simpl; lia|reflexivity].
  - rewrite fmap_replicate in Hj. apply lookup_replicate in Hj as [-> _]. done.
Qed.

