(* ===== verification/Clone.v ===== *)
(** * Copying an address space: [clone_space] of [kernel/src/mm/vmm.rs]

    The copy a fork makes: the entries of the kernel half are shared, every table
    and every page of the user half is copied into a frame of its own. The state is
    that of [Vmm]; [walk] is the translation a processor performs. *)
From stdpp Require Import base list numbers option gmap.
From Stdlib Require Import ZArith Lia Bool.
From S2P Require Import Prelude Frame Vmm.

(** Eight-byte words written from [va] on, the one at index [i] with [f i]. *)
Definition set_words (va : Z) (f : Z -> Z) (ixs : list Z) (m : gmap Z Z) : gmap Z Z :=
  foldr (fun i m => <[va + 8 * i := f i]> m) m ixs.

(** [copy_nonoverlapping(from, to, ..)] of the words with the indices [ixs]. *)
Definition copy_words (from to : Z) (ixs : list Z) (m : gmap Z Z) : gmap Z Z :=
  set_words to (fun i => load m (from + 8 * i)) ixs m.

(** [frame::allocate_frame()] *)
Definition allocate_frame {E} : M vmm E (option PhysicalFrame) :=
  zoom v_frames (fun t s => set_field v_frames t s) allocate.

(** [frame::allocate_frame().unwrap().start_address()] *)
Definition new_page {E} : M vmm E Z :=
  let! f := allocate_frame in
  let! f := lift (unwrap f) in
  ret (start_address f).

Section clone.
Context {E : Type}.

(** One of the loops over a parent table: [body i e] for every entry [e] that is present. *)
Fixpoint each_present (body : Z -> Z -> M vmm E unit) (table : Z) (ixs : list Z) : M vmm E unit :=
  match ixs with
  | [] => ret tt
  | i :: rest =>
      let! slot := lift (entry_ptr table i) in
      let! m := gets v_mem in
      let e := load m slot in
      do! (if Z.land e 1 =? 0 then ret tt else body i e) in
      each_present body table rest
  end.

(** A cleared table linked at index [i] of the child's table. *)
Definition child_table (child i : Z) : M vmm E Z :=
  let! page := new_page in
  let! va := lift (phys_to_virt page) in
  do! modify (upd v_mem (zero_bytes va)) in
  let! slot := lift (entry_ptr child i) in
  do! modify (upd v_mem <[slot := Z.lor page 7]>) in
  ret page.

Definition TABLE_INDICES : list Z := seqZ 0 512.

(** The body of the loop over a page table: one page copied and linked. *)
Definition clone_frame (child_pt fi parent_frame_entry : Z) : M vmm E unit :=
  let! child_frame := new_page in
  let parent_frame := page_of parent_frame_entry in
  let! from := lift (phys_to_virt parent_frame) in
  let! to := lift (phys_to_virt child_frame) in
  do! modify (upd v_mem (copy_words from to TABLE_INDICES)) in
  let! slot := lift (entry_ptr child_pt fi) in
  modify (upd v_mem <[slot := Z.lor child_frame (Z.land parent_frame_entry 0xFFF)]>).

(** The bodies of the loops over a page directory, a directory pointer table and the top-level table. *)
Definition clone_pt (child_pd pti parent_pt_entry : Z) : M vmm E unit :=
  let! child_pt := child_table child_pd pti in
  each_present (clone_frame child_pt) (page_of parent_pt_entry) TABLE_INDICES.

Definition clone_pd (child_pdpt pdi parent_pd_entry : Z) : M vmm E unit :=
  let! child_pd := child_table child_pdpt pdi in
  each_present (clone_pt child_pd) (page_of parent_pd_entry) TABLE_INDICES.

Definition clone_pdpt (child_pml4 pdpti parent_pdpt_entry : Z) : M vmm E unit :=
  let! child_pdpt := child_table child_pml4 pdpti in
  each_present (clone_pd child_pdpt) (page_of parent_pdpt_entry) TABLE_INDICES.

Definition USER_HALF : list Z := seqZ 0 256.
Definition KERNEL_HALF : list Z := seqZ 256 256.

Definition clone_space (parent_pml4 : Z) : M vmm E Z :=
  let! f := allocate_frame in
  match f with
  | None => ret 0
  | Some frame =>
      let child_pml4 := start_address frame in
      let! from := lift (phys_to_virt parent_pml4) in
      let! to := lift (phys_to_virt child_pml4) in
      do! modify (upd v_mem (copy_words from to KERNEL_HALF)) in
      do! modify (upd v_mem (set_words to (fun _ => 0) USER_HALF)) in
      do! each_present (clone_pdpt child_pml4) parent_pml4 USER_HALF in
      ret child_pml4
  end.
End clone.

(** * Facts *)

(** The three nested bodies are one recursion on the levels below. *)
Fixpoint clone_entry {E} (n : nat) : Z -> Z -> Z -> M vmm E unit :=
  match n with
  | O => clone_frame
  | S n' => fun child i e =>
      let! t := child_table child i in
      each_present (clone_entry n' t) (page_of e) TABLE_INDICES
  end.

Lemma clone_pdpt_entry E : clone_pdpt (E:=E) = clone_entry 3.
Proof. reflexivity. Qed.

Lemma load_set_in va f ixs m i : i ∈ ixs -> load (set_words va f ixs m) (va + 8 * i) = f i.
Proof.
  intros Hi. induction ixs as [|j l IH]; [by apply elem_of_nil in Hi|]. cbn. rewrite load_insert.
  case_decide as Hd; [f_equal; lia|]. apply elem_of_cons in Hi as [->|Hi]; [done|auto].
Qed.
Lemma load_set_out va f ixs m y : (forall i, i ∈ ixs -> y <> va + 8 * i) -> load (set_words va f ixs m) y = load m y.
Proof.
  intros Hy. induction ixs as [|j l IH]; [done|]. cbn. rewrite load_insert.
  rewrite decide_False; [apply IH; intros i Hi; apply Hy; by right|]. intros <-. apply (Hy j); [left|done].
Qed.

(** The flags of a new entry: the parent's for a page, the table flags above. *)
Definition child_flags (n : nat) (e : Z) : Z := match n with O => Z.land e 0xFFF | S _ => 7 end.

Lemma child_flags_ok n e : Z.land e 1 <> 0 -> flags_ok (child_flags n e).
Proof.
  intros He. destruct n as [|n]; [|split; [simpl; lia|reflexivity]]. unfold flags_ok, child_flags.
  change 0xFFF with (Z.ones 12). rewrite Z.land_ones by lia. split; [apply Z.mod_pos_bound; lia|].
  change 1 with (Z.ones 1) in He. rewrite Z.land_ones in He by lia. change (2 ^ 1) with 2 in He. change (2 ^ 12) with (2 * 2048).
  pose proof (Z.div_mod (e mod (2 * 2048)) 2). pose proof (Z.div_mod e (2 * 2048)). pose proof (Z.div_mod e 2).
  pose proof (Z.mod_pos_bound e 2). pose proof (Z.mod_pos_bound (e mod (2 * 2048)) 2). lia.
Qed.

(** [f] is a page that was free in [s] and is not in [s']. *)
Definition fresh (s s' : vmm) (f : Z) : Prop :=
  f mod 4096 = 0 /\ 0 <= f /\ f + 4096 <= PHYS_LIMIT /\
  forall x, f <= x < f + 4096 -> free_at (v_frames s) x /\ ~ free_at (v_frames s') x.

(** The words that are not free keep their value, those of [P] apart, and no memory is given back. *)
Definition kept (P : Z -> Prop) (s s' : vmm) : Prop :=
  v_table s' = v_table s /\ (forall x, free_at (v_frames s') x -> free_at (v_frames s) x) /\
  forall x, ~ free_at (v_frames s) x -> ~ P x -> load (v_mem s') (x + HHDM_BASE) = load (v_mem s) (x + HHDM_BASE).

Lemma kept_refl P s : kept P s s.
Proof. by split. Qed.
Lemma kept_trans P P' s1 s2 s3 :
  kept P s1 s2 -> kept P' s2 s3 -> (forall x, P' x -> P x \/ free_at (v_frames s1) x) -> kept P s1 s3.
Proof.
  intros (T1 & F1 & L1) (T2 & F2 & L2) HP. split; [congruence|]. split; [auto|]. intros x Hx HPx. rewrite L2.
  - by apply L1.
  - intros Hf. by apply Hx, F1.
  - intros Hp. destruct (HP x Hp); contradiction.
Qed.
Lemma fresh_later s1 s2 s3 f : (forall x, free_at (v_frames s3) x -> free_at (v_frames s2) x) -> fresh s1 s2 f -> fresh s1 s3 f.
Proof. intros F (H1 & H2 & H3 & H). repeat split; try done; [by apply H|]. intros Hf. by apply (H x), F. Qed.
Lemma fresh_earlier s1 s2 s3 f : (forall x, free_at (v_frames s2) x -> free_at (v_frames s1) x) -> fresh s2 s3 f -> fresh s1 s3 f.
Proof. intros F (H1 & H2 & H3 & H). repeat split; try done; [by apply F, H|by apply H]. Qed.

(** ** Runs *)
Section runs.
Context (map : list MemoryMapEntry) {E : Type}.

Definition good (s : vmm) : Prop := exists g, alloc_ok map g (v_frames s).

(** [r] is the result of a run from [s] that writes only memory that was free and the words of
    [P]: it ends with [Q], or it panics because no frame is left. *)
Definition does {A} (s : vmm) (P : Z -> Prop) (r : outcome E A * vmm) (Q : A -> vmm -> Prop) : Prop :=
  match r with
  | (Ok x, s') => good s' /\ kept P s s' /\ Q x s'
  | (Panic, s') => good s' /\ kept P s s' /\ allocate (E:=E) (v_frames s') = (Ok None, v_frames s')
  | _ => False
  end.

Lemma does_mono {A} s P (r : outcome E A * vmm) Q Q' :
  does s P r Q -> (forall v s', good s' -> kept P s s' -> Q v s' -> Q' v s') -> does s P r Q'.
Proof. intros H HQ. destruct r as [[v|e| |] s']; cbn in *; try done. destruct H as (? & ? & ?). auto. Qed.

Lemma new_page_run s : good s -> does s (fun _ => False) (new_page s) (fun f s' => fresh s s' f /\ v_mem s' = v_mem s).
Proof.
  intros [g [Hinv Hlim]]. unfold new_page, allocate_frame. run. pose proof (allocate_free E map (v_frames s) g Hinv) as Ha.
  destruct (allocate (v_frames s)) as [[[f|]|e| |] a'] eqn:Halloc; try done.
  - destruct Ha as (Hinv' & Hal & Hlow & Hfresh & Hshrink). unfold PAGE_SIZE, BOOTSTRAP_RESERVED_END in *. cbn.
    split; [exists ((start_address f, 4096) :: g); split; [done|eauto]|]. split; [by split|]. split; [|done].
    split; [done|]. split; [lia|]. split; [|done]. destruct (Hfresh (start_address f + 4095) ltac:(lia)) as [Hfr _]. specialize (Hlim _ Hfr). lia.
  - subst a'. destruct s as [t a m]. cbn in *. split; [exists g; by split|]. split; [apply kept_refl|done].
Qed.

(** Writing a page that was free and linking it at [slot]. *)
Lemma linked s s1 c i f v (m' : gmap Z Z) :
  fresh s s1 f -> kept (fun _ => False) s s1 -> v_mem s1 = v_mem s ->
  (forall y, (forall j, 0 <= j < 512 -> y <> f + HHDM_BASE + 8 * j) -> load m' y = load (v_mem s) y) ->
  kept (fun x => x = c + 8 * i) s (set_field v_mem (<[c + HHDM_BASE + 8 * i := v]> m') s1).
Proof.
  intros (_ & _ & _ & Hf) (T & F & _) _ Hm. split; [exact T|]. split; [exact F|]. intros x Hx Hne. cbn. rewrite load_insert, decide_False by lia.
  apply Hm. intros j Hj Heq. apply Hx, Hf. lia.
Qed.

(** A page of the child: free when the copy began, allocated since. *)
Definition child_page (a0 : FrameAllocator) (s : vmm) (c : Z) : Prop :=
  0 <= c /\ c + 4096 <= PHYS_LIMIT /\ forall x, c <= x < c + 4096 -> free_at a0 x /\ ~ free_at (v_frames s) x.

Lemma entry_ptr_ok t i : 0 <= t -> t + 4096 <= PHYS_LIMIT -> entry_ptr (E:=E) t i = Ok (t + HHDM_BASE + 8 * i).
Proof. intros H0 Hl. unfold entry_ptr, phys_to_virt. rewrite add_ok; [done|]. unfold PHYS_LIMIT, HHDM_BASE in *. lia. Qed.
Lemma phys_to_virt_ok t : 0 <= t -> t + 4096 <= PHYS_LIMIT -> phys_to_virt (E:=E) t = Ok (t + HHDM_BASE).
Proof. intros H0 Hl. unfold phys_to_virt. rewrite add_ok; [done|]. unfold PHYS_LIMIT, HHDM_BASE in *. lia. Qed.

(** A fresh page and a page in use share no word. *)
Lemma fresh_apart s s' f c j k : fresh s s' f -> (forall x, c <= x < c + 4096 -> ~ free_at (v_frames s) x) ->
  0 <= j < 512 -> 0 <= k < 512 -> c + HHDM_BASE + 8 * j <> f + HHDM_BASE + 8 * k.
Proof. intros (_ & _ & _ & Hf) Hc Hj Hk Heq. apply (Hc (c + 8 * j)); [lia|]. apply Hf. lia. Qed.

Lemma child_table_run a0 s c i : good s -> child_page a0 s c -> index_ok i ->
  does s (fun x => x = c + 8 * i) (child_table c i s) (fun f s' => fresh s s' f /\
    load (v_mem s') (c + HHDM_BASE + 8 * i) = Z.lor f 7 /\ forall j, index_ok j -> load (v_mem s') (f + HHDM_BASE + 8 * j) = 0).
Proof.
  intros G (C0 & C1 & C2) Hi. unfold child_table. unfold bind at 1. pose proof (new_page_run s G) as H. unfold does in H.
  destruct (new_page s) as [[f|e| |] s1]; try done.
  2:{ destruct H as (G1 & K1 & A1). split; [done|]. split; [|done]. by eapply kept_trans; [apply kept_refl|exact K1|]. }
  destruct H as (G1 & K1 & Hf & Hm). pose proof Hf as (_ & F0 & F1 & _). run. rewrite phys_to_virt_ok, entry_ptr_ok by done. cbn [fst snd].
  assert (Hap : forall j k, index_ok j -> index_ok k -> c + HHDM_BASE + 8 * j <> f + HHDM_BASE + 8 * k).
  { intros j k Hj Hk. apply (fresh_apart s s1); [done| |done|done]. intros x Hx. by apply C2. }
  unfold upd. cbn. rewrite Hm. split; [done|]. split; [|split; [done|split]].
  - apply (linked s s1 c i f); [done|done|done|]. intros y Hy. apply load_zero_out. exact Hy.
  - by rewrite load_insert, decide_True.
  - intros j Hj. rewrite load_insert, decide_False by (by apply Hap). by apply load_zero_in.
Qed.

Lemma clone_frame_run a0 s c i e : good s -> child_page a0 s c -> index_ok i -> page_ok a0 (page_of e) ->
  (forall x, free_at (v_frames s) x -> free_at a0 x) ->
  does s (fun x => x = c + 8 * i) (clone_frame c i e s) (fun _ s' => exists f, fresh s s' f /\
    load (v_mem s') (c + HHDM_BASE + 8 * i) = Z.lor f (Z.land e 0xFFF) /\
    forall j, index_ok j -> load (v_mem s') (f + HHDM_BASE + 8 * j) = load (v_mem s) (page_of e + HHDM_BASE + 8 * j)).
Proof.
  intros G (C0 & C1 & C2) Hi (P0 & P1 & P2 & P3) Hsub. unfold clone_frame. unfold bind at 1. pose proof (new_page_run s G) as H. unfold does in H.
  destruct (new_page s) as [[f|er| |] s1]; try done.
  2:{ destruct H as (G1 & K1 & A1). split; [done|]. split; [|done]. by eapply kept_trans; [apply kept_refl|exact K1|]. }
  destruct H as (G1 & K1 & Hf & Hm). pose proof Hf as (_ & F0 & F1 & _). run. rewrite !phys_to_virt_ok, entry_ptr_ok by done. cbn [fst snd].
  unfold upd. cbn. rewrite Hm. split; [done|]. split; [|exists f; split; [done|split]].
  - apply (linked s s1 c i f); [done|done|done|]. intros y Hy. apply load_set_out. intros j Hj%elem_of_seqZ. apply Hy. lia.
  - by rewrite load_insert, decide_True.
  - intros j Hj. rewrite load_insert, decide_False.
    + unfold copy_words. rewrite load_set_in; [done|]. apply elem_of_seqZ. unfold index_ok, in_range in Hj. lia.
    + apply (fresh_apart s s1); [done| |done|done]. intros x Hx. by apply C2.
Qed.

(** ** The copy of a subtree *)
Section copy.
Context (a0 : FrameAllocator) (m0 : gmap Z Z).

(** The child's table [c] holds at the indices [ixs] what the copy of the parent's table [p]
    must: nothing where the parent has nothing, else a page of [fs] with [flags] that [below]
    relates to the parent's. The pages below two indices are apart. *)
Definition row (below : gmap Z Z -> Z -> Z -> list Z -> Prop) (flags : Z -> Z) (m : gmap Z Z) (ixs : list Z) (p c : Z) (fs : list Z) : Prop :=
  exists sub : Z -> list Z,
    (forall i j f, i ∈ ixs -> j ∈ ixs -> f ∈ sub i -> f ∈ sub j -> i = j) /\
    forall i, i ∈ ixs -> (forall f, f ∈ sub i -> f ∈ fs) /\
      let e := load m0 (p + HHDM_BASE + 8 * i) in
      if Z.land e 1 =? 0 then load m (c + HHDM_BASE + 8 * i) = 0
      else exists f fs1, sub i = f :: fs1 /\ page_of (Z.lor f (flags e)) = f /\ Z.land (Z.lor f (flags e)) 1 <> 0 /\
        f ∉ fs1 /\ load m (c + HHDM_BASE + 8 * i) = Z.lor f (flags e) /\ below m (page_of e) f fs1.

(** [n] levels of tables below [p] and [c], and then pages with equal contents. *)
Fixpoint mirror (n : nat) (m : gmap Z Z) (p c : Z) (fs : list Z) : Prop :=
  match n with
  | O => forall j, index_ok j -> load m (c + HHDM_BASE + 8 * j) = load m0 (p + HHDM_BASE + 8 * j)
  | S n' => row (mirror n') (child_flags n') m TABLE_INDICES p c fs
  end.

Definition same_page (m m' : gmap Z Z) (c : Z) : Prop := forall j, index_ok j -> load m' (c + HHDM_BASE + 8 * j) = load m (c + HHDM_BASE + 8 * j).

Lemma row_kept below flags m m' ixs p c fs :
  (forall p c fs1, (forall f, f ∈ fs1 -> f ∈ fs) -> same_page m m' c -> below m p c fs1 -> below m' p c fs1) ->
  (forall f, f ∈ fs -> same_page m m' f) -> (forall i, i ∈ ixs -> load m' (c + HHDM_BASE + 8 * i) = load m (c + HHDM_BASE + 8 * i)) ->
  row below flags m ixs p c fs -> row below flags m' ixs p c fs.
Proof.
  intros Hb Hfs Hc (sub & Hdis & H). exists sub. split; [done|]. intros i Hi. destruct (H i Hi) as [Hsub Hi']. split; [done|]. cbv zeta in *. rewrite Hc by done.
  destruct (Z.land (load m0 (p + HHDM_BASE + 8 * i)) 1 =? 0); [done|]. destruct Hi' as (f & fs1 & E1 & E2 & E3 & E4 & E5 & E6).
  exists f, fs1. repeat split; try done. rewrite E1 in Hsub. apply Hb; [|apply Hfs, Hsub; left|done]. intros g Hg. apply Hsub. by right.
Qed.

Lemma mirror_kept n m m' p c fs : same_page m m' c -> (forall f, f ∈ fs -> same_page m m' f) -> mirror n m p c fs -> mirror n m' p c fs.
Proof.
  revert p c fs. induction n as [|n IH]; intros p c fs Hc Hfs H.
  - intros j Hj. rewrite Hc by done. by apply H.
  - cbn in *. eapply row_kept; [|exact Hfs| |exact H].
    + intros p1 c1 fs1 Hsub Hc1. apply IH; auto.
    + intros i Hi%elem_of_seqZ. apply Hc. unfold index_ok, in_range. lia.
Qed.

(** The parent as it was when the copy began. *)
Definition parent_kept (s : vmm) : Prop :=
  (forall x, free_at (v_frames s) x -> free_at a0 x) /\ forall x, ~ free_at a0 x -> load (v_mem s) (x + HHDM_BASE) = load m0 (x + HHDM_BASE).

Lemma parent_kept_step P s s' : parent_kept s -> kept P s s' -> (forall x, P x -> free_at a0 x) -> parent_kept s'.
Proof.
  intros [F L] (_ & F' & L') HP. split; [auto|]. intros x Hx. rewrite L'; [by apply L| |].
  - intros Hf. by apply Hx, F.
  - intros Hp. by apply Hx, HP.
Qed.
Lemma parent_word s p j : parent_kept s -> page_ok a0 p -> index_ok j -> load (v_mem s) (p + HHDM_BASE + 8 * j) = load m0 (p + HHDM_BASE + 8 * j).
Proof.
  intros [_ L] (_ & _ & _ & Hp) Hj. unfold index_ok, in_range in Hj. replace (p + HHDM_BASE + 8 * j) with (p + 8 * j + HHDM_BASE) by lia. apply L, Hp. lia.
Qed.

Lemma row_cons below flags m i ixs p c fi fs :
  i ∉ ixs -> (forall f, f ∈ fi -> f ∉ fs) -> row below flags m ixs p c fs ->
  (let e := load m0 (p + HHDM_BASE + 8 * i) in
   if Z.land e 1 =? 0 then load m (c + HHDM_BASE + 8 * i) = 0
   else exists f fs1, fi = f :: fs1 /\ page_of (Z.lor f (flags e)) = f /\ Z.land (Z.lor f (flags e)) 1 <> 0 /\
     f ∉ fs1 /\ load m (c + HHDM_BASE + 8 * i) = Z.lor f (flags e) /\ below m (page_of e) f fs1) ->
  row below flags m (i :: ixs) p c (fi ++ fs).
Proof.
  intros Hi Hd (sub & Hdis & H) Hn. assert (Hsub : forall j f, j ∈ ixs -> f ∈ sub j -> f ∈ fs) by (intros j f Hj; by apply (H j)).
  exists (fun j => if decide (j = i) then fi else sub j). split.
  - intros j k f Hj Hk Hfj Hfk. apply elem_of_cons in Hj, Hk.
    destruct (decide (j = i)) as [->|Hji], (decide (k = i)) as [->|Hki]; try done.
    + destruct Hk as [Hk|Hk]; [done|]. destruct (Hd f Hfj). by apply (Hsub k).
    + destruct Hj as [Hj|Hj]; [done|]. destruct (Hd f Hfk). by apply (Hsub j).
    + destruct Hj as [Hj|Hj], Hk as [Hk|Hk]; try done. by apply (Hdis j k f).
  - intros j Hj. destruct (decide (j = i)) as [->|Hji].
    + split; [|done]. intros f Hf. apply elem_of_app. by left.
    + apply elem_of_cons in Hj as [Hj|Hj]; [done|]. destruct (H j Hj) as [H1 H2]. split; [|done]. intros f Hf. apply elem_of_app. right. by apply H1.
Qed.

Lemma does_weaken {A} s (P P' : Z -> Prop) (r : outcome E A * vmm) Q : does s P r Q -> (forall x, P x -> P' x) -> does s P' r Q.
Proof.
  intros H HP. assert (W : forall s', kept P s s' -> kept P' s s').
  { intros s' K. eapply kept_trans; [apply kept_refl|exact K|]. auto. }
  destruct r as [[v|e| |] s']; cbn in *; try done; destruct H as (? & ? & ?); auto.
Qed.

Lemma child_page_later s s' c : (forall x, free_at (v_frames s') x -> free_at (v_frames s) x) -> child_page a0 s c -> child_page a0 s' c.
Proof. intros F (C0 & C1 & C2). split; [done|]. split; [done|]. intros x Hx. destruct (C2 x Hx). auto. Qed.
Lemma child_word s s' P c j : kept P s s' -> child_page a0 s c -> index_ok j -> ~ P (c + 8 * j) ->
  load (v_mem s') (c + HHDM_BASE + 8 * j) = load (v_mem s) (c + HHDM_BASE + 8 * j).
Proof.
  intros (_ & _ & L) (_ & _ & C) Hj HP. unfold index_ok, in_range in Hj. replace (c + HHDM_BASE + 8 * j) with (c + 8 * j + HHDM_BASE) by lia.
  apply L; [|done]. apply C. lia.
Qed.
(** A page allocated before a run that writes elsewhere. *)
Lemma fresh_same_page s0 s s' P f : kept P s s' -> fresh s0 s f -> (forall j, index_ok j -> ~ P (f + 8 * j)) -> same_page (v_mem s) (v_mem s') f.
Proof.
  intros (_ & _ & L) (_ & _ & _ & F) HP j Hj. pose proof (HP j Hj). unfold index_ok, in_range in Hj. replace (f + HHDM_BASE + 8 * j) with (f + 8 * j + HHDM_BASE) by lia.
  apply L; [|done]. apply F. lia.
Qed.

(** What the body of a loop does for the entry [e] at index [i]. *)
Definition entry_copied (n : nat) : Prop := forall s c i e,
  good s -> parent_kept s -> child_page a0 s c -> index_ok i -> tables_ok a0 m0 n (page_of e) -> Z.land e 1 <> 0 ->
  does s (fun x => x = c + 8 * i) (clone_entry n c i e s) (fun _ s' => exists f fs, fresh s s' f /\ Forall (fresh s s') fs /\ f ∉ fs /\
    load (v_mem s') (c + HHDM_BASE + 8 * i) = Z.lor f (child_flags n e) /\ mirror n (v_mem s') (page_of e) f fs).

(** The words of the indices [ixs] of the table [c]. *)
Definition slots (c : Z) (ixs : list Z) (x : Z) : Prop := exists i, i ∈ ixs /\ x = c + 8 * i.

Lemma slots_cons s s1 s2 c i ixs : kept (fun x => x = c + 8 * i) s s1 -> kept (slots c ixs) s1 s2 -> kept (slots c (i :: ixs)) s s2.
Proof.
  intros K1 K2. eapply kept_trans with (P' := slots c ixs); [|exact K2|].
  - eapply kept_trans; [apply kept_refl|exact K1|]. intros x ->. left. exists i. split; [left|done].
  - intros x (j & Hj & ->). left. exists j. split; [by right|done].
Qed.

(** The subtree of one index is kept while the entries of the others are made. *)
Lemma subtree_kept n s0 s s' c ixs p f fs : child_page a0 s0 c -> Forall index_ok ixs -> kept (slots c ixs) s s' ->
  fresh s0 s f -> Forall (fresh s0 s) fs -> mirror n (v_mem s) p f fs -> mirror n (v_mem s') p f fs.
Proof.
  intros Hc Hix K Hf Hfs Hm. rewrite list.Forall_forall in Hix, Hfs.
  assert (Hsame : forall g, fresh s0 s g -> same_page (v_mem s) (v_mem s') g).
  { intros g Hg. eapply fresh_same_page; [exact K|exact Hg|]. intros j Hj (k & Hk & Heq). apply (fresh_apart s0 s g c k j Hg); [|by apply Hix|done|lia].
    intros x Hx. by apply Hc. }
  apply (mirror_kept n (v_mem s)); auto.
Qed.

Lemma fresh_disjoint s s1 s2 f fs : fresh s s1 f -> Forall (fresh s1 s2) fs -> f ∉ fs.
Proof.
  intros (_ & _ & _ & F) Hfs Hin. rewrite list.Forall_forall in Hfs. destruct (Hfs f Hin) as (_ & _ & _ & F'). apply (F f); [lia|]. apply F'. lia.
Qed.

Section loop.
Context (n : nat) (p c : Z) (Hentry : entry_copied n) (Hp : page_ok a0 p).

(** The entries of the parent's table at [ixs] lead to tables that are in use. *)
Definition rows_ok (ixs : list Z) : Prop := forall i, i ∈ ixs ->
  Z.land (load m0 (p + HHDM_BASE + 8 * i)) 1 <> 0 -> tables_ok a0 m0 n (page_of (load m0 (p + HHDM_BASE + 8 * i))).
Definition cleared (s : vmm) (ixs : list Z) : Prop := forall i, i ∈ ixs -> load (v_mem s) (c + HHDM_BASE + 8 * i) = 0.
Definition row_copied (ixs : list Z) (s s' : vmm) : Prop :=
  exists fs, Forall (fresh s s') fs /\ row (mirror n) (child_flags n) (v_mem s') ixs p c fs.

Lemma row_absent s s' i ixs : i ∉ ixs -> index_ok i -> child_page a0 s c -> Z.land (load m0 (p + HHDM_BASE + 8 * i)) 1 = 0 ->
  load (v_mem s) (c + HHDM_BASE + 8 * i) = 0 -> kept (slots c ixs) s s' -> row_copied ixs s s' -> row_copied (i :: ixs) s s'.
Proof.
  intros Hi Hio Hc He Hz K (fs & Hfs & Hrow). exists fs. split; [done|].
  apply (row_cons _ _ _ i ixs p c [] fs); [done|by intros f Hf%elem_of_nil|done|]. cbv zeta. rewrite He, Z.eqb_refl.
  rewrite (child_word s s' (slots c ixs) c i); [done|done|done|done|]. intros (j & Hj & Heq). apply Hi. by replace i with j by lia.
Qed.

Lemma row_present s s1 s2 i ixs f fs1 : let e := load m0 (p + HHDM_BASE + 8 * i) in
  i ∉ ixs -> index_ok i -> Forall index_ok ixs -> child_page a0 s c -> Z.land e 1 <> 0 ->
  kept (fun x => x = c + 8 * i) s s1 -> kept (slots c ixs) s1 s2 ->
  fresh s s1 f -> Forall (fresh s s1) fs1 -> f ∉ fs1 -> load (v_mem s1) (c + HHDM_BASE + 8 * i) = Z.lor f (child_flags n e) ->
  mirror n (v_mem s1) (page_of e) f fs1 -> row_copied ixs s1 s2 -> row_copied (i :: ixs) s s2.
Proof.
  intros e Hi Hio Hix Hc He K1 K2 Hf Hfs1 Hnf Hslot Hm (fs2 & Hfs2 & Hrow). pose proof K1 as (_ & F1 & _). pose proof K2 as (_ & F2 & _).
  exists ((f :: fs1) ++ fs2). split.
  - apply Forall_app. split; [constructor|].
    + by eapply fresh_later.
    + eapply Forall_impl; [exact Hfs1|]. intros g Hg. by eapply fresh_later.
    + eapply Forall_impl; [exact Hfs2|]. intros g Hg. by eapply fresh_earlier.
  - apply row_cons; [done| |done|].
    + intros g Hg. eapply fresh_disjoint; [|exact Hfs2]. apply elem_of_cons in Hg as [->|Hg]; [done|]. rewrite list.Forall_forall in Hfs1. by apply Hfs1.
    + cbv zeta. fold e. rewrite (proj2 (Z.eqb_neq _ 0) He). exists f, fs1. pose proof Hf as (A0 & A1 & A2 & _).
      destruct (entry_fields f (child_flags n e) A0 A1 A2 (child_flags_ok n e He)) as [E1 E2]. repeat split; try done.
      * rewrite (child_word s1 s2 (slots c ixs) c i); [done|done|by eapply child_page_later|done|]. intros (j & Hj & Heq). apply Hi. by replace i with j by lia.
      * by eapply (subtree_kept n s s1 s2 c ixs).
Qed.

Lemma loop_copied ixs : forall s, NoDup ixs -> Forall index_ok ixs -> good s -> parent_kept s -> child_page a0 s c -> rows_ok ixs -> cleared s ixs ->
  does s (slots c ixs) (each_present (clone_entry n c) p ixs s) (fun _ s' => row_copied ixs s s').
Proof.
  induction ixs as [|i ixs IH]; intros s Hnd Hix G Hpar Hc Ht Hz.
  { split; [done|]. split; [apply kept_refl|]. exists []. split; [constructor|]. exists (fun _ => []). split; [intros i j f Hi; by apply elem_of_nil in Hi|]. intros i Hi. by apply elem_of_nil in Hi. }
  apply NoDup_cons in Hnd as [Hi Hnd]. apply Forall_cons in Hix as [Hio Hix]. pose proof Hp as (_ & P1 & P2 & _).
  assert (Ht' : rows_ok ixs) by (intros j Hj; apply Ht; by right).
  assert (Hz' : cleared s ixs) by (intros j Hj; apply Hz; by right).
  cbn [each_present]. unfold bind at 1, lift at 1. rewrite entry_ptr_ok by done. unfold bind at 1, gets at 1. cbv zeta. rewrite parent_word by done.
  destruct (Z.land (load m0 (p + HHDM_BASE + 8 * i)) 1 =? 0) eqn:He.
  - apply Z.eqb_eq in He. unfold bind, ret. apply (does_weaken s (slots c ixs)); [|intros x (j & Hj & ->); exists j; split; [by right|done]].
    eapply does_mono; [by apply IH|]. intros v s' _ K. apply row_absent; [done|done|done|done|apply Hz; left|done].
  - apply Z.eqb_neq in He. pose proof (Hentry s c i _ G Hpar Hc Hio (Ht i (list_elem_of_here _ _) He) He) as H1. unfold bind. unfold does in H1.
    destruct (clone_entry n c i _ s) as [[[]|er| |] s1]; try done.
    2:{ destruct H1 as (G1 & K1 & A1). split; [done|]. split; [|done]. eapply slots_cons; [exact K1|apply kept_refl]. }
    destruct H1 as (G1 & K1 & f & fs1 & Ff & Ffs & Hnf & Hslot & Hmir). pose proof K1 as (_ & F1 & _).
    assert (Hpar1 : parent_kept s1).
    { eapply parent_kept_step; [exact Hpar|exact K1|]. intros x ->. apply Hc. unfold index_ok, in_range in Hio. lia. }
    assert (Hz1 : cleared s1 ixs).
    { intros j Hj. rewrite (child_word s s1 _ c j K1 Hc); [by apply Hz'|by rewrite list.Forall_forall in Hix; apply Hix|].
      intros Heq. apply Hi. by replace i with j by lia. }
    pose proof (IH s1 Hnd Hix G1 Hpar1 (child_page_later _ _ _ F1 Hc) Ht' Hz1) as H2. unfold does in H2 |- *.
    destruct (each_present (clone_entry n c) p ixs s1) as [[[]|er| |] s2]; try done; destruct H2 as (G2 & K2 & H2).
    + split; [done|]. split; [by eapply slots_cons|]. by eapply (row_present s s1 s2 i ixs f fs1).
    + split; [done|]. split; [by eapply slots_cons|done].
Qed.
End loop.

Lemma entry_copied_all n : entry_copied n.
Proof.
  induction n as [|n IH]; intros s c i e G Hpar Hc Hi Ht He.
  - eapply does_mono; [apply (clone_frame_run a0 s c i e G Hc Hi (tables_ok_here _ _ _ _ Ht) (proj1 Hpar))|].
    intros v s' _ K (f & Hf & Hslot & Hw). exists f, []. split; [done|]. split; [constructor|]. split; [by intros Hn%elem_of_nil|]. split; [done|].
    intros j Hj. rewrite Hw by done. apply parent_word; [done|by eapply tables_ok_here|done].
  - cbn [clone_entry]. unfold bind. pose proof (child_table_run a0 s c i G Hc Hi) as H1. unfold does in H1.
    destruct (child_table c i s) as [[t|er| |] s1]; try done. destruct H1 as (G1 & K1 & Hf & Hslot & Hz).
    pose proof K1 as (_ & F1 & _). pose proof Hf as (T0 & T1 & T2 & T3).
    assert (Hpar1 : parent_kept s1).
    { eapply parent_kept_step; [exact Hpar|exact K1|]. intros x ->. apply Hc. unfold index_ok, in_range in Hi. lia. }
    assert (Hct : child_page a0 s1 t).
    { split; [done|]. split; [done|]. intros x Hx. destruct (T3 x Hx). split; [by apply (proj1 Hpar)|done]. }
    assert (Hidx : Forall index_ok TABLE_INDICES) by (apply list.Forall_forall; intros j Hj%elem_of_seqZ; unfold index_ok, in_range; lia).
    assert (Hrows : rows_ok n (page_of e) TABLE_INDICES).
    { intros j Hj Hpj. apply tables_ok_step; [done| |done]. rewrite list.Forall_forall in Hidx. by apply Hidx. }
    assert (Hclear : cleared t s1 TABLE_INDICES) by (intros j Hj; apply Hz; rewrite list.Forall_forall in Hidx; by apply Hidx).
    pose proof (loop_copied n (page_of e) t IH (tables_ok_here _ _ _ _ Ht) TABLE_INDICES s1 (NoDup_seqZ _ _) Hidx G1 Hpar1 Hct Hrows Hclear) as H2.
    assert (Hin : forall x, slots t TABLE_INDICES x -> x = c + 8 * i \/ free_at (v_frames s) x).
    { intros x (j & Hj%elem_of_seqZ & ->). right. apply T3. lia. }
    unfold does in H2 |- *. destruct (each_present (clone_entry n t) (page_of e) TABLE_INDICES s1) as [[[]|er| |] s2]; try done; destruct H2 as (G2 & K2 & H2).
    + split; [done|]. split; [by eapply kept_trans|]. destruct H2 as (fs & Hfs & Hrow). pose proof K2 as (_ & F2 & _). exists t, fs. split; [by eapply fresh_later|].
      split; [eapply Forall_impl; [exact Hfs|]; intros g Hg; by eapply fresh_earlier|]. split; [by eapply fresh_disjoint|]. split; [|done].
      rewrite (child_word s1 s2 _ c i K2 (child_page_later _ _ _ F1 Hc) Hi); [done|]. intros (j & Hj%elem_of_seqZ & Heq).
      apply (fresh_apart s s1 t c i j Hf); [|done|lia|lia]. intros x Hx. by apply Hc.
    + split; [done|]. split; [by eapply kept_trans|done].
Qed.

(** ** Translation in the copy *)
Lemma low_bits_entry f fl x : page_of x = f -> Z.land (Z.lor f fl) 0xFFF = Z.land fl 0xFFF.
Proof.
  intros <-. rewrite Z.land_lor_distr_l. unfold page_of. rewrite <- Z.land_assoc. replace (Z.land (bitnot U64 0xFFF) 0xFFF) with 0 by reflexivity. by rewrite Z.land_0_r.
Qed.

Definition low_bits (e : option Z) : option Z := (fun e => Z.land e 0xFFF) <$> e.

(** How a walk in the copy relates to the walk along the same indices in the original. *)
Definition walks (n : nat) (m : gmap Z Z) (p c : Z) (fs idxs : list Z) : Prop :=
  match walk m0 p idxs with
  | None => walk m c idxs = None
  | Some es => exists es', walk m c idxs = Some es' /\ length es' = length es /\ end_page c es' ∈ fs /\
      (length idxs = n -> low_bits (last es') = low_bits (last es) /\
        forall j, index_ok j -> load m (end_page c es' + HHDM_BASE + 8 * j) = load m0 (end_page p es + HHDM_BASE + 8 * j))
  end.

Lemma length_walk m t idxs es : walk m t idxs = Some es -> length es = length idxs.
Proof.
  revert t es. induction idxs as [|i idxs IH]; intros t es H; cbn [walk] in H; [by injection H as <-|].
  destruct (_ =? 0); [done|]. destruct (walk m _ idxs) as [es1|] eqn:Hw; [|done]. injection H as <-. cbn. f_equal. by eapply IH.
Qed.

Lemma row_walk n m ixs p c fs i idxs :
  (forall p c fs, mirror n m p c fs -> walks n m p c (c :: fs) idxs) ->
  row (mirror n) (child_flags n) m ixs p c fs -> i ∈ ixs -> walks (S n) m p c fs (i :: idxs).
Proof.
  intros IH (sub & _ & H) Hi. destruct (H i Hi) as [Hsub He]. unfold walks. cbn [walk]. cbv zeta in He. set (e := load m0 (p + HHDM_BASE + 8 * i)) in *.
  destruct (Z.land e 1 =? 0) eqn:Hp; [by rewrite He|]. destruct He as (f & fs1 & E1 & E2 & E3 & E4 & E5 & E6). rewrite E5, E2, (proj2 (Z.eqb_neq _ 0) E3).
  specialize (IH _ _ _ E6). unfold walks in IH. destruct (walk m0 (page_of e) idxs) as [es|] eqn:Hw; cbn; [|by rewrite IH].
  destruct IH as (es' & -> & Hl & Hend & Heq). exists (Z.lor f (child_flags n e) :: es'). split; [done|]. split; [cbn; lia|]. rewrite !end_page_cons, E2. split; [apply Hsub; by rewrite E1|].
  intros Hn. destruct (Heq ltac:(cbn in Hn; lia)) as [Hlow Hwords]. split; [|done]. rewrite !last_cons.
  destruct (last es) as [y|] eqn:Hy, (last es') as [y'|] eqn:Hy'; try done. apply last_None in Hy. pose proof (length_walk _ _ _ _ Hw) as Hlw. rewrite Hy in Hlw. cbn in Hlw, Hn.
  replace n with O by lia. unfold low_bits. cbn. f_equal. rewrite (low_bits_entry f _ _ E2), <- Z.land_assoc. done.
Qed.

Lemma mirror_walk n m idxs : forall p c fs, (length idxs <= n)%nat -> Forall index_ok idxs -> mirror n m p c fs -> walks n m p c (c :: fs) idxs.
Proof.
  revert idxs. induction n as [|n IH]; intros idxs p c fs Hl Hix Hm; (destruct idxs as [|i idxs]; [exists []; split; [done|]; split; [done|]; split; [left|]|]).
  - intros _. split; [done|]. exact Hm.
  - cbn in Hl. lia.
  - done.
  - apply Forall_cons in Hix as [Hi Hix].
    assert (Hw : walks (S n) m p c fs (i :: idxs)).
    { eapply row_walk; [|exact Hm|apply elem_of_seqZ; unfold index_ok, in_range in Hi; lia]. intros p1 c1 fs1. apply IH; [cbn in Hl; lia|done]. }
    unfold walks in *. destruct (walk m0 p (i :: idxs)); [|done]. destruct Hw as (es' & ? & ? & ? & ?). exists es'. repeat split; try done; [by right| |]; by apply H2.
Qed.

(** Two paths of the copy that end in the same page are the same. *)
Lemma row_inj n m ixs p c fs i idxs j idxs' es es' :
  (forall p c fs es es', c ∉ fs -> mirror n m p c fs -> walk m c idxs = Some es -> walk m c idxs' = Some es' -> end_page c es = end_page c es' -> idxs = idxs') ->
  length idxs = n -> length idxs' = n -> Forall index_ok idxs -> Forall index_ok idxs' ->
  row (mirror n) (child_flags n) m ixs p c fs -> i ∈ ixs -> j ∈ ixs ->
  walk m c (i :: idxs) = Some es -> walk m c (j :: idxs') = Some es' -> end_page c es = end_page c es' -> i :: idxs = j :: idxs'.
Proof.
  intros IH Hl Hl' Hix Hix' (sub & Hdis & H) Hi Hj Hw Hw' Heq.
  assert (Hone : forall k r es, k ∈ ixs -> length r = n -> Forall index_ok r -> walk m c (k :: r) = Some es ->
    exists f fs1 es1 e, sub k = f :: fs1 /\ load m (c + HHDM_BASE + 8 * k) = e /\ page_of e = f /\ f ∉ fs1 /\ end_page c es = end_page f es1 /\
      walk m f r = Some es1 /\ end_page f es1 ∈ f :: fs1 /\ exists q, mirror n m q f fs1).
  { clear - H. intros k r es Hk Hr Hix Hw. destruct (H k Hk) as [_ He]. cbn [walk] in Hw. cbv zeta in He. destruct (Z.land (load m0 _) 1 =? 0); [by rewrite He in Hw|].
    destruct He as (f & fs1 & E1 & E2 & E3 & E4 & E5 & E6). rewrite E5, E2, (proj2 (Z.eqb_neq _ 0) E3) in Hw.
    destruct (walk m f r) as [es1|] eqn:Hwf; [|done]. injection Hw as <-. exists f, fs1, es1, (Z.lor f (child_flags n (load m0 (p + HHDM_BASE + 8 * k)))).
    rewrite end_page_cons, E2. repeat split; try done; [|by eexists]. pose proof (mirror_walk n m r _ f fs1 ltac:(lia) Hix E6) as Hm. unfold walks in Hm.
    destruct (walk m0 _ r); [|by rewrite Hm in Hwf]. destruct Hm as (es2 & Hes2 & _ & Hin & _). by replace es1 with es2 by congruence. }
  destruct (Hone i idxs es Hi Hl Hix Hw) as (f & fs1 & es1 & e & S1 & L1 & P1 & N1 & Q1 & W1 & I1 & q & M1).
  destruct (Hone j idxs' es' Hj Hl' Hix' Hw') as (f' & fs1' & es1' & e' & S2 & L2 & P2 & N2 & Q2 & W2 & I2 & q' & M2).
  assert (i = j) as <-. { apply (Hdis i j (end_page f es1)); [done|done|by rewrite S1|]. rewrite S2. congruence. }
  assert (Hff : f' = f) by congruence. rewrite Hff in *. f_equal. apply (IH q f fs1 es1 es1'); [done|done|done|done|congruence].
Qed.

Lemma mirror_inj n m idxs idxs' : length idxs = n -> length idxs' = n -> Forall index_ok idxs -> Forall index_ok idxs' ->
  forall p c fs es es', c ∉ fs -> mirror n m p c fs -> walk m c idxs = Some es -> walk m c idxs' = Some es' -> end_page c es = end_page c es' -> idxs = idxs'.
Proof.
  revert idxs idxs'. induction n as [|n IH]; intros [|i idxs] [|j idxs']; try done. cbn. intros Hl Hl' [Hi Hix]%Forall_cons [Hj Hix']%Forall_cons p c fs es es' _ Hm.
  assert (Hall : forall k, index_ok k -> k ∈ TABLE_INDICES) by (intros k Hk; apply elem_of_seqZ; unfold index_ok, in_range in Hk; lia).
  eapply (row_inj n m TABLE_INDICES p c fs); auto. apply IH; auto.
Qed.
End copy.
End runs.

(** ** The whole copy *)

(** The tables of the user half are in use and lead to pages in use. *)
Definition user_tables (a : FrameAllocator) (m : gmap Z Z) (p : Z) : Prop :=
  page_ok a p /\ rows_ok a m 3 p USER_HALF.

(** The indices of a user address. *)
Definition user_path (idxs : list Z) : Prop := exists i rest, idxs = i :: rest /\ i ∈ USER_HALF /\ length rest = 3%nat /\ Forall index_ok rest.

Lemma user_half_ok : Forall index_ok USER_HALF.
Proof. apply list.Forall_forall. intros j Hj%elem_of_seqZ. unfold index_ok, in_range. lia. Qed.

Lemma mirror_tables m0 n s s' p c fs : fresh s s' c -> Forall (fresh s s') fs -> mirror m0 n (v_mem s') p c fs -> tables_ok (v_frames s') (v_mem s') n c.
Proof.
  intros Hc Hfs Hm idxs es Hl Hix Hw. pose proof (mirror_walk m0 n (v_mem s') idxs p c fs Hl Hix Hm) as H. unfold walks in H.
  destruct (walk m0 p idxs); [|by rewrite H in Hw]. destruct H as (es' & Hw' & _ & Hin & _). replace es with es' by congruence.
  assert (Hend : fresh s s' (end_page c es')) by (rewrite list.Forall_forall in Hfs; apply elem_of_cons in Hin as [->|Hin]; [done|by apply Hfs]).
  destruct Hend as (A0 & A1 & A2 & A3). repeat split; try done. intros x Hx. by apply A3.
Qed.

(** What the copy [c] of [p] translates to. *)
Record space_copied (s s' : vmm) (p c : Z) : Prop := {
  sc_fresh : fresh s s' c;
  sc_tables : user_tables (v_frames s') (v_mem s') c;
  sc_kernel i : i ∈ KERNEL_HALF -> load (v_mem s') (c + HHDM_BASE + 8 * i) = load (v_mem s) (p + HHDM_BASE + 8 * i);
  sc_page idxs : user_path idxs ->
    match walk (v_mem s) p idxs with
    | None => walk (v_mem s') c idxs = None
    | Some es => exists es', walk (v_mem s') c idxs = Some es' /\ fresh s s' (end_page c es') /\ low_bits (last es') = low_bits (last es) /\
        forall j, index_ok j -> load (v_mem s') (end_page c es' + HHDM_BASE + 8 * j) = load (v_mem s) (end_page p es + HHDM_BASE + 8 * j)
    end;
  sc_private idxs idxs' es es' : user_path idxs -> user_path idxs' -> walk (v_mem s') c idxs = Some es -> walk (v_mem s') c idxs' = Some es' ->
    end_page c es = end_page c es' -> idxs = idxs' }.

Lemma row_space s s' p c fs : fresh s s' c -> Forall (fresh s s') fs ->
  row (v_mem s) (mirror (v_mem s) 3) (child_flags 3) (v_mem s') USER_HALF p c fs ->
  (forall i, i ∈ KERNEL_HALF -> load (v_mem s') (c + HHDM_BASE + 8 * i) = load (v_mem s) (p + HHDM_BASE + 8 * i)) -> space_copied s s' p c.
Proof.
  intros Hc Hfs Hrow Hk. split; [done| |done| |].
  - split; [destruct Hc as (A0 & A1 & A2 & A3); repeat split; try done; intros x Hx; by apply A3|].
    intros i Hi Hpr. destruct Hrow as (sub & _ & H). destruct (H i Hi) as [Hsub He]. cbv zeta in He.
    destruct (Z.land (load (v_mem s) _) 1 =? 0); [by rewrite He in Hpr|]. destruct He as (f & fs1 & E1 & E2 & _ & _ & E5 & E6). rewrite E5, E2.
    rewrite list.Forall_forall in Hfs. rewrite E1 in Hsub. eapply mirror_tables; [apply Hfs, Hsub; left| |exact E6]. apply list.Forall_forall. intros g Hg. apply Hfs, Hsub. by right.
  - intros idxs (i & rest & -> & Hi & Hl & Hix).
    assert (Hw : walks (v_mem s) 4 (v_mem s') p c fs (i :: rest)) by (eapply row_walk; [|exact Hrow|done]; intros; apply mirror_walk; [lia|done|done]).
    unfold walks in Hw. destruct (walk (v_mem s) p (i :: rest)); [|done]. destruct Hw as (es' & H1 & _ & H2 & H3). exists es'. split; [done|].
    split; [rewrite list.Forall_forall in Hfs; by apply Hfs|]. apply H3. cbn. lia.
  - intros idxs idxs' es es' (i & rest & -> & Hi & Hl & Hix) (j & rest' & -> & Hj & Hl' & Hix'). apply (row_inj (v_mem s) 3 (v_mem s') USER_HALF p c fs); try done.
    by apply mirror_inj.
Qed.

(** The child's top-level table before the loops: the kernel half of the parent's, the rest clear. *)
Section top.
Context (map : list MemoryMapEntry) (s s1 : vmm) (p c : Z).
Context (Hp : page_ok (v_frames s) p) (Hf : fresh s s1 c) (Hk : kept (fun _ => False) s s1) (Hm : v_mem s1 = v_mem s).
Let m2 := set_words (c + HHDM_BASE) (fun _ => 0) USER_HALF (copy_words (p + HHDM_BASE) (c + HHDM_BASE) KERNEL_HALF (v_mem s)).
Let s2 := set_field v_mem m2 s1.

Lemma top_kept : kept (fun _ => False) s s2.
Proof.
  destruct Hf as (_ & _ & _ & F). destruct Hk as (T & Fr & _). split; [exact T|]. split; [exact Fr|]. intros x Hx _. cbn. unfold m2, copy_words.
  rewrite !load_set_out; [done| |]; intros i Hi%elem_of_seqZ Heq; apply Hx, F; lia.
Qed.
Lemma top_cleared : cleared c s2 USER_HALF.
Proof. intros i Hi. cbn. unfold m2. by rewrite load_set_in. Qed.
Lemma top_kernel i : i ∈ KERNEL_HALF -> load (v_mem s2) (c + HHDM_BASE + 8 * i) = load (v_mem s) (p + HHDM_BASE + 8 * i).
Proof.
  intros Hi. cbn. unfold m2, copy_words. rewrite load_set_out; [by rewrite load_set_in|]. apply elem_of_seqZ in Hi. intros j Hj%elem_of_seqZ. lia.
Qed.

(** The loops from there. *)
Lemma top_run {E} : good map s1 -> rows_ok (v_frames s) (v_mem s) 3 p USER_HALF ->
  does map (E:=E) s (fun _ => False) (each_present (clone_entry 3 c) p USER_HALF s2) (fun _ s' => space_copied s s' p c).
Proof.
  intros G Hrows. pose proof Hf as (A0 & A1 & A2 & A3). pose proof top_kept as K2.
  assert (Hpar : parent_kept (v_frames s) (v_mem s) s2) by (eapply (parent_kept_step _ _ _ s); [by split|exact K2|done]).
  assert (Hc : child_page (v_frames s) s2 c) by (split; [done|]; split; [done|]; intros x Hx; by apply A3).
  pose proof (loop_copied map (E:=E) (v_frames s) (v_mem s) 3 p c (entry_copied_all map _ _ 3) Hp USER_HALF s2 (NoDup_seqZ _ _) user_half_ok G Hpar Hc Hrows top_cleared) as H.
  assert (Hin : forall x, slots c USER_HALF x -> False \/ free_at (v_frames s) x) by (intros x (i & Hi%elem_of_seqZ & ->); right; apply A3; lia).
  unfold does in *. destruct (each_present (clone_entry 3 c) p USER_HALF s2) as [[[]|e| |] s3]; try done; destruct H as (G3 & K3 & H).
  - split; [done|]. split; [by eapply kept_trans|]. pose proof K3 as (_ & F3 & _). destruct H as (fs & Hfs & Hrow). eapply row_space; [|exact (Forall_impl _ _ _ Hfs (fun g => fresh_earlier s s2 s3 g (proj1 (proj2 K2))))|exact Hrow|].
    + by apply (fresh_later s s2).
    + intros i Hi. rewrite <- top_kernel by done. apply elem_of_seqZ in Hi. eapply child_word; [exact K3|exact Hc|unfold index_ok, in_range; lia|].
      intros (j & Hj%elem_of_seqZ & Heq). lia.
  - split; [done|]. split; [by eapply kept_trans|done].
Qed.
End top.

(** C11: [clone_space] returns 0, changing nothing, when there is no frame for the top-level table;
    it panics, with the parent untouched, when memory runs out later. Otherwise the child's
    table shares the kernel half; every user address translates in the child exactly when it
    does in the parent, to a page that was free, with the same low twelve bits of its entry and
    the same contents; no two user pages of the child are the same; no word in use before has
    changed; and the child's tables satisfy what is required of the parent's. *)
Theorem clone_space_spec (map : list MemoryMapEntry) (g : list (Z * Z)) (s : vmm) (p : Z)
    (Halloc : alloc_ok map g (v_frames s)) (Htables : user_tables (v_frames s) (v_mem s) p) :
  match clone_space (E:=Empty_set) p s with
  | (Ok c, s') =>
      c = 0 /\ s' = s /\ allocate (E:=Empty_set) (v_frames s) = (Ok None, v_frames s) \/
      good map s' /\ kept (fun _ => False) s s' /\ space_copied s s' p c
  | (Panic, s') => kept (fun _ => False) s s' /\ allocate (E:=Empty_set) (v_frames s') = (Ok None, v_frames s')
  | _ => False
  end.
Proof.
  destruct Htables as [Hp Hrows]. pose proof (new_page_run map (E:=Empty_set) s (ex_intro _ g Halloc)) as H. unfold clone_space. unfold bind at 1. unfold new_page in H. unfold bind in H at 1.
  destruct Halloc as [Hinv Hlim]. pose proof (allocate_free Empty_set map (v_frames s) g Hinv) as Ha. unfold allocate_frame, zoom in *.
  destruct (allocate (v_frames s)) as [[[f|]|e| |] a'] eqn:Halloc; try done.
  2:{ left. subst a'. split; [done|]. split; [by destruct s|done]. }
  cbv iota. unfold bind, lift, unwrap, ret in H. cbv iota in H. set (s1 := set_field v_frames a' s) in *. set (c := start_address f) in *.
  destruct H as (G1 & K1 & Hf & Hm). pose proof Hf as (_ & C0 & C1 & C2). pose proof Hp as (_ & P0 & P1 & _).
  unfold bind at 1, lift at 1. rewrite phys_to_virt_ok by done. unfold bind at 1, lift at 1. rewrite phys_to_virt_ok by done.
  unfold bind at 1, modify at 1. unfold bind at 1, modify at 1.
  change (upd v_mem _ _) with (set_field v_mem (set_words (c + HHDM_BASE) (fun _ => 0) USER_HALF (copy_words (p + HHDM_BASE) (c + HHDM_BASE) KERNEL_HALF (v_mem s))) s1).
  pose proof (top_run (E:=Empty_set) map s s1 p c Hp Hf K1 G1 Hrows) as H. rewrite <- clone_pdpt_entry in H. unfold bind. unfold does in H.
  destruct (each_present (clone_pdpt c) p USER_HALF _) as [[[]|e| |] s3]; try done; destruct H as (G3 & K3 & H3).
  - right. done.
  - done.
Qed.

(** A parent with one page, at the indices 1, 2, 3 and 4, in low memory. *)
Definition demo_space : gmap Z Z :=
  <[0x1000 + HHDM_BASE + 8 * 1 := 0x2007]> (<[0x2000 + HHDM_BASE + 8 * 2 := 0x3007]> (<[0x3000 + HHDM_BASE + 8 * 3 := 0x4007]>
  (<[0x4000 + HHDM_BASE + 8 * 4 := 0x5005]> (<[0x5000 + HHDM_BASE + 8 * 9 := 77]> ∅)))).
Definition demo_parent : vmm := mkVmm [] demo_frames demo_space.

Lemma demo_page p : p mod 4096 = 0 -> 0 <= p < 0x100000 -> page_ok demo_frames p.
Proof.
  intros H0 Hp. split; [done|]. split; [lia|]. split; [unfold PHYS_LIMIT; lia|]. intros x Hx (r & Hr & Hx').
  assert (Hu : used demo_frames = [mkRegion 0x100000 0x110000 0x101000]) by reflexivity.
  rewrite Hu in Hr. apply list_elem_of_singleton in Hr as ->. cbn in Hx'. lia.
Qed.

Lemma tables_ok_intro a m n t : page_ok a t ->
  (forall i, index_ok i -> Z.land (load m (t + HHDM_BASE + 8 * i)) 1 <> 0 -> tables_ok a m n (page_of (load m (t + HHDM_BASE + 8 * i)))) -> tables_ok a m (S n) t.
Proof.
  intros Ht H [|i idxs] es Hl Hix Hw; cbn [walk] in Hw; [by injection Hw as <-|]. apply Forall_cons in Hix as [Hi Hix].
  destruct (Z.eqb_spec (Z.land (load m (t + HHDM_BASE + 8 * i)) 1) 0) as [|Hp]; [done|]. destruct (walk m _ idxs) as [es1|] eqn:Hw1; [|done]. injection Hw as <-.
  rewrite end_page_cons. apply (H i Hi Hp idxs); [cbn in Hl; lia|done|done].
Qed.

Lemma demo_word t i : index_ok i -> t = 0x1000 \/ t = 0x2000 \/ t = 0x3000 \/ t = 0x4000 ->
  Z.land (load demo_space (t + HHDM_BASE + 8 * i)) 1 <> 0 -> page_of (load demo_space (t + HHDM_BASE + 8 * i)) = t + 0x1000.
Proof.
  intros Hi Ht. unfold index_ok, in_range in Hi. unfold demo_space. rewrite !load_insert.
  destruct Ht as [Ht|[Ht|[Ht|Ht]]]; rewrite Ht in *; repeat (case_decide; [try (exfalso; lia); intros _; reflexivity|]); done.
Qed.

Lemma demo_user_tables : user_tables demo_frames demo_space 0x1000.
Proof.
  assert (H0 : tables_ok demo_frames demo_space 0 0x5000).
  { intros [|i idxs] es Hl _ Hw; [injection Hw as <-; by apply demo_page|cbn in Hl; lia]. }
  assert (H1 : tables_ok demo_frames demo_space 1 0x4000).
  { apply tables_ok_intro; [by apply demo_page|]. intros i Hi Hp. rewrite demo_word by auto. exact H0. }
  assert (H2 : tables_ok demo_frames demo_space 2 0x3000).
  { apply tables_ok_intro; [by apply demo_page|]. intros i Hi Hp. rewrite demo_word by auto. exact H1. }
  assert (H3 : tables_ok demo_frames demo_space 3 0x2000).
  { apply tables_ok_intro; [by apply demo_page|]. intros i Hi Hp. rewrite demo_word by auto. exact H2. }
  split; [by apply demo_page|]. intros i Hi Hp. rewrite demo_word; [exact H3| |by left|done]. apply elem_of_seqZ in Hi. unfold index_ok, in_range. lia.
Qed.

Lemma clone_space_spec_witness : exists s' es,
  clone_space (E:=Empty_set) 0x1000 demo_parent = (Ok 0x101000, s') /\ walk (v_mem s') 0x101000 [1; 2; 3; 4] = Some es /\
  low_bits (last es) = Some 5 /\ load (v_mem s') (end_page 0x101000 es + HHDM_BASE + 8 * 9) = 77.
Proof.
  pose proof (clone_space_spec demo_map [(0x100000, 0x1000)] demo_parent 0x1000 demo_alloc_ok demo_user_tables) as H.
  assert (Hr : fst (clone_space (E:=Empty_set) 0x1000 demo_parent) = Ok 0x101000) by (vm_compute; reflexivity).
  destruct (clone_space 0x1000 demo_parent) as [o s']. cbn in Hr. subst o. destruct H as [(H & _)|(_ & _ & H)]; [discriminate H|].
  assert (Hu : user_path [1; 2; 3; 4]).
  { exists 1, [2; 3; 4]. split; [reflexivity|]. split; [apply elem_of_seqZ; lia|]. split; [reflexivity|]. repeat constructor; unfold in_range; lia. }
  pose proof (sc_page _ _ _ _ H _ Hu) as Hpage. change (walk (v_mem demo_parent) 0x1000 [1; 2; 3; 4]) with (walk demo_space 0x1000 [1; 2; 3; 4]) in Hpage.
  replace (walk demo_space 0x1000 [1; 2; 3; 4]) with (Some [0x2007; 0x3007; 0x4007; 0x5005]) in Hpage by (vm_compute; reflexivity).
  destruct Hpage as (es & Hw & _ & Hl & Hwords). exists s', es. split; [reflexivity|]. split; [exact Hw|]. split; [exact Hl|].
  rewrite (Hwords 9) by (unfold index_ok, in_range; lia). vm_compute. reflexivity.
Defined.
