(* ===== verification/Paths.v ===== *)
(** * Strings and paths

    What the file systems use of [str] and [String] (a string is the list of its
    UTF-8 bytes), and the path normalisation they share: [normalize_path] of
    [kernel/src/vfs.rs], which [tmpfs.rs] and others repeat. *)
From stdpp Require Import base list numbers option strings.
From Stdlib Require Import ZArith Lia Bool.
From S2P Require Import Prelude.

Abbreviation str := (list Z) (only parsing).

(** A string literal. *)
Definition lit (s : string) : str := (fun c => Z.of_N (Ascii.N_of_ascii c)) <$> String.list_ascii_of_string s.

Definition SLASH : Z := 47.
Definition NEWLINE : Z := 10.

Definition str_eqb (a b : str) : bool := bool_decide (a = b).

Fixpoint starts_with (s prefix : str) {struct prefix} : bool :=
  match prefix, s with
  | [], _ => true
  | p :: prefix', b :: s' => (p =? b) && starts_with s' prefix'
  | _ :: _, [] => false
  end.

(** [s.split(c)] for a one-byte character: at least one piece. *)
Fixpoint split (c : Z) (s : str) : list str :=
  match s with
  | [] => [[]]
  | b :: s' =>
      if b =? c then [] :: split c s'
      else match split c s' with
           | piece :: rest => (b :: piece) :: rest
           | [] => [[b]]
           end
  end.

(** [s.rfind(c)] *)
Fixpoint rfind (c : Z) (s : str) : option nat :=
  match s with
  | [] => None
  | b :: s' =>
      match rfind c s' with
      | Some i => Some (S i)
      | None => if b =? c then Some O else None
      end
  end.

(** ** [vfs.rs]: [normalize_path] *)

(** The loop over the segments; [None] when [..] leaves the root. *)
Fixpoint resolve (segments : list str) (pieces : list str) : option (list str) :=
  match pieces with
  | [] => Some segments
  | segment :: pieces' =>
      if str_eqb segment [] || str_eqb segment (lit ".") then resolve segments pieces'
      else if str_eqb segment (lit "..") then
        match segments with
        | [] => None
        | _ => resolve (removelast segments) pieces'
        end
      else resolve (segments ++ [segment]) pieces'
  end.

(** The loop that joins the segments; [index > 0] is [negb first]. *)
Fixpoint push_segments (first : bool) (segments : list str) : str :=
  match segments with
  | [] => []
  | segment :: rest => (if first then [] else [SLASH]) ++ segment ++ push_segments false rest
  end.

Definition render (segments : list str) : str :=
  match segments with
  | [] => lit "/"
  | _ => lit "/" ++ push_segments true segments
  end.

Definition normalize_path (path : str) : option str :=
  if negb (starts_with path [SLASH]) then None else
  match resolve [] (split SLASH path) with
  | None => None
  | Some segments => Some (render segments)
  end.

(** ** [String::from_utf8_lossy]: maximal invalid prefixes become U+FFFD *)
Definition is_cont (b : Z) : bool := (0x80 <=? b) && (b <=? 0xBF).
Definition between (lo b hi : Z) : bool := (lo <=? b) && (b <=? hi).
Definition byte_at (s : str) (i : nat) : Z := default 0 (s !! i).

(** The number of bytes of the first character or invalid prefix of a non-empty
    string, and whether it is valid. *)
Definition utf8_chunk (s : str) : nat * bool :=
  let b := byte_at s 0 in
  let b1 := byte_at s 1 in
  let b2 := byte_at s 2 in
  let b3 := byte_at s 3 in
  if b <? 0x80 then (1%nat, true)
  else if between 0xC2 b 0xDF then if is_cont b1 then (2%nat, true) else (1%nat, false)
  else if between 0xE0 b 0xEF then
    if (if b =? 0xE0 then between 0xA0 b1 0xBF else if b =? 0xED then between 0x80 b1 0x9F else is_cont b1)
    then if is_cont b2 then (3%nat, true) else (2%nat, false)
    else (1%nat, false)
  else if between 0xF0 b 0xF4 then
    if (if b =? 0xF0 then between 0x90 b1 0xBF else if b =? 0xF4 then between 0x80 b1 0x8F else is_cont b1)
    then if is_cont b2 then if is_cont b3 then (4%nat, true) else (3%nat, false) else (2%nat, false)
    else (1%nat, false)
  else (1%nat, false).

Definition REPLACEMENT : str := [0xEF; 0xBF; 0xBD].

Fixpoint utf8_lossy (fuel : nat) (s : str) : str :=
  match fuel, s with
  | S fuel', _ :: _ =>
      let '(n, ok) := utf8_chunk s in
      (if ok then take n s else REPLACEMENT) ++ utf8_lossy fuel' (drop n s)
  | _, _ => []
  end.
Definition from_utf8_lossy (s : str) : str := utf8_lossy (length s) s.

(** [str::from_utf8(s).is_ok()] *)
Fixpoint utf8_valid (fuel : nat) (s : str) : bool :=
  match fuel, s with
  | S fuel', _ :: _ => let '(n, ok) := utf8_chunk s in ok && utf8_valid fuel' (drop n s)
  | _, _ => true
  end.
Definition is_utf8 (s : str) : bool := utf8_valid (length s) s.

(** [trim_start_matches(c)], [trim_end_matches(c)], [trim_matches(c)] *)
Fixpoint trim_start (c : Z) (s : str) : str :=
  match s with
  | b :: s' => if b =? c then trim_start c s' else s
  | [] => []
  end.
Definition trim_end (c : Z) (s : str) : str := reverse (trim_start c (reverse s)).
Definition trim_matches (c : Z) (s : str) : str := trim_end c (trim_start c s).

(** [strip_prefix(p)] *)
Definition strip_prefix (s prefix : str) : option str :=
  if starts_with s prefix then Some (drop (length prefix) s) else None.

(** [s.contains(t)] and [s.ends_with(t)] *)
Fixpoint contains (s t : str) : bool :=
  starts_with s t || match s with [] => false | _ :: s' => contains s' t end.
Definition ends_with (s suffix : str) : bool := starts_with (reverse s) (reverse suffix).

(** ** [sort_unstable] on strings: bytewise lexicographic order *)
Fixpoint str_leb (a b : str) : bool :=
  match a, b with
  | [], _ => true
  | _ :: _, [] => false
  | x :: a', y :: b' => if x =? y then str_leb a' b' else x <? y
  end.

Fixpoint insert_sorted (x : str) (l : list str) : list str :=
  match l with
  | [] => [x]
  | y :: l' => if str_leb x y then x :: l else y :: insert_sorted x l'
  end.
Definition sort_strings (l : list str) : list str := foldr insert_sorted [] l.

(** * Facts *)
Lemma str_eqb_true a b : str_eqb a b = true <-> a = b.
Proof. unfold str_eqb. apply bool_decide_eq_true. Qed.
Lemma str_eqb_false a b : str_eqb a b = false <-> a <> b.
Proof. unfold str_eqb. apply bool_decide_eq_false. Qed.

Lemma starts_with_iff s p : starts_with s p = true <-> exists t, s = p ++ t.
Proof.
  revert s. induction p as [|x p IH]; intros s; simpl; [split; [by exists s|done]|].
  destruct s as [|y s]; [split; [done|by intros [? ?]]|]. rewrite andb_true_iff, Z.eqb_eq, IH.
  split; [intros [-> [t ->]]; by exists t|]. intros [t [= -> ->]]. eauto.
Qed.

Definition no_char (c : Z) (s : str) : Prop := c ∉ s.

Lemma split_nonempty c s : split c s <> [].
Proof. destruct s as [|b s]; simpl; [done|]. destruct (b =? c); [done|]. by destruct (split c s). Qed.

Lemma split_pieces c s : Forall (no_char c) (split c s).
Proof.
  induction s as [|b s IH]; simpl.
  - constructor; [apply not_elem_of_nil|constructor].
  - destruct (Z.eqb_spec b c) as [->|Hne]; [constructor; [apply not_elem_of_nil|done]|].
    pose proof (split_nonempty c s) as Hn. destruct (split c s) as [|x l]; [done|].
    apply Forall_cons_iff in IH as [Hx Hl]. constructor; [|done].
    unfold no_char in *. rewrite elem_of_cons. intros [->|?]; auto.
Qed.

Lemma split_app_sep c s t : split c (s ++ c :: t) = split c s ++ split c t.
Proof.
  induction s as [|b s IH]; simpl; [by rewrite Z.eqb_refl|].
  destruct (b =? c); [by rewrite IH|]. rewrite IH.
  pose proof (split_nonempty c s). by destruct (split c s).
Qed.

Lemma split_piece c s : no_char c s -> split c s = [s].
Proof.
  induction s as [|b s IH]; intros H; simpl; [done|]. unfold no_char in H. rewrite elem_of_cons in H.
  destruct (Z.eqb_spec b c) as [->|]; [exfalso; auto|]. rewrite IH by (intros Hin; auto). done.
Qed.

(** A segment of a normalised path. *)
Definition plain_segment (s : str) : Prop := s <> [] /\ s <> lit "." /\ s <> lit ".." /\ no_char SLASH s.

Lemma resolve_app st p q :
  resolve st (p ++ q) = match resolve st p with Some st' => resolve st' q | None => None end.
Proof.
  revert st. induction p as [|x p IH]; intros st; simpl; [done|].
  destruct (str_eqb x [] || str_eqb x (lit ".")); [done|]. destruct (str_eqb x (lit "..")); [by destruct st|done].
Qed.

Lemma resolve_plain st segs : Forall plain_segment segs -> resolve st segs = Some (st ++ segs).
Proof.
  intros H. revert st. induction H as [|x l (H1 & H2 & H3 & _) _ IH]; intros st; simpl; [by rewrite app_nil_r|].
  rewrite (proj2 (str_eqb_false _ _) H1), (proj2 (str_eqb_false _ _) H2), (proj2 (str_eqb_false _ _) H3). simpl.
  by rewrite IH, <- app_assoc.
Qed.

Lemma Forall_removelast {A} (P : A -> Prop) l : Forall P l -> Forall P (removelast l).
Proof. induction 1 as [|x l Hx Hl IH]; simpl; [constructor|]. destruct l; [constructor|by constructor]. Qed.

Lemma resolve_segments st pieces st' :
  Forall plain_segment st -> Forall (no_char SLASH) pieces -> resolve st pieces = Some st' -> Forall plain_segment st'.
Proof.
  intros Hst Hp. revert st Hst. induction Hp as [|x l Hx _ IH]; intros st Hst; simpl; [by intros [= <-]|].
  destruct (str_eqb x [] || str_eqb x (lit ".")) eqn:E1; [eauto|]. destruct (str_eqb x (lit "..")) eqn:E2.
  - destruct st as [|y st]; [done|]. apply IH. by apply Forall_removelast.
  - apply IH. apply Forall_app. split; [done|]. constructor; [|constructor].
    apply orb_false_iff in E1 as [E0 E1]. rewrite str_eqb_false in E0, E1, E2. done.
Qed.

Lemma split_push segs : Forall (no_char SLASH) segs -> segs <> [] -> split SLASH (push_segments true segs) = segs.
Proof.
  destruct segs as [|x l]; [done|]. intros [Hx Hl]%Forall_cons_iff _. cbn [push_segments app].
  revert x Hx. induction Hl as [|y l Hy _ IH]; intros x Hx; cbn [push_segments].
  - rewrite app_nil_r. by apply split_piece.
  - change ([SLASH] ++ y ++ push_segments false l) with (SLASH :: (y ++ push_segments false l)).
    rewrite split_app_sep, IH by done. by rewrite split_piece.
Qed.

Lemma resolve_render segs : Forall plain_segment segs -> resolve [] (split SLASH (render segs)) = Some segs.
Proof.
  intros H. destruct segs as [|x l]; [done|]. unfold render. change (lit "/") with ([] ++ [SLASH]).
  rewrite <- app_assoc. change ([SLASH] ++ push_segments true (x :: l)) with (SLASH :: push_segments true (x :: l)).
  rewrite split_app_sep, split_push; [|eapply Forall_impl; [exact H|]; by intros ? (_ & _ & _ & ?)|done].
  change (split SLASH []) with [@nil Z]. rewrite resolve_app. change (resolve [] [@nil Z]) with (Some (@nil (list Z))). by apply resolve_plain.
Qed.

Lemma render_slash segs : starts_with (render segs) [SLASH] = true.
Proof. by destruct segs. Qed.

(** A normalised path comes from plain segments. *)
Lemma normalize_segments p n :
  normalize_path p = Some n -> exists segs, resolve [] (split SLASH p) = Some segs /\ Forall plain_segment segs /\ n = render segs.
Proof.
  unfold normalize_path. destruct (starts_with p [SLASH]); [|done]. cbn [negb].
  destruct (resolve [] (split SLASH p)) as [segs|] eqn:Hr; [|done]. intros [= <-]. exists segs.
  split; [done|]. split; [|done]. eapply resolve_segments; [constructor|apply split_pieces|exact Hr].
Qed.

Lemma normalize_render segs : Forall plain_segment segs -> normalize_path (render segs) = Some (render segs).
Proof. intros H. unfold normalize_path. rewrite render_slash, resolve_render by done. done. Qed.

(** * Theorems *)

(** Normalisation is a canonical form: its results are [/] or a list of
    non-empty segments other than [.] and [..], each after one slash; normalising
    a normalised path changes nothing; and a path may be normalised before or
    after a relative tail is appended, with the same result. *)
Theorem normalize_path_canonical (p n q : list Z) (Hn : normalize_path p = Some n) :
  (exists segs, Forall plain_segment segs /\ n = render segs) /\
  normalize_path n = Some n /\
  normalize_path (p ++ SLASH :: q) = normalize_path (n ++ SLASH :: q).
Proof.
  destruct (normalize_segments p n Hn) as (segs & Hr & Hseg & ->).
  split; [eauto|]. split; [by apply normalize_render|].
  assert (Hp : starts_with p [SLASH] = true) by (unfold normalize_path in Hn; by destruct (starts_with p [SLASH])).
  apply starts_with_iff in Hp as [t ->]. unfold normalize_path. rewrite !split_app_sep, !resolve_app, resolve_render by done.
  rewrite Hr. change (([SLASH] ++ t) ++ SLASH :: q) with (SLASH :: (t ++ SLASH :: q)).
  assert (Hs : starts_with (render segs ++ SLASH :: q) [SLASH] = true) by (destruct segs; done).
  by rewrite Hs.
Qed.

Lemma normalize_path_canonical_witness :
  normalize_path (lit "//tmp/./a/../b/") = Some (lit "/tmp/b") /\
  (exists segs, Forall plain_segment segs /\ lit "/tmp/b" = render segs) /\
  normalize_path (lit "/tmp/b") = Some (lit "/tmp/b") /\
  normalize_path (lit "//tmp/./a/../b/" ++ SLASH :: lit "../c") = normalize_path (lit "/tmp/b" ++ SLASH :: lit "../c").
Proof.
  split; [reflexivity|]. apply (normalize_path_canonical (lit "//tmp/./a/../b/") (lit "/tmp/b") (lit "../c")). reflexivity.
Defined.
