(* ===== verification/Tmpfs.v ===== *)
(** * Temporary file system: [kernel/src/tmpfs.rs]

    A flat list of at most 256 files, each directly under [/tmp] or [/run], with
    whole-file reads and writes. The global is [None] until [initialize].

    The specification is a finite map from normalised paths to contents; the
    operations are shown to implement look-up, update and bounded creation on it. *)
From stdpp Require Import base list numbers option strings gmap.
From Stdlib Require Import ZArith Lia Bool Sorting.Permutation Sorting.Sorted.
From S2P Require Import Prelude Paths.

Definition TMP_ROOT_PATH : list Z := lit "/tmp".
Definition RUN_ROOT_PATH : list Z := lit "/run".
Definition MAX_TMPFS_FILES : Z := 256.

Record TmpfsFile : Type := mkFile { f_path : list Z; f_content : list Z }.
#[export] Instance eta_TmpfsFile : RecordEta TmpfsFile := fun f => mkFile (f_path f) (f_content f).
Record TmpfsState : Type := mkTmpfs { t_initialized : bool; t_files : list TmpfsFile }.
#[export] Instance eta_TmpfsState : RecordEta TmpfsState := fun t => mkTmpfs (t_initialized t) (t_files t).

Inductive TmpfsNodeKind : Type := TmpDirectory | TmpFile.
Record TmpfsSummary : Type := mkTmpfsSummary {
  ts_directory_count : Z; ts_file_count : Z; ts_entry_count : Z; ts_total_bytes : Z }.
Record TmpfsOpenFile : Type := mkOpenFile { of_path : list Z; of_content : list Z }.
Inductive TmpfsError : Type :=
| TmpAlreadyInitialized | TmpNotInitialized | TmpInvalidPath | TmpNotFound | TmpIsDirectory | TmpFileLimitReached.

Abbreviation tmpfs := (option TmpfsState) (only parsing).

Definition tmpfs_normalize_path (path : list Z) : option (list Z) := normalize_path path.

Definition tmpfs_summary (t : tmpfs) : TmpfsSummary :=
  match t with
  | None => mkTmpfsSummary 0 0 0 0
  | Some state =>
      let total := foldl (fun total file => sat_add U64 total (len (f_content file))) 0 (t_files state) in
      let file_count := len (t_files state) in
      mkTmpfsSummary 2 file_count (sat_add U64 2 file_count) total
  end.

Definition tmpfs_initialize : M tmpfs TmpfsError TmpfsSummary :=
  let! slot := gets id in
  match slot with
  | Some _ => throw TmpAlreadyInitialized
  | None => do! put (Some (mkTmpfs true [])) in gets tmpfs_summary
  end.

Definition handles_path (path : list Z) : bool :=
  str_eqb path TMP_ROOT_PATH || str_eqb path RUN_ROOT_PATH
  || starts_with path (lit "/tmp/") || starts_with path (lit "/run/").

Definition is_root (path : list Z) : bool := str_eqb path TMP_ROOT_PATH || str_eqb path RUN_ROOT_PATH.

(** [files.iter().find(|file| file.path == path)], as a position. *)
Definition find_file (path : list Z) (files : list TmpfsFile) : option nat :=
  position (fun file => str_eqb (f_path file) path) files.

Definition node_kind (path : list Z) (t : tmpfs) : option TmpfsNodeKind :=
  match tmpfs_normalize_path path with
  | None => None
  | Some normalized =>
      if is_root normalized then Some TmpDirectory else
      match t with
      | None => None
      | Some state =>
          if existsb (fun file => str_eqb (f_path file) normalized) (t_files state) then Some TmpFile else None
      end
  end.

Definition read_bytes (path : list Z) (t : tmpfs) : option (list Z) :=
  match tmpfs_normalize_path path, t with
  | Some normalized, Some state =>
      match find_file normalized (t_files state) with
      | Some i => f_content <$> t_files state !! i
      | None => None
      end
  | _, _ => None
  end.

Definition parent_directory (path : list Z) : option (list Z) :=
  match rfind SLASH path with
  | None => None
  | Some slash => if Nat.eqb slash 0 then Some (lit "/") else Some (take slash path)
  end.

Definition direct_child_name (parent path : list Z) : option (list Z) :=
  if negb (starts_with path parent) then None else
  match drop (length parent) path with
  | b :: suffix =>
      if negb (b =? SLASH) then None else
      if str_eqb suffix [] || existsb (fun c => c =? SLASH) suffix then None else Some suffix
  | [] => None
  end.

Definition render_directory (path : list Z) (t : tmpfs) : option (list Z) :=
  match t with
  | None => None
  | Some state =>
      let entries := sort_strings (omap (fun file => direct_child_name path (f_path file)) (t_files state)) in
      Some (concat ((fun entry => entry ++ [NEWLINE]) <$> entries))
  end.

Definition tmpfs_read (path : list Z) (t : tmpfs) : option (list Z) :=
  match tmpfs_normalize_path path with
  | None => None
  | Some normalized =>
      match node_kind normalized t with
      | None => None
      | Some TmpDirectory => render_directory normalized t
      | Some TmpFile => from_utf8_lossy <$> read_bytes normalized t
      end
  end.

(** The size of a node. *)
Definition node_info (path : list Z) (t : tmpfs) : option Z :=
  match node_kind path t with
  | None => None
  | Some TmpDirectory => len <$> tmpfs_read path t
  | Some TmpFile =>
      match tmpfs_normalize_path path, t with
      | Some normalized, Some state =>
          match find_file normalized (t_files state) with
          | Some i => (fun f => len (f_content f)) <$> t_files state !! i
          | None => None
          end
      | _, _ => None
      end
  end.

Definition ensure_tmpfs_parent (path : list Z) : outcome TmpfsError unit :=
  if negb (handles_path path) then Err TmpInvalidPath else
  if is_root path then Ok tt else
  let? parent := ok_or TmpInvalidPath (parent_directory path) in
  if is_root parent then Ok tt else Err TmpInvalidPath.

(** [as_mut().ok_or(NotInitialized)?] *)
Definition the_files : M tmpfs TmpfsError (list TmpfsFile) :=
  let! t := gets id in
  match t with Some state => ret (t_files state) | None => throw TmpNotInitialized end.

Definition set_files (f : list TmpfsFile -> list TmpfsFile) : M tmpfs TmpfsError unit :=
  modify (fmap (upd t_files f)).

Definition open_file (path : list Z) (create truncate : bool) : M tmpfs TmpfsError TmpfsOpenFile :=
  let! normalized := lift (ok_or TmpInvalidPath (tmpfs_normalize_path path)) in
  do! lift (ensure_tmpfs_parent normalized) in
  let! files := the_files in
  if is_root normalized then throw TmpIsDirectory else
  match find_file normalized files with
  | Some i =>
      do! (if truncate then set_files (alter (set_field f_content []) i) else ret tt) in
      let! files := the_files in
      let! content := lift (unwrap (f_content <$> files !! i)) in
      ret (mkOpenFile normalized content)
  | None =>
      if negb create then throw TmpNotFound else
      if MAX_TMPFS_FILES <=? len files then throw TmpFileLimitReached else
      do! set_files (fun l => l ++ [mkFile normalized []]) in
      ret (mkOpenFile normalized [])
  end.

Definition write_file (path content : list Z) : M tmpfs TmpfsError unit :=
  let! normalized := lift (ok_or TmpInvalidPath (tmpfs_normalize_path path)) in
  do! lift (ensure_tmpfs_parent normalized) in
  let! files := the_files in
  match find_file normalized files with
  | None => throw TmpNotFound
  | Some i => set_files (alter (set_field f_content content) i)
  end.

(** * Facts: paths of files *)

(** The two directories, as segments. *)
Definition root_segments : list (list (list Z)) := [[lit "tmp"]; [lit "run"]].

(** [n] is the normalised path of a file directly in one of them. *)
Definition file_path (n : list Z) : Prop :=
  exists root name, [root] ∈ root_segments /\ plain_segment name /\ n = render [root; name].

Lemma plain_roots : Forall (Forall plain_segment) root_segments.
Proof.
  assert (Ht : plain_segment (lit "tmp")).
  { split; [discriminate|]. split; [discriminate|]. split; [discriminate|]. unfold no_char, SLASH.
    change (lit "tmp") with [116; 109; 112]. rewrite !elem_of_cons, elem_of_nil. intuition discriminate. }
  assert (Hr : plain_segment (lit "run")).
  { split; [discriminate|]. split; [discriminate|]. split; [discriminate|]. unfold no_char, SLASH.
    change (lit "run") with [114; 117; 110]. rewrite !elem_of_cons, elem_of_nil. intuition discriminate. }
  constructor; [by constructor|]. constructor; [by constructor|constructor].
Qed.

Lemma plain_root r : r ∈ root_segments -> Forall plain_segment r.
Proof. pose proof plain_roots as H. rewrite list.Forall_forall in H. apply H. Qed.

Lemma plain_file root name : [root] ∈ root_segments -> plain_segment name -> Forall plain_segment [root; name].
Proof.
  intros Hr Hn. apply plain_root in Hr. apply Forall_cons_iff in Hr as [Hr _]. by repeat (constructor; [assumption|]).
Qed.

Lemma render_inj s1 s2 : Forall plain_segment s1 -> Forall plain_segment s2 -> render s1 = render s2 -> s1 = s2.
Proof.
  intros H1 H2 He. pose proof (resolve_render s1 H1) as E1. rewrite He, resolve_render in E1 by done. congruence.
Qed.

Lemma is_root_render segs : Forall plain_segment segs -> is_root (render segs) = true <-> segs ∈ root_segments.
Proof.
  intros Hs. unfold is_root. rewrite orb_true_iff, !str_eqb_true.
  change TMP_ROOT_PATH with (render [lit "tmp"]). change RUN_ROOT_PATH with (render [lit "run"]).
  unfold root_segments. rewrite !elem_of_cons, elem_of_nil. pose proof plain_roots as Hr.
  apply Forall_cons_iff in Hr as [Ht [Hr _]%Forall_cons_iff].
  split; [intros [H|H]; apply render_inj in H; auto|]. intros [->|[->|[]]]; auto.
Qed.

Lemma rfind_last c s t : no_char c t -> rfind c (s ++ c :: t) = Some (length s).
Proof.
  intros Ht. assert (Hn : rfind c t = None).
  { clear s. induction t as [|b t IH]; [done|]. unfold no_char in *. rewrite elem_of_cons in Ht. simpl.
    rewrite IH by tauto. destruct (Z.eqb_spec b c) as [->|]; [exfalso; auto|done]. }
  induction s as [|b s IH]; simpl; [by rewrite Hn, Z.eqb_refl|by rewrite IH].
Qed.

Lemma push_snoc b l y : push_segments b (l ++ [y]) = push_segments b l ++ (if b && bool_decide (l = []) then [] else [SLASH]) ++ y.
Proof.
  revert b. induction l as [|x l IH]; intros b; [destruct b; simpl; by rewrite app_nil_r|].
  cbn [app push_segments]. rewrite IH. rewrite (bool_decide_eq_false_2 (x :: l = [])) by done. rewrite andb_false_r. simpl.
  by rewrite !app_assoc.
Qed.

Lemma render_snoc segs y : render (segs ++ [y]) = (if bool_decide (segs = []) then [] else render segs) ++ SLASH :: y.
Proof.
  destruct segs as [|x l]; [by cbn; rewrite app_nil_r|].
  rewrite bool_decide_eq_false_2 by done. unfold render. change ((x :: l) ++ [y]) with (x :: (l ++ [y])).
  change (x :: (l ++ [y])) with ((x :: l) ++ [y]) at 2. rewrite push_snoc, bool_decide_eq_false_2 by done.
  change ((if true && false then [] else [SLASH]) ++ y) with (SLASH :: y). by rewrite app_assoc.
Qed.

Lemma parent_render segs y : Forall plain_segment (segs ++ [y]) -> parent_directory (render (segs ++ [y])) = Some (render segs).
Proof.
  intros [Hs (_ & _ & _ & Hy)%Forall_singleton]%Forall_app. unfold parent_directory. rewrite render_snoc, rfind_last by done.
  destruct segs as [|x l]; [done|]. rewrite bool_decide_eq_false_2 by done.
  destruct (Nat.eqb_spec (length (render (x :: l))) 0) as [H|_]; [done|]. by rewrite take_app_length.
Qed.

(** What the parent check decides. *)
Lemma ensure_parent_spec segs :
  Forall plain_segment segs ->
  ensure_tmpfs_parent (render segs) = Ok tt /\ (segs ∈ root_segments \/ file_path (render segs)) \/
  ensure_tmpfs_parent (render segs) = Err TmpInvalidPath /\ (segs ∉ root_segments) /\ ~ file_path (render segs).
Proof.
  intros Hs. unfold ensure_tmpfs_parent. destruct (is_root (render segs)) eqn:Hroot.
  { pose proof (proj1 (is_root_render segs Hs) Hroot) as Hin. left. split; [|auto].
    unfold handles_path. change (str_eqb (render segs) TMP_ROOT_PATH || str_eqb (render segs) RUN_ROOT_PATH) with (is_root (render segs)).
    by rewrite Hroot. }
  assert (Hnot : segs ∉ root_segments) by (intros Hin; apply (is_root_render segs Hs) in Hin; congruence).
  destruct segs as [|y segs _] using rev_ind; [right; split; [done|]; split; [done|]|].
  { intros (r & n & Hr & Hn & He). apply (render_inj []) in He; [done|done|].
    by apply plain_file. }
  rewrite parent_render by done. cbn [obind ok_or]. pose proof Hs as [Hp Hy]%Forall_app.
  destruct (is_root (render segs)) eqn:Hr.
  - apply (is_root_render _ Hp) in Hr. left. split.
    + unfold handles_path. unfold root_segments in Hr. rewrite !elem_of_cons, elem_of_nil in Hr.
      rewrite render_snoc. apply Forall_singleton in Hy. rewrite bool_decide_eq_false_2 by (intros ->; naive_solver).
      destruct Hr as [->|[->|[]]]; cbn -[str_eqb]; rewrite ?orb_true_r; done.
    + right. unfold root_segments in Hr. rewrite !elem_of_cons, elem_of_nil in Hr.
      destruct Hr as [->|[->|[]]]; eexists _, y; (split; [|split; [by apply Forall_singleton|reflexivity]]);
        unfold root_segments; rewrite !elem_of_cons; auto.
  - right. split; [by destruct (negb _)|]. split; [done|]. intros (r & n & Hin & Hn & He).
    pose proof (plain_file r n Hin Hn) as Hpl.
    apply render_inj in He; [|done|done]. change [r; n] with ([r] ++ [n]) in He. apply app_inj_tail in He as [-> _].
    apply (is_root_render [r]) in Hin; [congruence|]. apply Forall_cons_iff in Hpl as [? _]. by constructor.
Qed.

(** * Facts: the files as a finite map *)
Definition files_map (files : list TmpfsFile) : gmap (list Z) (list Z) :=
  list_to_map ((fun f => (f_path f, f_content f)) <$> files).

(** [t] implements the map [a]. *)
Definition Rep (t : tmpfs) (a : gmap (list Z) (list Z)) : Prop :=
  exists st, t = Some st /\ NoDup (f_path <$> t_files st) /\ Forall (fun f => file_path (f_path f)) (t_files st) /\
    len (t_files st) <= MAX_TMPFS_FILES /\ a = files_map (t_files st).

Lemma position_fmap {A B} (f : A -> B) (P : B -> bool) l : position (fun x => P (f x)) l = position P (f <$> l).
Proof. induction l as [|x l IH]; [done|]. cbn [position fmap list_fmap]. by rewrite IH. Qed.

Lemma files_map_lookup files p :
  NoDup (f_path <$> files) ->
  files_map files !! p = match find_file p files with Some i => f_content <$> files !! i | None => None end.
Proof.
  unfold files_map, find_file. induction files as [|f files IH]; intros Hnd; [done|].
  cbn [fmap list_fmap list_to_map position fst snd foldr] in *. apply NoDup_cons in Hnd as [Hnot Hnd].
  destruct (str_eqb (f_path f) p) eqn:He.
  - apply str_eqb_true in He as <-. by rewrite lookup_insert_eq.
  - apply str_eqb_false in He. rewrite lookup_insert_ne by done. cbn [fmap list_fmap] in IH. rewrite (IH Hnd).
    by destruct (position _ files).
Qed.

Lemma find_file_None p files : find_file p files = None -> p ∉ f_path <$> files.
Proof.
  unfold find_file. rewrite position_None, list.Forall_forall. intros H (f & -> & Hf)%list_elem_of_fmap.
  specialize (H f Hf). by apply str_eqb_false in H.
Qed.

Lemma find_file_Some p files i : find_file p files = Some i -> exists f, files !! i = Some f /\ f_path f = p.
Proof. unfold find_file. intros [(f & Hi & Hf) _]%position_Some. exists f. split; [done|]. by apply str_eqb_true. Qed.

Lemma files_map_alter files i p content :
  NoDup (f_path <$> files) -> find_file p files = Some i ->
  files_map (alter (set_field f_content content) i files) = <[p := content]> (files_map files) /\
  f_path <$> alter (set_field f_content content) i files = f_path <$> files.
Proof.
  intros Hnd Hf. assert (Hpaths : f_path <$> alter (set_field f_content content) i files = f_path <$> files).
  { clear. revert i. induction files as [|f files IH]; intros [|i]; simpl; try done. f_equal. apply IH. }
  split; [|done]. apply map_eq. intros q.
  assert (Hsame : forall q, find_file q (alter (set_field f_content content) i files) = find_file q files)
    by (intros r; unfold find_file; by rewrite !(position_fmap f_path (fun x => str_eqb x r)), Hpaths).
  rewrite files_map_lookup, Hsame by (by rewrite Hpaths). destruct (decide (q = p)) as [->|Hne].
  - rewrite Hf, lookup_insert_eq, list_lookup_alter_eq. destruct (find_file_Some _ _ _ Hf) as (f & -> & _). done.
  - rewrite lookup_insert_ne, files_map_lookup by done. destruct (find_file q files) as [j|] eqn:Hj; [|done].
    destruct (decide (j = i)) as [->|]; [|by rewrite list_lookup_alter_ne].
    destruct (find_file_Some _ _ _ Hf) as (f & Hi & <-), (find_file_Some _ _ _ Hj) as (f' & Hi' & <-). congruence.
Qed.

Lemma files_map_app files p content :
  find_file p files = None -> files_map (files ++ [mkFile p content]) = <[p := content]> (files_map files).
Proof.
  intros Hn%find_file_None. unfold files_map. induction files as [|f files IH]; [done|].
  cbn [app fmap list_fmap] in *. rewrite not_elem_of_cons in Hn. destruct Hn as [Hne Hn].
  cbn [list_to_map foldr fst snd]. rewrite insert_insert_ne by done. f_equal. by apply IH.
Qed.

Lemma files_map_size files : NoDup (f_path <$> files) -> Z.of_nat (size (files_map files)) = len files.
Proof.
  intros Hnd. unfold files_map. rewrite map_size_list_to_map; [unfold len; by rewrite length_fmap|].
  by rewrite <- list_fmap_compose.
Qed.

(** ** The specification *)
Definition spec_open (n : list Z) (create truncate : bool) (a : gmap (list Z) (list Z))
    : outcome TmpfsError TmpfsOpenFile * gmap (list Z) (list Z) :=
  match a !! n with
  | Some c => let c' := if truncate then [] else c in (Ok (mkOpenFile n c'), <[n := c']> a)
  | None =>
      if negb create then (Err TmpNotFound, a)
      else if MAX_TMPFS_FILES <=? Z.of_nat (size a) then (Err TmpFileLimitReached, a)
      else (Ok (mkOpenFile n []), <[n := []]> a)
  end.

Definition spec_write (n content : list Z) (a : gmap (list Z) (list Z))
    : outcome TmpfsError unit * gmap (list Z) (list Z) :=
  match a !! n with
  | Some _ => (Ok tt, <[n := content]> a)
  | None => (Err TmpNotFound, a)
  end.

Lemma rep_alter st i p content :
  Rep (Some st) (files_map (t_files st)) -> find_file p (t_files st) = Some i ->
  Rep (Some (upd t_files (alter (set_field f_content content) i) st)) (<[p := content]> (files_map (t_files st))).
Proof.
  intros (st' & [= <-] & Hnd & Hlegal & Hlen & _) Hf. destruct (files_map_alter _ _ _ content Hnd Hf) as [Hmap Hpaths].
  eexists. split; [reflexivity|]. cbn [t_files upd eta_TmpfsState]. rewrite Hpaths. split; [done|]. split.
  - rewrite <- (Forall_fmap f_path (fun p => file_path p)). rewrite Hpaths. by rewrite Forall_fmap.
  - split; [|done]. unfold len in *. by rewrite length_alter.
Qed.

Lemma rep_push st p :
  Rep (Some st) (files_map (t_files st)) -> find_file p (t_files st) = None -> file_path p ->
  len (t_files st) < MAX_TMPFS_FILES ->
  Rep (Some (upd t_files (fun l => l ++ [mkFile p []]) st)) (<[p := []]> (files_map (t_files st))).
Proof.
  intros (st' & [= <-] & Hnd & Hlegal & Hlen & _) Hf Hp Hlt.
  eexists. split; [reflexivity|]. cbn [t_files upd eta_TmpfsState]. split; [|split; [|split]].
  - rewrite fmap_app. apply NoDup_app. split; [done|]. apply find_file_None in Hf. split; [|apply NoDup_singleton].
    intros q Hq Hin. apply list_elem_of_singleton in Hin. simpl in Hin. by subst q.
  - apply Forall_app. split; [done|]. by apply Forall_singleton.
  - rewrite len_app. unfold MAX_TMPFS_FILES, len in *. simpl. lia.
  - by rewrite files_map_app.
Qed.

(** The two writers on the path of a file. *)
Section file_ops.
Context (st : TmpfsState) (path n : list Z).
Context (Hrep : Rep (Some st) (files_map (t_files st))).
Context (Hn : normalize_path path = Some n) (Hens : ensure_tmpfs_parent n = Ok tt) (Hfile : file_path n).

Lemma files_lookup :
  files_map (t_files st) !! n =
  match find_file n (t_files st) with Some i => f_content <$> t_files st !! i | None => None end.
Proof. apply files_map_lookup. by destruct Hrep as (st' & [= <-] & Hnd & _). Qed.

Lemma open_file_run create truncate :
  is_root n = false ->
  exists t', open_file path create truncate (Some st) = (fst (spec_open n create truncate (files_map (t_files st))), t') /\
    Rep t' (snd (spec_open n create truncate (files_map (t_files st)))).
Proof.
  intros Hroot. unfold open_file, spec_open, tmpfs_normalize_path. rewrite files_lookup, Hn.
  run. rewrite Hens. unfold the_files. run. unfold id at 1. rewrite Hroot.
  destruct (find_file n (t_files st)) as [i|] eqn:Hf.
  - destruct (find_file_Some _ _ _ Hf) as (f & Hi & Hp). rewrite Hi. cbn [fmap option_fmap option_map fst snd].
    destruct truncate; simpl.
    + rewrite list_lookup_alter_eq, Hi. simpl. eexists. split; [reflexivity|]. by apply rep_alter.
    + rewrite Hi. simpl. eexists. split; [reflexivity|].
      rewrite insert_id; [done|]. by rewrite files_lookup, Hf, Hi.
  - destruct create; cbn [negb]; [|eexists; split; [reflexivity|done]].
    destruct Hrep as (st' & [= <-] & Hnd & _). rewrite files_map_size by done.
    bdestruct_if; eexists; (split; [reflexivity|]); simpl; [done|by apply rep_push].
Qed.

Lemma write_file_run content :
  exists t', write_file path content (Some st) = (fst (spec_write n content (files_map (t_files st))), t') /\
    Rep t' (snd (spec_write n content (files_map (t_files st)))).
Proof.
  unfold write_file, spec_write, tmpfs_normalize_path. rewrite files_lookup, Hn. run. rewrite Hens. unfold the_files. run. unfold id at 1.
  destruct (find_file n (t_files st)) as [i|] eqn:Hf; [|eexists; split; [reflexivity|done]].
  destruct (find_file_Some _ _ _ Hf) as (f & Hi & Hp). rewrite Hi. cbn [fmap option_fmap option_map fst snd].
  eexists. split; [reflexivity|]. by apply rep_alter.
Qed.
End file_ops.

(** * Theorems *)

(** C12: on an initialised file system that implements the map [a], opening,
    writing and reading a path are look-up, update and bounded creation in [a]
    at the normalised path: paths that do not normalise or lie elsewhere are
    [InvalidPath], the two directories are [IsDirectory], and every outcome leaves
    a file system that implements the updated map, so at most 256 files with
    distinct normalised paths directly under [/tmp] and [/run]. *)
Theorem tmpfs_refines (t : option TmpfsState) (a : gmap (list Z) (list Z)) (path content : list Z)
    (create truncate : bool) (Hrep : Rep t a) :
  match normalize_path path with
  | None =>
      open_file path create truncate t = (Err TmpInvalidPath, t) /\
      write_file path content t = (Err TmpInvalidPath, t) /\ read_bytes path t = None
  | Some n =>
      read_bytes path t = a !! n /\
      if is_root n then
        open_file path create truncate t = (Err TmpIsDirectory, t) /\ write_file path content t = (Err TmpNotFound, t)
      else match ensure_tmpfs_parent n with
      | Ok _ => file_path n /\
          (exists t', open_file path create truncate t = (fst (spec_open n create truncate a), t') /\
             Rep t' (snd (spec_open n create truncate a))) /\
          (exists t', write_file path content t = (fst (spec_write n content a), t') /\
             Rep t' (snd (spec_write n content a)))
      | _ => ~ file_path n /\
          open_file path create truncate t = (Err TmpInvalidPath, t) /\ write_file path content t = (Err TmpInvalidPath, t)
      end
  end.
Proof.
  pose proof Hrep as (st & -> & Hnd & Hlegal & Hlen & ->).
  destruct (normalize_path path) as [n|] eqn:Hn.
  2:{ unfold open_file, write_file, read_bytes, tmpfs_normalize_path. run. by rewrite Hn. }
  destruct (normalize_segments path n Hn) as (segs & _ & Hseg & Heq).
  assert (Hroots : is_root n = true <-> segs ∈ root_segments) by (rewrite Heq; by apply is_root_render).
  pose proof (ensure_parent_spec segs Hseg) as Hparent. rewrite <- Heq in Hparent.
  assert (Hlook := files_lookup st n Hrep).
  split; [unfold read_bytes, tmpfs_normalize_path; by rewrite Hn, Hlook|].
  destruct Hparent as [[Hens Hcase]|(Hens & Hroot & Hfile)].
  - rewrite Hens. destruct (is_root n) eqn:Hroot.
    + assert (Hnone : find_file n (t_files st) = None).
      { destruct (find_file n (t_files st)) as [i|] eqn:Hf; [|done]. destruct (find_file_Some _ _ _ Hf) as (f & Hi & Hp).
        rewrite Forall_lookup in Hlegal. destruct (Hlegal i f Hi) as (r & y & Hr & Hy & He). rewrite Hp, Heq in He.
        apply render_inj in He; [|done|by apply plain_file]. pose proof (proj1 Hroots eq_refl) as Hin. subst segs.
        unfold root_segments in Hin. rewrite !elem_of_cons, elem_of_nil in Hin. by destruct Hin as [?|[?|[]]]. }
      unfold open_file, write_file, tmpfs_normalize_path. run. rewrite Hn, Hens. unfold the_files. run. unfold id.
      by rewrite Hroot, Hnone.
    + destruct Hcase as [Hin|Hfile]; [by apply Hroots in Hin|].
      split; [done|]. split; [by apply open_file_run|by apply write_file_run].
  - assert (Hr : is_root n = false).
    { destruct (is_root n); [|done]. by destruct (Hroot (proj1 Hroots eq_refl)). }
    rewrite Hens, Hr. split; [done|]. unfold open_file, write_file, tmpfs_normalize_path. run. by rewrite Hn, Hens.
Qed.

Definition demo_tmpfs : option TmpfsState := Some (mkTmpfs true [mkFile (lit "/tmp/a") (lit "hi")]).

Lemma plain_a : plain_segment (lit "a").
Proof.
  split; [discriminate|]. split; [discriminate|]. split; [discriminate|]. unfold no_char, SLASH.
  change (lit "a") with [97]. rewrite elem_of_cons, elem_of_nil. intuition discriminate.
Qed.

Lemma demo_tmpfs_rep : Rep demo_tmpfs {[lit "/tmp/a" := lit "hi"]}.
Proof.
  eexists. split; [reflexivity|]. split; [apply NoDup_singleton|]. split; [|split; [discriminate|reflexivity]].
  apply Forall_singleton. exists (lit "tmp"), (lit "a"). split; [unfold root_segments; rewrite elem_of_cons; auto|].
  split; [apply plain_a|reflexivity].
Qed.

Lemma tmpfs_refines_witness :
  exists t', write_file (lit "/tmp/x/../a") (lit "new") demo_tmpfs = (Ok tt, t') /\ Rep t' {[lit "/tmp/a" := lit "new"]}.
Proof.
  pose proof (tmpfs_refines demo_tmpfs {[lit "/tmp/a" := lit "hi"]} (lit "/tmp/x/../a") (lit "new") false false demo_tmpfs_rep) as H.
  destruct H as (_ & _ & _ & t' & Hw & Hr). exists t'. split; [exact Hw|exact Hr].
Defined.

(** ** Directory listings *)
Lemma insert_sorted_perm x l : Permutation (insert_sorted x l) (x :: l).
Proof.
  induction l as [|y l IH]; simpl; [done|]. destruct (str_leb x y); [done|]. rewrite IH. apply perm_swap.
Qed.

Lemma sort_strings_perm l : Permutation (sort_strings l) l.
Proof. induction l as [|x l IH]; [done|]. cbn [sort_strings foldr]. rewrite insert_sorted_perm. by constructor. Qed.

Definition str_le (a b : list Z) : Prop := str_leb a b = true.

Lemma str_le_total a b : str_leb a b = false -> str_le b a.
Proof.
  unfold str_le. revert b. induction a as [|x a IH]; intros [|y b]; simpl; try done.
  destruct (Z.eqb_spec x y) as [->|Hne]; [rewrite Z.eqb_refl; auto|].
  intros H. bool_prop. rewrite (proj2 (Z.eqb_neq y x)) by lia. apply Z.ltb_lt. lia.
Qed.

Lemma sort_strings_sorted l : Sorted str_le (sort_strings l).
Proof.
  induction l as [|x l IH]; [constructor|]. cbn [sort_strings foldr]. fold (sort_strings l).
  induction IH as [|y l' Hs IH' Hd]; simpl; [by repeat constructor|].
  destruct (str_leb x y) eqn:Hxy; [by constructor; constructor|].
  constructor; [done|]. destruct l' as [|z l']; simpl; [constructor; by apply str_le_total|].
  destruct (str_leb x z); constructor; [by apply str_le_total|by inversion Hd].
Qed.

Lemma direct_child_spec r r' y :
  [r] ∈ root_segments -> [r'] ∈ root_segments -> plain_segment y ->
  direct_child_name (render [r]) (render [r'; y]) = if bool_decide (r = r') then Some y else None.
Proof.
  unfold root_segments. rewrite !elem_of_cons, !elem_of_nil. intros Hr Hr' (Hne & _ & _ & Hs).
  assert (Hx : existsb (fun c => c =? SLASH) y = false).
  { apply not_true_iff_false. intros (c & Hc & He)%existsb_exists. apply Z.eqb_eq in He as ->. by apply list_elem_of_In in Hc. }
  assert (Et : render [lit "tmp"; y] = [47; 116; 109; 112; 47] ++ y) by (rewrite <- (app_nil_r y) at 2; reflexivity).
  assert (Er : render [lit "run"; y] = [47; 114; 117; 110; 47] ++ y) by (rewrite <- (app_nil_r y) at 2; reflexivity).
  assert (Hy := proj2 (str_eqb_false y []) Hne).
  destruct Hr as [[= ->]|[[= ->]|[]]], Hr' as [[= ->]|[[= ->]|[]]]; rewrite ?Et, ?Er;
    change (render [lit "tmp"]) with [47; 116; 109; 112]; change (render [lit "run"]) with [47; 114; 117; 110];
    try reflexivity; rewrite bool_decide_eq_true_2 by done;
    unfold direct_child_name; cbn -[existsb str_eqb]; by rewrite Hy, Hx.
Qed.

(** Reading one of the two directories lists, one per line and in sorted
    order, exactly the names of the files the map holds in it, each once. *)
Theorem tmpfs_listing (t : option TmpfsState) (a : gmap (list Z) (list Z)) (root : list Z)
    (Hrep : Rep t a) (Hroot : [root] ∈ root_segments) :
  exists names, tmpfs_read (render [root]) t = Some (concat ((fun name => name ++ [NEWLINE]) <$> names)) /\
    Sorted str_le names /\ NoDup names /\
    forall name, name ∈ names <-> plain_segment name /\ is_Some (a !! render [root; name]).
Proof.
  destruct Hrep as (st & -> & Hnd & Hlegal & _ & ->).
  pose proof (plain_root _ Hroot) as Hplain. pose proof (proj2 (is_root_render _ Hplain) Hroot) as Hisroot.
  assert (Hread : tmpfs_read (render [root]) (Some st) = render_directory (render [root]) (Some st)).
  { unfold tmpfs_read, node_kind, tmpfs_normalize_path. rewrite normalize_render by done.
    rewrite normalize_render by done. by rewrite Hisroot. }
  rewrite Hread. unfold render_directory. set (child := fun file => direct_child_name (render [root]) (f_path file)).
  eexists. split; [reflexivity|]. split; [apply sort_strings_sorted|].
  assert (Hchild : forall f name, f ∈ t_files st -> child f = Some name <-> plain_segment name /\ f_path f = render [root; name]).
  { intros f name Hf. rewrite list.Forall_forall in Hlegal. destruct (Hlegal f Hf) as (r & y & Hr & Hy & Hp).
    unfold child. rewrite Hp, direct_child_spec by done. split.
    - case_bool_decide; [|done]. subst r. by intros [= <-].
    - intros [Hn He]. apply render_inj in He; [|by apply plain_file|by apply plain_file].
      injection He as -> ->. by rewrite bool_decide_eq_true_2. }
  split.
  - rewrite sort_strings_perm. clear -Hnd Hchild. revert Hnd Hchild.
    induction (t_files st) as [|f l IH]; intros Hnd Hchild; [constructor|].
    apply NoDup_cons in Hnd as [Hnot Hnd]. cbn [omap list_omap].
    assert (IH' := IH Hnd (fun g name Hg => Hchild g name (proj2 (elem_of_cons l g f) (or_intror Hg)))).
    destruct (child f) as [name|] eqn:Hc; [|done]. apply NoDup_cons. split; [|done].
    intros (g & Hg & Hcg)%list_elem_of_omap. apply Hnot. apply Hchild in Hc as [_ Hf]; [|by left].
    apply Hchild in Hcg as [_ Hg']; [|by right]. apply list_elem_of_fmap. exists g. by rewrite Hf, Hg'.
  - intros name. rewrite sort_strings_perm, list_elem_of_omap. rewrite files_map_lookup by done. split.
    + intros (f & Hf & Hc). apply Hchild in Hc as [Hn Hp]; [|done]. split; [done|].
      destruct (find_file (render [root; name]) (t_files st)) as [i|] eqn:Hi.
      * destruct (find_file_Some _ _ _ Hi) as (f' & -> & _). simpl. eauto.
      * apply find_file_None in Hi. exfalso. apply Hi, list_elem_of_fmap. eauto.
    + intros [Hn Hsome]. destruct (find_file (render [root; name]) (t_files st)) as [i|] eqn:Hi; [|by destruct Hsome].
      destruct (find_file_Some _ _ _ Hi) as (f & Hf & Hp). exists f. apply list_elem_of_lookup_2 in Hf. split; [done|].
      by apply Hchild.
Qed.

Lemma tmpfs_listing_witness :
  exists names, tmpfs_read (lit "/tmp") demo_tmpfs = Some (concat ((fun name => name ++ [NEWLINE]) <$> names)) /\
    forall name, name ∈ names <-> plain_segment name /\
      is_Some (({[lit "/tmp/a" := lit "hi"]} : gmap (list Z) (list Z)) !! render [lit "tmp"; name]).
Proof.
  destruct (tmpfs_listing demo_tmpfs {[lit "/tmp/a" := lit "hi"]} (lit "tmp") demo_tmpfs_rep) as (names & Hr & _ & _ & Hn).
  - unfold root_segments. rewrite elem_of_cons. auto.
  - exists names. split; [exact Hr|exact Hn].
Defined.
