(* ===== verification/Exec.v ===== *)
(** * Executable images: [kernel/src/exec.rs]

    Recognition of an image (ELF64, script, text), the ELF64 parser and the plan
    of the mappings its load segments need. The parser runs on untrusted bytes:
    every read is checked, and the theorems show that it returns on any input,
    that what it accepts is within the image, and that the plan covers the
    segments with whole pages. *)
From stdpp Require Import base list numbers option strings.
From Stdlib Require Import ZArith Lia Bool.
From S2P Require Import Prelude Paths.

Definition ELF_MAGIC : list Z := [0x7f; 0x45; 0x4c; 0x46].
Definition ELF64_EHDR_SIZE : Z := 64.
Definition ELF64_PHDR_SIZE : Z := 56.
Definition ELF_CLASS_64 : Z := 2.
Definition ELF_DATA_LITTLE : Z := 1.
Definition ELF_VERSION_CURRENT : Z := 1.
Definition MAX_PROGRAM_HEADERS : Z := 256.
Definition ELF_PAGE_SIZE : Z := 4096.
Definition PF_EXECUTE : Z := 0x1.
Definition PF_WRITE : Z := 0x2.
Definition PF_READ : Z := 0x4.

Inductive ImageKind : Type := KElf64 | KShebangScript | KText | KUnknown.

Inductive ProgramHeaderType : Type :=
| PNull | PLoad | PDynamic | PInterpreter | PNote | PProgramHeaderTable | PThreadLocalStorage
| PGnuStack | PGnuRelro | PUnknown (raw : Z).

#[export] Instance ProgramHeaderType_eq_dec : EqDecision ProgramHeaderType.
Proof. solve_decision. Defined.

Definition phdr_from_raw (raw : Z) : ProgramHeaderType :=
  if raw =? 0 then PNull
  else if raw =? 1 then PLoad
  else if raw =? 2 then PDynamic
  else if raw =? 3 then PInterpreter
  else if raw =? 4 then PNote
  else if raw =? 6 then PProgramHeaderTable
  else if raw =? 7 then PThreadLocalStorage
  else if raw =? 0x6474e551 then PGnuStack
  else if raw =? 0x6474e552 then PGnuRelro
  else PUnknown raw.

Record ProgramHeader : Type := mkPhdr {
  segment_type : ProgramHeaderType; ph_flags : Z; ph_offset : Z; virtual_address : Z;
  file_size : Z; memory_size : Z; ph_alignment : Z }.

Definition is_loadable (h : ProgramHeader) : bool := bool_decide (segment_type h = PLoad).
Definition can_read (h : ProgramHeader) : bool := negb (Z.land (ph_flags h) PF_READ =? 0).
Definition can_write (h : ProgramHeader) : bool := negb (Z.land (ph_flags h) PF_WRITE =? 0).
Definition can_execute (h : ProgramHeader) : bool := negb (Z.land (ph_flags h) PF_EXECUTE =? 0).

Record SegmentPermissions : Type := mkPerms { p_read : bool; p_write : bool; p_execute : bool }.
Definition from_header (h : ProgramHeader) : SegmentPermissions := mkPerms (can_read h) (can_write h) (can_execute h).

Record LoadSegmentPlan : Type := mkPlan {
  pl_index : Z; pl_file_offset : Z; pl_virtual_start : Z; pl_virtual_end : Z; pl_map_start : Z; pl_map_end : Z;
  pl_page_offset : Z; pl_file_bytes : Z; pl_memory_bytes : Z; pl_zero_fill_bytes : Z; pl_alignment : Z;
  pl_permissions : SegmentPermissions }.

Record ElfImage : Type := mkElf {
  image_type : Z; machine : Z; entry_point : Z; interpreter : option (list Z); program_headers : list ProgramHeader }.
Record ShebangImage : Type := mkShebang { sh_interpreter : list Z; sh_argument : option (list Z) }.
Inductive ExecutableImage : Type :=
| Elf64 (elf : ElfImage) | Shebang (script : ShebangImage) | Text | UnknownImage.

Inductive ParseError : Type :=
| Truncated | UnsupportedElfClass | UnsupportedEndianness | UnsupportedVersion | InvalidHeader
| TooManyProgramHeaders | InvalidProgramHeaderTable | ProgramHeaderOutOfBounds | SegmentOutOfBounds
| InvalidSegmentSize | SegmentAddressOverflow.
Definition parse_error_str (e : ParseError) : list Z :=
  match e with
  | Truncated => lit "executable image is truncated"
  | UnsupportedElfClass => lit "elf class is unsupported"
  | UnsupportedEndianness => lit "elf endianness is unsupported"
  | UnsupportedVersion => lit "elf version is unsupported"
  | InvalidHeader => lit "elf header is invalid"
  | TooManyProgramHeaders => lit "elf has too many program headers"
  | InvalidProgramHeaderTable => lit "elf program header table is invalid"
  | ProgramHeaderOutOfBounds => lit "elf program header extends beyond image bounds"
  | SegmentOutOfBounds => lit "elf segment extends beyond image bounds"
  | InvalidSegmentSize => lit "elf segment file size exceeds memory size"
  | SegmentAddressOverflow => lit "elf segment address arithmetic overflow"
  end.

(** ** Reads *)

(** [bytes.get(a..b)] *)
Definition get_range (bytes : list Z) (a b : Z) : option (list Z) :=
  if (a <=? b) && (b <=? len bytes) then Some (take (Z.to_nat (b - a)) (drop (Z.to_nat a) bytes)) else None.

Definition read_le (n : Z) (bytes : list Z) (offset : Z) : outcome ParseError Z :=
  let? e := ok_or Truncated (chk_add U64 offset n) in
  let? s := ok_or Truncated (get_range bytes offset e) in
  Ok (le_val s).

Definition elf_read_u16_le (bytes : list Z) (offset : Z) : outcome ParseError Z := read_le 2 bytes offset.
Definition elf_read_u32_le (bytes : list Z) (offset : Z) : outcome ParseError Z := read_le 4 bytes offset.
Definition elf_read_u64_le (bytes : list Z) (offset : Z) : outcome ParseError Z := read_le 8 bytes offset.

Definition elf_align_down (value alignment : Z) : Z := Z.land value (bitnot U64 (alignment - 1)).

Definition elf_align_up (value alignment : Z) : option Z :=
  match chk_sub alignment 1 with
  | None => None
  | Some addend => (fun rounded => Z.land rounded (bitnot U64 addend)) <$> chk_add U64 value addend
  end.

(** ** The ELF64 parser *)

(** The fields of one entry of the program header table, checked: lines 264 to 300. *)
Definition parse_header (image : list Z) (entry_offset : Z) : outcome ParseError ProgramHeader :=
  let? raw_type := elf_read_u32_le image entry_offset in
  let? o4 := add U64 entry_offset 4 in
  let? flags := elf_read_u32_le image o4 in
  let? o8 := add U64 entry_offset 8 in
  let? offset := elf_read_u64_le image o8 in
  let? o16 := add U64 entry_offset 16 in
  let? vaddr := elf_read_u64_le image o16 in
  let? o32 := add U64 entry_offset 32 in
  let? fsize := elf_read_u64_le image o32 in
  let? o40 := add U64 entry_offset 40 in
  let? msize := elf_read_u64_le image o40 in
  let? o48 := add U64 entry_offset 48 in
  let? align := elf_read_u64_le image o48 in
  if msize <? fsize then Err InvalidSegmentSize else
  let? _ :=
    if 0 <? fsize then
      let? segment_end := ok_or SegmentOutOfBounds (chk_add U64 offset fsize) in
      if len image <? segment_end then Err SegmentOutOfBounds else Ok tt
    else Ok tt in
  if (0 <? msize) && bool_decide (chk_add U64 vaddr msize = None) then Err SegmentAddressOverflow else
  Ok (mkPhdr (phdr_from_raw raw_type) flags offset vaddr fsize msize align).

(** [segment.iter().position(|byte| *byte == 0).unwrap_or(segment.len())] *)
Definition c_string (segment : list Z) : list Z :=
  take (default (length segment) (position (fun b => b =? 0) segment)) segment.

(** The interpreter after one more header: lines 301 to 312. *)
Definition parse_interpreter (image : list Z) (current : option (list Z)) (h : ProgramHeader)
    : outcome ParseError (option (list Z)) :=
  if bool_decide (current = None) && bool_decide (segment_type h = PInterpreter) && (0 <? file_size h) then
    let? segment_end := add U64 (ph_offset h) (file_size h) in
    let? segment := slice image (ph_offset h) segment_end in
    let text := c_string segment in
    if 0 <? len text then Ok (Some (from_utf8_lossy text)) else Ok current
  else Ok current.

(** The loop over the table: [count] entries from [index] on. *)
Fixpoint parse_headers (image : list Z) (table entry_size index : Z) (count : nat) (interp : option (list Z))
    (headers : list ProgramHeader) : outcome ParseError (option (list Z) * list ProgramHeader) :=
  match count with
  | O => Ok (interp, headers)
  | S count' =>
      let? scaled := ok_or InvalidProgramHeaderTable (chk_mul U64 index entry_size) in
      let? entry_offset := ok_or InvalidProgramHeaderTable (chk_add U64 table scaled) in
      let? entry_end := ok_or InvalidProgramHeaderTable (chk_add U64 entry_offset ELF64_PHDR_SIZE) in
      if len image <? entry_end then Err ProgramHeaderOutOfBounds else
      let? header := parse_header image entry_offset in
      let? interp := parse_interpreter image interp header in
      parse_headers image table entry_size (index + 1) count' interp (headers ++ [header])
  end.

(** The check of the table's bounds: lines 232 to 245. *)
Definition check_table (image : list Z) (table entry_size count : Z) : outcome ParseError unit :=
  if 0 <? count then
    if entry_size <? ELF64_PHDR_SIZE then Err InvalidProgramHeaderTable else
    let? table_size := ok_or InvalidProgramHeaderTable (chk_mul U64 entry_size count) in
    let? table_end := ok_or InvalidProgramHeaderTable (chk_add U64 table table_size) in
    if len image <? table_end then Err ProgramHeaderOutOfBounds else Ok tt
  else Ok tt.

Definition parse_elf64 (image : list Z) : outcome ParseError ElfImage :=
  if len image <? ELF64_EHDR_SIZE then Err Truncated else
  let? class := idx image 4 in
  if negb (class =? ELF_CLASS_64) then Err UnsupportedElfClass else
  let? data := idx image 5 in
  if negb (data =? ELF_DATA_LITTLE) then Err UnsupportedEndianness else
  let? ident_version := idx image 6 in
  if negb (ident_version =? ELF_VERSION_CURRENT) then Err UnsupportedVersion else
  let? header_size := elf_read_u16_le image 52 in
  if negb (header_size =? ELF64_EHDR_SIZE) then Err InvalidHeader else
  let? itype := elf_read_u16_le image 16 in
  let? mach := elf_read_u16_le image 18 in
  let? version := elf_read_u32_le image 20 in
  if negb (version =? ELF_VERSION_CURRENT) then Err UnsupportedVersion else
  let? entry := elf_read_u64_le image 24 in
  let? table := elf_read_u64_le image 32 in
  let? entry_size := elf_read_u16_le image 54 in
  let? count := elf_read_u16_le image 56 in
  if MAX_PROGRAM_HEADERS <? count then Err TooManyProgramHeaders else
  let? _ := check_table image table entry_size count in
  let? '(interp, headers) := parse_headers image table entry_size 0 (Z.to_nat count) None [] in
  Ok (mkElf itype mach entry interp headers).

(** ** The load plan *)
Definition plan_segment (index : Z) (h : ProgramHeader) : outcome ParseError LoadSegmentPlan :=
  if memory_size h <? file_size h then Err InvalidSegmentSize else
  let? virtual_end := ok_or SegmentAddressOverflow (chk_add U64 (virtual_address h) (memory_size h)) in
  let map_start := elf_align_down (virtual_address h) ELF_PAGE_SIZE in
  let? map_end := ok_or SegmentAddressOverflow (elf_align_up virtual_end ELF_PAGE_SIZE) in
  let? page_offset := ok_or SegmentAddressOverflow (chk_sub (virtual_address h) map_start) in
  let zero_fill := sat_sub (memory_size h) (file_size h) in
  Ok (mkPlan index (ph_offset h) (virtual_address h) virtual_end map_start map_end page_offset
        (file_size h) (memory_size h) zero_fill (ph_alignment h) (from_header h)).

Fixpoint plan_headers (index : Z) (hs : list ProgramHeader) (plan : list LoadSegmentPlan)
    : outcome ParseError (list LoadSegmentPlan) :=
  match hs with
  | [] => Ok plan
  | h :: hs' =>
      if negb (is_loadable h) then plan_headers (index + 1) hs' plan else
      let? p := plan_segment index h in
      plan_headers (index + 1) hs' (plan ++ [p])
  end.

Definition build_load_plan (image : ElfImage) : outcome ParseError (list LoadSegmentPlan) :=
  plan_headers 0 (program_headers image) [].

(** ** Scripts and text *)
Definition is_ascii_whitespace (b : Z) : bool := existsb (Z.eqb b) [0x20; 0x09; 0x0A; 0x0C; 0x0D].

(** [slice.split(|byte| P(byte))] *)
Fixpoint split_by (P : Z -> bool) (s : list Z) : list (list Z) :=
  match s with
  | [] => [[]]
  | b :: s' =>
      if P b then [] :: split_by P s'
      else match split_by P s' with piece :: rest => (b :: piece) :: rest | [] => [[b]] end
  end.

Definition parse_shebang (image : list Z) : outcome ParseError (option ShebangImage) :=
  if negb (starts_with image (lit "#!")) then Ok None else
  let line_end := match position (fun b => b =? NEWLINE) image with Some i => Z.of_nat i | None => len image end in
  let? line := slice image 2 line_end in
  match base.filter (fun t => t <> []) (split_by is_ascii_whitespace line) with
  | [] => Ok None
  | token :: rest => Ok (Some (mkShebang (from_utf8_lossy token) (from_utf8_lossy <$> head rest)))
  end.

Definition looks_like_text (image : list Z) : bool :=
  negb (bool_decide (image = [])) &&
  forallb (fun b => (b =? 10) || (b =? 13) || (b =? 9) || between 32 b 126) image.

Definition inspect (image : list Z) : outcome ParseError ExecutableImage :=
  if starts_with image ELF_MAGIC then
    let? elf := parse_elf64 image in Ok (Elf64 elf)
  else
    let? shebang := parse_shebang image in
    match shebang with
    | Some s => Ok (Shebang s)
    | None => if looks_like_text image then Ok Text else Ok UnknownImage
    end.

Definition detect_kind (image : list Z) : outcome ParseError ImageKind :=
  let? i := inspect image in
  Ok match i with
     | Elf64 _ => KElf64
     | Shebang _ => KShebangScript
     | Text => KText
     | UnknownImage => KUnknown
     end.

(** * Facts *)
Definition image_ok (image : list Z) : Prop := byte_list image /\ len image < SLICE_LIMIT.

(** The little-endian number of [n] bytes at [off]. *)
Definition field (image : list Z) (off n : Z) : Z := le_val (take (Z.to_nat n) (drop (Z.to_nat off) image)).

Lemma field_range image off n k : image_ok image -> 0 <= off -> off + n <= len image -> 0 <= n -> k = 256 ^ n -> 0 <= field image off n < k.
Proof.
  intros [Hb _] Ho Hl Hn ->. unfold field.
  assert (Hsub : byte_list (take (Z.to_nat n) (drop (Z.to_nat off) image))) by (by apply Forall_take, Forall_drop).
  pose proof (le_val_range _ Hsub) as Hr.
  replace (len (take (Z.to_nat n) (drop (Z.to_nat off) image))) with n in Hr by len_solve. exact Hr.
Qed.

Lemma read_le_run n image off :
  image_ok image -> 0 <= off -> 0 <= n < 256 ->
  read_le n image off = if off + n <=? len image then Ok (field image off n) else Err Truncated.
Proof.
  intros [_ Hl] Ho Hn. unfold read_le, chk_add. bdestruct_if; cbn [ok_or obind].
  - unfold get_range. rewrite (proj2 (Z.leb_le off (off + n))) by lia. cbn [andb].
    bdestruct_if; cbn [ok_or obind]; [|done]. unfold field. by replace (off + n - off) with n by lia.
  - bdestruct_if; [lia|done].
Qed.

Lemma read_le_ok n image off :
  image_ok image -> 0 <= off -> 0 <= n < 256 -> off + n <= len image -> read_le n image off = Ok (field image off n).
Proof. intros Hi Ho Hn Hl. rewrite read_le_run by done. by rewrite (proj2 (Z.leb_le _ _)). Qed.

(** The entry of the program header table at [off]. *)
Definition phdr_at (image : list Z) (off : Z) : ProgramHeader :=
  mkPhdr (phdr_from_raw (field image off 4)) (field image (off + 4) 4) (field image (off + 8) 8)
    (field image (off + 16) 8) (field image (off + 32) 8) (field image (off + 40) 8) (field image (off + 48) 8).

(** What an accepted entry satisfies: its file bytes are in the image and its
    memory does not wrap around the address space. *)
Definition header_valid (image : list Z) (h : ProgramHeader) : Prop :=
  0 <= file_size h <= memory_size h /\ 0 <= ph_offset h < U64 /\ 0 <= virtual_address h < U64 /\
  (0 < file_size h -> ph_offset h + file_size h <= len image) /\
  (0 < memory_size h -> virtual_address h + memory_size h < U64).

Lemma parse_header_run image off :
  image_ok image -> 0 <= off -> off + ELF64_PHDR_SIZE <= len image ->
  match parse_header image off with
  | Ok h => h = phdr_at image off /\ header_valid image h
  | Err _ => ~ header_valid image (phdr_at image off)
  | _ => False
  end.
Proof.
  intros Hi Ho Hl. unfold ELF64_PHDR_SIZE in Hl. pose proof (proj2 Hi) as Hlim. unfold parse_header, elf_read_u32_le, elf_read_u64_le.
  rewrite !add_ok by lia. cbn [obind]. rewrite !read_le_ok by (done || lia). cbn [obind].
  pose proof (field_range image (off + 8) 8 U64 Hi ltac:(lia) ltac:(lia) ltac:(lia) eq_refl) as Hoff.
  pose proof (field_range image (off + 16) 8 U64 Hi ltac:(lia) ltac:(lia) ltac:(lia) eq_refl) as Hva.
  pose proof (field_range image (off + 32) 8 U64 Hi ltac:(lia) ltac:(lia) ltac:(lia) eq_refl) as Hfs.
  unfold header_valid, phdr_at. cbn [file_size memory_size ph_offset virtual_address].
  set (fs := field image (off + 32) 8) in *. set (ms := field image (off + 40) 8) in *.
  set (va := field image (off + 16) 8) in *. set (fo := field image (off + 8) 8) in *. clearbody fs ms va fo.
  assert (Hrefuse : forall P : Prop, (0 < fs -> fo + fs <= len image) -> (0 < ms -> va + ms < U64) -> fs <= ms ->
    ms < fs \/ (0 < fs /\ len image < fo + fs) \/ (0 < ms /\ U64 <= va + ms) -> P) by (intros; lia).
  unfold chk_add. bdestruct_if; [intros (? & _ & _ & Hq1 & Hq2); eapply Hrefuse; eauto; lia|].
  destruct (Z.ltb_spec 0 fs) as [Hpos|Hzero]; cbn [obind].
  - destruct (Z.ltb_spec (fo + fs) U64); cbn [ok_or obind]; [|intros (? & _ & _ & Hq1 & Hq2); eapply Hrefuse; eauto; lia].
    bdestruct_if; cbn [obind]; [intros (? & _ & _ & Hq1 & Hq2); eapply Hrefuse; eauto; lia|].
    destruct (Z.ltb_spec (va + ms) U64).
    + rewrite (bool_decide_eq_false_2 (Some _ = None)) by done. rewrite andb_false_r. split; [done|]. cbn [file_size memory_size ph_offset virtual_address]. repeat split; lia.
    + rewrite (bool_decide_eq_true_2 (None = None)) by done. rewrite (proj2 (Z.ltb_lt 0 ms)) by lia. cbn [andb].
      intros (? & _ & _ & Hq1 & Hq2); eapply Hrefuse; eauto; lia.
  - destruct (Z.ltb_spec (va + ms) U64).
    + rewrite (bool_decide_eq_false_2 (Some _ = None)) by done. rewrite andb_false_r. split; [done|]. cbn [file_size memory_size ph_offset virtual_address]. repeat split; lia.
    + rewrite (bool_decide_eq_true_2 (None = None)) by done. destruct (Z.ltb_spec 0 ms); cbn [andb].
      * intros (? & _ & _ & Hq1 & Hq2); eapply Hrefuse; eauto; lia.
      * split; [done|]. cbn [file_size memory_size ph_offset virtual_address]. repeat split; lia.
Qed.

Lemma parse_interpreter_run image current h :
  image_ok image -> header_valid image h ->
  exists r, parse_interpreter image current h = Ok r /\
    (segment_type h <> PInterpreter \/ current <> None -> r = current).
Proof.
  intros [_ Hl] (_ & Ho & _ & Hf & _). unfold parse_interpreter.
  destruct (bool_decide (current = None) && bool_decide (segment_type h = PInterpreter)) eqn:Hb; cbn [andb].
  - apply andb_true_iff in Hb as [Hc Ht]. apply bool_decide_eq_true in Hc, Ht.
    destruct (Z.ltb_spec 0 (file_size h)) as [Hpos|]; [|eauto]. specialize (Hf Hpos).
    rewrite add_ok by lia. cbn [obind]. rewrite slice_ok by lia. cbn [obind].
    bdestruct_if; eexists; (split; [reflexivity|]); by intros [?|?].
  - eauto.
Qed.

Definition header_table (image : list Z) (table entry_size index : Z) (count : nat) : list ProgramHeader :=
  (fun i => phdr_at image (table + i * entry_size)) <$> seqZ index (Z.of_nat count).

Lemma parse_headers_run image table entry_size count : forall index interp headers,
  image_ok image -> 0 <= table -> 0 <= entry_size -> 0 <= index ->
  match parse_headers image table entry_size index count interp headers with
  | Ok (_, hs) => exists new, hs = headers ++ new /\ new = header_table image table entry_size index count /\
      Forall (header_valid image) new
  | Err _ => True
  | _ => False
  end.
Proof.
  induction count as [|count IH]; intros index interp headers Hi Ht He Hx; cbn [parse_headers].
  { exists []. rewrite app_nil_r. split; [done|]. split; [done|constructor]. }
  unfold chk_mul. bdestruct_if; cbn [ok_or obind]; [|done]. unfold chk_add at 1. bdestruct_if; cbn [ok_or obind]; [|done].
  unfold chk_add at 1. bdestruct_if; cbn [ok_or obind]; [|done]. bdestruct_if; [done|].
  assert (0 <= index * entry_size) by (by apply Z.mul_nonneg_nonneg).
  pose proof (parse_header_run image (table + index * entry_size) Hi ltac:(lia) ltac:(lia)) as Hh.
  destruct (parse_header image (table + index * entry_size)) as [h|e| |]; cbn [obind]; try done. destruct Hh as [-> Hv].
  destruct (parse_interpreter_run image interp _ Hi Hv) as (r & -> & _). cbn [obind].
  specialize (IH (index + 1) r (headers ++ [phdr_at image (table + index * entry_size)]) Hi Ht He ltac:(lia)).
  destruct (parse_headers image table entry_size (index + 1) count r _) as [[i hs]|e| |]; try done.
  destruct IH as (new & -> & -> & Hall). eexists. rewrite <- app_assoc. split; [reflexivity|].
  split; [unfold header_table; rewrite Nat2Z.inj_succ, (seqZ_cons index) by lia; cbn [fmap list_fmap];
    by replace (Z.pred (Z.succ (Z.of_nat count))) with (Z.of_nat count) by lia|].
  by constructor.
Qed.

Lemma check_table_run image table entry_size count :
  0 <= table -> 0 <= entry_size -> 0 <= count ->
  match check_table image table entry_size count with
  | Ok _ => 0 < count -> ELF64_PHDR_SIZE <= entry_size /\ table + entry_size * count <= len image
  | Err _ => True
  | _ => False
  end.
Proof.
  intros Ht He Hc. unfold check_table. bdestruct_if; [|lia]. bdestruct_if; [done|]. unfold chk_mul.
  bdestruct_if; cbn [ok_or obind]; [|done]. unfold chk_add. bdestruct_if; cbn [ok_or obind]; [|done]. bdestruct_if; [done|lia].
Qed.

(** What the parser promises of an image it accepts. *)
Definition elf_sound (image : list Z) (elf : ElfImage) : Prop :=
  let table := field image 32 8 in
  let entry_size := field image 54 2 in
  let count := field image 56 2 in
  image_type elf = field image 16 2 /\ machine elf = field image 18 2 /\ entry_point elf = field image 24 8 /\
  count <= MAX_PROGRAM_HEADERS /\
  (0 < count -> ELF64_PHDR_SIZE <= entry_size /\ table + entry_size * count <= len image) /\
  program_headers elf = header_table image table entry_size 0 (Z.to_nat count) /\
  Forall (header_valid image) (program_headers elf).

Lemma parse_elf64_run image :
  image_ok image ->
  match parse_elf64 image with
  | Ok elf => elf_sound image elf
  | Err _ => True
  | _ => False
  end.
Proof.
  intros Hi. unfold parse_elf64, ELF64_EHDR_SIZE. bdestruct_if; [done|].
  destruct (idx_total (E:=ParseError) image 4 ltac:(lia)) as (c & -> & _).
  destruct (idx_total (E:=ParseError) image 5 ltac:(lia)) as (d & -> & _).
  destruct (idx_total (E:=ParseError) image 6 ltac:(lia)) as (v & -> & _).
  unfold elf_read_u16_le, elf_read_u32_le, elf_read_u64_le. rewrite !read_le_ok by (done || lia). cbn [obind].
  repeat match goal with |- context [if negb ?b then _ else _] => destruct b; cbn [negb]; [|done] end.
  bdestruct_if; [done|].
  pose proof (field_range image 32 8 U64 Hi ltac:(lia) ltac:(lia) ltac:(lia) eq_refl) as Htab.
  pose proof (field_range image 54 2 U16 Hi ltac:(lia) ltac:(lia) ltac:(lia) eq_refl) as Hsize.
  pose proof (field_range image 56 2 U16 Hi ltac:(lia) ltac:(lia) ltac:(lia) eq_refl) as Hcount.
  pose proof (check_table_run image (field image 32 8) (field image 54 2) (field image 56 2) ltac:(lia) ltac:(lia) ltac:(lia)) as Hcheck.
  destruct (check_table image _ _ _) as [[]|e| |]; cbn [obind]; try done.
  pose proof (parse_headers_run image (field image 32 8) (field image 54 2) (Z.to_nat (field image 56 2)) 0 None []
    Hi ltac:(lia) ltac:(lia) ltac:(lia)) as Hp.
  destruct (parse_headers image _ _ 0 _ None []) as [[i hs]|e| |]; cbn [obind]; try done.
  destruct Hp as (new & -> & -> & Hall). unfold elf_sound. cbn [image_type machine entry_point program_headers app].
  repeat split; try done; tauto.
Qed.

Lemma parse_shebang_run image : image_ok image -> exists r, parse_shebang image = Ok r.
Proof.
  intros [_ Hl]. unfold parse_shebang. destruct (starts_with image (lit "#!")) eqn:Hs; [|eauto]. cbn [negb].
  apply starts_with_iff in Hs as [t ->]. change (lit "#!") with [35; 33].
  set (e := match position _ _ with Some i => Z.of_nat i | None => _ end).
  assert (He : 2 <= e <= len ([35; 33] ++ t)).
  { unfold e. destruct (position _ _) as [i|] eqn:Hp; [|len_solve].
    apply position_Some in Hp as [(x & Hx & Hnl) _]. pose proof (lookup_lt_Some _ _ _ Hx).
    destruct i as [|[|i]]; simpl in Hx; [injection Hx as <-; discriminate..|]. unfold len. lia. }
  rewrite slice_ok by lia. cbn [obind]. destruct (base.filter _ _); eauto.
Qed.

(** ** The plan *)
Definition plan_ok (index : Z) (h : ProgramHeader) (p : LoadSegmentPlan) : Prop :=
  pl_index p = index /\ pl_file_offset p = ph_offset h /\
  pl_virtual_start p = virtual_address h /\ pl_virtual_end p = virtual_address h + memory_size h /\
  pl_map_start p mod ELF_PAGE_SIZE = 0 /\ pl_map_end p mod ELF_PAGE_SIZE = 0 /\
  pl_map_start p <= pl_virtual_start p < pl_map_start p + ELF_PAGE_SIZE /\
  pl_virtual_end p <= pl_map_end p < pl_virtual_end p + ELF_PAGE_SIZE /\
  pl_map_start p + pl_page_offset p = pl_virtual_start p /\
  pl_file_bytes p = file_size h /\ pl_file_bytes p + pl_zero_fill_bytes p = pl_memory_bytes p /\
  pl_memory_bytes p = memory_size h /\ pl_permissions p = from_header h /\ pl_map_end p < U64.

Lemma plan_segment_run image index h :
  header_valid image h ->
  match plan_segment index h with
  | Ok p => plan_ok index h p
  | Err SegmentAddressOverflow => U64 <= virtual_address h + memory_size h + (ELF_PAGE_SIZE - 1)
  | _ => False
  end.
Proof.
  intros (Hs & _ & Hva & _ & Hm). unfold plan_segment, ELF_PAGE_SIZE. bdestruct_if; [lia|].
  unfold chk_add at 1. bdestruct_if; cbn [ok_or obind]; [|lia].
  unfold elf_align_up, elf_align_down. change (chk_sub 4096 1) with (Some 4095). cbv beta iota. change (4096 - 1) with 4095.
  unfold chk_add. bdestruct_if; cbn [fmap option_fmap option_map ok_or obind]; [|lia].
  pose proof (align_down_page (virtual_address h) ltac:(lia)) as Hd.
  pose proof (align_down_page (virtual_address h + memory_size h + 4095) ltac:(lia)) as Hu. cbv zeta in Hd, Hu.
  unfold chk_sub. rewrite (proj2 (Z.leb_le _ _)) by lia. cbn [ok_or obind].
  unfold plan_ok, ELF_PAGE_SIZE. cbn. unfold sat_sub. repeat split; try done; try tauto; lia.
Qed.

(** The load segments with their positions in the header table. *)
Fixpoint loadable (index : Z) (hs : list ProgramHeader) : list (Z * ProgramHeader) :=
  match hs with
  | [] => []
  | h :: hs' => (if is_loadable h then [(index, h)] else []) ++ loadable (index + 1) hs'
  end.

Definition past_the_end (h : ProgramHeader) : Prop := U64 <= virtual_address h + memory_size h + (ELF_PAGE_SIZE - 1).

Lemma plan_headers_run image hs : forall index plan,
  Forall (header_valid image) hs ->
  match plan_headers index hs plan with
  | Ok ps => exists new, ps = plan ++ new /\ Forall2 (fun x p => plan_ok x.1 x.2 p) (loadable index hs) new
  | Err SegmentAddressOverflow => Exists (fun h => is_loadable h = true /\ past_the_end h) hs
  | _ => False
  end.
Proof.
  induction hs as [|h hs IH]; intros index plan Hv; cbn [plan_headers loadable].
  { exists []. by rewrite app_nil_r. }
  apply Forall_cons_iff in Hv as [Hh Hv]. destruct (is_loadable h) eqn:Hload; cbn [negb app].
  - pose proof (plan_segment_run image index h Hh) as Hp. destruct (plan_segment index h) as [p|[]| |]; cbn [obind]; try done.
    + specialize (IH (index + 1) (plan ++ [p]) Hv). destruct (plan_headers (index + 1) hs (plan ++ [p])) as [ps|[]| |]; try done.
      * destruct IH as (new & -> & Hall). exists (p :: new). rewrite <- app_assoc. split; [done|]. by constructor.
      * by apply Exists_cons_tl.
    + apply Exists_cons_hd. by split.
  - specialize (IH (index + 1) plan Hv). destruct (plan_headers (index + 1) hs plan) as [ps|[]| |]; try done. by apply Exists_cons_tl.
Qed.

(** * Theorems *)

(** Inspecting any image returns: whatever its bytes, no index is out of
    range, no arithmetic overflows and no loop runs past its bound. *)
Theorem inspect_total (image : list Z) (Himage : image_ok image) : returns (inspect image) /\ returns (detect_kind image).
Proof.
  assert (H : returns (inspect image)).
  { unfold inspect. destruct (starts_with image ELF_MAGIC).
    - pose proof (parse_elf64_run image Himage) as Hp. by destruct (parse_elf64 image).
    - destruct (parse_shebang_run image Himage) as ([s|] & ->); cbn [obind]; [done|]. by destruct (looks_like_text image). }
  split; [done|]. unfold detect_kind. by destruct (inspect image).
Qed.

(** C13: an ELF image the parser accepts has at most 256 program headers, its
    table lies inside the image, the headers returned are the entries of the table
    in order, field by field, and each of them has its file bytes inside the image
    and its memory inside the address space. *)
Theorem parse_elf64_sound (image : list Z) (elf : ElfImage) (Himage : image_ok image) (Hparse : parse_elf64 image = Ok elf) :
  elf_sound image elf.
Proof. pose proof (parse_elf64_run image Himage) as H. by rewrite Hparse in H. Qed.

(** The plan of an accepted image has one entry per load segment, in order;
    each maps whole pages that cover the segment and no page beyond it, at the
    segment's offset in its first page, with the rest of the memory zero filled and
    the segment's permissions. The only error is a segment that ends in the last
    page of the address space. *)
Theorem build_load_plan_spec (image : list Z) (elf : ElfImage) (Himage : image_ok image) (Hparse : parse_elf64 image = Ok elf) :
  match build_load_plan elf with
  | Ok plan => Forall2 (fun x p => plan_ok x.1 x.2 p) (loadable 0 (program_headers elf)) plan
  | Err SegmentAddressOverflow => Exists (fun h => is_loadable h = true /\ past_the_end h) (program_headers elf)
  | _ => False
  end.
Proof.
  pose proof (parse_elf64_run image Himage) as H. rewrite Hparse in H. destruct H as (_ & _ & _ & _ & _ & _ & Hv).
  pose proof (plan_headers_run image (program_headers elf) 0 [] Hv) as Hp. unfold build_load_plan.
  destruct (plan_headers 0 (program_headers elf) []) as [ps|[]| |]; try done. by destruct Hp as (new & -> & Hall).
Qed.

(** A minimal executable: the ELF header, one load segment of 8 file bytes and
    0x20 memory bytes at 0x401ff8, and 8 bytes of code. *)
Definition small_elf : list Z :=
  [0x7f; 0x45; 0x4c; 0x46; 2; 1; 1; 0] ++ replicate 8 0 ++
  le_bytes 2 2 ++ le_bytes 2 62 ++ le_bytes 4 1 ++ le_bytes 8 0x401ff8 ++ le_bytes 8 64 ++ le_bytes 8 0 ++
  le_bytes 4 0 ++ le_bytes 2 64 ++ le_bytes 2 56 ++ le_bytes 2 1 ++ le_bytes 2 0 ++ le_bytes 2 0 ++ le_bytes 2 0 ++
  le_bytes 4 1 ++ le_bytes 4 5 ++ le_bytes 8 120 ++ le_bytes 8 0x401ff8 ++ le_bytes 8 0 ++ le_bytes 8 8 ++
  le_bytes 8 0x20 ++ le_bytes 8 4096 ++ replicate 8 0x90.
Definition small_elf_image : ElfImage :=
  mkElf 2 62 0x401ff8 None [mkPhdr PLoad 5 120 0x401ff8 8 0x20 4096].

Lemma small_elf_ok : image_ok small_elf.
Proof.
  split; [|reflexivity]. apply byte_list_check. vm_compute. reflexivity.
Qed.

Lemma inspect_total_witness : returns (inspect small_elf) /\ returns (detect_kind small_elf).
Proof. exact (inspect_total small_elf small_elf_ok). Defined.

Lemma parse_elf64_sound_witness : parse_elf64 small_elf = Ok small_elf_image /\ elf_sound small_elf small_elf_image.
Proof.
  assert (H : parse_elf64 small_elf = Ok small_elf_image) by (vm_compute; reflexivity).
  split; [exact H|]. exact (parse_elf64_sound small_elf small_elf_image small_elf_ok H).
Defined.

Lemma build_load_plan_spec_witness :
  exists p, build_load_plan small_elf_image = Ok [p] /\ pl_map_start p = 0x401000 /\ pl_map_end p = 0x403000 /\
    Forall2 (fun x p => plan_ok x.1 x.2 p) (loadable 0 (program_headers small_elf_image)) [p].
Proof.
  assert (H : parse_elf64 small_elf = Ok small_elf_image) by (vm_compute; reflexivity).
  pose proof (build_load_plan_spec small_elf small_elf_image small_elf_ok H) as Hp.
  eexists. split; [vm_compute; reflexivity|]. split; [reflexivity|]. split; [reflexivity|].
  vm_compute build_load_plan in Hp. exact Hp.
Defined.
