(* ===== verification/Initrd.v ===== *)
(** * Initial RAM disk: [kernel/src/initrd.rs]

    A cpio archive in the [newc] format, given by the boot loader as a module, is
    parsed once into a list of entries under [/initrd]; reads look paths up in it.
    The entries being built are the state of the parser; its cursor is a local.

    The theorems: the parser returns on any bytes, and it inverts the format: the archive of a tree of
    files and directories parses to its files, in order, and its directories. *)
From stdpp Require Import base list numbers option strings.
From Stdlib Require Import ZArith Lia Bool.
From S2P Require Import Prelude Paths.

Definition INITRD_ROOT : list Z := lit "/initrd".
Definition NEWC_MAGIC : list Z := lit "070701".
Definition CRC_MAGIC : list Z := lit "070702".
Definition CPIO_HEADER_LEN : Z := 110.
Definition FILE_TYPE_MASK : Z := 61440.
Definition FILE_TYPE_DIRECTORY : Z := 16384.
Definition MODE_EXECUTABLE_MASK : Z := 73.
Definition DEFAULT_DIRECTORY_MODE : Z := Z.lor FILE_TYPE_DIRECTORY 493.

Inductive InitrdEntryKind : Type := EDirectory | EFile.
#[export] Instance InitrdEntryKind_eq_dec : EqDecision InitrdEntryKind.
Proof. solve_decision. Defined.
Inductive InitrdNodeKind : Type := NDirectory | NFile.

Record InitrdEntry : Type := mkIEntry { ie_path : list Z; ie_kind : InitrdEntryKind; ie_mode : Z; ie_data : list Z }.
#[export] Instance eta_InitrdEntry : RecordEta InitrdEntry := fun e => mkIEntry (ie_path e) (ie_kind e) (ie_mode e) (ie_data e).

Record InitrdState : Type := mkInitrd {
  module_path : option (list Z); module_label : option (list Z); module_count : Z; archive : list Z;
  archive_bytes : Z; entries : list InitrdEntry }.
Record InitrdNodeInfo : Type := mkNodeInfo { ni_kind : InitrdNodeKind; ni_size : Z; ni_executable : bool }.
Record InitrdSummary : Type := mkISummary {
  is_module_count : Z; is_archive_bytes : Z; is_directory_count : Z; is_file_count : Z; is_entry_count : Z }.
Inductive InitrdError : Type :=
| InitrdAlreadyInitialized | ModuleMissing | InvalidArchive | InvalidEntryName | UnsupportedPath.

(** ** Numbers and names *)
Definition hex_digit (byte : Z) : option Z :=
  if between 48 byte 57 then Some (byte - 48)
  else if between 97 byte 102 then Some (byte - 97 + 10)
  else if between 65 byte 70 then Some (byte - 65 + 10)
  else None.

Fixpoint parse_hex (value : Z) (bytes : list Z) : outcome InitrdError Z :=
  match bytes with
  | [] => Ok value
  | byte :: bytes' =>
      let? scaled := ok_or InvalidArchive (chk_mul U32 value 16) in
      let? digit := ok_or InvalidArchive (hex_digit byte) in
      let? value := add U32 scaled digit in
      parse_hex value bytes'
  end.
Definition parse_hex_u32 (bytes : list Z) : outcome InitrdError Z := parse_hex 0 bytes.

Definition align4 {E} (value : Z) : outcome E Z :=
  let? v := add U64 value 3 in Ok (Z.land v (bitnot U64 3)).

Definition normalize_archive_path (path : list Z) : outcome InitrdError (list Z) :=
  let trimmed := trim_matches SLASH path in
  let trimmed := default trimmed (strip_prefix trimmed (lit "./")) in
  if str_eqb trimmed [] || str_eqb trimmed (lit ".") then Ok INITRD_ROOT else
  if contains trimmed (lit "..") then Err InvalidEntryName else
  Ok (INITRD_ROOT ++ [SLASH] ++ trimmed).

Definition normalize_vfs_path (path : list Z) : outcome InitrdError (list Z) :=
  if str_eqb path INITRD_ROOT || str_eqb path (lit "/initrd/") then Ok INITRD_ROOT else
  if negb (starts_with path (lit "/initrd/")) then Err UnsupportedPath else
  Ok (trim_end SLASH path).

(** ** Building the entries *)
Abbreviation P A := (M (list InitrdEntry) InitrdError A) (only parsing).

Definition push_directory (path : list Z) (mode : Z) : P unit :=
  modify (fun entries =>
    match position (fun e => bool_decide (ie_kind e = EDirectory) && str_eqb (ie_path e) path) entries with
    | Some i => alter (set_field ie_mode mode) i entries
    | None => entries ++ [mkIEntry path EDirectory mode []]
    end).

(** The [while let Some(offset) = path[end + 1..].find('/')] loop. *)
Definition parents_step (path : list Z) (end_ : Z) : P (Z + unit) :=
  let! from := lift (add U64 end_ 1) in
  let! rest := lift (slice path from (len path)) in
  match position (fun b => b =? SLASH) rest with
  | Some offset =>
      let! step := lift (add U64 (Z.of_nat offset) 1) in
      let! end_ := lift (add U64 end_ step) in
      let! parent := lift (slice path 0 end_) in
      do! push_directory parent DEFAULT_DIRECTORY_MODE in
      ret (inl end_)
  | None => ret (inr tt)
  end.

Definition ensure_parent_directories (path : list Z) : P unit :=
  if len path <=? len INITRD_ROOT then ret tt
  else loop (S (length path)) (parents_step path) (len INITRD_ROOT).

(** One member of the archive: the next cursor, or the trailer. *)
Definition member_step (archive : list Z) (cursor : Z) : P (Z + bool) :=
  let! header_end := lift (add U64 cursor CPIO_HEADER_LEN) in
  if len archive <? header_end then ret (inr false) else
  let! header := lift (slice archive cursor header_end) in
  let cursor := header_end in
  let! magic := lift (slice header 0 6) in
  if negb (str_eqb magic NEWC_MAGIC) && negb (str_eqb magic CRC_MAGIC) then throw InvalidArchive else
  let! mode_field := lift (slice header 14 22) in
  let! mode := lift (parse_hex_u32 mode_field) in
  let! size_field := lift (slice header 54 62) in
  let! file_size := lift (parse_hex_u32 size_field) in
  let! name_field := lift (slice header 94 102) in
  let! name_size := lift (parse_hex_u32 name_field) in
  let! name_end := lift (add U64 cursor name_size) in
  if (name_size =? 0) || (len archive <? name_end) then throw InvalidArchive else
  let! name_bytes := lift (slice archive cursor name_end) in
  let! cursor := lift (align4 name_end) in
  if len archive <? cursor then throw InvalidArchive else
  let! raw_name := lift (ok_or InvalidArchive
    (if bool_decide (last name_bytes = Some 0) then Some (removelast name_bytes) else None)) in
  if negb (is_utf8 raw_name) then throw InvalidEntryName else
  if str_eqb raw_name (lit "TRAILER!!!") then ret (inr true) else
  let! normalized := lift (normalize_archive_path raw_name) in
  do! ensure_parent_directories normalized in
  let! data_end := lift (add U64 cursor file_size) in
  if len archive <? data_end then throw InvalidArchive else
  let! file_data := lift (slice archive cursor data_end) in
  let! cursor := lift (align4 data_end) in
  if len archive <? cursor then throw InvalidArchive else
  do! (if Z.land mode FILE_TYPE_MASK =? FILE_TYPE_DIRECTORY then push_directory normalized mode
       else modify (fun entries => entries ++ [mkIEntry normalized EFile mode file_data])) in
  ret (inl cursor).

(** The parser run on no entries: its [Vec] is local. *)
Definition parse_newc : list Z -> P unit := fun archive =>
  do! push_directory INITRD_ROOT DEFAULT_DIRECTORY_MODE in
  let! found_trailer := loop (S (length archive)) (member_step archive) 0 in
  if negb found_trailer then throw InvalidArchive else ret tt.

Definition parse_newc_archive (archive : list Z) : outcome InitrdError (list InitrdEntry) :=
  match parse_newc archive [] with
  | (Ok _, entries) => Ok entries
  | (Err e, _) => Err e
  | (Panic, _) => Panic
  | (Diverge, _) => Diverge
  end.

(** ** The global: the modules come from the boot loader *)
Record Module_ : Type := mkModule { mod_bytes : list Z; mod_path : option (list Z); mod_string : option (list Z) }.

Fixpoint select_from (first : option Module_) (modules : list Module_) : option Module_ :=
  match modules with
  | [] => first
  | m :: rest =>
      let first := match first with None => Some m | _ => first end in
      if bool_decide (mod_string m = Some (lit "initrd")) then Some m
      else if match mod_path m with Some p => ends_with p (lit "initrd.cpio") | None => false end then Some m
      else select_from first rest
  end.
Definition select_initrd_module (modules : list Module_) : option Module_ := select_from None modules.

Definition initrd_summary (s : option InitrdState) : InitrdSummary :=
  match s with
  | None => mkISummary 0 0 0 0 0
  | Some state =>
      let count k := len (filter (fun e => ie_kind e = k) (entries state)) in
      mkISummary (module_count state) (archive_bytes state) (count EDirectory) (count EFile) (len (entries state))
  end.

(** [modules] is [limine::modules()]. *)
Definition initrd_initialize (modules : option (list Module_)) : M (option InitrdState) InitrdError InitrdSummary :=
  let! slot := gets id in
  match slot with
  | Some _ => throw InitrdAlreadyInitialized
  | None =>
      let! modules := lift (ok_or ModuleMissing modules) in
      if bool_decide (modules = []) then throw ModuleMissing else
      let! m := lift (ok_or ModuleMissing (select_initrd_module modules)) in
      let! es := lift (parse_newc_archive (mod_bytes m)) in
      do! put (Some (mkInitrd (mod_path m) (mod_string m) (len modules) (mod_bytes m) (len (mod_bytes m)) es)) in
      gets initrd_summary
  end.

(** ** Reads *)
Definition find_entry (state : InitrdState) (path : list Z) : option InitrdEntry :=
  match position (fun e => str_eqb (ie_path e) path) (entries state) with
  | Some i => entries state !! i
  | None => None
  end.

(** The entry a path names: [normalize_vfs_path(path).ok()?] then [find_entry]. *)
Definition entry_of (s : option InitrdState) (path : list Z) : option InitrdEntry :=
  match s, normalize_vfs_path path with
  | Some state, Ok normalized => find_entry state normalized
  | _, _ => None
  end.

Definition initrd_render_directory (state : InitrdState) (path : list Z) : list Z :=
  let prefix := if str_eqb path INITRD_ROOT then INITRD_ROOT ++ [SLASH] else path ++ [SLASH] in
  concat (omap (fun e =>
    if str_eqb (ie_path e) path || negb (starts_with (ie_path e) prefix) then None else
    let remainder := drop (length prefix) (ie_path e) in
    if str_eqb remainder [] || existsb (fun b => b =? SLASH) remainder then None
    else Some (remainder ++ [NEWLINE])) (entries state)).

Definition initrd_read (s : option InitrdState) (path : list Z) : option (list Z) :=
  match s, normalize_vfs_path path with
  | Some state, Ok normalized =>
      match find_entry state normalized with
      | None => None
      | Some e =>
          match ie_kind e with
          | EDirectory => Some (initrd_render_directory state normalized)
          | EFile => Some (from_utf8_lossy (ie_data e))
          end
      end
  | _, _ => None
  end.

Definition initrd_node_info (s : option InitrdState) (path : list Z) : option InitrdNodeInfo :=
  match entry_of s path with
  | None => None
  | Some e =>
      Some (mkNodeInfo (match ie_kind e with EDirectory => NDirectory | EFile => NFile end)
        (len (ie_data e)) (negb (Z.land (ie_mode e) MODE_EXECUTABLE_MASK =? 0)))
  end.

Definition initrd_read_bytes (s : option InitrdState) (path : list Z) : option (list Z) :=
  match entry_of s path with
  | Some e => if bool_decide (ie_kind e = EFile) then Some (ie_data e) else None
  | None => None
  end.

Definition get_module_paths (s : option InitrdState) : list (list Z) :=
  match s with
  | None => []
  | Some state =>
      ie_path <$> filter (fun e => bool_decide (ie_kind e = EFile) &&
        (ends_with (ie_path e) (lit ".hxext") || ends_with (ie_path e) (lit ".hxmd")) = true) (entries state)
  end.

(** * Facts: the parser returns *)
Lemma hex_digit_range b d : hex_digit b = Some d -> 0 <= d < 16.
Proof.
  unfold hex_digit, between. repeat case_match; intros [= <-]; bool_prop; lia.
Qed.

Lemma parse_hex_returns bytes : forall value,
  0 <= value < U32 ->
  match parse_hex value bytes with Ok v => 0 <= v < U32 | Err _ => True | _ => False end.
Proof.
  induction bytes as [|b bytes IH]; intros value Hv; cbn [parse_hex]; [done|].
  unfold chk_mul. bdestruct_if; cbn [ok_or obind]; [|done].
  destruct (hex_digit b) as [d|] eqn:Hd; cbn [ok_or obind]; [|done]. apply hex_digit_range in Hd.
  assert (value * 16 + d < U32).
  { pose proof (Z.div_mod U32 16 ltac:(lia)). assert (value < U32 / 16) by (change (U32 / 16) with 268435456; lia).
    change (U32 / 16) with 268435456 in *. lia. }
  rewrite add_ok by lia. cbn [obind]. apply IH. lia.
Qed.

Lemma parse_hex_u32_returns bytes :
  match parse_hex_u32 bytes with Ok v => 0 <= v < U32 | Err _ => True | _ => False end.
Proof. apply parse_hex_returns. lia. Qed.

Lemma align4_run E v : 0 <= v < SLICE_LIMIT + U32 ->
  align4 (E:=E) v = Ok (v + (- v) mod 4) /\ v <= v + (- v) mod 4 < v + 4 /\ (v + (- v) mod 4) mod 4 = 0.
Proof.
  intros Hv. unfold align4. rewrite add_ok by lia. cbn [obind].
  assert (E1 : U64 = 2 ^ 64) by reflexivity. assert (E2 : 3 = 2 ^ 2 - 1) by reflexivity.
  rewrite E2 at 2. rewrite E1, land_bitnot_pow2 by (rewrite <- ?E1; lia). change (2 ^ 2) with 4.
  pose proof (Z.div_mod (v + 3) 4). pose proof (Z.mod_pos_bound (v + 3) 4). pose proof (Z.mod_pos_bound (- v) 4).
  pose proof (Z.div_mod (- v) 4).
  assert (Heq : v + 3 - (v + 3) mod 4 = v + (- v) mod 4) by lia. rewrite Heq. split; [done|]. split; [lia|].
  rewrite <- Heq. replace (v + 3 - (v + 3) mod 4) with ((v + 3) / 4 * 4) by lia. apply Z.mod_mul. lia.
Qed.

(** The parents of a path are added without a panic. *)
Lemma parents_step_run path e es :
  len path < SLICE_LIMIT -> 0 <= e -> e + 1 <= len path ->
  match parents_step path e es with
  | (Ok (inl e'), _) => e < e' /\ e' + 1 <= len path
  | (Ok (inr _), _) => True
  | _ => False
  end.
Proof.
  intros Hl He Hp. unfold parents_step. run. rewrite add_ok by lia. rewrite slice_ok by lia.
  destruct (position _ _) as [off|] eqn:Hpos; [|done].
  apply position_Some in Hpos as [(b & Hb & _) _]. apply lookup_lt_Some in Hb.
  autorewrite with len in Hb. unfold len in *. rewrite add_ok by lia. rewrite add_ok by lia. rewrite slice_ok by (unfold len; lia). simpl. lia.
Qed.

Lemma ensure_parent_returns path es :
  len path < SLICE_LIMIT -> exists es', ensure_parent_directories path es = (Ok tt, es').
Proof.
  intros Hl. unfold ensure_parent_directories. bdestruct_if; [by exists es|].
  change (len INITRD_ROOT) with 7 in *.
  set (Q := fun r : outcome InitrdError unit * list InitrdEntry => exists es', r = (Ok tt, es')).
  apply (loop_rule (parents_step path) (fun e _ => 0 <= e /\ e + 1 <= len path) Q (fun e => Z.to_nat (len path - e))).
  - intros e es' [H0 H1]. pose proof (parents_step_run path e es' Hl H0 H1) as Hs.
    destruct (parents_step path e es') as [[[e'|[]]|?| |] es'']; try done; [lia|]. by exists es''.
  - unfold len. lia.
  - lia.
Qed.

Lemma normalize_archive_len path : match normalize_archive_path path with Ok n => len n <= len path + 8 | _ => True end.
Proof.
  unfold normalize_archive_path. set (t := trim_matches SLASH path).
  assert (Ht : len t <= len path).
  { unfold t, trim_matches, trim_end. unfold len. rewrite length_reverse.
    assert (Hs : forall s, (length (trim_start SLASH s) <= length s)%nat).
    { induction s as [|b s IH]; simpl; [lia|]. destruct (b =? SLASH); simpl; lia. }
    pose proof (Hs (reverse (trim_start SLASH path))). pose proof (Hs path). rewrite length_reverse in *. lia. }
  destruct (str_eqb _ [] || _); [unfold INITRD_ROOT; change (len (lit "/initrd")) with 7; pose proof (len_nonneg path); lia|].
  destruct (contains _ _); [done|]. rewrite !len_app. change (len INITRD_ROOT) with 7. change (len [SLASH]) with 1.
  unfold strip_prefix. destruct (starts_with t (lit "./")); cbn [from_option]; unfold id; [|lia]. unfold len in *. rewrite length_drop. lia.
Qed.

Definition archive_ok (a : list Z) : Prop := byte_list a /\ len a < SLICE_LIMIT.

Lemma member_step_run archive cursor es :
  len archive < SLICE_LIMIT - 16 -> 0 <= cursor <= len archive ->
  match member_step archive cursor es with
  | (Ok (inl c), _) => cursor < c <= len archive
  | (Ok (inr _), _) | (Err _, _) => True
  | _ => False
  end.
Proof.
  intros Hl Hc. unfold member_step. run. rewrite add_ok by (unfold CPIO_HEADER_LEN; lia). bdestruct_if; [done|].
  unfold CPIO_HEADER_LEN in *. rewrite slice_ok by lia.
  set (header := take _ (drop _ archive)). assert (Hh : len header = 110) by (unfold header; len_solve).
  rewrite !slice_ok by lia. destruct (negb _ && negb _); [done|].
  pose proof (parse_hex_u32_returns (take (Z.to_nat (22 - 14)) (drop (Z.to_nat 14) header))) as H1.
  destruct (parse_hex_u32 _) as [mode|e| |]; try done.
  pose proof (parse_hex_u32_returns (take (Z.to_nat (62 - 54)) (drop (Z.to_nat 54) header))) as H2.
  destruct (parse_hex_u32 _) as [fsize|e| |]; try done.
  pose proof (parse_hex_u32_returns (take (Z.to_nat (102 - 94)) (drop (Z.to_nat 94) header))) as H3.
  destruct (parse_hex_u32 _) as [nsize|e| |]; try done.
  rewrite add_ok by lia. destruct ((nsize =? 0) || (len archive <? cursor + 110 + nsize)) eqn:Hn; [done|].
  apply orb_false_iff in Hn as [Hn0 Hn1]. bool_prop. rewrite slice_ok by lia. set (name := take _ (drop _ archive)).
  assert (Hname : len name <= len archive) by (unfold name; len_solve).
  destruct (align4_run InitrdError (cursor + 110 + nsize) ltac:(lia)) as (-> & Ha & _).
  set (c1 := cursor + 110 + nsize + (- (cursor + 110 + nsize)) mod 4) in *. bdestruct_if; [done|].
  destruct (bool_decide (last name = Some 0)); [|done]. destruct (negb (is_utf8 _)); [done|].
  destruct (str_eqb _ (lit "TRAILER!!!")); [done|].
  pose proof (normalize_archive_len (removelast name)) as Hlen.
  destruct (normalize_archive_path (removelast name)) as [n|e| |] eqn:Hnorm; try done.
  2-3: unfold normalize_archive_path in Hnorm; destruct (str_eqb _ [] || _); [discriminate|]; destruct (contains _ _); discriminate.
  assert (Hrm : len (removelast name) <= len name).
  { unfold len. clear. induction name as [|x l IH]; simpl; [lia|]. destruct l; simpl in *; lia. }
  destruct (ensure_parent_returns n es ltac:(lia)) as (es' & ->).
  rewrite add_ok by lia. bdestruct_if; [done|]. rewrite slice_ok by lia.
  destruct (align4_run InitrdError (c1 + fsize) ltac:(lia)) as (-> & Hb & _).
  set (c2 := c1 + fsize + (- (c1 + fsize)) mod 4) in *. bdestruct_if; [done|].
  destruct (Z.land mode FILE_TYPE_MASK =? FILE_TYPE_DIRECTORY); unfold push_directory; run; lia.
Qed.

Lemma parse_newc_archive_returns archive :
  len archive < SLICE_LIMIT - 16 -> returns (parse_newc_archive archive).
Proof.
  intros Hl. unfold parse_newc_archive, parse_newc. unfold bind at 1. unfold push_directory at 1. run.
  set (es := match position _ _ with Some i => _ | None => _ end). clearbody es.
  set (Q := fun r : outcome InitrdError bool * list InitrdEntry => match fst r with Panic | Diverge => False | _ => True end).
  assert (HQ : Q (loop (S (length archive)) (member_step archive) 0 es)).
  { apply (loop_rule (member_step archive) (fun c _ => 0 <= c <= len archive) Q (fun c => Z.to_nat (len archive - c))).
    - intros c es' Hc. pose proof (member_step_run archive c es' Hl Hc) as Hm.
      destruct (member_step archive c es') as [[[c'|b]|e| |] es'']; try done. lia.
    - unfold len. lia.
    - pose proof (len_nonneg archive). lia. }
  destruct (loop _ _ 0 es) as [[b|e| |] es']; try done. by destruct b.
Qed.

(** * Facts: the format *)

(** [n] hexadecimal digits of [v]. *)
Definition hex_char (d : Z) : Z := if d <? 10 then 48 + d else 87 + d.
Fixpoint hexn (n : nat) (v : Z) : list Z :=
  match n with
  | O => []
  | S n' => hex_char ((v / 16 ^ Z.of_nat n') mod 16) :: hexn n' v
  end.

Lemma length_hexn n v : length (hexn n v) = n.
Proof. induction n; simpl; auto. Qed.
#[export] Hint Rewrite length_hexn : len.

Lemma hex_digit_char d : 0 <= d < 16 -> hex_digit (hex_char d) = Some d.
Proof.
  intros Hd. unfold hex_char. bdestruct_if; unfold hex_digit, between.
  - rewrite (proj2 (Z.leb_le 48 _)), (proj2 (Z.leb_le _ 57)) by lia. simpl. f_equal. lia.
  - rewrite (proj2 (Z.leb_gt _ 57)), andb_false_r by lia.
    rewrite (proj2 (Z.leb_le 97 _)), (proj2 (Z.leb_le _ 102)) by lia. simpl. f_equal. lia.
Qed.

Lemma parse_hexn n v : 0 <= v < U32 -> parse_hex (v / 16 ^ Z.of_nat n) (hexn n v) = Ok v.
Proof.
  intros Hv. induction n as [|n IH]; [cbn; by rewrite Z.div_1_r|]. cbn [hexn parse_hex].
  set (w := v / 16 ^ Z.of_nat n). assert (0 < 16 ^ Z.of_nat n) by (apply Z.pow_pos_nonneg; lia).
  assert (Hw : v / 16 ^ Z.of_nat (S n) = w / 16).
  { unfold w. rewrite Nat2Z.inj_succ, Z.pow_succ_r, Z.mul_comm by lia. by rewrite Z.div_div by lia. }
  assert (0 <= w) by (unfold w; apply Z.div_pos; lia).
  assert (w <= v) by (unfold w; apply Z.div_le_upper_bound; nia).
  pose proof (Z.div_mod w 16). pose proof (Z.mod_pos_bound w 16).
  rewrite Hw. unfold chk_mul. rewrite (proj2 (Z.ltb_lt _ U32)) by lia. cbn [ok_or obind].
  rewrite hex_digit_char by lia. cbn [ok_or obind]. rewrite add_ok by lia. cbn [obind].
  replace (w / 16 * 16 + w mod 16) with w by lia. exact IH.
Qed.

Lemma parse_hex8 v : 0 <= v < U32 -> parse_hex_u32 (hexn 8 v) = Ok v.
Proof.
  intros Hv. rewrite <- (parse_hexn 8 v Hv) at 1. unfold parse_hex_u32. f_equal. symmetry. apply Z.div_small.
  change (16 ^ Z.of_nat 8) with U32. lia.
Qed.

(** A member of an archive. *)
Record Member : Type := mkMember { mb_name : list Z; mb_mode : Z; mb_data : list Z }.

Definition pad4 (n : Z) : list Z := replicate (Z.to_nat ((- n) mod 4)) 0.

Definition member_header (m : Member) : list Z :=
  NEWC_MAGIC ++ hexn 8 0 ++ hexn 8 (mb_mode m) ++ concat (replicate 4 (hexn 8 0)) ++ hexn 8 (len (mb_data m)) ++
  concat (replicate 4 (hexn 8 0)) ++ hexn 8 (len (mb_name m) + 1) ++ hexn 8 0.

Definition encode_member (m : Member) : list Z :=
  member_header m ++ (mb_name m ++ [0]) ++ pad4 (CPIO_HEADER_LEN + len (mb_name m) + 1) ++ mb_data m ++ pad4 (len (mb_data m)).

Definition TRAILER : Member := mkMember (lit "TRAILER!!!") 0 [].
Definition encode_archive (ms : list Member) : list Z := concat (encode_member <$> ms) ++ encode_member TRAILER.

(** A member the format can hold and the file system can name. *)
Definition member_ok (m : Member) : Prop :=
  0 <= mb_mode m < U32 /\ len (mb_data m) < U32 /\ len (mb_name m) + 1 < U32 /\ is_utf8 (mb_name m) = true /\
  mb_name m <> mb_name TRAILER /\ exists n, normalize_archive_path (mb_name m) = Ok n.

(** Adding one member to the entries. *)
Definition add_member (es : list InitrdEntry) (m : Member) : list InitrdEntry :=
  match normalize_archive_path (mb_name m) with
  | Ok n =>
      let es := snd (ensure_parent_directories n es) in
      if Z.land (mb_mode m) FILE_TYPE_MASK =? FILE_TYPE_DIRECTORY
      then snd (push_directory n (mb_mode m) es)
      else es ++ [mkIEntry n EFile (mb_mode m) (mb_data m)]
  | _ => es
  end.

Definition root_entries : list InitrdEntry := [mkIEntry INITRD_ROOT EDirectory DEFAULT_DIRECTORY_MODE []].

Lemma len_header m : len (member_header m) = CPIO_HEADER_LEN.
Proof. unfold member_header, len. rewrite !length_app, !length_hexn. reflexivity. Qed.

Lemma len_pad4 n : len (pad4 n) = (- n) mod 4.
Proof. unfold pad4, len. rewrite length_replicate. pose proof (Z.mod_pos_bound (- n) 4). lia. Qed.

(** The fields the parser reads of a header. *)
Lemma header_fields m :
  slice (E:=InitrdError) (member_header m) 0 6 = Ok NEWC_MAGIC /\
  slice (E:=InitrdError) (member_header m) 14 22 = Ok (hexn 8 (mb_mode m)) /\
  slice (E:=InitrdError) (member_header m) 54 62 = Ok (hexn 8 (len (mb_data m))) /\
  slice (E:=InitrdError) (member_header m) 94 102 = Ok (hexn 8 (len (mb_name m) + 1)).
Proof.
  unfold member_header. split; [|split; [|split]].
  - apply (slice_app []); reflexivity.
  - rewrite (app_assoc NEWC_MAGIC). apply slice_app; unfold len; rewrite ?length_app, ?length_hexn; reflexivity.
  - rewrite (app_assoc NEWC_MAGIC), (app_assoc _ (hexn 8 (mb_mode m))), (app_assoc _ (concat (replicate 4 (hexn 8 0)))).
    apply slice_app; unfold len; rewrite ?length_app, ?length_hexn; reflexivity.
  - rewrite (app_assoc NEWC_MAGIC), (app_assoc _ (hexn 8 (mb_mode m))), (app_assoc _ (concat (replicate 4 (hexn 8 0)))),
      (app_assoc _ (hexn 8 (len (mb_data m)))), (app_assoc _ (concat (replicate 4 (hexn 8 0)))).
    apply slice_app; unfold len; rewrite ?length_app, ?length_hexn; reflexivity.
Qed.

(** Aligning a cursor past [k] bytes that follow an aligned position. *)
Lemma align4_after E p k : 0 <= p -> 0 <= k -> p mod 4 = 0 -> p + k < SLICE_LIMIT ->
  align4 (E:=E) (p + k) = Ok (p + k + (- k) mod 4).
Proof.
  intros Hp Hk Hm Hl. destruct (align4_run E (p + k) ltac:(lia)) as [-> _]. do 2 f_equal.
  pose proof (Z.div_mod p 4). replace (- (p + k)) with (- k + (- (p / 4)) * 4) by lia. apply Z.mod_add. lia.
Qed.

Lemma removelast_snoc {A} (l : list A) x : removelast (l ++ [x]) = l.
Proof. apply removelast_last. Qed.

(** One step of the parser at the start of an encoded member. *)
Section member.
Context (pre post : list Z) (m : Member) (es : list InitrdEntry).
Let a := pre ++ encode_member m ++ post.
Context (Halign : len pre mod 4 = 0) (Hlen : len a < SLICE_LIMIT - 16).
Context (Hmode : 0 <= mb_mode m < U32) (Hdata : len (mb_data m) < U32) (Hname : len (mb_name m) + 1 < U32).
Context (Hutf : is_utf8 (mb_name m) = true).

Lemma len_member : len (encode_member m) =
  CPIO_HEADER_LEN + (len (mb_name m) + 1) + (- (CPIO_HEADER_LEN + len (mb_name m) + 1)) mod 4 +
  len (mb_data m) + (- len (mb_data m)) mod 4.
Proof. unfold encode_member. rewrite !len_app, len_header, !len_pad4. change (len [0]) with 1. lia. Qed.

Lemma member_slices :
  slice (E:=InitrdError) a (len pre) (len pre + CPIO_HEADER_LEN) = Ok (member_header m) /\
  slice (E:=InitrdError) a (len pre + CPIO_HEADER_LEN) (len pre + CPIO_HEADER_LEN + (len (mb_name m) + 1)) = Ok (mb_name m ++ [0]) /\
  forall c, c = len pre + CPIO_HEADER_LEN + (len (mb_name m) + 1) + (- (CPIO_HEADER_LEN + len (mb_name m) + 1)) mod 4 ->
  slice (E:=InitrdError) a c (c + len (mb_data m)) = Ok (mb_data m).
Proof.
  unfold a, encode_member. split; [|split].
  - rewrite <- !app_assoc. apply slice_app; rewrite ?len_header; done.
  - rewrite <- !app_assoc, (app_assoc pre). rewrite (app_assoc (mb_name m)).
    apply slice_app; rewrite !len_app, len_header; change (len [0]) with 1; lia.
  - intros c Hc. rewrite <- !app_assoc, (app_assoc pre), (app_assoc (mb_name m)), (app_assoc (pre ++ member_header m)), (app_assoc _ (pad4 _)).
    apply slice_app; rewrite !len_app, len_header, len_pad4; change (len [0]) with 1; lia.
Qed.

Lemma member_step_encoded :
  mb_name m <> mb_name TRAILER -> (exists n, normalize_archive_path (mb_name m) = Ok n) ->
  member_step a (len pre) es = (Ok (inl (len (pre ++ encode_member m))), add_member es m).
Proof.
  intros Hnt [n Hn]. pose proof (len_member) as Hlm. destruct member_slices as (Hs1 & Hs2 & Hs3).
  destruct (header_fields m) as (Hf1 & Hf2 & Hf3 & Hf4). pose proof (len_nonneg pre).
  pose proof (len_nonneg (mb_name m)). pose proof (len_nonneg (mb_data m)). pose proof (len_nonneg post).
  assert (Ha : len a = len pre + len (encode_member m) + len post) by (unfold a; rewrite !len_app; lia).
  set (c := len pre + CPIO_HEADER_LEN + (len (mb_name m) + 1) + (- (CPIO_HEADER_LEN + len (mb_name m) + 1)) mod 4) in *.
  specialize (Hs3 c eq_refl).
  pose proof (Z.mod_pos_bound (- (CPIO_HEADER_LEN + len (mb_name m) + 1)) 4). pose proof (Z.mod_pos_bound (- len (mb_data m)) 4).
  unfold CPIO_HEADER_LEN in *.
  unfold member_step. run. rewrite add_ok by (unfold CPIO_HEADER_LEN; lia). unfold CPIO_HEADER_LEN.
  rewrite (proj2 (Z.ltb_ge (len a) _)) by lia. rewrite Hs1, Hf1. change (str_eqb NEWC_MAGIC NEWC_MAGIC) with true. cbn [negb andb].
  rewrite Hf2, parse_hex8, Hf3, parse_hex8, Hf4, parse_hex8 by lia. rewrite add_ok by lia.
  rewrite (proj2 (Z.eqb_neq _ 0)), (proj2 (Z.ltb_ge (len a) _)) by lia. cbn [orb]. rewrite Hs2.
  assert (Hal : align4 (E:=InitrdError) (len pre + 110 + (len (mb_name m) + 1)) = Ok c).
  { replace (len pre + 110 + (len (mb_name m) + 1)) with (len pre + (110 + len (mb_name m) + 1)) by lia.
    rewrite align4_after by lia. f_equal. unfold c. lia. }
  rewrite Hal. rewrite (proj2 (Z.ltb_ge (len a) c)) by (unfold c; lia).
  rewrite last_snoc, bool_decide_eq_true_2 by done. rewrite removelast_snoc, Hutf. cbn [negb].
  rewrite (proj2 (str_eqb_false _ (lit "TRAILER!!!")) Hnt), Hn.
  pose proof (normalize_archive_len (mb_name m)) as Hnl. rewrite Hn in Hnl.
  destruct (ensure_parent_returns n es ltac:(unfold c in *; lia)) as (es' & Hens). rewrite Hens. rewrite add_ok by (unfold c; lia).
  rewrite (proj2 (Z.ltb_ge (len a) _)) by (unfold c; lia). rewrite Hs3.
  assert (Hc4 : c mod 4 = 0).
  { destruct (align4_run InitrdError (len pre + 110 + (len (mb_name m) + 1)) ltac:(lia)) as (Hal' & _ & Hmod).
    rewrite Hal in Hal'. injection Hal' as ->. exact Hmod. }
  rewrite align4_after by (unfold c in *; lia). rewrite (proj2 (Z.ltb_ge (len a) _)) by (unfold c; lia).
  unfold add_member. rewrite Hn, Hens. cbn [snd].
  assert (Hend : c + len (mb_data m) + (- len (mb_data m)) mod 4 = len (pre ++ encode_member m)) by (rewrite len_app; unfold c; lia).
  destruct (Z.land (mb_mode m) FILE_TYPE_MASK =? FILE_TYPE_DIRECTORY); unfold push_directory; run; by rewrite Hend.
Qed.

Lemma member_step_trailer : m = TRAILER -> member_step a (len pre) es = (Ok (inr true), es).
Proof.
  intros Hm. pose proof (len_member) as Hlm. destruct member_slices as (Hs1 & Hs2 & _).
  destruct (header_fields m) as (Hf1 & Hf2 & Hf3 & Hf4). pose proof (len_nonneg pre). pose proof (len_nonneg post).
  pose proof (len_nonneg (mb_name m)). pose proof (len_nonneg (mb_data m)).
  assert (Ha : len a = len pre + len (encode_member m) + len post) by (unfold a; rewrite !len_app; lia).
  pose proof (Z.mod_pos_bound (- (CPIO_HEADER_LEN + len (mb_name m) + 1)) 4). pose proof (Z.mod_pos_bound (- len (mb_data m)) 4).
  unfold CPIO_HEADER_LEN in *.
  unfold member_step. run. rewrite add_ok by (unfold CPIO_HEADER_LEN; lia). unfold CPIO_HEADER_LEN.
  rewrite (proj2 (Z.ltb_ge (len a) _)) by lia. rewrite Hs1, Hf1. change (str_eqb NEWC_MAGIC NEWC_MAGIC) with true. cbn [negb andb].
  rewrite Hf2, parse_hex8, Hf3, parse_hex8, Hf4, parse_hex8 by lia. rewrite add_ok by lia.
  rewrite (proj2 (Z.eqb_neq _ 0)), (proj2 (Z.ltb_ge (len a) _)) by lia. cbn [orb]. rewrite Hs2.
  replace (len pre + 110 + (len (mb_name m) + 1)) with (len pre + (110 + len (mb_name m) + 1)) by lia.
  rewrite align4_after by lia. rewrite (proj2 (Z.ltb_ge (len a) _)) by lia.
  rewrite last_snoc, bool_decide_eq_true_2 by done. rewrite removelast_snoc, Hutf. cbn [negb].
  by rewrite Hm.
Qed.
End member.

Lemma encode_member_align m pre : len pre mod 4 = 0 -> len (pre ++ encode_member m) mod 4 = 0.
Proof.
  intros Hp. rewrite len_app, len_member. set (k := CPIO_HEADER_LEN + len (mb_name m) + 1). set (d := len (mb_data m)).
  pose proof (Z.div_mod (- k) 4). pose proof (Z.div_mod (- d) 4). pose proof (Z.div_mod (len pre) 4).
  replace (len pre + (CPIO_HEADER_LEN + (len (mb_name m) + 1) + (- k) mod 4 + d + (- d) mod 4))
    with ((len pre / 4 - (- k) / 4 - (- d) / 4) * 4) by (unfold k in *; lia).
  apply Z.mod_mul. lia.
Qed.

Lemma loop_members ms : forall pre es fuel,
  len pre mod 4 = 0 -> Forall member_ok ms -> (length ms < fuel)%nat ->
  len (pre ++ encode_archive ms) < SLICE_LIMIT - 16 ->
  loop fuel (member_step (pre ++ encode_archive ms)) (len pre) es = (Ok true, foldl add_member es ms).
Proof.
  induction ms as [|m ms IH]; intros pre es fuel Hp Hok Hfuel Hlen; (destruct fuel as [|fuel]; [lia|]); cbn [loop].
  - unfold bind. unfold encode_archive in *. simpl concat in *. simpl app in *.
    rewrite <- (app_nil_r (encode_member TRAILER)) in *. rewrite member_step_trailer; try done.
  - apply Forall_cons_iff in Hok as [(Hmode & Hd & Hn & Hu & Hnt & Hnorm) Hok].
    assert (Heq : pre ++ encode_archive (m :: ms) = pre ++ encode_member m ++ encode_archive ms)
      by (unfold encode_archive; cbn [fmap list_fmap concat]; by rewrite <- !app_assoc).
    rewrite Heq in *. unfold bind. rewrite member_step_encoded by done. rewrite (app_assoc pre) in *.
    rewrite IH; [done|by apply encode_member_align|done|simpl in *; lia|done].
Qed.

Lemma archive_length ms : (length ms < S (length (encode_archive ms)))%nat.
Proof.
  unfold encode_archive. rewrite length_app. enough (length ms <= length (concat (encode_member <$> ms)))%nat by lia.
  induction ms as [|m ms IH]; [done|]. cbn [fmap list_fmap concat length]. rewrite length_app.
  assert (1 <= length (encode_member m))%nat; [|lia].
  pose proof (len_header m) as Hh. unfold encode_member. rewrite length_app. unfold len, CPIO_HEADER_LEN in Hh. lia.
Qed.

Lemma parse_encoded ms :
  Forall member_ok ms -> len (encode_archive ms) < SLICE_LIMIT - 16 ->
  parse_newc_archive (encode_archive ms) = Ok (foldl add_member root_entries ms).
Proof.
  intros Hok Hlen. unfold parse_newc_archive, parse_newc. unfold bind at 1. unfold push_directory at 1. run. cbn [position app].
  pose proof (loop_members ms [] root_entries (S (length (encode_archive ms))) eq_refl Hok (archive_length ms) Hlen) as Hloop.
  cbn [app] in Hloop. change (len (@nil Z)) with 0 in Hloop. fold root_entries. by rewrite Hloop.
Qed.

(** ** Which entries a path names *)

(** [p] is a proper ancestor directory of [n]. *)
Definition is_ancestor (p n : list Z) : Prop := exists rest, n = p ++ SLASH :: rest.

(** The entries with path [n]. *)
Definition at_path (n : list Z) (es : list InitrdEntry) : list InitrdEntry := filter (fun e => ie_path e = n) es.

Lemma at_path_app n es es' : at_path n (es ++ es') = at_path n es ++ at_path n es'.
Proof. apply filter_app. Qed.

Lemma push_directory_other p mode n es : p <> n -> at_path n (snd (push_directory p mode es)) = at_path n es.
Proof.
  intros Hp. unfold push_directory, at_path. run. cbn [snd]. destruct (position _ es) as [i|] eqn:Hpos.
  - apply position_Some in Hpos as [(e & Hi & He) _]. apply andb_true_iff in He as [_ He]. apply str_eqb_true in He.
    revert i Hi. induction es as [|x es IH]; intros [|i] Hi; try done.
    + injection Hi as ->. cbn [alter list_alter]. rewrite !filter_cons. subst p. simpl. by rewrite !decide_False.
    + change (alter (set_field ie_mode mode) (S i) (x :: es)) with (x :: alter (set_field ie_mode mode) i es).
      rewrite !filter_cons. by rewrite (IH i Hi).
  - rewrite filter_app, filter_cons, filter_nil. simpl. rewrite decide_False by done. by rewrite app_nil_r.
Qed.

Lemma ensure_parents_other path n es :
  len path < SLICE_LIMIT -> ~ is_ancestor n path -> at_path n (snd (ensure_parent_directories path es)) = at_path n es.
Proof.
  intros Hl Hna. unfold ensure_parent_directories. bdestruct_if; [done|].
  change (len INITRD_ROOT) with 7 in *.
  set (Q := fun r : outcome InitrdError unit * list InitrdEntry => at_path n (snd r) = at_path n es).
  apply (loop_rule (parents_step path) (fun e es' => 0 <= e /\ e + 1 <= len path /\ at_path n es' = at_path n es) Q
    (fun e => Z.to_nat (len path - e))).
  - intros e es' (H0 & H1 & Hes). pose proof (parents_step_run path e es' Hl H0 H1) as Hs. unfold parents_step in *. run.
    rewrite add_ok in * by lia. rewrite slice_ok in * by lia.
    set (rest := take _ (drop _ path)) in *. destruct (position _ rest) as [off|] eqn:Hpos; [|done].
    apply position_Some in Hpos as [(b & Hb & Hsl) _]. apply Z.eqb_eq in Hsl as ->. pose proof (lookup_lt_Some _ _ _ Hb) as Hlt.
    unfold rest in Hlt. autorewrite with len in Hlt. unfold len in Hlt, H1, Hl.
    rewrite add_ok in * by lia. rewrite add_ok in * by lia. rewrite slice_ok in * by (unfold len; lia).
    set (e' := e + (Z.of_nat off + 1)) in *. rewrite drop_0, Z.sub_0_r in *.
    pose proof (push_directory_other (take (Z.to_nat e') path) DEFAULT_DIRECTORY_MODE n es') as Hother.
    destruct (push_directory (take (Z.to_nat e') path) DEFAULT_DIRECTORY_MODE es') as [o es''] eqn:Hpush.
    assert (o = Ok tt) as -> by (unfold push_directory in Hpush; run; congruence). simpl in Hs.
    split; [|lia]. split; [lia|]. split; [lia|]. rewrite <- Hes. apply Hother. intros Heq. apply Hna.
    exists (drop (S (Z.to_nat e')) path). rewrite <- Heq.
    rewrite <- (take_drop (Z.to_nat e') path) at 1. f_equal.
    unfold rest in Hb. rewrite lookup_take_lt, lookup_drop in Hb by lia.
    replace (Z.to_nat (e + 1) + off)%nat with (Z.to_nat e') in Hb by lia. by apply drop_S.
  - unfold len. lia.
  - repeat split; lia.
Qed.

Lemma add_member_other m n n' es :
  len (mb_name m) < SLICE_LIMIT - 16 -> normalize_archive_path (mb_name m) = Ok n' -> n' <> n -> ~ is_ancestor n n' ->
  at_path n (add_member es m) = at_path n es.
Proof.
  intros Hl Hn Hne Hna. unfold add_member. rewrite Hn. pose proof (normalize_archive_len (mb_name m)) as Hnl. rewrite Hn in Hnl.
  rewrite <- (ensure_parents_other n' n es) by (done || lia). destruct (_ =? _); [by apply push_directory_other|].
  unfold at_path. rewrite filter_app, filter_cons, filter_nil. simpl. rewrite decide_False by done. by rewrite app_nil_r.
Qed.

Lemma foldl_other ms n : forall es,
  Forall (fun m => len (mb_name m) < SLICE_LIMIT - 16 /\
    forall n', normalize_archive_path (mb_name m) = Ok n' -> n' <> n /\ ~ is_ancestor n n') ms ->
  at_path n (foldl add_member es ms) = at_path n es.
Proof.
  induction ms as [|m ms IH]; intros es Hall; [done|]. apply Forall_cons_iff in Hall as [[Hl Hm] Hall]. cbn [foldl].
  rewrite IH by done. destruct (normalize_archive_path (mb_name m)) as [n'|e| |] eqn:Hn.
  - destruct (Hm n' eq_refl). by apply (add_member_other m n n').
  - unfold add_member. by rewrite Hn.
  - unfold add_member. by rewrite Hn.
  - unfold add_member. by rewrite Hn.
Qed.

Lemma find_at_path state n e l : at_path n (entries state) = e :: l -> find_entry state n = Some e.
Proof.
  unfold find_entry, at_path. induction (entries state) as [|x es IH]; [done|]. rewrite filter_cons. cbn [position].
  destruct (decide (ie_path x = n)) as [Heq|Hne].
  - intros [= -> _]. by rewrite (proj2 (str_eqb_true _ _) Heq).
  - intros H. rewrite (proj2 (str_eqb_false _ _) Hne). specialize (IH H). destruct (position _ es); [exact IH|done].
Qed.

(** ** Names that come out of the archive are looked up as they are *)
Lemma trim_start_head c s : head (trim_start c s) <> Some c.
Proof. induction s as [|b s IH]; simpl; [done|]. destruct (Z.eqb_spec b c); [done|]. simpl. congruence. Qed.

Lemma last_reverse_head {A} (l : list A) : last (reverse l) = head l.
Proof. destruct l as [|x l]; [done|]. by rewrite reverse_cons, last_snoc. Qed.

Lemma trim_end_last c s : last (trim_end c s) <> Some c.
Proof. unfold trim_end. rewrite last_reverse_head. apply trim_start_head. Qed.

Lemma trim_end_id c s : last s <> Some c -> trim_end c s = s.
Proof.
  intros H. unfold trim_end. destruct (reverse s) as [|b t] eqn:Hr; [by apply (f_equal reverse) in Hr; rewrite reverse_involutive in Hr|].
  assert (Hb : b <> c) by (intros ->; apply H; by rewrite <- (reverse_involutive s), Hr, last_reverse_head).
  simpl. rewrite (proj2 (Z.eqb_neq b c) Hb), <- Hr. apply reverse_involutive.
Qed.

Lemma last_drop {A} k (l : list A) : (k < length l)%nat -> last (drop k l) = last l.
Proof.
  intros Hk. rewrite <- (take_drop k l) at 2. destruct (drop k l) as [|x t] eqn:Hd.
  - apply (f_equal length) in Hd. rewrite length_drop in Hd. simpl in Hd. lia.
  - rewrite last_app. destruct (last (x :: t)) eqn:Hl; [done|]. by apply last_None in Hl.
Qed.

Lemma archive_path_lookup name n :
  normalize_archive_path name = Ok n -> n <> INITRD_ROOT -> normalize_vfs_path n = Ok n.
Proof.
  unfold normalize_archive_path. set (t := trim_matches SLASH name). set (u := default t (strip_prefix t (lit "./"))).
  destruct (str_eqb u [] || str_eqb u (lit ".")) eqn:He; [intros [= <-]; done|]. apply orb_false_iff in He as [He _].
  apply str_eqb_false in He. destruct (contains u _); [done|]. intros Hn Hne.
  assert (n = INITRD_ROOT ++ [SLASH] ++ u) as -> by congruence. clear Hn.
  assert (Hu : last u <> Some SLASH).
  { assert (Ht : last t <> Some SLASH) by apply trim_end_last. revert He. unfold u, strip_prefix.
    destruct (starts_with t (lit "./")); cbn [from_option]; unfold id; [|done]. intros He. rewrite last_drop; [done|].
    destruct (decide (length (lit "./") < length t)%nat) as [|Hge]; [done|]. exfalso. apply He. apply drop_ge. lia. }
  unfold normalize_vfs_path. rewrite (proj2 (str_eqb_false _ _) Hne). cbn [orb].
  assert (Hroot : str_eqb (INITRD_ROOT ++ [SLASH] ++ u) (lit "/initrd/") = false).
  { apply str_eqb_false. change (lit "/initrd/") with (INITRD_ROOT ++ [SLASH] ++ []). intros H.
    apply app_inv_head in H. injection H as H. done. }
  rewrite Hroot. assert (Hst : starts_with (INITRD_ROOT ++ [SLASH] ++ u) (lit "/initrd/") = true)
    by (apply starts_with_iff; exists u; done).
  rewrite Hst. cbn [negb]. f_equal. apply trim_end_id. rewrite app_assoc, last_app.
  destruct (last u) eqn:Hl; [done|]. by apply last_None in Hl.
Qed.

(** ** A tree of files and its archive

    The specification of the archive's meaning, on names cut at their slashes: a file or a
    directory at a list of segments, archived under the name [a/b/c] or [./a/b/c], the
    root as [.]. *)
Record TreeMember : Type := mkTree { tr_segments : list str; tr_dot : bool; tr_mode : Z; tr_data : list Z }.

Definition tree_name (t : TreeMember) : str :=
  match tr_segments t with
  | [] => lit "."
  | segs => (if tr_dot t then lit "./" else []) ++ push_segments true segs
  end.
Definition tree_member (t : TreeMember) : Member := mkMember (tree_name t) (tr_mode t) (tr_data t).
(** [/initrd/a/b/c] *)
Definition tree_path (segs : list str) : str := INITRD_ROOT ++ concat (cons SLASH <$> segs).
Definition tree_is_dir (t : TreeMember) : bool := Z.land (tr_mode t) FILE_TYPE_MASK =? FILE_TYPE_DIRECTORY.

Definition plain_name (s : str) : Prop := plain_segment s /\ contains s (lit "..") = false.
(** What the format and the kernel can hold: 32-bit sizes, names in UTF-8 whose segments are
    not empty, not [.] and do not contain [..], none the trailer's; only a directory at the root. *)
Definition tree_ok (t : TreeMember) : Prop :=
  0 <= tr_mode t < U32 /\ len (tr_data t) < U32 /\ len (tree_name t) + 1 < U32 /\ is_utf8 (tree_name t) = true /\
  tree_name t <> lit "TRAILER!!!" /\ Forall plain_name (tr_segments t) /\ (tr_segments t = [] -> tree_is_dir t = true).

(** [p] is a proper ancestor of [q], the root apart. *)
Definition above (p q : list str) : bool := negb (bool_decide (p = [])) && bool_decide (take (length p) q = p /\ (length p < length q)%nat).
(** The directories of the tree with their modes: the root, the directories archived and
    the ancestors of every member; the last member at or below a directory decides its mode. *)
Definition dir_step (segs : list str) (o : option Z) (t : TreeMember) : option Z :=
  if tree_is_dir t && bool_decide (tr_segments t = segs) then Some (tr_mode t)
  else if above segs (tr_segments t) then Some DEFAULT_DIRECTORY_MODE else o.
Definition dir_mode (ts : list TreeMember) (segs : list str) : option Z :=
  foldl (dir_step segs) (if bool_decide (segs = []) then Some DEFAULT_DIRECTORY_MODE else None) ts.
Definition tree_files (ts : list TreeMember) : list InitrdEntry :=
  (fun t => mkIEntry (tree_path (tr_segments t)) EFile (tr_mode t) (tr_data t)) <$> filter (fun t => tree_is_dir t = false) ts.
Definition file_entries (es : list InitrdEntry) : list InitrdEntry := filter (fun e => ie_kind e = EFile) es.
Definition dir_entries (es : list InitrdEntry) : list InitrdEntry := filter (fun e => ie_kind e = EDirectory) es.

(** *** Names *)
Lemma plain_no_slash segs : Forall plain_name segs -> Forall (no_char SLASH) segs.
Proof. intros H. eapply Forall_impl; [exact H|]. by intros s ((_ & _ & _ & ?) & _). Qed.

Lemma push_false segs : push_segments false segs = concat (cons SLASH <$> segs).
Proof. induction segs as [|s segs IH]; [done|]. cbn. by rewrite IH. Qed.
Lemma tree_path_push s segs : INITRD_ROOT ++ [SLASH] ++ push_segments true (s :: segs) = tree_path (s :: segs).
Proof. unfold tree_path. cbn [push_segments app fmap list_fmap concat]. by rewrite push_false. Qed.
Lemma tree_path_app p q : tree_path (p ++ q) = tree_path p ++ concat (cons SLASH <$> q).
Proof. unfold tree_path. by rewrite fmap_app, concat_app, app_assoc. Qed.
Lemma tree_path_snoc p s : tree_path (p ++ [s]) = tree_path p ++ SLASH :: s.
Proof. rewrite tree_path_app. cbn. by rewrite app_nil_r. Qed.

Lemma split_cons_sep s t : no_char SLASH s -> split SLASH (s ++ SLASH :: t) = s :: split SLASH t.
Proof. intros Hs. rewrite split_app_sep, split_piece by done. done. Qed.
Lemma split_tail s segs : no_char SLASH s -> Forall (no_char SLASH) segs -> split SLASH (s ++ concat (cons SLASH <$> segs)) = s :: segs.
Proof.
  intros Hs Hall. revert s Hs. induction Hall as [|x l Hx _ IH]; intros s Hs; cbn [fmap list_fmap concat]; [rewrite app_nil_r; by apply split_piece|].
  rewrite <- app_comm_cons. rewrite split_cons_sep by done. by rewrite IH.
Qed.
Lemma split_tree_path segs : Forall (no_char SLASH) segs -> split SLASH (tree_path segs) = [] :: lit "initrd" :: segs.
Proof.
  intros Hall. unfold tree_path. change INITRD_ROOT with ([] ++ SLASH :: lit "initrd"). rewrite <- app_assoc, <- app_comm_cons.
  rewrite split_cons_sep by (by apply not_elem_of_nil). f_equal. apply split_tail; [|done]. by apply (bool_decide_unpack _).
Qed.
Lemma tree_path_inj p q : Forall (no_char SLASH) p -> Forall (no_char SLASH) q -> tree_path p = tree_path q -> p = q.
Proof. intros Hp Hq He. apply (f_equal (split SLASH)) in He. rewrite !split_tree_path in He by done. by injection He. Qed.

Lemma contains_dots_app s t : contains (s ++ SLASH :: t) (lit "..") = contains s (lit "..") || contains t (lit "..").
Proof.
  induction s as [|b s IH]; [done|]. cbn [app contains]. rewrite IH, orb_assoc. f_equal. destruct s as [|b' s]; [|done].
  change (lit "..") with [46; 46]. cbn. by destruct (46 =? b) as [] eqn:?; rewrite ?Heqb0.
Qed.
Lemma contains_dots_push segs : Forall plain_name segs -> contains (push_segments true segs) (lit "..") = false.
Proof.
  destruct segs as [|s segs]; [done|]. intros [Hs Hall]%Forall_cons_iff. cbn [push_segments app]. rewrite push_false. revert s Hs.
  induction Hall as [|x l Hx _ IH]; intros s [_ Hs]; cbn [fmap list_fmap concat]; [by rewrite app_nil_r|].
  rewrite <- app_comm_cons, contains_dots_app, Hs. by apply IH.
Qed.

Lemma push_ends segs : Forall plain_name segs -> segs <> [] -> head (push_segments true segs) <> Some SLASH /\ last (push_segments true segs) <> Some SLASH /\ push_segments true segs <> [].
Proof.
  intros Hall Hne. pose proof (split_push segs (plain_no_slash _ Hall) Hne) as Hsp. set (j := push_segments true segs) in *. clearbody j.
  assert (Hpl : forall s, s ∈ segs -> s <> []) by (intros s Hs; rewrite list.Forall_forall in Hall; by destruct (Hall s Hs) as ((? & _) & _)).
  split_and!.
  - destruct j as [|b j]; [done|]. intros [= ->]. cbn in Hsp. apply (Hpl []); [|done]. rewrite <- Hsp. by apply list_elem_of_here.
  - intros Hl. apply last_Some in Hl as [j' ->]. change [SLASH] with (SLASH :: []) in Hsp. rewrite split_app_sep in Hsp. apply (Hpl []); [|done].
    rewrite <- Hsp. apply elem_of_app. right. by apply list_elem_of_here.
  - intros ->. cbn in Hsp. apply (Hpl []); [|done]. rewrite <- Hsp. by apply list_elem_of_here.
Qed.

Lemma trim_start_id c s : head s <> Some c -> trim_start c s = s.
Proof. destruct s as [|b s]; [done|]. cbn. intros H. destruct (Z.eqb_spec b c); [congruence|done]. Qed.

Lemma normalize_tree_name t : Forall plain_name (tr_segments t) -> normalize_archive_path (tree_name t) = Ok (tree_path (tr_segments t)).
Proof.
  unfold tree_name. intros Hall. destruct (tr_segments t) as [|s segs] eqn:Hsegs; [reflexivity|].
  assert (Hne : s :: segs <> []) by done. destruct (push_ends _ Hall Hne) as (Hh & Hl & Hj0).
  pose proof (split_push _ (plain_no_slash _ Hall) Hne) as Hsp. pose proof (contains_dots_push _ Hall) as Hdots.
  assert (Hs : s <> lit ".") by (apply Forall_cons_iff in Hall as [((_ & ? & _) & _) _]; done).
  rewrite <- (tree_path_push s segs). set (j := push_segments true (s :: segs)) in *. clearbody j.
  assert (Hdot : forall r, j <> lit "./" ++ r). { intros r ->. change (lit "./" ++ r) with (lit "." ++ SLASH :: r) in Hsp. rewrite split_app_sep in Hsp. apply Hs. by injection Hsp. }
  unfold normalize_archive_path. set (trimmed := default _ _). assert (Ht : trimmed = j).
  { unfold trimmed, trim_matches. destruct (tr_dot t).
    - rewrite trim_start_id by done. rewrite trim_end_id by (rewrite last_app; by destruct (last j) eqn:E; [|apply last_None in E]). done.
    - cbn [app]. rewrite trim_start_id, trim_end_id by done. unfold strip_prefix. destruct (starts_with j (lit "./")) eqn:E; [|done].
      apply starts_with_iff in E as [r ->]. by destruct (Hdot r). }
  rewrite Ht. rewrite (proj2 (str_eqb_false j []) Hj0). assert (Hjd : j <> lit ".") by (intros ->; apply Hs; by injection Hsp).
  rewrite (proj2 (str_eqb_false _ _) Hjd). cbn [orb]. by rewrite Hdots.
Qed.

Lemma tree_member_ok t : tree_ok t -> member_ok (tree_member t).
Proof. intros (H1 & H2 & H3 & H4 & H5 & H6 & _). do 5 (split; [done|]). eexists. by apply normalize_tree_name. Qed.

(** *** Directories *)
Definition dir_at (es : list InitrdEntry) (n : str) (mode : Z) : Prop := mkIEntry n EDirectory mode [] ∈ es.
(** Every directory is an entry without data, and no two have the same path. *)
Definition dirs_ok (es : list InitrdEntry) : Prop := Forall (fun e => ie_data e = []) (dir_entries es) /\ NoDup (ie_path <$> dir_entries es).

(** The directory [n] is put in with [mode], and nothing else changes. *)
Definition puts (es es' : list InitrdEntry) (n : str) (mode : Z) : Prop :=
  dirs_ok es' /\ file_entries es' = file_entries es /\ forall q mo, dir_at es' q mo <-> if bool_decide (q = n) then mo = mode else dir_at es q mo.

Lemma dir_at_entries es n mo : dir_at es n mo <-> mkIEntry n EDirectory mo [] ∈ dir_entries es.
Proof. unfold dir_at, dir_entries. rewrite list_elem_of_filter. naive_solver. Qed.

Lemma dir_entries_alter es i e mode : es !! i = Some e -> ie_kind e = EDirectory ->
  exists d1 d2, dir_entries es = d1 ++ e :: d2 /\ dir_entries (alter (set_field ie_mode mode) i es) = d1 ++ set_field ie_mode mode e :: d2 /\
    file_entries (alter (set_field ie_mode mode) i es) = file_entries es.
Proof.
  unfold dir_entries, file_entries. revert i. induction es as [|x es IH]; intros [|i] Hi Hk; try done.
  - injection Hi as ->. exists [], (filter (fun e => ie_kind e = EDirectory) es). cbn [alter list_alter]. rewrite !filter_cons. cbn. rewrite Hk. done.
  - destruct (IH i Hi Hk) as (d1 & d2 & H1 & H2 & H3). change (alter (set_field ie_mode mode) (S i) (x :: es)) with (x :: alter (set_field ie_mode mode) i es).
    rewrite !filter_cons, H1, H2, H3. destruct (decide (ie_kind x = EDirectory)); [exists (x :: d1), d2|exists d1, d2]; done.
Qed.

Lemma push_directory_puts es n mode : dirs_ok es -> puts es (snd (push_directory n mode es)) n mode.
Proof.
  intros [Hdata Hnd]. unfold push_directory, modify. cbn [snd]. destruct (position _ es) as [i|] eqn:Hpos.
  - apply position_Some in Hpos as [(e & Hi & He) _]. apply andb_true_iff in He as [Hk%bool_decide_eq_true He%str_eqb_true].
    destruct (dir_entries_alter es i e mode Hi Hk) as (d1 & d2 & H1 & H2 & H3). unfold puts, dirs_ok. rewrite H1 in Hdata, Hnd. rewrite H2, H3.
    apply Forall_app in Hdata as [Hd1 [Hd Hd2]%Forall_cons_iff]. rewrite fmap_app, fmap_cons in Hnd |- *. split; [split; [apply Forall_app; by split; [|constructor]|done]|].
    split; [done|]. intros q mo. rewrite dir_at_entries, H2, elem_of_app, elem_of_cons.
    apply NoDup_app in Hnd as (_ & Hn1 & [Hn2 _]%NoDup_cons).
    assert (Hout : forall mo', mkIEntry n EDirectory mo' [] ∈ d1 ++ d2 -> False).
    { intros mo' [Hin|Hin]%elem_of_app; apply (list_elem_of_fmap_2 ie_path) in Hin; cbn in Hin; rewrite <- He in Hin; [by apply (Hn1 _ Hin), list_elem_of_here|done]. }
    destruct e as [pe ke me de]. cbn in He, Hk, Hd. subst. case_bool_decide as Hq.
    + subst q. split; [intros [Hin|[[= ->]|Hin]]|intros ->; right; by left]; [|done|]; exfalso; apply (Hout mo); apply elem_of_app; auto.
    + rewrite dir_at_entries, H1, elem_of_app, elem_of_cons. split; (intros [Hin|[Hin|Hin]]; [by left|injection Hin as ?; by destruct Hq|right; by right]).
  - rewrite position_None in Hpos. assert (Hnone : forall e, e ∈ dir_entries es -> ie_path e <> n).
    { intros e [Hk Hin]%list_elem_of_filter Hp. rewrite list.Forall_forall in Hpos. specialize (Hpos e Hin). rewrite bool_decide_eq_true_2, (proj2 (str_eqb_true _ _) Hp) in Hpos by done. done. }
    assert (H1 : dir_entries (es ++ [mkIEntry n EDirectory mode []]) = dir_entries es ++ [mkIEntry n EDirectory mode []]) by (unfold dir_entries; by rewrite filter_app).
    split; [split|split].
    + rewrite H1. apply Forall_app. split; [done|by constructor].
    + rewrite H1, fmap_app. apply NoDup_app. split; [done|]. split; [|apply NoDup_singleton]. intros p (e & -> & He)%list_elem_of_fmap Hp%list_elem_of_singleton. by apply (Hnone e He).
    + unfold file_entries. rewrite filter_app. cbn. apply app_nil_r.
    + intros q mo. rewrite dir_at_entries, H1, elem_of_app, list_elem_of_singleton. case_bool_decide as Hq.
      * subst q. split; [intros [Hin|[= ->]]; [by destruct (Hnone _ Hin)|done]|intros ->; by right].
      * rewrite dir_at_entries. split; [intros [Hin|[= -> ->]]; done|by left].
Qed.

(** The proper ancestors of [p ++ s :: rest] from [p ++ [s]] on. *)
Fixpoint ancestors (p : list str) (s : str) (rest : list str) : list (list str) :=
  match rest with
  | [] => []
  | s' :: rest' => (p ++ [s]) :: ancestors (p ++ [s]) s' rest'
  end.
Definition put_parents (es : list InitrdEntry) (ps : list (list str)) : list InitrdEntry :=
  foldl (fun es p => snd (push_directory (tree_path p) DEFAULT_DIRECTORY_MODE es)) es ps.

Lemma position_slash s t : no_char SLASH s -> position (fun b => b =? SLASH) (s ++ SLASH :: t) = Some (length s).
Proof.
  induction s as [|b s IH]; intros Hs; [done|]. cbn. unfold no_char in *. rewrite elem_of_cons in Hs. destruct (Z.eqb_spec b SLASH); [naive_solver|].
  rewrite IH by naive_solver. done.
Qed.
Lemma position_no_slash s : no_char SLASH s -> position (fun b => b =? SLASH) s = None.
Proof. intros Hs. apply position_None, list.Forall_forall. intros b Hb. apply Z.eqb_neq. by intros ->. Qed.

Lemma parents_loop rest : forall p s fuel es, Forall (no_char SLASH) (s :: rest) -> (length rest < fuel)%nat -> len (tree_path (p ++ s :: rest)) < SLICE_LIMIT ->
  loop fuel (parents_step (tree_path (p ++ s :: rest))) (len (tree_path p)) es = (Ok tt, put_parents es (ancestors p s rest)).
Proof.
  induction rest as [|s' rest IH]; intros p s fuel es [Hs Hrest]%Forall_cons_iff Hf Hl; (destruct fuel as [|fuel]; [lia|]); cbn [loop]; unfold bind at 1.
  all: set (path := tree_path _) in *; unfold parents_step at 1; run; pose proof (len_nonneg (tree_path p)).
  - assert (Hp : path = tree_path p ++ SLASH :: s) by (unfold path; apply tree_path_snoc). assert (Hlen : len path = len (tree_path p) + 1 + len s) by (rewrite Hp, len_app, len_cons; lia).
    pose proof (len_nonneg s). rewrite add_ok, slice_ok by lia. assert (Hd : drop (Z.to_nat (len (tree_path p) + 1)) path = s).
    { rewrite Hp, drop_app_ge by (unfold len; lia). replace (Z.to_nat (len (tree_path p) + 1) - length (tree_path p))%nat with 1%nat by (unfold len; lia). done. }
    rewrite Hd, take_ge by (unfold len in *; lia).
    by rewrite position_no_slash.
  - set (t := s' ++ concat (cons SLASH <$> rest)). assert (Hp : path = tree_path (p ++ [s]) ++ SLASH :: t) by (unfold path; by rewrite cons_middle, app_assoc, tree_path_app).
    assert (Hp2 : path = tree_path p ++ SLASH :: s ++ SLASH :: t) by (rewrite Hp, tree_path_snoc, <- app_assoc; done).
    assert (Hlen : len path = len (tree_path p) + 1 + len s + 1 + len t) by (rewrite Hp2, len_app, len_cons, len_app, len_cons; lia).
    pose proof (len_nonneg s). pose proof (len_nonneg t). rewrite add_ok, slice_ok by lia.
    assert (Hd : drop (Z.to_nat (len (tree_path p) + 1)) path = s ++ SLASH :: t).
    { rewrite Hp2, drop_app_ge by (unfold len; lia). replace (Z.to_nat (len (tree_path p) + 1) - length (tree_path p))%nat with 1%nat by (unfold len; lia). done. }
    rewrite Hd, take_ge by (rewrite length_app; cbn [length]; unfold len in *; lia). rewrite position_slash by done. fold (len s). rewrite !add_ok by lia. rewrite slice_ok by lia.
    assert (He : len (tree_path p) + (len s + 1) = len (tree_path (p ++ [s]))) by (rewrite tree_path_snoc, len_app, len_cons; lia). rewrite He.
    rewrite drop_0, Z.sub_0_r. assert (Htk : take (Z.to_nat (len (tree_path (p ++ [s])))) path = tree_path (p ++ [s])) by (rewrite Hp; unfold len; by rewrite Nat2Z.id, take_app_length).
    rewrite Htk. unfold push_directory at 1, modify. assert (Hpath : path = tree_path ((p ++ [s]) ++ s' :: rest)) by (unfold path; by rewrite <- app_assoc).
    rewrite Hpath in Hl |- *. cbn [length] in Hf. rewrite IH by (done || lia). done.
Qed.

Lemma ensure_parents_put s rest es : Forall (no_char SLASH) (s :: rest) -> len (tree_path (s :: rest)) < SLICE_LIMIT ->
  ensure_parent_directories (tree_path (s :: rest)) es = (Ok tt, put_parents es (ancestors [] s rest)).
Proof.
  intros Hs Hl. unfold ensure_parent_directories. assert (Hlen : len (tree_path (s :: rest)) = len INITRD_ROOT + 1 + len (s ++ concat (cons SLASH <$> rest))).
  { unfold tree_path. cbn [fmap list_fmap concat]. rewrite <- app_comm_cons, len_app, len_cons. lia. }
  rewrite (proj2 (Z.leb_gt _ _)) by (pose proof (len_nonneg (s ++ concat (cons SLASH <$> rest))); lia).
  apply (parents_loop rest [] s); [done| |done]. enough (length rest <= length (concat (cons SLASH <$> rest)))%nat by (unfold len in Hlen; rewrite length_app in Hlen; lia).
  clear. induction rest as [|x rest IH]; [done|]. cbn. rewrite length_app. lia.
Qed.

Lemma ancestors_above q : forall rest p s, q ∈ ancestors p s rest <-> exists a x b, rest = a ++ x :: b /\ q = p ++ s :: a.
Proof.
  induction rest as [|y rest IH]; intros p s; cbn [ancestors].
  - rewrite elem_of_nil. split; [done|]. by intros ([|] & x & b & ? & _).
  - rewrite elem_of_cons, IH. split.
    + intros [->|(a & x & b & -> & ->)]; [by exists [], y, rest|]. exists (y :: a), x, b. by rewrite <- app_assoc.
    + intros ([|z a] & x & b & [= <- ->] & ->); [by left|]. right. exists a, x, b. by rewrite <- app_assoc.
Qed.
Lemma above_iff q s rest : q ∈ ancestors [] s rest <-> above q (s :: rest) = true.
Proof.
  rewrite ancestors_above. unfold above. rewrite andb_true_iff, negb_true_iff, bool_decide_eq_false, bool_decide_eq_true. split.
  - intros (a & x & b & -> & ->). change ([] ++ s :: a) with (s :: a). split; [done|]. rewrite app_comm_cons. split; [by rewrite take_app_length|]. rewrite length_app. cbn [length]. lia.
  - intros (Hne & Htk & Hl). destruct q as [|z a]; [done|]. cbn in Htk, Hl. injection Htk as <- Htk. destruct (lookup_lt_is_Some_2 rest (length a)) as [x Hx]; [lia|].
    exists a, x, (drop (S (length a)) rest). split; [|done]. rewrite <- (take_drop_middle _ _ _ Hx) at 1. by rewrite Htk.
Qed.

Lemma put_parents_dirs ps : forall es, dirs_ok es ->
  dirs_ok (put_parents es ps) /\ file_entries (put_parents es ps) = file_entries es /\
  forall q mo, dir_at (put_parents es ps) q mo <-> if bool_decide (q ∈ tree_path <$> ps) then mo = DEFAULT_DIRECTORY_MODE else dir_at es q mo.
Proof.
  induction ps as [|p ps IH]; intros es Hes; [split; [done|]; split; [done|]; intros; by rewrite bool_decide_eq_false_2 by apply not_elem_of_nil|].
  destruct (push_directory_puts es (tree_path p) DEFAULT_DIRECTORY_MODE Hes) as (H1 & F1 & D1). destruct (IH _ H1) as (H2 & F2 & D2).
  split; [exact H2|]. split; [by rewrite <- F1|]. intros q mo. rewrite D2. specialize (D1 q mo). cbn [fmap list_fmap].
  destruct (bool_decide (q ∈ tree_path <$> ps)) eqn:Hq; [apply bool_decide_eq_true in Hq; rewrite bool_decide_eq_true_2 by (apply elem_of_cons; by right); done|].
  apply bool_decide_eq_false in Hq. rewrite D1. case_bool_decide as Hn.
  - rewrite bool_decide_eq_true_2 by (apply elem_of_cons; by left). done.
  - rewrite bool_decide_eq_false_2 by (rewrite elem_of_cons; naive_solver). done.
Qed.

(** The directories of [es] and their modes are [f]. *)
Definition dirs_are (es : list InitrdEntry) (f : list str -> option Z) : Prop :=
  forall q mo, dir_at es q mo <-> exists segs, Forall (no_char SLASH) segs /\ q = tree_path segs /\ f segs = Some mo.

Lemma put_parents_are es f s rest : dirs_ok es -> Forall (no_char SLASH) (s :: rest) -> dirs_are es f ->
  dirs_are (put_parents es (ancestors [] s rest)) (fun p => if above p (s :: rest) then Some DEFAULT_DIRECTORY_MODE else f p).
Proof.
  intros Hes Hs Hf q mo. destruct (put_parents_dirs (ancestors [] s rest) es Hes) as (_ & _ & D). rewrite D. clear D. case_bool_decide as Hq.
  - apply list_elem_of_fmap in Hq as (p & -> & Hp%above_iff). assert (Hnc : Forall (no_char SLASH) p).
    { unfold above in Hp. apply andb_true_iff in Hp as [_ [Htk _]%bool_decide_eq_true]. rewrite <- Htk. by apply Forall_take. }
    split; [intros ->; exists p; by rewrite Hp|]. intros (p' & Hp' & He & Hm). apply tree_path_inj in He as <-; [|done..]. rewrite Hp in Hm. congruence.
  - rewrite (Hf q mo). split; intros (p & Hp & -> & Hm); exists p; (split; [done|]; split; [done|]); (destruct (above p (s :: rest)) eqn:Ha; [|done]);
      by destruct Hq; apply list_elem_of_fmap_2, above_iff.
Qed.
Lemma push_are es f n mode : dirs_ok es -> Forall (no_char SLASH) n -> dirs_are es f ->
  dirs_are (snd (push_directory (tree_path n) mode es)) (fun p => if bool_decide (n = p) then Some mode else f p).
Proof.
  intros Hes Hn Hf q mo. destruct (push_directory_puts es (tree_path n) mode Hes) as (_ & _ & D). rewrite D. clear D. case_bool_decide as Hq.
  - subst q. split; [intros ->; exists n; by rewrite bool_decide_eq_true_2|]. intros (p & Hp & He & Hm). apply tree_path_inj in He as <-; [|done..].
    rewrite bool_decide_eq_true_2 in Hm by done. congruence.
  - rewrite (Hf q mo). split; intros (p & Hp & -> & Hm); exists p; (split; [done|]; split; [done|]); (case_bool_decide as He; [by subst|done]).
Qed.
Lemma dirs_are_ext es f g : (forall p, f p = g p) -> dirs_are es f -> dirs_are es g.
Proof. intros He Hf q mo. rewrite (Hf q mo). split; intros (p & ? & ? & Hm); exists p; rewrite ?He in *; rewrite <- ?He in *; done. Qed.

Definition tree_inv (ts : list TreeMember) (es : list InitrdEntry) : Prop := dirs_ok es /\ file_entries es = tree_files ts /\ dirs_are es (dir_mode ts).

Lemma dir_mode_snoc ts t p : dir_mode (ts ++ [t]) p = dir_step p (dir_mode ts p) t.
Proof. unfold dir_mode. by rewrite foldl_snoc. Qed.
Lemma tree_files_snoc ts t : tree_files (ts ++ [t]) =
  tree_files ts ++ (if tree_is_dir t then [] else [mkIEntry (tree_path (tr_segments t)) EFile (tr_mode t) (tr_data t)]).
Proof. unfold tree_files. rewrite filter_app, fmap_app. f_equal. rewrite filter_cons, filter_nil. by destruct (tree_is_dir t). Qed.

Lemma add_tree_member ts t es : tree_ok t -> tree_inv ts es -> tree_inv (ts ++ [t]) (add_member es (tree_member t)).
Proof.
  intros (_ & _ & Hn & _ & _ & Hpl & Hroot) (Hes & Hfs & Hds). unfold add_member. cbn [tree_member mb_name]. rewrite (normalize_tree_name t Hpl). cbn [tree_member mb_mode mb_data].
  pose proof (normalize_archive_len (tree_name t)) as Hlen. rewrite (normalize_tree_name t Hpl) in Hlen. apply plain_no_slash in Hpl.
  set (es1 := snd (ensure_parent_directories _ es)). set (f := fun p => if above p (tr_segments t) then Some DEFAULT_DIRECTORY_MODE else dir_mode ts p).
  assert (H1 : dirs_ok es1 /\ file_entries es1 = tree_files ts /\ dirs_are es1 f).
  { unfold es1, f. destruct (tr_segments t) as [|s rest].
    - split; [done|]. split; [done|]. eapply dirs_are_ext; [|exact Hds]. intros p. unfold above. rewrite (bool_decide_eq_false_2 (take _ _ = _ /\ _)), andb_false_r; [done|]. cbn. lia.
    - rewrite ensure_parents_put by (done || lia). cbn [snd]. destruct (put_parents_dirs (ancestors [] s rest) es Hes) as (? & HF & _).
      split; [done|]. split; [by rewrite HF|]. by apply put_parents_are. }
  clearbody es1. destruct H1 as (Hes1 & Hfs1 & Hds1). unfold tree_inv. rewrite tree_files_snoc. fold (tree_is_dir t). destruct (tree_is_dir t) eqn:Hdir.
  - destruct (push_directory_puts es1 (tree_path (tr_segments t)) (tr_mode t) Hes1) as (? & HF & _). split; [done|]. split; [by rewrite HF, app_nil_r|].
    eapply dirs_are_ext; [|by apply push_are]. intros p. rewrite dir_mode_snoc. unfold dir_step. by rewrite Hdir.
  - assert (Hde : dir_entries (es1 ++ [mkIEntry (tree_path (tr_segments t)) EFile (tr_mode t) (tr_data t)]) = dir_entries es1)
      by (unfold dir_entries; rewrite filter_app; apply app_nil_r).
    split; [unfold dirs_ok; by rewrite Hde|]. split; [unfold file_entries in *; by rewrite filter_app, Hfs1|].
    intros q mo. rewrite dir_at_entries, Hde, <- dir_at_entries, (Hds1 q mo). unfold f.
    split; intros (p & Hp & -> & Hm); exists p; (split; [done|]; split; [done|]); rewrite dir_mode_snoc in *; unfold dir_step in *; by rewrite Hdir in *.
Qed.

Lemma tree_inv_all ts : Forall tree_ok ts -> tree_inv ts (foldl add_member root_entries (tree_member <$> ts)).
Proof.
  induction ts as [|t ts IH] using rev_ind; intros Hok.
  - cbn [fmap list_fmap foldl]. split; [split; [by constructor|apply NoDup_singleton]|]. split; [done|]. intros q mo. unfold dir_at, root_entries. rewrite list_elem_of_singleton. split.
    + intros [= -> ->]. exists []. done.
    + intros (segs & _ & -> & Hm). unfold dir_mode in Hm. cbn in Hm. case_bool_decide; [|done]. subst. injection Hm as <-. done.
  - apply Forall_app in Hok as [Hok [Ht _]%Forall_cons_iff]. rewrite fmap_app, foldl_app. cbn [fmap list_fmap foldl]. apply add_tree_member; [done|by apply IH].
Qed.

(** * Theorems *)

(** Parsing any bytes as an initrd archive returns entries or an error:
    truncated headers, names and data, bad digits and missing trailers never
    index out of range, overflow or loop. *)
Theorem initrd_parse_total (archive : list Z) (Hlen : len archive < SLICE_LIMIT - 16) :
  returns (parse_newc_archive archive).
Proof. by apply parse_newc_archive_returns. Qed.

(** C14: the parser inverts the [newc] format. The archive of any list of files and
    directories that fulfil [tree_ok] (names in UTF-8 of segments that are not empty, not
    [.] and do not contain [..], with or without a leading [./], none [TRAILER!!!]; modes
    and sizes of 32 bits; the root [.] only as a directory), if its length fits the address
    space, parses to entries that are exactly: the files in their order, at [/initrd] and their segments, with
    their modes and data; and the directories, each once and without data: the root, those archived
    and every ancestor of a member, with the mode of the last member at or below ([dir_mode]). *)
Theorem initrd_parse_encoded (ts : list TreeMember) (Hok : Forall tree_ok ts)
    (Hlen : len (encode_archive (tree_member <$> ts)) < SLICE_LIMIT - 16) :
  exists es, parse_newc_archive (encode_archive (tree_member <$> ts)) = Ok es /\ file_entries es = tree_files ts /\
    NoDup (ie_path <$> dir_entries es) /\
    forall e, e ∈ dir_entries es <-> exists segs mode, Forall (no_char SLASH) segs /\ dir_mode ts segs = Some mode /\ e = mkIEntry (tree_path segs) EDirectory mode [].
Proof.
  exists (foldl add_member root_entries (tree_member <$> ts)). destruct (tree_inv_all ts Hok) as ([Hdata Hnd] & Hfs & Hds).
  split; [apply parse_encoded; [|done]; apply Forall_fmap; eapply Forall_impl; [exact Hok|apply tree_member_ok]|]. split; [done|]. split; [done|]. intros e. split.
  - intros He. assert (e = mkIEntry (ie_path e) EDirectory (ie_mode e) []) as Hee.
    { rewrite list.Forall_forall in Hdata. specialize (Hdata e He). apply list_elem_of_filter in He as [Hk _]. destruct e; cbn in *; congruence. }
    rewrite Hee, <- dir_at_entries in He. apply Hds in He as (segs & Hs & Hp & Hm). exists segs, (ie_mode e). rewrite <- Hp. done.
  - intros (segs & mode & Hs & Hm & ->). rewrite <- dir_at_entries. apply Hds. by exists segs.
Qed.

(** A file of the archive is read back at its path with its own data,
    provided no other member has the same path or lies below it. *)
Theorem initrd_read_back (ms1 ms2 : list Member) (m : Member) (n : list Z) (state : InitrdState)
    (Hok : Forall member_ok (ms1 ++ m :: ms2)) (Hlen : len (encode_archive (ms1 ++ m :: ms2)) < SLICE_LIMIT - 16)
    (Hparse : parse_newc_archive (encode_archive (ms1 ++ m :: ms2)) = Ok (entries state))
    (Hname : normalize_archive_path (mb_name m) = Ok n) (Hroot : n <> INITRD_ROOT)
    (Hfile : Z.land (mb_mode m) FILE_TYPE_MASK <> FILE_TYPE_DIRECTORY)
    (Hothers : Forall (fun m' => forall n', normalize_archive_path (mb_name m') = Ok n' -> n' <> n /\ ~ is_ancestor n n') (ms1 ++ ms2)) :
  initrd_read_bytes (Some state) n = Some (mb_data m) /\
  initrd_node_info (Some state) n =
    Some (mkNodeInfo NFile (len (mb_data m)) (negb (Z.land (mb_mode m) MODE_EXECUTABLE_MASK =? 0))).
Proof.
  rewrite parse_encoded in Hparse by done. injection Hparse as Hes. rewrite foldl_app in Hes. cbn [foldl] in Hes.
  assert (Hl : forall x, member_ok x -> len (mb_name x) < SLICE_LIMIT - 16) by (intros x (_ & _ & ? & _); lia).
  apply Forall_app in Hok as [Hok1 [Hokm Hok2]%Forall_cons_iff]. apply Forall_app in Hothers as [Ho1 Ho2].
  assert (Hat : at_path n (entries state) = [mkIEntry n EFile (mb_mode m) (mb_data m)]).
  { rewrite <- Hes, foldl_other.
    - set (es1 := foldl add_member root_entries ms1). unfold add_member. rewrite Hname, (proj2 (Z.eqb_neq _ _) Hfile).
      rewrite at_path_app. subst es1.
      pose proof (normalize_archive_len (mb_name m)) as Hnl. rewrite Hname in Hnl. pose proof (Hl m Hokm) as Hlm.
      rewrite ensure_parents_other; [|lia|].
      + rewrite foldl_other; [|apply Forall_forall; intros x Hx; rewrite list.Forall_forall in Hok1, Ho1; split; [by apply Hl, Hok1|exact (Ho1 x Hx)]].
        unfold at_path, root_entries. rewrite !filter_cons, !filter_nil. simpl.
        rewrite decide_False by congruence. by rewrite decide_True.
      + intros [rest He]. apply (f_equal length) in He. rewrite length_app in He. simpl in He. lia.
    - apply Forall_forall; intros x Hx; rewrite list.Forall_forall in Hok2, Ho2; split; [by apply Hl, Hok2|exact (Ho2 x Hx)]. }
  unfold initrd_read_bytes, initrd_node_info, entry_of. rewrite (archive_path_lookup _ n Hname Hroot).
  by rewrite (find_at_path state n _ _ Hat).
Qed.

(** The same for a tree: a file no other member shares the path of or lies below. *)
Lemma tree_read_back ts1 t ts2 state : Forall tree_ok (ts1 ++ t :: ts2) -> len (encode_archive (tree_member <$> ts1 ++ t :: ts2)) < SLICE_LIMIT - 16 ->
  parse_newc_archive (encode_archive (tree_member <$> ts1 ++ t :: ts2)) = Ok (entries state) -> tree_is_dir t = false ->
  Forall (fun t' => ~ tr_segments t `prefix_of` tr_segments t') (ts1 ++ ts2) ->
  initrd_read_bytes (Some state) (tree_path (tr_segments t)) = Some (tr_data t) /\
  initrd_node_info (Some state) (tree_path (tr_segments t)) =
    Some (mkNodeInfo NFile (len (tr_data t)) (negb (Z.land (tr_mode t) MODE_EXECUTABLE_MASK =? 0))).
Proof.
  intros Hok Hlen Hparse Hdir Hothers. rewrite fmap_app, fmap_cons in Hlen, Hparse. assert (Ht : tree_ok t) by (by apply Forall_app in Hok as [_ [? _]%Forall_cons_iff]).
  pose proof Ht as (_ & _ & _ & _ & _ & Hpl & Hroot).
  apply (initrd_read_back (tree_member <$> ts1) (tree_member <$> ts2) (tree_member t) _ state); [|done|done|by apply normalize_tree_name| | |].
  - rewrite <- fmap_cons, <- fmap_app. apply Forall_fmap. eapply Forall_impl; [exact Hok|apply tree_member_ok].
  - intros He. change INITRD_ROOT with (tree_path []) in He. apply tree_path_inj in He; [|by apply plain_no_slash|constructor]. rewrite (Hroot He) in Hdir. done.
  - apply Z.eqb_neq. exact Hdir.
  - rewrite <- fmap_app. apply Forall_fmap, list.Forall_forall. intros t' Hin n'. rewrite list.Forall_forall in Hothers. specialize (Hothers t' Hin).
    assert (Ht' : tree_ok t') by (apply Forall_app in Hok as [H1 [_ H2]%Forall_cons_iff]; rewrite list.Forall_forall in H1, H2; apply elem_of_app in Hin as [?|?]; auto).
    destruct Ht' as (_ & _ & _ & _ & _ & Hpl' & _). cbn [compose tree_member mb_name]. rewrite (normalize_tree_name t' Hpl'). intros [= <-].
    apply plain_no_slash in Hpl, Hpl'. split; [intros He%tree_path_inj; [|done..]; by rewrite He in Hothers|].
    intros [rest He]. apply (f_equal (split SLASH)) in He. rewrite split_app_sep, !split_tree_path in He by done. injection He as He. apply Hothers. by eexists.
Qed.

(** A directory and a file in it. *)
Definition demo_members : list Member :=
  [mkMember (lit "d") 16832 []; mkMember (lit "./d/f") 33261 (lit "data!")].

Lemma demo_members_ok : Forall member_ok demo_members.
Proof.
  constructor; [|constructor; [|constructor]];
    (split; [simpl; lia|]; split; [reflexivity|]; split; [reflexivity|]; split; [reflexivity|];
     split; [discriminate|]; eexists; vm_compute; reflexivity).
Qed.

Lemma initrd_parse_total_witness :
  parse_newc_archive (lit "0707") = Err InvalidArchive /\ returns (parse_newc_archive (lit "0707")).
Proof. split; [vm_compute; reflexivity|]. apply (initrd_parse_total (lit "0707")). reflexivity. Defined.

Definition demo_tree : list TreeMember :=
  [mkTree [lit "d"] false 16832 []; mkTree [lit "d"; lit "f"] true 33261 (lit "data!"); mkTree [] false 16877 []].
Lemma demo_tree_ok : Forall tree_ok demo_tree.
Proof.
  assert (Hp : forall s, s ∈ [lit "d"; lit "f"] -> plain_name s).
  { intros s [->|[->|[]%elem_of_nil]%elem_of_cons]%elem_of_cons; (split; [|reflexivity]); do 3 (split; [discriminate|]); apply (bool_decide_unpack _); vm_compute; exact I. }
  assert (Hps : Forall plain_name [lit "d"; lit "f"]) by (apply list.Forall_forall; exact Hp).
  assert (Hpd : Forall plain_name [lit "d"]) by (apply Forall_cons_iff in Hps as [? _]; by constructor).
  constructor; [|constructor; [|constructor; [|constructor]]]; (split; [cbn; lia|]; split; [reflexivity|]; split; [reflexivity|]; split; [reflexivity|]; split; [discriminate|]; split; [done||constructor|done||reflexivity]).
Qed.

Lemma initrd_parse_encoded_witness :
  exists es, parse_newc_archive (encode_archive (tree_member <$> demo_tree)) = Ok es /\ file_entries es = tree_files demo_tree /\
    NoDup (ie_path <$> dir_entries es) /\
    forall e, e ∈ dir_entries es <-> exists segs mode, Forall (no_char SLASH) segs /\ dir_mode demo_tree segs = Some mode /\ e = mkIEntry (tree_path segs) EDirectory mode [].
Proof. apply (initrd_parse_encoded demo_tree demo_tree_ok). vm_compute. reflexivity. Defined.

Definition demo_initrd : InitrdState :=
  mkInitrd None None 1 (encode_archive demo_members) (len (encode_archive demo_members))
    (foldl add_member root_entries demo_members).

Lemma initrd_read_back_witness : initrd_read_bytes (Some demo_initrd) (lit "/initrd/d/f") = Some (lit "data!").
Proof.
  assert (Hlen : len (encode_archive demo_members) < SLICE_LIMIT - 16) by (vm_compute; reflexivity).
  apply (initrd_read_back [mkMember (lit "d") 16832 []] [] (mkMember (lit "./d/f") 33261 (lit "data!"))
    (lit "/initrd/d/f") demo_initrd demo_members_ok Hlen).
  - exact (parse_encoded demo_members demo_members_ok Hlen).
  - vm_compute. reflexivity.
  - discriminate.
  - vm_compute. discriminate.
  - apply Forall_singleton. intros n' Hn. vm_compute in Hn. injection Hn as <-. split; [discriminate|].
    intros [rest He]. apply (f_equal length) in He. rewrite length_app in He. change (length (lit "/initrd/d/f")) with 11%nat in He.
    simpl in He. lia.
Defined.

(** A directory's own mode is lost as soon as a later member lies below it: the
    directory [d] is archived with mode [0700] and ends up with [0755]. *)
Theorem directory_mode_overwritten :
  ie_mode <$> find_entry demo_initrd (lit "/initrd/d") = Some DEFAULT_DIRECTORY_MODE /\
  mb_mode <$> head demo_members = Some (FILE_TYPE_DIRECTORY + 448).
Proof. vm_compute. split; reflexivity. Qed.
