(* ===== verification/Fat.v ===== *)
(** * The FAT reader: [kernel/src/fat.rs]

    Mounting a FAT16 or FAT32 partition: the BIOS parameter block, the entries of
    the root directory and the reading of a file along its cluster chain. The
    disk is untrusted: chains may be cyclic, entries arbitrary. The block layer
    is an interface, [Block]; the source's own block layer is a stub, the
    instance [stub_block]. *)
From stdpp Require Import base list numbers option strings.
From Stdlib Require Import ZArith Lia Bool.
From S2P Require Import Prelude Paths Exec.

(** ** The block layer *)
Definition SECTOR_BYTES : Z := 512.
Inductive PartitionTableKind : Type := Mbr | Gpt.
Record PartitionInfo : Type := mkPartition {
  part_id : Z; part_device : Z; table_kind : PartitionTableKind; start_lba : Z; sector_count : Z }.

(** [blk_read device lba count buf] is the buffer after the read, or [None] for an error. *)
Class Block : Type := {
  blk_initialized : bool;
  blk_partition_count : Z;
  blk_partition : Z -> option PartitionInfo;
  blk_read : Z -> Z -> Z -> list Z -> option (list Z) }.

Definition stub_block : Block := {|
  blk_initialized := false;
  blk_partition_count := 0;
  blk_partition := fun _ => None;
  blk_read := fun _ _ _ _ => None |}.

(** What the reader relies on: a successful read fills the buffer with bytes that
    do not depend on what the buffer held. *)
Class BlockLaws (B : Block) : Prop := {
  blk_read_fills : forall dev lba buf s, len buf = SECTOR_BYTES -> blk_read dev lba 1 buf = Some s ->
    len s = SECTOR_BYTES /\ byte_list s;
  blk_read_stable : forall dev lba buf buf', len buf = SECTOR_BYTES -> len buf' = SECTOR_BYTES ->
    blk_read dev lba 1 buf = blk_read dev lba 1 buf';
  blk_partition_lba : forall i p, blk_partition i = Some p -> 0 <= start_lba p < SLICE_LIMIT;
  blk_partition_bound : 0 <= blk_partition_count < U64 }.

(** ** Data *)
Definition FAT_PATH_ROOT : list Z := lit "/boot".
Definition DIRECTORY_ENTRY_BYTES : Z := 32.
Definition FAT32_EOC_MIN : Z := 0x0ffffff8.
Definition FAT32_BAD_CLUSTER : Z := 0x0ffffff7.
Definition MAX_FAT32_ROOT_CHAIN_STEPS : Z := 1024.

Inductive FatType : Type := Fat16 | Fat32.
Inductive FatNodeKind : Type := FDirectory | FFile.
#[export] Instance FatType_eq_dec : EqDecision FatType.
Proof. solve_decision. Defined.
#[export] Instance FatNodeKind_eq_dec : EqDecision FatNodeKind.
Proof. solve_decision. Defined.

Record FatRootEntry : Type := mkRootEntry { fe_name : list Z; fe_kind : FatNodeKind; fe_size : Z; fe_cluster : Z }.
Record FatNodeInfo : Type := mkFatInfo { fi_kind : FatNodeKind; fi_size : Z }.
Record FatSummary : Type := mkFatSummary {
  fs_mounted : bool; fs_partition_id : option Z; fs_device_id : option Z; fs_table : option PartitionTableKind;
  fs_type : option FatType; fs_root_entry_count : Z; fs_directory_count : Z }.
Definition fat_offline : FatSummary := mkFatSummary false None None None None 0 0.
Inductive FatError : Type := FatAlreadyInitialized | BlockUnavailable | NoFatPartition.

Record BpbLayout : Type := mkBpb {
  fat_type : FatType; bytes_per_sector : Z; sectors_per_cluster : Z; reserved_sectors : Z; fat_count : Z;
  sectors_per_fat : Z; root_dir_entries : Z; root_dir_sectors : Z; fat_start_lba_offset : Z;
  root_dir_start_lba_offset : Z; first_data_sector_offset : Z; root_dir_first_cluster : Z }.

Record FatState : Type := mkFat {
  fat_sum : FatSummary; root_list : list FatRootEntry; fat_partition : PartitionInfo; fat_bpb : BpbLayout }.

(** ** Parsing a sector: [None] is [Err tt] *)
Definition fat_read_u16_le (input : list Z) (offset : Z) : outcome unit Z :=
  let? b0 := idx input offset in
  let? o1 := add U64 offset 1 in
  let? b1 := idx input o1 in
  Ok (le_val [b0; b1]).

Definition fat_read_u32_le (input : list Z) (offset : Z) : outcome unit Z :=
  let? b0 := idx input offset in
  let? o1 := add U64 offset 1 in
  let? b1 := idx input o1 in
  let? o2 := add U64 offset 2 in
  let? b2 := idx input o2 in
  let? o3 := add U64 offset 3 in
  let? b3 := idx input o3 in
  Ok (le_val [b0; b1; b2; b3]).

Definition parse_bpb (sector : list Z) : outcome unit BpbLayout :=
  let? bytes_per_sector := fat_read_u16_le sector 11 in
  if negb (bytes_per_sector =? SECTOR_BYTES) then Err tt else
  let? sectors_per_cluster := idx sector 13 in
  if sectors_per_cluster =? 0 then Err tt else
  let? reserved_sectors := fat_read_u16_le sector 14 in
  if reserved_sectors =? 0 then Err tt else
  let? fat_count := idx sector 16 in
  if fat_count =? 0 then Err tt else
  let? root_dir_entries := fat_read_u16_le sector 17 in
  let? total_sectors_16 := fat_read_u16_le sector 19 in
  let? sectors_per_fat_16 := fat_read_u16_le sector 22 in
  let? total_sectors_32 := fat_read_u32_le sector 32 in
  let? sectors_per_fat_32 := fat_read_u32_le sector 36 in
  let? root_dir_first_cluster := fat_read_u32_le sector 44 in
  let total_sectors := if negb (total_sectors_16 =? 0) then total_sectors_16 else total_sectors_32 in
  if total_sectors =? 0 then Err tt else
  let sectors_per_fat := if negb (sectors_per_fat_16 =? 0) then sectors_per_fat_16 else sectors_per_fat_32 in
  if sectors_per_fat =? 0 then Err tt else
  let? dir_bytes := mul U32 root_dir_entries 32 in
  let? less := sub bytes_per_sector 1 in
  let? rounded := add U32 dir_bytes less in
  let root_dir_sectors := rounded / bytes_per_sector in
  let? fats := mul U32 fat_count sectors_per_fat in
  let? after_fats := add U32 reserved_sectors fats in
  let? first_data_sector := add U32 after_fats root_dir_sectors in
  if total_sectors <=? first_data_sector then Err tt else
  let data_sectors := sat_sub total_sectors first_data_sector in
  let cluster_count := data_sectors / sectors_per_cluster in
  if cluster_count <? 4085 then Err tt else
  let fat_type := if cluster_count <? 65525 then Fat16 else Fat32 in
  if bool_decide (fat_type = Fat32) && (root_dir_first_cluster <? 2) then Err tt else
  Ok (mkBpb fat_type bytes_per_sector sectors_per_cluster reserved_sectors fat_count sectors_per_fat
    root_dir_entries root_dir_sectors reserved_sectors after_fats first_data_sector root_dir_first_cluster).

Fixpoint parse_name_component (bytes : list Z) : option (list Z) :=
  match bytes with
  | [] => Some []
  | byte :: bytes' =>
      if (byte =? 32) || (byte =? 0) then Some []
      else if negb (between 0x21 byte 0x7e) then None
      else cons byte <$> parse_name_component bytes'
  end.

Definition parse_short_name (name : list Z) : option (list Z) :=
  if negb (len name =? 11) then None else
  match parse_name_component (take 8 name) with
  | None => None
  | Some base =>
      if str_eqb base [] then None else
      match parse_name_component (drop 8 name) with
      | None => None
      | Some ext => Some (base ++ (if negb (str_eqb ext []) then lit "." ++ ext else []))
      end
  end.

(** One entry of the sector: [inr true] at the end of the directory. *)
Definition directory_step (sector : list Z) (offset : Z) : M (list FatRootEntry) unit (Z + bool) :=
  let! entry_end := lift (add U64 offset DIRECTORY_ENTRY_BYTES) in
  if negb (entry_end <=? len sector) then ret (inr false) else
  let! first := lift (idx sector offset) in
  if first =? 0 then ret (inr true) else
  if first =? 0xE5 then ret (inl entry_end) else
  let! o11 := lift (add U64 offset 11) in
  let! attrs := lift (idx sector o11) in
  if (attrs =? 0x0F) || negb (Z.land attrs 0x08 =? 0) then ret (inl entry_end) else
  let! raw_name := lift (slice sector offset o11) in
  match parse_short_name raw_name with
  | None => ret (inl entry_end)
  | Some name =>
      if str_eqb name (lit ".") || str_eqb name (lit "..") then ret (inl entry_end) else
      let kind := if negb (Z.land attrs 0x10 =? 0) then FDirectory else FFile in
      let! o28 := lift (add U64 offset 28) in
      let! size := lift (fat_read_u32_le sector o28) in
      let! o20 := lift (add U64 offset 20) in
      let! cluster_hi := lift (fat_read_u16_le sector o20) in
      let! o26 := lift (add U64 offset 26) in
      let! cluster_lo := lift (fat_read_u16_le sector o26) in
      let cluster := Z.lor (Z.shiftl cluster_hi 16) cluster_lo in
      do! modify (fun out => out ++ [mkRootEntry name kind size cluster]) in
      ret (inl entry_end)
  end.

(** 16 entries in a sector and the iteration that finds its end. *)
Definition parse_directory_sector (sector : list Z) : M (list FatRootEntry) unit bool :=
  loop 18 (directory_step sector) 0.

(** ** The volume: the state is the buffer the sectors are read into and what is
    collected from them *)
Section volume.
Context {B : Block}.

Definition read_sector {X} (device lba : Z) : M (X * list Z) unit unit := fun s =>
  match blk_read device lba 1 (snd s) with
  | Some buf => (Ok tt, (fst s, buf))
  | None => (Err tt, s)
  end.

Definition parse_buffer : M (list FatRootEntry * list Z) unit bool := fun s =>
  let '(r, out) := parse_directory_sector (snd s) (fst s) in (r, (out, snd s)).

Definition ZERO_SECTOR : list Z := replicate 512 0.

Definition fat16_root_step (p : PartitionInfo) (bpb : BpbLayout) (start sector_offset : Z)
    : M (list FatRootEntry * list Z) unit (Z + unit) :=
  if negb (sector_offset <? root_dir_sectors bpb) then ret (inr tt) else
  let! lba := lift (add U64 start sector_offset) in
  do! read_sector (part_device p) lba in
  let! ended := parse_buffer in
  if ended then ret (inr tt) else
  let! next := lift (add U32 sector_offset 1) in
  ret (inl next).

(** What a run collects. *)
Definition collected {E A X} (r : outcome E A * (X * list Z)) : outcome E X :=
  match r with
  | (Ok _, s) => Ok (fst s)
  | (Err e, _) => Err e
  | (Panic, _) => Panic
  | (Diverge, _) => Diverge
  end.

Definition read_fat16_root_entries (p : PartitionInfo) (bpb : BpbLayout) : outcome unit (list FatRootEntry) :=
  let? start := add U64 (start_lba p) (root_dir_start_lba_offset bpb) in
  collected (loop (S (Z.to_nat (root_dir_sectors bpb))) (fat16_root_step p bpb start) 0 ([], ZERO_SECTOR)).

Definition read_fat32_entry (p : PartitionInfo) (bpb : BpbLayout) (cluster : Z) : outcome unit Z :=
  let? fat_offset := mul U64 cluster 4 in
  let? start := add U64 (start_lba p) (fat_start_lba_offset bpb) in
  let? fat_sector_lba := add U64 start (fat_offset / 512) in
  let fat_sector_offset := fat_offset mod 512 in
  match blk_read (part_device p) fat_sector_lba 1 ZERO_SECTOR with
  | None => Err tt
  | Some sector =>
      let? v := fat_read_u32_le sector fat_sector_offset in
      Ok (Z.land v 0x0fffffff)
  end.

Definition cluster_lba (p : PartitionInfo) (bpb : BpbLayout) (cluster : Z) : outcome unit Z :=
  let? data := add U64 (start_lba p) (first_data_sector_offset bpb) in
  let? index := sub cluster 2 in
  let? sectors := mul U64 index (sectors_per_cluster bpb) in
  add U64 data sectors.

(** The sectors of one cluster of the root directory: [true] when it has ended. *)
Definition root_sector_step (p : PartitionInfo) (bpb : BpbLayout) (lba sec : Z)
    : M (list FatRootEntry * list Z) unit (Z + bool) :=
  if negb (sec <? sectors_per_cluster bpb) then ret (inr false) else
  let! at_ := lift (add U64 lba sec) in
  do! read_sector (part_device p) at_ in
  let! ended := parse_buffer in
  if ended then ret (inr true) else
  let! next := lift (add U8 sec 1) in
  ret (inl next).

Definition fat32_root_step (p : PartitionInfo) (bpb : BpbLayout) (locals : Z * Z)
    : M (list FatRootEntry * list Z) unit (Z * Z + unit) :=
  let '(cluster, visited) := locals in
  if negb (visited <? MAX_FAT32_ROOT_CHAIN_STEPS) then ret (inr tt) else
  if cluster <? 2 then ret (inr tt) else
  let! lba := lift (cluster_lba p bpb cluster) in
  let! ended := loop (S (Z.to_nat (sectors_per_cluster bpb))) (root_sector_step p bpb lba) 0 in
  if ended then ret (inr tt) else
  let! next := lift (read_fat32_entry p bpb cluster) in
  if (FAT32_EOC_MIN <=? next) || (next =? FAT32_BAD_CLUSTER) || (next =? 0) || (next =? cluster) then ret (inr tt) else
  let! visited := lift (add U64 visited 1) in
  ret (inl (next, visited)).

Definition read_fat32_root_entries (p : PartitionInfo) (bpb : BpbLayout) : outcome unit (list FatRootEntry) :=
  collected (loop (S (Z.to_nat MAX_FAT32_ROOT_CHAIN_STEPS)) (fat32_root_step p bpb)
    (root_dir_first_cluster bpb, 0) ([], ZERO_SECTOR)).

Definition try_mount_partition (p : PartitionInfo) : outcome unit FatState :=
  match blk_read (part_device p) (start_lba p) 1 ZERO_SECTOR with
  | None => Err tt
  | Some bpb_sector =>
      let? b510 := idx bpb_sector 510 in
      if negb (b510 =? 0x55) then Err tt else
      let? b511 := idx bpb_sector 511 in
      if negb (b511 =? 0xAA) then Err tt else
      let? bpb := parse_bpb bpb_sector in
      let? root_entries :=
        match fat_type bpb with
        | Fat16 => read_fat16_root_entries p bpb
        | Fat32 => read_fat32_root_entries p bpb
        end in
      let? directory_count :=
        add U64 1 (len (filter (fun e => bool_decide (fe_kind e = FDirectory) = true) root_entries)) in
      Ok (mkFat (mkFatSummary true (Some (part_id p)) (Some (part_device p)) (Some (table_kind p))
        (Some (fat_type bpb)) (len root_entries) directory_count) root_entries p bpb)
  end.

(** One partition of the mount loop; a mount stores the global. *)
Definition mount_step (index : Z) : M (option FatState) FatError (Z + FatSummary) :=
  if negb (index <? blk_partition_count) then throw NoFatPartition else
  let next := let! i := lift (add U64 index 1) in ret (inl i) in
  match blk_partition index with
  | None => next
  | Some partition =>
      match try_mount_partition partition with
      | Ok state => do! put (Some state) in ret (inr (fat_sum state))
      | Err _ => next
      | Panic => panic
      | Diverge => diverge
      end
  end.

Definition fat_initialize : M (option FatState) FatError FatSummary :=
  let! slot := gets id in
  if bool_decide (is_Some slot) then throw FatAlreadyInitialized else
  if negb blk_initialized then throw BlockUnavailable else
  loop (S (Z.to_nat blk_partition_count)) mount_step 0.

(** ** Paths and files *)
Definition normalize_fat_path (path : list Z) : option (list Z) :=
  if str_eqb path FAT_PATH_ROOT || str_eqb path (lit "/boot/") then Some FAT_PATH_ROOT else
  if negb (starts_with path (lit "/boot/")) then None else
  let trimmed := trim_end SLASH path in
  match strip_prefix trimmed (lit "/boot/") with
  | None => None
  | Some name =>
      if str_eqb name [] || existsb (fun b => b =? SLASH) name then None
      else Some (FAT_PATH_ROOT ++ [SLASH] ++ name)
  end.

Definition render_root_entries (entries : list FatRootEntry) : list Z :=
  concat ((fun e => fe_name e ++ [NEWLINE]) <$> entries).

(** [root_entries.iter().find(p)] *)
Definition find_root (P : FatRootEntry -> bool) (entries : list FatRootEntry) : option FatRootEntry :=
  match position P entries with
  | Some i => entries !! i
  | None => None
  end.

Definition fat_summary (s : option FatState) : FatSummary := from_option fat_sum fat_offline s.

Definition fat_node_info (s : option FatState) (path : list Z) : option FatNodeInfo :=
  match s, normalize_fat_path path with
  | Some state, Some normalized =>
      if str_eqb normalized FAT_PATH_ROOT then
        Some (mkFatInfo FDirectory (len (render_root_entries (root_list state))))
      else
        match strip_prefix normalized (lit "/boot/") with
        | Some name =>
            (fun e => mkFatInfo (fe_kind e) (fe_size e)) <$> find_root (fun e => str_eqb (fe_name e) name) (root_list state)
        | None => None
        end
  | _, _ => None
  end.

Definition fat_node_kind (s : option FatState) (path : list Z) : option FatNodeKind :=
  match s, normalize_fat_path path with
  | Some state, Some normalized =>
      if str_eqb normalized FAT_PATH_ROOT then Some FDirectory
      else
        match strip_prefix normalized (lit "/boot/") with
        | Some name => fe_kind <$> find_root (fun e => str_eqb (fe_name e) name) (root_list state)
        | None => None
        end
  | _, _ => None
  end.

Definition fat_read (s : option FatState) (path : list Z) : option (list Z) :=
  match s, normalize_fat_path path with
  | Some state, Some normalized =>
      if str_eqb normalized FAT_PATH_ROOT then Some (render_root_entries (root_list state)) else None
  | _, _ => None
  end.

Definition to_ascii_lower (b : Z) : Z := if between 65 b 90 then b + 32 else b.
Definition eq_ignore_ascii_case (a b : list Z) : bool := str_eqb (to_ascii_lower <$> a) (to_ascii_lower <$> b).

(** The [for sec in 0..sectors_per_cluster] loop; the state is the data and the sector buffer. *)
Definition file_sector_step (p : PartitionInfo) (bpb : BpbLayout) (size lba sec : Z) : M (list Z * list Z) unit (Z + unit) :=
  if negb (sec <? sectors_per_cluster bpb) then ret (inr tt) else
  let! at_ := lift (add U64 lba sec) in
  do! read_sector (part_device p) at_ in
  let! data := gets fst in
  let remaining := sat_sub size (len data) in
  if remaining =? 0 then ret (inr tt) else
  let to_copy := Z.min remaining SECTOR_BYTES in
  let! sector_buf := gets snd in
  let! chunk := lift (slice sector_buf 0 to_copy) in
  do! modify (fun s => (fst s ++ chunk, snd s)) in
  ret (inl (sec + 1)).

Definition valid_cluster (cluster : Z) : bool := (2 <=? cluster) && (cluster <? 0x0FFFFFF8).

Definition file_cluster_step (p : PartitionInfo) (bpb : BpbLayout) (size cluster : Z) : M (list Z * list Z) unit (Z + unit) :=
  if negb (valid_cluster cluster) then ret (inr tt) else
  let! lba := lift (cluster_lba p bpb cluster) in
  do! loop (S (Z.to_nat (sectors_per_cluster bpb))) (file_sector_step p bpb size lba) 0 in
  let! data := gets fst in
  if size <=? len data then ret (inr tt) else
  match fat_type bpb with
  | Fat32 => let! next := lift (read_fat32_entry p bpb cluster) in ret (inl next)
  | Fat16 => throw tt
  end.

(** The entry a path names, for reading its bytes. *)
Definition file_entry (state : FatState) (path : list Z) : option FatRootEntry :=
  match normalize_fat_path path with
  | None => None
  | Some normalized =>
      if str_eqb normalized FAT_PATH_ROOT then None else
      match strip_prefix normalized FAT_PATH_ROOT with
      | None => None
      | Some rest =>
          let file_name := default normalized (strip_prefix rest [SLASH]) in
          find_root (fun e => eq_ignore_ascii_case (fe_name e) file_name) (root_list state)
      end
  end.

(** Every cluster adds a sector or completes the file: [size / 512 + 2] iterations are enough. *)
Definition fat_read_file_bytes (s : option FatState) (path : list Z) : outcome unit (list Z) :=
  match s with
  | None => Err tt
  | Some state =>
      match file_entry state path with
      | None => Err tt
      | Some e =>
          if bool_decide (fe_kind e = FDirectory) || (fe_size e =? 0) || (fe_cluster e <? 2) then Err tt else
          collected (loop (S (S (Z.to_nat (fe_size e / SECTOR_BYTES))))
            (file_cluster_step (fat_partition state) (fat_bpb state) (fe_size e)) (fe_cluster e) ([], ZERO_SECTOR))
      end
  end.
End volume.

(** * Facts: reads within a sector *)
Definition sector_ok (s : list Z) : Prop := len s = SECTOR_BYTES /\ byte_list s.

Lemma sector_image s : sector_ok s -> image_ok s.
Proof. intros [Hl Hb]. split; [done|]. rewrite Hl. reflexivity. Qed.

Lemma idx_then_drop {E} (l : list Z) i : 0 <= i < len l ->
  exists x, idx (E:=E) l i = Ok x /\ drop (Z.to_nat i) l = x :: drop (Z.to_nat (i + 1)) l.
Proof.
  intros Hi. destruct (idx_total (E:=E) l i Hi) as (x & Hx & Hl). exists x. split; [done|].
  replace (Z.to_nat (i + 1)) with (S (Z.to_nat i)) by lia. by apply drop_S.
Qed.

Lemma fat_read_u16_ok s off : image_ok s -> 0 <= off -> off + 2 <= len s -> fat_read_u16_le s off = Ok (field s off 2).
Proof.
  intros [_ Hlim] Ho Hl. unfold fat_read_u16_le, field.
  destruct (idx_then_drop (E:=unit) s off ltac:(lia)) as (a & -> & Ha). cbn [obind]. rewrite add_ok by lia. cbn [obind].
  destruct (idx_then_drop (E:=unit) s (off + 1) ltac:(lia)) as (b & -> & Hb). cbn [obind]. by rewrite Ha, Hb.
Qed.

Lemma fat_read_u32_ok s off : image_ok s -> 0 <= off -> off + 4 <= len s -> fat_read_u32_le s off = Ok (field s off 4).
Proof.
  intros [_ Hlim] Ho Hl. unfold fat_read_u32_le, field.
  destruct (idx_then_drop (E:=unit) s off ltac:(lia)) as (a & -> & Ha). cbn [obind]. rewrite add_ok by lia. cbn [obind].
  destruct (idx_then_drop (E:=unit) s (off + 1) ltac:(lia)) as (b & -> & Hb). cbn [obind]. rewrite add_ok by lia. cbn [obind].
  destruct (idx_then_drop (E:=unit) s (off + 2) ltac:(lia)) as (c & -> & Hc). cbn [obind]. rewrite add_ok by lia. cbn [obind].
  destruct (idx_then_drop (E:=unit) s (off + 3) ltac:(lia)) as (d & -> & Hd). cbn [obind].
  replace (off + 1 + 1) with (off + 2) in Hb by lia. replace (off + 2 + 1) with (off + 3) in Hc by lia.
  by rewrite Ha, Hb, Hc, Hd.
Qed.

Lemma fat_field_range s off n k : sector_ok s -> 0 <= off -> off + n <= SECTOR_BYTES -> 0 <= n -> k = 256 ^ n ->
  0 <= field s off n < k.
Proof. intros Hs Ho Hl Hn Hk. apply (field_range s off n k (sector_image s Hs)); try done. by rewrite (proj1 Hs). Qed.

Lemma field_one s off : 0 <= off < len s -> idx (E:=unit) s off = Ok (field s off 1).
Proof.
  intros Ho. destruct (idx_then_drop (E:=unit) s off Ho) as (a & -> & Ha). unfold field. rewrite Ha.
  change (Z.to_nat 1) with 1%nat. rewrite firstn_cons, firstn_O. cbn [le_val]. f_equal. lia.
Qed.

(** ** The parameter block *)

(** The geometry a boot sector declares. *)
Definition geo_total (s : list Z) : Z := if field s 19 2 =? 0 then field s 32 4 else field s 19 2.
Definition geo_fat (s : list Z) : Z := if field s 22 2 =? 0 then field s 36 4 else field s 22 2.
Definition geo_root (s : list Z) : Z := (field s 17 2 * 32 + 511) / 512.
Definition geo_first_data (s : list Z) : Z := field s 14 2 + field s 16 1 * geo_fat s + geo_root s.
Definition geo_clusters (s : list Z) : Z := (geo_total s - geo_first_data s) / field s 13 1.

Definition geometry_ok (s : list Z) : Prop :=
  field s 11 2 = 512 /\ field s 13 1 <> 0 /\ field s 14 2 <> 0 /\ field s 16 1 <> 0 /\
  geo_total s <> 0 /\ geo_fat s <> 0 /\ geo_first_data s < geo_total s /\ 4085 <= geo_clusters s /\
  (65525 <= geo_clusters s -> 2 <= field s 44 4).

#[export] Instance geometry_ok_dec s : Decision (geometry_ok s).
Proof. unfold geometry_ok. apply _. Defined.

Definition geo_bpb (s : list Z) : BpbLayout :=
  mkBpb (if geo_clusters s <? 65525 then Fat16 else Fat32) 512 (field s 13 1) (field s 14 2) (field s 16 1) (geo_fat s)
    (field s 17 2) (geo_root s) (field s 14 2) (field s 14 2 + field s 16 1 * geo_fat s) (geo_first_data s) (field s 44 4).

(** The [u32] sum that [parse_bpb] computes without a check. *)
Definition no_overflow (s : list Z) : Prop := geo_first_data s < U32.

Lemma geo_ranges s : sector_ok s ->
  0 <= field s 13 1 < 256 /\ 0 <= field s 14 2 < U16 /\ 0 <= field s 16 1 < 256 /\ 0 <= geo_fat s < U32 /\
  0 <= geo_total s < U32 /\ 0 <= field s 17 2 < U16 /\ 0 <= geo_root s <= 4096 /\ 0 <= field s 44 4 < U32.
Proof.
  intros Hs.
  pose proof (fat_field_range s 13 1 256 Hs ltac:(lia) ltac:(unfold SECTOR_BYTES; lia) ltac:(lia) eq_refl).
  pose proof (fat_field_range s 14 2 U16 Hs ltac:(lia) ltac:(unfold SECTOR_BYTES; lia) ltac:(lia) eq_refl).
  pose proof (fat_field_range s 16 1 256 Hs ltac:(lia) ltac:(unfold SECTOR_BYTES; lia) ltac:(lia) eq_refl).
  pose proof (fat_field_range s 17 2 U16 Hs ltac:(lia) ltac:(unfold SECTOR_BYTES; lia) ltac:(lia) eq_refl) as H17.
  pose proof (fat_field_range s 19 2 U16 Hs ltac:(lia) ltac:(unfold SECTOR_BYTES; lia) ltac:(lia) eq_refl).
  pose proof (fat_field_range s 22 2 U16 Hs ltac:(lia) ltac:(unfold SECTOR_BYTES; lia) ltac:(lia) eq_refl).
  pose proof (fat_field_range s 32 4 U32 Hs ltac:(lia) ltac:(unfold SECTOR_BYTES; lia) ltac:(lia) eq_refl).
  pose proof (fat_field_range s 36 4 U32 Hs ltac:(lia) ltac:(unfold SECTOR_BYTES; lia) ltac:(lia) eq_refl).
  pose proof (fat_field_range s 44 4 U32 Hs ltac:(lia) ltac:(unfold SECTOR_BYTES; lia) ltac:(lia) eq_refl).
  assert (0 <= geo_root s <= 4096).
  { unfold geo_root. pose proof (Z.div_pos (field s 17 2 * 32 + 511) 512 ltac:(lia) ltac:(lia)).
    pose proof (Z.div_lt_upper_bound (field s 17 2 * 32 + 511) 512 4097 ltac:(lia) ltac:(lia)). lia. }
  unfold geo_total, geo_fat. repeat split; try lia; bdestruct_if; lia.
Qed.

(** With no overflow, the parser accepts exactly the sound geometries. *)
Lemma parse_bpb_run s : sector_ok s -> no_overflow s ->
  (geometry_ok s -> parse_bpb s = Ok (geo_bpb s)) /\ (~ geometry_ok s -> parse_bpb s = Err tt).
Proof.
  intros Hs Hn. pose proof (geo_ranges s Hs) as (H13 & H14 & H16 & Hfat & Htot & H17 & Hroot & H44).
  pose proof (sector_image s Hs) as Hi. pose proof (proj1 Hs) as Hl. unfold SECTOR_BYTES in Hl.
  assert (Hmul : 0 <= field s 16 1 * geo_fat s) by (apply Z.mul_nonneg_nonneg; lia). unfold no_overflow, geo_first_data in Hn.
  unfold parse_bpb. rewrite !fat_read_u16_ok, !fat_read_u32_ok, !field_one by (done || lia). cbn [obind].
  unfold geometry_ok, SECTOR_BYTES.
  destruct (Z.eqb_spec (field s 11 2) 512) as [H11|]; cbn [negb]; [rewrite H11|split; intros; [lia|done]].
  destruct (Z.eqb_spec (field s 13 1) 0); [split; intros; [lia|done]|].
  destruct (Z.eqb_spec (field s 14 2) 0); [split; intros; [lia|done]|].
  destruct (Z.eqb_spec (field s 16 1) 0); [split; intros; [lia|done]|].
  replace (if negb (field s 19 2 =? 0) then field s 19 2 else field s 32 4) with (geo_total s)
    by (unfold geo_total; by destruct (field s 19 2 =? 0)).
  replace (if negb (field s 22 2 =? 0) then field s 22 2 else field s 36 4) with (geo_fat s)
    by (unfold geo_fat; by destruct (field s 22 2 =? 0)).
  destruct (Z.eqb_spec (geo_total s) 0); [split; intros; [lia|done]|].
  destruct (Z.eqb_spec (geo_fat s) 0); [split; intros; [lia|done]|].
  rewrite mul_ok by lia. cbn [obind]. rewrite sub_ok by lia. cbn [obind]. rewrite add_ok by lia. cbn [obind].
  replace (512 - 1) with 511 by lia. fold (geo_root s).
  rewrite mul_ok by lia. cbn [obind]. rewrite add_ok by lia. cbn [obind]. rewrite add_ok by lia. cbn [obind].
  fold (geo_first_data s). destruct (Z.leb_spec (geo_total s) (geo_first_data s)); [split; intros; [lia|done]|].
  unfold sat_sub. rewrite Z.max_l by lia. fold (geo_clusters s). unfold geo_bpb.
  destruct (Z.ltb_spec (geo_clusters s) 4085); [split; intros; [lia|done]|].
  destruct (Z.ltb_spec (geo_clusters s) 65525).
  - rewrite bool_decide_eq_false_2 by done. split; [done|]. intros Hno. exfalso. apply Hno. repeat split; (done || lia).
  - rewrite bool_decide_eq_true_2 by done. cbn [andb]. destruct (Z.ltb_spec (field s 44 4) 2); [split; intros; [lia|done]|].
    split; [done|]. intros Hno. exfalso. apply Hno. repeat split; (done || lia).
Qed.

(** ** Directory sectors *)

(** The entry at [off], when it is a file or a directory. *)
Definition dir_entry (s : list Z) (off : Z) : option FatRootEntry :=
  let attrs := field s (off + 11) 1 in
  if (field s off 1 =? 0xE5) || (attrs =? 0x0F) || negb (Z.land attrs 0x08 =? 0) then None else
  match parse_short_name (take 11 (drop (Z.to_nat off) s)) with
  | None => None
  | Some name =>
      if str_eqb name (lit ".") || str_eqb name (lit "..") then None else
      Some (mkRootEntry name (if negb (Z.land attrs 0x10 =? 0) then FDirectory else FFile) (field s (off + 28) 4)
        (Z.lor (Z.shiftl (field s (off + 20) 2) 16) (field s (off + 26) 2)))
  end.

(** [k] entries from [off] on, up to the terminator; whether there is one. *)
Fixpoint dir_scan (s : list Z) (k : nat) (off : Z) : list FatRootEntry * bool :=
  match k with
  | O => ([], false)
  | S k' =>
      if field s off 1 =? 0 then ([], true)
      else let r := dir_scan s k' (off + 32) in (option_list (dir_entry s off) ++ fst r, snd r)
  end.

Lemma directory_step_run s off out : sector_ok s -> 0 <= off -> off + 32 <= SECTOR_BYTES ->
  directory_step s off out =
    if field s off 1 =? 0 then (Ok (inr true), out) else (Ok (inl (off + 32)), out ++ option_list (dir_entry s off)).
Proof.
  intros Hs Ho Hle. pose proof (sector_image s Hs) as Hi. pose proof (proj1 Hs) as Hl. unfold SECTOR_BYTES in *.
  unfold directory_step, DIRECTORY_ENTRY_BYTES. rewrite !add_ok by lia. unfold lift, ret, bind at 1.
  rewrite (proj2 (Z.leb_le _ _)) by lia. cbn [negb]. rewrite !field_one by lia. unfold bind at 1.
  destruct (field s off 1 =? 0); [done|]. unfold dir_entry.
  destruct (field s off 1 =? 0xE5); cbn [orb]; [simpl; by rewrite app_nil_r|]. unfold bind at 1 2. rewrite field_one by lia.
  destruct ((field s (off + 11) 1 =? 15) || _) eqn:Ha; [simpl; by rewrite app_nil_r|].
  rewrite slice_ok by lia. unfold bind at 1. replace (Z.to_nat (off + 11 - off)) with 11%nat by lia.
  destruct (parse_short_name _) as [name|]; [|simpl; by rewrite app_nil_r].
  destruct (str_eqb name _ || _); [simpl; by rewrite app_nil_r|].
  run. by rewrite fat_read_u32_ok, !fat_read_u16_ok by (done || lia).
Qed.

Lemma directory_loop_run s k : forall off out fuel, sector_ok s -> 0 <= off -> off + 32 * Z.of_nat k = SECTOR_BYTES ->
  (k < fuel)%nat -> loop fuel (directory_step s) off out = (Ok (snd (dir_scan s k off)), out ++ fst (dir_scan s k off)).
Proof.
  induction k as [|k IH]; intros off out [|fuel] Hs Ho Hk Hf; try lia; cbn [loop dir_scan]; unfold bind.
  - unfold directory_step, DIRECTORY_ENTRY_BYTES, SECTOR_BYTES in *. rewrite add_ok by lia. unfold lift, bind at 1.
    rewrite (proj1 Hs). unfold SECTOR_BYTES. rewrite (proj2 (Z.leb_gt _ _)) by lia. cbn [negb fst snd]. unfold ret. by rewrite app_nil_r.
  - rewrite directory_step_run by (done || lia). destruct (field s off 1 =? 0); cbn [fst snd]; [unfold ret; by rewrite app_nil_r|].
    rewrite IH by (done || lia). by rewrite <- app_assoc.
Qed.

Lemma parse_directory_run s out : sector_ok s ->
  parse_directory_sector s out = (Ok (snd (dir_scan s 16 0)), out ++ fst (dir_scan s 16 0)).
Proof. intros Hs. apply directory_loop_run; (done || lia). Qed.

Definition entry_wf (e : FatRootEntry) : Prop := 0 <= fe_size e < U32 /\ 0 <= fe_cluster e < U32.

Lemma testbit_small lo k n : 0 <= lo < 2 ^ k -> k <= n -> Z.testbit lo n = false.
Proof.
  intros Hl Hn. destruct (Z.eq_dec lo 0) as [->|]; [apply Z.bits_0|]. apply Z.bits_above_log2; [lia|].
  assert (Z.log2 lo < k) by (apply Z.log2_lt_pow2; lia). lia.
Qed.

Lemma cluster_word hi lo : 0 <= hi < U16 -> 0 <= lo < U16 -> Z.lor (Z.shiftl hi 16) lo = hi * 65536 + lo.
Proof.
  intros Hh Hl. rewrite Z.shiftl_mul_pow2 by lia. change 65536 with (2 ^ 16).
  assert (Hz : Z.land (hi * 2 ^ 16) lo = 0).
  { apply Z.bits_inj'. intros n Hn. rewrite Z.land_spec, Z.bits_0. destruct (Z.ltb_spec n 16).
    - by rewrite (Z.mul_pow2_bits_low hi 16 n) by lia.
    - rewrite (testbit_small lo 16 n) by lia. apply andb_false_r. }
  by rewrite Z.add_nocarry_lxor, Z.lxor_lor.
Qed.

Lemma dir_entry_wf s off e : sector_ok s -> 0 <= off -> off + 32 <= SECTOR_BYTES -> dir_entry s off = Some e -> entry_wf e.
Proof.
  unfold SECTOR_BYTES. intros Hs Ho Hl. unfold dir_entry. repeat case_match; try done; intros [= <-];
    unfold entry_wf; cbn [fe_size fe_cluster];
    pose proof (fat_field_range s (off + 28) 4 U32 Hs ltac:(lia) ltac:(unfold SECTOR_BYTES; lia) ltac:(lia) eq_refl);
    pose proof (fat_field_range s (off + 20) 2 U16 Hs ltac:(lia) ltac:(unfold SECTOR_BYTES; lia) ltac:(lia) eq_refl);
    pose proof (fat_field_range s (off + 26) 2 U16 Hs ltac:(lia) ltac:(unfold SECTOR_BYTES; lia) ltac:(lia) eq_refl);
    rewrite cluster_word by lia; lia.
Qed.

Lemma dir_scan_wf s k : forall off, sector_ok s -> 0 <= off -> off + 32 * Z.of_nat k <= SECTOR_BYTES -> Forall entry_wf (fst (dir_scan s k off)).
Proof.
  induction k as [|k IH]; intros off Hs Ho Hk; [constructor|]. cbn [dir_scan].
  destruct (field s off 1 =? 0); cbn [fst]; [constructor|]. apply Forall_app. split; [|apply IH; (done || lia)].
  destruct (dir_entry s off) as [e|] eqn:He; cbn [option_list]; [|constructor]. apply Forall_singleton.
  apply (dir_entry_wf s off e); (done || lia).
Qed.

Lemma dir_scan_len s k : forall off, len (fst (dir_scan s k off)) <= Z.of_nat k.
Proof.
  induction k as [|k IH]; intros off; cbn [dir_scan]; [done|]. destruct (field s off 1 =? 0); cbn [fst]; [rewrite len_nil; lia|].
  rewrite len_app. specialize (IH (off + 32)).
  assert (len (option_list (dir_entry s off)) <= 1) by (by destruct (dir_entry s off)). lia.
Qed.

(** ** Mounting a volume *)
Definition bpb_wf (b : BpbLayout) : Prop :=
  1 <= sectors_per_cluster b < 256 /\ 0 <= first_data_sector_offset b < U32 /\ 0 <= fat_start_lba_offset b < U32 /\
  0 <= root_dir_start_lba_offset b < U32 /\ 0 <= root_dir_sectors b <= 4096 /\ 0 <= root_dir_first_cluster b < U32.

Lemma geo_bpb_wf s : sector_ok s -> no_overflow s -> geometry_ok s -> bpb_wf (geo_bpb s).
Proof.
  intros Hs Hn (? & ? & ? & ? & ? & ? & ? & ?). unfold no_overflow, geo_first_data in Hn.
  pose proof (geo_ranges s Hs) as (? & ? & ? & ? & ? & ? & ? & ?).
  assert (0 <= field s 16 1 * geo_fat s) by (apply Z.mul_nonneg_nonneg; lia).
  unfold bpb_wf, geo_bpb, geo_first_data. cbn. lia.
Qed.

Definition partition_wf (p : PartitionInfo) : Prop := 0 <= start_lba p < SLICE_LIMIT.

Section volume_facts.
Context {B : Block} {L : BlockLaws B}.
Implicit Types (p : PartitionInfo) (bpb : BpbLayout).

Lemma zero_sector_len : len ZERO_SECTOR = SECTOR_BYTES.
Proof. reflexivity. Qed.

(** A step that reads a sector into the buffer and parses it. *)
Lemma read_parse_run dev lba out buf : len buf = SECTOR_BYTES ->
  match bind (read_sector dev lba) (fun _ => parse_buffer) (out, buf) with
  | (Ok _, (out', buf')) => len buf' = SECTOR_BYTES /\ exists es, out' = out ++ es /\ Forall entry_wf es /\ len es <= 16
  | (Err _, _) => True
  | _ => False
  end.
Proof.
  intros Hb. unfold bind, read_sector. cbn [fst snd]. destruct (blk_read dev lba 1 buf) as [s|] eqn:Hr; [|done].
  destruct (blk_read_fills dev lba buf s Hb Hr) as [Hl Hbytes]. unfold parse_buffer. cbn [fst snd].
  rewrite parse_directory_run by done. split; [done|]. eexists. split; [reflexivity|].
  split; [apply dir_scan_wf; (done || unfold SECTOR_BYTES; lia)|]. apply (dir_scan_len s 16 0).
Qed.

(** What the loops keep: [out] holds well-formed entries, at most [bound] of them. *)
Definition collecting (bound : Z) (s : list FatRootEntry * list Z) : Prop :=
  len (snd s) = SECTOR_BYTES /\ Forall entry_wf (fst s) /\ len (fst s) <= bound.

Definition collected_ok {A} (bound : Z) (r : outcome unit A * (list FatRootEntry * list Z)) : Prop :=
  match r with
  | (Ok _, s) => collecting bound s
  | (Err _, _) => True
  | _ => False
  end.

Lemma read_parse_collecting bound dev lba s : collecting bound s ->
  collected_ok (bound + 16) (bind (read_sector dev lba) (fun _ => parse_buffer) s).
Proof.
  destruct s as [out buf]. intros (Hb & Hwf & Hlen). cbn [fst snd] in *. pose proof (read_parse_run dev lba out buf Hb) as Hr.
  unfold collected_ok. destruct (bind _ _ _) as [[b|e| |] [out' buf']]; try done.
  destruct Hr as (Hb' & es & -> & Hes & Hle). unfold collecting. cbn [fst snd]. rewrite len_app, Forall_app. split; [done|]. split; [done|lia].
Qed.

Lemma collecting_mono b b' s : b <= b' -> collecting b s -> collecting b' s.
Proof. intros Hb (? & ? & ?). repeat split; [done..|lia]. Qed.

Lemma collecting_start : collecting 0 ([], ZERO_SECTOR).
Proof. split; [exact zero_sector_len|]. split; [constructor|reflexivity]. Qed.

Lemma read_parse_assoc {A} dev lba (k : bool -> M (list FatRootEntry * list Z) unit A) s :
  bind (read_sector dev lba) (fun _ => bind parse_buffer k) s = bind (bind (read_sector dev lba) (fun _ => parse_buffer)) k s.
Proof. unfold bind. by destruct (read_sector dev lba s) as [[]]. Qed.

Lemma fat16_root_run p bpb : partition_wf p -> bpb_wf bpb ->
  match read_fat16_root_entries p bpb with
  | Ok es => Forall entry_wf es /\ len es <= 16 * 4096
  | Err _ => True
  | _ => False
  end.
Proof.
  intros Hp (Hspc & Hfd & Hfs & Hrs & Hrd & Hrc). unfold partition_wf in Hp. unfold read_fat16_root_entries.
  rewrite add_ok by lia. cbn [obind]. set (start := start_lba p + _).
  assert (H : collected_ok (16 * 4096) (loop (S (Z.to_nat (root_dir_sectors bpb))) (fat16_root_step p bpb start) 0 ([], ZERO_SECTOR))).
  { apply (loop_rule (fat16_root_step p bpb start)
      (fun off s => 0 <= off <= root_dir_sectors bpb /\ collecting (16 * off) s)
      (collected_ok (16 * 4096)) (fun off => Z.to_nat (root_dir_sectors bpb - off))); [|lia|].
    - intros off s [Hoff Hs]. unfold fat16_root_step. destruct (Z.ltb_spec off (root_dir_sectors bpb)); cbn [negb].
      2: { unfold ret. cbn [collected_ok]. eapply collecting_mono; [|exact Hs]. lia. }
      rewrite add_ok by lia. unfold lift, bind at 1. rewrite read_parse_assoc. unfold bind at 1.
      pose proof (read_parse_collecting (16 * off) (part_device p) (start + off) s Hs) as Hr. unfold collected_ok in Hr.
      destruct (bind (read_sector _ _) _ s) as [[[]|e| |] s']; try done.
      + unfold ret. cbn [collected_ok]. eapply collecting_mono; [|exact Hr]. lia.
      + rewrite add_ok by lia. unfold bind, ret. split; [|lia]. split; [lia|]. eapply collecting_mono; [|exact Hr]. lia.
    - split; [lia|exact collecting_start]. }
  destruct (loop _ _ _ _) as [[u|e| |] s]; try done. destruct H as (_ & Hwf & Hl). done.
Qed.

(** The entry of cluster [c] in the first allocation table on the disk: the low 28 bits of the
    little-endian word at byte [4 c] of the table; [None] if its sector cannot be read. *)
Definition disk_entry (p : PartitionInfo) (bpb : BpbLayout) (c : Z) : option Z :=
  (fun s => field s (4 * c mod 512) 4 mod 2 ^ 28) <$> blk_read (part_device p) (start_lba p + fat_start_lba_offset bpb + 4 * c / 512) 1 ZERO_SECTOR.

Lemma fat32_entry_disk p bpb c : partition_wf p -> bpb_wf bpb -> 0 <= c < U32 -> read_fat32_entry p bpb c = ok_or tt (disk_entry p bpb c).
Proof.
  intros Hp (_ & _ & Hfs & _) Hc. unfold partition_wf in Hp. unfold read_fat32_entry, disk_entry. rewrite mul_ok by lia. cbn [obind]. rewrite (Z.mul_comm c 4).
  assert (0 <= 4 * c / 512 <= 4 * c) by (split; [apply Z.div_pos; lia|apply Z.div_le_upper_bound; lia]).
  rewrite add_ok by lia. cbn [obind]. rewrite add_ok by lia. cbn [obind]. destruct (blk_read _ _ _ _) as [s|] eqn:Hr; [|done].
  destruct (blk_read_fills _ _ _ _ zero_sector_len Hr) as [Hl Hbytes].
  pose proof (Z.mod_pos_bound (4 * c) 512 ltac:(lia)) as Hm.
  assert (Hal : 4 * c mod 512 + 4 <= 512).
  { change 512 with (4 * 128). rewrite Z.mul_mod_distr_l by lia. pose proof (Z.mod_pos_bound c 128 ltac:(lia)). lia. }
  rewrite fat_read_u32_ok; [|by apply sector_image|lia|rewrite Hl; unfold SECTOR_BYTES; lia]. cbn [obind].
  change 0x0fffffff with (Z.ones 28). by rewrite Z.land_ones by lia.
Qed.

(** A FAT entry is a 28-bit cluster number. *)
Lemma fat32_entry_run p bpb c : partition_wf p -> bpb_wf bpb -> 0 <= c < U32 ->
  match read_fat32_entry p bpb c with
  | Ok n => disk_entry p bpb c = Some n /\ 0 <= n < 2 ^ 28
  | Err _ => disk_entry p bpb c = None
  | _ => False
  end.
Proof.
  intros Hp Hb Hc. rewrite fat32_entry_disk by done. destruct (disk_entry p bpb c) as [n|] eqn:Hn; [|done]. split; [done|].
  unfold disk_entry in Hn. apply fmap_Some in Hn as (s & _ & ->). apply Z.mod_pos_bound. lia.
Qed.

Lemma cluster_lba_run p bpb c : partition_wf p -> bpb_wf bpb -> 2 <= c < U32 ->
  cluster_lba p bpb c = Ok (start_lba p + first_data_sector_offset bpb + (c - 2) * sectors_per_cluster bpb).
Proof.
  intros Hp (Hspc & Hfd & _) Hc. unfold partition_wf in Hp. unfold cluster_lba.
  assert (0 <= (c - 2) * sectors_per_cluster bpb <= U32 * 256).
  { split; [apply Z.mul_nonneg_nonneg; lia|]. apply Z.mul_le_mono_nonneg; lia. }
  rewrite add_ok by lia. cbn [obind]. rewrite sub_ok by lia. cbn [obind]. rewrite mul_ok by lia. cbn [obind]. by rewrite add_ok by lia.
Qed.

Lemma root_sectors_run p bpb base lba s : bpb_wf bpb -> 0 <= lba < U64 - 256 -> collecting base s ->
  collected_ok (base + 16 * 256) (loop (S (Z.to_nat (sectors_per_cluster bpb))) (root_sector_step p bpb lba) 0 s).
Proof.
  intros (Hspc & _) Hlba Hs. apply (loop_rule (root_sector_step p bpb lba)
    (fun sec s => 0 <= sec <= sectors_per_cluster bpb /\ collecting (base + 16 * sec) s)
    (collected_ok (base + 16 * 256)) (fun sec => Z.to_nat (sectors_per_cluster bpb - sec))); [|lia|].
  - intros sec s' [Hsec Hs']. unfold root_sector_step. destruct (Z.ltb_spec sec (sectors_per_cluster bpb)); cbn [negb].
    2: { unfold ret. cbn [collected_ok]. eapply collecting_mono; [|exact Hs']. lia. }
    rewrite add_ok by lia. unfold lift, bind at 1. rewrite read_parse_assoc. unfold bind at 1.
    pose proof (read_parse_collecting _ (part_device p) (lba + sec) s' Hs') as Hr. unfold collected_ok in Hr.
    destruct (bind (read_sector _ _) _ s') as [[[]|e| |] s2]; try done.
    + unfold ret. cbn [collected_ok]. eapply collecting_mono; [|exact Hr]. lia.
    + rewrite add_ok by lia. unfold bind, ret. split; [|lia]. split; [lia|]. eapply collecting_mono; [|exact Hr]. lia.
  - split; [lia|]. eapply collecting_mono; [|exact Hs]. lia.
Qed.

Lemma fat32_root_run p bpb : partition_wf p -> bpb_wf bpb ->
  match read_fat32_root_entries p bpb with
  | Ok es => Forall entry_wf es /\ len es <= 16 * 256 * 1024
  | Err _ => True
  | _ => False
  end.
Proof.
  intros Hp Hb. unfold read_fat32_root_entries.
  assert (H : collected_ok (16 * 256 * 1024) (loop (S (Z.to_nat MAX_FAT32_ROOT_CHAIN_STEPS)) (fat32_root_step p bpb)
    (root_dir_first_cluster bpb, 0) ([], ZERO_SECTOR))).
  { apply (loop_rule (fat32_root_step p bpb)
      (fun l s => 0 <= fst l < U32 /\ 0 <= snd l <= MAX_FAT32_ROOT_CHAIN_STEPS /\ collecting (16 * 256 * snd l) s)
      (collected_ok (16 * 256 * 1024)) (fun l => Z.to_nat (MAX_FAT32_ROOT_CHAIN_STEPS - snd l))).
    - intros [c v] s (Hc & Hv & Hs). cbn [fst snd] in *. unfold fat32_root_step, MAX_FAT32_ROOT_CHAIN_STEPS in *.
      assert (Hmono : collecting (16 * 256 * 1024) s) by (eapply collecting_mono; [|exact Hs]; lia).
      destruct (Z.ltb_spec v 1024); cbn [negb]; [|done]. destruct (Z.ltb_spec c 2); [done|].
      rewrite cluster_lba_run by (done || lia). unfold lift, bind at 1. unfold bind at 1.
      pose proof Hb as (Hspc & Hfd & _). unfold partition_wf in Hp.
      assert (0 <= (c - 2) * sectors_per_cluster bpb <= U32 * 256)
        by (split; [apply Z.mul_nonneg_nonneg; lia|apply Z.mul_le_mono_nonneg; lia]).
      set (lba := start_lba p + _ + _).
      pose proof (root_sectors_run p bpb _ lba s Hb ltac:(lia) Hs) as Hr. unfold collected_ok in Hr.
      destruct (loop _ (root_sector_step p bpb lba) 0 s) as [[ended|e| |] s']; try done.
      assert (Hmono' : collecting (16 * 256 * 1024) s') by (eapply collecting_mono; [|exact Hr]; lia).
      destruct ended; [done|]. unfold bind at 1. pose proof (fat32_entry_run p bpb c Hp Hb ltac:(lia)) as Hn.
      destruct (read_fat32_entry p bpb c) as [n|e| |]; try done. change (2 ^ 28) with 268435456 in Hn.
      bdestruct_if; [done|]. rewrite add_ok by lia. unfold bind, ret. cbn [fst snd]. split; [|lia]. split; [lia|]. split; [lia|].
      eapply collecting_mono; [|exact Hr]. lia.
    - cbn [snd]. unfold MAX_FAT32_ROOT_CHAIN_STEPS. lia.
    - destruct Hb as (_ & _ & _ & _ & _ & Hc). cbn [fst snd]. split; [done|]. split; [done|exact collecting_start]. }
  destruct (loop _ _ _ _) as [[u|e| |] s]; try done. destruct H as (_ & Hwf & Hl). done.
Qed.

(** A mounted volume. *)
Definition fat_wf (st : FatState) : Prop :=
  partition_wf (fat_partition st) /\ bpb_wf (fat_bpb st) /\ Forall entry_wf (root_list st).

(** The volume is the one partition [p]'s boot sector describes. *)
Definition mounted_from (p : PartitionInfo) (st : FatState) : Prop :=
  fat_partition st = p /\ exists boot, blk_read (part_device p) (start_lba p) 1 ZERO_SECTOR = Some boot /\
    field boot 510 1 = 0x55 /\ field boot 511 1 = 0xAA /\ geometry_ok boot /\ fat_bpb st = geo_bpb boot /\
    fs_root_entry_count (fat_sum st) = len (root_list st) /\
    fs_directory_count (fat_sum st) = 1 + len (filter (fun e => fe_kind e = FDirectory) (root_list st)).

Lemma filter_dirs (es : list FatRootEntry) :
  filter (fun e => bool_decide (fe_kind e = FDirectory) = true) es = filter (fun e => fe_kind e = FDirectory) es.
Proof. apply list_filter_iff. intros e. apply bool_decide_eq_true. Qed.

Lemma root_entries_run p bpb : partition_wf p -> bpb_wf bpb ->
  match (match fat_type bpb with Fat16 => read_fat16_root_entries p bpb | Fat32 => read_fat32_root_entries p bpb end) with
  | Ok es => Forall entry_wf es /\ len es <= 16 * 256 * 1024
  | Err _ => True
  | _ => False
  end.
Proof.
  intros Hp Hb. destruct (fat_type bpb); [|by apply fat32_root_run].
  pose proof (fat16_root_run p bpb Hp Hb). destruct (read_fat16_root_entries p bpb); try done. split; [tauto|lia].
Qed.

Lemma try_mount_run p : partition_wf p ->
  (forall boot, blk_read (part_device p) (start_lba p) 1 ZERO_SECTOR = Some boot -> no_overflow boot) ->
  match try_mount_partition p with
  | Ok st => fat_wf st /\ mounted_from p st
  | Err _ => True
  | _ => False
  end.
Proof.
  intros Hp Hgeo. unfold try_mount_partition. destruct (blk_read _ _ _ _) as [boot|] eqn:Hr; [|done].
  pose proof (blk_read_fills _ _ _ _ zero_sector_len Hr) as Hs. specialize (Hgeo boot eq_refl).
  assert (Hl : len boot = 512) by apply Hs. rewrite !field_one by lia. cbn [obind].
  destruct (Z.eqb_spec (field boot 510 1) 0x55); cbn [negb]; [|done].
  destruct (Z.eqb_spec (field boot 511 1) 0xAA); cbn [negb]; [|done].
  destruct (parse_bpb_run boot Hs Hgeo) as [Hyes Hno].
  destruct (decide (geometry_ok boot)) as [Hg|Hg]; [|by rewrite (Hno Hg)]. rewrite (Hyes Hg). cbn [obind].
  pose proof (geo_bpb_wf boot Hs Hgeo Hg) as Hb. pose proof (root_entries_run p (geo_bpb boot) Hp Hb) as Hes.
  destruct (match fat_type _ with Fat16 => _ | Fat32 => _ end) as [es|err| |]; try done. cbn [obind]. destruct Hes as [Hes Hlen].
  rewrite filter_dirs. pose proof (length_filter (fun e => fe_kind e = FDirectory) es) as Hf.
  rewrite add_ok by (unfold len in *; lia). cbn [obind]. split; [done|]. split; [done|]. exists boot. cbn. tauto.
Qed.

Definition not_mountable (i : Z) : Prop := forall p, blk_partition i = Some p -> try_mount_partition p = Err tt.

(** What [fat_initialize] does from an empty slot. *)
Definition mount_post (r : outcome FatError FatSummary * option FatState) : Prop :=
  match r with
  | (Ok sum, Some st) => fat_wf st /\ sum = fat_sum st /\
      exists i p, 0 <= i < blk_partition_count /\ blk_partition i = Some p /\ mounted_from p st /\
        forall j, 0 <= j < i -> not_mountable j
  | (Err e, None) => e = NoFatPartition /\ forall j, 0 <= j < blk_partition_count -> not_mountable j
  | _ => False
  end.

Lemma mount_loop_run :
  (forall i p boot, blk_partition i = Some p -> blk_read (part_device p) (start_lba p) 1 ZERO_SECTOR = Some boot -> no_overflow boot) ->
  mount_post (loop (S (Z.to_nat blk_partition_count)) mount_step 0 None).
Proof.
  intros Hgeo. pose proof blk_partition_bound as Hcount.
  apply (loop_rule mount_step (fun i s => s = None /\ 0 <= i <= blk_partition_count /\ forall j, 0 <= j < i -> not_mountable j)
    mount_post (fun i => Z.to_nat (blk_partition_count - i))); [|lia|].
  - intros i s (-> & Hi & Hj). unfold mount_step. destruct (Z.ltb_spec i blk_partition_count); cbn [negb].
    2: { unfold throw. split; [done|]. intros j Hj'. apply Hj. lia. }
    assert (Hnext : not_mountable i -> (forall j, 0 <= j < i + 1 -> not_mountable j)).
    { intros Hn j Hj'. destruct (Z.eq_dec j i) as [->|]; [done|]. apply Hj. lia. }
    rewrite add_ok by lia. unfold lift, bind, ret, put.
    destruct (blk_partition i) as [p|] eqn:Hpart.
    2: { split; [|lia]. split; [done|]. split; [lia|]. apply Hnext. intros p Hp. congruence. }
    pose proof (try_mount_run p (blk_partition_lba i p Hpart) (fun boot => Hgeo i p boot Hpart)) as Hm.
    destruct (try_mount_partition p) as [st|[]| |] eqn:Htry; try done.
    + destruct Hm as [Hwf Hm]. split; [done|]. split; [done|]. exists i, p. split; [lia|done].
    + split; [|lia]. split; [done|]. split; [lia|]. apply Hnext. intros p' Hp'. by replace p' with p by congruence.
  - split; [done|]. split; [lia|]. intros j Hj. lia.
Qed.

(** ** File contents

    The specification on the bytes of the disk: a walk along the allocation table, the
    sectors of its clusters in order, and the first bytes of the sectors a size needs. *)
Definition sector_is (p : PartitionInfo) (lba : Z) (s : list Z) : Prop := blk_read (part_device p) lba 1 ZERO_SECTOR = Some s.
Definition unreadable (p : PartitionInfo) (lba : Z) : Prop := blk_read (part_device p) lba 1 ZERO_SECTOR = None.

Definition cluster_base p bpb (c : Z) : Z :=
  start_lba p + first_data_sector_offset bpb + (c - 2) * sectors_per_cluster bpb.
Definition cluster_sectors p bpb (c : Z) : list Z := (fun i => cluster_base p bpb c + i) <$> seqZ 0 (sectors_per_cluster bpb).
Definition sectors_needed (size : Z) : nat := Z.to_nat ((size + 511) / 512).

(** The clusters [cs] lead from [c] to [last]: each is the number of a cluster and its entry is the next. *)
Inductive walk p bpb : Z -> list Z -> Z -> Prop :=
| walk_here c : walk p bpb c [] c
| walk_next c n cs last : valid_cluster c = true -> disk_entry p bpb c = Some n -> walk p bpb n cs last -> walk p bpb c (c :: cs) last.

(** The sectors that [size] bytes of the clusters need are readable, and [data] is what they hold. *)
Definition holds p bpb (cs : list Z) (size : Z) (data : list Z) : Prop :=
  exists contents, Forall2 (sector_is p) (take (sectors_needed size) (concat (cluster_sectors p bpb <$> cs))) contents /\ data = take (Z.to_nat size) (concat contents).

Lemma sectors_needed_less x : 0 < x -> sectors_needed x = S (sectors_needed (Z.max (x - 512) 0)).
Proof.
  intros Hx. unfold sectors_needed. destruct (decide (x <= 512)).
  - rewrite Z.max_r by lia. change ((0 + 511) / 512) with 0. replace ((x + 511) / 512) with 1; [done|]. apply Z.div_unique with (x - 1); lia.
  - rewrite Z.max_l by lia. replace (x + 511) with ((x - 512 + 511) + 1 * 512) by lia. rewrite Z.div_add by lia.
    assert (0 <= (x - 512 + 511) / 512) by (apply Z.div_pos; lia). lia.
Qed.
Lemma sectors_needed_minus x k : 0 <= k -> 512 * k <= x -> sectors_needed x = (Z.to_nat k + sectors_needed (x - 512 * k))%nat.
Proof.
  intros Hk Hx. unfold sectors_needed. replace (x + 511) with ((x - 512 * k + 511) + k * 512) by lia. rewrite Z.div_add by lia.
  assert (0 <= (x - 512 * k + 511) / 512) by (apply Z.div_pos; lia). lia.
Qed.

Lemma take_take_app {A} n (l r : list A) : take n (take n l ++ r) = take n (l ++ r).
Proof.
  destruct (decide (length l <= n)%nat) as [Hle|Hgt]; [by rewrite (take_ge l n) by lia|].
  rewrite (take_app_le l r n) by lia. rewrite take_app_le by (rewrite length_take; lia). by rewrite take_take, Nat.min_id.
Qed.

Lemma file_sectors_run p bpb size lba n : forall sec data buf fuel,
  sectors_per_cluster bpb < 256 -> 0 <= lba < U64 - 256 -> 0 <= sec -> sec + Z.of_nat n = sectors_per_cluster bpb -> (n < fuel)%nat ->
  len buf = SECTOR_BYTES -> len data <= size ->
  match loop fuel (file_sector_step p bpb size lba) sec (data, buf) with
  | (Ok _, (data', buf')) => len buf' = SECTOR_BYTES /\
      exists contents, Forall2 (sector_is p) (take (sectors_needed (size - len data)) ((fun i => lba + i) <$> seqZ sec (Z.of_nat n))) contents /\
        data' = take (Z.to_nat size) (data ++ concat contents)
  | (Err _, _) => exists i, sec <= i < sectors_per_cluster bpb /\ unreadable p (lba + i)
  | _ => False
  end.
Proof.
  induction n as [|n IH]; intros sec data buf [|fuel] Hspc Hlba Hsec Hn Hf Hb Hd; try lia; cbn [loop]; unfold bind at 1, file_sector_step at 1.
  - rewrite (proj2 (Z.ltb_ge _ _)) by lia. cbn [negb]. unfold ret. split; [done|]. exists [].
    rewrite seqZ_nil by lia. cbn [fmap list_fmap concat]. rewrite take_nil, app_nil_r. rewrite take_ge by len_solve. split; [constructor|done].
  - rewrite (proj2 (Z.ltb_lt _ _)) by lia. cbn [negb]. rewrite add_ok by lia. unfold lift, bind at 1. unfold bind at 1, read_sector. cbn [fst snd].
    assert (Hst : blk_read (part_device p) (lba + sec) 1 buf = blk_read (part_device p) (lba + sec) 1 ZERO_SECTOR)
      by (apply blk_read_stable; [done|exact zero_sector_len]).
    destruct (blk_read (part_device p) (lba + sec) 1 buf) as [s|] eqn:Hr; [|exists sec; split; [lia|done]].
    destruct (blk_read_fills _ _ _ _ Hb Hr) as [Hl _].
    rewrite seqZ_cons by lia. replace (Z.pred (Z.of_nat (S n))) with (Z.of_nat n) by lia. rewrite fmap_cons.
    unfold gets, bind at 1. cbn [fst snd]. unfold sat_sub. destruct (Z.eqb_spec (Z.max (size - len data) 0) 0) as [Hz|Hz].
    + unfold ret. split; [done|]. exists []. replace (size - len data) with 0 by lia. split; [constructor|]. cbn [concat]. rewrite app_nil_r. by rewrite take_ge by len_solve.
    + unfold bind at 1. unfold SECTOR_BYTES in *. rewrite slice_ok by (cbn [snd]; lia). unfold bind, modify, ret. cbn [fst snd].
      rewrite Z.sub_0_r, drop_0, Z.max_l by lia.
      assert (Htake : data ++ take (Z.to_nat (Z.min (size - len data) 512)) s = take (Z.to_nat size) (data ++ s)).
      { rewrite take_app. rewrite (take_ge data) by len_solve. f_equal. destruct (decide (size - len data <= 512)).
        - f_equal. len_solve.
        - rewrite !take_ge; [done|len_solve..]. }
      rewrite Htake. specialize (IH (sec + 1) (take (Z.to_nat size) (data ++ s)) s fuel Hspc Hlba ltac:(lia) ltac:(lia) ltac:(lia) Hl
        ltac:(len_solve)).
      destruct (loop fuel _ (sec + 1) _) as [[u|e| |] [data' buf']]; try done; [|by destruct IH as (i & Hi & Hu); exists i; split; [lia|]].
      destruct IH as (Hb' & contents & Hc & ->). split; [done|]. exists (s :: contents). split; [|cbn [concat]; by rewrite take_take_app, <- app_assoc].
      rewrite sectors_needed_less by lia. cbn [take]. constructor; [done|].
      replace (Z.max (size - len data - 512) 0) with (size - len (take (Z.to_nat size) (data ++ s))) by len_solve. exact Hc.
Qed.

Lemma contents_len p lbas contents : Forall2 (sector_is p) lbas contents -> len (concat contents) = 512 * len lbas.
Proof.
  induction 1 as [|lba s lbas contents Hs _ IH]; [done|]. cbn [concat]. rewrite len_app, IH, len_cons. destruct (blk_read_fills _ _ _ _ zero_sector_len Hs) as [-> _].
  unfold SECTOR_BYTES. lia.
Qed.

(** The result of reading [size] bytes from cluster [c] on, with [data] read before. *)
Definition file_post p bpb (size c : Z) (data : list Z) (r : outcome unit (list Z)) : Prop :=
  match r with
  | Ok data' => exists cs last rest, walk p bpb c cs last /\ data' = data ++ rest /\
      (valid_cluster last = false /\ holds p bpb cs (size - len data) rest \/
       valid_cluster last = true /\ holds p bpb (cs ++ [last]) (size - len data) rest /\ len data' = size)
  | Err _ => exists cs last, walk p bpb c cs last /\ valid_cluster last = true /\
      ((exists lba, lba ∈ cluster_sectors p bpb last /\ unreadable p lba) \/
       len data + 512 * sectors_per_cluster bpb < size /\ (disk_entry p bpb last = None \/ fat_type bpb = Fat16))
  | _ => False
  end.

Lemma holds_cons p bpb c cs x contents rest : 0 <= sectors_per_cluster bpb -> 512 * sectors_per_cluster bpb <= x ->
  Forall2 (sector_is p) (cluster_sectors p bpb c) contents -> holds p bpb cs (x - 512 * sectors_per_cluster bpb) rest -> holds p bpb (c :: cs) x (concat contents ++ rest).
Proof.
  intros Hspc Hx Hc (more & Hm & ->). exists (contents ++ more). cbn [fmap list_fmap concat].
  assert (Hl : length (cluster_sectors p bpb c) = Z.to_nat (sectors_per_cluster bpb)) by (unfold cluster_sectors; by rewrite length_fmap, length_seqZ).
  pose proof (contents_len _ _ _ Hc) as Hlen. unfold len in Hlen. rewrite Hl in Hlen. split.
  - rewrite (sectors_needed_minus x (sectors_per_cluster bpb)) by lia. rewrite take_app. rewrite take_ge by lia. rewrite Hl, Nat.add_sub_swap, Nat.sub_diag by lia. by apply Forall2_app.
  - rewrite concat_app, take_app. rewrite (take_ge (concat contents)) by lia. do 2 f_equal. lia.
Qed.

Lemma file_clusters_run p bpb size : partition_wf p -> bpb_wf bpb -> forall fuel c data buf,
  0 <= c < U32 -> len buf = SECTOR_BYTES -> len data < size -> (size - len data) / 512 < Z.of_nat fuel ->
  file_post p bpb size c data (collected (loop fuel (file_cluster_step p bpb size) c (data, buf))).
Proof.
  intros Hp Hb fuel. pose proof Hb as (Hspc & Hfd & _). induction fuel as [|fuel IH]; intros c data buf Hc Hbuf Hd Hf.
  { pose proof (Z.div_pos (size - len data) 512 ltac:(lia) ltac:(lia)). lia. }
  cbn [loop]. unfold bind at 1. unfold file_cluster_step at 1. destruct (valid_cluster c) eqn:Hv; cbn [negb].
  2: { exists [], c, []. split; [constructor|]. split; [by rewrite app_nil_r|]. left. split; [done|]. exists []. cbn [fmap list_fmap concat]. rewrite !take_nil. split; [constructor|done]. }
  assert (Hc2 : 2 <= c) by (unfold valid_cluster in Hv; bool_prop; lia).
  rewrite cluster_lba_run by (done || lia). fold (cluster_base p bpb c). unfold lift, bind at 1. unfold bind at 1.
  assert (Hlba : 0 <= cluster_base p bpb c < U64 - 256).
  { unfold cluster_base, partition_wf in *. assert (0 <= (c - 2) * sectors_per_cluster bpb <= U32 * 256); [|lia].
    split; [apply Z.mul_nonneg_nonneg; lia|]. apply Z.mul_le_mono_nonneg; lia. }
  pose proof (file_sectors_run p bpb size (cluster_base p bpb c) (Z.to_nat (sectors_per_cluster bpb)) 0 data buf
    (S (Z.to_nat (sectors_per_cluster bpb))) ltac:(lia) Hlba ltac:(lia) ltac:(lia) ltac:(lia) Hbuf ltac:(lia)) as Hs.
  rewrite Z2Nat.id in Hs by lia. fold (cluster_sectors p bpb c) in Hs.
  destruct (loop _ (file_sector_step _ _ _ _) 0 (data, buf)) as [[u|e| |] [data' buf']]; try done.
  2: { destruct Hs as (i & Hi & Hu). exists [], c. split; [constructor|]. split; [done|]. left. exists (cluster_base p bpb c + i). split; [|done].
       unfold cluster_sectors. apply list_elem_of_fmap_2. apply elem_of_seqZ. lia. }
  destruct Hs as (Hbuf' & contents & Hcon & ->). unfold gets, bind at 1. cbn [fst snd].
  assert (Hl : length (cluster_sectors p bpb c) = Z.to_nat (sectors_per_cluster bpb)) by (unfold cluster_sectors; by rewrite length_fmap, length_seqZ).
  pose proof (contents_len _ _ _ Hcon) as Hlen. unfold len in Hlen at 2. rewrite length_take, Hl in Hlen.
  assert (Hneed : size - len data <= 512 * Z.of_nat (sectors_needed (size - len data))).
  { unfold sectors_needed. pose proof (Z.div_mod (size - len data + 511) 512 ltac:(lia)). pose proof (Z.mod_pos_bound (size - len data + 511) 512 ltac:(lia)). lia. }
  destruct (Z.leb_spec size (len (take (Z.to_nat size) (data ++ concat contents)))) as [Hfull|Hmore].
  - unfold ret. cbn [collected fst]. exists [], c, (take (Z.to_nat (size - len data)) (concat contents)). split; [constructor|].
    assert (Htk : take (Z.to_nat size) (data ++ concat contents) = data ++ take (Z.to_nat (size - len data)) (concat contents)).
    { rewrite take_app, (take_ge data) by len_solve. do 2 f_equal. len_solve. }
    split; [done|]. right. split; [done|]. split; [|len_solve]. exists contents. cbn [app fmap list_fmap concat]. rewrite app_nil_r. done.
  - assert (Hall : len data + len (concat contents) < size) by len_solve. rewrite take_ge by len_solve.
    assert (Hmin : (Z.to_nat (sectors_per_cluster bpb) <= sectors_needed (size - len data))%nat) by lia. rewrite Nat.min_r in Hlen by lia.
    rewrite take_ge in Hcon by lia. assert (Hshort : len data + 512 * sectors_per_cluster bpb < size) by lia.
    destruct (fat_type bpb) eqn:Hty; [exists [], c; split; [constructor|]; split; [done|]; right; auto|]. unfold lift, bind at 1.
    pose proof (fat32_entry_run p bpb c Hp Hb ltac:(lia)) as Hn. change (2 ^ 28) with 268435456 in Hn.
    destruct (read_fat32_entry p bpb c) as [n|e| |] eqn:Hnext; try done; [|exists [], c; split; [constructor|]; split; [done|]; right; auto]. unfold ret. destruct Hn as [Hdisk Hn].
    assert (Hdiv : (size - len (data ++ concat contents)) / 512 < Z.of_nat fuel).
    { rewrite len_app. replace (size - (len data + len (concat contents)))
        with ((size - len data) + (- sectors_per_cluster bpb) * 512) by lia. rewrite Z.div_add by lia. lia. }
    specialize (IH n (data ++ concat contents) buf' ltac:(lia) Hbuf' ltac:(rewrite len_app; lia) Hdiv). revert IH.
    assert (Hwalk : forall cs last, walk p bpb n cs last -> walk p bpb c (c :: cs) last) by (intros cs last; by apply walk_next).
    assert (Hlen' : size - len (data ++ concat contents) = size - len data - 512 * sectors_per_cluster bpb) by (rewrite len_app; lia).
    unfold file_post. rewrite Hlen'. destruct (collected _) as [d|e| |]; try done.
    + intros (cs & last & rest & Hw & -> & Hd'). exists (c :: cs), last, (concat contents ++ rest). split; [by apply Hwalk|]. split; [by rewrite app_assoc|].
      destruct Hd' as [[Hvl Hh]|(Hvl & Hh & Hsz)]; [left|right]; (split; [done|]); [by apply holds_cons; [lia|lia|..]|]. split; [|exact Hsz].
      rewrite <- app_comm_cons. by apply holds_cons; [lia|lia|..].
    + intros (cs & last & Hw & Hvl & Hcause). exists (c :: cs), last. split; [by apply Hwalk|]. split; [done|]. destruct Hcause as [Hu|[Hs' Hu]]; [by left|right]. split; [lia|done].
Qed.
End volume_facts.

(** ** Writing a directory, as a formatter does *)
Record ShortEntry : Type := mkShort { se_base : list Z; se_ext : list Z; se_kind : FatNodeKind; se_size : Z; se_cluster : Z }.

Definition pad (n : nat) (s : list Z) : list Z := s ++ replicate (n - length s) 32.
Definition printable (s : list Z) : Prop := Forall (fun b => 0x21 <= b <= 0x7e) s.
Definition se_name (d : ShortEntry) : list Z := se_base d ++ (if str_eqb (se_ext d) [] then [] else lit "." ++ se_ext d).

Definition short_ok (d : ShortEntry) : Prop :=
  printable (se_base d) /\ printable (se_ext d) /\ (1 <= length (se_base d) <= 8)%nat /\ (length (se_ext d) <= 3)%nat /\
  se_name d <> lit "." /\ se_name d <> lit ".." /\ 0 <= se_size d < U32 /\ 0 <= se_cluster d < U32.

Definition attribute (k : FatNodeKind) : Z := match k with FDirectory => 0x10 | FFile => 0x20 end.

Definition encode_entry (d : ShortEntry) : list Z :=
  (pad 8 (se_base d) ++ pad 3 (se_ext d)) ++ [attribute (se_kind d)] ++ replicate 8 0 ++ le_bytes 2 (se_cluster d / 65536) ++
  replicate 4 0 ++ le_bytes 2 (se_cluster d mod 65536) ++ le_bytes 4 (se_size d).

Definition encode_directory (ds : list ShortEntry) : list Z :=
  concat (encode_entry <$> ds) ++ replicate (512 - 32 * length ds) 0.

Definition root_entry (d : ShortEntry) : FatRootEntry := mkRootEntry (se_name d) (se_kind d) (se_size d) (se_cluster d).

Lemma length_pad n s : (length s <= n)%nat -> length (pad n s) = n.
Proof. intros H. unfold pad. rewrite length_app, length_replicate. lia. Qed.

Lemma parse_name_pad n s : printable s -> parse_name_component (pad n s) = Some s.
Proof.
  intros Hs. unfold pad. induction Hs as [|b s Hb Hs IH] in n |- *.
  - rewrite app_nil_l. by destruct (n - length [])%nat.
  - rewrite <- app_comm_cons. cbn [parse_name_component]. rewrite !(proj2 (Z.eqb_neq _ _)) by lia. cbn [orb]. unfold between.
    rewrite !(proj2 (Z.leb_le _ _)) by lia. cbn [andb negb].
    replace (n - length (b :: s))%nat with ((n - 1) - length s)%nat by (simpl; lia). by rewrite IH.
Qed.

Lemma parse_short_encoded d : short_ok d -> parse_short_name (pad 8 (se_base d) ++ pad 3 (se_ext d)) = Some (se_name d).
Proof.
  intros (Hb & He & Hlb & Hle & _). unfold parse_short_name. unfold len. rewrite length_app, !length_pad by lia. cbn [Z.eqb negb].
  rewrite take_app_length' by (by rewrite length_pad by lia). rewrite drop_app_length' by (by rewrite length_pad by lia).
  rewrite !parse_name_pad by done. unfold se_name. rewrite (proj2 (str_eqb_false _ _)) by (intros H; rewrite H in Hlb; simpl in Hlb; lia).
  by destruct (str_eqb (se_ext d) []).
Qed.

Lemma field_part pre m post o n : len pre = o -> len m = n -> field (pre ++ m ++ post) o n = le_val m.
Proof.
  intros Ho Hn. unfold field. rewrite drop_app_length' by len_solve. by rewrite take_app_length' by len_solve.
Qed.

Lemma length_encode_entry d : short_ok d -> length (encode_entry d) = 32%nat.
Proof.
  intros (_ & _ & Hlb & Hle & _). unfold encode_entry. rewrite !length_app, !length_pad by lia. by rewrite !length_le_bytes.
Qed.

Lemma encode_entry_run pre d post : short_ok d ->
  field (pre ++ encode_entry d ++ post) (len pre) 1 <> 0 /\
  dir_entry (pre ++ encode_entry d ++ post) (len pre) = Some (root_entry d).
Proof.
  intros Hd. pose proof Hd as (Hb & He & Hlb & Hle & Hdot & Hdots & Hsz & Hcl).
  set (nm := pad 8 (se_base d) ++ pad 3 (se_ext d)).
  assert (Hnm : length nm = 11%nat) by (unfold nm; rewrite length_app, !length_pad by lia; done).
  assert (Hfirst : exists b, 0x21 <= b <= 0x7e /\ field (pre ++ encode_entry d ++ post) (len pre) 1 = b).
  { destruct (se_base d) as [|b base] eqn:Hbase; [simpl in Hlb; lia|]. apply Forall_cons_iff in Hb as [Hb _]. exists b. split; [done|].
    transitivity (le_val [b]); [|simpl; lia]. unfold encode_entry, pad. rewrite Hbase, <- !app_assoc, <- app_comm_cons.
    match goal with |- field (pre ++ b :: ?t) _ _ = _ => apply (field_part pre [b] t); done end. }
  destruct Hfirst as (b & Hbr & Hfirst). rewrite Hfirst. split; [lia|]. unfold dir_entry. rewrite Hfirst.
  unfold encode_entry. fold nm. set (hi := le_bytes 2 (se_cluster d / 65536)). set (lo := le_bytes 2 (se_cluster d mod 65536)).
  set (sz := le_bytes 4 (se_size d)). set (z8 := replicate 8 0). set (z4 := replicate 4 0).
  set (s := pre ++ _). set (at_ := attribute (se_kind d)).
  assert (Hat : field s (len pre + 11) 1 = at_).
  { transitivity (le_val [at_]); [|simpl; lia].
    replace s with ((pre ++ nm) ++ [at_] ++ (z8 ++ hi ++ z4 ++ lo ++ sz ++ post)) by (unfold s; by rewrite <- ?app_assoc).
    apply field_part; [rewrite len_app; unfold len at 2; rewrite Hnm; done|done]. }
  assert (Hhi : field s (len pre + 20) 2 = le_val hi).
  { replace s with ((pre ++ nm ++ [at_] ++ z8) ++ hi ++ (z4 ++ lo ++ sz ++ post)) by (unfold s; by rewrite <- ?app_assoc).
    apply field_part; [rewrite !len_app; unfold len at 2; rewrite Hnm; done|done]. }
  assert (Hlo : field s (len pre + 26) 2 = le_val lo).
  { replace s with ((pre ++ nm ++ [at_] ++ z8 ++ hi ++ z4) ++ lo ++ (sz ++ post)) by (unfold s; by rewrite <- ?app_assoc).
    apply field_part; [rewrite !len_app; unfold len at 2; rewrite Hnm; done|done]. }
  assert (Hsize : field s (len pre + 28) 4 = le_val sz).
  { replace s with ((pre ++ nm ++ [at_] ++ z8 ++ hi ++ z4 ++ lo) ++ sz ++ post) by (unfold s; by rewrite <- ?app_assoc).
    apply field_part; [rewrite !len_app; unfold len at 2; rewrite Hnm; done|done]. }
  assert (Hname : take 11 (drop (Z.to_nat (len pre)) s) = nm).
  { unfold s. rewrite drop_app_length' by len_solve. rewrite <- !app_assoc. by apply take_app_length'. }
  rewrite Hat, Hhi, Hlo, Hsize, Hname. rewrite (proj2 (Z.eqb_neq b 0xE5)) by lia. unfold nm. rewrite parse_short_encoded by done.
  rewrite (proj2 (str_eqb_false _ _) Hdot), (proj2 (str_eqb_false _ _) Hdots). cbn [orb].
  pose proof (Z.mod_pos_bound (se_cluster d) 65536 ltac:(lia)). pose proof (Z.div_pos (se_cluster d) 65536 ltac:(lia) ltac:(lia)).
  pose proof (Z.div_lt_upper_bound (se_cluster d) 65536 65536 ltac:(lia) ltac:(lia)).
  unfold hi, lo, sz. rewrite !le_val_bytes_small by (simpl; lia). rewrite cluster_word by lia.
  replace (se_cluster d / 65536 * 65536 + se_cluster d mod 65536) with (se_cluster d)
    by (rewrite (Z.div_mod (se_cluster d) 65536) at 1 by lia; lia).
  unfold at_, root_entry. by destruct (se_kind d).
Qed.

Lemma encode_entry_bytes d : short_ok d -> byte_list (encode_entry d).
Proof.
  intros (Hb & He & _). unfold encode_entry, pad, byte_list. rewrite !Forall_app.
  assert (Hp : forall s, printable s -> Forall (in_range U8) s)
    by (intros s Hs; eapply Forall_impl; [exact Hs|]; unfold in_range; simpl; lia).
  repeat split; try (by apply Hp); try (apply le_bytes_byte); try (apply Forall_replicate; unfold in_range; lia).
  apply Forall_singleton. unfold in_range. by destruct (se_kind d); simpl.
Qed.

Lemma encode_entries_ok ds : Forall short_ok ds ->
  byte_list (concat (encode_entry <$> ds)) /\ length (concat (encode_entry <$> ds)) = (32 * length ds)%nat.
Proof.
  induction 1 as [|d ds Hd Hds [IHb IHl]]; [split; [constructor|done]|]. rewrite fmap_cons. cbn [concat].
  split; [apply Forall_app; split; [by apply encode_entry_bytes|done]|].
  rewrite length_app, IHl, length_encode_entry by done. simpl. lia.
Qed.

Lemma encode_directory_ok ds : Forall short_ok ds -> (length ds <= 16)%nat -> sector_ok (encode_directory ds).
Proof.
  intros Hds Hle. destruct (encode_entries_ok ds Hds) as [Hb Hl]. unfold encode_directory. split.
  - unfold len, SECTOR_BYTES. rewrite length_app, length_replicate, Hl. lia.
  - apply Forall_app. split; [done|]. apply Forall_replicate. unfold in_range. lia.
Qed.

Lemma dir_scan_encoded k : forall pre ds, Forall short_ok ds -> (length ds <= k)%nat ->
  dir_scan (pre ++ concat (encode_entry <$> ds) ++ replicate (32 * (k - length ds)) 0) k (len pre) =
    (root_entry <$> ds, bool_decide (length ds < k)%nat).
Proof.
  induction k as [|k IH]; intros pre [|d ds] Hds Hle; [done|simpl in Hle; lia| |].
  - cbn [fmap list_fmap concat dir_scan]. rewrite app_nil_l.
    replace (32 * (S k - length (@nil ShortEntry)))%nat with (S (31 + 32 * k)) by (simpl; lia). cbn [replicate].
    match goal with |- context [0 :: ?t] => change (0 :: t) with ([0] ++ t) end. rewrite field_part by done. done.
  - apply Forall_cons_iff in Hds as [Hd Hds]. rewrite fmap_cons. cbn [concat dir_scan]. rewrite <- app_assoc.
    destruct (encode_entry_run pre d (concat (encode_entry <$> ds) ++ replicate (32 * (S k - length (d :: ds))) 0) Hd) as [Hnz He].
    rewrite (proj2 (Z.eqb_neq _ _) Hnz), He. cbn [option_list].
    replace (S k - length (d :: ds))%nat with (k - length ds)%nat by (simpl; lia).
    specialize (IH (pre ++ encode_entry d) ds Hds ltac:(simpl in Hle; lia)).
    rewrite <- app_assoc, len_app in IH. unfold len at 2 in IH. rewrite length_encode_entry in IH by done.
    change (Z.of_nat 32) with 32 in IH. rewrite IH. cbn [fst snd fmap list_fmap]. f_equal. apply bool_decide_ext. simpl. lia.
Qed.

(** * Theorems *)

(** Mounting is safe on any disk and finds the right volume. When no boot
    sector declares sizes whose sum exceeds 32 bits, [initialize] returns: it
    mounts the first partition that can be mounted, with the layout its boot
    sector describes and its counters equal to the entries found, or reports that
    there is none and leaves the file system unmounted. *)
Theorem fat_initialize_spec {B : Block} {L : BlockLaws B} (Hinit : blk_initialized = true)
    (Hgeo : forall i p boot, blk_partition i = Some p ->
       blk_read (part_device p) (start_lba p) 1 ZERO_SECTOR = Some boot -> no_overflow boot) :
  mount_post (fat_initialize None).
Proof.
  unfold fat_initialize, gets, bind. rewrite bool_decide_eq_false_2 by (by intros [? ?]). rewrite Hinit. cbn [negb].
  by apply mount_loop_run.
Qed.

(** A directory sector of short entries, as a formatter writes it, is read
    back entry by entry, and the end of the directory is reported exactly when
    the sector is not full. *)
Theorem fat_directory_roundtrip (ds : list ShortEntry) (out : list FatRootEntry)
    (Hok : Forall short_ok ds) (Hlen : (length ds <= 16)%nat) :
  parse_directory_sector (encode_directory ds) out = (Ok (bool_decide (length ds < 16)%nat), out ++ (root_entry <$> ds)).
Proof.
  rewrite parse_directory_run by (by apply encode_directory_ok).
  pose proof (dir_scan_encoded 16 [] ds Hok Hlen) as H. rewrite app_nil_l in H.
  replace (32 * (16 - length ds))%nat with (512 - 32 * length ds)%nat in H by lia. fold (encode_directory ds) in H.
  rewrite len_nil in H. by rewrite H.
Qed.

(** C15: reading a file of a mounted volume, over any block layer that fulfils its laws,
    always returns, also along a cyclic or broken chain. A path that names no entry, a
    directory, an empty file and an entry whose first cluster is below 2 give nothing. Of any
    other entry the result is the first [size] bytes of the sectors of the clusters its
    first cluster leads to in the allocation table on the disk, all of them readable, up to the end
    of the chain or until the size is reached. It fails only when a sector of a cluster on the chain
    cannot be read or, for files longer than a cluster, an entry of the table cannot be read or the volume is FAT16. *)
Theorem fat_read_file_spec {B : Block} {L : BlockLaws B} (st : FatState) (path : list Z) (Hwf : fat_wf st) :
  match file_entry st path with
  | None => fat_read_file_bytes (Some st) path = Err tt
  | Some e =>
      if bool_decide (fe_kind e = FDirectory \/ fe_size e = 0 \/ fe_cluster e < 2) then fat_read_file_bytes (Some st) path = Err tt
      else file_post (fat_partition st) (fat_bpb st) (fe_size e) (fe_cluster e) [] (fat_read_file_bytes (Some st) path)
  end.
Proof.
  destruct Hwf as (Hp & Hb & Hes). unfold fat_read_file_bytes. destruct (file_entry st path) as [e|] eqn:Hentry; [|done].
  case_bool_decide as Hcase.
  { destruct Hcase as [->|[->|Hlt]]; [done|by rewrite orb_true_r|]. by rewrite (proj2 (Z.ltb_lt _ _) Hlt), orb_true_r. }
  assert (Hk : fe_kind e <> FDirectory) by naive_solver. assert (Hsize : fe_size e <> 0) by naive_solver. assert (Hcluster : 2 <= fe_cluster e) by lia.
  rewrite bool_decide_eq_false_2 by done. rewrite (proj2 (Z.eqb_neq _ _) Hsize), (proj2 (Z.ltb_ge _ _) Hcluster). cbn [orb].
  assert (Hewf : entry_wf e).
  { unfold file_entry, find_root in Hentry. repeat case_match; try done. rewrite list.Forall_forall in Hes.
    apply Hes. by eapply list_elem_of_lookup_2. }
  destruct Hewf as [Hsz Hcl]. apply file_clusters_run; try done; try lia; [rewrite len_nil; lia|].
  rewrite len_nil, Z.sub_0_r. unfold SECTOR_BYTES. pose proof (Z.div_pos (fe_size e) 512 ltac:(lia) ltac:(lia)). lia.
Qed.

(** ** A disk in memory: one FAT32 volume with a file of two clusters *)
Definition boot_sector (fats sectors_fat : Z) : list Z :=
  replicate 11 0 ++ le_bytes 2 512 ++ [1] ++ le_bytes 2 32 ++ [fats] ++ replicate 15 0 ++ le_bytes 4 80000 ++
  le_bytes 4 sectors_fat ++ replicate 4 0 ++ le_bytes 4 2 ++ replicate 462 0 ++ [0x55; 0xAA].

Definition demo_entry : ShortEntry := mkShort (lit "INIT") (lit "CFG") FFile 600 3.
Definition demo_fat : list Z := replicate 12 0 ++ le_bytes 4 5 ++ replicate 4 0 ++ le_bytes 4 0x0fffffff ++ replicate 488 0.
Definition demo_partition : PartitionInfo := mkPartition 7 1 Gpt 0 80000.

Definition demo_sector (lba : Z) : list Z :=
  if lba =? 0 then boot_sector 1 600
  else if lba =? 32 then demo_fat
  else if lba =? 632 then encode_directory [demo_entry]
  else if lba =? 633 then replicate 512 65
  else if lba =? 635 then replicate 512 66
  else replicate 512 0.

#[local] Instance demo_block : Block := {|
  blk_initialized := true;
  blk_partition_count := 1;
  blk_partition := fun i => if i =? 0 then Some demo_partition else None;
  blk_read := fun _ lba _ _ => Some (demo_sector lba) |}.

Lemma demo_sector_ok lba : sector_ok (demo_sector lba).
Proof.
  unfold demo_sector. repeat case_match; (split; [reflexivity|]); apply byte_list_check; vm_compute; reflexivity.
Qed.

#[local] Instance demo_block_laws : BlockLaws demo_block.
Proof.
  split.
  - intros dev lba buf s _ [= <-]. apply demo_sector_ok.
  - done.
  - intros i p. cbn. destruct (i =? 0); [|done]. by intros [= <-].
  - cbn. lia.
Qed.

Definition demo_volume : FatState :=
  mkFat (mkFatSummary true (Some 7) (Some 1) (Some Gpt) (Some Fat32) 1 1) [root_entry demo_entry] demo_partition
    (mkBpb Fat32 512 1 32 1 600 0 0 32 632 632 2).

Lemma fat_initialize_spec_witness :
  fat_initialize None = (Ok (fat_sum demo_volume), Some demo_volume) /\ mount_post (fat_initialize None).
Proof.
  split; [vm_compute; reflexivity|]. apply (fat_initialize_spec (B := demo_block)); [reflexivity|].
  intros i p boot Hp. cbn in Hp. destruct (i =? 0); [|done]. injection Hp as <-. intros Hb. cbn in Hb. injection Hb as <-.
  vm_compute. reflexivity.
Defined.

Lemma demo_entry_ok : short_ok demo_entry.
Proof.
  split; [apply (bool_decide_unpack _); vm_compute; reflexivity|]. split; [apply (bool_decide_unpack _); vm_compute; reflexivity|].
  split; [simpl; lia|]. split; [simpl; lia|]. split; [discriminate|]. split; [discriminate|]. split; simpl; lia.
Qed.

Lemma fat_directory_roundtrip_witness :
  parse_directory_sector (encode_directory [demo_entry]) [] = (Ok true, [root_entry demo_entry]).
Proof.
  apply (fat_directory_roundtrip [demo_entry] []); [apply Forall_singleton; exact demo_entry_ok|simpl; lia].
Defined.

Lemma demo_volume_wf : fat_wf demo_volume.
Proof.
  split; [split; reflexivity|]. split; [unfold bpb_wf; cbn; lia|]. apply Forall_singleton. unfold entry_wf. cbn. lia.
Qed.

Lemma fat_read_file_spec_witness :
  fat_read_file_bytes (Some demo_volume) (lit "/boot/init.cfg") = Ok (replicate 512 65 ++ replicate 88 66) /\
  file_post demo_partition (fat_bpb demo_volume) 600 3 [] (fat_read_file_bytes (Some demo_volume) (lit "/boot/init.cfg")).
Proof.
  split; [vm_compute; reflexivity|].
  exact (fat_read_file_spec (B := demo_block) demo_volume (lit "/boot/init.cfg") demo_volume_wf).
Defined.

(** The layout's sizes are added without a check: a boot sector that declares two
    tables of [2^31] sectors makes the sum overflow. *)
Theorem parse_bpb_overflow : parse_bpb (boot_sector 2 2147483648) = Panic /\ sector_ok (boot_sector 2 2147483648).
Proof. split; [vm_compute; reflexivity|]. split; [reflexivity|]. apply byte_list_check. vm_compute. reflexivity. Qed.

(** The block layer of this source tree is a stub: nothing is ever mounted. *)
Theorem fat_stub_unavailable : fat_initialize (B := stub_block) None = (Err BlockUnavailable, None).
Proof. reflexivity. Qed.
