(* ===== verification/Sched.v ===== *)
(** * The scheduler: [kernel/src/sched.rs]

    Eight thread slots, a run queue per priority with a bitmap of the non-empty
    ones, and the operations that move threads between them: timer tick, yield,
    context switch, fork, exit, block and unblock, reap. A slot is an index of the
    thread table; a pointer to a thread's context is the index of its slot. The
    frames of the kernel stacks are words of [kmem], the task state segment's
    stack pointer is [tss_rsp0], and the calls of the scheduling hook are logged
    in [hook_log]. What the hardware and the address space supply ([cr3], the
    clone of an address space, stack addresses) is an argument. *)
From stdpp Require Import base list numbers option strings gmap.
From Stdlib Require Import ZArith Lia Bool.
From S2P Require Import Prelude.

Definition BOOTSTRAP_TARGET_TICKS : Z := 3.
Definition MAX_THREADS : nat := 8.
Definition KERNEL_STACK_SIZE : Z := 16 * 1024.
Definition MAX_PROCESS_FDS : nat := 64.
Definition MAX_PRIORITIES : nat := 64.

Definition CONTEXT_KIND_KERNEL : Z := 0.
Definition CONTEXT_KIND_USER : Z := 1.
Definition USER_DATA_SELECTOR : Z := 0x38.
Definition USER_CODE_SELECTOR : Z := 0x40.

Record TaskContext : Type := mkContext {
  rsp : Z; rbx : Z; rbp : Z; r12 : Z; r13 : Z; r14 : Z; r15 : Z; cr3 : Z; kind : Z; kernel_rsp0 : Z }.
#[export] Instance TaskContext_eta : RecordEta TaskContext :=
  fun r => mkContext (rsp r) (rbx r) (rbp r) (r12 r) (r13 r) (r14 r) (r15 r) (cr3 r) (kind r) (kernel_rsp0 r).
Definition empty_context : TaskContext := mkContext 0 0 0 0 0 0 0 0 CONTEXT_KIND_KERNEL 0.

Inductive SchedulerError : Type := Timer | Timeout | ThreadTableFull | RunQueueFull | MissingIdleThread.
Inductive ThreadRole : Type := RNone | RBootstrap | RIdle | RUser.
Inductive ThreadState : Type := Unused | Runnable | Running | Blocked | Exited.
#[export] Instance ThreadRole_eq_dec : EqDecision ThreadRole.
Proof. solve_decision. Defined.
#[export] Instance ThreadState_eq_dec : EqDecision ThreadState.
Proof. solve_decision. Defined.

Definition role_str (r : ThreadRole) : string :=
  match r with RNone => "none" | RBootstrap => "bootstrap" | RIdle => "idle" | RUser => "user" end.
Definition state_str (s : ThreadState) : string :=
  match s with Unused => "unused" | Runnable => "runnable" | Running => "running" | Blocked => "blocked" | Exited => "exited" end.

Record Thread : Type := mkThread {
  id : Z; process_id : Z; parent_process_id : Z; thread_group_id : Z; name : string; role : ThreadRole;
  state : ThreadState; base_priority : Z; total_ticks : Z; dispatch_count : Z; context : TaskContext;
  fd_table : list (option Z); exit_status : Z }.
#[export] Instance Thread_eta : RecordEta Thread :=
  fun t => mkThread (id t) (process_id t) (parent_process_id t) (thread_group_id t) (name t) (role t) (state t)
    (base_priority t) (total_ticks t) (dispatch_count t) (context t) (fd_table t) (exit_status t).
Definition empty_thread : Thread :=
  mkThread 0 0 0 0 "" RNone Unused 0 0 0 empty_context (replicate MAX_PROCESS_FDS None) 0.

Record ProcessIdentity : Type := mkIdentity { pi_process : Z; pi_parent : Z; pi_group : Z }.

Record Scheduler : Type := mkSched {
  hps_hook : bool; initialized : bool; next_thread_id : Z; thread_count : nat; threads : list Thread;
  runqueues : list (list nat); runqueue_depths : list nat; runqueue_bitmap : Z; current_slot : option nat;
  context_switches : Z; bootstrap_thread_id : Z; idle_thread_id : Z;
  kmem : gmap Z Z; tss_rsp0 : Z; hook_log : list (Z * bool) }.
#[export] Instance Scheduler_eta : RecordEta Scheduler :=
  fun s => mkSched (hps_hook s) (initialized s) (next_thread_id s) (thread_count s) (threads s) (runqueues s)
    (runqueue_depths s) (runqueue_bitmap s) (current_slot s) (context_switches s) (bootstrap_thread_id s)
    (idle_thread_id s) (kmem s) (tss_rsp0 s) (hook_log s).

(** [Scheduler::new]; the memory, the register and the log are outside the struct. *)
Definition new_sched (mem : gmap Z Z) (tss : Z) (log : list (Z * bool)) : Scheduler :=
  mkSched false false 1 0 (replicate MAX_THREADS empty_thread) (replicate MAX_PRIORITIES (replicate MAX_THREADS 0%nat))
    (replicate MAX_PRIORITIES 0%nat) 0 None 0 0 0 mem tss log.

Abbreviation S_ := (M Scheduler).

(** ** Arrays *)
Definition at_ {E A} (l : list A) (i : nat) : S_ E A :=
  match l !! i with Some x => ret x | None => panic end.
Definition get_thread {E} (slot : nat) : S_ E Thread := let! ts := gets threads in at_ ts slot.
Definition set_thread {E} (slot : nat) (f : Thread -> Thread) : S_ E unit :=
  let! _ := get_thread slot in modify (upd threads (alter f slot)).

(** [for x in l { body }] *)
Fixpoint for_each {E A} (l : list A) (body : A -> S_ E unit) : S_ E unit :=
  match l with
  | [] => ret tt
  | x :: l' => do! body x in for_each l' body
  end.

(** [for i in l { if test(i) { return/break with Some(i) } } None] *)
Fixpoint find_first {E} (l : list nat) (test : nat -> S_ E bool) : S_ E (option nat) :=
  match l with
  | [] => ret None
  | x :: l' => let! b := test x in if b then ret (Some x) else find_first l' test
  end.

(** [let _ = m;] of a [Result] *)
Definition ignore {E F A} (m : S_ E A) : S_ F unit := catch m (fun _ => ret tt).

(** ** Run queues *)
Definition trailing_zeros (b : Z) : nat :=
  default 64%nat (position (fun i => Z.testbit b (Z.of_nat i)) (seq 0 64)).

Definition priority_of (t : Thread) : nat := if 63 <? base_priority t then 63%nat else Z.to_nat (base_priority t).
Definition priority_for_thread {E} (slot : nat) : S_ E nat := let! t := get_thread slot in ret (priority_of t).

Definition enqueue (slot : nat) : S_ SchedulerError unit :=
  let! priority := priority_for_thread slot in
  let! depths := gets runqueue_depths in
  let! depth := at_ depths priority in
  if (MAX_THREADS <=? depth)%nat then throw RunQueueFull else
  let! rows := gets runqueues in
  let! row := at_ rows priority in
  let! _ := at_ row depth in
  do! modify (upd runqueues (alter (fun r => <[depth := slot]> r) priority)) in
  do! modify (upd runqueue_depths (alter (fun _ => S depth) priority)) in
  modify (upd runqueue_bitmap (fun b => Z.lor b (Z.shiftl 1 (Z.of_nat priority)))).

(** [for i in from..depth - 1 { row[i] = row[i + 1] }] for [count] steps. *)
Fixpoint shift_row {E} (row : list nat) (from count : nat) : S_ E (list nat) :=
  match count with
  | O => ret row
  | S count' =>
      let! x := at_ row (S from) in
      let! _ := at_ row from in
      shift_row (<[from := x]> row) (S from) count'
  end.

(** Close the gap at position [from] of a queue of [depth > 0] slots. *)
Definition close_gap {E} (priority from : nat) : S_ E unit :=
  let! depths := gets runqueue_depths in
  let! depth := at_ depths priority in
  let! rows := gets runqueues in
  let! row := at_ rows priority in
  let! row := shift_row row from (depth - 1 - from) in
  do! modify (upd runqueues (alter (fun _ => row) priority)) in
  do! modify (upd runqueue_depths (alter pred priority)) in
  if (depth - 1 =? 0)%nat
  then modify (upd runqueue_bitmap (fun b => Z.land b (bitnot U64 (Z.shiftl 1 (Z.of_nat priority)))))
  else ret tt.

Definition dequeue {E} (priority : nat) : S_ E (option nat) :=
  let! depths := gets runqueue_depths in
  let! depth := at_ depths priority in
  if (depth =? 0)%nat then ret None else
  let! rows := gets runqueues in
  let! row := at_ rows priority in
  let! slot := at_ row 0 in
  do! close_gap priority 0 in
  ret (Some slot).

(** Take a slot out of its queue, if it is there. *)
Definition remove_queued {E} (slot : nat) : S_ E unit :=
  let! p := priority_for_thread slot in
  let! depths := gets runqueue_depths in
  let! depth := at_ depths p in
  let! found := find_first (seq 0 depth) (fun i =>
    let! rows := gets runqueues in
    let! row := at_ rows p in
    let! x := at_ row i in
    ret (x =? slot)%nat) in
  match found with
  | Some i => close_gap p i
  | None => ret tt
  end.

(** ** Threads *)
Definition set_state (st : ThreadState) (t : Thread) : Thread := set_field state st t.
Definition bump {R} (f : R -> Z) {U : FieldUpd f} : R -> R := upd f (fun z => sat_add U64 z 1).

(** The identity of the running core's page table is [kernel_cr3]. *)
Definition create_thread (kernel_cr3 : Z) (nm : string) (r : ThreadRole) (identity : ProcessIdentity) : S_ SchedulerError nat :=
  let! slot := gets thread_count in
  if (MAX_THREADS <=? slot)%nat then throw ThreadTableFull else
  let! thread_id := gets next_thread_id in
  do! modify (bump next_thread_id) in
  let ctx := if bool_decide (r = RUser) then empty_context else set_field cr3 kernel_cr3 empty_context in
  do! set_thread slot (fun _ => mkThread thread_id (pi_process identity) (pi_parent identity) (pi_group identity) nm r
    Runnable 0 0 0 ctx (replicate MAX_PROCESS_FDS None) 0) in
  do! modify (upd thread_count S) in
  ret slot.

(** [context.rs]: the frame a kernel thread starts from. *)
Definition STACK_ALIGNMENT : Z := 16.
Definition stack_top (stack_base stack_len : Z) : Z := Z.land (stack_base + stack_len) (bitnot U64 (STACK_ALIGNMENT - 1)).
Fixpoint write_words (mem : gmap Z Z) (addr : Z) (ws : list Z) : gmap Z Z :=
  match ws with
  | [] => mem
  | w :: ws' => write_words (<[addr := w]> mem) (addr + 8) ws'
  end.

Definition initialize_kernel_thread {E} (slot : nat) (stack_base stack_len exit_trap entry : Z) : S_ E unit :=
  let aligned_end := stack_top stack_base stack_len in
  let entry_slot := aligned_end - 16 in
  do! modify (upd kmem (fun m => write_words m entry_slot [entry; exit_trap])) in
  set_thread slot (upd context (fun c =>
    mkContext entry_slot 0 0 0 0 0 0 (cr3 c) CONTEXT_KIND_KERNEL 0)).

(** The interrupt frame a user thread starts from: fifteen registers, then what [iretq] pops. *)
Definition user_frame (entry_point user_stack : Z) : list Z :=
  replicate 15 0 ++ [entry_point; Z.lor USER_CODE_SELECTOR 3; 0x202; user_stack; Z.lor USER_DATA_SELECTOR 3].

Definition initialize_user_thread {E} (slot : nat) (stack_base stack_len entry_point user_stack page_table : Z) : S_ E unit :=
  let aligned_end := stack_top stack_base stack_len in
  let resume_frame := aligned_end - 160 in
  do! modify (upd kmem (fun m => write_words m resume_frame (user_frame entry_point user_stack))) in
  set_thread slot (upd context (fun _ =>
    mkContext resume_frame 0 0 0 0 0 0 page_table CONTEXT_KIND_USER aligned_end)).

(** The addresses of the kernel's stacks and functions. *)
Record Layout : Type := mkLayout { idle_stack : Z; user_stacks : Z; exit_trap : Z; idle_entry : Z }.

Definition initialize_bootstrap_threads (L : Layout) (kernel_cr3 : Z) : S_ SchedulerError unit :=
  do! modify (fun s => new_sched (kmem s) (tss_rsp0 s) (hook_log s)) in
  let! bootstrap_slot := create_thread kernel_cr3 "kernel-bootstrap" RBootstrap (mkIdentity 1 0 1) in
  let! idle_slot := create_thread kernel_cr3 "kernel-idle" RIdle (mkIdentity 0 0 0) in
  do! enqueue bootstrap_slot in
  do! enqueue idle_slot in
  do! set_thread bootstrap_slot (set_state Running) in
  do! set_thread bootstrap_slot (set_field dispatch_count 1) in
  do! set_thread idle_slot (set_state Runnable) in
  do! initialize_kernel_thread idle_slot (idle_stack L) KERNEL_STACK_SIZE (exit_trap L) (idle_entry L) in
  do! modify (set_field initialized true) in
  let! b := get_thread bootstrap_slot in
  do! modify (set_field bootstrap_thread_id (id b)) in
  let! i := get_thread idle_slot in
  modify (set_field idle_thread_id (id i)).

(** ** Dispatching *)
Record DispatchDecision : Type := mkDispatch {
  dd_thread_id : Z; dd_thread_name : string; dd_thread_role : string; dd_context_switches : Z }.

Definition dispatch_snapshot {E} (slot : nat) : S_ E DispatchDecision :=
  let! t := get_thread slot in
  let! n := gets context_switches in
  ret (mkDispatch (id t) (name t) (role_str (role t)) n).

Definition call_hook {E} (slot : nat) : S_ E unit :=
  let! hook := gets hps_hook in
  if hook : bool then
    let! t := get_thread slot in
    modify (upd hook_log (fun l => l ++ [(id t, bool_decide (role t = RUser))]))
  else ret tt.

(** A running current thread goes back to its queue. *)
Definition requeue_running {E} (slot : nat) : S_ E unit :=
  do! set_thread slot (set_state Runnable) in
  ignore (enqueue slot).

Definition on_timer_tick {E} : S_ E (option DispatchDecision) :=
  let! init := gets initialized in
  let! bitmap := gets runqueue_bitmap in
  let! current := gets current_slot in
  if negb init || ((bitmap =? 0) && bool_decide (current = None)) then ret None else
  do! match current with
      | Some slot =>
          let! t := get_thread slot in
          if bool_decide (state t = Running) then
            do! set_thread slot (bump total_ticks) in requeue_running slot
          else if bool_decide (state t = Blocked) then set_thread slot (bump total_ticks)
          else ret tt
      | None => ret tt
      end in
  let! bitmap := gets runqueue_bitmap in
  if bitmap =? 0 then do! modify (set_field current_slot None) in ret None else
  let best_priority := trailing_zeros bitmap in
  if (MAX_PRIORITIES <=? best_priority)%nat then ret None else
  let! next := dequeue best_priority in
  match next with
  | None => ret None
  | Some next_slot =>
      do! (if bool_decide (Some next_slot <> current) then modify (bump context_switches) else ret tt) in
      do! modify (set_field current_slot (Some next_slot)) in
      do! set_thread next_slot (set_state Running) in
      do! set_thread next_slot (bump dispatch_count) in
      do! call_hook next_slot in
      let! d := dispatch_snapshot next_slot in
      ret (Some d)
  end.

Definition current_thread {E} : S_ E Thread :=
  let! current := gets current_slot in
  match current with Some slot => get_thread slot | None => ret empty_thread end.

Definition find_thread {E} (test : Thread -> bool) : S_ E (option nat) :=
  let! n := gets thread_count in
  find_first (seq 0 n) (fun slot => let! t := get_thread slot in ret (test t)).
Definition first_runnable_user_slot {E} : S_ E (option nat) :=
  find_thread (fun t => bool_decide (role t = RUser) && bool_decide (state t <> Exited)).
Definition idle_slot {E} : S_ E (option nat) :=
  let! i := gets idle_thread_id in find_thread (fun t => id t =? i).
Definition bootstrap_slot {E} : S_ E (option nat) :=
  let! i := gets bootstrap_thread_id in find_thread (fun t => id t =? i).

Definition restore_bootstrap_as_current {E} : S_ E unit :=
  let! b := bootstrap_slot in
  match b with
  | None => ret tt
  | Some b =>
      let! n := gets thread_count in
      do! for_each (seq 0 n) (fun slot =>
        let! t := get_thread slot in
        if bool_decide (state t = Running) then requeue_running slot else ret tt) in
      do! remove_queued b in
      do! set_thread b (set_state Running) in
      do! set_thread b (bump dispatch_count) in
      modify (set_field current_slot (Some b))
  end.

Definition activate_thread_slot (target_slot : nat) : S_ SchedulerError unit :=
  let! init := gets initialized in
  let! n := gets thread_count in
  if negb init || (n <=? target_slot)%nat then throw MissingIdleThread else
  let! current := gets current_slot in
  if bool_decide (current = Some target_slot) then ret tt else
  do! match current with
      | Some slot =>
          let! t := get_thread slot in
          if bool_decide (state t = Running) then requeue_running slot else ret tt
      | None => ret tt
      end in
  do! remove_queued target_slot in
  do! modify (set_field current_slot (Some target_slot)) in
  do! set_thread target_slot (set_state Running) in
  modify (bump context_switches).

Definition prepare_resume_slot {E} (L : Layout) (slot : nat) : S_ E unit :=
  let! t := get_thread slot in
  if bool_decide (role t = RUser) then
    modify (set_field tss_rsp0 (user_stacks L + Z.of_nat slot * KERNEL_STACK_SIZE + KERNEL_STACK_SIZE))
  else ret tt.

(** [threads.split_at_mut(max)] and the two contexts in it: slots [current] and
    [next], which must differ. *)
Definition context_pair {E} (current next : nat) : S_ E (nat * nat) :=
  let! ts := gets threads in
  let mid := Nat.max current next in
  let left := take mid ts in
  let right := drop mid ts in
  if (length ts <? mid)%nat then panic else
  if (current <? next)%nat then
    let! _ := at_ left current in let! _ := at_ right 0 in ret (current, next)
  else
    let! _ := at_ left next in let! _ := at_ right 0 in ret (current, next).

Definition initial_context_pair (L : Layout) : S_ SchedulerError (nat * nat) :=
  let! b := bootstrap_slot in
  let! b := lift (ok_or MissingIdleThread b) in
  do! set_thread b (set_state Exited) in
  let! user := first_runnable_user_slot in
  let! target := match user with Some slot => ret (Some slot) | None => idle_slot end in
  let! target := lift (ok_or MissingIdleThread target) in
  do! activate_thread_slot target in
  do! prepare_resume_slot L target in
  context_pair b target.

Definition next_switch_index {E} : S_ E (option nat) :=
  let! init := gets initialized in
  let! bitmap := gets runqueue_bitmap in
  if negb init || (bitmap =? 0) then ret None else
  let best_p := trailing_zeros bitmap in
  if (MAX_PRIORITIES <=? best_p)%nat then ret None else
  let! depths := gets runqueue_depths in
  let! depth := at_ depths best_p in
  if (0 <? depth)%nat then
    let! rows := gets runqueues in
    let! row := at_ rows best_p in
    let! next_slot := at_ row 0 in
    let! current := gets current_slot in
    if bool_decide (Some next_slot <> current) then ret (Some next_slot) else ret None
  else ret None.

Definition context_switch_pair {E} (L : Layout) : S_ E (option (nat * nat * DispatchDecision)) :=
  let! current := gets current_slot in
  match current with
  | None => ret None
  | Some current =>
      let! next := next_switch_index in
      match next with
      | None => ret None
      | Some next_slot =>
          let! t := get_thread current in
          do! (if bool_decide (state t = Running) then requeue_running current else ret tt) in
          let! best_p := priority_for_thread next_slot in
          let! dequeued := dequeue best_p in
          match dequeued with
          | None => ret None
          | Some dequeued_slot =>
              do! modify (set_field current_slot (Some dequeued_slot)) in
              do! set_thread dequeued_slot (set_state Running) in
              do! set_thread dequeued_slot (bump dispatch_count) in
              do! modify (bump context_switches) in
              do! prepare_resume_slot L dequeued_slot in
              let! dispatch := dispatch_snapshot dequeued_slot in
              let! '(c, n) := context_pair current dequeued_slot in
              ret (Some (c, n, dispatch))
          end
      end
  end.

Record SchedulerStats : Type := mkSchedStats {
  ss_thread_count : nat; ss_runqueue_depth : nat; ss_thread_id : Z; ss_process_id : Z; ss_parent_process_id : Z;
  ss_thread_name : string; ss_thread_role : string; ss_thread_state : string; ss_total_ticks : Z;
  ss_context_switches : Z; ss_bootstrap_thread_id : Z; ss_idle_thread_id : Z }.

Definition sched_stats {E} (ticks : Z) : S_ E SchedulerStats :=
  let! t := current_thread in
  gets (fun s => mkSchedStats (thread_count s) (sum_list (runqueue_depths s)) (id t) (process_id t) (parent_process_id t)
    (name t) (role_str (role t)) (state_str (state t)) ticks (context_switches s) (bootstrap_thread_id s) (idle_thread_id s)).

(** ** Exit *)
Record ExitGroupRecord : Type := mkExit {
  eg_status : Z; eg_thread_id : Z; eg_thread_name : string; eg_process_id : Z; eg_thread_count : nat;
  eg_next_thread_id : Z; eg_next_thread_name : string; eg_next_process_id : Z; eg_runqueue_depth : nat }.

(** The loop over the slots: the count of the threads it makes [Exited]. *)
Fixpoint exit_group {E} (group : Z) (slots : list nat) (count : nat) : S_ E nat :=
  match slots with
  | [] => ret count
  | slot :: slots' =>
      let! t := get_thread slot in
      if (thread_group_id t =? group) && bool_decide (state t <> Exited) then
        do! set_thread slot (set_state Exited) in
        do! remove_queued slot in
        exit_group group slots' (S count)
      else exit_group group slots' count
  end.

Definition request_exit_group {E} (status : Z) : S_ E (option ExitGroupRecord) :=
  let! init := gets initialized in
  if negb init then ret None else
  let! current := gets current_slot in
  match current with
  | None => ret None
  | Some slot =>
      let! t := get_thread slot in
      if bool_decide (state t = Exited) || (thread_group_id t =? 0) then ret None else
      let group := thread_group_id t in
      let! n := gets thread_count in
      let! exited_thread_count := exit_group group (seq 0 n) 0 in
      let! t' := get_thread slot in
      do! (if thread_group_id t' =? group then modify (set_field current_slot None) else ret tt) in
      let! bitmap := gets runqueue_bitmap in
      let! '(next_id, next_name, next_pid) :=
        (if negb (bitmap =? 0) then
           let! next := dequeue (trailing_zeros bitmap) in
           let! next_slot := lift (unwrap next) in
           do! modify (set_field current_slot (Some next_slot)) in
           do! set_thread next_slot (set_state Running) in
           do! modify (bump context_switches) in
           let! n := get_thread next_slot in
           ret (id n, name n, process_id n)
         else ret (0, "<none>"%string, 0)) in
      gets (fun s => Some (mkExit status (id t) (name t) (process_id t) exited_thread_count next_id next_name next_pid
        (sum_list (runqueue_depths s))))
  end.

(** ** Yield, block, unblock *)
Definition yield_current_user_thread {E} (L : Layout) (saved_user_rsp : Z) : S_ E (option nat) :=
  let! init := gets initialized in
  if negb init then ret None else
  let! current := gets current_slot in
  match current with
  | None => ret None
  | Some slot =>
      let! t := get_thread slot in
      if bool_decide (role t <> RUser) || bool_decide (state t = Exited) then ret None else
      do! set_thread slot (upd context (set_field rsp saved_user_rsp)) in
      do! (if bool_decide (state t = Running) then requeue_running slot else ret tt) in
      let! bitmap := gets runqueue_bitmap in
      let best_p := trailing_zeros bitmap in
      if (MAX_PRIORITIES <=? best_p)%nat then ret None else
      let! next := dequeue best_p in
      let! next_slot := lift (unwrap next) in
      if (next_slot =? slot)%nat then do! set_thread slot (set_state Running) in ret None else
      do! modify (set_field current_slot (Some next_slot)) in
      do! set_thread next_slot (set_state Running) in
      do! set_thread next_slot (bump dispatch_count) in
      do! call_hook next_slot in
      do! modify (bump context_switches) in
      do! prepare_resume_slot L next_slot in
      ret (Some next_slot)
  end.

Definition current_context_ptr_for_resume {E} (L : Layout) : S_ E (option nat) :=
  let! init := gets initialized in
  if negb init then ret None else
  let! current := gets current_slot in
  match current with
  | None => ret None
  | Some slot => do! prepare_resume_slot L slot in ret (Some slot)
  end.

Definition block_current_thread {E} : S_ E unit :=
  let! current := gets current_slot in
  match current with
  | None => ret tt
  | Some slot =>
      let! t := get_thread slot in
      if bool_decide (state t = Running) then set_thread slot (set_state Blocked) else ret tt
  end.

(** [rax] is the first word of the saved register frame. *)
Definition unblock_thread_with_result (target_pid target_tid result : Z) : S_ unit unit :=
  let! found := find_first (seq 0 MAX_THREADS) (fun i =>
    let! t := get_thread i in
    ret ((process_id t =? target_pid) && (id t =? target_tid) && bool_decide (state t = Blocked))) in
  match found with
  | None => throw tt
  | Some i =>
      let! t := get_thread i in
      do! modify (upd kmem (fun m => <[rsp (context t) := result]> m)) in
      requeue_running i
  end.

(** ** Descriptors, fork, reap *)
Definition get_fd_table {E} : S_ E (list (option Z)) :=
  let! current := gets current_slot in
  match current with
  | Some slot => let! t := get_thread slot in ret (fd_table t)
  | None => ret (replicate MAX_PROCESS_FDS None)
  end.

Definition set_fd_table {E} (table : list (option Z)) : S_ E unit :=
  let! current := gets current_slot in
  match current with
  | Some slot => set_thread slot (set_field fd_table table)
  | None => ret tt
  end.

(** [new_cr3] is the result of [clone_space]: 0 when it fails. *)
Definition fork_current_thread (new_cr3 : Z) : S_ SchedulerError Z :=
  let! init := gets initialized in
  let! current := gets current_slot in
  match (if init : bool then current else None) with
  | None => throw ThreadTableFull
  | Some parent_slot =>
      let! free := find_first (seq 0 MAX_THREADS) (fun i => let! t := get_thread i in ret (bool_decide (state t = Unused))) in
      let! child_slot := lift (ok_or ThreadTableFull free) in
      let! child_id := gets next_thread_id in
      do! modify (bump next_thread_id) in
      do! modify (upd thread_count S) in
      if new_cr3 =? 0 then throw ThreadTableFull else
      let! p := get_thread parent_slot in
      do! set_thread child_slot (fun _ =>
        mkThread child_id child_id (process_id p) child_id (name p) (role p) Runnable (base_priority p) 0 0
          (set_field cr3 new_cr3 (context p)) (fd_table p) 0) in
      do! ignore (enqueue child_slot) in
      ret child_id
  end.

Definition as_i64 (v : Z) : Z := if v <? 2 ^ 63 then v else v - U64.

(** The loop over the slots; [Err] tells whether there was a child. *)
Fixpoint reap_from (parent_pid target_pid : Z) (slots : list nat) (has_children : bool) : S_ bool (Z * Z) :=
  match slots with
  | [] => throw has_children
  | i :: slots' =>
      let! t := get_thread i in
      if (parent_process_id t =? parent_pid) && ((target_pid =? -1) || (as_i64 (id t) =? target_pid)) then
        if bool_decide (state t = Exited) then
          do! set_thread i (set_state Unused) in
          let! n := gets thread_count in
          if (n =? 0)%nat then panic else
          do! modify (upd thread_count pred) in
          ret (id t, exit_status t)
        else reap_from parent_pid target_pid slots' true
      else reap_from parent_pid target_pid slots' has_children
  end.
Definition reap_child (parent_pid target_pid : Z) : S_ bool (Z * Z) := reap_from parent_pid target_pid (seq 0 MAX_THREADS) false.

Record SpawnedUserThread : Type := mkSpawned { sp_thread_id : Z; sp_process_id : Z }.

Definition create_user_thread (L : Layout) (entry_point user_stack page_table : Z) : S_ SchedulerError SpawnedUserThread :=
  let! init := gets initialized in
  if negb init then throw MissingIdleThread else
  let! pid := gets next_thread_id in
  let! slot := create_thread 0 "user-init" RUser (mkIdentity pid 0 pid) in
  do! initialize_user_thread slot (user_stacks L + Z.of_nat slot * KERNEL_STACK_SIZE) KERNEL_STACK_SIZE
    entry_point user_stack page_table in
  do! enqueue slot in
  let! t := get_thread slot in
  ret (mkSpawned (id t) (process_id t)).

(** ** Identity of the current thread, the hook *)
Definition current_field {E} (f : Thread -> Z) : S_ E Z :=
  let! current := gets current_slot in
  match current with
  | Some slot => let! t := get_thread slot in ret (f t)
  | None => ret 0
  end.
Definition current_thread_id {E} : S_ E Z := current_field id.
Definition current_process_id {E} : S_ E Z := current_field process_id.
Definition current_parent_process_id {E} : S_ E Z := current_field parent_process_id.

Definition register_hps_bridge {E} : S_ E unit := modify (set_field hps_hook true).
Definition trigger_hps_bridge {E} (thread_id : Z) (is_gpu : bool) : S_ E unit :=
  let! hook := gets hps_hook in
  if hook : bool then modify (upd hook_log (fun l => l ++ [(thread_id, is_gpu)])) else ret tt.

(** ** The globals *)
Record Kernel : Type := mkKernel {
  BOOTSTRAP_ACTIVE : bool; SCHEDULER_READY : bool; SCHEDULER_TICKS : Z; NEED_RESCHEDULE : bool; SCHEDULER : Scheduler }.
#[export] Instance Kernel_eta : RecordEta Kernel :=
  fun k => mkKernel (BOOTSTRAP_ACTIVE k) (SCHEDULER_READY k) (SCHEDULER_TICKS k) (NEED_RESCHEDULE k) (SCHEDULER k).

Definition on_sched {E A} (m : S_ E A) : M Kernel E A := zoom SCHEDULER (set_field SCHEDULER) m.

Definition on_timer_interrupt {E} : M Kernel E unit :=
  let! active := gets BOOTSTRAP_ACTIVE in
  let! ready := gets SCHEDULER_READY in
  if negb active && negb ready then ret tt else
  do! modify (upd SCHEDULER_TICKS (fun t => wrap_add U64 t 1)) in
  if negb active then
    let! next := on_sched next_switch_index in
    if bool_decide (is_Some next) then modify (set_field NEED_RESCHEDULE true) else ret tt
  else do! on_sched on_timer_tick in ret tt.

Definition sched_yield_switch {E} : M Kernel E unit :=
  let! next := on_sched next_switch_index in
  if bool_decide (is_Some next) then modify (set_field NEED_RESCHEDULE true) else ret tt.

(** The pair of contexts to switch between, if a switch is due. *)
Definition run_idle_cycle {E} (L : Layout) : M Kernel E (option (nat * nat)) :=
  let! need := gets NEED_RESCHEDULE in
  do! modify (set_field NEED_RESCHEDULE false) in
  if need : bool then
    let! r := on_sched (context_switch_pair L) in
    ret ((fun '(c, n, _) => (c, n)) <$> r)
  else ret None.

(** [idle_loop]: the boot code leaves the processor for good; the contexts it
    switches between. *)
Definition idle_loop {E} (L : Layout) : M Kernel E (nat * nat) :=
  catch (on_sched (initial_context_pair L)) (fun r =>
    match r with
    | inl contexts => ret contexts
    | inr _ => panic
    end).

(** [bootstrap]: [ticks] timer interrupts arrive during the wait, which ends
    with the third or with the deadline. *)
Definition bootstrap (L : Layout) (kernel_cr3 : Z) (timer_ok timed_out : bool) (ticks : nat) : M Kernel SchedulerError SchedulerStats :=
  do! modify (set_field BOOTSTRAP_ACTIVE false) in
  do! modify (set_field SCHEDULER_READY false) in
  do! modify (set_field SCHEDULER_TICKS 0) in
  do! on_sched (initialize_bootstrap_threads L kernel_cr3) in
  if negb timer_ok then throw Timer else
  do! modify (set_field BOOTSTRAP_ACTIVE true) in
  do! Nat.iter ticks (fun m => do! on_timer_interrupt in m) (ret tt) in
  let! seen := gets SCHEDULER_TICKS in
  if timed_out || (seen <? BOOTSTRAP_TARGET_TICKS) then
    do! modify (set_field BOOTSTRAP_ACTIVE false) in throw Timeout
  else
  do! modify (set_field BOOTSTRAP_ACTIVE false) in
  do! modify (set_field SCHEDULER_READY true) in
  do! on_sched restore_bootstrap_as_current in
  on_sched (sched_stats seen).
