(* ===== verification/SchedFacts.v ===== *)
(** * The scheduler: invariants and theorems

    The run queues as lists ([queue]), what the operations on the arrays do to
    them, the invariant that a thread is runnable exactly when it is in the queue
    of its priority, and the properties of the scheduler's operations. *)
From stdpp Require Import base list numbers option strings gmap.
From Stdlib Require Import ZArith Lia Bool.
From S2P Require Import Prelude Sched.

(** ** The queues as lists *)
Definition depth_of (s : Scheduler) (p : nat) : nat := default 0%nat (runqueue_depths s !! p).
Definition row_of (s : Scheduler) (p : nat) : list nat := default [] (runqueues s !! p).
Definition queue (s : Scheduler) (p : nat) : list nat := take (depth_of s p) (row_of s p).

Definition bit_of (s : Scheduler) (p : nat) : bool := Z.testbit (runqueue_bitmap s) (Z.of_nat p).

(** The arrays have their sizes, and the bitmap tells the non-empty queues. *)
Definition sched_wf (s : Scheduler) : Prop :=
  length (threads s) = MAX_THREADS /\ Forall (fun t => 0 <= base_priority t) (threads s) /\
  length (runqueues s) = MAX_PRIORITIES /\ Forall (fun r => length r = MAX_THREADS) (runqueues s) /\
  length (runqueue_depths s) = MAX_PRIORITIES /\ Forall (fun d => (d <= MAX_THREADS)%nat) (runqueue_depths s) /\
  0 <= runqueue_bitmap s < U64 /\
  forall p, (p < MAX_PRIORITIES)%nat -> bit_of s p = (0 <? depth_of s p)%nat.

Definition with_rq (r : list (list nat)) (d : list nat) (b : Z) (s : Scheduler) : Scheduler :=
  set_field runqueues r (set_field runqueue_depths d (set_field runqueue_bitmap b s)).

(** [s'] is [s] with other queues: those of [Q]. *)
Definition requeued (s s' : Scheduler) (Q : nat -> list nat) : Prop :=
  sched_wf s' /\ s' = with_rq (runqueues s') (runqueue_depths s') (runqueue_bitmap s') s /\ forall p, queue s' p = Q p.

Definition set_queue (Q : nat -> list nat) (p : nat) (l : list nat) : nat -> list nat :=
  fun p' => if decide (p' = p) then l else Q p'.

Lemma priority_bound t : (priority_of t < MAX_PRIORITIES)%nat.
Proof. unfold priority_of, MAX_PRIORITIES. bdestruct_if; lia. Qed.

Lemma at_run {E A} (l : list A) i x s : l !! i = Some x -> at_ (E:=E) l i s = (Ok x, s).
Proof. intros H. unfold at_. by rewrite H. Qed.

Lemma get_thread_run {E} s slot t : threads s !! slot = Some t -> get_thread (E:=E) slot s = (Ok t, s).
Proof. intros H. unfold get_thread, bind, gets. by apply at_run. Qed.

Lemma set_thread_run {E} s slot t f : threads s !! slot = Some t ->
  set_thread (E:=E) slot f s = (Ok tt, upd threads (alter f slot) s).
Proof. intros H. unfold set_thread, bind. by rewrite (get_thread_run s slot t H). Qed.

Lemma wf_row s p : sched_wf s -> (p < MAX_PRIORITIES)%nat ->
  runqueues s !! p = Some (row_of s p) /\ length (row_of s p) = MAX_THREADS /\
  runqueue_depths s !! p = Some (depth_of s p) /\ (depth_of s p <= MAX_THREADS)%nat.
Proof.
  intros (_ & _ & Hr & Hrs & Hd & Hds & _) Hp. unfold row_of, depth_of.
  destruct (lookup_lt_is_Some_2 (runqueues s) p ltac:(lia)) as [r Hrow].
  destruct (lookup_lt_is_Some_2 (runqueue_depths s) p ltac:(lia)) as [d Hdep]. rewrite Hrow, Hdep. simpl.
  repeat split; [by eapply Forall_lookup_1 in Hrs|by eapply Forall_lookup_1 in Hds].
Qed.

Lemma queue_length s p : sched_wf s -> (p < MAX_PRIORITIES)%nat -> length (queue s p) = depth_of s p.
Proof. intros Hs Hp. destruct (wf_row s p Hs Hp) as (_ & Hl & _ & Hd). unfold queue. rewrite length_take. lia. Qed.

Lemma bit_queue s p : sched_wf s -> (p < MAX_PRIORITIES)%nat -> bit_of s p = negb (bool_decide (queue s p = [])).
Proof.
  intros Hs Hp. pose proof (queue_length s p Hs Hp) as Hl. destruct Hs as (_ & _ & _ & _ & _ & _ & _ & Hb). rewrite Hb by done.
  destruct (queue s p); simpl in Hl; rewrite <- Hl; done.
Qed.

Lemma row_alter s p f p' :
  default [] (alter f p (runqueues s) !! p') =
  if decide (p' = p) then (if decide (p < length (runqueues s))%nat then f (row_of s p) else []) else row_of s p'.
Proof.
  unfold row_of. destruct (decide (p' = p)) as [->|Hne]; [|by rewrite list_lookup_alter_ne].
  rewrite list_lookup_alter_eq. destruct (runqueues s !! p) eqn:Hr; simpl.
  - rewrite decide_True; [done|]. by eapply lookup_lt_Some.
  - rewrite decide_False; [done|]. apply lookup_ge_None in Hr. lia.
Qed.

Lemma testbit_set b p q : 0 <= b -> Z.testbit (Z.lor b (Z.shiftl 1 (Z.of_nat p))) (Z.of_nat q) = (Z.testbit b (Z.of_nat q) || (q =? p)%nat)%bool.
Proof.
  intros Hb. rewrite Z.lor_spec. f_equal. rewrite Z.shiftl_1_l, Z.pow2_bits_eqb by lia.
  destruct (Nat.eqb_spec q p) as [->|]; [apply Z.eqb_refl|]. apply Z.eqb_neq. lia.
Qed.

Lemma testbit_bitnot a n : 0 <= a < U64 -> 0 <= n -> Z.testbit (bitnot U64 a) n = ((n <? 64) && negb (Z.testbit a n))%bool.
Proof.
  intros Ha Hn. unfold bitnot. change U64 with (2 ^ 64) in *. replace (2 ^ 64 - 1 - a) with (Z.ones 64 - a) by (rewrite Z.ones_equiv; lia).
  destruct (Z.ltb_spec n 64); simpl.
  - rewrite <- (Z.mod_small a (2 ^ 64)) at 1 by lia. rewrite <- Z.land_ones by lia. rewrite Z.land_comm.
    rewrite Z.sub_nocarry_ldiff by (apply Z.bits_inj'; intros k Hk; rewrite Z.ldiff_spec, Z.land_spec, Z.bits_0; by destruct (Z.testbit (Z.ones 64) k), (Z.testbit a k)).
    rewrite Z.ldiff_spec, Z.land_spec, Z.ones_spec_low by lia. by rewrite andb_true_l.
  - destruct (Z.eq_dec (Z.ones 64 - a) 0) as [->|]; [apply Z.bits_0|]. rewrite Z.ones_equiv in *.
    apply Z.bits_above_log2; [lia|]. apply Z.lt_le_trans with 64; [|lia]. apply Z.log2_lt_pow2; lia.
Qed.

Lemma testbit_clear b p q : 0 <= b -> (p < 64)%nat -> (q < 64)%nat ->
  Z.testbit (Z.land b (bitnot U64 (Z.shiftl 1 (Z.of_nat p)))) (Z.of_nat q) = (Z.testbit b (Z.of_nat q) && negb (q =? p)%nat)%bool.
Proof.
  intros Hb Hp Hq. rewrite Z.land_spec. f_equal. rewrite testbit_bitnot; [|split; [apply Z.shiftl_nonneg; lia|]|lia].
  - rewrite (proj2 (Z.ltb_lt _ _)) by lia. simpl. f_equal. rewrite Z.shiftl_1_l, Z.pow2_bits_eqb by lia.
    destruct (Nat.eqb_spec q p) as [->|]; [apply Z.eqb_refl|]. apply Z.eqb_neq. lia.
  - rewrite Z.shiftl_1_l. change U64 with (2 ^ 64). apply Z.pow_lt_mono_r; lia.
Qed.

Lemma bitmap_range_set b p : 0 <= b < U64 -> (p < 64)%nat -> 0 <= Z.lor b (Z.shiftl 1 (Z.of_nat p)) < U64.
Proof.
  intros Hb Hp. rewrite Z.shiftl_1_l. assert (0 < 2 ^ Z.of_nat p) by (apply Z.pow_pos_nonneg; lia).
  assert (H2 : 2 ^ Z.of_nat p < 2 ^ 64) by (apply Z.pow_lt_mono_r; lia).
  split; [apply Z.lor_nonneg; lia|]. change U64 with (2 ^ 64) in *.
  assert (Hpos : 0 < Z.lor b (2 ^ Z.of_nat p)).
  { assert (0 <= Z.lor b (2 ^ Z.of_nat p)) by (apply Z.lor_nonneg; lia).
    destruct (Z.eq_dec (Z.lor b (2 ^ Z.of_nat p)) 0) as [Hz|]; [|lia]. apply Z.lor_eq_0_iff in Hz. lia. }
  apply Z.log2_lt_pow2; [done|]. rewrite Z.log2_lor by lia. apply Z.max_lub_lt.
  - destruct (Z.eq_dec b 0) as [->|]; [simpl; lia|]. apply Z.log2_lt_pow2; lia.
  - rewrite Z.log2_pow2 by lia. lia.
Qed.

Lemma bitmap_range_clear b c : 0 <= b < U64 -> 0 <= c -> 0 <= Z.land b c < U64.
Proof.
  intros Hb Hc. split; [apply Z.land_nonneg; lia|]. apply Z.le_lt_trans with b; [|lia].
  assert (Hd : Z.land b c + Z.ldiff b c = b).
  { rewrite Z.add_nocarry_lxor by (apply Z.bits_inj'; intros n Hn; rewrite !Z.land_spec, Z.ldiff_spec, Z.bits_0; by destruct (Z.testbit b n), (Z.testbit c n)).
    apply Z.bits_inj'. intros n Hn. rewrite Z.lxor_spec, Z.land_spec, Z.ldiff_spec. by destruct (Z.testbit b n), (Z.testbit c n). }
  assert (0 <= Z.ldiff b c) by (apply Z.ldiff_nonneg; lia). lia.
Qed.

Lemma alter_alter {A} (f g : A -> A) i (l : list A) : alter f i (alter g i l) = alter (fun x => f (g x)) i l.
Proof.
  apply list_eq. intros j. destruct (decide (j = i)) as [->|]; [|by rewrite !list_lookup_alter_ne].
  rewrite !list_lookup_alter_eq. by destruct (l !! i).
Qed.

(** Replacing one queue. *)
Lemma rq_update s p row' d' b' :
  sched_wf s -> (p < MAX_PRIORITIES)%nat -> length row' = MAX_THREADS -> (d' <= MAX_THREADS)%nat -> 0 <= b' < U64 ->
  (forall p', (p' < MAX_PRIORITIES)%nat -> Z.testbit b' (Z.of_nat p') = if decide (p' = p) then (0 <? d')%nat else bit_of s p') ->
  requeued s (with_rq (alter (fun _ => row') p (runqueues s)) (alter (fun _ => d') p (runqueue_depths s)) b' s)
    (set_queue (queue s) p (take d' row')).
Proof.
  intros Hs Hp Hrow Hd Hb Hbits. pose proof Hs as (Hts & Hpr & Hr & Hrs & Hds & Hdsl & _ & Hbm).
  destruct (wf_row s p Hs Hp) as (Hlr & _ & Hld & _).
  set (s' := with_rq _ _ _ s).
  assert (Hdep : forall p', depth_of s' p' = if decide (p' = p) then d' else depth_of s p').
  { intros p'. unfold depth_of, s'. cbn. destruct (decide (p' = p)) as [->|]; [by rewrite list_lookup_alter_eq, Hld|].
    by rewrite list_lookup_alter_ne. }
  assert (Hro : forall p', row_of s' p' = if decide (p' = p) then row' else row_of s p').
  { intros p'. unfold row_of at 1, s'. cbn. rewrite row_alter. by rewrite (decide_True (P := (p < length (runqueues s))%nat)) by lia. }
  split; [|split; [done|]].
  - unfold sched_wf. cbn. rewrite !length_alter. repeat split; try done; try lia.
    + apply Forall_alter; [done|]. by intros.
    + apply Forall_alter; [done|]. by intros.
    + intros p' Hp'. unfold bit_of. cbn. rewrite Hdep, Hbits by done. destruct (decide (p' = p)); [done|]. by apply Hbm.
  - intros p'. unfold queue at 1, set_queue. rewrite Hdep, Hro. by destruct (decide (p' = p)) as [->|].
Qed.

Lemma alter_const {A} (f : A -> A) (l : list A) p x : l !! p = Some x -> alter f p l = alter (fun _ => f x) p l.
Proof.
  intros Hx. apply list_eq. intros i. destruct (decide (i = p)) as [->|]; [by rewrite !list_lookup_alter_eq, Hx|].
  by rewrite !list_lookup_alter_ne.
Qed.

Lemma enqueue_run s slot t : sched_wf s -> threads s !! slot = Some t -> (length (queue s (priority_of t)) < MAX_THREADS)%nat ->
  exists s', enqueue slot s = (Ok tt, s') /\
    requeued s s' (set_queue (queue s) (priority_of t) (queue s (priority_of t) ++ [slot])).
Proof.
  intros Hs Ht Hlt. set (p := priority_of t) in *. pose proof (priority_bound t : (p < 64)%nat) as Hp.
  destruct (wf_row s p Hs Hp) as (Hr & Hrl & Hd & Hdl). rewrite queue_length in Hlt by done.
  destruct (lookup_lt_is_Some_2 (row_of s p) (depth_of s p) ltac:(lia)) as [x Hx].
  eexists. split.
  - unfold enqueue, priority_for_thread. unfold bind at 1 2. rewrite (get_thread_run s slot t Ht). unfold ret at 1. fold p.
    unfold gets, bind at 1 2. rewrite (at_run _ _ _ _ Hd). rewrite (proj2 (Nat.leb_gt _ _) Hlt).
    unfold bind at 1 2 3. rewrite (at_run _ _ _ _ Hr), (at_run _ _ _ _ Hx). unfold bind, modify. reflexivity.
  - match goal with |- requeued s ?x _ => change x with (with_rq (alter (fun r => <[depth_of s p := slot]> r) p (runqueues s))
      (alter (fun _ => S (depth_of s p)) p (runqueue_depths s)) (Z.lor (runqueue_bitmap s) (Z.shiftl 1 (Z.of_nat p))) s) end.
    rewrite (alter_const _ _ _ _ Hr).
    assert (Hq : queue s p ++ [slot] = take (S (depth_of s p)) (<[depth_of s p:=slot]> (row_of s p))).
    { rewrite (take_S_r _ _ slot) by (apply list_lookup_insert_eq; lia). by rewrite take_insert_ge by lia. }
    rewrite Hq. apply rq_update; try done; try lia.
    + by rewrite length_insert.
    + apply bitmap_range_set; [apply Hs|done].
    + intros p' Hp'. rewrite testbit_set by apply Hs. destruct (decide (p' = p)) as [->|Hne].
      * rewrite Nat.eqb_refl, orb_true_r. by rewrite (proj2 (Nat.ltb_lt _ _)) by lia.
      * by rewrite (proj2 (Nat.eqb_neq _ _) Hne), orb_false_r.
Qed.

Lemma shift_row_run {E} (row : list nat) s count : forall from, (from + count < length row)%nat ->
  exists row', shift_row (E:=E) row from count s = (Ok row', s) /\ length row' = length row /\
    take (from + count) row' = take from row ++ take count (drop (S from) row).
Proof.
  revert row. induction count as [|count IH]; intros row from Hlt; cbn [shift_row].
  - exists row. rewrite Nat.add_0_r, take_0, app_nil_r. done.
  - destruct (lookup_lt_is_Some_2 row (S from) ltac:(lia)) as [x Hx]. destruct (lookup_lt_is_Some_2 row from ltac:(lia)) as [y Hy].
    unfold bind at 1 2. rewrite (at_run _ _ _ _ Hx), (at_run _ _ _ _ Hy).
    destruct (IH (<[from := x]> row) (S from) ltac:(rewrite length_insert; lia)) as (row' & Hrun & Hl & Htake).
    exists row'. rewrite Hrun, Hl, length_insert. split; [done|]. split; [done|].
    replace (from + S count)%nat with (S from + count)%nat by lia. rewrite Htake.
    rewrite (take_S_r _ _ x) by (apply list_lookup_insert_eq; lia). rewrite take_insert_ge by lia.
    rewrite drop_insert_lt by lia. rewrite <- app_assoc. f_equal. rewrite (drop_S row x (S from) Hx). done.
Qed.

Lemma close_gap_run {E} s p from : sched_wf s -> (p < MAX_PRIORITIES)%nat -> (from < length (queue s p))%nat ->
  exists s', close_gap (E:=E) p from s = (Ok tt, s') /\ requeued s s' (set_queue (queue s) p (delete from (queue s p))).
Proof.
  intros Hs Hp Hf. rewrite queue_length in Hf by done. destruct (wf_row s p Hs Hp) as (Hr & Hrl & Hd & Hdl).
  destruct (shift_row_run (E:=E) (row_of s p) s (depth_of s p - 1 - from) from ltac:(lia)) as (row' & Hrun & Hl & Htake).
  replace (from + (depth_of s p - 1 - from))%nat with (depth_of s p - 1)%nat in Htake by lia.
  assert (Hq : delete from (queue s p) = take (depth_of s p - 1) row').
  { rewrite Htake, delete_take_drop. unfold queue. rewrite take_take, Nat.min_l by lia. f_equal.
    rewrite skipn_firstn_comm. f_equal. lia. }
  unfold close_gap. unfold gets, bind at 1 2 3 4 5. rewrite (at_run _ _ _ _ Hd), (at_run _ _ _ _ Hr), Hrun. unfold modify, bind at 1 2.
  rewrite Hq. assert (Hfin : forall b', 0 <= b' < U64 ->
    (forall p', (p' < MAX_PRIORITIES)%nat -> Z.testbit b' (Z.of_nat p') = if decide (p' = p) then (0 <? depth_of s p - 1)%nat else bit_of s p') ->
    requeued s (with_rq (alter (fun _ => row') p (runqueues s)) (alter pred p (runqueue_depths s)) b' s)
      (set_queue (queue s) p (take (depth_of s p - 1) row'))).
  { intros b' Hb' Hbits. rewrite (alter_const _ _ _ _ Hd), <- Nat.sub_1_r. apply rq_update; try done; lia. }
  pose proof Hs as (_ & _ & _ & _ & _ & _ & Hb & Hbm).
  destruct (Nat.eqb_spec (depth_of s p - 1) 0) as [Hz|Hnz].
  - eexists. split; [reflexivity|]. apply (Hfin (Z.land (runqueue_bitmap s) (bitnot U64 (Z.shiftl 1 (Z.of_nat p))))).
    + apply bitmap_range_clear; [done|]. unfold bitnot. rewrite Z.shiftl_1_l.
      assert (2 ^ Z.of_nat p < 2 ^ 64) by (apply Z.pow_lt_mono_r; unfold MAX_PRIORITIES in Hp; lia). change (2 ^ 64) with U64 in *. lia.
    + intros p' Hp'. rewrite testbit_clear by (unfold MAX_PRIORITIES in *; lia). destruct (decide (p' = p)) as [->|Hne].
      * rewrite Nat.eqb_refl, andb_false_r, Hz. done.
      * by rewrite (proj2 (Nat.eqb_neq _ _) Hne), andb_true_r.
  - eexists. split; [reflexivity|]. apply (Hfin (runqueue_bitmap s)); [done|]. intros p' Hp'. transitivity (bit_of s p'); [done|].
    destruct (decide (p' = p)) as [->|]; [|done]. rewrite Hbm by done. by rewrite !(proj2 (Nat.ltb_lt _ _)) by lia.
Qed.

Lemma requeued_same s : sched_wf s -> requeued s s (queue s).
Proof. intros Hs. split; [done|]. split; [by destruct s|done]. Qed.

Lemma requeued_ext s s' Q Q' : (forall p, Q p = Q' p) -> requeued s s' Q -> requeued s s' Q'.
Proof. intros HQ (? & ? & H). split; [done|]. split; [done|]. intros p. by rewrite H. Qed.

Lemma queue_row s p i x : queue s p !! i = Some x -> row_of s p !! i = Some x.
Proof. unfold queue. intros H. apply lookup_take_Some in H. by destruct H. Qed.

Lemma dequeue_run {E} s p slot rest : sched_wf s -> (p < MAX_PRIORITIES)%nat -> queue s p = slot :: rest ->
  exists s', dequeue (E:=E) p s = (Ok (Some slot), s') /\ requeued s s' (set_queue (queue s) p rest).
Proof.
  intros Hs Hp Hq. destruct (wf_row s p Hs Hp) as (Hr & Hrl & Hd & Hdl).
  pose proof (queue_length s p Hs Hp) as Hl. rewrite Hq in Hl. simpl in Hl.
  destruct (close_gap_run (E:=E) s p 0 Hs Hp) as (s' & Hrun & Hreq); [rewrite Hq; simpl; lia|]. rewrite Hq in Hreq. simpl in Hreq.
  exists s'. split; [|done]. unfold dequeue, gets, bind at 1 2. rewrite (at_run _ _ _ _ Hd).
  rewrite (proj2 (Nat.eqb_neq _ _)) by lia. unfold bind at 1 2 3. rewrite (at_run _ _ _ _ Hr).
  assert (H0 : row_of s p !! 0%nat = Some slot) by (apply queue_row; by rewrite Hq).
  rewrite (at_run _ _ _ _ H0). unfold bind. by rewrite Hrun.
Qed.

Lemma find_first_pure {E} (test : nat -> S_ E bool) (f : nat -> bool) l s :
  Forall (fun i => test i s = (Ok (f i), s)) l -> find_first l test s = (Ok (position f l ≫= fun k => l !! k), s).
Proof.
  induction 1 as [|i l Hi Hl IH]; [done|]. cbn [find_first position]. unfold bind. rewrite Hi.
  destruct (f i); [done|]. rewrite IH. by destruct (position f l).
Qed.

Lemma filter_ne_id (l : list nat) x : x ∉ l -> filter (fun y => y <> x) l = l.
Proof.
  induction l as [|y l IH]; [done|]. intros Hx. rewrite not_elem_of_cons in Hx. rewrite filter_cons, decide_True by naive_solver.
  f_equal. apply IH. tauto.
Qed.

Lemma delete_filter (l : list nat) k x : NoDup l -> l !! k = Some x -> delete k l = filter (fun y => y <> x) l.
Proof.
  intros Hnd Hk. rewrite delete_take_drop. rewrite <- (take_drop_middle l k x Hk) in Hnd |- * at 3.
  apply NoDup_app in Hnd as (_ & Hx & [Hx' _]%NoDup_cons).
  rewrite filter_app, filter_cons, decide_False by naive_solver. f_equal.
  - symmetry. apply filter_ne_id. intros Hin. apply (Hx x Hin). by left.
  - symmetry. by apply filter_ne_id.
Qed.

Lemma remove_queued_run {E} s slot t : sched_wf s -> threads s !! slot = Some t -> NoDup (queue s (priority_of t)) ->
  exists s', remove_queued (E:=E) slot s = (Ok tt, s') /\
    requeued s s' (set_queue (queue s) (priority_of t) (filter (fun x => x <> slot) (queue s (priority_of t)))).
Proof.
  intros Hs Ht Hnd. set (p := priority_of t) in *. pose proof (priority_bound t : (p < MAX_PRIORITIES)%nat) as Hp.
  destruct (wf_row s p Hs Hp) as (Hr & Hrl & Hd & Hdl).
  unfold remove_queued, priority_for_thread. unfold bind at 1 2. rewrite (get_thread_run s slot t Ht). unfold ret at 1. fold p.
  unfold gets at 1, bind at 1 2. rewrite (at_run _ _ _ _ Hd). unfold bind at 1.
  rewrite (find_first_pure _ (fun i => (default 0 (row_of s p !! i) =? slot)%nat)).
  2: { apply Forall_seq. intros i Hi. destruct (lookup_lt_is_Some_2 (row_of s p) i ltac:(lia)) as [x Hx].
       unfold gets, bind at 1 2. rewrite (at_run _ _ _ _ Hr). unfold bind. rewrite (at_run _ _ _ _ Hx). by rewrite Hx. }
  destruct (position _ (seq 0 (depth_of s p))) as [k|] eqn:Hpos; cbn [mbind option_bind].
  - apply position_Some in Hpos as [(i & Hk & Hi) _]. apply lookup_seq in Hk as [-> Hlt]. simpl in Hi |- *.
    rewrite lookup_seq_lt by done. simpl. destruct (close_gap_run (E:=E) s p k Hs Hp) as (s' & Hrun & Hreq); [by rewrite queue_length|].
    exists s'. split; [done|]. eapply requeued_ext; [|exact Hreq]. intros p'. unfold set_queue. destruct (decide (p' = p)); [|done].
    apply delete_filter; [done|]. unfold queue. rewrite lookup_take_lt by done.
    destruct (lookup_lt_is_Some_2 (row_of s p) k ltac:(lia)) as [x Hx]. rewrite Hx in Hi |- *. simpl in Hi. apply Nat.eqb_eq in Hi. by subst.
  - exists s. split; [done|]. eapply requeued_ext; [|by apply requeued_same]. intros p'. unfold set_queue. destruct (decide (p' = p)) as [->|]; [|done].
    symmetry. apply filter_ne_id. intros Hin. apply list_elem_of_lookup in Hin as [i Hi].
    assert (Hlt : (i < depth_of s p)%nat) by (rewrite <- (queue_length s p) by done; by eapply lookup_lt_Some).
    apply position_None in Hpos. rewrite list.Forall_forall in Hpos. specialize (Hpos i). rewrite (queue_row _ _ _ _ Hi) in Hpos. simpl in Hpos.
    rewrite Nat.eqb_refl in Hpos. discriminate Hpos. apply elem_of_seq. lia.
Qed.

(** ** Runnable threads are the queued ones *)
Definition queued_runnable (ts : list Thread) (Q : nat -> list nat) : Prop :=
  (forall slot t, ts !! slot = Some t -> state t = Runnable <-> slot ∈ Q (priority_of t)) /\
  (forall p slot, slot ∈ Q p -> exists t, ts !! slot = Some t /\ priority_of t = p) /\
  (forall p, NoDup (Q p)).

(** A change of the thread in [slot] that keeps its priority. *)
Lemma alter_cases (ts : list Thread) f slot t slot' t' :
  ts !! slot = Some t -> alter f slot ts !! slot' = Some t' -> (slot' = slot /\ t' = f t) \/ (slot' <> slot /\ ts !! slot' = Some t').
Proof.
  intros Ht. destruct (decide (slot' = slot)) as [->|]; [rewrite list_lookup_alter_eq, Ht|rewrite list_lookup_alter_ne by done; tauto].
  intros [= <-]. by left.
Qed.

Lemma alter_owner (ts : list Thread) f slot t p slot' :
  ts !! slot = Some t -> priority_of (f t) = priority_of t ->
  (exists u, ts !! slot' = Some u /\ priority_of u = p) -> exists u, alter f slot ts !! slot' = Some u /\ priority_of u = p.
Proof.
  intros Ht Hp (u & Hu & Hup). destruct (decide (slot' = slot)) as [->|]; [|exists u; by rewrite list_lookup_alter_ne].
  exists (f t). rewrite list_lookup_alter_eq, Ht. split; [done|]. congruence.
Qed.

Lemma qr_ext ts Q Q' : (forall p, Q p = Q' p) -> queued_runnable ts Q -> queued_runnable ts Q'.
Proof.
  intros HQ (H1 & H2 & H3). split; [intros slot t Ht; rewrite <- HQ; by apply H1|]. split; [intros p slot; rewrite <- HQ; apply H2|].
  intros p. rewrite <- HQ. apply H3.
Qed.

Lemma qr_keep ts Q slot t f : queued_runnable ts Q -> ts !! slot = Some t -> priority_of (f t) = priority_of t ->
  (state (f t) = Runnable <-> state t = Runnable) -> queued_runnable (alter f slot ts) Q.
Proof.
  intros (H1 & H2 & H3) Ht Hp Hs. split; [|split; [|done]].
  - intros slot' t' Ht'. destruct (alter_cases _ _ _ _ _ _ Ht Ht') as [[-> ->]|[_ ?]]; [|by apply H1]. rewrite Hs, Hp. by apply H1.
  - intros p slot' Hin. by eapply alter_owner, H2.
Qed.

Lemma not_queued ts Q slot t p : queued_runnable ts Q -> ts !! slot = Some t -> state t <> Runnable -> slot ∉ Q p.
Proof. intros (H1 & H2 & _) Ht Hn Hin. destruct (H2 p slot Hin) as (u & Hu & Hp). apply Hn, (H1 slot t Ht). by replace t with u by congruence; rewrite Hp. Qed.

Lemma qr_push ts Q slot t f : queued_runnable ts Q -> ts !! slot = Some t -> state t <> Runnable -> state (f t) = Runnable ->
  queued_runnable (alter f slot ts) (set_queue Q (priority_of (f t)) (Q (priority_of (f t)) ++ [slot])).
Proof.
  intros Hq Ht Hn Hs. pose proof (fun p => not_queued ts Q slot t p Hq Ht Hn) as Hout. destruct Hq as (H1 & H2 & H3).
  assert (Hown : forall p slot', slot' ∈ Q p -> exists u, alter f slot ts !! slot' = Some u /\ priority_of u = p).
  { intros p slot' Hin. rewrite list_lookup_alter_ne; [by apply H2|]. intros <-. by apply (Hout p). }
  split; [|split].
  - intros slot' t' Ht'. unfold set_queue. destruct (alter_cases _ _ _ _ _ _ Ht Ht') as [[-> ->]|[Hne Hold]].
    + rewrite decide_True by done. split; [|done]. intros _. apply elem_of_app. right. by left.
    + rewrite (H1 slot' t' Hold). destruct (decide (priority_of t' = priority_of (f t))) as [->|]; [|done]. set_solver.
  - intros p slot' Hin. unfold set_queue in Hin. destruct (decide (p = priority_of (f t))) as [->|]; [|by apply Hown].
    apply elem_of_app in Hin as [Hin|Hin]; [by apply Hown|]. apply list_elem_of_singleton in Hin as ->.
    exists (f t). by rewrite list_lookup_alter_eq, Ht.
  - intros p. unfold set_queue. destruct (decide (p = priority_of (f t))) as [->|]; [|apply H3].
    apply NoDup_app. split; [apply H3|]. split; [|apply NoDup_singleton]. intros x Hx Hx'. apply list_elem_of_singleton in Hx' as ->. by apply (Hout _ Hx).
Qed.

Lemma qr_drop ts Q slot t f : queued_runnable ts Q -> ts !! slot = Some t ->
  priority_of (f t) = priority_of t -> state (f t) <> Runnable ->
  queued_runnable (alter f slot ts) (set_queue Q (priority_of t) (filter (fun x => x <> slot) (Q (priority_of t)))).
Proof.
  intros (H1 & H2 & H3) Ht Hp Hs. split; [|split].
  - intros slot' t' Ht'. unfold set_queue. destruct (alter_cases _ _ _ _ _ _ Ht Ht') as [[-> ->]|[Hne Hold]].
    + rewrite Hp, decide_True by done. split; [done|]. intros Hin. by apply list_elem_of_filter in Hin as [? _].
    + rewrite (H1 slot' t' Hold). destruct (decide (priority_of t' = priority_of t)) as [->|]; [|done].
      rewrite list_elem_of_filter. tauto.
  - intros p slot' Hin. unfold set_queue in Hin. eapply alter_owner, H2; [done..|].
    destruct (decide (p = priority_of t)) as [->|]; [|done]. apply list_elem_of_filter in Hin. tauto.
  - intros p. unfold set_queue. destruct (decide (p = priority_of t)) as [->|]; [|apply H3]. apply NoDup_filter, H3.
Qed.

Lemma filter_ne_head (x : nat) l : NoDup (x :: l) -> filter (fun y => y <> x) (x :: l) = l.
Proof. intros [Hx _]%NoDup_cons. rewrite filter_cons, decide_False by tauto. by apply filter_ne_id. Qed.

(** There is room for a thread that is not queued. *)
Lemma queue_room s slot t p : sched_wf s -> queued_runnable (threads s) (queue s) -> threads s !! slot = Some t -> state t <> Runnable ->
  (length (queue s p) < MAX_THREADS)%nat.
Proof.
  intros Hs Hq Ht Hn. pose proof (not_queued _ _ _ _ p Hq Ht Hn) as Hout. destruct Hq as (H1 & H2 & H3).
  assert (Hsub : slot :: queue s p ⊆+ seq 0 MAX_THREADS).
  { apply NoDup_submseteq; [by constructor; [|apply H3]|]. intros x Hx. apply elem_of_seq.
    assert (Hlt : (x < length (threads s))%nat).
    { apply elem_of_cons in Hx as [->|Hx]; [by eapply lookup_lt_Some|]. destruct (H2 _ _ Hx) as (u & Hu & _). by eapply lookup_lt_Some. }
    destruct Hs as [Hl _]. lia. }
  apply submseteq_length in Hsub. rewrite length_seq in Hsub. simpl in Hsub. lia.
Qed.

Definition sched_ok (s : Scheduler) : Prop := sched_wf s /\ queued_runnable (threads s) (queue s).

(** What the queue invariant depends on, and the rest. *)
Definition core (s : Scheduler) := (threads s, runqueues s, runqueue_depths s, runqueue_bitmap s).
Definition rest_of (s : Scheduler) : Scheduler := set_field threads [] (with_rq [] [] 0 s).

Lemma core_queue s s' : core s = core s' -> forall p, queue s p = queue s' p.
Proof. unfold core. intros [= _ Hr Hd _] p. unfold queue, row_of, depth_of. by rewrite Hr, Hd. Qed.

Lemma core_ok s s' : core s = core s' -> sched_ok s -> sched_ok s'.
Proof.
  intros Hc [Hwf Hq]. pose proof (core_queue s s' Hc) as HQ. unfold core in Hc. injection Hc as Ht Hr Hd Hb. split.
  - unfold sched_wf, bit_of, depth_of in *. by rewrite <- Ht, <- Hr, <- Hd, <- Hb.
  - rewrite <- Ht. by eapply qr_ext.
Qed.

(** The changes a thread undergoes keep its priority. *)
Definition keeps_priority (f : Thread -> Thread) : Prop := forall t, base_priority (f t) = base_priority t.
Lemma keeps_priority_of f t : keeps_priority f -> priority_of (f t) = priority_of t.
Proof. intros H. unfold priority_of. by rewrite H. Qed.

Lemma wf_alter s s1 f slot : sched_wf s -> keeps_priority f -> core s1 = core (upd threads (alter f slot) s) -> sched_wf s1.
Proof.
  intros (Hl & Hb & Hrest) Hf Hc. unfold core in Hc. cbn in Hc. injection Hc as Ht Hr Hd Hm.
  unfold sched_wf, bit_of, depth_of in *. rewrite Ht, Hr, Hd, Hm, length_alter. split; [done|]. split; [|done].
  apply Forall_alter; [done|]. intros t _ Hp. by rewrite Hf.
Qed.

(** A change that keeps runnability. *)
Lemma alter_ok s s1 f slot t : sched_ok s -> threads s !! slot = Some t -> keeps_priority f ->
  (state (f t) = Runnable <-> state t = Runnable) -> core s1 = core (upd threads (alter f slot) s) -> sched_ok s1.
Proof.
  intros [Hwf Hq] Ht Hf Hs Hc. split; [by eapply wf_alter|].
  eapply qr_ext; [intros p; symmetry; apply (core_queue _ _ Hc)|]. unfold core in Hc. cbn in Hc. injection Hc as -> _ _ _.
  eapply qr_keep; [done..|by apply keeps_priority_of|done].
Qed.

Lemma requeued_core s s' Q : requeued s s' Q -> threads s' = threads s /\ rest_of s' = rest_of s.
Proof. intros (_ & -> & _). done. Qed.

(** A thread that becomes runnable and enters its queue. *)
Lemma spawn_run s s1 slot t f : sched_ok s -> threads s !! slot = Some t -> state t <> Runnable -> state (f t) = Runnable ->
  0 <= base_priority (f t) -> core s1 = core (upd threads (alter f slot) s) ->
  exists s', enqueue slot s1 = (Ok tt, s') /\ sched_ok s' /\ rest_of s' = rest_of s1 /\ threads s' = alter f slot (threads s) /\
    forall p, queue s' p = set_queue (queue s) (priority_of (f t)) (queue s (priority_of (f t)) ++ [slot]) p.
Proof.
  intros [Hwf Hq] Ht Hn Hr Hb Hcore.
  assert (HQ1 : forall p, queue s1 p = queue s p) by (intros p; by rewrite (core_queue _ _ Hcore)).
  assert (Hts1 : threads s1 = alter f slot (threads s)) by (unfold core in Hcore; cbn in Hcore; by injection Hcore).
  assert (Hwf1 : sched_wf s1).
  { pose proof Hwf as (Hl & Hps & Hrest). unfold core in Hcore. cbn in Hcore. injection Hcore as _ Hr1 Hd1 Hb1.
    unfold sched_wf, bit_of, depth_of in *. rewrite Hts1, Hr1, Hd1, Hb1, length_alter. split; [done|]. split; [|done].
    apply Forall_alter; [done|]. intros u Hu _. by replace u with t by congruence. }
  assert (Ht1 : threads s1 !! slot = Some (f t)) by (by rewrite Hts1, list_lookup_alter_eq, Ht).
  destruct (enqueue_run s1 slot (f t) Hwf1 Ht1) as (s' & Hrun & Hreq); [rewrite HQ1; by apply (queue_room s slot t)|].
  destruct (requeued_core _ _ _ Hreq) as [Hts Hrest]. destruct Hreq as (Hwf' & _ & HQ).
  assert (HQ' : forall p, queue s' p = set_queue (queue s) (priority_of (f t)) (queue s (priority_of (f t)) ++ [slot]) p)
    by (intros p; rewrite HQ; unfold set_queue; by rewrite !HQ1).
  exists s'. rewrite Hts, Hts1. split; [done|]. split; [|done]. split; [done|]. rewrite Hts, Hts1.
  eapply qr_ext; [intros p; symmetry; apply HQ'|]. by apply qr_push.
Qed.

(** Putting a thread back in its queue. *)
Lemma requeue_run {E} s slot t : sched_ok s -> threads s !! slot = Some t -> state t <> Runnable ->
  exists s', requeue_running (E:=E) slot s = (Ok tt, s') /\ sched_ok s' /\ rest_of s' = rest_of s /\
    threads s' = alter (set_state Runnable) slot (threads s) /\
    forall p, queue s' p = set_queue (queue s) (priority_of t) (queue s (priority_of t) ++ [slot]) p.
Proof.
  intros Hok Ht Hn. assert (Hb : 0 <= base_priority t) by (eapply (Forall_lookup_1 _ _ _ _ (proj1 (proj2 (proj1 Hok)))); exact Ht).
  destruct (spawn_run s (upd threads (alter (set_state Runnable) slot) s) slot t (set_state Runnable)) as (s' & Hrun & Hok' & Hrest & Hts & HQ); try done.
  exists s'. split; [unfold requeue_running, bind; rewrite (set_thread_run s slot t _ Ht); unfold ignore, catch; by rewrite Hrun|done].
Qed.

(** Taking the head of a queue. *)
Lemma dispatch_ok s s1 s2 slot t rest p f : sched_ok s -> threads s !! slot = Some t -> queue s p = slot :: rest ->
  requeued s s1 (set_queue (queue s) p rest) -> core s2 = core (upd threads (alter f slot) s1) -> keeps_priority f ->
  state (f t) <> Runnable ->
  sched_ok s2 /\ threads s2 = alter f slot (threads s) /\ forall p', queue s2 p' = set_queue (queue s) p rest p'.
Proof.
  intros [Hwf Hq] Ht Hhead Hreq Hc Hf Hs. destruct (requeued_core _ _ _ Hreq) as [Hts _]. destruct Hreq as (Hwf1 & _ & HQ).
  assert (Hp : priority_of t = p).
  { destruct Hq as (_ & H2 & _). destruct (H2 p slot) as (u & Hu & Hup); [rewrite Hhead; by left|]. congruence. }
  assert (HQ2 : forall p', queue s2 p' = set_queue (queue s) p rest p') by (intros p'; rewrite (core_queue _ _ Hc); apply HQ).
  assert (Hts2 : threads s2 = alter f slot (threads s)) by (unfold core in Hc; cbn in Hc; rewrite <- Hts; by injection Hc).
  split; [|done]. split; [by eapply wf_alter|]. rewrite Hts2. eapply qr_ext; [|apply (qr_drop (threads s) (queue s) slot t f)]; try done.
  - intros p'. rewrite HQ2. unfold set_queue. rewrite Hp, Hhead. destruct (decide (p' = p)); [|done].
    apply filter_ne_head. rewrite <- Hhead. apply Hq.
  - by apply keeps_priority_of.
Qed.

(** ** The best priority *)
Lemma bitmap_zero s : sched_wf s -> runqueue_bitmap s = 0 <-> forall p, (p < MAX_PRIORITIES)%nat -> queue s p = [].
Proof.
  intros Hs. split.
  - intros Hz p Hp. pose proof (bit_queue s p Hs Hp) as Hb. unfold bit_of in Hb. rewrite Hz, Z.bits_0 in Hb.
    by destruct (queue s p).
  - intros He. pose proof Hs as (_ & _ & _ & _ & _ & _ & Hr & _). apply Z.bits_inj'. intros n Hn. rewrite Z.bits_0.
    destruct (Z.ltb_spec n 64).
    + pose proof (bit_queue s (Z.to_nat n) Hs ltac:(unfold MAX_PRIORITIES; lia)) as Hb. unfold bit_of in Hb.
      rewrite Z2Nat.id in Hb by lia. rewrite Hb, He by (unfold MAX_PRIORITIES; lia). done.
    + destruct (Z.eq_dec (runqueue_bitmap s) 0) as [->|]; [apply Z.bits_0|]. apply Z.bits_above_log2; [lia|].
      apply Z.lt_le_trans with 64; [|lia]. apply Z.log2_lt_pow2; [lia|]. change (2 ^ 64) with U64. lia.
Qed.

Lemma best_priority s : sched_wf s -> runqueue_bitmap s <> 0 ->
  exists slot rest, (trailing_zeros (runqueue_bitmap s) < MAX_PRIORITIES)%nat /\
    queue s (trailing_zeros (runqueue_bitmap s)) = slot :: rest /\
    forall p, (p < trailing_zeros (runqueue_bitmap s))%nat -> queue s p = [].
Proof.
  intros Hs Hnz. unfold trailing_zeros. destruct (position _ (seq 0 64)) as [k|] eqn:Hpos.
  - apply position_Some in Hpos as [(i & Hk & Hbit) Hfirst]. apply lookup_seq in Hk as [-> Hlt]. cbn [default Nat.add] in *. unfold MAX_PRIORITIES.
    pose proof (bit_queue s k Hs Hlt) as Hb. unfold bit_of in Hb. rewrite Hbit in Hb.
    destruct (queue s k) as [|slot rest] eqn:Hq; [done|]. exists slot, rest. split; [done|]. split; [done|]. intros p Hp.
    change (p < k)%nat in Hp. specialize (Hfirst p p Hp). rewrite lookup_seq_lt in Hfirst by lia. specialize (Hfirst eq_refl).
    pose proof (bit_queue s p Hs ltac:(unfold MAX_PRIORITIES; lia)) as Hbp. unfold bit_of in Hbp. rewrite Hfirst in Hbp. by destruct (queue s p).
  - exfalso. apply Hnz. apply (bitmap_zero s Hs). intros p Hp. apply position_None in Hpos. rewrite list.Forall_forall in Hpos.
    pose proof (bit_queue s p Hs Hp) as Hb. unfold bit_of in Hb. rewrite Hpos in Hb by (apply elem_of_seq; unfold MAX_PRIORITIES in Hp; lia).
    by destruct (queue s p).
Qed.

(** ** The invariant *)
Definition sched_inv (s : Scheduler) : Prop :=
  sched_ok s /\ initialized s = true /\
  (forall slot t, threads s !! slot = Some t -> state t = Running -> current_slot s = Some slot) /\
  (forall slot, current_slot s = Some slot -> (slot < MAX_THREADS)%nat) /\
  (thread_count s <= MAX_THREADS)%nat /\
  (forall slot t, threads s !! slot = Some t -> state t = Unused <-> (thread_count s <= slot)%nat).

Definition compact (ts : list Thread) (n : nat) : Prop := forall slot t, ts !! slot = Some t -> state t = Unused <-> (n <= slot)%nat.
Definition no_running (ts : list Thread) : Prop := forall slot t, ts !! slot = Some t -> state t <> Running.

Lemma compact_alter ts n f slot t : compact ts n -> ts !! slot = Some t -> (state (f t) = Unused <-> state t = Unused) ->
  compact (alter f slot ts) n.
Proof.
  intros Hc Ht Hs slot' t' Ht'. destruct (alter_cases _ _ _ _ _ _ Ht Ht') as [[-> ->]|[_ ?]]; [|by apply Hc].
  rewrite Hs. by apply Hc.
Qed.

Lemma no_running_alter ts f slot t : ts !! slot = Some t -> state (f t) <> Running ->
  (forall slot' t', ts !! slot' = Some t' -> slot' <> slot -> state t' <> Running) -> no_running (alter f slot ts).
Proof. intros Ht Hs Ho slot' t' Ht'. destruct (alter_cases _ _ _ _ _ _ Ht Ht') as [[-> ->]|[? ?]]; [done|by eapply Ho]. Qed.

(** Making the thread in [slot] the running one. *)
Lemma running_inv s ts f slot t : sched_ok s -> initialized s = true -> threads s = alter f slot ts -> ts !! slot = Some t ->
  no_running ts -> state (f t) = Running -> state t <> Unused -> current_slot s = Some slot -> (thread_count s <= MAX_THREADS)%nat ->
  compact ts (thread_count s) -> sched_inv s.
Proof.
  intros Hok Hi Hts Ht Hn Hs Hu Hc Hle Hcomp. split; [done|]. split; [done|]. rewrite Hts, Hc. split; [|split; [|split; [done|]]].
  - intros slot' t' Ht' Hrun. destruct (alter_cases _ _ _ _ _ _ Ht Ht') as [[-> _]|[_ Hold]]; [done|]. by apply Hn in Hold.
  - intros slot' [= <-]. destruct Hok as [[Hl _] _]. rewrite <- Hl, Hts, length_alter. by eapply lookup_lt_Some.
  - eapply compact_alter; [done..|]. rewrite Hs. done.
Qed.

(** The queues once a running current thread is back in its own. *)
Definition preempted (s : Scheduler) (p : nat) : list nat :=
  match current_slot s with
  | Some c =>
      match threads s !! c with
      | Some t => if decide (state t = Running /\ priority_of t = p) then queue s p ++ [c] else queue s p
      | None => queue s p
      end
  | None => queue s p
  end.

(** A state in which the current thread has left the processor. *)
Definition off_cpu (s s1 : Scheduler) : Prop :=
  sched_ok s1 /\ rest_of s1 = rest_of s /\ no_running (threads s1) /\ compact (threads s1) (thread_count s) /\
  forall p, queue s1 p = preempted s p.

Lemma rest_fields s s' : rest_of s' = rest_of s ->
  initialized s' = initialized s /\ current_slot s' = current_slot s /\ thread_count s' = thread_count s /\
  context_switches s' = context_switches s /\ hps_hook s' = hps_hook s.
Proof.
  intros H. repeat split;
    [apply (f_equal initialized) in H|apply (f_equal current_slot) in H|apply (f_equal thread_count) in H
    |apply (f_equal context_switches) in H|apply (f_equal hps_hook) in H]; exact H.
Qed.

Lemma current_thread_some s c : sched_inv s -> current_slot s = Some c -> exists t, threads s !! c = Some t.
Proof.
  intros ([[Hl _] _] & _ & _ & Hc & _) Hcur. apply lookup_lt_is_Some_2. rewrite Hl. by apply Hc.
Qed.

(** A current thread that is not running stays where it is. *)
Lemma off_cpu_stopped s s1 : sched_inv s -> (forall c t, current_slot s = Some c -> threads s !! c = Some t -> state t <> Running) ->
  sched_ok s1 -> rest_of s1 = rest_of s -> no_running (threads s1) -> compact (threads s1) (thread_count s) ->
  (forall p, queue s1 p = queue s p) -> off_cpu s s1.
Proof.
  intros Hinv Hstop Hok Hrest Hn Hc HQ. repeat (split; [done|]). intros p. rewrite HQ. unfold preempted.
  destruct (current_slot s) as [c|] eqn:Hcur; [|done]. destruct (threads s !! c) as [t|] eqn:Ht; [|done].
  rewrite decide_False; [done|]. intros [Hr _]. by apply (Hstop c t).
Qed.

Lemma stopped_no_running s : sched_inv s -> (forall c t, current_slot s = Some c -> threads s !! c = Some t -> state t <> Running) ->
  no_running (threads s).
Proof. intros (_ & _ & Hr & _) Hstop slot t Ht Hrun. by apply (Hstop slot t (Hr _ _ Ht Hrun) Ht). Qed.

(** Preempting a running current thread, possibly after a change [f] of its accounts. *)
Lemma preempt_run {E} s c t f : sched_inv s -> current_slot s = Some c -> threads s !! c = Some t -> state t = Running ->
  keeps_priority f -> (forall u, state (f u) = state u) ->
  exists s1, requeue_running (E:=E) c (upd threads (alter f c) s) = (Ok tt, s1) /\ off_cpu s s1.
Proof.
  intros (Hok & Hi & Hr & Hcb & Hle & Hcomp) Hcur Ht Hrun Hf Hst. set (s0 := upd threads (alter f c) s).
  assert (Hok0 : sched_ok s0) by (apply (alter_ok s s0 f c t); try done; by rewrite Hst).
  assert (Ht0 : threads s0 !! c = Some (f t)) by (cbn; by rewrite list_lookup_alter_eq, Ht).
  destruct (requeue_run (E:=E) s0 c (f t) Hok0 Ht0) as (s1 & Hrun1 & Hok1 & Hrest & Hts & HQ); [rewrite Hst; congruence|].
  exists s1. split; [done|]. split; [done|]. split; [by rewrite Hrest|]. split; [|split].
  - rewrite Hts. eapply no_running_alter; [exact Ht0|done|]. intros slot' t' Ht' Hne.
    destruct (alter_cases _ _ _ _ _ _ Ht Ht') as [[-> _]|[_ Hold]]; [done|]. intros Hbad. apply Hne. pose proof (Hr _ _ Hold Hbad). congruence.
  - rewrite Hts. eapply compact_alter; [|exact Ht0|cbn; rewrite Hst, Hrun; done]. eapply compact_alter; [done..|by rewrite Hst].
  - intros p. rewrite HQ. unfold preempted, set_queue. rewrite Hcur, Ht, (keeps_priority_of f t Hf).
    change (queue s0) with (queue s). destruct (decide (p = priority_of t)) as [->|Hne]; [by rewrite decide_True|].
    rewrite decide_False; [done|]. intros [_ ?]. by apply Hne.
Qed.

(** [s'] runs the head of the best queue, the preempted thread counted in. *)
Definition dispatched (s s' : Scheduler) : Prop :=
  exists p slot rest t, (p < MAX_PRIORITIES)%nat /\ preempted s p = slot :: rest /\
    (forall p', (p' < p)%nat -> preempted s p' = []) /\ current_slot s' = Some slot /\
    threads s' !! slot = Some t /\ state t = Running /\ priority_of t = p /\
    forall p', queue s' p' = set_queue (preempted s) p rest p'.

(** Nobody can run. *)
Definition all_idle (s : Scheduler) : Prop := forall p, (p < MAX_PRIORITIES)%nat -> preempted s p = [].

Lemma queue_owner s p slot : sched_ok s -> slot ∈ queue s p -> exists t, threads s !! slot = Some t /\ priority_of t = p /\ state t = Runnable.
Proof. intros [_ (H1 & H2 & _)] Hin. destruct (H2 p slot Hin) as (t & Ht & Hp). exists t. split; [done|]. split; [done|]. apply (H1 slot t Ht). by rewrite Hp. Qed.

Lemma next_dispatch s s1 s2 s3 p slot rest f : off_cpu s s1 -> initialized s = true -> (thread_count s <= MAX_THREADS)%nat ->
  (p < MAX_PRIORITIES)%nat -> queue s1 p = slot :: rest -> (forall p', (p' < p)%nat -> queue s1 p' = []) ->
  requeued s1 s2 (set_queue (queue s1) p rest) -> core s3 = core (upd threads (alter f slot) s2) -> keeps_priority f ->
  (forall u, state (f u) = Running) -> initialized s3 = initialized s2 -> current_slot s3 = Some slot -> thread_count s3 = thread_count s2 ->
  sched_inv s3 /\ dispatched s s3.
Proof.
  intros (Hok1 & Hrest & Hn & Hc & HQ) Hi Hle Hp Hhead Hbest Hreq Hcore Hf Hst Hi3 Hc3 Hn3.
  destruct (queue_owner s1 p slot Hok1) as (t & Ht & Htp & Hs); [rewrite Hhead; by left|].
  destruct (dispatch_ok s1 s2 s3 slot t rest p f Hok1 Ht Hhead Hreq Hcore Hf) as (Hok3 & Hts & HQ3); [by rewrite Hst|].
  destruct (requeued_core _ _ _ Hreq) as [_ Hrest2]. rewrite Hrest in Hrest2. apply rest_fields in Hrest2 as (Hi2 & _ & Hn2 & _).
  split.
  - apply (running_inv s3 (threads s1) f slot t); try done; try congruence. by replace (thread_count s3) with (thread_count s) by congruence.
  - exists p, slot, rest, (f t). split; [done|]. rewrite <- HQ. split; [done|].
    split; [intros p' Hp'; rewrite <- HQ; by apply Hbest|]. split; [done|]. rewrite Hts, list_lookup_alter_eq, Ht.
    split; [done|]. split; [done|]. split; [by rewrite keeps_priority_of|]. intros p'. rewrite HQ3. unfold set_queue. destruct (decide (p' = p)); [done|]. apply HQ.
Qed.

Lemma set_thread_twice {E A} s slot t f g (k : unit -> S_ E A) : threads s !! slot = Some t ->
  bind (set_thread slot f) (fun _ => bind (set_thread slot g) k) s = k tt (upd threads (alter g slot) (upd threads (alter f slot) s)).
Proof.
  intros Ht. unfold bind. rewrite (set_thread_run s slot t f Ht).
  rewrite (set_thread_run _ slot (f t) g); [done|]. cbn. by rewrite list_lookup_alter_eq, Ht.
Qed.

Lemma call_hook_run {E} s slot t : threads s !! slot = Some t -> exists log, call_hook (E:=E) slot s = (Ok tt, set_field hook_log log s).
Proof.
  intros Ht. unfold call_hook, bind, gets. destruct (hps_hook s).
  - rewrite (get_thread_run s slot t Ht). by eexists.
  - exists (hook_log s). by destruct s.
Qed.

Lemma tick_preempt {E} s : sched_inv s -> exists s1,
  match current_slot s with
  | Some slot =>
      let! t := get_thread slot in
      if bool_decide (state t = Running) then do! set_thread slot (bump total_ticks) in requeue_running slot
      else if bool_decide (state t = Blocked) then set_thread slot (bump total_ticks) else ret tt
  | None => ret tt
  end s = ((Ok tt : outcome E unit), s1) /\ off_cpu s s1.
Proof.
  intros Hinv. pose proof Hinv as (Hok & Hi & Hr & Hcb & Hle & Hcomp). destruct (current_slot s) as [c|] eqn:Hcur.
  2: { exists s. split; [done|]. assert (Hstop : forall c t, current_slot s = Some c -> threads s !! c = Some t -> state t <> Running) by congruence.
       apply off_cpu_stopped; try done. by apply stopped_no_running. }
  destruct (current_thread_some s c Hinv Hcur) as [t Ht]. unfold bind at 1. rewrite (get_thread_run s c t Ht).
  destruct (bool_decide_reflect (state t = Running)) as [Hrun|Hnr].
  - unfold bind. rewrite (set_thread_run s c t _ Ht). by apply (preempt_run s c t).
  - assert (Hstop : forall c t, current_slot s = Some c -> threads s !! c = Some t -> state t <> Running) by congruence.
    destruct (bool_decide_reflect (state t = Blocked)) as [Hb|].
    + rewrite (set_thread_run s c t _ Ht). eexists. split; [done|]. apply off_cpu_stopped; try done.
      * by apply (alter_ok s _ (bump total_ticks) c t).
      * apply (no_running_alter _ _ c t Ht); [change (state t <> Running); congruence|]. intros slot' t' Ht' _. by apply (stopped_no_running s Hinv Hstop slot').
      * by apply (compact_alter _ _ _ c t).
    + exists s. split; [done|]. apply off_cpu_stopped; try done. by apply stopped_no_running.
Qed.

(** A timer tick puts the running thread back and runs the head of the best queue. *)
Lemma tick_run {E} s : sched_inv s -> exists r s', on_timer_tick (E:=E) s = (Ok r, s') /\ sched_inv s' /\
  ((exists d, r = Some d /\ dispatched s s') \/ (r = None /\ all_idle s /\ current_slot s' = None)).
Proof.
  intros Hinv. pose proof Hinv as (Hok & Hi & Hr & Hcb & Hle & Hcomp).
  destruct (tick_preempt (E:=E) s Hinv) as (s1 & Hpre & Hoff). pose proof Hoff as (Hok1 & Hrest & Hn1 & Hc1 & HQ1).
  apply rest_fields in Hrest as (Hi1 & Hcur1 & Hn & Hcs & Hhk).
  unfold on_timer_tick. unfold gets at 1 2 3, bind at 1 2 3. rewrite Hi. cbn [negb orb].
  destruct ((runqueue_bitmap s =? 0) && bool_decide (current_slot s = None)) eqn:Hstop.
  { apply andb_true_iff in Hstop as [Hz Hcur]. apply Z.eqb_eq in Hz. apply bool_decide_eq_true in Hcur. exists None, s.
    split; [done|]. split; [done|]. right. split; [done|]. split; [|done]. intros p Hp. unfold preempted. rewrite Hcur.
    by apply (bitmap_zero s (proj1 Hok)). }
  clear Hstop. unfold bind at 1. rewrite Hpre. unfold gets, bind at 1. destruct (Z.eqb_spec (runqueue_bitmap s1) 0) as [Hz|Hnz].
  { unfold bind, modify, ret. eexists _, _. split; [done|]. split.
    - split; [by eapply core_ok|]. split; [cbn; congruence|]. cbn. split; [by intros slot t Ht Hrun; apply Hn1 in Ht|].
      split; [done|]. rewrite Hn. done.
    - right. split; [done|]. split; [|done]. intros p Hp. rewrite <- HQ1. by apply (bitmap_zero s1 (proj1 Hok1)). }
  destruct (best_priority s1 (proj1 Hok1) Hnz) as (slot & rest & Hp & Hhead & Hbest). set (p := trailing_zeros (runqueue_bitmap s1)) in *.
  rewrite (proj2 (Nat.leb_gt _ _) Hp). destruct (dequeue_run (E:=E) s1 p slot rest (proj1 Hok1) Hp Hhead) as (s2 & Hdeq & Hreq).
  unfold bind at 1. rewrite Hdeq. destruct (queue_owner s1 p slot Hok1) as (t & Ht & _ & Hs); [rewrite Hhead; by left|].
  destruct (requeued_core _ _ _ Hreq) as [Hts2 Hrest2]. apply rest_fields in Hrest2 as (Hi2 & Hcur2 & Hn2 & _).
  assert (Hsw : exists n, (if bool_decide (Some slot <> current_slot s) then modify (bump context_switches) else ret tt) s2 =
    ((Ok tt : outcome E unit), set_field context_switches n s2)).
  { destruct (bool_decide (Some slot <> current_slot s)); [by eexists|]. exists (context_switches s2). by destruct s2. }
  destruct Hsw as (n & Hsw). unfold bind at 1. rewrite Hsw. unfold modify, bind at 1.
  set (s3 := set_field current_slot (Some slot) (set_field context_switches n s2)).
  assert (Ht3 : threads s3 !! slot = Some t) by (cbn; by rewrite Hts2). rewrite (set_thread_twice s3 slot t) by done.
  set (s4 := upd threads _ (upd threads _ s3)).
  assert (Ht4 : threads s4 !! slot = Some (bump dispatch_count (set_state Running t)))
    by (cbn; rewrite !list_lookup_alter_eq; by rewrite Hts2, Ht).
  destruct (call_hook_run (E:=E) s4 slot _ Ht4) as (log & Hhook). unfold bind at 1. rewrite Hhook.
  unfold dispatch_snapshot. unfold bind at 1 2. match goal with |- context [get_thread slot ?x] => rewrite (get_thread_run x slot _ Ht4) end. unfold bind, gets, ret. eexists _, _. split; [done|].
  assert (Hd : sched_inv (set_field hook_log log s4) /\ dispatched s (set_field hook_log log s4)); [|split; [tauto|left; eauto; by destruct Hd; eauto]].
  apply (next_dispatch s s1 s2 _ p slot rest (fun u => bump dispatch_count (set_state Running u))); try done.
  unfold core. cbn. by rewrite alter_alter.
Qed.

(** ** Yield and switch *)
Lemma off_cpu_inv s s1 : sched_inv s -> off_cpu s s1 -> sched_inv s1.
Proof.
  intros (_ & Hi & _ & Hcb & Hle & _) (Hok & Hrest & Hn & Hc & _). apply rest_fields in Hrest as (Hi1 & Hcur & Hcnt & _).
  split; [done|]. rewrite Hi1, Hcur, Hcnt. split; [done|]. split; [intros slot t Ht Hr; by apply Hn in Ht|]. done.
Qed.

Lemma prepare_resume_run {E} L s slot t : threads s !! slot = Some t ->
  exists v, prepare_resume_slot (E:=E) L slot s = (Ok tt, set_field tss_rsp0 v s).
Proof.
  intros Ht. unfold prepare_resume_slot, bind. rewrite (get_thread_run s slot t Ht). destruct (bool_decide _); [by eexists|].
  exists (tss_rsp0 s). by destruct s.
Qed.

Lemma same_fields_inv s s' : core s' = core s -> initialized s' = initialized s -> current_slot s' = current_slot s ->
  thread_count s' = thread_count s -> sched_inv s -> sched_inv s'.
Proof.
  intros Hc Hi Hcur Hn (Hok & Hinv). split; [by eapply core_ok|]. unfold core in Hc. injection Hc as Ht _ _ _.
  by rewrite Hi, Hcur, Hn, Ht.
Qed.

Lemma yield_run {E} L rsp0 s : sched_inv s -> exists r s', yield_current_user_thread (E:=E) L rsp0 s = (Ok r, s') /\ sched_inv s' /\
  ((r = None /\ s' = s /\ forall c t, current_slot s = Some c -> threads s !! c = Some t -> role t <> RUser \/ state t = Exited) \/ (r = None /\ all_idle s /\ current_slot s' = current_slot s) \/
   (dispatched s s' /\ r = if decide (current_slot s' = current_slot s) then None else current_slot s')).
Proof.
  intros Hinv. pose proof Hinv as (Hok & Hi & Hr & Hcb & Hle & Hcomp). unfold yield_current_user_thread.
  unfold gets at 1, bind at 1. rewrite Hi. cbn [negb]. unfold gets at 1, bind at 1.
  destruct (current_slot s) as [c|] eqn:Hcur; [|exists None, s; split; [done|]; split; [done|]; by left].
  destruct (current_thread_some s c Hinv Hcur) as [t Ht]. unfold bind at 1. rewrite (get_thread_run s c t Ht).
  destruct (bool_decide (role t <> RUser) || bool_decide (state t = Exited)) eqn:Hcond.
  { exists None, s. split; [done|]. split; [done|]. left. do 2 (split; [done|]). intros c' t' [= <-] Ht'. replace t' with t by congruence.
    apply orb_true_iff in Hcond as [?%bool_decide_eq_true|?%bool_decide_eq_true]; [by left|by right]. }
  unfold bind at 1. rewrite (set_thread_run s c t _ Ht). set (f := upd context (set_field rsp rsp0)). set (s0 := upd threads (alter f c) s).
  assert (Hpre : exists s1, (if bool_decide (state t = Running) then requeue_running c else ret tt) s0 = ((Ok tt : outcome E unit), s1) /\ off_cpu s s1).
  { destruct (bool_decide_reflect (state t = Running)) as [Hrun|Hnr]; [by apply (preempt_run s c t f)|].
    assert (Hstop : forall c t, current_slot s = Some c -> threads s !! c = Some t -> state t <> Running) by congruence.
    exists s0. split; [done|]. apply off_cpu_stopped; try done.
    - by apply (alter_ok s s0 f c t).
    - apply (no_running_alter _ f c t Ht); [done|]. intros slot' t' Ht' _. by apply (stopped_no_running s Hinv Hstop slot').
    - by apply (compact_alter _ _ f c t). }
  destruct Hpre as (s1 & Hpre & Hoff). unfold bind at 1. rewrite Hpre. pose proof Hoff as (Hok1 & Hrest & Hn1 & Hc1 & HQ1).
  apply rest_fields in Hrest as (Hi1 & Hcur1 & Hn & _). unfold gets, bind at 1.
  destruct (Z.eq_dec (runqueue_bitmap s1) 0) as [Hz|Hnz].
  { rewrite Hz. exists None, s1. split; [done|]. split; [by eapply off_cpu_inv|]. right. left. split; [done|]. split; [|congruence].
    intros p Hp. rewrite <- HQ1. by apply (bitmap_zero s1 (proj1 Hok1)). }
  destruct (best_priority s1 (proj1 Hok1) Hnz) as (slot & rest & Hp & Hhead & Hbest). set (p := trailing_zeros (runqueue_bitmap s1)) in *.
  rewrite (proj2 (Nat.leb_gt _ _) Hp). destruct (dequeue_run (E:=E) s1 p slot rest (proj1 Hok1) Hp Hhead) as (s2 & Hdeq & Hreq).
  unfold bind at 1. rewrite Hdeq. unfold lift, unwrap, bind at 1. destruct (queue_owner s1 p slot Hok1) as (u & Hu & _); [rewrite Hhead; by left|].
  destruct (requeued_core _ _ _ Hreq) as [Hts2 Hrest2]. apply rest_fields in Hrest2 as (Hi2 & Hcur2 & Hn2 & _).
  destruct (Nat.eqb_spec slot c) as [->|Hne].
  - unfold bind, ret. rewrite (set_thread_run s2 c u) by (by rewrite Hts2). eexists _, _. split; [done|].
    match goal with |- sched_inv ?s3 /\ _ => destruct (next_dispatch s s1 s2 s3 p c rest (set_state Running)) as [Hi3 Hd3] end; try done; [cbn; congruence|].
    split; [done|]. right. right. split; [done|]. rewrite decide_True; [done|]. cbn. congruence.
  - unfold modify at 1, bind at 1. set (s3 := set_field current_slot (Some slot) s2).
    assert (Hu3 : threads s3 !! slot = Some u) by (cbn; by rewrite Hts2). rewrite (set_thread_twice s3 slot u) by done.
    set (s4 := upd threads _ (upd threads _ s3)). set (g := fun v => bump dispatch_count (set_state Running v)).
    assert (Hu4 : threads s4 !! slot = Some (g u)) by (cbn; rewrite !list_lookup_alter_eq; by rewrite Hts2, Hu).
    destruct (call_hook_run (E:=E) s4 slot _ Hu4) as (log & Hhook). unfold bind at 1. rewrite Hhook. unfold modify, bind at 1.
    match goal with |- context [bind (prepare_resume_slot L slot) _ ?x] => destruct (prepare_resume_run (E:=E) L x slot _ Hu4) as (v & Hprep);
      unfold bind; rewrite Hprep end.
    unfold ret. eexists _, _. split; [done|].
    match goal with |- sched_inv ?s5 /\ _ => destruct (next_dispatch s s1 s2 s5 p slot rest g) as [Hi5 Hd5] end; try done.
    { unfold core. cbn. by rewrite alter_alter. }
    split; [done|]. right. right. split; [done|]. rewrite decide_False; [done|]. cbn. congruence.
Qed.

(** Why there is nothing to switch to. *)
Definition no_switch (s : Scheduler) : Prop :=
  (forall p, (p < MAX_PRIORITIES)%nat -> queue s p = []) \/ exists p c rest, queue s p = c :: rest /\ current_slot s = Some c.

Lemma next_switch_run {E} s : sched_inv s -> exists r, next_switch_index (E:=E) s = (Ok r, s) /\
  match r with
  | Some n => exists p rest, (p < MAX_PRIORITIES)%nat /\ queue s p = n :: rest /\ (forall p', (p' < p)%nat -> queue s p' = []) /\ current_slot s <> Some n
  | None => no_switch s
  end.
Proof.
  intros ([Hwf Hq] & Hi & _). unfold next_switch_index. unfold gets at 1 2, bind at 1 2. rewrite Hi. cbn [negb orb].
  destruct (Z.eqb_spec (runqueue_bitmap s) 0) as [Hz|Hnz]; [exists None; split; [done|]; left; by apply bitmap_zero|].
  destruct (best_priority s Hwf Hnz) as (slot & rest & Hp & Hhead & Hbest). set (p := trailing_zeros _) in *.
  rewrite (proj2 (Nat.leb_gt _ _) Hp). destruct (wf_row s p Hwf Hp) as (Hrow & _ & Hd & _).
  pose proof (queue_length s p Hwf Hp) as Hl. rewrite Hhead in Hl. simpl in Hl.
  unfold gets, bind at 1 2. rewrite (at_run _ _ _ _ Hd). rewrite (proj2 (Nat.ltb_lt _ _)) by lia.
  assert (H0 : row_of s p !! 0%nat = Some slot) by (apply queue_row; by rewrite Hhead).
  unfold bind. rewrite (at_run _ _ _ _ Hrow), (at_run _ _ _ _ H0).
  destruct (bool_decide_reflect (Some slot <> current_slot s)) as [Hne|He].
  2:{ exists None. split; [done|]. right. exists p, slot, rest. split; [done|]. destruct (decide (Some slot = current_slot s)); [done|contradiction]. }
  exists (Some slot). split; [done|]. exists p, rest. split; [done|]. split; [done|]. split; [done|]. congruence.
Qed.

Lemma context_pair_run {E} s c n : (c < length (threads s))%nat -> (n < length (threads s))%nat -> c <> n ->
  context_pair (E:=E) c n s = (Ok (c, n), s).
Proof.
  intros Hc Hn Hne. unfold context_pair, gets, bind at 1. rewrite (proj2 (Nat.ltb_ge _ _)) by lia.
  assert (Hr : is_Some (drop (Nat.max c n) (threads s) !! 0%nat))
    by (rewrite lookup_drop, Nat.add_0_r; apply lookup_lt_is_Some_2; lia).
  destruct Hr as [x Hx]. destruct (Nat.ltb_spec c n).
  - destruct (lookup_lt_is_Some_2 (take (Nat.max c n) (threads s)) c) as [y Hy]; [rewrite length_take; lia|].
    unfold bind. by rewrite (at_run _ _ _ _ Hy), (at_run _ _ _ _ Hx).
  - destruct (lookup_lt_is_Some_2 (take (Nat.max c n) (threads s)) n) as [y Hy]; [rewrite length_take; lia|].
    unfold bind. by rewrite (at_run _ _ _ _ Hy), (at_run _ _ _ _ Hx).
Qed.

(** The switch of the idle loop: from the current thread to the head of the best
    queue as it stood. *)
Definition switched (s s' : Scheduler) (n : nat) : Prop :=
  exists p rest t, queue s p = n :: rest /\ (forall p', (p' < p)%nat -> queue s p' = []) /\ current_slot s' = Some n /\
    threads s' !! n = Some t /\ state t = Running /\ forall p', queue s' p' = set_queue (preempted s) p (tail (preempted s p)) p'.

Lemma preempted_head s p n rest : queue s p = n :: rest -> exists rest', preempted s p = n :: rest'.
Proof. intros Hq. unfold preempted. repeat case_match; rewrite Hq; eauto. Qed.

Lemma threads_id s c : upd threads (alter (fun u => u) c) s = s.
Proof.
  transitivity (set_field threads (alter (fun u => u) c (threads s)) s); [done|].
  replace (alter (fun u => u) c (threads s)) with (threads s); [by destruct s|]. symmetry. apply list_eq. intros i.
  destruct (decide (i = c)) as [->|]; [|by rewrite list_lookup_alter_ne]. rewrite list_lookup_alter_eq. by destruct (threads s !! c).
Qed.

Lemma running_preempt {E} s c t : sched_inv s -> current_slot s = Some c -> threads s !! c = Some t ->
  exists s1, (if bool_decide (state t = Running) then requeue_running c else ret tt) s = ((Ok tt : outcome E unit), s1) /\ off_cpu s s1.
Proof.
  intros Hinv Hcur Ht. pose proof Hinv as (Hok & Hi & Hr & Hcb & Hle & Hcomp).
  destruct (bool_decide_reflect (state t = Running)) as [Hrun|Hnr].
  - destruct (preempt_run (E:=E) s c t (fun u => u) Hinv Hcur Ht Hrun) as (s1 & H1 & H2); [done..|]. exists s1.
    split; [|done]. by rewrite threads_id in H1.
  - assert (Hstop : forall c t, current_slot s = Some c -> threads s !! c = Some t -> state t <> Running) by congruence.
    exists s. split; [done|]. apply off_cpu_stopped; try done. by apply stopped_no_running.
Qed.

Lemma switch_run {E} L s : sched_inv s -> exists r s', context_switch_pair (E:=E) L s = (Ok r, s') /\ sched_inv s' /\
  match r with
  | Some (c, n, d) => current_slot s = Some c /\ c <> n /\ switched s s' n
  | None => s' = s /\ (current_slot s = None \/ no_switch s)
  end.
Proof.
  intros Hinv. pose proof Hinv as (Hok & Hi & Hr & Hcb & Hle & Hcomp). unfold context_switch_pair, gets at 1, bind at 1.
  destruct (current_slot s) as [c|] eqn:Hcur; [|exists None, s; by auto].
  destruct (next_switch_run (E:=E) s Hinv) as (nx & Hnx & Hspec). unfold bind at 1. rewrite Hnx. destruct nx as [n|]; [|exists None, s; by auto].
  destruct Hspec as (p & rest & Hp & Hhead & Hbest & Hne). destruct (current_thread_some s c Hinv Hcur) as [t Ht].
  unfold bind at 1. rewrite (get_thread_run s c t Ht). destruct (running_preempt (E:=E) s c t Hinv Hcur Ht) as (s1 & Hpre & Hoff).
  unfold bind at 1. rewrite Hpre. pose proof Hoff as (Hok1 & Hrest & Hn1 & Hc1 & HQ1). apply rest_fields in Hrest as (Hi1 & Hcur1 & Hn & _).
  destruct (preempted_head s p n rest Hhead) as (rest' & Hpq). assert (Hhead1 : queue s1 p = n :: rest') by (by rewrite HQ1).
  destruct (queue_owner s1 p n Hok1) as (u & Hu & Hup & Hus); [rewrite Hhead1; by left|].
  unfold priority_for_thread. unfold bind at 1 2. rewrite (get_thread_run s1 n u Hu). unfold ret at 1. rewrite Hup.
  destruct (dequeue_run (E:=E) s1 p n rest' (proj1 Hok1) Hp Hhead1) as (s2 & Hdeq & Hreq). unfold bind at 1. rewrite Hdeq.
  destruct (requeued_core _ _ _ Hreq) as [Hts2 Hrest2]. apply rest_fields in Hrest2 as (Hi2 & Hcur2 & Hn2 & _).
  unfold modify at 1, bind at 1. set (s3 := set_field current_slot (Some n) s2).
  assert (Hu3 : threads s3 !! n = Some u) by (cbn; by rewrite Hts2). rewrite (set_thread_twice s3 n u) by done.
  set (s4 := upd threads _ (upd threads _ s3)). set (g := fun v => bump dispatch_count (set_state Running v)).
  assert (Hu4 : threads s4 !! n = Some (g u)) by (cbn; rewrite !list_lookup_alter_eq; by rewrite Hts2, Hu).
  unfold modify, bind at 1. match goal with |- context [bind (prepare_resume_slot L n) _ ?x] =>
    destruct (prepare_resume_run (E:=E) L x n _ Hu4) as (v & Hprep); unfold bind at 1; rewrite Hprep end.
  unfold dispatch_snapshot. unfold bind at 1 2. match goal with |- context [get_thread n ?x] => rewrite (get_thread_run x n _ Hu4) end.
  unfold gets, bind at 1, ret at 1. unfold bind at 1.
  assert (Hlen : length (threads s) = MAX_THREADS) by apply Hok. assert (Hlen1 : length (threads s1) = MAX_THREADS) by apply Hok1.
  match goal with |- context [context_pair c n ?x] => rewrite (context_pair_run x c n) end; [|cbn; rewrite !length_alter, Hts2, Hlen1; by apply Hcb| |congruence].
  2: { cbn. rewrite !length_alter, Hts2. by eapply lookup_lt_Some. }
  unfold ret. eexists _, _. split; [done|]. match goal with |- sched_inv ?x /\ _ => set (s5 := x) end.
  assert (Hcore : core s5 = core (upd threads (alter g n) s2)) by (unfold core; cbn; by rewrite alter_alter).
  destruct (dispatch_ok s1 s2 s5 n u rest' p g Hok1 Hu Hhead1 Hreq Hcore) as (Hok5 & Hts5 & HQ5); [done..|].
  split.
  - apply (running_inv s5 (threads s1) g n u); try done; cbn; try congruence. by rewrite Hn2, Hn.
  - split; [done|]. split; [congruence|]. exists p, rest, (g u). split; [done|]. split; [done|]. split; [done|].
    rewrite Hts5, list_lookup_alter_eq, Hu. split; [done|]. split; [done|]. intros p'. rewrite HQ5. unfold set_queue. rewrite Hpq. cbn [tail].
    destruct (decide (p' = p)); [done|]. apply HQ1.
Qed.

(** ** Block and unblock *)
Lemma block_run {E} s : sched_inv s -> exists s', block_current_thread (E:=E) s = (Ok tt, s') /\ sched_inv s' /\
  forall slot t, threads s !! slot = Some t ->
    threads s' !! slot = Some (if decide (state t = Running) then set_state Blocked t else t).
Proof.
  intros Hinv. pose proof Hinv as (Hok & Hi & Hr & Hcb & Hle & Hcomp). unfold block_current_thread, gets, bind at 1.
  assert (Hnone : (forall c t, current_slot s = Some c -> threads s !! c = Some t -> state t <> Running) ->
    forall slot t, threads s !! slot = Some t -> threads s !! slot = Some (if decide (state t = Running) then set_state Blocked t else t)).
  { intros Hstop slot t Ht. rewrite decide_False; [done|]. by apply (stopped_no_running s Hinv Hstop slot). }
  destruct (current_slot s) as [c|] eqn:Hcur.
  2: { exists s. split; [done|]. split; [done|]. apply Hnone. congruence. }
  destruct (current_thread_some s c Hinv Hcur) as [t Ht]. unfold bind. rewrite (get_thread_run s c t Ht).
  destruct (bool_decide_reflect (state t = Running)) as [Hrun|Hnr].
  2: { exists s. split; [done|]. split; [done|]. apply Hnone. congruence. }
  rewrite (set_thread_run s c t _ Ht). eexists. split; [done|]. split.
  - split; [|split; [exact Hi|split; [|split; [by rewrite <- Hcur in Hcb|split; [exact Hle|]]]]].
    + apply (alter_ok s _ (set_state Blocked) c t); try done. rewrite Hrun. done.
    + intros slot u Hu Hur. destruct (alter_cases _ _ _ _ _ _ Ht Hu) as [[-> ->]|[_ ?]]; [done|]. cbn. rewrite Hcur. by eapply Hr.
    + apply (compact_alter _ _ (set_state Blocked) c t); try done. rewrite Hrun. done.
  - intros slot u Hu. cbn. destruct (decide (slot = c)) as [->|Hne].
    + rewrite list_lookup_alter_eq, Hu. rewrite decide_True by congruence. done.
    + rewrite list_lookup_alter_ne by done. rewrite decide_False; [done|]. intros Hur. pose proof (Hr _ _ Hu Hur). congruence.
Qed.

(** What [find_first] over the whole table finds: the first slot that passes. *)
Lemma find_table {E} s (test : Thread -> bool) : length (threads s) = MAX_THREADS ->
  exists r, find_first (E:=E) (seq 0 MAX_THREADS) (fun i => let! t := get_thread i in ret (test t)) s = (Ok r, s) /\
    match r with
    | Some i => exists t, threads s !! i = Some t /\ test t = true /\
        forall j u, (j < i)%nat -> threads s !! j = Some u -> test u = false
    | None => forall j u, threads s !! j = Some u -> test u = false
    end.
Proof.
  intros Hl. set (f := fun i => match threads s !! i with Some t => test t | None => false end). eexists. split.
  - apply (find_first_pure _ f). apply Forall_seq. intros i Hi. destruct (lookup_lt_is_Some_2 (threads s) i ltac:(lia)) as [t Ht].
    unfold bind, ret. rewrite (get_thread_run s i t Ht). unfold f. by rewrite Ht.
  - destruct (position f (seq 0 MAX_THREADS)) as [k|] eqn:Hpos; cbn [mbind option_bind].
    + apply position_Some in Hpos as [(i & Hk & Hf) Hfirst]. rewrite Hk. apply lookup_seq in Hk as [-> Hlt]. cbn [Nat.add] in *.
      unfold f in Hf. destruct (threads s !! k) as [t|] eqn:Ht; [|done]. exists t. split; [done|]. split; [done|]. intros j u Hj Hu.
      specialize (Hfirst j j Hj). rewrite lookup_seq_lt in Hfirst by lia. specialize (Hfirst eq_refl). unfold f in Hfirst. by rewrite Hu in Hfirst.
    + intros j u Hu. apply position_None in Hpos. rewrite list.Forall_forall in Hpos. specialize (Hpos j). unfold f in Hpos. rewrite Hu in Hpos.
      apply Hpos, elem_of_seq. apply lookup_lt_Some in Hu. lia.
Qed.

Lemma requeue_inv {E} s s0 slot t : sched_inv s -> core s0 = core s -> initialized s0 = initialized s -> current_slot s0 = current_slot s ->
  thread_count s0 = thread_count s -> threads s !! slot = Some t -> state t = Blocked ->
  exists s', requeue_running (E:=E) slot s0 = (Ok tt, s') /\ sched_inv s' /\ rest_of s' = rest_of s0 /\
    threads s' = alter (set_state Runnable) slot (threads s).
Proof.
  intros Hinv Hcore Hi0 Hc0 Hn0 Ht Hb. assert (Hinv0 : sched_inv s0) by (by apply (same_fields_inv s s0)).
  assert (Hts0 : threads s0 = threads s) by (unfold core in Hcore; by injection Hcore).
  pose proof Hinv0 as (Hok & Hi & Hr & Hcb & Hle & Hcomp). rewrite <- Hts0 in Ht.
  destruct (requeue_run (E:=E) s0 slot t Hok Ht) as (s' & Hrun & Hok' & Hrest & Hts & HQ); [congruence|].
  exists s'. split; [done|]. split; [|split; [done|by rewrite Hts, Hts0]]. pose proof (rest_fields _ _ Hrest) as (Hi' & Hcur' & Hn' & _).
  split; [done|]. rewrite Hi', Hcur', Hn', Hts. split; [done|]. split; [|split; [done|split; [done|]]].
  - intros slot' u Hu Hur. destruct (alter_cases _ _ _ _ _ _ Ht Hu) as [[-> ->]|[_ ?]]; [done|]. by eapply Hr.
  - apply (compact_alter _ _ _ slot t); [done..|]. by rewrite Hb.
Qed.

(** Unblocking delivers the result in the thread's saved frame. *)
Lemma unblock_run pid tid v s : sched_inv s -> exists r s', unblock_thread_with_result pid tid v s = (r, s') /\ sched_inv s' /\
  match r with
  | Ok _ => exists slot t, threads s !! slot = Some t /\ process_id t = pid /\ id t = tid /\ state t = Blocked /\
      threads s' = alter (set_state Runnable) slot (threads s) /\ kmem s' = <[rsp (context t) := v]> (kmem s)
  | Err _ => s' = s /\ forall slot t, threads s !! slot = Some t -> process_id t = pid -> id t = tid -> state t <> Blocked
  | _ => False
  end.
Proof.
  intros Hinv. pose proof Hinv as (Hok & _). assert (Hl : length (threads s) = MAX_THREADS) by apply Hok.
  destruct (find_table (E:=unit) s (fun t => (process_id t =? pid) && (id t =? tid) && bool_decide (state t = Blocked)) Hl) as (r & Hfind & Hspec).
  unfold unblock_thread_with_result, bind at 1. rewrite Hfind. destruct r as [i|].
  - destruct Hspec as (t & Ht & Htest & _). bool_prop. match goal with H : bool_decide _ = true |- _ => apply bool_decide_eq_true in H end.
    unfold bind at 1. rewrite (get_thread_run s i t Ht). unfold modify, bind.
    match goal with |- context [requeue_running i ?x] => destruct (requeue_inv (E:=unit) s x i t) as (s' & Hrun & Hinv' & Hrest & Hts) end; try done.
    rewrite Hrun. exists (Ok tt), s'. split; [done|]. split; [done|]. exists i, t. repeat (split; [done|]).
    apply (f_equal kmem) in Hrest. exact Hrest.
  - exists (Err tt), s. split; [done|]. split; [done|]. split; [done|]. intros slot t Ht Hp Hd Hb. specialize (Hspec slot t Ht).
    rewrite Hp, Hd, !Z.eqb_refl, Hb in Hspec. done.
Qed.

(** ** Exit *)
Definition exit_mark (group : Z) (t : Thread) : Thread :=
  if (thread_group_id t =? group) && bool_decide (state t <> Exited) then set_state Exited t else t.

Lemma kill_run {E} s slot t : sched_ok s -> threads s !! slot = Some t ->
  exists s', (do! set_thread slot (set_state Exited) in remove_queued slot) s = ((Ok tt : outcome E unit), s') /\
    sched_ok s' /\ rest_of s' = rest_of s /\ threads s' = alter (set_state Exited) slot (threads s).
Proof.
  intros [Hwf Hq] Ht. unfold bind. rewrite (set_thread_run s slot t _ Ht). set (s1 := upd threads (alter (set_state Exited) slot) s).
  assert (Hwf1 : sched_wf s1) by (by apply (wf_alter s s1 (set_state Exited) slot)).
  assert (Ht1 : threads s1 !! slot = Some (set_state Exited t)) by (cbn; by rewrite list_lookup_alter_eq, Ht).
  destruct (remove_queued_run (E:=E) s1 slot _ Hwf1 Ht1) as (s' & Hrun & Hreq); [apply (proj2 (proj2 Hq))|].
  destruct (requeued_core _ _ _ Hreq) as [Hts Hrest]. destruct Hreq as (Hwf' & _ & HQ). exists s'. split; [done|].
  split; [|split; [by rewrite Hrest|by rewrite Hts]]. split; [done|]. rewrite Hts.
  eapply qr_ext; [intros p; symmetry; apply HQ|]. apply (qr_drop (threads s) (queue s) slot t (set_state Exited)); done.
Qed.

(** The thread in a slot is one of the group that still lives. *)
Definition dying (group : Z) (ts : list Thread) (slot : nat) : bool :=
  match ts !! slot with
  | Some t => (thread_group_id t =? group) && bool_decide (state t <> Exited)
  | None => false
  end.

Lemma filter_bool_ext (f g : nat -> bool) (l : list nat) : (forall x, x ∈ l -> f x = g x) ->
  filter (fun x => f x = true) l = filter (fun x => g x = true) l.
Proof.
  induction l as [|x l IH]; intros H; [done|]. rewrite !filter_cons, (H x) by (by left).
  rewrite IH by (intros y Hy; apply H; by right). done.
Qed.

Lemma exit_group_run {E} group l : forall s count, sched_ok s -> NoDup l -> Forall (fun i => (i < MAX_THREADS)%nat) l ->
  exists s', exit_group (E:=E) group l count s =
      (Ok (count + length (filter (fun slot => dying group (threads s) slot = true) l))%nat, s') /\
    sched_ok s' /\ rest_of s' = rest_of s /\
    forall slot t, threads s !! slot = Some t -> threads s' !! slot = Some (if decide (slot ∈ l) then exit_mark group t else t).
Proof.
  induction l as [|i l IH]; intros s count Hok Hnd Hl; cbn [exit_group].
  { exists s. rewrite Nat.add_0_r. repeat (split; [done|]). intros slot t Ht. by rewrite decide_False by set_solver. }
  apply NoDup_cons in Hnd as [Hi Hnd]. apply Forall_cons_iff in Hl as [Hlt Hl]. assert (Hlen : length (threads s) = MAX_THREADS) by apply Hok.
  destruct (lookup_lt_is_Some_2 (threads s) i ltac:(lia)) as [t Ht]. unfold bind at 1. rewrite (get_thread_run s i t Ht).
  assert (Hdi : dying group (threads s) i = (thread_group_id t =? group) && bool_decide (state t <> Exited)) by (unfold dying; by rewrite Ht).
  rewrite filter_cons, Hdi. destruct ((thread_group_id t =? group) && _) eqn:Hcond.
  - rewrite decide_True by done. destruct (kill_run (E:=E) s i t Hok Ht) as (s1 & Hkill & Hok1 & Hrest & Hts).
    assert (Hstep : forall (k : unit -> S_ E nat), bind (set_thread i (set_state Exited)) (fun _ => bind (remove_queued i) k) s = k tt s1).
    { intros k. unfold bind in Hkill |- *. destruct (set_thread i (set_state Exited) s) as [[[]|e| |] s0]; try done. by rewrite Hkill. }
    rewrite Hstep. destruct (IH s1 (S count) Hok1 Hnd Hl) as (s' & Hrun & Hok' & Hrest' & Hthr). exists s'.
    split; [|split; [done|split; [congruence|]]].
    + rewrite Hrun. cbn [length]. do 2 f_equal. rewrite <- Nat.add_succ_comm. f_equal. f_equal. f_equal. apply filter_bool_ext.
      intros slot Hslot. unfold dying. rewrite Hts, list_lookup_alter_ne; [done|]. intros ->. done.
    + intros slot u Hu. destruct (decide (slot = i)) as [->|Hne].
      * rewrite decide_True by set_solver. replace u with t in * by congruence. rewrite (Hthr i (set_state Exited t)).
        -- rewrite decide_False by done. unfold exit_mark. by rewrite Hcond.
        -- by rewrite Hts, list_lookup_alter_eq, Ht.
      * rewrite (Hthr slot u) by (by rewrite Hts, list_lookup_alter_ne). f_equal. apply decide_ext. set_solver.
  - rewrite decide_False by done. destruct (IH s count Hok Hnd Hl) as (s' & Hrun & Hok' & Hrest' & Hthr). exists s'.
    split; [done|]. split; [done|]. split; [done|]. intros slot u Hu. rewrite (Hthr slot u Hu). f_equal.
    destruct (decide (slot = i)) as [->|Hne]; [|apply decide_ext; set_solver].
    rewrite decide_False, decide_True by set_solver. unfold exit_mark. replace u with t by congruence. by rewrite Hcond.
Qed.

(** What an exit of the current thread's group leaves. *)
Definition exited_from (s s' : Scheduler) (group : Z) : Prop :=
  forall slot t, threads s !! slot = Some t -> exists t', threads s' !! slot = Some t' /\
    (thread_group_id t = group -> state t <> Unused -> state t' = Exited) /\
    (thread_group_id t <> group -> t' = t \/ (state t = Runnable /\ t' = set_state Running t /\ current_slot s' = Some slot)).

(** The loop of the exit, run from the current thread's group. *)
Lemma exit_loop_run {E} s c t : sched_inv s -> current_slot s = Some c -> threads s !! c = Some t -> state t <> Exited ->
  exists s1, exit_group (E:=E) (thread_group_id t) (seq 0 (thread_count s)) 0 s =
      (Ok (length (filter (fun slot => dying (thread_group_id t) (threads s) slot = true) (seq 0 (thread_count s)))), s1) /\
    sched_ok s1 /\ rest_of s1 = rest_of s /\ no_running (threads s1) /\ compact (threads s1) (thread_count s) /\
    forall slot v, threads s !! slot = Some v -> exists v', threads s1 !! slot = Some v' /\ thread_group_id v' = thread_group_id v /\
      (thread_group_id v = thread_group_id t -> state v <> Unused -> state v' = Exited) /\ (thread_group_id v <> thread_group_id t -> v' = v).
Proof.
  intros (Hok & Hi & Hr & Hcb & Hle & Hcomp) Hcur Ht Hne. set (g := thread_group_id t).
  assert (Hl : Forall (fun i => (i < MAX_THREADS)%nat) (seq 0 (thread_count s))) by (apply Forall_seq; intros; lia).
  destruct (exit_group_run (E:=E) g (seq 0 (thread_count s)) s 0 Hok (NoDup_seq _ _) Hl) as (s1 & Hrun & Hok1 & Hrest & Hthr).
  assert (Hmark : forall slot v, threads s !! slot = Some v ->
    threads s1 !! slot = Some (if decide (state v = Unused) then v else exit_mark g v)).
  { intros slot v Hv. rewrite (Hthr slot v Hv). specialize (Hcomp slot v Hv). f_equal. destruct (decide (state v = Unused)) as [Hu|Hu].
    - rewrite decide_False; [done|]. rewrite elem_of_seq. apply Hcomp in Hu. lia.
    - rewrite decide_True; [done|]. rewrite elem_of_seq. destruct (Nat.le_gt_cases (thread_count s) slot) as [Hge|]; [|lia]. by apply Hcomp in Hge. }
  assert (Hback : forall slot u, threads s1 !! slot = Some u -> exists v, threads s !! slot = Some v /\ u = if decide (state v = Unused) then v else exit_mark g v).
  { intros slot u Hu. destruct (lookup_lt_is_Some_2 (threads s) slot) as [v Hv].
    - apply lookup_lt_Some in Hu. destruct Hok as [[Hl0 _] _], Hok1 as [[Hl1 _] _]. lia.
    - exists v. split; [done|]. rewrite (Hmark slot v Hv) in Hu. congruence. }
  exists s1. repeat (split; [done|]). split; [|split].
  - intros slot u Hu Hur. destruct (Hback slot u Hu) as (v & Hv & ->). destruct (decide (state v = Unused)); [congruence|].
    unfold exit_mark in Hur. destruct (_ && _) eqn:Hd; [done|]. pose proof (Hr slot v Hv Hur) as Hsc.
    replace v with t in * by congruence. unfold g in Hd. rewrite Z.eqb_refl, Hur in Hd. done.
  - intros slot u Hu. destruct (Hback slot u Hu) as (v & Hv & ->). rewrite <- (Hcomp slot v Hv).
    destruct (decide (state v = Unused)); [done|]. unfold exit_mark. by destruct (_ && _).
  - intros slot v Hv. rewrite (Hmark slot v Hv). eexists. split; [done|]. unfold exit_mark. split; [|split].
    + destruct (decide _); [done|]. by destruct (_ && _).
    + intros Hvg Hvu. rewrite decide_False, Hvg, Z.eqb_refl by done. cbn [andb].
      destruct (bool_decide_reflect (state v <> Exited)) as [|Hn]; [done|]. by apply dec_stable in Hn.
    + intros Hvg. rewrite (proj2 (Z.eqb_neq _ _) Hvg). by destruct (decide _).
Qed.

Lemma exit_run {E} status s : sched_inv s -> exists r s', request_exit_group (E:=E) status s = (Ok r, s') /\ sched_inv s' /\
  match r with
  | Some rec => exists c t, current_slot s = Some c /\ threads s !! c = Some t /\ eg_status rec = status /\ eg_thread_id rec = id t /\ eg_process_id rec = process_id t /\
      eg_thread_count rec = length (filter (fun slot => dying (thread_group_id t) (threads s) slot = true) (seq 0 (thread_count s))) /\
      exited_from s s' (thread_group_id t)
  | None => s' = s
  end.
Proof.
  intros Hinv. pose proof Hinv as (_ & Hi & _ & _ & Hle & _). unfold request_exit_group. unfold gets at 1, bind at 1.
  rewrite Hi. cbn [negb]. unfold gets at 1, bind at 1. destruct (current_slot s) as [c|] eqn:Hcur; [|by exists None, s].
  destruct (current_thread_some s c Hinv Hcur) as [t Ht]. unfold bind at 1. rewrite (get_thread_run s c t Ht).
  destruct (bool_decide_reflect (state t = Exited)) as [|Hne]; cbn [orb]; [by exists None, s|].
  destruct (thread_group_id t =? 0); [by exists None, s|]. unfold gets at 1, bind at 1.
  destruct (exit_loop_run (E:=E) s c t Hinv Hcur Ht Hne) as (s1 & Hrun & Hok1 & Hrest & Hnr & Hcomp1 & Hex1).
  unfold bind at 1. rewrite Hrun. pose proof (rest_fields _ _ Hrest) as (Hi1 & _ & Hn1 & _).
  destruct (Hex1 c t Ht) as (t1 & Ht1 & Ht1g & _). unfold bind at 1. rewrite (get_thread_run s1 c t1 Ht1).
  rewrite Ht1g, Z.eqb_refl. unfold modify at 1, bind at 1. set (s2 := set_field current_slot None s1). unfold gets at 1, bind at 1.
  assert (Hok2 : sched_ok s2) by (by apply (core_ok s1 s2)).
  destruct (Z.eqb_spec (runqueue_bitmap s2) 0) as [Hz|Hnz]; cbn [negb].
  - unfold bind, ret, gets. eexists _, s2. split; [done|]. split.
    + split; [done|]. split; [cbn; congruence|]. cbn. split; [intros slot u Hu Hur; by apply Hnr in Hu|]. split; [done|]. by rewrite Hn1.
    + exists c, t. repeat (split; [done|]). intros slot v Hv. destruct (Hex1 slot v Hv) as (v' & Hv' & _ & H1 & H2). exists v'.
      split; [done|]. split; [done|]. intros Hvg. left. by apply H2.
  - destruct (best_priority s2 (proj1 Hok2) Hnz) as (slot & rest & Hp & Hhead & Hbest). set (p := trailing_zeros (runqueue_bitmap s2)) in *.
    destruct (dequeue_run (E:=E) s2 p slot rest (proj1 Hok2) Hp Hhead) as (s3 & Hdeq & Hreq).
    destruct (queue_owner s2 p slot Hok2) as (u & Hu & _ & Hus); [rewrite Hhead; by left|].
    destruct (requeued_core _ _ _ Hreq) as [Hts3 Hrest3]. pose proof (rest_fields _ _ Hrest3) as (Hi3 & _ & Hn3 & _).
    unfold bind at 1 2. rewrite Hdeq. unfold lift, unwrap, bind at 1. unfold modify at 1, bind at 1.
    set (s4 := set_field current_slot (Some slot) s3). assert (Hu4 : threads s4 !! slot = Some u) by (cbn; by rewrite Hts3).
    unfold bind at 1. rewrite (set_thread_run s4 slot u _ Hu4). unfold modify, bind at 1. unfold bind at 1.
    match goal with |- context [get_thread slot ?x] => rewrite (get_thread_run x slot (set_state Running u)) end.
    2: { cbn. rewrite list_lookup_alter_eq. by rewrite Hts3, Hu. }
    unfold ret, gets. eexists _, _. split; [done|]. match goal with |- sched_inv ?x /\ _ => set (s5 := x) end.
    destruct (dispatch_ok s2 s3 s5 slot u rest p (set_state Running) Hok2 Hu Hhead Hreq) as (Hok5 & Hts5 & _); [done..|].
    assert (Hn5 : thread_count s5 = thread_count s) by (transitivity (thread_count s3); [done|]; rewrite Hn3; exact Hn1).
    assert (Hi5 : initialized s5 = true) by (transitivity (initialized s3); [done|]; rewrite Hi3; transitivity (initialized s1); [done|congruence]).
    split; [apply (running_inv s5 (threads s2) (set_state Running) slot u); try done; try congruence; by rewrite Hn5|].
    exists c, t. repeat (split; [done|]). intros slot' v Hv. destruct (Hex1 slot' v Hv) as (v' & Hv' & _ & H1 & H2).
    destruct (decide (slot' = slot)) as [->|Hne'].
    + assert (v' = u) as -> by (cbn in Hu; congruence). exists (set_state Running u). rewrite Hts5, list_lookup_alter_eq, Hu.
      split; [done|]. split; [intros Hvg Hvu; specialize (H1 Hvg Hvu); congruence|]. intros Hvg. right. specialize (H2 Hvg). subst v. done.
    + exists v'. rewrite Hts5, list_lookup_alter_ne by done. split; [done|]. split; [done|]. intros Hvg. left. by apply H2.
Qed.

(** ** New threads *)
Lemma spawn_inv s s' f t : sched_inv s -> threads s !! thread_count s = Some t -> sched_ok s' ->
  threads s' = alter f (thread_count s) (threads s) -> state (f t) = Runnable -> thread_count s' = S (thread_count s) ->
  current_slot s' = current_slot s -> initialized s' = initialized s -> sched_inv s'.
Proof.
  intros (Hok & Hi & Hr & Hcb & Hle & Hcomp) Ht Hok' Hts Hs Hn Hc Hi'. rewrite <- Hi' in Hi. split; [done|]. split; [done|].
  assert (Hlt : (thread_count s < MAX_THREADS)%nat) by (apply lookup_lt_Some in Ht; destruct Hok as [[Hl _] _]; lia).
  rewrite Hts, Hc, Hn. split; [|split; [done|split; [lia|]]].
  - intros slot u Hu Hur. destruct (alter_cases _ _ _ _ _ _ Ht Hu) as [[-> ->]|[_ ?]]; [congruence|]. by eapply Hr.
  - intros slot u Hu. destruct (alter_cases _ _ _ _ _ _ Ht Hu) as [[-> ->]|[Hne Hold]]; [rewrite Hs; split; [done|lia]|].
    rewrite (Hcomp slot u Hold). lia.
Qed.

Lemma free_slot s : sched_inv s -> (thread_count s < MAX_THREADS)%nat -> exists t, threads s !! thread_count s = Some t /\ state t = Unused.
Proof.
  intros (Hok & _ & _ & _ & _ & Hcomp) Hlt. destruct (lookup_lt_is_Some_2 (threads s) (thread_count s)) as [t Ht].
  - destruct Hok as [[Hl _] _]. lia.
  - exists t. split; [done|]. by apply (Hcomp _ _ Ht).
Qed.

Lemma find_free {E} s : sched_inv s ->
  find_first (E:=E) (seq 0 MAX_THREADS) (fun i => let! t := get_thread i in ret (bool_decide (state t = Unused))) s =
    (Ok (if decide (thread_count s < MAX_THREADS)%nat then Some (thread_count s) else None), s).
Proof.
  intros Hinv. pose proof Hinv as (Hok & _ & _ & _ & Hle & Hcomp). assert (Hl : length (threads s) = MAX_THREADS) by apply Hok.
  destruct (find_table (E:=E) s (fun t => bool_decide (state t = Unused)) Hl) as (r & -> & Hspec). do 2 f_equal.
  destruct (decide (thread_count s < MAX_THREADS)%nat) as [Hlt|Hge].
  - destruct (free_slot s Hinv Hlt) as (t & Ht & Hu). destruct r as [i|].
    + destruct Hspec as (u & Hui & Htest & Hfirst). apply bool_decide_eq_true in Htest. apply (Hcomp _ _ Hui) in Htest.
      destruct (Nat.eq_dec i (thread_count s)) as [->|]; [done|]. specialize (Hfirst (thread_count s) t ltac:(lia) Ht). rewrite Hu in Hfirst. done.
    + specialize (Hspec _ _ Ht). by rewrite Hu in Hspec.
  - destruct r as [i|]; [|done]. destruct Hspec as (u & Hui & Htest & _). apply bool_decide_eq_true in Htest. apply (Hcomp _ _ Hui) in Htest.
    apply lookup_lt_Some in Hui. lia.
Qed.

(** The child of a fork: the parent's copy with its own identity and address space. *)
Definition forked (s : Scheduler) (parent : Thread) (new_cr3 : Z) : Thread :=
  mkThread (next_thread_id s) (next_thread_id s) (process_id parent) (next_thread_id s) (name parent) (role parent) Runnable
    (base_priority parent) 0 0 (set_field cr3 new_cr3 (context parent)) (fd_table parent) 0.

Lemma fork_run new_cr3 s : sched_inv s -> new_cr3 <> 0 -> exists r s', fork_current_thread new_cr3 s = (r, s') /\ sched_inv s' /\
  match r with
  | Ok child => exists c parent, current_slot s = Some c /\ threads s !! c = Some parent /\ child = next_thread_id s /\
      threads s' = alter (fun _ => forked s parent new_cr3) (thread_count s) (threads s) /\ current_slot s' = Some c
  | Err e => e = ThreadTableFull /\ s' = s /\ (current_slot s = None \/ thread_count s = MAX_THREADS)
  | _ => False
  end.
Proof.
  intros Hinv Hcr3. pose proof Hinv as (Hok & Hi & Hr & Hcb & Hle & Hcomp). unfold fork_current_thread.
  unfold gets at 1 2, bind at 1 2. rewrite Hi. destruct (current_slot s) as [c|] eqn:Hcur.
  2: { eexists _, s. split; [done|]. split; [done|]. auto. }
  unfold bind at 1. rewrite (find_free s Hinv). destruct (decide (thread_count s < MAX_THREADS)%nat) as [Hlt|Hge].
  2: { eexists _, s. split; [done|]. split; [done|]. split; [done|]. split; [done|]. right. lia. }
  unfold lift, ok_or, bind at 1. unfold gets, bind at 1. unfold modify at 1, bind at 1. unfold modify at 1, bind at 1.
  rewrite (proj2 (Z.eqb_neq _ _) Hcr3). destruct (current_thread_some s c Hinv Hcur) as [parent Hp].
  destruct (free_slot s Hinv Hlt) as (t & Ht & Hu). unfold bind at 1.
  match goal with |- context [get_thread c ?x] => set (s1 := x) end. rewrite (get_thread_run s1 c parent Hp).
  unfold bind at 1. rewrite (set_thread_run s1 (thread_count s) t _ Ht). set (f := fun _ : Thread => _).
  assert (Hb : 0 <= base_priority parent) by (eapply (Forall_lookup_1 _ _ _ _ (proj1 (proj2 (proj1 Hok)))); exact Hp).
  destruct (spawn_run s (upd threads (alter f (thread_count s)) s1) (thread_count s) t f) as (s' & Hrun & Hok' & Hrest & Hts & _);
    try done; [congruence|]. unfold ignore, catch, bind. rewrite Hrun. exists (Ok (next_thread_id s)), s'. split; [done|].
  pose proof (rest_fields _ _ Hrest) as (Hi' & Hc' & Hn' & _).
  split; [apply (spawn_inv s s' f t); try done; congruence|]. exists c, parent. repeat (split; [done|]). rewrite Hc'. exact Hcur.
Qed.

(** The frame of a new thread in memory. *)
Lemma write_words_get ws : forall mem addr k w, ws !! k = Some w -> write_words mem addr ws !! (addr + 8 * Z.of_nat k) = Some w.
Proof.
  assert (Hkeep : forall ws mem addr a, a < addr -> write_words mem addr ws !! a = mem !! a).
  { intros ws'. induction ws' as [|x ws' IH]; intros mem addr a Ha; cbn [write_words]; [done|]. rewrite IH by lia. by rewrite lookup_insert_ne by lia. }
  induction ws as [|x ws IH]; intros mem addr k w Hk; [done|]. destruct k as [|k]; cbn [write_words].
  - rewrite Hkeep by lia. rewrite Z.mul_0_r, Z.add_0_r. injection Hk as ->. apply lookup_insert_eq.
  - replace (addr + 8 * Z.of_nat (S k)) with (addr + 8 + 8 * Z.of_nat k) by lia. by apply IH.
Qed.

Lemma create_user_run L entry stack pt s : sched_inv s -> exists r s', create_user_thread L entry stack pt s = (r, s') /\ sched_inv s' /\
  match r with
  | Ok sp => exists t, threads s' !! thread_count s = Some t /\ id t = next_thread_id s /\ sp = mkSpawned (id t) (id t) /\ state t = Runnable /\
      role t = RUser /\ cr3 (context t) = pt /\
      (forall k w, user_frame entry stack !! k = Some w -> kmem s' !! (rsp (context t) + 8 * Z.of_nat k) = Some w) /\
      current_slot s' = current_slot s /\ (forall k, k <> thread_count s -> threads s' !! k = threads s !! k) /\
      thread_count s' = S (thread_count s) /\ bootstrap_thread_id s' = bootstrap_thread_id s /\ idle_thread_id s' = idle_thread_id s /\ base_priority t = 0
  | Err e => e = ThreadTableFull /\ s' = s /\ thread_count s = MAX_THREADS
  | _ => False
  end.
Proof.
  intros Hinv. pose proof Hinv as (Hok & Hi & Hr & Hcb & Hle & Hcomp). unfold create_user_thread, create_thread. unfold gets at 1 2, bind at 1 2.
  rewrite Hi. cbn [negb]. unfold gets at 1. unfold bind at 1 2. destruct (Nat.leb_spec MAX_THREADS (thread_count s)) as [Hge|Hlt].
  { eexists _, s. split; [done|]. split; [done|]. split; [done|]. split; [done|]. lia. }
  unfold gets at 1, bind at 1. unfold modify at 1, bind at 1. destruct (free_slot s Hinv Hlt) as (t & Ht & Hu).
  unfold bind at 1. match goal with |- context [set_thread (thread_count s) ?f ?x] => set (f1 := f); set (s1 := x) end.
  rewrite (set_thread_run s1 (thread_count s) t f1 Ht). unfold modify at 1, bind at 1. unfold ret at 1.
  unfold initialize_user_thread. unfold bind at 1 2. unfold modify at 1.
  match goal with |- context [set_thread (thread_count s) ?f ?x] => set (f2 := f); set (s2 := x) end.
  rewrite (set_thread_run s2 (thread_count s) (f1 t) f2) by (cbn; by rewrite list_lookup_alter_eq, Ht).
  set (s3 := upd threads (alter f2 (thread_count s)) s2). set (f := fun u => f2 (f1 u)).
  destruct (spawn_run s s3 (thread_count s) t f) as (s' & Hrun & Hok' & Hrest & Hts & _); try done; [congruence|unfold core; cbn; by rewrite alter_alter|].
  unfold bind at 1. rewrite Hrun. pose proof (rest_fields _ _ Hrest) as (Hi' & Hc' & Hn' & _).
  assert (Ht' : threads s' !! thread_count s = Some (f t)) by (rewrite Hts, list_lookup_alter_eq, Ht; done).
  unfold bind. rewrite (get_thread_run s' _ _ Ht'). eexists _, s'. split; [done|].
  split; [apply (spawn_inv s s' f t); try done|]. exists (f t). do 6 (split; [done|]). split; [|split; [by rewrite Hc'|split; [intros k Hk; rewrite Hts; by rewrite list_lookup_alter_ne|]]].
  2:{ pose proof (f_equal bootstrap_thread_id Hrest) as Hb. pose proof (f_equal idle_thread_id Hrest) as Hid. split; [by rewrite Hn'|]. done. }
  intros k w Hk. apply (f_equal kmem) in Hrest. change (kmem s' = kmem s3) in Hrest. rewrite Hrest. by apply write_words_get.
Qed.

(** ** Booting *)
Definition first_tick (L : Layout) (kernel_cr3 : Z) (s : Scheduler) : outcome SchedulerError (option DispatchDecision) * Scheduler :=
  (do! initialize_bootstrap_threads L kernel_cr3 in on_timer_tick) s.

Lemma first_tick_fields L kernel_cr3 s : let r := first_tick L kernel_cr3 s in
  (exists d, fst r = Ok d) /\ state <$> threads (snd r) = [Running; Runnable] ++ replicate 6 Unused /\
  base_priority <$> threads (snd r) = replicate 8 0 /\
  runqueues (snd r) = (1%nat :: 1%nat :: replicate 6 0%nat) :: replicate 63 (replicate 8 0%nat) /\
  runqueue_depths (snd r) = 1%nat :: replicate 63 0%nat /\ runqueue_bitmap (snd r) = 1 /\ current_slot (snd r) = Some 0%nat /\
  thread_count (snd r) = 2%nat /\ initialized (snd r) = true.
Proof. destruct s, L. split; [eexists; vm_compute; reflexivity|]. repeat split; vm_compute; reflexivity. Qed.

Lemma lookup_S {A} (x : A) l i : (x :: l) !! S i = l !! i.
Proof. done. Qed.

Lemma first_tick_inv L kernel_cr3 s : sched_inv (snd (first_tick L kernel_cr3 s)).
Proof.
  destruct (first_tick_fields L kernel_cr3 s) as (_ & Hst & Hpr & Hrow & Hdep & Hbm & Hcur & Hn & Hi). set (s1 := snd _) in *.
  assert (Hstate : forall slot t, threads s1 !! slot = Some t -> ([Running; Runnable] ++ replicate 6 Unused) !! slot = Some (state t))
    by (intros slot t Ht; rewrite <- Hst, list_lookup_fmap, Ht; done).
  assert (Hprio : forall slot t, threads s1 !! slot = Some t -> priority_of t = 0%nat).
  { intros slot t Ht. assert (Hb : replicate 8 0 !! slot = Some (base_priority t)) by (rewrite <- Hpr, list_lookup_fmap, Ht; done).
    apply lookup_replicate in Hb as [Hb _]. unfold priority_of. by rewrite Hb. }
  assert (Hq : forall p, queue s1 p = if decide (p = 0%nat) then [1%nat] else []).
  { intros [|p]; unfold queue, depth_of, row_of; rewrite Hdep, Hrow; [done|]. rewrite !lookup_S.
    destruct (decide (p < 63)%nat); [by rewrite !lookup_replicate_2 by done|]. by rewrite !lookup_ge_None_2 by (rewrite length_replicate; lia). }
  assert (Hlen : length (threads s1) = 8%nat) by (by rewrite <- (length_fmap state), Hst).
  split; [split|split; [done|split; [|split; [|split]]]].
  - split; [done|]. split.
    { apply Forall_lookup. intros slot t Ht. assert (Hb : replicate 8 0 !! slot = Some (base_priority t)) by (rewrite <- Hpr, list_lookup_fmap, Ht; done).
      apply lookup_replicate in Hb as [Hb _]. lia. }
    rewrite Hrow, Hdep, Hbm. split; [done|]. split; [constructor; [done|by apply Forall_replicate]|]. split; [done|].
    split; [constructor; [unfold MAX_THREADS; lia|apply Forall_replicate; lia]|]. split; [lia|]. intros [|p] Hp; unfold bit_of, depth_of; rewrite Hbm, Hdep; [done|].
    rewrite lookup_S, lookup_replicate_2 by (unfold MAX_PRIORITIES in Hp; lia). change 1 with (2 ^ 0) at 1. rewrite Z.pow2_bits_false by lia. done.
  - split; [|split].
    + intros slot t Ht. rewrite (Hprio _ _ Ht), Hq, decide_True by done. pose proof (Hstate _ _ Ht) as Hs. rewrite list_elem_of_singleton.
      destruct slot as [|[|slot]]; cbn [app] in Hs; rewrite ?lookup_S in Hs.
      * injection Hs as <-. done.
      * injection Hs as <-. done.
      * apply lookup_replicate in Hs as [-> _]. split; [done|lia].
    + intros p slot. rewrite Hq. destruct (decide (p = 0%nat)) as [->|]; [|set_solver]. intros ->%list_elem_of_singleton.
      destruct (lookup_lt_is_Some_2 (threads s1) 1 ltac:(lia)) as [t Ht]. exists t. split; [done|]. by eapply Hprio.
    + intros p. rewrite Hq. destruct (decide (p = 0%nat)); [apply NoDup_singleton|constructor].
  - intros slot t Ht Hr. rewrite Hcur. pose proof (Hstate _ _ Ht) as Hs. rewrite Hr in Hs. destruct slot as [|[|slot]]; [done|done|].
    cbn [app] in Hs; rewrite ?lookup_S in Hs. by apply lookup_replicate in Hs as [? _].
  - rewrite Hcur. intros slot [= <-]. unfold MAX_THREADS. lia.
  - rewrite Hn. unfold MAX_THREADS. lia.
  - intros slot t Ht. rewrite Hn. pose proof (Hstate _ _ Ht) as Hs. destruct slot as [|[|slot]]; cbn [app] in Hs; rewrite ?lookup_S in Hs.
    + injection Hs as <-. split; [done|lia].
    + injection Hs as <-. split; [done|lia].
    + apply lookup_replicate in Hs as [-> _]. split; [lia|done].
Qed.

(** Taking a thread out of its queue to run it. *)
Lemma claim_ok s s1 s2 slot t f : sched_ok s -> threads s !! slot = Some t ->
  requeued s s1 (set_queue (queue s) (priority_of t) (filter (fun x => x <> slot) (queue s (priority_of t)))) ->
  core s2 = core (upd threads (alter f slot) s1) -> keeps_priority f -> state (f t) <> Runnable ->
  sched_ok s2 /\ threads s2 = alter f slot (threads s).
Proof.
  intros [Hwf Hq] Ht Hreq Hc Hf Hs. destruct (requeued_core _ _ _ Hreq) as [Hts _]. destruct Hreq as (Hwf1 & _ & HQ).
  assert (Hts2 : threads s2 = alter f slot (threads s)) by (unfold core in Hc; cbn in Hc; rewrite <- Hts; by injection Hc).
  split; [|done]. split; [by eapply wf_alter|]. rewrite Hts2.
  eapply qr_ext; [intros p; symmetry; rewrite (core_queue _ _ Hc); apply HQ|].
  apply (qr_drop (threads s) (queue s) slot t f); try done. by apply keeps_priority_of.
Qed.

Definition stop_running {E} (slot : nat) : S_ E unit :=
  let! t := get_thread slot in if bool_decide (state t = Running) then requeue_running slot else ret tt.

Lemma stop_none {E} l : forall s, sched_ok s -> no_running (threads s) -> Forall (fun i => (i < MAX_THREADS)%nat) l ->
  for_each l (stop_running (E:=E)) s = (Ok tt, s).
Proof.
  induction l as [|x l IH]; intros s Hok Hn Hl; [done|]. apply Forall_cons_iff in Hl as [Hx Hl]. cbn [for_each].
  destruct (lookup_lt_is_Some_2 (threads s) x) as [t Ht]; [destruct Hok as [[Hlen _] _]; lia|].
  unfold bind at 1, stop_running at 1. unfold bind. rewrite (get_thread_run s x t Ht). rewrite bool_decide_eq_false_2 by (by eapply Hn).
  by apply IH.
Qed.

Lemma stop_all {E} l s : sched_inv s -> Forall (fun i => (i < MAX_THREADS)%nat) l ->
  (forall c t, current_slot s = Some c -> threads s !! c = Some t -> state t = Running -> c ∈ l) ->
  exists s1, for_each l (stop_running (E:=E)) s = (Ok tt, s1) /\ off_cpu s s1.
Proof.
  intros Hinv. pose proof Hinv as (Hok & Hi & Hr & Hcb & Hle & Hcomp). induction l as [|x l IH]; intros Hl Hin.
  - exists s. split; [done|]. assert (Hstop : forall c t, current_slot s = Some c -> threads s !! c = Some t -> state t <> Running).
    { intros c t Hc Ht Hrun. specialize (Hin c t Hc Ht Hrun). set_solver. }
    apply off_cpu_stopped; try done. by apply stopped_no_running.
  - apply Forall_cons_iff in Hl as [Hx Hl]. destruct (lookup_lt_is_Some_2 (threads s) x) as [t Ht]; [destruct Hok as [[Hlen _] _]; lia|].
    cbn [for_each]. unfold bind at 1, stop_running at 1. unfold bind. rewrite (get_thread_run s x t Ht).
    destruct (bool_decide_reflect (state t = Running)) as [Hrun|Hnr].
    + destruct (running_preempt (E:=E) s x t Hinv (Hr _ _ Ht Hrun) Ht) as (s1 & Hpre & Hoff). rewrite bool_decide_eq_true_2 in Hpre by done.
      rewrite Hpre. exists s1. split; [|done]. destruct Hoff as (Hok1 & _ & Hn1 & _). by apply stop_none.
    + apply IH; [done|]. intros c u Hc Hu Hrun. specialize (Hin c u Hc Hu Hrun). apply elem_of_cons in Hin as [->|]; [congruence|done].
Qed.

Lemma find_thread_run {E} s test : sched_inv s -> exists r, find_thread (E:=E) test s = (Ok r, s) /\
  match r with
  | Some b => (b < thread_count s)%nat /\ exists t, threads s !! b = Some t /\ test t = true
  | None => forall i t, (i < thread_count s)%nat -> threads s !! i = Some t -> test t = false
  end.
Proof.
  intros ([[Hl _] _] & _ & _ & _ & Hle & _). set (f := fun i => match threads s !! i with Some t => test t | None => false end).
  eexists. split.
  - unfold find_thread, gets, bind at 1. apply (find_first_pure _ f). apply Forall_seq. intros i Hi.
    destruct (lookup_lt_is_Some_2 (threads s) i ltac:(lia)) as [t Ht]. unfold bind, ret. rewrite (get_thread_run s i t Ht). unfold f. by rewrite Ht.
  - destruct (position f _) as [k|] eqn:Hpos; cbn [mbind option_bind].
    + apply position_Some in Hpos as [(i & Hi & Hf) _]. rewrite Hi. apply lookup_seq in Hi as [-> Hk]. split; [lia|]. revert Hf. unfold f.
      destruct (threads s !! (0 + k)%nat) as [t|]; [|done]. by exists t.
    + intros i t Hi Ht. apply position_None in Hpos as Hall. rewrite Forall_lookup in Hall. specialize (Hall i i (lookup_seq_lt 0 _ _ Hi)). unfold f in Hall. by rewrite Ht in Hall.
Qed.

Lemma find_thread_first {E} s test t : threads s !! 0%nat = Some t -> (0 < thread_count s)%nat -> test t = true -> find_thread (E:=E) test s = (Ok (Some 0%nat), s).
Proof.
  intros Ht Hn Htest. unfold find_thread, gets, bind at 1. destruct (thread_count s); [lia|]. cbn [seq find_first]. unfold bind.
  by rewrite (get_thread_run s 0 t Ht), Htest.
Qed.

Lemma restore_run {E} s : sched_inv s -> exists s', restore_bootstrap_as_current (E:=E) s = (Ok tt, s') /\ sched_inv s' /\
  forall b, bootstrap_slot (E:=E) s = (Ok (Some b), s) -> current_slot s' = Some b /\ exists t, threads s' !! b = Some t /\ state t = Running.
Proof.
  intros Hinv. pose proof Hinv as (Hok & Hi & Hr & Hcb & Hle & Hcomp).
  destruct (find_thread_run (E:=E) s (fun t => id t =? bootstrap_thread_id s) Hinv) as (r & Hfind & Hb).
  assert (Hslot : bootstrap_slot (E:=E) s = (Ok r, s)) by done.
  unfold restore_bootstrap_as_current. unfold bind at 1. rewrite Hslot.
  destruct r as [b|]; [|exists s; do 2 (split; [done|]); congruence]. destruct Hb as [Hb _]. unfold gets, bind at 1.
  destruct (stop_all (E:=E) (seq 0 (thread_count s)) s Hinv) as (s1 & Hloop & Hoff); [apply Forall_seq; intros; lia| |].
  { intros c t Hc Ht Hrun. apply elem_of_seq. destruct (Nat.le_gt_cases (thread_count s) c) as [Hge|]; [|lia]. apply (Hcomp _ _ Ht) in Hge. congruence. }
  unfold bind at 1. unfold stop_running in Hloop. rewrite Hloop. destruct Hoff as (Hok1 & Hrest & Hn1 & Hc1 & _).
  destruct (lookup_lt_is_Some_2 (threads s1) b) as [t Ht]; [destruct Hok1 as [[Hlen _] _]; lia|].
  destruct (remove_queued_run (E:=E) s1 b t (proj1 Hok1) Ht) as (s2 & Hrm & Hreq); [apply (proj2 (proj2 (proj2 Hok1)))|].
  unfold bind at 1. rewrite Hrm. destruct (requeued_core _ _ _ Hreq) as [Hts2 Hrest2]. rewrite (set_thread_twice s2 b t) by (by rewrite Hts2).
  unfold modify. eexists. split; [done|]. match goal with |- sched_inv ?x /\ _ => set (s3 := x) end. set (f := fun u => bump dispatch_count (set_state Running u)).
  destruct (claim_ok s1 s2 s3 b t f Hok1 Ht Hreq) as [Hok3 Hts3]; try done; [unfold core; cbn; by rewrite alter_alter|].
  rewrite Hrest in Hrest2. pose proof (rest_fields _ _ Hrest2) as (Hi2 & _ & Hn2 & _).
  assert (Hn3 : thread_count s3 = thread_count s) by (transitivity (thread_count s2); done). split.
  - apply (running_inv s3 (threads s1) f b t); try done; [cbn; congruence| |by rewrite Hn3|by rewrite Hn3].
    intros Hu. apply (Hc1 _ _ Ht) in Hu. lia.
  - intros b' [= <-]. split; [done|]. exists (f t). by rewrite Hts3, list_lookup_alter_eq, Ht.
Qed.

(** ** Reaping *)
Definition reap_match (parent_pid target_pid : Z) (t : Thread) : bool :=
  (parent_process_id t =? parent_pid) && ((target_pid =? -1) || (as_i64 (id t) =? target_pid)).

(** The slot a reap frees: the first exited child. *)
Definition reap_slot (s : Scheduler) (parent_pid target_pid : Z) : option nat :=
  position (fun t => reap_match parent_pid target_pid t && bool_decide (state t = Exited)) (threads s).

Lemma reap_from_run pp tp s l : forall k b, drop k (threads s) = l -> (k + length l = MAX_THREADS)%nat ->
  Forall (fun t => state t = Exited -> (0 < thread_count s)%nat) l -> reap_from pp tp (seq k (length l)) b s =
    match position (fun t => reap_match pp tp t && bool_decide (state t = Exited)) l with
    | Some i =>
        match l !! i with
        | Some t => (Ok (id t, exit_status t), upd thread_count pred (upd threads (alter (set_state Unused) (k + i)%nat) s))
        | None => (Panic, s)
        end
    | None => (Err (b || existsb (reap_match pp tp) l), s)
    end.
Proof.
  induction l as [|t l IH]; intros k b Hl Hk Hn; cbn [length seq reap_from position existsb]; [by rewrite orb_false_r|].
  apply Forall_cons_1 in Hn as [Hnt Hn].
  assert (Ht : threads s !! k = Some t) by (rewrite <- (Nat.add_0_r k), <- lookup_drop, Hl; done).
  unfold bind at 1. rewrite (get_thread_run s k t Ht). fold (reap_match pp tp t).
  assert (Hl' : drop (S k) (threads s) = l) by (rewrite (drop_S _ t) in Hl by done; congruence). specialize (IH (S k)).
  destruct (reap_match pp tp t) eqn:Hm; cbn [andb].
  - destruct (bool_decide (state t = Exited)) eqn:Hs.
    + apply bool_decide_eq_true in Hs. specialize (Hnt Hs).
      unfold bind at 1. rewrite (set_thread_run s k t _ Ht). unfold gets, bind at 1. rewrite (proj2 (Nat.eqb_neq _ _)) by (cbn; lia).
      unfold bind, modify, ret. by rewrite Nat.add_0_r.
    + rewrite IH by (done || simpl in Hk; lia). rewrite orb_true_l, orb_true_r. destruct (position _ l) as [i|]; cbn [option_map]; [|done].
      cbn [lookup list_lookup]. by rewrite <- Nat.add_succ_comm.
  - rewrite IH by (done || simpl in Hk; lia). cbn [orb]. destruct (position _ l) as [i|]; cbn [option_map]; [|done].
    cbn [lookup list_lookup]. by rewrite <- Nat.add_succ_comm.
Qed.

Lemma reap_run pp tp s : sched_inv s ->
  match reap_slot s pp tp with
  | Some i => exists t, threads s !! i = Some t /\ reap_match pp tp t = true /\ state t = Exited /\
      reap_child pp tp s = (Ok (id t, exit_status t), upd thread_count pred (upd threads (alter (set_state Unused) i) s))
  | None => reap_child pp tp s = (Err (existsb (reap_match pp tp) (threads s)), s)
  end.
Proof.
  intros ([[Hl _] _] & _ & _ & _ & _ & Hcomp).
  assert (Hn : Forall (fun t => state t = Exited -> (0 < thread_count s)%nat) (threads s)).
  { apply Forall_lookup. intros i t Ht Hs. destruct (thread_count s) eqn:Hc; [|lia].
    assert (Hu : state t = Unused) by (apply (Hcomp i t Ht); lia). congruence. }
  pose proof (reap_from_run pp tp s (threads s) 0 false (drop_0 _) ltac:(lia) Hn) as Hrun.
  rewrite Hl in Hrun. unfold reap_child, reap_slot. rewrite Hrun. destruct (position _ (threads s)) as [i|] eqn:Hpos; [|done].
  apply position_Some in Hpos as [(t & Ht & Hm) _]. apply andb_true_iff in Hm as [Hm Hs]. apply bool_decide_eq_true in Hs.
  exists t. rewrite Ht. done.
Qed.

Lemma reap_inv s i t : sched_inv s -> threads s !! i = Some t -> state t = Exited -> S i = thread_count s ->
  sched_inv (upd thread_count pred (upd threads (alter (set_state Unused) i) s)).
Proof.
  intros (Hok & Hi & Hr & Hcb & Hle & Hcomp) Ht Hs Hlast. split; [|split; [exact Hi|split; [|split; [exact Hcb|split; [cbn; lia|]]]]].
  - apply (alter_ok s _ (set_state Unused) i t); try done. rewrite Hs. done.
  - cbn. intros slot u Hu Hur. destruct (alter_cases _ _ _ _ _ _ Ht Hu) as [[-> ->]|[_ ?]]; [done|]. by eapply Hr.
  - cbn. intros slot u Hu. destruct (alter_cases _ _ _ _ _ _ Ht Hu) as [[-> ->]|[Hne Hold]]; [split; [lia|done]|].
    rewrite (Hcomp slot u Hold). lia.
Qed.

(** ** What the operations keep: who sits in which slot *)
Definition who (t : Thread) : Z * ThreadRole * Z := (id t, role t, base_priority t).
Definition roster (s : Scheduler) : list (Z * ThreadRole * Z) * nat * Z * Z :=
  (who <$> threads s, thread_count s, bootstrap_thread_id s, idle_thread_id s).

Definition preserves {E A} (P : Scheduler -> Prop) (m : S_ E A) : Prop := forall s, P s -> P (snd (m s)).

(** A property of the identities, roles and priorities of the threads. *)
Class View (P : Scheduler -> Prop) : Prop := view_roster s s' : roster s' = roster s -> P s -> P s'.
#[export] Instance roster_view x : View (fun s => roster s = x).
Proof. intros s s' ->. done. Qed.

Section preserves.
Context {P : Scheduler -> Prop} `{!View P}.

Lemma pres_bind {E A B} (m : S_ E A) (k : A -> S_ E B) : preserves P m -> (forall a, preserves P (k a)) -> preserves P (bind m k).
Proof. intros Hm Hk s Hs. unfold bind. specialize (Hm s Hs). destruct (m s) as [[a|e| |] s1]; cbn in *; [|done..]. by apply Hk. Qed.
Lemma pres_catch {E F A B} (m : S_ E A) (k : A + E -> S_ F B) : preserves P m -> (forall r, preserves P (k r)) -> preserves P (catch m k).
Proof. intros Hm Hk s Hs. unfold catch. specialize (Hm s Hs). destruct (m s) as [[a|e| |] s1]; cbn in *; [by apply Hk..|done|done]. Qed.
Lemma pres_ret {E A} (a : A) : preserves (E:=E) P (ret a).
Proof. by intros s. Qed.
Lemma pres_panic {E A} : preserves (E:=E) (A:=A) P panic.
Proof. by intros s. Qed.
Lemma pres_throw {E A} (e : E) : preserves (A:=A) P (throw e).
Proof. by intros s. Qed.
Lemma pres_gets {E A} (f : Scheduler -> A) : preserves (E:=E) P (gets f).
Proof. by intros s. Qed.
Lemma pres_lift {E A} (o : outcome E A) : preserves P (lift o).
Proof. by intros s. Qed.
Lemma pres_modify {E} f : (forall s, roster (f s) = roster s) -> preserves (E:=E) P (modify f).
Proof. intros H s Hs. exact (view_roster s _ (H s) Hs). Qed.
Lemma pres_at {E A} (l : list A) i : preserves (E:=E) P (at_ l i).
Proof. unfold at_. destruct (l !! i); by intros s. Qed.
Lemma pres_get_thread {E} slot : preserves (E:=E) P (get_thread slot).
Proof. apply pres_bind; [apply pres_gets|intros; apply pres_at]. Qed.
Lemma pres_set_thread {E} slot f : (forall t, who (f t) = who t) -> preserves (E:=E) P (set_thread slot f).
Proof.
  intros Hf. apply pres_bind; [apply pres_get_thread|]. intros _. apply pres_modify. intros s.
  unfold roster. cbn. f_equal. f_equal. f_equal. apply list_eq. intros i. rewrite !list_lookup_fmap.
  destruct (decide (i = slot)) as [->|]; [|by rewrite list_lookup_alter_ne]. rewrite list_lookup_alter_eq. destruct (threads s !! slot); [|done]. cbn. by rewrite Hf.
Qed.
Lemma pres_find_first {E} test l : (forall i, preserves P (test i)) -> preserves (E:=E) P (find_first l test).
Proof. intros H. induction l as [|x l IH]; [by intros s|]. apply pres_bind; [done|]. intros []; [by intros s|done]. Qed.
Lemma pres_for_each {E A} (body : A -> S_ E unit) l : (forall x, preserves P (body x)) -> preserves P (for_each l body).
Proof. intros H. induction l as [|x l IH]; [by intros s|]. apply pres_bind; [done|]. by intros _. Qed.
Lemma pres_shift_row {E} n : forall row i, preserves (E:=E) P (shift_row row i n).
Proof. induction n as [|n IH]; intros row i; [by intros s|]. apply pres_bind; [apply pres_at|]. intros x. apply pres_bind; [apply pres_at|]. intros _. apply IH. Qed.
End preserves.

Create HintDb keeps.
#[export] Hint Resolve pres_ret pres_panic pres_throw pres_gets pres_lift pres_at pres_shift_row pres_get_thread : keeps.
Ltac keep := repeat first [done | progress intros | solve [auto with keeps typeclass_instances nocore]
  | apply pres_set_thread | apply pres_bind | apply pres_catch | apply pres_find_first
  | apply pres_for_each | apply pres_modify | match goal with |- preserves _ (match ?x with _ => _ end) => destruct x end ].

Section operations.
Context {P : Scheduler -> Prop} `{!View P}.

Lemma pres_enqueue slot : preserves P (enqueue slot).
Proof. unfold enqueue, priority_for_thread. keep. Qed.
Lemma pres_close_gap {E} p i : preserves (E:=E) P (close_gap p i).
Proof. unfold close_gap. keep. Qed.
Hint Resolve pres_enqueue pres_close_gap : keeps.
Lemma pres_dequeue {E} p : preserves (E:=E) P (dequeue p).
Proof. unfold dequeue. keep. Qed.
Lemma pres_remove_queued {E} slot : preserves (E:=E) P (remove_queued slot).
Proof. unfold remove_queued, priority_for_thread. keep. Qed.
Lemma pres_requeue {E} slot : preserves (E:=E) P (requeue_running slot).
Proof. unfold requeue_running, ignore. keep. Qed.
Lemma pres_call_hook {E} slot : preserves (E:=E) P (call_hook slot).
Proof. unfold call_hook. keep. Qed.
Lemma pres_snapshot {E} slot : preserves (E:=E) P (dispatch_snapshot slot).
Proof. unfold dispatch_snapshot. keep. Qed.
Lemma pres_prepare {E} L slot : preserves (E:=E) P (prepare_resume_slot L slot).
Proof. unfold prepare_resume_slot. keep. Qed.
Lemma pres_next_switch {E} : preserves (E:=E) P next_switch_index.
Proof. unfold next_switch_index. keep. Qed.
Lemma pres_context_pair {E} c n : preserves (E:=E) P (context_pair c n).
Proof. unfold context_pair. keep. Qed.
Hint Resolve pres_dequeue pres_remove_queued pres_requeue pres_call_hook pres_snapshot pres_prepare pres_next_switch pres_context_pair : keeps.
Lemma pres_exit_group {E} group slots : forall n, preserves (E:=E) P (exit_group group slots n).
Proof. induction slots as [|x slots IH]; intros n; cbn [exit_group]; keep. Qed.
Hint Resolve pres_exit_group : keeps.

Lemma pres_tick {E} : preserves (E:=E) P on_timer_tick.
Proof. unfold on_timer_tick. keep. Qed.
Lemma pres_yield {E} L r : preserves (E:=E) P (yield_current_user_thread L r).
Proof. unfold yield_current_user_thread. keep. Qed.
Lemma pres_switch {E} L : preserves (E:=E) P (context_switch_pair L).
Proof. unfold context_switch_pair, priority_for_thread. keep. Qed.
Lemma pres_restore {E} : preserves (E:=E) P restore_bootstrap_as_current.
Proof. unfold restore_bootstrap_as_current, bootstrap_slot, find_thread. keep. Qed.
Lemma pres_initial L : preserves P (initial_context_pair L).
Proof. unfold initial_context_pair, bootstrap_slot, first_runnable_user_slot, idle_slot, find_thread, activate_thread_slot. keep. Qed.
Lemma pres_exit {E} status : preserves (E:=E) P (request_exit_group status).
Proof. unfold request_exit_group. keep. Qed.
Lemma pres_block {E} : preserves (E:=E) P block_current_thread.
Proof. unfold block_current_thread. keep. Qed.
Lemma pres_unblock pid tid v : preserves P (unblock_thread_with_result pid tid v).
Proof. unfold unblock_thread_with_result. keep. Qed.
Lemma pres_set_fds {E} table : preserves (E:=E) P (set_fd_table table).
Proof. unfold set_fd_table. keep. Qed.
End operations.

Lemma roster_run {E A} (m : S_ E A) s r s' : (forall x, preserves (fun s => roster s = x) m) -> m s = (r, s') -> roster s' = roster s.
Proof. intros H Hrun. specialize (H _ s eq_refl). by rewrite Hrun in H. Qed.

(** Every thread has the same priority: the kernel never sets another one. *)
Definition flat (s : Scheduler) : Prop := Forall (fun t => base_priority t = 0) (threads s).
#[export] Instance flat_view : View flat.
Proof.
  intros s s' Hro. unfold flat. injection Hro as Hw _ _ _. rewrite !Forall_lookup. intros H i t Ht.
  pose proof (f_equal (lookup i) Hw) as Hi. rewrite !list_lookup_fmap, Ht in Hi. destruct (threads s !! i) as [u|] eqn:Hu; [|done].
  cbn in Hi. unfold who in Hi. injection Hi as _ _ ->. by apply (H i).
Qed.
Lemma flat_alter s f i : flat s -> (forall t, base_priority (f t) = 0) -> flat (upd threads (alter f i) s).
Proof. intros H Hf. unfold flat. cbn. apply Forall_alter; [done|]. intros. apply Hf. Qed.

(** ** Sequences of operations *)

(** What reaches the scheduler: the timer interrupt, [sched_yield_switch] and the
    pass of the idle loop, the system calls of the current thread, new threads and
    the hook of the bridge. *)
Inductive SchedOp : Type :=
| OTick | ORequest | OIdle | OYield (saved_rsp : Z) | OExit (status : Z) | OFork (new_cr3 : Z) | OBlock | OResume
| OUnblock (pid tid result : Z) | OCreate (entry stack page_table : Z) | OReap (parent target : Z) | OSetFds (table : list (option Z))
| ORegister | OTrigger (thread_id : Z) (is_gpu : bool).

Definition after {S E A} (r : outcome E A * S) : option S :=
  match r with
  | (Ok _, s) | (Err _, s) => Some s
  | _ => None
  end.

(** The state after an operation; [None] when it panics. *)
Definition run_op (L : Layout) (op : SchedOp) (k : Kernel) : option Kernel :=
  match op with
  | OTick => after (on_timer_interrupt (E:=unit) k)
  | ORequest => after (sched_yield_switch (E:=unit) k)
  | OIdle => after (run_idle_cycle (E:=unit) L k)
  | OYield r => after (on_sched (yield_current_user_thread (E:=unit) L r) k)
  | OExit status => after (on_sched (request_exit_group (E:=unit) status) k)
  | OFork c => after (on_sched (fork_current_thread c) k)
  | OBlock => after (on_sched (block_current_thread (E:=unit)) k)
  | OResume => after (on_sched (current_context_ptr_for_resume (E:=unit) L) k)
  | OUnblock pid tid v => after (on_sched (unblock_thread_with_result pid tid v) k)
  | OCreate e st pt => after (on_sched (create_user_thread L e st pt) k)
  | OReap pp tp => after (on_sched (reap_child pp tp) k)
  | OSetFds table => after (on_sched (set_fd_table (E:=unit) table) k)
  | ORegister => after (on_sched (register_hps_bridge (E:=unit)) k)
  | OTrigger i g => after (on_sched (trigger_hps_bridge (E:=unit) i g) k)
  end.

(** The operations the invariant allows: a fork whose address space was cloned,
    and a reap of the thread in the last slot. *)
Definition op_allowed (s : Scheduler) (op : SchedOp) : Prop :=
  match op with
  | OFork new_cr3 => new_cr3 <> 0
  | OReap pp tp => forall i, reap_slot s pp tp = Some i -> S i = thread_count s
  | _ => True
  end.

(** The kernel after [bootstrap]. *)
Definition kernel_inv (k : Kernel) : Prop := sched_inv (SCHEDULER k) /\ BOOTSTRAP_ACTIVE k = false /\ SCHEDULER_READY k = true.

Lemma after_sched {E A} (m : S_ E A) k o s' : kernel_inv k -> m (SCHEDULER k) = (o, s') -> after (o, s') = Some s' -> sched_inv s' ->
  exists k', after (on_sched m k) = Some k' /\ kernel_inv k' /\ SCHEDULER k' = s'.
Proof.
  intros (_ & Ha & Hr) Hrun Hok Hinv. unfold on_sched, zoom. rewrite Hrun. exists (set_field SCHEDULER s' k).
  split; [by destruct o|]. done.
Qed.

Lemma on_sched_run {E A} (m : S_ E A) k r s' : m (SCHEDULER k) = (r, s') -> on_sched m k = (r, set_field SCHEDULER s' k).
Proof. intros H. unfold on_sched, zoom. by rewrite H. Qed.

Lemma modify_run {S E A} f (c : unit -> M S E A) k : bind (modify f) c k = c tt (f k).
Proof. done. Qed.

Lemma bind_run {S E A B} (m : M S E A) (c : A -> M S E B) k a k' : m k = (Ok a, k') -> bind m c k = c a k'.
Proof. intros H. unfold bind. by rewrite H. Qed.

(** A tick after boot only asks for a switch. *)
Lemma tick_quiet {E} k : kernel_inv k -> exists r k', next_switch_index (E:=E) (SCHEDULER k) = (Ok r, SCHEDULER k) /\ on_timer_interrupt (E:=E) k = (Ok tt, k') /\
  kernel_inv k' /\ SCHEDULER k' = SCHEDULER k /\ NEED_RESCHEDULE k' = NEED_RESCHEDULE k || bool_decide (is_Some r).
Proof.
  intros (Hinv & Ha & Hr). destruct (next_switch_run (E:=E) (SCHEDULER k) Hinv) as (r & Hrun & _). exists r. unfold on_timer_interrupt.
  rewrite (bind_run _ _ k false k), (bind_run _ _ k true k) by (unfold gets; by rewrite ?Ha, ?Hr). cbn [negb andb]. rewrite modify_run.
  set (k1 := upd SCHEDULER_TICKS _ k). rewrite (bind_run _ _ k1 r k1) by (rewrite (on_sched_run _ k1 _ _ Hrun); by destruct k). unfold modify, ret.
  destruct (bool_decide (is_Some r)); eexists; (split; [done|]); (split; [done|]); (split; [done|]); (split; [done|]); cbn; by rewrite ?orb_true_r, ?orb_false_r.
Qed.

Lemma request_quiet {E} k : kernel_inv k -> exists k', sched_yield_switch (E:=E) k = (Ok tt, k') /\ kernel_inv k' /\ SCHEDULER k' = SCHEDULER k.
Proof.
  intros (Hinv & Ha & Hr). destruct (next_switch_run (E:=E) (SCHEDULER k) Hinv) as (r & Hrun & _). unfold sched_yield_switch.
  rewrite (bind_run _ _ k r k) by (rewrite (on_sched_run _ k _ _ Hrun); by destruct k). destruct (bool_decide (is_Some r)); by eexists.
Qed.

(** The pass of the idle loop: a switch when one was asked for. *)
Lemma idle_cycle_run {E} L k : kernel_inv k -> exists r k', run_idle_cycle (E:=E) L k = (Ok r, k') /\ kernel_inv k' /\ NEED_RESCHEDULE k' = false /\
  (if NEED_RESCHEDULE k then exists r' s', context_switch_pair (E:=E) L (SCHEDULER k) = (Ok r', s') /\ SCHEDULER k' = s' /\ r = (fun '(c, n, _) => (c, n)) <$> r'
   else SCHEDULER k' = SCHEDULER k /\ r = None).
Proof.
  intros (Hinv & Ha & Hr). unfold run_idle_cycle. rewrite (bind_run _ _ k (NEED_RESCHEDULE k) k) by done. rewrite modify_run. destruct (NEED_RESCHEDULE k); [|by eexists _, _].
  destruct (switch_run (E:=E) L (SCHEDULER k) Hinv) as (r & s' & Hrun & Hs' & _). set (k1 := set_field NEED_RESCHEDULE false k).
  rewrite (bind_run _ _ k1 r _ (on_sched_run _ k1 _ _ Hrun)).
  eexists _, _. split; [done|]. split; [done|]. split; [done|]. by exists r, s'.
Qed.

Lemma set_fds_inv table s : sched_inv s -> exists s', set_fd_table (E:=unit) table s = (Ok tt, s') /\ sched_inv s'.
Proof.
  intros Hinv. unfold set_fd_table, gets, bind. destruct (current_slot s) as [c|] eqn:Hcur; [|by exists s].
  destruct (current_thread_some s c Hinv Hcur) as [t Ht]. rewrite (set_thread_run s c t _ Ht). eexists. split; [done|].
  pose proof Hinv as (Hok & Hi & Hr & Hcb & Hle & Hcomp). split; [by apply (alter_ok s _ (set_field fd_table table) c t)|].
  split; [exact Hi|]. split; [|split; [exact Hcb|split; [exact Hle|by apply (compact_alter _ _ _ c t)]]].
  cbn. intros slot u Hu Hur. destruct (alter_cases _ _ _ _ _ _ Ht Hu) as [[-> ->]|[_ ?]]; [by apply (Hr c t)|by eapply Hr].
Qed.

Lemma resume_ptr_run {E} L s : sched_inv s -> exists r v, current_context_ptr_for_resume (E:=E) L s = (Ok r, set_field tss_rsp0 v s).
Proof.
  intros Hinv. unfold current_context_ptr_for_resume, gets, bind at 1. pose proof Hinv as (_ & -> & _). cbn [negb]. unfold bind at 1.
  destruct (current_slot s) as [c|] eqn:Hcur; [|exists None, (tss_rsp0 s); by destruct s].
  destruct (current_thread_some s c Hinv Hcur) as [t Ht]. destruct (prepare_resume_run (E:=E) L s c t Ht) as (v & Hv).
  exists (Some c), v. unfold bind. by rewrite Hv.
Qed.

Lemma run_op_inv L k op : kernel_inv k -> op_allowed (SCHEDULER k) op -> exists k', run_op L op k = Some k' /\ kernel_inv k'.
Proof.
  intros Hk Hop. pose proof (proj1 Hk) as Hinv. set (s := SCHEDULER k) in *.
  assert (Hdone : forall E A (m : S_ E A) o s', m s = (o, s') -> after (o, s') = Some s' -> sched_inv s' -> exists k', after (on_sched m k) = Some k' /\ kernel_inv k').
  { intros E A m o s' Hrun Hok Hs'. destruct (after_sched m k o s' Hk Hrun Hok Hs') as (k' & ? & ? & _). by exists k'. }
  destruct op; cbn [run_op].
  - destruct (tick_quiet (E:=unit) k Hk) as (r & k' & _ & -> & Hk' & _). by exists k'.
  - destruct (request_quiet (E:=unit) k Hk) as (k' & -> & Hk' & _). by exists k'.
  - destruct (idle_cycle_run (E:=unit) L k Hk) as (r & k' & -> & Hk' & _). by exists k'.
  - destruct (yield_run (E:=unit) L saved_rsp s Hinv) as (r & s' & Hrun & Hs' & _). by eapply Hdone.
  - destruct (exit_run (E:=unit) status s Hinv) as (r & s' & Hrun & Hs' & _). by eapply Hdone.
  - destruct (fork_run new_cr3 s Hinv Hop) as (r & s' & Hrun & Hs' & Hr). eapply Hdone; [done|by destruct r|done].
  - destruct (block_run (E:=unit) s Hinv) as (s' & Hrun & Hs' & _). by eapply Hdone.
  - destruct (resume_ptr_run (E:=unit) L s Hinv) as (r & v & Hrun). by eapply Hdone.
  - destruct (unblock_run pid tid result s Hinv) as (r & s' & Hrun & Hs' & Hr). eapply Hdone; [done|by destruct r|done].
  - destruct (create_user_run L entry stack page_table s Hinv) as (r & s' & Hrun & Hs' & Hr). eapply Hdone; [done|by destruct r|done].
  - pose proof (reap_run parent target s Hinv) as Hr. cbn in Hop. destruct (reap_slot s parent target) as [i|].
    + destruct Hr as (t & Ht & _ & Hs & Hrun). eapply Hdone; [done|done|]. apply (reap_inv s i t); try done. by apply Hop.
    + by eapply Hdone.
  - destruct (set_fds_inv table s Hinv) as (s' & Hrun & Hs'). by eapply Hdone.
  - by eapply Hdone.
  - eapply (Hdone _ _ (trigger_hps_bridge thread_id is_gpu) (Ok tt) (if hps_hook s then _ else _)); [|done|].
    + unfold trigger_hps_bridge, bind, gets. by destruct (hps_hook s).
    + by destruct (hps_hook s).
Qed.

(** ** The boot sequence *)
Lemma initialize_ok L kernel_cr3 s : fst (initialize_bootstrap_threads L kernel_cr3 s) = Ok tt.
Proof. destruct s, L. vm_compute. reflexivity. Qed.

Lemma first_tick_split L kernel_cr3 s si : initialize_bootstrap_threads L kernel_cr3 s = (Ok tt, si) ->
  first_tick L kernel_cr3 s = on_timer_tick si.
Proof. intros H. unfold first_tick, bind. rewrite H. reflexivity. Qed.

(** The boot thread is the first of the table, the idle thread the second. *)
Definition boot_named (s : Scheduler) : Prop := exists rest n, roster s = ((1, RBootstrap, 0) :: (2, RIdle, 0) :: rest, S (S n), 1, 2).

Lemma first_tick_named L kernel_cr3 s : boot_named (snd (first_tick L kernel_cr3 s)).
Proof. exists (replicate 6 (0, RNone, 0)), 0%nat. destruct s, L. vm_compute. reflexivity. Qed.

Lemma first_tick_flat L kernel_cr3 s : flat (snd (first_tick L kernel_cr3 s)).
Proof.
  destruct (first_tick_fields L kernel_cr3 s) as (_ & _ & Hp & _). unfold flat. rewrite Forall_lookup. intros i t Ht.
  pose proof (f_equal (lookup i) Hp) as Hi. rewrite list_lookup_fmap, Ht in Hi. symmetry in Hi. by apply lookup_replicate in Hi as [-> _].
Qed.

Lemma boot_step L kernel_cr3 s : exists si d s1, initialize_bootstrap_threads L kernel_cr3 s = (Ok tt, si) /\
  on_timer_tick si = ((Ok d : outcome SchedulerError _), s1) /\ sched_inv s1 /\ boot_named s1 /\ flat s1.
Proof.
  pose proof (first_tick_flat L kernel_cr3 s) as Hflat.   pose proof (first_tick_named L kernel_cr3 s) as Hnamed. pose proof (initialize_ok L kernel_cr3 s) as Hinit. pose proof (first_tick_inv L kernel_cr3 s) as Hboot.
  destruct (first_tick_fields L kernel_cr3 s) as ((d & Hd) & _).
  destruct (initialize_bootstrap_threads L kernel_cr3 s) as [ri si] eqn:Hrun. cbn [fst] in Hinit. subst ri.
  rewrite (first_tick_split L kernel_cr3 s si Hrun) in Hboot, Hd, Hnamed, Hflat.
  destruct (on_timer_tick si) as [rt s1] eqn:Htick. cbn [fst snd] in *. rewrite Hd in Htick. by exists si, d, s1.
Qed.

Lemma interrupt_run {E} k s' r : BOOTSTRAP_ACTIVE k = true -> on_timer_tick (E:=E) (SCHEDULER k) = (Ok r, s') ->
  exists k', on_timer_interrupt (E:=E) k = (Ok tt, k') /\ SCHEDULER k' = s' /\ BOOTSTRAP_ACTIVE k' = true /\
    SCHEDULER_TICKS k' = wrap_add U64 (SCHEDULER_TICKS k) 1.
Proof.
  intros Ha Hrun. unfold on_timer_interrupt. rewrite (bind_run _ _ k (BOOTSTRAP_ACTIVE k) k) by done.
  rewrite (bind_run _ _ k (SCHEDULER_READY k) k) by done. rewrite Ha. cbn [negb andb]. rewrite modify_run.
  set (k1 := upd SCHEDULER_TICKS _ k). assert (Hs1 : SCHEDULER k1 = SCHEDULER k) by done. rewrite <- Hs1 in Hrun.
  rewrite (bind_run _ _ k1 r _ (on_sched_run _ _ _ _ Hrun)). by eexists.
Qed.

Lemma interrupts_run {E} n : forall k, BOOTSTRAP_ACTIVE k = true -> sched_inv (SCHEDULER k) -> 0 <= SCHEDULER_TICKS k -> SCHEDULER_TICKS k + Z.of_nat n < U64 ->
  exists k', Nat.iter n (fun m => do! on_timer_interrupt (E:=E) in m) (ret tt) k = (Ok tt, k') /\ sched_inv (SCHEDULER k') /\ roster (SCHEDULER k') = roster (SCHEDULER k) /\
    SCHEDULER_TICKS k' = SCHEDULER_TICKS k + Z.of_nat n.
Proof.
  induction n as [|n IH]; intros k Ha Hinv Hpos Hlt; [exists k; do 3 (split; [done|]); lia|].
  destruct (tick_run (E:=E) (SCHEDULER k) Hinv) as (r & s' & Hrun & Hs' & _). pose proof (roster_run _ _ _ _ (fun x => pres_tick) Hrun) as Hro. destruct (interrupt_run k s' r Ha Hrun) as (k1 & Hint & Hs1 & Ha1 & Ht1).
  unfold wrap_add in Ht1. rewrite Z.mod_small in Ht1 by lia.
  destruct (IH k1 Ha1 ltac:(by rewrite Hs1) ltac:(lia) ltac:(lia)) as (k' & Hrun' & Hinv' & Hro' & Ht'). exists k'.
  split; [rewrite Nat.iter_succ; by rewrite (bind_run _ _ k tt k1 Hint)|]. split; [done|]. split; [by rewrite Hro', Hs1|]. lia.
Qed.

Lemma stats_run {E} s ticks : sched_inv s -> exists st, sched_stats (E:=E) ticks s = (Ok st, s).
Proof.
  intros Hinv. unfold sched_stats, current_thread, gets, bind. destruct (current_slot s) as [c|] eqn:Hc; [|by eexists].
  destruct (current_thread_some s c Hinv Hc) as [t Ht]. rewrite (get_thread_run s c t Ht). by eexists.
Qed.

(** The wait of the boot sequence: the first tick starts from the state that
    [initialize_bootstrap_threads] leaves. *)
Lemma boot_wait n k si d s1 : BOOTSTRAP_ACTIVE k = true -> SCHEDULER_TICKS k = 0 -> SCHEDULER k = si ->
  on_timer_tick si = ((Ok d : outcome SchedulerError _), s1) -> sched_inv s1 -> Z.of_nat (S n) < U64 ->
  exists k', Nat.iter (S n) (fun m => do! on_timer_interrupt (E:=SchedulerError) in m) (ret tt) k = (Ok tt, k') /\ sched_inv (SCHEDULER k') /\ roster (SCHEDULER k') = roster s1 /\
    SCHEDULER_TICKS k' = Z.of_nat (S n).
Proof.
  intros Ha Ht <- Htick Hinv Hlt. destruct (interrupt_run k s1 d Ha Htick) as (k1 & Hint & Hs1 & Ha1 & Ht1).
  unfold wrap_add in Ht1. rewrite Ht, Z.mod_small in Ht1 by lia.
  destruct (interrupts_run (E:=SchedulerError) n k1 Ha1 ltac:(by rewrite Hs1) ltac:(lia) ltac:(lia)) as (k2 & Hrun & Hinv2 & Hro2 & Ht2).
  exists k2. split; [rewrite Nat.iter_succ; by rewrite (bind_run _ _ k tt k1 Hint)|]. split; [done|]. split; [by rewrite Hro2, Hs1|]. lia.
Qed.

Lemma roster_first s rest n i : roster s = ((1, RBootstrap, 0) :: (2, RIdle, 0) :: rest, n, 1, i) -> exists t, threads s !! 0%nat = Some t /\ id t = 1.
Proof.
  unfold roster. destruct (threads s) as [|t ts]; [done|]. cbn. intros H. exists t. split; [done|]. by injection H.
Qed.

(** The processor runs the boot thread. *)
Definition seated (s : Scheduler) : Prop :=
  boot_named s /\ current_slot s = Some 0%nat /\ exists t, threads s !! 0%nat = Some t /\ state t = Running.

Lemma boot_named_slot {E} s : boot_named s -> bootstrap_slot (E:=E) s = (Ok (Some 0%nat), s).
Proof.
  intros (rest & n & Hro). destruct (roster_first _ _ _ _ Hro) as (t & Ht & Hid). injection Hro as _ Hn Hb _.
  unfold bootstrap_slot, bind, gets. rewrite Hb. apply (find_thread_first s _ t Ht); [lia|]. by rewrite Hid.
Qed.

Lemma bootstrap_run L kernel_cr3 ticks k : (3 <= ticks)%nat -> Z.of_nat ticks < U64 ->
  exists st k', bootstrap L kernel_cr3 true false ticks k = (Ok st, k') /\ kernel_inv k' /\ seated (SCHEDULER k') /\ flat (SCHEDULER k').
Proof.
  intros Hticks Hlt. unfold bootstrap. rewrite !modify_run. set (k0 := set_field SCHEDULER_TICKS 0 _).
  destruct (boot_step L kernel_cr3 (SCHEDULER k0)) as (si & d & s1 & Hinit & Htick & Hinv1 & Hnamed & Hflat).
  rewrite (bind_run _ _ k0 tt _ (on_sched_run _ _ _ _ Hinit)). cbn [negb]. rewrite modify_run. set (k1 := set_field BOOTSTRAP_ACTIVE true _).
  destruct ticks as [|n]; [lia|]. destruct (boot_wait n k1 si d s1 eq_refl eq_refl eq_refl Htick Hinv1 Hlt) as (k2 & Hrun & Hinv2 & Hro2 & Ht2).
  rewrite (bind_run _ _ k1 tt k2 Hrun). rewrite (bind_run _ _ k2 (SCHEDULER_TICKS k2) k2) by done. rewrite Ht2.
  unfold BOOTSTRAP_TARGET_TICKS. rewrite (proj2 (Z.ltb_ge _ _)) by lia. cbn [orb]. rewrite !modify_run. set (k3 := set_field SCHEDULER_READY true _).
  assert (Hnamed3 : boot_named (SCHEDULER k3)) by (unfold boot_named; change (SCHEDULER k3) with (SCHEDULER k2); by rewrite Hro2).
  destruct (restore_run (E:=SchedulerError) (SCHEDULER k3) Hinv2) as (s4 & Hres & Hinv4 & Hseat). destruct (Hseat 0%nat (boot_named_slot _ Hnamed3)) as (Hcur & Hrun4).
  rewrite (bind_run _ _ k3 tt _ (on_sched_run _ _ _ _ Hres)). set (k4 := set_field SCHEDULER s4 k3).
  destruct (stats_run (E:=SchedulerError) (SCHEDULER k4) (Z.of_nat (S n)) Hinv4) as (st & Hst). rewrite (on_sched_run _ _ _ _ Hst).
  pose proof (roster_run _ _ _ _ (fun x => pres_restore) Hres) as Hro4. eexists st, _. split; [reflexivity|]. split; [done|].
  assert (Hro : roster s4 = roster s1) by (by rewrite Hro4). split; [split; [|done]; unfold boot_named; cbn; by rewrite Hro|]. exact (view_roster s1 s4 Hro Hflat).
Qed.

(** ** From the boot thread to the idle loop *)
Lemma boot_exit s t : sched_inv s -> current_slot s = Some 0%nat -> threads s !! 0%nat = Some t -> state t = Running ->
  sched_inv (upd threads (alter (set_state Exited) 0%nat) s) /\ no_running (alter (set_state Exited) 0%nat (threads s)).
Proof.
  intros (Hok & Hi & Hr & Hcb & Hle & Hcomp) Hcur Ht Hrun.
  assert (Hno : no_running (alter (set_state Exited) 0%nat (threads s))).
  { intros slot u Hu Hru. destruct (alter_cases _ _ _ _ _ _ Ht Hu) as [[-> ->]|[Hne Hold]]; [done|]. specialize (Hr _ _ Hold Hru). congruence. }
  split; [|done]. split; [apply (alter_ok s _ (set_state Exited) 0 t); try done; by rewrite Hrun|]. split; [done|].
  split; [intros slot u Hu Hru; by apply Hno in Hu|]. split; [done|]. split; [done|]. apply (compact_alter _ _ _ 0 t); try done. by rewrite Hrun.
Qed.

(** A thread that is not running becomes the current one. *)
Lemma activate_run s n u : sched_inv s -> no_running (threads s) -> (n < thread_count s)%nat -> current_slot s = Some 0%nat -> n <> 0%nat -> threads s !! n = Some u ->
  exists s', activate_thread_slot n s = (Ok tt, s') /\ sched_inv s' /\ current_slot s' = Some n /\ threads s' = alter (set_state Running) n (threads s).
Proof.
  intros Hinv Hno Hn Hcur Hne Hu. pose proof Hinv as (Hok & Hi & Hr & Hcb & Hle & Hcomp). unfold activate_thread_slot, gets at 1 2, bind at 1 2.
  rewrite Hi, (proj2 (Nat.leb_gt _ _) Hn). cbn [negb orb]. unfold gets, bind at 1. rewrite Hcur. rewrite bool_decide_eq_false_2 by congruence.
  destruct (current_thread_some s 0 Hinv Hcur) as [t Ht]. assert (Hrt : state t <> Running) by (by apply (Hno 0%nat)).
  unfold bind at 1. unfold bind at 1. rewrite (get_thread_run s 0 t Ht), bool_decide_eq_false_2 by done. unfold ret at 1.
  destruct (remove_queued_run (E:=SchedulerError) s n u (proj1 Hok) Hu) as (s2 & Hrm & Hreq); [apply (proj2 (proj2 (proj2 Hok)))|].
  unfold bind at 1. rewrite Hrm. destruct (requeued_core _ _ _ Hreq) as [Hts2 Hrest2]. unfold bind at 1, modify at 1. unfold bind at 1.
  rewrite (set_thread_run _ n u) by (cbn; by rewrite Hts2). unfold modify. eexists. split; [done|].
  match goal with |- sched_inv ?x /\ _ => set (s3 := x) end.
  destruct (claim_ok s s2 s3 n u (set_state Running) Hok Hu Hreq) as [Hok3 Hts3]; try done.
  pose proof (rest_fields _ _ Hrest2) as (Hi2 & _ & Hn2 & _). assert (Hn3 : thread_count s3 = thread_count s) by (transitivity (thread_count s2); done).
  split; [|done]. apply (running_inv s3 (threads s) (set_state Running) n u); try done; [cbn; congruence| |by rewrite Hn3|by rewrite Hn3].
  intros Hun. apply (Hcomp _ _ Hu) in Hun. lia.
Qed.

(** The thread the boot code hands the processor to: a user thread that has not
    exited, the idle thread when there is none. *)
Definition first_thread (s : Scheduler) (t : Thread) : Prop :=
  role t = RUser \/ id t = idle_thread_id s /\ forall i u, (i < thread_count s)%nat -> threads s !! i = Some u -> role u = RUser -> state u = Exited.

Lemma start_target {E} s : sched_inv s -> seated s -> let s1 := upd threads (alter (set_state Exited) 0%nat) s in
  exists n u, (let! user := first_runnable_user_slot in match user with Some slot => ret (Some slot) | None => idle_slot end) s1 = ((Ok (Some n) : outcome E _), s1) /\
    (n < thread_count s)%nat /\ n <> 0%nat /\ threads s1 !! n = Some u /\ first_thread s u.
Proof.
  intros Hinv ((rest & m & Hro) & Hcur & t & Ht & Hrun) s1. destruct (boot_exit s t Hinv Hcur Ht Hrun) as [Hinv1 _]. fold s1 in Hinv1.
  assert (Ht1 : threads s1 !! 0%nat = Some (set_state Exited t)) by (cbn; by rewrite list_lookup_alter_eq, Ht).
  destruct (find_thread_run (E:=E) s1 (fun t => bool_decide (role t = RUser) && bool_decide (state t <> Exited)) Hinv1) as (r & Hfind & Hr).
  unfold first_runnable_user_slot, bind at 1. rewrite Hfind. destruct r as [n|].
  { destruct Hr as (Hn & u & Hu & Htest). apply andb_true_iff in Htest as [Hrole%bool_decide_eq_true Hlive%bool_decide_eq_true].
    exists n, u. do 2 (split; [done|]). split; [intros ->; rewrite Ht1 in Hu; by injection Hu as <-|]. split; [done|]. by left. }
  pose proof Hro as Hro'. unfold roster in Hro'. injection Hro' as Hids Hcount Hb Hidle.
  destruct (find_thread_run (E:=E) s1 (fun t => id t =? idle_thread_id s1) Hinv1) as (ri & Hfindi & Hri).
  unfold idle_slot, bind, gets. rewrite Hfindi. change (idle_thread_id s1) with (idle_thread_id s) in Hri. rewrite Hidle in Hri.
  assert (Hti : exists ti, threads s1 !! 1%nat = Some ti /\ id ti = 2).
  { destruct (threads s) as [|t0 [|t1 ts]] eqn:Hts; [done..|]. exists t1. cbn in Hids. unfold who in Hids. injection Hids as _ _ _ Hid1 _ _ _. split; [by unfold s1; cbn; rewrite Hts|done]. }
  destruct Hti as (ti & Hti & Hidi). destruct ri as [n|].
  - destruct Hri as (Hn & u & Hu & Hid%Z.eqb_eq). exists n, u. do 2 (split; [done|]).
    split; [intros ->; rewrite Ht1 in Hu; injection Hu as <-; destruct (roster_first _ _ _ _ Hro) as (t' & Ht' & Hid'); cbn in Hid; congruence|]. split; [done|]. right. split; [congruence|].
    intros i v Hi Hv Hrole. destruct (decide (i = 0%nat)) as [->|Hne].
    { assert (Hrole1 : role t = RBootstrap) by (destruct (threads s) as [|t0 ts]; [done|]; cbn in Hids, Ht; injection Ht as ->; by injection Hids). congruence. }
    assert (Hv1 : threads s1 !! i = Some v) by (cbn; by rewrite list_lookup_alter_ne).
    specialize (Hr i v Hi Hv1). rewrite bool_decide_eq_true_2 in Hr by done. cbn in Hr. apply bool_decide_eq_false in Hr. by apply dec_stable.
  - exfalso. specialize (Hri 1%nat ti). rewrite Hidi in Hri. specialize (Hri ltac:(cbn; lia) Hti). done.
Qed.

Lemma start_run L s : sched_inv s -> seated s -> exists n t s', initial_context_pair L s = (Ok (0%nat, n), s') /\ sched_inv s' /\ n <> 0%nat /\
  current_slot s' = Some n /\ threads s' !! n = Some t /\ state t = Running /\ first_thread s t /\ state <$> threads s' !! 0%nat = Some Exited.
Proof.
  intros Hinv Hseat. pose proof Hseat as (Hnamed & Hcur & t & Ht & Hrun). destruct (boot_exit s t Hinv Hcur Ht Hrun) as [Hinv1 Hno1].
  destruct (start_target (E:=SchedulerError) s Hinv Hseat) as (n & u & Htarget & Hn & Hne & Hu & Hfirst).
  unfold initial_context_pair. unfold bind at 1. rewrite (boot_named_slot s Hnamed). unfold bind at 1, lift at 1, ok_or. unfold bind at 1.
  rewrite (set_thread_run s 0 t _ Ht). set (s1 := upd threads (alter (set_state Exited) 0%nat) s) in *.
  assert (Hsplit : forall B (g : option nat -> S_ SchedulerError B), bind first_runnable_user_slot (fun user => bind (match user with Some slot => ret (Some slot) | None => idle_slot end) g) s1 =
    bind (bind first_runnable_user_slot (fun user => match user with Some slot => ret (Some slot) | None => idle_slot end)) g s1).
  { intros B g. unfold bind. destruct (first_runnable_user_slot s1) as [[]]; done. }
  rewrite Hsplit. unfold bind at 1. rewrite Htarget. unfold bind at 1, lift at 1.
  destruct (activate_run s1 n u Hinv1 Hno1 Hn Hcur Hne Hu) as (s2 & Hact & Hinv2 & Hcur2 & Hts2). unfold bind at 1. rewrite Hact.
  assert (Hu2 : threads s2 !! n = Some (set_state Running u)) by (by rewrite Hts2, list_lookup_alter_eq, Hu).
  destruct (prepare_resume_run (E:=SchedulerError) L s2 n _ Hu2) as (v & Hprep). unfold bind at 1. rewrite Hprep.
  pose proof Hinv2 as ([[Hlen _] _] & _ & _ & _ & _). pose proof (lookup_lt_Some _ _ _ Hu2).
  rewrite (context_pair_run _ 0 n) by (cbn; lia || done). eexists n, _, _. split; [done|]. split; [by apply (same_fields_inv s2)|]. split; [done|].
  split; [done|]. split; [done|]. split; [done|]. split; [by destruct Hfirst as [?|[? ?]]; [left|right]|].
  cbn. rewrite Hts2, list_lookup_alter_ne by done. cbn. by rewrite list_lookup_alter_eq, Ht.
Qed.

(** ** States the kernel reaches *)

(** The operations of the boot code, which runs as the boot thread until
    [idle_loop]. *)
Definition boot_op (op : SchedOp) : bool :=
  match op with
  | OTick | ORequest | OCreate _ _ _ | OSetFds _ | ORegister | OTrigger _ _ => true
  | _ => false
  end.

(** Before and after [idle_loop]. *)
Inductive Phase : Type := Booting | Started.

Inductive kernel_reach (L : Layout) : Phase -> Kernel -> Prop :=
| reach_boot kernel_cr3 ticks k st k' : (3 <= ticks)%nat -> Z.of_nat ticks < U64 ->
    bootstrap L kernel_cr3 true false ticks k = (Ok st, k') -> kernel_reach L Booting k'
| reach_booting k op k' : kernel_reach L Booting k -> boot_op op = true -> run_op L op k = Some k' -> kernel_reach L Booting k'
| reach_idle k k' : kernel_reach L Booting k -> after (idle_loop (E:=unit) L k) = Some k' -> kernel_reach L Started k'
| reach_step k op k' : kernel_reach L Started k -> op_allowed (SCHEDULER k) op -> run_op L op k = Some k' -> kernel_reach L Started k'.

Definition sched_reach (L : Layout) (s : Scheduler) : Prop := exists ph k, kernel_reach L ph k /\ SCHEDULER k = s.

Lemma seated_alike s s' : roster s' = roster s -> current_slot s' = current_slot s -> state <$> threads s' !! 0%nat = state <$> threads s !! 0%nat -> seated s -> seated s'.
Proof.
  intros Hro Hcur Hst (Hnamed & Hc & t & Ht & Hrun). split; [unfold boot_named; by rewrite Hro|]. split; [congruence|]. rewrite Ht in Hst.
  destruct (threads s' !! 0%nat) as [t'|] eqn:Ht'; [|done]. exists t'. split; [done|]. cbn in Hst. congruence.
Qed.

Lemma seated_create L e st pt s s' r : sched_inv s -> seated s -> create_user_thread L e st pt s = (r, s') -> seated s'.
Proof.
  intros Hinv Hseat Hrun. pose proof Hseat as ((rest & n & Hro) & Hcur & t0 & Ht0 & Hst). destruct (create_user_run L e st pt s Hinv) as (r' & s2 & Hrun2 & _ & Hr).
  rewrite Hrun in Hrun2. injection Hrun2 as <- <-. destruct r as [sp|err| |]; [|by destruct Hr as (_ & -> & _)|done|done].
  destruct Hr as (t & Ht & _ & _ & _ & _ & _ & _ & Hcur' & Hsame & Hn & Hb & Hi & _). unfold roster in Hro. injection Hro as Hw Hn0 Hb0 Hi0.
  split; [|split; [congruence|exists t0; rewrite Hsame by lia; done]].
  exists (drop 2 (who <$> threads s')), (S n). unfold roster. rewrite Hn, Hb, Hi, Hn0, Hb0, Hi0. do 3 f_equal.
  assert (Hlook : forall k, (k < 2)%nat -> (who <$> threads s') !! k = (who <$> threads s) !! k) by (intros k Hk; rewrite !list_lookup_fmap, Hsame by lia; done).
  pose proof (Hlook 0%nat ltac:(lia)) as H0. pose proof (Hlook 1%nat ltac:(lia)) as H1. rewrite Hw in H0, H1.
  destruct (who <$> threads s') as [|x [|y l]]; [done..|]. cbn in H0, H1. injection H0 as ->. injection H1 as ->. done.
Qed.

Lemma set_fds_seat table s : seated s -> seated (snd (set_fd_table (E:=unit) table s)).
Proof.
  intros Hseat. pose proof Hseat as (_ & Hcur & t & Ht & Hrun). apply (seated_alike s); [by apply (pres_set_fds (P:=fun s1 => roster s1 = roster s))|..]; [..|done];
    unfold set_fd_table, gets, bind; rewrite Hcur, (set_thread_run s 0 t _ Ht); [done|]. cbn. by rewrite list_lookup_alter_eq, Ht.
Qed.

Lemma boot_op_seated L k op k' : kernel_inv k -> seated (SCHEDULER k) -> boot_op op = true -> run_op L op k = Some k' -> seated (SCHEDULER k').
Proof.
  intros Hk Hseat Hop. pose proof (proj1 Hk) as Hinv. destruct op; try done; cbn [run_op].
  - destruct (tick_quiet (E:=unit) k Hk) as (r & k2 & _ & -> & _ & Hs & _). intros [= <-]. by rewrite Hs.
  - destruct (request_quiet (E:=unit) k Hk) as (k2 & -> & _ & Hs). intros [= <-]. by rewrite Hs.
  - destruct (create_user_thread L entry stack page_table (SCHEDULER k)) as [r s'] eqn:Hrun. rewrite (on_sched_run _ _ _ _ Hrun).
    pose proof (seated_create _ _ _ _ _ _ _ Hinv Hseat Hrun). destruct r; intros [= <-]; done.
  - pose proof (set_fds_seat table _ Hseat) as Hs. destruct (set_fd_table (E:=unit) table (SCHEDULER k)) as [r s'] eqn:Hrun. rewrite (on_sched_run _ _ _ _ Hrun).
    destruct r; intros [= <-]; done.
  - intros [= <-]. by apply (seated_alike (SCHEDULER k)).
  - unfold on_sched, zoom, trigger_hps_bridge, bind, gets. destruct (hps_hook (SCHEDULER k)); intros [= <-]; by apply (seated_alike (SCHEDULER k)).
Qed.

Lemma idle_loop_run {E} L k : kernel_inv k -> seated (SCHEDULER k) -> exists n t k', idle_loop (E:=E) L k = (Ok (0%nat, n), k') /\ kernel_inv k' /\
  n <> 0%nat /\ current_slot (SCHEDULER k') = Some n /\ threads (SCHEDULER k') !! n = Some t /\ state t = Running /\ first_thread (SCHEDULER k) t /\
  state <$> threads (SCHEDULER k') !! 0%nat = Some Exited /\ initial_context_pair L (SCHEDULER k) = (Ok (0%nat, n), SCHEDULER k').
Proof.
  intros (Hinv & Ha & Hr) Hseat. destruct (start_run L _ Hinv Hseat) as (n & t & s' & Hrun & Hinv' & Hrest). exists n, t, (set_field SCHEDULER s' k).
  split; [unfold idle_loop, catch; by rewrite (on_sched_run _ _ _ _ Hrun)|]. split; [done|]. cbn. tauto.
Qed.

Lemma kernel_reach_inv L ph k : kernel_reach L ph k -> kernel_inv k /\ (ph = Booting -> seated (SCHEDULER k)).
Proof.
  induction 1 as [kernel_cr3 ticks k st k' Hge Hlt Hrun|k op k' _ [IH Hseat] Hop Hrun|k k' _ [IH Hseat] Hrun|k op k' _ [IH _] Hop Hrun].
  - destruct (bootstrap_run L kernel_cr3 ticks k Hge Hlt) as (st' & k2 & Hrun' & Hinv & Hs & _). by replace k' with k2 by congruence.
  - destruct (run_op_inv L k op IH) as (k2 & Hrun' & Hinv); [by destruct op|]. replace k' with k2 by congruence. split; [done|]. intros _. apply (boot_op_seated L k op); auto.
  - destruct (idle_loop_run (E:=unit) L k IH (Hseat eq_refl)) as (n & t & k2 & Hrun' & Hinv & _). rewrite Hrun' in Hrun. injection Hrun as <-. done.
  - destruct (run_op_inv L k op IH Hop) as (k2 & Hrun' & Hinv). by replace k' with k2 by congruence.
Qed.

Lemma sched_reach_inv L s : sched_reach L s -> sched_inv s.
Proof. intros (ph & k & Hk & <-). by apply (kernel_reach_inv L ph k). Qed.

Fixpoint run_ops (L : Layout) (ops : list SchedOp) (k : Kernel) : option Kernel :=
  match ops with
  | [] => Some k
  | op :: ops' => match run_op L op k with Some k' => run_ops L ops' k' | None => None end
  end.

(** ** One priority *)
Lemma flat_sched {E A} (m : S_ E A) k k' : (forall s', m (SCHEDULER k) = (fst (m (SCHEDULER k)), s') -> flat s') -> after (on_sched m k) = Some k' -> flat (SCHEDULER k').
Proof.
  intros H. unfold on_sched, zoom. destruct (m (SCHEDULER k)) as [o s'] eqn:Hrun. specialize (H s' eq_refl). destruct o; intros [= <-]; done.
Qed.

Lemma flat_pres {E A} (m : S_ E A) k k' : preserves flat m -> flat (SCHEDULER k) -> after (on_sched m k) = Some k' -> flat (SCHEDULER k').
Proof. intros Hm Hf. apply flat_sched. intros s' Hrun. specialize (Hm _ Hf). by rewrite Hrun in Hm. Qed.

Lemma run_op_flat L k op k' : kernel_inv k -> op_allowed (SCHEDULER k) op -> flat (SCHEDULER k) -> run_op L op k = Some k' -> flat (SCHEDULER k').
Proof.
  intros Hk Hop Hf. pose proof (proj1 Hk) as Hinv. destruct op; cbn [run_op].
  - destruct (tick_quiet (E:=unit) k Hk) as (r & k2 & _ & -> & _ & Hs & _). intros [= <-]. by rewrite Hs.
  - destruct (request_quiet (E:=unit) k Hk) as (k2 & -> & _ & Hs). intros [= <-]. by rewrite Hs.
  - destruct (idle_cycle_run (E:=unit) L k Hk) as (r & k2 & -> & _ & _ & Hs). intros [= <-]. destruct (NEED_RESCHEDULE k); [|by destruct Hs as [-> _]].
    destruct Hs as (r' & s' & Hrun & -> & _). pose proof (pres_switch (E:=unit) L _ Hf) as H. by rewrite Hrun in H.
  - apply flat_pres; [apply pres_yield|done].
  - apply flat_pres; [apply pres_exit|done].
  - apply flat_sched. intros s'. destruct (fork_run new_cr3 _ Hinv Hop) as (r & s2 & -> & _ & Hr). intros [= <-]. destruct r as [child|e| |]; [|by destruct Hr as (_ & -> & _)|done|done].
    destruct Hr as (c & parent & _ & Hp & _ & Hts & _). unfold flat. rewrite Hts. apply Forall_alter; [done|]. intros x _ _. cbn. by apply (Forall_lookup_1 _ _ _ _ Hf Hp).
  - apply flat_pres; [apply pres_block|done].
  - destruct (resume_ptr_run (E:=unit) L _ Hinv) as (r & v & Hrun). rewrite (on_sched_run _ _ _ _ Hrun). by intros [= <-].
  - apply flat_pres; [apply pres_unblock|done].
  - apply flat_sched. intros s'. destruct (create_user_run L entry stack page_table _ Hinv) as (r & s2 & -> & _ & Hr). intros [= <-]. destruct r as [sp|e| |]; [|by destruct Hr as (_ & -> & _)|done|done].
    destruct Hr as (t & Ht & _ & _ & _ & _ & _ & _ & _ & Hsame & _ & _ & _ & Hb). apply Forall_lookup. intros i u Hu.
    destruct (decide (i = thread_count (SCHEDULER k))) as [->|Hne]; [congruence|]. rewrite Hsame in Hu by done. by apply (Forall_lookup_1 _ _ _ _ Hf Hu).
  - apply flat_sched. intros s'. pose proof (reap_run parent target _ Hinv) as Hr. destruct (reap_slot _ parent target) as [i|]; [|rewrite Hr; by intros [= <-]].
    destruct Hr as (t & Ht & _ & _ & ->). intros [= <-]. unfold flat. cbn. by apply Forall_alter.
  - apply flat_pres; [apply pres_set_fds|done].
  - by intros [= <-].
  - unfold on_sched, zoom, trigger_hps_bridge, bind, gets. destruct (hps_hook (SCHEDULER k)); by intros [= <-].
Qed.

Lemma kernel_reach_flat L ph k : kernel_reach L ph k -> flat (SCHEDULER k).
Proof.
  induction 1 as [kernel_cr3 ticks k st k' Hge Hlt Hrun|k op k' Hk IH Hop Hrun|k k' Hk IH Hrun|k op k' Hk IH Hop Hrun].
  - destruct (bootstrap_run L kernel_cr3 ticks k Hge Hlt) as (st' & k2 & Hrun' & _ & _ & Hf). by replace k' with k2 by congruence.
  - apply (run_op_flat L k op); [by apply (kernel_reach_inv L Booting)|by destruct op|done..].
  - destruct (kernel_reach_inv L _ k Hk) as [Hinv Hseat]. destruct (idle_loop_run (E:=unit) L k Hinv (Hseat eq_refl)) as (n & t & k2 & Hrun' & _ & _ & _ & _ & _ & _ & _ & Hpair).
    rewrite Hrun' in Hrun. injection Hrun as <-. pose proof (pres_initial L _ IH) as H. by rewrite Hpair in H.
  - apply (run_op_flat L k op); [by apply (kernel_reach_inv L Started)|done..].
Qed.

Lemma flat_priority s i t : flat s -> threads s !! i = Some t -> priority_of t = 0%nat.
Proof. intros Hf Ht. unfold priority_of. by rewrite (Forall_lookup_1 _ _ _ _ Hf Ht). Qed.

Lemma flat_queues s p : sched_inv s -> flat s -> p <> 0%nat -> queue s p = [].
Proof.
  intros (Hok & _) Hf Hp. destruct (queue s p) as [|x l] eqn:Hq; [done|]. destruct (queue_owner s p x Hok) as (t & Ht & Hpt & _); [rewrite Hq; by left|].
  by rewrite (flat_priority s x t Hf Ht) in Hpt.
Qed.

(** ** Round robin *)

(** The thread on the processor gives it up: a user thread by the yield system
    call; the idle thread, woken by a timer interrupt, by the next pass of its loop. *)
Definition turn {E} (L : Layout) (saved_rsp : Z) : M Kernel E unit :=
  let! current := gets (fun k => current_slot (SCHEDULER k)) in
  match current with
  | None => ret tt
  | Some slot =>
      let! t := on_sched (get_thread slot) in
      if bool_decide (role t = RUser) then do! on_sched (yield_current_user_thread L saved_rsp) in ret tt
      else do! on_timer_interrupt in do! run_idle_cycle L in ret tt
  end.

Definition turns {E} (L : Layout) (frames : list Z) : M Kernel E unit := foldr (fun rsp m => do! turn L rsp in m) (ret tt) frames.

(** The current thread [c] runs. *)
Definition on_cpu (s : Scheduler) (c : nat) : Prop := current_slot s = Some c /\ exists t, threads s !! c = Some t /\ state t = Running.

(** The head of the line takes over; the thread that ran goes to its end. *)
Definition rotated (s s' : Scheduler) (c : nat) : Prop :=
  exists h rest, queue s 0 ++ [c] = h :: rest /\ on_cpu s' h /\ queue s' 0 = rest.

Lemma on_cpu_preempted s c : flat s -> on_cpu s c -> preempted s 0 = queue s 0 ++ [c].
Proof. intros Hf (Hc & t & Ht & Hr). unfold preempted. rewrite Hc, Ht, decide_True; [done|]. split; [done|]. by apply (flat_priority s c). Qed.

Lemma flat_dispatched s s' c : sched_inv s -> flat s -> on_cpu s c -> dispatched s s' -> rotated s s' c.
Proof.
  intros Hinv Hf Hcpu (p & slot & rest & t & Hp & Hhead & _ & Hcur & Ht & Hrun & _ & HQ). pose proof Hcpu as (Hc & u & Hu & Hur).
  assert (p = 0%nat) as ->.
  { destruct (decide (p = 0%nat)) as [|Hne]; [done|]. revert Hhead. unfold preempted. rewrite Hc, Hu, decide_False by (intros [_ ?]; pose proof (flat_priority s c u Hf Hu); congruence).
    by rewrite flat_queues. }
  exists slot, rest. rewrite (on_cpu_preempted s c Hf Hcpu) in Hhead. split; [done|]. split; [split; [done|by exists t]|]. by rewrite HQ.
Qed.

Lemma flat_switched s s' c n : sched_inv s -> flat s -> on_cpu s c -> switched s s' n -> rotated s s' c.
Proof.
  intros Hinv Hf Hcpu (p & rest & t & Hhead & _ & Hcur & Ht & Hrun & HQ).
  assert (p = 0%nat) as -> by (destruct (decide (p = 0%nat)) as [|Hne]; [done|]; by rewrite flat_queues in Hhead).
  exists n, (rest ++ [c]). rewrite Hhead. split; [done|]. split; [split; [done|by exists t]|]. rewrite HQ. unfold set_queue. rewrite decide_True by done.
  by rewrite (on_cpu_preempted s c Hf Hcpu), Hhead.
Qed.

(** A line has at most one place for each slot. *)
Lemma line_bound s c j slot : sched_inv s -> on_cpu s c -> (queue s 0 ++ [c]) !! j = Some slot -> (j < MAX_THREADS)%nat.
Proof.
  intros Hinv (Hc & t & Ht & Hr) Hj. pose proof Hinv as (Hok & _). pose proof Hok as [[Hlen _] (_ & H2 & Hnd)].
  assert (Hin : forall x, x ∈ queue s 0 ++ [c] -> (x < MAX_THREADS)%nat).
  { intros x Hx. rewrite <- Hlen. apply elem_of_app in Hx as [Hx|Hx]; [|apply list_elem_of_singleton in Hx as ->; by eapply lookup_lt_Some].
    destruct (queue_owner s 0 x Hok Hx) as (u & Hu & _). by eapply lookup_lt_Some. }
  assert (HND : NoDup (queue s 0 ++ [c])).
  { apply NoDup_app. split; [apply Hnd|]. split; [|apply NoDup_singleton]. intros x Hx Hxc. apply list_elem_of_singleton in Hxc as ->. destruct (queue_owner s 0 c Hok Hx) as (u & Hu & _ & Hs). congruence. }
  apply lookup_lt_Some in Hj. assert (Hle : (length (queue s 0 ++ [c]) <= length (seq 0 MAX_THREADS))%nat).
  { apply submseteq_length, NoDup_submseteq; [done|]. intros x Hx. apply elem_of_seq. specialize (Hin x Hx). lia. }
  rewrite length_seq in Hle. lia.
Qed.

(** Nobody else is waiting. *)
Lemma flat_alone s c : sched_inv s -> flat s -> on_cpu s c -> no_switch s -> rotated s s c.
Proof.
  intros Hinv Hf Hcpu Hno. pose proof Hcpu as (Hc & t & Ht & Hr). destruct Hno as [Hempty|(p & x & rest & Hq & Hx)].
  - exists c, []. rewrite (Hempty 0%nat) by (unfold MAX_PRIORITIES; lia). done.
  - exfalso. rewrite Hc in Hx. injection Hx as <-. destruct (queue_owner s p c (proj1 Hinv)) as (u & Hu & _ & Hs); [rewrite Hq; by left|]. congruence.
Qed.

Lemma idle_turn_run {E} L k c : kernel_inv k -> flat (SCHEDULER k) -> on_cpu (SCHEDULER k) c ->
  exists k', (do! on_timer_interrupt (E:=E) in do! run_idle_cycle L in ret tt) k = (Ok tt, k') /\ kernel_inv k' /\ rotated (SCHEDULER k) (SCHEDULER k') c.
Proof.
  intros Hk Hf Hcpu. destruct (tick_quiet (E:=E) k Hk) as (r & k1 & Hnext & Htick & Hk1 & Hs1 & Hneed). rewrite (bind_run _ _ k tt k1 Htick).
  destruct (idle_cycle_run (E:=E) L k1 Hk1) as (r1 & k2 & Hrun & Hk2 & _ & Hs2). rewrite (bind_run _ _ k1 r1 k2 Hrun). exists k2. split; [done|]. split; [done|].
  pose proof (proj1 Hk) as Hinv. destruct (next_switch_run (E:=E) _ Hinv) as (r' & Hnext' & Hr). rewrite Hnext in Hnext'. injection Hnext' as <-. rewrite Hs1 in Hs2.
  destruct (NEED_RESCHEDULE k1).
  - destruct Hs2 as (rp & s' & Hsw & Hs' & _). rewrite Hs'. destruct (switch_run (E:=E) L _ Hinv) as (rp2 & s2 & Hsw2 & _ & Hspec).
    rewrite Hsw in Hsw2. injection Hsw2 as <- <-. destruct rp as [[[x n] d]|]; [destruct Hspec as (_ & _ & Hspec); by eapply flat_switched|].
    destruct Hspec as (-> & [Hnone|Hno]); [by destruct Hcpu; congruence|by apply flat_alone].
  - destruct Hs2 as [-> _]. symmetry in Hneed. apply orb_false_iff in Hneed as [_ Hr0%bool_decide_eq_false]. destruct r as [n|]; [by destruct Hr0; eexists|]. by apply flat_alone.
Qed.

Lemma turn_run {E} L rsp k c : kernel_inv k -> flat (SCHEDULER k) -> on_cpu (SCHEDULER k) c ->
  exists k', turn (E:=E) L rsp k = (Ok tt, k') /\ kernel_inv k' /\ flat (SCHEDULER k') /\ rotated (SCHEDULER k) (SCHEDULER k') c.
Proof.
  intros Hk Hf Hcpu. pose proof Hcpu as (Hc & t & Ht & Hr). pose proof (proj1 Hk) as Hinv. unfold turn.
  rewrite (bind_run _ _ k (Some c) k) by (unfold gets; by rewrite Hc). rewrite (bind_run _ _ k t k) by (rewrite (on_sched_run _ _ _ _ (get_thread_run _ c t Ht)); by destruct k).
  case_bool_decide as Hrole.
  - destruct (yield_run (E:=E) L rsp (SCHEDULER k) Hinv) as (r & s' & Hrun & Hinv' & Hd). rewrite (bind_run _ _ k r _ (on_sched_run _ _ _ _ Hrun)). eexists. split; [done|].
    split; [by destruct Hk as (_ & ? & ?)|]. split; [pose proof (pres_yield (E:=E) L rsp _ Hf) as H; by rewrite Hrun in H|]. cbn.
    destruct Hd as [(_ & _ & Hno)|[(_ & Hidle & _)|[Hd _]]]; [destruct (Hno c t Hc Ht); congruence| |by apply flat_dispatched].
    specialize (Hidle 0%nat ltac:(unfold MAX_PRIORITIES; lia)). rewrite (on_cpu_preempted _ c Hf Hcpu) in Hidle. by destruct (queue _ 0).
  - destruct (idle_turn_run (E:=E) L k c Hk Hf Hcpu) as (k' & Hrun & Hk' & Hro). exists k'. split; [done|]. split; [done|]. split; [|done].
    revert Hrun. destruct (tick_quiet (E:=E) k Hk) as (r & k1 & _ & Htick & Hk1 & Hs1 & _). rewrite (bind_run _ _ k tt k1 Htick).
    destruct (idle_cycle_run (E:=E) L k1 Hk1) as (r1 & k2 & Hrun & _ & _ & Hs2). rewrite (bind_run _ _ k1 r1 k2 Hrun). intros [= <-].
    destruct (NEED_RESCHEDULE k1); [|destruct Hs2 as [-> _]; by rewrite Hs1]. destruct Hs2 as (r' & s' & Hsw & -> & _). rewrite Hs1 in Hsw.
    pose proof (pres_switch (E:=E) L _ Hf) as H. by rewrite Hsw in H.
Qed.

Lemma turns_run {E} L frames : forall k c j slot, kernel_inv k -> flat (SCHEDULER k) -> on_cpu (SCHEDULER k) c -> (queue (SCHEDULER k) 0 ++ [c]) !! j = Some slot ->
  length frames = S j -> exists k', turns (E:=E) L frames k = (Ok tt, k') /\ kernel_inv k' /\ on_cpu (SCHEDULER k') slot.
Proof.
  induction frames as [|rsp frames IH]; intros k c j slot Hk Hf Hcpu Hj Hlen; [done|]. cbn [turns foldr].
  destruct (turn_run (E:=E) L rsp k c Hk Hf Hcpu) as (k1 & Hrun & Hk1 & Hf1 & h & rest & Hline & Hcpu1 & Hq1). unfold turns. cbn [foldr]. rewrite (bind_run _ _ k tt k1 Hrun).
  rewrite Hline in Hj. destruct j as [|j].
  - destruct frames; [|done]. injection Hj as <-. by exists k1.
  - apply (IH k1 h j slot); try done; [|by injection Hlen]. rewrite Hq1. apply lookup_app_l_Some. exact Hj.
Qed.

(** * Theorems *)

(** C16: from the end of [bootstrap] on, whatever order the kernel runs the
    scheduler's operations in, the scheduler's state is consistent and no operation
    panics: the bitmap is exact, a thread is runnable exactly when it is in the queue of
    its priority, once, and only the current thread is running. While the boot code
    runs, these are timer interrupts, requests to switch, new user threads, descriptor
    updates and the bridge's hook; then [idle_loop] takes the boot thread off the
    processor and always finds a thread to switch to, a live user thread or else the
    idle thread; afterwards they are also yields, exits, forks, blocking, unblocking,
    resumptions, reaps and the passes of the idle loop. Two operations are left out: a
    fork whose address space could not be cloned ([failed_forks_break_exit]) and a reap
    of a thread that is not in the last slot ([create_overwrites_live]); both break the
    invariant. *)
Theorem sched_safe (L : Layout) (ph : Phase) (k : Kernel) (Hreach : kernel_reach L ph k) :
  sched_inv (SCHEDULER k) /\
  (forall op, op_allowed (SCHEDULER k) op -> exists k', run_op L op k = Some k') /\
  (ph = Booting -> exists n t k', idle_loop (E:=unit) L k = (Ok (0%nat, n), k') /\ n <> 0%nat /\ current_slot (SCHEDULER k') = Some n /\
    threads (SCHEDULER k') !! n = Some t /\ state t = Running /\ first_thread (SCHEDULER k) t /\ state <$> threads (SCHEDULER k') !! 0%nat = Some Exited).
Proof.
  destruct (kernel_reach_inv L ph k Hreach) as [Hk Hseat]. split; [apply Hk|]. split.
  - intros op Hop. destruct (run_op_inv L k op Hk Hop) as (k' & Hrun & _). by exists k'.
  - intros Hph. destruct (idle_loop_run (E:=unit) L k Hk (Hseat Hph)) as (n & t & k' & Hrun & _ & H). exists n, t, k'. tauto.
Qed.

(** C17: the threads take turns. After [idle_loop], a timer interrupt does not
    preempt: a user thread gives the processor up by the yield system call, the idle
    thread by the pass of its loop after a timer interrupt has asked for a switch. All
    threads have one priority, and the line of those waiting, with the running thread
    at its end, is served in order: the thread at position [j] of the line runs after
    [j + 1] turns, so with at most eight threads each one runs again within eight. *)
Theorem turns_round_robin (L : Layout) (k : Kernel) (c j slot : nat) (t : Thread) (frames : list Z) (Hreach : kernel_reach L Started k)
    (Hcur : current_slot (SCHEDULER k) = Some c) (Ht : threads (SCHEDULER k) !! c = Some t) (Hrun : state t = Running)
    (Hj : (queue (SCHEDULER k) 0 ++ [c]) !! j = Some slot) (Hturns : length frames = S j) :
  (forall p, p <> 0%nat -> queue (SCHEDULER k) p = []) /\ (j < MAX_THREADS)%nat /\
  exists k' t', turns (E:=unit) L frames k = (Ok tt, k') /\ current_slot (SCHEDULER k') = Some slot /\ threads (SCHEDULER k') !! slot = Some t' /\ state t' = Running.
Proof.
  destruct (kernel_reach_inv L _ k Hreach) as [Hk _]. pose proof (kernel_reach_flat L _ k Hreach) as Hf. split; [intros p; apply flat_queues; [apply Hk|done]|].
  assert (Hcpu : on_cpu (SCHEDULER k) c) by (split; [done|by exists t]). split; [by apply (line_bound (SCHEDULER k) c j slot); [apply Hk|..]|].
  destruct (turns_run (E:=unit) L frames k c j slot Hk Hf Hcpu Hj Hturns) as (k' & Hrun' & _ & Hc' & t' & Ht' & Hr'). by exists k', t'.
Qed.

(** An exit of a live thread of a group. *)
Lemma exit_live_run {E} s status c t : sched_inv s -> current_slot s = Some c -> threads s !! c = Some t -> state t <> Exited -> thread_group_id t <> 0 ->
  exists rec s', request_exit_group (E:=E) status s = (Ok (Some rec), s') /\ sched_inv s' /\ exited_from s s' (thread_group_id t) /\
    eg_status rec = status /\ eg_thread_id rec = id t /\ eg_process_id rec = process_id t /\
    eg_thread_count rec = length (filter (fun slot => dying (thread_group_id t) (threads s) slot = true) (seq 0 (thread_count s))).
Proof.
  intros Hinv Hcur Ht Hlive Hgroup. destruct (exit_run (E:=E) status s Hinv) as (r & s' & Hrun & Hinv' & Hr).
  destruct r as [rec|].
  - destruct Hr as (c' & t' & Hc' & Ht' & Hst & Hid & Hpid & Hcount & Hex). replace t' with t in * by congruence. exists rec, s'. done.
  - exfalso. revert Hrun. unfold request_exit_group, gets, bind. pose proof Hinv as (_ & -> & _). cbn [negb]. rewrite Hcur.
    rewrite (get_thread_run s c t Ht). rewrite bool_decide_eq_false_2 by done. rewrite (proj2 (Z.eqb_neq _ _) Hgroup). cbn [orb].
    destruct (exit_loop_run (E:=E) s c t Hinv Hcur Ht Hlive) as (s1 & -> & _). repeat case_match; congruence.
Qed.

Lemma bind_inv {S E A B} (m : M S E A) (k : A -> M S E B) s b s' : bind m k s = (Ok b, s') -> exists a s1, m s = (Ok a, s1) /\ k a s1 = (Ok b, s').
Proof. unfold bind. destruct (m s) as [[a|e| |] s1]; [by exists a, s1|done..]. Qed.

(** When an exit leaves no current thread, no thread was waiting. *)
Lemma exit_idle {E} status s rec s' : request_exit_group (E:=E) status s = (Ok (Some rec), s') -> current_slot s' = None -> runqueue_bitmap s' = 0.
Proof.
  unfold request_exit_group. intros H. apply bind_inv in H as (i & s0 & [= <- <-] & H). destruct (negb (initialized s)); [done|].
  apply bind_inv in H as (c & s0 & [= <- <-] & H). destruct (current_slot s) as [slot|]; [|done]. apply bind_inv in H as (t & s0 & _ & H).
  destruct (_ || _); [done|]. apply bind_inv in H as (n & s1 & _ & H). apply bind_inv in H as (cnt & s2 & _ & H). apply bind_inv in H as (t' & s3 & _ & H).
  apply bind_inv in H as (u & s4 & _ & H). apply bind_inv in H as (bm & s5 & [= <- <-] & H). apply bind_inv in H as ([[ni nn] np] & s6 & Hnext & [= _ <-]).
  destruct (Z.eqb_spec (runqueue_bitmap s4) 0) as [Hz|Hz]; cbn [negb] in Hnext; [by injection Hnext as _ _ _ <-|].
  apply bind_inv in Hnext as (nx & s7 & _ & Hnext). apply bind_inv in Hnext as (ns & s8 & _ & Hnext). apply bind_inv in Hnext as (u2 & s9 & [= _ <-] & Hnext).
  apply bind_inv in Hnext as (u3 & s10 & Hset & Hnext). apply bind_inv in Hnext as (u4 & s11 & [= _ <-] & Hnext). apply bind_inv in Hnext as (nt & s12 & Hget & [= _ _ _ <-]).
  unfold set_thread in Hset. apply bind_inv in Hset as (x & s13 & Hg & [= _ <-]). unfold get_thread in Hg, Hget. apply bind_inv in Hg as (ts & s14 & [= _ <-] & Hat).
  apply bind_inv in Hget as (ts2 & s15 & [= _ <-] & Hat2). unfold at_ in Hat, Hat2. destruct (ts !! ns); [|done]. injection Hat as _ <-. destruct (ts2 !! ns); [|done]. injection Hat2 as _ <-. done.
Qed.

(** An exit ends the whole group of the current thread and nothing else. Every
    live thread of the group is exited and counted, every other thread is as it
    was, except that the head of the best queue now runs. *)
Theorem exit_group_spec (L : Layout) (s : Scheduler) (status : Z) (c : nat) (t : Thread) (Hreach : sched_reach L s)
    (Hcur : current_slot s = Some c) (Ht : threads s !! c = Some t) (Hlive : state t <> Exited) (Hgroup : thread_group_id t <> 0) :
  exists rec s', request_exit_group (E:=unit) status s = (Ok (Some rec), s') /\ exited_from s s' (thread_group_id t) /\
    eg_thread_id rec = id t /\
    eg_thread_count rec = length (filter (fun slot => dying (thread_group_id t) (threads s) slot = true) (seq 0 (thread_count s))).
Proof.
  destruct (exit_live_run (E:=unit) s status c t (sched_reach_inv L s Hreach) Hcur Ht Hlive Hgroup) as (rec & s' & Hrun & _ & Hex & _ & Hid & _ & Hcount). by exists rec, s'.
Qed.

(** A fork with a cloned address space succeeds exactly when a slot is free.
    The child is a copy of the parent with its own identity, runnable and queued;
    no other thread changes, and a refused fork changes nothing. *)
Theorem fork_spec (L : Layout) (s : Scheduler) (new_cr3 : Z) (c : nat) (parent : Thread) (Hreach : sched_reach L s)
    (Hcr3 : new_cr3 <> 0) (Hcur : current_slot s = Some c) (Hparent : threads s !! c = Some parent) :
  (thread_count s < MAX_THREADS)%nat /\ (exists s', fork_current_thread new_cr3 s = (Ok (next_thread_id s), s') /\
      threads s' = alter (fun _ => forked s parent new_cr3) (thread_count s) (threads s) /\
      thread_count s ∈ queue s' (priority_of parent)) \/
  thread_count s = MAX_THREADS /\ fork_current_thread new_cr3 s = (Err ThreadTableFull, s).
Proof.
  pose proof (sched_reach_inv L s Hreach) as Hinv. destruct (fork_run new_cr3 s Hinv Hcr3) as (r & s' & Hrun & Hinv' & Hr).
  destruct r as [child|e| |]; try done.
  - left. destruct Hr as (c' & p' & Hc' & Hp' & -> & Hts & _). replace p' with parent in * by congruence.
    assert (Hlt : (thread_count s < MAX_THREADS)%nat).
    { pose proof Hinv as (_ & _ & _ & _ & Hle & _). destruct (decide (thread_count s < MAX_THREADS)%nat) as [|Hge]; [done|]. exfalso.
      revert Hrun. unfold fork_current_thread. rewrite (bind_run _ _ s (initialized s) s), (bind_run _ _ s (current_slot s) s) by done.
      pose proof Hinv as (_ & -> & _). rewrite Hcur, (bind_run _ _ s _ s (find_free s Hinv)), decide_False by done. done. }
    split; [done|]. exists s'. split; [done|]. split; [done|]. destruct (free_slot s Hinv Hlt) as (t & Ht & _).
    destruct Hinv' as ((_ & H1 & _) & _). apply (H1 (thread_count s) (forked s parent new_cr3)); [|done]. by rewrite Hts, list_lookup_alter_eq, Ht.
  - right. destruct Hr as (-> & -> & [|Hn]); [congruence|]. by rewrite Hrun.
Qed.

(** ** A boot, and runs from it *)
Definition demo_layout : Layout := mkLayout 0x100000 0x200000 0x1000 0x2000.
Definition demo_kernel : Kernel := mkKernel false false 0 false (new_sched ∅ 0 []).
Definition demo_boot := bootstrap demo_layout 0x3000 true false 3 demo_kernel.
Definition demo_sched : Scheduler := SCHEDULER (snd demo_boot).

Lemma demo_booted : kernel_reach demo_layout Booting (snd demo_boot).
Proof. eapply (reach_boot demo_layout 0x3000 3 demo_kernel _ (snd demo_boot)); [lia|lia|]. vm_compute. reflexivity. Qed.

Lemma demo_reach : sched_reach demo_layout demo_sched.
Proof. unfold demo_sched. eexists Booting, _. split; [exact demo_booted|reflexivity]. Qed.

Lemma demo_fields : current_slot demo_sched = Some 0%nat /\ preempted demo_sched 0 = [1; 0]%nat.
Proof. split; vm_compute; reflexivity. Qed.

(** A first user thread, and the boot code in the idle loop. *)
Definition demo_spawned : Kernel := default demo_kernel (run_op demo_layout (OCreate 0x400000 0x7000 0x5000) (snd demo_boot)).
Definition demo_running : Kernel := snd (idle_loop (E:=unit) demo_layout demo_spawned).

Lemma demo_starts : kernel_reach demo_layout Started demo_running.
Proof.
  eapply (reach_idle demo_layout demo_spawned).
  - eapply (reach_booting demo_layout (snd demo_boot) (OCreate 0x400000 0x7000 0x5000)); [exact demo_booted|reflexivity|]. vm_compute. reflexivity.
  - vm_compute. reflexivity.
Qed.

Lemma sched_safe_witness : sched_inv (SCHEDULER demo_running) /\ exists k', run_op demo_layout (OFork 0x6000) demo_running = Some k'.
Proof. destruct (sched_safe demo_layout Started demo_running demo_starts) as (Hinv & Hop & _). split; [exact Hinv|]. apply Hop. discriminate. Defined.

(** The user thread yields to the idle thread, which hands the processor back. *)
Lemma turns_round_robin_witness : exists k', turns (E:=unit) demo_layout [0x8000; 0] demo_running = (Ok tt, k') /\ current_slot (SCHEDULER k') = Some 2%nat.
Proof.
  destruct (turns_round_robin demo_layout demo_running 2 1 2 (default empty_thread (threads (SCHEDULER demo_running) !! 2%nat)) [0x8000; 0] demo_starts)
    as (_ & _ & k' & t' & Hrun & Hcur & _); [vm_compute; reflexivity..|]. exists k'. split; [exact Hrun|exact Hcur].
Defined.

Definition demo_thread : Thread := default empty_thread (threads demo_sched !! 0%nat).

Lemma exit_group_spec_witness : exists rec s', request_exit_group (E:=unit) 7 demo_sched = (Ok (Some rec), s') /\ eg_thread_count rec = 1%nat.
Proof.
  destruct (exit_group_spec demo_layout demo_sched 7 0 demo_thread demo_reach) as (rec & s' & Hrun & _ & _ & Hcount);
    [vm_compute; reflexivity|vm_compute; reflexivity|vm_compute; discriminate|vm_compute; discriminate|].
  exists rec, s'. split; [exact Hrun|]. rewrite Hcount. vm_compute. reflexivity.
Defined.

Lemma fork_spec_witness : exists s', fork_current_thread 0x4000 demo_sched = (Ok 3, s').
Proof.
  destruct (fork_spec demo_layout demo_sched 0x4000 0 demo_thread demo_reach) as [(_ & s' & Hrun & _)|[Hfull _]];
    [discriminate|vm_compute; reflexivity|vm_compute; reflexivity| |].
  - exists s'. exact Hrun.
  - vm_compute in Hfull. discriminate.
Defined.

(** A failed fork counts a thread that does not exist: after enough of them the
    exit loop runs past the thread table. *)
Theorem failed_forks_break_exit :
  match run_ops demo_layout (replicate 6 (OFork 0)) demo_running with
  | Some k => run_op demo_layout (OExit 0) k = None
  | None => False
  end.
Proof. vm_compute. reflexivity. Qed.

(** The user thread forks twice and yields; its first child exits with status 7. *)
Definition demo_run : list SchedOp := [OFork 0x6000; OFork 0x8000; OYield 0x8000; OTick; OIdle; OExit 7].

(** The reap reports status 0, not the status of the exit. *)
Theorem exit_status_lost :
  match run_ops demo_layout demo_run demo_running with
  | Some k => fst (reap_child 3 (-1) (SCHEDULER k)) = Ok (4, 0)
  | None => False
  end.
Proof. vm_compute. reflexivity. Qed.

(** After the reap, the next new thread takes the slot of the second child, which
    is the running thread. *)
Theorem create_overwrites_live :
  match run_ops demo_layout (demo_run ++ [OReap 3 (-1)]) demo_running with
  | Some k =>
      (fun t => (id t, state t)) <$> threads (SCHEDULER k) !! 4%nat = Some (5, Running) /\
      match run_op demo_layout (OCreate 0x400000 0x7000 0x9000) k with
      | Some k' => (fun t => (id t, state t)) <$> threads (SCHEDULER k') !! 4%nat = Some (6, Runnable)
      | None => False
      end
  | None => False
  end.
Proof. vm_compute. split; reflexivity. Qed.
