(* ===== verification/Text.v ===== *)
(** * Formatted text

    What the kernel uses of [core::fmt] and of the line and white-space functions
    of [str]: a string is the list of its UTF-8 bytes. *)
From stdpp Require Import base list numbers option strings.
From Stdlib Require Import ZArith Lia Bool.
From S2P Require Import Prelude Paths.

(** ** Numbers: [{}], [{:09}], [{:x}]

    A 64-bit number has at most 20 decimal and 16 hexadecimal digits. *)
Definition digit_char (d : Z) : Z := if d <? 10 then 48 + d else 87 + d.

Fixpoint digits (fuel : nat) (base z : Z) (acc : list Z) : list Z :=
  match fuel with
  | O => acc
  | S fuel' =>
      let acc := digit_char (z mod base) :: acc in
      if z <? base then acc else digits fuel' base (z / base) acc
  end.
Definition dec (z : Z) : list Z := digits 20 10 z [].
Definition hex (z : Z) : list Z := lit "0x" ++ digits 16 16 z [].
Definition zero_pad (width : nat) (s : list Z) : list Z := replicate (width - length s) 48 ++ s.
(** [{:#018x}] and [{:#06x}] *)
Definition hex_wide (width : nat) (z : Z) : list Z := lit "0x" ++ zero_pad width (digits 16 16 z []).

(** [writeln!(text, ...)] on a text that starts empty: one line after the other. *)
Definition lines_text (ls : list (list Z)) : list Z := concat ((fun l => l ++ [NEWLINE]) <$> ls).

(** ** [str::lines]: a final empty piece is no line; a carriage return before the
    end of a line belongs to the end. *)
Definition strip_cr (l : list Z) : list Z := if bool_decide (last l = Some 13) then removelast l else l.
Definition lines (s : list Z) : list (list Z) :=
  let pieces := split NEWLINE s in
  let pieces := if bool_decide (last pieces = Some []) then removelast pieces else pieces in
  let terminated := length (filter (fun b => b = NEWLINE) s) in
  imap (fun i l => if (i <? terminated)%nat then strip_cr l else l) pieces.

(** ** [str::trim]: the characters of [char::is_whitespace], as UTF-8 *)
Definition WHITESPACE : list (list Z) :=
  [[9]; [10]; [11]; [12]; [13]; [32]; [0xC2; 0x85]; [0xC2; 0xA0]; [0xE1; 0x9A; 0x80];
   [0xE2; 0x80; 0x80]; [0xE2; 0x80; 0x81]; [0xE2; 0x80; 0x82]; [0xE2; 0x80; 0x83]; [0xE2; 0x80; 0x84]; [0xE2; 0x80; 0x85];
   [0xE2; 0x80; 0x86]; [0xE2; 0x80; 0x87]; [0xE2; 0x80; 0x88]; [0xE2; 0x80; 0x89]; [0xE2; 0x80; 0x8A];
   [0xE2; 0x80; 0xA8]; [0xE2; 0x80; 0xA9]; [0xE2; 0x80; 0xAF]; [0xE2; 0x81; 0x9F]; [0xE3; 0x80; 0x80]].

Fixpoint trim_left (fuel : nat) (ws : list (list Z)) (s : list Z) : list Z :=
  match fuel with
  | O => s
  | S fuel' =>
      match position (fun w => starts_with s w) ws with
      | Some i => trim_left fuel' ws (drop (length (default [] (ws !! i))) s)
      | None => s
      end
  end.
Definition trim_ws_start (s : list Z) : list Z := trim_left (length s) WHITESPACE s.
Definition trim_ws_end (s : list Z) : list Z := reverse (trim_left (length s) (reverse <$> WHITESPACE) (reverse s)).
Definition trim (s : list Z) : list Z := trim_ws_end (trim_ws_start s).

(** [trim_start_matches(p)] for a string [p]. *)
Fixpoint trim_prefixes (fuel : nat) (p s : list Z) : list Z :=
  match fuel with
  | O => s
  | S fuel' => if starts_with s p then trim_prefixes fuel' p (drop (length p) s) else s
  end.
Definition trim_start_matches (s p : list Z) : list Z := trim_prefixes (length s) p s.

(** [&s[..n]]: past the end or inside a character is a panic. *)
Definition is_char_boundary (s : list Z) (n : Z) : bool :=
  (n =? 0) || (n =? len s) || ((0 <? n) && (n <? len s) && negb (is_cont (byte_at s (Z.to_nat n)))).
Definition str_prefix {E} (s : list Z) (n : Z) : outcome E (list Z) :=
  if is_char_boundary s n then Ok (take (Z.to_nat n) s) else Panic.

(** ** Facts *)
Lemma lines_text_app ls1 ls2 : lines_text (ls1 ++ ls2) = lines_text ls1 ++ lines_text ls2.
Proof. unfold lines_text. by rewrite fmap_app, concat_app. Qed.

Lemma split_lines_text ls : Forall (no_char NEWLINE) ls -> split NEWLINE (lines_text ls) = ls ++ [[]].
Proof.
  induction 1 as [|l ls Hl _ IH]; [done|].
  change (lines_text (l :: ls)) with ((l ++ [NEWLINE]) ++ lines_text ls). rewrite <- app_assoc. simpl.
  by rewrite split_app_sep, IH, split_piece.
Qed.

Lemma terminators_lines_text ls : (length ls <= length (filter (fun b => b = NEWLINE) (lines_text ls)))%nat.
Proof.
  induction ls as [|l ls IH]; simpl; [lia|].
  change (lines_text (l :: ls)) with ((l ++ [NEWLINE]) ++ lines_text ls).
  rewrite !filter_app, !length_app. simpl. lia.
Qed.

(** Written lines are read back, when none holds a line end. *)
Lemma lines_lines_text ls :
  Forall (fun l => no_char NEWLINE l /\ last l <> Some 13) ls -> lines (lines_text ls) = ls.
Proof.
  intros Hls. unfold lines.
  assert (Hn : Forall (no_char NEWLINE) ls) by (eapply Forall_impl; [exact Hls|by intros ? [? _]]).
  rewrite split_lines_text by done. rewrite last_snoc, bool_decide_true by done.
  rewrite removelast_last. apply list_eq. intros i. rewrite list_lookup_imap.
  destruct (ls !! i) as [l|] eqn:Hl; [|done]. simpl. f_equal.
  pose proof (lookup_lt_Some _ _ _ Hl). pose proof (terminators_lines_text ls).
  rewrite (proj2 (Nat.ltb_lt _ _)) by lia. unfold strip_cr.
  rewrite bool_decide_false; [done|]. by apply (Forall_lookup_1 _ _ _ _ Hls Hl).
Qed.

Example dec_values : dec 0 = lit "0" /\ dec 18446744073709551615 = lit "18446744073709551615" /\ hex 48879 = lit "0xbeef".
Proof. vm_compute. auto. Qed.
Example trim_values : trim (lit "  a b ") = lit "a b" /\ trim [0xE2; 0x80; 0xA8; 97; 0xC2; 0xA0] = [97].
Proof. vm_compute. auto. Qed.
Example lines_values : lines (lit "a" ++ [13; 10] ++ lit "b" ++ [13]) = [lit "a"; lit "b" ++ [13]].
Proof. vm_compute. auto. Qed.
