(* ===== verification/Machine.v ===== *)
(** * The processor, the topology and the clock

    [kernel/src/arch/x86_64/cpuid.rs], [cpu.rs], [kernel/src/smp.rs] and
    [kernel/src/time.rs]. The instructions [cpuid], [rdmsr] and [rdtsc] are
    parameters: [cpuid] gives the four registers of a leaf and subleaf. *)
From stdpp Require Import base list numbers option strings.
From Stdlib Require Import ZArith Lia Bool.
From S2P Require Import Prelude Paths Text.

Record CpuidResult : Type := mkCpuid { eax : Z; ebx : Z; ecx : Z; edx : Z }.

Definition VENDOR_INTEL : list Z := lit "GenuineIntel".
Definition VENDOR_AMD : list Z := lit "AuthenticAMD".
Definition CPUID_LEAF_EXTENDED_TOPOLOGY : Z := 0x0b.
Definition CPUID_LEAF_EXTENDED_TOPOLOGY_V2 : Z := 0x1f.
Definition MAX_TOPOLOGY_LEVELS : nat := 4.

Inductive CpuVendor : Type := Intel | Amd | UnknownVendor.
Definition vendor_name (v : CpuVendor) : list Z :=
  match v with Intel => lit "intel" | Amd => lit "amd" | UnknownVendor => lit "unknown" end.

Record CpuIdentity : Type := mkCpuIdentity {
  ci_vendor : CpuVendor; ci_vendor_id : list Z; ci_brand : list Z; ci_max_basic_leaf : Z; ci_max_extended_leaf : Z;
  ci_hypervisor_present : bool }.

Inductive TopologyLeafKind : Type := Leaf0x0b | Leaf0x1f.
Definition leaf_name (k : TopologyLeafKind) : list Z := match k with Leaf0x0b => lit "0x0b" | Leaf0x1f => lit "0x1f" end.

Inductive TopologyLevelType : Type := LInvalid | LSmt | LCore | LUnknown (raw : Z).
Record TopologyLevel : Type := mkLevel {
  level_number : Z; level_type : TopologyLevelType; shift : Z; logical_processors : Z; tl_x2apic_id : Z }.
Definition level_empty : TopologyLevel := mkLevel 0 LInvalid 0 0 0.

Record CpuTopologyInfo : Type := mkTopologyInfo {
  leaf_kind : TopologyLeafKind; level_count : nat; levels : list TopologyLevel; ti_x2apic_id : Z; smt_shift : Z;
  core_shift : Z; threads_per_core : Z; logical_processors_per_package : Z; smt_id : Z; core_id : Z; package_id : Z }.

Record CpuInfo : Type := mkCpuInfo {
  vendor : CpuVendor; vendor_id : list Z; brand : list Z; max_basic_leaf : Z; max_extended_leaf : Z;
  hypervisor_present : bool; topology : option CpuTopologyInfo; local_apic_supported : bool; x2apic_supported : bool;
  tsc_deadline_supported : bool; invariant_tsc_supported : bool; nx_supported : bool; initial_apic_id : Z; apic_base : Z;
  apic_global_enabled : bool; x2apic_enabled : bool; bootstrap_processor : bool }.

(** [(v & (1 << n)) != 0] *)
Definition bit_set (v n : Z) : bool := negb (Z.land v (Z.shiftl 1 n) =? 0).

Section cpuid.
Variable cpuid : Z -> Z -> CpuidResult.
Variable rdmsr : Z -> Z.
Definition query (leaf : Z) : CpuidResult := cpuid leaf 0.

(** The bytes the four registers of a brand leaf hold. *)
Definition brand_bytes (r : CpuidResult) : list Z :=
  le_bytes 4 (eax r) ++ le_bytes 4 (ebx r) ++ le_bytes 4 (ecx r) ++ le_bytes 4 (edx r).

Definition read_identity : CpuIdentity :=
  let vendor_leaf := query 0 in
  let vid := le_bytes 4 (ebx vendor_leaf) ++ le_bytes 4 (edx vendor_leaf) ++ le_bytes 4 (ecx vendor_leaf) in
  let v := if str_eqb vid VENDOR_INTEL then Intel else if str_eqb vid VENDOR_AMD then Amd else UnknownVendor in
  let max_extended := eax (query 0x80000000) in
  let b := if 0x80000004 <=? max_extended
           then brand_bytes (query 0x80000002) ++ brand_bytes (query 0x80000003) ++ brand_bytes (query 0x80000004)
           else replicate 48 0 in
  mkCpuIdentity v vid b (eax vendor_leaf) max_extended (bit_set (ecx (query 1)) 31).

Definition parse_topology_level_type (raw : Z) : TopologyLevelType :=
  if raw =? 0 then LInvalid else if raw =? 1 then LSmt else if raw =? 2 then LCore else LUnknown raw.

Definition bitmask (width : Z) : Z :=
  if 32 <=? width then U32 - 1 else if width =? 0 then 0 else Z.shiftl 1 width - 1.

(** The locals of the loop over the subleaves. *)
Record Scan : Type := mkScan {
  sc_levels : list TopologyLevel; sc_count : nat; sc_x2apic : Z; sc_smt : Z; sc_core : Z; sc_threads : Z; sc_package : Z }.

Fixpoint scan_levels (leaf : Z) (subleaves : list nat) (s : Scan) : outcome unit Scan :=
  match subleaves with
  | [] => Ok s
  | subleaf :: rest =>
      let r := cpuid leaf (Z.of_nat subleaf) in
      let n := Z.land (ebx r) 0xffff in
      let raw := Z.land (Z.shiftr (ecx r) 8) 0xff in
      if (n =? 0) || (raw =? 0) then Ok s else
      let ty := parse_topology_level_type raw in
      let sh := Z.land (eax r) 0x1f in
      let? ls := set_at (sc_levels s) (Z.of_nat (sc_count s)) (mkLevel (Z.land (ecx r) 0xff) ty sh n (edx r)) in
      let '(smt, threads) := match ty with LSmt => (sh, Z.max n 1) | _ => (sc_smt s, sc_threads s) end in
      let '(core, package) := match ty with LCore => (sh, Z.max n 1) | _ => (sc_core s, sc_package s) end in
      scan_levels leaf rest (mkScan ls (S (sc_count s)) (edx r) smt core threads package)
  end.

Definition read_topology_leaf (leaf : Z) (kind : TopologyLeafKind) : outcome unit (option CpuTopologyInfo) :=
  let? s := scan_levels leaf (seq 0 MAX_TOPOLOGY_LEVELS) (mkScan (replicate MAX_TOPOLOGY_LEVELS level_empty) 0 0 0 0 1 1) in
  if (sc_count s =? 0)%nat then Ok None else
  let? '(core, package) :=
    if sc_core s =? 0 then
      let? l := idx (sc_levels s) (Z.of_nat (sc_count s) - 1) in Ok (shift l, Z.max (logical_processors l) 1)
    else Ok (sc_core s, sc_package s) in
  let core_mask := bitmask (sat_sub core (sc_smt s)) in
  let x := sc_x2apic s in
  Ok (Some (mkTopologyInfo kind (sc_count s) (sc_levels s) x (sc_smt s) core (sc_threads s) package
    (Z.land x (bitmask (sc_smt s))) (Z.land (Z.shiftr x (sc_smt s)) core_mask) (Z.shiftr x core))).

Definition read_topology (max_basic : Z) : outcome unit (option CpuTopologyInfo) :=
  if CPUID_LEAF_EXTENDED_TOPOLOGY_V2 <=? max_basic then read_topology_leaf CPUID_LEAF_EXTENDED_TOPOLOGY_V2 Leaf0x1f
  else if CPUID_LEAF_EXTENDED_TOPOLOGY <=? max_basic then read_topology_leaf CPUID_LEAF_EXTENDED_TOPOLOGY Leaf0x0b
  else Ok None.

Definition IA32_APIC_BASE_MSR : Z := 0x1b.

Definition probe : outcome unit CpuInfo :=
  let i := read_identity in
  let? t := read_topology (ci_max_basic_leaf i) in
  let leaf_1 := query 1 in
  let local_apic := bit_set (edx leaf_1) 9 in
  let invariant_tsc := if 0x80000007 <=? ci_max_extended_leaf i then bit_set (edx (query 0x80000007)) 8 else false in
  let nx := if 0x80000001 <=? ci_max_extended_leaf i then bit_set (edx (query 0x80000001)) 20 else false in
  let msr := if local_apic then rdmsr IA32_APIC_BASE_MSR else 0 in
  Ok (mkCpuInfo (ci_vendor i) (ci_vendor_id i) (ci_brand i) (ci_max_basic_leaf i) (ci_max_extended_leaf i)
    (ci_hypervisor_present i) t local_apic (bit_set (ecx leaf_1) 21) (bit_set (ecx leaf_1) 24) invariant_tsc nx
    (Z.land (Z.shiftr (ebx leaf_1) 24) 0xff) (Z.land msr 0xfffff000) (bit_set msr 11) (bit_set msr 10) (bit_set msr 8)).
End cpuid.

Definition vendor_str (c : CpuInfo) : list Z := if is_utf8 (vendor_id c) then vendor_id c else lit "unknown".

Definition brand_str (c : CpuInfo) : option (list Z) :=
  match position (fun b => negb (b =? 0)) (reverse (brand c)) with
  | None => None
  | Some i =>
      let bytes := take (length (brand c) - i) (brand c) in
      if negb (is_utf8 bytes) then None else
      let text := trim bytes in
      if str_eqb text [] then None else Some text
  end.

(** ** [smp.rs]: one entry per processor the MADT lists *)
Record MadtProcessor : Type := mkProcessor {
  mp_uid : Z; mp_apic_id : Z; mp_enabled : bool; mp_online_capable : bool; mp_x2apic : bool }.

Record CpuTopologyEntry : Type := mkCpu {
  cpu_index : nat; processor_uid : Z; apic_id : Z; enabled : bool; online_capable : bool; x2apic : bool;
  is_bsp : bool; online : bool }.
Definition apic_mode (c : CpuTopologyEntry) : list Z := if x2apic c then lit "x2apic" else lit "xapic".

Record SmpTopology : Type := mkSmp { bsp_apic_id : Z; current_cpu_index : nat; cpus : list CpuTopologyEntry }.
Record SmpSummary : Type := mkSmpSummary {
  total_cpus : Z; enabled_cpus : Z; online_cpus : Z; bringup_targets : Z; x2apic_cpus : Z; ap_count : Z;
  sum_bsp_apic_id : Z; sum_current_cpu_index : nat }.
Inductive SmpError : Type := EmptyProcessorSet | MissingBspMatch.

Definition count_cpus (P : CpuTopologyEntry -> bool) (cs : list CpuTopologyEntry) : Z := len (filter (fun c => P c = true) cs).

Definition smp_summary (t : SmpTopology) : SmpSummary :=
  mkSmpSummary (len (cpus t)) (count_cpus enabled (cpus t)) (count_cpus online (cpus t))
    (count_cpus (fun c => enabled c && negb (online c)) (cpus t)) (count_cpus x2apic (cpus t))
    (sat_sub (len (cpus t)) 1) (bsp_apic_id t) (current_cpu_index t).

Definition current_cpu {E} (t : SmpTopology) : outcome E CpuTopologyEntry := unwrap (cpus t !! current_cpu_index t).
Definition first_bringup_target (t : SmpTopology) : option CpuTopologyEntry :=
  match position (fun c => enabled c && negb (online c)) (cpus t) with Some i => cpus t !! i | None => None end.

Definition build_cpu_entry (index : nat) (p : MadtProcessor) (bsp : Z) (bootstrap : bool) : CpuTopologyEntry :=
  let b := bootstrap && (mp_apic_id p =? bsp) in
  mkCpu index (mp_uid p) (mp_apic_id p) (mp_enabled p) (mp_online_capable p) (mp_x2apic p) b b.

(** The loop over the processors: the entries, and the last one that is the BSP. *)
Fixpoint build_cpus (bsp : Z) (bootstrap : bool) (index : nat) (ps : list MadtProcessor) (current : option nat)
    (cs : list CpuTopologyEntry) : option nat * list CpuTopologyEntry :=
  match ps with
  | [] => (current, cs)
  | p :: ps' =>
      let e := build_cpu_entry index p bsp bootstrap in
      build_cpus bsp bootstrap (S index) ps' (if is_bsp e then Some index else current) (cs ++ [e])
  end.

Definition smp_initialize (info : CpuInfo) (processors : list MadtProcessor) : M (option SmpTopology) SmpError SmpSummary :=
  if bool_decide (processors = []) then throw EmptyProcessorSet else
  let bsp := initial_apic_id info in
  let '(current, cs) := build_cpus bsp (bootstrap_processor info) 0 processors None [] in
  let! index := lift (ok_or MissingBspMatch current) in
  let t := mkSmp bsp index cs in
  do! put (Some t) in
  ret (smp_summary t).

(** ** [time.rs] *)
Inductive ClockSource : Type := CpuidLeaf0x15 | CpuidLeaf0x16 | TscFallback.
Definition DEFAULT_TSC_HZ : Z := 1000000000.
Record Clock : Type := mkClock { clock_initialized : bool; start_tsc : Z; tsc_hz : Z; clock_source : ClockSource }.
Definition clock_new : Clock := mkClock false 0 DEFAULT_TSC_HZ TscFallback.

Definition detect_tsc_frequency (cpuid : Z -> Z -> CpuidResult) : option (Z * ClockSource) :=
  let max_basic := eax (cpuid 0 0) in
  let l15 := cpuid 0x15 0 in
  let hz15 := cast U64 (ecx l15 * ebx l15 / eax l15) in
  if (0x15 <=? max_basic) && (negb (eax l15 =? 0) && negb (ebx l15 =? 0) && negb (ecx l15 =? 0)) && negb (hz15 =? 0)
  then Some (hz15, CpuidLeaf0x15) else
  let l16 := cpuid 0x16 0 in
  let hz16 := sat_mul U64 (eax l16) 1000000 in
  if (0x16 <=? max_basic) && negb (eax l16 =? 0) && negb (hz16 =? 0) then Some (hz16, CpuidLeaf0x16) else None.

Definition time_initialize {E} (cpuid : Z -> Z -> CpuidResult) (tsc : Z) : M Clock E ClockSource :=
  let '(hz, source) := default (DEFAULT_TSC_HZ, TscFallback) (detect_tsc_frequency cpuid) in
  do! put (mkClock true tsc hz source) in
  ret source.

(** The seconds and nanoseconds since the clock was started, at counter value [tsc]. *)
Definition timestamp (c : Clock) (tsc : Z) : Z * Z :=
  if negb (clock_initialized c) then (0, 0) else
  let hz := Z.max (tsc_hz c) 1 in
  let elapsed := wrap_sub U64 tsc (start_tsc c) in
  (elapsed / hz, cast U32 (elapsed mod hz * 1000000000 / hz)).

Definition uptime_nanoseconds (c : Clock) (tsc : Z) : Z :=
  let '(seconds, nanoseconds) := timestamp c tsc in
  sat_add U64 (sat_mul U64 seconds 1000000000) nanoseconds.

(** * Facts *)

(** The scan of the subleaves never writes past the four levels. *)
Lemma scan_levels_ok cpuid leaf subleaves : forall s,
  length (sc_levels s) = MAX_TOPOLOGY_LEVELS -> (sc_count s + length subleaves <= MAX_TOPOLOGY_LEVELS)%nat ->
  exists s', scan_levels cpuid leaf subleaves s = Ok s' /\ length (sc_levels s') = MAX_TOPOLOGY_LEVELS /\
    (sc_count s' <= MAX_TOPOLOGY_LEVELS)%nat.
Proof.
  induction subleaves as [|x xs IH]; intros s Hl Hc; cbn [scan_levels]; [exists s; simpl in Hc; split_and!; [done..|lia]|].
  simpl in Hc. cbv zeta. case_match; [exists s; split_and!; [done..|lia]|].
  unfold set_at. destruct (blit (E:=unit) (sc_levels s) _ _) as [ls| | |] eqn:Hb.
  2-4: rewrite blit_ok in Hb by len_solve; done.
  apply blit_length in Hb. cbn [obind]. destruct (parse_topology_level_type _); apply IH; simpl; lia.
Qed.

Lemma read_topology_returns cpuid max_basic : exists t, read_topology cpuid max_basic = Ok t.
Proof.
  assert (H : forall leaf k, exists t, read_topology_leaf cpuid leaf k = Ok t); [|unfold read_topology; repeat bdestruct_if; eauto].
  intros leaf k. unfold read_topology_leaf.
  destruct (scan_levels_ok cpuid leaf (seq 0 MAX_TOPOLOGY_LEVELS)
    (mkScan (replicate MAX_TOPOLOGY_LEVELS level_empty) 0 0 0 0 1 1)) as (s & -> & Hl & Hc); [done..|]. cbn [obind].
  destruct (Nat.eqb_spec (sc_count s) 0) as [|Hn]; [eauto|]. destruct (sc_core s =? 0); cbn [obind]; [|eauto].
  destruct (idx_total (E:=unit) (sc_levels s) (Z.of_nat (sc_count s) - 1)) as (l & -> & _); [len_solve|]. cbn [obind]. eauto.
Qed.

Lemma build_cpus_spec bsp bootstrap ps : forall index current cs,
  let '(c, out) := build_cpus bsp bootstrap index ps current cs in
  out = cs ++ imap (fun i p => build_cpu_entry (index + i) p bsp bootstrap) ps /\
  (c = current \/ exists i p, ps !! i = Some p /\ c = Some (index + i)%nat /\ bootstrap = true /\ mp_apic_id p = bsp).
Proof.
  induction ps as [|p ps IH]; intros index current cs; simpl; [by rewrite app_nil_r; auto|].
  specialize (IH (S index) (if bootstrap && (mp_apic_id p =? bsp) then Some index else current)
    (cs ++ [build_cpu_entry index p bsp bootstrap])).
  destruct (build_cpus _ _ _ _ _ _) as [c out]. destruct IH as [-> Hc]. split.
  - rewrite <- app_assoc. simpl. do 2 f_equal; [by rewrite Nat.add_0_r|]. apply imap_ext. intros. simpl. by rewrite Nat.add_succ_r.
  - destruct Hc as [->|(i & q & Hi & -> & Hb & Ha)].
    + destruct (bootstrap && (mp_apic_id p =? bsp)) eqn:Hb; [|by left]. bool_prop. right. exists 0%nat, p.
      by rewrite Nat.add_0_r.
    + right. exists (S i), q. by rewrite Nat.add_succ_r.
Qed.

(** The clock does not overflow the nanosecond field. *)
Lemma timestamp_range c tsc : 0 <= snd (timestamp c tsc) < 1000000000.
Proof.
  unfold timestamp. case_match; simpl; [lia|]. set (hz := Z.max (tsc_hz c) 1).
  pose proof (Z.mod_pos_bound (wrap_sub U64 tsc (start_tsc c)) hz ltac:(lia)) as Hm.
  set (r := wrap_sub U64 tsc (start_tsc c) mod hz) in *.
  assert (0 <= r * 1000000000 / hz < 1000000000).
  { split; [apply Z.div_pos; lia|]. apply Z.div_lt_upper_bound; nia. }
  unfold cast. rewrite Z.mod_small; lia.
Qed.
