(* ===== verification/Pseudo.v ===== *)
(** * The synthetic file systems: [kernel/src/devfs.rs] and [kernel/src/procfs.rs]

    Both list a fixed set of nodes and render the text of a node when it is read.
    The state of the rest of the kernel that a text shows (console, frame buffer,
    allocators, scheduler, topology, clock) is an argument. *)
From stdpp Require Import base list numbers option strings.
From Stdlib Require Import ZArith Lia Bool.
From S2P Require Import Prelude Paths Text Machine Frame Heap Sched.

(** ** devfs *)
Definition DEVFS_DIRECTORIES : list (list Z) := [lit "/"; lit "/dev"].
Definition DEVFS_NODES : list (list Z) :=
  [lit "/dev/console"; lit "/dev/tty0"; lit "/dev/tty1"; lit "/dev/tty2"; lit "/dev/tty3"; lit "/dev/null"; lit "/dev/zero";
   lit "/dev/kmsg"; lit "/dev/fb0"].

Record TtyStats : Type := mkTtyStats {
  ts_console_id : Z; ts_output_count : Z; ts_bytes_written : Z; ts_lines_written : Z; ts_virtual_console_count : Z;
  ts_columns : Z; ts_rows : Z }.
Record FramebufferSummary : Type := mkFbSummary { fb_width : Z; fb_height : Z; fb_pitch : Z; fb_bpp : Z }.

Record DevfsState : Type := mkDevfs { boot_console_id : Z; boot_output_count : Z }.
Inductive DevfsNodeKind : Type := DevDirectory | DevDevice.
Record DevfsSummary : Type := mkDevfsSummary { dv_directory_count : Z; dv_node_count : Z; dv_entry_count : Z }.
Inductive DevfsError : Type := DevfsAlreadyInitialized.

Definition devfs_summary : DevfsSummary :=
  mkDevfsSummary (len DEVFS_DIRECTORIES) (len DEVFS_NODES) (len DEVFS_DIRECTORIES + len DEVFS_NODES).

Definition devfs_initialize (tty : TtyStats) : M (option DevfsState) DevfsError DevfsSummary :=
  let! slot := gets (fun s => s) in
  if bool_decide (is_Some slot) then throw DevfsAlreadyInitialized else
  do! put (Some (mkDevfs (ts_console_id tty) (ts_output_count tty))) in
  ret devfs_summary.

Definition devfs_is_root (path : list Z) : bool := str_eqb path (lit "/dev") || str_eqb path (lit "/dev/").
Definition devfs_node_kind (path : list Z) : option DevfsNodeKind :=
  if devfs_is_root path then Some DevDirectory
  else if existsb (fun n => str_eqb n path) DEVFS_NODES then Some DevDevice else None.

(** The frame buffer and its physical address, when there is one. *)
Record FbInfo : Type := mkFbInfo { fb_summary : option FramebufferSummary; fb_physical : option Z }.

Definition devfs_mmap (fb : FbInfo) (path : list Z) : outcome unit (option (Z * Z)) :=
  if negb (str_eqb path (lit "/dev/fb0")) then Ok None else
  match fb_summary fb, fb_physical fb with
  | Some s, Some a => let? n := mul U64 (fb_pitch s) (fb_height s) in Ok (Some (a, n))
  | _, _ => Ok None
  end.

Definition devfs_render_root : list Z := lines_text ((fun n => trim_start_matches n (lit "/dev/")) <$> DEVFS_NODES).
Definition render_console (st : DevfsState) (tty : TtyStats) (path : list Z) : list Z :=
  lines_text [lit "path " ++ path; lit "kind tty-console"; lit "console_id " ++ dec (ts_console_id tty);
    lit "outputs " ++ dec (ts_output_count tty); lit "bytes " ++ dec (ts_bytes_written tty);
    lit "lines " ++ dec (ts_lines_written tty); lit "boot_console_id " ++ dec (boot_console_id st);
    lit "boot_outputs " ++ dec (boot_output_count st)].
Definition render_null : list Z := lines_text [lit "path /dev/null"; lit "kind sink"; lit "reads eof"; lit "writes discard"].
Definition render_zero : list Z := lines_text [lit "path /dev/zero"; lit "kind source"; lit "reads zero-fill"; lit "writes discard"].
Definition render_kmsg : list Z :=
  lines_text [lit "path /dev/kmsg"; lit "kind kernel-log"; lit "writes append"; lit "reads snapshot-unavailable"].
Definition render_fb0 (fb : FbInfo) : list Z :=
  lines_text ([lit "path /dev/fb0"; lit "kind framebuffer"] ++
    match fb_summary fb with
    | Some s => [lit "width " ++ dec (fb_width s); lit "height " ++ dec (fb_height s); lit "pitch " ++ dec (fb_pitch s);
                 lit "bpp " ++ dec (fb_bpp s)]
    | None => []
    end ++ match fb_physical fb with Some a => [lit "phys_addr " ++ hex a] | None => [] end).

Definition devfs_read (s : option DevfsState) (tty : TtyStats) (fb : FbInfo) (path : list Z) : option (list Z) :=
  match s with
  | None => None
  | Some st =>
      if devfs_is_root path then Some devfs_render_root
      else if existsb (str_eqb path) [lit "/dev/console"; lit "/dev/tty0"; lit "/dev/tty1"; lit "/dev/tty2"; lit "/dev/tty3"]
      then Some (render_console st tty path)
      else if str_eqb path (lit "/dev/null") then Some render_null
      else if str_eqb path (lit "/dev/zero") then Some render_zero
      else if str_eqb path (lit "/dev/kmsg") then Some render_kmsg
      else if str_eqb path (lit "/dev/fb0") then Some (render_fb0 fb)
      else None
  end.

(** ** procfs *)
Definition PROCFS_DIRECTORIES : list (list Z) := [lit "/"; lit "/proc"].
Definition PROCFS_FILES : list (list Z) :=
  [lit "/proc/version"; lit "/proc/uptime"; lit "/proc/meminfo"; lit "/proc/cpuinfo"; lit "/proc/schedstat"; lit "/proc/topology"].

Record ProcfsState : Type := mkProcfs { boot_cpu : CpuInfo }.
Inductive ProcfsNodeKind : Type := ProcDirectory | ProcFile.
Record ProcfsSummary : Type := mkProcfsSummary { pf_directory_count : Z; pf_file_count : Z; pf_entry_count : Z }.
Inductive ProcfsError : Type := ProcfsAlreadyInitialized.

Definition procfs_summary : ProcfsSummary :=
  mkProcfsSummary (len PROCFS_DIRECTORIES) (len PROCFS_FILES) (len PROCFS_DIRECTORIES + len PROCFS_FILES).

Definition procfs_initialize (cpu : CpuInfo) : M (option ProcfsState) ProcfsError ProcfsSummary :=
  let! slot := gets (fun s => s) in
  if bool_decide (is_Some slot) then throw ProcfsAlreadyInitialized else
  do! put (Some (mkProcfs cpu)) in
  ret procfs_summary.

Definition procfs_is_root (path : list Z) : bool := str_eqb path (lit "/proc") || str_eqb path (lit "/proc/").
Definition procfs_node_kind (path : list Z) : option ProcfsNodeKind :=
  if procfs_is_root path then Some ProcDirectory
  else if existsb (fun f => str_eqb f path) PROCFS_FILES then Some ProcFile else None.

(** What the texts of procfs show. *)
Record SystemView : Type := mkView {
  v_uptime_ns : Z; v_frame : FrameAllocatorStats; v_heap : HeapStats; v_sched : SchedulerStats; v_topology : option SmpTopology }.

Definition yes_no (b : bool) : list Z := if b then lit "yes" else lit "no".
Definition append_flag (text flag : list Z) : list Z := if str_eqb text [] then flag else text ++ [32] ++ flag.
Definition append_if (b : bool) (flag text : list Z) : list Z := if b then append_flag text flag else text.
Definition cpu_flags (c : CpuInfo) : list Z :=
  append_if (hypervisor_present c) (lit "hypervisor") (append_if (nx_supported c) (lit "nx")
    (append_if (invariant_tsc_supported c) (lit "invariant_tsc") (append_if (tsc_deadline_supported c) (lit "tsc_deadline")
      (append_if (x2apic_supported c) (lit "x2apic") (append_flag [] (lit "apic")))))).

Definition TAB : list Z := [9].
Definition procfs_render_root : list Z := lines_text ((fun f => trim_start_matches f (lit "/proc/")) <$> PROCFS_FILES).
Definition render_version : list Z := lines_text [lit "HXNU 2608 x86_64"].
Definition render_uptime (uptime_ns : Z) : list Z :=
  let t := dec (uptime_ns / 1000000000) ++ lit "." ++ zero_pad 9 (dec (uptime_ns mod 1000000000)) in
  lines_text [t ++ lit " " ++ t].
Definition render_meminfo (frame : FrameAllocatorStats) (heap : HeapStats) : list Z :=
  let allocated := sat_mul U64 (fs_allocated_frames frame) 4096 in
  let free := sat_sub (fs_allocatable_bytes frame) allocated in
  lines_text [lit "MemTotal:       " ++ dec (fs_total_bytes frame / 1024) ++ lit " kB";
    lit "MemAllocatable: " ++ dec (fs_allocatable_bytes frame / 1024) ++ lit " kB";
    lit "MemFree:        " ++ dec (free / 1024) ++ lit " kB";
    lit "FrameRegions:   " ++ dec (fs_usable_regions frame);
    lit "FrameAllocated: " ++ dec (fs_allocated_frames frame);
    lit "HeapTotal:      " ++ dec (hs_size_bytes heap / 1024) ++ lit " kB";
    lit "HeapUsed:       " ++ dec (hs_used_bytes heap / 1024) ++ lit " kB";
    lit "HeapAllocs:     " ++ dec (allocation_count heap)].

Definition model_line (c : CpuInfo) : list (list Z) :=
  match brand_str c with Some b => [lit "model name" ++ TAB ++ lit ": " ++ b] | None => [] end.
Definition render_cpuinfo (st : ProcfsState) (topology : option SmpTopology) : list Z :=
  let c := boot_cpu st in
  match topology with
  | Some t =>
      concat ((fun cpu => lines_text (
        [lit "processor" ++ TAB ++ lit ": " ++ dec (Z.of_nat (cpu_index cpu)); lit "vendor_id" ++ TAB ++ lit ": " ++ vendor_str c] ++
        model_line c ++
        [lit "apicid" ++ TAB ++ TAB ++ lit ": " ++ dec (apic_id cpu); lit "cpu family" ++ TAB ++ lit ": " ++ vendor_name (vendor c);
         lit "topology" ++ TAB ++ lit ": " ++ apic_mode cpu; lit "bsp" ++ TAB ++ TAB ++ lit ": " ++ yes_no (is_bsp cpu);
         lit "online" ++ TAB ++ TAB ++ lit ": " ++ yes_no (online cpu); lit "flags" ++ TAB ++ TAB ++ lit ": " ++ cpu_flags c; []])) <$> cpus t)
  | None =>
      lines_text ([lit "processor" ++ TAB ++ lit ": 0"; lit "vendor_id" ++ TAB ++ lit ": " ++ vendor_str c] ++ model_line c ++
        [lit "apicid" ++ TAB ++ TAB ++ lit ": " ++ dec (initial_apic_id c); lit "flags" ++ TAB ++ TAB ++ lit ": " ++ cpu_flags c])
  end.

Definition render_schedstat (s : SchedulerStats) : list Z :=
  lines_text [lit "threads " ++ dec (Z.of_nat (ss_thread_count s)); lit "runqueue " ++ dec (Z.of_nat (ss_runqueue_depth s));
    lit "current_id " ++ dec (ss_thread_id s); lit "current_pid " ++ dec (ss_process_id s);
    lit "current_ppid " ++ dec (ss_parent_process_id s); lit "current_name " ++ lit (ss_thread_name s);
    lit "current_role " ++ lit (ss_thread_role s); lit "current_state " ++ lit (ss_thread_state s);
    lit "ticks " ++ dec (ss_total_ticks s); lit "switches " ++ dec (ss_context_switches s);
    lit "bootstrap_id " ++ dec (ss_bootstrap_thread_id s); lit "idle_id " ++ dec (ss_idle_thread_id s)].

Definition cpu_line (c : CpuTopologyEntry) : list Z :=
  lit "cpu" ++ dec (Z.of_nat (cpu_index c)) ++ lit " uid=" ++ dec (processor_uid c) ++ lit " apic=" ++ dec (apic_id c) ++
  lit " mode=" ++ apic_mode c ++ lit " bsp=" ++ yes_no (is_bsp c) ++ lit " online=" ++ yes_no (online c) ++
  lit " enabled=" ++ yes_no (enabled c).
Definition render_topology (st : ProcfsState) (topology : option SmpTopology) : list Z :=
  match topology with
  | Some t =>
      let s := smp_summary t in
      lines_text ([lit "bsp_apic_id " ++ dec (sum_bsp_apic_id s); lit "bsp_index " ++ dec (Z.of_nat (sum_current_cpu_index s));
        lit "cpus " ++ dec (total_cpus s); lit "enabled " ++ dec (enabled_cpus s); lit "online " ++ dec (online_cpus s);
        lit "aps " ++ dec (ap_count s); lit "bringup_targets " ++ dec (bringup_targets s); lit "x2apic " ++ dec (x2apic_cpus s)] ++
        match Machine.topology (boot_cpu st) with
        | Some i => [lit "cpuid_leaf " ++ leaf_name (leaf_kind i); lit "cpuid_package " ++ dec (package_id i);
                     lit "cpuid_core " ++ dec (core_id i); lit "cpuid_smt " ++ dec (smt_id i)]
        | None => []
        end ++ (cpu_line <$> cpus t))
  | None => lines_text [lit "bsp_apic_id " ++ dec (initial_apic_id (boot_cpu st)); lit "cpus 1"; lit "online 1"]
  end.

Definition procfs_read (s : option ProcfsState) (v : SystemView) (path : list Z) : option (list Z) :=
  match s with
  | None => None
  | Some st =>
      if procfs_is_root path then Some procfs_render_root
      else if str_eqb path (lit "/proc/version") then Some render_version
      else if str_eqb path (lit "/proc/uptime") then Some (render_uptime (v_uptime_ns v))
      else if str_eqb path (lit "/proc/meminfo") then Some (render_meminfo (v_frame v) (v_heap v))
      else if str_eqb path (lit "/proc/cpuinfo") then Some (render_cpuinfo st (v_topology v))
      else if str_eqb path (lit "/proc/schedstat") then Some (render_schedstat (v_sched v))
      else if str_eqb path (lit "/proc/topology") then Some (render_topology st (v_topology v))
      else None
  end.

(** * Facts: a node that exists can be read, and nothing else can *)
Lemma str_eqb_notin path (l : list (list Z)) : path ∉ l -> forall n, n ∈ l -> str_eqb path n = false.
Proof. intros Hp n Hn. apply str_eqb_false. by intros ->. Qed.

Lemma existsb_eqb_iff path (l : list (list Z)) : existsb (fun n => str_eqb n path) l = true <-> path ∈ l.
Proof.
  rewrite existsb_exists. setoid_rewrite str_eqb_true. setoid_rewrite list_elem_of_In. split; [by intros (? & ? & ->)|eauto].
Qed.

Ltac not_listed H := rewrite ?(str_eqb_notin _ _ H) by (rewrite !elem_of_cons; tauto).

Lemma devfs_read_iff st tty fb path : is_Some (devfs_read (Some st) tty fb path) <-> is_Some (devfs_node_kind path).
Proof.
  unfold devfs_read, devfs_node_kind. destruct (devfs_is_root path); [split; eauto|].
  destruct (existsb _ DEVFS_NODES) eqn:He.
  - split; [eauto|intros _]. apply existsb_eqb_iff in He. unfold DEVFS_NODES in He.
    repeat (apply elem_of_cons in He as [->|He]; [eexists; reflexivity|]). by apply elem_of_nil in He.
  - split; [|by intros [? ?]]. assert (Hn : path ∉ DEVFS_NODES) by (rewrite <- existsb_eqb_iff, He; done).
    unfold DEVFS_NODES in Hn. cbn [existsb]. not_listed Hn. cbn [orb]. by intros [? ?].
Qed.

Lemma procfs_read_iff st v path : is_Some (procfs_read (Some st) v path) <-> is_Some (procfs_node_kind path).
Proof.
  unfold procfs_read, procfs_node_kind. destruct (procfs_is_root path); [split; eauto|].
  destruct (existsb _ PROCFS_FILES) eqn:He.
  - split; [eauto|intros _]. apply existsb_eqb_iff in He. unfold PROCFS_FILES in He.
    repeat (apply elem_of_cons in He as [->|He]; [eexists; reflexivity|]). by apply elem_of_nil in He.
  - split; [|by intros [? ?]]. assert (Hn : path ∉ PROCFS_FILES) by (rewrite <- existsb_eqb_iff, He; done).
    unfold PROCFS_FILES in Hn. not_listed Hn. by intros [? ?].
Qed.
