(* ===== verification/Vfs.v ===== *)
(** * The virtual file system: [kernel/src/vfs.rs]

    One name space over the file systems: a path is normalised and handed to the
    file system whose prefix it has; any other path is looked up in the initrd.
    On top of it, finding an executable and summarising how it is to be loaded.
    [Mounts] is the state of the file systems and what their texts show; the
    counters of the HFS subsystem, whose code is a submodule, are a parameter. *)
From stdpp Require Import base list numbers option strings.
From Stdlib Require Import ZArith Lia Bool.
From S2P Require Import Prelude Paths Text Machine Frame Heap Sched Exec Initrd Fat Pseudo.

Definition ROOT_PATH : list Z := lit "/".
Definition DEV_ROOT_PATH : list Z := lit "/dev".
Definition PROC_ROOT_PATH : list Z := lit "/proc".
Definition INITRD_ROOT_PATH : list Z := lit "/initrd".
Definition HFS_ROOT_PATH : list Z := lit "/hfs".
Definition INIT_PATH : list Z := lit "/initrd/init".

Inductive VfsMountKind : Type := MRoot | MDevfs | MFat | MInitrd | MProcfs | MHfs.
Inductive VfsNodeKind : Type := VDirectory | VFile | VDevice.
#[export] Instance VfsMountKind_eq_dec : EqDecision VfsMountKind.
Proof. solve_decision. Defined.
#[export] Instance VfsNodeKind_eq_dec : EqDecision VfsNodeKind.
Proof. solve_decision. Defined.
Record VfsNode : Type := mkNode { n_path : list Z; n_mount : VfsMountKind; n_kind : VfsNodeKind; n_size : Z; n_executable : bool }.
Record VfsSummary : Type := mkVfsSummary { vs_mount_count : Z; vs_root_entry_count : Z; vs_directory_count : Z }.
Inductive VfsError : Type := VfsAlreadyInitialized.

Definition mount_name (k : VfsMountKind) : list Z :=
  match k with
  | MRoot => lit "rootfs" | MDevfs => lit "devfs" | MFat => lit "fat" | MInitrd => lit "initrd" | MProcfs => lit "procfs" | MHfs => lit "hfs"
  end.

(** [UnifiedNamespace::active_count], [PowerLossPrevention::shadow_count] and [is_hps_halted]. *)
Record HfsView : Type := mkHfs { active_count : Z; shadow_count : Z; is_hps_halted : bool }.

Record VfsState : Type := mkVfs { vfs_initialized : bool }.
Record Mounts : Type := mkMounts {
  vfs : option VfsState; dev : option DevfsState; proc : option ProcfsState; initrd : option InitrdState; fat : option FatState;
  tty_stats : TtyStats; fb_info : FbInfo; view : SystemView; hfs_view : HfsView }.
#[export] Instance Mounts_eta : RecordEta Mounts :=
  fun m => mkMounts (vfs m) (dev m) (proc m) (initrd m) (fat m) (tty_stats m) (fb_info m) (view m) (hfs_view m).

Definition bool_name (b : bool) : list Z := if b then lit "true" else lit "false".

(** ** Texts *)
Definition render_root (m : Mounts) : list Z :=
  lines_text ([lit "dev"] ++ (if bool_decide (is_Some (fat m)) then [lit "fat"] else []) ++ [lit "hfs"] ++
    (if bool_decide (is_Some (initrd m)) then [lit "initrd"] else []) ++ [lit "proc"]).
Definition render_hfs_root : list Z := lines_text [lit "namespace"; lit "outage"; lit "status"].
Definition read_hfs (h : HfsView) (path : list Z) : option (list Z) :=
  if str_eqb path HFS_ROOT_PATH then Some render_hfs_root else
  Some (lines_text [lit "HFS Subsystem Node: " ++ path; lit "Status: Online"; lit "Active LUT Entries: " ++ dec (active_count h);
    lit "DMA Shadowed Entries: " ++ dec (shadow_count h); lit "HPS Halted State: " ++ bool_name (is_hps_halted h)]).

Definition vfs_summary (m : Mounts) : VfsSummary :=
  if negb (from_option vfs_initialized false (vfs m)) then mkVfsSummary 0 0 0 else
  let initrd_online := bool_decide (is_Some (initrd m)) in
  let fat_online := bool_decide (is_Some (fat m)) in
  let mounts := 3 + Z.b2z initrd_online + Z.b2z fat_online in
  mkVfsSummary mounts mounts (4 + (if initrd_online then is_directory_count (initrd_summary (initrd m)) else 0) +
    (if fat_online then fs_directory_count (fat_summary (fat m)) else 0)).

Definition vfs_initialize : M Mounts VfsError VfsSummary :=
  let! slot := gets vfs in
  if bool_decide (is_Some slot) then throw VfsAlreadyInitialized else
  do! modify (set_field vfs (Some (mkVfs true))) in
  gets vfs_summary.

(** ** Looking a path up *)
Definition resolve_devfs_node (m : Mounts) (path : list Z) : option VfsNode :=
  match devfs_node_kind path with
  | None => None
  | Some k =>
      let size := from_option len 0 (devfs_read (dev m) (tty_stats m) (fb_info m) path) in
      Some (mkNode path MDevfs (match k with DevDirectory => VDirectory | DevDevice => VDevice end) size false)
  end.

Definition resolve_procfs_node (m : Mounts) (path : list Z) : option VfsNode :=
  match procfs_node_kind path with
  | None => None
  | Some k =>
      let size := from_option len 0 (procfs_read (proc m) (view m) path) in
      Some (mkNode path MProcfs (match k with ProcDirectory => VDirectory | ProcFile => VFile end) size false)
  end.

Definition resolve_fat_node (m : Mounts) (path : list Z) : option VfsNode :=
  (fun i => mkNode path MFat (match fi_kind i with FDirectory => VDirectory | FFile => VFile end) (fi_size i) false)
    <$> fat_node_info (fat m) path.

Definition resolve_initrd_node (m : Mounts) (path : list Z) : option VfsNode :=
  (fun i => mkNode path MInitrd (match ni_kind i with NDirectory => VDirectory | NFile => VFile end) (ni_size i) (ni_executable i))
    <$> initrd_node_info (initrd m) path.

Definition resolve_hfs_node (m : Mounts) (path : list Z) : option VfsNode :=
  if str_eqb path HFS_ROOT_PATH then Some (mkNode HFS_ROOT_PATH MHfs VDirectory (len render_hfs_root) false)
  else Some (mkNode path MHfs VFile (from_option len 0 (read_hfs (hfs_view m) path)) false).

(** [path == root || path.starts_with(root + "/")] *)
Definition under (path root : list Z) : bool := str_eqb path root || starts_with path (root ++ [SLASH]).

Definition initrd_fallback (path : list Z) : list Z :=
  lit "/initrd" ++ (if starts_with path [SLASH] then [] else [SLASH]) ++ path.

Definition resolve_node (m : Mounts) (path : list Z) : option VfsNode :=
  if str_eqb path ROOT_PATH then Some (mkNode ROOT_PATH MRoot VDirectory (len (render_root m)) false)
  else if under path DEV_ROOT_PATH then resolve_devfs_node m path
  else if under path FAT_PATH_ROOT then resolve_fat_node m path
  else if under path INITRD_ROOT_PATH then resolve_initrd_node m path
  else if under path PROC_ROOT_PATH then resolve_procfs_node m path
  else if under path HFS_ROOT_PATH then resolve_hfs_node m path
  else resolve_initrd_node m (initrd_fallback path).

Definition vfs_lookup (m : Mounts) (path : list Z) : option VfsNode :=
  match vfs m with
  | None => None
  | Some _ => match normalize_path path with Some normalized => resolve_node m normalized | None => None end
  end.

Definition read_node (m : Mounts) (n : VfsNode) : option (list Z) :=
  match n_mount n with
  | MRoot => Some (render_root m)
  | MDevfs => devfs_read (dev m) (tty_stats m) (fb_info m) (n_path n)
  | MFat => fat_read (fat m) (n_path n)
  | MInitrd => initrd_read (initrd m) (n_path n)
  | MProcfs => procfs_read (proc m) (view m) (n_path n)
  | MHfs => read_hfs (hfs_view m) (n_path n)
  end.

Definition vfs_read (m : Mounts) (path : list Z) : option (list Z) :=
  match vfs_lookup m path with Some n => read_node m n | None => None end.

(** [preview], cut to [max_len] bytes with an ellipsis. *)
Definition ellipsis {E} (text : list Z) (max_len : Z) : outcome E (option (list Z)) :=
  if len text <=? max_len then Ok (Some text) else
  let? cut := str_prefix text max_len in Ok (Some (cut ++ lit "...")).

Definition preview {E} (m : Mounts) (path : list Z) (max_len : Z) : outcome E (option (list Z)) :=
  match normalize_path path with
  | None => Ok None
  | Some normalized =>
      match vfs_read m normalized with
      | None => Ok None
      | Some content =>
          if str_eqb normalized ROOT_PATH then
            ellipsis (foldl (fun p entry => (if str_eqb p [] then [] else p ++ [32]) ++ trim entry) [] (lines content)) max_len
          else
            match lines content with
            | [] => Ok None
            | line :: _ => ellipsis (trim line) max_len
            end
      end
  end.

Definition mmap_device (m : Mounts) (path : list Z) : outcome unit (option (Z * Z)) :=
  match vfs_lookup m path with
  | Some n => match n_mount n with MDevfs => devfs_mmap (fb_info m) (n_path n) | _ => Ok None end
  | None => Ok None
  end.

(** ** Executables *)
Inductive ExecutableFormat : Type := FmtElf | FmtShebangScript | FmtText | FmtUnknown.
#[export] Instance ExecutableFormat_eq_dec : EqDecision ExecutableFormat.
Proof. solve_decision. Defined.
Definition executable_format_from_kind (k : ImageKind) : ExecutableFormat :=
  match k with KElf64 => FmtElf | KShebangScript => FmtShebangScript | KText => FmtText | KUnknown => FmtUnknown end.

Record ExecutableCandidate : Type := mkCandidate {
  xc_path : list Z; xc_mount : VfsMountKind; xc_format : ExecutableFormat; xc_size : Z; xc_executable : bool }.

Inductive ExecutableDiscoveryError : Type :=
| VfsUnavailable | PathNotFound | NotAFile | BackendUnavailable | ParseFailed (e : ParseError).
Definition discovery_error_str (e : ExecutableDiscoveryError) : list Z :=
  match e with
  | VfsUnavailable => lit "vfs is not initialized"
  | PathNotFound => lit "executable path was not found"
  | NotAFile => lit "executable path resolved to a non-file node"
  | BackendUnavailable => lit "backend cannot provide executable bytes"
  | ParseFailed e => parse_error_str e
  end.
Definition format_str (f : ExecutableFormat) : list Z :=
  match f with FmtElf => lit "elf" | FmtShebangScript => lit "script-shebang" | FmtText => lit "text" | FmtUnknown => lit "unknown" end.

Section block.
Context `{B : Block}.

Definition read_executable_bytes (m : Mounts) (mount : VfsMountKind) (path : list Z) : outcome unit (list Z) :=
  match mount with
  | MInitrd => ok_or tt (initrd_read_bytes (initrd m) path)
  | MFat => fat_read_file_bytes (fat m) path
  | _ => Err tt
  end.

Definition discover_executable (m : Mounts) (path : list Z) : outcome ExecutableDiscoveryError ExecutableCandidate :=
  if negb (from_option vfs_initialized false (vfs m)) then Err VfsUnavailable else
  let? n := ok_or PathNotFound (vfs_lookup m path) in
  if negb (bool_decide (n_kind n = VFile)) then Err NotAFile else
  let? bytes := omap_err (fun _ => BackendUnavailable) (read_executable_bytes m (n_mount n) (n_path n)) in
  let? kind := omap_err ParseFailed (detect_kind bytes) in
  Ok (mkCandidate (n_path n) (n_mount n) (executable_format_from_kind kind) (n_size n) (n_executable n)).
Definition discover_init_executable (m : Mounts) := discover_executable m INIT_PATH.

Record VmMapPlanEntry : Type := mkVmEntry {
  vm_index : Z; vm_file_offset : Z; vm_virtual_start : Z; vm_virtual_end : Z; vm_map_start : Z; vm_map_end : Z;
  vm_page_offset : Z; vm_file_bytes : Z; vm_memory_bytes : Z; vm_zero_fill_bytes : Z; vm_alignment : Z;
  vm_readable : bool; vm_writable : bool; vm_executable : bool }.

(** The totals the loop over the plan accumulates. *)
Record LoadTotals : Type := mkTotals {
  load_segment_count : Z; load_base : option Z; load_offset : option Z; load_file_bytes : Z; load_memory_bytes : Z;
  writable_load_segments : Z; executable_load_segments : Z; max_alignment : Z; vm_map_entries : list VmMapPlanEntry;
  vm_map_total_bytes : Z; vm_map_zero_fill_bytes : Z; vm_map_start_ : option Z; vm_map_end_ : option Z }.
Definition no_totals : LoadTotals := mkTotals 0 None None 0 0 0 0 0 [] 0 0 None None.

Record ExecutableLoadPrep : Type := mkPrep {
  xl_candidate : ExecutableCandidate; xl_image_type : option Z; xl_machine : option Z; xl_entry_point : option Z;
  xl_program_header_count : Z; xl_totals : LoadTotals; xl_interpreter : option (list Z);
  xl_interpreter_source : option (list Z); xl_interpreter_argument : option (list Z); xl_interpreter_resolved : bool }.

Inductive ExecutableLoadPrepError : Type := Discovery (e : ExecutableDiscoveryError) | PrepParse (e : ParseError).
Definition prep_error_str (e : ExecutableLoadPrepError) : list Z :=
  match e with Discovery e => discovery_error_str e | PrepParse e => parse_error_str e end.

Definition vm_entry (h : LoadSegmentPlan) : VmMapPlanEntry :=
  mkVmEntry (pl_index h) (pl_file_offset h) (pl_virtual_start h) (pl_virtual_end h) (pl_map_start h) (pl_map_end h)
    (pl_page_offset h) (pl_file_bytes h) (pl_memory_bytes h) (pl_zero_fill_bytes h) (pl_alignment h)
    (p_read (pl_permissions h)) (p_write (pl_permissions h)) (p_execute (pl_permissions h)).

Definition opt_fold (f : Z -> Z -> Z) (o : option Z) (v : Z) : option Z := Some (from_option (fun x => f x v) v o).

Definition add_segment (t : LoadTotals) (h : LoadSegmentPlan) : LoadTotals :=
  mkTotals (load_segment_count t + 1) (opt_fold Z.min (load_base t) (pl_virtual_start h))
    (opt_fold Z.min (load_offset t) (pl_file_offset h)) (sat_add U64 (load_file_bytes t) (pl_file_bytes h))
    (sat_add U64 (load_memory_bytes t) (pl_memory_bytes h)) (writable_load_segments t + Z.b2z (p_write (pl_permissions h)))
    (executable_load_segments t + Z.b2z (p_execute (pl_permissions h))) (Z.max (max_alignment t) (pl_alignment h))
    (vm_map_entries t ++ [vm_entry h]) (sat_add U64 (vm_map_total_bytes t) (sat_sub (pl_map_end h) (pl_map_start h)))
    (sat_add U64 (vm_map_zero_fill_bytes t) (pl_zero_fill_bytes h)) (opt_fold Z.min (vm_map_start_ t) (pl_map_start h))
    (opt_fold Z.max (vm_map_end_ t) (pl_map_end h)).

Definition resolve_runtime_path (m : Mounts) (path : list Z) : option (list Z) :=
  match normalize_path path with
  | None => None
  | Some normalized =>
      match vfs_lookup m normalized with
      | Some n => Some (n_path n)
      | None =>
          if str_eqb normalized ROOT_PATH || starts_with normalized INITRD_ROOT_PATH then None
          else n_path <$> vfs_lookup m (INITRD_ROOT_PATH ++ normalized)
      end
  end.

Definition prepare_executable_load (m : Mounts) (path : list Z) : outcome ExecutableLoadPrepError ExecutableLoadPrep :=
  let? c := omap_err Discovery (discover_executable m path) in
  let? bytes := omap_err (fun _ => Discovery BackendUnavailable) (read_executable_bytes m (xc_mount c) (xc_path c)) in
  let? image := omap_err PrepParse (inspect bytes) in
  match image with
  | Elf64 elf =>
      let? plan := omap_err PrepParse (build_load_plan elf) in
      let source := match interpreter elf with Some i => resolve_runtime_path m i | None => None end in
      Ok (mkPrep c (Some (image_type elf)) (Some (machine elf)) (Some (entry_point elf)) (len (program_headers elf))
        (foldl add_segment no_totals plan) (interpreter elf) source None (bool_decide (is_Some source)))
  | Shebang script =>
      let source := resolve_runtime_path m (sh_interpreter script) in
      Ok (mkPrep c None None None 0 no_totals (Some (sh_interpreter script)) source (sh_argument script)
        (bool_decide (is_Some source)))
  | Text | UnknownImage => Ok (mkPrep c None None None 0 no_totals None None None false)
  end.
Definition prepare_init_load (m : Mounts) := prepare_executable_load m INIT_PATH.
End block.

(** [format_u16_hex], [format_u64_hex]: fixed-width hexadecimal. *)
Definition hex_fixed (width : nat) (v : Z) : list Z :=
  (fun i => digit_char (Z.land (Z.shiftr v (4 * Z.of_nat i)) 0x0f)) <$> reverse (seq 0 width).
Definition format_u16_hex (v : option Z) : list Z := from_option (fun v => lit "0x" ++ hex_fixed 4 v) (lit "<none>") v.
Definition format_u64_hex (v : option Z) : list Z := from_option (fun v => lit "0x" ++ hex_fixed 16 v) (lit "<none>") v.
Definition format_rwx (r w x : bool) : list Z :=
  (if r then lit "r" else lit "-") ++ (if w then lit "w" else lit "-") ++ (if x then lit "x" else lit "-").

(** * Facts *)

(** ** Prefixes of a normalised path are its first segment *)
Lemma split_render s l : Forall plain_segment (s :: l) -> split SLASH (render (s :: l)) = [] :: s :: l.
Proof.
  intros H. unfold render. change (lit "/") with ([] ++ [SLASH]). rewrite <- app_assoc.
  change ([SLASH] ++ push_segments true (s :: l)) with (SLASH :: push_segments true (s :: l)).
  rewrite split_app_sep, split_push; [done| |done]. eapply Forall_impl; [exact H|]. by intros ? (_ & _ & _ & ?).
Qed.

Lemma render_cons s l : render (s :: l) = [SLASH] ++ s ++ push_segments false l.
Proof. reflexivity. Qed.

Lemma push_false_cons x l : push_segments false (x :: l) = [SLASH] ++ x ++ push_segments false l.
Proof. reflexivity. Qed.

Lemma under_render x segs :
  plain_segment x -> Forall plain_segment segs -> under (render segs) ([SLASH] ++ x) = bool_decide (head segs = Some x).
Proof.
  intros Hx Hs. apply eq_true_iff_eq. rewrite bool_decide_eq_true. unfold under. rewrite orb_true_iff, str_eqb_true, starts_with_iff.
  assert (Hsp : forall t, split SLASH ([SLASH] ++ x ++ t) = [] :: split SLASH (x ++ t)).
  { intros t. change ([SLASH] ++ x ++ t) with ([] ++ SLASH :: (x ++ t)). by rewrite split_app_sep. }
  destruct segs as [|s l].
  { destruct Hx as (Hne & _). simpl. split; [|done]. intros [H|[t H]]; exfalso; apply Hne; destruct x; try done. }
  split.
  - intros [He|[t He]]; apply (f_equal (split SLASH)) in He; rewrite split_render in He by done.
    + rewrite <- (app_nil_r x), Hsp, app_nil_r, split_piece in He by apply Hx. injection He as -> _. done.
    + rewrite <- app_assoc, <- app_assoc in He. rewrite Hsp in He. simpl in He. rewrite split_app_sep, split_piece in He by apply Hx.
      injection He as -> _. done.
  - cbn [head]. intros [= ->]. rewrite render_cons. destruct l as [|y l]; [left; by rewrite app_nil_r|right].
    rewrite push_false_cons. exists (y ++ push_segments false l). by rewrite !app_assoc.
Qed.

Lemma line_check ls : forallb (fun l => forallb (fun b => negb (b =? NEWLINE)) l && bool_decide (last l <> Some 13)) ls = true ->
  Forall (fun l => no_char NEWLINE l /\ last l <> Some 13) ls.
Proof.
  rewrite forallb_forall. intros H. apply list.Forall_forall. intros l Hl%list_elem_of_In%H. bool_prop. split.
  - intros Hin%list_elem_of_In. rewrite forallb_forall in H0. apply H0 in Hin. by rewrite Z.eqb_refl in Hin.
  - by apply bool_decide_eq_true in H1.
Qed.

(** ** Where a path is looked up *)
Definition mount_of (segs : list (list Z)) : VfsMountKind :=
  match segs with
  | [] => MRoot
  | s :: _ =>
      if str_eqb s (lit "dev") then MDevfs else if str_eqb s (lit "boot") then MFat else if str_eqb s (lit "initrd") then MInitrd
      else if str_eqb s (lit "proc") then MProcfs else if str_eqb s (lit "hfs") then MHfs else MInitrd
  end.

(** The segments of the node: a path no mount claims is a path of the initrd. *)
Definition real_segments (segs : list (list Z)) : list (list Z) :=
  match mount_of segs, segs with
  | MInitrd, s :: _ => if str_eqb s (lit "initrd") then segs else lit "initrd" :: segs
  | _, _ => segs
  end.

Definition resolve_in (k : VfsMountKind) (m : Mounts) (path : list Z) : option VfsNode :=
  match k with
  | MRoot => Some (mkNode ROOT_PATH MRoot VDirectory (len (render_root m)) false)
  | MDevfs => resolve_devfs_node m path
  | MFat => resolve_fat_node m path
  | MInitrd => resolve_initrd_node m path
  | MProcfs => resolve_procfs_node m path
  | MHfs => resolve_hfs_node m path
  end.

Lemma plain_lit s : bool_decide (lit s <> []) && bool_decide (lit s <> lit ".") && bool_decide (lit s <> lit "..") &&
  forallb (fun b => negb (b =? SLASH)) (lit s) = true -> plain_segment (lit s).
Proof.
  intros H. bool_prop. repeat match goal with H : bool_decide _ = true |- _ => apply bool_decide_eq_true in H end.
  repeat split; try done. intros Hin. rewrite forallb_forall in H0. apply list_elem_of_In, H0 in Hin. by rewrite Z.eqb_refl in Hin.
Qed.

Lemma under_lit segs x : Forall plain_segment segs -> plain_segment x ->
  under (render segs) (SLASH :: x) = match segs with s :: _ => str_eqb s x | [] => false end.
Proof.
  intros Hs Hx. change (SLASH :: x) with ([SLASH] ++ x). rewrite under_render by done. destruct segs as [|s l]; [done|].
  apply bool_decide_ext. simpl. split; [by intros [= ->]|by intros ->].
Qed.

Lemma render_root_iff segs : Forall plain_segment segs -> str_eqb (render segs) ROOT_PATH = bool_decide (segs = []).
Proof.
  intros Hs. apply eq_true_iff_eq. rewrite str_eqb_true, bool_decide_eq_true. split; [|by intros ->].
  destruct segs as [|s l]; [done|]. intros He. apply (f_equal (split SLASH)) in He. rewrite split_render in He by done. 
  apply Forall_cons_iff in Hs as [(Hne & _) _]. injection He as -> _. done.
Qed.

Lemma resolve_node_spec m segs : Forall plain_segment segs ->
  resolve_node m (render segs) = resolve_in (mount_of segs) m (render (real_segments segs)).
Proof.
  intros Hs. unfold resolve_node. rewrite render_root_iff by done.
  change DEV_ROOT_PATH with (SLASH :: lit "dev"). change FAT_PATH_ROOT with (SLASH :: lit "boot").
  change INITRD_ROOT_PATH with (SLASH :: lit "initrd"). change PROC_ROOT_PATH with (SLASH :: lit "proc").
  change HFS_ROOT_PATH with (SLASH :: lit "hfs"). rewrite !under_lit by (done || by apply plain_lit).
  destruct segs as [|s l]; [done|]. rewrite bool_decide_false by done. unfold real_segments. cbn [mount_of].
  destruct (str_eqb s (lit "dev")); [done|]. destruct (str_eqb s (lit "boot")); [done|].
  destruct (str_eqb s (lit "initrd")) eqn:Hi; [done|].
  destruct (str_eqb s (lit "proc")); [done|]. destruct (str_eqb s (lit "hfs")); [done|].
  cbn [resolve_in]. f_equal.
Qed.

Lemma real_segments_plain segs : Forall plain_segment segs -> Forall plain_segment (real_segments segs).
Proof.
  intros H. unfold real_segments. destruct (mount_of segs), segs; try done. destruct (str_eqb l (lit "initrd")); [done|].
  constructor; [by apply plain_lit|done].
Qed.

Lemma mount_of_real segs : mount_of (real_segments segs) = mount_of segs /\ real_segments (real_segments segs) = real_segments segs.
Proof.
  unfold real_segments. destruct segs as [|s l]; [done|]. destruct (mount_of (s :: l)) eqn:Hm; rewrite ?Hm; try done.
  destruct (str_eqb s (lit "initrd")) eqn:Hi; [by rewrite Hm, Hi|done].
Qed.

Lemma resolve_in_path k m path n : resolve_in k m path = Some n ->
  n_mount n = k /\ (k = MRoot -> n_path n = ROOT_PATH) /\ (k <> MRoot -> n_path n = path).
Proof.
  destruct k; simpl; unfold resolve_devfs_node, resolve_fat_node, resolve_initrd_node, resolve_procfs_node, resolve_hfs_node.
  - intros [= <-]. done.
  - case_match; [|done]. intros [= <-]. done.
  - intros (i & _ & ->)%fmap_Some_1. done.
  - intros (i & _ & ->)%fmap_Some_1. done.
  - case_match; [|done]. intros [= <-]. done.
  - case_match; intros [= <-]; [|done]. rewrite str_eqb_true in H. subst. done.
Qed.

Lemma vfs_lookup_segments m p n : vfs_lookup m p = Some n ->
  exists segs, normalize_path p = Some (render segs) /\ Forall plain_segment segs /\ is_Some (vfs m) /\
    n_mount n = mount_of segs /\ n_path n = render (real_segments segs) /\
    resolve_in (mount_of segs) m (render (real_segments segs)) = Some n.
Proof.
  unfold vfs_lookup. destruct (vfs m); [|done]. destruct (normalize_path p) as [q|] eqn:Hq; [|done].
  destruct (normalize_segments p q Hq) as (segs & _ & Hs & ->). rewrite resolve_node_spec by done. intros Hr.
  destruct (resolve_in_path _ _ _ _ Hr) as (Hm & Hroot & Hpath). exists segs. split_and!; try done.
  destruct (decide (mount_of segs = MRoot)) as [He|]; [|auto]. rewrite (Hroot He). destruct segs as [|s l]; [done|].
  exfalso. revert He. simpl. repeat case_match; done.
Qed.

Lemma vfs_lookup_stable m p n : vfs_lookup m p = Some n -> vfs_lookup m (n_path n) = Some n.
Proof.
  intros H. destruct (vfs_lookup_segments m p n H) as (segs & _ & Hs & [v Hv] & _ & Hp & Hr).
  unfold vfs_lookup. rewrite Hv, Hp, normalize_render, resolve_node_spec by auto using real_segments_plain.
  destruct (mount_of_real segs) as [-> ->]. done.
Qed.

Lemma vfs_read_node m p n : vfs_lookup m p = Some n -> vfs_read m p = read_node m n.
Proof. intros H. unfold vfs_read. by rewrite H. Qed.

(** ** What each file system returns for its nodes *)
Lemma fat_read_node s path i : path <> lit "/boot/" -> fat_node_info s path = Some i ->
  fat_read s path = if str_eqb path FAT_PATH_ROOT then Some (render_root_entries (from_option root_list [] s)) else None.
Proof.
  intros Hne. unfold fat_node_info, fat_read. destruct s as [st|]; [|done]. unfold normalize_fat_path.
  rewrite (proj2 (str_eqb_false _ _) Hne), orb_false_r. destruct (str_eqb path FAT_PATH_ROOT) eqn:Hr; [done|].
  destruct (starts_with path (lit "/boot/")) eqn:Hst; [|done]. cbn [negb]. destruct (strip_prefix _ _) as [name|]; [|done].
  destruct (str_eqb name [] || existsb _ name) eqn:He; [done|]. bool_prop.
  destruct (str_eqb (FAT_PATH_ROOT ++ [SLASH] ++ name) FAT_PATH_ROOT) eqn:Hx; [|done]. intros _.
  rewrite str_eqb_true in Hx. rewrite <- (app_nil_r FAT_PATH_ROOT) in Hx at 2. apply app_inv_head in Hx. done.
Qed.

Lemma fat_root_size s i : fat_node_info s FAT_PATH_ROOT = Some i -> fi_size i = len (render_root_entries (from_option root_list [] s)).
Proof. unfold fat_node_info. destruct s as [st|]; [|done]. simpl. by intros [= <-]. Qed.

Lemma initrd_read_node s path i : initrd_node_info s path = Some i ->
  exists c, initrd_read s path = Some c /\
    (ni_kind i = NFile -> exists data, initrd_read_bytes s path = Some data /\ c = from_utf8_lossy data /\ ni_size i = len data).
Proof.
  unfold initrd_node_info, initrd_read, initrd_read_bytes, entry_of. destruct s as [st|]; [|done].
  destruct (normalize_vfs_path path) as [q| | |]; try done. destruct (find_entry st q) as [e|]; [|done]. intros [= <-].
  destruct (ie_kind e) eqn:Hk; eexists; (split; [reflexivity|]); simpl; [done|]. intros _. by exists (ie_data e).
Qed.

Lemma render_not_slash segs : Forall plain_segment segs -> render segs <> lit "/boot/".
Proof.
  intros Hs He. destruct segs as [|s l]; [done|]. apply (f_equal (split SLASH)) in He. rewrite split_render in He by done.
  change (split SLASH (lit "/boot/")) with [[]; lit "boot"; []] in He. injection He as -> ->.
  apply Forall_cons_iff in Hs as [_ Hs]. apply Forall_cons_iff in Hs as [(Hne & _) _]. done.
Qed.

(** What reading the node [n] at its path gives. *)
Definition readable (m : Mounts) (n : VfsNode) (r : option (list Z)) : Prop :=
  match n_mount n with
  | MFat => if str_eqb (n_path n) FAT_PATH_ROOT then exists c, r = Some c /\ n_size n = len c else r = None
  | MInitrd => exists c, r = Some c /\ (n_kind n = VFile -> exists data,
      initrd_read_bytes (initrd m) (n_path n) = Some data /\ c = from_utf8_lossy data /\ n_size n = len data)
  | _ => exists c, r = Some c /\ n_size n = len c
  end.

Lemma resolve_in_readable k m segs n : is_Some (dev m) -> is_Some (proc m) -> Forall plain_segment segs ->
  resolve_in k m (render segs) = Some n -> readable m n (read_node m n).
Proof.
  intros [d Hd] [pr Hp] Hs. unfold readable, read_node. destruct k; simpl.
  - intros [= <-]. simpl. eauto.
  - unfold resolve_devfs_node. destruct (devfs_node_kind _) eqn:Hk; [|done]. intros [= <-]. simpl. rewrite Hd.
    destruct (proj2 (devfs_read_iff d (tty_stats m) (fb_info m) (render segs))) as [c ->]; eauto.
  - intros (i & Hi & ->)%fmap_Some_1. simpl. rewrite (fat_read_node _ _ i) by (done || by apply render_not_slash).
    destruct (str_eqb (render segs) FAT_PATH_ROOT) eqn:Hr; [|done]. eexists. split; [reflexivity|]. rewrite str_eqb_true in Hr.
    rewrite Hr in Hi. by apply fat_root_size.
  - intros (i & Hi & ->)%fmap_Some_1. simpl. destruct (initrd_read_node _ _ i Hi) as (c & -> & Hc). exists c. split; [done|].
    intros Hk. apply Hc. by destruct (ni_kind i).
  - unfold resolve_procfs_node. destruct (procfs_node_kind _) eqn:Hk; [|done]. intros [= <-]. simpl. rewrite Hp.
    destruct (proj2 (procfs_read_iff pr (view m) (render segs))) as [c ->]; eauto.
  - unfold resolve_hfs_node, read_hfs. destruct (str_eqb (render segs) HFS_ROOT_PATH) eqn:Hh; intros [= <-]; simpl;
      rewrite ?Hh; eauto.
Qed.

(** ** The totals of a load plan *)
Definition bound_of (le : Z -> Z -> Prop) (f : LoadSegmentPlan -> Z) (plan : list LoadSegmentPlan) (o : option Z) : Prop :=
  match o with
  | None => plan = []
  | Some v => (exists h, h ∈ plan /\ v = f h) /\ forall h, h ∈ plan -> le v (f h)
  end.

Lemma bound_of_snoc (le : Z -> Z -> Prop) g f plan o h :
  (forall x y, g x y = x \/ g x y = y) -> (forall x y, le (g x y) x /\ le (g x y) y) -> (forall x, le x x) ->
  (forall x y z, le x y -> le y z -> le x z) ->
  bound_of le f plan o -> bound_of le f (plan ++ [h]) (opt_fold g o (f h)).
Proof.
  intros Hsel Hle Hrefl Htr. destruct o as [v|]; simpl.
  - intros [(w & Hw & ->) Hall]. split.
    + destruct (Hsel (f w) (f h)) as [->| ->]; [exists w|exists h]; rewrite elem_of_app, list_elem_of_singleton; auto.
    + intros x [Hx| ->%list_elem_of_singleton]%elem_of_app; [|apply Hle]. eapply (Htr _ (f w)); [apply Hle|by apply Hall].
  - intros ->. simpl. split; [exists h; by rewrite list_elem_of_singleton|]. intros x ->%list_elem_of_singleton. apply Hrefl.
Qed.

(** The sum of [f] over the plan, at most the largest 64-bit number. *)
Definition sat_total (f : LoadSegmentPlan -> Z) (plan : list LoadSegmentPlan) : Z := Z.min (zsum f plan) (U64 - 1).

Definition totals_of (plan : list LoadSegmentPlan) (t : LoadTotals) : Prop :=
  load_segment_count t = len plan /\ vm_map_entries t = vm_entry <$> plan /\
  load_file_bytes t = sat_total pl_file_bytes plan /\ load_memory_bytes t = sat_total pl_memory_bytes plan /\
  vm_map_total_bytes t = sat_total (fun h => pl_map_end h - pl_map_start h) plan /\
  vm_map_zero_fill_bytes t = sat_total pl_zero_fill_bytes plan /\
  writable_load_segments t = zsum (fun h => Z.b2z (p_write (pl_permissions h))) plan /\
  executable_load_segments t = zsum (fun h => Z.b2z (p_execute (pl_permissions h))) plan /\
  bound_of Z.le pl_virtual_start plan (load_base t) /\ bound_of Z.le pl_map_start plan (vm_map_start_ t) /\
  bound_of Z.ge pl_map_end plan (vm_map_end_ t).

Definition sizes_ok (h : LoadSegmentPlan) : Prop :=
  0 <= pl_file_bytes h /\ 0 <= pl_memory_bytes h /\ 0 <= pl_zero_fill_bytes h /\ pl_map_start h <= pl_map_end h.

Lemma zsum_snoc {A} (f : A -> Z) l x : zsum f (l ++ [x]) = zsum f l + f x.
Proof. rewrite zsum_app, zsum_cons. unfold zsum at 2. simpl. lia. Qed.

Lemma sat_total_snoc f plan h : 0 <= zsum f plan -> 0 <= f h -> sat_add U64 (sat_total f plan) (f h) = sat_total f (plan ++ [h]).
Proof. intros. unfold sat_total, sat_add. rewrite zsum_snoc. lia. Qed.

Lemma zsum_nonneg {A} (f : A -> Z) l : Forall (fun x => 0 <= f x) l -> 0 <= zsum f l.
Proof. induction 1; [done|]. rewrite zsum_cons. lia. Qed.

Lemma totals_run plan : Forall sizes_ok plan -> totals_of plan (foldl add_segment no_totals plan).
Proof.
  induction plan as [|h plan IH] using rev_ind; intros Hs; [repeat split; done|].
  apply Forall_app in Hs as [Hs Hh]. apply Forall_cons_iff in Hh as [Hh _]. specialize (IH Hs). rewrite foldl_app. simpl.
  set (t := foldl add_segment no_totals plan) in *. destruct IH as (Hc & He & Hf & Hm & Ht & Hz & Hw & Hx & Hb & Hlo & Hhi).
  destruct Hh as (H1 & H2 & H3 & H4). unfold totals_of, add_segment. simpl.
  assert (Hsum : forall f, (forall h, sizes_ok h -> 0 <= f h) -> 0 <= zsum f plan)
    by (intros f Hf'; apply zsum_nonneg; eapply Forall_impl; [exact Hs|auto]).
  rewrite Hc, He, Hf, Hm, Ht, Hz, Hw, Hx. unfold sat_sub. rewrite Z.max_l by lia.
  rewrite !(sat_total_snoc _ plan h); try lia; try (apply Hsum; by intros ? (? & ? & ? & ?); lia).
  rewrite (sat_total_snoc (fun h => pl_map_end h - pl_map_start h)); try lia; try (apply Hsum; by intros ? (? & ? & ? & ?); lia).
  rewrite len_app, fmap_app, !zsum_snoc.
  apply (bound_of_snoc _ Z.min _ _ _ h) in Hb, Hlo; [|lia..]. apply (bound_of_snoc _ Z.max _ _ _ h) in Hhi; [|lia..].
  repeat (split; [done|]). done.
Qed.

Lemma plan_sizes image hs ps index : Forall (header_valid image) hs ->
  Forall2 (fun x p => plan_ok x.1 x.2 p) (loadable index hs) ps -> Forall sizes_ok ps.
Proof.
  intros Hv HF. apply Forall_forall. intros p [i Hi]%list_elem_of_lookup.
  destruct (Forall2_lookup_r _ _ _ _ _ HF Hi) as ([k h] & Hk & Hp).
  assert (Hh : h ∈ hs).
  { apply list_elem_of_lookup_2 in Hk. clear -Hk. revert index Hk. induction hs as [|x l IH]; intros index; simpl; [by intros ?%elem_of_nil|].
    destruct (is_loadable x); simpl; rewrite ?elem_of_cons; [intros [[= -> ->]|?]|intros ?]; eauto. }
  rewrite list.Forall_forall in Hv. destruct (Hv h Hh) as (Hs & _ & Hva & _ & _).
  destruct Hp as (_ & _ & Hvs & Hve & _ & _ & Hms & Hme & _ & Hf & Hz & Hm & _). simpl in *. unfold sizes_ok. lia.
Qed.

(** * Theorems *)

(** C18: the name space is coherent. A node found at a path is found again at its
    own path, which is canonical: the path that was asked for, below [/initrd] when
    no mount claims it; its mount is the one of the first segment; and reading the
    path gives the text whose length the node reports (for an initrd file, the
    UTF-8 form of exactly the bytes it reports), except for files of a FAT volume,
    which cannot be read as text. *)
Theorem vfs_lookup_coherent (m : Mounts) (p : list Z) (n : VfsNode) (Hdev : is_Some (dev m)) (Hproc : is_Some (proc m))
    (Hfound : vfs_lookup m p = Some n) :
  vfs_lookup m (n_path n) = Some n /\ vfs_read m (n_path n) = vfs_read m p /\ readable m n (vfs_read m p) /\
  exists segs, normalize_path p = Some (render segs) /\ n_mount n = mount_of segs /\ n_path n = render (real_segments segs).
Proof.
  pose proof (vfs_lookup_stable m p n Hfound) as Hst.
  destruct (vfs_lookup_segments m p n Hfound) as (segs & Hn & Hs & _ & Hm & Hp & Hr).
  rewrite (vfs_read_node m p n), (vfs_read_node m (n_path n) n) by done. split_and!; [done..| |by exists segs].
  eapply resolve_in_readable; [done..| |exact Hr]. by apply real_segments_plain.
Qed.

(** What is promised of a summary, from the bytes of the file: for an ELF image
    one entry per load segment and their totals, for a script its interpreter. *)
Definition prep_ok (m : Mounts) (bytes : list Z) (r : ExecutableLoadPrep) : Prop :=
  match inspect bytes with
  | Ok (Elf64 elf) => exists plan,
      Forall2 (fun x p => plan_ok x.1 x.2 p) (loadable 0 (program_headers elf)) plan /\ totals_of plan (xl_totals r) /\
      xl_entry_point r = Some (entry_point elf) /\ xl_program_header_count r = len (program_headers elf) /\
      xl_interpreter r = interpreter elf /\
      (xl_interpreter_resolved r = true <-> exists i s, interpreter elf = Some i /\ resolve_runtime_path m i = Some s /\ xl_interpreter_source r = Some s)
  | Ok (Shebang s) => xl_interpreter r = Some (sh_interpreter s) /\ xl_interpreter_argument r = sh_argument s /\
      xl_interpreter_source r = resolve_runtime_path m (sh_interpreter s) /\ xl_totals r = no_totals
  | Ok _ => xl_interpreter r = None /\ xl_totals r = no_totals
  | _ => False
  end.

Lemma inspect_returns image : image_ok image -> returns (inspect image) /\
  forall elf, inspect image = Ok (Elf64 elf) -> elf_sound image elf.
Proof.
  intros Hi. unfold inspect. destruct (starts_with image ELF_MAGIC).
  - pose proof (parse_elf64_run image Hi) as Hp. destruct (parse_elf64 image) as [e| | |]; cbn [obind]; try done.
    split; [done|]. by intros elf [= ->].
  - destruct (parse_shebang_run image Hi) as ([s|] & ->); cbn [obind]; [done|]. by destruct (looks_like_text image).
Qed.

(** Preparing an executable resolves its path, reads the file and summarises
    its image: the candidate is the node that was found, and the summary has the
    page-aligned map entry of every load segment, the exact totals (capped at the
    largest number) and the range of addresses all segments together occupy. Each
    error has its cause: no name space, no such path, not a file, unreadable, not a
    valid image, or a segment at the very end of the address space. *)
Theorem prepare_load_spec `{B : Block} (m : Mounts) (path : list Z)
    (Hread : forall n, vfs_lookup m path = Some n ->
       match read_executable_bytes m (n_mount n) (n_path n) with Ok b => image_ok b | Err _ => True | _ => False end) :
  match prepare_executable_load m path with
  | Ok r => exists n bytes, vfs_lookup m path = Some n /\ n_kind n = VFile /\
      read_executable_bytes m (n_mount n) (n_path n) = Ok bytes /\ xc_path (xl_candidate r) = n_path n /\
      xc_mount (xl_candidate r) = n_mount n /\ xc_size (xl_candidate r) = n_size n /\ prep_ok m bytes r
  | Err (Discovery VfsUnavailable) => from_option vfs_initialized false (vfs m) = false
  | Err (Discovery PathNotFound) => vfs_lookup m path = None
  | Err (Discovery NotAFile) => exists n, vfs_lookup m path = Some n /\ n_kind n <> VFile
  | Err (Discovery BackendUnavailable) => exists n, vfs_lookup m path = Some n /\ read_executable_bytes m (n_mount n) (n_path n) = Err tt
  | Err (Discovery (ParseFailed e)) => exists n bytes, vfs_lookup m path = Some n /\
      read_executable_bytes m (n_mount n) (n_path n) = Ok bytes /\ inspect bytes = Err e
  | Err (PrepParse e) => e = SegmentAddressOverflow /\ exists n bytes elf, vfs_lookup m path = Some n /\
      read_executable_bytes m (n_mount n) (n_path n) = Ok bytes /\ inspect bytes = Ok (Elf64 elf) /\
      Exists (fun h => is_loadable h = true /\ past_the_end h) (program_headers elf)
  | Panic | Diverge => False
  end.
Proof.
  unfold prepare_executable_load, discover_executable.
  destruct (from_option vfs_initialized false (vfs m)); cbn [negb obind omap_err]; [|done].
  destruct (vfs_lookup m path) as [n|] eqn:Hl; cbn [ok_or obind omap_err]; [|done]. specialize (Hread n eq_refl).
  destruct (bool_decide (n_kind n = VFile)) eqn:Hk; cbn [negb obind omap_err];
    [apply bool_decide_eq_true in Hk|apply bool_decide_eq_false in Hk; eauto].
  destruct (read_executable_bytes m (n_mount n) (n_path n)) as [bytes|[]| |] eqn:Hb; cbn [omap_err obind]; [|eauto|done|done].
  destruct (inspect_returns bytes Hread) as [Hret Helf]. unfold detect_kind.
  destruct (inspect bytes) as [i|e| |] eqn:Hi; cbn [omap_err obind]; [|eauto 6|done|done]. cbn [xc_mount xc_path].
  rewrite Hb. cbn [omap_err obind]. rewrite Hi. cbn [omap_err obind].
  destruct i as [elf|s| |]; cbn [obind].
  - specialize (Helf elf eq_refl). destruct Helf as (_ & _ & _ & _ & _ & _ & Hv).
    pose proof (plan_headers_run bytes (program_headers elf) 0 [] Hv) as Hp. unfold build_load_plan.
    destruct (plan_headers 0 (program_headers elf) []) as [ps|[]| |]; cbn [omap_err obind]; try done.
    + destruct Hp as (new & -> & Hall). exists n, bytes. cbn [xl_candidate xc_path xc_mount xc_size app]. split_and!; try done.
      unfold prep_ok. rewrite Hi. exists new. cbn [xl_totals xl_entry_point xl_program_header_count xl_interpreter xl_interpreter_resolved xl_interpreter_source].
      split_and!; try done; [eapply totals_run, plan_sizes; eauto|]. rewrite bool_decide_eq_true.
      destruct (interpreter elf) as [i|]; [|split; [by intros [? ?]|naive_solver]].
      split; [intros [s Hs]; by exists i, s|]. intros (i' & s & [= <-] & -> & _). eauto.
    + split; [done|]. exists n, bytes, elf. done.
  - exists n, bytes. cbn [xl_candidate xc_path xc_mount xc_size]. split_and!; try done. unfold prep_ok. by rewrite Hi.
  - exists n, bytes. cbn [xl_candidate xc_path xc_mount xc_size]. split_and!; try done. unfold prep_ok. by rewrite Hi.
  - exists n, bytes. cbn [xl_candidate xc_path xc_mount xc_size]. split_and!; try done. unfold prep_ok. by rewrite Hi.
Qed.

(** ** A machine with an initrd *)
Definition demo_cpu : CpuInfo :=
  mkCpuInfo UnknownVendor (lit "HXNUHXNUHXNU") (replicate 48 0) 0 0 false None true false false false false 0 0 true false true.
Definition demo_view : SystemView :=
  mkView 0 (mkFrameStats 0 0 0 0) (mkHeapStats 0 0 0 0) (mkSchedStats 0 0 0 0 0 "" "" "" 0 0 0 0) None.
Definition demo_mounts (archive : InitrdState) : Mounts :=
  mkMounts (Some (mkVfs true)) (Some (mkDevfs 0 1)) (Some (mkProcfs demo_cpu)) (Some archive) None
    (mkTtyStats 0 1 0 0 4 80 25) (mkFbInfo None None) demo_view (mkHfs 0 0 false).

Lemma vfs_lookup_coherent_witness :
  let m := demo_mounts demo_initrd in
  let n := mkNode (lit "/initrd/d/f") MInitrd VFile 5 true in
  vfs_lookup m (lit "/d/./f") = Some n /\ vfs_read m (lit "/d/./f") = Some (lit "data!") /\
  vfs_lookup m (n_path n) = Some n /\ vfs_read m (n_path n) = vfs_read m (lit "/d/./f") /\ readable m n (vfs_read m (lit "/d/./f")) /\
  exists segs, normalize_path (lit "/d/./f") = Some (render segs) /\ n_mount n = mount_of segs /\ n_path n = render (real_segments segs).
Proof.
  cbv zeta. split; [vm_compute; reflexivity|]. split; [vm_compute; reflexivity|].
  apply (vfs_lookup_coherent (demo_mounts demo_initrd) (lit "/d/./f")); [by eexists|by eexists|vm_compute; reflexivity].
Defined.

Definition exec_initrd : InitrdState :=
  mkInitrd None None 1 [] 0 (foldl add_member root_entries [mkMember (lit "init") 33261 small_elf]).

Lemma prepare_load_spec_witness :
  exists r, prepare_executable_load (B := stub_block) (demo_mounts exec_initrd) INIT_PATH = Ok r /\
    load_segment_count (xl_totals r) = 1 /\
    exists n bytes, vfs_lookup (demo_mounts exec_initrd) INIT_PATH = Some n /\ n_kind n = VFile /\
      read_executable_bytes (B := stub_block) (demo_mounts exec_initrd) (n_mount n) (n_path n) = Ok bytes /\
      xc_path (xl_candidate r) = n_path n /\ xc_mount (xl_candidate r) = n_mount n /\ xc_size (xl_candidate r) = n_size n /\
      prep_ok (demo_mounts exec_initrd) bytes r.
Proof.
  assert (Hread : forall n, vfs_lookup (demo_mounts exec_initrd) INIT_PATH = Some n ->
    match read_executable_bytes (B := stub_block) (demo_mounts exec_initrd) (n_mount n) (n_path n) with
    | Ok b => image_ok b | Err _ => True | _ => False end).
  { intros n Hn. assert (He : vfs_lookup (demo_mounts exec_initrd) INIT_PATH =
      Some (mkNode INIT_PATH MInitrd VFile (len small_elf) true)) by (vm_compute; reflexivity).
    rewrite He in Hn. injection Hn as <-. replace (read_executable_bytes _ _ _) with (Ok (E := unit) small_elf) by (vm_compute; reflexivity).
    apply small_elf_ok. }
  pose proof (prepare_load_spec (B := stub_block) (demo_mounts exec_initrd) INIT_PATH Hread) as H.
  assert (Hc : match prepare_executable_load (B := stub_block) (demo_mounts exec_initrd) INIT_PATH with
    | Ok r => load_segment_count (xl_totals r) | _ => 0 end = 1) by (vm_compute; reflexivity).
  destruct (prepare_executable_load _ _) as [r| | |]; [|discriminate Hc..]. exists r. done.
Defined.

(** The root directory lists a mounted FAT volume as [fat], but it is found at
    [/boot]: [/fat] is a path of the initrd. *)
Theorem root_lists_fat_elsewhere (m : Mounts) (st : FatState) (Hv : is_Some (vfs m)) (Hf : fat m = Some st) :
  lit "fat" ∈ lines (render_root m) /\
  (forall n, vfs_lookup m (lit "/fat") = Some n -> n_mount n = MInitrd) /\
  (exists n, vfs_lookup m (lit "/boot") = Some n /\ n_mount n = MFat).
Proof.
  split; [|split].
  - unfold render_root. rewrite Hf, bool_decide_true by eauto. rewrite lines_lines_text.
    + rewrite !elem_of_app, !list_elem_of_singleton. auto.
    + apply line_check. by destruct (bool_decide (is_Some (initrd m))).
  - intros n Hn. destruct (vfs_lookup_segments _ _ _ Hn) as (segs & Hs & Hp & _ & -> & _).
    vm_compute in Hs. destruct segs as [|s l]; [done|].
    destruct (normalize_segments (lit "/fat") (render (s :: l)) Hs) as (segs' & Hr & _ & He).
    vm_compute in Hr. injection Hr as <-. apply (f_equal (split SLASH)) in He. rewrite split_render in He by done.
    vm_compute in He. by injection He as -> ->.
  - destruct Hv as [v Hv]. unfold vfs_lookup. rewrite Hv. change (normalize_path (lit "/boot")) with (Some (render [lit "boot"])). cbv iota beta.
    rewrite resolve_node_spec by (repeat constructor; by apply plain_lit). simpl. unfold resolve_fat_node. rewrite Hf. simpl. by eexists.
Qed.
