(* ===== verification/Uaccess.v ===== *)
(** * Copies from and to user memory: [kernel/src/uaccess.rs]

    Memory is the finite map of the bytes an access can reach; an access to any
    other address is a page fault the copy does not recover from, a [Panic]. *)
From stdpp Require Import base list numbers option gmap.
From Stdlib Require Import ZArith Lia Bool.
From S2P Require Import Prelude.

Definition LOW_CANONICAL_MAX : Z := 2 ^ 47 - 1.
Definition HIGH_CANONICAL_MIN : Z := bitnot U64 LOW_CANONICAL_MAX.
Definition MAX_COPY_BYTES : Z := 2 ^ 20.

Inductive UserCopyError : Type := NullPointer | RangeOverflow | NonCanonical | TooLarge.

Definition as_errno (e : UserCopyError) : Z :=
  match e with NullPointer | RangeOverflow | NonCanonical => 14 | TooLarge => 34 end.

Definition is_canonical_address (a : Z) : bool := (a <=? LOW_CANONICAL_MAX) || (HIGH_CANONICAL_MIN <=? a).

Definition validate_user_range (start n : Z) : outcome UserCopyError unit :=
  if MAX_COPY_BYTES <? n then Err TooLarge else
  if n =? 0 then Ok tt else
  if start =? 0 then Err NullPointer else
  let? e := ok_or RangeOverflow (chk_add U64 start (n - 1)) in
  if negb (is_canonical_address start) || negb (is_canonical_address e) then Err NonCanonical else Ok tt.

Abbreviation umem := (gmap Z Z) (only parsing).

Fixpoint load_bytes (m : umem) (ptr : Z) (n : nat) : option (list Z) :=
  match n with
  | O => Some []
  | S n' =>
      match m !! ptr, load_bytes m (ptr + 1) n' with
      | Some b, Some bs => Some (b :: bs)
      | _, _ => None
      end
  end.

Fixpoint store_bytes (m : umem) (ptr : Z) (bs : list Z) : umem :=
  match bs with
  | [] => m
  | b :: bs' => store_bytes (<[ptr := b]> m) (ptr + 1) bs'
  end.

(** [copyin(ptr, destination)] with a destination of [n] bytes: what it is filled with. *)
Definition copyin (ptr n : Z) : M umem UserCopyError (list Z) :=
  do! lift (validate_user_range ptr n) in
  if n =? 0 then ret [] else
  let! m := gets (fun m => m) in
  lift (unwrap (load_bytes m ptr (Z.to_nat n))).

Definition copyout (source : list Z) (ptr : Z) : M umem UserCopyError unit :=
  do! lift (validate_user_range ptr (len source)) in
  if len source =? 0 then ret tt else
  let! m := gets (fun m => m) in
  match load_bytes m ptr (length source) with
  | Some _ => put (store_bytes m ptr source)
  | None => panic
  end.

(** * Facts *)
Definition mapped (m : umem) (ptr n : Z) : Prop := forall i, 0 <= i < n -> is_Some (m !! (ptr + i)).

Lemma load_bytes_Some m ptr n : mapped m ptr (Z.of_nat n) -> exists bs, load_bytes m ptr n = Some bs /\ length bs = n.
Proof.
  revert ptr. induction n as [|n IH]; intros ptr Hm; simpl; [by exists []|].
  destruct (Hm 0 ltac:(lia)) as [b Hb]. rewrite Z.add_0_r in Hb. rewrite Hb.
  destruct (IH (ptr + 1)) as (bs & -> & Hl); [|exists (b :: bs); simpl; auto].
  intros i Hi. replace (ptr + 1 + i) with (ptr + (i + 1)) by lia. apply Hm. lia.
Qed.

Lemma load_bytes_inv m ptr n bs : load_bytes m ptr n = Some bs ->
  length bs = n /\ forall i, (i < n)%nat -> m !! (ptr + Z.of_nat i) = bs !! i.
Proof.
  revert ptr bs. induction n as [|n IH]; intros ptr bs; simpl; [intros [= <-]; split; [done|intros; lia]|].
  destruct (m !! ptr) as [b|] eqn:Hb; [|done]. destruct (load_bytes m (ptr + 1) n) as [bs'|] eqn:Hl; [|done].
  intros [= <-]. destruct (IH _ _ Hl) as [<- Hi]. split; [done|]. intros [|i] Hlt; simpl; [by rewrite Z.add_0_r|].
  rewrite <- Hi by lia. f_equal. lia.
Qed.

Lemma store_bytes_lookup m ptr bs a :
  store_bytes m ptr bs !! a = if decide (ptr <= a < ptr + len bs) then bs !! Z.to_nat (a - ptr) else m !! a.
Proof.
  revert m ptr. induction bs as [|b bs IH]; intros m ptr; simpl.
  { rewrite len_nil. rewrite decide_False by lia. done. }
  pose proof (len_nonneg bs). rewrite IH, len_cons. destruct (decide (a = ptr)) as [->|Hne].
  - rewrite decide_False, decide_True by lia. rewrite lookup_insert_eq. by rewrite Z.sub_diag.
  - rewrite lookup_insert_ne by done. do 2 case_decide; try lia; [|done].
    replace (Z.to_nat (a - ptr)) with (S (Z.to_nat (a - (ptr + 1)))) by lia. done.
Qed.

Lemma load_stored m ptr bs : load_bytes (store_bytes m ptr bs) ptr (length bs) = Some bs.
Proof.
  destruct (load_bytes_Some (store_bytes m ptr bs) ptr (length bs)) as (bs' & Hl & Hlen).
  { intros i Hi. rewrite store_bytes_lookup, decide_True by len_solve. apply lookup_lt_is_Some_2. lia. }
  rewrite Hl. f_equal. destruct (load_bytes_inv _ _ _ _ Hl) as [_ Hi]. apply list_eq. intros i.
  destruct (decide (i < length bs)%nat) as [Hlt|]; [|rewrite !lookup_ge_None_2 by lia; done].
  rewrite <- Hi by done. rewrite store_bytes_lookup, decide_True by len_solve. f_equal. lia.
Qed.

(** A range of addresses a copy may touch. *)
Definition user_range (start n : Z) : Prop :=
  0 < start /\ start + n <= U64 /\ (start + n <= 2 ^ 47 \/ HIGH_CANONICAL_MIN <= start).

Lemma validate_spec start n : 0 <= start < U64 -> 0 <= n ->
  match validate_user_range start n with
  | Ok _ => n <= MAX_COPY_BYTES /\ (n = 0 \/ user_range start n)
  | Err TooLarge => MAX_COPY_BYTES < n
  | Err NullPointer => 0 < n <= MAX_COPY_BYTES /\ start = 0
  | Err RangeOverflow => 0 < n <= MAX_COPY_BYTES /\ U64 < start + n
  | Err NonCanonical => 0 < n <= MAX_COPY_BYTES /\ exists a, start <= a < start + n /\ 2 ^ 47 <= a < HIGH_CANONICAL_MIN
  | _ => False
  end.
Proof.
  intros Hs Hn. unfold validate_user_range, user_range, is_canonical_address, MAX_COPY_BYTES, HIGH_CANONICAL_MIN, LOW_CANONICAL_MAX, bitnot, chk_add.
  change (2 ^ 47) with 140737488355328. change (2 ^ 20) with 1048576.
  repeat (bdestruct_if; cbn [ok_or obind]); try lia; bool_prop.
  split; [lia|]. apply orb_true_iff in Heqb as [Hb|Hb]; apply negb_true_iff, orb_false_iff in Hb as [H4 H5]; bool_prop.
  - exists start. lia.
  - exists (start + (n - 1)). lia.
Qed.

(** * Theorems *)

(** C24: a copy to user memory stays within bounds and is exact. For any pointer
    and any data over mapped memory it returns; it is refused, leaving memory as it
    was, exactly for a length above one megabyte, a null pointer, a range that runs
    past the last address or one that touches a non-canonical address; otherwise
    the whole range lies in one half of the address space, every byte of it holds
    the data, no other byte changes, and copying back in gives the data. *)
Theorem copyout_copyin (m : gmap Z Z) (bs : list Z) (ptr : Z) (Hptr : 0 <= ptr < U64)
    (Hmapped : user_range ptr (len bs) -> mapped m ptr (len bs)) :
  match copyout bs ptr m with
  | (Ok _, m') => (bs = [] \/ user_range ptr (len bs)) /\ len bs <= MAX_COPY_BYTES /\
      (forall a, m' !! a = if decide (ptr <= a < ptr + len bs) then bs !! Z.to_nat (a - ptr) else m !! a) /\
      copyin ptr (len bs) m' = (Ok bs, m')
  | (Err e, m') => m' = m /\ (MAX_COPY_BYTES < len bs \/ bs <> [] /\ ~ user_range ptr (len bs))
  | _ => False
  end.
Proof.
  pose proof (validate_spec ptr (len bs) Hptr (len_nonneg bs)) as Hv. unfold copyout, bind at 1, lift at 1.
  destruct (validate_user_range ptr (len bs)) as [[]|e| |] eqn:Hok; try done.
  - destruct Hv as [Hmax Hr]. destruct (Z.eqb_spec (len bs) 0) as [Hz|Hnz].
    + assert (bs = []) as -> by (destruct bs; [done|unfold len in Hz; simpl in Hz; lia]). simpl.
      split; [by left|]. split; [done|]. split; [|done]. intros a. by rewrite decide_False by (rewrite len_nil; lia).
    + destruct Hr as [|Hr]; [done|]. specialize (Hmapped Hr). unfold bind, gets.
      destruct (load_bytes_Some m ptr (length bs) Hmapped) as (old & -> & _). unfold put.
      split; [by right|]. split; [done|]. split; [intros a; apply store_bytes_lookup|].
      unfold copyin, bind, lift, gets. rewrite Hok. rewrite (proj2 (Z.eqb_neq _ _) Hnz).
      replace (Z.to_nat (len bs)) with (length bs) by len_solve. by rewrite load_stored.
  - split; [done|]. destruct e; [right|right|right|left; done].
    + destruct Hv as [Hn ->]. split; [by destruct bs|]. unfold user_range. lia.
    + destruct Hv as [Hn Ho]. split; [by destruct bs|]. unfold user_range. lia.
    + destruct Hv as [Hn (a & Ha & Hc)]. split; [by destruct bs|]. unfold user_range. lia.
Qed.

Definition demo_umem : gmap Z Z := store_bytes ∅ 4096 [1; 2; 3; 4].

Lemma copyout_copyin_witness :
  (fst (copyout [7; 8] 4097 demo_umem)) = Ok tt /\
  match copyout [7; 8] 4097 demo_umem with
  | (Ok _, m') => ([7; 8] = [] \/ user_range 4097 2) /\ 2 <= MAX_COPY_BYTES /\
      (forall a, m' !! a = if decide (4097 <= a < 4097 + 2) then [7; 8] !! Z.to_nat (a - 4097) else demo_umem !! a) /\
      copyin 4097 2 m' = (Ok [7; 8], m')
  | (Err e, m') => m' = demo_umem /\ (MAX_COPY_BYTES < 2 \/ [7; 8] <> [] /\ ~ user_range 4097 2)
  | _ => False
  end.
Proof.
  split; [vm_compute; reflexivity|]. apply (copyout_copyin demo_umem [7; 8] 4097); [lia|]. intros _ i Hi.
  assert (i = 0 \/ i = 1) as [->| ->] by (unfold len in Hi; simpl in Hi; lia); vm_compute; eauto.
Defined.

(** The check tells user addresses from kernel addresses nowhere: a range in the
    upper half, where the kernel lives, passes. *)
Theorem kernel_range_accepted (start n : Z) (Hs : HIGH_CANONICAL_MIN <= start) (Hn : 0 < n <= MAX_COPY_BYTES)
    (He : start + n <= U64) : validate_user_range start n = Ok tt.
Proof.
  unfold validate_user_range, is_canonical_address, chk_add. unfold HIGH_CANONICAL_MIN, LOW_CANONICAL_MAX, bitnot, MAX_COPY_BYTES in *.
  change (2 ^ 47) with 140737488355328 in *. change (2 ^ 20) with 1048576 in *.
  rewrite (proj2 (Z.ltb_ge _ _)), (proj2 (Z.eqb_neq n 0)), (proj2 (Z.eqb_neq start 0)), (proj2 (Z.ltb_lt _ _)) by lia. cbn [ok_or obind].
  rewrite !(proj2 (Z.leb_le (18446744073709551616 - 1 - (140737488355328 - 1)) _)) by lia. by rewrite !orb_true_r.
Qed.
