(* ===== verification/Lcl.v ===== *)
(** * The message queue of the compatibility layer: [kernel/src/syscall.rs]

    Sixty-four cells between a head and a tail index. The lock makes each
    operation one step; a caller that does not find the lock free spins. *)
From stdpp Require Import base list numbers option.
From Stdlib Require Import ZArith Lia Bool.
From S2P Require Import Prelude.

Record LclMessage : Type := mkMessage { m_pid : Z; m_tid : Z; m_number : Z; m_args : list Z; m_abi : Z }.

Definition LCL_CELLS : nat := 64.
Record LclQueue : Type := mkQueue { messages : list (option LclMessage); q_head : nat; q_tail : nat }.
#[export] Instance LclQueue_eta : RecordEta LclQueue := fun q => mkQueue (messages q) (q_head q) (q_tail q).
Definition lcl_empty : LclQueue := mkQueue (replicate LCL_CELLS None) 0 0.

(** [messages[i]] *)
Definition cell {E} (i : nat) : M LclQueue E (option LclMessage) :=
  let! ms := gets messages in lift (unwrap (ms !! i)).

Definition enqueue_lcl_message {E} (msg : LclMessage) : M LclQueue E unit :=
  let! h := gets q_head in
  let! _ := cell h in
  do! modify (upd messages <[h := Some msg]>) in
  modify (upd q_head (fun h => Nat.modulo (h + 1) LCL_CELLS)).

(** [messages[tail].take()], then the next tail. *)
Definition take_tail {E} : M LclQueue E (option LclMessage) :=
  let! t := gets q_tail in
  let! m := cell t in
  do! modify (upd messages <[t := None]>) in
  ret m.
Definition advance_tail {E} : M LclQueue E unit := modify (upd q_tail (fun t => Nat.modulo (t + 1) LCL_CELLS)).

Definition dequeue_lcl_message {E} : M LclQueue E (option LclMessage) :=
  let! h := gets q_head in
  let! t := gets q_tail in
  if (h =? t)%nat then
    let! m := cell t in
    match m with
    | None => ret None
    | Some _ => let! m := take_tail in do! advance_tail in ret m
    end
  else
    let! m := take_tail in
    do! (if bool_decide (is_Some m) then advance_tail else ret tt) in
    ret m.

(** * The queue as a list *)

(** Cell [i] holds the message that many steps after the tail. *)
Definition distance (t i : nat) : nat := Nat.modulo (i + LCL_CELLS - t) LCL_CELLS.

Definition Queue (q : LclQueue) (l : list LclMessage) : Prop :=
  length (messages q) = LCL_CELLS /\ (q_tail q < LCL_CELLS)%nat /\ (length l <= LCL_CELLS)%nat /\
  q_head q = Nat.modulo (q_tail q + length l) LCL_CELLS /\
  forall i, (i < LCL_CELLS)%nat -> messages q !! i = Some (l !! distance (q_tail q) i).

Lemma distance_spec t i : (t < LCL_CELLS)%nat -> (i < LCL_CELLS)%nat ->
  distance t i = if (t <=? i)%nat then (i - t)%nat else (i + 64 - t)%nat.
Proof.
  unfold distance, LCL_CELLS. intros. destruct (Nat.leb_spec t i).
  - replace (i + 64 - t)%nat with (i - t + 1 * 64)%nat by lia. rewrite Nat.Div0.mod_add. apply Nat.mod_small. lia.
  - apply Nat.mod_small. lia.
Qed.

Lemma next_spec t : (t < LCL_CELLS)%nat -> Nat.modulo (t + 1) LCL_CELLS = if (t =? 63)%nat then 0%nat else (t + 1)%nat.
Proof.
  unfold LCL_CELLS. intros. destruct (Nat.eqb_spec t 63) as [->|]; [done|]. apply Nat.mod_small. lia.
Qed.

Lemma head_spec t n : (t < LCL_CELLS)%nat -> (n <= LCL_CELLS)%nat ->
  Nat.modulo (t + n) LCL_CELLS = if (t + n <? 64)%nat then (t + n)%nat else (t + n - 64)%nat.
Proof.
  unfold LCL_CELLS. intros. destruct (Nat.ltb_spec (t + n) 64); [apply Nat.mod_small; lia|].
  replace (t + n)%nat with (t + n - 64 + 1 * 64)%nat at 1 by lia. rewrite Nat.Div0.mod_add. apply Nat.mod_small. lia.
Qed.

Ltac nat_cases := unfold LCL_CELLS in *;
  repeat match goal with
  | |- context [(?a <=? ?b)%nat] => destruct (Nat.leb_spec a b)
  | |- context [(?a <? ?b)%nat] => destruct (Nat.ltb_spec a b)
  | |- context [(?a =? ?b)%nat] => destruct (Nat.eqb_spec a b)
  end; try lia.

Lemma distance_head t n : (t < LCL_CELLS)%nat -> (n < LCL_CELLS)%nat -> distance t (Nat.modulo (t + n) LCL_CELLS) = n.
Proof. intros. rewrite distance_spec; rewrite ?head_spec by lia; nat_cases. Qed.

Lemma distance_inj t i j : (t < LCL_CELLS)%nat -> (i < LCL_CELLS)%nat -> (j < LCL_CELLS)%nat -> distance t i = distance t j -> i = j.
Proof. intros ? ? ?. rewrite !distance_spec by done. nat_cases. Qed.

Lemma distance_next t i : (t < LCL_CELLS)%nat -> (i < LCL_CELLS)%nat ->
  distance (Nat.modulo (t + 1) LCL_CELLS) i = if (i =? t)%nat then 63%nat else pred (distance t i).
Proof. intros. rewrite next_spec by done. rewrite !distance_spec; nat_cases. Qed.

Lemma distance_pos t i : (t < LCL_CELLS)%nat -> (i < LCL_CELLS)%nat -> i <> t -> (0 < distance t i)%nat.
Proof. intros. rewrite distance_spec by done. nat_cases. Qed.

Lemma mod_cells n : (Nat.modulo n LCL_CELLS < LCL_CELLS)%nat.
Proof. apply Nat.mod_upper_bound. done. Qed.
#[local] Hint Resolve mod_cells : core.

#[local] Arguments Nat.modulo : simpl never.

Lemma queue_empty : Queue lcl_empty [].
Proof. repeat split; try (unfold LCL_CELLS; simpl; lia). intros i Hi. unfold lcl_empty. cbn [messages]. by apply lookup_replicate_2. Qed.

Lemma cell_run {E} q l i : Queue q l -> (i < LCL_CELLS)%nat -> cell (E:=E) i q = (Ok (l !! distance (q_tail q) i), q).
Proof. intros (_ & _ & _ & _ & Hc) Hi. unfold cell, bind, gets, lift. by rewrite (Hc i Hi). Qed.

(** Room left: the message goes behind the others. *)
Lemma enqueue_lcl_run {E} q l msg : Queue q l -> (length l < LCL_CELLS)%nat ->
  exists q', enqueue_lcl_message (E:=E) msg q = (Ok tt, q') /\ Queue q' (l ++ [msg]).
Proof.
  intros HQ Hl. pose proof HQ as (Hlen & Ht & _ & Hh & Hc).
  assert (Hhl : (q_head q < LCL_CELLS)%nat) by (rewrite Hh; auto).
  assert (Hd : distance (q_tail q) (q_head q) = length l) by (rewrite Hh; by apply distance_head).
  eexists. split.
  { unfold enqueue_lcl_message, bind, gets. rewrite (cell_run q l _ HQ Hhl). reflexivity. }
  split; [simpl; by rewrite length_insert|]. split; [done|]. simpl. rewrite length_app. simpl. split; [lia|]. split.
  { rewrite Hh. unfold LCL_CELLS. rewrite Nat.Div0.add_mod_idemp_l. f_equal. lia. }
  intros i Hi. destruct (decide (i = q_head q)) as [->|Hne].
  - rewrite list_lookup_insert_eq by (rewrite Hlen; lia). by rewrite Hd, lookup_app_r, Nat.sub_diag by lia.
  - rewrite list_lookup_insert_ne, Hc by done. f_equal.
    assert (distance (q_tail q) i <> length l) by (intros He; apply Hne; eapply distance_inj; [exact Ht|..]; congruence).
    destruct (decide (distance (q_tail q) i < length l)%nat); [by rewrite lookup_app_l|].
    rewrite !lookup_ge_None_2; [done|rewrite length_app; simpl; lia|lia].
Qed.

Lemma dequeue_lcl_run {E} q l : Queue q l ->
  exists q', dequeue_lcl_message (E:=E) q = (Ok (head l), q') /\ Queue q' (tail l).
Proof.
  intros HQ. pose proof HQ as (Hlen & Ht & Hl & Hh & Hc).
  assert (Hd0 : distance (q_tail q) (q_tail q) = 0%nat) by (rewrite distance_spec by done; nat_cases).
  pose proof (cell_run (E:=E) q l _ HQ Ht) as Hcell. rewrite Hd0 in Hcell.
  unfold dequeue_lcl_message, bind at 1 2, gets at 1 2. destruct l as [|msg l].
  { rewrite Hh. simpl. rewrite Nat.add_0_r, (Nat.mod_small _ _ Ht), Nat.eqb_refl. unfold bind at 1. rewrite Hcell. by exists q. }
  assert (Htake : take_tail (E:=E) q = (Ok (Some msg), upd messages <[q_tail q := None]> q)).
  { unfold take_tail, bind, gets. rewrite Hcell. reflexivity. }
  exists (upd q_tail (fun t => Nat.modulo (t + 1) LCL_CELLS) (upd messages <[q_tail q := None]> q)). split.
  { destruct (q_head q =? q_tail q)%nat; [unfold bind at 1; rewrite Hcell; cbn [lookup]|]; unfold bind; simpl; by rewrite Htake. }
  simpl in Hl. split; [simpl; by rewrite length_insert|]. split; [simpl; auto|]. simpl. split; [lia|]. split.
  { rewrite Hh. simpl length. unfold LCL_CELLS. rewrite Nat.Div0.add_mod_idemp_l. f_equal. lia. }
  intros i Hi. rewrite distance_next by done. destruct (Nat.eqb_spec i (q_tail q)) as [->|Hne].
  - rewrite list_lookup_insert_eq by (rewrite Hlen; lia). rewrite lookup_ge_None_2; [done|]. unfold LCL_CELLS in Hl. lia.
  - rewrite list_lookup_insert_ne, Hc by done. f_equal. pose proof (distance_pos (q_tail q) i Ht Hi Hne).
    destruct (distance (q_tail q) i); [lia|done].
Qed.

(** A sequence of sends and receives, and what the receives returned. *)
Inductive lcl_op : Type := Send (m : LclMessage) | Receive.

Fixpoint lcl_run (ops : list lcl_op) (q : LclQueue) : outcome Empty_set (list (option LclMessage)) * LclQueue :=
  match ops with
  | [] => (Ok [], q)
  | Send m :: ops' => (do! enqueue_lcl_message m in lcl_run ops') q
  | Receive :: ops' => (let! r := dequeue_lcl_message in let! rs := lcl_run ops' in ret (r :: rs)) q
  end.

(** The same on a list. *)
Fixpoint fifo_run (ops : list lcl_op) (l : list LclMessage) : list (option LclMessage) * list LclMessage :=
  match ops with
  | [] => ([], l)
  | Send m :: ops' => fifo_run ops' (l ++ [m])
  | Receive :: ops' => let '(rs, l') := fifo_run ops' (tail l) in (head l :: rs, l')
  end.

(** The list never holds more messages than there are cells. *)
Fixpoint fits (ops : list lcl_op) (n : nat) : bool :=
  (n <=? LCL_CELLS)%nat &&
  match ops with
  | [] => true
  | Send _ :: ops' => fits ops' (S n)
  | Receive :: ops' => fits ops' (pred n)
  end.

Lemma fits_bound ops n : fits ops n = true -> (n <= LCL_CELLS)%nat.
Proof. intros H. apply Nat.leb_le. destruct ops; by apply andb_true_iff in H as [? _]. Qed.

Lemma lcl_run_fifo ops : forall q l, Queue q l -> fits ops (length l) = true ->
  exists q', lcl_run ops q = (Ok (fifo_run ops l).1, q') /\ Queue q' (fifo_run ops l).2.
Proof.
  induction ops as [|[m|] ops IH]; intros q l HQ Hf; simpl in *; apply andb_true_iff in Hf as [Hn Hf].
  - by exists q.
  - assert (Hlt : (length l < LCL_CELLS)%nat) by (apply fits_bound in Hf; lia).
    destruct (enqueue_lcl_run (E:=Empty_set) q l m HQ Hlt) as (q1 & He & HQ1). unfold bind. rewrite He.
    apply IH; [done|]. rewrite length_app. simpl. by rewrite Nat.add_1_r.
  - destruct (dequeue_lcl_run (E:=Empty_set) q l HQ) as (q1 & He & HQ1). unfold bind. rewrite He.
    destruct (IH q1 (tail l) HQ1) as (q2 & Hr & HQ2); [by destruct l|]. rewrite Hr.
    destruct (fifo_run ops (tail l)) as [rs l']. exists q2. done.
Qed.

(** * Theorems *)

(** C23: while no more than sixty-four messages are pending, the ring of cells is a
    first-in first-out queue: any sequence of sends and receives that never holds
    more returns exactly what the sequence returns on a list, in particular every
    message once, in order, and nothing when none is pending. *)
Theorem lcl_queue_fifo (ops : list lcl_op) (Hfits : fits ops 0 = true) :
  fst (lcl_run ops lcl_empty) = Ok (fifo_run ops []).1 /\ Queue (lcl_run ops lcl_empty).2 (fifo_run ops []).2.
Proof. destruct (lcl_run_fifo ops lcl_empty [] queue_empty Hfits) as (q' & -> & HQ). done. Qed.

Definition demo_message (n : Z) : LclMessage := mkMessage 2 n n [] 1.

Lemma lcl_queue_fifo_witness :
  let ops := [Send (demo_message 1); Send (demo_message 2); Receive; Receive; Receive] in
  fst (lcl_run ops lcl_empty) = Ok (fifo_run ops []).1 /\ Queue (lcl_run ops lcl_empty).2 (fifo_run ops []).2.
Proof. apply lcl_queue_fifo. vm_compute. reflexivity. Defined.

(** A sixty-fifth message overwrites the oldest one, whose sender is never
    answered, and is itself received first. *)
Theorem lcl_overflow :
  let ops := (fun i => Send (demo_message i)) <$> seqZ 1 65 in
  (fst (lcl_run (ops ++ replicate 65 Receive) lcl_empty)) =
  Ok ((Some (demo_message 65) :: (Some <$> (demo_message <$> seqZ 2 63))) ++ [None]).
Proof. vm_compute. reflexivity. Qed.
