(* ===== verification/Hsched.v ===== *)
(** * The heterogeneous scheduler's queue: [kernel/src/hsched.rs]

    A bounded queue of sixteen cells that any number of processors submit to and
    take from without a lock. A step of the system is one atomic access of one
    thread: the load, compare-exchange or store the source performs next; a weak
    compare-exchange may fail for no reason. The accesses are interleaved in one
    order for all threads, which the release and acquire pairs on a cell's sequence
    number justify for the accesses to its data.

    [hist] and [dispatched] are history variables: the tasks in the order their
    positions were claimed, with the phase each is in, and what the takers read. *)
From stdpp Require Import base list numbers option.
From Stdlib Require Import ZArith Lia Bool.
From S2P Require Import Prelude Sched.

Record HardwareTask : Type := mkTask { t_id : Z; t_target : Z }.
Definition VALID_BIT : Z := Z.shiftl 1 63.
Definition encode (t : HardwareTask) : Z := Z.lor (Z.lor VALID_BIT (Z.shiftl (t_target t) 32)) (t_id t).
Definition decode (v : Z) : option HardwareTask :=
  if Z.land v VALID_BIT =? 0 then None
  else Some (mkTask (cast U32 (Z.land v 0xFFFFFFFF)) (cast U8 (Z.land (Z.shiftr v 32) 0xFF))).
Definition is_gpu_task (t : HardwareTask) : bool := t_target t =? 1.

(** The payload of an SXRC workload plays no part in scheduling. *)
Inductive WorkloadType : Type := CpuAvx512 | GpuCompute | SxrcWork | DirectTarget (t : Z).
Definition target_of (w : WorkloadType) : Z :=
  match w with CpuAvx512 => 0 | GpuCompute => 1 | SxrcWork => 1 | DirectTarget t => t end.

(** ** The ring and its threads *)
Definition CELLS : nat := 16.
Inductive phase : Type := Writing | Ready | Taking | Freed.

Record Ring : Type := mkRing {
  seqs : list Z; datas : list Z; r_head : Z; r_tail : Z; next_id : Z;
  hist : list (Z * phase); dispatched : list (nat * Z) }.
#[export] Instance Ring_eta : RecordEta Ring :=
  fun r => mkRing (seqs r) (datas r) (r_head r) (r_tail r) (next_id r) (hist r) (dispatched r).
Definition ring_new : Ring := mkRing (Z.of_nat <$> seq 0 CELLS) (replicate CELLS 0) 0 0 1 [] [].

Inductive result : Type := NoCall | Accepted (id : Z) | QueueFull | Drained.
Inductive command : Type := Submit (w : WorkloadType) | Dispatch.
Inductive pc : Type :=
| Idle (last : result)
| SubLoad (t : HardwareTask) | SubSeq (t : HardwareTask) (pos : Z) | SubCas (t : HardwareTask) (pos : Z)
| SubData (t : HardwareTask) (pos : Z) | SubPub (t : HardwareTask) (pos : Z)
| DisLoad | DisSeq (pos : Z) | DisCas (pos : Z) | DisData (pos : Z) | DisRel (pos : Z).

Definition cell_index (pos : Z) : nat := Z.to_nat (pos mod 16).
Definition seq_at (r : Ring) (pos : Z) : Z := default 0 (seqs r !! cell_index pos).
Definition data_at (r : Ring) (pos : Z) : Z := default 0 (datas r !! cell_index pos).
Definition set_seq (pos v : Z) : Ring -> Ring := upd seqs <[cell_index pos := v]>.
Definition set_phase (pos : Z) (ph : phase) : Ring -> Ring := upd hist (alter (fun e => (e.1, ph)) (Z.to_nat pos)).

(** One atomic access of [submit_workload] or [dispatch_pending]. *)
Definition advance (c : command) (spurious : bool) (r : Ring) (p : pc) : Ring * pc :=
  match p with
  | Idle _ =>
      match c with
      | Submit w => (upd next_id (fun i => wrap_add U32 i 1) r, SubLoad (mkTask (next_id r) (target_of w)))
      | Dispatch => (r, DisLoad)
      end
  | SubLoad t => (r, SubSeq t (r_tail r))
  | SubSeq t pos =>
      let dif := as_i64 (wrap_sub U64 (seq_at r pos) pos) in
      (r, if dif =? 0 then SubCas t pos else if dif <? 0 then Idle QueueFull else SubLoad t)
  | SubCas t pos =>
      if (r_tail r =? pos) && negb spurious
      then (upd hist (fun h => h ++ [(encode t, Writing)]) (set_field r_tail (wrap_add U64 pos 1) r), SubData t pos)
      else (r, SubSeq t (r_tail r))
  | SubData t pos => (upd datas <[cell_index pos := encode t]> r, SubPub t pos)
  | SubPub t pos => (set_phase pos Ready (set_seq pos (wrap_add U64 pos 1) r), Idle (Accepted (t_id t)))
  | DisLoad => (r, DisSeq (r_head r))
  | DisSeq pos =>
      let dif := as_i64 (wrap_sub U64 (seq_at r pos) (wrap_add U64 pos 1)) in
      (r, if dif =? 0 then DisCas pos else if dif <? 0 then Idle Drained else DisLoad)
  | DisCas pos =>
      if (r_head r =? pos) && negb spurious
      then (set_phase pos Taking (set_field r_head (wrap_add U64 pos 1) r), DisData pos)
      else (r, DisSeq (r_head r))
  | DisData pos => (upd dispatched (fun d => d ++ [(Z.to_nat pos, data_at r pos)]) r, DisRel pos)
  | DisRel pos => (set_phase pos Freed (set_seq pos (wrap_add U64 pos 16) r), DisSeq (wrap_add U64 pos 1))
  end.

Record Sys : Type := mkSys { ring : Ring; pcs : list pc }.

Inductive step : Sys -> Sys -> Prop :=
| step_thread r ps i p c spurious r' p' :
    ps !! i = Some p -> advance c spurious r p = (r', p') -> step (mkSys r ps) (mkSys r' (<[i := p']> ps)).

Inductive reachable (n : nat) : Sys -> Prop :=
| reach_init : reachable n (mkSys ring_new (replicate n (Idle NoCall)))
| reach_step s s' : reachable n s -> step s s' -> reachable n s'.

(** Running the system by a schedule: which thread moves, with what command. *)
Fixpoint run (schedule : list (nat * command * bool)) (s : Sys) : Sys :=
  match schedule with
  | [] => s
  | (i, c, b) :: rest =>
      match pcs s !! i with
      | Some p => let '(r', p') := advance c b (ring s) p in run rest (mkSys r' (<[i := p']> (pcs s)))
      | None => run rest s
      end
  end.

(** * The invariant *)
Definition count (r : Ring) : nat := length (hist r).

Definition seq_of (p : nat) (ph : phase) : Z :=
  match ph with Writing => Z.of_nat p | Ready | Taking => Z.of_nat p + 1 | Freed => Z.of_nat p + 16 end.

Definition cell_of (p : nat) : nat := Nat.modulo p 16.

(** What a thread that owns a position, or is about to claim one, knows. *)
Definition owns_write (p : pc) (k : nat) : Prop := exists t, p = SubData t (Z.of_nat k) \/ p = SubPub t (Z.of_nat k).
Definition owns_take (p : pc) (k : nat) : Prop := p = DisData (Z.of_nat k) \/ p = DisRel (Z.of_nat k).

Definition free_at (r : Ring) (k : nat) : Prop := (k < 16)%nat \/ exists v, hist r !! (k - 16)%nat = Some (v, Freed).

Definition pc_ok (r : Ring) (p : pc) : Prop :=
  match p with
  | SubSeq _ pos => exists k, pos = Z.of_nat k /\ (k <= count r)%nat
  | SubCas _ pos => exists k, pos = Z.of_nat k /\ (k <= count r)%nat /\ (k = count r -> free_at r k)
  | SubData t pos => exists k, pos = Z.of_nat k /\ hist r !! k = Some (encode t, Writing)
  | SubPub t pos => exists k, pos = Z.of_nat k /\ hist r !! k = Some (encode t, Writing) /\ datas r !! cell_of k = Some (encode t)
  | DisSeq pos => exists k, pos = Z.of_nat k /\ pos <= r_head r
  | DisCas pos => exists k, pos = Z.of_nat k /\ pos <= r_head r /\ (pos = r_head r -> exists v, hist r !! k = Some (v, Ready))
  | DisData pos => exists k v, pos = Z.of_nat k /\ hist r !! k = Some (v, Taking) /\ ~ k ∈ (dispatched r).*1
  | DisRel pos => exists k v, pos = Z.of_nat k /\ hist r !! k = Some (v, Taking) /\ (k, v) ∈ dispatched r
  | _ => True
  end.

Record ring_ok (r : Ring) : Prop := {
  ok_seqs : length (seqs r) = CELLS;
  ok_datas : length (datas r) = CELLS;
  ok_tail : r_tail r = Z.of_nat (count r);
  ok_head : 0 <= r_head r <= Z.of_nat (count r);
  ok_before : forall k v ph, hist r !! k = Some (v, ph) -> Z.of_nat k < r_head r <-> ph = Taking \/ ph = Freed;
  ok_old : forall k v ph, hist r !! k = Some (v, ph) -> (k + 16 < count r)%nat -> ph = Freed;
  ok_cell : forall k v ph, hist r !! k = Some (v, ph) -> (count r <= k + 16)%nat ->
    seqs r !! cell_of k = Some (seq_of k ph) /\ (ph = Ready \/ ph = Taking -> datas r !! cell_of k = Some v);
  ok_fresh : forall j, (count r <= j < CELLS)%nat -> seqs r !! j = Some (Z.of_nat j);
  ok_sent : forall k v, (k, v) ∈ dispatched r -> exists ph, hist r !! k = Some (v, ph) /\ (ph = Taking \/ ph = Freed);
  ok_once : NoDup (dispatched r).*1;
  ok_freed : forall k v, hist r !! k = Some (v, Freed) -> (k, v) ∈ dispatched r }.

(** Exactly one thread owns a position that is being written or taken. *)
Definition owners (s : Sys) : Prop :=
  (forall i j p q k, pcs s !! i = Some p -> pcs s !! j = Some q -> owns_write p k \/ owns_take p k ->
     owns_write q k \/ owns_take q k -> i = j) /\
  (forall k v, hist (ring s) !! k = Some (v, Writing) -> exists i p, pcs s !! i = Some p /\ owns_write p k) /\
  (forall k v, hist (ring s) !! k = Some (v, Taking) -> exists i p, pcs s !! i = Some p /\ owns_take p k).

(** A [usize] counter does not wrap in [2^62] submissions. *)
Definition SUBMISSION_LIMIT : Z := 2 ^ 62.

Definition sys_ok (s : Sys) : Prop :=
  ring_ok (ring s) /\ Forall (pc_ok (ring s)) (pcs s) /\ owners s.

(** ** Arithmetic of positions *)
Lemma cell_index_nat k : cell_index (Z.of_nat k) = cell_of k.
Proof. unfold cell_index, cell_of. change 16 with (Z.of_nat 16). by rewrite <- Nat2Z.inj_mod, Nat2Z.id. Qed.

Lemma cell_bound k : (cell_of k < CELLS)%nat.
Proof. apply Nat.mod_upper_bound. done. Qed.

Lemma cell_inj k j n : (k < n)%nat -> (j < n)%nat -> (n <= k + 16)%nat -> (n <= j + 16)%nat -> cell_of k = cell_of j -> k = j.
Proof.
  unfold cell_of. intros ? ? ? ? He. pose proof (Nat.div_mod_eq k 16). pose proof (Nat.div_mod_eq j 16).
  rewrite He in *. lia.
Qed.

Lemma wrap_add_small a b : 0 <= a -> 0 <= b -> a + b < U64 -> wrap_add U64 a b = a + b.
Proof. intros. unfold wrap_add. apply Z.mod_small. lia. Qed.

Lemma dif_small a b : 0 <= a < SLICE_LIMIT -> 0 <= b < SLICE_LIMIT -> as_i64 (wrap_sub U64 a b) = a - b.
Proof.
  intros. unfold as_i64, wrap_sub. change (2 ^ 63) with SLICE_LIMIT. destruct (Z.leb_spec b a).
  - rewrite Z.mod_small by lia. bdestruct_if; lia.
  - replace (a - b) with (a - b + U64 + (-1) * U64) by lia. rewrite Z.mod_add, Z.mod_small by lia. bdestruct_if; lia.
Qed.

Section ring_facts.
Variable r : Ring.
Hypothesis Hr : ring_ok r.
Hypothesis Hlim : Z.of_nat (count r) < SUBMISSION_LIMIT.

(** The cell a position is at: the last position claimed there, or none yet. *)
Lemma cell_content k : (k <= count r + 15)%nat ->
  ((count r <= cell_of k)%nat /\ seqs r !! cell_of k = Some (Z.of_nat (cell_of k))) \/
  exists j v ph, cell_of j = cell_of k /\ hist r !! j = Some (v, ph) /\ (count r <= j + 16)%nat /\
    seqs r !! cell_of k = Some (seq_of j ph).
Proof.
  intros Hk. pose proof (cell_bound k) as Hc. destruct (decide (count r <= cell_of k)%nat) as [Hle|Hgt].
  { left. split; [done|]. apply (ok_fresh r Hr). unfold CELLS in *. lia. }
  right. set (c := cell_of k) in *. set (j := (count r - 1 - Nat.modulo (count r - 1 - c) 16)%nat).
  pose proof (Nat.div_mod_eq (count r - 1 - c) 16) as Hd. pose proof (Nat.mod_upper_bound (count r - 1 - c) 16 ltac:(lia)) as Hm.
  assert (Hj : cell_of j = c).
  { unfold cell_of. replace j with (c + (count r - 1 - c) / 16 * 16)%nat by (unfold j; lia). rewrite Nat.Div0.mod_add.
    apply Nat.mod_small. unfold CELLS in Hc. lia. }
  destruct (lookup_lt_is_Some_2 (hist r) j) as [[v ph] Hh]; [unfold j; unfold count in *; lia|].
  exists j, v, ph. split; [done|]. split; [done|]. assert (count r <= j + 16)%nat by (unfold j; lia). split; [done|].
  rewrite <- Hj. by apply (ok_cell r Hr j v ph).
Qed.

Lemma hist_bound k e : hist r !! k = Some e -> (k < count r)%nat.
Proof. apply lookup_lt_Some. Qed.

(** The sequence number at the next position to claim says whether it is free. *)
Lemma seq_at_tail : exists s, seq_at r (Z.of_nat (count r)) = s /\ 0 <= s <= Z.of_nat (count r) /\
  (s = Z.of_nat (count r) <-> free_at r (count r)).
Proof.
  unfold seq_at. rewrite cell_index_nat. destruct (cell_content (count r) ltac:(lia)) as [[Hle ->]|(j & v & ph & Hj & Hh & Hn & ->)]; simpl.
  - assert (Hc : cell_of (count r) = count r) by (unfold cell_of in *; pose proof (Nat.div_mod_eq (count r) 16); lia).
    pose proof (cell_bound (count r)). unfold CELLS in *. rewrite Hc. eexists. split; [done|]. split; [lia|]. split; [intros _; left; lia|done].
  - pose proof (hist_bound _ _ Hh). assert (j + 16 = count r)%nat as Hj16.
    { unfold cell_of in Hj. pose proof (Nat.div_mod_eq (count r) 16). pose proof (Nat.div_mod_eq j 16). lia. }
    eexists. split; [done|]. replace j with (count r - 16)%nat in * by lia.
    assert (Hf : free_at r (count r) <-> ph = Freed).
    { split; [intros [?|[w Hw]]; [lia|congruence]|intros ->; right; eauto]. }
    rewrite Hf. destruct ph; simpl; (split; [lia|]); split; intros He; try done; lia.
Qed.

(** At an earlier position the sequence number is not behind. *)
Lemma seq_at_old k : (k < count r)%nat -> exists s, seq_at r (Z.of_nat k) = s /\ Z.of_nat k <= s <= Z.of_nat (count r) + 16.
Proof.
  intros Hk. unfold seq_at. rewrite cell_index_nat.
  destruct (cell_content k ltac:(lia)) as [[Hle ->]|(j & v & ph & Hj & Hh & Hn & ->)]; simpl.
  - exfalso. unfold cell_of in Hle. pose proof (Nat.div_mod_eq k 16). lia.
  - pose proof (hist_bound _ _ Hh). assert (k <= j)%nat.
    { unfold cell_of in Hj. pose proof (Nat.div_mod_eq k 16). pose proof (Nat.div_mod_eq j 16). lia. }
    eexists. split; [done|]. destruct ph; simpl; lia.
Qed.

(** At the head, it says whether the task there is ready. *)
Lemma seq_at_head k : Z.of_nat k = r_head r -> exists s, seq_at r (Z.of_nat k) = s /\ 0 <= s <= Z.of_nat k + 1 /\
  (s = Z.of_nat k + 1 -> exists v, hist r !! k = Some (v, Ready)).
Proof.
  intros Hk. pose proof (ok_head r Hr). destruct (decide (k = count r)) as [->|Hne].
  { destruct seq_at_tail as (s & Hs & Hb & _). exists s. split; [done|]. split; lia. }
  destruct (lookup_lt_is_Some_2 (hist r) k) as [[v ph] Hh]; [unfold count in *; lia|].
  assert (Hph : ph = Writing \/ ph = Ready).
  { pose proof (ok_before r Hr k v ph Hh) as Hb. destruct ph; auto; exfalso; assert (Z.of_nat k < r_head r) by tauto; lia. }
  assert (Hlast : (count r <= k + 16)%nat).
  { destruct (decide (k + 16 < count r)%nat) as [Hlt|]; [|lia]. pose proof (ok_old r Hr k v ph Hh Hlt). destruct Hph; congruence. }
  destruct (ok_cell r Hr k v ph Hh Hlast) as [Hs _]. unfold seq_at. rewrite cell_index_nat, Hs. simpl. eexists. split; [done|].
  destruct Hph as [->| ->]; simpl; (split; [lia|]); [lia|eauto].
Qed.
End ring_facts.

(** ** Owners *)
Definition owns (p : pc) (k : nat) : Prop := owns_write p k \/ owns_take p k.

Lemma owns_write_phase r p k : pc_ok r p -> owns_write p k -> exists v, hist r !! k = Some (v, Writing).
Proof. intros Hp (t & [->| ->]); simpl in Hp; [destruct Hp as (k' & He & Hh)|destruct Hp as (k' & He & Hh & _)]; apply Nat2Z.inj in He as ->; eauto. Qed.

Lemma owns_take_phase r p k : pc_ok r p -> owns_take p k -> exists v, hist r !! k = Some (v, Taking).
Proof. intros Hp [->| ->]; simpl in Hp; destruct Hp as (k' & v & He & Hh & _); apply Nat2Z.inj in He as ->; eauto. Qed.

Lemma owns_bound r p k : pc_ok r p -> owns p k -> (k < count r)%nat.
Proof.
  intros Hp [Ho|Ho]; [destruct (owns_write_phase r p k Hp Ho) as [v Hh]|destruct (owns_take_phase r p k Hp Ho) as [v Hh]];
    by eapply lookup_lt_Some.
Qed.

Lemma owners_upd r ps i p r' p' :
  owners (mkSys r ps) -> ps !! i = Some p ->
  (forall k, owns p' k -> owns p k \/ forall j q, ps !! j = Some q -> ~ owns q k) ->
  (forall k v, hist r' !! k = Some (v, Writing) -> owns_write p' k \/ (exists v', hist r !! k = Some (v', Writing)) /\ ~ owns_write p k) ->
  (forall k v, hist r' !! k = Some (v, Taking) -> owns_take p' k \/ (exists v', hist r !! k = Some (v', Taking)) /\ ~ owns_take p k) ->
  owners (mkSys r' (<[i := p']> ps)).
Proof.
  intros (Hu & Hw & Ht) Hi Hown Hw' Ht'. simpl in *. pose proof (lookup_lt_Some _ _ _ Hi) as Hlt.
  assert (Hnew : forall j q k, <[i := p']> ps !! j = Some q -> owns q k -> j = i /\ q = p' \/ j <> i /\ ps !! j = Some q).
  { intros j q k Hj _. destruct (decide (j = i)) as [->|Hne]; [left; rewrite list_lookup_insert_eq in Hj by done; by injection Hj as <-|].
    right. by rewrite list_lookup_insert_ne in Hj by done. }
  split_and!; simpl.
  - intros a b q1 q2 k Ha Hb Hq1 Hq2. destruct (Hnew a q1 k Ha Hq1) as [[-> ->]|[Hai Ha']], (Hnew b q2 k Hb Hq2) as [[-> ->]|[Hbi Hb']]; [done|..].
    + destruct (Hown k Hq1) as [Ho|Hno]; [eapply Hu; eauto|]. exfalso. eapply Hno; eauto.
    + destruct (Hown k Hq2) as [Ho|Hno]; [eapply Hu; eauto|]. exfalso. eapply Hno; eauto.
    + eapply Hu; eauto.
  - intros k v Hk. destruct (Hw' k v Hk) as [Ho|[[v' Hv] Hno]]; [exists i, p'; by rewrite list_lookup_insert_eq|].
    destruct (Hw k v' Hv) as (j & q & Hj & Hq). exists j, q. rewrite list_lookup_insert_ne; [done|]. intros <-. congruence.
  - intros k v Hk. destruct (Ht' k v Hk) as [Ho|[[v' Hv] Hno]]; [exists i, p'; by rewrite list_lookup_insert_eq|].
    destruct (Ht k v' Hv) as (j & q & Hj & Hq). exists j, q. rewrite list_lookup_insert_ne; [done|]. intros <-. congruence.
Qed.

(** Another thread does not own what thread [i] owns. *)
Lemma others_not_own r ps i p k : owners (mkSys r ps) -> ps !! i = Some p -> owns p k ->
  forall j q, ps !! j = Some q -> j <> i -> ~ owns q k.
Proof. intros (Hu & _ & _) Hi Ho j q Hj Hne Hq. apply Hne. simpl in Hu. eapply (Hu j i q p k); eauto. Qed.

(** A thread's knowledge survives a step of another thread. *)
Lemma pcs_upd r ps i p r' p' :
  Forall (pc_ok r) ps -> ps !! i = Some p -> pc_ok r' p' ->
  (forall j q, ps !! j = Some q -> j <> i -> pc_ok r q -> pc_ok r' q) ->
  Forall (pc_ok r') (<[i := p']> ps).
Proof.
  intros Hall Hi Hp' Hkeep. apply Forall_lookup. intros j q Hj. destruct (decide (j = i)) as [->|Hne].
  - rewrite list_lookup_insert_eq in Hj by (by eapply lookup_lt_Some). by injection Hj as <-.
  - rewrite list_lookup_insert_ne in Hj by done. eapply Hkeep; eauto. by eapply Forall_lookup_1 in Hall.
Qed.

(** Steps that change nothing a thread relies on, and own nothing. *)
Lemma local_ok r ps i p p' r' :
  sys_ok (mkSys r ps) -> ps !! i = Some p ->
  seqs r' = seqs r -> datas r' = datas r -> r_head r' = r_head r -> r_tail r' = r_tail r -> hist r' = hist r -> dispatched r' = dispatched r ->
  pc_ok r p' -> (forall k, ~ owns p k) -> (forall k, ~ owns p' k) -> sys_ok (mkSys r' (<[i := p']> ps)).
Proof.
  intros (Hr & Hp & Ho) Hi E1 E2 E3 E4 E5 E6 Hp' Hno Hno'. simpl in *.
  assert (Hsame : forall q, pc_ok r q -> pc_ok r' q).
  { intros q. unfold pc_ok, count, free_at. destruct q; rewrite ?E1, ?E2, ?E3, ?E5, ?E6; done. }
  split_and!; simpl.
  - destruct Hr. unfold count in *. constructor; unfold count; rewrite ?E1, ?E2, ?E3, ?E4, ?E5, ?E6; done.
  - eapply pcs_upd; eauto.
  - eapply owners_upd; [done|done| | |].
    + intros k Hk. by destruct (Hno' k).
    + intros k v Hk. right. rewrite E5 in Hk. split; [eauto|]. intros Hk'. apply (Hno k). by left.
    + intros k v Hk. right. rewrite E5 in Hk. split; [eauto|]. intros Hk'. apply (Hno k). by right.
Qed.

Lemma not_own_solve p : (forall t pos, p <> SubData t pos) -> (forall t pos, p <> SubPub t pos) ->
  (forall pos, p <> DisData pos) -> (forall pos, p <> DisRel pos) -> forall k, ~ owns p k.
Proof. intros H1 H2 H3 H4 k [(t & [->| ->])|[->| ->]]; naive_solver. Qed.

Ltac not_own := apply not_own_solve; intros; discriminate.

(** ** The six steps that change the ring *)
Section actions.
Variables (r : Ring) (ps : list pc) (i : nat).
Hypothesis Hs : sys_ok (mkSys r ps).
Hypothesis Hlim : Z.of_nat (count r) < SUBMISSION_LIMIT.

Lemma phase_lookup pos ph k j : pos = Z.of_nat k ->
  hist (set_phase pos ph r) !! j = if decide (j = k) then (fun e => (e.1, ph)) <$> hist r !! k else hist r !! j.
Proof.
  intros ->. unfold set_phase. simpl. rewrite Nat2Z.id. destruct (decide (j = k)) as [->|Hne].
  - by rewrite list_lookup_alter_eq.
  - by rewrite list_lookup_alter_ne.
Qed.

(** A position that is not freed is among the last sixteen. *)
Lemma live_recent k v ph : hist r !! k = Some (v, ph) -> ph <> Freed -> (count r <= k + 16)%nat.
Proof.
  destruct Hs as (Hr & _). intros Hh Hne. destruct (decide (k + 16 < count r)%nat) as [Hlt|]; [|lia].
  exfalso. apply Hne. eapply (ok_old _ Hr); eauto.
Qed.

Lemma same_cell k j v ph w ph' : hist r !! k = Some (v, ph) -> ph <> Freed -> hist r !! j = Some (w, ph') ->
  (count r <= j + 16)%nat -> cell_of j = cell_of k -> j = k.
Proof.
  intros Hk Hne Hj Hn He. pose proof (live_recent k v ph Hk Hne). apply (cell_inj j k (count r)); try done; by eapply lookup_lt_Some.
Qed.

Lemma claim_keeps t k : ps !! i = Some (SubCas t (Z.of_nat k)) -> k = count r ->
  sys_ok (mkSys (upd hist (fun h => h ++ [(encode t, Writing)]) (set_field r_tail (wrap_add U64 (Z.of_nat k) 1) r))
    (<[i := SubData t (Z.of_nat k)]> ps)).
Proof.
  intros Hi Hk. destruct Hs as (Hr & Hp & Ho). simpl in *.
  pose proof (Forall_lookup_1 _ _ _ _ Hp Hi) as (k' & He & _ & Hfree). apply Nat2Z.inj in He as <-. specialize (Hfree Hk).
  assert (Hlook : forall j v ph, (hist r ++ [(encode t, Writing)]) !! j = Some (v, ph) ->
    hist r !! j = Some (v, ph) \/ j = k /\ v = encode t /\ ph = Writing).
  { intros j v ph Hj. apply lookup_app_Some in Hj as [?|[Hge Hj]]; [by left|right].
    apply list_lookup_singleton_Some in Hj as [Hz [= <- <-]]. unfold count in *. split; [lia|done]. }
  destruct Hr as [H1 H2 H3 H4 H5 H6 H7 H8 H9 H10 H11].
  assert (Hkeep : forall j v ph, hist r !! j = Some (v, ph) -> (hist r ++ [(encode t, Writing)]) !! j = Some (v, ph))
    by (intros; by apply lookup_app_l_Some).
  split_and!.
  - constructor; unfold count in *; simpl; rewrite ?length_app; simpl; try done.
    + unfold SUBMISSION_LIMIT in Hlim. rewrite wrap_add_small by lia. lia.
    + lia.
    + intros j v ph Hj. destruct (Hlook j v ph Hj) as [Hj'|(-> & -> & ->)]; [by apply H5 in Hj'|]. split; [lia|]. by intros [?|?].
    + intros j v ph Hj Hlt. destruct (Hlook j v ph Hj) as [Hj'|(-> & -> & ->)]; [|lia].
      destruct (decide (j + 16 < length (hist r))%nat); [by eapply H6|]. assert (j = k - 16)%nat as -> by lia.
      destruct Hfree as [|[w Hw]]; [lia|]. congruence.
    + intros j v ph Hj Hn. destruct (Hlook j v ph Hj) as [Hj'|(-> & -> & ->)]; [by apply H7; [|lia]|]. split; [|by intros [?|?]].
      simpl. destruct (decide (k < 16)%nat) as [Hsm|Hbig].
      * assert (cell_of k = k) as -> by (apply Nat.mod_small; lia). apply H8. unfold CELLS. lia.
      * destruct Hfree as [|[w Hw]]; [lia|].
        destruct (H7 _ _ _ Hw ltac:(lia)) as [Hs' _]. replace (cell_of k) with (cell_of (k - 16)).
        2:{ unfold cell_of. replace k with (k - 16 + 1 * 16)%nat at 2 by lia. by rewrite Nat.Div0.mod_add. }
        rewrite Hs'. simpl. f_equal. lia.
    + intros j Hj. apply H8. lia.
    + intros j v Hj. destruct (H9 j v Hj) as (ph & Hh & Hph). eauto.
    + intros j v Hj. destruct (Hlook j v Freed Hj) as [Hj'|(_ & _ & ?)]; [by apply H11|done].
  - eapply pcs_upd; eauto; simpl.
    + exists k. split; [done|]. rewrite lookup_app_r by (unfold count in *; lia). subst k. by rewrite Nat.sub_diag.
    + intros j q Hj Hne Hq. unfold pc_ok, count, free_at in *. simpl. rewrite length_app. simpl. destruct q; try done.
      * destruct Hq as (a & -> & Ha). exists a. split; [done|lia].
      * destruct Hq as (a & -> & Ha & _). exists a. split; [done|]. split; [lia|]. lia.
      * destruct Hq as (a & -> & Ha). eauto.
      * destruct Hq as (a & -> & Ha & Hd). eauto.
      * destruct Hq as (a & -> & Ha & Hd). exists a. split; [done|]. split; [done|]. intros E. destruct (Hd E) as [v Hv]. eauto.
      * destruct Hq as (a & v & -> & Ha & Hd). eauto 6.
      * destruct Hq as (a & v & -> & Ha & Hd). eauto 6.
  - eapply owners_upd; [exact Ho|done| | |]; simpl.
    + intros a Ha. right. intros j q Hj Hq. assert (a = k) as ->.
      { destruct Ha as [(t' & [[= -> Hz]|?])|[?|?]]; try done. by apply Nat2Z.inj in Hz. }
      pose proof (owns_bound r q k (Forall_lookup_1 _ _ _ _ Hp Hj) Hq). lia.
    + intros a v Ha. destruct (Hlook a v Writing Ha) as [Ha'|(-> & _)]; [right; split; [eauto|]|left; exists t; by left].
      intros (t' & [?|?]); done.
    + intros a v Ha. destruct (Hlook a v Taking Ha) as [Ha'|(_ & _ & ?)]; [right; split; [eauto|]|done]. by intros [?|?].
Qed.

Inductive next_phase : phase -> phase -> Prop :=
| np_publish : next_phase Writing Ready
| np_take : next_phase Ready Taking
| np_release : next_phase Taking Freed.

(** A position moves to its next phase. *)
Definition rephased (k : nat) (b : phase) : Ring :=
  set_phase (Z.of_nat k) b (set_field seqs (<[cell_of k := seq_of k b]> (seqs r))
    (set_field r_head (match b with Taking => Z.of_nat k + 1 | _ => r_head r end) r)).

Section rephase.
Variables (k : nat) (v : Z) (a b : phase).
Hypothesis Hk : hist r !! k = Some (v, a).
Hypothesis Hab : next_phase a b.
Hypothesis Hhead : b = Taking -> r_head r = Z.of_nat k.

Lemma rephased_lookup j : hist (rephased k b) !! j = if decide (j = k) then Some (v, b) else hist r !! j.
Proof.
  unfold rephased, set_phase. simpl. rewrite Nat2Z.id. destruct (decide (j = k)) as [->|Hne].
  - by rewrite list_lookup_alter_eq, Hk.
  - by rewrite list_lookup_alter_ne.
Qed.

Lemma rephased_count : count (rephased k b) = count r.
Proof. unfold count, rephased, set_phase. simpl. by rewrite length_alter. Qed.

Lemma rephased_head : r_head r <= r_head (rephased k b) /\
  forall j w ph, hist r !! j = Some (w, ph) -> j <> k -> Z.of_nat j < r_head (rephased k b) <-> Z.of_nat j < r_head r.
Proof. unfold rephased. simpl. destruct Hab; simpl; [by split|rewrite (Hhead eq_refl); split; [lia|intros; lia]|by split]. Qed.

Lemma rephase_ring : (b = Ready -> datas r !! cell_of k = Some v) -> (b = Freed -> (k, v) ∈ dispatched r) -> ring_ok (rephased k b).
Proof.
  intros Hdata Hfreed. destruct Hs as (Hr & _ & _). cbn [ring] in Hr. destruct rephased_head as [Hge Hsame]. pose proof rephased_lookup as Hl.
  pose proof (live_recent k v a Hk ltac:(by destruct Hab)) as Hrec. pose proof (lookup_lt_Some _ _ _ Hk) as Hkc.
  destruct Hr as [H1 H2 H3 H4 H5 H6 H7 H8 H9 H10 H11]. constructor; rewrite ?rephased_count; try done.
  - unfold rephased. simpl. by rewrite length_insert.
  - unfold rephased. simpl. destruct Hab; simpl; unfold count in *; lia.
  - intros j w ph. rewrite Hl. destruct (decide (j = k)) as [->|Hne].
    + intros [= <- <-]. specialize (H5 k v a Hk). unfold rephased. simpl. destruct Hab; simpl; simpl in H5.
      * split; [intros ?; exfalso; destruct (proj1 H5 H); done|by intros [?|?]].
      * split; [auto|lia].
      * split; [auto|]. intros _. apply H5. auto.
    + intros Hj. rewrite (Hsame j w ph Hj Hne). by apply (H5 j w ph).
  - intros j w ph. rewrite Hl. destruct (decide (j = k)) as [->|Hne]; [lia|]. apply H6.
  - intros j w ph. rewrite Hl. destruct (decide (j = k)) as [->|Hne].
    + intros [= <- <-] _. unfold rephased. simpl. rewrite list_lookup_insert_eq by (rewrite H1; apply cell_bound). split; [done|].
      intros Hb. destruct Hab; simpl in *; [by apply Hdata|apply (H7 k v Ready Hk Hrec); auto|by destruct Hb].
    + intros Hj Hn. destruct (H7 j w ph Hj Hn) as [Hseq Hd]. unfold rephased. simpl. split; [|done].
      rewrite list_lookup_insert_ne; [done|]. intros He. apply Hne. eapply same_cell; [exact Hk|by destruct Hab|exact Hj|done|done].
  - intros j Hj. unfold rephased. simpl. rewrite list_lookup_insert_ne; [by apply H8|].
    intros He. assert (cell_of k <= k)%nat by (unfold cell_of; apply Nat.Div0.mod_le). unfold count in *. lia.
  - intros j w Hj. rewrite Hl. destruct (H9 j w Hj) as (ph & Hh & Hph). destruct (decide (j = k)) as [->|Hne]; [|by exists ph].
    rewrite Hk in Hh. injection Hh as <- <-. exists b. split; [done|]. destruct Hab; auto. by destruct Hph.
  - intros j w. rewrite Hl. destruct (decide (j = k)) as [->|Hne]; [|apply H11]. intros [= <- ->]. by apply Hfreed.
Qed.

(** The other threads. *)
Lemma rephase_pc q : pc_ok r q -> ~ owns q k -> pc_ok (rephased k b) q.
Proof.
  intros Hq Hno. destruct rephased_head as [Hge Hsame]. pose proof rephased_lookup as Hl.
  assert (Hoth : forall j w ph, hist r !! j = Some (w, ph) -> j <> k -> hist (rephased k b) !! j = Some (w, ph)).
  { intros j w ph Hj Hne. rewrite Hl. by rewrite decide_False. }
  unfold pc_ok in *. destruct q; try done; rewrite ?rephased_count; try done.
  - destruct Hq as (c & -> & Hc & Hf). exists c. split; [done|]. split; [done|]. intros He. destruct (Hf He) as [?|[w Hw]]; [by left|].
    right. exists w. apply Hoth; [done|]. intros He'. rewrite He', Hk in Hw. injection Hw as _ Ha. rewrite Ha in Hab. inversion Hab.
  - destruct Hq as (c & -> & Hc). exists c. split; [done|]. apply Hoth; [done|]. intros ->. apply Hno. left. exists t. by left.
  - destruct Hq as (c & -> & Hc & Hd). exists c. split; [done|]. split; [|done]. apply Hoth; [done|]. intros ->. apply Hno. left. exists t. by right.
  - destruct Hq as (c & -> & Hc). exists c. split; [done|lia].
  - destruct Hq as (c & -> & Hc & Hd). exists c. split; [done|]. split; [lia|]. intros He.
    assert (Hhd : Z.of_nat c = r_head r) by lia. destruct (Hd Hhd) as [w Hw]. exists w. apply Hoth; [done|]. intros ->.
    rewrite Hk in Hw. injection Hw as _ Ha. assert (Hb : b = Taking) by (destruct Hab; done). rewrite Hb in He. unfold rephased in He. simpl in He. lia.
  - destruct Hq as (c & w & -> & Hc & Hd). exists c, w. split; [done|]. split; [|done]. apply Hoth; [done|]. intros ->. apply Hno. right. by left.
  - destruct Hq as (c & w & -> & Hc & Hd). exists c, w. split; [done|]. split; [|done]. apply Hoth; [done|]. intros ->. apply Hno. right. by right.
Qed.

Lemma rephase_ok p p' : ps !! i = Some p ->
  (b = Ready -> datas r !! cell_of k = Some v) -> (b = Freed -> (k, v) ∈ dispatched r) ->
  (forall x, owns p x -> x = k) -> (forall x, owns p' x -> x = k) ->
  (b = Ready -> owns_write p k /\ ~ owns p' k) -> (b = Taking -> ~ owns p k /\ owns_take p' k) -> (b = Freed -> owns_take p k /\ ~ owns p' k) ->
  pc_ok (rephased k b) p' -> sys_ok (mkSys (rephased k b) (<[i := p']> ps)).
Proof.
  intros Hi Hd Hf Hop Hop' HR HT HF Hp'. destruct Hs as (Hr & Hp & Ho). simpl in *.
  assert (Hoth : forall j q, ps !! j = Some q -> j <> i -> ~ owns q k).
  { intros j q Hj Hne Hq. pose proof (Forall_lookup_1 _ _ _ _ Hp Hj) as Hqok. destruct Hab.
    - eapply others_not_own; [exact Ho|exact Hi|left; by apply HR|eauto..].
    - destruct Hq as [Hq|Hq]; [destruct (owns_write_phase _ _ _ Hqok Hq)|destruct (owns_take_phase _ _ _ Hqok Hq)]; congruence.
    - eapply others_not_own; [exact Ho|exact Hi|right; by apply HF|eauto..]. }
  split_and!; simpl; [by apply rephase_ring|eapply pcs_upd; eauto using rephase_pc|].
  eapply owners_upd; [exact Ho|exact Hi| | |].
  - intros x Hx. destruct (Hop' x Hx). destruct Hab; [by destruct HR|right|by destruct HF].
    intros j q Hj. destruct (decide (j = i)) as [->|Hne]; [|by eapply Hoth]. rewrite Hi in Hj. injection Hj as <-. by apply HT.
  - intros x w. rewrite rephased_lookup. destruct (decide (x = k)) as [->|Hne]; [by intros [= _ ->]; inversion Hab|].
    intros Hx. right. split; [eauto|]. intros Hw. apply Hne, Hop. by left.
  - intros x w. rewrite rephased_lookup. destruct (decide (x = k)) as [->|Hne]; [intros [= _ ->]; left; by apply HT|].
    intros Hx. right. split; [eauto|]. intros Hw. apply Hne, Hop. by right.
Qed.
End rephase.

(** The claimed cell is filled. *)
Lemma data_ok t k : ps !! i = Some (SubData t (Z.of_nat k)) ->
  sys_ok (mkSys (upd datas <[cell_of k := encode t]> r) (<[i := SubPub t (Z.of_nat k)]> ps)).
Proof.
  intros Hi. pose proof Hs as (Hr & Hp & Ho). simpl in *.
  pose proof (Forall_lookup_1 _ _ _ _ Hp Hi) as (k' & He & Hk). apply Nat2Z.inj in He as <-.
  assert (Hown : owns (SubData t (Z.of_nat k)) k) by (left; exists t; by left).
  split_and!; simpl.
  - destruct Hr as [H1 H2 H3 H4 H5 H6 H7 H8 H9 H10 H11]. constructor; try done; simpl; [by rewrite length_insert|].
    intros j v ph Hj Hn. destruct (H7 j v ph Hj Hn) as [Hq Hd]. split; [done|]. intros Hph. rewrite list_lookup_insert_ne; [by apply Hd|].
    intros Hc. assert (j = k) as -> by (eapply same_cell; [exact Hk|done|exact Hj|done..]). rewrite Hk in Hj. injection Hj as <- <-. by destruct Hph.
  - eapply pcs_upd; [done|exact Hi| |].
    + exists k. split; [done|]. split; [done|]. simpl. apply list_lookup_insert_eq. rewrite (ok_datas _ Hr). apply cell_bound.
    + intros j q Hj Hne Hq. unfold pc_ok in *. destruct q; try done. destruct Hq as (c & -> & Hc & Hd). exists c. split; [done|]. split; [done|].
      simpl. rewrite list_lookup_insert_ne; [done|]. intros Hcell.
      assert (c = k) as ->. { eapply same_cell; [exact Hk|done|exact Hc| |done]. by eapply live_recent. }
      eapply (others_not_own r ps i _ k Ho Hi Hown j); eauto. left. exists t0. by right.
  - eapply owners_upd; [exact Ho|exact Hi| | |]; simpl.
    + intros x [(t' & [?|[= -> Hz]])|[?|?]]; try done. left. left. exists t'. left. by rewrite Hz.
    + intros x v Hx. destruct (decide (x = k)) as [->|Hne]; [left; exists t; by right|right]. split; [eauto|].
      intros (t' & [[= _ Hz]|?]); [apply Nat2Z.inj in Hz; congruence|done].
    + intros x v Hx. right. split; [eauto|]. by intros [?|?].
Qed.

(** The taken task is read. *)
Lemma read_ok k : ps !! i = Some (DisData (Z.of_nat k)) ->
  sys_ok (mkSys (upd dispatched (fun d => d ++ [(k, data_at r (Z.of_nat k))]) r) (<[i := DisRel (Z.of_nat k)]> ps)).
Proof.
  intros Hi. pose proof Hs as (Hr & Hp & Ho). simpl in *.
  pose proof (Forall_lookup_1 _ _ _ _ Hp Hi) as (k' & v & He & Hk & Hnew). apply Nat2Z.inj in He as <-.
  assert (Hown : owns (DisData (Z.of_nat k)) k) by (right; by left).
  assert (Hdat : data_at r (Z.of_nat k) = v).
  { unfold data_at. rewrite cell_index_nat. destruct (ok_cell _ Hr k v Taking Hk) as [_ Hd]; [by eapply live_recent|]. by rewrite Hd by auto. }
  rewrite Hdat. split_and!; simpl.
  - destruct Hr as [H1 H2 H3 H4 H5 H6 H7 H8 H9 H10 H11]. constructor; try done; simpl.
    + intros j w [Hj|[= -> ->]%list_elem_of_singleton]%elem_of_app; [by apply H9|]. exists Taking. auto.
    + rewrite fmap_app. apply list.NoDup_app. split; [done|]. split; [|apply NoDup_singleton]. intros x Hx ->%list_elem_of_singleton. done.
    + intros j w Hj. apply elem_of_app. left. by apply H11.
  - eapply pcs_upd; [done|exact Hi| |].
    + exists k, v. split; [done|]. split; [done|]. simpl. apply elem_of_app. right. by apply list_elem_of_singleton.
    + intros j q Hj Hne Hq. unfold pc_ok in *. destruct q; try done.
      * destruct Hq as (c & w & -> & Hc & Hd). exists c, w. split; [done|]. split; [done|]. simpl. rewrite fmap_app, elem_of_app.
        intros [?|Hin%list_elem_of_singleton]; [done|]. simpl in Hin. subst c.
        eapply (others_not_own r ps i _ k Ho Hi Hown j); eauto; right; by left.
      * destruct Hq as (c & w & -> & Hc & Hd). exists c, w. split; [done|]. split; [done|]. simpl. apply elem_of_app. by left.
  - eapply owners_upd; [exact Ho|exact Hi| | |]; simpl.
    + intros x [(t' & [?|?])|[?|[= Hz]]]; try done. left. right. left. by rewrite Hz.
    + intros x w Hx. right. split; [eauto|]. by intros (t' & [?|?]).
    + intros x w Hx. destruct (decide (x = k)) as [->|Hne]; [left; by right|right]. split; [eauto|].
      intros [[= Hz]|?]; [apply Nat2Z.inj in Hz; congruence|done].
Qed.
End actions.

(** ** Every step keeps the invariant *)
Lemma owns_at p k x : (exists t, p = SubData t (Z.of_nat k) \/ p = SubPub t (Z.of_nat k)) \/ p = DisData (Z.of_nat k) \/ p = DisRel (Z.of_nat k) ->
  owns p x -> x = k.
Proof.
  intros Hp Ho. destruct Hp as [(t & [->| ->])|[->| ->]], Ho as [(t' & [[= _ Hz]|[= _ Hz]])|[[= Hz]|[= Hz]]]; try done; by apply Nat2Z.inj in Hz.
Qed.

Lemma ring_eta_eq r : mkRing (seqs r) (datas r) (r_head r) (r_tail r) (next_id r) (hist r) (dispatched r) = r.
Proof. by destruct r. Qed.

Lemma publish_ok r ps i t k : sys_ok (mkSys r ps) -> Z.of_nat (count r) < SUBMISSION_LIMIT -> ps !! i = Some (SubPub t (Z.of_nat k)) ->
  sys_ok (mkSys (set_phase (Z.of_nat k) Ready (set_seq (Z.of_nat k) (wrap_add U64 (Z.of_nat k) 1) r)) (<[i := Idle (Accepted (t_id t))]> ps)).
Proof.
  intros Hs Hlim Hi. pose proof Hs as (Hr & Hp & Ho). simpl in *.
  pose proof (Forall_lookup_1 _ _ _ _ Hp Hi) as (k' & He & Hk & Hd). apply Nat2Z.inj in He as <-.
  pose proof (lookup_lt_Some _ _ _ Hk) as Hlt. unfold SUBMISSION_LIMIT, count in Hlim.
  assert (E : set_phase (Z.of_nat k) Ready (set_seq (Z.of_nat k) (wrap_add U64 (Z.of_nat k) 1) r) = rephased r k Ready).
  { unfold rephased, set_seq. simpl. by rewrite cell_index_nat, wrap_add_small, ?ring_eta_eq by lia. }
  rewrite E. eapply (rephase_ok r ps i Hs k _ Writing Ready Hk np_publish); [done|exact Hi|..]; try done.
  - intros x. apply owns_at. eauto.
  - intros x Hx. exfalso. revert Hx. not_own.
  - intros _. split; [exists t; by right|not_own].
Qed.

Lemma take_ok r ps i k : sys_ok (mkSys r ps) -> Z.of_nat (count r) < SUBMISSION_LIMIT -> ps !! i = Some (DisCas (Z.of_nat k)) ->
  r_head r = Z.of_nat k ->
  sys_ok (mkSys (set_phase (Z.of_nat k) Taking (set_field r_head (wrap_add U64 (Z.of_nat k) 1) r)) (<[i := DisData (Z.of_nat k)]> ps)).
Proof.
  intros Hs Hlim Hi Hhd. pose proof Hs as (Hr & Hp & Ho). simpl in Hr, Hp.
  pose proof (Forall_lookup_1 _ _ _ _ Hp Hi) as (k' & He & _ & Hk). apply Nat2Z.inj in He as <-. destruct (Hk ltac:(lia)) as [v Hv].
  pose proof (lookup_lt_Some _ _ _ Hv) as Hlt. pose proof Hlim as Hlim'. unfold SUBMISSION_LIMIT, count in Hlim'.
  destruct (ok_cell _ Hr k v Ready Hv) as [Hseq _]; [eapply (live_recent r ps Hs); eauto|].
  assert (E : set_phase (Z.of_nat k) Taking (set_field r_head (wrap_add U64 (Z.of_nat k) 1) r) = rephased r k Taking).
  { unfold rephased. simpl. rewrite wrap_add_small by lia. rewrite list_insert_id by exact Hseq. done. }
  rewrite E. eapply (rephase_ok r ps i Hs k v Ready Taking Hv np_take); [by intros _|exact Hi|..]; try done.
  - intros x Hx. exfalso. revert Hx. not_own.
  - intros x. apply owns_at. auto.
  - intros _. split; [not_own|by left].
  - exists k, v. split; [done|]. rewrite (rephased_lookup r k v Ready Taking Hv), decide_True by done. split; [done|].
    simpl. intros ([k1 w] & -> & Hin)%list_elem_of_fmap. destruct (ok_sent _ Hr k1 w Hin) as (ph & Hh & Hph). simpl in *. rewrite Hv in Hh.
    injection Hh as <- <-. by destruct Hph.
Qed.

Lemma release_ok r ps i k : sys_ok (mkSys r ps) -> Z.of_nat (count r) < SUBMISSION_LIMIT -> ps !! i = Some (DisRel (Z.of_nat k)) ->
  sys_ok (mkSys (set_phase (Z.of_nat k) Freed (set_seq (Z.of_nat k) (wrap_add U64 (Z.of_nat k) 16) r))
    (<[i := DisSeq (wrap_add U64 (Z.of_nat k) 1)]> ps)).
Proof.
  intros Hs Hlim Hi. pose proof Hs as (Hr & Hp & Ho). simpl in Hr, Hp.
  pose proof (Forall_lookup_1 _ _ _ _ Hp Hi) as (k' & v & He & Hk & Hd). apply Nat2Z.inj in He as <-.
  pose proof (lookup_lt_Some _ _ _ Hk) as Hlt. pose proof Hlim as Hlim'. unfold SUBMISSION_LIMIT, count in Hlim'.
  assert (E : set_phase (Z.of_nat k) Freed (set_seq (Z.of_nat k) (wrap_add U64 (Z.of_nat k) 16) r) = rephased r k Freed).
  { unfold rephased, set_seq. simpl. by rewrite cell_index_nat, wrap_add_small, ?ring_eta_eq by lia. }
  rewrite E. eapply (rephase_ok r ps i Hs k v Taking Freed Hk np_release); [done|exact Hi|..]; try done.
  - intros x. apply owns_at. auto.
  - intros x Hx. exfalso. revert Hx. not_own.
  - intros _. split; [by right|not_own].
  - exists (S k). rewrite wrap_add_small by lia. split; [lia|]. unfold rephased. simpl.
    pose proof (proj2 (ok_before _ Hr k v Taking Hk) ltac:(auto)). lia.
Qed.


(** ** What a thread learns from a sequence number *)
Lemma sub_seq_ok r t k : ring_ok r -> Z.of_nat (count r) < SUBMISSION_LIMIT -> (k <= count r)%nat ->
  match snd (advance Dispatch false r (SubSeq t (Z.of_nat k))) with
  | Idle QueueFull => k = count r /\ ~ free_at r k
  | SubCas t' pos => t' = t /\ pos = Z.of_nat k /\ (k = count r -> free_at r k)
  | SubLoad _ => k <> count r
  | _ => False
  end.
Proof.
  intros Hr Hlim Hk. simpl. unfold SUBMISSION_LIMIT in Hlim. destruct (decide (k = count r)) as [->|Hne].
  - destruct (seq_at_tail r Hr) as (s & -> & Hb & Hfree). rewrite dif_small by lia.
    destruct (Z.eqb_spec (s - Z.of_nat (count r)) 0); [repeat split; try done; intros _; apply Hfree; lia|].
    destruct (Z.ltb_spec (s - Z.of_nat (count r)) 0); [|lia]. split; [done|]. intros Hx. apply Hfree in Hx. lia.
  - destruct (seq_at_old r Hr k ltac:(lia)) as (s & -> & Hb). rewrite dif_small by lia. repeat bdestruct_if; try lia; done.
Qed.

Lemma dis_seq_ok r k : ring_ok r -> Z.of_nat (count r) < SUBMISSION_LIMIT -> Z.of_nat k <= r_head r ->
  match snd (advance Dispatch false r (DisSeq (Z.of_nat k))) with
  | Idle Drained => Z.of_nat k = r_head r -> ~ exists v, hist r !! k = Some (v, Ready)
  | DisCas pos => pos = Z.of_nat k /\ (Z.of_nat k = r_head r -> exists v, hist r !! k = Some (v, Ready))
  | DisLoad => True
  | _ => False
  end.
Proof.
  intros Hr Hlim Hk. pose proof (ok_head r Hr). simpl. unfold SUBMISSION_LIMIT in Hlim. rewrite (wrap_add_small _ 1) by lia.
  destruct (decide (Z.of_nat k = r_head r)) as [He|Hne].
  - destruct (seq_at_head r Hr k He) as (s & Hs & Hb & Hready). rewrite Hs, dif_small by lia.
    destruct (Z.eqb_spec (s - (Z.of_nat k + 1)) 0); [split; [done|]; intros _; apply Hready; lia|].
    destruct (Z.ltb_spec (s - (Z.of_nat k + 1)) 0); [|done].
    intros _ [v Hv]. destruct (ok_cell r Hr k v Ready Hv) as [Hseq _].
    { destruct (decide (k + 16 < count r)%nat) as [Hlt|]; [|lia]. by pose proof (ok_old r Hr k v Ready Hv Hlt). }
    unfold seq_at in Hs. rewrite cell_index_nat, Hseq in Hs. simpl in Hs. lia.
  - destruct (seq_at_old r Hr k ltac:(lia)) as (s & -> & Hb). rewrite dif_small by lia. repeat bdestruct_if; done.
Qed.

Lemma advance_keeps r ps i p c b r' p' : sys_ok (mkSys r ps) -> Z.of_nat (count r) < SUBMISSION_LIMIT -> ps !! i = Some p ->
  advance c b r p = (r', p') -> sys_ok (mkSys r' (<[i := p']> ps)).
Proof.
  intros Hs Hlim Hi Ha. pose proof Hs as (Hr & Hp & _). simpl in Hr, Hp. pose proof (Forall_lookup_1 _ _ _ _ Hp Hi) as Hpc.
  destruct p; simpl in Ha.
  - destruct c; injection Ha as <- <-; (eapply local_ok; [exact Hs|exact Hi|try done..|not_own|not_own]).
  - injection Ha as <- <-. eapply local_ok; [exact Hs|exact Hi|try done..|not_own|not_own]. exists (count r). by rewrite (ok_tail _ Hr).
  - destruct Hpc as (k & -> & Hk). pose proof (sub_seq_ok r t k Hr Hlim Hk) as Hq. simpl in Hq. injection Ha as <- <-.
    destruct (as_i64 _ =? 0); [|destruct (as_i64 _ <? 0)]; (eapply local_ok; [exact Hs|exact Hi|try done..|not_own|not_own]).
    destruct Hq as (_ & _ & Hq). exists k. auto.
  - destruct Hpc as (k & -> & Hk & Hf). destruct ((r_tail r =? Z.of_nat k) && negb b) eqn:Hc; injection Ha as <- <-.
    + bool_prop. apply claim_keeps; try done. rewrite (ok_tail _ Hr) in H. lia.
    + eapply local_ok; [exact Hs|exact Hi|try done..|not_own|not_own]. exists (count r). by rewrite (ok_tail _ Hr).
  - pose proof Hpc as (k & -> & _). rewrite cell_index_nat in Ha. injection Ha as <- <-. by apply data_ok.
  - pose proof Hpc as (k & -> & _). injection Ha as <- <-. by apply publish_ok.
  - injection Ha as <- <-. eapply local_ok; [exact Hs|exact Hi|try done..|not_own|not_own]. pose proof (ok_head _ Hr).
    exists (Z.to_nat (r_head r)). split; lia.
  - destruct Hpc as (k & -> & Hk). pose proof (dis_seq_ok r k Hr Hlim Hk) as Hq. simpl in Hq. injection Ha as <- <-.
    destruct (as_i64 _ =? 0); [|destruct (as_i64 _ <? 0)]; (eapply local_ok; [exact Hs|exact Hi|try done..|not_own|not_own]).
    destruct Hq as (_ & Hq). exists k. auto.
  - destruct Hpc as (k & -> & Hk & Hf). destruct ((r_head r =? Z.of_nat k) && negb b) eqn:Hc; injection Ha as <- <-.
    + bool_prop. by apply take_ok.
    + eapply local_ok; [exact Hs|exact Hi|try done..|not_own|not_own]. pose proof (ok_head _ Hr). exists (Z.to_nat (r_head r)). split; lia.
  - pose proof Hpc as (k & v & -> & _). rewrite Nat2Z.id in Ha. injection Ha as <- <-. by apply read_ok.
  - pose proof Hpc as (k & v & -> & _). injection Ha as <- <-. by apply release_ok.
Qed.

Lemma init_ok n : sys_ok (mkSys ring_new (replicate n (Idle NoCall))).
Proof.
  split_and!; simpl.
  - constructor; try done; simpl; try (intros; apply elem_of_nil in H; done); [|constructor].
    intros j [_ Hj]. unfold CELLS in *. do 16 (destruct j; [done|]). lia.
  - apply Forall_replicate. done.
  - split_and!; simpl; try done. intros i j p q k Hi _ Ho. apply lookup_replicate in Hi as [-> _]. exfalso. revert Ho. not_own.
Qed.

Lemma step_count s s' : step s s' -> (count (ring s) <= count (ring s'))%nat.
Proof.
  destruct 1 as [r ps i p c b r' p' Hi Ha]. simpl. unfold count.
  destruct p; simpl in Ha; repeat (case_match; simplify_eq/=); simplify_eq/=; rewrite ?length_app, ?length_alter; simpl; lia.
Qed.

Lemma reachable_ok n s : reachable n s -> Z.of_nat (count (ring s)) < SUBMISSION_LIMIT -> sys_ok s.
Proof.
  induction 1 as [|s s' Hreach IH Hstep]; intros Hlim; [apply init_ok|]. pose proof (step_count _ _ Hstep) as Hmono.
  specialize (IH ltac:(lia)). destruct Hstep as [r ps i p c b r' p' Hi Ha]. eapply advance_keeps; eauto. simpl in Hmono, Hlim. lia.
Qed.

Lemma run_reachable n schedule : forall s, reachable n s -> reachable n (run schedule s).
Proof.
  induction schedule as [|[[i c] b] rest IH]; intros s Hs; simpl; [done|]. destruct (pcs s !! i) as [p|] eqn:Hi; [|auto].
  destruct (advance c b (ring s) p) as [r' p'] eqn:Ha. apply IH. eapply reach_step; [exact Hs|]. destruct s. by econstructor.
Qed.

(** * Theorems *)

Definition idle (p : pc) : Prop := exists last, p = Idle last.

(** C22: the queue is a bounded first-in first-out queue under every interleaving
    of any number of submitters and takers. At most sixteen positions are in use;
    what is read at a position is the task that claimed it, each position is read at
    most once and the positions read are below the head; when every thread has
    returned, the positions read are exactly those below the head and every other
    accepted task is waiting. A submission is refused only while the position
    sixteen before the next one is not free, and a taker gives up at the head only
    when no finished task is there. (For fewer than [2^62] submissions: the
    counters do not wrap.) *)
Theorem hsched_queue (n : nat) (s : Sys) (Hreach : reachable n s) (Hlim : Z.of_nat (count (ring s)) < SUBMISSION_LIMIT) :
  let r := ring s in
  r_tail r = Z.of_nat (count r) /\ 0 <= r_head r <= r_tail r /\
  (forall k v ph, hist r !! k = Some (v, ph) -> Z.of_nat k + 16 < r_tail r -> (k, v) ∈ dispatched r) /\
  NoDup (dispatched r).*1 /\
  (forall k v, (k, v) ∈ dispatched r -> fst <$> hist r !! k = Some v /\ Z.of_nat k < r_head r) /\
  (Forall idle (pcs s) -> forall k v ph, hist r !! k = Some (v, ph) ->
     if decide (Z.of_nat k < r_head r) then (k, v) ∈ dispatched r else ph = Ready) /\
  (forall i t pos c b, pcs s !! i = Some (SubSeq t pos) -> snd (advance c b r (SubSeq t pos)) = Idle QueueFull ->
     exists k v ph, Z.of_nat k + 16 = r_tail r /\ hist r !! k = Some (v, ph) /\ ph <> Freed) /\
  (forall i c b, pcs s !! i = Some (DisSeq (r_head r)) -> snd (advance c b r (DisSeq (r_head r))) = Idle Drained ->
     forall v, hist r !! Z.to_nat (r_head r) <> Some (v, Ready)).
Proof.
  destruct (reachable_ok n s Hreach Hlim) as (Hr & Hp & _ & Hw & Ht). cbv zeta. pose proof (ok_tail _ Hr) as Htail.
  split; [done|]. split; [rewrite Htail; apply (ok_head _ Hr)|]. split_and!.
  - intros k v ph Hk Hlt. pose proof (ok_old _ Hr k v ph Hk ltac:(lia)) as ->. by apply (ok_freed _ Hr).
  - apply (ok_once _ Hr).
  - intros k v Hin. destruct (ok_sent _ Hr k v Hin) as (ph & Hk & Hph). rewrite Hk. split; [done|]. by apply (ok_before _ Hr k v ph Hk).
  - intros Hidle k v ph Hk.
    assert (Hno : forall i p, pcs s !! i = Some p -> forall x, ~ owns p x).
    { intros i p Hi x. destruct (Forall_lookup_1 _ _ _ _ Hidle Hi) as [l ->]. not_own. }
    assert (Hph : ph = Ready \/ ph = Freed).
    { destruct ph; auto; [destruct (Hw k v Hk) as (i & p & Hi & Ho)|destruct (Ht k v Hk) as (i & p & Hi & Ho)]; exfalso; eapply (Hno i p Hi k); [by left|by right]. }
    pose proof (ok_before _ Hr k v ph Hk) as Hb. case_decide as Hlt.
    + destruct Hph as [->| ->]; [by destruct (proj1 Hb Hlt)|by apply (ok_freed _ Hr)].
    + destruct Hph as [->| ->]; [done|]. exfalso. apply Hlt, Hb. auto.
  - intros i t pos c b Hi Hfull. destruct (Forall_lookup_1 _ _ _ _ Hp Hi) as (k & -> & Hk).
    pose proof (sub_seq_ok (ring s) t k Hr Hlim Hk) as Hq. simpl in Hq, Hfull. rewrite Hfull in Hq. destruct Hq as [-> Hnf].
    destruct (decide (count (ring s) < 16)%nat) as [|Hge]; [exfalso; apply Hnf; by left|].
    destruct (lookup_lt_is_Some_2 (hist (ring s)) (count (ring s) - 16)%nat) as [[v ph] Hh]; [unfold count in *; lia|].
    exists (count (ring s) - 16)%nat, v, ph. split; [lia|]. split; [done|]. intros ->. apply Hnf. right. eauto.
  - intros i c b Hi Hd v Hv. pose proof (ok_head _ Hr) as Hhd. replace (r_head (ring s)) with (Z.of_nat (Z.to_nat (r_head (ring s)))) in Hd by lia.
    pose proof (dis_seq_ok (ring s) (Z.to_nat (r_head (ring s))) Hr Hlim ltac:(lia)) as Hq. simpl in Hq, Hd. rewrite Hd in Hq.
    apply Hq; [lia|eauto].
Qed.

(** Two submitters and a taker, interleaved. *)
Definition demo_schedule : list (nat * command * bool) :=
  (fun i => (i, if decide (i = 2)%nat then Dispatch else Submit GpuCompute, false)) <$>
    [0; 1; 0; 1; 0; 1; 0; 1; 1; 1; 0; 1; 1; 0; 1; 2; 2; 2; 2; 2; 2; 2; 2; 2; 2; 2; 2]%nat.
Definition demo_sys : Sys := run demo_schedule (mkSys ring_new (replicate 3 (Idle NoCall))).

Lemma hsched_queue_witness :
  dispatched (ring demo_sys) = [(0%nat, encode (mkTask 1 1)); (1%nat, encode (mkTask 2 1))] /\
  r_tail (ring demo_sys) = Z.of_nat (count (ring demo_sys)) /\ NoDup (dispatched (ring demo_sys)).*1.
Proof.
  split; [vm_compute; reflexivity|].
  destruct (hsched_queue 3 demo_sys) as (H1 & _ & _ & H2 & _); [apply run_reachable; constructor|vm_compute; reflexivity|]. by split.
Defined.

(** A task survives its encoding. *)
Lemma decode_encode t : 0 <= t_id t < U32 -> 0 <= t_target t < U8 -> decode (encode t) = Some t.
Proof.
  intros Hi Ht. destruct t as [a g]. unfold decode, encode, VALID_BIT, cast in *. simpl in *.
  assert (Ha : Z.shiftr a 32 = 0) by (rewrite Z.shiftr_div_pow2 by lia; apply Z.div_small; lia).
  assert (Hbit : forall j, 32 <= j -> Z.testbit a j = false).
  { intros j Hj. replace j with (j - 32 + 32) by lia. rewrite <- Z.shiftr_spec by lia. rewrite Ha. apply Z.bits_0. }
  assert (Hg : forall j, 8 <= j -> Z.testbit g j = false).
  { intros j Hj. assert (Hs : Z.shiftr g 8 = 0) by (rewrite Z.shiftr_div_pow2 by lia; apply Z.div_small; lia).
    replace j with (j - 8 + 8) by lia. rewrite <- Z.shiftr_spec by lia. rewrite Hs. apply Z.bits_0. }
  destruct (Z.eqb_spec (Z.land (Z.lor (Z.lor (Z.shiftl 1 63) (Z.shiftl g 32)) a) (Z.shiftl 1 63)) 0) as [Hz|_].
  { exfalso. apply (f_equal (fun z => Z.testbit z 63)) in Hz. revert Hz.
    rewrite Z.land_spec, !Z.lor_spec, Z.bits_0. change (Z.testbit (Z.shiftl 1 63) 63) with true. simpl. discriminate. }
  do 2 f_equal.
  - rewrite <- (Z.mod_small a U32) at 2 by lia. f_equal. change 0xFFFFFFFF with (Z.ones 32). rewrite Z.land_ones by lia.
    rewrite <- (Z.mod_small a (2 ^ 32)) at 2 by lia. apply Z.bits_inj'. intros j Hj.
    destruct (decide (j < 32)); [rewrite !Z.mod_pow2_bits_low by lia|by rewrite !Z.mod_pow2_bits_high by lia].
    rewrite !Z.lor_spec, (Z.shiftl_spec_low g), (Z.shiftl_spec_low 1) by lia. done.
  - rewrite <- (Z.mod_small g U8) at 2 by lia. f_equal. change 0xFF with (Z.ones 8). rewrite Z.land_ones by lia.
    rewrite <- (Z.mod_small g (2 ^ 8)) at 2 by lia. apply Z.bits_inj'. intros j Hj.
    destruct (decide (j < 8)); [rewrite !Z.mod_pow2_bits_low by lia|by rewrite !Z.mod_pow2_bits_high by lia].
    rewrite Z.shiftr_spec, !Z.lor_spec, (Z.shiftl_spec_low 1), (Z.shiftl_spec g), Hbit by lia. rewrite orb_false_r. simpl. f_equal. lia.
Qed.
