(* ===== verification/Paging.v ===== *)
(** * Page tables of the kernel and of processes: [kernel/src/arch/x86_64/early_map.rs]

    Physical memory is the map of 8-byte words of [Vmm], as seen through the direct
    map at [hhdm]; [cr3] is the register the code reads. Invalidating a page of the
    translation buffer has no effect on the tables and is left out. *)
From stdpp Require Import base list numbers option gmap.
From Stdlib Require Import ZArith Lia Bool.
From S2P Require Import Prelude Frame Vmm.

Definition FLAG_WRITE_THROUGH : Z := 8.
Definition FLAG_CACHE_DISABLE : Z := 16.
Definition FLAG_USER_ACCESSIBLE : Z := 4.
Definition FLAG_WRITABLE : Z := 2.
Definition FLAG_GLOBAL : Z := 256.
Definition PAGE_PRESENT : Z := 1.
Definition PAGE_WRITABLE : Z := 2.
Definition PAGE_USER : Z := 4.
Definition PAGE_HUGE : Z := 128.
Definition PAGE_ADDRESS_MASK : Z := 0x000ffffffffff000.
Definition ENTRIES_PER_TABLE : Z := 512.
Definition KERNEL_HIGHER_HALF_START : Z := 256.

Inductive MapError : Type := AddressOverflow | PageTableAllocationFailed.
Inductive NextTable : Type := NTable (table : Z) | NHugePage.

Record Paging : Type := mkPaging { pg_frames : FrameAllocator; pg_words : gmap Z Z }.
#[export] Instance Paging_eta : RecordEta Paging := fun p => mkPaging (pg_frames p) (pg_words p).

Definition page_table_index (address shift : Z) : Z := Z.land (Z.shiftr address shift) 0x1ff.
Definition word_at {E} (ptr : Z) : M Paging E Z := gets (fun s => load (pg_words s) ptr).
Definition write_word {E} (ptr v : Z) : M Paging E unit := modify (upd pg_words <[ptr := v]>).
Definition zero_table {E} (table : Z) : M Paging E unit := modify (upd pg_words (zero_bytes table)).
Definition chk_off (a b : Z) : outcome MapError Z := ok_or AddressOverflow (chk_add U64 a b).
Definition new_frame : M Paging MapError Z :=
  let! f := zoom pg_frames (fun t s => set_field pg_frames t s) allocate in
  lift (ok_or PageTableAllocationFailed (start_address <$> f)).

(** The entry of a table, followed, or created with [flags] when it is absent. *)
Definition follow (flags table index hhdm : Z) : M Paging MapError NextTable :=
  let entry_ptr := table + 8 * index in
  let! entry := word_at entry_ptr in
  if Z.land entry PAGE_PRESENT =? 0 then
    let! frame := new_frame in
    let! table_virtual := lift (chk_off hhdm frame) in
    do! zero_table table_virtual in
    do! write_word entry_ptr (Z.lor frame flags) in
    ret (NTable table_virtual)
  else if negb (Z.land entry PAGE_HUGE =? 0) then ret NHugePage
  else let! t := lift (chk_off hhdm (Z.land entry PAGE_ADDRESS_MASK)) in ret (NTable t).

Definition next_table : Z -> Z -> Z -> M Paging MapError NextTable := follow (Z.lor PAGE_PRESENT PAGE_WRITABLE).
Definition next_table_user : Z -> Z -> Z -> M Paging MapError NextTable := follow (Z.lor (Z.lor PAGE_PRESENT PAGE_WRITABLE) PAGE_USER).

(** The three upper levels: the address of the entry for the page, or [None] at a huge page. *)
Definition page_entry (next : Z -> Z -> Z -> M Paging MapError NextTable) (pml4 va hhdm : Z) : M Paging MapError (option Z) :=
  let! t := next pml4 (page_table_index va 39) hhdm in
  match t with
  | NHugePage => ret None
  | NTable pdpt =>
      let! t := next pdpt (page_table_index va 30) hhdm in
      match t with
      | NHugePage => ret None
      | NTable pd =>
          let! t := next pd (page_table_index va 21) hhdm in
          match t with
          | NHugePage => ret None
          | NTable pt => ret (Some (pt + 8 * page_table_index va 12))
          end
      end
  end.

Definition map_kernel_page (hhdm pml4_phys va pa flags : Z) : M Paging MapError unit :=
  let! pml4 := lift (chk_off hhdm pml4_phys) in
  let! slot := page_entry next_table pml4 va hhdm in
  match slot with
  | None => ret tt
  | Some pte =>
      let! entry := word_at pte in
      if Z.land entry PAGE_PRESENT =? 0
      then write_word pte (Z.lor (Z.lor (Z.lor (Z.lor (Z.land pa PAGE_ADDRESS_MASK) PAGE_PRESENT) PAGE_WRITABLE) flags) FLAG_GLOBAL)
      else ret tt
  end.

(** [ensure_page_mapping] maps the page of the direct map at [pa]. *)
Definition ensure_page_mapping (cr3 hhdm pa extra_flags : Z) : M Paging MapError unit :=
  let! va := lift (chk_off hhdm pa) in
  map_kernel_page hhdm (Z.land cr3 PAGE_ADDRESS_MASK) va pa extra_flags.

Definition page_down (a : Z) : Z := Z.land a (bitnot U64 0xfff).

(** One page per iteration: as many iterations as the range has pages are enough. *)
Definition pages_between (first last : Z) : nat := S (Z.to_nat ((last - first) / 4096)).

Definition region_step (hhdm cr3 extra_flags end_page page : Z) : M Paging MapError (Z + unit) :=
  do! ensure_page_mapping cr3 hhdm page extra_flags in
  if page =? end_page then ret (inr tt) else
  let! next := lift (chk_off page 4096) in ret (inl next).

Definition ensure_region_mapped (cr3 hhdm pa length extra_flags : Z) : M Paging MapError Z :=
  let! va := lift (chk_off hhdm pa) in
  let! last := lift (chk_off pa (Z.max length 1 - 1)) in
  do! loop (pages_between (page_down pa) (page_down last)) (region_step hhdm cr3 extra_flags (page_down last)) (page_down pa) in
  ret va.

Definition kernel_step (hhdm pml4_phys flags end_page : Z) (pages : Z * Z) : M Paging MapError ((Z * Z) + unit) :=
  let '(vpage, ppage) := pages in
  do! map_kernel_page hhdm pml4_phys vpage ppage flags in
  if vpage =? end_page then ret (inr tt) else
  let! v := lift (chk_off vpage 4096) in
  let! p := lift (chk_off ppage 4096) in
  ret (inl (v, p)).

(** [hhdm_offset] is [limine::hhdm_offset()], unwrapped. *)
Definition map_kernel_region (hhdm_offset : option Z) (cr3 va pa length flags : Z) : M Paging MapError unit :=
  let! last := lift (chk_off va (Z.max length 1 - 1)) in
  let! hhdm := lift (unwrap hhdm_offset) in
  loop (pages_between (page_down va) (page_down last))
    (kernel_step hhdm (Z.land cr3 PAGE_ADDRESS_MASK) flags (page_down last)) (page_down va, page_down pa).

Definition map_user_page (pml4_phys hhdm va pa flags : Z) : M Paging MapError unit :=
  let! pml4 := lift (chk_off hhdm pml4_phys) in
  let! slot := page_entry next_table_user pml4 va hhdm in
  match slot with
  | None => ret tt
  | Some pte =>
      let! entry := word_at pte in
      if Z.land entry PAGE_PRESENT =? 0
      then write_word pte (Z.lor (Z.lor (Z.lor (Z.land pa PAGE_ADDRESS_MASK) PAGE_PRESENT) PAGE_USER) flags)
      else write_word pte (Z.lor entry flags)
  end.

Definition user_step (pml4_phys hhdm flags end_page : Z) (pages : Z * Z) : M Paging MapError ((Z * Z) + unit) :=
  let '(vpage, ppage) := pages in
  do! map_user_page pml4_phys hhdm vpage ppage flags in
  if vpage =? end_page then ret (inr tt) else
  let! v := lift (chk_off vpage 4096) in
  let! p := lift (chk_off ppage 4096) in
  ret (inl (v, p)).

Definition map_user_region (pml4_phys hhdm va pa length flags : Z) : M Paging MapError unit :=
  let! last := lift (chk_off va (Z.max length 1 - 1)) in
  loop (pages_between (page_down va) (page_down last)) (user_step pml4_phys hhdm flags (page_down last)) (page_down va, page_down pa).

(** The argument is shadowed by [limine::hhdm_offset().unwrap()]. *)
Definition allocate_page_table_frame (hhdm_offset : option Z) : M Paging MapError Z :=
  let! frame := new_frame in
  let! hhdm := lift (unwrap hhdm_offset) in
  let! table_virtual := lift (chk_off hhdm frame) in
  do! zero_table table_virtual in
  ret frame.

(** The entries of the upper half, copied from the running table. *)
Fixpoint copy_entries {E} (from to : Z) (indices : list Z) : M Paging E unit :=
  match indices with
  | [] => ret tt
  | i :: rest => let! e := word_at (from + 8 * i) in do! write_word (to + 8 * i) e in copy_entries from to rest
  end.

Definition create_user_page_table (hhdm_offset : option Z) (cr3 hhdm : Z) : M Paging MapError Z :=
  let! user_phys := allocate_page_table_frame hhdm_offset in
  let! user_virt := lift (chk_off hhdm user_phys) in
  let! kernel_virt := lift (chk_off hhdm (Z.land cr3 PAGE_ADDRESS_MASK)) in
  do! copy_entries kernel_virt user_virt (seqZ KERNEL_HIGHER_HALF_START (ENTRIES_PER_TABLE - KERNEL_HIGHER_HALF_START)) in
  ret user_phys.

(** * Facts: mapping never panics and always ends *)
Definition paging_ok (s : Paging) : Prop := table_ok (pg_frames s).

Lemma first_fit_len n rs : match first_fit n rs with Some (_, rs') => len rs' = len rs | None => True end.
Proof.
  induction rs as [|r rs IH]; simpl; [done|]. bdestruct_if; [|by rewrite !len_cons].
  destruct (first_fit n rs) as [[a rs']|]; [|done]. rewrite !len_cons. lia.
Qed.

Lemma allocate_keeps E a : table_ok a -> exists o a', allocate (E:=E) a = (Ok o, a') /\ table_ok a'.
Proof.
  intros Ht. unfold allocate, bind, gets. destruct (fa_initialized a); simpl; [|by eexists _, _].
  pose proof (take_frames_run E PAGE_SIZE 1 a Ht) as H. pose proof (first_fit_len PAGE_SIZE (used a)) as Hl.
  destruct (first_fit PAGE_SIZE (used a)) as [[addr rs']|]; [|by eexists _, _].
  destruct H as (a' & -> & Hk & _). eexists _, a'. split; [done|]. apply Hk. rewrite Hl. by apply len_used.
Qed.

(** [m] ends in a value or an error on every state with a well-formed allocator, and keeps it so. *)
Definition steady {E A} (m : M Paging E A) : Prop :=
  forall s, paging_ok s -> returns (fst (m s)) /\ paging_ok (snd (m s)).

Lemma steady_ret {E A} (a : A) : steady (E:=E) (ret a).
Proof. by intros s. Qed.
Lemma steady_throw {E A} (e : E) : steady (A:=A) (throw e).
Proof. by intros s. Qed.
Lemma steady_gets {E A} (f : Paging -> A) : steady (E:=E) (gets f).
Proof. by intros s. Qed.
Lemma steady_word {E} ptr : steady (E:=E) (word_at ptr).
Proof. by intros s. Qed.
Lemma steady_write {E} ptr v : steady (E:=E) (write_word ptr v).
Proof. by intros s. Qed.
Lemma steady_zero {E} t : steady (E:=E) (zero_table t).
Proof. by intros s. Qed.
Lemma steady_off a b : steady (lift (chk_off a b)).
Proof. intros s Hs. unfold lift, chk_off. simpl. split; [by destruct (chk_add U64 a b)|done]. Qed.
Lemma steady_lift {E A} (o : outcome E A) : returns o -> steady (lift o).
Proof. by intros Ho s Hs. Qed.
Lemma steady_bind {E A B} (m : M Paging E A) (k : A -> M Paging E B) :
  steady m -> (forall a, steady (k a)) -> steady (bind m k).
Proof.
  intros Hm Hk s Hs. destruct (Hm s Hs) as [Hr Ho]. unfold bind. destruct (m s) as [[a|e| |] s']; simpl in *; try done.
  by apply Hk.
Qed.
Lemma steady_bind_lift {E A B} (o : outcome E A) (k : A -> M Paging E B) :
  returns o -> (forall a, o = Ok a -> steady (k a)) -> steady (bind (lift o) k).
Proof. intros Ho Hk s Hs. unfold bind, lift. destruct o as [a|e| |]; try done. by apply Hk. Qed.
Lemma chk_off_inv a b c : chk_off a b = Ok c -> c = a + b /\ a + b < U64.
Proof. unfold chk_off, chk_add. destruct (Z.ltb_spec (a + b) U64); [by intros [= <-]|done]. Qed.
Lemma steady_catch {E F A B} (m : M Paging E A) (k : A + E -> M Paging F B) :
  steady m -> (forall r, steady (k r)) -> steady (catch m k).
Proof.
  intros Hm Hk s Hs. destruct (Hm s Hs) as [Hr Ho]. unfold catch. destruct (m s) as [[a|e| |] s']; simpl in *; try done; by apply Hk.
Qed.
Lemma steady_frame : steady new_frame.
Proof.
  intros s Hs. unfold new_frame, bind, zoom, lift. destruct (allocate_keeps MapError (pg_frames s) Hs) as (o & a' & -> & Ha). simpl.
  by destruct o.
Qed.
Create HintDb steady.
#[export] Hint Resolve steady_ret steady_throw steady_gets steady_word steady_write steady_zero steady_off steady_frame : steady.

Lemma steady_follow flags table index hhdm : steady (follow flags table index hhdm).
Proof.
  unfold follow. apply steady_bind; [auto with steady|]. intros e. repeat case_match; repeat (apply steady_bind; [auto with steady|intros ?]); auto with steady.
Qed.
#[export] Hint Resolve steady_follow : steady.

Lemma steady_entry flags pml4 va hhdm : steady (page_entry (follow flags) pml4 va hhdm).
Proof. unfold page_entry. do 3 (apply steady_bind; [auto with steady|intros [?|]; cbv beta iota; [|auto with steady]]). auto with steady. Qed.
#[export] Hint Resolve steady_entry : steady.

Lemma steady_user_page pml4 hhdm va pa flags : steady (map_user_page pml4 hhdm va pa flags).
Proof.
  unfold map_user_page, next_table_user. repeat (apply steady_bind; [auto with steady|intros ?]). case_match; [|auto with steady].
  apply steady_bind; [auto with steady|intros ?]. case_match; auto with steady.
Qed.
#[export] Hint Resolve steady_user_page : steady.

Lemma page_down_spec a : 0 <= a < U64 -> page_down a mod 4096 = 0 /\ 0 <= page_down a <= a /\ a < page_down a + 4096.
Proof. intros Ha. destruct (align_down_page a Ha) as (H1 & H2 & H3 & _). done. Qed.

(** The next page of a region, when it is not the last one. *)
Lemma page_next v last : v mod 4096 = 0 -> last mod 4096 = 0 -> v <= last -> v <> last ->
  v + 4096 <= last /\ (v + 4096) mod 4096 = 0 /\ (Z.to_nat ((last - (v + 4096)) / 4096) < Z.to_nat ((last - v) / 4096))%nat.
Proof.
  intros Hv Hl Hle Hne. pose proof (Z.div_mod v 4096). pose proof (Z.div_mod last 4096). split; [lia|]. split.
  - replace (v + 4096) with (v + 1 * 4096) by lia. by rewrite Z.mod_add.
  - replace (last - v) with (last - (v + 4096) + 1 * 4096) by lia. rewrite Z.div_add by lia.
    assert (0 <= (last - (v + 4096)) / 4096) by (apply Z.div_pos; lia). lia.
Qed.
Lemma page_down_le a b : 0 <= a <= b -> b < U64 -> page_down a <= page_down b.
Proof.
  intros Ha Hb. destruct (page_down_spec a) as (H1 & H2 & _); [lia|]. destruct (page_down_spec b) as (H3 & H4 & H5); [lia|].
  pose proof (Z.div_mod (page_down a) 4096). pose proof (Z.div_mod (page_down b) 4096). lia.
Qed.

Lemma map_user_region_steady pml4 hhdm va pa length flags : 0 <= va < U64 -> steady (map_user_region pml4 hhdm va pa length flags).
Proof.
  intros Hva s Hs. unfold map_user_region, bind, lift, chk_off, chk_add. destruct (Z.ltb_spec (va + (Z.max length 1 - 1)) U64) as [Hlt|]; [|done].
  cbn [ok_or]. set (last := va + (Z.max length 1 - 1)) in *. destruct (page_down_spec va Hva) as (Hm1 & Hb1 & _).
  destruct (page_down_spec last ltac:(lia)) as (Hm2 & Hb2 & Hu2). pose proof (page_down_le va last ltac:(lia) Hlt) as Hle.
  apply (loop_rule (user_step pml4 hhdm flags (page_down last))
    (fun '(v, p) s => paging_ok s /\ v mod 4096 = 0 /\ v <= page_down last) (fun r => returns (fst r) /\ paging_ok (snd r))
    (fun '(v, _) => Z.to_nat ((page_down last - v) / 4096))); [|unfold pages_between; lia|done].
  intros [v p] s' (Hs' & Hv & Hvl). unfold user_step, bind at 1.
  pose proof (steady_user_page pml4 hhdm v p flags s' Hs') as [Hr Hok]. destruct (map_user_page pml4 hhdm v p flags s') as [[[]|e| |] s'']; try done.
  simpl in *. destruct (Z.eqb_spec v (page_down last)); [done|].
  destruct (page_next v (page_down last)) as (Hn & Hnm & Hmeasure); [done..|].
  unfold bind, lift, chk_off, chk_add. rewrite (proj2 (Z.ltb_lt _ _)) by lia. simpl. by destruct (p + 4096 <? U64).
Qed.

Lemma steady_kernel_page hhdm pml4 va pa flags : steady (map_kernel_page hhdm pml4 va pa flags).
Proof.
  unfold map_kernel_page, next_table. repeat (apply steady_bind; [auto with steady|intros ?]). case_match; [|auto with steady].
  apply steady_bind; [auto with steady|intros ?]. case_match; auto with steady.
Qed.
#[export] Hint Resolve steady_kernel_page : steady.

Lemma steady_page_mapping cr3 hhdm pa flags : steady (ensure_page_mapping cr3 hhdm pa flags).
Proof. apply steady_bind; auto with steady. Qed.

(** A mapped region is returned at its address in the direct map. *)
Lemma ensure_region_mapped_steady cr3 hhdm pa length flags : 0 <= pa < U64 -> steady (ensure_region_mapped cr3 hhdm pa length flags).
Proof.
  intros Hpa. unfold ensure_region_mapped. apply steady_bind; [auto with steady|intros va].
  apply steady_bind_lift; [by unfold chk_off; destruct (chk_add _ _ _)|]. intros last Hlast. apply chk_off_inv in Hlast as [-> Hlt].
  set (last := pa + (Z.max length 1 - 1)) in *. destruct (page_down_spec pa Hpa) as (Hm1 & Hb1 & _).
  destruct (page_down_spec last ltac:(lia)) as (Hm2 & Hb2 & Hu2). pose proof (page_down_le pa last ltac:(lia) Hlt) as Hle.
  apply steady_bind; [|auto with steady]. intros s Hs.
  apply (loop_rule (region_step hhdm cr3 flags (page_down last))
    (fun v s => paging_ok s /\ v mod 4096 = 0 /\ v <= page_down last) (fun r => returns (fst r) /\ paging_ok (snd r))
    (fun v => Z.to_nat ((page_down last - v) / 4096))); [|unfold pages_between; lia|done].
  intros v s' (Hs' & Hv & Hvl). unfold region_step, bind at 1.
  pose proof (steady_page_mapping cr3 hhdm v flags s' Hs') as [Hr Hok].
  destruct (ensure_page_mapping cr3 hhdm v flags s') as [[[]|e| |] s'']; try done.
  simpl in *. destruct (Z.eqb_spec v (page_down last)); [done|]. destruct (page_next v (page_down last)) as (Hn & Hnm & Hmeasure); [done..|].
  unfold bind, lift, chk_off, chk_add. rewrite (proj2 (Z.ltb_lt _ _)) by lia. done.
Qed.
