(* ===== verification/Gdt.v ===== *)
(** * Segments and the task state segment: [kernel/src/arch/x86_64/gdt.rs]

    The descriptor table is a list of 64-bit words, the task state segment a record
    with its layout in memory. [Segments] is what the code loads: the table, the
    segment registers and the task register. A descriptor is read back as the
    processor reads it (Intel SDM vol. 3, 3.4.5 and 7.2.3), and so is the permission
    map of the ports (vol. 1, 19.5.2). *)
From stdpp Require Import base list numbers option.
From Stdlib Require Import ZArith Lia Bool.
From S2P Require Import Prelude Sched.

Definition KERNEL_CODE_SELECTOR : Z := 0x28.
Definition KERNEL_DATA_SELECTOR : Z := 0x30.
Definition TSS_SELECTOR : Z := 0x48.
Definition GDT_ENTRY_COUNT : Z := 11.
Definition KERNEL_CODE_INDEX : Z := 5.
Definition KERNEL_DATA_INDEX : Z := 6.
Definition USER_DATA_INDEX : Z := 7.
Definition USER_CODE_INDEX : Z := 8.
Definition TSS_LOW_INDEX : Z := 9.
Definition TSS_HIGH_INDEX : Z := 10.

(** [repr(C, packed)]: the fields follow each other without gaps. *)
Record TaskStateSegment : Type := mkTss {
  tss_reserved0 : Z; tss_rsp0 : Z; tss_rsp1 : Z; tss_rsp2 : Z; tss_reserved1 : Z; tss_ist : list Z; tss_reserved2 : Z; tss_reserved3 : Z; tss_io_map_base : Z }.
#[export] Instance TaskStateSegment_eta : RecordEta TaskStateSegment := fun t =>
  mkTss (tss_reserved0 t) (tss_rsp0 t) (tss_rsp1 t) (tss_rsp2 t) (tss_reserved1 t) (tss_ist t) (tss_reserved2 t) (tss_reserved3 t) (tss_io_map_base t).
Definition TSS : TaskStateSegment := mkTss 0 0 0 0 0 (replicate 7 0) 0 0 0.
Definition TSS_SIZE : Z := 104.
Definition tss_bytes (t : TaskStateSegment) : list Z :=
  le_bytes 4 (tss_reserved0 t) ++ le_bytes 8 (tss_rsp0 t) ++ le_bytes 8 (tss_rsp1 t) ++ le_bytes 8 (tss_rsp2 t) ++ le_bytes 8 (tss_reserved1 t) ++
  concat (le_bytes 8 <$> tss_ist t) ++ le_bytes 8 (tss_reserved2 t) ++ le_bytes 2 (tss_reserved3 t) ++ le_bytes 2 (tss_io_map_base t).

Definition set_tss_rsp0 (rsp0 : Z) (t : TaskStateSegment) : TaskStateSegment := set_field Gdt.tss_rsp0 rsp0 t.

Definition make_tss_low (base limit : Z) : Z :=
  let base_lo := Z.land base 0xffffff in
  let base_mid := Z.land (Z.shiftr base 24) 0xff in
  let limit_lo := Z.land limit 0xffff in
  let limit_hi := Z.land (Z.shiftr limit 16) 0xf in
  Z.lor (Z.lor (Z.lor (Z.lor limit_lo (Z.shiftl base_lo 16)) (Z.shiftl 0x89 40)) (Z.shiftl limit_hi 48)) (cast U64 (Z.shiftl base_mid 56)).
Definition make_tss_high (base : Z) : Z := Z.shiftr base 32.

Record SegmentSelectors : Type := mkSelectors { s_cs : Z; s_ds : Z; s_es : Z; s_fs : Z; s_gs : Z; s_ss : Z }.
#[export] Instance SegmentSelectors_eta : RecordEta SegmentSelectors := fun s => mkSelectors (s_cs s) (s_ds s) (s_es s) (s_fs s) (s_gs s) (s_ss s).
Record DescriptorTablePointer : Type := mkDtr { dtr_limit : Z; dtr_base : Z }.

Record Segments : Type := mkSegments { sg_gdt : list Z; sg_gdtr : DescriptorTablePointer; sg_selectors : SegmentSelectors; sg_task : Z }.
#[export] Instance Segments_eta : RecordEta Segments := fun s => mkSegments (sg_gdt s) (sg_gdtr s) (sg_selectors s) (sg_task s).

Section load.
Context {E : Type} (gdt_address tss_address : Z).
Let G (A : Type) : Type := M Segments E A.

Definition set_descriptor (i v : Z) : G unit :=
  let! gdt := gets sg_gdt in let! gdt := lift (set_at gdt i v) in modify (set_field sg_gdt gdt).

Definition load_table_only : G unit := modify (set_field sg_gdtr (mkDtr (cast U16 (GDT_ENTRY_COUNT * 8 - 1)) gdt_address)).
(** The far return loads the code selector. *)
Definition reload_code_segment : G unit := modify (upd sg_selectors (set_field s_cs KERNEL_CODE_SELECTOR)).
Definition reload_ds : G unit := modify (upd sg_selectors (set_field s_ds KERNEL_DATA_SELECTOR)).
Definition reload_es : G unit := modify (upd sg_selectors (set_field s_es KERNEL_DATA_SELECTOR)).
Definition reload_fs : G unit := modify (upd sg_selectors (set_field s_fs KERNEL_DATA_SELECTOR)).
Definition reload_gs : G unit := modify (upd sg_selectors (set_field s_gs KERNEL_DATA_SELECTOR)).
Definition reload_ss : G unit := modify (upd sg_selectors (set_field s_ss KERNEL_DATA_SELECTOR)).
Definition reload_data_segments : G unit := do! reload_ds in do! reload_es in do! reload_fs in do! reload_gs in reload_ss.
Definition load_task_register : G unit := modify (set_field sg_task TSS_SELECTOR).

Definition gdt_initialize : G unit :=
  do! set_descriptor KERNEL_CODE_INDEX 0x00af9b000000ffff in
  do! set_descriptor KERNEL_DATA_INDEX 0x00cf93000000ffff in
  do! set_descriptor USER_DATA_INDEX 0x00cff3000000ffff in
  do! set_descriptor USER_CODE_INDEX 0x00affb000000ffff in
  let tss_limit := TSS_SIZE - 1 in
  do! set_descriptor TSS_LOW_INDEX (make_tss_low tss_address tss_limit) in
  do! set_descriptor TSS_HIGH_INDEX (make_tss_high tss_address) in
  do! load_table_only in
  do! reload_code_segment in
  do! reload_data_segments in
  load_task_register.
End load.

(** ** How the processor reads a descriptor *)
Definition bits (v from width : Z) : Z := Z.land (Z.shiftr v from) (Z.ones width).

Record Segment : Type := mkSegment { seg_base : Z; seg_limit : Z; seg_type : Z; seg_code_or_data : bool; seg_dpl : Z; seg_present : bool; seg_long : bool }.
Definition decode_segment (d : Z) : Segment :=
  mkSegment (bits d 16 24 + 2 ^ 24 * bits d 56 8) (bits d 0 16 + 2 ^ 16 * bits d 48 4) (bits d 40 4) (bits d 44 1 =? 1) (bits d 45 2) (bits d 47 1 =? 1) (bits d 53 1 =? 1).
(** A system descriptor takes two entries: the second holds the upper half of the base. *)
Definition decode_system (low high : Z) : Segment :=
  let s := decode_segment low in
  mkSegment (seg_base s + 2 ^ 32 * bits high 0 32) (seg_limit s) (seg_type s) (seg_code_or_data s) (seg_dpl s) (seg_present s) (seg_long s).
(** The entry a selector names. *)
Definition selector_entry (gdt : list Z) (selector : Z) : option Z := gdt !! Z.to_nat (selector / 8).

(** ** Port access from user mode: the bit of the port in the map of the task state
    segment, when the map and the byte after it lie inside the segment. *)
Definition user_port_allowed (t : TaskStateSegment) (limit port : Z) : bool :=
  let byte := tss_io_map_base t + port / 8 in
  (byte + 1 <=? limit) && negb (Z.testbit (nth (Z.to_nat byte) (tss_bytes t) 255) (port mod 8)).

(** * Facts *)
Lemma tss_bytes_length t : length (tss_ist t) = 7%nat -> len (tss_bytes t) = TSS_SIZE.
Proof.
  intros Hl. destruct (tss_ist t) as [|a1 [|a2 [|a3 [|a4 [|a5 [|a6 [|a7 [|]]]]]]]] eqn:Hi; try done.
  unfold tss_bytes, len. rewrite Hi. cbn [fmap list_fmap concat]. rewrite !length_app, !length_le_bytes. reflexivity.
Qed.

Lemma bits_lor a b from w : bits (Z.lor a b) from w = Z.lor (bits a from w) (bits b from w).
Proof. unfold bits. by rewrite Z.shiftr_lor, Z.land_lor_distr_l. Qed.

(** The field of a value shifted into a word. *)
Lemma bits_shiftl v k n from w : 0 <= k -> 0 <= from -> 0 <= w -> 0 <= v < 2 ^ n -> 0 <= n ->
  bits (Z.shiftl v k) from w = if from <=? k then bits (Z.shiftl v (k - from)) 0 w else bits v (from - k) w.
Proof.
  intros Hk Hf Hw Hv Hn. unfold bits. rewrite Z.shiftr_0_r. f_equal. destruct (Z.leb_spec from k).
  - rewrite Z.shiftr_shiftl_l by lia. done.
  - by rewrite Z.shiftr_shiftl_r by lia.
Qed.

Lemma bits_range v from w : 0 <= w -> 0 <= bits v from w < 2 ^ w.
Proof. intros Hw. unfold bits. rewrite Z.land_ones by lia. apply Z.mod_pos_bound. by apply Z.pow_pos_nonneg. Qed.

Lemma bits_split v n m : 0 <= n -> 0 <= m -> bits v 0 n + 2 ^ n * bits v n m = bits v 0 (n + m).
Proof.
  intros Hn Hm. unfold bits. rewrite Z.shiftr_0_r, !Z.land_ones, Z.shiftr_div_pow2, Z.pow_add_r by lia. rewrite Z.rem_mul_r by (apply Z.pow_nonzero || apply Z.pow_pos_nonneg; lia). done.
Qed.

(** A bit of a value that was cut to [w] bits and shifted left by [k]. *)
Lemma placed_bit v w k j : 0 <= w -> 0 <= k -> 0 <= j ->
  Z.testbit (Z.shiftl (Z.land v (Z.ones w)) k) j = (k <=? j) && (j <? k + w) && Z.testbit v (j - k).
Proof.
  intros Hw Hk Hj. rewrite Z.shiftl_spec by lia. destruct (Z.leb_spec k j); cbn [andb].
  - rewrite Z.land_spec, Z.testbit_ones_nonneg by lia. rewrite andb_comm. f_equal. destruct (Z.ltb_spec (j - k) w), (Z.ltb_spec j (k + w)); lia || done.
  - by rewrite Z.testbit_neg_r by lia.
Qed.

Lemma placed_shr_bit v s w k j : 0 <= w -> 0 <= k -> 0 <= j -> 0 <= s ->
  Z.testbit (Z.shiftl (Z.land (Z.shiftr v s) (Z.ones w)) k) j = (k <=? j) && (j <? k + w) && Z.testbit v (j - k + s).
Proof.
  intros Hw Hk Hj Hs. rewrite placed_bit by done. destruct (Z.leb_spec k j); cbn [andb]; [|done]. by rewrite Z.shiftr_spec by lia.
Qed.

Lemma tss_low_bit base limit j : 0 <= j < 64 ->
  Z.testbit (make_tss_low base limit) j =
    (j <? 16) && Z.testbit limit j || (16 <=? j) && (j <? 40) && Z.testbit base (j - 16) || (40 <=? j) && (j <? 48) && Z.testbit 0x89 (j - 40)
    || (48 <=? j) && (j <? 52) && Z.testbit limit (j - 32) || (56 <=? j) && Z.testbit base (j - 32).
Proof.
  intros Hj. unfold make_tss_low, cast. rewrite !Z.lor_spec.
  change 0xffffff with (Z.ones 24). change 0xff with (Z.ones 8). change 0xffff with (Z.ones 16). change 0xf with (Z.ones 4).
  change (Z.shiftl 0x89 40) with (Z.shiftl (Z.land 0x89 (Z.ones 8)) 40). change U64 with (2 ^ 64). rewrite Z.mod_pow2_bits_low by lia.
  rewrite <- (Z.shiftl_0_r (Z.land limit (Z.ones 16))). rewrite !placed_shr_bit, !placed_bit by lia.
  replace (j - 48 + 16) with (j - 32) by lia. replace (j - 56 + 24) with (j - 32) by lia. rewrite Z.sub_0_r.
  replace (0 <=? j) with true by (symmetry; apply Z.leb_le; lia). replace (j <? 0 + 16) with (j <? 16) by done. replace (j <? 16 + 24) with (j <? 40) by done.
  replace (j <? 40 + 8) with (j <? 48) by done. replace (j <? 48 + 4) with (j <? 52) by done. replace (j <? 56 + 8) with true by (symmetry; apply Z.ltb_lt; lia).
  cbn [andb]. by rewrite !andb_true_r.
Qed.

Lemma bits_bit v from w i : 0 <= from -> 0 <= w -> 0 <= i -> Z.testbit (bits v from w) i = (i <? w) && Z.testbit v (i + from).
Proof. intros Hf Hw Hi. unfold bits. rewrite Z.land_spec, Z.shiftr_spec, Z.testbit_ones_nonneg by lia. by rewrite andb_comm. Qed.

(** Equality of two fields, bit by bit. *)
Ltac field_eq :=
  apply Z.bits_inj'; intros i Hi; rewrite !bits_bit by lia;
  match goal with |- context [i <? ?w] => destruct (Z.ltb_spec i w); cbn [andb]; [|done] end;
  rewrite tss_low_bit by lia;
  repeat match goal with
  | |- context [?a <? ?b] => first [rewrite (proj2 (Z.ltb_lt a b)) by lia | rewrite (proj2 (Z.ltb_ge a b)) by lia]
  | |- context [?a <=? ?b] => first [rewrite (proj2 (Z.leb_le a b)) by lia | rewrite (proj2 (Z.leb_gt a b)) by lia]
  end; cbn [andb orb]; rewrite ?orb_false_r; try (f_equal; lia).

Lemma tss_low_fields base limit :
  let d := make_tss_low base limit in
  bits d 16 24 = bits base 0 24 /\ bits d 56 8 = bits base 24 8 /\ bits d 0 16 = bits limit 0 16 /\ bits d 48 4 = bits limit 16 4 /\
  bits d 40 8 = bits 0x89 0 8 /\ bits d 52 4 = bits 0 0 4.
Proof. cbv zeta. split_and!; field_eq. by rewrite Z.bits_0. Qed.

(** A narrower field inside a known one. *)
Lemma bits_bits v f1 w1 f2 w2 : 0 <= f1 -> 0 <= f2 -> 0 <= w2 -> f2 + w2 <= w1 -> bits (bits v f1 w1) f2 w2 = bits v (f1 + f2) w2.
Proof.
  intros H1 H2 H3 H4. apply Z.bits_inj'. intros i Hi. rewrite !bits_bit by lia. destruct (Z.ltb_spec i w2); cbn [andb]; [|done].
  rewrite (proj2 (Z.ltb_lt _ _)) by lia. cbn [andb]. f_equal. lia.
Qed.

Lemma bits_small v w : 0 <= w -> 0 <= v < 2 ^ w -> bits v 0 w = v.
Proof. intros Hw Hv. unfold bits. rewrite Z.shiftr_0_r, Z.land_ones by lia. by apply Z.mod_small. Qed.

Lemma tss_roundtrip (base limit : Z) : 0 <= base < U64 -> 0 <= limit < 2 ^ 20 ->
  decode_system (make_tss_low base limit) (make_tss_high base) = mkSegment base limit 9 false 0 true false.
Proof.
  intros Hb Hl. destruct (tss_low_fields base limit) as (F1 & F2 & F3 & F4 & F5 & F6). unfold decode_system, decode_segment. cbn [seg_base seg_limit seg_type seg_code_or_data seg_dpl seg_present seg_long].
  assert (Hsub : forall f w, 0 <= f -> 0 <= w -> f + w <= 8 -> bits (make_tss_low base limit) (40 + f) w = bits 0x89 f w).
  { intros f w Hf Hw Hfw. rewrite <- (bits_bits _ 40 8 f w), F5, bits_bits by lia. done. }
  assert (Hlong : bits (make_tss_low base limit) 53 1 = 0) by (by rewrite <- (bits_bits _ 52 4 1 1), F6 by lia).
  pose proof (Hsub 0 4) as S0. pose proof (Hsub 4 1) as S4. pose proof (Hsub 5 2) as S5. pose proof (Hsub 7 1) as S7. change (40 + 0) with 40 in S0. change (40 + 4) with 44 in S4.
  change (40 + 5) with 45 in S5. change (40 + 7) with 47 in S7.
  rewrite F1, F2, F3, F4, Hlong, S0, S4, S5, S7 by lia. f_equal.
  - rewrite (bits_split base 24 8) by lia. change (24 + 8) with 32. unfold make_tss_high. replace (bits (Z.shiftr base 32) 0 32) with (bits base 32 32) by (unfold bits; by rewrite Z.shiftr_0_r).
    rewrite (bits_split base 32 32) by lia. by apply bits_small.
  - rewrite (bits_split limit 16 4) by lia. by apply bits_small.
Qed.

(** The two words of the task state segment's descriptor hold its address and its
    limit: the processor reads back exactly the base and the limit they were made of,
    as a present, available 64-bit task state segment that user code cannot name. *)
Theorem tss_descriptor_roundtrip (base limit : Z) (Hb : 0 <= base < U64) (Hl : 0 <= limit < 2 ^ 20) :
  decode_system (make_tss_low base limit) (make_tss_high base) = mkSegment base limit 9 false 0 true false.
Proof. by apply tss_roundtrip. Qed.
Lemma tss_descriptor_roundtrip_witness :
  decode_system (make_tss_low 0xffffffff80123450 103) (make_tss_high 0xffffffff80123450) = mkSegment 0xffffffff80123450 103 9 false 0 true false.
Proof. apply (tss_descriptor_roundtrip 0xffffffff80123450 103); split; (discriminate || reflexivity). Defined.

(** After the tables are loaded every selector names a segment of the kind the
    kernel uses it for: the kernel's code and data segments have privilege level 0,
    the user's have level 3, both code segments are 64-bit, and the task register
    names the task state segment. *)
Theorem gdt_initialize_spec {E} (gdt_address tss_address : Z) (s : Segments) (Hg : length (sg_gdt s) = 11%nat) (Ht : 0 <= tss_address < U64) :
  exists s', gdt_initialize (E:=E) gdt_address tss_address s = (Ok tt, s') /\
    decode_segment <$> selector_entry (sg_gdt s') KERNEL_CODE_SELECTOR = Some (mkSegment 0 0xfffff 11 true 0 true true) /\
    decode_segment <$> selector_entry (sg_gdt s') KERNEL_DATA_SELECTOR = Some (mkSegment 0 0xfffff 3 true 0 true false) /\
    decode_segment <$> selector_entry (sg_gdt s') (Z.lor USER_CODE_SELECTOR 3) = Some (mkSegment 0 0xfffff 11 true 3 true true) /\
    decode_segment <$> selector_entry (sg_gdt s') (Z.lor USER_DATA_SELECTOR 3) = Some (mkSegment 0 0xfffff 3 true 3 true false) /\
    (exists low high, selector_entry (sg_gdt s') (sg_task s') = Some low /\ sg_gdt s' !! S (Z.to_nat (sg_task s' / 8)) = Some high /\
       decode_system low high = mkSegment tss_address (TSS_SIZE - 1) 9 false 0 true false) /\
    dtr_limit (sg_gdtr s') = 87 /\ s_cs (sg_selectors s') = KERNEL_CODE_SELECTOR /\ s_ss (sg_selectors s') = KERNEL_DATA_SELECTOR.
Proof.
  destruct s as [g gdtr sel task]. cbn [sg_gdt] in Hg.
  destruct g as [|g0 [|g1 [|g2 [|g3 [|g4 [|g5 [|g6 [|g7 [|g8 [|g9 [|g10 [|]]]]]]]]]]]]; try done.
  exists (mkSegments [g0; g1; g2; g3; g4; 0x00af9b000000ffff; 0x00cf93000000ffff; 0x00cff3000000ffff; 0x00affb000000ffff; make_tss_low tss_address (TSS_SIZE - 1); make_tss_high tss_address]
    (mkDtr 87 gdt_address) (mkSelectors 0x28 0x30 0x30 0x30 0x30 0x30) TSS_SELECTOR).
  split; [reflexivity|]. cbn [sg_gdt sg_gdtr sg_selectors sg_task]. do 4 (split; [reflexivity|]). split; [|by split; [|split]].
  eexists _, _. split; [reflexivity|]. split; [reflexivity|]. exact (tss_roundtrip tss_address (TSS_SIZE - 1) Ht ltac:(unfold TSS_SIZE; lia)).
Qed.
Definition boot_segments : Segments := mkSegments (replicate 11 0) (mkDtr 0 0) (mkSelectors 0x28 0x30 0x30 0x30 0x30 0x30) 0.
Lemma gdt_initialize_spec_witness :
  exists s', gdt_initialize (E:=unit) 0xffffffff80200000 0xffffffff80201000 boot_segments = (Ok tt, s') /\
    decode_segment <$> selector_entry (sg_gdt s') KERNEL_CODE_SELECTOR = Some (mkSegment 0 0xfffff 11 true 0 true true) /\
    decode_segment <$> selector_entry (sg_gdt s') KERNEL_DATA_SELECTOR = Some (mkSegment 0 0xfffff 3 true 0 true false) /\
    decode_segment <$> selector_entry (sg_gdt s') (Z.lor USER_CODE_SELECTOR 3) = Some (mkSegment 0 0xfffff 11 true 3 true true) /\
    decode_segment <$> selector_entry (sg_gdt s') (Z.lor USER_DATA_SELECTOR 3) = Some (mkSegment 0 0xfffff 3 true 3 true false) /\
    (exists low high, selector_entry (sg_gdt s') (sg_task s') = Some low /\ sg_gdt s' !! S (Z.to_nat (sg_task s' / 8)) = Some high /\
       decode_system low high = mkSegment 0xffffffff80201000 (TSS_SIZE - 1) 9 false 0 true false) /\
    dtr_limit (sg_gdtr s') = 87 /\ s_cs (sg_selectors s') = KERNEL_CODE_SELECTOR /\ s_ss (sg_selectors s') = KERNEL_DATA_SELECTOR.
Proof. apply (gdt_initialize_spec (E:=unit) 0xffffffff80200000 0xffffffff80201000 boot_segments); [reflexivity|split; [discriminate|reflexivity]]. Defined.

(** The bytes of the segment past the stack pointer of privilege level 0. *)
Lemma tss_tail_zero rsp0 i : (12 <= i < 104)%nat -> nth i (tss_bytes (set_tss_rsp0 rsp0 TSS)) 255 = 0.
Proof.
  intros Hi. assert (Hb : tss_bytes (set_tss_rsp0 rsp0 TSS) = le_bytes 4 0 ++ le_bytes 8 rsp0 ++ replicate 92 0) by reflexivity.
  rewrite Hb, app_assoc, app_nth2; rewrite length_app, !length_le_bytes; [|lia]. rewrite nth_lookup, lookup_replicate_2 by lia. done.
Qed.

(** The permission map of the ports starts at offset 0 of the task state segment,
    where zero bytes grant access: whatever stack the scheduler sets, user code may use
    every port from 0x60 to 0x337, among them 0x64, through which the keyboard
    controller resets the machine. *)
Theorem user_ports_open (rsp0 port : Z) (Hp : 0x60 <= port <= 0x337) :
  user_port_allowed (set_tss_rsp0 rsp0 TSS) (TSS_SIZE - 1) port = true.
Proof.
  assert (12 <= port / 8 <= 102) by (split; [apply Z.div_le_lower_bound|apply Z.lt_succ_r, Z.div_lt_upper_bound]; lia).
  unfold user_port_allowed. change (tss_io_map_base (set_tss_rsp0 rsp0 TSS)) with 0. rewrite Z.add_0_l, tss_tail_zero by lia.
  rewrite Z.bits_0. cbn [negb]. rewrite andb_true_r. apply Z.leb_le. unfold TSS_SIZE. lia.
Qed.
Lemma user_ports_open_witness : user_port_allowed (set_tss_rsp0 0xffff800000104000 TSS) (TSS_SIZE - 1) 0x64 = true.
Proof. apply (user_ports_open 0xffff800000104000 0x64). lia. Defined.
