(* ===== verification/Trap.v ===== *)
(** * Entering and leaving the kernel: the assembly of
      [kernel/src/arch/x86_64/interrupts.rs] and [kernel/src/arch/x86_64/context.rs]

    [Cpu] is the processor as the stubs see it: the fifteen saved registers in the
    order of [SyscallRegisterFrame] ([rax], [rbp], [rbx], [rcx], [rdx], [rsi], [rdi],
    [r8] to [r15]), the registers of the interrupt frame, the page table and the
    memory, as 64-bit words by address. Each instruction of a stub is a step of a
    state-passing computation. [int_n] and [syscall_insn] are what the processor does
    before the first instruction of a stub runs, [iretq] and [sysretq] what it does at
    the last one (Intel SDM vol. 2). *)
From stdpp Require Import base list numbers option gmap.
From Stdlib Require Import ZArith Lia Bool.
From S2P Require Import Prelude Sched Gdt.

Definition RAX : nat := 0.
Definition RBP : nat := 1.
Definition RBX : nat := 2.
Definition RCX : nat := 3.
Definition RDI : nat := 6.
Definition R11 : nat := 10.
Definition SYSCALL_REGISTER_QWORDS : nat := 15.

Record Cpu : Type := mkCpu {
  gprs : list Z; c_rsp : Z; c_rip : Z; c_cs : Z; c_rflags : Z; c_ss : Z; c_cr3 : Z; c_mem : gmap Z Z }.
#[export] Instance Cpu_eta : RecordEta Cpu := fun c =>
  mkCpu (gprs c) (c_rsp c) (c_rip c) (c_cs c) (c_rflags c) (c_ss c) (c_cr3 c) (c_mem c).

Section instructions.
Context {E : Type}.
Let C (A : Type) : Type := M Cpu E A.

Definition word_at (m : gmap Z Z) (a : Z) : Z := default 0 (m !! a).
Definition reg (r : nat) (c : Cpu) : Z := nth r (gprs c) 0.
Definition mov (r : nat) (v : Z) : C unit := modify (upd gprs <[r := v]>).
Definition store (a v : Z) : C unit := modify (upd c_mem <[a := v]>).
Definition push (v : Z) : C unit :=
  do! modify (upd c_rsp (fun s => s - 8)) in
  let! sp := gets c_rsp in store sp v.
Definition pop : C Z :=
  let! v := gets (fun c => word_at (c_mem c) (c_rsp c)) in
  do! modify (upd c_rsp (fun s => s + 8)) in ret v.
Definition pop_reg (r : nat) : C unit := let! v := pop in mov r v.
Definition push_reg (r : nat) : C unit := let! v := gets (reg r) in push v.

(** [push r15] down to [push rax], and [pop rax] up to [pop r15]. *)
Definition push_all : C unit := Prelude.for_each (rev (seq 0 SYSCALL_REGISTER_QWORDS)) push_reg.
Definition pop_all : C unit := Prelude.for_each (seq 0 SYSCALL_REGISTER_QWORDS) pop_reg.

(** ** The processor's part *)

(** A software interrupt from user mode through an interrupt gate: the stack of
    privilege level 0, aligned to 16 bytes, the interrupt frame, the flag cleared. *)
Definition int_n (rsp0 kernel_cs : Z) : C unit :=
  let! c := gets (fun c => c) in
  do! modify (set_field c_rsp (rsp0 - rsp0 mod 16)) in
  do! Prelude.for_each [c_ss c; c_rsp c; c_rflags c; c_cs c; c_rip c] push in
  do! modify (set_field c_cs kernel_cs) in
  do! modify (set_field c_ss 0) in
  modify (upd c_rflags (fun f => Z.land f (bitnot U64 0x200))).

Definition iretq : C unit :=
  let! rip := pop in let! cs := pop in let! rflags := pop in let! rsp := pop in let! ss := pop in
  modify (fun c => mkCpu (gprs c) rsp rip cs rflags ss (c_cr3 c) (c_mem c)).

(** [SYSCALL] with the registers [star] and [fmask]. *)
Definition syscall_insn (star fmask : Z) : C unit :=
  let! c := gets (fun c => c) in
  do! mov RCX (c_rip c) in
  do! mov R11 (c_rflags c) in
  do! modify (set_field c_cs (bits star 32 16)) in
  do! modify (set_field c_ss (bits star 32 16 + 8)) in
  modify (upd c_rflags (fun f => Z.land f (bitnot U64 fmask))).

Definition sysret_flags (f : Z) : Z := Z.lor (Z.land f 0x3c7fd7) 2.
Definition sysretq (star : Z) : C unit :=
  modify (fun c => mkCpu (gprs c) (c_rsp c) (reg RCX c) (Z.lor (bits star 48 16 + 16) 3) (sysret_flags (reg R11 c)) (Z.lor (bits star 48 16 + 8) 3) (c_cr3 c) (c_mem c)).

(** ** The stubs: up to the call of the handler, and from its return on *)

(** [user_rsp] is the address of [hxnu_syscall_user_rsp]; the stack follows it. *)
Definition fast_syscall_stack_top (user_rsp : Z) : Z := user_rsp + 8 + 65536.

Definition fast_syscall_entry (user_rsp : Z) : C Z :=
  let! sp := gets c_rsp in
  do! store user_rsp sp in
  do! modify (set_field c_rsp (fast_syscall_stack_top user_rsp)) in
  do! push 0x3b in
  let! saved := gets (fun c => word_at (c_mem c) user_rsp) in
  do! push saved in
  do! push_reg R11 in
  do! push 0x43 in
  do! push_reg RCX in
  do! push_all in
  let! frame := gets c_rsp in
  do! modify (upd c_rsp (fun s => s - 8)) in
  ret frame.

Definition syscall_entry : C Z :=
  do! push_all in
  let! frame := gets c_rsp in
  do! modify (upd c_rsp (fun s => s - 8)) in
  ret frame.

(** [result] is what the handler left in [rax]. *)
Definition syscall_return (result : Z) : C unit :=
  do! modify (upd c_rsp (fun s => s + 8)) in
  let! sp := gets c_rsp in
  do! store sp result in
  pop_all.

Definition fast_syscall_exit (user_rsp star result : Z) : C unit :=
  do! syscall_return result in
  do! pop_reg RCX in
  do! modify (upd c_rsp (fun s => s + 8)) in
  do! pop_reg R11 in
  let! sp := gets (fun c => word_at (c_mem c) user_rsp) in
  do! modify (set_field c_rsp sp) in
  sysretq star.

Definition syscall_exit (result : Z) : C unit := do! syscall_return result in iretq.

(** ** Context switches: [hxnu_resume_common], [hxnu_resume_with_cr3], [hxnu_switch_with_cr3] *)
Definition load_cr3 (new : Z) : C unit :=
  let! old := gets c_cr3 in if new =? old then ret tt else modify (set_field c_cr3 new).

Definition resume_user_context (ctx : TaskContext) : C unit :=
  do! modify (set_field c_rsp (rsp ctx)) in do! pop_all in iretq.
Definition resume_kernel_context (ctx : TaskContext) : C unit :=
  do! modify (set_field c_rsp (rsp ctx)) in
  do! mov RBX (rbx ctx) in do! mov RBP (rbp ctx) in
  do! mov 11 (r12 ctx) in do! mov 12 (r13 ctx) in do! mov 13 (r14 ctx) in do! mov 14 (r15 ctx) in
  let! rip := pop in modify (set_field c_rip rip).
Definition resume_common (ctx : TaskContext) : C unit := if kind ctx =? 1 then resume_user_context ctx else resume_kernel_context ctx.
Definition resume_with_cr3 (ctx : TaskContext) : C unit := do! load_cr3 (cr3 ctx) in resume_common ctx.

(** The context [hxnu_context_switch] saves: the callee-saved registers, as a kernel context. *)
Definition save_context (old : TaskContext) (c : Cpu) : TaskContext :=
  mkContext (c_rsp c) (reg RBX c) (reg RBP c) (reg 11 c) (reg 12 c) (reg 13 c) (reg 14 c) (cr3 old) 0 (kernel_rsp0 old).
Definition switch_with_cr3 (old next : TaskContext) : C TaskContext :=
  do! load_cr3 (cr3 next) in
  let! saved := gets (save_context old) in
  do! resume_common next in ret saved.
End instructions.

(** * Facts *)
Section facts.
Context {E : Type}.

(** The words a sequence of pushes leaves below [sp]. *)
Fixpoint write_down (m : gmap Z Z) (sp : Z) (vs : list Z) : gmap Z Z :=
  match vs with
  | [] => m
  | v :: vs' => write_down (<[sp - 8 := v]> m) (sp - 8) vs'
  end.
Definition frame_at (m : gmap Z Z) (a : Z) (ws : list Z) : Prop := forall i w, ws !! i = Some w -> word_at m (a + 8 * Z.of_nat i) = w.
Definition with_stack (c : Cpu) (sp : Z) (m : gmap Z Z) : Cpu := mkCpu (gprs c) sp (c_rip c) (c_cs c) (c_rflags c) (c_ss c) (c_cr3 c) m.

Lemma write_down_app m sp vs ws : write_down m sp (vs ++ ws) = write_down (write_down m sp vs) (sp - 8 * len vs) ws.
Proof.
  revert m sp. induction vs as [|v vs IH]; intros m sp; cbn [write_down app]; [by rewrite (@len_nil Z), Z.mul_0_r, Z.sub_0_r|].
  rewrite IH, len_cons. f_equal. lia.
Qed.

Lemma write_down_above m sp vs a : sp <= a -> write_down m sp vs !! a = m !! a.
Proof. revert m sp. induction vs as [|v vs IH]; intros m sp Ha; cbn [write_down]; [done|]. rewrite IH by lia. by rewrite lookup_insert_ne by lia. Qed.
Lemma write_down_below m sp vs a : a < sp - 8 * len vs -> write_down m sp vs !! a = m !! a.
Proof.
  revert m sp. induction vs as [|v vs IH]; intros m sp Ha; cbn [write_down]; [done|]. rewrite len_cons in Ha. pose proof (len_nonneg vs). rewrite IH by lia. by rewrite lookup_insert_ne by lia.
Qed.

Lemma write_down_frame m sp vs : frame_at (write_down m sp vs) (sp - 8 * len vs) (rev vs).
Proof.
  revert m sp. induction vs as [|v vs IH]; intros m sp i w Hi; cbn [rev] in Hi; [done|]. cbn [write_down]. rewrite len_cons.
  apply lookup_app_Some in Hi as [Hi|[Hl Hi]].
  - rewrite <- (IH (<[sp - 8 := v]> m) (sp - 8) i w Hi). f_equal. lia.
  - rewrite length_rev in *. destruct (i - length vs)%nat as [|k] eqn:Hk; [|done]. injection Hi as <-.
    unfold word_at. rewrite write_down_above by (unfold len; lia). replace (sp - 8 * (1 + len vs) + 8 * Z.of_nat i) with (sp - 8) by (unfold len; lia). by rewrite lookup_insert_eq.
Qed.

Lemma frame_at_app m a l1 l2 : frame_at m a (l1 ++ l2) -> frame_at m a l1 /\ frame_at m (a + 8 * len l1) l2.
Proof.
  intros H. split; intros i w Hi.
  - apply H. by apply lookup_app_l_Some.
  - rewrite <- (H (length l1 + i)%nat w); [f_equal; unfold len; lia|]. by rewrite lookup_app_r, Nat.add_comm, Nat.add_sub by lia.
Qed.

Lemma push_run v (c : Cpu) : push (E:=E) v c = (Ok tt, with_stack c (c_rsp c - 8) (<[c_rsp c - 8 := v]> (c_mem c))).
Proof. by destruct c. Qed.

Lemma push_values_run vs : forall c, Prelude.for_each vs (push (E:=E)) c = (Ok tt, with_stack c (c_rsp c - 8 * len vs) (write_down (c_mem c) (c_rsp c) vs)).
Proof.
  induction vs as [|v vs IH]; intros c; cbn [Prelude.for_each].
  - rewrite (@len_nil Z), Z.mul_0_r, Z.sub_0_r. by destruct c.
  - unfold bind. rewrite push_run, IH. cbn [with_stack c_rsp c_mem write_down]. rewrite len_cons. replace (c_rsp c - 8 - 8 * len vs) with (c_rsp c - 8 * (1 + len vs)) by lia. done.
Qed.

Lemma push_regs_values rs : forall c, Prelude.for_each rs (push_reg (E:=E)) c = Prelude.for_each ((fun r => reg r c) <$> rs) push c.
Proof.
  induction rs as [|r rs IH]; intros c; cbn [Prelude.for_each fmap list_fmap]; [done|].
  unfold bind at 1 2. change (push_reg r c) with (push (E:=E) (reg r c) c). rewrite push_run. rewrite IH. done.
Qed.

Lemma push_all_values c : length (gprs c) = 15%nat -> push_all (E:=E) c = Prelude.for_each (rev (gprs c)) push c.
Proof.
  intros Hl. unfold push_all. rewrite push_regs_values. f_equal. unfold fmap; rewrite (map_rev (fun r => reg r c)). f_equal. apply list_eq. intros i. rewrite list_lookup_fmap.
  destruct (decide (i < 15)%nat).
  - rewrite lookup_seq_lt by done. cbn. unfold reg. rewrite nth_lookup. destruct (lookup_lt_is_Some_2 (gprs c) i) as [g ->]; [lia|]. done.
  - rewrite !lookup_ge_None_2; [done|lia|rewrite length_seq; unfold SYSCALL_REGISTER_QWORDS; lia].
Qed.

Lemma push_all_run c : length (gprs c) = 15%nat ->
  push_all (E:=E) c = (Ok tt, with_stack c (c_rsp c - 120) (write_down (c_mem c) (c_rsp c) (rev (gprs c)))).
Proof.
  intros Hl. rewrite push_all_values, push_values_run by done. unfold len. rewrite length_rev, Hl. done.
Qed.

Lemma pop_all_run c ws : length (gprs c) = 15%nat -> length ws = 15%nat -> frame_at (c_mem c) (c_rsp c) ws ->
  pop_all (E:=E) c = (Ok tt, mkCpu ws (c_rsp c + 120) (c_rip c) (c_cs c) (c_rflags c) (c_ss c) (c_cr3 c) (c_mem c)).
Proof.
  intros Hg Hw Hf. unfold pop_all.
  destruct (for_each_rule (E:=E) (fun pre c1 => c1 = mkCpu (take (length pre) ws ++ drop (length pre) (gprs c)) (c_rsp c + 8 * len pre) (c_rip c) (c_cs c) (c_rflags c) (c_ss c) (c_cr3 c) (c_mem c))
    (seq 0 SYSCALL_REGISTER_QWORDS) pop_reg c) as (c' & Hrun & ->).
  - cbn. rewrite (@len_nil nat), Z.mul_0_r, Z.add_0_r. by destruct c.
  - intros pre r rest c1 Hseq ->. assert (Hr : r = length pre /\ (length pre < 15)%nat).
    { assert (Hlk : seq 0 SYSCALL_REGISTER_QWORDS !! length pre = Some r) by (rewrite Hseq; by rewrite list_lookup_middle). apply lookup_seq in Hlk as [-> ?]. done. }
    destruct Hr as [-> Hlt]. destruct (lookup_lt_is_Some_2 ws (length pre)) as [w Hlw]; [lia|]. eexists. split; [reflexivity|]. unfold upd. cbn [gprs c_rsp c_rip c_cs c_rflags c_ss c_cr3 c_mem].
    replace (word_at (c_mem c) (c_rsp c + 8 * len pre)) with w by (symmetry; apply (Hf _ _ Hlw)). rewrite length_app. cbn [length]. f_equal.
    + rewrite insert_app_r_alt by (rewrite length_take; lia). rewrite length_take, Nat.min_l, Nat.sub_diag by lia.
      destruct (lookup_lt_is_Some_2 (gprs c) (length pre)) as [g Hlg]; [lia|]. rewrite (drop_S _ _ _ Hlg). cbn [insert list_insert]. rewrite Nat.add_1_r, (take_S_r _ _ _ Hlw), <- app_assoc. done.
    + rewrite (len_app pre), (len_cons (length pre)), (@len_nil nat). lia.
  - rewrite Hrun. f_equal. rewrite length_seq. unfold SYSCALL_REGISTER_QWORDS. rewrite take_ge, drop_ge, app_nil_r by lia. done.
Qed.

(** The user's registers as the kernel saves them. *)
Definition user_words (c : Cpu) : list Z := gprs c ++ [c_rip c; c_cs c; c_rflags c; c_rsp c; c_ss c].

Lemma iretq_run c rip cs fl sp ss : frame_at (c_mem c) (c_rsp c) [rip; cs; fl; sp; ss] ->
  iretq (E:=E) c = (Ok tt, mkCpu (gprs c) sp rip cs fl ss (c_cr3 c) (c_mem c)).
Proof.
  intros Hf. pose proof (Hf 0%nat _ eq_refl) as H0. pose proof (Hf 1%nat _ eq_refl) as H1. pose proof (Hf 2%nat _ eq_refl) as H2.
  pose proof (Hf 3%nat _ eq_refl) as H3. pose proof (Hf 4%nat _ eq_refl) as H4. destruct c as [g s0 rip0 cs0 fl0 ss0 cr mem]. cbn [c_mem c_rsp gprs c_cr3] in *.
  replace (s0 + 8 * Z.of_nat 0) with s0 in H0 by lia. replace (s0 + 8 * Z.of_nat 1) with (s0 + 8) in H1 by lia. replace (s0 + 8 * Z.of_nat 2) with (s0 + 8 + 8) in H2 by lia.
  replace (s0 + 8 * Z.of_nat 3) with (s0 + 8 + 8 + 8) in H3 by lia. replace (s0 + 8 * Z.of_nat 4) with (s0 + 8 + 8 + 8 + 8) in H4 by lia.
  unfold iretq, pop, bind, gets, modify, ret, upd. cbn [gprs c_rsp c_rip c_cs c_rflags c_ss c_cr3 c_mem]. by rewrite H0, H1, H2, H3, H4.
Qed.

Lemma resume_user_run ctx c g rip cs fl sp ss : length (gprs c) = 15%nat -> length g = 15%nat -> kind ctx = 1 ->
  frame_at (c_mem c) (rsp ctx) (g ++ [rip; cs; fl; sp; ss]) -> resume_with_cr3 (E:=E) ctx c = (Ok tt, mkCpu g sp rip cs fl ss (cr3 ctx) (c_mem c)).
Proof.
  intros Hc Hg Hk Hf. apply frame_at_app in Hf as [Hf1 Hf2]. unfold resume_with_cr3, load_cr3, resume_common. rewrite Hk. change (1 =? 1) with true. cbv iota.
  unfold bind at 1, bind at 1, gets at 1.
  assert (Hrun : forall c1, gprs c1 = gprs c -> c_mem c1 = c_mem c -> c_cr3 c1 = cr3 ctx -> resume_user_context (E:=E) ctx c1 = (Ok tt, mkCpu g sp rip cs fl ss (cr3 ctx) (c_mem c))).
  { intros c1 H1 H2 H3. unfold resume_user_context, bind at 1, modify. unfold bind at 1. erewrite pop_all_run; [|cbn; by rewrite H1|exact Hg|cbn; by rewrite H2].
    erewrite iretq_run; [cbn; by rewrite H2, H3|]. cbn [c_mem c_rsp set_field upd]. unfold upd. cbn [c_mem c_rsp]. rewrite H2. unfold len in Hf2. rewrite Hg in Hf2. exact Hf2. }
  destruct (Z.eqb_spec (cr3 ctx) (c_cr3 c)); apply Hrun; done.
Qed.

Lemma syscall_return_run v c p g : length (gprs c) = 15%nat -> length g = 15%nat -> c_rsp c = p - 8 -> frame_at (c_mem c) p g ->
  syscall_return (E:=E) v c = (Ok tt, mkCpu (v :: tail g) (p + 120) (c_rip c) (c_cs c) (c_rflags c) (c_ss c) (c_cr3 c) (<[p := v]> (c_mem c))).
Proof.
  intros Hc Hg Hsp Hf. unfold syscall_return, bind at 1, modify. unfold bind at 1, gets. unfold bind at 1, store, modify, upd. cbn [gprs c_rsp c_rip c_cs c_rflags c_ss c_cr3 c_mem].
  replace (c_rsp c + 8) with p by lia. destruct g as [|g0 g]; [done|].
  erewrite (pop_all_run _ (v :: g)); [done|done|done|]. cbn [c_mem c_rsp]. intros [|i] w Hi.
  - injection Hi as <-. unfold word_at. by rewrite Z.mul_0_r, Z.add_0_r, lookup_insert_eq.
  - unfold word_at. rewrite lookup_insert_ne by lia. by apply (Hf (S i)).
Qed.

Lemma syscall_exit_run v c p g rip cs fl sp ss : length (gprs c) = 15%nat -> length g = 15%nat -> c_rsp c = p - 8 ->
  frame_at (c_mem c) p (g ++ [rip; cs; fl; sp; ss]) ->
  syscall_exit (E:=E) v c = (Ok tt, mkCpu (v :: tail g) sp rip cs fl ss (c_cr3 c) (<[p := v]> (c_mem c))).
Proof.
  intros Hc Hg Hsp Hf. apply frame_at_app in Hf as [Hf1 Hf2]. unfold syscall_exit, bind. rewrite (syscall_return_run v c p g Hc Hg Hsp Hf1).
  erewrite iretq_run; [done|]. cbn [c_mem c_rsp]. unfold len in Hf2. rewrite Hg in Hf2. intros i w Hi. unfold word_at. rewrite lookup_insert_ne by lia. exact (Hf2 i w Hi).
Qed.

(** ** The software interrupt *)
Definition int80_frame (rsp0 : Z) : Z := rsp0 - rsp0 mod 16 - 160.

Lemma int80_entry_run rsp0 kernel_cs c : length (gprs c) = 15%nat ->
  exists c1, (do! int_n rsp0 kernel_cs in syscall_entry (E:=E)) c = (Ok (int80_frame rsp0), c1) /\
    frame_at (c_mem c1) (int80_frame rsp0) (user_words c) /\ gprs c1 = gprs c /\ c_rsp c1 = int80_frame rsp0 - 8 /\ c_cr3 c1 = c_cr3 c /\
    forall a, a < int80_frame rsp0 \/ int80_frame rsp0 + 160 <= a -> c_mem c1 !! a = c_mem c !! a.
Proof.
  intros Hl. set (top := rsp0 - rsp0 mod 16). set (c0 := with_stack c top (c_mem c)). set (vs := [c_ss c; c_rsp c; c_rflags c; c_cs c; c_rip c]).
  pose proof (push_values_run vs c0) as Hpush. set (cp := with_stack c0 _ _) in Hpush.
  assert (Hint : int_n (E:=E) rsp0 kernel_cs c = (Ok tt, mkCpu (gprs c) (c_rsp cp) (c_rip c) kernel_cs (Z.land (c_rflags c) (bitnot U64 0x200)) 0 (c_cr3 c) (c_mem cp))).
  { unfold int_n, bind at 1, gets. unfold bind at 1, modify at 1. change (set_field c_rsp (rsp0 - rsp0 mod 16) c) with c0. unfold bind at 1. fold vs. rewrite Hpush. reflexivity. }
  unfold bind at 1. rewrite Hint. unfold syscall_entry, bind at 1. rewrite push_all_run by done. cbn [with_stack gprs c_rsp c_mem c_rip c_cs c_rflags c_ss c_cr3].
  unfold bind, gets, modify, ret, upd. cbn [gprs c_rsp c_rip c_cs c_rflags c_ss c_cr3 c_mem]. change (c_rsp cp) with (top - 8 * 5). change (c_mem cp) with (write_down (c_mem c) top vs).
  replace (top - 8 * 5 - 120) with (int80_frame rsp0) by (unfold int80_frame; fold top; lia). eexists. split; [reflexivity|]. cbn [gprs c_rsp c_cr3 c_mem].
  assert (Hlen : len (vs ++ rev (gprs c)) = 20) by (unfold len; rewrite length_app, length_rev, Hl; reflexivity).
  assert (Hmem : write_down (write_down (c_mem c) top vs) (top - 8 * 5) (rev (gprs c)) = write_down (c_mem c) top (vs ++ rev (gprs c))) by (by rewrite write_down_app).
  rewrite Hmem. split; [|split; [done|]; split; [done|]; split; [done|]].
  - replace (int80_frame rsp0) with (top - 8 * len (vs ++ rev (gprs c))) by (rewrite Hlen; unfold int80_frame; fold top; lia).
    replace (user_words c) with (rev (vs ++ rev (gprs c))); [apply write_down_frame|]. rewrite rev_app_distr, rev_involutive. done.
  - intros a [Ha|Ha]; [apply write_down_below; rewrite Hlen|apply write_down_above]; unfold int80_frame in Ha; fold top in Ha; lia.
Qed.

(** ** The [syscall] instruction *)
Definition fast_frame (user_rsp : Z) : Z := fast_syscall_stack_top user_rsp - 160.
Definition fast_words (c : Cpu) : list Z := gprs c ++ [reg RCX c; 0x43; reg R11 c; c_rsp c; 0x3b].

Lemma fast_entry_run user_rsp c : length (gprs c) = 15%nat ->
  exists c1, fast_syscall_entry (E:=E) user_rsp c = (Ok (fast_frame user_rsp), c1) /\
    frame_at (c_mem c1) (fast_frame user_rsp) (fast_words c) /\ gprs c1 = gprs c /\ c_rsp c1 = fast_frame user_rsp - 8 /\ c_cr3 c1 = c_cr3 c /\
    word_at (c_mem c1) user_rsp = c_rsp c.
Proof.
  intros Hl. set (top := fast_syscall_stack_top user_rsp). set (m0 := <[user_rsp := c_rsp c]> (c_mem c)). set (vs := [0x3b; c_rsp c; reg R11 c; 0x43; reg RCX c]).
  assert (Htop : top = user_rsp + 65544) by (unfold top, fast_syscall_stack_top; lia).
  assert (Hread : word_at (<[top - 8 := 0x3b]> m0) user_rsp = c_rsp c) by (unfold word_at, m0; rewrite lookup_insert_ne by lia; by rewrite lookup_insert_eq).
  assert (Hrun : fast_syscall_entry (E:=E) user_rsp c =
    (do! push_all in let! frame := gets c_rsp in do! modify (upd c_rsp (fun s => s - 8)) in ret frame) (with_stack c (top - 8 * 5) (write_down m0 top vs))).
  { unfold fast_syscall_entry, bind at 1, gets. unfold bind at 1, store, modify. unfold bind at 1. change (set_field c_rsp _ _) with (with_stack c top m0).
    unfold bind at 1. rewrite push_run. cbn [with_stack gprs c_rsp c_rip c_cs c_rflags c_ss c_cr3 c_mem]. 
    unfold bind at 1. cbn [c_mem with_stack]. rewrite Hread.
    unfold bind at 1. rewrite push_run. cbn [with_stack gprs c_rsp c_rip c_cs c_rflags c_ss c_cr3 c_mem]. unfold push_reg at 1, bind at 1, bind at 1, gets. rewrite push_run.
    cbn [with_stack gprs c_rsp c_rip c_cs c_rflags c_ss c_cr3 c_mem]. unfold bind at 1. rewrite push_run. cbn [with_stack gprs c_rsp c_rip c_cs c_rflags c_ss c_cr3 c_mem].
    unfold push_reg at 1, bind at 1, bind at 1, gets. rewrite push_run. cbn [with_stack gprs c_rsp c_rip c_cs c_rflags c_ss c_cr3 c_mem].
    replace (top - 8 * 5) with (top - 8 - 8 - 8 - 8 - 8) by lia. reflexivity. }
  rewrite Hrun. unfold bind at 1. rewrite push_all_run by done. cbn [with_stack gprs c_rsp c_rip c_cs c_rflags c_ss c_cr3 c_mem].
  unfold bind, gets, modify, ret, upd. cbn [gprs c_rsp c_rip c_cs c_rflags c_ss c_cr3 c_mem].
  replace (top - 8 * 5 - 120) with (fast_frame user_rsp) by (unfold fast_frame; fold top; lia). eexists. split; [reflexivity|]. cbn [gprs c_rsp c_cr3 c_mem].
  assert (Hlen : len (vs ++ rev (gprs c)) = 20) by (unfold len; rewrite length_app, length_rev, Hl; reflexivity).
  assert (Hmem : write_down (write_down m0 top vs) (top - 8 * 5) (rev (gprs c)) = write_down m0 top (vs ++ rev (gprs c))) by (by rewrite write_down_app).
  rewrite Hmem. split; [|split; [done|]; split; [done|]; split; [done|]].
  - replace (fast_frame user_rsp) with (top - 8 * len (vs ++ rev (gprs c))) by (rewrite Hlen; unfold fast_frame; fold top; lia).
    replace (fast_words c) with (rev (vs ++ rev (gprs c))); [apply write_down_frame|]. rewrite rev_app_distr, rev_involutive. done.
  - cbn [c_mem with_stack]. unfold word_at. rewrite write_down_below by (rewrite Hlen; lia). unfold m0. by rewrite lookup_insert_eq.
Qed.

Lemma pop_reg_run r c : pop_reg (E:=E) r c = (Ok tt, mkCpu (<[r := word_at (c_mem c) (c_rsp c)]> (gprs c)) (c_rsp c + 8) (c_rip c) (c_cs c) (c_rflags c) (c_ss c) (c_cr3 c) (c_mem c)).
Proof. by destruct c. Qed.

Lemma fast_exit_run user_rsp star v c g rip fl x y : length (gprs c) = 15%nat -> length g = 15%nat -> c_rsp c = fast_frame user_rsp - 8 ->
  frame_at (c_mem c) (fast_frame user_rsp) (g ++ [rip; x; fl; y]) ->
  fast_syscall_exit (E:=E) user_rsp star v c = (Ok tt, mkCpu (<[R11 := fl]> (<[RCX := rip]> (v :: tail g))) (word_at (c_mem c) user_rsp) rip (Z.lor (bits star 48 16 + 16) 3) (sysret_flags fl)
    (Z.lor (bits star 48 16 + 8) 3) (c_cr3 c) (<[fast_frame user_rsp := v]> (c_mem c))).
Proof.
  intros Hc Hg Hsp Hf. apply frame_at_app in Hf as [Hf1 Hf2]. unfold fast_syscall_exit, bind at 1. rewrite (syscall_return_run v c _ g Hc Hg Hsp Hf1).
  set (p := fast_frame user_rsp) in *. assert (Hp : p = user_rsp + 65384) by (unfold p, fast_frame, fast_syscall_stack_top; lia).
  assert (Hw : forall a, a <> p -> word_at (<[p := v]> (c_mem c)) a = word_at (c_mem c) a) by (intros a Ha; unfold word_at; by rewrite lookup_insert_ne).
  unfold len in Hf2. rewrite Hg in Hf2. pose proof (Hf2 0%nat _ eq_refl) as H0. pose proof (Hf2 2%nat _ eq_refl) as H2.
  replace (p + 8 * Z.of_nat 15 + 8 * Z.of_nat 0) with (p + 120) in H0 by lia. replace (p + 8 * Z.of_nat 15 + 8 * Z.of_nat 2) with (p + 120 + 8 + 8) in H2 by lia.
  unfold bind at 1. rewrite pop_reg_run. cbn [gprs c_rsp c_rip c_cs c_rflags c_ss c_cr3 c_mem]. unfold bind at 1, modify at 1, upd at 1. cbn [gprs c_rsp c_rip c_cs c_rflags c_ss c_cr3 c_mem].
  unfold bind at 1. rewrite pop_reg_run. cbn [gprs c_rsp c_rip c_cs c_rflags c_ss c_cr3 c_mem]. unfold bind at 1, gets. cbn [c_mem]. unfold bind at 1, modify at 1, set_field, upd at 1.
  unfold sysretq, modify, reg. cbn [gprs c_rsp c_rip c_cs c_rflags c_ss c_cr3 c_mem].
  rewrite !Hw by lia. rewrite H0, H2. set (gs := v :: tail g). assert (Hgs : length gs = 15%nat) by (unfold gs; destruct g; done). clearbody gs.
  assert (Hrcx : nth RCX (<[R11 := fl]> (<[RCX := rip]> gs)) 0 = rip) by (rewrite nth_lookup, list_lookup_insert_ne, list_lookup_insert_eq by (unfold RCX, R11; lia); done).
  assert (Hr11 : nth R11 (<[R11 := fl]> (<[RCX := rip]> gs)) 0 = fl) by (rewrite nth_lookup, list_lookup_insert_eq by (rewrite length_insert; unfold R11; lia); done).
  by rewrite Hrcx, Hr11.
Qed.
End facts.

(** ** What the user sees of a system call *)

(** [init_syscall_msrs]: the selectors that [SYSCALL] and [SYSRET] load. *)
Definition syscall_star (code_selector : Z) : Z :=
  let sysret_base := USER_DATA_SELECTOR - 8 in
  Z.lor (Z.shiftl (Z.lor sysret_base 3) 48) (Z.shiftl code_selector 32).

(** The kernel ran in between and left the words from [p] to [q] as they were. *)
Definition kept (p q : Z) (m m' : gmap Z Z) : Prop := forall a, p <= a < q -> word_at m' a = word_at m a.

Lemma kept_frame p q m m' ws : kept p q m m' -> p + 8 * len ws <= q -> frame_at m p ws -> frame_at m' p ws.
Proof. intros Hk Hn Hf i w Hi. rewrite <- (Hf i w Hi). apply Hk. apply lookup_lt_Some in Hi. unfold len in Hn. lia. Qed.

Lemma user_words_len c : length (gprs c) = 15%nat -> len (user_words c) = 20.
Proof. intros Hl. unfold user_words, len. rewrite length_app, Hl. reflexivity. Qed.

Lemma star_syscall : bits (syscall_star KERNEL_CODE_SELECTOR) 32 16 = KERNEL_CODE_SELECTOR.
Proof. vm_compute. reflexivity. Qed.
Lemma star_sysret : Z.lor (bits (syscall_star KERNEL_CODE_SELECTOR) 48 16 + 16) 3 = 0x43 /\ Z.lor (bits (syscall_star KERNEL_CODE_SELECTOR) 48 16 + 8) 3 = 0x3b.
Proof. vm_compute. split; reflexivity. Qed.

Lemma restored_regs (v rip fl : Z) (g : list Z) :
  <[R11 := fl]> (<[RCX := rip]> (v :: tail (<[R11 := fl]> (<[RCX := rip]> g)))) = <[R11 := fl]> (<[RCX := rip]> (v :: tail g)).
Proof.
  destruct g as [|g0 g]; [done|]. change (v :: tail (<[R11 := fl]> (<[RCX := rip]> (g0 :: g)))) with (<[R11 := fl]> (<[RCX := rip]> (v :: g))). cbn [tail].
  by rewrite (list_insert_insert_ne _ RCX R11), !list_insert_insert_eq by done.
Qed.

Lemma bind_ok {S E A B} (m : M S E A) (k : A -> M S E B) s a s' : m s = (Ok a, s') -> bind m k s = k a s'.
Proof. intros H. unfold bind. by rewrite H. Qed.

Section roundtrips.
Context {E : Type}.

Lemma syscall_insn_run star fmask c : syscall_insn (E:=E) star fmask c =
  (Ok tt, mkCpu (<[R11 := c_rflags c]> (<[RCX := c_rip c]> (gprs c))) (c_rsp c) (c_rip c) (bits star 32 16) (Z.land (c_rflags c) (bitnot U64 fmask)) (bits star 32 16 + 8) (c_cr3 c) (c_mem c)).
Proof. by destruct c. Qed.

(** C36. A system call by software interrupt gives the user every register back. The entry
    leaves the twenty words of the frame (the fifteen registers, then instruction pointer,
    code segment, flags, stack pointer and stack segment) on the kernel stack, 160 bytes below
    its aligned top, hands the handler the address of that frame, and writes nowhere else.
    When the kernel comes back with that stack pointer and address space and has not written
    to these 160 bytes, the exit with result [v] returns to the instruction after the call
    with the user's stack, flags and segments, [rax] holds [v] and the other registers what
    they held before. When instead [v] was stored as the frame's first word and the thread is
    resumed later from the frame, it finds the same, whatever the other threads did in
    between, again as long as nobody wrote to the frame. *)
Theorem int80_roundtrip (c : Cpu) (rsp0 kernel_cs : Z) (Hc : length (gprs c) = 15%nat) :
  let p := rsp0 - rsp0 mod 16 - 160 in
  let user_state v m' := mkCpu (v :: tail (gprs c)) (c_rsp c) (c_rip c) (c_cs c) (c_rflags c) (c_ss c) (c_cr3 c) m' in
  exists c1, (do! int_n rsp0 kernel_cs in syscall_entry (E:=E)) c = (Ok p, c1) /\
    frame_at (c_mem c1) p (gprs c ++ [c_rip c; c_cs c; c_rflags c; c_rsp c; c_ss c]) /\
    (forall a, a < p \/ p + 160 <= a -> c_mem c1 !! a = c_mem c !! a) /\
    (forall c2 v, length (gprs c2) = 15%nat -> c_rsp c2 = c_rsp c1 -> c_cr3 c2 = c_cr3 c -> kept p (p + 160) (c_mem c1) (c_mem c2) ->
      exists m', syscall_exit (E:=E) v c2 = (Ok tt, user_state v m')) /\
    (forall c3 ctx v, length (gprs c3) = 15%nat -> kind ctx = 1 -> rsp ctx = p -> cr3 ctx = c_cr3 c -> kept p (p + 160) (<[p := v]> (c_mem c1)) (c_mem c3) ->
      exists m', resume_with_cr3 (E:=E) ctx c3 = (Ok tt, user_state v m')).
Proof.
  intros p user_state. destruct (int80_entry_run (E:=E) rsp0 kernel_cs c Hc) as (c1 & Hrun & Hf & _ & Hsp & _ & Hrest). change (int80_frame rsp0) with p in *.
  pose proof (user_words_len c Hc) as Hlen. exists c1. split; [exact Hrun|]. split; [exact Hf|]. split; [exact Hrest|]. split.
  - intros c2 v Hg2 Hs2 Hr2 Hk2. exists (<[p := v]> (c_mem c2)). unfold user_state. rewrite <- Hr2.
    rewrite (syscall_exit_run v c2 p (gprs c) (c_rip c) (c_cs c) (c_rflags c) (c_rsp c) (c_ss c)); [done|done|done|congruence|].
    apply (kept_frame _ _ _ _ (user_words c) Hk2); [lia|exact Hf].
  - intros c3 ctx v Hg3 Hkind Hrsp Hcr Hk3. exists (c_mem c3). unfold user_state. rewrite <- Hcr. unfold user_words in Hf, Hlen. destruct (gprs c) as [|g0 g]; [discriminate Hc|]. cbn [tail].
    apply (resume_user_run ctx c3 (v :: g) (c_rip c) (c_cs c) (c_rflags c) (c_rsp c) (c_ss c) Hg3 Hc Hkind). rewrite Hrsp.
    apply (kept_frame _ _ _ _ ((v :: g) ++ [c_rip c; c_cs c; c_rflags c; c_rsp c; c_ss c]) Hk3).
    + change (len ((v :: g) ++ [c_rip c; c_cs c; c_rflags c; c_rsp c; c_ss c])) with (len ((g0 :: g) ++ [c_rip c; c_cs c; c_rflags c; c_rsp c; c_ss c])). rewrite Hlen. lia.
    + intros [|i] w Hi.
      * injection Hi as <-. unfold word_at. rewrite Z.mul_0_r, Z.add_0_r, lookup_insert_eq. reflexivity.
      * unfold word_at. rewrite lookup_insert_ne by lia. exact (Hf (S i) w Hi).
Qed.

(** A system call by the [syscall] instruction returns to the instruction after it
    with the user's stack, segments and flags; [rax] holds the result, [rcx] and [r11]
    the return address and the flags, as the instruction leaves them, and the other
    registers what they held before. *)
Theorem fast_syscall_roundtrip (c c1 c2 : Cpu) (user_rsp fmask v p : Z)
    (Hc : length (gprs c) = 15%nat) (Huser : c_cs c = 0x43 /\ c_ss c = 0x3b /\ sysret_flags (c_rflags c) = c_rflags c)
    (Hentry : (do! syscall_insn (syscall_star KERNEL_CODE_SELECTOR) fmask in fast_syscall_entry (E:=E) user_rsp) c = (Ok p, c1))
    (H2 : length (gprs c2) = 15%nat /\ c_rsp c2 = c_rsp c1 /\ c_cr3 c2 = c_cr3 c /\ kept p (p + 160) (c_mem c1) (c_mem c2) /\
          word_at (c_mem c2) user_rsp = word_at (c_mem c1) user_rsp) :
  exists m', fast_syscall_exit (E:=E) user_rsp (syscall_star KERNEL_CODE_SELECTOR) v c2 =
    (Ok tt, mkCpu (<[R11 := c_rflags c]> (<[RCX := c_rip c]> (v :: tail (gprs c)))) (c_rsp c) (c_rip c) (c_cs c) (c_rflags c) (c_ss c) (c_cr3 c) m').
Proof.
  set (g := <[R11 := c_rflags c]> (<[RCX := c_rip c]> (gprs c))). assert (Hg : length g = 15%nat) by (unfold g; by rewrite !length_insert).
  rewrite (bind_ok _ _ _ _ _ (syscall_insn_run _ fmask c)), star_syscall in Hentry. fold g in Hentry. set (c0 := mkCpu g _ _ _ _ _ _ _) in Hentry.
  destruct (fast_entry_run (E:=E) user_rsp c0 Hg) as (c1' & Hrun & Hf & _ & Hsp & _ & Hw). rewrite Hrun in Hentry. injection Hentry as <- <-.
  destruct H2 as (Hg2 & Hs2 & Hr2 & Hk2 & Hw2), Huser as (Hcs & Hss & Hfl).
  assert (Hrcx : reg RCX c0 = c_rip c) by (unfold reg, c0, g; cbn [gprs]; rewrite nth_lookup, list_lookup_insert_ne, list_lookup_insert_eq by (unfold RCX, R11; lia); done).
  assert (Hr11 : reg R11 c0 = c_rflags c) by (unfold reg, c0, g; cbn [gprs]; rewrite nth_lookup, list_lookup_insert_eq by (rewrite length_insert; unfold R11; lia); done).
  unfold fast_words in Hf. rewrite Hrcx, Hr11 in Hf. change (gprs c0) with g in Hf.
  rewrite (fast_exit_run user_rsp (syscall_star KERNEL_CODE_SELECTOR) v c2 g (c_rip c) (c_rflags c) 0x43 (c_rsp c0) Hg2 Hg); [|congruence|].
  - rewrite Hw2, Hw, Hr2, Hfl, Hcs, Hss, (proj1 star_sysret), (proj2 star_sysret). unfold g. rewrite restored_regs. eexists. reflexivity.
  - intros i w Hi. apply (kept_frame _ _ _ _ (g ++ [c_rip c; 0x43; c_rflags c; c_rsp c0; 0x3b]) Hk2); [unfold len; rewrite length_app, Hg; cbn [length]; lia|exact Hf|].
    change [c_rip c; 67; c_rflags c; c_rsp c0; 59] with ([c_rip c; 67; c_rflags c; c_rsp c0] ++ [59]). rewrite app_assoc. by apply lookup_app_l_Some.
Qed.

(** Every thread that enters by the [syscall] instruction is saved at the same
    place of one stack. When one thread gives up the processor in a system call and a
    second one makes a system call before the first is resumed, the first is resumed
    with all the registers, the stack and the instruction pointer of the second. *)
Theorem fast_syscall_frames_collide (a a1 b b1 c : Cpu) (user_rsp p q : Z) (ctx : TaskContext)
    (Ha : length (gprs a) = 15%nat /\ fast_syscall_entry (E:=E) user_rsp a = (Ok p, a1))
    (Hb : length (gprs b) = 15%nat /\ fast_syscall_entry (E:=E) user_rsp b = (Ok q, b1))
    (Hc : length (gprs c) = 15%nat /\ c_mem c = c_mem b1) (Hctx : kind ctx = 1 /\ rsp ctx = p) :
  p = q /\ resume_with_cr3 (E:=E) ctx c = (Ok tt, mkCpu (gprs b) (c_rsp b) (reg RCX b) 0x43 (reg R11 b) 0x3b (cr3 ctx) (c_mem c)).
Proof.
  destruct Ha as [Hga Hea], Hb as [Hgb Heb], Hc as [Hgc Hm], Hctx as [Hk Hr].
  destruct (fast_entry_run (E:=E) user_rsp a Hga) as (a1' & Hra & _). rewrite Hra in Hea. injection Hea as <- <-.
  destruct (fast_entry_run (E:=E) user_rsp b Hgb) as (b1' & Hrb & Hf & _). rewrite Hrb in Heb. injection Heb as <- <-. split; [done|].
  rewrite (resume_user_run ctx c (gprs b) (reg RCX b) 0x43 (reg R11 b) (c_rsp b) 0x3b); [done..|]. by rewrite Hr, Hm.
Qed.

(** The handler of a software interrupt is called with a misaligned stack: where
    the calling convention asks for a multiple of 16 at the call, the pushed frame is
    one already and the eight bytes of padding take it off. *)
Theorem int80_call_misaligned (c c1 : Cpu) (rsp0 kernel_cs p : Z) (Hc : length (gprs c) = 15%nat)
    (Hentry : (do! int_n rsp0 kernel_cs in syscall_entry (E:=E)) c = (Ok p, c1)) : c_rsp c1 mod 16 = 8.
Proof.
  destruct (int80_entry_run (E:=E) rsp0 kernel_cs c Hc) as (c1' & Hrun & _ & _ & Hsp & _). rewrite Hrun in Hentry. injection Hentry as <- <-.
  rewrite Hsp. unfold int80_frame. Z.to_euclidean_division_equations. lia.
Qed.
End roundtrips.

(** A user thread in the middle of its program. *)
Definition demo_user (first : Z) : Cpu := mkCpu (seqZ first 15) 0x7fff0000 0x401000 0x43 0x202 0x3b 0x1000 ∅.
Definition demo_entered : Cpu := snd ((do! int_n 0x104000 KERNEL_CODE_SELECTOR in syscall_entry (E:=unit)) (demo_user 10)).
Lemma int80_roundtrip_witness : exists c1,
  (do! int_n 0x104000 KERNEL_CODE_SELECTOR in syscall_entry (E:=unit)) (demo_user 10) = (Ok 0x103f60, c1) /\
  (exists m', syscall_exit (E:=unit) 77 c1 = (Ok tt, mkCpu (77 :: seqZ 11 14) 0x7fff0000 0x401000 0x43 0x202 0x3b 0x1000 m')) /\
  (exists m', resume_with_cr3 (E:=unit) (mkContext 0x103f60 0 0 0 0 0 0 0x1000 1 0x104000) (set_field c_mem (<[0x103f60 := 77]> (c_mem c1)) (demo_user 50)) =
    (Ok tt, mkCpu (77 :: seqZ 11 14) 0x7fff0000 0x401000 0x43 0x202 0x3b 0x1000 m')).
Proof.
  destruct (int80_roundtrip (E:=unit) (demo_user 10) 0x104000 KERNEL_CODE_SELECTOR eq_refl) as (c1 & Hrun & _ & _ & Hexit & Hresume).
  assert (Hc1 : c1 = demo_entered) by (unfold demo_entered; by rewrite Hrun). exists c1. split; [exact Hrun|]. split.
  - apply (Hexit c1 77); [subst c1; vm_compute; reflexivity|reflexivity|subst c1; vm_compute; reflexivity|]. intros a _. reflexivity.
  - apply (Hresume (set_field c_mem (<[0x103f60 := 77]> (c_mem c1)) (demo_user 50))); [reflexivity|reflexivity|reflexivity|reflexivity|]. intros a _. reflexivity.
Defined.

Definition demo_fast : Cpu := snd ((do! syscall_insn (syscall_star KERNEL_CODE_SELECTOR) 0x200 in fast_syscall_entry (E:=unit) 0x200000) (demo_user 10)).
Lemma fast_syscall_roundtrip_witness :
  exists m', fast_syscall_exit (E:=unit) 0x200000 (syscall_star KERNEL_CODE_SELECTOR) 77 demo_fast =
    (Ok tt, mkCpu (<[R11 := 0x202]> (<[RCX := 0x401000]> (77 :: seqZ 11 14))) 0x7fff0000 0x401000 0x43 0x202 0x3b 0x1000 m').
Proof.
  apply (fast_syscall_roundtrip (E:=unit) (demo_user 10) demo_fast demo_fast 0x200000 0x200 77 (fast_frame 0x200000)).
  - reflexivity.
  - vm_compute. auto.
  - vm_compute. reflexivity.
  - split; [vm_compute; reflexivity|]. split; [reflexivity|]. split; [vm_compute; reflexivity|]. split; [intros a _; reflexivity|reflexivity].
Defined.

Lemma fast_syscall_frames_collide_witness :
  fast_frame 0x200000 = fast_frame 0x200000 /\
  resume_with_cr3 (E:=unit) (mkContext (fast_frame 0x200000) 0 0 0 0 0 0 0x1000 1 0x104000) (snd (fast_syscall_entry (E:=unit) 0x200000 (demo_user 50))) =
    (Ok tt, mkCpu (seqZ 50 15) 0x7fff0000 53 0x43 60 0x3b 0x1000 (c_mem (snd (fast_syscall_entry (E:=unit) 0x200000 (demo_user 50))))).
Proof.
  apply (fast_syscall_frames_collide (E:=unit) (demo_user 10) (snd (fast_syscall_entry (E:=unit) 0x200000 (demo_user 10))) (demo_user 50)
    (snd (fast_syscall_entry (E:=unit) 0x200000 (demo_user 50))) (snd (fast_syscall_entry (E:=unit) 0x200000 (demo_user 50))) 0x200000).
  - split; [reflexivity|vm_compute; reflexivity].
  - split; [reflexivity|vm_compute; reflexivity].
  - split; [vm_compute; reflexivity|reflexivity].
  - split; reflexivity.
Defined.

Lemma int80_call_misaligned_witness : c_rsp demo_entered mod 16 = 8.
Proof. apply (int80_call_misaligned (E:=unit) (demo_user 10) demo_entered 0x104000 KERNEL_CODE_SELECTOR 0x103f60); [reflexivity|vm_compute; reflexivity]. Defined.
