(* ===== verification/Apic.v ===== *)
(** * The timer of the local APIC: [kernel/src/arch/x86_64/apic.rs]

    [Lapic] is the module's globals, the interrupt flag, the masks of the legacy
    controller and the writes to the APIC's registers, in order; [apic_init] gives the
    value a register had before the first write. While the kernel waits for the first
    tick, [waits] says, for each round of the loop, how many timer interrupts arrived
    before it and what the clock shows; interrupts arrive only while they are on. *)
From stdpp Require Import base list numbers option strings.
From Stdlib Require Import ZArith Lia Bool.
From S2P Require Import Prelude Paths Text Machine Frame Vmm Paging.

Definition TIMER_VECTOR : Z := 0x20.
Definition SPURIOUS_VECTOR : Z := 0xff.
Definition PIC_MASTER_DATA : Z := 0x21.
Definition PIC_SLAVE_DATA : Z := 0xa1.
Definition APIC_TPR : Z := 0x80.
Definition APIC_EOI : Z := 0x0b0.
Definition APIC_SVR : Z := 0x0f0.
Definition APIC_LVT_TIMER : Z := 0x320.
Definition APIC_TIMER_INITIAL_COUNT : Z := 0x380.
Definition APIC_TIMER_DIVIDE : Z := 0x3e0.
Definition APIC_SVR_ENABLE : Z := Z.shiftl 1 8.
Definition APIC_LVT_MASKED : Z := Z.shiftl 1 16.
Definition APIC_LVT_TIMER_PERIODIC : Z := Z.shiftl 1 17.
Definition APIC_TIMER_DIVIDE_BY_16 : Z := 3.
Definition APIC_TIMER_DIVIDE_VALUE : Z := 16.
Definition APIC_TIMER_INITIAL_TICKS : Z := 1000000.
Definition APIC_PERIODIC_INITIAL_TICKS : Z := 250000.
Definition APIC_TIMER_TIMEOUT_NS : Z := 500000000.

Record TimerBringUp : Type := mkBringUp { tu_vector : Z; tu_divide_value : Z; tu_initial_count : Z; ticks_observed : Z }.
Record PeriodicTimer : Type := mkPeriodic { pt_vector : Z; pt_divide_value : Z; pt_initial_count : Z }.

Inductive TimerError : Type := ApicUnsupported | X2ApicModeUnsupported | GlobalEnableMissing | MissingBaseAddress | ApicPageTableAllocationFailed | TimerTimeout.
Definition timer_error_str (e : TimerError) : list Z :=
  match e with
  | ApicUnsupported => lit "local APIC is not supported"
  | X2ApicModeUnsupported => lit "x2APIC mode is active but not supported yet"
  | GlobalEnableMissing => lit "local APIC is not globally enabled"
  | MissingBaseAddress => lit "local APIC base address is missing"
  | ApicPageTableAllocationFailed => lit "failed to allocate a page-table page for APIC MMIO"
  | TimerTimeout => lit "timer interrupt did not arrive before timeout"
  end.
Definition timer_error_from (e : MapError) : TimerError :=
  match e with AddressOverflow => MissingBaseAddress | PageTableAllocationFailed => ApicPageTableAllocationFailed end.

Record Lapic : Type := mkLapic {
  apic_base_virtual : Z; timer_ticks : Z; timer_log_budget : Z; spurious_reported : bool;
  la_interrupts : bool; la_pic : list (Z * Z); la_writes : list (Z * Z); la_log : list (list Z); la_paging : Paging }.
#[export] Instance Lapic_eta : RecordEta Lapic := fun a =>
  mkLapic (apic_base_virtual a) (timer_ticks a) (timer_log_budget a) (spurious_reported a) (la_interrupts a) (la_pic a) (la_writes a) (la_log a) (la_paging a).

Section apic.
Variables (cr3 : Z) (apic_init : Z -> Z).
Let A (T : Type) : Type := M Lapic TimerError T.

(** The value of a register: the last write to it. *)
Definition reg_value (writes : list (Z * Z)) (offset : Z) : Z := default (apic_init offset) (snd <$> List.find (fun w => fst w =? offset) (rev writes)).
Definition write_register (offset value : Z) : A unit := modify (upd la_writes (fun w => w ++ [(offset, value)])).
Definition read_register (offset : Z) : A Z := gets (fun a => reg_value (la_writes a) offset).
Definition log_line (line : list Z) : A unit := modify (upd la_log (fun l => l ++ [line])).
Definition enable_interrupts : A unit := modify (set_field la_interrupts true).
Definition disable_interrupts : A unit := modify (set_field la_interrupts false).

Definition mask_legacy_pic : A unit := modify (upd la_pic (fun p => p ++ [(PIC_MASTER_DATA, 0xff); (PIC_SLAVE_DATA, 0xff)])).
Definition mask_timer : A unit :=
  do! write_register APIC_LVT_TIMER (Z.lor APIC_LVT_MASKED TIMER_VECTOR) in
  write_register APIC_TIMER_INITIAL_COUNT 0.
Definition mask_periodic_timer : A unit := mask_timer.
Definition end_of_interrupt : A unit :=
  let! base := gets apic_base_virtual in if negb (base =? 0) then write_register APIC_EOI 0 else ret tt.

Definition handle_timer_interrupt : A Z :=
  do! modify (upd timer_ticks (fun t => wrap_add U64 t 1)) in
  let! tick := gets timer_ticks in
  let! remaining_logs := gets timer_log_budget in
  do! (if negb (remaining_logs =? 0) then
         do! modify (set_field timer_log_budget (remaining_logs - 1)) in
         log_line (lit "HXNU: apic timer interrupt tick=" ++ dec tick)
       else ret tt) in
  do! end_of_interrupt in
  ret tick.

Definition handle_spurious_interrupt : A unit :=
  let! reported := gets spurious_reported in
  do! modify (set_field spurious_reported true) in
  if reported : bool then ret tt else log_line (lit "HXNU: apic spurious interrupt").

Definition ensure_timer_ready (hhdm_offset : Z) (cpu : CpuInfo) : A unit :=
  if negb (local_apic_supported cpu) then throw ApicUnsupported else
  if x2apic_enabled cpu then throw X2ApicModeUnsupported else
  if negb (apic_global_enabled cpu) then throw GlobalEnableMissing else
  if apic_base cpu =? 0 then throw MissingBaseAddress else
  let! va := catch (zoom la_paging (fun p a => set_field la_paging p a)
      (ensure_region_mapped cr3 hhdm_offset (apic_base cpu) 4096 (Z.lor FLAG_WRITE_THROUGH FLAG_CACHE_DISABLE)))
    (fun r => match r with inl va => ret va | inr e => throw (timer_error_from e) end) in
  do! modify (set_field apic_base_virtual va) in
  do! mask_legacy_pic in
  do! write_register APIC_TPR 0 in
  let! svr := read_register APIC_SVR in
  write_register APIC_SVR (Z.lor (Z.lor (Z.land svr (bitnot U32 0xff)) APIC_SVR_ENABLE) SPURIOUS_VECTOR).

(** One round of the wait: the interrupts that arrived, then the test of the count and of the clock. *)
Definition wait_step (deadline : Z) (waits : list (nat * Z)) : A (list (nat * Z) + unit) :=
  match waits with
  | [] => diverge
  | (arrived, now) :: rest =>
      do! for_each (replicate arrived tt) (fun _ => do! handle_timer_interrupt in ret tt) in
      let! ticks := gets timer_ticks in
      if negb (ticks =? 0) then ret (inr tt) else
      if deadline <=? now then
        do! disable_interrupts in do! mask_timer in throw TimerTimeout
      else ret (inl rest)
  end.

Definition initialize_timer (hhdm_offset : Z) (cpu : CpuInfo) (now : Z) (waits : list (nat * Z)) : A TimerBringUp :=
  do! ensure_timer_ready hhdm_offset cpu in
  do! modify (set_field timer_ticks 0) in
  do! modify (set_field timer_log_budget 1) in
  do! write_register APIC_LVT_TIMER (Z.lor APIC_LVT_MASKED TIMER_VECTOR) in
  do! write_register APIC_TIMER_DIVIDE APIC_TIMER_DIVIDE_BY_16 in
  do! write_register APIC_TIMER_INITIAL_COUNT 0 in
  do! write_register APIC_LVT_TIMER TIMER_VECTOR in
  do! write_register APIC_TIMER_INITIAL_COUNT APIC_TIMER_INITIAL_TICKS in
  let deadline := sat_add U64 now APIC_TIMER_TIMEOUT_NS in
  do! enable_interrupts in
  do! loop (S (length waits)) (wait_step deadline) waits in
  do! disable_interrupts in
  do! mask_timer in
  let! ticks := gets timer_ticks in
  ret (mkBringUp TIMER_VECTOR APIC_TIMER_DIVIDE_VALUE APIC_TIMER_INITIAL_TICKS ticks).

Definition start_periodic_timer (hhdm_offset : Z) (cpu : CpuInfo) : A PeriodicTimer :=
  do! ensure_timer_ready hhdm_offset cpu in
  do! modify (set_field timer_ticks 0) in
  do! modify (set_field timer_log_budget 0) in
  do! write_register APIC_LVT_TIMER (Z.lor APIC_LVT_MASKED TIMER_VECTOR) in
  do! write_register APIC_TIMER_DIVIDE APIC_TIMER_DIVIDE_BY_16 in
  do! write_register APIC_LVT_TIMER (Z.lor APIC_LVT_TIMER_PERIODIC TIMER_VECTOR) in
  do! write_register APIC_TIMER_INITIAL_COUNT APIC_PERIODIC_INITIAL_TICKS in
  ret (mkPeriodic TIMER_VECTOR APIC_TIMER_DIVIDE_VALUE APIC_PERIODIC_INITIAL_TICKS).
End apic.

(** * Facts *)
Section facts.
Variables (cr3 : Z) (apic_init : Z -> Z).

(** The end-of-interrupt writes of [n] ticks. *)
Definition eois (a : Lapic) (n : nat) : list (Z * Z) := if apic_base_virtual a =? 0 then [] else replicate n (APIC_EOI, 0).
(** [n] timer interrupts were served between [a] and [a']. *)
Definition ticked (n : nat) (a a' : Lapic) : Prop :=
  timer_ticks a' = (timer_ticks a + Z.of_nat n) mod U64 /\ la_writes a' = la_writes a ++ eois a n /\ la_interrupts a' = la_interrupts a /\
  apic_base_virtual a' = apic_base_virtual a /\ la_pic a' = la_pic a.

Lemma eois_S a n : eois a (S n) = eois a 1 ++ eois a n.
Proof. unfold eois. by destruct (_ =? 0). Qed.

Lemma eoi_run a : end_of_interrupt a = (Ok tt, set_field la_writes (la_writes a ++ eois a 1) a).
Proof.
  unfold end_of_interrupt, bind, gets, eois. destruct (apic_base_virtual a =? 0); cbn [negb]; [|done]. rewrite app_nil_r. by destruct a.
Qed.

Lemma handle_run a : 0 <= timer_ticks a < U64 -> exists t a', handle_timer_interrupt a = (Ok t, a') /\ ticked 1 a a'.
Proof.
  intros Ht. unfold handle_timer_interrupt, bind at 1, modify at 1. set (a1 := upd timer_ticks _ a). unfold bind at 1, gets at 1. unfold bind at 1, gets at 1.
  assert (Hend : forall a2, timer_ticks a2 = timer_ticks a1 -> la_writes a2 = la_writes a -> la_interrupts a2 = la_interrupts a -> apic_base_virtual a2 = apic_base_virtual a -> la_pic a2 = la_pic a ->
    exists t a', (do! end_of_interrupt in ret (timer_ticks a1)) a2 = (Ok t, a') /\ ticked 1 a a').
  { intros a2 T W I B P. unfold bind. rewrite eoi_run. eexists _, _. split; [reflexivity|]. unfold ticked, set_field, upd. cbn [timer_ticks la_writes la_interrupts apic_base_virtual la_pic].
    split; [by rewrite T|]. split; [rewrite W; unfold eois; by rewrite B|]. done. }
  unfold bind at 1. destruct (negb (timer_log_budget a1 =? 0)); [|by apply Hend]. unfold bind at 1, modify at 1, log_line, modify at 1. by apply Hend.
Qed.

Lemma ticked_trans n a a1 a2 : 0 <= timer_ticks a -> ticked 1 a a1 -> ticked n a1 a2 -> ticked (S n) a a2.
Proof.
  intros Ht (T1 & W1 & I1 & B1 & P1) (T2 & W2 & I2 & B2 & P2). split; [|split; [|split; [congruence|split; congruence]]].
  - rewrite T2, T1. rewrite Zplus_mod_idemp_l. f_equal. lia.
  - rewrite W2, W1, (eois_S a n), app_assoc. f_equal. unfold eois. by rewrite B1.
Qed.

Lemma apic_serve_run n : forall a, 0 <= timer_ticks a < U64 ->
  exists a', for_each (replicate n tt) (fun _ => do! handle_timer_interrupt in ret tt) a = (Ok tt, a') /\ ticked n a a'.
Proof.
  induction n as [|n IH]; intros a Ht; cbn [replicate for_each].
  - exists a. split; [done|]. split; [by rewrite Z.add_0_r, Z.mod_small|]. split; [unfold eois; destruct (_ =? 0); by rewrite app_nil_r|done].
  - destruct (handle_run a Ht) as (t & a1 & Hrun & H1). assert (Ht1 : 0 <= timer_ticks a1 < U64) by (destruct H1 as (-> & _); apply Z.mod_pos_bound; lia).
    destruct (IH a1 Ht1) as (a2 & Hrun2 & H2). exists a2. split; [|apply (ticked_trans n a a1); [lia|done|done]]. unfold bind at 1 2. rewrite Hrun. cbn [ret]. unfold ret. exact Hrun2.
Qed.

(** The wait ends: in some round an interrupt has arrived or the deadline has passed. *)
Definition settles (deadline : Z) (waits : list (nat * Z)) : Prop :=
  Exists (fun w => w.1 <> 0%nat \/ deadline <= w.2) waits /\ Forall (fun w => Z.of_nat w.1 < U64) waits.

Definition MASK_WRITES : list (Z * Z) := [(APIC_LVT_TIMER, Z.lor APIC_LVT_MASKED TIMER_VECTOR); (APIC_TIMER_INITIAL_COUNT, 0)].
Lemma mask_run a : mask_timer a = (Ok tt, set_field la_writes (la_writes a ++ MASK_WRITES) a).
Proof. unfold mask_timer, write_register, bind, modify, set_field, upd. cbn [la_writes]. by rewrite <- app_assoc. Qed.

Lemma wait_run deadline waits : forall a fuel, timer_ticks a = 0 -> settles deadline waits -> (length waits < fuel)%nat ->
  exists o a', loop fuel (wait_step deadline) waits a = (o, a') /\
    ((o = Ok tt /\ exists n, n <> 0%nat /\ Z.of_nat n < U64 /\ ticked n a a') \/
     (o = Err TimerTimeout /\ timer_ticks a' = 0 /\ la_interrupts a' = false /\ apic_base_virtual a' = apic_base_virtual a /\
      la_writes a' = la_writes a ++ MASK_WRITES)).
Proof.
  induction waits as [|[n now] waits IH]; intros a fuel Ht [Hex Hall] Hfuel; [by inversion Hex|]. destruct fuel as [|fuel]; [cbn in Hfuel; lia|].
  apply Forall_cons_iff in Hall as [Hn Hall]. cbn in Hn. cbn [loop]. unfold bind at 1, wait_step at 1.
  destruct (apic_serve_run n a) as (a1 & Hrun & H1); [lia|]. unfold bind at 1. rewrite Hrun. unfold bind at 1, gets.
  pose proof H1 as (T1 & W1 & I1 & B1 & P1). rewrite Ht, Z.add_0_l, Z.mod_small in T1 by lia. rewrite T1.
  destruct (Z.eqb_spec (Z.of_nat n) 0) as [Hz|Hz]; cbn [negb].
  - assert (n = 0%nat) as -> by lia. assert (Heois : la_writes a1 = la_writes a) by (rewrite W1; unfold eois; destruct (_ =? 0); by rewrite app_nil_r).
    destruct (Z.leb_spec deadline now).
    + unfold bind at 1, disable_interrupts, modify at 1. unfold bind at 1. rewrite mask_run. eexists _, _. split; [reflexivity|]. right. unfold set_field, upd.
      cbn [timer_ticks la_interrupts apic_base_virtual la_writes]. by rewrite Heois.
    + cbn [ret]. unfold ret. destruct (IH a1 fuel) as (o & a2 & Hloop & Hcases); [lia| |cbn in Hfuel; lia|].
      { split; [|done]. inversion Hex as [? ? Hhd|]; [|done]. cbn in Hhd. lia. }
      exists o, a2. split; [exact Hloop|]. destruct Hcases as [(-> & m & Hm & Hmb & T2 & W2 & I2 & B2 & P2)|(-> & T2 & I2 & B2 & W2)]; [left|right].
      * split; [done|]. exists m. split; [done|]. split; [done|]. split; [by rewrite T2, T1, Ht|]. split; [rewrite W2, Heois; unfold eois; by rewrite B1|]. split; [congruence|]. split; congruence.
      * split; [done|]. split; [done|]. split; [done|]. split; [congruence|]. by rewrite W2, Heois.
  - eexists _, _. split; [reflexivity|]. left. split; [done|]. exists n. split; [lia|]. done.
Qed.

Lemma reg_value_last writes offset value : reg_value apic_init (writes ++ [(offset, value)]) offset = value.
Proof. unfold reg_value. rewrite rev_app_distr. cbn. by rewrite Z.eqb_refl. Qed.
Lemma reg_value_other writes offset o v : o <> offset -> reg_value apic_init (writes ++ [(o, v)]) offset = reg_value apic_init writes offset.
Proof. intros H. unfold reg_value. rewrite rev_app_distr. cbn. by rewrite (proj2 (Z.eqb_neq o offset) H). Qed.

(** The timer makes no more interrupts. *)
Definition timer_quiet (a : Lapic) : Prop :=
  la_interrupts a = false /\ reg_value apic_init (la_writes a) APIC_LVT_TIMER = Z.lor APIC_LVT_MASKED TIMER_VECTOR /\ reg_value apic_init (la_writes a) APIC_TIMER_INITIAL_COUNT = 0.

Lemma masked_quiet w : reg_value apic_init (w ++ MASK_WRITES) APIC_LVT_TIMER = Z.lor APIC_LVT_MASKED TIMER_VECTOR /\ reg_value apic_init (w ++ MASK_WRITES) APIC_TIMER_INITIAL_COUNT = 0.
Proof.
  change MASK_WRITES with ([(APIC_LVT_TIMER, Z.lor APIC_LVT_MASKED TIMER_VECTOR)] ++ [(APIC_TIMER_INITIAL_COUNT, 0)]).
  rewrite app_assoc. split; [|apply reg_value_last]. rewrite reg_value_other by done. apply reg_value_last.
Qed.

(** Once the local APIC is set up, bringing the timer up always ends, with the
    number of ticks that arrived or with a timeout when none arrived before the
    deadline; either way the interrupts are off and the timer is masked and stopped
    when it returns. *)
Theorem timer_bring_up_spec (a a1 : Lapic) (hhdm now : Z) (cpu : CpuInfo) (waits : list (nat * Z))
    (Hready : ensure_timer_ready cr3 apic_init hhdm cpu a = (Ok tt, a1)) (Hset : settles (sat_add U64 now APIC_TIMER_TIMEOUT_NS) waits) :
  exists o a', initialize_timer cr3 apic_init hhdm cpu now waits a = (o, a') /\ timer_quiet a' /\
    match o with
    | Ok b => ticks_observed b = timer_ticks a' /\ 1 <= timer_ticks a' < U64
    | Err e => e = TimerTimeout /\ timer_ticks a' = 0
    | Panic | Diverge => False
    end.
Proof.
  unfold initialize_timer, bind at 1. rewrite Hready. unfold bind at 1, modify at 1. unfold bind at 1, modify at 1.
  do 5 (unfold bind at 1, write_register at 1, modify at 1). unfold bind at 1, enable_interrupts, modify at 1. set (a2 := set_field la_interrupts true _).
  destruct (wait_run (sat_add U64 now APIC_TIMER_TIMEOUT_NS) waits a2 (S (length waits))) as (o & a3 & Hloop & Hcases); [done|done|lia|].
  unfold bind at 1. rewrite Hloop. destruct Hcases as [(-> & n & Hn & Hnb & T3 & W3 & I3 & B3 & P3)|(-> & T3 & I3 & B3 & W3)].
  - unfold bind at 1, disable_interrupts, modify at 1. unfold bind at 1. rewrite mask_run. unfold bind at 1, gets. eexists _, _. split; [reflexivity|].
    unfold timer_quiet, set_field, upd. cbn [la_interrupts la_writes timer_ticks ticks_observed]. split; [split; [done|apply masked_quiet]|]. split; [done|]. rewrite T3. change (timer_ticks a2) with 0. rewrite Z.add_0_l, Z.mod_small by lia. lia.
  - eexists _, _. split; [reflexivity|]. split; [|done]. split; [done|]. rewrite W3. apply masked_quiet.
Qed.
End facts.

(** A processor whose APIC lies under a page that is mapped already. *)
Definition apic_cpu : CpuInfo :=
  mkCpuInfo UnknownVendor (lit "HXNUHXNUHXNU") (replicate 48 0) 0 0 false None true false false false false 0 0xfee00000 true false true.
Definition apic_hhdm : Z := 0xffff800000000000.
Definition apic_pages : Paging := mkPaging frame_allocator_new (<[apic_hhdm + 0x2018 := 0x83]> (<[apic_hhdm + 0x1800 := 0x2003]> ∅)).
Definition apic_off : Lapic := mkLapic 0 0 0 false true [] [] [] apic_pages.
Definition apic_ready : Lapic := snd (ensure_timer_ready 0x1000 (fun _ => 0) apic_hhdm apic_cpu apic_off).

Lemma timer_bring_up_spec_witness :
  exists o a', initialize_timer 0x1000 (fun _ => 0) apic_hhdm apic_cpu 100 [(0%nat, 150); (2%nat, 200)] apic_off = (o, a') /\ timer_quiet (fun _ => 0) a' /\
    match o with
    | Ok b => ticks_observed b = timer_ticks a' /\ 1 <= timer_ticks a' < U64
    | Err e => e = TimerTimeout /\ timer_ticks a' = 0
    | Panic | Diverge => False
    end.
Proof.
  apply (timer_bring_up_spec 0x1000 (fun _ => 0) apic_off apic_ready apic_hhdm 100 apic_cpu [(0%nat, 150); (2%nat, 200)]).
  - vm_compute. reflexivity.
  - split; [apply Exists_cons_tl, Exists_cons_hd; left; discriminate|repeat constructor].
Defined.
