(* ===== verification/Memory.v ===== *)
(** * Bytes of physical memory

    The memory of [Paging] is a map of 8-byte words, as the page tables need it.
    Code that copies strings, file contents or firmware tables reads and writes
    single bytes of those words. *)
From stdpp Require Import base list numbers option gmap.
From Stdlib Require Import ZArith Lia Bool.
From S2P Require Import Prelude Frame Vmm Paging.

Definition word_of (a : Z) : Z := a - a mod 8.
Definition load_byte (m : gmap Z Z) (a : Z) : Z := nth (Z.to_nat (a mod 8)) (le_bytes 8 (load m (word_of a))) 0.
Definition store_byte (m : gmap Z Z) (a b : Z) : gmap Z Z :=
  <[word_of a := le_val (<[Z.to_nat (a mod 8) := b]> (le_bytes 8 (load m (word_of a))))]> m.
Fixpoint copy_to (m : gmap Z Z) (a : Z) (bs : list Z) : gmap Z Z :=
  match bs with [] => m | b :: bs' => copy_to (store_byte m a b) (a + 1) bs' end.
Definition copy_bytes {E} (dst : Z) (bs : list Z) : M Paging E unit := modify (upd pg_words (fun m => copy_to m dst bs)).

(** ** Bytes and words *)
Lemma word_split a : a = word_of a + a mod 8 /\ 0 <= a mod 8 < 8 /\ word_of a mod 8 = 0.
Proof.
  unfold word_of. pose proof (Z.mod_pos_bound a 8 ltac:(lia)). split; [lia|]. split; [lia|].
  replace (a - a mod 8) with (0 + a / 8 * 8) by (pose proof (Z.div_mod a 8); lia). by rewrite Z.mod_add.
Qed.

Lemma word_of_eq a w k : w mod 8 = 0 -> 0 <= k < 8 -> a = w + k -> word_of a = w /\ a mod 8 = k.
Proof.
  intros Hw Hk ->. assert (Hm : (w + k) mod 8 = k).
  { pose proof (Z.div_mod w 8). replace (w + k) with (k + w / 8 * 8) by lia. rewrite Z.mod_add by lia. apply Z.mod_small. lia. }
  unfold word_of. rewrite Hm. split; lia.
Qed.

Lemma load_byte_word m w v x : w mod 8 = 0 ->
  load_byte (<[w := v]> m) x = if decide (w <= x < w + 8) then nth (Z.to_nat (x - w)) (le_bytes 8 v) 0 else load_byte m x.
Proof.
  intros Hw. unfold load_byte. rewrite load_insert. destruct (word_split x) as (Hx & Hb & Hm). destruct (decide (w <= x < w + 8)) as [Hin|Hin].
  - destruct (word_of_eq x w (x - w) Hw ltac:(lia) ltac:(lia)) as [-> ->]. by rewrite decide_True.
  - rewrite decide_False; [done|]. intros Heq. lia.
Qed.

Lemma load_store_byte m a b x : 0 <= b < 256 -> load_byte (store_byte m a b) x = if decide (x = a) then b else load_byte m x.
Proof.
  intros Hb. unfold store_byte. destruct (word_split a) as (Ha & Hk & Hm). rewrite load_byte_word by done.
  assert (Hl : length (le_bytes 8 (load m (word_of a))) = 8%nat) by apply length_le_bytes.
  assert (Hbytes : byte_list (<[Z.to_nat (a mod 8) := b]> (le_bytes 8 (load m (word_of a))))).
  { apply Forall_insert; [apply le_bytes_byte|done]. }
  rewrite <- (length_insert (le_bytes 8 _) (Z.to_nat (a mod 8)) b) in Hl. pose proof (le_bytes_val _ Hbytes) as Hv. rewrite Hl in Hv. rewrite Hv.
  destruct (decide (word_of a <= x < word_of a + 8)) as [Hin|Hin].
  - destruct (decide (x = a)) as [->|Hne].
    + replace (a - word_of a) with (a mod 8) by lia. rewrite nth_lookup, list_lookup_insert_eq; [done|]. rewrite length_le_bytes. lia.
    + rewrite nth_lookup, list_lookup_insert_ne by lia. unfold load_byte.
      destruct (word_of_eq x (word_of a) (x - word_of a) Hm ltac:(lia) ltac:(lia)) as [-> ->]. by rewrite nth_lookup.
  - rewrite decide_False; [done|]. intros ->. lia.
Qed.

Lemma load_copy m a bs x : byte_list bs ->
  load_byte (copy_to m a bs) x = if decide (a <= x < a + len bs) then nth (Z.to_nat (x - a)) bs 0 else load_byte m x.
Proof.
  revert m a. induction bs as [|b bs IH]; intros m a Hb; cbn [copy_to].
  { rewrite len_nil, decide_False by lia. done. }
  apply Forall_cons_1 in Hb as [Hb Hbs]. pose proof (len_nonneg bs). rewrite IH, load_store_byte, len_cons by done.
  destruct (decide (x = a)) as [->|Hne].
  - rewrite decide_False, decide_True by lia. by rewrite Z.sub_diag.
  - do 2 case_decide; try lia. replace (Z.to_nat (x - a)) with (S (Z.to_nat (x - (a + 1)))) by lia. done.
Qed.


Lemma load_byte_range m a : 0 <= load_byte m a < 256.
Proof.
  unfold load_byte. destruct (nth_in_or_default (Z.to_nat (a mod 8)) (le_bytes 8 (load m (word_of a))) 0) as [H| ->]; [|lia].
  pose proof (le_bytes_byte 8 (load m (word_of a))) as Hb. unfold byte_list in Hb. rewrite List.Forall_forall in Hb. apply (Hb _ H).
Qed.

(** The [n] bytes from [a]. *)
Definition bytes_from (m : gmap Z Z) (a : Z) (n : nat) : list Z := (fun i => load_byte m (a + Z.of_nat i)) <$> seq 0 n.

Lemma length_bytes_from m a n : length (bytes_from m a n) = n.
Proof. unfold bytes_from. by rewrite length_fmap, length_seq. Qed.

Lemma bytes_from_byte m a n : byte_list (bytes_from m a n).
Proof. apply Forall_fmap, Forall_true. intros i. apply load_byte_range. Qed.

Lemma nth_bytes_from m a n i : 0 <= i < Z.of_nat n -> nth (Z.to_nat i) (bytes_from m a n) 0 = load_byte m (a + i).
Proof.
  intros Hi. rewrite nth_lookup. unfold bytes_from. rewrite list_lookup_fmap, lookup_seq_lt by lia. simpl. f_equal. lia.
Qed.

(** A cleared page reads as zeros, and the bytes around it are as before. *)
Lemma load_byte_zero va m x : va mod 8 = 0 -> load_byte (zero_bytes va m) x = if decide (va <= x < va + 4096) then 0 else load_byte m x.
Proof.
  intros Hva. unfold load_byte. destruct (word_split x) as (Hx & Hb & Hm). destruct (decide (va <= x < va + 4096)) as [Hin|Hout].
  - assert (Hw : word_of x = va + 8 * ((word_of x - va) / 8)).
    { pose proof (Z.div_mod (word_of x - va) 8). assert ((word_of x - va) mod 8 = 0) by (rewrite Zminus_mod, Hva, Hm; done). lia. }
    rewrite Hw, load_zero_in.
    + change (le_bytes 8 0) with (repeat 0 8). apply nth_repeat.
    + assert (0 <= (word_of x - va) / 8 < 512); [|done]. assert (va <= word_of x).
      { assert ((word_of x - va) mod 8 = 0) by (rewrite Zminus_mod, Hva, Hm; done). pose proof (Z.div_mod (word_of x - va) 8). lia. }
      split; [apply Z.div_pos; lia|apply Z.div_lt_upper_bound; lia].
  - rewrite load_zero_out; [done|]. intros i Hi Heq. apply Hout. lia.
Qed.

Lemma lookup_bytes_from m a n i : (i < n)%nat -> bytes_from m a n !! i = Some (load_byte m (a + Z.of_nat i)).
Proof. intros Hi. unfold bytes_from. by rewrite list_lookup_fmap, lookup_seq_lt by done. Qed.
Lemma bytes_from_ext m m' a n : (forall i, (i < n)%nat -> load_byte m (a + Z.of_nat i) = load_byte m' (a + Z.of_nat i)) -> bytes_from m a n = bytes_from m' a n.
Proof. intros H. unfold bytes_from. apply list_fmap_ext. intros k i Hi. apply lookup_seq in Hi as [-> Hi]. apply H. lia. Qed.

(** Eight-byte words, low byte first. *)
Definition words (ws : list Z) : list Z := concat (le_bytes 8 <$> ws).
Lemma words_cons w ws : words (w :: ws) = le_bytes 8 w ++ words ws.
Proof. done. Qed.
Lemma len_words ws : len (words ws) = 8 * len ws.
Proof.
  induction ws as [|w ws IH]; [done|]. rewrite words_cons, len_app, IH, len_cons. unfold len at 1. rewrite length_le_bytes. lia.
Qed.

(** Memory holds the bytes [bs] at [a]. *)
Definition holds (m : gmap Z Z) (a : Z) (bs : list Z) : Prop := bytes_from m a (length bs) = bs.
Lemma bytes_from_app m a n k : bytes_from m a (n + k) = bytes_from m a n ++ bytes_from m (a + Z.of_nat n) k.
Proof.
  unfold bytes_from. rewrite seq_app, fmap_app. f_equal. rewrite Nat.add_0_l. replace (seq n k) with (Nat.add n <$> seq 0 k) by (rewrite fmap_add_seq; f_equal; lia).
  rewrite <- list_fmap_compose. apply list_fmap_ext. intros j i _. cbn. by rewrite Nat2Z.inj_add, Z.add_assoc.
Qed.
Lemma holds_app m a xs ys : holds m a (xs ++ ys) <-> holds m a xs /\ holds m (a + len xs) ys.
Proof.
  unfold holds. rewrite length_app, bytes_from_app. split.
  - intros H. by apply app_inj_1 in H; [|by rewrite length_bytes_from].
  - intros [-> H2]. by f_equal.
Qed.
Lemma holds_copy m a bs : byte_list bs -> holds (copy_to m a bs) a bs.
Proof.
  intros Hb. unfold holds. apply (list_eq_same_length _ _ (length bs)); [done|by rewrite length_bytes_from|].
  intros i x y Hi Hx Hy. rewrite lookup_bytes_from in Hx by done. injection Hx as <-. rewrite load_copy by done. rewrite decide_True by (unfold len; lia).
  replace (Z.to_nat (a + Z.of_nat i - a)) with i by lia. by apply nth_lookup_Some.
Qed.
Lemma holds_copy_away m a bs b cs : byte_list cs -> b + len cs <= a \/ a + len bs <= b -> holds m a bs -> holds (copy_to m b cs) a bs.
Proof.
  intros Hc Ha H. unfold holds in *. rewrite <- H at 2. apply bytes_from_ext. intros i Hi. rewrite load_copy by done. apply decide_False. unfold len in *. lia.
Qed.
