(* ===== verification/Runtime.v ===== *)
(** * Memory routines of the freestanding build: [kernel/src/runtime.rs]

    [memcpy], [memmove], [memset], [memcmp] and [strlen] as the compiler calls
    them: loops over single bytes of one memory, so that the order of the
    accesses matters when source and destination overlap. *)
From stdpp Require Import base list numbers option gmap.
From Stdlib Require Import ZArith Lia Bool.
From S2P Require Import Prelude Frame Vmm Paging Memory.

Section routines.
Context {E : Type}.
Let Mem (A : Type) : Type := M (gmap Z Z) E A.

Definition copy_byte (dest src : Z) : Mem unit := modify (fun m => store_byte m dest (load_byte m src)).

(** One iteration per byte, and one to leave the loop. *)
Definition memcpy (dest src len : Z) : Mem Z :=
  do! loop (S (Z.to_nat len)) (fun index =>
        if index <? len then do! copy_byte (dest + index) (src + index) in ret (inl (index + 1)) else ret (inr tt)) 0 in
  ret dest.

Definition memmove (dest src len : Z) : Mem Z :=
  if (dest <=? src) || (sat_add U64 src len <=? dest) then memcpy dest src len else
  do! loop (S (Z.to_nat len)) (fun index =>
        if negb (index =? 0) then
          let index := index - 1 in
          do! copy_byte (dest + index) (src + index) in ret (inl index)
        else ret (inr tt)) len in
  ret dest.

Definition memset (dest value len : Z) : Mem Z :=
  let byte := cast U8 value in
  do! loop (S (Z.to_nat len)) (fun index =>
        if index <? len then do! modify (fun m => store_byte m (dest + index) byte) in ret (inl (index + 1)) else ret (inr tt)) 0 in
  ret dest.

Definition memcmp (left right len : Z) : Mem Z :=
  loop (S (Z.to_nat len)) (fun index =>
    if index <? len then
      let! lhs := gets (fun m => load_byte m (left + index)) in
      let! rhs := gets (fun m => load_byte m (right + index)) in
      if negb (lhs =? rhs) then ret (inr (lhs - rhs)) else ret (inl (index + 1))
    else ret (inr 0)) 0.

(** [fuel] bounds the length: a text without a terminator is read for ever. *)
Definition strlen (fuel : nat) (text : Z) : Mem Z :=
  loop fuel (fun len =>
    let! b := gets (fun m => load_byte m (text + len)) in
    if negb (b =? 0) then ret (inl (len + 1)) else ret (inr len)) 0.
End routines.

(** ** What the loops do *)

(** Memories that hold the same bytes. *)
Definition same_bytes (m m' : gmap Z Z) : Prop := forall x, load_byte m x = load_byte m' x.
#[export] Instance same_bytes_equivalence : Equivalence same_bytes.
Proof. split; [by intros m x|intros m m' H x; by rewrite H|intros m1 m2 m3 H1 H2 x; by rewrite H1, H2]. Qed.

(** The memory after a copy taken as a snapshot: the reference for the loops. *)
Definition copied (m : gmap Z Z) (dest src len : Z) : gmap Z Z := copy_to m dest (bytes_from m src (Z.to_nat len)).

Lemma load_copied m dest src len x : 0 <= len ->
  load_byte (copied m dest src len) x = load_byte m (if decide (dest <= x < dest + len) then src + (x - dest) else x).
Proof.
  intros Hl. unfold copied. rewrite load_copy by apply bytes_from_byte.
  assert (Prelude.len (bytes_from m src (Z.to_nat len)) = len) as -> by (unfold Prelude.len; rewrite length_bytes_from; lia).
  case_decide; [|done]. apply nth_bytes_from. lia.
Qed.

(** The copy of the bytes below [i], and of those from [i] on. *)
Lemma copied_upto m dest src i : 0 <= i ->
  (forall j, 0 <= j < i -> dest + j <> src + i) ->
  same_bytes (store_byte (copied m dest src i) (dest + i) (load_byte (copied m dest src i) (src + i))) (copied m dest src (i + 1)).
Proof.
  intros Hi Hno x. rewrite load_store_byte by apply load_byte_range. rewrite !load_copied by lia.
  destruct (decide (x = dest + i)) as [->|Hx].
  - rewrite (decide_True (P := dest <= dest + i < dest + (i + 1))) by lia. rewrite decide_False; [f_equal; lia|].
    intros Hin. apply (Hno (src + i - dest)); lia.
  - do 2 case_decide; first [lia|done|f_equal; lia].
Qed.

Definition copied_above (m : gmap Z Z) (dest src i len : Z) : gmap Z Z := copied m (dest + i) (src + i) (len - i).
Lemma copied_downto m dest src i len : 0 <= i < len ->
  (forall j, i < j < len -> dest + j <> src + i) ->
  same_bytes (store_byte (copied_above m dest src (i + 1) len) (dest + i) (load_byte (copied_above m dest src (i + 1) len) (src + i)))
    (copied_above m dest src i len).
Proof.
  intros Hi Hno x. rewrite load_store_byte by apply load_byte_range. unfold copied_above. rewrite !load_copied by lia.
  destruct (decide (x = dest + i)) as [->|Hx].
  - rewrite (decide_True (P := dest + i <= dest + i < dest + i + (len - i))) by lia. rewrite decide_False; [f_equal; lia|].
    intros Hin. apply (Hno (src + i - dest)); lia.
  - do 2 case_decide; first [lia|done|f_equal; lia].
Qed.

Lemma store_byte_same m m' a b : 0 <= b < 256 -> same_bytes m m' -> same_bytes (store_byte m a b) (store_byte m' a b).
Proof. intros Hb H x. rewrite !load_store_byte by done. case_decide; [done|apply H]. Qed.

(** [r] ends in [Ok v] with the bytes of [m]. *)
Definition ends {E A} (r : outcome E A * gmap Z Z) (v : A) (m : gmap Z Z) : Prop := exists m', r = (Ok v, m') /\ same_bytes m' m.

Lemma ends_ret {E A B} (c : M (gmap Z Z) E A) (b : B) a m m' : ends (c m) a m' -> ends ((do! c in ret b) m) b m'.
Proof. intros (m1 & Hc & Hs). exists m1. unfold bind. by rewrite Hc. Qed.

(** Copying upwards is right when no byte is overwritten before it is read. *)
Lemma memcpy_forward E m dest src len : 0 <= len -> (dest <= src \/ src + len <= dest) ->
  ends (memcpy (E:=E) dest src len m) dest (copied m dest src len).
Proof.
  intros Hl Hd. unfold memcpy. apply (ends_ret _ _ tt).
  apply (loop_rule _ (fun i m' => 0 <= i <= len /\ same_bytes m' (copied m dest src i)) (fun r => ends r tt (copied m dest src len))
    (fun i => Z.to_nat (len - i))); [|lia|].
  - intros i m' (Hi & Hm). destruct (Z.ltb_spec i len) as [Hlt|Hge].
    + cbv beta iota delta [bind ret copy_byte modify]. split; [|lia]. split; [lia|].
      rewrite <- (copied_upto m dest src i) by lia. rewrite Hm. apply store_byte_same; [apply load_byte_range|done].
    + exists m'. split; [done|]. by replace len with i by lia.
  - split; [lia|]. intros x. rewrite load_copied by lia. by case_decide; [lia|].
Qed.

(** Copying downwards, when the destination lies above the source. *)
Lemma memmove_backward E m dest src len : 0 <= len -> src < dest ->
  ends (A:=unit) (loop (E:=E) (S (Z.to_nat len)) (fun index =>
        if negb (index =? 0) then
          let index := index - 1 in
          do! copy_byte (dest + index) (src + index) in ret (inl index)
        else ret (inr tt)) len m) tt (copied m dest src len).
Proof.
  intros Hl Hd.
  apply (loop_rule _ (fun i m' => 0 <= i <= len /\ same_bytes m' (copied_above m dest src i len)) (fun r => ends r tt (copied m dest src len)) Z.to_nat); [|lia|].
  - intros i m' (Hi & Hm). destruct (Z.eqb_spec i 0) as [->|Hne]; cbn [negb].
    + exists m'. split; [done|]. rewrite Hm. unfold copied_above. by rewrite !Z.add_0_r, Z.sub_0_r.
    + cbv beta iota zeta delta [bind ret copy_byte modify]. split; [|lia]. split; [lia|]. replace i with (i - 1 + 1) in Hm by lia.
      rewrite <- (copied_downto m dest src (i - 1) len) by lia. rewrite Hm. apply store_byte_same; [apply load_byte_range|done].
  - split; [lia|]. intros x. unfold copied_above. rewrite load_copied by lia. by case_decide; [lia|].
Qed.

(** [memmove] copies as if through a snapshot whatever the overlap of the two
    ranges: every byte of the destination holds what its source byte held before the
    call, every other byte is unchanged, and the destination is returned. *)
Theorem memmove_correct E m dest src len :
  0 <= src -> 0 <= len -> src + len <= U64 -> dest + len <= U64 ->
  exists m', memmove (E:=E) dest src len m = (Ok dest, m') /\
    forall x, load_byte m' x = load_byte m (if decide (dest <= x < dest + len) then src + (x - dest) else x).
Proof.
  intros Hs Hl Hse Hde.
  assert (ends (memmove (E:=E) dest src len m) dest (copied m dest src len)) as (m' & Hr & Hm).
  { unfold memmove, sat_add. destruct (Z.leb_spec dest src); cbn [orb]; [apply memcpy_forward; lia|].
    destruct (Z.leb_spec (Z.min (src + len) (U64 - 1)) dest); [apply memcpy_forward; lia|].
    apply (ends_ret _ _ tt), memmove_backward; lia. }
  exists m'. split; [done|]. intros x. rewrite Hm. by apply load_copied.
Qed.

Example memmove_correct_witness : exists m',
  memmove (E:=unit) 1002 1000 5 (copy_to ∅ 1000 [1; 2; 3; 4; 5]) = (Ok 1002, m') /\
  forall x, load_byte m' x =
    load_byte (copy_to ∅ 1000 [1; 2; 3; 4; 5]) (if decide (1002 <= x < 1002 + 5) then 1000 + (x - 1002) else x).
Proof. apply memmove_correct; lia. Defined.

Example memmove_overlap_evaluates :
  bytes_from (snd (memmove (E:=unit) 1002 1000 5 (copy_to ∅ 1000 [1; 2; 3; 4; 5]))) 1000 7 = [1; 2; 1; 2; 3; 4; 5].
Proof. vm_compute. reflexivity. Qed.

(** [memcpy] on the same ranges reads bytes it has already written. *)
Example memcpy_overlap_evaluates :
  bytes_from (snd (memcpy (E:=unit) 1002 1000 5 (copy_to ∅ 1000 [1; 2; 3; 4; 5]))) 1000 7 = [1; 2; 1; 2; 1; 2; 1].
Proof. vm_compute. reflexivity. Qed.

(** ** [memset], [memcmp] and [strlen] *)
Lemma memset_correct E m dest value len : 0 <= len ->
  exists m', memset (E:=E) dest value len m = (Ok dest, m') /\
    forall x, load_byte m' x = if decide (dest <= x < dest + len) then value mod 256 else load_byte m x.
Proof.
  intros Hl. set (after i m' := forall x, load_byte m' x = if decide (dest <= x < dest + i) then value mod 256 else load_byte m x).
  unfold memset. assert (exists m', loop (E:=E) (B:=unit) (S (Z.to_nat len)) (fun index =>
        if index <? len then do! modify (fun m => store_byte m (dest + index) (cast U8 value)) in ret (inl (index + 1)) else ret (inr tt)) 0 m
        = (Ok tt, m') /\ after len m') as (m' & Hr & Hm).
  { apply (loop_rule _ (fun i m' => 0 <= i <= len /\ after i m') (fun r => exists m', r = (Ok tt, m') /\ after len m') (fun i => Z.to_nat (len - i))); [|lia|].
    - intros i m' (Hi & Hm). destruct (Z.ltb_spec i len) as [Hlt|Hge].
      + cbv beta iota delta [bind ret modify]. split; [|lia]. split; [lia|]. intros x.
        rewrite load_store_byte by (unfold cast; apply Z.mod_pos_bound; lia). rewrite Hm. unfold cast.
        repeat case_decide; first [lia|done].
      + exists m'. split; [done|]. by replace len with i by lia.
    - split; [lia|]. intros x. by case_decide; [lia|]. }
  exists m'. cbv zeta. unfold bind at 1. by rewrite Hr.
Qed.

(** The first difference of two byte strings. *)
Fixpoint compare_bytes (a b : list Z) : Z :=
  match a, b with
  | x :: a', y :: b' => if x =? y then compare_bytes a' b' else x - y
  | _, _ => 0
  end.

Lemma compare_bytes_equal a b : length a = length b -> (compare_bytes a b = 0 <-> a = b).
Proof.
  revert b. induction a as [|x a IH]; intros [|y b] Hl; try done. cbn [compare_bytes]. destruct (Z.eqb_spec x y) as [->|Hne].
  - rewrite IH by (simpl in Hl; lia). split; [by intros ->|by intros [= ->]].
  - split; [lia|by intros [= -> _]].
Qed.

Lemma bytes_from_cons m a n : bytes_from m a (S n) = load_byte m a :: bytes_from m (a + 1) n.
Proof.
  unfold bytes_from. cbn [seq fmap list_fmap]. f_equal; [f_equal; lia|]. rewrite <- fmap_S_seq, <- list_fmap_compose.
  apply list_fmap_ext. intros i x _. simpl. f_equal. lia.
Qed.

(** [memcmp] returns the difference of the first bytes that differ and zero
    when the ranges are equal; it ends within their length and writes nothing. *)
Theorem memcmp_correct E m left right len : 0 <= len ->
  exists r, memcmp (E:=E) left right len m = (Ok r, m) /\
    r = compare_bytes (bytes_from m left (Z.to_nat len)) (bytes_from m right (Z.to_nat len)) /\
    (r = 0 <-> forall i, 0 <= i < len -> load_byte m (left + i) = load_byte m (right + i)).
Proof.
  intros Hl. set (rest i := compare_bytes (bytes_from m (left + i) (Z.to_nat (len - i))) (bytes_from m (right + i) (Z.to_nat (len - i)))).
  assert (Hrun : memcmp (E:=E) left right len m = (Ok (rest 0), m)).
  { unfold memcmp. apply (loop_rule _ (fun i m' => 0 <= i <= len /\ m' = m /\ rest i = rest 0) (fun r => r = (Ok (rest 0), m)) (fun i => Z.to_nat (len - i))); [|lia|done].
    intros i m' (Hi & -> & Hr). destruct (Z.ltb_spec i len) as [Hlt|Hge].
    - cbv beta iota delta [bind ret gets].
      assert (Hstep : rest i = if load_byte m (left + i) =? load_byte m (right + i) then rest (i + 1) else load_byte m (left + i) - load_byte m (right + i)).
      { unfold rest. replace (Z.to_nat (len - i)) with (S (Z.to_nat (len - (i + 1)))) by lia. rewrite !bytes_from_cons. cbn [compare_bytes].
        by rewrite !Z.add_assoc. }
      destruct (load_byte m (left + i) =? load_byte m (right + i)); cbn [negb]; [|by rewrite <- Hr, Hstep].
      split; [|lia]. split; [lia|]. by rewrite <- Hstep.
    - rewrite <- Hr. unfold rest. by replace (Z.to_nat (len - i)) with 0%nat by lia. }
  exists (rest 0). split; [done|]. assert (Hz : rest 0 = compare_bytes (bytes_from m left (Z.to_nat len)) (bytes_from m right (Z.to_nat len))).
  { unfold rest. by rewrite !Z.add_0_r, Z.sub_0_r. }
  split; [done|]. rewrite Hz, compare_bytes_equal by (by rewrite !length_bytes_from). split.
  - intros He i Hi. rewrite <- !(nth_bytes_from m _ (Z.to_nat len)) by lia. by rewrite He.
  - intros He. unfold bytes_from. apply list_fmap_ext. intros i x Hx. apply lookup_seq in Hx as [-> Hlt]. apply He. lia.
Qed.

Example memcmp_correct_witness : exists r,
  memcmp (E:=unit) 1000 2000 3 (copy_to (copy_to ∅ 1000 [1; 2; 3]) 2000 [1; 2; 9]) = (Ok r, copy_to (copy_to ∅ 1000 [1; 2; 3]) 2000 [1; 2; 9]) /\
  r = compare_bytes (bytes_from (copy_to (copy_to ∅ 1000 [1; 2; 3]) 2000 [1; 2; 9]) 1000 (Z.to_nat 3))
        (bytes_from (copy_to (copy_to ∅ 1000 [1; 2; 3]) 2000 [1; 2; 9]) 2000 (Z.to_nat 3)) /\
  (r = 0 <-> forall i, 0 <= i < 3 -> load_byte (copy_to (copy_to ∅ 1000 [1; 2; 3]) 2000 [1; 2; 9]) (1000 + i)
                = load_byte (copy_to (copy_to ∅ 1000 [1; 2; 3]) 2000 [1; 2; 9]) (2000 + i)).
Proof. apply memcmp_correct. lia. Defined.

Lemma strlen_correct E m text n fuel :
  (forall i, 0 <= i < n -> load_byte m (text + i) <> 0) -> load_byte m (text + n) = 0 -> 0 <= n < Z.of_nat fuel ->
  strlen (E:=E) fuel text m = (Ok n, m).
Proof.
  intros Hne Hz Hf. unfold strlen.
  apply (loop_rule _ (fun i m' => 0 <= i <= n /\ m' = m) (fun r => r = (Ok n, m)) (fun i => Z.to_nat (n - i))); [|lia|split; [lia|done]].
  intros i m' (Hi & ->). cbv beta iota delta [bind ret gets]. destruct (Z.eqb_spec (load_byte m (text + i)) 0) as [He|He]; cbn [negb].
  - destruct (Z.eq_dec i n) as [->|]; [done|]. exfalso. apply (Hne i); [lia|done].
  - assert (i <> n) by (by intros ->). split; [|lia]. split; [lia|done].
Qed.
