(* ===== verification/Acpi.v ===== *)
(** * Firmware tables: [kernel/src/acpi.rs]

    The tables lie in physical memory, which the code maps page by page before it
    reads it. A pointer to a structure is its virtual address; a field is the
    little-endian value of its bytes at the time it is read. The structures have
    the sizes of their [repr(C)] layouts; offsets and counts are added at the width of
    [usize], and a reference to a structure at an address that is not a multiple of four ends
    discovery with [Misaligned]. *)
From stdpp Require Import base list numbers option strings gmap.
From Stdlib Require Import ZArith Lia Bool.
From S2P Require Import Prelude Paths Text Machine Frame Vmm Paging Memory.

Definition RSDP_SIGNATURE : list Z := lit "RSD PTR ".
Definition SIGNATURE_RSDT : list Z := lit "RSDT".
Definition SIGNATURE_XSDT : list Z := lit "XSDT".
Definition SIGNATURE_MADT : list Z := lit "APIC".
Definition SIGNATURE_FADT : list Z := lit "FACP".
Definition MADT_ENTRY_LOCAL_APIC : Z := 0.
Definition MADT_ENTRY_IO_APIC : Z := 1.
Definition MADT_ENTRY_INTERRUPT_SOURCE_OVERRIDE : Z := 2.
Definition MADT_ENTRY_LOCAL_APIC_ADDRESS_OVERRIDE : Z := 5.
Definition MADT_ENTRY_LOCAL_X2APIC : Z := 9.
Definition MADT_LOCAL_APIC_FLAG_ENABLED : Z := 1.
Definition MADT_LOCAL_APIC_FLAG_ONLINE_CAPABLE : Z := 2.
Definition FADT_FLAGS_RESET_REG_SUPPORTED : Z := Z.shiftl 1 10.
Definition FADT_FLAGS_HW_REDUCED_ACPI : Z := Z.shiftl 1 20.
Definition FADT_OFFSET_PREFERRED_PM_PROFILE : Z := 45.
Definition FADT_OFFSET_SCI_INTERRUPT : Z := 46.
Definition FADT_OFFSET_SMI_COMMAND_PORT : Z := 48.
Definition FADT_OFFSET_ACPI_ENABLE : Z := 52.
Definition FADT_OFFSET_ACPI_DISABLE : Z := 53.
Definition FADT_OFFSET_PM1A_CONTROL_BLOCK : Z := 64.
Definition FADT_OFFSET_PM1B_CONTROL_BLOCK : Z := 68.
Definition FADT_OFFSET_BOOT_ARCH_FLAGS : Z := 109.
Definition FADT_OFFSET_FLAGS : Z := 112.
Definition FADT_OFFSET_RESET_REGISTER : Z := 116.
Definition FADT_OFFSET_RESET_VALUE : Z := 128.

Inductive RootKind : Type := Rsdt | Xsdt.
Definition root_str (k : RootKind) : list Z := match k with Rsdt => lit "RSDT" | Xsdt => lit "XSDT" end.

Record IoApicInfo : Type := mkIoApic { io_apic_id : Z; io_address : Z; global_system_interrupt_base : Z }.
Record InterruptSourceOverride : Type := mkOverride { iso_source : Z; global_system_interrupt : Z; iso_flags : Z }.
Record MadtInfo : Type := mkMadt {
  local_apic_address : Z; madt_flags : Z; processors : list MadtProcessor; io_apics : list IoApicInfo;
  interrupt_source_overrides : list InterruptSourceOverride }.
#[export] Instance MadtInfo_eta : RecordEta MadtInfo := fun m =>
  mkMadt (local_apic_address m) (madt_flags m) (processors m) (io_apics m) (interrupt_source_overrides m).

Definition total_processor_count (m : MadtInfo) : Z := len (processors m).
Definition enabled_processor_count (m : MadtInfo) : Z := len (filter (fun p => mp_enabled p = true) (processors m)).
Definition local_x2apic_count (m : MadtInfo) : Z := len (filter (fun p => mp_x2apic p = true) (processors m)).
Definition processor_apic_mode (p : MadtProcessor) : list Z := if mp_x2apic p then lit "x2apic" else lit "xapic".

Inductive PowerProfile : Type :=
| Unspecified | Desktop | Mobile | Workstation | EnterpriseServer | SohoServer | AppliancePc | PerformanceServer | Tablet | UnknownProfile.
Definition profile_str (p : PowerProfile) : list Z :=
  match p with
  | Unspecified => lit "unspecified" | Desktop => lit "desktop" | Mobile => lit "mobile" | Workstation => lit "workstation"
  | EnterpriseServer => lit "enterprise-server" | SohoServer => lit "soho-server" | AppliancePc => lit "appliance-pc"
  | PerformanceServer => lit "performance-server" | Tablet => lit "tablet" | UnknownProfile => lit "unknown"
  end.
Definition power_profile_from_raw (raw : Z) : PowerProfile :=
  if raw =? 0 then Unspecified else if raw =? 1 then Desktop else if raw =? 2 then Mobile else if raw =? 3 then Workstation
  else if raw =? 4 then EnterpriseServer else if raw =? 5 then SohoServer else if raw =? 6 then AppliancePc
  else if raw =? 7 then PerformanceServer else if raw =? 8 then Tablet else UnknownProfile.

Record GenericAddress : Type := mkAddress { address_space : Z; bit_width : Z; bit_offset : Z; access_size : Z; ga_address : Z }.
Definition address_space_name (space : Z) : list Z :=
  if space =? 0 then lit "system-memory" else if space =? 1 then lit "system-io" else if space =? 2 then lit "pci-config"
  else if space =? 3 then lit "embedded-controller" else if space =? 4 then lit "smbus" else if space =? 0x0a then lit "platform-comm"
  else if space =? 0x7f then lit "functional-fixed" else lit "unknown".
Definition address_space_str (a : GenericAddress) : list Z := address_space_name (address_space a).

Record FadtInfo : Type := mkFadt {
  fadt_revision : Z; fadt_length : Z; preferred_pm_profile : PowerProfile; sci_interrupt : Z; smi_command_port : Z;
  acpi_enable : Z; acpi_disable : Z; pm1a_control_block : Z; pm1b_control_block : Z; boot_architecture_flags : Z;
  fadt_flags : Z; reset_register : option GenericAddress; reset_value : Z }.
Definition reset_supported (f : FadtInfo) : bool :=
  negb (Z.land (fadt_flags f) FADT_FLAGS_RESET_REG_SUPPORTED =? 0) && bool_decide (is_Some (reset_register f)) && negb (reset_value f =? 0).
Definition hardware_reduced (f : FadtInfo) : bool := negb (Z.land (fadt_flags f) FADT_FLAGS_HW_REDUCED_ACPI =? 0).

Record AcpiDiscovery : Type := mkDiscovery {
  d_revision : Z; d_oem_id : list Z; rsdp_address : Z; root_address : Z; root_kind : RootKind; table_count : Z;
  valid_table_count : Z; invalid_table_count : Z; d_madt : option MadtInfo; d_fadt : option FadtInfo }.

Inductive AcpiError : Type :=
| AcpiAddressOverflow | MappingFailed | InvalidRsdpSignature | InvalidRsdpChecksum | InvalidRsdpRevision | MissingRootTable
| InvalidRootSignature | InvalidRootLength | InvalidRootChecksum.
Definition acpi_error_str (e : AcpiError) : list Z :=
  match e with
  | AcpiAddressOverflow => lit "physical-to-virtual address overflow"
  | MappingFailed => lit "failed to map an acpi table page"
  | InvalidRsdpSignature => lit "invalid rsdp signature"
  | InvalidRsdpChecksum => lit "invalid rsdp checksum"
  | InvalidRsdpRevision => lit "invalid rsdp revision or length"
  | MissingRootTable => lit "missing acpi root table"
  | InvalidRootSignature => lit "invalid acpi root table signature"
  | InvalidRootLength => lit "invalid acpi root table length"
  | InvalidRootChecksum => lit "invalid acpi root table checksum"
  end.
Definition map_error (e : MapError) : AcpiError :=
  match e with AddressOverflow => AcpiAddressOverflow | PageTableAllocationFailed => MappingFailed end.

Definition oem_id_str (oem_id : list Z) : list Z :=
  if is_utf8 oem_id then reverse (trim_start_matches (reverse oem_id) [32]) else lit "??????".

Definition checksum (bytes : list Z) : Z := foldl (fun sum value => wrap_add U8 sum value) 0 bytes.

(** ** Reading a table *)
Section parsers.
Context {E : Type}.

Definition read_u8 (bytes : list Z) (offset : Z) : outcome E Z := idx bytes offset.
Definition read_le (n : Z) (bytes : list Z) (offset : Z) : outcome E Z :=
  let? e := add U64 offset n in
  let? raw := slice bytes offset e in Ok (le_val raw).
Definition read_u16 := read_le 2.
Definition read_u32 := read_le 4.
Definition read_u64 := read_le 8.
(** [read(bytes, offset + k)] *)
Definition beyond (read : list Z -> Z -> outcome E Z) (bytes : list Z) (offset k : Z) : outcome E Z :=
  let? o := add U64 offset k in read bytes o.

Definition parse_generic_address (bytes : list Z) (offset : Z) : outcome E (option GenericAddress) :=
  let? e := add U64 offset 12 in
  if len bytes <? e then Ok None else
  let? space := read_u8 bytes offset in
  let? width := beyond read_u8 bytes offset 1 in
  let? bit := beyond read_u8 bytes offset 2 in
  let? size := beyond read_u8 bytes offset 3 in
  let? address := beyond read_u64 bytes offset 4 in
  Ok (Some (mkAddress space width bit size address)).

Definition parse_fadt (revision length : Z) (bytes : list Z) : outcome E (option FadtInfo) :=
  if len bytes <? FADT_OFFSET_FLAGS + 4 then Ok None else
  let? flags := read_u32 bytes FADT_OFFSET_FLAGS in
  let? register :=
    (if FADT_OFFSET_RESET_REGISTER + 12 <=? len bytes then parse_generic_address bytes FADT_OFFSET_RESET_REGISTER else Ok None) in
  let? profile := read_u8 bytes FADT_OFFSET_PREFERRED_PM_PROFILE in
  let? sci := read_u16 bytes FADT_OFFSET_SCI_INTERRUPT in
  let? smi := read_u32 bytes FADT_OFFSET_SMI_COMMAND_PORT in
  let? enable := read_u8 bytes FADT_OFFSET_ACPI_ENABLE in
  let? disable := read_u8 bytes FADT_OFFSET_ACPI_DISABLE in
  let? pm1a := read_u32 bytes FADT_OFFSET_PM1A_CONTROL_BLOCK in
  let? pm1b := read_u32 bytes FADT_OFFSET_PM1B_CONTROL_BLOCK in
  let? arch := (if FADT_OFFSET_BOOT_ARCH_FLAGS + 2 <=? len bytes then read_u16 bytes FADT_OFFSET_BOOT_ARCH_FLAGS else Ok 0) in
  let? value := (if FADT_OFFSET_RESET_VALUE <? len bytes then read_u8 bytes FADT_OFFSET_RESET_VALUE else Ok 0) in
  Ok (Some (mkFadt revision length (power_profile_from_raw profile) sci smi enable disable pm1a pm1b arch flags register value)).

Definition flag_set (flags bit : Z) : bool := negb (Z.land flags bit =? 0).
Definition add_processor (m : MadtInfo) (uid apic_id flags : Z) (x2 : bool) : MadtInfo :=
  upd processors (fun ps => ps ++ [mkProcessor uid apic_id (flag_set flags MADT_LOCAL_APIC_FLAG_ENABLED)
    (flag_set flags MADT_LOCAL_APIC_FLAG_ONLINE_CAPABLE) x2]) m.

(** What an entry of [entry_length] bytes at [offset] adds. *)
Definition madt_entry (bytes : list Z) (offset entry_type entry_length : Z) (m : MadtInfo) : outcome E MadtInfo :=
  if (entry_type =? MADT_ENTRY_LOCAL_APIC) && (8 <=? entry_length) then
    let? uid := beyond read_u8 bytes offset 2 in
    let? apic_id := beyond read_u8 bytes offset 3 in
    let? flags := beyond read_u32 bytes offset 4 in
    Ok (add_processor m uid apic_id flags false)
  else if (entry_type =? MADT_ENTRY_IO_APIC) && (12 <=? entry_length) then
    let? id := beyond read_u8 bytes offset 2 in
    let? address := beyond read_u32 bytes offset 4 in
    let? base := beyond read_u32 bytes offset 8 in
    Ok (upd io_apics (fun l => l ++ [mkIoApic id address base]) m)
  else if (entry_type =? MADT_ENTRY_INTERRUPT_SOURCE_OVERRIDE) && (10 <=? entry_length) then
    let? source := beyond read_u8 bytes offset 3 in
    let? gsi := beyond read_u32 bytes offset 4 in
    let? flags := beyond read_u16 bytes offset 8 in
    Ok (upd interrupt_source_overrides (fun l => l ++ [mkOverride source gsi flags]) m)
  else if (entry_type =? MADT_ENTRY_LOCAL_APIC_ADDRESS_OVERRIDE) && (12 <=? entry_length) then
    let? address := beyond read_u64 bytes offset 4 in
    Ok (set_field local_apic_address address m)
  else if (entry_type =? MADT_ENTRY_LOCAL_X2APIC) && (16 <=? entry_length) then
    let? apic_id := beyond read_u32 bytes offset 4 in
    let? flags := beyond read_u32 bytes offset 8 in
    let? uid := beyond read_u32 bytes offset 12 in
    Ok (add_processor m uid apic_id flags true)
  else Ok m.

(** An entry takes two bytes at least: as many iterations as bytes are enough. *)
Fixpoint madt_entries (fuel : nat) (bytes : list Z) (offset : Z) (m : MadtInfo) : outcome E MadtInfo :=
  match fuel with
  | O => Diverge
  | S fuel' =>
      let? e := add U64 offset 2 in
      if negb (e <=? len bytes) then Ok m else
      let? entry_type := read_u8 bytes offset in
      let? entry_length := beyond read_u8 bytes offset 1 in
      if entry_length <? 2 then Ok m else
      let? e := add U64 offset entry_length in
      if len bytes <? e then Ok m else
      let? m' := madt_entry bytes offset entry_type entry_length m in
      let? offset := add U64 offset entry_length in
      madt_entries fuel' bytes offset m'
  end.

Definition parse_madt (bytes : list Z) : outcome E (option MadtInfo) :=
  if len bytes <? 44 then Ok None else
  let? address := read_u32 bytes 36 in
  let? flags := read_u32 bytes 40 in
  let? m := madt_entries (S (length bytes)) bytes 44 (mkMadt address flags [] [] []) in
  Ok (Some m).
End parsers.

(** ** [discover] *)
Definition RSDP_BYTES : Z := 20.
Definition RSDP20_BYTES : Z := 36.
Definition SDT_HEADER_BYTES : Z := 36.

Definition field {E} (va offset : Z) (n : nat) : M Paging E Z := gets (fun s => le_val (bytes_from (pg_words s) (va + offset) n)).
Definition bytes_at {E} (va length : Z) : M Paging E (list Z) := gets (fun s => bytes_from (pg_words s) va (Z.to_nat length)).

(** The locals of the loop over the tables. *)
Record Tables : Type := mkTables { t_valid : Z; t_invalid : Z; t_madt : option MadtInfo; t_fadt : option FadtInfo }.
Definition one_invalid {E} (t : Tables) : outcome E Tables :=
  let? n := add U64 (t_invalid t) 1 in Ok (mkTables (t_valid t) n (t_madt t) (t_fadt t)).

(** How discovery stops short: it returns an error, or it dereferences a pointer to a
    structure that is not aligned to the four bytes the structure asks for. *)
Inductive AcpiStop : Type := Failed (e : AcpiError) | Misaligned (va : Z).
Definition or_fail {A} (m : M Paging AcpiError A) : M Paging AcpiStop A :=
  catch m (fun r => match r with inl a => ret a | inr e => throw (Failed e) end).
Definition deref (va : Z) : M Paging AcpiStop unit := if va mod 4 =? 0 then ret tt else throw (Misaligned va).

Section discover.
Variables (cr3 hhdm_offset : Z).

(** [phys_ptr] and the address of [phys_bytes]. *)
Definition phys_ptr (physical_address size : Z) : M Paging AcpiError Z :=
  catch (ensure_region_mapped cr3 hhdm_offset physical_address size 0) (fun r =>
    match r with inl va => ret va | inr e => throw (map_error e) end).

Definition entry_size (kind : RootKind) : Z := match kind with Rsdt => 4 | Xsdt => 8 end.

(** A table whose header and bytes are in reach, and the kind of table it is. *)
Definition read_table (address : Z) (t : Tables) : M Paging AcpiStop Tables :=
  catch (phys_ptr address SDT_HEADER_BYTES) (fun r => match r with inr _ => lift (one_invalid t) | inl header =>
    do! deref header in
    let! length := field header 4 4 in
    if length <? SDT_HEADER_BYTES then lift (one_invalid t) else
    catch (phys_ptr address length) (fun r => match r with inr _ => lift (one_invalid t) | inl va =>
      let! bytes := bytes_at va length in
      if negb (checksum bytes =? 0) then lift (one_invalid t) else
      let! valid := lift (add U64 (t_valid t) 1) in
      let t := mkTables valid (t_invalid t) (t_madt t) (t_fadt t) in
      let! signature := bytes_at header 4 in
      if bool_decide (t_madt t = None) && str_eqb signature SIGNATURE_MADT then
        do! (if len bytes <? 44 then ret tt else deref va) in
        let! m := lift (parse_madt bytes) in ret (mkTables (t_valid t) (t_invalid t) m (t_fadt t))
      else if bool_decide (t_fadt t = None) && str_eqb signature SIGNATURE_FADT then
        let! revision := field header 8 1 in
        let! length := field header 4 4 in
        let! f := lift (parse_fadt revision length bytes) in ret (mkTables (t_valid t) (t_invalid t) (t_madt t) f)
      else ret t
    end)
  end).

Definition table_step (kind : RootKind) (root_va root_length index : Z) (t : Tables) : M Paging AcpiStop Tables :=
  let! root_bytes := bytes_at root_va root_length in
  let! entry := lift (mul U64 index (entry_size kind)) in
  let! entry_offset := lift (add U64 SDT_HEADER_BYTES entry) in
  let! address := lift (read_le (entry_size kind) root_bytes entry_offset) in
  if address =? 0 then lift (one_invalid t) else read_table address t.

Fixpoint scan_tables (kind : RootKind) (root_va root_length : Z) (indices : list Z) (t : Tables) : M Paging AcpiStop Tables :=
  match indices with
  | [] => ret t
  | index :: rest =>
      let! t := table_step kind root_va root_length index t in
      scan_tables kind root_va root_length rest t
  end.

Definition rsdt_root (rsdp : Z) : M Paging AcpiStop (RootKind * Z) :=
  let! rsdt := field rsdp 16 4 in
  if rsdt =? 0 then throw (Failed MissingRootTable) else ret (Rsdt, rsdt).

(** The root table that the root pointer names; [RsdpDescriptor20] is packed and read unaligned. *)
Definition find_root (rsdp_address rsdp revision : Z) : M Paging AcpiStop (RootKind * Z) :=
  if 2 <=? revision then
    let! rsdp20 := or_fail (phys_ptr rsdp_address RSDP20_BYTES) in
    let! length := field rsdp20 20 4 in
    if length <? RSDP20_BYTES then throw (Failed InvalidRsdpRevision) else
    let! va := or_fail (phys_ptr rsdp_address length) in
    let! extended := bytes_at va length in
    if negb (checksum extended =? 0) then throw (Failed InvalidRsdpChecksum) else
    let! xsdt := field rsdp20 24 8 in
    if negb (xsdt =? 0) then ret (Xsdt, xsdt) else rsdt_root rsdp
  else rsdt_root rsdp.

Definition discover (rsdp_address : Z) : M Paging AcpiStop AcpiDiscovery :=
  let! va := or_fail (phys_ptr rsdp_address RSDP_BYTES) in
  let! bytes := bytes_at va RSDP_BYTES in
  if negb (str_eqb (take 8 bytes) RSDP_SIGNATURE) then throw (Failed InvalidRsdpSignature) else
  if negb (checksum bytes =? 0) then throw (Failed InvalidRsdpChecksum) else
  let! rsdp := or_fail (phys_ptr rsdp_address RSDP_BYTES) in
  do! deref rsdp in
  let! revision := field rsdp 15 1 in
  let! oem_id := bytes_at (rsdp + 9) 6 in
  let! '(kind, root_address) := find_root rsdp_address rsdp revision in
  let! root_header := or_fail (phys_ptr root_address SDT_HEADER_BYTES) in
  do! deref root_header in
  let! root_length := field root_header 4 4 in
  if root_length <? SDT_HEADER_BYTES then throw (Failed InvalidRootLength) else
  let! signature := bytes_at root_header 4 in
  let expected := match kind with Rsdt => SIGNATURE_RSDT | Xsdt => SIGNATURE_XSDT end in
  if negb (str_eqb signature expected) then throw (Failed InvalidRootSignature) else
  let! root_va := or_fail (phys_ptr root_address root_length) in
  let! root_bytes := bytes_at root_va root_length in
  if negb (checksum root_bytes =? 0) then throw (Failed InvalidRootChecksum) else
  let! entries := lift (sub (len root_bytes) SDT_HEADER_BYTES) in
  let count := entries / entry_size kind in
  let! t := scan_tables kind root_va root_length (seqZ 0 count) (mkTables 0 0 None None) in
  ret (mkDiscovery revision oem_id rsdp_address root_address kind count (t_valid t) (t_invalid t) (t_madt t) (t_fadt t)).
End discover.

(** * Facts *)

(** ** Reads in range *)
Lemma checksum_sum bytes : checksum bytes = foldr Z.add 0 bytes mod 256.
Proof.
  unfold checksum, wrap_add. assert (Hg : forall a, foldl (fun s v => (s + v) mod U8) (a mod 256) bytes = (a + foldr Z.add 0 bytes) mod 256).
  { induction bytes as [|b bytes IH]; intros a; simpl; [by rewrite Z.add_0_r|].
    rewrite Z.add_mod_idemp_l, IH by lia. f_equal. lia. }
  apply (Hg 0).
Qed.

Lemma read_u8_in E bytes o : 0 <= o < len bytes -> exists v, read_u8 (E:=E) bytes o = Ok v /\ bytes !! Z.to_nat o = Some v.
Proof. apply idx_total. Qed.
Lemma read_le_in E n bytes o : len bytes < 2 ^ 63 -> 0 <= o -> 0 <= n -> o + n <= len bytes ->
  read_le (E:=E) n bytes o = Ok (le_val (take (Z.to_nat n) (drop (Z.to_nat o) bytes))).
Proof. intros Hbig Ho Hn Hb. unfold read_le. rewrite add_ok by lia. cbn [obind]. rewrite slice_ok by lia. cbn [obind]. by replace (o + n - o) with n by lia. Qed.

(** A read that is in range does not stop a parser. *)
Definition succeeds {E A} (o : outcome E A) : Prop := match o with Ok _ => True | _ => False end.
Lemma succeeds_bind {E A B} (o : outcome E A) (k : A -> outcome E B) : succeeds o -> (forall a, succeeds (k a)) -> succeeds (obind o k).
Proof. intros Ho Hk. destruct o; try done. apply Hk. Qed.
Lemma succeeds_u8 {E A} bytes o (k : Z -> outcome E A) : 0 <= o < len bytes -> (forall v, succeeds (k v)) -> succeeds (obind (read_u8 bytes o) k).
Proof. intros Ho Hk. destruct (read_u8_in E bytes o Ho) as (v & -> & _). apply Hk. Qed.
Lemma succeeds_le {E A} n bytes o (k : Z -> outcome E A) :
  len bytes < 2 ^ 63 -> 0 <= o -> 0 <= n -> o + n <= len bytes -> (forall v, succeeds (k v)) -> succeeds (obind (read_le n bytes o) k).
Proof. intros Hbig Ho Hn Hb Hk. rewrite read_le_in by done. apply Hk. Qed.
Ltac reads := repeat first [apply succeeds_u8; [lia|intros ?] | apply succeeds_le; [lia|lia|lia|lia|intros ?]
  | match goal with |- succeeds (obind (beyond _ _ _ _) _) => unfold beyond at 1; rewrite add_ok by lia; cbn [obind] end]; try exact I.

Lemma generic_address_succeeds E bytes o : len bytes < 2 ^ 63 -> 0 <= o < 2 ^ 32 -> succeeds (parse_generic_address (E:=E) bytes o).
Proof. intros Hbig Ho. unfold parse_generic_address, read_u64. rewrite add_ok by lia. cbn [obind]. bdestruct_if; [exact I|]. reads. Qed.

Lemma parse_fadt_succeeds E r l bytes : len bytes < 2 ^ 63 -> succeeds (parse_fadt (E:=E) r l bytes).
Proof.
  intros Hbig.   unfold parse_fadt, read_u16, read_u32, FADT_OFFSET_FLAGS, FADT_OFFSET_RESET_REGISTER, FADT_OFFSET_PREFERRED_PM_PROFILE,
    FADT_OFFSET_SCI_INTERRUPT, FADT_OFFSET_SMI_COMMAND_PORT, FADT_OFFSET_ACPI_ENABLE, FADT_OFFSET_ACPI_DISABLE,
    FADT_OFFSET_PM1A_CONTROL_BLOCK, FADT_OFFSET_PM1B_CONTROL_BLOCK, FADT_OFFSET_BOOT_ARCH_FLAGS, FADT_OFFSET_RESET_VALUE.
  bdestruct_if; [exact I|]. reads.
  apply succeeds_bind; [bdestruct_if; [apply generic_address_succeeds; lia|done]|]. intros a. reads.
  destruct (Z.leb_spec (109 + 2) (len bytes)); [apply succeeds_le; [lia..|intros ?]|cbn [obind]];
    (destruct (Z.ltb_spec 128 (len bytes)); [apply succeeds_u8; [lia|done]|done]).
Qed.

Lemma madt_entry_succeeds E bytes o ty l m : len bytes < 2 ^ 63 -> 0 <= o -> o + l <= len bytes -> succeeds (madt_entry (E:=E) bytes o ty l m).
Proof.
  intros Hbig Ho Hl. unfold madt_entry, read_u16, read_u32, read_u64.
  repeat match goal with |- succeeds (if ?c then _ else _) => destruct c eqn:?; [bool_prop; by reads|] end. exact I.
Qed.

Lemma madt_entries_succeeds E fuel bytes o m : byte_list bytes -> len bytes < 2 ^ 63 -> 0 <= o < 2 ^ 63 + 256 -> (Z.to_nat (len bytes - o) < fuel)%nat -> succeeds (madt_entries (E:=E) fuel bytes o m).
Proof.
  intros Hb Hbig. revert o m. induction fuel as [|fuel IH]; intros o m Ho Hf; [lia|]. cbn [madt_entries]. rewrite add_ok by lia. cbn [obind].
  destruct (Z.leb_spec (o + 2) (len bytes)); cbn [negb]; [|exact I]. apply succeeds_u8; [lia|]. intros ty. unfold beyond. rewrite add_ok by lia. cbn [obind].
  destruct (read_u8_in E bytes (o + 1) ltac:(lia)) as (l & -> & Hl). cbn [obind]. destruct (Z.ltb_spec l 2); [exact I|].
  assert (Hbyte : 0 <= l < 256) by exact (Forall_lookup_1 _ _ _ _ Hb Hl). rewrite add_ok by lia. cbn [obind]. destruct (Z.ltb_spec (len bytes) (o + l)); [exact I|].
  apply succeeds_bind; [by apply madt_entry_succeeds; lia|]. intros m'. apply IH; lia.
Qed.

Lemma parse_madt_succeeds E bytes : byte_list bytes -> len bytes < 2 ^ 63 -> succeeds (parse_madt (E:=E) bytes).
Proof.
  intros Hb Hbig. unfold parse_madt, read_u32. bdestruct_if; [exact I|]. reads.
  apply succeeds_bind; [|done]. apply madt_entries_succeeds; [done|done|lia|unfold len in *; lia].
Qed.

(** ** Discovery on any memory *)

(** What an error may be: of [AcpiStop], a pointer that really is misaligned. *)
Class ErrOk (E : Type) : Type := err_ok : E -> Prop.
#[export] Instance map_err_ok : ErrOk MapError := fun _ => True.
#[export] Instance acpi_err_ok : ErrOk AcpiError := fun _ => True.
#[export] Instance acpi_stop_ok : ErrOk AcpiStop := fun e => match e with Failed _ => True | Misaligned va => va mod 4 <> 0 end.

(** [m] returns on every state with a well-formed allocator, keeps it so, and its value satisfies [Q]. *)
Definition gives {E A} `{ErrOk E} (m : M Paging E A) (Q : A -> Prop) : Prop := forall s, paging_ok s ->
  match m s with
  | (Ok a, s') => Q a /\ paging_ok s'
  | (Err e, s') => err_ok e /\ paging_ok s'
  | (Panic, _) | (Diverge, _) => False
  end.

Section gives.
Context {E : Type} `{ErrOk E}.
Lemma gives_ret {A} (a : A) (Q : A -> Prop) : Q a -> gives (E:=E) (ret a) Q.
Proof. by intros Ha s Hs. Qed.
Lemma gives_throw {A} (e : E) (Q : A -> Prop) : err_ok e -> gives (throw e) Q.
Proof. by intros He s Hs. Qed.
Lemma gives_gets {A} (f : Paging -> A) (Q : A -> Prop) : (forall s, Q (f s)) -> gives (E:=E) (gets f) Q.
Proof. by intros Hf s Hs. Qed.
Lemma gives_lift {A} (o : outcome E A) : succeeds o -> gives (lift o) (fun _ => True).
Proof. intros Ho s Hs. unfold lift. by destruct o. Qed.
Lemma gives_bind {A B} (m : M Paging E A) (k : A -> M Paging E B) P Q :
  gives m P -> (forall a, P a -> gives (k a) Q) -> gives (bind m k) Q.
Proof.
  intros Hm Hk s Hs. specialize (Hm s Hs). unfold bind. destruct (m s) as [[a|e| |] s']; try done. destruct Hm. by apply Hk.
Qed.
Lemma gives_catch {F A B} `{ErrOk F} (m : M Paging F A) (k : A + F -> M Paging E B) Q :
  gives m (fun _ => True) -> (forall r, gives (k r) Q) -> gives (catch m k) Q.
Proof.
  intros Hm Hk s Hs. specialize (Hm s Hs). unfold catch. destruct (m s) as [[a|e| |] s']; try done; destruct Hm; by apply Hk.
Qed.
Lemma gives_weaken {A} (m : M Paging E A) (P Q : A -> Prop) : (forall a, P a -> Q a) -> gives m P -> gives m Q.
Proof. intros HPQ Hm s Hs. specialize (Hm s Hs). destruct (m s) as [[a|e| |] s']; try done. destruct Hm. auto. Qed.
End gives.
Lemma gives_steady {A} (m : M Paging MapError A) : steady m -> gives m (fun _ => True).
Proof. intros Hm s Hs. destruct (Hm s Hs) as [Hr Ho]. by destruct (m s) as [[a|e| |] s']. Qed.
Lemma gives_if {E A} `{ErrOk E} (b : bool) (m1 m2 : M Paging E A) Q : (b = true -> gives m1 Q) -> (b = false -> gives m2 Q) -> gives (if b then m1 else m2) Q.
Proof. destruct b; eauto. Qed.

Lemma field_gives E `{ErrOk E} va o n : gives (E:=E) (field va o n) (fun v => 0 <= v < 256 ^ Z.of_nat n).
Proof.
  apply gives_gets. intros s. pose proof (le_val_range _ (bytes_from_byte (pg_words s) (va + o) n)) as Hr.
  unfold len in Hr. by rewrite length_bytes_from in Hr.
Qed.
Lemma bytes_at_gives E `{ErrOk E} va n : 0 <= n -> gives (E:=E) (bytes_at va n) (fun bs => len bs = n /\ byte_list bs).
Proof. intros Hn. apply gives_gets. intros s. split; [unfold len; rewrite length_bytes_from; lia|apply bytes_from_byte]. Qed.

Lemma gives_or_fail {A} (m : M Paging AcpiError A) Q : gives m Q -> gives (or_fail m) Q.
Proof.
  intros Hm s Hs. specialize (Hm s Hs). unfold or_fail, catch. destruct (m s) as [[a|e| |] s']; done.
Qed.
Lemma deref_gives va : gives (deref va) (fun _ => va mod 4 = 0).
Proof. unfold deref. apply gives_if; intros H; [by apply gives_ret, Z.eqb_eq|apply gives_throw; by apply Z.eqb_neq]. Qed.

Lemma phys_ptr_gives cr3 hhdm pa size : 0 <= pa < U64 -> gives (phys_ptr cr3 hhdm pa size) (fun _ => True).
Proof.
  intros Hpa. unfold phys_ptr. apply gives_catch; [by apply gives_steady, ensure_region_mapped_steady|].
  intros [va|e]; [by apply gives_ret|by apply gives_throw].
Qed.

(** A table is counted exactly once, as valid or as invalid. *)
Definition counted (n : Z) (t : Tables) : Prop := t_valid t + t_invalid t = n /\ 0 <= t_valid t /\ 0 <= t_invalid t.

Lemma one_invalid_gives n t : counted n t -> n < 2 ^ 63 -> gives (lift (one_invalid (E:=AcpiStop) t)) (counted (n + 1)).
Proof.
  intros (Hs & Hv & Hi) Hn s Hok. unfold lift, one_invalid. rewrite add_ok by lia. cbn [obind]. split; [|done]. unfold counted. simpl. lia.
Qed.

Lemma read_table_gives cr3 hhdm address t n : 0 <= address < U64 -> counted n t -> n < 2 ^ 63 ->
  gives (read_table cr3 hhdm address t) (counted (n + 1)).
Proof.
  intros Ha Ht Hn. pose proof (one_invalid_gives n t Ht Hn) as Hi. unfold read_table.
  apply gives_catch; [by apply phys_ptr_gives|]. intros [header|e]; [|done]. apply (gives_bind _ _ _ _ (deref_gives _)). intros _ _.
  apply (gives_bind _ _ _ _ (field_gives _ _ _ _)). intros length Hl. change (256 ^ Z.of_nat 4) with U32 in Hl. apply gives_if; intros Hlen; [done|].
  apply gives_catch; [by apply phys_ptr_gives|]. intros [va|e]; [|done].
  apply (gives_bind _ _ _ _ (bytes_at_gives _ _ length ltac:(lia))). intros bytes [Hbl Hb]. apply gives_if; intros _; [done|].
  assert (Hbig : len bytes < 2 ^ 63) by lia.
  destruct Ht as (Hsum & Hv & Hinv). rewrite add_ok by lia. apply (gives_bind _ _ (fun v => v = t_valid t + 1)); [by intros s Hs|]. intros valid ->. cbv zeta.
  apply (gives_bind _ _ _ _ (bytes_at_gives _ _ 4 ltac:(lia))). intros signature _.
  assert (Hc : forall m f, counted (n + 1) (mkTables (t_valid t + 1) (t_invalid t) m f)) by (unfold counted; simpl; lia).
  apply gives_if; intros _; [|apply gives_if; intros _].
  - apply (gives_bind _ _ (fun _ => True)); [apply gives_if; intros _; [by apply gives_ret|by apply (gives_weaken _ _ _ (fun _ _ => I) (deref_gives va))]|]. intros _ _.
    apply (gives_bind _ _ _ _ (gives_lift _ (parse_madt_succeeds _ _ Hb Hbig))). intros m _. by apply gives_ret.
  - apply (gives_bind _ _ _ _ (field_gives _ _ _ _)). intros revision _. apply (gives_bind _ _ _ _ (field_gives _ _ _ _)). intros length' _.
    apply (gives_bind _ _ _ _ (gives_lift _ (parse_fadt_succeeds _ _ _ _ Hbig))). intros f _. by apply gives_ret.
  - by apply gives_ret.
Qed.

Lemma scan_tables_gives cr3 hhdm kind va length indices t n : length < 2 ^ 32 -> 0 <= n -> n + len indices < 2 ^ 63 ->
  Forall (fun i => 0 <= i /\ SDT_HEADER_BYTES + (i + 1) * entry_size kind <= length) indices -> counted n t ->
  gives (scan_tables cr3 hhdm kind va length indices t) (counted (n + len indices)).
Proof.
  intros Hbig Hn0 Hnb Hin. revert t n Hn0 Hnb. induction Hin as [|i indices [Hi0 Hi] _ IH]; intros t n Hn0 Hnb Ht; cbn [scan_tables].
  { rewrite len_nil, Z.add_0_r. by apply gives_ret. }
  rewrite len_cons in Hnb. pose proof (len_nonneg indices). assert (Hes : entry_size kind = 4 \/ entry_size kind = 8) by (destruct kind; auto).
  apply (gives_bind _ _ (counted (n + 1))); [|intros t' Ht'; rewrite len_cons, Z.add_assoc; apply IH; [lia|lia|done]].
  unfold table_step, SDT_HEADER_BYTES in *. apply (gives_bind _ _ _ _ (bytes_at_gives _ _ length ltac:(lia))). intros bytes [Hlen Hb].
  rewrite mul_ok by lia. apply (gives_bind _ _ (fun e => e = i * entry_size kind)); [by intros s Hs|]. intros e ->.
  rewrite add_ok by lia. apply (gives_bind _ _ (fun e => e = 36 + i * entry_size kind)); [by intros s Hs|]. intros e ->.
  apply (gives_bind _ _ (fun a => 0 <= a < U64)).
  - rewrite read_le_in by lia. intros s Hs. unfold lift. split; [|done].
    assert (Hraw : byte_list (take (Z.to_nat (entry_size kind)) (drop (Z.to_nat (36 + i * entry_size kind)) bytes))) by (by apply Forall_take, Forall_drop).
    pose proof (le_val_range _ Hraw) as Hv. assert (Hl : len (take (Z.to_nat (entry_size kind)) (drop (Z.to_nat (36 + i * entry_size kind)) bytes)) = entry_size kind) by len_solve.
    rewrite Hl in Hv. destruct Hes as [Hes|Hes]; rewrite Hes in *; lia.
  - intros address Ha. apply gives_if; intros _; [apply one_invalid_gives; [done|lia]|apply read_table_gives; [done|done|lia]].
Qed.

Lemma find_root_gives cr3 hhdm rsdp_address rsdp revision : 0 <= rsdp_address < U64 ->
  gives (find_root cr3 hhdm rsdp_address rsdp revision)
    (fun '(kind, root) => 0 < root < U64 /\ (kind = Rsdt -> root < U32) /\ (kind = Xsdt -> 2 <= revision)).
Proof.
  intros Ha.
  assert (Hrsdt : gives (rsdt_root rsdp) (fun '(kind, root) => 0 < root < U64 /\ (kind = Rsdt -> root < U32) /\ (kind = Xsdt -> 2 <= revision))).
  { unfold rsdt_root. apply (gives_bind _ _ _ _ (field_gives _ _ _ _)). intros r Hr. apply gives_if; intros Hz; [by apply gives_throw|].
    bool_prop. apply gives_ret. change (256 ^ Z.of_nat 4) with U32 in Hr. split; [lia|]. split; [lia|done]. }
  unfold find_root. apply gives_if; intros Hrev; [|done]. bool_prop.
  apply (gives_bind _ _ _ _ (gives_or_fail _ _ (phys_ptr_gives _ _ _ _ Ha))). intros p _. apply (gives_bind _ _ _ _ (field_gives _ _ _ _)). intros length Hl.
  apply gives_if; intros _; [by apply gives_throw|]. apply (gives_bind _ _ _ _ (gives_or_fail _ _ (phys_ptr_gives _ _ _ _ Ha))). intros va _.
  apply (gives_bind _ _ _ _ (bytes_at_gives _ _ length ltac:(lia))). intros bytes _. apply gives_if; intros _; [by apply gives_throw|].
  apply (gives_bind _ _ _ _ (field_gives _ _ _ _)). intros x Hx. apply gives_if; intros Hz; [|done]. bool_prop.
  apply gives_ret. change (256 ^ Z.of_nat 8) with U64 in Hx. split; [lia|]. done.
Qed.

(** The properties of a discovery that succeeds. *)
Definition discovered (d : AcpiDiscovery) : Prop :=
  valid_table_count d + invalid_table_count d = table_count d /\ 0 <= valid_table_count d <= table_count d /\
  0 < root_address d < U64 /\ (root_kind d = Rsdt -> root_address d < U32) /\ (root_kind d = Xsdt -> 2 <= d_revision d).

Lemma discover_gives cr3 hhdm rsdp_address : 0 <= rsdp_address < U64 -> gives (discover cr3 hhdm rsdp_address) discovered.
Proof.
  intros Ha. unfold discover. apply (gives_bind _ _ _ _ (gives_or_fail _ _ (phys_ptr_gives _ _ _ _ Ha))). intros va _.
  apply (gives_bind _ _ _ _ (bytes_at_gives _ _ RSDP_BYTES ltac:(done))). intros bytes _.
  do 2 (apply gives_if; intros _; [by apply gives_throw|]). apply (gives_bind _ _ _ _ (gives_or_fail _ _ (phys_ptr_gives _ _ _ _ Ha))). intros rsdp _.
  apply (gives_bind _ _ _ _ (deref_gives _)). intros _ _.
  apply (gives_bind _ _ _ _ (field_gives _ _ _ _)). intros revision _. apply (gives_bind _ _ _ _ (bytes_at_gives _ _ 6 ltac:(done))). intros oem _.
  apply (gives_bind _ _ _ _ (find_root_gives _ _ _ _ _ Ha)). intros [kind root] (Hr & Hrsdt & Hx).
  apply (gives_bind _ _ _ _ (gives_or_fail _ _ (phys_ptr_gives _ _ root _ ltac:(lia)))). intros header _. apply (gives_bind _ _ _ _ (deref_gives _)). intros _ _.
  apply (gives_bind _ _ _ _ (field_gives _ _ _ _)). intros l Hl. change (256 ^ Z.of_nat 4) with U32 in Hl. apply gives_if; intros Hmin; [by apply gives_throw|]. apply Z.ltb_ge in Hmin.
  apply (gives_bind _ _ _ _ (bytes_at_gives _ _ 4 ltac:(done))). intros signature _. cbv zeta. apply gives_if; intros _; [by apply gives_throw|].
  apply (gives_bind _ _ _ _ (gives_or_fail _ _ (phys_ptr_gives _ _ root _ ltac:(lia)))). intros root_va _.
  apply (gives_bind _ _ _ _ (bytes_at_gives _ _ l ltac:(lia))). intros root_bytes [Hlen _]. apply gives_if; intros _; [by apply gives_throw|].
  rewrite Hlen, sub_ok by done. apply (gives_bind _ _ (fun v => v = l - SDT_HEADER_BYTES)); [by intros s Hs|]. intros entries ->. set (count := (l - SDT_HEADER_BYTES) / entry_size kind).
  assert (Hcount : 0 <= count /\ SDT_HEADER_BYTES + count * entry_size kind <= l).
  { unfold count. assert (0 < entry_size kind) by (by destruct kind). pose proof (Z.div_pos (l - SDT_HEADER_BYTES) (entry_size kind) ltac:(lia) ltac:(lia)).
    pose proof (Z.mul_div_le (l - SDT_HEADER_BYTES) (entry_size kind) ltac:(lia)). lia. }
  assert (Hs : len (seqZ 0 count) = count) by (unfold len; rewrite length_seqZ; lia).
  assert (Hes : 1 <= entry_size kind) by (by destruct kind).
  eapply gives_bind; [apply (scan_tables_gives _ _ _ _ _ _ _ 0)|].
  - exact (proj2 Hl).
  - done.
  - rewrite Hs. unfold SDT_HEADER_BYTES in *. nia.
  - apply Forall_forall. intros i Hi. apply elem_of_seqZ in Hi. split; [lia|]. assert ((i + 1) * entry_size kind <= count * entry_size kind) by (apply Z.mul_le_mono_nonneg_r; [by destruct kind|lia]). lia.
  - done.
  - intros t (Hsum & Hv & Hi). rewrite Hs in Hsum.
    apply gives_ret. unfold discovered. simpl. repeat split; try lia; done || by apply Hrsdt || by apply Hx.
Qed.

(** C32. Discovery is safe on whatever the firmware left in memory: for any memory
    and any address of the root pointer it returns, without a slice index out of range, an
    overflow of an offset or a count, or an endless loop, and keeps the frame allocator
    well-formed; a discovery that succeeds has a root table, 32-bit unless the revision
    allows a wider one, and has counted every entry of it exactly once, as a valid or an
    invalid table. The one thing that can go wrong is a reference to a structure at an
    address that is not a multiple of four, which the firmware's pointers may give: the
    model stops there and names that address. *)
Theorem acpi_discover_total cr3 hhdm rsdp_address s : 0 <= rsdp_address < U64 -> paging_ok s ->
  match discover cr3 hhdm rsdp_address s with
  | (Ok d, s') =>
      valid_table_count d + invalid_table_count d = table_count d /\ 0 <= valid_table_count d <= table_count d /\
      0 < root_address d < U64 /\ (root_kind d = Rsdt -> root_address d < U32) /\ (root_kind d = Xsdt -> 2 <= d_revision d) /\ paging_ok s'
  | (Err (Failed _), s') => paging_ok s'
  | (Err (Misaligned va), _) => va mod 4 <> 0
  | (Panic, _) | (Diverge, _) => False
  end.
Proof.
  intros Ha Hs. pose proof (discover_gives cr3 hhdm rsdp_address Ha s Hs) as Hg. destruct (discover cr3 hhdm rsdp_address s) as [[d|[e|va]| |] s'].
  - destruct Hg as [Hd Hs']. unfold discovered in Hd. tauto.
  - by destruct Hg.
  - by destruct Hg.
  - done.
  - done.
Qed.

(** ** Tables as firmware writes them *)
Inductive MadtEntry : Type :=
| LocalApic (uid apic_id flags : Z)
| IoApic (id reserved address base : Z)
| SourceOverride (bus source gsi flags : Z)
| AddressOverride (r0 r1 address : Z)
| LocalX2Apic (r0 r1 apic_id flags uid : Z)
| OtherEntry (ty : Z) (body : list Z).

Definition entry_type (e : MadtEntry) : Z :=
  match e with
  | LocalApic _ _ _ => MADT_ENTRY_LOCAL_APIC
  | IoApic _ _ _ _ => MADT_ENTRY_IO_APIC
  | SourceOverride _ _ _ _ => MADT_ENTRY_INTERRUPT_SOURCE_OVERRIDE
  | AddressOverride _ _ _ => MADT_ENTRY_LOCAL_APIC_ADDRESS_OVERRIDE
  | LocalX2Apic _ _ _ _ _ => MADT_ENTRY_LOCAL_X2APIC
  | OtherEntry ty _ => ty
  end.
Definition entry_body (e : MadtEntry) : list Z :=
  match e with
  | LocalApic uid apic_id flags => [uid; apic_id] ++ le_bytes 4 flags
  | IoApic id r address base => [id; r] ++ le_bytes 4 address ++ le_bytes 4 base
  | SourceOverride bus source gsi flags => [bus; source] ++ le_bytes 4 gsi ++ le_bytes 2 flags
  | AddressOverride r0 r1 address => [r0; r1] ++ le_bytes 8 address
  | LocalX2Apic r0 r1 apic_id flags uid => [r0; r1] ++ le_bytes 4 apic_id ++ le_bytes 4 flags ++ le_bytes 4 uid
  | OtherEntry _ body => body
  end.
(** An entry may be longer than what its type needs. *)
Definition encode_entry (e : MadtEntry) (pad : list Z) : list Z :=
  [entry_type e; 2 + len (entry_body e ++ pad)] ++ entry_body e ++ pad.

(** The parser passes over a type it does not know, and over one that is too short. *)
Definition ignored (ty n : Z) : bool :=
  negb (((ty =? 0) && (8 <=? n)) || ((ty =? 1) && (12 <=? n)) || ((ty =? 2) && (10 <=? n)) || ((ty =? 5) && (12 <=? n)) || ((ty =? 9) && (16 <=? n))).
Definition entry_ok (ep : MadtEntry * list Z) : bool :=
  let '(e, pad) := ep in
  let u32 v := (0 <=? v) && (v <? U32) in
  (2 + len (entry_body e ++ pad) <? 256) &&
  match e with
  | LocalApic _ _ flags => u32 flags
  | IoApic _ _ address base => u32 address && u32 base
  | SourceOverride _ _ gsi flags => u32 gsi && ((0 <=? flags) && (flags <? U16))
  | AddressOverride _ _ address => (0 <=? address) && (address <? U64)
  | LocalX2Apic _ _ apic_id flags uid => u32 apic_id && (u32 flags && u32 uid)
  | OtherEntry ty body => ignored ty (2 + len (body ++ pad))
  end.

Definition entry_processor (e : MadtEntry) : option MadtProcessor :=
  match e with
  | LocalApic uid apic_id flags => Some (mkProcessor uid apic_id (flag_set flags 1) (flag_set flags 2) false)
  | LocalX2Apic _ _ apic_id flags uid => Some (mkProcessor uid apic_id (flag_set flags 1) (flag_set flags 2) true)
  | _ => None
  end.
Definition entry_io_apic (e : MadtEntry) : option IoApicInfo :=
  match e with IoApic id _ address base => Some (mkIoApic id address base) | _ => None end.
Definition entry_override (e : MadtEntry) : option InterruptSourceOverride :=
  match e with SourceOverride _ source gsi flags => Some (mkOverride source gsi flags) | _ => None end.
Definition entry_address (e : MadtEntry) : option Z := match e with AddressOverride _ _ a => Some a | _ => None end.

(** What a list of entries adds to [m]. *)
Definition with_entries (m : MadtInfo) (es : list MadtEntry) : MadtInfo :=
  mkMadt (default (local_apic_address m) (last (omap entry_address es))) (madt_flags m) (processors m ++ omap entry_processor es)
    (io_apics m ++ omap entry_io_apic es) (interrupt_source_overrides m ++ omap entry_override es).

Section encoded.
Context {E : Type}.
Variables (pre rest : list Z).

Lemma read_u8_app l k v : l !! Z.to_nat k = Some v -> 0 <= k -> read_u8 (E:=E) (pre ++ l ++ rest) (len pre + k) = Ok v.
Proof.
  intros Hl Hk. apply idx_ok; [pose proof (len_nonneg pre); lia|]. rewrite lookup_app_r by (unfold len; lia).
  replace (Z.to_nat (len pre + k) - length pre)%nat with (Z.to_nat k) by (unfold len; lia). by apply lookup_app_l_Some.
Qed.
Lemma read_le_app n nz l l1 l3 k z :
  len (pre ++ l ++ rest) < 2 ^ 63 -> l = l1 ++ le_bytes n z ++ l3 -> Z.of_nat n = nz -> k = len l1 -> 0 <= z < 256 ^ nz ->
  read_le (E:=E) nz (pre ++ l ++ rest) (len pre + k) = Ok z.
Proof.
  intros Hbig -> <- -> Hz. unfold read_le. rewrite add_ok by (revert Hbig; len_solve). cbn [obind]. replace (pre ++ (l1 ++ le_bytes n z ++ l3) ++ rest) with ((pre ++ l1) ++ le_bytes n z ++ (l3 ++ rest)) by (by rewrite <- !app_assoc).
  rewrite (slice_app _ _ _ _ _) by len_solve. cbn [obind]. by rewrite le_val_bytes_small.
Qed.

(** The branch of the type of an entry. *)
Ltac pick_entry :=
  unfold madt_entry, read_u16, read_u32, read_u64, entry_type, MADT_ENTRY_LOCAL_APIC, MADT_ENTRY_IO_APIC, MADT_ENTRY_INTERRUPT_SOURCE_OVERRIDE,
    MADT_ENTRY_LOCAL_APIC_ADDRESS_OVERRIDE, MADT_ENTRY_LOCAL_X2APIC;
  repeat match goal with |- context [?a =? ?b] => let v := eval vm_compute in (a =? b) in change (a =? b) with v end; cbn [andb];
  match goal with |- context [?a <=? 2 + len ?b] => replace (a <=? 2 + len b) with true
    by (symmetry; apply Z.leb_le; cbn [entry_body]; rewrite !len_app, ?len_cons, ?len_nil; unfold len; rewrite ?length_le_bytes; lia) end.

Lemma madt_entry_encoded e pad m : len (pre ++ encode_entry e pad ++ rest) < 2 ^ 63 -> entry_ok (e, pad) = true ->
  madt_entry (E:=E) (pre ++ encode_entry e pad ++ rest) (len pre) (entry_type e) (2 + len (entry_body e ++ pad)) m = Ok (with_entries m [e]).
Proof.
  intros Hbig Hok. cbn [entry_ok] in Hok. apply andb_true_iff in Hok as [_ Hok].
  assert (Hpre : len pre < 2 ^ 63) by (rewrite len_app in Hbig; pose proof (len_nonneg (encode_entry e pad ++ rest)); lia). set (L := 2 + len (entry_body e ++ pad)) in *.
  destruct e as [uid id fl|id r a b|bus src gsi fl|r0 r1 a|r0 r1 id fl uid|ty body]; bool_prop; unfold L; [pick_entry; unfold beyond; rewrite !add_ok by lia; cbn [obind]..|]; fold L.
  - rewrite (read_u8_app _ 2 uid), (read_u8_app _ 3 id) by done. cbn [obind].
    rewrite (read_le_app 4 _ _ [0; L; uid; id] pad 4 fl) by (done || lia). cbn [obind].
    unfold with_entries, add_processor. simpl. by rewrite !app_nil_r.
  - rewrite (read_u8_app _ 2 id) by done. cbn [obind].
    rewrite (read_le_app 4 _ _ [1; L; id; r] (le_bytes 4 b ++ pad) 4 a) by (done || lia). cbn [obind].
    rewrite (read_le_app 4 _ _ ([1; L; id; r] ++ le_bytes 4 a) pad 8 b) by (done || lia). cbn [obind].
    unfold with_entries. simpl. by rewrite !app_nil_r.
  - rewrite (read_u8_app _ 3 src) by done. cbn [obind].
    rewrite (read_le_app 4 _ _ [2; L; bus; src] (le_bytes 2 fl ++ pad) 4 gsi) by (done || lia). cbn [obind].
    rewrite (read_le_app 2 _ _ ([2; L; bus; src] ++ le_bytes 4 gsi) pad 8 fl) by (done || lia). cbn [obind].
    unfold with_entries. simpl. by rewrite !app_nil_r.
  - rewrite (read_le_app 8 _ _ [5; L; r0; r1] pad 4 a) by (done || lia). cbn [obind].
    unfold with_entries. simpl. by rewrite !app_nil_r.
  - rewrite (read_le_app 4 _ _ [9; L; r0; r1] (le_bytes 4 fl ++ le_bytes 4 uid ++ pad) 4 id) by (done || lia).
    cbn [obind].
    rewrite (read_le_app 4 _ _ ([9; L; r0; r1] ++ le_bytes 4 id) (le_bytes 4 uid ++ pad) 8 fl) by (done || lia).
    cbn [obind].
    rewrite (read_le_app 4 _ _ ([9; L; r0; r1] ++ le_bytes 4 id ++ le_bytes 4 fl) pad 12 uid) by (done || lia).
    cbn [obind]. unfold with_entries, add_processor. simpl. by rewrite !app_nil_r.
  - unfold ignored in Hok. cbn [entry_body] in L. fold L in Hok. bool_prop.
    unfold madt_entry, read_u16, read_u32, read_u64, entry_type, MADT_ENTRY_LOCAL_APIC, MADT_ENTRY_IO_APIC, MADT_ENTRY_INTERRUPT_SOURCE_OVERRIDE,
      MADT_ENTRY_LOCAL_APIC_ADDRESS_OVERRIDE, MADT_ENTRY_LOCAL_X2APIC.
    repeat match goal with H : ?c = false |- context [if ?c then _ else _] => rewrite H end.
    unfold with_entries. destruct m. simpl. by rewrite !app_nil_r.
Qed.
End encoded.

Lemma with_entries_cons m e es : with_entries (with_entries m [e]) es = with_entries m (e :: es).
Proof.
  unfold with_entries. destruct m as [la fl ps ios ovs]. cbn [local_apic_address madt_flags processors io_apics interrupt_source_overrides].
  change (e :: es) with ([e] ++ es). rewrite !omap_app, <- !app_assoc. f_equal. rewrite last_app. by destruct (last (omap entry_address es)).
Qed.

(** Bytes at which the parser stops: no room for an entry header, or an entry whose length is impossible. *)
Definition stops (tail : list Z) : bool :=
  match tail with _ :: n :: _ => (n <? 2) || (len tail <? n) | _ => true end.
Definition encode_entries (es : list (MadtEntry * list Z)) : list Z := concat ((fun ep => encode_entry (fst ep) (snd ep)) <$> es).

Lemma madt_entries_stop E fuel pre tail m : len (pre ++ tail) < 2 ^ 63 -> byte_list tail -> stops tail = true -> madt_entries (E:=E) (S fuel) (pre ++ tail) (len pre) m = Ok m.
Proof.
  intros Hbig Hbytes Hs. pose proof (len_nonneg pre) as Hp. pose proof (len_nonneg tail) as Ht. rewrite len_app in Hbig. cbn [madt_entries]. rewrite add_ok by lia. cbn [obind]. rewrite len_app.
  destruct tail as [|a [|n tail]]; [rewrite (proj2 (Z.leb_gt _ _)) by len_solve; done..|].
  pose proof (len_nonneg tail). rewrite (proj2 (Z.leb_le _ _)) by (rewrite !len_cons; lia). cbn [negb stops] in *.
  replace (pre ++ a :: n :: tail) with (pre ++ (a :: n :: tail) ++ []) by (by rewrite app_nil_r). unfold beyond. rewrite (add_ok U64 (len pre) 1) by lia. cbn [obind].
  replace (len pre) with (len pre + 0) at 1 by lia. rewrite (read_u8_app _ _ _ 0 a), (read_u8_app _ _ _ 1 n) by done. cbn [obind].
  destruct (Z.ltb_spec n 2); [done|]. cbn [orb] in Hs. apply Z.ltb_lt in Hs.
  assert (Hn : 0 <= n < 256) by exact (Forall_lookup_1 _ _ 1%nat n Hbytes eq_refl). rewrite add_ok by lia. cbn [obind].
  by rewrite (proj2 (Z.ltb_lt _ _)) by lia.
Qed.

Lemma madt_entries_encoded E es tail : Forall (fun ep => entry_ok ep = true) es -> byte_list tail -> stops tail = true ->
  forall pre m fuel, len (pre ++ encode_entries es ++ tail) < 2 ^ 63 -> (length es < fuel)%nat ->
  madt_entries (E:=E) fuel (pre ++ encode_entries es ++ tail) (len pre) m = Ok (with_entries m (fst <$> es)).
Proof.
  intros Hes Hb Ht. induction Hes as [|[e pad] es Hok _ IH]; intros pre m fuel Hbig Hf; (destruct fuel as [|fuel]; [simpl in Hf; lia|]).
  { change (encode_entries []) with (@nil Z). change (encode_entries [] ++ tail) with tail in Hbig. rewrite app_nil_l, madt_entries_stop by done. unfold with_entries. destruct m. simpl. by rewrite !app_nil_r. }
  change (encode_entries ((e, pad) :: es)) with (encode_entry e pad ++ encode_entries es) in *. rewrite <- app_assoc in *.
  set (rest := encode_entries es ++ tail). set (L := 2 + len (entry_body e ++ pad)).
  assert (Hlen : len (encode_entry e pad) = L) by (unfold encode_entry; rewrite len_app; done).
  pose proof (len_nonneg pre). pose proof (len_nonneg rest). pose proof (len_nonneg (entry_body e ++ pad)).
  pose proof Hbig as Hbig'. fold rest in Hbig, Hbig'. rewrite !len_app, Hlen in Hbig'.
  assert (HL : L < 256) by (cbn [entry_ok] in Hok; apply andb_true_iff in Hok as [Hok _]; by apply Z.ltb_lt in Hok).
  cbn [madt_entries]. unfold beyond. rewrite !add_ok by lia. cbn [obind]. rewrite !len_app, Hlen. rewrite (proj2 (Z.leb_le _ _)) by lia. cbn [negb].
  replace (len pre) with (len pre + 0) at 1 by lia. rewrite (read_u8_app _ _ _ 0 (entry_type e)), (read_u8_app _ _ _ 1 L) by done. cbn [obind].
  rewrite (proj2 (Z.ltb_ge L 2)) by lia. rewrite (add_ok U64 (len pre) L) by lia. cbn [obind]. rewrite (proj2 (Z.ltb_ge _ _)) by lia.
  rewrite (madt_entry_encoded pre rest e pad m Hbig Hok). cbn [obind]. rewrite <- Hlen, <- len_app, app_assoc. unfold rest.
  rewrite IH by (rewrite <- ?app_assoc; done || (simpl in Hf; lia)). by rewrite with_entries_cons.
Qed.

(** The MADT parser reads back what the format says: on a table made of a
    header, any entries in any order (of known types, of unknown types, too short or
    padded) and a tail at which parsing stops, it returns exactly the processors, I/O
    APICs and interrupt overrides of the entries in their order, and the last address
    override, or the address of the header when there is none. A slice has fewer than
    2^63 bytes. *)
Theorem madt_roundtrip E header address flags es tail :
  len header = 36 -> 0 <= address < U32 -> 0 <= flags < U32 -> Forall (fun ep => entry_ok ep = true) es -> byte_list tail -> stops tail = true ->
  len (header ++ le_bytes 4 address ++ le_bytes 4 flags ++ encode_entries es ++ tail) < 2 ^ 63 ->
  parse_madt (E:=E) (header ++ le_bytes 4 address ++ le_bytes 4 flags ++ encode_entries es ++ tail) =
  Ok (Some (mkMadt (default address (last (omap entry_address (fst <$> es)))) flags (omap entry_processor (fst <$> es))
    (omap entry_io_apic (fst <$> es)) (omap entry_override (fst <$> es)))).
Proof.
  intros Hh Ha Hf Hes Hb Ht Hbig. unfold parse_madt. pose proof (len_nonneg (encode_entries es ++ tail)) as Hn.
  rewrite !len_app, (proj2 (Z.ltb_ge _ _)) by (rewrite len_app in Hn; len_solve). unfold read_u32.
  assert (H1 : read_le (E:=E) 4 (header ++ le_bytes 4 address ++ le_bytes 4 flags ++ encode_entries es ++ tail) 36 = Ok address).
  { pose proof (read_le_app (E:=E) header (le_bytes 4 flags ++ encode_entries es ++ tail) 4 4 (le_bytes 4 address) [] [] 0 address) as H.
    rewrite Hh in H. apply H; done || lia || by rewrite <- ?app_assoc. }
  assert (H2 : read_le (E:=E) 4 (header ++ le_bytes 4 address ++ le_bytes 4 flags ++ encode_entries es ++ tail) 40 = Ok flags).
  { pose proof (read_le_app (E:=E) header (encode_entries es ++ tail) 4 4 (le_bytes 4 address ++ le_bytes 4 flags) (le_bytes 4 address) [] 4 flags) as H.
    rewrite Hh, <- !app_assoc in H. apply H; done || lia || by rewrite <- ?app_assoc. }
  rewrite H1. cbn [obind]. rewrite H2. cbn [obind].
  replace (header ++ le_bytes 4 address ++ le_bytes 4 flags ++ encode_entries es ++ tail)
    with ((header ++ le_bytes 4 address ++ le_bytes 4 flags) ++ encode_entries es ++ tail) by (by rewrite <- !app_assoc).
  assert (Hpre : len (header ++ le_bytes 4 address ++ le_bytes 4 flags) = 44) by (rewrite !len_app, Hh; done).
  assert (Hcount : (length es <= length (encode_entries es))%nat).
  { clear. induction es as [|[e pad] es IH]; [done|]. change (encode_entries ((e, pad) :: es)) with (encode_entry e pad ++ encode_entries es).
    rewrite length_app. unfold encode_entry. simpl. lia. }
  rewrite <- Hpre at 1. rewrite madt_entries_encoded; [done|done|done|done|by rewrite <- !app_assoc|]. rewrite !length_app. lia.
Qed.

Definition demo_entries : list (MadtEntry * list Z) :=
  [(LocalApic 0 0 1, []); (LocalApic 1 2 0, []); (IoApic 4 0 0xfec00000 0, []); (OtherEntry 4 [255; 0; 0; 1], []);
   (SourceOverride 0 0 2 0, []); (AddressOverride 0 0 0x100000000, [0; 0]); (LocalX2Apic 0 0 300 3 7, [])].
Example madt_roundtrip_witness :
  parse_madt (E:=unit) (replicate 36 0 ++ le_bytes 4 0xfee00000 ++ le_bytes 4 1 ++ encode_entries demo_entries ++ [0; 99; 1]) =
  Ok (Some (mkMadt 0x100000000 1
    [mkProcessor 0 0 true false false; mkProcessor 1 2 false false false; mkProcessor 7 300 true true true]
    [mkIoApic 4 0xfec00000 0] [mkOverride 0 2 0])).
Proof. apply (madt_roundtrip unit); [done|done|done|repeat constructor|by apply byte_list_check|done|done]. Defined.

(** ** A machine with one XSDT and a MADT *)
Definition with_checksum (at_ : nat) (bytes : list Z) : list Z := <[at_ := (- checksum (<[at_ := 0]> bytes)) mod 256]> bytes.
Definition demo_sdt (signature body : list Z) : list Z :=
  with_checksum 9 (signature ++ le_bytes 4 (36 + len body) ++ [1; 0] ++ replicate 26 0 ++ body).
Definition demo_rsdp : list Z :=
  with_checksum 32 (with_checksum 8 (RSDP_SIGNATURE ++ [0] ++ lit "BOCHS " ++ [2] ++ le_bytes 4 0) ++ le_bytes 4 36 ++ le_bytes 8 0x2000 ++ [0; 0; 0; 0]).
Definition demo_madt : list Z := demo_sdt SIGNATURE_MADT (le_bytes 4 0xfee00000 ++ le_bytes 4 1 ++ encode_entries demo_entries).
Definition DEMO_HHDM : Z := 0xffff800000000000.
Definition demo_firmware : gmap Z Z :=
  copy_to (copy_to (copy_to ∅ (DEMO_HHDM + 0x1000) demo_rsdp)
    (DEMO_HHDM + 0x2000) (demo_sdt SIGNATURE_XSDT (le_bytes 8 0x3000 ++ le_bytes 8 0 ++ le_bytes 8 0x4000)))
    (DEMO_HHDM + 0x3000) demo_madt.
Definition acpi_frames : FrameAllocator :=
  mkFrameAllocator true 1 0x10000 0x10000 0 (mkRegion 0x100000 0x110000 0x100000 :: replicate (Z.to_nat MAX_USABLE_REGIONS - 1) region_empty).
Definition acpi_paging : Paging := mkPaging acpi_frames demo_firmware.

Example demo_discovered :
  fst (discover 0x200000 DEMO_HHDM 0x1000 acpi_paging) =
  Ok (mkDiscovery 2 (lit "BOCHS ") 0x1000 0x2000 Xsdt 3 1 2 (Some (mkMadt 0x100000000 1
    [mkProcessor 0 0 true false false; mkProcessor 1 2 false false false; mkProcessor 7 300 true true true]
    [mkIoApic 4 0xfec00000 0] [mkOverride 0 2 0])) None).
Proof. vm_compute. reflexivity. Qed.

Lemma acpi_discover_total_witness :
  paging_ok acpi_paging /\
  match discover 0x200000 DEMO_HHDM 0x1000 acpi_paging with
  | (Ok d, s') =>
      valid_table_count d + invalid_table_count d = table_count d /\ 0 <= valid_table_count d <= table_count d /\
      0 < root_address d < U64 /\ (root_kind d = Rsdt -> root_address d < U32) /\ (root_kind d = Xsdt -> 2 <= d_revision d) /\ paging_ok s'
  | (Err (Failed _), s') => paging_ok s'
  | (Err (Misaligned va), _) => va mod 4 <> 0
  | (Panic, _) | (Diverge, _) => False
  end.
Proof.
  assert (Hok : paging_ok acpi_paging) by (unfold paging_ok, acpi_paging, table_ok; cbn [pg_frames]; vm_compute; repeat split; discriminate).
  split; [exact Hok|]. apply acpi_discover_total; [lia|exact Hok].
Defined.

(** Firmware may put a table at any address; a reference to its header is then misaligned. *)
Definition odd_firmware : gmap Z Z :=
  copy_to (copy_to (copy_to ∅ (DEMO_HHDM + 0x1000) demo_rsdp)
    (DEMO_HHDM + 0x2000) (demo_sdt SIGNATURE_XSDT (le_bytes 8 0x3002)))
    (DEMO_HHDM + 0x3002) demo_madt.
Example odd_table_misaligned :
  fst (discover 0x200000 DEMO_HHDM 0x1000 (mkPaging acpi_frames odd_firmware)) = Err (Misaligned (DEMO_HHDM + 0x3002)).
Proof. vm_compute. reflexivity. Qed.
