(* ===== verification/Power.v ===== *)
(** * Reset through the firmware's register: [kernel/src/power.rs]

    The reset register is a port or a memory-mapped register: what the code does to
    it is a trace of accesses. [port_in] is what a read of a port returns. The wait
    loops are events too, since the order of the accesses and the pauses between
    them is what makes a reset happen. *)
From stdpp Require Import base list numbers option strings gmap.
From Stdlib Require Import ZArith Lia Bool.
From S2P Require Import Prelude Paths Text Frame Vmm Paging Acpi.

Inductive IoEvent : Type :=
| Out (bytes port value : Z)
| MmioWrite (bytes address value : Z)
| WaitForReset.

Record PowerState : Type := mkPower {
  p_hhdm_offset : Z; p_reset_register : option GenericAddress; p_reset_value : Z; p_reset_supported : bool }.
Definition power_new : PowerState := mkPower 0 None 0 false.

Record PowerResetCapability : Type := mkCapability { rc_supported : bool; rc_address_space : Z; rc_address : Z; rc_value : Z }.
Definition capability_space_str (c : PowerResetCapability) : list Z := address_space_name (rc_address_space c).

Inductive ResetError : Type := Unsupported | UnsupportedAddressSpace | ResetMappingFailed | NotTriggered.
Definition reset_error_str (e : ResetError) : list Z :=
  match e with
  | Unsupported => lit "power reset register is unavailable"
  | UnsupportedAddressSpace => lit "power reset register address space is unsupported"
  | ResetMappingFailed => lit "failed to map power reset register"
  | NotTriggered => lit "power reset register write did not trigger a reset"
  end.

Definition configure (hhdm_offset : Z) (fadt : FadtInfo) : PowerState :=
  mkPower hhdm_offset (reset_register fadt) (reset_value fadt) (reset_supported fadt).

Definition reset_capability (st : PowerState) : PowerResetCapability :=
  match p_reset_register st with
  | Some r => mkCapability (p_reset_supported st) (address_space r) (ga_address r) (p_reset_value st)
  | None => mkCapability false 0 0 0
  end.

Definition register_width_bytes (r : GenericAddress) : Z :=
  if access_size r =? 1 then 1 else if access_size r =? 2 then 2 else if access_size r =? 3 then 4 else if access_size r =? 4 then 8
  else if bit_width r <=? 8 then 1 else if bit_width r <=? 16 then 2 else if bit_width r <=? 32 then 4 else 8.

Section machine.
Variables (cr3 : Z) (port_in : Z -> Z).

(** The pages the code maps and the accesses it makes. *)
Record Bus : Type := mkBus { bus_paging : Paging; bus_trace : list IoEvent }.
#[export] Instance Bus_eta : RecordEta Bus := fun b => mkBus (bus_paging b) (bus_trace b).
Definition emit (e : IoEvent) : M Bus ResetError unit := modify (upd bus_trace (fun t => t ++ [e])).
Definition wait_for_reset : M Bus ResetError unit := emit WaitForReset.

Definition write_reset_mmio (hhdm_offset : Z) (r : GenericAddress) (value : Z) : M Bus ResetError unit :=
  let width := register_width_bytes r in
  let! va := catch (zoom bus_paging (fun p b => set_field bus_paging p b) (ensure_region_mapped cr3 hhdm_offset (ga_address r) width 0))
    (fun o => match o with inl va => ret va | inr _ => throw ResetMappingFailed end) in
  if (width =? 1) || (width =? 2) || (width =? 4) || (width =? 8) then emit (MmioWrite width va value) else emit (MmioWrite 1 va value).

Definition write_reset_port (r : GenericAddress) (value : Z) : M Bus ResetError unit :=
  let port := cast U16 (ga_address r) in
  let width := register_width_bytes r in
  if (width =? 1) && (port =? 0xcf9) then
    let safe_bits := Z.land (port_in port) (bitnot U8 0x0e) in
    let staged_value := Z.lor safe_bits (Z.lor (Z.land value 0x0e) 0x02) in
    do! emit (Out 1 port (Z.lor safe_bits 0x02)) in
    do! wait_for_reset in
    emit (Out 1 port staged_value)
  else if width =? 1 then emit (Out 1 port value)
  else if width =? 2 then emit (Out 2 port value)
  else if width =? 4 then emit (Out 4 port value)
  else emit (Out 1 port value).

Definition try_keyboard_controller_reset : M Bus ResetError unit := emit (Out 1 0x64 0xfe).

Definition reboot (st : PowerState) : M Bus ResetError unit :=
  if negb (p_reset_supported st) then throw Unsupported else
  let! r := lift (ok_or Unsupported (p_reset_register st)) in
  do! (if address_space r =? 0 then write_reset_mmio (p_hhdm_offset st) r (p_reset_value st)
       else if address_space r =? 1 then write_reset_port r (p_reset_value st)
       else throw UnsupportedAddressSpace) in
  do! wait_for_reset in
  do! try_keyboard_controller_reset in
  do! wait_for_reset in
  throw NotTriggered.

(** ** What a reboot does *)

(** The accesses a register write makes, when its page can be mapped. *)
Definition reset_writes (r : GenericAddress) (value : Z) (va : Z) : list IoEvent :=
  let port := cast U16 (ga_address r) in
  let w := register_width_bytes r in
  if address_space r =? 0 then [MmioWrite w va value]
  else if (w =? 1) && (port =? 0xcf9) then
    let safe := Z.land (port_in port) (bitnot U8 0x0e) in
    [Out 1 port (Z.lor safe 2); WaitForReset; Out 1 port (Z.lor safe (Z.lor (Z.land value 0x0e) 2))]
  else [Out (if w =? 8 then 1 else w) port value].
Definition AFTERMATH : list IoEvent := [WaitForReset; Out 1 0x64 0xfe; WaitForReset].

Lemma width_cases r : let w := register_width_bytes r in w = 1 \/ w = 2 \/ w = 4 \/ w = 8.
Proof. unfold register_width_bytes. repeat case_match; tauto. Qed.

Lemma port_run r value b va : address_space r = 1 ->
  write_reset_port r value b = (Ok tt, mkBus (bus_paging b) (bus_trace b ++ reset_writes r value va)).
Proof.
  intros Hs. unfold write_reset_port, reset_writes. rewrite Hs. destruct b as [p t]. cbv zeta. change (1 =? 0) with false. cbv iota.
  destruct (width_cases r) as [Hw|[Hw|[Hw|Hw]]]; rewrite Hw; [|done..]. change (1 =? 1) with true. cbn [andb].
  destruct (cast U16 (ga_address r) =? 3321); [|done]. unfold wait_for_reset, emit, bind, modify. unfold upd. cbn [bus_paging bus_trace].
  by rewrite <- !app_assoc.
Qed.

Lemma aftermath_run (m : M Bus ResetError unit) b p t : m b = (Ok tt, mkBus p t) ->
  (do! m in do! wait_for_reset in do! try_keyboard_controller_reset in do! wait_for_reset in throw (A:=unit) NotTriggered) b =
  (Err NotTriggered, mkBus p (t ++ AFTERMATH)).
Proof.
  intros Hm. unfold bind at 1. rewrite Hm. unfold wait_for_reset, try_keyboard_controller_reset, emit, bind, modify, throw.
  unfold upd. cbn [bus_paging bus_trace]. by rewrite <- !app_assoc.
Qed.

(** A reboot through the FADT never claims success and does what the register's
    description says: without a supported register, or in an address space other than
    memory and ports, nothing is accessed; otherwise it makes exactly the writes of
    the register's width (for the reset control port the reset bit is first written as
    zero, with the unrelated bits of the port kept), waits, pulses the keyboard
    controller, waits, and reports that the machine did not reset. *)
Theorem reboot_spec hhdm fadt b :
  (forall r, reset_register fadt = Some r -> 0 <= ga_address r < U64) -> paging_ok (bus_paging b) ->
  exists e b', reboot (configure hhdm fadt) b = (Err e, b') /\ paging_ok (bus_paging b') /\
  match reset_register fadt with
  | Some r =>
      if negb (reset_supported fadt) then e = Unsupported /\ b' = b
      else if (address_space r =? 0) || (address_space r =? 1) then
        (e = ResetMappingFailed /\ address_space r = 0 /\ bus_trace b' = bus_trace b) \/
        (e = NotTriggered /\ exists va, bus_trace b' = bus_trace b ++ reset_writes r (reset_value fadt) va ++ AFTERMATH)
      else e = UnsupportedAddressSpace /\ b' = b
  | None => e = Unsupported /\ b' = b
  end.
Proof.
  intros Hr Hp. unfold reboot, configure. cbn [p_reset_supported p_reset_register p_hhdm_offset p_reset_value].
  destruct (reset_supported fadt) eqn:Hs; cbn [negb].
  2:{ exists Unsupported, b. split; [done|]. split; [done|]. by destruct (reset_register fadt). }
  destruct (reset_register fadt) as [r|]; [|by exists Unsupported, b]. cbn [ok_or]. unfold bind at 1, lift at 1. specialize (Hr r eq_refl).
  destruct (Z.eqb_spec (address_space r) 0) as [H0|H0]; cbn [orb].
  - destruct (ensure_region_mapped_steady cr3 hhdm (ga_address r) (register_width_bytes r) 0 Hr (bus_paging b) Hp) as [Hret Hok].
    destruct (ensure_region_mapped cr3 hhdm (ga_address r) (register_width_bytes r) 0 (bus_paging b)) as [[va|e'| |] p'] eqn:Hm; simpl in Hret, Hok; try done.
    + exists NotTriggered, (mkBus p' ((bus_trace b ++ reset_writes r (reset_value fadt) va) ++ AFTERMATH)). split.
      { apply aftermath_run. unfold write_reset_mmio, bind, catch, zoom. cbv zeta. rewrite Hm. unfold reset_writes. rewrite H0. cbn [ret].
        by destruct (width_cases r) as [Hw|[Hw|[Hw|Hw]]]; rewrite Hw. }
      split; [done|]. right. split; [done|]. exists va. cbn [bus_trace]. by rewrite <- app_assoc.
    + exists ResetMappingFailed, (mkBus p' (bus_trace b)). split; [|split; [done|by left]].
      unfold bind at 1, write_reset_mmio, bind at 1, catch, zoom. cbv zeta. by rewrite Hm.
  - destruct (Z.eqb_spec (address_space r) 1) as [H1|H1]; [|by exists UnsupportedAddressSpace, b].
    exists NotTriggered. eexists. split; [apply aftermath_run, (port_run _ _ _ 0 H1)|]. split; [done|]. right. split; [done|]. exists 0.
    cbn [bus_trace]. by rewrite <- app_assoc.
Qed.
End machine.

(** The reset bit of the control port goes from zero to the value of the table. *)
Lemma cf9_low_then_high port_in value :
  let safe := Z.land (port_in 0xcf9) (bitnot U8 0x0e) in
  Z.testbit (Z.lor safe 2) 2 = false /\ Z.testbit (Z.lor safe (Z.lor (Z.land value 0x0e) 2)) 2 = Z.testbit value 2.
Proof.
  cbv zeta. rewrite !Z.lor_spec, !Z.land_spec. change (Z.testbit (bitnot U8 14) 2) with false. change (Z.testbit 2 2) with false.
  change (Z.testbit 14 2) with true. by rewrite !andb_false_r, andb_true_r, !orb_false_r.
Qed.

Definition demo_fadt (r : option GenericAddress) : FadtInfo := mkFadt 6 244 Desktop 9 178 0 0 0x604 0 0 FADT_FLAGS_RESET_REG_SUPPORTED r 6.
Definition demo_cf9 : GenericAddress := mkAddress 1 8 0 1 0xcf9.
Example reboot_evaluates :
  bus_trace (snd (reboot 0 (fun _ => 0x81) (configure 0 (demo_fadt (Some demo_cf9))) (mkBus (mkPaging frame_allocator_new ∅) []))) =
  [Out 1 0xcf9 0x83; WaitForReset; Out 1 0xcf9 0x87; WaitForReset; Out 1 0x64 0xfe; WaitForReset].
Proof. vm_compute. reflexivity. Qed.

Lemma reboot_spec_witness : exists e b',
  reboot 0 (fun _ => 0x81) (configure 0 (demo_fadt (Some demo_cf9))) (mkBus (mkPaging frame_allocator_new ∅) []) = (Err e, b') /\
  paging_ok (bus_paging b').
Proof.
  destruct (reboot_spec 0 (fun _ => 0x81) 0 (demo_fadt (Some demo_cf9)) (mkBus (mkPaging frame_allocator_new ∅) [])) as (e & b' & Hr & Hp & _).
  - intros r [= <-]. vm_compute. split; [discriminate|reflexivity].
  - vm_compute. repeat split; discriminate.
  - by exists e, b'.
Defined.
