(* ===== verification/Serial.v ===== *)
(** * The serial port: [kernel/src/serial.rs]

    The port's state is the list of writes to its registers. [line_status t n] is
    what the [n]-th read of the line status register returns after the writes [t];
    [polls] bounds the reads between two bytes. A transmitter becomes empty after
    finitely many reads ([uart_drains]): the hardware's part of the contract. *)
From stdpp Require Import base list numbers option.
From Stdlib Require Import ZArith Lia Bool.
From S2P Require Import Prelude.

Definition COM1_PORT : Z := 0x3f8.
Definition DATA_REGISTER : Z := COM1_PORT.
Definition INTERRUPT_ENABLE_REGISTER : Z := COM1_PORT + 1.
Definition FIFO_CONTROL_REGISTER : Z := COM1_PORT + 2.
Definition LINE_CONTROL_REGISTER : Z := COM1_PORT + 3.
Definition MODEM_CONTROL_REGISTER : Z := COM1_PORT + 4.
Definition TRANSMIT_HOLDING_REGISTER_EMPTY : Z := Z.shiftl 1 5.

Definition Uart : Type := list (Z * Z).
Definition serial_outb {E} (port value : Z) : M Uart E unit := modify (fun t => t ++ [(port, value)]).

Definition serial_init {E} : M Uart E unit :=
  do! serial_outb INTERRUPT_ENABLE_REGISTER 0x00 in
  do! serial_outb LINE_CONTROL_REGISTER 0x80 in
  do! serial_outb DATA_REGISTER 0x03 in
  do! serial_outb INTERRUPT_ENABLE_REGISTER 0x00 in
  do! serial_outb LINE_CONTROL_REGISTER 0x03 in
  do! serial_outb FIFO_CONTROL_REGISTER 0xc7 in
  serial_outb MODEM_CONTROL_REGISTER 0x0b.

(** The writes of [serial_init]: 8 bits, no parity, divisor 3 (38400 baud), and the
    latch closed again before the buffers are turned on. *)
Definition SERIAL_SETUP : Uart :=
  [(0x3f9, 0); (0x3fb, 0x80); (0x3f8, 3); (0x3f9, 0); (0x3fb, 3); (0x3fa, 0xc7); (0x3fc, 0x0b)].

Section port.
Context (line_status : Uart -> nat -> Z) (polls : nat).

Definition serial_write_byte {E} (byte : Z) : M Uart E unit :=
  do! loop polls (fun n => fun t =>
        if Z.land (line_status t n) TRANSMIT_HOLDING_REGISTER_EMPTY =? 0 then (Ok (inl (S n)), t) else (Ok (inr tt), t)) O in
  serial_outb DATA_REGISTER byte.

Definition serial_write_str {E} (bytes : list Z) : M Uart E unit :=
  for_each bytes (fun byte =>
    do! (if byte =? 10 then serial_write_byte 13 else ret tt) in
    serial_write_byte byte).

(** ** What reaches the line *)
Definition uart_drains : Prop :=
  forall t, exists n, (n < polls)%nat /\ Z.land (line_status t n) TRANSMIT_HOLDING_REGISTER_EMPTY <> 0.

(** A carriage return before every line feed. *)
Definition crlf (bytes : list Z) : list Z := concat ((fun b => if b =? 10 then [13; 10] else [b]) <$> bytes).
Definition sent (bytes : list Z) : Uart := (fun b => (DATA_REGISTER, b)) <$> bytes.

Hypothesis drains : uart_drains.

Lemma write_byte_sent {E} b t : serial_write_byte (E:=E) b t = (Ok tt, t ++ sent [b]).
Proof.
  destruct (drains t) as (n & Hn & Hready). unfold serial_write_byte.
  set (body := fun k : nat => _). cut (loop (E:=E) polls body O t = (Ok tt, t)); [intros Hl; unfold bind at 1; by rewrite Hl|].
  apply (loop_rule body (fun k t' => t' = t /\ (k <= n)%nat) (fun r => r = (Ok tt, t)) (fun k => (n - k)%nat)); [|lia|by split; [|lia]].
  intros k t' [-> Hk]. unfold body. destruct (Z.eqb_spec (Z.land (line_status t k) TRANSMIT_HOLDING_REGISTER_EMPTY) 0) as [Hz|_]; [|done].
  assert (k <> n) by (by intros ->). split; [split; [done|]|]; lia.
Qed.

Lemma crlf_app l1 l2 : crlf (l1 ++ l2) = crlf l1 ++ crlf l2.
Proof. unfold crlf. by rewrite fmap_app, concat_app. Qed.

Lemma write_str_sent {E} bytes t : serial_write_str (E:=E) bytes t = (Ok tt, t ++ sent (crlf bytes)).
Proof.
  revert t. unfold serial_write_str. induction bytes as [|b bytes IH]; intros t; cbn [for_each]; [by rewrite app_nil_r|].
  change (b :: bytes) with ([b] ++ bytes). rewrite crlf_app. unfold sent. rewrite fmap_app. unfold bind, ret.
  destruct (Z.eqb_spec b 10) as [->|Hb]; rewrite !write_byte_sent, IH; unfold sent; rewrite <- !app_assoc; do 2 f_equal.
  unfold crlf. cbn. by rewrite (proj2 (Z.eqb_neq _ _) Hb).
Qed.
End port.

Lemma serial_init_run {E} t : serial_init (E:=E) t = (Ok tt, t ++ SERIAL_SETUP).
Proof. unfold serial_init, serial_outb, bind, modify, SERIAL_SETUP. by rewrite <- !app_assoc. Qed.

(** An idle transmitter. *)
Definition idle_line : Uart -> nat -> Z := fun _ _ => 0x60.
Lemma idle_drains n : (0 < n)%nat -> uart_drains idle_line n.
Proof. intros Hn t. by exists O. Qed.
