(* ===== verification/Font.v ===== *)
(** * The console font: [kernel/src/font.rs]

    Five-by-seven bitmaps, one number per row, for ASCII, the Turkish letters and
    Russian Cyrillic, and the lookup by code point.

    The theorem: the lookup tells the supported characters apart, but for the letters that
    look alike, and draws all others as the same box. *)
From stdpp Require Import base list numbers option.
From Stdlib Require Import ZArith Lia Bool.
From S2P Require Import Prelude.

Definition BASIC_ASCII : list (list Z) := [
  [0x00; 0x00; 0x00; 0x00; 0x00; 0x00; 0x00];
  [0x04; 0x04; 0x04; 0x04; 0x00; 0x04; 0x00];
  [0x0a; 0x0a; 0x0a; 0x00; 0x00; 0x00; 0x00];
  [0x0a; 0x0a; 0x1f; 0x0a; 0x1f; 0x0a; 0x0a];
  [0x04; 0x0f; 0x14; 0x0e; 0x05; 0x1e; 0x04];
  [0x18; 0x19; 0x02; 0x04; 0x08; 0x13; 0x03];
  [0x0c; 0x12; 0x14; 0x08; 0x15; 0x12; 0x0d];
  [0x04; 0x04; 0x08; 0x00; 0x00; 0x00; 0x00];
  [0x02; 0x04; 0x08; 0x08; 0x08; 0x04; 0x02];
  [0x08; 0x04; 0x02; 0x02; 0x02; 0x04; 0x08];
  [0x00; 0x04; 0x15; 0x0e; 0x15; 0x04; 0x00];
  [0x00; 0x04; 0x04; 0x1f; 0x04; 0x04; 0x00];
  [0x00; 0x00; 0x00; 0x00; 0x0c; 0x0c; 0x08];
  [0x00; 0x00; 0x00; 0x1f; 0x00; 0x00; 0x00];
  [0x00; 0x00; 0x00; 0x00; 0x00; 0x0c; 0x0c];
  [0x01; 0x01; 0x02; 0x04; 0x08; 0x10; 0x10];
  [0x0e; 0x11; 0x13; 0x15; 0x19; 0x11; 0x0e];
  [0x04; 0x0c; 0x04; 0x04; 0x04; 0x04; 0x0e];
  [0x0e; 0x11; 0x01; 0x02; 0x04; 0x08; 0x1f];
  [0x1f; 0x02; 0x04; 0x02; 0x01; 0x11; 0x0e];
  [0x02; 0x06; 0x0a; 0x12; 0x1f; 0x02; 0x02];
  [0x1f; 0x10; 0x1e; 0x01; 0x01; 0x11; 0x0e];
  [0x06; 0x08; 0x10; 0x1e; 0x11; 0x11; 0x0e];
  [0x1f; 0x01; 0x02; 0x04; 0x08; 0x08; 0x08];
  [0x0e; 0x11; 0x11; 0x0e; 0x11; 0x11; 0x0e];
  [0x0e; 0x11; 0x11; 0x0f; 0x01; 0x02; 0x0c];
  [0x00; 0x04; 0x04; 0x00; 0x04; 0x04; 0x00];
  [0x00; 0x04; 0x04; 0x00; 0x04; 0x04; 0x08];
  [0x01; 0x02; 0x04; 0x08; 0x04; 0x02; 0x01];
  [0x00; 0x00; 0x1f; 0x00; 0x1f; 0x00; 0x00];
  [0x10; 0x08; 0x04; 0x02; 0x04; 0x08; 0x10];
  [0x0e; 0x11; 0x01; 0x02; 0x04; 0x00; 0x04];
  [0x0e; 0x11; 0x17; 0x15; 0x17; 0x10; 0x0f];
  [0x0e; 0x11; 0x11; 0x1f; 0x11; 0x11; 0x11];
  [0x1e; 0x11; 0x11; 0x1e; 0x11; 0x11; 0x1e];
  [0x0e; 0x11; 0x10; 0x10; 0x10; 0x11; 0x0e];
  [0x1e; 0x11; 0x11; 0x11; 0x11; 0x11; 0x1e];
  [0x1f; 0x10; 0x10; 0x1e; 0x10; 0x10; 0x1f];
  [0x1f; 0x10; 0x10; 0x1e; 0x10; 0x10; 0x10];
  [0x0e; 0x11; 0x10; 0x17; 0x11; 0x11; 0x0f];
  [0x11; 0x11; 0x11; 0x1f; 0x11; 0x11; 0x11];
  [0x0e; 0x04; 0x04; 0x04; 0x04; 0x04; 0x0e];
  [0x01; 0x01; 0x01; 0x01; 0x11; 0x11; 0x0e];
  [0x11; 0x12; 0x14; 0x18; 0x14; 0x12; 0x11];
  [0x10; 0x10; 0x10; 0x10; 0x10; 0x10; 0x1f];
  [0x11; 0x1b; 0x15; 0x15; 0x11; 0x11; 0x11];
  [0x11; 0x19; 0x15; 0x13; 0x11; 0x11; 0x11];
  [0x0e; 0x11; 0x11; 0x11; 0x11; 0x11; 0x0e];
  [0x1e; 0x11; 0x11; 0x1e; 0x10; 0x10; 0x10];
  [0x0e; 0x11; 0x11; 0x11; 0x15; 0x12; 0x0d];
  [0x1e; 0x11; 0x11; 0x1e; 0x14; 0x12; 0x11];
  [0x0f; 0x10; 0x10; 0x0e; 0x01; 0x01; 0x1e];
  [0x1f; 0x04; 0x04; 0x04; 0x04; 0x04; 0x04];
  [0x11; 0x11; 0x11; 0x11; 0x11; 0x11; 0x0e];
  [0x11; 0x11; 0x11; 0x11; 0x11; 0x0a; 0x04];
  [0x11; 0x11; 0x11; 0x15; 0x15; 0x1b; 0x11];
  [0x11; 0x11; 0x0a; 0x04; 0x0a; 0x11; 0x11];
  [0x11; 0x11; 0x0a; 0x04; 0x04; 0x04; 0x04];
  [0x1f; 0x01; 0x02; 0x04; 0x08; 0x10; 0x1f];
  [0x0e; 0x08; 0x08; 0x08; 0x08; 0x08; 0x0e];
  [0x10; 0x10; 0x08; 0x04; 0x02; 0x01; 0x01];
  [0x0e; 0x02; 0x02; 0x02; 0x02; 0x02; 0x0e];
  [0x04; 0x0a; 0x11; 0x00; 0x00; 0x00; 0x00];
  [0x00; 0x00; 0x00; 0x00; 0x00; 0x00; 0x1f];
  [0x08; 0x04; 0x02; 0x00; 0x00; 0x00; 0x00];
  [0x00; 0x00; 0x0e; 0x01; 0x0f; 0x11; 0x0f];
  [0x10; 0x10; 0x16; 0x19; 0x11; 0x11; 0x1e];
  [0x00; 0x00; 0x0e; 0x10; 0x10; 0x11; 0x0e];
  [0x01; 0x01; 0x0d; 0x13; 0x11; 0x11; 0x0f];
  [0x00; 0x00; 0x0e; 0x11; 0x1f; 0x10; 0x0e];
  [0x06; 0x09; 0x08; 0x1c; 0x08; 0x08; 0x08];
  [0x00; 0x00; 0x0f; 0x11; 0x0f; 0x01; 0x0e];
  [0x10; 0x10; 0x16; 0x19; 0x11; 0x11; 0x11];
  [0x04; 0x00; 0x0c; 0x04; 0x04; 0x04; 0x0e];
  [0x02; 0x00; 0x06; 0x02; 0x02; 0x12; 0x0c];
  [0x10; 0x10; 0x12; 0x14; 0x18; 0x14; 0x12];
  [0x0c; 0x04; 0x04; 0x04; 0x04; 0x04; 0x0e];
  [0x00; 0x00; 0x1a; 0x15; 0x15; 0x11; 0x11];
  [0x00; 0x00; 0x16; 0x19; 0x11; 0x11; 0x11];
  [0x00; 0x00; 0x0e; 0x11; 0x11; 0x11; 0x0e];
  [0x00; 0x00; 0x1e; 0x11; 0x1e; 0x10; 0x10];
  [0x00; 0x00; 0x0f; 0x11; 0x0f; 0x01; 0x01];
  [0x00; 0x00; 0x16; 0x19; 0x10; 0x10; 0x10];
  [0x00; 0x00; 0x0e; 0x10; 0x0e; 0x01; 0x1e];
  [0x08; 0x08; 0x1c; 0x08; 0x08; 0x09; 0x06];
  [0x00; 0x00; 0x11; 0x11; 0x11; 0x13; 0x0d];
  [0x00; 0x00; 0x11; 0x11; 0x11; 0x0a; 0x04];
  [0x00; 0x00; 0x11; 0x11; 0x15; 0x15; 0x0a];
  [0x00; 0x00; 0x11; 0x0a; 0x04; 0x0a; 0x11];
  [0x00; 0x00; 0x11; 0x11; 0x0f; 0x01; 0x0e];
  [0x00; 0x00; 0x1f; 0x02; 0x04; 0x08; 0x1f];
  [0x02; 0x04; 0x04; 0x08; 0x04; 0x04; 0x02];
  [0x04; 0x04; 0x04; 0x04; 0x04; 0x04; 0x04];
  [0x08; 0x04; 0x04; 0x02; 0x04; 0x04; 0x08];
  [0x00; 0x0d; 0x16; 0x00; 0x00; 0x00; 0x00]].

Definition CYRILLIC_GLYPHS : list (list Z) := [
  [0x0e; 0x11; 0x11; 0x1f; 0x11; 0x11; 0x11];
  [0x1f; 0x10; 0x10; 0x1e; 0x11; 0x11; 0x1e];
  [0x1e; 0x11; 0x11; 0x1e; 0x11; 0x11; 0x1e];
  [0x1f; 0x10; 0x10; 0x10; 0x10; 0x10; 0x10];
  [0x0e; 0x0a; 0x0a; 0x0a; 0x0a; 0x1f; 0x11];
  [0x1f; 0x10; 0x10; 0x1e; 0x10; 0x10; 0x1f];
  [0x15; 0x15; 0x0e; 0x04; 0x0e; 0x15; 0x15];
  [0x0e; 0x11; 0x01; 0x06; 0x01; 0x11; 0x0e];
  [0x11; 0x11; 0x13; 0x15; 0x19; 0x11; 0x11];
  [0x0a; 0x11; 0x13; 0x15; 0x19; 0x11; 0x11];
  [0x11; 0x12; 0x14; 0x18; 0x14; 0x12; 0x11];
  [0x07; 0x09; 0x09; 0x09; 0x09; 0x09; 0x11];
  [0x11; 0x1b; 0x15; 0x15; 0x11; 0x11; 0x11];
  [0x11; 0x11; 0x11; 0x1f; 0x11; 0x11; 0x11];
  [0x0e; 0x11; 0x11; 0x11; 0x11; 0x11; 0x0e];
  [0x1f; 0x11; 0x11; 0x11; 0x11; 0x11; 0x11];
  [0x1e; 0x11; 0x11; 0x1e; 0x10; 0x10; 0x10];
  [0x0e; 0x11; 0x10; 0x10; 0x10; 0x11; 0x0e];
  [0x1f; 0x04; 0x04; 0x04; 0x04; 0x04; 0x04];
  [0x11; 0x11; 0x11; 0x0a; 0x04; 0x04; 0x08];
  [0x04; 0x0e; 0x15; 0x15; 0x0e; 0x04; 0x04];
  [0x11; 0x11; 0x0a; 0x04; 0x0a; 0x11; 0x11];
  [0x11; 0x11; 0x11; 0x11; 0x11; 0x1f; 0x01];
  [0x11; 0x11; 0x11; 0x0f; 0x01; 0x01; 0x01];
  [0x11; 0x11; 0x11; 0x15; 0x15; 0x15; 0x1f];
  [0x11; 0x11; 0x11; 0x15; 0x15; 0x1f; 0x01];
  [0x18; 0x08; 0x08; 0x0e; 0x09; 0x09; 0x0e];
  [0x11; 0x11; 0x11; 0x1d; 0x15; 0x15; 0x1d];
  [0x10; 0x10; 0x10; 0x1c; 0x12; 0x12; 0x1c];
  [0x0e; 0x01; 0x01; 0x0d; 0x01; 0x01; 0x0e];
  [0x12; 0x15; 0x15; 0x1d; 0x15; 0x15; 0x12];
  [0x0f; 0x11; 0x11; 0x0f; 0x05; 0x09; 0x11];
  [0x00; 0x00; 0x0e; 0x01; 0x0f; 0x11; 0x0f];
  [0x0e; 0x10; 0x10; 0x1c; 0x12; 0x12; 0x1c];
  [0x00; 0x00; 0x1c; 0x12; 0x1c; 0x12; 0x1c];
  [0x00; 0x00; 0x1f; 0x10; 0x10; 0x10; 0x10];
  [0x00; 0x00; 0x0e; 0x0a; 0x0a; 0x1f; 0x11];
  [0x00; 0x00; 0x0e; 0x11; 0x1f; 0x10; 0x0e];
  [0x00; 0x00; 0x15; 0x0e; 0x04; 0x0e; 0x15];
  [0x00; 0x00; 0x1e; 0x02; 0x0c; 0x02; 0x1c];
  [0x00; 0x00; 0x11; 0x13; 0x15; 0x19; 0x11];
  [0x0a; 0x00; 0x11; 0x13; 0x15; 0x19; 0x11];
  [0x00; 0x00; 0x11; 0x12; 0x1c; 0x12; 0x11];
  [0x00; 0x00; 0x0f; 0x09; 0x09; 0x09; 0x11];
  [0x00; 0x00; 0x11; 0x1b; 0x15; 0x11; 0x11];
  [0x00; 0x00; 0x11; 0x11; 0x1f; 0x11; 0x11];
  [0x00; 0x00; 0x0e; 0x11; 0x11; 0x11; 0x0e];
  [0x00; 0x00; 0x1f; 0x11; 0x11; 0x11; 0x11];
  [0x00; 0x00; 0x1e; 0x11; 0x1e; 0x10; 0x10];
  [0x00; 0x00; 0x0e; 0x10; 0x10; 0x10; 0x0e];
  [0x00; 0x00; 0x1f; 0x04; 0x04; 0x04; 0x04];
  [0x00; 0x00; 0x11; 0x11; 0x0f; 0x01; 0x0e];
  [0x04; 0x0e; 0x15; 0x15; 0x0e; 0x04; 0x04];
  [0x00; 0x00; 0x11; 0x0a; 0x04; 0x0a; 0x11];
  [0x00; 0x00; 0x11; 0x11; 0x11; 0x1f; 0x01];
  [0x00; 0x00; 0x11; 0x11; 0x0f; 0x01; 0x01];
  [0x00; 0x00; 0x11; 0x11; 0x15; 0x15; 0x1f];
  [0x00; 0x00; 0x11; 0x15; 0x15; 0x1f; 0x01];
  [0x00; 0x00; 0x18; 0x08; 0x0e; 0x09; 0x0e];
  [0x00; 0x00; 0x11; 0x11; 0x1d; 0x15; 0x1d];
  [0x00; 0x00; 0x10; 0x10; 0x1c; 0x12; 0x1c];
  [0x00; 0x00; 0x0e; 0x01; 0x0d; 0x01; 0x0e];
  [0x00; 0x00; 0x12; 0x15; 0x1d; 0x15; 0x12];
  [0x00; 0x00; 0x0f; 0x11; 0x0f; 0x05; 0x11]].

(** The Turkish letters and the two Cyrillic letters outside the block, by code point. *)
Definition SPECIAL_GLYPHS : list (Z * list Z) := [
  (0x00c7, [0x0e; 0x11; 0x10; 0x10; 0x11; 0x0e; 0x04]);
  (0x00e7, [0x00; 0x0e; 0x11; 0x10; 0x11; 0x0e; 0x04]);
  (0x011e, [0x0a; 0x0e; 0x11; 0x10; 0x17; 0x11; 0x0f]);
  (0x011f, [0x0a; 0x00; 0x0f; 0x11; 0x0f; 0x01; 0x0e]);
  (0x0130, [0x04; 0x0e; 0x04; 0x04; 0x04; 0x04; 0x0e]);
  (0x0131, [0x00; 0x00; 0x0c; 0x04; 0x04; 0x04; 0x0e]);
  (0x00d6, [0x0a; 0x0e; 0x11; 0x11; 0x11; 0x11; 0x0e]);
  (0x00f6, [0x0a; 0x00; 0x0e; 0x11; 0x11; 0x11; 0x0e]);
  (0x015e, [0x0f; 0x10; 0x0e; 0x01; 0x1e; 0x04; 0x08]);
  (0x015f, [0x00; 0x0e; 0x10; 0x0e; 0x01; 0x1e; 0x04]);
  (0x00dc, [0x0a; 0x11; 0x11; 0x11; 0x11; 0x11; 0x0e]);
  (0x00fc, [0x0a; 0x00; 0x11; 0x11; 0x11; 0x13; 0x0d]);
  (0x0401, [0x0a; 0x1f; 0x10; 0x1e; 0x10; 0x10; 0x1f]);
  (0x0451, [0x0a; 0x00; 0x0e; 0x11; 0x1f; 0x10; 0x0e])].

Definition FALLBACK_GLYPH : list Z := [0x1f; 0x11; 0x0a; 0x04; 0x0a; 0x11; 0x1f].

Definition special_glyph (cp : Z) : option (list Z) := snd <$> List.find (fun g => fst g =? cp) SPECIAL_GLYPHS.

Definition lookup_glyph {E} (cp : Z) : outcome E (list Z) :=
  if (0x20 <=? cp) && (cp <=? 0x7e) then idx BASIC_ASCII (cp - 0x20) else
  match special_glyph cp with
  | Some glyph => Ok glyph
  | None =>
      if (0x0410 <=? cp) && (cp <=? 0x042f) then idx CYRILLIC_GLYPHS (cp - 0x0410)
      else if (0x0430 <=? cp) && (cp <=? 0x044f) then idx CYRILLIC_GLYPHS (cp - 0x0430 + 32)
      else Ok FALLBACK_GLYPH
  end.

(** A glyph: seven rows of five pixels. *)
Definition is_glyph (g : list Z) : bool := (length g =? 7)%nat && forallb (fun r => (0 <=? r) && (r <? 32)) g.

Lemma tables_are_glyphs :
  forallb is_glyph BASIC_ASCII && forallb is_glyph CYRILLIC_GLYPHS && forallb (fun g => is_glyph (snd g)) SPECIAL_GLYPHS = true.
Proof. vm_compute. reflexivity. Qed.

Lemma idx_glyph {E} t i : forallb is_glyph t = true -> 0 <= i < len t -> exists g, idx (E:=E) t i = Ok g /\ is_glyph g = true.
Proof.
  intros Ht Hi. destruct (idx_total (E:=E) t i Hi) as (g & Hg & Hl). exists g. split; [done|].
  rewrite forallb_forall in Ht. apply Ht. apply list_elem_of_In, list_elem_of_lookup. eauto.
Qed.

Lemma lookup_glyph_is E cp : exists g, lookup_glyph (E:=E) cp = Ok g /\ is_glyph g = true.
Proof.
  pose proof tables_are_glyphs as Ht. bool_prop.
  unfold lookup_glyph. destruct ((0x20 <=? cp) && _) eqn:Hascii; bool_prop; [apply idx_glyph; [done|change (len BASIC_ASCII) with 95; lia]|].
    destruct (special_glyph cp) as [g|] eqn:Hs.
    - exists g. split; [done|]. unfold special_glyph in Hs. destruct (List.find _ _) as [[c g']|] eqn:Hf; [|done]. injection Hs as <-.
      apply List.find_some in Hf as [Hin _]. match goal with H : forallb (fun g => is_glyph (snd g)) _ = true |- _ => rewrite forallb_forall in H; apply (H _ Hin) end.
    - destruct ((0x410 <=? cp) && _) eqn:Hupper; bool_prop; [apply idx_glyph; [done|change (len CYRILLIC_GLYPHS) with 64; lia]|].
      destruct ((0x430 <=? cp) && _) eqn:Hlower; bool_prop; [apply idx_glyph; [done|change (len CYRILLIC_GLYPHS) with 64; lia]|]. by exists FALLBACK_GLYPH.
Qed.

Lemma lookup_glyph_has E cp : exists g, lookup_glyph (E:=E) cp = Ok g /\ length g = 7%nat.
Proof. destruct (lookup_glyph_is E cp) as (g & Hg & Ht). exists g. split; [done|]. unfold is_glyph in Ht. bool_prop. by apply Nat.eqb_eq. Qed.

(** The characters the font has: printable ASCII, the Turkish letters and Ё, ё, and the
    Russian letters from U+0410 to U+044F. *)
Definition supported : list Z :=
  seqZ 0x20 95 ++ [0xc7; 0xe7; 0x11e; 0x11f; 0x130; 0x131; 0xd6; 0xf6; 0x15e; 0x15f; 0xdc; 0xfc; 0x401; 0x451] ++ seqZ 0x410 64.
(** The characters drawn alike: a Latin letter and its Cyrillic twin (A, B, C, E, H, K, M, O, P,
    T, X, a, e, o, p, x, y), and the capital and the small Ф. *)
Definition twins : list (Z * Z) :=
  [(0x41, 0x410); (0x42, 0x412); (0x43, 0x421); (0x45, 0x415); (0x48, 0x41d); (0x4b, 0x41a); (0x4d, 0x41c); (0x4f, 0x41e); (0x50, 0x420); (0x54, 0x422); (0x58, 0x425);
   (0x61, 0x430); (0x65, 0x435); (0x6f, 0x43e); (0x70, 0x440); (0x78, 0x445); (0x79, 0x443); (0x424, 0x444)].

Definition glyph_of (cp : Z) : list Z := match lookup_glyph (E:=unit) cp with Ok g => g | _ => [] end.
Lemma lookup_glyph_of E cp : lookup_glyph (E:=E) cp = Ok (glyph_of cp).
Proof.
  unfold glyph_of. destruct (lookup_glyph_is unit cp) as (g & Hg & _). rewrite Hg. revert Hg.
  assert (Hidx : forall t i, idx (E:=unit) t i = Ok g -> idx (E:=E) t i = Ok g).
  { intros t i. unfold idx, unwrap. repeat case_match; intros Hi; done || by injection Hi as <-. }
  unfold lookup_glyph. repeat case_match; auto; by intros [= <-].
Qed.

Definition legible (c1 c2 : Z) : bool :=
  eqb (bool_decide (glyph_of c1 = glyph_of c2)) (bool_decide (c1 = c2) || bool_decide ((c1, c2) ∈ twins) || bool_decide ((c2, c1) ∈ twins)).
Lemma all_legible : forallb (fun c1 => negb (bool_decide (glyph_of c1 = FALLBACK_GLYPH)) && forallb (legible c1) supported) supported = true.
Proof. vm_compute. reflexivity. Qed.

Lemma unsupported_fallback cp : cp ∉ supported -> glyph_of cp = FALLBACK_GLYPH.
Proof.
  unfold supported. rewrite !elem_of_app, !elem_of_seqZ. intros Hn. unfold glyph_of, lookup_glyph.
  destruct ((0x20 <=? cp) && (cp <=? 0x7e)) eqn:H1; [bool_prop; exfalso; apply Hn; lia|].
  destruct (special_glyph cp) as [g|] eqn:Hs.
  { exfalso. apply Hn. right. left. unfold special_glyph in Hs. destruct (List.find _ _) as [[c g']|] eqn:Hf; [|done]. apply List.find_some in Hf as [Hin Heq]. cbn in Heq. apply Z.eqb_eq in Heq as <-.
    apply (in_map fst) in Hin. apply list_elem_of_In. exact Hin. }
  destruct ((0x410 <=? cp) && (cp <=? 0x42f)) eqn:H2; [bool_prop; exfalso; apply Hn; lia|].
  destruct ((0x430 <=? cp) && (cp <=? 0x44f)) eqn:H3; [bool_prop; exfalso; apply Hn; lia|done].
Qed.

(** C33. Text on the screen is legible. Every character has a glyph of seven rows of five
    pixels; it is the box exactly for the characters the font does not have; and two
    characters the font has are drawn alike exactly when they are the same character or one
    of the eighteen pairs of look-alikes, a Latin letter with its Cyrillic twin, and Ф with
    ф. *)
Theorem glyphs_legible E (c1 c2 : Z) : exists g1 g2, lookup_glyph (E:=E) c1 = Ok g1 /\ lookup_glyph (E:=E) c2 = Ok g2 /\
  length g1 = 7%nat /\ Forall (fun r => 0 <= r < 32) g1 /\ (g1 = FALLBACK_GLYPH <-> c1 ∉ supported) /\
  (c1 ∈ supported -> c2 ∈ supported -> g1 = g2 <-> c1 = c2 \/ (c1, c2) ∈ twins \/ (c2, c1) ∈ twins).
Proof.
  exists (glyph_of c1), (glyph_of c2). split; [apply lookup_glyph_of|]. split; [apply lookup_glyph_of|].
  destruct (lookup_glyph_is E c1) as (g & Hg & Ht). rewrite lookup_glyph_of in Hg. injection Hg as <-. unfold is_glyph in Ht. bool_prop. split; [by apply Nat.eqb_eq|].
  split. { apply List.Forall_forall. intros r Hr. match goal with H : forallb _ _ = true |- _ => rewrite forallb_forall in H; specialize (H r Hr) end. bool_prop. lia. }
  pose proof all_legible as Hall. rewrite forallb_forall in Hall.
  assert (Hin : forall c, c ∈ supported -> glyph_of c <> FALLBACK_GLYPH /\ forall c', c' ∈ supported -> legible c c' = true).
  { intros c Hc. apply list_elem_of_In in Hc. specialize (Hall c Hc). apply andb_true_iff in Hall as [Hf Hl]. split; [by apply negb_true_iff, bool_decide_eq_false in Hf|].
    rewrite forallb_forall in Hl. intros c' Hc'. apply Hl. by apply list_elem_of_In. }
  split.
  - split; [intros Hf Hc; by apply (proj1 (Hin c1 Hc))|intros Hn; by apply unsupported_fallback].
  - intros H1 H2. pose proof (proj2 (Hin c1 H1) c2 H2) as Hl. unfold legible in Hl. apply eqb_prop in Hl. rewrite <- (bool_decide_eq_true (glyph_of c1 = glyph_of c2)), Hl.
    rewrite !orb_true_iff, !bool_decide_eq_true. tauto.
Qed.

Lemma glyphs_legible_witness : exists g1 g2, lookup_glyph (E:=unit) 0x41 = Ok g1 /\ lookup_glyph (E:=unit) 0x410 = Ok g2 /\ g1 = g2.
Proof.
  destruct (glyphs_legible unit 0x41 0x410) as (g1 & g2 & H1 & H2 & _ & _ & _ & H). exists g1, g2. split; [exact H1|]. split; [exact H2|].
  apply H; [apply (bool_decide_unpack _); vm_compute; exact I|apply (bool_decide_unpack _); vm_compute; exact I|]. right. left. apply (bool_decide_unpack _); vm_compute; exact I.
Defined.

(** The letters U+0400 and U+0402 to U+040F are shown as the box. *)
Theorem cyrillic_extension_missing : lookup_glyph (E:=unit) 0x400 = Ok FALLBACK_GLYPH /\ Forall (fun c => lookup_glyph (E:=unit) c = Ok FALLBACK_GLYPH) (seqZ 0x402 14).
Proof. split; [reflexivity|]. vm_compute. repeat constructor. Qed.
