(* ===== verification/Fb.v ===== *)
(** * The frame buffer console: [kernel/src/fb.rs]

    The frame buffer is a map of bytes by their offset from its address; a pixel is
    the little-endian number of its three or four bytes. [Screen] is the console and
    that memory. Characters are code points. *)
From stdpp Require Import base list numbers option strings gmap.
From Stdlib Require Import ZArith Lia Bool.
From S2P Require Import Prelude Paths Text Font.

Definition LIMINE_FRAMEBUFFER_RGB : Z := 1.
Definition FONT_SCALE : Z := 2.
Definition GLYPH_WIDTH : Z := 5.
Definition GLYPH_ADVANCE_X : Z := 6.
Definition GLYPH_ADVANCE_Y : Z := 8.
Definition CHAR_WIDTH : Z := GLYPH_ADVANCE_X * FONT_SCALE.
Definition CHAR_HEIGHT : Z := GLYPH_ADVANCE_Y * FONT_SCALE.

(** [limine::Framebuffer] *)
Record Framebuffer : Type := mkFramebuffer {
  fr_address : Z; fr_width : Z; fr_height : Z; fr_pitch : Z; fr_bpp : Z; fr_memory_model : Z;
  red_mask_size : Z; red_mask_shift : Z; green_mask_size : Z; green_mask_shift : Z; blue_mask_size : Z; blue_mask_shift : Z }.

Record FramebufferSummary : Type := mkFbSummary {
  su_width : Z; su_height : Z; su_pitch : Z; su_bpp : Z; sample_background : Z; sample_accent : Z }.

Inductive FramebufferError : Type := UnsupportedMemoryModel | UnsupportedBitsPerPixel | MissingAddress | ConsoleAreaTooSmall.
Definition fb_error_str (e : FramebufferError) : list Z :=
  match e with
  | UnsupportedMemoryModel => lit "unsupported framebuffer memory model"
  | UnsupportedBitsPerPixel => lit "unsupported framebuffer bits-per-pixel"
  | MissingAddress => lit "framebuffer address is null"
  | ConsoleAreaTooSmall => lit "framebuffer console area is too small"
  end.

Inductive ConsoleStyle : Type := StDefault | StAccent | StSuccess | StWarning | StError | StFatal | StMuted.
Record ConsoleGlyph : Type := mkGlyph { g_ch : Z; g_style : ConsoleStyle }.
Definition glyph_empty : ConsoleGlyph := mkGlyph 32 StDefault.

Record FramebufferConsole : Type := mkConsole {
  framebuffer : Framebuffer; bytes_per_pixel : Z; background : Z; header : Z; accent : Z; accent_soft : Z; text : Z; success : Z;
  warning : Z; error : Z; fatal : Z; muted : Z; log_origin_x : Z; log_origin_y : Z; log_width : Z; log_height : Z;
  columns : Z; rows : Z; cursor_column : Z; cursor_row : Z }.
#[export] Instance FramebufferConsole_eta : RecordEta FramebufferConsole := fun c =>
  mkConsole (framebuffer c) (bytes_per_pixel c) (background c) (header c) (accent c) (accent_soft c) (text c) (success c) (warning c) (error c)
    (fatal c) (muted c) (log_origin_x c) (log_origin_y c) (log_width c) (log_height c) (columns c) (rows c) (cursor_column c) (cursor_row c).

Record Screen : Type := mkScreen { console : FramebufferConsole; pixels : gmap Z Z }.
#[export] Instance Screen_eta : RecordEta Screen := fun s => mkScreen (console s) (pixels s).

(** ** Colours *)
Definition pack_channel {E} (value size shift : Z) : outcome E Z :=
  if size =? 0 then Ok 0 else
  let? one := (if 32 <=? size then Panic else Ok (Z.shiftl 1 size)) in
  let? max := sub one 1 in
  let? product := mul U32 value max in
  let? sum := add U32 product 127 in
  let scaled := sum / 255 in
  if 32 <=? shift then Panic else Ok (cast U32 (Z.shiftl scaled shift)).

Definition pack_rgb {E} (f : Framebuffer) (red green blue : Z) : outcome E Z :=
  let? r := pack_channel red (red_mask_size f) (red_mask_shift f) in
  let? g := pack_channel green (green_mask_size f) (green_mask_shift f) in
  let? b := pack_channel blue (blue_mask_size f) (blue_mask_shift f) in
  Ok (Z.lor (Z.lor r g) b).

Definition style_color (c : FramebufferConsole) (s : ConsoleStyle) : Z :=
  match s with
  | StDefault => text c | StAccent => accent c | StSuccess => success c | StWarning => warning c | StError => error c
  | StFatal => fatal c | StMuted => muted c
  end.

Definition fb_new (f : Framebuffer) (bpp : Z) : outcome FramebufferError FramebufferConsole :=
  if (fr_width f <? CHAR_WIDTH * 4) || (fr_height f <? CHAR_HEIGHT * 4) then Err ConsoleAreaTooSmall else
  let columns := fr_width f / CHAR_WIDTH in
  let rows := fr_height f / CHAR_HEIGHT in
  let? background := pack_rgb f 0x09 0x11 0x1b in
  let? header := pack_rgb f 0x11 0x2b 0x44 in
  let? accent := pack_rgb f 0x2d 0xd4 0xbf in
  let? accent_soft := pack_rgb f 0x79 0xe2 0xd0 in
  let? text := pack_rgb f 0xf5 0xf7 0xfa in
  let? success := pack_rgb f 0x8b 0xe9 0x7d in
  let? warning := pack_rgb f 0xff 0xc8 0x57 in
  let? error := pack_rgb f 0xff 0x6b 0x6b in
  let? fatal := pack_rgb f 0xff 0x4d 0x6d in
  let? muted := pack_rgb f 0x94 0xa3 0xb8 in
  Ok (mkConsole f bpp background header accent accent_soft text success warning error fatal muted 0 0
    (columns * CHAR_WIDTH) (rows * CHAR_HEIGHT) columns rows 0 0).

(** ** Pixels *)
Definition load_fb (m : gmap Z Z) (offset : Z) : Z := default 0 (m !! offset).

Section pixels.
Context {E : Type}.
Let S_ (A : Type) : Type := M Screen E A.

Definition write_byte (offset byte : Z) : S_ unit := modify (upd pixels <[offset := byte]>).

(** [write_volatile] of a [u32]. *)
Definition write_u32 (offset color : Z) : S_ unit :=
  for_range 0 4 (fun i => write_byte (offset + i) (Z.land (Z.shiftr color (i * 8)) 0xff)).

Definition pixel_offset (c : FramebufferConsole) (x y : Z) : Z :=
  sat_add U64 (sat_mul U64 y (fr_pitch (framebuffer c))) (sat_mul U64 x (bytes_per_pixel c)).

Definition write_pixel (x y color : Z) : S_ unit :=
  let! c := gets console in
  if (fr_width (framebuffer c) <=? x) || (fr_height (framebuffer c) <=? y) then ret tt else
  for_range 0 (bytes_per_pixel c) (fun i => write_byte (pixel_offset c x y + i) (Z.land (Z.shiftr color (i * 8)) 0xff)).

(** The bytes of a pixel, the first one lowest. *)
Fixpoint read_bytes (m : gmap Z Z) (offset : Z) (n : nat) : Z :=
  match n with O => 0 | S n' => Z.lor (read_bytes m offset n') (Z.shiftl (load_fb m (offset + Z.of_nat n')) (8 * Z.of_nat n')) end.
Definition read_pixel (s : Screen) (x y : Z) : Z :=
  let c := console s in
  if (fr_width (framebuffer c) <=? x) || (fr_height (framebuffer c) <=? y) then 0
  else read_bytes (pixels s) (pixel_offset c x y) (Z.to_nat (bytes_per_pixel c)).

Definition fill_rect (x y width height color : Z) : S_ unit :=
  let! c := gets console in
  let f := framebuffer c in
  let max_x := Z.min (sat_add U64 x width) (fr_width f) in
  let max_y := Z.min (sat_add U64 y height) (fr_height f) in
  let! fill_width := lift (sub max_x x) in
  let! fill_height := lift (sub max_y y) in
  if (fill_width =? 0) || (fill_height =? 0) then ret tt else
  if bytes_per_pixel c =? 4 then
    for_range y max_y (fun current_y =>
      let! line := lift (mul U64 current_y (fr_pitch f)) in
      let! column := lift (mul U64 x 4) in
      let! offset := lift (add U64 line column) in
      for_range 0 fill_width (fun i => write_u32 (offset + 4 * i) color))
  else
    for_range y max_y (fun current_y => for_range x max_x (fun current_x => write_pixel current_x current_y color)).

(** The inner part of [draw_glyph]: the pixels of a row of the glyph. *)
Definition draw_row (x y row row_bits color scale : Z) : S_ unit :=
  for_range 0 GLYPH_WIDTH (fun column =>
    if Z.land row_bits (Z.shiftl 1 (GLYPH_WIDTH - 1 - column)) =? 0 then ret tt else
    let pixel_x := sat_add U64 x (column * scale) in
    let pixel_y := sat_add U64 y (row * scale) in
    fill_rect pixel_x pixel_y scale scale color).
Definition draw_glyph (x y ch color scale : Z) : S_ unit :=
  let! glyph := lift (lookup_glyph ch) in
  for_each (zip (seqZ 0 (len glyph)) glyph) (fun '(row, row_bits) => draw_row x y row row_bits color scale).

Definition fb_clear (color : Z) : S_ unit :=
  let! c := gets console in fill_rect 0 0 (fr_width (framebuffer c)) (fr_height (framebuffer c)) color.

Definition set_cursor (column row : Z) : S_ unit :=
  modify (upd console (fun c => set_field cursor_row row (set_field cursor_column column c))).

Definition clear_log_region : S_ unit :=
  let! c := gets console in
  do! fill_rect (log_origin_x c) (log_origin_y c) (log_width c) (log_height c) (background c) in
  set_cursor 0 0.

Definition paint_boot_surface : S_ unit :=
  let! c := gets console in do! fb_clear (background c) in clear_log_region.

(** [copy_nonoverlapping] of [n] bytes inside the frame buffer. *)
Definition copy_line (src dst n : Z) : S_ unit :=
  modify (upd pixels (fun m => foldl (fun m' i => <[dst + i := load_fb m (src + i)]> m') m (seqZ 0 n))).

Definition fb_scroll_up : S_ unit :=
  let! c := gets console in
  let f := framebuffer c in
  let! bottom := lift (add U64 (log_origin_y c) (log_height c)) in
  let! end_y := lift (sub bottom CHAR_HEIGHT) in
  let! bytes_per_line := lift (mul U64 (log_width c) (bytes_per_pixel c)) in
  do! for_range (log_origin_y c) end_y (fun y =>
        let! src_y := lift (add U64 y CHAR_HEIGHT) in
        let! src_line := lift (mul U64 src_y (fr_pitch f)) in
        let! left := lift (mul U64 (log_origin_x c) (bytes_per_pixel c)) in
        let! src_offset := lift (add U64 src_line left) in
        let! dst_line := lift (mul U64 y (fr_pitch f)) in
        let! dst_offset := lift (add U64 dst_line left) in
        copy_line src_offset dst_offset bytes_per_line) in
  do! fill_rect (log_origin_x c) end_y (log_width c) CHAR_HEIGHT (background c) in
  let! last := lift (sub (rows c) 1) in
  modify (upd console (set_field cursor_row last)).

Definition fb_new_line : S_ unit :=
  do! modify (upd console (set_field cursor_column 0)) in
  let! c := gets console in
  let! next := lift (add U64 (cursor_row c) 1) in
  if rows c <=? next then fb_scroll_up else modify (upd console (set_field cursor_row next)).

(** The top left corner of a cell. *)
Definition cell_x (c : FramebufferConsole) (column : Z) : outcome E Z :=
  let? o := mul U64 column CHAR_WIDTH in add U64 (log_origin_x c) o.
Definition cell_y (c : FramebufferConsole) (row : Z) : outcome E Z :=
  let? o := mul U64 row CHAR_HEIGHT in add U64 (log_origin_y c) o.

Definition fb_write_char (style : ConsoleStyle) (ch : Z) : S_ unit :=
  let! c := gets console in
  do! (if columns c <=? cursor_column c then fb_new_line else ret tt) in
  let! c := gets console in
  let! x := lift (cell_x c (cursor_column c)) in
  let! y := lift (cell_y c (cursor_row c)) in
  do! fill_rect x y CHAR_WIDTH CHAR_HEIGHT (background c) in
  let! gx := lift (add U64 x FONT_SCALE) in
  let! gy := lift (add U64 y FONT_SCALE) in
  do! draw_glyph gx gy ch (style_color c style) FONT_SCALE in
  let! next := lift (add U64 (cursor_column c) 1) in
  modify (upd console (set_field cursor_column next)).

Definition fb_write_one (style : ConsoleStyle) (ch : Z) : S_ unit :=
  if ch =? 13 then ret tt
  else if ch =? 10 then fb_new_line
  else if ch =? 9 then for_range 0 4 (fun _ => fb_write_char style 32)
  else fb_write_char style ch.
Definition fb_write_str (style : ConsoleStyle) (s : list Z) : S_ unit := for_each s (fb_write_one style).

Definition draw_console_cell (row column : Z) (glyph : ConsoleGlyph) : S_ unit :=
  let! c := gets console in
  let! x := lift (cell_x c column) in
  let! y := lift (cell_y c row) in
  do! fill_rect x y CHAR_WIDTH CHAR_HEIGHT (background c) in
  if g_ch glyph =? 32 then ret tt else
  let! gx := lift (add U64 x FONT_SCALE) in
  let! gy := lift (add U64 y FONT_SCALE) in
  draw_glyph gx gy (g_ch glyph) (style_color c (g_style glyph)) FONT_SCALE.

Definition fb_render_console (cells : list ConsoleGlyph) (cols rws cursor_col cursor_rw : Z) : S_ unit :=
  let! c := gets console in
  let render_columns := Z.min cols (columns c) in
  let render_rows := Z.min rws (rows c) in
  do! clear_log_region in
  do! for_range 0 render_rows (fun row => for_range 0 render_columns (fun column =>
        let index := sat_add U64 (sat_mul U64 row cols) column in
        draw_console_cell row column (default glyph_empty (cells !! Z.to_nat index)))) in
  set_cursor (Z.min cursor_col render_columns) (Z.min cursor_rw (sat_sub render_rows 1)).

(** The first pixel of the top of the log that is not background. *)
Definition first_ink_sample (s : Screen) : Z :=
  let c := console s in
  let end_y := log_origin_y c + Z.min (CHAR_HEIGHT * 2) (log_height c) in
  let end_x := log_origin_x c + Z.min (CHAR_WIDTH * 32) (log_width c) in
  let colors := concat ((fun y => (fun x => read_pixel s x y) <$> seqZ (log_origin_x c) (end_x - log_origin_x c)) <$> seqZ (log_origin_y c) (end_y - log_origin_y c)) in
  default (background c) (List.find (fun color => negb (color =? background c)) colors).
End pixels.

(** ** The console of the kernel *)
Record FbState : Type := mkFbState { fb_console : option FramebufferConsole; fb_memory : gmap Z Z; fb_physical_address : Z }.
#[export] Instance FbState_eta : RecordEta FbState := fun s => mkFbState (fb_console s) (fb_memory s) (fb_physical_address s).

Definition set_physical_address {E} (phys : Z) : M FbState E unit := modify (set_field fb_physical_address phys).
Definition physical_address (s : FbState) : option Z := if negb (fb_physical_address s =? 0) then Some (fb_physical_address s) else None.
Definition fb_summary (s : FbState) : option FramebufferSummary :=
  (fun c => let f := framebuffer c in mkFbSummary (fr_width f) (fr_height f) (fr_pitch f) (fr_bpp f) (background c) (accent c)) <$> fb_console s.
Definition console_dimensions (s : FbState) : option (Z * Z) := (fun c => (columns c, rows c)) <$> fb_console s.
Definition console_probe (s : FbState) : option Z := (fun c => first_ink_sample (mkScreen c (fb_memory s))) <$> fb_console s.

(** A method of the console, when there is one. *)
Definition on_console {E} (m : M Screen E unit) : M FbState E unit := fun s =>
  match fb_console s with
  | None => (Ok tt, s)
  | Some c => let '(o, sc) := m (mkScreen c (fb_memory s)) in (o, mkFbState (Some (console sc)) (pixels sc) (fb_physical_address s))
  end.
Definition fb_write_style {E} (style : ConsoleStyle) (s : list Z) : M FbState E unit := on_console (fb_write_str style s).
Definition render_console {E} (cells : list ConsoleGlyph) (cols rws cursor_col cursor_rw : Z) : M FbState E unit :=
  on_console (fb_render_console cells cols rws cursor_col cursor_rw).

Definition fb_initialize (f : Framebuffer) : M FbState FramebufferError FramebufferSummary :=
  if fr_address f =? 0 then throw MissingAddress else
  if negb (fr_memory_model f =? LIMINE_FRAMEBUFFER_RGB) then throw UnsupportedMemoryModel else
  let bpp := (fr_bpp f + 7) / 8 in
  if (bpp <? 3) || (4 <? bpp) then throw UnsupportedBitsPerPixel else
  let! c := lift (fb_new f bpp) in
  fun s =>
    match paint_boot_surface (mkScreen c (fb_memory s)) with
    | (Ok _, sc) =>
        (Ok (mkFbSummary (fr_width f) (fr_height f) (fr_pitch f) (fr_bpp f) (read_pixel sc 8 8) (read_pixel sc 56 136)),
         mkFbState (Some (console sc)) (pixels sc) (fb_physical_address s))
    | (Err e, sc) => (Err e, set_field fb_memory (pixels sc) s)
    | (Panic, sc) => (Panic, set_field fb_memory (pixels sc) s)
    | (Diverge, sc) => (Diverge, set_field fb_memory (pixels sc) s)
    end.
