(* ===== verification/FbFacts.v ===== *)
(** * The frame buffer console: facts and theorems

    Writes are first described byte by byte, then as changes of the picture: a
    function from coordinates to colours. A character cell shows its glyph when
    every pixel of it has the colour the glyph gives it. *)
From stdpp Require Import base list numbers option strings gmap.
From Stdlib Require Import ZArith Lia Bool.
From S2P Require Import Prelude Paths Text Font Fb.

(** ** Geometry *)
Definition fb_geometry (f : Framebuffer) (bpp : Z) : Prop :=
  (bpp = 3 \/ bpp = 4) /\ 0 < fr_width f /\ 0 < fr_height f /\ fr_width f * bpp <= fr_pitch f /\ fr_pitch f * fr_height f < U64.

Section bytes.
Context {E : Type}.

(** The bytes from [o1] to [o2] become [b o]; the console and the other bytes stay. *)
Definition overwrites (s s' : Screen) (P : Z -> bool) (b : Z -> Z) : Prop :=
  console s' = console s /\ forall o, load_fb (pixels s') o = if P o then b o else load_fb (pixels s) o.

Lemma overwrites_none s b : overwrites s s (fun _ => false) b.
Proof. done. Qed.
Lemma overwrites_ext s s' P P' b : (forall o, P o = P' o) -> overwrites s s' P b -> overwrites s s' P' b.
Proof. intros HP [Hc Hb]. split; [done|]. intros o. by rewrite Hb, HP. Qed.
Lemma overwrites_trans s s1 s2 P1 P2 P b :
  overwrites s s1 P1 b -> overwrites s1 s2 P2 b -> (forall o, P o = P1 o || P2 o) -> overwrites s s2 P b.
Proof.
  intros [Hc1 H1] [Hc2 H2] HP. split; [congruence|]. intros o. rewrite H2, H1, HP. destruct (P1 o), (P2 o); done.
Qed.

Definition color_byte (color i : Z) : Z := Z.land (Z.shiftr color (i * 8)) 0xff.

Lemma write_byte_run o v (s : Screen) : exists s', write_byte (E:=E) o v s = (Ok tt, s') /\ overwrites s s' (fun x => x =? o) (fun _ => v).
Proof.
  eexists. split; [reflexivity|]. split; [done|]. intros x. unfold load_fb. cbn. destruct (Z.eqb_spec x o) as [->|Hne].
  - by rewrite lookup_insert_eq.
  - by rewrite lookup_insert_ne by done.
Qed.

(** The bytes of one pixel. *)
Lemma write_bytes_run off n color (s : Screen) : 0 <= n ->
  exists s', for_range (E:=E) 0 n (fun i => write_byte (off + i) (color_byte color i)) s = (Ok tt, s') /\
    overwrites s s' (fun o => (off <=? o) && (o <? off + n)) (fun o => color_byte color (o - off)).
Proof.
  intros Hn. destruct (for_range_rule (E:=E) (fun i s' => overwrites s s' (fun o => (off <=? o) && (o <? off + i)) (fun o => color_byte color (o - off)))
    0 n (fun i => write_byte (off + i) (color_byte color i)) s) as (s' & Hr & Hs); [done| | |by exists s'].
  - split; [done|]. intros o. destruct (Z.leb_spec off o), (Z.ltb_spec o (off + 0)); cbn [andb]; lia || done.
  - intros i s1 Hi H1. destruct (write_byte_run (off + i) (color_byte color i) s1) as (s2 & Hr & Hc2 & H2). exists s2. split; [done|].
    destruct H1 as [Hc1 H1]. split; [congruence|]. intros o. rewrite H2, H1.
    destruct (Z.eqb_spec o (off + i)) as [->|Hne].
    + rewrite (proj2 (Z.leb_le _ _)), (proj2 (Z.ltb_lt _ _)) by lia. cbn [andb]. f_equal. lia.
    + replace (o <? off + (i + 1)) with (o <? off + i); [done|]. destruct (Z.ltb_spec o (off + i)), (Z.ltb_spec o (off + (i + 1))); lia.
Qed.

(** A run of pixels: [n] pixels of [bpp] bytes from [off]. *)
Definition run_bytes (off bpp n : Z) (o : Z) : bool := (off <=? o) && (o <? off + n * bpp).
Definition run_value (off bpp color : Z) (o : Z) : Z := color_byte color ((o - off) mod bpp).

Lemma pixel_run_step off bpp n color s s1 s2 : 0 < bpp -> 0 <= n ->
  overwrites s s1 (run_bytes off bpp n) (run_value off bpp color) ->
  overwrites s1 s2 (fun o => (off + n * bpp <=? o) && (o <? off + n * bpp + bpp)) (fun o => color_byte color (o - (off + n * bpp))) ->
  overwrites s s2 (run_bytes off bpp (n + 1)) (run_value off bpp color).
Proof.
  intros Hb Hn [Hc1 H1] [Hc2 H2]. split; [congruence|]. intros o. rewrite H2, H1. unfold run_bytes, run_value.
  assert (0 <= n * bpp) by lia. replace ((n + 1) * bpp) with (n * bpp + bpp) by lia.
  destruct (Z.leb_spec (off + n * bpp) o), (Z.ltb_spec o (off + n * bpp + bpp)), (Z.leb_spec off o), (Z.ltb_spec o (off + n * bpp)),
    (Z.ltb_spec o (off + (n * bpp + bpp))); cbn [andb]; try lia; try done.
  f_equal. replace (o - off) with (o - (off + n * bpp) + n * bpp) by lia. rewrite Z.mod_add by lia. symmetry. apply Z.mod_small. lia.
Qed.
(** The bytes of a rectangle of pixels, by row and by position in the row. *)
Definition rect_bytes (pitch bpp x mx y my : Z) (o : Z) : bool :=
  (y <=? o / pitch) && (o / pitch <? my) && ((x * bpp <=? o mod pitch) && (o mod pitch <? mx * bpp)).
Definition rect_value (pitch bpp color : Z) (o : Z) : Z := color_byte color (o mod pitch mod bpp).

Lemma row_split pitch q r : 0 <= r < pitch -> (q * pitch + r) / pitch = q /\ (q * pitch + r) mod pitch = r.
Proof.
  intros Hr. rewrite Z.add_comm, Z.div_add, Z.mod_add by lia. rewrite Z.div_small, Z.mod_small by lia. lia.
Qed.

Lemma rect_row pitch bpp x mx y q color s s1 s2 :
  0 < bpp -> 0 <= x <= mx -> mx * bpp <= pitch -> 0 < pitch -> y <= q ->
  overwrites s s1 (rect_bytes pitch bpp x mx y q) (rect_value pitch bpp color) ->
  overwrites s1 s2 (run_bytes (q * pitch + x * bpp) bpp (mx - x)) (run_value (q * pitch + x * bpp) bpp color) ->
  overwrites s s2 (rect_bytes pitch bpp x mx y (q + 1)) (rect_value pitch bpp color).
Proof.
  intros Hb Hx Hm Hp Hq [Hc1 H1] [Hc2 H2]. split; [congruence|]. intros o. rewrite H2, H1. unfold run_bytes, run_value, rect_bytes, rect_value.
  pose proof (Z.div_mod o pitch ltac:(lia)) as Hdm. pose proof (Z.mod_pos_bound o pitch Hp) as Hr.
  set (d := o / pitch) in *. set (r := o mod pitch) in *. clearbody d r. subst o.
  replace (pitch * d + r) with (d * pitch + r) by lia. assert (0 <= x * bpp) by lia. replace ((mx - x) * bpp) with (mx * bpp - x * bpp) by lia.
  destruct (Z.eq_dec d q) as [->|Hne].
  - rewrite (proj2 (Z.ltb_ge q q)), (proj2 (Z.leb_le y q)), (proj2 (Z.ltb_lt q (q + 1))) by lia. cbn [andb].
    destruct (Z.leb_spec (q * pitch + x * bpp) (q * pitch + r)), (Z.ltb_spec (q * pitch + r) (q * pitch + x * bpp + (mx * bpp - x * bpp))),
      (Z.leb_spec (x * bpp) r), (Z.ltb_spec r (mx * bpp)); cbn [andb]; try lia; try done.
    f_equal. replace (q * pitch + r - (q * pitch + x * bpp)) with (r + (- x) * bpp) by lia. by rewrite Z.mod_add by lia.
  - assert (Hout : (q * pitch + x * bpp <=? d * pitch + r) && (d * pitch + r <? q * pitch + x * bpp + (mx * bpp - x * bpp)) = false).
    { destruct (Z.leb_spec (q * pitch + x * bpp) (d * pitch + r)) as [Hlo|], (Z.ltb_spec (d * pitch + r) (q * pitch + x * bpp + (mx * bpp - x * bpp))) as [Hhi|]; try done.
      exfalso. assert (d < q \/ q < d) as [Hd|Hd] by lia; nia. }
    rewrite Hout. replace (d <? q + 1) with (d <? q); [done|]. destruct (Z.ltb_spec d q), (Z.ltb_spec d (q + 1)); lia.
Qed.

Lemma pixel_offset_ok c x y : fb_geometry (framebuffer c) (bytes_per_pixel c) -> 0 <= x < fr_width (framebuffer c) -> 0 <= y < fr_height (framebuffer c) ->
  pixel_offset c x y = y * fr_pitch (framebuffer c) + x * bytes_per_pixel c /\
  y * fr_pitch (framebuffer c) + x * bytes_per_pixel c + bytes_per_pixel c <= (y + 1) * fr_pitch (framebuffer c) <= fr_pitch (framebuffer c) * fr_height (framebuffer c).
Proof.
  intros (Hb & Hw & Hh & Hp & Ht) Hx Hy. set (f := framebuffer c) in *. set (bpp := bytes_per_pixel c) in *.
  assert (Hrow : x * bpp + bpp <= fr_pitch f) by nia. assert (Hlast : (y + 1) * fr_pitch f <= fr_pitch f * fr_height f) by nia.
  unfold pixel_offset, sat_add, sat_mul. fold f bpp. assert (0 <= x * bpp) by nia. assert (0 <= y * fr_pitch f) by nia. lia.
Qed.

(** A row of pixels through [write_u32], at the offset the code computes. *)
Lemma row_u32_run off n color (s : Screen) : 0 <= n ->
  exists s', for_range (E:=E) 0 n (fun i => write_u32 (off + 4 * i) color) s = (Ok tt, s') /\ overwrites s s' (run_bytes off 4 n) (run_value off 4 color).
Proof.
  intros Hn. destruct (for_range_rule (E:=E) (fun i s' => overwrites s s' (run_bytes off 4 i) (run_value off 4 color)) 0 n
    (fun i => write_u32 (off + 4 * i) color) s) as (s' & Hr & Hs); [done| | |by exists s'].
  - apply (overwrites_ext s s (fun _ => false)); [|apply overwrites_none]. intros o. unfold run_bytes. destruct (Z.leb_spec off o), (Z.ltb_spec o (off + 0 * 4)); cbn [andb]; lia || done.
  - intros i s1 Hi H1. destruct (write_bytes_run (off + 4 * i) 4 color s1 ltac:(lia)) as (s2 & Hr & H2). exists s2. split; [exact Hr|].
    apply (pixel_run_step off 4 i color s s1 s2); [lia|lia|done|]. by replace (off + i * 4) with (off + 4 * i) by lia.
Qed.

(** The same through [write_pixel]. *)
Lemma row_pixels_run x mx q color (s : Screen) :
  let c := console s in let f := framebuffer c in
  fb_geometry f (bytes_per_pixel c) -> 0 <= x <= mx -> mx <= fr_width f -> 0 <= q < fr_height f ->
  exists s', for_range (E:=E) x mx (fun cx => write_pixel cx q color) s = (Ok tt, s') /\
    overwrites s s' (run_bytes (q * fr_pitch f + x * bytes_per_pixel c) (bytes_per_pixel c) (mx - x))
      (run_value (q * fr_pitch f + x * bytes_per_pixel c) (bytes_per_pixel c) color).
Proof.
  intros c f Hg Hx Hm Hq. set (bpp := bytes_per_pixel c). set (off := q * fr_pitch f + x * bpp).
  assert (Hb : 0 < bpp) by (destruct Hg as [[H|H] _]; fold bpp in H; lia).
  destruct (for_range_rule (E:=E) (fun i s' => overwrites s s' (run_bytes off bpp (i - x)) (run_value off bpp color)) x mx
    (fun cx => write_pixel cx q color) s) as (s' & Hr & Hs); [lia| | |by exists s'].
  - rewrite Z.sub_diag. apply (overwrites_ext s s (fun _ => false)); [|apply overwrites_none]. intros o. unfold run_bytes.
    destruct (Z.leb_spec off o), (Z.ltb_spec o (off + 0 * bpp)); cbn [andb]; lia || done.
  - intros i s1 Hi H1. pose proof H1 as [Hc1 _]. destruct (pixel_offset_ok c i q Hg ltac:(fold f; lia) Hq) as [Hpo _].
    destruct (write_bytes_run (pixel_offset c i q) bpp color s1 ltac:(lia)) as (s2 & Hr & H2). exists s2. split.
    + unfold write_pixel, bind, gets. rewrite Hc1. fold c f bpp. rewrite (proj2 (Z.leb_gt _ _)), (proj2 (Z.leb_gt _ _)) by lia. exact Hr.
    + replace (i + 1 - x) with (i - x + 1) by lia. apply (pixel_run_step off bpp (i - x) color s s1 s2); [lia|lia|done|].
      replace (off + (i - x) * bpp) with (pixel_offset c i q); [done|]. rewrite Hpo. fold f bpp. unfold off. lia.
Qed.

(** [fill_rect] writes exactly the bytes of the part of the rectangle that is on the screen. *)
Lemma fill_rect_bytes x y w h color (s : Screen) :
  let c := console s in let f := framebuffer c in
  fb_geometry f (bytes_per_pixel c) -> 0 <= x <= fr_width f -> 0 <= y <= fr_height f -> 0 <= w -> 0 <= h ->
  exists s', fill_rect (E:=E) x y w h color s = (Ok tt, s') /\
    overwrites s s' (rect_bytes (fr_pitch f) (bytes_per_pixel c) x (Z.min (x + w) (fr_width f)) y (Z.min (y + h) (fr_height f)))
      (rect_value (fr_pitch f) (bytes_per_pixel c) color).
Proof.
  intros c f Hg Hx Hy Hw Hh. pose proof Hg as (Hbpp & Hwp & Hhp & Hpitch & Htot). set (bpp := bytes_per_pixel c) in *.
  assert (Hb : 0 < bpp) by lia. assert (Hp : 0 < fr_pitch f) by nia. assert (Hw64 : fr_width f < U64) by nia. assert (Hh64 : fr_height f < U64) by nia.
  set (mx := Z.min (x + w) (fr_width f)). set (my := Z.min (y + h) (fr_height f)).
  assert (Hmp : mx * bpp <= fr_pitch f) by nia.
  unfold fill_rect, bind at 1, gets. fold c f. unfold sat_add. replace (Z.min (Z.min (x + w) (U64 - 1)) (fr_width f)) with mx by lia.
  replace (Z.min (Z.min (y + h) (U64 - 1)) (fr_height f)) with my by lia. rewrite !sub_ok by lia. unfold bind at 1 2, lift at 1 2.
  destruct (Z.eqb_spec (mx - x) 0) as [Hzx|Hzx]; cbn [orb].
  { exists s. split; [done|]. apply (overwrites_ext s s (fun _ => false)); [|apply overwrites_none]. intros o. unfold rect_bytes.
    replace mx with x by lia. destruct (Z.leb_spec (x * bpp) (o mod fr_pitch f)), (Z.ltb_spec (o mod fr_pitch f) (x * bpp)); cbn [andb]; try lia; by rewrite andb_false_r. }
  destruct (Z.eqb_spec (my - y) 0) as [Hzy|Hzy].
  { exists s. split; [done|]. apply (overwrites_ext s s (fun _ => false)); [|apply overwrites_none]. intros o. unfold rect_bytes.
    replace my with y by lia. by destruct (Z.leb_spec y (o / fr_pitch f)), (Z.ltb_spec (o / fr_pitch f) y); cbn [andb]; try lia. }
  assert (Hrows : forall body, (forall q s1, y <= q < my -> console s1 = c -> exists s2, body q s1 = (Ok tt, s2) /\
      overwrites s1 s2 (run_bytes (q * fr_pitch f + x * bpp) bpp (mx - x)) (run_value (q * fr_pitch f + x * bpp) bpp color)) ->
    exists s', for_range (E:=E) y my body s = (Ok tt, s') /\ overwrites s s' (rect_bytes (fr_pitch f) bpp x mx y my) (rect_value (fr_pitch f) bpp color)).
  { intros body Hbody. apply (for_range_rule (E:=E) (fun q s' => overwrites s s' (rect_bytes (fr_pitch f) bpp x mx y q) (rect_value (fr_pitch f) bpp color))); [lia| |].
    - apply (overwrites_ext s s (fun _ => false)); [|apply overwrites_none]. intros o. unfold rect_bytes.
      by destruct (Z.leb_spec y (o / fr_pitch f)), (Z.ltb_spec (o / fr_pitch f) y); cbn [andb]; try lia.
    - intros q s1 Hq H1. destruct (Hbody q s1 Hq (proj1 H1)) as (s2 & Hr & H2). exists s2. split; [done|].
      apply (rect_row _ _ _ _ _ _ _ s s1 s2); [lia..|done|done]. }
  fold bpp. destruct (Z.eqb_spec bpp 4) as [H4|H4].
  - apply Hrows. intros q s1 Hq Hc1. assert (0 <= q * fr_pitch f /\ q * fr_pitch f + x * 4 < U64) by nia.
    unfold bind, lift. rewrite (mul_ok U64 q) by lia. cbv beta iota. rewrite (mul_ok U64 x) by lia. cbv beta iota. rewrite add_ok by lia. cbv beta iota.
    destruct (row_u32_run (q * fr_pitch f + x * 4) (mx - x) color s1 ltac:(lia)) as (s2 & Hr & H2). exists s2. split; [exact Hr|]. by rewrite H4.
  - apply Hrows. intros q s1 Hq Hc1. pose proof (row_pixels_run x mx q color s1) as Hrun. rewrite Hc1 in Hrun. cbv zeta in Hrun. fold f bpp in Hrun. apply Hrun; [done|lia|lia|lia].
Qed.
End bytes.

(** ** The picture *)
Definition shown (bpp color : Z) : Z := Z.land color (Z.ones (8 * bpp)).

Lemma read_bytes_written m off n color : (forall k, 0 <= k < Z.of_nat n -> load_fb m (off + k) = color_byte color k) ->
  read_bytes m off n = Z.land color (Z.ones (8 * Z.of_nat n)).
Proof.
  induction n as [|n IH]; intros Hm; [by rewrite Z.land_0_r|]. cbn [read_bytes]. rewrite IH by (intros k Hk; apply Hm; lia). rewrite Hm by lia. unfold color_byte.
  apply Z.bits_inj'. intros i Hi. rewrite Z.lor_spec, !Z.land_spec, Z.shiftl_spec by lia. change 255 with (Z.ones 8).
  destruct (decide (i < 8 * Z.of_nat n)) as [Hlt|Hge].
  - rewrite (Z.testbit_neg_r _ (i - 8 * Z.of_nat n)), orb_false_r by lia. by rewrite !Z.ones_spec_low by lia.
  - rewrite Z.land_spec, Z.shiftr_spec, (Z.ones_spec_high (8 * Z.of_nat n)), andb_false_r by lia. cbn [orb].
    replace (i - 8 * Z.of_nat n + Z.of_nat n * 8) with i by lia. f_equal.
    destruct (decide (i < 8 * Z.of_nat (S n))); [by rewrite !Z.ones_spec_low by lia|by rewrite !Z.ones_spec_high by lia].
Qed.

Lemma read_bytes_same m m' off off' n :
  (forall k, 0 <= k < Z.of_nat n -> load_fb m' (off' + k) = load_fb m (off + k)) -> read_bytes m' off' n = read_bytes m off n.
Proof.
  induction n as [|n IH]; intros Hm; [done|]. cbn [read_bytes]. rewrite IH by (intros k Hk; apply Hm; lia). by rewrite Hm by lia.
Qed.

Definition on_screen (s : Screen) (px py : Z) : Prop := 0 <= px < fr_width (framebuffer (console s)) /\ 0 <= py < fr_height (framebuffer (console s)).
Definition geometry (s : Screen) : Prop := fb_geometry (framebuffer (console s)) (bytes_per_pixel (console s)).
Definition fb_bytes (s : Screen) : Z := fr_pitch (framebuffer (console s)) * fr_height (framebuffer (console s)).

Lemma geometry_bounds s : geometry s ->
  fr_width (framebuffer (console s)) < U64 /\ fr_height (framebuffer (console s)) < U64 /\ 0 < fr_pitch (framebuffer (console s)).
Proof. intros (Hb & Hw & Hh & Hp & Ht). assert (0 < fr_pitch (framebuffer (console s))) by nia. nia. Qed.

(** From [s] to [s'] the picture changes where [F] says; no byte outside the frame buffer does. *)
Definition drawn (s s' : Screen) (F : Z -> Z -> option Z) : Prop :=
  console s' = console s /\ (forall o, o < 0 \/ fb_bytes s <= o -> load_fb (pixels s') o = load_fb (pixels s) o) /\
  forall px py, on_screen s px py -> read_pixel s' px py = default (read_pixel s px py) (F px py).

Lemma drawn_refl s : drawn s s (fun _ _ => None).
Proof. done. Qed.
Lemma drawn_trans s s1 s2 F1 F2 F :
  drawn s s1 F1 -> drawn s1 s2 F2 ->
  (forall px py, on_screen s px py -> F px py = match F2 px py with Some c => Some c | None => F1 px py end) -> drawn s s2 F.
Proof.
  intros (Hc1 & Ho1 & H1) (Hc2 & Ho2 & H2) HF. split; [congruence|]. unfold on_screen, fb_bytes in *. rewrite Hc1 in Ho2, H2. split.
  - intros o Ho. by rewrite Ho2, Ho1.
  - intros px py Hp. rewrite (H2 px py Hp), (H1 px py Hp), (HF px py Hp). by destruct (F2 px py).
Qed.
Lemma drawn_ext s s' F F' : (forall px py, on_screen s px py -> F px py = F' px py) -> drawn s s' F -> drawn s s' F'.
Proof. intros HF (Hc & Ho & Hd). split; [done|]. split; [done|]. intros px py Hp. by rewrite (Hd px py Hp), (HF px py Hp). Qed.
Lemma drawn_geometry s s' F : drawn s s' F -> geometry s -> geometry s'.
Proof. intros (Hc & _). unfold geometry. by rewrite Hc. Qed.

Definition in_rect (x y w h px py : Z) : bool := (x <=? px) && (px <? x + w) && ((y <=? py) && (py <? y + h)).

Section picture.
Context {E : Type}.

(** [fill_rect] paints exactly the rectangle: it returns without an overflow,
    every pixel of the screen inside the rectangle gets the colour, every other one
    keeps its own, and no byte outside the frame buffer is written, however far the
    rectangle reaches past the edges of the screen. *)
Lemma fill_rect_drawn x y w h color (s : Screen) :
  geometry s -> 0 <= x <= fr_width (framebuffer (console s)) -> 0 <= y <= fr_height (framebuffer (console s)) -> 0 <= w -> 0 <= h ->
  exists s', fill_rect (E:=E) x y w h color s = (Ok tt, s') /\
    drawn s s' (fun px py => if in_rect x y w h px py then Some (shown (bytes_per_pixel (console s)) color) else None).
Proof.
  intros Hg Hx Hy Hw Hh. destruct (fill_rect_bytes (E:=E) x y w h color s Hg Hx Hy Hw Hh) as (s' & Hr & Hc & Hb). exists s'. split; [done|].
  pose proof Hg as (Hbpp & Hwp & Hhp & Hpitch & Htot). set (c := console s) in *. set (f := framebuffer c) in *. set (bpp := bytes_per_pixel c) in *.
  assert (Hp : 0 < fr_pitch f) by nia. split; [done|]. split.
  - intros o Ho. rewrite Hb. unfold rect_bytes. unfold fb_bytes in Ho. fold c f in Ho.
    assert (Hout : (y <=? o / fr_pitch f) && (o / fr_pitch f <? Z.min (y + h) (fr_height f)) = false); [|by rewrite Hout].
    destruct (Z.leb_spec y (o / fr_pitch f)) as [Hlo|], (Z.ltb_spec (o / fr_pitch f) (Z.min (y + h) (fr_height f))) as [Hhi|]; try done. exfalso.
    pose proof (Z.div_mod o (fr_pitch f) ltac:(lia)). pose proof (Z.mod_pos_bound o (fr_pitch f) Hp). nia.
  - intros px py [Hpx Hpy]. fold c f in Hpx, Hpy. destruct (pixel_offset_ok c px py Hg Hpx Hpy) as [Hpo _]. fold f bpp in Hpo.
    unfold read_pixel. rewrite Hc. fold c f bpp. rewrite (proj2 (Z.leb_gt _ _)), (proj2 (Z.leb_gt _ _)) by lia. cbn [orb]. rewrite Hpo.
    assert (Hbyte : forall k, 0 <= k < bpp -> load_fb (pixels s') (py * fr_pitch f + px * bpp + k) =
      if in_rect x y w h px py then color_byte color k else load_fb (pixels s) (py * fr_pitch f + px * bpp + k)).
    { intros k Hk. assert (Hrow : 0 <= px * bpp + k < fr_pitch f) by nia. destruct (row_split (fr_pitch f) py (px * bpp + k) Hrow) as [Hd Hm].
      rewrite Hb. unfold rect_bytes, rect_value, in_rect. rewrite <- Z.add_assoc, Hd, Hm.
      replace ((px * bpp + k) mod bpp) with k by (rewrite Z.add_comm, Z.mod_add, Z.mod_small by lia; done).
      assert ((x * bpp <=? px * bpp + k) = (x <=? px)) as -> by (destruct (Z.leb_spec (x * bpp) (px * bpp + k)), (Z.leb_spec x px); nia || done).
      assert ((px * bpp + k <? Z.min (x + w) (fr_width f) * bpp) = (px <? x + w)) as ->
        by (destruct (Z.ltb_spec (px * bpp + k) (Z.min (x + w) (fr_width f) * bpp)), (Z.ltb_spec px (x + w)); nia || done).
      assert ((py <? Z.min (y + h) (fr_height f)) = (py <? y + h)) as -> by (destruct (Z.ltb_spec py (Z.min (y + h) (fr_height f))), (Z.ltb_spec py (y + h)); lia || done).
      by rewrite andb_comm. }
    assert (Hn : Z.of_nat (Z.to_nat bpp) = bpp) by lia. destruct (in_rect x y w h px py); cbn [default].
    + rewrite (read_bytes_written _ _ _ color); [by rewrite Hn|]. intros k Hk. apply Hbyte. lia.
    + apply read_bytes_same. intros k Hk. apply Hbyte. lia.
Qed.
(** Arithmetic with halves. *)
Ltac dlia := Z.to_euclidean_division_equations; lia.

(** The pixels a glyph's rows light up, from its top left corner, each as a square of two by two. *)
Definition inked (rows : list Z) (dx dy : Z) : bool :=
  ((0 <=? dx) && (dx <? 10) && ((0 <=? dy) && (dy <? 14))) && Z.testbit (nth (Z.to_nat (dy / 2)) rows 0) (4 - dx / 2).
(** The squares drawn before row [r], column [k]. *)
Definition before (r k dx dy : Z) : bool := (dy / 2 <? r) || ((dy / 2 =? r) && (dx / 2 <? k)).
Definition ink (rows : list Z) (r k x y color : Z) (px py : Z) : option Z :=
  if inked rows (px - x) (py - y) && before r k (px - x) (py - y) then Some color else None.

Lemma land_bit_zero v i : 0 <= i -> (Z.land v (Z.shiftl 1 i) =? 0) = negb (Z.testbit v i).
Proof.
  intros Hi. rewrite Z.shiftl_1_l. destruct (Z.testbit v i) eqn:Hb; cbn [negb].
  - apply Z.eqb_neq. intros H0. assert (Z.testbit (Z.land v (2 ^ i)) i = false) as Hf by (rewrite H0; apply Z.bits_0).
    rewrite Z.land_spec, Hb, Z.pow2_bits_true in Hf by lia. done.
  - apply Z.eqb_eq. apply Z.bits_inj'. intros j Hj. rewrite Z.land_spec, Z.bits_0, Z.pow2_bits_eqb by lia.
    destruct (Z.eqb_spec i j) as [->|]; [by rewrite Hb|apply andb_false_r].
Qed.

Section glyph.
Variables (s : Screen) (x y color : Z) (rows : list Z).
Let col := shown (bytes_per_pixel (console s)) color.
Hypothesis Hg : geometry s.
Hypothesis Hx : 0 <= x /\ x + 10 <= fr_width (framebuffer (console s)).
Hypothesis Hy : 0 <= y /\ y + 14 <= fr_height (framebuffer (console s)).

Lemma before_step r k px py : 0 <= r < 7 -> 0 <= k < 5 ->
  ink rows r (k + 1) x y col px py =
  match (if Z.testbit (nth (Z.to_nat r) rows 0) (4 - k) && in_rect (x + 2 * k) (y + 2 * r) 2 2 px py then Some col else None) with
  | Some c => Some c | None => ink rows r k x y col px py
  end.
Proof.
  intros Hr Hk. unfold ink. set (dx := px - x). set (dy := py - y).
  assert (Hin : in_rect (x + 2 * k) (y + 2 * r) 2 2 px py = (dx / 2 =? k) && (dy / 2 =? r)).
  { unfold in_rect, dx, dy. destruct (Z.eqb_spec ((px - x) / 2) k), (Z.eqb_spec ((py - y) / 2) r), (Z.leb_spec (x + 2 * k) px), (Z.ltb_spec px (x + 2 * k + 2)),
      (Z.leb_spec (y + 2 * r) py), (Z.ltb_spec py (y + 2 * r + 2)); cbn [andb]; dlia || done. }
  rewrite Hin. clear Hin. unfold before. destruct (Z.eqb_spec (dy / 2) r) as [Hdy|Hdy].
  - rewrite (proj2 (Z.ltb_ge (dy / 2) r)) by lia. cbn [andb orb]. destruct (Z.eqb_spec (dx / 2) k) as [Hdx|Hdx].
    + rewrite (proj2 (Z.ltb_lt _ _)), (proj2 (Z.ltb_ge (dx / 2) k)) by lia. rewrite andb_false_r, !andb_true_r.
      unfold inked. rewrite Hdy, Hdx. rewrite (proj2 (Z.leb_le 0 dx)), (proj2 (Z.ltb_lt dx 10)), (proj2 (Z.leb_le 0 dy)), (proj2 (Z.ltb_lt dy 14)) by dlia. cbn [andb]. by destruct (Z.testbit _ _).
    + rewrite andb_false_r. replace (dx / 2 <? k + 1) with (dx / 2 <? k); [done|]. destruct (Z.ltb_spec (dx / 2) k), (Z.ltb_spec (dx / 2) (k + 1)); lia || done.
  - rewrite !andb_false_r. done.
Qed.

Lemma draw_row_drawn r s1 : 0 <= r < 7 -> drawn s s1 (ink rows r 0 x y col) ->
  exists s2, draw_row (E:=E) x y r (nth (Z.to_nat r) rows 0) color 2 s1 = (Ok tt, s2) /\ drawn s s2 (ink rows (r + 1) 0 x y col).
Proof.
  intros Hr H1. unfold draw_row, GLYPH_WIDTH.
  destruct (geometry_bounds s Hg) as (Hw64 & Hh64 & _).
  destruct (for_range_rule (E:=E) (fun k s' => drawn s s' (ink rows r k x y col)) 0 5 (fun column =>
    if Z.land (nth (Z.to_nat r) rows 0) (Z.shiftl 1 (5 - 1 - column)) =? 0 then ret tt else
    fill_rect (sat_add U64 x (column * 2)) (sat_add U64 y (r * 2)) 2 2 color) s1) as (s2 & Hrun & H2); [lia|done| |].
  - intros k s' Hk Hs'. rewrite land_bit_zero by lia. replace (5 - 1 - k) with (4 - k) by lia. pose proof (before_step r k) as Hstep.
    destruct (Z.testbit (nth (Z.to_nat r) rows 0) (4 - k)); cbn [negb].
    + unfold sat_add. rewrite !Z.min_l by lia. pose proof (proj1 Hs') as Hc.
      destruct (fill_rect_drawn (x + k * 2) (y + r * 2) 2 2 color s') as (s'' & Hf & Hd); [by apply (drawn_geometry s s' _ Hs')|rewrite Hc; lia..|lia|lia|].
      exists s''. split; [done|]. apply (drawn_trans s s' s'' _ _ _ Hs' Hd). intros px py _. rewrite Hstep by lia. rewrite Hc.
      replace (x + k * 2) with (x + 2 * k) by lia. by replace (y + r * 2) with (y + 2 * r) by lia.
    + exists s'. split; [done|]. revert Hs'. apply drawn_ext. intros px py _. by rewrite Hstep by lia.
  - exists s2. split; [exact Hrun|]. revert H2. apply drawn_ext. intros px py _. unfold ink, before. destruct (inked rows (px - x) (py - y)) eqn:Hi; [|done].
    unfold inked in Hi. bool_prop. cbn [andb]. replace (((py - y) / 2 <? r) || ((py - y) / 2 =? r) && ((px - x) / 2 <? 5))
      with (((py - y) / 2 <? r + 1) || ((py - y) / 2 =? r + 1) && ((px - x) / 2 <? 0)); [done|].
    destruct (Z.ltb_spec ((py - y) / 2) r), (Z.eqb_spec ((py - y) / 2) r), (Z.ltb_spec ((px - x) / 2) 5), (Z.ltb_spec ((py - y) / 2) (r + 1)),
      (Z.eqb_spec ((py - y) / 2) (r + 1)), (Z.ltb_spec ((px - x) / 2) 0); cbn [andb orb]; dlia || done.
Qed.
End glyph.
(** *** A glyph, a cell *)
Definition glyph_rows (ch : Z) : list Z := match lookup_glyph (E:=unit) ch with Ok g => g | _ => [] end.

Lemma glyph_rows_eq ch : lookup_glyph (E:=E) ch = Ok (glyph_rows ch) /\ length (glyph_rows ch) = 7%nat.
Proof.
  destruct (lookup_glyph_has E ch) as (g & Hg & Hl). destruct (lookup_glyph_has unit ch) as (g' & Hg' & _).
  assert (glyph_rows ch = g) as ->; [|done]. unfold glyph_rows. rewrite Hg'. revert Hg Hg'. unfold lookup_glyph, idx, unwrap. repeat case_match; congruence.
Qed.

Lemma draw_glyph_drawn s x y ch color : geometry s ->
  0 <= x /\ x + 10 <= fr_width (framebuffer (console s)) -> 0 <= y /\ y + 14 <= fr_height (framebuffer (console s)) ->
  exists s', draw_glyph (E:=E) x y ch color 2 s = (Ok tt, s') /\
    drawn s s' (fun px py => if inked (glyph_rows ch) (px - x) (py - y) then Some (shown (bytes_per_pixel (console s)) color) else None).
Proof.
  intros Hg Hx Hy. destruct (glyph_rows_eq ch) as [Hl Hlen]. set (rows := glyph_rows ch) in *. unfold draw_glyph, bind, lift. rewrite Hl.
  destruct (for_each_rule (E:=E) (fun done_ s' => drawn s s' (ink rows (len done_) 0 x y (shown (bytes_per_pixel (console s)) color)))
    (zip (seqZ 0 (len rows)) rows) (fun '(row, row_bits) => draw_row x y row row_bits color 2) s) as (s' & Hr & Hd).
  - apply (drawn_ext s s (fun _ _ => None)); [|apply drawn_refl]. intros px py _. unfold ink. destruct (inked rows (px - x) (py - y)) eqn:Hi; [|done].
    unfold inked in Hi. bool_prop. unfold before. rewrite len_nil.
    destruct (Z.ltb_spec ((py - y) / 2) 0), (Z.eqb_spec ((py - y) / 2) 0), (Z.ltb_spec ((px - x) / 2) 0); cbn [andb orb]; dlia || done.
  - intros done_ [row bits] rest s1 Heq H1.
    assert (Hk : zip (seqZ 0 (len rows)) rows !! length done_ = Some (row, bits)) by (rewrite Heq; by apply list_lookup_middle).
    apply lookup_zip_Some in Hk as [Hrow Hbits]. apply lookup_seqZ in Hrow as [-> Hlt].
    assert (Hb : bits = nth (Z.to_nat (0 + Z.of_nat (length done_))) rows 0).
    { rewrite nth_lookup. replace (Z.to_nat (0 + Z.of_nat (length done_))) with (length done_) by lia. by rewrite Hbits. }
    rewrite Hb. assert (Z.of_nat (length done_) < 7) by (unfold len in Hlt; lia).
    destruct (draw_row_drawn s x y color rows Hg Hx Hy (0 + Z.of_nat (length done_)) s1) as (s2 & Hr & H2); [lia|done|].
    exists s2. split; [done|]. rewrite len_app. unfold len at 1. by replace (Z.of_nat (length done_) + len [(0 + Z.of_nat (length done_), nth (Z.to_nat (0 + Z.of_nat (length done_))) rows 0)]) with (0 + Z.of_nat (length done_) + 1) by (unfold len; simpl; lia).
  - exists s'. split; [exact Hr|]. revert Hd. apply drawn_ext. intros px py _. unfold ink, before.
    assert (len (zip (seqZ 0 (len rows)) rows) = 7) as -> by (unfold len; rewrite length_zip_with, length_seqZ, Hlen; lia).
    destruct (inked rows (px - x) (py - y)) eqn:Hi; [|done]. unfold inked in Hi. bool_prop. cbn [andb].
    rewrite (proj2 (Z.ltb_lt ((py - y) / 2) 7)) by dlia. done.
Qed.

(** The colour of a pixel of a cell that shows [g]. *)
Definition cell_color (c : FramebufferConsole) (g : ConsoleGlyph) (dx dy : Z) : Z :=
  shown (bytes_per_pixel c) (if inked (glyph_rows (g_ch g)) (dx - 2) (dy - 2) then style_color c (g_style g) else background c).
Definition cell_pixels (c : FramebufferConsole) (g : ConsoleGlyph) (x y px py : Z) : option Z :=
  if in_rect x y 12 16 px py then Some (cell_color c g (px - x) (py - y)) else None.

Lemma draw_cell_drawn s x y g : geometry s ->
  0 <= x /\ x + 12 <= fr_width (framebuffer (console s)) -> 0 <= y /\ y + 16 <= fr_height (framebuffer (console s)) ->
  exists s1 s2, fill_rect (E:=E) x y 12 16 (background (console s)) s = (Ok tt, s1) /\
    draw_glyph (E:=E) (x + 2) (y + 2) (g_ch g) (style_color (console s) (g_style g)) 2 s1 = (Ok tt, s2) /\
    console s1 = console s /\ drawn s s2 (cell_pixels (console s) g x y).
Proof.
  intros Hg Hx Hy. destruct (fill_rect_drawn x y 12 16 (background (console s)) s) as (s1 & Hf & H1); [done|lia..|].
  pose proof (proj1 H1) as Hc. destruct (draw_glyph_drawn s1 (x + 2) (y + 2) (g_ch g) (style_color (console s) (g_style g))) as (s2 & Hd & H2);
    [by apply (drawn_geometry s s1 _ H1)|rewrite Hc; lia..|].
  exists s1, s2. split; [done|]. split; [done|]. split; [done|]. apply (drawn_trans s s1 s2 _ _ _ H1 H2). intros px py _. rewrite Hc.
  unfold cell_pixels, cell_color. replace (px - (x + 2)) with (px - x - 2) by lia. replace (py - (y + 2)) with (py - y - 2) by lia.
  destruct (inked (glyph_rows (g_ch g)) (px - x - 2) (py - y - 2)) eqn:Hi; [|done].
  unfold inked in Hi. bool_prop. unfold in_rect.
  by rewrite (proj2 (Z.leb_le x px)), (proj2 (Z.ltb_lt px _)), (proj2 (Z.leb_le y py)), (proj2 (Z.ltb_lt py _)) by lia.
Qed.

Lemma space_blank dx dy : inked (glyph_rows 32) dx dy = false.
Proof.
  unfold inked. assert (nth (Z.to_nat (dy / 2)) (glyph_rows 32) 0 = 0) as ->; [|by rewrite Z.bits_0, andb_false_r].
  change (glyph_rows 32) with [0; 0; 0; 0; 0; 0; 0]. by destruct (Z.to_nat (dy / 2)) as [|[|[|[|[|[|[|[|n]]]]]]]].
Qed.

(** A blank cell needs no glyph. *)
Lemma blank_cell_drawn s x y g : geometry s -> g_ch g = 32 ->
  0 <= x /\ x + 12 <= fr_width (framebuffer (console s)) -> 0 <= y /\ y + 16 <= fr_height (framebuffer (console s)) ->
  exists s1, fill_rect (E:=E) x y 12 16 (background (console s)) s = (Ok tt, s1) /\ drawn s s1 (cell_pixels (console s) g x y).
Proof.
  intros Hg Hch Hx Hy. destruct (fill_rect_drawn x y 12 16 (background (console s)) s) as (s1 & Hf & H1); [done|lia..|].
  exists s1. split; [done|]. revert H1. apply drawn_ext. intros px py _. unfold cell_pixels, cell_color. rewrite Hch, space_blank. done.
Qed.

(** *** Scrolling *)
Lemma load_copied_line m dst n v o : 0 <= n ->
  load_fb (foldl (fun m' i => <[dst + i := v i]> m') m (seqZ 0 n)) o = (if (dst <=? o) && (o <? dst + n) then v (o - dst) else load_fb m o).
Proof.
  intros Hn. rewrite <- (Z2Nat.id n) by done. generalize (Z.to_nat n) as k. clear n Hn. induction k as [|k IH].
  { change (seqZ 0 (Z.of_nat 0)) with (@nil Z). cbn [foldl]. destruct (Z.leb_spec dst o), (Z.ltb_spec o (dst + Z.of_nat 0)); cbn [andb]; lia || done. }
  rewrite Nat2Z.inj_succ, <- Z.add_1_r, seqZ_app by lia. rewrite foldl_app. rewrite Z.add_0_l. unfold load_fb at 1.
  change (seqZ (Z.of_nat k) 1) with [0 + Z.of_nat k]. rewrite Z.add_0_l. cbn [foldl]. destruct (decide (dst + Z.of_nat k = o)) as [<-|Hne].
  - rewrite lookup_insert_eq. cbn [default]. rewrite (proj2 (Z.leb_le _ _)), (proj2 (Z.ltb_lt _ _)) by lia. cbn [andb]. unfold id. f_equal. lia.
  - rewrite lookup_insert_ne by done. fold (load_fb (foldl (fun m' i => <[dst + i := v i]> m') m (seqZ 0 (Z.of_nat k))) o). rewrite IH.
    destruct (Z.leb_spec dst o), (Z.ltb_spec o (dst + Z.of_nat k)), (Z.ltb_spec o (dst + (Z.of_nat k + 1))); cbn [andb]; lia || done.
Qed.

(** A pixel on the screen is the number its bytes hold. *)
Lemma read_pixel_bytes s px py : geometry s -> on_screen s px py ->
  read_pixel s px py = read_bytes (pixels s) (py * fr_pitch (framebuffer (console s)) + px * bytes_per_pixel (console s)) (Z.to_nat (bytes_per_pixel (console s))).
Proof.
  intros Hg [Hx Hy]. unfold read_pixel. rewrite (proj2 (Z.leb_gt _ _)), (proj2 (Z.leb_gt _ _)) by lia. cbn [orb].
  by rewrite (proj1 (pixel_offset_ok (console s) px py Hg Hx Hy)).
Qed.

Lemma copy_line_drawn s y lw : geometry s -> 0 <= y -> y + 16 < fr_height (framebuffer (console s)) -> 0 <= lw <= fr_width (framebuffer (console s)) ->
  exists s', copy_line (E:=E) ((y + 16) * fr_pitch (framebuffer (console s))) (y * fr_pitch (framebuffer (console s))) (lw * bytes_per_pixel (console s)) s = (Ok tt, s') /\
    drawn s s' (fun px py => if (py =? y) && (px <? lw) then Some (read_pixel s px (y + 16)) else None).
Proof.
  intros Hg Hy Hh Hlw. eexists. split; [reflexivity|]. match goal with |- drawn _ ?t _ => set (s' := t) end. pose proof Hg as (Hbpp & Hw & Hhp & Hp & Ht).
  assert (Hc : console s' = console s) by done. set (f := framebuffer (console s)) in *. set (bpp := bytes_per_pixel (console s)) in *.
  assert (Hload : forall o, load_fb (pixels s') o = if (y * fr_pitch f <=? o) && (o <? y * fr_pitch f + lw * bpp)
    then load_fb (pixels s) ((y + 16) * fr_pitch f + (o - y * fr_pitch f)) else load_fb (pixels s) o).
  { intros o. apply (load_copied_line (pixels s) (y * fr_pitch f) (lw * bpp) (fun i => load_fb (pixels s) ((y + 16) * fr_pitch f + i))). nia. }
  clearbody s'. assert (Hpp : 0 < fr_pitch f) by nia. split; [done|]. split.
  - intros o Ho. unfold fb_bytes in Ho. fold f in Ho. rewrite Hload. destruct (Z.leb_spec (y * fr_pitch f) o), (Z.ltb_spec o (y * fr_pitch f + lw * bpp)); cbn [andb]; try done. nia.
  - intros px py Hon. pose proof Hon as [Hpx Hpy]. fold f in Hpx, Hpy.
    rewrite (read_pixel_bytes s' px py) by (unfold geometry, on_screen; rewrite Hc; done). rewrite Hc. fold f bpp.
    destruct (Z.eqb_spec py y) as [->|Hne]; cbn [andb]; [destruct (Z.ltb_spec px lw) as [Hlt|Hge]|]; cbn [default].
    + unfold id. rewrite (read_pixel_bytes s px (y + 16) Hg) by (split; fold f; lia). fold f bpp. apply read_bytes_same. intros k Hk. rewrite Hload.
      rewrite (proj2 (Z.leb_le _ _)), (proj2 (Z.ltb_lt _ _)) by nia. cbn [andb]. f_equal. lia.
    + rewrite (read_pixel_bytes s px y Hg Hon). fold f bpp. apply read_bytes_same. intros k Hk. rewrite Hload.
      rewrite (proj2 (Z.ltb_ge _ _)) by nia. by rewrite andb_false_r.
    + rewrite (read_pixel_bytes s px py Hg Hon). fold f bpp. apply read_bytes_same. intros k Hk. rewrite Hload.
      destruct (Z.leb_spec (y * fr_pitch f) (py * fr_pitch f + px * bpp + k)), (Z.ltb_spec (py * fr_pitch f + px * bpp + k) (y * fr_pitch f + lw * bpp)); cbn [andb]; try done.
      exfalso. assert (px * bpp + k < fr_pitch f) by nia. assert (py < y \/ y < py) as [Hlt|Hgt] by lia; nia.
Qed.

(** *** The console's picture *)
Definition console_ok (c : FramebufferConsole) : Prop :=
  fb_geometry (framebuffer c) (bytes_per_pixel c) /\ log_origin_x c = 0 /\ log_origin_y c = 0 /\
  log_width c = columns c * 12 /\ log_height c = rows c * 16 /\ columns c * 12 <= fr_width (framebuffer c) /\ rows c * 16 <= fr_height (framebuffer c) /\
  1 <= columns c /\ 1 <= rows c /\ 0 <= cursor_column c <= columns c /\ 0 <= cursor_row c < rows c.

(** The grid of characters on the screen. *)
Definition grid := Z -> Z -> ConsoleGlyph.
Definition in_grid (c : FramebufferConsole) (row col : Z) : Prop := 0 <= row < rows c /\ 0 <= col < columns c.
Definition shows_grid (s : Screen) (g : grid) : Prop :=
  forall row col dx dy, in_grid (console s) row col -> 0 <= dx < 12 -> 0 <= dy < 16 ->
    read_pixel s (col * 12 + dx) (row * 16 + dy) = cell_color (console s) (g row col) dx dy.
Definition put_cell (row col : Z) (x : ConsoleGlyph) (g : grid) : grid := fun r c => if (r =? row) && (c =? col) then x else g r c.
Definition scrolled (rows_ : Z) (g : grid) : grid := fun r c => if r =? rows_ - 1 then glyph_empty else g (r + 1) c.
Definition blank_grid : grid := fun _ _ => glyph_empty.

(** A terminal: a cursor and a grid of characters. *)
Record Term : Type := mkTerm { tm_col : Z; tm_row : Z; tm_grid : grid }.
Definition term_newline (R : Z) (t : Term) : Term :=
  if R <=? tm_row t + 1 then mkTerm 0 (R - 1) (scrolled R (tm_grid t)) else mkTerm 0 (tm_row t + 1) (tm_grid t).
Definition term_char (C R : Z) (x : ConsoleGlyph) (t : Term) : Term :=
  let t := if C <=? tm_col t then term_newline R t else t in
  mkTerm (tm_col t + 1) (tm_row t) (put_cell (tm_row t) (tm_col t) x (tm_grid t)).
Definition term_one (C R : Z) (style : ConsoleStyle) (ch : Z) (t : Term) : Term :=
  if ch =? 13 then t else if ch =? 10 then term_newline R t
  else if ch =? 9 then Nat.iter 4 (term_char C R (mkGlyph 32 style)) t else term_char C R (mkGlyph ch style) t.
Definition term_write (C R : Z) (style : ConsoleStyle) (text : list Z) (t : Term) : Term := foldl (fun t ch => term_one C R style ch t) t text.

(** The screen is the one of [s], with another cursor and other pixels; no byte outside the frame buffer differs. *)
Definition same_screen (s s' : Screen) : Prop :=
  console s' = set_field cursor_row (cursor_row (console s')) (set_field cursor_column (cursor_column (console s')) (console s)) /\
  forall o, o < 0 \/ fb_bytes s <= o -> load_fb (pixels s') o = load_fb (pixels s) o.
(** The screen shows the terminal [t]. *)
Definition presents (s : Screen) (t : Term) : Prop :=
  console_ok (console s) /\ cursor_column (console s) = tm_col t /\ cursor_row (console s) = tm_row t /\ shows_grid s (tm_grid t).

Lemma same_screen_refl s : same_screen s s.
Proof. split; [by destruct (console s)|done]. Qed.
Lemma same_screen_trans s s1 s2 : same_screen s s1 -> same_screen s1 s2 -> same_screen s s2.
Proof.
  intros [Hc1 Ho1] [Hc2 Ho2]. split.
  - rewrite Hc2 at 1. rewrite Hc1. done.
  - intros o Ho. rewrite Ho2, Ho1; [done|done|]. unfold fb_bytes. rewrite Hc1. exact Ho.
Qed.
Lemma same_screen_size s s' : same_screen s s' -> columns (console s') = columns (console s) /\ rows (console s') = rows (console s).
Proof. intros [-> _]. done. Qed.

Lemma in_grid_screen s row col dx dy : console_ok (console s) -> in_grid (console s) row col -> 0 <= dx < 12 -> 0 <= dy < 16 ->
  on_screen s (col * 12 + dx) (row * 16 + dy).
Proof. intros (_ & _ & _ & _ & _ & Hw & Hh & _) [Hr Hc] Hdx Hdy. unfold on_screen. nia. Qed.

(** A drawing that turns the cells of [g] into those of [g']. *)
Lemma drawn_shows s s' F g g' : console_ok (console s) -> drawn s s' F ->
  (forall row col dx dy, in_grid (console s) row col -> 0 <= dx < 12 -> 0 <= dy < 16 ->
     default (cell_color (console s) (g row col) dx dy) (F (col * 12 + dx) (row * 16 + dy)) = cell_color (console s) (g' row col) dx dy) ->
  shows_grid s g -> shows_grid s' g'.
Proof.
  intros Hok (Hc & _ & Hd) HF Hs row col dx dy Hin Hdx Hdy. rewrite Hc in Hin |- *.
  rewrite Hd by (by apply in_grid_screen). rewrite Hs by done. by apply HF.
Qed.

(** A drawing followed by a move of the cursor. *)
Lemma drawn_presents s s1 F t : drawn s s1 F -> console_ok (console s) -> shows_grid s1 (tm_grid t) ->
  0 <= tm_col t <= columns (console s) -> 0 <= tm_row t < rows (console s) ->
  let s' := mkScreen (set_field cursor_row (tm_row t) (set_field cursor_column (tm_col t) (console s1))) (pixels s1) in
  same_screen s s' /\ presents s' t.
Proof.
  intros (Hc & Ho & _) Hok Hs Hcol Hrow s'. assert (Hs' : console s' = set_field cursor_row (tm_row t) (set_field cursor_column (tm_col t) (console s))) by (unfold s'; cbn [console]; by rewrite Hc).
  split; [split; [by rewrite Hs'|exact Ho]|]. split; [|split; [by rewrite Hs'|split; [by rewrite Hs'|]]].
  - rewrite Hs'. unfold console_ok in *. cbn. tauto.
  - intros r k dx dy Hin Hdx Hdy. specialize (Hs r k dx dy). unfold s'. unfold read_pixel, cell_color, in_grid, pixel_offset in *. cbn in *. by apply Hs.
Qed.

Lemma scroll_picture s : let c := console s in console_ok c ->
  exists s1, drawn s s1 (fun px py => if (py <? log_height c - 16) && (px <? log_width c) then Some (read_pixel s px (py + 16))
                          else if in_rect 0 (log_height c - 16) (log_width c) 16 px py then Some (shown (bytes_per_pixel c) (background c)) else None) /\
    fb_scroll_up (E:=E) s = (Ok tt, mkScreen (set_field cursor_row (rows c - 1) (console s1)) (pixels s1)).
Proof.
  intros c (Hg & Hox & Hoy & Hlw & Hlh & Hw & Hh & Hc1 & Hr1 & _). set (f := framebuffer c) in *. set (bpp := bytes_per_pixel c) in *.
  pose proof Hg as (Hbpp & Hwp & Hhp & Hp & Ht). assert (Hpp : 0 < fr_pitch f) by nia. assert (fr_height f < U64 /\ log_width c * bpp < U64) by nia.
  set (F y := fun px py => if (py <? y) && (px <? log_width c) then Some (read_pixel s px (py + 16)) else None).
  destruct (for_range_rule (E:=E) (fun y s' => drawn s s' (F y)) 0 (log_height c - 16) (fun y =>
        let! src_y := lift (add U64 y CHAR_HEIGHT) in
        let! src_line := lift (mul U64 src_y (fr_pitch f)) in
        let! left := lift (mul U64 (log_origin_x c) bpp) in
        let! src_offset := lift (add U64 src_line left) in
        let! dst_line := lift (mul U64 y (fr_pitch f)) in
        let! dst_offset := lift (add U64 dst_line left) in
        copy_line src_offset dst_offset (log_width c * bpp)) s) as (s1 & Hrun & H1); [nia| | |].
  - apply (drawn_ext s s (fun _ _ => None)); [|apply drawn_refl]. intros px py [_ Hpy]. unfold F. by rewrite (proj2 (Z.ltb_ge py 0)) by lia.
  - intros y s' Hy Hs'. pose proof (proj1 Hs') as Hc'. change CHAR_HEIGHT with 16. rewrite Hox. assert (0 <= y * fr_pitch f /\ (y + 16) * fr_pitch f < U64) by nia.
    unfold bind, lift. rewrite (add_ok U64 y 16) by lia. cbv beta iota. rewrite (mul_ok U64 (y + 16)) by lia. cbv beta iota. rewrite (mul_ok U64 0 bpp) by lia. cbv beta iota.
    rewrite add_ok by lia. cbv beta iota. rewrite (mul_ok U64 y) by lia. cbv beta iota. rewrite add_ok by lia. cbv beta iota. rewrite Z.mul_0_l, !Z.add_0_r.
    destruct (copy_line_drawn s' y (log_width c)) as (s'' & Hr & Hd); [by apply (drawn_geometry s s' _ Hs')|rewrite ?Hc'; fold c f; lia..|].
    rewrite Hc' in Hr. fold c f bpp in Hr. exists s''. split; [done|]. apply (drawn_trans s s' s'' _ _ _ Hs' Hd). intros px py [Hpx Hpy]. unfold F.
    destruct (Z.eqb_spec py y) as [->|Hne]; cbn [andb].
    + rewrite (proj2 (Z.ltb_lt y (y + 1))), (proj2 (Z.ltb_ge y y)) by lia. cbn [andb]. destruct (Z.ltb_spec px (log_width c)); [|done].
      destruct Hs' as (_ & _ & Hpix). rewrite Hpix by (split; fold c f in Hpx |- *; fold c f; lia). unfold F. by rewrite (proj2 (Z.ltb_ge (y + 16) y)) by lia.
    + replace (py <? y + 1) with (py <? y); [done|]. destruct (Z.ltb_spec py y), (Z.ltb_spec py (y + 1)); lia || done.
  - pose proof (proj1 H1) as Hc'. destruct (fill_rect_drawn 0 (log_height c - 16) (log_width c) 16 (background c) s1) as (s2 & Hf & H2);
      [by apply (drawn_geometry s s1 _ H1)|rewrite ?Hc'; fold c f; lia..|]. rewrite Hc' in H2. fold c bpp in H2.
    exists s2. split.
    + apply (drawn_trans s s1 s2 _ _ _ H1 H2). intros px py _. unfold F, in_rect.
      destruct (Z.ltb_spec py (log_height c - 16)); cbn [andb]; [|by destruct (_ && _)].
      rewrite (proj2 (Z.leb_gt (log_height c - 16) py)) by lia. by rewrite andb_false_r.
    + unfold fb_scroll_up, bind at 1, gets. fold c f. rewrite Hoy. change CHAR_HEIGHT with 16 in *. rewrite add_ok by nia. unfold bind at 1, lift at 1.
      rewrite Z.add_0_l, sub_ok by nia. unfold bind at 1, lift at 1. fold bpp. rewrite mul_ok by lia. unfold bind at 1, lift at 1.
      unfold bind at 1. rewrite Hrun. unfold bind at 1. rewrite Hox. rewrite Hf. rewrite sub_ok by lia. done.
Qed.

Lemma scroll_presents s t : presents s t ->
  exists s', fb_scroll_up (E:=E) s = (Ok tt, s') /\ same_screen s s' /\ presents s' (mkTerm (tm_col t) (rows (console s) - 1) (scrolled (rows (console s)) (tm_grid t))).
Proof.
  intros (Hok & Hcol & Hrow & Hs). destruct (scroll_picture s Hok) as (s1 & Hd & Hrun). pose proof (proj1 Hd) as Hc.
  pose proof Hok as (_ & _ & _ & Hlw & Hlh & _ & _ & _ & Hr1 & Hcc & _).
  destruct (drawn_presents s s1 _ (mkTerm (tm_col t) (rows (console s) - 1) (scrolled (rows (console s)) (tm_grid t))) Hd Hok) as [Hsame Hpres]; [|cbn; lia..|].
  - cbn [tm_grid]. apply (drawn_shows s s1 _ (tm_grid t) _ Hok Hd); [|done]. intros row col dx dy Hin Hdx Hdy. destruct Hin as [Hr Hk]. unfold scrolled.
    destruct (Z.eqb_spec row (rows (console s) - 1)) as [->|Hne].
    + rewrite (proj2 (Z.ltb_ge _ _)) by lia. cbn [andb]. unfold in_rect.
      rewrite (proj2 (Z.leb_le 0 _)), (proj2 (Z.ltb_lt (col * 12 + dx) _)), (proj2 (Z.leb_le (log_height (console s) - 16) _)), (proj2 (Z.ltb_lt _ (log_height (console s) - 16 + 16))) by nia.
      cbn [andb default]. unfold id, cell_color, glyph_empty. cbn [g_ch g_style]. by rewrite space_blank.
    + rewrite (proj2 (Z.ltb_lt (row * 16 + dy) _)), (proj2 (Z.ltb_lt (col * 12 + dx) _)) by nia. cbn [andb default]. unfold id.
      replace (row * 16 + dy + 16) with ((row + 1) * 16 + dy) by lia. apply Hs; [split; lia|done|done].
  - eexists. split; [exact Hrun|]. replace (set_field cursor_row (rows (console s) - 1) (console s1))
      with (set_field cursor_row (rows (console s) - 1) (set_field cursor_column (tm_col t) (console s1))); [by split|].
    rewrite Hc, <- Hcol. by destruct (console s).
Qed.

(** Moving the cursor alone. *)
Lemma cursor_presents s t col row : presents s t -> 0 <= col <= columns (console s) -> 0 <= row < rows (console s) ->
  let s' := mkScreen (set_field cursor_row row (set_field cursor_column col (console s))) (pixels s) in
  same_screen s s' /\ presents s' (mkTerm col row (tm_grid t)).
Proof. intros (Hok & _ & _ & Hs) Hcol Hrow. by apply (drawn_presents s s (fun _ _ => None) (mkTerm col row (tm_grid t))). Qed.

Lemma new_line_presents s t : presents s t ->
  exists s', fb_new_line (E:=E) s = (Ok tt, s') /\ same_screen s s' /\ presents s' (term_newline (rows (console s)) t).
Proof.
  intros Hp. pose proof Hp as (Hok & Hcol & Hrow & Hs). pose proof Hok as (Hg & _ & _ & _ & _ & _ & Hh & Hc1 & Hr1 & Hcc & Hcr).
  destruct (cursor_presents s t 0 (tm_row t) Hp) as [Hsame Hpres]; [lia|lia|].
  assert (Hrec : set_field cursor_row (tm_row t) (set_field cursor_column 0 (console s)) = set_field cursor_column 0 (console s)) by (rewrite <- Hrow; by destruct (console s)).
  rewrite Hrec in Hsame, Hpres. set (s1 := mkScreen (set_field cursor_column 0 (console s)) (pixels s)) in *.
  unfold fb_new_line, bind at 1, modify at 1. change (upd console (set_field cursor_column 0) s) with s1. unfold bind at 1, gets.
  assert (Hrow1 : cursor_row (console s1) = tm_row t) by (by destruct Hpres as (_ & _ & -> & _)). rewrite Hrow1.
  destruct (geometry_bounds s Hg) as (_ & Hh64 & _). rewrite add_ok by lia. unfold bind at 1, lift at 1. change (rows (console s1)) with (rows (console s)).
  unfold term_newline. destruct (Z.leb_spec (rows (console s)) (tm_row t + 1)) as [Hend|Hmore].
  - destruct (scroll_presents s1 (mkTerm 0 (tm_row t) (tm_grid t)) Hpres) as (s2 & Hr & Hsame2 & Hp2). exists s2.
    split; [done|]. split; [by apply (same_screen_trans s s1 s2)|exact Hp2].
  - destruct (cursor_presents s1 (mkTerm 0 (tm_row t) (tm_grid t)) 0 (tm_row t + 1) Hpres) as [Hsame2 Hp2]; [cbn; lia|cbn; lia|].
    eexists. split; [reflexivity|]. split; [apply (same_screen_trans s s1 _ Hsame Hsame2)|exact Hp2].
Qed.

(** The corner of a cell is where the code computes it. *)
Lemma cell_corner s row col : console_ok (console s) -> in_grid (console s) row col ->
  cell_x (E:=E) (console s) col = Ok (col * 12) /\ cell_y (E:=E) (console s) row = Ok (row * 16) /\
  0 <= col * 12 /\ col * 12 + 12 <= fr_width (framebuffer (console s)) /\ 0 <= row * 16 /\ row * 16 + 16 <= fr_height (framebuffer (console s)).
Proof.
  intros (Hg & Hox & Hoy & _ & _ & Hw & Hh & _) [Hr Hc]. destruct (geometry_bounds s Hg) as (Hw64 & Hh64 & _).
  unfold cell_x, cell_y. change CHAR_WIDTH with 12. change CHAR_HEIGHT with 16. rewrite (mul_ok U64 col), (mul_ok U64 row) by nia. cbn [obind].
  rewrite Hox, Hoy, !add_ok by nia. rewrite !Z.add_0_l. repeat split; nia || done.
Qed.

(** Drawing a cell puts its character on the grid. *)
Lemma cell_shows s s' row col x g : console_ok (console s) -> in_grid (console s) row col ->
  drawn s s' (cell_pixels (console s) x (col * 12) (row * 16)) -> shows_grid s g -> shows_grid s' (put_cell row col x g).
Proof.
  intros Hok Hin Hd Hs. apply (drawn_shows s s' _ g _ Hok Hd); [|done]. intros r k dx dy [Hr Hk] Hdx Hdy. destruct Hin as [Hrow Hcol].
  unfold cell_pixels, put_cell, in_rect. destruct (Z.eqb_spec r row) as [->|Hne]; [destruct (Z.eqb_spec k col) as [->|Hne]|]; cbn [andb].
  - rewrite (proj2 (Z.leb_le (col * 12) _)), (proj2 (Z.ltb_lt (col * 12 + dx) _)), (proj2 (Z.leb_le (row * 16) _)), (proj2 (Z.ltb_lt (row * 16 + dy) _)) by lia.
    cbn [andb default]. unfold id. f_equal; lia.
  - destruct (Z.leb_spec (col * 12) (k * 12 + dx)), (Z.ltb_spec (k * 12 + dx) (col * 12 + 12)); cbn [andb]; lia || done.
  - destruct (Z.leb_spec (row * 16) (r * 16 + dy)), (Z.ltb_spec (r * 16 + dy) (row * 16 + 16)); rewrite ?andb_false_r; cbn [andb]; try lia; by rewrite ?andb_false_r.
Qed.

Lemma write_char_presents s t style ch : presents s t ->
  exists s', fb_write_char (E:=E) style ch s = (Ok tt, s') /\ same_screen s s' /\
    presents s' (term_char (columns (console s)) (rows (console s)) (mkGlyph ch style) t).
Proof.
  intros Hp. unfold fb_write_char, bind at 1, gets at 1. pose proof Hp as (_ & Hcol & _).
  assert (exists s1 t1, (if columns (console s) <=? cursor_column (console s) then fb_new_line (E:=E) else ret tt) s = (Ok tt, s1) /\
    t1 = (if columns (console s) <=? tm_col t then term_newline (rows (console s)) t else t) /\ same_screen s s1 /\ presents s1 t1 /\ tm_col t1 < columns (console s))
    as (s1 & t1 & Hr1 & Ht1 & Hsame1 & Hp1 & Hlt).
  { rewrite Hcol. destruct (Z.leb_spec (columns (console s)) (tm_col t)) as [Hfull|Hroom].
    - destruct (new_line_presents s t Hp) as (s1 & Hr & Hs & Hp1). exists s1, (term_newline (rows (console s)) t). split; [done|]. split; [done|]. split; [done|]. split; [done|].
      destruct Hp as (Hok & _). assert (1 <= columns (console s)) by (unfold console_ok in Hok; tauto). unfold term_newline. case_match; cbn; lia.
    - exists s, t. split; [done|]. split; [done|]. split; [apply same_screen_refl|done]. }
  unfold bind at 1. rewrite Hr1. unfold term_char. rewrite <- Ht1. clear Hr1 Ht1. destruct (same_screen_size s s1 Hsame1) as [HC HR].
  pose proof Hp1 as (Hok1 & Hcol1 & Hrow1 & Hs1). unfold bind at 1, gets at 1. rewrite Hcol1, Hrow1.
  assert (Hin : in_grid (console s1) (tm_row t1) (tm_col t1)) by (unfold console_ok in Hok1; split; lia).
  destruct (cell_corner s1 (tm_row t1) (tm_col t1) Hok1 Hin) as (Hx & Hy & Hbx). unfold bind at 1, lift at 1. rewrite Hx. unfold bind at 1, lift at 1. rewrite Hy.
  assert (Hg1 : geometry s1) by apply Hok1. destruct (geometry_bounds s1 Hg1) as (Hw64 & Hh64 & _).
  destruct (draw_cell_drawn s1 (tm_col t1 * 12) (tm_row t1 * 16) (mkGlyph ch style) Hg1 ltac:(lia) ltac:(lia)) as (s2 & s3 & Hf & Hd & Hc2 & Hdr).
  change CHAR_WIDTH with 12. change CHAR_HEIGHT with 16. change FONT_SCALE with 2. cbn [g_ch g_style] in Hd.
  unfold bind at 1. rewrite Hf. rewrite add_ok by lia. unfold bind at 1, lift at 1. rewrite add_ok by lia. unfold bind at 1, lift at 1. unfold bind at 1. rewrite Hd.
  pose proof (proj1 Hdr) as Hc3. rewrite add_ok by nia. unfold bind at 1, lift at 1.
  destruct (drawn_presents s1 s3 _ (mkTerm (tm_col t1 + 1) (tm_row t1) (put_cell (tm_row t1) (tm_col t1) (mkGlyph ch style) (tm_grid t1))) Hdr Hok1) as [Hsame3 Hp3].
  - cbn [tm_grid]. by apply (cell_shows s1).
  - cbn. lia.
  - cbn. destruct Hin. lia.
  - eexists. split; [reflexivity|]. cbn [tm_col tm_row] in Hsame3, Hp3.
    replace (upd console (set_field cursor_column (tm_col t1 + 1)) s3) with
      (mkScreen (set_field cursor_row (tm_row t1) (set_field cursor_column (tm_col t1 + 1) (console s3))) (pixels s3)).
    + split; [by apply (same_screen_trans s s1)|exact Hp3].
    + rewrite Hc3, <- Hrow1. destruct s3 as [c3 p3]. cbn in Hc3 |- *. rewrite Hc3. by destruct (console s1).
Qed.

Lemma write_one_presents s t style ch : presents s t ->
  exists s', fb_write_one (E:=E) style ch s = (Ok tt, s') /\ same_screen s s' /\ presents s' (term_one (columns (console s)) (rows (console s)) style ch t).
Proof.
  intros Hp. unfold fb_write_one, term_one. destruct (ch =? 13); [exists s; split; [done|]; split; [apply same_screen_refl|done]|].
  destruct (ch =? 10); [by apply new_line_presents|]. destruct (ch =? 9); [|by apply write_char_presents].
  destruct (for_range_rule (E:=E) (fun i s' => same_screen s s' /\ presents s' (Nat.iter (Z.to_nat i) (term_char (columns (console s)) (rows (console s)) (mkGlyph 32 style)) t))
    0 4 (fun _ => fb_write_char style 32) s) as (s' & Hr & Hs & Hp'); [lia|split; [apply same_screen_refl|done]| |by exists s'].
  intros i s1 Hi [Hs1 Hp1]. destruct (write_char_presents s1 _ style 32 Hp1) as (s2 & Hr & Hs2 & Hp2). exists s2. split; [done|].
  split; [by apply (same_screen_trans s s1)|]. destruct (same_screen_size s s1 Hs1) as [HC HR]. rewrite HC, HR in Hp2.
  replace (Z.to_nat (i + 1)) with (S (Z.to_nat i)) by lia. exact Hp2.
Qed.

Lemma write_str_presents s t style text : presents s t ->
  exists s', fb_write_str (E:=E) style text s = (Ok tt, s') /\ same_screen s s' /\ presents s' (term_write (columns (console s)) (rows (console s)) style text t).
Proof.
  intros Hp. unfold fb_write_str, term_write.
  apply (for_each_rule (E:=E) (fun done_ s' => same_screen s s' /\ presents s' (foldl (fun t ch => term_one (columns (console s)) (rows (console s)) style ch t) t done_))).
  - split; [apply same_screen_refl|done].
  - intros done_ ch rest s1 _ [Hs1 Hp1]. destruct (write_one_presents s1 _ style ch Hp1) as (s2 & Hr & Hs2 & Hp2). exists s2. split; [done|].
    split; [by apply (same_screen_trans s s1)|]. destruct (same_screen_size s s1 Hs1) as [HC HR]. rewrite HC, HR in Hp2. by rewrite foldl_app.
Qed.

Lemma presents_ext s c r g g' : (forall row col, in_grid (console s) row col -> g row col = g' row col) -> presents s (mkTerm c r g) -> presents s (mkTerm c r g').
Proof.
  intros Hgg (Hok & Hc & Hr & Hs). split; [done|]. split; [done|]. split; [done|]. intros row col dx dy Hin Hdx Hdy. cbn [tm_grid]. rewrite <- Hgg by done. by apply Hs.
Qed.

(** *** Clearing, and drawing a whole console *)
Lemma clear_presents s : console_ok (console s) ->
  exists s', clear_log_region (E:=E) s = (Ok tt, s') /\ same_screen s s' /\ presents s' (mkTerm 0 0 blank_grid).
Proof.
  intros Hok. pose proof Hok as (Hg & Hox & Hoy & Hlw & Hlh & Hw & Hh & Hc1 & Hr1 & _).
  destruct (fill_rect_drawn 0 0 (log_width (console s)) (log_height (console s)) (background (console s)) s) as (s1 & Hf & Hd); [done|lia..|].
  destruct (drawn_presents s s1 _ (mkTerm 0 0 blank_grid) Hd Hok) as [Hsame Hp]; [|cbn; lia..|].
  - intros row col dx dy Hin Hdx Hdy. pose proof Hd as (Hc & _ & Hpix). rewrite Hc in Hin |- *. rewrite Hpix by (by apply in_grid_screen).
    destruct Hin as [Hr Hk]. unfold in_rect.
    rewrite (proj2 (Z.leb_le 0 (col * 12 + dx))), (proj2 (Z.ltb_lt (col * 12 + dx) _)), (proj2 (Z.leb_le 0 (row * 16 + dy))), (proj2 (Z.ltb_lt (row * 16 + dy) _)) by lia.
    cbn [andb default]. unfold id, cell_color, blank_grid, glyph_empty. cbn [tm_grid g_ch g_style]. by rewrite space_blank.
  - unfold clear_log_region, bind at 1, gets. rewrite Hox, Hoy. unfold bind at 1. rewrite Hf. eexists. split; [reflexivity|]. by split.
Qed.

Lemma draw_cell_presents s t row col g : presents s t -> in_grid (console s) row col ->
  exists s', draw_console_cell (E:=E) row col g s = (Ok tt, s') /\ same_screen s s' /\ presents s' (mkTerm (tm_col t) (tm_row t) (put_cell row col g (tm_grid t))).
Proof.
  intros (Hok & Hcol & Hrow & Hs) Hin. assert (Hg : geometry s) by apply Hok. destruct (geometry_bounds s Hg) as (Hw64 & Hh64 & _).
  destruct (cell_corner s row col Hok Hin) as (Hx & Hy & Hb).
  assert (Hcur : 0 <= tm_col t <= columns (console s) /\ 0 <= tm_row t < rows (console s)) by (unfold console_ok in Hok; lia).
  assert (Hend : forall s', drawn s s' (cell_pixels (console s) g (col * 12) (row * 16)) ->
    same_screen s s' /\ presents s' (mkTerm (tm_col t) (tm_row t) (put_cell row col g (tm_grid t)))).
  { intros s' Hd. destruct (drawn_presents s s' _ (mkTerm (tm_col t) (tm_row t) (put_cell row col g (tm_grid t))) Hd Hok) as [H1 H2];
      [by apply (cell_shows s)|cbn; lia..|]. cbn [tm_col tm_row] in H1, H2. rewrite (proj1 Hd), <- Hcol, <- Hrow in H1, H2.
    assert (mkScreen (set_field cursor_row (cursor_row (console s)) (set_field cursor_column (cursor_column (console s)) (console s))) (pixels s') = s') as Heq.
    { destruct Hd as [Hc _]. destruct s' as [c' p']. cbn in Hc. subst c'. f_equal. by destruct (console s). }
    rewrite Heq in H1, H2. rewrite Hcol, Hrow in H2. done. }
  unfold draw_console_cell, bind at 1, gets. unfold bind at 1, lift at 1. rewrite Hx. unfold bind at 1, lift at 1. rewrite Hy.
  change CHAR_WIDTH with 12. change CHAR_HEIGHT with 16. change FONT_SCALE with 2. destruct (Z.eqb_spec (g_ch g) 32) as [Hsp|Hsp].
  - destruct (blank_cell_drawn s (col * 12) (row * 16) g Hg Hsp ltac:(lia) ltac:(lia)) as (s1 & Hf & Hd). unfold bind at 1. rewrite Hf. exists s1. split; [done|by apply Hend].
  - destruct (draw_cell_drawn s (col * 12) (row * 16) g Hg ltac:(lia) ltac:(lia)) as (s1 & s2 & Hf & Hd & _ & Hdr). unfold bind at 1. rewrite Hf.
    rewrite add_ok by lia. unfold bind at 1, lift at 1. rewrite add_ok by lia. unfold bind at 1, lift at 1. rewrite Hd. exists s2. split; [done|by apply Hend].
Qed.

(** The grid of a console of [cols] columns, clipped to the screen. *)
Definition cells_grid (cells : list ConsoleGlyph) (cols render_rows render_cols : Z) : grid := fun r c =>
  if (r <? render_rows) && (c <? render_cols) then default glyph_empty (cells !! Z.to_nat (r * cols + c)) else glyph_empty.

Lemma render_presents s cells cols rws ccol crow : console_ok (console s) -> 0 <= cols -> 1 <= rws -> 0 <= ccol -> 0 <= crow ->
  let rc := Z.min cols (columns (console s)) in let rr := Z.min rws (rows (console s)) in
  rr * cols < U64 ->
  exists s', fb_render_console (E:=E) cells cols rws ccol crow s = (Ok tt, s') /\ same_screen s s' /\
    presents s' (mkTerm (Z.min ccol rc) (Z.min crow (rr - 1)) (cells_grid cells cols rr rc)).
Proof.
  intros Hok Hcols Hrws Hcc Hcr rc rr Hover. destruct (clear_presents s Hok) as (s0 & Hrun0 & Hs0 & Hp0).
  assert (Hsize : 1 <= columns (console s) /\ 1 <= rows (console s)) by (unfold console_ok in Hok; tauto).
  set (part r k := fun r' c' => if (r' <? r) || ((r' =? r) && (c' <? k)) then cells_grid cells cols rr rc r' c' else glyph_empty).
  set (body row := for_range (E:=E) 0 rc (fun column => let index := sat_add U64 (sat_mul U64 row cols) column in
        draw_console_cell row column (default glyph_empty (cells !! Z.to_nat index)))).
  assert (Hrow : forall row s1, 0 <= row < rr -> same_screen s s1 /\ presents s1 (mkTerm 0 0 (part row 0)) ->
    exists s2, body row s1 = (Ok tt, s2) /\ same_screen s s2 /\ presents s2 (mkTerm 0 0 (part (row + 1) 0))).
  { intros row s1 Hr [Hs1 Hp1].
    destruct (for_range_rule (E:=E) (fun k s2 => same_screen s s2 /\ presents s2 (mkTerm 0 0 (part row k))) 0 rc
      (fun column => let index := sat_add U64 (sat_mul U64 row cols) column in draw_console_cell row column (default glyph_empty (cells !! Z.to_nat index))) s1)
      as (s2 & Hrun & Hs2 & Hp2); [lia|done| |].
    - intros k s2 Hk [Hs2 Hp2]. destruct (same_screen_size s s2 Hs2) as [HC HR].
      destruct (draw_cell_presents s2 _ row k (default glyph_empty (cells !! Z.to_nat (sat_add U64 (sat_mul U64 row cols) k))) Hp2) as (s3 & Hrun & Hs3 & Hp3); [split; lia|].
      exists s3. split; [done|]. split; [by apply (same_screen_trans s s2)|]. revert Hp3. apply presents_ext. intros r c [Hr' Hc']. cbn [tm_grid]. unfold put_cell, part.
      destruct (same_screen_size s2 s3 Hs3) as [HC3 HR3]. destruct (Z.eqb_spec r row) as [->|Hne]; cbn [andb].
      + rewrite (proj2 (Z.ltb_ge row row)) by lia. cbn [orb]. destruct (Z.eqb_spec c k) as [->|Hne].
        * rewrite (proj2 (Z.ltb_lt k (k + 1))) by lia. unfold cells_grid. rewrite (proj2 (Z.ltb_lt row rr)), (proj2 (Z.ltb_lt k rc)) by lia. cbn [andb].
          unfold sat_add, sat_mul. by replace (Z.min (Z.min (row * cols) (U64 - 1) + k) (U64 - 1)) with (row * cols + k) by nia.
        * replace (c <? k + 1) with (c <? k); [done|]. destruct (Z.ltb_spec c k), (Z.ltb_spec c (k + 1)); lia || done.
      + by rewrite orb_false_r.
    - exists s2. split; [exact Hrun|]. split; [done|]. revert Hp2. apply presents_ext. intros r c [Hr' Hc']. unfold part, cells_grid.
      destruct (same_screen_size s s2 Hs2) as [HC HR].
      destruct (Z.ltb_spec r row), (Z.eqb_spec r row), (Z.ltb_spec c rc), (Z.ltb_spec r (row + 1)), (Z.eqb_spec r (row + 1)), (Z.ltb_spec c 0), (Z.ltb_spec r rr); cbn [andb orb]; lia || done. }
  destruct (for_range_rule (E:=E) (fun row s1 => same_screen s s1 /\ presents s1 (mkTerm 0 0 (part row 0))) 0 rr body s0) as (s1 & Hrun1 & Hs1 & Hp1); [lia| |by intros; apply Hrow|].
  { split; [done|]. revert Hp0. apply presents_ext. intros r c [Hr' Hc']. unfold part.
    destruct (Z.ltb_spec r 0), (Z.eqb_spec r 0), (Z.ltb_spec c 0); cbn [andb orb]; lia || done. }
  destruct (same_screen_size s s1 Hs1) as [HC HR].
  destruct (cursor_presents s1 _ (Z.min ccol rc) (Z.min crow (rr - 1)) Hp1) as [Hs2 Hp2]; [lia|lia|].
  unfold fb_render_console, bind at 1, gets. fold rc rr. unfold bind at 1. rewrite Hrun0. unfold bind at 1. change (for_range 0 rr _) with (for_range (E:=E) 0 rr body). rewrite Hrun1.
  unfold sat_sub. rewrite Z.max_l by lia. eexists. split; [reflexivity|]. split; [by apply (same_screen_trans s s1)|]. revert Hp2. apply presents_ext.
  intros r c [Hr Hc]. cbn [tm_grid]. unfold part, cells_grid. destruct (Z.ltb_spec r rr), (Z.eqb_spec r rr), (Z.ltb_spec c 0), (Z.ltb_spec c rc); cbn [andb orb]; lia || done.
Qed.
End picture.

(** ** What a terminal shows of the text written to it

    The text is laid out in lines that wrap at [C] columns; the pair is the finished
    lines and the line the cursor is on. The screen shows the last [R] of them. *)
Definition TextLayout : Type := list (list ConsoleGlyph) * list ConsoleGlyph.
Definition lay_newline (p : TextLayout) : TextLayout := (p.1 ++ [p.2], []).
Definition lay_char (C : Z) (x : ConsoleGlyph) (p : TextLayout) : TextLayout := if C <=? len p.2 then (p.1 ++ [p.2], [x]) else (p.1, p.2 ++ [x]).
Definition lay_one (C : Z) (style : ConsoleStyle) (ch : Z) (p : TextLayout) : TextLayout :=
  if ch =? 13 then p else if ch =? 10 then lay_newline p
  else if ch =? 9 then Nat.iter 4 (lay_char C (mkGlyph 32 style)) p else lay_char C (mkGlyph ch style) p.
Definition lay_text (C : Z) (style : ConsoleStyle) (text : list Z) (p : TextLayout) : TextLayout := foldl (fun p ch => lay_one C style ch p) p text.

Definition lay_lines (p : TextLayout) : list (list ConsoleGlyph) := p.1 ++ [p.2].
Definition lay_top (R : Z) (p : TextLayout) : Z := Z.max 0 (len (lay_lines p) - R).
Definition view (R : Z) (p : TextLayout) : Term :=
  mkTerm (len p.2) (len p.1 - lay_top R p) (fun r c => default glyph_empty (lay_lines p !! Z.to_nat (lay_top R p + r) ≫= (fun l => l !! Z.to_nat c))).

(** Two terminals are the same up to the cells outside the grid. *)
Definition term_eq (C R : Z) (t t' : Term) : Prop :=
  tm_col t = tm_col t' /\ tm_row t = tm_row t' /\ forall r c, 0 <= r < R -> 0 <= c < C -> tm_grid t r c = tm_grid t' r c.

#[export] Instance term_eq_equivalence C R : Equivalence (term_eq C R).
Proof.
  split.
  - by intros t.
  - intros t t' (Hc & Hr & Hg). split; [done|]. split; [done|]. intros; symmetry; by apply Hg.
  - intros t t' t'' (Hc & Hr & Hg) (Hc' & Hr' & Hg'). split; [congruence|]. split; [congruence|]. intros; rewrite Hg, Hg'; auto.
Qed.

#[export] Instance term_newline_proper C R : Proper (term_eq C R ==> term_eq C R) (term_newline R).
Proof.
  intros t t' (Hc & Hr & Hg). unfold term_newline. rewrite Hr. destruct (R <=? tm_row t' + 1); split_and!; try done; cbn [tm_grid]; try lia.
  intros r c Hrr Hcc. unfold scrolled. destruct (Z.eqb_spec r (R - 1)); [done|]. apply Hg; lia.
Qed.

#[export] Instance term_char_proper C R x : Proper (term_eq C R ==> term_eq C R) (term_char C R x).
Proof.
  intros t t' Ht. unfold term_char. assert (Hcol : tm_col t = tm_col t') by apply Ht. rewrite Hcol.
  assert (Ht1 : term_eq C R (if C <=? tm_col t' then term_newline R t else t) (if C <=? tm_col t' then term_newline R t' else t')) by (destruct (C <=? tm_col t'); [by rewrite Ht|done]).
  destruct Ht1 as (Hc & Hr & Hg). split_and!; cbn [tm_col tm_row tm_grid]; [by rewrite Hc|done|]. intros r c Hrr Hcc. unfold put_cell. rewrite Hr, Hc.
  destruct (_ && _); [done|by apply Hg].
Qed.

#[export] Instance term_one_proper C R style ch : Proper (term_eq C R ==> term_eq C R) (term_one C R style ch).
Proof.
  intros t t' Ht. unfold term_one. destruct (ch =? 13); [done|]. destruct (ch =? 10); [by rewrite Ht|]. destruct (ch =? 9); [|by rewrite Ht]. do 4 apply term_char_proper. exact Ht.
Qed.

#[export] Instance term_write_proper C R style text : Proper (term_eq C R ==> term_eq C R) (term_write C R style text).
Proof.
  unfold term_write. induction text as [|ch text IH]; intros t t' Ht; cbn [foldl]; [done|]. apply IH. by rewrite Ht.
Qed.

Lemma presents_term_eq s t t' : term_eq (columns (console s)) (rows (console s)) t t' -> presents s t -> presents s t'.
Proof.
  intros (Hc & Hr & Hg) (Hok & Hcc & Hcr & Hs). split; [done|]. split; [by rewrite <- Hc|]. split; [by rewrite <- Hr|].
  intros row col dx dy Hin Hdx Hdy. rewrite <- Hg by apply Hin. by apply Hs.
Qed.

Lemma len_snoc {A} (l : list A) x : len (l ++ [x]) = len l + 1.
Proof. unfold len. rewrite length_app. cbn. lia. Qed.

Section history.
Context (C R : Z) (HC : 1 <= C) (HR : 1 <= R).

Lemma lay_lines_len p : len (lay_lines p) = len p.1 + 1.
Proof. unfold lay_lines. rewrite len_snoc. lia. Qed.

Lemma view_newline p : term_eq C R (term_newline R (view R p)) (view R (lay_newline p)).
Proof.
  assert (Hn : len (lay_lines (lay_newline p)) = len p.1 + 2) by (rewrite lay_lines_len; cbn [lay_newline fst]; rewrite len_snoc; lia).
  pose proof (lay_lines_len p) as Hl. pose proof (len_nonneg p.1).
  assert (Hlines : lay_lines (lay_newline p) = lay_lines p ++ [[]]) by done.
  assert (Hlook : forall k c, 0 <= k <= len (lay_lines p) -> default glyph_empty ((lay_lines p ++ [[]]) !! Z.to_nat k ≫= (fun l => l !! Z.to_nat c))
    = default glyph_empty (lay_lines p !! Z.to_nat k ≫= (fun l => l !! Z.to_nat c))).
  { intros k c Hk. destruct (decide (k < len (lay_lines p))); [by rewrite lookup_app_l by (unfold len in *; lia)|].
    rewrite (lookup_ge_None_2 (lay_lines p)) by (unfold len in *; lia). rewrite lookup_app_r by (unfold len in *; lia).
    replace (Z.to_nat k - length (lay_lines p))%nat with O by (unfold len in *; lia). done. }
  unfold term_newline, view. cbn [tm_row tm_grid]. rewrite Hlines. unfold lay_top. rewrite Hn, Hl. cbn [lay_newline fst snd]. rewrite len_snoc. change (len (@nil ConsoleGlyph)) with 0.
  destruct (Z.leb_spec R (len p.1 - Z.max 0 (len p.1 + 1 - R) + 1)); (split; [done|]; split; [cbn [tm_row]; lia|]; cbn [tm_grid]; intros r c Hr Hc).
  - replace (Z.max 0 (len p.1 + 2 - R)) with (Z.max 0 (len p.1 + 1 - R) + 1) by lia. rewrite Hlook by lia. unfold scrolled.
    destruct (Z.eqb_spec r (R - 1)) as [->|Hne]; [|by replace (Z.max 0 (len p.1 + 1 - R) + 1 + r) with (Z.max 0 (len p.1 + 1 - R) + (r + 1)) by lia]. rewrite lookup_ge_None_2 by (unfold len in *; lia). done.
  - replace (Z.max 0 (len p.1 + 2 - R)) with 0 by lia. replace (Z.max 0 (len p.1 + 1 - R)) with 0 by lia.
    destruct (decide (r <= len (lay_lines p))); [by rewrite Hlook by lia|]. rewrite !lookup_ge_None_2; [done|..]; rewrite ?length_app; unfold len in *; cbn; lia.
Qed.

Lemma view_put x p : len p.2 < C -> term_eq C R (let t := view R p in mkTerm (tm_col t + 1) (tm_row t) (put_cell (tm_row t) (tm_col t) x (tm_grid t))) (view R (p.1, p.2 ++ [x])).
Proof.
  intros Hlt. pose proof (lay_lines_len p) as Hl. pose proof (lay_lines_len (p.1, p.2 ++ [x])) as Hl'. pose proof (len_nonneg p.1). pose proof (len_nonneg p.2).
  cbn [fst] in Hl'. unfold view, lay_top. rewrite Hl, Hl'. cbn [fst snd tm_col tm_row tm_grid]. rewrite len_snoc.
  split; [cbn; lia|]. split; [cbn; lia|]. cbn [tm_grid]. intros r c Hr Hc. unfold put_cell. set (top := Z.max 0 (len p.1 + 1 - R)).
  unfold lay_lines. cbn [fst snd]. destruct (Z.eqb_spec r (len p.1 - top)) as [->|Hne]; cbn [andb].
  - replace (Z.to_nat (top + (len p.1 - top))) with (length p.1) by (unfold len; lia). rewrite !list_lookup_middle by done. cbn [mbind option_bind].
    destruct (Z.eqb_spec c (len p.2)) as [->|Hnc].
    + unfold len. rewrite Nat2Z.id. by rewrite list_lookup_middle by done.
    + destruct (decide (c < len p.2)); [by rewrite lookup_app_l by (unfold len in *; lia)|].
      rewrite !lookup_ge_None_2; [done|..]; rewrite ?length_app; unfold len in *; cbn; lia.
  - destruct (decide (top + r < len p.1)); [by rewrite !lookup_app_l by (unfold len in *; lia)|].
    rewrite !lookup_ge_None_2; [done|..]; rewrite ?length_app; unfold len, top in *; cbn; lia.
Qed.

Definition lay_ok (p : TextLayout) : Prop := len p.2 <= C.

Lemma view_char x p : lay_ok p -> term_eq C R (term_char C R x (view R p)) (view R (lay_char C x p)) /\ lay_ok (lay_char C x p).
Proof.
  intros Hp. unfold lay_ok, term_char, lay_char in *. cbn [view tm_col]. fold (view R p). destruct (Z.leb_spec C (len p.2)) as [H|H].
  - split; [|unfold len; cbn; lia]. change (p.1 ++ [p.2], [x]) with ((lay_newline p).1, (lay_newline p).2 ++ [x]).
    rewrite <- (view_put x (lay_newline p)) by (unfold len; cbn; lia). destruct (view_newline p) as (Hc & Hr & Hg). cbv zeta.
    split; [cbn [tm_col]; by rewrite Hc|]. split; [cbn [tm_row]; by rewrite Hr|]. cbn [tm_grid]. intros r c Hrr Hcc. unfold put_cell. rewrite Hc, Hr. destruct (_ && _); [done|by apply Hg].
  - split; [by apply view_put|]. cbn [snd]. rewrite len_snoc. lia.
Qed.

Lemma view_one style ch p : lay_ok p -> term_eq C R (term_one C R style ch (view R p)) (view R (lay_one C style ch p)) /\ lay_ok (lay_one C style ch p).
Proof.
  intros Hp. unfold term_one, lay_one. destruct (ch =? 13); [done|]. destruct (ch =? 10); [split; [apply view_newline|unfold lay_ok, len; cbn; lia]|].
  destruct (ch =? 9); [|by apply view_char]. generalize 4%nat. intros n. induction n as [|n IH]; cbn [Nat.iter nat_rect]; [done|]. destruct IH as [IH1 IH2].
  destruct (view_char (mkGlyph 32 style) _ IH2) as [H1 H2]. split; [|done]. etransitivity; [|exact H1]. by apply term_char_proper.
Qed.

(** Writing a text: the terminal shows the end of what was written. *)
Lemma view_text style text p : lay_ok p -> term_eq C R (term_write C R style text (view R p)) (view R (lay_text C style text p)) /\ lay_ok (lay_text C style text p).
Proof.
  revert p. unfold term_write, lay_text. induction text as [|ch text IH]; intros p Hp; cbn [foldl]; [done|]. destruct (view_one style ch p Hp) as [H1 H2].
  destruct (IH _ H2) as [H3 H4]. split; [|done]. etransitivity; [|exact H3]. by apply term_write_proper.
Qed.

Lemma view_blank : term_eq C R (mkTerm 0 0 blank_grid) (view R ([], [])).
Proof.
  unfold view, lay_top. change (len (lay_lines ([], []))) with 1. split; [done|]. split; [unfold len; cbn; lia|]. cbn [tm_grid]. intros r c Hr Hc.
  replace (Z.max 0 (1 - R)) with 0 by lia. rewrite Z.add_0_l. unfold lay_lines. cbn [fst snd app]. by destruct (Z.to_nat r) as [|[|n]].
Qed.
End history.

(** ** Bringing the console up *)
Lemma pack_channel_ok {E} v size shift : 0 <= v <= 255 -> 0 <= size <= 24 -> 0 <= shift < 32 -> exists z, pack_channel (E:=E) v size shift = Ok z /\ 0 <= z < U32.
Proof.
  intros Hv Hs Hsh. unfold pack_channel. destruct (Z.eqb_spec size 0); [by exists 0|]. rewrite (proj2 (Z.leb_gt 32 size)) by lia. cbn [obind].
  rewrite Z.shiftl_1_l. assert (1 <= 2 ^ size <= 2 ^ 24) by (split; [apply (Z.pow_le_mono_r 2 0)|apply Z.pow_le_mono_r]; lia).
  rewrite sub_ok by lia. cbn [obind]. rewrite mul_ok by nia. cbn [obind]. rewrite add_ok by nia. cbn [obind]. rewrite (proj2 (Z.leb_gt 32 shift)) by lia.
  eexists. split; [reflexivity|]. apply Z.mod_pos_bound. lia.
Qed.

Definition masks_ok (f : Framebuffer) : Prop :=
  (0 <= red_mask_size f <= 24 /\ 0 <= red_mask_shift f < 32) /\ (0 <= green_mask_size f <= 24 /\ 0 <= green_mask_shift f < 32) /\
  (0 <= blue_mask_size f <= 24 /\ 0 <= blue_mask_shift f < 32).

Lemma pack_rgb_ok {E} f r g b : masks_ok f -> 0 <= r <= 255 -> 0 <= g <= 255 -> 0 <= b <= 255 -> exists z, pack_rgb (E:=E) f r g b = Ok z.
Proof.
  intros ((? & ?) & (? & ?) & ? & ?) Hr Hg Hb. unfold pack_rgb.
  destruct (pack_channel_ok (E:=E) r (red_mask_size f) (red_mask_shift f)) as (zr & -> & _); [done..|]. cbn [obind].
  destruct (pack_channel_ok (E:=E) g (green_mask_size f) (green_mask_shift f)) as (zg & -> & _); [done..|]. cbn [obind].
  destruct (pack_channel_ok (E:=E) b (blue_mask_size f) (blue_mask_shift f)) as (zb & -> & _); [done..|]. by eexists.
Qed.

(** A frame buffer the console accepts. *)
Definition fb_accepted (f : Framebuffer) : Prop :=
  fr_address f <> 0 /\ fr_memory_model f = LIMINE_FRAMEBUFFER_RGB /\ 48 <= fr_width f /\ 64 <= fr_height f /\ masks_ok f /\ fb_geometry f ((fr_bpp f + 7) / 8).

Lemma fb_new_ok f : fb_accepted f -> exists c, fb_new f ((fr_bpp f + 7) / 8) = Ok c /\ framebuffer c = f /\ bytes_per_pixel c = (fr_bpp f + 7) / 8 /\
  console_ok c /\ columns c = fr_width f / 12 /\ rows c = fr_height f / 16.
Proof.
  intros (_ & _ & Hw & Hh & Hm & Hg). unfold fb_new. change (CHAR_WIDTH * 4) with 48. change (CHAR_HEIGHT * 4) with 64.
  rewrite (proj2 (Z.ltb_ge (fr_width f) 48)), (proj2 (Z.ltb_ge (fr_height f) 64)) by lia. cbn [orb].
  repeat (match goal with |- context [pack_rgb f ?r ?g ?b] => destruct (pack_rgb_ok (E:=FramebufferError) f r g b Hm ltac:(lia) ltac:(lia) ltac:(lia)) as (? & ->) end; cbn [obind]).
  eexists. split; [reflexivity|]. split; [done|]. split; [done|]. split; [|done].
  unfold console_ok. cbn [framebuffer bytes_per_pixel log_origin_x log_origin_y log_width log_height columns rows cursor_column cursor_row].
  change CHAR_WIDTH with 12. change CHAR_HEIGHT with 16.
  assert (4 <= fr_width f / 12) by (apply Z.div_le_lower_bound; lia). assert (4 <= fr_height f / 16) by (apply Z.div_le_lower_bound; lia).
  pose proof (Z.mul_div_le (fr_width f) 12). pose proof (Z.mul_div_le (fr_height f) 16). split; [done|]. lia.
Qed.

Lemma clear_screen_run {E} s color : console_ok (console s) ->
  exists s', fb_clear (E:=E) color s = (Ok tt, s') /\ same_screen s s' /\ console s' = console s.
Proof.
  intros Hok. pose proof Hok as (Hg & _). unfold fb_clear, bind, gets.
  destruct (fill_rect_drawn (E:=E) 0 0 (fr_width (framebuffer (console s))) (fr_height (framebuffer (console s))) color s Hg) as (s' & Hrun & Hc & Hout & _);
    [unfold fb_geometry in Hg; lia..|].
  exists s'. split; [done|]. split; [|done]. split; [|done]. rewrite Hc. by destruct (console s).
Qed.

Lemma fb_initialize_run f s : fb_accepted f ->
  exists su c s', fb_initialize f s = (Ok su, s') /\ fb_console s' = Some c /\ fb_physical_address s' = fb_physical_address s /\
    framebuffer c = f /\ columns c = fr_width f / 12 /\ rows c = fr_height f / 16 /\
    presents (mkScreen c (fb_memory s')) (mkTerm 0 0 blank_grid) /\
    forall o, o < 0 \/ fr_pitch f * fr_height f <= o -> load_fb (fb_memory s') o = load_fb (fb_memory s) o.
Proof.
  intros Hacc. pose proof Hacc as (Ha & Hmm & Hw & Hh & Hm & Hg). destruct (fb_new_ok f Hacc) as (c & Hnew & Hf & Hbpp & Hok & HC & HR).
  unfold fb_initialize. rewrite (proj2 (Z.eqb_neq _ _) Ha), Hmm, Z.eqb_refl. cbn [negb].
  replace (((fr_bpp f + 7) / 8 <? 3) || (4 <? (fr_bpp f + 7) / 8)) with false by (destruct Hg as [[-> | ->] _]; done).
  unfold bind at 1, lift. rewrite Hnew. set (s0 := mkScreen c (fb_memory s)). unfold paint_boot_surface, bind at 1, gets.
  destruct (clear_screen_run (E:=FramebufferError) s0 (background c) Hok) as (s1 & Hr1 & Hs1 & Hc1). unfold bind at 1. change (console s0) with c. rewrite Hr1.
  destruct (clear_presents (E:=FramebufferError) s1) as (s2 & Hr2 & Hs2 & Hp2); [by rewrite Hc1|]. rewrite Hr2. eexists _, (console s2), _. split; [reflexivity|].
  cbn [fb_console fb_memory fb_physical_address]. split; [done|]. split; [done|]. pose proof (same_screen_trans _ _ _ Hs1 Hs2) as [Hc Hout].
  assert (framebuffer (console s2) = f /\ columns (console s2) = fr_width f / 12 /\ rows (console s2) = fr_height f / 16) as (-> & -> & ->) by (rewrite Hc; done).
  split; [done|]. split; [done|]. split; [done|]. split; [by destruct s2|]. unfold fb_bytes in Hout. cbn in Hout. rewrite Hf in Hout. exact Hout.
Qed.

(** The layout of several writes, each in its style. *)
Definition lay_writes (C : Z) (writes : list (ConsoleStyle * list Z)) : TextLayout := foldl (fun p w => lay_text C w.1 w.2 p) ([], []) writes.

Lemma writes_present {E} writes s : presents s (mkTerm 0 0 blank_grid) ->
  exists s', for_each writes (fun w => fb_write_str (E:=E) w.1 w.2) s = (Ok tt, s') /\ same_screen s s' /\
    presents s' (view (rows (console s)) (lay_writes (columns (console s)) writes)).
Proof.
  intros Hp. assert (Hsz : 1 <= columns (console s) /\ 1 <= rows (console s)) by (destruct Hp as [Hok _]; unfold console_ok in Hok; lia).
  destruct (for_each_rule (E:=E) (fun pre s' => same_screen s s' /\ lay_ok (columns (console s)) (lay_writes (columns (console s)) pre) /\
    presents s' (view (rows (console s)) (lay_writes (columns (console s)) pre))) writes (fun w => fb_write_str w.1 w.2) s) as (s' & Hrun & Hs & _ & Hp').
  - split; [apply same_screen_refl|]. split; [unfold lay_ok, len; cbn; lia|]. eapply presents_term_eq; [|exact Hp]. apply view_blank; lia.
  - intros pre [style text] rest s1 _ (Hs1 & Hl1 & Hp1). destruct (write_str_presents (E:=E) s1 _ style text Hp1) as (s2 & Hrun & Hs2 & Hp2). exists s2. split; [done|].
    split; [by apply (same_screen_trans s s1)|]. destruct (same_screen_size s s1 Hs1) as [HC HR], (same_screen_size s s2) as [HC2 HR2]; [by apply (same_screen_trans s s1)|].
    rewrite HC, HR in Hp2. destruct (view_text (columns (console s)) (rows (console s)) (proj1 Hsz) style text _ Hl1) as [Ht Hl2].
    unfold lay_writes in *. rewrite foldl_app. cbn [foldl fst snd]. split; [done|]. eapply presents_term_eq; [|exact Hp2]. by rewrite HC2, HR2.
  - exists s'. done.
Qed.

(** C34. A frame buffer console that is brought up on an accepted frame buffer and
    written to, in any sequence of styled texts, never fails and shows, pixel by
    pixel, the last rows of the text wrapped at its columns, every character as its
    glyph in the colour of its style; no byte outside the frame buffer changes. *)
Theorem fb_console_shows_text (f : Framebuffer) (s : FbState) (writes : list (ConsoleStyle * list Z))
    (Hacc : fb_accepted f) :
  exists su s1 s2 c, fb_initialize f s = (Ok su, s1) /\
    for_each writes (fun w => fb_write_style (E:=FramebufferError) w.1 w.2) s1 = (Ok tt, s2) /\
    fb_console s2 = Some c /\ columns c = fr_width f / 12 /\ rows c = fr_height f / 16 /\
    presents (mkScreen c (fb_memory s2)) (view (fr_height f / 16) (lay_writes (fr_width f / 12) writes)) /\
    forall o, o < 0 \/ fr_pitch f * fr_height f <= o -> load_fb (fb_memory s2) o = load_fb (fb_memory s) o.
Proof.
  destruct (fb_initialize_run f s Hacc) as (su & c & s1 & Hi & Hc1 & Hpa & Hf & HC & HR & Hp & Hout).
  destruct (writes_present (E:=FramebufferError) writes _ Hp) as (sc & Hrun & Hs & Hp'). cbn [console] in Hp'. rewrite HC, HR in Hp'.
  assert (Hlift : forall ws s0 c0 o sc', fb_console s0 = Some c0 -> for_each ws (fun w => fb_write_str (E:=FramebufferError) w.1 w.2) (mkScreen c0 (fb_memory s0)) = (o, sc') ->
    for_each ws (fun w => fb_write_style w.1 w.2) s0 = (o, mkFbState (Some (console sc')) (pixels sc') (fb_physical_address s0))).
  { induction ws as [|[st t] ws IH]; intros s0 c0 o sc' Hc0; cbn [for_each].
    - intros [= <- <-]. cbn. rewrite <- Hc0. by destruct s0.
    - unfold bind, fb_write_style at 1, on_console. rewrite Hc0. destruct (fb_write_str _ _ _) as [[[]|e| |] sc1]; [|by intros [= <- <-]..].
      intros Hrest. destruct sc1 as [c1 m1]. by apply (IH (mkFbState (Some c1) m1 (fb_physical_address s0)) c1). }
  exists su, s1. eexists _, (console sc). split; [done|]. split; [by apply (Hlift writes s1 c)|]. split; [done|]. destruct (same_screen_size _ _ Hs) as [HC' HR']. cbn in HC', HR'.
  split; [congruence|]. split; [congruence|]. split; [by destruct sc|]. intros o Ho. cbn [fb_memory]. destruct Hs as [_ Hso]. rewrite <- (Hout o Ho). apply Hso.
  unfold fb_bytes. cbn. by rewrite Hf.
Qed.

(** A small true-colour screen. *)
Definition demo_fb : Framebuffer := mkFramebuffer 0xe0000000 96 80 384 32 1 8 16 8 8 8 0.
Lemma demo_fb_accepted : fb_accepted demo_fb.
Proof. unfold fb_accepted, masks_ok, fb_geometry. vm_compute. intuition (congruence || lia). Qed.
Lemma fb_console_shows_text_witness : exists su s1 s2 c, fb_initialize demo_fb (mkFbState None ∅ 0) = (Ok su, s1) /\
    for_each [(StAccent, lit "HXNU")] (fun w => fb_write_style (E:=FramebufferError) w.1 w.2) s1 = (Ok tt, s2) /\
    fb_console s2 = Some c /\ columns c = 96 / 12 /\ rows c = 80 / 16 /\
    presents (mkScreen c (fb_memory s2)) (view (80 / 16) (lay_writes (96 / 12) [(StAccent, lit "HXNU")])) /\
    forall o, o < 0 \/ 384 * 80 <= o -> load_fb (fb_memory s2) o = load_fb (∅ : gmap Z Z) o.
Proof. exact (fb_console_shows_text demo_fb (mkFbState None ∅ 0) [(StAccent, lit "HXNU")] demo_fb_accepted). Defined.
