(* ===== verification/Tty.v ===== *)
(** * The terminal: [kernel/src/tty.rs]

    Four virtual consoles, each a grid of cells with a cursor; the active one is
    also on the serial line and, once there is one, on the frame buffer. A text is
    the list of its characters (code points); [str_bytes] is its UTF-8.

    [Con] is the state the terminal works on: its own global, the frame buffer's,
    the kernel heap (a redraw copies the cells into a [Vec]) and the serial port. *)
From stdpp Require Import base list numbers option strings gmap.
From Stdlib Require Import ZArith Lia Bool.
From S2P Require Import Prelude Paths Text Frame Heap Serial Font Fb.

Definition OUTPUT_SERIAL : Z := Z.shiftl 1 0.
Definition OUTPUT_FRAMEBUFFER : Z := Z.shiftl 1 1.
Definition LOG_CONSOLE_ID : Z := 0.
Definition VIRTUAL_CONSOLE_COUNT : Z := 4.
Definition DEFAULT_COLUMNS : Z := 80.
Definition DEFAULT_ROWS : Z := 25.
Definition MAX_COLUMNS : Z := 160.
Definition MAX_ROWS : Z := 70.
Definition MAX_CELLS : Z := MAX_COLUMNS * MAX_ROWS.

(** ** Text *)

(** [char::encode_utf8] *)
Definition encode_char (ch : Z) : list Z :=
  if ch <? 0x80 then [ch]
  else if ch <? 0x800 then [0xc0 + ch / 64; 0x80 + ch mod 64]
  else if ch <? 0x10000 then [0xe0 + ch / 4096; 0x80 + ch / 64 mod 64; 0x80 + ch mod 64]
  else [0xf0 + ch / 262144; 0x80 + ch / 4096 mod 64; 0x80 + ch / 64 mod 64; 0x80 + ch mod 64].
Definition str_bytes (text : list Z) : list Z := concat (encode_char <$> text).
(** [text.len()] and the number of line feeds among the bytes. *)
Definition str_len (text : list Z) : Z := len (str_bytes text).
Definition newline_count (text : list Z) : Z := len (filter (fun byte => byte = 10) (str_bytes text)).

(** ** Data *)
Inductive TtyStyle : Type := Default | Accent | Success | Warning | Error | Fatal | Muted.
Record TtyGlyph : Type := mkTtyGlyph { tg_ch : Z; tg_style : TtyStyle }.
Definition tty_glyph_empty : TtyGlyph := mkTtyGlyph 32 Default.

Record TtyBootstrap : Type := mkBootstrap {
  tb_console_id : Z; tb_output_count : Z; framebuffer_output : bool; tb_virtual_console_count : Z; tb_columns : Z; tb_rows : Z }.
Record TtyStats : Type := mkStats {
  st_console_id : Z; st_output_count : Z; st_bytes_written : Z; st_lines_written : Z; st_virtual_console_count : Z; st_columns : Z; st_rows : Z }.

(** [TtyError], and the call of the allocation error handler, which does not return. *)
Inductive TtyExit : Type := InvalidConsole | AllocError (layout : Layout).

Record VirtualConsole : Type := mkVc {
  vc_columns : Z; vc_rows : Z; vc_cursor_column : Z; vc_cursor_row : Z; vc_bytes_written : Z; vc_lines_written : Z; vc_cells : list TtyGlyph }.
#[export] Instance VirtualConsole_eta : RecordEta VirtualConsole := fun v =>
  mkVc (vc_columns v) (vc_rows v) (vc_cursor_column v) (vc_cursor_row v) (vc_bytes_written v) (vc_lines_written v) (vc_cells v).

Definition vc_new : VirtualConsole := mkVc DEFAULT_COLUMNS DEFAULT_ROWS 0 0 0 0 (replicate (Z.to_nat MAX_CELLS) tty_glyph_empty).

Record TtyConsole : Type := mkTty {
  tty_initialized : bool; active_console_id : Z; outputs : Z; tty_bytes_written : Z; tty_lines_written : Z; tty_columns : Z; tty_rows : Z;
  consoles : list VirtualConsole }.
#[export] Instance TtyConsole_eta : RecordEta TtyConsole := fun t =>
  mkTty (tty_initialized t) (active_console_id t) (outputs t) (tty_bytes_written t) (tty_lines_written t) (tty_columns t) (tty_rows t) (consoles t).
Definition tty_new : TtyConsole :=
  mkTty false 0 OUTPUT_SERIAL 0 0 DEFAULT_COLUMNS DEFAULT_ROWS (replicate (Z.to_nat VIRTUAL_CONSOLE_COUNT) vc_new).

Definition output_count (outputs : Z) : Z :=
  (if negb (Z.land outputs OUTPUT_SERIAL =? 0) then 1 else 0) + (if negb (Z.land outputs OUTPUT_FRAMEBUFFER =? 0) then 1 else 0).

(** ** A virtual console *)
Section console.
Context {E : Type}.
Let V (A : Type) : Type := M VirtualConsole E A.

(** [cells[i] = g] *)
Definition set_cell (i : Z) (g : TtyGlyph) : V unit :=
  let! cells := gets vc_cells in
  if (0 <=? i) && (i <? len cells) then modify (set_field vc_cells (<[Z.to_nat i := g]> cells)) else panic.

Definition vc_clear : V unit :=
  do! modify (set_field vc_cursor_column 0) in
  do! modify (set_field vc_cursor_row 0) in
  modify (upd vc_cells (fun cells => replicate (length cells) tty_glyph_empty)).

Definition configure (columns rows : Z) : V unit :=
  do! modify (set_field vc_columns (Z.max (Z.min columns MAX_COLUMNS) 1)) in
  do! modify (set_field vc_rows (Z.max (Z.min rows MAX_ROWS) 1)) in
  do! vc_clear in
  do! modify (set_field vc_bytes_written 0) in
  modify (set_field vc_lines_written 0).

(** [for cell in &mut self.cells[start..end]] *)
Definition vc_clear_row (row : Z) : V unit :=
  let! v := gets id in
  let! start := lift (mul U64 row (vc_columns v)) in
  let! end_ := lift (add U64 start (vc_columns v)) in
  if len (vc_cells v) <? end_ then panic else for_range start end_ (fun i => set_cell i tty_glyph_empty).

Definition vc_scroll_up : V unit :=
  let! v := gets id in
  if vc_rows v <=? 1 then vc_clear_row 0 else
  do! for_range 1 (vc_rows v) (fun row =>
        let! dst := lift (mul U64 (row - 1) (vc_columns v)) in
        let! src := lift (mul U64 row (vc_columns v)) in
        for_range 0 (vc_columns v) (fun column =>
          let! cells := gets vc_cells in
          let! glyph := lift (idx cells (src + column)) in
          set_cell (dst + column) glyph)) in
  do! vc_clear_row (vc_rows v - 1) in
  modify (set_field vc_cursor_row (vc_rows v - 1)).

Definition vc_new_line : V unit :=
  do! modify (set_field vc_cursor_column 0) in
  let! v := gets id in
  let! next := lift (add U64 (vc_cursor_row v) 1) in
  if vc_rows v <=? next then vc_scroll_up else modify (set_field vc_cursor_row next).

Definition vc_write_char (style : TtyStyle) (ch : Z) : V unit :=
  let! v := gets id in
  do! (if vc_columns v <=? vc_cursor_column v then vc_new_line else ret tt) in
  let! v := gets id in
  let! line := lift (mul U64 (vc_cursor_row v) (vc_columns v)) in
  let! index := lift (add U64 line (vc_cursor_column v)) in
  do! (if index <? len (vc_cells v) then set_cell index (mkTtyGlyph ch style) else ret tt) in
  let! next := lift (add U64 (vc_cursor_column v) 1) in
  modify (set_field vc_cursor_column next).

Definition vc_write_one (style : TtyStyle) (ch : Z) : V unit :=
  if ch =? 13 then ret tt
  else if ch =? 10 then vc_new_line
  else if ch =? 9 then for_range 0 4 (fun _ => vc_write_char style 32)
  else vc_write_char style ch.

Definition vc_write_style (style : TtyStyle) (text : list Z) : V unit :=
  do! modify (upd vc_bytes_written (fun n => sat_add U64 n (str_len text))) in
  do! modify (upd vc_lines_written (fun n => sat_add U64 n (newline_count text))) in
  for_each text (vc_write_one style).
End console.

(** ** The terminal and its outputs *)
Record Con : Type := mkCon { c_tty : TtyConsole; c_fb : FbState; c_heap : BumpAllocator; c_uart : Uart }.
#[export] Instance Con_eta : RecordEta Con := fun c => mkCon (c_tty c) (c_fb c) (c_heap c) (c_uart c).

Definition fb_style (s : TtyStyle) : Fb.ConsoleStyle :=
  match s with
  | Default => StDefault | Accent => StAccent | Success => StSuccess | Warning => StWarning | Error => StError | Fatal => StFatal | Muted => StMuted
  end.
Definition fb_glyph (g : TtyGlyph) : ConsoleGlyph := mkGlyph (tg_ch g) (fb_style (tg_style g)).

(** The block of a [Vec] of [MAX_CELLS] glyphs: a [char] and a style byte, padded to 8. *)
Definition CELLS_LAYOUT : Layout := mkLayout (MAX_CELLS * 8) 4.

Definition has_fb (outputs : Z) : bool := negb (Z.land outputs OUTPUT_FRAMEBUFFER =? 0).

Section tty.
Context (line_status : Uart -> nat -> Z) (polls : nat).
Let T (A : Type) : Type := M Con TtyExit A.

Definition on_tty {A} (m : M TtyConsole TtyExit A) : T A := zoom c_tty (fun t c => set_field c_tty t c) m.
Definition on_fb {A} (m : M FbState TtyExit A) : T A := zoom c_fb (fun t c => set_field c_fb t c) m.
Definition on_heap {A} (m : M BumpAllocator TtyExit A) : T A := zoom c_heap (fun t c => set_field c_heap t c) m.
Definition on_uart {A} (m : M Uart TtyExit A) : T A := zoom c_uart (fun t c => set_field c_uart t c) m.

(** A method of [consoles[i]]. *)
Definition on_virtual {A} (i : Z) (m : M VirtualConsole TtyExit A) : T A :=
  let! t := gets c_tty in
  let! v := lift (idx (consoles t) i) in
  fun c => let '(o, v') := m v in (o, set_field c_tty (set_field consoles (<[Z.to_nat i := v']> (consoles t)) t) c).

Definition render_active_console : T unit :=
  let! t := gets c_tty in
  let! v := lift (idx (consoles t) (active_console_id t)) in
  let! block := on_heap (alloc CELLS_LAYOUT) in
  match block with
  | None => throw (AllocError CELLS_LAYOUT)
  | Some ptr =>
      do! on_fb (render_console (fb_glyph <$> vc_cells v) (vc_columns v) (vc_rows v) (vc_cursor_column v) (vc_cursor_row v)) in
      on_heap (dealloc ptr CELLS_LAYOUT)
  end.

Definition tty_initialize (fb_output : bool) : T TtyBootstrap :=
  do! on_tty (modify (set_field tty_initialized true)) in
  do! on_tty (modify (set_field active_console_id 0)) in
  do! on_tty (modify (set_field outputs OUTPUT_SERIAL)) in
  do! (if fb_output then on_tty (modify (upd outputs (fun o => Z.lor o OUTPUT_FRAMEBUFFER))) else ret tt) in
  let! fb := gets c_fb in
  let '(columns, rows) := (if fb_output then default (DEFAULT_COLUMNS, DEFAULT_ROWS) (console_dimensions fb) else (DEFAULT_COLUMNS, DEFAULT_ROWS)) in
  do! on_tty (modify (set_field tty_columns (Z.max (Z.min columns MAX_COLUMNS) 1))) in
  do! on_tty (modify (set_field tty_rows (Z.max (Z.min rows MAX_ROWS) 1))) in
  do! on_tty (modify (set_field tty_bytes_written 0)) in
  do! on_tty (modify (set_field tty_lines_written 0)) in
  let! t := gets c_tty in
  do! for_range 0 (len (consoles t)) (fun i => on_virtual i (configure (tty_columns t) (tty_rows t))) in
  do! (if has_fb (outputs t) then render_active_console else ret tt) in
  let! t := gets c_tty in
  ret (mkBootstrap (active_console_id t) (output_count (outputs t)) fb_output VIRTUAL_CONSOLE_COUNT (tty_columns t) (tty_rows t)).

Definition tty_write_style (style : TtyStyle) (text : list Z) : T unit :=
  let! t := gets c_tty in
  let outputs := (if tty_initialized t then outputs t else OUTPUT_SERIAL) in
  do! (if negb (Z.land outputs OUTPUT_SERIAL =? 0) then on_uart (serial_write_str line_status polls (str_bytes text)) else ret tt) in
  do! on_virtual (active_console_id t) (vc_write_style style text) in
  do! (if has_fb outputs then on_fb (fb_write_style (fb_style style) text) else ret tt) in
  do! on_tty (modify (upd tty_bytes_written (fun n => sat_add U64 n (str_len text)))) in
  on_tty (modify (upd tty_lines_written (fun n => sat_add U64 n (newline_count text)))).
Definition tty_write_str (text : list Z) : T unit := tty_write_style Default text.

Definition write_to_console (console_id : Z) (style : TtyStyle) (text : list Z) : T unit :=
  let! t := gets c_tty in
  if len (consoles t) <=? console_id then throw InvalidConsole else
  do! on_virtual console_id (vc_write_style style text) in
  if (console_id =? active_console_id t) && has_fb (outputs t) then render_active_console else ret tt.

Definition switch_active_console (console_id : Z) : T unit :=
  let! t := gets c_tty in
  if len (consoles t) <=? console_id then throw InvalidConsole else
  do! on_tty (modify (set_field active_console_id console_id)) in
  if has_fb (outputs t) then render_active_console else ret tt.

(** [let _ = ...]: an [Err] is dropped; the allocation error handler does not return. *)
Definition show_log_console : T unit :=
  catch (switch_active_console LOG_CONSOLE_ID) (fun r =>
    match r with inr (AllocError l) => throw (AllocError l) | _ => ret tt end).

Definition tty_stats (t : TtyConsole) : TtyStats :=
  let outputs := (if tty_initialized t then outputs t else OUTPUT_SERIAL) in
  mkStats (active_console_id t) (output_count outputs) (tty_bytes_written t) (tty_lines_written t) VIRTUAL_CONSOLE_COUNT (tty_columns t) (tty_rows t).
End tty.
