(* ===== verification/TtyFacts.v ===== *)
(** * The terminal: facts and theorems

    A virtual console is an instance of the abstract terminal [Term] that the frame
    buffer console presents; the terminal keeps the two the same. The desk ([Desk]) is what a
    sequence of calls means: the size, the active console and the terminal of each console. *)
From stdpp Require Import base list numbers option strings gmap.
From Stdlib Require Import ZArith Lia Bool.
From S2P Require Import Prelude Paths Text Frame Heap Serial Font Fb FbFacts Tty.

(** ** A virtual console refines the terminal *)
Definition vc_ok (v : VirtualConsole) : Prop :=
  1 <= vc_columns v <= 160 /\ 1 <= vc_rows v <= 70 /\ 0 <= vc_cursor_column v <= vc_columns v /\ 0 <= vc_cursor_row v < vc_rows v /\
  length (vc_cells v) = Z.to_nat MAX_CELLS.
Definition cell_at (v : VirtualConsole) (i : Z) : TtyGlyph := default tty_glyph_empty (vc_cells v !! Z.to_nat i).
Definition vc_term (v : VirtualConsole) : Term :=
  mkTerm (vc_cursor_column v) (vc_cursor_row v) (fun r c => fb_glyph (cell_at v (r * vc_columns v + c))).
Abbreviation same_term v := (term_eq (vc_columns v) (vc_rows v)).

(** Only the cells of [v'] differ, and they are [f]. *)
Definition recelled (v v' : VirtualConsole) (f : Z -> TtyGlyph) : Prop :=
  v' = set_field vc_cells (vc_cells v') v /\ length (vc_cells v') = length (vc_cells v) /\ forall i, 0 <= i < MAX_CELLS -> cell_at v' i = f i.

Lemma recelled_refl v : recelled v v (cell_at v).
Proof. split; [by destruct v|]. done. Qed.
Lemma recelled_trans v v1 v2 f1 f2 : recelled v v1 f1 -> recelled v1 v2 f2 -> recelled v v2 f2.
Proof. intros (H1 & L1 & _) (H2 & L2 & G2). split; [|by split; [congruence|]]. rewrite H2, H1. by destruct v. Qed.
Lemma recelled_ext v v' f f' : (forall i, 0 <= i < MAX_CELLS -> f i = f' i) -> recelled v v' f -> recelled v v' f'.
Proof. intros Hf (H1 & L1 & G1). split; [done|]. split; [done|]. intros i Hi. by rewrite <- Hf, G1. Qed.
Lemma recelled_size v v' f : recelled v v' f -> vc_columns v' = vc_columns v /\ vc_rows v' = vc_rows v /\
  vc_cursor_column v' = vc_cursor_column v /\ vc_cursor_row v' = vc_cursor_row v.
Proof. intros (-> & _). by destruct v. Qed.

Lemma row_major_inj C r c r' c' : 0 <= c < C -> 0 <= c' < C -> r * C + c = r' * C + c' -> r = r' /\ c = c'.
Proof. intros Hc Hc' He. destruct (row_split C r c Hc) as [H1 H2], (row_split C r' c' Hc') as [H1' H2']. rewrite He in H1, H2. lia. Qed.

Section refine.
Context {E : Type}.

Lemma set_cell_run i g v : length (vc_cells v) = Z.to_nat MAX_CELLS -> 0 <= i < MAX_CELLS ->
  exists v', set_cell (E:=E) i g v = (Ok tt, v') /\ recelled v v' (fun k => if k =? i then g else cell_at v k).
Proof.
  intros Hl Hi. unfold set_cell, bind at 1, gets. rewrite (proj2 (Z.leb_le 0 i)), (proj2 (Z.ltb_lt i _)) by (unfold len; lia). cbn [andb].
  eexists. split; [reflexivity|]. split; [by destruct v|]. split; [cbn; by rewrite length_insert|]. intros k Hk. unfold cell_at. cbn.
  destruct (Z.eqb_spec k i) as [->|Hne]; [by rewrite list_lookup_insert_eq by lia|]. by rewrite list_lookup_insert_ne by lia.
Qed.

Lemma clear_row_run row v : vc_ok v -> 0 <= row < vc_rows v ->
  exists v', vc_clear_row (E:=E) row v = (Ok tt, v') /\
    recelled v v' (fun i => if (row * vc_columns v <=? i) && (i <? row * vc_columns v + vc_columns v) then tty_glyph_empty else cell_at v i).
Proof.
  intros (Hc & Hr & _ & _ & Hl) Hrow. assert (Hmax : row * vc_columns v + vc_columns v <= MAX_CELLS) by (unfold MAX_CELLS, MAX_COLUMNS, MAX_ROWS; nia).
  unfold vc_clear_row, bind at 1, gets, id. rewrite mul_ok by (unfold MAX_CELLS, MAX_COLUMNS, MAX_ROWS in *; lia). unfold bind at 1, lift at 1.
  rewrite add_ok by (unfold MAX_CELLS, MAX_COLUMNS, MAX_ROWS in *; lia). unfold bind at 1, lift at 1. rewrite (proj2 (Z.ltb_ge _ _)) by (unfold len; lia).
  apply (for_range_rule (fun n v1 => recelled v v1 (fun i => if (row * vc_columns v <=? i) && (i <? n) then tty_glyph_empty else cell_at v i))); [lia| |].
  - eapply recelled_ext; [|apply recelled_refl]. intros i Hi. cbn beta. destruct (Z.leb_spec (row * vc_columns v) i), (Z.ltb_spec i (row * vc_columns v)); cbn [andb]; lia || done.
  - intros n v1 Hn H1. destruct (set_cell_run n tty_glyph_empty v1) as (v2 & Hrun & H2); [rewrite (proj1 (proj2 H1)); done|nia|]. exists v2. split; [done|].
    eapply recelled_trans; [exact H1|]. eapply recelled_ext; [|exact H2]. intros i Hi. cbn beta. destruct H1 as (_ & _ & G1). rewrite G1 by done.
    destruct (Z.eqb_spec i n), (Z.leb_spec (row * vc_columns v) i), (Z.ltb_spec i n), (Z.ltb_spec i (n + 1)); cbn [andb]; lia || done.
Qed.

(** The cells after [n] of them were copied from the row below. *)
Definition shifted (v : VirtualConsole) (n i : Z) : TtyGlyph := if i <? n then cell_at v (i + vc_columns v) else cell_at v i.

Lemma shift_cell n v v1 : vc_ok v -> 0 <= n -> n + vc_columns v < MAX_CELLS -> recelled v v1 (shifted v n) ->
  exists v2, (let! cells := gets vc_cells in let! glyph := lift (idx cells (n + vc_columns v)) in set_cell (E:=E) n glyph) v1 = (Ok tt, v2) /\ recelled v v2 (shifted v (n + 1)).
Proof.
  intros (Hc & _ & _ & _ & Hl) Hn Hmax H1. pose proof H1 as (_ & L1 & G1).
  destruct (lookup_lt_is_Some_2 (vc_cells v1) (Z.to_nat (n + vc_columns v))) as [g Hg]; [lia|].
  unfold bind at 1, gets. rewrite (idx_ok _ _ g) by (lia || done). unfold bind, lift.
  destruct (set_cell_run n g v1) as (v2 & Hrun & H2); [lia..|]. exists v2. split; [done|]. eapply recelled_trans; [exact H1|]. eapply recelled_ext; [|exact H2].
  intros i Hi. cbn beta. unfold shifted at 1. destruct (Z.eqb_spec i n) as [->|Hne].
  - rewrite (proj2 (Z.ltb_lt n (n + 1))) by lia. assert (Hc1 : cell_at v1 (n + vc_columns v) = g) by (unfold cell_at; by rewrite Hg).
    rewrite <- Hc1, G1 by lia. unfold shifted. by rewrite (proj2 (Z.ltb_ge _ _)) by lia.
  - rewrite G1 by done. unfold shifted. destruct (Z.ltb_spec i n), (Z.ltb_spec i (n + 1)); lia || done.
Qed.

Lemma shift_rows_run v : vc_ok v -> 2 <= vc_rows v ->
  exists v', for_range (E:=E) 1 (vc_rows v) (fun row =>
        let! dst := lift (mul U64 (row - 1) (vc_columns v)) in
        let! src := lift (mul U64 row (vc_columns v)) in
        for_range 0 (vc_columns v) (fun column =>
          let! cells := gets vc_cells in
          let! glyph := lift (idx cells (src + column)) in
          set_cell (dst + column) glyph)) v = (Ok tt, v') /\ recelled v v' (shifted v ((vc_rows v - 1) * vc_columns v)).
Proof.
  intros Hok Hr2. pose proof Hok as (Hc & Hr & _). apply (for_range_rule (fun row v1 => recelled v v1 (shifted v ((row - 1) * vc_columns v)))); [lia| |].
  - eapply recelled_ext; [|apply recelled_refl]. intros i Hi. cbn beta. unfold shifted. by rewrite (proj2 (Z.ltb_ge _ _)) by lia.
  - intros row v1 Hrow H1. assert (Hb : row * vc_columns v + vc_columns v <= MAX_CELLS) by (unfold MAX_CELLS, MAX_COLUMNS, MAX_ROWS; nia).
    change MAX_CELLS with 11200 in Hb. rewrite !mul_ok by nia. unfold bind at 1, lift at 1. unfold bind at 1, lift at 1.
    replace ((row + 1 - 1) * vc_columns v) with ((row - 1) * vc_columns v + vc_columns v) by nia.
    apply (for_range_rule (fun k v2 => recelled v v2 (shifted v ((row - 1) * vc_columns v + k)))); [lia|by rewrite Z.add_0_r|].
    intros k v2 Hk H2. rewrite Z.add_assoc. replace (row * vc_columns v + k) with ((row - 1) * vc_columns v + k + vc_columns v) by nia.
    apply shift_cell; [done|nia|change MAX_CELLS with 11200; nia|done].
Qed.

(** The step from [v] to [v'] shows the terminal [t] and keeps the geometry and the counters. *)
Definition vc_becomes (v v' : VirtualConsole) (t : Term) : Prop :=
  vc_ok v' /\ vc_columns v' = vc_columns v /\ vc_rows v' = vc_rows v /\ vc_bytes_written v' = vc_bytes_written v /\
  vc_lines_written v' = vc_lines_written v /\ same_term v (vc_term v') t.

Lemma vc_becomes_refl v : vc_ok v -> vc_becomes v v (vc_term v).
Proof. intros Hok. repeat split; try done; apply Hok. Qed.
Lemma vc_becomes_trans v v1 v2 t1 t2 f : (forall C R, Proper (term_eq C R ==> term_eq C R) (f C R)) ->
  vc_becomes v v1 t1 -> vc_becomes v1 v2 (f (vc_columns v1) (vc_rows v1) (vc_term v1)) -> term_eq (vc_columns v) (vc_rows v) (f (vc_columns v) (vc_rows v) t1) t2 ->
  vc_becomes v v2 t2.
Proof.
  intros Hf (Hok1 & HC1 & HR1 & HB1 & HL1 & Ht1) (Hok2 & HC2 & HR2 & HB2 & HL2 & Ht2) Ht. rewrite HC1, HR1 in *.
  split; [done|]. repeat (split; [congruence|]). rewrite Ht2, Ht1. exact Ht.
Qed.

Lemma scroll_up_becomes v : vc_ok v -> vc_cursor_column v = 0 -> vc_cursor_row v = vc_rows v - 1 ->
  exists v', vc_scroll_up (E:=E) v = (Ok tt, v') /\ vc_becomes v v' (mkTerm 0 (vc_rows v - 1) (scrolled (vc_rows v) (tm_grid (vc_term v)))).
Proof.
  intros Hok Hcc Hcr. pose proof Hok as (Hc & Hr & _ & _ & Hl).
  assert (Hshow : forall v', recelled v v' (fun i => if ((vc_rows v - 1) * vc_columns v <=? i) && (i <? (vc_rows v - 1) * vc_columns v + vc_columns v) then tty_glyph_empty
      else shifted v ((vc_rows v - 1) * vc_columns v) i) ->
    vc_becomes v v' (mkTerm 0 (vc_rows v - 1) (scrolled (vc_rows v) (tm_grid (vc_term v))))).
  { intros v' (Hv & Hl' & Hcell). split; [rewrite Hv; unfold vc_ok; cbn; rewrite Hl'; apply Hok|]. rewrite Hv. do 4 (split; [done|]). split; [exact Hcc|]. split; [exact Hcr|].
    intros r c Hrr Hcc'. cbn [vc_term tm_grid]. rewrite <- Hv. assert (Hi : 0 <= r * vc_columns v + c < MAX_CELLS) by (change MAX_CELLS with 11200; nia).
    replace (vc_columns v') with (vc_columns v) by (by rewrite Hv). rewrite Hcell by done. unfold scrolled, shifted.
    destruct (Z.eqb_spec r (vc_rows v - 1)) as [->|Hne].
    - rewrite (proj2 (Z.leb_le _ _)), (proj2 (Z.ltb_lt _ _)) by lia. done.
    - rewrite (proj2 (Z.leb_gt _ _)) by nia. cbn [andb]. rewrite (proj2 (Z.ltb_lt _ _)) by nia. cbn [vc_term tm_grid]. do 2 f_equal. lia. }
  unfold vc_scroll_up, bind at 1, gets at 1, id. destruct (Z.leb_spec (vc_rows v) 1) as [H1|H1].
  - destruct (clear_row_run 0 v Hok ltac:(lia)) as (v' & Hrun & Hv'). exists v'. split; [done|]. apply Hshow. eapply recelled_ext; [|exact Hv'].
    intros i Hi. cbn beta. replace (vc_rows v - 1) with 0 by lia. unfold shifted. by rewrite (proj2 (Z.ltb_ge i (0 * vc_columns v))) by lia.
  - destruct (shift_rows_run v Hok ltac:(lia)) as (v1 & Hrun1 & H1v). unfold bind at 1. rewrite Hrun1.
    destruct (recelled_size _ _ _ H1v) as (HC & HR & HCC & HCR).
    assert (Hok1 : vc_ok v1). { destruct H1v as (Hv & L & _). rewrite Hv. unfold vc_ok. cbn. rewrite L. apply Hok. }
    destruct (clear_row_run (vc_rows v - 1) v1 Hok1 ltac:(lia)) as (v2 & Hrun2 & H2v). unfold bind at 1. rewrite Hrun2.
    assert (H02 : recelled v v2 (fun i => if ((vc_rows v - 1) * vc_columns v <=? i) && (i <? (vc_rows v - 1) * vc_columns v + vc_columns v) then tty_glyph_empty
      else shifted v ((vc_rows v - 1) * vc_columns v) i)).
    { eapply recelled_trans; [exact H1v|]. eapply recelled_ext; [|exact H2v]. intros i Hi. cbn beta. rewrite HC. by rewrite (proj2 (proj2 H1v) i Hi). }
    exists v2. split; [|by apply Hshow]. unfold modify. f_equal. destruct (recelled_size _ _ _ H02) as (_ & _ & _ & HCR2). rewrite <- Hcr, <- HCR2. by destruct v2.
Qed.

Lemma vc_new_line_becomes v : vc_ok v ->
  exists v', vc_new_line (E:=E) v = (Ok tt, v') /\ vc_becomes v v' (term_newline (vc_rows v) (vc_term v)).
Proof.
  intros Hok. pose proof Hok as (Hc & Hr & Hcc & Hcr & Hl). unfold vc_new_line, bind at 1, modify. unfold bind at 1, gets, id.
  set (v0 := set_field vc_cursor_column 0 v). change (vc_cursor_row v0) with (vc_cursor_row v). rewrite add_ok by lia. unfold bind at 1, lift at 1.
  change (vc_rows v0) with (vc_rows v). unfold term_newline. change (tm_row (vc_term v)) with (vc_cursor_row v).
  destruct (Z.leb_spec (vc_rows v) (vc_cursor_row v + 1)).
  - apply (scroll_up_becomes v0); [unfold vc_ok; cbn; lia|done|cbn; lia].
  - eexists. split; [reflexivity|]. repeat split; cbn; try done; lia.
Qed.

Lemma vc_write_char_becomes v style ch : vc_ok v ->
  exists v', vc_write_char (E:=E) style ch v = (Ok tt, v') /\ vc_becomes v v' (term_char (vc_columns v) (vc_rows v) (mkGlyph ch (fb_style style)) (vc_term v)).
Proof.
  intros Hok. unfold term_char. set (t1 := if vc_columns v <=? tm_col (vc_term v) then _ else _). unfold vc_write_char, bind at 1, gets, id.
  assert (Hline : exists v1, (if vc_columns v <=? vc_cursor_column v then vc_new_line (E:=E) else ret tt) v = (Ok tt, v1) /\
    vc_becomes v v1 t1 /\ vc_cursor_column v1 < vc_columns v).
  { unfold t1. change (tm_col (vc_term v)) with (vc_cursor_column v). destruct (Z.leb_spec (vc_columns v) (vc_cursor_column v)).
    - destruct (vc_new_line_becomes v Hok) as (v1 & Hrun & H1). exists v1. split; [done|]. split; [done|]. destruct H1 as (_ & _ & _ & _ & _ & Hcol & _).
      cbn in Hcol. rewrite Hcol. unfold vc_ok in Hok. unfold term_newline. case_match; cbn; lia.
    - exists v. split; [done|]. split; [by apply vc_becomes_refl|lia]. }
  destruct Hline as (v1 & Hrun1 & (Hok1 & HC1 & HR1 & HB1 & HL1 & Ht1) & Hlt). clearbody t1. unfold bind at 1. rewrite Hrun1. unfold bind at 1.
  pose proof Hok1 as (Hc & Hr & Hcc & Hcr & Hl). rewrite mul_ok by nia. unfold bind at 1, lift at 1. rewrite add_ok by nia. unfold bind at 1, lift at 1.
  assert (Hi : 0 <= vc_cursor_row v1 * vc_columns v1 + vc_cursor_column v1 < MAX_CELLS) by (change MAX_CELLS with 11200; nia).
  rewrite (proj2 (Z.ltb_lt _ (len (vc_cells v1)))) by (unfold len; lia).
  destruct (set_cell_run _ (mkTtyGlyph ch style) v1 Hl Hi) as (v2 & Hrun2 & Hv2 & Hl2 & Hcell). unfold bind at 1. rewrite Hrun2.
  rewrite add_ok by lia. unfold bind, lift, modify. eexists. split; [reflexivity|].
  assert (Hsz := recelled_size _ _ _ (conj Hv2 (conj Hl2 Hcell))). destruct Hsz as (HC2 & HR2 & HCC2 & HCR2).
  unfold vc_becomes, vc_ok. cbn [vc_columns vc_rows vc_cursor_column vc_cursor_row vc_cells vc_bytes_written vc_lines_written set_field upd]. unfold set_field, upd.
  cbn [vc_columns vc_rows vc_cursor_column vc_cursor_row vc_cells vc_bytes_written vc_lines_written]. rewrite HC2, HR2, HCR2, HC1, HR1, Hl2, Hl.
  split; [rewrite HC1, HR1 in *; lia|]. split; [done|]. split; [done|]. split; [by rewrite Hv2|]. split; [by rewrite Hv2|].
  destruct Ht1 as (Htc & Htr & Htg). split; cbn [vc_term tm_col tm_row vc_cursor_column vc_cursor_row]; [rewrite <- Htc; cbn; lia|].
  split; [by rewrite <- Htr|]. intros r c Hrr Hcc'. cbn [vc_term tm_grid]. unfold cell_at at 1. cbn [vc_cells vc_columns]. fold (cell_at v2 (r * vc_columns v + c)).
  rewrite Hcell by (change MAX_CELLS with 11200; rewrite HC1, HR1 in *; nia). unfold put_cell. rewrite <- Htc, <- Htr. cbn [vc_term tm_col tm_row].
  destruct (Z.eqb_spec (r * vc_columns v + c) (vc_cursor_row v1 * vc_columns v1 + vc_cursor_column v1)) as [He|He].
  - rewrite HC1, HR1 in *. destruct (row_major_inj _ _ _ _ _ Hcc' (conj (proj1 Hcc) Hlt) He) as [-> ->]. by rewrite !Z.eqb_refl.
  - replace ((r =? vc_cursor_row v1) && (c =? vc_cursor_column v1)) with false.
    + rewrite <- Htg by done. cbn [vc_term tm_grid]. by rewrite HC1.
    + symmetry. apply andb_false_iff. rewrite !Z.eqb_neq. rewrite HC1 in He. assert (~ (r = vc_cursor_row v1 /\ c = vc_cursor_column v1)) by (intros [-> ->]; done). lia.
Qed.

Lemma vc_write_one_becomes v style ch : vc_ok v ->
  exists v', vc_write_one (E:=E) style ch v = (Ok tt, v') /\ vc_becomes v v' (term_one (vc_columns v) (vc_rows v) (fb_style style) ch (vc_term v)).
Proof.
  intros Hok. unfold vc_write_one, term_one. destruct (ch =? 13); [exists v; split; [done|by apply vc_becomes_refl]|].
  destruct (ch =? 10); [by apply vc_new_line_becomes|]. destruct (ch =? 9); [|by apply vc_write_char_becomes].
  apply (for_range_rule (fun n v1 => vc_becomes v v1 (Nat.iter (Z.to_nat n) (term_char (vc_columns v) (vc_rows v) (mkGlyph 32 (fb_style style))) (vc_term v)))); [lia|by apply vc_becomes_refl|].
  intros n v1 Hn H1. destruct (vc_write_char_becomes v1 style 32) as (v2 & Hrun & H2); [apply H1|]. exists v2. split; [done|].
  eapply (vc_becomes_trans v v1 v2 _ _ (fun C R => term_char C R (mkGlyph 32 (fb_style style)))); [apply _|exact H1|exact H2|].
  replace (Z.to_nat (n + 1)) with (S (Z.to_nat n)) by lia. done.
Qed.

(** Writing a text to a virtual console. *)
Lemma vc_write_becomes v style text : vc_ok v ->
  exists v', for_each text (vc_write_one (E:=E) style) v = (Ok tt, v') /\ vc_becomes v v' (term_write (vc_columns v) (vc_rows v) (fb_style style) text (vc_term v)).
Proof.
  intros Hok. apply (for_each_rule (fun pre v1 => vc_becomes v v1 (term_write (vc_columns v) (vc_rows v) (fb_style style) pre (vc_term v)))); [by apply vc_becomes_refl|].
  intros pre ch rest v1 _ H1. destruct (vc_write_one_becomes v1 style ch) as (v2 & Hrun & H2); [apply H1|]. exists v2. split; [done|].
  eapply (vc_becomes_trans v v1 v2 _ _ (fun C R => term_one C R (fb_style style) ch)); [apply _|exact H1|exact H2|]. unfold term_write. by rewrite foldl_app.
Qed.

Lemma vc_write_style_run v style text : vc_ok v ->
  exists v', vc_write_style (E:=E) style text v = (Ok tt, v') /\ vc_ok v' /\ vc_columns v' = vc_columns v /\ vc_rows v' = vc_rows v /\
    vc_bytes_written v' = sat_add U64 (vc_bytes_written v) (str_len text) /\ vc_lines_written v' = sat_add U64 (vc_lines_written v) (newline_count text) /\
    same_term v (vc_term v') (term_write (vc_columns v) (vc_rows v) (fb_style style) text (vc_term v)).
Proof.
  intros Hok. unfold vc_write_style, bind at 1, modify. unfold bind at 1. set (v0 := upd vc_lines_written _ _).
  destruct (vc_write_becomes v0 style text) as (v' & Hrun & Hok' & HC & HR & HB & HL & Ht); [done|]. exists v'. by repeat (split; [done|]).
Qed.

Lemma configure_run v C R : length (vc_cells v) = Z.to_nat MAX_CELLS ->
  exists v', configure (E:=E) C R v = (Ok tt, v') /\ vc_ok v' /\ vc_columns v' = Z.max (Z.min C 160) 1 /\ vc_rows v' = Z.max (Z.min R 70) 1 /\
    same_term v' (vc_term v') (mkTerm 0 0 blank_grid).
Proof.
  intros Hl. set (v' := mkVc (Z.max (Z.min C MAX_COLUMNS) 1) (Z.max (Z.min R MAX_ROWS) 1) 0 0 0 0 (replicate (length (vc_cells v)) tty_glyph_empty)).
  exists v'. split; [reflexivity|]. split; [|split; [reflexivity|]; split; [reflexivity|]; split; [reflexivity|]; split; [reflexivity|]].
  - unfold vc_ok, v'. cbn [vc_columns vc_rows vc_cursor_column vc_cursor_row vc_cells]. rewrite length_replicate, Hl. unfold MAX_COLUMNS, MAX_ROWS. repeat split; lia.
  - intros r c Hr Hc. cbn [vc_term tm_grid]. unfold cell_at, v'. cbn [vc_cells vc_columns].
    destruct (decide (Z.to_nat (r * Z.max (Z.min C MAX_COLUMNS) 1 + c) < length (vc_cells v))%nat).
    + by rewrite lookup_replicate_2.
    + rewrite lookup_ge_None_2 by (rewrite length_replicate; lia). done.
Qed.
End refine.

(** ** The frame buffer shows a terminal *)
Definition fb_sized (fb : FbState) (C R : Z) : Prop := forall fc, fb_console fb = Some fc -> console_ok fc /\ columns fc = C /\ rows fc = R.
Definition fb_shows (fb : FbState) (C R : Z) (t : Term) : Prop :=
  forall fc, fb_console fb = Some fc -> columns fc = C /\ rows fc = R /\ presents (mkScreen fc (fb_memory fb)) t.

Lemma fb_shows_sized fb C R t : fb_shows fb C R t -> fb_sized fb C R.
Proof. intros H fc Hfc. destruct (H fc Hfc) as (HC & HR & Hp). split; [apply Hp|done]. Qed.

Lemma fb_shows_eq fb C R t t' : term_eq C R t t' -> fb_shows fb C R t -> fb_shows fb C R t'.
Proof. intros Ht H fc Hfc. destruct (H fc Hfc) as (HC & HR & Hp). split; [done|]. split; [done|]. eapply presents_term_eq; [|exact Hp]. cbn. by rewrite HC, HR. Qed.

(** There is a console after a call exactly when there was one. *)
Definition fb_kept (fb fb' : FbState) : Prop :=
  (fb_console fb = None <-> fb_console fb' = None) /\ fb_physical_address fb' = fb_physical_address fb.

Lemma on_console_run {E} (m : M Screen E unit) fb C R t :
  (forall fc, fb_console fb = Some fc -> columns fc = C /\ rows fc = R /\
    exists s', m (mkScreen fc (fb_memory fb)) = (Ok tt, s') /\ same_screen (mkScreen fc (fb_memory fb)) s' /\ presents s' t) ->
  exists fb', on_console m fb = (Ok tt, fb') /\ fb_kept fb fb' /\ fb_shows fb' C R t.
Proof.
  intros Hm. unfold on_console. destruct (fb_console fb) as [fc|] eqn:Hfc.
  - destruct (Hm fc eq_refl) as (HC & HR & s' & Hrun & Hsame & Hp). rewrite Hrun. eexists. split; [reflexivity|]. split; [by unfold fb_kept; rewrite Hfc|].
    intros fc' [= <-]. destruct (same_screen_size _ _ Hsame) as [HC' HR']. cbn in HC', HR'. rewrite HC', HR'. split; [done|]. split; [done|]. by destruct s'.
  - exists fb. split; [done|]. split; [done|]. intros fc Hfc'. congruence.
Qed.

Lemma fb_write_shows {E} fb C R t style text : fb_shows fb C R t ->
  exists fb', fb_write_style (E:=E) style text fb = (Ok tt, fb') /\ fb_kept fb fb' /\ fb_shows fb' C R (term_write C R style text t).
Proof.
  intros H. apply on_console_run. intros fc Hfc. destruct (H fc Hfc) as (HC & HR & Hp). split; [done|]. split; [done|].
  destruct (write_str_presents (E:=E) _ _ style text Hp) as (s' & Hrun & Hs & Hp'). exists s'. cbn in Hp'. rewrite HC, HR in Hp'. done.
Qed.

Lemma render_shows {E} fb v : vc_ok v -> fb_sized fb (vc_columns v) (vc_rows v) ->
  exists fb', render_console (E:=E) (fb_glyph <$> vc_cells v) (vc_columns v) (vc_rows v) (vc_cursor_column v) (vc_cursor_row v) fb = (Ok tt, fb') /\
    fb_kept fb fb' /\ fb_shows fb' (vc_columns v) (vc_rows v) (vc_term v).
Proof.
  intros (Hc & Hr & Hcc & Hcr & Hl) Hsz. apply on_console_run. intros fc Hfc. destruct (Hsz fc Hfc) as (Hok & HC & HR). split; [done|]. split; [done|].
  destruct (render_presents (E:=E) (mkScreen fc (fb_memory fb)) (fb_glyph <$> vc_cells v) (vc_columns v) (vc_rows v) (vc_cursor_column v) (vc_cursor_row v) Hok)
    as (s' & Hrun & Hs & Hp); [lia|lia|lia|lia|cbn [console]; rewrite HR; nia|]. exists s'. split; [done|]. split; [done|].
  destruct (same_screen_size _ _ Hs) as [HC' HR']. cbn [console] in *. eapply presents_term_eq; [|exact Hp]. rewrite HC', HR', HC, HR.
  split; [cbn; lia|]. split; [cbn; lia|]. intros r c Hrr Hcc'. cbn [tm_grid vc_term]. unfold cells_grid.
  rewrite (proj2 (Z.ltb_lt _ _)), (proj2 (Z.ltb_lt _ _)) by lia. cbn [andb]. rewrite list_lookup_fmap. unfold cell_at.
  by destruct (vc_cells v !! Z.to_nat _).
Qed.

(** ** The terminal's invariant *)
Definition tty_ok (t : TtyConsole) : Prop :=
  length (consoles t) = 4%nat /\ 0 <= active_console_id t < 4 /\ 1 <= tty_columns t <= 160 /\ 1 <= tty_rows t <= 70 /\
  (has_fb (outputs t) = true -> tty_initialized t = true) /\ negb (Z.land (outputs t) OUTPUT_SERIAL =? 0) = true /\
  Forall (fun v => vc_ok v /\ vc_columns v = tty_columns t /\ vc_rows v = tty_rows t) (consoles t).
(** The frame buffer shows the active console. *)
Definition mirrors (c : Con) : Prop :=
  has_fb (outputs (c_tty c)) = true ->
  forall v, consoles (c_tty c) !! Z.to_nat (active_console_id (c_tty c)) = Some v -> fb_shows (c_fb c) (tty_columns (c_tty c)) (tty_rows (c_tty c)) (vc_term v).
(** A frame buffer console, if there is one, fits the virtual consoles. *)
Definition fb_fits (fb : FbState) : Prop := forall fc, fb_console fb = Some fc -> console_ok fc /\ columns fc <= 160 /\ rows fc <= 70.
Definition con_ok (c : Con) : Prop := tty_ok (c_tty c) /\ fb_fits (c_fb c) /\ mirrors c.

Lemma fb_sized_fits fb C R : C <= 160 -> R <= 70 -> fb_sized fb C R -> fb_fits fb.
Proof. intros HC HR H fc Hfc. destruct (H fc Hfc) as (Hok & <- & <-). done. Qed.

Lemma console_of t i : tty_ok t -> 0 <= i < 4 -> exists v, consoles t !! Z.to_nat i = Some v /\ idx (E:=TtyExit) (consoles t) i = Ok v /\
  vc_ok v /\ vc_columns v = tty_columns t /\ vc_rows v = tty_rows t.
Proof.
  intros (Hl & _ & _ & _ & _ & _ & Hall) Hi. destruct (lookup_lt_is_Some_2 (consoles t) (Z.to_nat i)) as [v Hv]; [lia|]. exists v.
  split; [done|]. split; [by apply idx_ok; [lia|]|]. by apply (Forall_lookup_1 _ _ _ _ Hall Hv).
Qed.

(** A console replaced by one of the same geometry. *)
Lemma tty_ok_insert t i v : tty_ok t -> vc_ok v -> vc_columns v = tty_columns t -> vc_rows v = tty_rows t ->
  tty_ok (set_field consoles (<[Z.to_nat i := v]> (consoles t)) t).
Proof.
  intros (Hl & Ha & HC & HR & Hi & Hs & Hall) Hv HvC HvR. split; [cbn; by rewrite length_insert|]. do 5 (split; [done|]). cbn. by apply Forall_insert.
Qed.

(** ** The operations keep the invariant *)
Lemma alloc_returns {E} l h : exists o h', alloc (E:=E) l h = (Ok o, h').
Proof. unfold alloc, bind, gets, ret, modify. destruct (negb _); [by eexists _, _|]. destruct (b_end (id h) <? _); by eexists _, _. Qed.
Lemma dealloc_returns {E} p l h : exists h', dealloc (E:=E) p l h = (Ok tt, h').
Proof.
  unfold dealloc, bind, gets, ret, modify, lift, id. destruct (Z.ltb_spec 0 (allocations h)); [|by eexists]. rewrite sub_ok by lia. destruct (_ =? 0); by eexists.
Qed.

(** The heap has no block for the copy of the cells. *)
Definition heap_full (h : BumpAllocator) : Prop := (alloc (E:=TtyExit) CELLS_LAYOUT h).1 = Ok None.

(** The size of the frame buffer console, in cells. *)
Definition fb_dims (c : Con) : option (Z * Z) := console_dimensions (c_fb c).

(** How a call on a good terminal ends: [out] went to the serial port; the
    invariant holds and the terminal is as [P] says, unless the redraw found no memory. *)
Definition ends {A} (c : Con) (r : outcome TtyExit A * Con) (out : Uart) (P : TtyConsole -> Prop) : Prop :=
  c_uart r.2 = c_uart c ++ out /\
  match r.1 with
  | Ok _ | Err InvalidConsole => con_ok r.2 /\ fb_dims r.2 = fb_dims c /\ P (c_tty r.2)
  | Err (AllocError l) => l = CELLS_LAYOUT /\ heap_full (c_heap c)
  | Panic | Diverge => False
  end.

Lemma fb_shows_dims fb fb' C R t : fb_sized fb C R -> fb_kept fb fb' -> fb_shows fb' C R t -> console_dimensions fb' = console_dimensions fb.
Proof.
  intros Hsz [Hk _] Hsh. unfold console_dimensions. destruct (fb_console fb) as [fc|] eqn:H, (fb_console fb') as [fc'|] eqn:H'; [|naive_solver..|done].
  destruct (Hsz fc H) as (_ & <- & <-), (Hsh fc' H') as (HC & HR & _). cbn. by rewrite HC, HR.
Qed.

(** A redraw shows the active console, or finds no memory and enters the allocation error handler. *)
Lemma render_cases c : tty_ok (c_tty c) -> fb_sized (c_fb c) (tty_columns (c_tty c)) (tty_rows (c_tty c)) ->
  exists o c', render_active_console c = (o, c') /\ c_uart c' = c_uart c /\ c_tty c' = c_tty c /\ fb_dims c' = fb_dims c /\
    ((o = Ok tt /\ con_ok c') \/ (o = Err (AllocError CELLS_LAYOUT) /\ heap_full (c_heap c))).
Proof.
  intros Ht Hsz. pose proof Ht as (Hl & Ha & HC & HR & _). destruct (console_of _ _ Ht Ha) as (v & Hv & Hidx & Hok & HvC & HvR).
  unfold render_active_console, bind at 1, gets. unfold bind at 1, lift. rewrite Hidx. unfold bind at 1, on_heap at 1, zoom.
  destruct (alloc_returns (E:=TtyExit) CELLS_LAYOUT (c_heap c)) as (o & h' & Halloc). rewrite Halloc. destruct o as [p|].
  - set (c1 := set_field c_heap h' c). destruct (render_shows (E:=TtyExit) (c_fb c1) v Hok) as (fb' & Hrun & Hkept & Hshow); [by rewrite HvC, HvR|].
    unfold bind at 1, on_fb, zoom. rewrite Hrun. destruct (dealloc_returns (E:=TtyExit) p CELLS_LAYOUT h') as (h2 & Hd). unfold on_heap, zoom. cbn [c_heap].
    change (c_heap (set_field c_fb fb' c1)) with h'. rewrite Hd. rewrite HvC, HvR in Hshow. eexists _, _. split; [reflexivity|]. split; [done|]. split; [done|].
    split; [exact (fb_shows_dims _ _ _ _ _ Hsz Hkept Hshow)|]. left. split; [done|].
    split; [done|]. cbn. split; [by apply (fb_sized_fits _ (tty_columns (c_tty c)) (tty_rows (c_tty c))); [lia|lia|apply (fb_shows_sized _ _ _ _ Hshow)]|].
    intros _ v' Hv'. cbn in Hv'. rewrite Hv in Hv'. injection Hv' as <-. exact Hshow.
  - eexists _, _. split; [reflexivity|]. split; [done|]. split; [done|]. split; [done|]. right. split; [done|]. unfold heap_full. by rewrite Halloc.
Qed.

Lemma render_ends c P : tty_ok (c_tty c) -> fb_sized (c_fb c) (tty_columns (c_tty c)) (tty_rows (c_tty c)) -> P (c_tty c) -> ends c (render_active_console c) [] P.
Proof.
  intros Ht Hsz HP. destruct (render_cases c Ht Hsz) as (o & c' & -> & Hu & Htty & Hd & [[-> Hok]|[-> Hfull]]); (split; [cbn; by rewrite app_nil_r|]); [|done].
  split; [done|]. split; [done|]. cbn [snd]. by rewrite Htty.
Qed.

Lemma con_ok_sized c : con_ok c -> has_fb (outputs (c_tty c)) = true -> fb_sized (c_fb c) (tty_columns (c_tty c)) (tty_rows (c_tty c)).
Proof.
  intros (Ht & _ & Hm) Hfb. destruct (console_of _ _ Ht (proj1 (proj2 Ht))) as (v & Hv & _). by eapply fb_shows_sized, Hm.
Qed.

Lemma on_virtual_run {A} i (m : M VirtualConsole TtyExit A) c v a v' : idx (E:=TtyExit) (consoles (c_tty c)) i = Ok v -> m v = (Ok a, v') ->
  on_virtual i m c = (Ok a, set_field c_tty (set_field consoles (<[Z.to_nat i := v']> (consoles (c_tty c))) (c_tty c)) c).
Proof. intros Hv Hm. unfold on_virtual, bind, gets, lift. by rewrite Hv, Hm. Qed.

(** ** What the consoles hold

    The desk of the terminal, without cells or cursors: the size of the consoles, the
    active one and, for each, the terminal that its texts, in order, leave. *)
Record Desk : Type := mkDesk { d_columns : Z; d_rows : Z; d_active : Z; d_terms : list Term }.
Definition desk_holds (d : Desk) (t : TtyConsole) : Prop :=
  active_console_id t = d_active d /\ tty_columns t = d_columns d /\ tty_rows t = d_rows d /\
  Forall2 (fun v => term_eq (d_columns d) (d_rows d) (vc_term v)) (consoles t) (d_terms d).
Definition blank_term : Term := mkTerm 0 0 blank_grid.
(** [text] written to console [id]. *)
Definition desk_text (id : Z) (style : TtyStyle) (text : list Z) (d : Desk) : Desk :=
  mkDesk (d_columns d) (d_rows d) (d_active d) (alter (term_write (d_columns d) (d_rows d) (fb_style style) text) (Z.to_nat id) (d_terms d)).
Definition desk_switch (id : Z) (d : Desk) : Desk := mkDesk (d_columns d) (d_rows d) id (d_terms d).
Definition desk_start (dims : Z * Z) : Desk := mkDesk (Z.max (Z.min dims.1 160) 1) (Z.max (Z.min dims.2 70) 1) 0 (replicate 4 blank_term).

Lemma desk_of t : exists d, desk_holds d t.
Proof. exists (mkDesk (tty_columns t) (tty_rows t) (active_console_id t) (vc_term <$> consoles t)). do 3 (split; [done|]). cbn. by apply Forall2_fmap_r, Forall_Forall2_diag, Forall_true. Qed.

Lemma list_insert_as_alter {A} (x : A) (i : nat) (l : list A) : <[i := x]> l = alter (fun _ => x) i l.
Proof. revert i. induction l as [|y l IH]; intros [|i]; cbn; try done. f_equal. apply IH. Qed.
Lemma desk_holds_text d t t' id style text v v' : desk_holds d t -> consoles t !! Z.to_nat id = Some v ->
  active_console_id t' = active_console_id t -> tty_columns t' = tty_columns t -> tty_rows t' = tty_rows t -> consoles t' = <[Z.to_nat id := v']> (consoles t) ->
  term_eq (tty_columns t) (tty_rows t) (vc_term v') (term_write (tty_columns t) (tty_rows t) (fb_style style) text (vc_term v)) ->
  desk_holds (desk_text id style text d) t'.
Proof.
  intros (Ha & HC & HR & Hall) Hv Ha' HC' HR' Hcons Hterm. unfold desk_holds, desk_text. cbn. rewrite Ha', HC', HR', Hcons. do 3 (split; [done|]).
  rewrite list_insert_as_alter. apply Forall2_alter; [done|]. intros w tm Hw _ Heq. rewrite Hv in Hw. injection Hw as <-.
  rewrite <- HC, <- HR in *. rewrite Hterm. by rewrite Heq.
Qed.

(** ** The operations keep the invariant and the desk *)
Lemma switch_ends c d id : con_ok c -> desk_holds d (c_tty c) -> 0 <= id ->
  ends c (switch_active_console id c) [] (desk_holds (if id <? 4 then desk_switch id d else d)).
Proof.
  intros Hok Hd Hid. pose proof Hok as (Ht & Hfit & Hm). pose proof Ht as (Hl & Ha & HC & HR & Hi & Hs & Hall).
  unfold switch_active_console, bind at 1, gets. unfold len. rewrite Hl. change (Z.of_nat 4) with 4. rewrite Z.ltb_antisym.
  destruct (Z.leb_spec 4 id); cbn [negb]; [split; [cbn; by rewrite app_nil_r|done]|].
  unfold bind at 1, on_tty, zoom, modify. set (c1 := set_field c_tty _ c).
  assert (Ht1 : tty_ok (c_tty c1)). { split; [done|]. split; [cbn; lia|]. done. }
  assert (Hd1 : desk_holds (desk_switch id d) (c_tty c1)) by (split; [done|]; apply Hd).
  destruct (has_fb (outputs (c_tty c))) eqn:Hfb.
  - apply (render_ends c1 _ Ht1); [by apply (con_ok_sized c Hok)|done].
  - split; [cbn; by rewrite app_nil_r|]. cbn. split; [|done]. split; [done|]. split; [done|]. intros Hfb'. cbn in Hfb'. congruence.
Qed.

Lemma show_log_ends c d : con_ok c -> desk_holds d (c_tty c) -> ends c (show_log_console c) [] (desk_holds (desk_switch 0 d)).
Proof.
  intros Hok Hd. pose proof (switch_ends c d LOG_CONSOLE_ID Hok Hd ltac:(done)) as [Hu He]. unfold show_log_console, catch.
  destruct (switch_active_console LOG_CONSOLE_ID c) as [[u|[|l]| |] c']; by split.
Qed.

Lemma write_to_ends c d id style text : con_ok c -> desk_holds d (c_tty c) -> 0 <= id ->
  ends c (write_to_console id style text c) [] (desk_holds (if id <? 4 then desk_text id style text d else d)).
Proof.
  intros Hok Hd Hid. pose proof Hok as (Ht & Hfit & Hm). pose proof Ht as (Hl & Ha & HC & HR & Hi & Hs & Hall).
  unfold write_to_console, bind at 1, gets. unfold len. rewrite Hl. change (Z.of_nat 4) with 4. rewrite Z.ltb_antisym.
  destruct (Z.leb_spec 4 id) as [|Hlt]; cbn [negb]; [split; [cbn; by rewrite app_nil_r|done]|].
  destruct (console_of _ id Ht ltac:(lia)) as (v & Hv & Hidx & Hvok & HvC & HvR).
  destruct (vc_write_style_run (E:=TtyExit) v style text Hvok) as (v' & Hrun & Hok' & HC' & HR' & _ & _ & Hterm).
  unfold bind at 1. rewrite (on_virtual_run id _ c v tt v' Hidx Hrun). set (c1 := set_field c_tty _ c).
  assert (Ht1 : tty_ok (c_tty c1)) by (apply tty_ok_insert; [done|done|congruence..]).
  assert (Hd1 : desk_holds (desk_text id style text d) (c_tty c1)) by (rewrite HvC, HvR in Hterm; by apply (desk_holds_text _ (c_tty c) _ _ _ _ v v')).
  destruct (Z.eqb_spec id (active_console_id (c_tty c))) as [Heq|Hne]; [destruct (has_fb (outputs (c_tty c))) eqn:Hfb|]; cbn [andb].
  - apply (render_ends c1 _ Ht1); [by apply (con_ok_sized c Hok)|done].
  - split; [cbn; by rewrite app_nil_r|]. split; [|done]. split; [done|]. split; [done|]. intros Hfb'. cbn in Hfb'. congruence.
  - split; [cbn; by rewrite app_nil_r|]. split; [|done]. split; [done|]. split; [done|]. intros Hfb' w. cbn. rewrite list_lookup_insert_ne by lia. by apply Hm.
Qed.

Lemma tty_ok_counters t b l : tty_ok t -> tty_ok (set_field tty_lines_written l (set_field tty_bytes_written b t)).
Proof. done. Qed.

Section serial.
Context (line_status : Uart -> nat -> Z) (polls : nat) (drains : uart_drains line_status polls).

(** A write always returns; the active console shows the text. *)
Lemma write_style_run c style text : con_ok c ->
  exists c', tty_write_style line_status polls style text c = (Ok tt, c') /\ con_ok c' /\ c_uart c' = c_uart c ++ sent (crlf (str_bytes text)) /\
    c_heap c' = c_heap c /\ outputs (c_tty c') = outputs (c_tty c) /\ active_console_id (c_tty c') = active_console_id (c_tty c) /\
    tty_columns (c_tty c') = tty_columns (c_tty c) /\ tty_rows (c_tty c') = tty_rows (c_tty c) /\
    fb_dims c' = fb_dims c /\
    exists v v', consoles (c_tty c) !! Z.to_nat (active_console_id (c_tty c)) = Some v /\
      consoles (c_tty c') = <[Z.to_nat (active_console_id (c_tty c)) := v']> (consoles (c_tty c)) /\
      term_eq (tty_columns (c_tty c)) (tty_rows (c_tty c)) (vc_term v') (term_write (tty_columns (c_tty c)) (tty_rows (c_tty c)) (fb_style style) text (vc_term v)).
Proof.
  intros Hok. pose proof Hok as (Ht & Hfit & Hm). pose proof Ht as (Hl & Ha & HC & HR & Hi & Hs & Hall).
  destruct (console_of _ _ Ht Ha) as (v & Hv & Hidx & Hvok & HvC & HvR).
  destruct (vc_write_style_run (E:=TtyExit) v style text Hvok) as (v' & Hrun & Hok' & HC' & HR' & _ & _ & Hterm). rewrite HvC, HvR in *.
  unfold tty_write_style, bind at 1, gets. set (out := if tty_initialized (c_tty c) then outputs (c_tty c) else OUTPUT_SERIAL).
  assert (Hser : negb (Z.land out OUTPUT_SERIAL =? 0) = true) by (unfold out; destruct (tty_initialized _); done).
  assert (Hfb : has_fb out = has_fb (outputs (c_tty c))).
  { unfold out. destruct (tty_initialized (c_tty c)); [done|]. destruct (has_fb (outputs (c_tty c))); [by specialize (Hi eq_refl)|done]. }
  rewrite Hser. unfold bind at 1, on_uart, zoom. rewrite (write_str_sent _ _ drains). set (c1 := set_field c_uart _ c).
  unfold bind at 1. rewrite (on_virtual_run _ _ c1 v tt v' Hidx Hrun). set (c2 := set_field c_tty _ c1). rewrite Hfb.
  assert (Ht2 : tty_ok (c_tty c2)) by (by apply tty_ok_insert).
  assert (Hv2 : consoles (c_tty c2) !! Z.to_nat (active_console_id (c_tty c2)) = Some v') by (cbn; apply list_lookup_insert_eq; lia).
  assert (Hshown : exists w w', consoles (c_tty c) !! Z.to_nat (active_console_id (c_tty c)) = Some w /\
    consoles (c_tty c2) = <[Z.to_nat (active_console_id (c_tty c)) := w']> (consoles (c_tty c)) /\
    term_eq (tty_columns (c_tty c)) (tty_rows (c_tty c)) (vc_term w') (term_write (tty_columns (c_tty c)) (tty_rows (c_tty c)) (fb_style style) text (vc_term w)))
    by (by exists v, v').
  destruct (has_fb (outputs (c_tty c))) eqn:Hout.
  - destruct (fb_write_shows (E:=TtyExit) (c_fb c) _ _ _ (fb_style style) text (Hm Hout v Hv)) as (fb' & Hrf & Hkept & Hshow).
    unfold bind at 1, on_fb, zoom. change (c_fb c2) with (c_fb c). rewrite Hrf. eexists. split; [reflexivity|].
    split; [|do 6 (split; [done|]); split; [exact (fb_shows_dims _ _ _ _ _ (fb_shows_sized _ _ _ _ (Hm Hout v Hv)) Hkept Hshow)|exact Hshown]].
    split; [by apply tty_ok_counters|].
    cbn. split; [by apply (fb_sized_fits _ (tty_columns (c_tty c)) (tty_rows (c_tty c))); [lia|lia|apply (fb_shows_sized _ _ _ _ Hshow)]|].
    intros _ w Hw. cbn in Hw, Hv2. rewrite Hv2 in Hw. injection Hw as <-. cbn. eapply fb_shows_eq; [|exact Hshow]. by symmetry.
  - eexists. split; [reflexivity|]. split; [|do 7 (split; [done|]); exact Hshown]. split; [by apply tty_ok_counters|]. split; [done|]. intros Hfb'. cbn in Hfb'. congruence.
Qed.

Lemma write_style_ends c d style text : con_ok c -> desk_holds d (c_tty c) ->
  ends c (tty_write_style line_status polls style text c) (sent (crlf (str_bytes text))) (desk_holds (desk_text (d_active d) style text d)).
Proof.
  intros Hok Hd. destruct (write_style_run c style text Hok) as (c' & -> & Hok' & Hu & _ & _ & Ha & HC & HR & Hdims & v & v' & Hv & Hcons & Hterm).
  split; [done|]. split; [done|]. split; [done|]. rewrite <- (proj1 Hd). by apply (desk_holds_text _ (c_tty c) _ _ _ _ v v').
Qed.

Lemma configure_all_run c C R : length (consoles (c_tty c)) = 4%nat -> 1 <= C <= 160 -> 1 <= R <= 70 ->
  Forall (fun v => length (vc_cells v) = Z.to_nat MAX_CELLS) (consoles (c_tty c)) ->
  exists vs, for_range 0 4 (fun i => on_virtual i (configure C R)) c = (Ok tt, set_field c_tty (set_field consoles vs (c_tty c)) c) /\
    length vs = 4%nat /\ Forall (fun v => (vc_ok v /\ vc_columns v = C /\ vc_rows v = R) /\ term_eq C R (vc_term v) blank_term) vs.
Proof.
  intros Hl HC HR Hall.
  destruct (for_range_rule (E:=TtyExit) (fun n c1 => exists vs, c1 = set_field c_tty (set_field consoles vs (c_tty c)) c /\ length vs = 4%nat /\
    (forall i v, vs !! i = Some v -> length (vc_cells v) = Z.to_nat MAX_CELLS) /\
    (forall i v, (i < Z.to_nat n)%nat -> vs !! i = Some v -> (vc_ok v /\ vc_columns v = C /\ vc_rows v = R) /\ term_eq C R (vc_term v) blank_term)) 0 4 (fun i => on_virtual i (configure C R)) c)
    as (c' & Hrun & vs & -> & Hlv & _ & Hdone); [lia| | |].
  - exists (consoles (c_tty c)). split; [by destruct c as [[] ? ? ?]|]. split; [done|]. split; [|intros; lia]. intros i v Hv. by apply (Forall_lookup_1 _ _ _ _ Hall Hv).
  - intros n c1 Hn (vs & -> & Hlv & Hcells & Hdone). destruct (lookup_lt_is_Some_2 vs (Z.to_nat n)) as [v Hv]; [lia|].
    destruct (configure_run (E:=TtyExit) v C R) as (v' & Hrun & Hok' & HC' & HR' & Hblank); [by apply (Hcells _ _ Hv)|].
    assert (HvC : vc_columns v' = C) by lia. assert (HvR : vc_rows v' = R) by lia. rewrite HvC, HvR in Hblank.
    eexists. split; [eapply on_virtual_run; [apply (idx_ok _ _ v); [lia|exact Hv]|exact Hrun]|]. exists (<[Z.to_nat n := v']> vs).
    split; [done|]. split; [by rewrite length_insert|].
    split.
    + intros i w [(<- & <- & _)|[_ Hw]]%list_lookup_insert_Some; [apply Hok'|by apply (Hcells i)].
    + intros i w Hi [(<- & <- & _)|[Hne Hw]]%list_lookup_insert_Some; [done|]. apply (Hdone i); [lia|done].
  - exists vs. split; [done|]. split; [done|]. apply Forall_lookup. intros i v Hv. apply (Hdone i); [|done]. apply lookup_lt_Some in Hv. lia.
Qed.

(** The state and the rest of [tty_initialize] once every console has the new geometry. *)
Definition initialize_tail (fb_output : bool) : M Con TtyExit TtyBootstrap :=
  do! (if fb_output then render_active_console else ret tt) in
  let! t := gets c_tty in ret (mkBootstrap (active_console_id t) (output_count (outputs t)) fb_output VIRTUAL_CONSOLE_COUNT (tty_columns t) (tty_rows t)).
Definition start_dims (fb_output : bool) (c : Con) : Z * Z :=
  if fb_output then default (DEFAULT_COLUMNS, DEFAULT_ROWS) (console_dimensions (c_fb c)) else (DEFAULT_COLUMNS, DEFAULT_ROWS).
Lemma initialize_start c fb_output : con_ok c -> exists c2, tty_initialize fb_output c = initialize_tail fb_output c2 /\ tty_ok (c_tty c2) /\
  c_fb c2 = c_fb c /\ c_heap c2 = c_heap c /\ c_uart c2 = c_uart c /\ has_fb (outputs (c_tty c2)) = fb_output /\ desk_holds (desk_start (start_dims fb_output c)) (c_tty c2) /\
  tty_columns (c_tty c2) = Z.max (Z.min (start_dims fb_output c).1 160) 1 /\ tty_rows (c_tty c2) = Z.max (Z.min (start_dims fb_output c).2 70) 1.
Proof.
  intros (Ht & Hfit & Hm). pose proof Ht as (Hl & Ha & HC & HR & Hi & Hs & Hall).
  set (dims := start_dims fb_output c). set (C := Z.max (Z.min dims.1 160) 1). set (R := Z.max (Z.min dims.2 70) 1).
  set (outs := if fb_output then Z.lor OUTPUT_SERIAL OUTPUT_FRAMEBUFFER else OUTPUT_SERIAL).
  set (t1 := mkTty true 0 outs 0 0 C R (consoles (c_tty c))). set (c1 := set_field c_tty t1 c).
  destruct (configure_all_run c1 C R) as (vs & Hrun & Hlv & Hvs); [done|lia|lia|eapply Forall_impl; [exact Hall|by intros v [(_ & _ & _ & _ & ?) _]]|].
  set (c2 := set_field c_tty (set_field consoles vs t1) c1) in *. exists c2. split.
  - unfold tty_initialize. do 3 (unfold bind at 1, on_tty at 1, zoom at 1, modify at 1).
    transitivity ((do! for_range 0 (len (consoles t1)) (fun i => on_virtual i (configure C R)) in initialize_tail fb_output) c1).
    + unfold c1, t1, C, R, dims, start_dims, outs. clear. destruct fb_output; [|reflexivity].
      unfold bind at 1, on_tty at 1, zoom at 1, modify at 1. unfold bind at 1, gets at 1.
      change (console_dimensions (c_fb _)) with (console_dimensions (c_fb c)). destruct (console_dimensions (c_fb c)) as [[? ?]|]; reflexivity.
    + unfold bind at 1. unfold len. cbn [consoles t1]. rewrite Hl. change (Z.of_nat 4) with 4. by rewrite Hrun.
  - assert (Hd : desk_holds (desk_start dims) (c_tty c2)).
    { do 3 (split; [reflexivity|]). change (Forall2 (fun v => term_eq C R (vc_term v)) vs (replicate 4 blank_term)). rewrite <- Hlv.
      apply Forall2_replicate_r; [done|]. eapply Forall_impl; [exact Hvs|]. by intros v [_ Hb]. }
    split; [|split_and!; try reflexivity; [by destruct fb_output|exact Hd]].
    split; [done|]. split; [cbn; lia|]. split; [cbn; lia|]. split; [cbn; lia|]. split; [done|]. split; [by destruct fb_output|].
    eapply Forall_impl; [exact Hvs|]. by intros v [Hv _].
Qed.

(** Without a frame buffer there is nothing to draw and no memory to take. *)
Lemma initialize_serial c : con_ok c -> exists b c', tty_initialize false c = (Ok b, c') /\ con_ok c' /\ c_heap c' = c_heap c.
Proof.
  intros Hc. destruct (initialize_start c false Hc) as (c2 & Hr & Ht & Hfb & Hh & _ & Ho & _). rewrite Hr. eexists _, c2. split; [reflexivity|].
  split; [|exact Hh]. destruct Hc as (_ & Hfit & _). split; [exact Ht|]. split; [by rewrite Hfb|]. intros H. rewrite Ho in H. discriminate.
Qed.
Lemma initialize_ends c fb_output : con_ok c -> ends c (tty_initialize fb_output c) [] (desk_holds (desk_start (start_dims fb_output c))).
Proof.
  intros Hc. destruct (initialize_start c fb_output Hc) as (c2 & Hr & Ht & Hfb & Hh & Hu & Ho & Hd & HC & HR). rewrite Hr. destruct Hc as (_ & Hfit & _). unfold initialize_tail.
  assert (Hdims : fb_dims c2 = fb_dims c) by (unfold fb_dims; by rewrite Hfb). destruct fb_output.
  - assert (Hsz : fb_sized (c_fb c2) (tty_columns (c_tty c2)) (tty_rows (c_tty c2))).
    { intros fc Hfc. rewrite Hfb in Hfc. destruct (Hfit fc Hfc) as (Hok & H1 & H2). split; [done|]. rewrite HC, HR. unfold start_dims, console_dimensions. rewrite Hfc. cbn.
      unfold console_ok in Hok. lia. }
    pose proof (render_ends c2 _ Ht Hsz Hd) as [Hu2 He]. unfold bind at 1. destruct (render_active_console c2) as [[[]|[|l]| |] c']; unfold ends; rewrite <- Hu, <- Hh, <- Hdims; by split.
  - unfold bind, ret, gets. split; [cbn; by rewrite Hu, app_nil_r|]. cbn -[con_ok start_dims desk_start]. split; [|done]. split; [done|]. split; [by rewrite Hfb|].
    intros H. rewrite Ho in H. discriminate.
Qed.
End serial.

(** ** Any sequence of calls *)
Inductive TtyCall : Type :=
| CallInitialize (fb_output : bool)
| CallWrite (style : TtyStyle) (text : list Z)
| CallWriteTo (console_id : Z) (style : TtyStyle) (text : list Z)
| CallSwitch (console_id : Z)
| CallShowLog.
Definition call_ok (k : TtyCall) : Prop := match k with CallWriteTo id _ _ | CallSwitch id => 0 <= id | _ => True end.

Section calls.
Context (line_status : Uart -> nat -> Z) (polls : nat).

(** The caller drops the result of a call, as the kernel does. *)
Definition ignore {A} (m : M Con TtyExit A) : M Con TtyExit unit :=
  catch m (fun r => match r with inr (AllocError l) => throw (AllocError l) | _ => ret tt end).
Definition run_call (k : TtyCall) : M Con TtyExit unit :=
  match k with
  | CallInitialize b => ignore (tty_initialize b)
  | CallWrite style text => ignore (tty_write_style line_status polls style text)
  | CallWriteTo id style text => ignore (write_to_console id style text)
  | CallSwitch id => ignore (switch_active_console id)
  | CallShowLog => ignore show_log_console
  end.
Definition call_sends (k : TtyCall) : Uart := match k with CallWrite _ text => sent (crlf (str_bytes text)) | _ => [] end.

(** What a call means for the desk; [dims] is the size of the frame buffer console. *)
Definition desk_step (dims : option (Z * Z)) (d : Desk) (k : TtyCall) : Desk :=
  match k with
  | CallInitialize b => desk_start (if b then default (80, 25) dims else (80, 25))
  | CallWrite style text => desk_text (d_active d) style text d
  | CallWriteTo id style text => if id <? 4 then desk_text id style text d else d
  | CallSwitch id => if id <? 4 then desk_switch id d else d
  | CallShowLog => desk_switch 0 d
  end.

Lemma ignore_ends {A} c (m : M Con TtyExit A) out P : ends c (m c) out P -> ends c (ignore m c) out P.
Proof. intros [Hu He]. unfold ignore, catch. destruct (m c) as [[a|[|l]| |] c']; by split. Qed.

Lemma run_call_ends c d k : uart_drains line_status polls -> con_ok c -> desk_holds d (c_tty c) -> call_ok k ->
  ends c (run_call k c) (call_sends k) (desk_holds (desk_step (fb_dims c) d k)).
Proof.
  intros Hd Hok Hdesk Hk. destruct k; cbn [run_call call_sends desk_step]; apply ignore_ends;
    [by apply initialize_ends|by apply write_style_ends|by apply write_to_ends|by apply switch_ends|by apply show_log_ends].
Qed.

(** A call returns, or the redraw finds no memory. *)
Lemma run_call_cases c d k : uart_drains line_status polls -> con_ok c -> desk_holds d (c_tty c) -> call_ok k ->
  exists c', (run_call k c = (Ok tt, c') /\ con_ok c' /\ fb_dims c' = fb_dims c /\ desk_holds (desk_step (fb_dims c) d k) (c_tty c') /\ c_uart c' = c_uart c ++ call_sends k) \/
    (run_call k c = (Err (AllocError CELLS_LAYOUT), c') /\ heap_full (c_heap c)).
Proof.
  intros Hd Hok Hdesk Hk. destruct (run_call_ends c d k Hd Hok Hdesk Hk) as [Hu He]. destruct (run_call k c) as [[[]|[|l]| |] c1] eqn:Hrun; cbn [fst snd] in He, Hu; try done.
  - exists c1. left. by destruct He as (? & ? & ?).
  - exfalso. destruct k; cbn in Hrun; unfold ignore, catch in Hrun; repeat case_match; try done; congruence.
  - exists c1. right. by destruct He as [-> ?].
Qed.

(** C35. For any sequence of calls on a terminal whose frame buffer console, if there is
    one, has at most 160 columns and 70 rows, with a serial port that drains: if all return,
    each of the four virtual consoles holds exactly the texts written to it, in order and in
    their styles, wrapped and scrolled on its grid, whether it was active or not; a
    console number beyond the last changes nothing; the frame buffer, once it is an
    output, shows the active console cell for cell ([con_ok]), and the serial line
    carries the texts written to the active console in order, each line feed preceded by
    a carriage return. The only way a call does not return is that the heap has no block
    for the copy of the cells a redraw makes: then the allocation error handler is entered. *)
Theorem tty_shows_active_console (c : Con) (d : Desk) (calls : list TtyCall)
    (drains : uart_drains line_status polls) (Hc : con_ok c) (Hd : desk_holds d (c_tty c)) (Hcalls : Forall call_ok calls) :
  let r := for_each calls run_call c in
  match r.1 with
  | Ok _ => con_ok r.2 /\ desk_holds (foldl (desk_step (fb_dims c)) d calls) (c_tty r.2) /\ c_uart r.2 = c_uart c ++ concat (call_sends <$> calls)
  | Err e => e = AllocError CELLS_LAYOUT /\ exists before k after c1, calls = before ++ k :: after /\ for_each before run_call c = (Ok tt, c1) /\ heap_full (c_heap c1)
  | Panic | Diverge => False
  end.
Proof.
  revert c d Hc Hd. induction Hcalls as [|k calls Hk _ IH]; intros c d Hc Hd; cbn [for_each]; [split_and!; [done..|by rewrite app_nil_r]|].
  destruct (run_call_cases c d k drains Hc Hd Hk) as (c1 & [(Hrun & Hc1 & Hdims & Hd1 & Hu)|[Hrun Hfull]]); unfold bind; rewrite Hrun.
  - specialize (IH c1 _ Hc1 Hd1). cbv beta iota zeta in IH |- *. rewrite Hdims in IH. destruct (for_each calls run_call c1) as [[u|e| |] c2]; cbn [fst snd] in IH |- *; try done.
    + destruct IH as (? & ? & ->). rewrite Hu. split; [done|]. split; [done|]. cbn. by rewrite <- app_assoc.
    + destruct IH as (-> & before & k' & after & c3 & -> & Hb & Hf). split; [done|]. exists (k :: before), k', after, c3. split; [done|]. split; [|done].
      cbn [for_each]. unfold bind. by rewrite Hrun.
  - cbn [fst]. split; [done|]. by exists [], k, calls, c.
Qed.
End calls.

(** The terminal of the boot: serial only, empty consoles. *)
Definition boot_con (fb : FbState) (h : BumpAllocator) : Con := mkCon tty_new fb h [].
Lemma vc_new_ok : vc_ok vc_new.
Proof. unfold vc_ok, vc_new. cbn [vc_columns vc_rows vc_cursor_column vc_cursor_row vc_cells]. rewrite length_replicate. unfold DEFAULT_COLUMNS, DEFAULT_ROWS. lia. Qed.
Lemma boot_con_ok fb h : fb_fits fb -> con_ok (boot_con fb h).
Proof.
  intros Hfit. split; [|by split]. split; [done|]. split; [cbn; lia|]. split; [cbn; unfold DEFAULT_COLUMNS; lia|]. split; [cbn; unfold DEFAULT_ROWS; lia|]. split; [done|]. split; [done|].
  cbn [consoles boot_con c_tty tty_new]. apply Forall_replicate. split; [apply vc_new_ok|done].
Qed.

(** A frame buffer of at most 1920x1080 pixels, the largest mode the kernel sets, fits. *)
Lemma fb_mode_fits f s : fb_accepted f -> fr_width f <= 1920 -> fr_height f <= 1080 -> fb_fits (fb_initialize f s).2.
Proof.
  intros Hacc Hw Hh. destruct (fb_initialize_run f s Hacc) as (su & c & s' & -> & Hc & _ & _ & HC & HR & (Hok & _) & _). cbn. intros fc Hfc.
  rewrite Hc in Hfc. injection Hfc as <-. split; [done|]. rewrite HC, HR. split; [apply (Z.div_le_mono _ 1920)|etransitivity; [apply (Z.div_le_mono _ 1080)|]]; done || lia.
Qed.

Definition demo_calls : list TtyCall :=
  [CallInitialize true; CallWrite Success (lit "ok" ++ [10]); CallWriteTo 2 Muted (lit "second"); CallSwitch 2; CallSwitch 9; CallShowLog].
Definition demo_con : Con := boot_con (fb_initialize demo_fb (mkFbState None ∅ 0)).2 (mkBump 0x100000 0x900000 0x100000 0 true).

Lemma demo_con_ok : con_ok demo_con.
Proof. apply boot_con_ok. apply fb_mode_fits; [apply demo_fb_accepted|cbn; lia..]. Qed.

(** The desk of the boot: four blank consoles. *)
Lemma boot_desk fb h : desk_holds (desk_start (80, 25)) (c_tty (boot_con fb h)).
Proof.
  do 3 (split; [reflexivity|]). apply Forall2_replicate. split; [reflexivity|]. split; [reflexivity|]. intros r c Hr Hc. cbn [vc_term tm_grid]. unfold cell_at, vc_new. cbn [vc_cells vc_columns].
  destruct (replicate _ _ !! _) eqn:H; [by apply lookup_replicate in H as [-> _]|done].
Qed.

Lemma tty_shows_active_console_witness :
  let r := for_each demo_calls (run_call idle_line 1) demo_con in
  match r.1 with
  | Ok _ => con_ok r.2 /\ desk_holds (foldl (desk_step (fb_dims demo_con)) (desk_start (80, 25)) demo_calls) (c_tty r.2) /\ c_uart r.2 = [] ++ concat (call_sends <$> demo_calls)
  | Err e => e = AllocError CELLS_LAYOUT /\ exists before k after c1, demo_calls = before ++ k :: after /\
      for_each before (run_call idle_line 1) demo_con = (Ok tt, c1) /\ heap_full (c_heap c1)
  | Panic | Diverge => False
  end.
Proof.
  apply (tty_shows_active_console idle_line 1 demo_con (desk_start (80, 25)) demo_calls (idle_drains 1 ltac:(lia))).
  - apply demo_con_ok.
  - apply boot_desk.
  - repeat constructor; cbn; lia.
Defined.

(** ** What a redraw costs

    The copy of the cells is freed after the redraw, but the heap only takes memory
    back when no block at all is in use. *)
Definition heap_busy (h : BumpAllocator) : Prop :=
  b_initialized h = true /\ 1 <= allocations h < U64 - 1 /\ 0 <= b_next h <= b_end h /\ b_end h <= U64 - 8.

Lemma busy_block_lost h p h1 h2 : heap_busy h -> alloc (E:=TtyExit) CELLS_LAYOUT h = (Ok (Some p), h1) -> dealloc (E:=TtyExit) p CELLS_LAYOUT h1 = (Ok tt, h2) ->
  heap_busy h2 /\ b_end h2 = b_end h /\ b_next h + 89600 <= b_next h2.
Proof.
  intros (Hi & Hn & Hx & He) Ha Hd. assert (Hup : b_next h <= heap_align_up (b_next h) 4).
  { unfold heap_align_up. change (4 =? 0) with false. cbv iota.
    pose proof (align_up_pow2 (b_next h) 2 64 ltac:(lia) ltac:(change (2 ^ 64) with U64; lia)) as (_ & _ & Hr & _). change (2 ^ 64) with U64 in Hr. change (2 ^ 2) with 4 in Hr. lia. }
  unfold alloc, bind, gets, id, ret, modify in Ha. rewrite Hi in Ha. cbn [negb] in Ha. change (l_align CELLS_LAYOUT) with 4 in Ha. change (l_size CELLS_LAYOUT) with 89600 in Ha.
  destruct (Z.ltb_spec (b_end h) (sat_add U64 (heap_align_up (b_next h) 4) 89600)) as [|Hfit]; [done|]. injection Ha as Hp Hh1.
  assert (Hn1 : allocations h1 = allocations h + 1) by (rewrite <- Hh1; unfold upd; cbn [allocations b_next]; unfold sat_add; lia).
  assert (Hx1 : b_next h1 = heap_align_up (b_next h) 4 + 89600) by (rewrite <- Hh1; unfold upd; cbn [allocations b_next]; unfold sat_add in *; lia).
  assert (He1 : b_end h1 = b_end h /\ b_initialized h1 = true) by (rewrite <- Hh1; done).
  unfold dealloc, bind, gets, id, ret, modify, lift in Hd. rewrite (proj2 (Z.ltb_lt 0 (allocations h1))), sub_ok in Hd by lia.
  destruct (Z.eqb_spec (allocations h1 - 1) 0); [lia|]. injection Hd as <-. unfold heap_busy, set_field, upd. cbn [b_initialized allocations b_next b_end]. unfold sat_add in *. destruct He1 as [He1 Hi1]. split; [split; [done|]|]; lia.
Qed.

Lemma render_costs c c' : render_active_console c = (Ok tt, c') -> heap_busy (c_heap c) ->
  c_tty c' = c_tty c /\ heap_busy (c_heap c') /\ b_end (c_heap c') = b_end (c_heap c) /\ b_next (c_heap c) + 89600 <= b_next (c_heap c').
Proof.
  intros Hr Hb. unfold render_active_console, bind at 1, gets in Hr. unfold bind at 1, lift in Hr. destruct (idx _ _) as [v| | |]; [|done..].
  unfold bind at 1, on_heap at 1, zoom in Hr. destruct (alloc_returns (E:=TtyExit) CELLS_LAYOUT (c_heap c)) as (o & h1 & Ha). rewrite Ha in Hr. destruct o as [p|]; [|done].
  unfold bind, on_fb, on_heap, zoom in Hr. destruct (render_console _ _ _ _ _ _) as [[[]|e| |] fb']; try done.
  destruct (dealloc_returns (E:=TtyExit) p CELLS_LAYOUT h1) as (h2 & Hd). change (c_heap (set_field c_fb fb' (set_field c_heap h1 c))) with h1 in Hr. rewrite Hd in Hr.
  injection Hr as <-. split; [done|]. exact (busy_block_lost _ _ _ _ Hb Ha Hd).
Qed.

Lemma switch_costs c id : con_ok c -> has_fb (outputs (c_tty c)) = true -> 0 <= id < 4 -> heap_busy (c_heap c) ->
  exists c', switch_active_console id c = (Err (AllocError CELLS_LAYOUT), c') \/ (switch_active_console id c = (Ok tt, c') /\ con_ok c' /\
    has_fb (outputs (c_tty c')) = true /\ heap_busy (c_heap c') /\ b_end (c_heap c') = b_end (c_heap c) /\ b_next (c_heap c) + 89600 <= b_next (c_heap c')).
Proof.
  intros Hok Hfb Hid Hb. pose proof Hok as (Ht & _). pose proof Ht as (Hl & Ha & HC & HR & Hi & Hs & Hall).
  set (c1 := set_field c_tty (set_field active_console_id id (c_tty c)) c). assert (Hsw : switch_active_console id c = render_active_console c1).
  { unfold switch_active_console, bind at 1, gets. unfold len. rewrite Hl, (proj2 (Z.leb_gt (Z.of_nat 4) id)) by lia. unfold bind at 1, on_tty, zoom, modify. by rewrite Hfb. }
  rewrite Hsw. destruct (render_cases c1) as (o & c2 & Hr & _ & Htty & _ & [[-> Hok2]|[-> _]]); [by split; [|split; [cbn; lia|]]|by apply (con_ok_sized c Hok)| |]; exists c2; [right|by left].
  destruct (render_costs c1 c2 Hr Hb) as (_ & Hrest). split; [done|]. split; [done|]. split; [by rewrite Htty|]. exact Hrest.
Qed.

(** While any other block of the kernel heap is in use, no redraw of the screen
    gives its memory back: [n] switches of the active console on a heap with less than
    [n * 89600] bytes left end in the allocation error handler. *)
Theorem switching_exhausts_heap (c : Con) (ids : list Z) (Hc : con_ok c) (Hfb : has_fb (outputs (c_tty c)) = true)
    (Hids : Forall (fun id => 0 <= id < 4) ids) (Hbusy : heap_busy (c_heap c)) (Hroom : b_end (c_heap c) - b_next (c_heap c) < len ids * 89600) :
  exists c', for_each ids switch_active_console c = (Err (AllocError CELLS_LAYOUT), c').
Proof.
  revert c Hc Hfb Hbusy Hroom. induction Hids as [|id ids Hid _ IH]; intros c Hc Hfb Hb Hroom; cbn [for_each].
  - exfalso. destruct Hb as (_ & _ & Hx & _). unfold len in Hroom. cbn in Hroom. lia.
  - unfold bind. destruct (switch_costs c id Hc Hfb Hid Hb) as (c1 & [->|(-> & Hc1 & Hfb1 & Hb1 & Hend & Hnext)]); [by exists c1|].
    apply IH; [done..|]. rewrite len_cons in Hroom. lia.
Qed.

(** A screen and a heap of 8 MiB with one block in use. *)
Definition busy_con : Con := mkCon (set_field outputs 3 (set_field tty_initialized true tty_new)) (mkFbState None ∅ 0) (mkBump 0x100000 0x900000 0x100040 1 true) [].
Lemma busy_con_ok : con_ok busy_con.
Proof. destruct (boot_con_ok (mkFbState None ∅ 0) (mkBump 0x100000 0x900000 0x100040 1 true)) as ((Hl & Ha & HC & HR & _ & _ & Hall) & Hfit & _); [done|]. split; [|by split]. by repeat (split; [done|]). Qed.

Lemma switching_exhausts_heap_witness :
  exists c', for_each (concat (replicate 47 [1; 0])) switch_active_console busy_con = (Err (AllocError CELLS_LAYOUT), c').
Proof.
  apply (switching_exhausts_heap busy_con); [apply busy_con_ok|reflexivity| |vm_compute; repeat split; discriminate|vm_compute; reflexivity].
  apply Forall_concat, Forall_replicate. repeat constructor; lia.
Defined.
