(* ===== verification/Log.v ===== *)
(** * Kernel messages: [kernel/src/log.rs] and [kernel/src/panic.rs]

    [Kernel] is the terminal's state and the interrupt flag. The arguments of a
    message are the pieces [core::fmt] hands to [write_str]. The handlers of a panic
    and of a failed allocation end in [Halted]; a failed allocation inside them calls
    the allocation handler again, so it recurses on a bound. *)
From stdpp Require Import base list numbers option strings gmap.
From Stdlib Require Import ZArith Lia Bool.
From S2P Require Import Prelude Paths Text Frame Heap Machine Serial Font Fb FbFacts Tty TtyFacts.

Record Kernel : Type := mkKernel { k_con : Con; interrupts_on : bool }.
#[export] Instance Kernel_eta : RecordEta Kernel := fun k => mkKernel (k_con k) (interrupts_on k).
Inductive Halt : Type := Halted.

Section messages.
Context (line_status : Uart -> nat -> Z) (polls : nat).
Definition on_con {E A} (m : M Con E A) : M Kernel E A := zoom k_con (fun c k => set_field k_con c k) m.

(** ** Log records *)

(** [InterruptGuard::new] and its [drop]. *)
Definition guard_new : M Kernel TtyExit bool :=
  let! flag := gets interrupts_on in
  do! modify (set_field interrupts_on false) in ret flag.
Definition guard_drop (flag : bool) : M Kernel TtyExit unit := if flag then modify (set_field interrupts_on true) else ret tt.

(** [KernelWriter::write_str] *)
Definition writer_write_str (style : TtyStyle) (text : list Z) : M Kernel TtyExit unit :=
  on_con (match style with Default => tty_write_str line_status polls text | style => tty_write_style line_status polls style text end).
Definition write_fmt (style : TtyStyle) (args : list (list Z)) : M Kernel TtyExit unit := for_each args (writer_write_str style).

Definition log_write (args : list (list Z)) : M Kernel TtyExit unit :=
  let! guard := guard_new in
  do! write_fmt Default args in
  guard_drop guard.

Definition stamp (now : Z * Z) : list (list Z) := [lit "["; dec now.1; lit "."; zero_pad 9 (dec now.2); lit "] "].
Definition write_record_with_style (clock : Clock) (tsc : Z) (style : TtyStyle) (args : list (list Z)) : M Kernel TtyExit unit :=
  let! guard := guard_new in
  do! write_fmt style (stamp (timestamp clock tsc)) in
  do! write_fmt style args in
  do! writer_write_str style [10] in
  guard_drop guard.
Definition write_record (clock : Clock) (tsc : Z) (args : list (list Z)) : M Kernel TtyExit unit := write_record_with_style clock tsc Default args.

(** ** The handlers that do not return *)
Definition halt_forever : M Kernel Halt unit := throw Halted.

(** A call on the terminal from a handler: a failed allocation enters the allocation handler. *)
Definition or_alloc_error (on_alloc : Layout -> M Kernel Halt unit) (m : M Con TtyExit unit) : M Kernel Halt unit :=
  catch (on_con m) (fun r => match r with inr (AllocError l) => on_alloc l | _ => ret tt end).

Definition write_fatal_line (on_alloc : Layout -> M Kernel Halt unit) (args : list (list Z)) : M Kernel Halt unit :=
  do! for_each args (fun text => or_alloc_error on_alloc (tty_write_style line_status polls Fatal text)) in
  or_alloc_error on_alloc (tty_write_style line_status polls Fatal [10]).

Definition prepare (on_alloc : Layout -> M Kernel Halt unit) : M Kernel Halt unit :=
  do! on_con (zoom c_uart (fun t c => set_field c_uart t c) serial_init) in
  do! modify (set_field interrupts_on false) in
  or_alloc_error on_alloc show_log_console.

Fixpoint alloc_error (fuel : nat) (layout : Layout) : M Kernel Halt unit :=
  match fuel with
  | O => diverge
  | S fuel' =>
      let line := write_fatal_line (alloc_error fuel') in
      do! prepare (alloc_error fuel') in
      do! line [lit "================= ALLOCATION FAILURE ================="] in
      do! line [lit "size      "; dec (l_size layout)] in
      do! line [lit "align     "; dec (l_align layout)] in
      do! line [lit "======================================================"] in
      halt_forever
  end.

(** [location] is the file, the line and the column of the panic. *)
Definition panic_handler (fuel : nat) (location : option (list Z * Z * Z)) (message : list (list Z)) : M Kernel Halt unit :=
  let line := write_fatal_line (alloc_error fuel) in
  do! prepare (alloc_error fuel) in
  do! line [lit "==================== KERNEL PANIC ===================="] in
  do! line (match location with
            | Some (file, row, column) => [lit "location  "; file; lit ":"; dec row; lit ":"; dec column]
            | None => [lit "location  <unknown>"]
            end) in
  do! line (lit "message   " :: message) in
  do! line [lit "action    cpu halted"] in
  do! line [lit "======================================================"] in
  halt_forever.
End messages.

(** * Facts *)
Lemma str_bytes_app a b : str_bytes (a ++ b) = str_bytes a ++ str_bytes b.
Proof. unfold str_bytes. by rewrite fmap_app, concat_app. Qed.
Lemma sent_text_app a b : sent (crlf (str_bytes (a ++ b))) = sent (crlf (str_bytes a)) ++ sent (crlf (str_bytes b)).
Proof. unfold sent. by rewrite str_bytes_app, crlf_app, fmap_app. Qed.
Definition sent_text (text : list Z) : Uart := sent (crlf (str_bytes text)).

Section facts.
Context (line_status : Uart -> nat -> Z) (polls : nat) (drains : uart_drains line_status polls).

(** From [c] to [c'] the text [text] was written to the active console in [style], and to nothing else. *)
Definition wrote (style : TtyStyle) (c c' : Con) (text : list Z) : Prop :=
  con_ok c' /\ c_uart c' = c_uart c ++ sent_text text /\ c_heap c' = c_heap c /\ outputs (c_tty c') = outputs (c_tty c) /\
  active_console_id (c_tty c') = active_console_id (c_tty c) /\ tty_columns (c_tty c') = tty_columns (c_tty c) /\ tty_rows (c_tty c') = tty_rows (c_tty c) /\
  forall v, consoles (c_tty c) !! Z.to_nat (active_console_id (c_tty c)) = Some v ->
    exists v', consoles (c_tty c') !! Z.to_nat (active_console_id (c_tty c)) = Some v' /\
      term_eq (tty_columns (c_tty c)) (tty_rows (c_tty c)) (vc_term v') (term_write (tty_columns (c_tty c)) (tty_rows (c_tty c)) (fb_style style) text (vc_term v)).

Lemma wrote_nothing style c : con_ok c -> wrote style c c [].
Proof. intros Hok. split; [done|]. split; [by rewrite app_nil_r|]. do 5 (split; [done|]). intros v Hv. by exists v. Qed.

Lemma wrote_trans style c c1 c2 t1 t2 : wrote style c c1 t1 -> wrote style c1 c2 t2 -> wrote style c c2 (t1 ++ t2).
Proof.
  intros (H1 & U1 & P1 & O1 & A1 & C1 & R1 & V1) (H2 & U2 & P2 & O2 & A2 & C2 & R2 & V2). split; [done|].
  split; [unfold sent_text in *; by rewrite U2, U1, sent_text_app, app_assoc|]. do 5 (split; [congruence|]). intros v Hv.
  destruct (V1 v Hv) as (v1 & Hv1 & Ht1). rewrite A1, C1, R1 in V2. destruct (V2 v1 Hv1) as (v2 & Hv2 & Ht2). exists v2. split; [done|].
  rewrite Ht2. unfold term_write. rewrite foldl_app. by apply term_write_proper.
Qed.

Lemma write_wrote style c text : con_ok c -> exists c', tty_write_style line_status polls style text c = (Ok tt, c') /\ wrote style c c' text.
Proof.
  intros Hok. destruct (write_style_run _ _ drains c style text Hok) as (c' & Hrun & Hok' & Hu & Hh & Ho & Ha & HC & HR & _ & v & v' & Hv & Hcons & Ht).
  exists c'. split; [done|]. do 7 (split; [done|]). intros w Hw. rewrite Hv in Hw. injection Hw as <-. exists v'. split; [|done].
  rewrite Hcons. apply list_lookup_insert_eq. by eapply lookup_lt_Some.
Qed.

Lemma writer_wrote style text k : con_ok (k_con k) ->
  exists c', writer_write_str line_status polls style text k = (Ok tt, mkKernel c' (interrupts_on k)) /\ wrote style (k_con k) c' text.
Proof.
  intros Hok. destruct (write_wrote style (k_con k) text Hok) as (c' & Hrun & Hw). exists c'. split; [|done].
  unfold writer_write_str, on_con, zoom. destruct style; unfold tty_write_str; rewrite Hrun; by destruct k.
Qed.

Lemma write_fmt_wrote style args : forall k, con_ok (k_con k) ->
  exists c', write_fmt line_status polls style args k = (Ok tt, mkKernel c' (interrupts_on k)) /\ wrote style (k_con k) c' (concat args).
Proof.
  induction args as [|a args IH]; intros k Hok; cbn [write_fmt for_each concat].
  - exists (k_con k). split; [by destruct k|by apply wrote_nothing].
  - destruct (writer_wrote style a k Hok) as (c1 & Hrun1 & Hw1). destruct (IH (mkKernel c1 (interrupts_on k))) as (c2 & Hrun2 & Hw2); [apply Hw1|].
    exists c2. split; [|by eapply wrote_trans]. unfold bind. rewrite Hrun1. exact Hrun2.
Qed.

(** The text of a record. *)
Definition record_text (clock : Clock) (tsc : Z) (args : list (list Z)) : list Z := concat (stamp (timestamp clock tsc)) ++ concat args ++ [10].

(** A log record is one line of the active console and of the serial line: the
    time stamp in brackets, the message, a line feed. It is written with the interrupts
    off, and the interrupt flag is afterwards what it was before. *)
Theorem log_record_spec (k : Kernel) (clock : Clock) (tsc : Z) (style : TtyStyle) (args : list (list Z)) (Hk : con_ok (k_con k)) :
  exists c', write_record_with_style line_status polls clock tsc style args k = (Ok tt, mkKernel c' (interrupts_on k)) /\
    wrote style (k_con k) c' (record_text clock tsc args).
Proof.
  unfold write_record_with_style, guard_new, bind at 1, gets, bind at 1, modify. unfold bind at 1. set (k0 := set_field interrupts_on false k). cbn [ret].
  destruct (write_fmt_wrote style (stamp (timestamp clock tsc)) k0 Hk) as (c1 & H1 & W1).
  destruct (write_fmt_wrote style args (mkKernel c1 false)) as (c2 & H2 & W2); [apply W1|].
  destruct (writer_wrote style [10] (mkKernel c2 false)) as (c3 & H3 & W3); [apply W2|]. cbn [k_con interrupts_on] in *.
  exists c3. split.
  - unfold ret, bind. rewrite H1. change (interrupts_on k0) with false. rewrite H2, H3. unfold guard_drop, modify, ret. by destruct (interrupts_on k).
  - eapply wrote_trans; [exact W1|]. by eapply wrote_trans.
Qed.

(** ** The fatal handlers *)
Lemma or_alloc_wrote on_alloc k text : con_ok (k_con k) ->
  exists c', or_alloc_error on_alloc (tty_write_style line_status polls Fatal text) k = (Ok tt, mkKernel c' (interrupts_on k)) /\ wrote Fatal (k_con k) c' text.
Proof.
  intros Hok. destruct (write_wrote Fatal (k_con k) text Hok) as (c' & Hrun & Hw). exists c'. split; [|done].
  unfold or_alloc_error, catch, on_con, zoom. rewrite Hrun. by destruct k.
Qed.

Lemma fatal_line_wrote on_alloc args : forall k, con_ok (k_con k) ->
  exists c', write_fatal_line line_status polls on_alloc args k = (Ok tt, mkKernel c' (interrupts_on k)) /\ wrote Fatal (k_con k) c' (concat args ++ [10]).
Proof.
  unfold write_fatal_line. induction args as [|a args IH]; intros k Hok; cbn [for_each concat].
  - exact (or_alloc_wrote on_alloc k [10] Hok).
  - destruct (or_alloc_wrote on_alloc k a Hok) as (c1 & Hrun1 & Hw1). destruct (IH (mkKernel c1 (interrupts_on k))) as (c2 & Hrun2 & Hw2); [apply Hw1|].
    exists c2. split; [|rewrite <- app_assoc; by eapply wrote_trans]. unfold bind in Hrun2 |- *. rewrite Hrun1. exact Hrun2.
Qed.

Lemma fatal_lines_wrote on_alloc (ls : list (list (list Z))) : forall k (rest : M Kernel Halt unit), con_ok (k_con k) ->
  exists c', foldr (fun l m => do! write_fatal_line line_status polls on_alloc l in m) rest ls k = rest (mkKernel c' (interrupts_on k)) /\
    wrote Fatal (k_con k) c' (concat ((fun l => concat l ++ [10]) <$> ls)).
Proof.
  induction ls as [|l ls IH]; intros k rest Hok; cbn [foldr fmap list_fmap concat].
  - exists (k_con k). split; [by destruct k|by apply wrote_nothing].
  - destruct (fatal_line_wrote on_alloc l k Hok) as (c1 & Hrun1 & Hw1). destruct (IH (mkKernel c1 (interrupts_on k)) rest) as (c2 & Hrun2 & Hw2); [apply Hw1|].
    exists c2. split; [|by eapply wrote_trans]. unfold bind at 1. rewrite Hrun1. exact Hrun2.
Qed.

(** The redraw of a handler can be done: there is no screen, or memory for it. *)
Definition can_redraw (c : Con) : Prop := has_fb (outputs (c_tty c)) = false \/ ~ heap_full (c_heap c).

Lemma prepare_run on_alloc k : con_ok (k_con k) -> can_redraw (k_con k) ->
  exists c', prepare on_alloc k = (Ok tt, mkKernel c' false) /\ con_ok c' /\ c_uart c' = c_uart (k_con k) ++ SERIAL_SETUP /\ active_console_id (c_tty c') = 0.
Proof.
  intros Hok Hredraw. unfold prepare, bind at 1, on_con at 1. unfold zoom. rewrite serial_init_run. unfold bind at 1, modify.
  set (c1 := set_field c_uart (c_uart (k_con k) ++ SERIAL_SETUP) (k_con k)). set (k1 := set_field interrupts_on false _).
  assert (Hok1 : con_ok c1) by done. unfold or_alloc_error, catch, on_con, zoom. change (k_con k1) with c1.
  destruct (desk_of (c_tty c1)) as [d Hd]. pose proof (show_log_ends c1 d Hok1 Hd) as [Hu He].
  destruct (show_log_console c1) as [[[]|[|l]| |] c2] eqn:Hshow; cbn [fst snd] in He, Hu; try done.
  - exists c2. rewrite app_nil_r in Hu. destruct He as (? & _ & ? & _). done.
  - exfalso. unfold show_log_console, catch, throw, ret in Hshow. repeat case_match; congruence.
  - exfalso. destruct He as [_ Hfull]. destruct Hredraw as [Hno|Hno]; [|done]. unfold show_log_console, catch, switch_active_console, bind at 1, gets in Hshow.
    change (c_tty c1) with (c_tty (k_con k)) in Hshow. rewrite Hno in Hshow. unfold bind, on_tty, zoom, modify, throw, ret in Hshow. repeat case_match; congruence.
Qed.

(** What the two handlers report, line by line. *)
Definition panic_lines (location : option (list Z * Z * Z)) (message : list (list Z)) : list (list (list Z)) :=
  [[lit "==================== KERNEL PANIC ===================="];
   match location with
   | Some (file, row, column) => [lit "location  "; file; lit ":"; dec row; lit ":"; dec column]
   | None => [lit "location  <unknown>"]
   end;
   lit "message   " :: message; [lit "action    cpu halted"]; [lit "======================================================"]].
Definition alloc_lines (l : Layout) : list (list (list Z)) :=
  [[lit "================= ALLOCATION FAILURE ================="]; [lit "size      "; dec (l_size l)]; [lit "align     "; dec (l_align l)];
   [lit "======================================================"]].
Definition report (ls : list (list (list Z))) : list Z := concat ((fun l => concat l ++ [10]) <$> ls).

(** The handler put the log console on the screen and reported [ls] in red on it. *)
Definition reported (k k' : Kernel) (ls : list (list (list Z))) : Prop :=
  exists c1, con_ok c1 /\ c_uart c1 = c_uart (k_con k) ++ SERIAL_SETUP /\ active_console_id (c_tty c1) = 0 /\
    wrote Fatal c1 (k_con k') (report ls) /\ interrupts_on k' = false.

Lemma report_run on_alloc k ls : con_ok (k_con k) -> can_redraw (k_con k) ->
  exists k', (do! prepare on_alloc in foldr (fun l m => do! write_fatal_line line_status polls on_alloc l in m) halt_forever ls) k = (Err Halted, k') /\ reported k k' ls.
Proof.
  intros Hok Hr. destruct (prepare_run on_alloc k Hok Hr) as (c1 & Hp & Hok1 & Hu1 & Ha1). unfold bind at 1. rewrite Hp.
  destruct (fatal_lines_wrote on_alloc ls (mkKernel c1 false) halt_forever Hok1) as (c2 & Hrun & Hw). rewrite Hrun. eexists. split; [reflexivity|]. by exists c1.
Qed.

(** A panic, and a failed allocation, is reported before the processor halts: the
    interrupts are off, the serial port is set up again, the log console is the active
    one, and the report stands on it and went out on the serial line, as long as the
    screen can be redrawn. *)
Theorem fatal_handlers_report (k : Kernel) (fuel : nat) (location : option (list Z * Z * Z)) (message : list (list Z)) (l : Layout)
    (Hk : con_ok (k_con k)) (Hredraw : can_redraw (k_con k)) :
  (exists k', panic_handler line_status polls fuel location message k = (Err Halted, k') /\ reported k k' (panic_lines location message)) /\
  (exists k', alloc_error line_status polls (S fuel) l k = (Err Halted, k') /\ reported k k' (alloc_lines l)).
Proof. split; [exact (report_run _ k (panic_lines location message) Hk Hredraw)|exact (report_run (alloc_error line_status polls fuel) k (alloc_lines l) Hk Hredraw)]. Qed.

(** ** A redraw on a full heap *)
Lemma alloc_full h : heap_full h -> alloc (E:=TtyExit) CELLS_LAYOUT h = (Ok None, h).
Proof.
  unfold heap_full, alloc, bind, gets, ret, modify, id. destruct (negb (b_initialized h)); [done|]. destruct (b_end h <? _); done.
Qed.

(** The handler's own state: the terminal and its heap. *)
Definition redraw_fails (c : Con) : Prop :=
  length (consoles (c_tty c)) = 4%nat /\ has_fb (outputs (c_tty c)) = true /\ heap_full (c_heap c).

Lemma show_log_fails c : redraw_fails c ->
  exists c', show_log_console c = (Err (AllocError CELLS_LAYOUT), c') /\ redraw_fails c' /\ c_uart c' = c_uart c.
Proof.
  intros (Hl & Hfb & Hfull). unfold show_log_console, catch, switch_active_console, bind at 1, gets. unfold len. rewrite Hl. change (Z.of_nat 4 <=? LOG_CONSOLE_ID) with false. cbv iota.
  unfold bind at 1, on_tty, zoom, modify. rewrite Hfb. unfold render_active_console, bind at 1, gets. unfold bind at 1, lift.
  destruct (idx_total (E:=TtyExit) (consoles (c_tty c)) 0) as (v & Hv & _); [unfold len; rewrite Hl; lia|].
  change (idx (consoles (c_tty _)) (active_console_id (c_tty _))) with (idx (E:=TtyExit) (consoles (c_tty c)) 0). rewrite Hv. unfold bind, on_heap, zoom.
  change (c_heap (set_field c_tty _ c)) with (c_heap c). rewrite (alloc_full _ Hfull). eexists. split; [reflexivity|]. split; [by split; [|split]|done].
Qed.

(** Once the heap cannot hold a copy of the cells, the allocation handler never
    reports anything on a machine with a screen: showing the log console redraws the
    screen, the redraw allocates, and the failed allocation enters the handler again,
    without end; all that reaches the serial port is its own set up. *)
Theorem alloc_error_recurses (k : Kernel) (l : Layout) (fuel : nat) (Hk : redraw_fails (k_con k)) :
  exists k', alloc_error line_status polls fuel l k = (Diverge, k') /\ c_uart (k_con k') = c_uart (k_con k) ++ concat (replicate fuel SERIAL_SETUP).
Proof.
  revert k l Hk. induction fuel as [|fuel IH]; intros k l Hk; cbn [alloc_error replicate concat]; [exists k; split; [done|by rewrite app_nil_r]|].
  unfold prepare, bind at 1, bind at 1, on_con at 1. unfold zoom. rewrite serial_init_run. unfold bind at 1, modify.
  set (c1 := set_field c_uart (c_uart (k_con k) ++ SERIAL_SETUP) (k_con k)). destruct (show_log_fails c1 Hk) as (c2 & Hshow & Hc2 & Hu2).
  unfold or_alloc_error at 1, catch, on_con, zoom. change (k_con (set_field interrupts_on false _)) with c1. rewrite Hshow.
  destruct (IH (mkKernel c2 false) CELLS_LAYOUT Hc2) as (k' & Hrun & Hu). exists k'.
  split; [change (set_field k_con c2 _) with (mkKernel c2 false); by rewrite Hrun|]. rewrite Hu. cbn [k_con]. rewrite Hu2. cbn. by rewrite <- !app_assoc.
Qed.
End facts.

Lemma log_record_spec_witness :
  exists c', write_record_with_style idle_line 1 (mkClock true 0 1000000000 TscFallback) 1500000000 Accent [lit "hi"] (mkKernel demo_con true) = (Ok tt, mkKernel c' true) /\
    wrote Accent demo_con c' (lit "[1.500000000] hi" ++ [10]).
Proof. exact (log_record_spec idle_line 1 (idle_drains 1 ltac:(lia)) (mkKernel demo_con true) (mkClock true 0 1000000000 TscFallback) 1500000000 Accent [lit "hi"] demo_con_ok). Defined.

Lemma fatal_handlers_report_witness :
  (exists k', panic_handler idle_line 1 7 None [lit "boom"] (mkKernel demo_con true) = (Err Halted, k') /\ reported (mkKernel demo_con true) k' (panic_lines None [lit "boom"])) /\
  (exists k', alloc_error idle_line 1 8 (mkLayout 64 8) (mkKernel demo_con true) = (Err Halted, k') /\ reported (mkKernel demo_con true) k' (alloc_lines (mkLayout 64 8))).
Proof. exact (fatal_handlers_report idle_line 1 (idle_drains 1 ltac:(lia)) (mkKernel demo_con true) 7 None [lit "boom"] (mkLayout 64 8) demo_con_ok (or_introl eq_refl)). Defined.

(** A terminal with a screen on a heap of one page. *)
Definition full_con : Con := mkCon (set_field outputs 3 (set_field tty_initialized true tty_new)) (mkFbState None ∅ 0) (mkBump 0x100000 0x101000 0x100000 0 true) [].
Lemma alloc_error_recurses_witness :
  exists k', alloc_error idle_line 1 3 (mkLayout 8192 8) (mkKernel full_con true) = (Diverge, k') /\
    c_uart (k_con k') = [] ++ concat (replicate 3 SERIAL_SETUP).
Proof. apply (alloc_error_recurses idle_line 1 (mkKernel full_con true) (mkLayout 8192 8) 3). split; [reflexivity|]. split; [reflexivity|]. vm_compute. reflexivity. Defined.
