(* ===== verification/InitExec.v ===== *)
(** * Starting programs: [kernel/src/init_exec.rs]

    A prepared executable is turned into an activated image (segments with their
    bytes, rebased into user space), loaded into a new address space page by page,
    given a stack with its arguments, and started as a thread; the init process is
    restarted a limited number of times.

    [Launch] holds what starting a program changes: the state of this module, the
    scheduler and the page tables with the frames they take. Memory is the words
    seen through the direct map, which starts at a multiple of eight, so that a
    byte lies in the word its address rounds down to. *)
From stdpp Require Import base list numbers option strings gmap.
From Stdlib Require Import ZArith Lia Bool.
From S2P Require Import Prelude Paths Text Frame Vmm Exec Initrd Fat Sched Vfs Paging Memory.

Definition MAX_INIT_RESTARTS : Z := 4.
Definition USER_SPACE_BASE : Z := 0x400000.
Definition USER_SPACE_LIMIT : Z := 0x800000000000.
Definition USER_STACK_TOP : Z := 0x7fffffff0000.
Definition STACK_PAGES : nat := 16.
Definition STACK_SIZE : Z := Z.of_nat STACK_PAGES * PAGE_SIZE.

(** ** Data *)
Inductive InitExecActivateError : Type :=
| LoadFailed (e : ExecutableLoadPrepError) | BytesUnavailable | UnsupportedFormat | MissingEntryPoint | MissingImageType
| MissingMachine | NoLoadSegments | NoExecutableSegments | EntryOutsideExecutableSegments | InvalidSegmentMap.
Definition activate_error_str (e : InitExecActivateError) : list Z :=
  match e with
  | LoadFailed e => prep_error_str e
  | BytesUnavailable => lit "init executable bytes not available"
  | UnsupportedFormat => lit "init executable format is not ELF"
  | MissingEntryPoint => lit "init executable has no entry point"
  | MissingImageType => lit "init executable is missing ELF image type"
  | MissingMachine => lit "init executable is missing ELF machine id"
  | NoLoadSegments => lit "init executable has no loadable segments"
  | NoExecutableSegments => lit "init executable has no executable load segment"
  | EntryOutsideExecutableSegments => lit "entry point is outside executable segments"
  | InvalidSegmentMap => lit "materialized segment map is invalid"
  end.

Record ActivatedSegment : Type := mkSegment {
  s_index : Z; s_virtual_start : Z; s_virtual_end : Z; s_map_start : Z; s_map_end : Z; s_file_bytes : Z; s_memory_bytes : Z;
  s_readable : bool; s_writable : bool; s_executable : bool; s_bytes : list Z }.

Record ActivatedInitImage : Type := mkActivated {
  ac_path : list Z; ac_format : ExecutableFormat; ac_image_type : Z; ac_machine : Z; ac_entry_point : Z; ac_vm_start : Z;
  ac_vm_end : Z; ac_total_bytes : Z; ac_zero_fill_bytes : Z; ac_entry_segment_index : Z; ac_entry_segment_map_offset : Z;
  ac_ph_addr : Z; ac_ph_num : Z; ac_segments : list ActivatedSegment }.

Record InitExecState : Type := mkInitExec {
  activation : option ActivatedInitImage; last_error : option InitExecActivateError; current_process : Z; current_thread_id_ : Z;
  restart_pending : bool; restart_count : Z; last_exit_status : option Z }.
#[export] Instance InitExecState_eta : RecordEta InitExecState := fun s =>
  mkInitExec (activation s) (last_error s) (current_process s) (current_thread_id_ s) (restart_pending s) (restart_count s)
    (last_exit_status s).
Definition init_exec_new : InitExecState := mkInitExec None None 0 0 false 0 None.

Record InitExecSummary : Type := mkInitSummary {
  is_armed : bool; is_format : ExecutableFormat; is_image_type : Z; is_machine : Z; is_entry_point : Z; is_segment_count : Z;
  is_total_bytes : Z; is_zero_fill_bytes : Z; is_vm_start : Z; is_vm_end : Z; is_entry_segment_index : Z;
  is_entry_segment_map_offset : Z }.
Record SpawnedInitProcess : Type := mkSpawnedInit { si_thread_id : Z; si_process_id : Z; si_restart_count : Z }.
Record InitExitDisposition : Type := mkDisposition {
  xd_process_id : Z; xd_thread_id : Z; xd_exit_status : Z; xd_restart_scheduled : bool; xd_next_restart_attempt : Z;
  xd_restart_limit : Z }.
Record RestartedInitProcess : Type := mkRestarted {
  ri_thread_id : Z; ri_process_id : Z; ri_restart_count : Z; ri_last_exit_status : Z }.

Record Launch : Type := mkLaunch { ln_init : InitExecState; ln_sched : Scheduler; ln_paging : Paging }.
#[export] Instance Launch_eta : RecordEta Launch := fun l => mkLaunch (ln_init l) (ln_sched l) (ln_paging l).

(** ** Activation *)
Definition off {A} (o : option A) : outcome InitExecActivateError A := ok_or InvalidSegmentMap o.

(** The file bytes of a segment. *)
Definition segment_file_bytes (bytes : list Z) (g : VmMapPlanEntry) : outcome InitExecActivateError (list Z) :=
  let? e := add U64 (vm_file_offset g) (vm_file_bytes g) in
  let? segment := (if e <=? len bytes then slice bytes (vm_file_offset g) e else Err InvalidSegmentMap) in
  if negb (vm_file_bytes g =? len segment) then Err InvalidSegmentMap else Ok segment.

(** A segment moved from the image's range, which starts at [start], to [base]. *)
Definition place_segment (bytes : list Z) (start base : Z) (g : VmMapPlanEntry) : outcome InitExecActivateError ActivatedSegment :=
  let? data := segment_file_bytes bytes g in
  let? offset := off (chk_sub (vm_map_start g) start) in
  let? map_start := off (chk_add U64 base offset) in
  let? span := sub (vm_map_end g) (vm_map_start g) in
  let? map_end := off (chk_add U64 map_start span) in
  let? vs := off (chk_sub (vm_virtual_start g) start) in
  let? virtual_start := off (chk_add U64 base vs) in
  let? ve := off (chk_sub (vm_virtual_end g) start) in
  let? virtual_end := off (chk_add U64 base ve) in
  Ok (mkSegment (vm_index g) virtual_start virtual_end map_start map_end (vm_file_bytes g) (vm_memory_bytes g)
    (vm_readable g) (vm_writable g) (vm_executable g) data).

(** The locals of the loop over the segments. *)
Record Placing : Type := mkPlacing { pl_has_exec : bool; pl_entry : option Z; pl_entry_offset : Z; pl_segments : list ActivatedSegment }.

Definition add_placed (bytes : list Z) (start base entry : Z) (acc : Placing) (g : VmMapPlanEntry) : outcome InitExecActivateError Placing :=
  let? s := place_segment bytes start base g in
  let? '(index, o) :=
    (if vm_executable g && ((vm_virtual_start g <=? entry) && (entry <? vm_virtual_end g))
     then let? o := off (chk_sub entry (vm_map_start g)) in Ok (Some (vm_index g), o)
     else Ok (pl_entry acc, pl_entry_offset acc)) in
  Ok (mkPlacing (pl_has_exec acc || vm_executable g) index o (pl_segments acc ++ [s])).

Fixpoint place_segments (bytes : list Z) (start base entry : Z) (gs : list VmMapPlanEntry) (acc : Placing)
    : outcome InitExecActivateError Placing :=
  match gs with
  | [] => Ok acc
  | g :: gs' => let? acc' := add_placed bytes start base entry acc g in place_segments bytes start base entry gs' acc'
  end.

Definition lowest (gs : list VmMapPlanEntry) : Z := foldl (fun a g => Z.min a (vm_map_start g)) (U64 - 1) gs.
Definition highest (gs : list VmMapPlanEntry) : Z := foldl (fun a g => Z.max a (vm_map_end g)) 0 gs.

Definition build_activation (image : ExecutableLoadPrep) (bytes : list Z) : outcome InitExecActivateError ActivatedInitImage :=
  if negb (bool_decide (xc_format (xl_candidate image) = FmtElf)) then Err UnsupportedFormat else
  let? entry := ok_or MissingEntryPoint (xl_entry_point image) in
  let? ty := ok_or MissingImageType (xl_image_type image) in
  let? mach := ok_or MissingMachine (xl_machine image) in
  let gs := vm_map_entries (xl_totals image) in
  if len gs =? 0 then Err NoLoadSegments else
  let start := lowest gs in
  let base := if start <? USER_SPACE_LIMIT then start else USER_SPACE_BASE in
  let? p := place_segments bytes start base entry gs (mkPlacing false None 0 []) in
  if negb (pl_has_exec p) then Err NoExecutableSegments else
  let? index := ok_or EntryOutsideExecutableSegments (pl_entry p) in
  let? eo := off (chk_sub entry start) in
  let? user_entry := off (chk_add U64 base eo) in
  let? vm_size := off (chk_sub (highest gs) start) in
  let? vm_end := off (chk_add U64 base vm_size) in
  let? ph_addr := add U64 base 64 in
  Ok (mkActivated (xc_path (xl_candidate image)) (xc_format (xl_candidate image)) ty mach user_entry base vm_end
    (vm_map_total_bytes (xl_totals image)) (vm_map_zero_fill_bytes (xl_totals image)) index (pl_entry_offset p) ph_addr
    (xl_program_header_count image) (pl_segments p)).

Definition activation_summary (a : ActivatedInitImage) : InitExecSummary :=
  mkInitSummary true (ac_format a) (ac_image_type a) (ac_machine a) (ac_entry_point a) (len (ac_segments a)) (ac_total_bytes a)
    (ac_zero_fill_bytes a) (ac_vm_start a) (ac_vm_end a) (ac_entry_segment_index a) (ac_entry_segment_map_offset a).

(** ** [render_status] *)
Definition hex_u16 (v : Z) : list Z := lit "0x" ++ hex_fixed 4 v.
Definition hex_u64 (v : Z) : list Z := lit "0x" ++ hex_fixed 16 v.
Definition permissions_text (s : ActivatedSegment) : list Z :=
  (if s_readable s then lit "r" else lit "-") ++ (if s_writable s then lit "w" else lit "-") ++
  (if s_executable s then lit "x" else lit "-").
Definition segment0_line (s : ActivatedSegment) : list Z :=
  lit "segment0 idx=" ++ dec (s_index s) ++ lit " vaddr=" ++ hex_u64 (s_virtual_start s) ++ lit ".." ++ hex_u64 (s_virtual_end s) ++
  lit " map=" ++ hex_u64 (s_map_start s) ++ lit ".." ++ hex_u64 (s_map_end s) ++ lit " file=" ++ dec (s_file_bytes s) ++
  lit " mem=" ++ dec (s_memory_bytes s) ++ lit " perms=" ++ permissions_text s ++ lit " bytes=" ++ dec (len (s_bytes s)).

Definition render_status (st : InitExecState) : list Z :=
  lines_text (match activation st with
    | Some a =>
        [lit "armed yes"; lit "path " ++ ac_path a; lit "format " ++ format_str (ac_format a); lit "machine " ++ hex_u16 (ac_machine a);
         lit "image_type " ++ hex_u16 (ac_image_type a); lit "entry_point " ++ hex_u64 (ac_entry_point a);
         lit "vm_range " ++ hex_u64 (ac_vm_start a) ++ lit ".." ++ hex_u64 (ac_vm_end a); lit "segments " ++ dec (len (ac_segments a));
         lit "bytes " ++ dec (ac_total_bytes a); lit "zero_fill " ++ dec (ac_zero_fill_bytes a);
         lit "entry_segment " ++ dec (ac_entry_segment_index a); lit "entry_offset " ++ dec (ac_entry_segment_map_offset a)] ++
        match head (ac_segments a) with Some s => [segment0_line s] | None => [] end
    | None => [lit "armed no"]
    end ++ [lit "last_error " ++ from_option activate_error_str (lit "<none>") (last_error st)]).

(** ** The stack of a new program *)
Section stack.
Variables (user_pml4 hhdm : Z).

Definition stack_bottom : Z := USER_STACK_TOP - STACK_SIZE.
Definition take_frame : M Paging InitExecActivateError Z :=
  let! f := zoom pg_frames (fun t s => set_field pg_frames t s) allocate in
  lift (ok_or InvalidSegmentMap (start_address <$> f)).
Fixpoint take_stack (n : nat) : M Paging InitExecActivateError (list Z) :=
  match n with
  | O => ret []
  | S n' => let! f := take_frame in let! fs := take_stack n' in ret (f :: fs)
  end.

Definition invalid_map {A} (m : M Paging MapError A) : M Paging InitExecActivateError A :=
  catch m (fun r => match r with inl a => ret a | inr _ => throw InvalidSegmentMap end).

Fixpoint map_stack (i : Z) (frames : list Z) : M Paging InitExecActivateError unit :=
  match frames with
  | [] => ret tt
  | phys :: rest =>
      let! dst := lift (add U64 hhdm phys) in
      do! modify (upd pg_words (zero_bytes dst)) in
      do! invalid_map (map_user_region user_pml4 hhdm (stack_bottom + i * PAGE_SIZE) phys PAGE_SIZE
            (Z.lor FLAG_USER_ACCESSIBLE FLAG_WRITABLE)) in
      map_stack (i + 1) rest
  end.

Variable frames : list Z.

(** Where the kernel sees a user address of the stack. *)
Definition user_to_kernel_ptr (a : Z) : outcome InitExecActivateError (option Z) :=
  if (a <? stack_bottom) || (USER_STACK_TOP <=? a) then Ok None else
  let offset := a - stack_bottom in
  match frames !! Z.to_nat (offset / PAGE_SIZE) with
  | None => Ok None
  | Some phys => let? p := add U64 hhdm phys in let? p := add U64 p (offset mod PAGE_SIZE) in Ok (Some p)
  end.

Definition poke_word (a v : Z) : M Paging InitExecActivateError unit :=
  let! p := lift (user_to_kernel_ptr a) in
  match p with Some p => write_word p v | None => ret tt end.
Definition poke_bytes (a : Z) (bs : list Z) : M Paging InitExecActivateError unit :=
  let! p := lift (user_to_kernel_ptr a) in
  match p with Some p => copy_bytes p bs | None => ret tt end.

Definition push_word (sp v : Z) : M Paging InitExecActivateError Z :=
  let! sp := lift (sub sp 8) in do! poke_word sp v in ret sp.
(** Several words, the last one pushed first. *)
Fixpoint push_words (sp : Z) (vs : list Z) : M Paging InitExecActivateError Z :=
  match vs with
  | [] => ret sp
  | v :: rest => let! sp := push_words sp rest in push_word sp v
  end.

(** Each string with its terminating zero, one below the other; their addresses. *)
Fixpoint push_strings (sp : Z) (ss : list (list Z)) : M Paging InitExecActivateError (Z * list Z) :=
  match ss with
  | [] => ret (sp, [])
  | s :: rest =>
      let! sp := lift (sub sp (len s + 1)) in
      do! poke_bytes sp (s ++ [0]) in
      let! '(sp', addrs) := push_strings sp rest in
      ret (sp', sp :: addrs)
  end.

Definition auxv (user_entry ph_addr ph_num at_random : Z) : list (Z * Z) :=
  [(3, ph_addr); (4, 56); (5, ph_num); (6, 4096); (7, 0); (8, 0); (9, user_entry); (11, 0); (12, 0); (13, 0); (14, 0); (23, 0);
   (25, at_random); (0, 0)].
Definition RANDOM_BYTES : list Z := lit "0123456789abcdef".

Definition fill_stack (user_entry ph_addr ph_num : Z) (argv envp : list (list Z)) : M Paging InitExecActivateError Z :=
  let! sp := lift (sub USER_STACK_TOP 16) in
  let at_random := sp in
  do! poke_bytes at_random RANDOM_BYTES in
  let! '(sp, envp_addrs) := push_strings sp envp in
  let! '(sp, argv_addrs) := push_strings sp argv in
  let sp := Z.land sp (bitnot U64 7) in
  let aux := auxv user_entry ph_addr ph_num at_random in
  let total := 1 + (len argv + 1) + (len envp + 1) + len aux * 2 in
  let! sp := (if negb (total mod 2 =? 0) then push_word sp 0 else ret sp) in
  let! sp := push_words sp (concat ((fun kv => [fst kv; snd kv]) <$> aux)) in
  let! sp := push_word sp 0 in
  let! sp := push_words sp envp_addrs in
  let! sp := push_word sp 0 in
  let! sp := push_words sp argv_addrs in
  push_word sp (len argv).
End stack.

Definition setup_system_v_user_stack (user_pml4 hhdm user_entry ph_addr ph_num : Z) (argv envp : list (list Z))
    : M Paging InitExecActivateError Z :=
  let! frames := take_stack STACK_PAGES in
  do! map_stack user_pml4 hhdm 0 frames in
  fill_stack hhdm frames user_entry ph_addr ph_num argv envp.

(** ** Loading the segments *)

(** The page mapped last and its frame: the next segment may start in it. *)
Record LastPage : Type := mkLast { lp_page : option Z; lp_phys : option Z }.

(** The frame of [page]: the one of the last page, or a new one, cleared. *)
Definition page_frame (hhdm page : Z) (last : LastPage) : M Paging InitExecActivateError (Z * LastPage) :=
  if bool_decide (lp_page last = Some page) then let! p := lift (unwrap (lp_phys last)) in ret (p, last) else
  let! phys := take_frame in
  let! virt := lift (off (chk_add U64 hhdm phys)) in
  do! modify (upd pg_words (zero_bytes virt)) in
  ret (phys, mkLast (Some page) (Some phys)).

(** One page of a segment: mapped, and the part of the file that falls in it copied. *)
Definition segment_page (seg : ActivatedSegment) (user_pml4 hhdm flags file_end : Z) (st : Z * LastPage)
    : M Paging InitExecActivateError ((Z * LastPage) + LastPage) :=
  let '(page, last) := st in
  if negb (page <? s_map_end seg) then ret (inr last) else
  let! '(phys, last) := page_frame hhdm page last in
  do! invalid_map (map_user_region user_pml4 hhdm page phys PAGE_SIZE flags) in
  let! virt := lift (off (chk_add U64 hhdm phys)) in
  let! page_end := lift (off (chk_add U64 page PAGE_SIZE)) in
  let copy_start := Z.max page (s_virtual_start seg) in
  let copy_end := Z.min page_end file_end in
  do! (if copy_start <? copy_end then
         copy_bytes (virt + (copy_start - page))
           (take (Z.to_nat (copy_end - copy_start)) (drop (Z.to_nat (copy_start - s_virtual_start seg)) (s_bytes seg)))
       else ret tt) in
  ret (inl (page_end, last)).

(** A page per iteration. *)
Definition segment_pages (seg : ActivatedSegment) : nat := S (S (Z.to_nat ((s_map_end seg - s_map_start seg) / PAGE_SIZE))).

Definition map_segment_pages (seg : ActivatedSegment) (user_pml4 hhdm flags : Z) (last : LastPage) : M Paging InitExecActivateError LastPage :=
  let! file_end := lift (off (chk_add U64 (s_virtual_start seg) (len (s_bytes seg)))) in
  loop (segment_pages seg) (segment_page seg user_pml4 hhdm flags file_end) (s_map_start seg, last).

Definition segment_flags (seg : ActivatedSegment) : Z :=
  if s_writable seg then Z.lor FLAG_USER_ACCESSIBLE FLAG_WRITABLE else FLAG_USER_ACCESSIBLE.
Fixpoint map_segments (segs : list ActivatedSegment) (user_pml4 hhdm : Z) (last : LastPage) : M Paging InitExecActivateError unit :=
  match segs with
  | [] => ret tt
  | seg :: rest =>
      let! last := map_segment_pages seg user_pml4 hhdm (segment_flags seg) last in
      map_segments rest user_pml4 hhdm last
  end.

(** ** Starting a process *)
Section machine.
Variables (L : Layout) (cr3 : Z) (hhdm_offset : option Z).

Definition on_pages {A} (m : M Paging InitExecActivateError A) : M Launch InitExecActivateError A := zoom ln_paging (set_field ln_paging) m.
Definition on_init {E A} (m : M InitExecState E A) : M Launch E A := zoom ln_init (set_field ln_init) m.

(** What [spawn_executable] and [spawn_init_process] share: an address space with
    the segments and a stack, and a thread in it. *)
Definition start_image (a : ActivatedInitImage) (argv envp : list (list Z)) : M Launch InitExecActivateError SpawnedUserThread :=
  let! hhdm := lift (unwrap hhdm_offset) in
  let! user_pml4 := on_pages (invalid_map (create_user_page_table hhdm_offset cr3 hhdm)) in
  do! on_pages (map_segments (ac_segments a) user_pml4 hhdm (mkLast None None)) in
  let! rsp := on_pages (setup_system_v_user_stack user_pml4 hhdm (ac_entry_point a) (ac_ph_addr a) (ac_ph_num a) argv envp) in
  catch (zoom ln_sched (set_field ln_sched) (create_user_thread L (ac_entry_point a) rsp user_pml4))
    (fun r => match r with inl t => ret t | inr _ => throw InvalidSegmentMap end).

Section block.
Context `{B : Block}.
Variable mounts : Mounts.

Definition spawn_executable (path : list Z) (argv envp : list (list Z)) : M Launch InitExecActivateError SpawnedInitProcess :=
  let! image := lift (omap_err LoadFailed (prepare_executable_load mounts path)) in
  let! bytes := lift (omap_err (fun _ => BytesUnavailable)
    (read_executable_bytes mounts (xc_mount (xl_candidate image)) (xc_path (xl_candidate image)))) in
  let! a := lift (build_activation image bytes) in
  let! t := start_image a argv envp in
  do! on_init (modify (fun s => set_field current_thread_id_ (sp_thread_id t) (set_field current_process (sp_process_id t) s))) in
  let! n := on_init (gets restart_count) in
  ret (mkSpawnedInit (sp_thread_id t) (sp_process_id t) n).

(** [activate_init_handoff] and [activate_test_handoff], by the path they load. *)
Definition prepare_handoff (path : list Z) : outcome InitExecActivateError ActivatedInitImage :=
  let? image := omap_err LoadFailed (prepare_executable_load mounts path) in
  let? bytes := ok_or BytesUnavailable (initrd_read_bytes (initrd mounts) path) in
  build_activation image bytes.
Definition activate_handoff (path : list Z) : M InitExecState InitExecActivateError InitExecSummary :=
  catch (lift (prepare_handoff path)) (fun r =>
    match r with
    | inl a => do! put (mkInitExec (Some a) None 0 0 false 0 None) in ret (activation_summary a)
    | inr e => do! put (mkInitExec None (Some e) 0 0 false 0 None) in throw e
    end).
Definition activate_init_handoff := activate_handoff INIT_PATH.
Definition activate_test_handoff := activate_handoff (lit "/initrd/test_hello").
End block.

Definition spawn_init_process : M Launch InitExecActivateError SpawnedInitProcess :=
  let! o := on_init (gets activation) in
  let! a := lift (ok_or BytesUnavailable o) in
  let! t := start_image a [INIT_PATH] [] in
  do! on_init (modify (fun s =>
    set_field restart_pending false (set_field current_thread_id_ (sp_thread_id t) (set_field current_process (sp_process_id t) s)))) in
  let! n := on_init (gets restart_count) in
  ret (mkSpawnedInit (sp_thread_id t) (sp_process_id t) n).

Definition note_init_exit {E} (process_id thread_id status : Z) : M InitExecState E (option InitExitDisposition) :=
  let! s := gets (fun s => s) in
  if (current_process s =? 0) || negb (current_process s =? process_id) then ret None else
  let pending := restart_count s <? MAX_INIT_RESTARTS in
  do! put (mkInitExec (activation s) (last_error s) 0 0 pending (restart_count s) (Some status)) in
  ret (Some (mkDisposition process_id thread_id status pending (sat_add U32 (restart_count s) 1) MAX_INIT_RESTARTS)).

(** [None] when no restart is pending; the [Result] of the restart otherwise. *)
Definition service_pending_restart {E} : M Launch E (option (RestartedInitProcess + InitExecActivateError)) :=
  let! s := on_init (gets (fun s => s)) in
  if negb (restart_pending s) then ret None else
  do! on_init (modify (fun s => upd restart_count (fun n => sat_add U32 n 1) (set_field restart_pending false s))) in
  let status := default 0 (last_exit_status s) in
  catch spawn_init_process (fun r =>
    ret (Some (match r with
      | inl p => inl (mkRestarted (si_thread_id p) (si_process_id p) (si_restart_count p) status)
      | inr e => inr e
      end))).
End machine.
