(* ===== verification/InitExecFacts.v ===== *)
(** * Starting programs: facts and theorems

    The stack is filled downwards, so that what was pushed stays. *)
From stdpp Require Import base list numbers option strings gmap.
From Stdlib Require Import ZArith Lia Bool.
From S2P Require Import Prelude Paths Text Frame Vmm Exec Initrd Fat Sched SchedFacts Vfs Paging Memory InitExec.

(** ** The top page of the stack *)
Definition TOP_PAGE : Z := USER_STACK_TOP - 4096.

Section top_page.
Context (hhdm : Z) (frames : list Z) (f : Z).
Context (Hhhdm : hhdm mod 4096 = 0) (Hframe : frames !! 15%nat = Some f) (Hf : f mod 4096 = 0).
Context (Hlimit : hhdm + f + 4096 <= U64).

(** The byte a user address of the page shows. *)
Definition kernel_of (x : Z) : Z := hhdm + f + (x - TOP_PAGE).
Definition user_byte (s : Paging) (x : Z) : Z := load_byte (pg_words s) (kernel_of x).
Definition shows (s : Paging) (x : Z) (bs : list Z) : Prop := forall i b, bs !! i = Some b -> user_byte s (x + Z.of_nat i) = b.
(** From [x] to the top of the stack both show the same. *)
Definition same_above (x : Z) (s s' : Paging) : Prop := forall y, x <= y < USER_STACK_TOP -> user_byte s' y = user_byte s y.

Lemma same_refl x s : same_above x s s.
Proof. by intros y Hy. Qed.
Lemma same_trans x x' s1 s2 s3 : same_above x s1 s2 -> same_above x' s2 s3 -> x' <= x -> same_above x s1 s3.
Proof. intros H1 H2 Hx y Hy. rewrite H2 by lia. by apply H1. Qed.
Lemma shows_kept x0 x s s' bs : shows s x bs -> same_above x0 s s' -> x0 <= x -> x + len bs <= USER_STACK_TOP -> shows s' x bs.
Proof. intros Hs Hk Hx Ht i b Hi. pose proof (lookup_lt_Some _ _ _ Hi). rewrite Hk by (unfold len in Ht; lia). by apply Hs. Qed.
Lemma shows_app s x bs bs' : shows s x bs -> shows s (x + len bs) bs' -> shows s x (bs ++ bs').
Proof.
  intros H1 H2 i b. rewrite lookup_app_Some. intros [Hi|[Hle Hi]]; [by apply H1|].
  specialize (H2 _ _ Hi). replace (x + len bs + Z.of_nat (i - length bs)) with (x + Z.of_nat i) in H2 by (unfold len; lia). done.
Qed.

Lemma top_ptr x : TOP_PAGE <= x < USER_STACK_TOP -> user_to_kernel_ptr hhdm frames x = Ok (Some (kernel_of x)).
Proof.
  intros Hx. unfold TOP_PAGE, user_to_kernel_ptr, stack_bottom, STACK_SIZE, STACK_PAGES, PAGE_SIZE, USER_STACK_TOP in *.
  rewrite (proj2 (Z.ltb_ge _ _)), (proj2 (Z.leb_gt _ _)) by lia. cbn [orb].
  set (o := x - _). assert (Ho : 61440 <= o < 65536) by (unfold o; lia).
  assert (Hd : o / 4096 = 15) by (symmetry; apply (Z.div_unique o 4096 15 (o - 61440)); lia). rewrite Hd. change (Z.to_nat 15) with 15%nat. rewrite Hframe.
  rewrite add_ok by lia. cbn [obind]. assert (Hm : o mod 4096 = o - 61440) by (rewrite Z.mod_eq by lia; lia). rewrite Hm.
  rewrite add_ok by lia. cbn [obind]. do 2 f_equal. unfold kernel_of, TOP_PAGE, USER_STACK_TOP, o. lia.
Qed.

Lemma kernel_aligned x : x mod 8 = 0 -> kernel_of x mod 8 = 0.
Proof.
  intros Hx. unfold kernel_of, TOP_PAGE, USER_STACK_TOP. pose proof (Z.div_mod hhdm 4096). pose proof (Z.div_mod f 4096). pose proof (Z.div_mod x 8).
  replace (hhdm + f + _) with (0 + (hhdm / 4096 * 512 + f / 4096 * 512 + x / 8 - 17592186036224 + 512) * 8) by lia. by rewrite Z.mod_add.
Qed.

(** The memory outside the page of the stack. *)
Definition same_outside (s s' : Paging) : Prop :=
  pg_frames s' = pg_frames s /\ forall a, ~ (hhdm + f <= a < hhdm + f + 4096) -> load_byte (pg_words s') a = load_byte (pg_words s) a.
Lemma outside_trans s1 s2 s3 : same_outside s1 s2 -> same_outside s2 s3 -> same_outside s1 s3.
Proof. intros [F1 M1] [F2 M2]. split; [congruence|]. intros a Ha. rewrite M2 by done. by apply M1. Qed.

(** [pushed x bs s s']: [bs] were written at [x], nothing else changed. *)
Definition pushed (x : Z) (bs : list Z) (s s' : Paging) : Prop :=
  shows s' x bs /\ same_above (x + len bs) s s' /\ same_outside s s'.

Lemma pushed_bytes s s' x bs : TOP_PAGE <= x -> x + len bs <= USER_STACK_TOP -> pg_frames s' = pg_frames s ->
  (forall a, load_byte (pg_words s') a =
    if decide (kernel_of x <= a < kernel_of x + len bs) then nth (Z.to_nat (a - kernel_of x)) bs 0 else load_byte (pg_words s) a) ->
  pushed x bs s s'.
Proof.
  intros Hx Ht Hfr Hm. split; [|split; [|split; [done|]]].
  - intros i b Hi. pose proof (lookup_lt_Some _ _ _ Hi). unfold user_byte. rewrite Hm. rewrite decide_True by (unfold kernel_of, len; lia).
    replace (Z.to_nat (kernel_of (x + Z.of_nat i) - kernel_of x)) with i by (unfold kernel_of; lia). by apply nth_lookup_Some.
  - intros y Hy. unfold user_byte. rewrite Hm, decide_False; [done|]. unfold kernel_of. lia.
  - intros a Ha. rewrite Hm, decide_False; [done|]. unfold kernel_of, TOP_PAGE in *. lia.
Qed.

Lemma poke_bytes_run s x bs : byte_list bs -> TOP_PAGE <= x -> x < USER_STACK_TOP -> x + len bs <= USER_STACK_TOP ->
  exists s', poke_bytes hhdm frames x bs s = (Ok tt, s') /\ pushed x bs s s'.
Proof.
  intros Hb Hx Hx' Ht. unfold poke_bytes, bind at 1, lift. rewrite top_ptr by lia. eexists. split; [reflexivity|].
  apply pushed_bytes; [done|done|done|]. intros a. simpl. by apply load_copy.
Qed.

Lemma push_word_run s sp v : sp mod 8 = 0 -> TOP_PAGE + 8 <= sp <= USER_STACK_TOP ->
  exists s', push_word hhdm frames sp v s = (Ok (sp - 8), s') /\ pushed (sp - 8) (le_bytes 8 v) s s'.
Proof.
  intros Hm Hsp. unfold push_word, bind at 1, lift at 1. unfold TOP_PAGE in Hsp. rewrite sub_ok by (unfold USER_STACK_TOP in *; lia).
  unfold poke_word, bind at 1 2, lift. rewrite top_ptr by (unfold TOP_PAGE; lia). eexists. split; [reflexivity|].
  assert (Hl : len (le_bytes 8 v) = 8) by (unfold len; by rewrite length_le_bytes).
  assert (Hm' : (sp - 8) mod 8 = 0) by (replace (sp - 8) with (sp + -1 * 8) by lia; by rewrite Z.mod_add).
  apply pushed_bytes; [unfold TOP_PAGE; lia|lia|done|]. intros a. rewrite Hl. apply (load_byte_word (pg_words s)). by apply kernel_aligned.
Qed.

Lemma pushed_join x y bs bs' s1 s2 s3 : pushed y bs' s1 s2 -> pushed x bs s2 s3 -> x + len bs = y -> y + len bs' <= USER_STACK_TOP ->
  pushed x (bs ++ bs') s1 s3.
Proof.
  intros (S1 & A1 & O1) (S2 & A2 & O2) Hxy Ht. pose proof (len_nonneg bs'). split; [|split].
  - apply shows_app; [done|]. rewrite Hxy. eapply shows_kept; [exact S1|exact A2|lia|done].
  - rewrite len_app. eapply same_trans; [|exact A2|lia]. replace (x + (len bs + len bs')) with (y + len bs') by lia. done.
  - by eapply outside_trans.
Qed.

Lemma sub8_mod sp n : sp mod 8 = 0 -> (sp - 8 * n) mod 8 = 0.
Proof. intros H. replace (sp - 8 * n) with (sp + - n * 8) by lia. by rewrite Z.mod_add. Qed.

Lemma push_words_run s sp vs : sp mod 8 = 0 -> TOP_PAGE <= sp - 8 * len vs -> sp <= USER_STACK_TOP ->
  exists s', push_words hhdm frames sp vs s = (Ok (sp - 8 * len vs), s') /\ pushed (sp - 8 * len vs) (words vs) s s'.
Proof.
  intros Hm Hlo Hhi. revert s. induction vs as [|v vs IH]; intros s; cbn [push_words].
  { exists s. change (len (@nil Z)) with 0. rewrite Z.mul_0_r, Z.sub_0_r. split; [done|]. split; [by intros i b Hi|]. split; [by apply same_refl|by split]. }
  rewrite len_cons in *. pose proof (len_nonneg vs). destruct (IH ltac:(lia) s) as (s1 & H1 & P1). rewrite (bind_run _ _ _ _ _ H1).
  destruct (push_word_run s1 (sp - 8 * len vs) v) as (s2 & H2 & P2); [by apply sub8_mod|lia|].
  replace (sp - 8 * (1 + len vs)) with (sp - 8 * len vs - 8) by lia. exists s2. split; [exact H2|].
  eapply (pushed_join _ _ (le_bytes 8 v) (words vs)); [exact P1|exact P2|unfold len; rewrite length_le_bytes; lia|rewrite len_words; lia].
Qed.

(** Strings below [sp], one below the other. *)
Definition strings_size (ss : list (list Z)) : Z := zsum (fun s => len s + 1) ss.
Fixpoint string_addrs (sp : Z) (ss : list (list Z)) : list Z :=
  match ss with [] => [] | s :: rest => (sp - (len s + 1)) :: string_addrs (sp - (len s + 1)) rest end.
Definition strings_at (s : Paging) (addrs : list Z) (ss : list (list Z)) : Prop := Forall2 (fun a str => shows s a (str ++ [0])) addrs ss.

Lemma strings_size_nonneg ss : 0 <= strings_size ss.
Proof. unfold strings_size. induction ss as [|s ss IH]; [done|]. rewrite zsum_cons. pose proof (len_nonneg s). lia. Qed.
Lemma len_addrs sp ss : len (string_addrs sp ss) = len ss.
Proof. revert sp. induction ss as [|s ss IH]; intros sp; [done|]. cbn [string_addrs]. by rewrite !len_cons, IH. Qed.

Lemma addrs_range sp ss : Forall2 (fun a str => sp - strings_size ss <= a /\ a + len (str ++ [0]) <= sp) (string_addrs sp ss) ss.
Proof.
  revert sp. induction ss as [|s ss IH]; intros sp; cbn [string_addrs]; constructor; unfold strings_size; rewrite zsum_cons; fold (strings_size ss);
    pose proof (strings_size_nonneg ss); pose proof (len_nonneg s).
  - rewrite len_app. change (len [0]) with 1. lia.
  - eapply Forall2_impl; [apply IH|]. intros a str [H1 H2]. lia.
Qed.

Lemma strings_kept x sp s s' ss : strings_at s (string_addrs sp ss) ss -> same_above x s s' -> x <= sp - strings_size ss -> sp <= USER_STACK_TOP ->
  strings_at s' (string_addrs sp ss) ss.
Proof.
  intros Hs Hk Hx Ht. pose proof (addrs_range sp ss) as Hr. unfold strings_at in *. revert Hs Hr. generalize (string_addrs sp ss).
  intros addrs Hs Hr. apply Forall2_same_length_lookup. split; [by eapply Forall2_length|]. intros i a str Ha Hstr.
  destruct (Forall2_lookup_lr _ _ _ _ _ _ Hr Ha Hstr) as [H1 H2]. eapply (shows_kept x); [exact (Forall2_lookup_lr _ _ _ _ _ _ Hs Ha Hstr)|exact Hk|lia|lia].
Qed.

Lemma push_strings_run s sp ss : Forall byte_list ss -> TOP_PAGE <= sp - strings_size ss -> sp <= USER_STACK_TOP ->
  exists s', push_strings hhdm frames sp ss s = (Ok (sp - strings_size ss, string_addrs sp ss), s') /\
    strings_at s' (string_addrs sp ss) ss /\ same_above sp s s' /\ same_outside s s'.
Proof.
  intros Hb Hlo Hhi. revert s sp Hlo Hhi. induction Hb as [|str ss Hstr Hb IH]; intros s sp Hlo Hhi; cbn [push_strings string_addrs].
  { exists s. unfold strings_size in *. rewrite Z.sub_0_r. split; [done|]. split; [constructor|]. split; [by apply same_refl|by split]. }
  unfold strings_size in *. rewrite zsum_cons in *. fold (strings_size ss) in *. pose proof (strings_size_nonneg ss). pose proof (len_nonneg str).
  unfold bind at 1, lift at 1. rewrite sub_ok by (unfold TOP_PAGE, USER_STACK_TOP in *; lia). set (x := sp - (len str + 1)).
  assert (Hl : len (str ++ [0]) = len str + 1) by (rewrite len_app; done).
  destruct (poke_bytes_run s x (str ++ [0])) as (s1 & H1 & S1 & A1 & O1); [|unfold x; lia|unfold x; lia|unfold x; lia|].
  { apply Forall_app. split; [done|]. by constructor. }
  rewrite (bind_run _ _ _ _ _ H1). destruct (IH s1 x) as (s2 & H2 & S2 & A2 & O2); [unfold x; lia|unfold x; lia|].
  rewrite (bind_run _ _ _ _ _ H2). exists s2. replace (sp - (len str + 1 + strings_size ss)) with (x - strings_size ss) by (unfold x; lia).
  split; [done|]. split; [constructor; [|exact S2]|split].
  - eapply (shows_kept x); [exact S1|exact A2|lia|unfold x; lia].
  - rewrite Hl in A1. replace (x + (len str + 1)) with sp in A1 by (unfold x; lia). eapply same_trans; [exact A1|exact A2|unfold x; lia].
  - by eapply outside_trans.
Qed.

Lemma push_words_app sp vs ws s :
  push_words hhdm frames sp (vs ++ ws) s = (let! sp := push_words hhdm frames sp ws in push_words hhdm frames sp vs) s.
Proof.
  induction vs as [|v vs IH]; cbn [push_words app].
  - unfold bind, ret. destruct (push_words hhdm frames sp ws s) as [[] s']; done.
  - unfold bind at 1. rewrite IH. unfold bind. by destruct (push_words hhdm frames sp ws s) as [[] s'].
Qed.
Lemma push_then sp vs ws (k : Z -> M Paging InitExecActivateError Z) s : (forall x s', k x s' = push_words hhdm frames x vs s') ->
  (let! x := push_words hhdm frames sp ws in k x) s = push_words hhdm frames sp (vs ++ ws) s.
Proof. intros Hk. rewrite push_words_app. unfold bind. by destruct (push_words hhdm frames sp ws s) as [[] s']; rewrite ?Hk. Qed.

(** The words a program finds from its stack pointer on. *)
Definition aux_words (entry ph_addr ph_num : Z) : list Z :=
  concat ((fun kv => [fst kv; snd kv]) <$> auxv entry ph_addr ph_num (USER_STACK_TOP - 16)).
Definition stack_words (entry ph_addr ph_num : Z) (argv envp : list (list Z)) : list Z :=
  [len argv] ++ string_addrs (USER_STACK_TOP - 16 - strings_size envp) argv ++ [0] ++
  string_addrs (USER_STACK_TOP - 16) envp ++ [0] ++ aux_words entry ph_addr ph_num.
Definition padding (argv envp : list (list Z)) : list Z := if (len argv + len envp + 31) mod 2 =? 0 then [] else [0].
Definition stack_need (argv envp : list (list Z)) : Z :=
  16 + strings_size envp + strings_size argv + 7 + 8 * (len argv + len envp + 32).
(** The stack pointer the words start at. *)
Definition stack_pointer (argv envp : list (list Z)) : Z :=
  let low := USER_STACK_TOP - 16 - strings_size envp - strings_size argv in
  low - low mod 8 - 8 * (len argv + len envp + 31 + len (padding argv envp)).

Lemma len_stack_words entry ph_addr ph_num argv envp : len (stack_words entry ph_addr ph_num argv envp) = len argv + len envp + 31.
Proof. unfold stack_words. rewrite !len_app, !len_addrs. unfold aux_words. change (len [len argv]) with 1. change (len [0]) with 1. change (len (concat _)) with 28. lia. Qed.

Lemma fill_pushes sp entry ph_addr ph_num argv envp s :
  (let! sp := (if negb ((1 + (len argv + 1) + (len envp + 1) + 14 * 2) mod 2 =? 0) then push_word hhdm frames sp 0 else ret sp) in
   let! sp := push_words hhdm frames sp (aux_words entry ph_addr ph_num) in
   let! sp := push_word hhdm frames sp 0 in
   let! sp := push_words hhdm frames sp (string_addrs (USER_STACK_TOP - 16) envp) in
   let! sp := push_word hhdm frames sp 0 in
   let! sp := push_words hhdm frames sp (string_addrs (USER_STACK_TOP - 16 - strings_size envp) argv) in
   push_word hhdm frames sp (len argv)) s =
  push_words hhdm frames sp (stack_words entry ph_addr ph_num argv envp ++ padding argv envp) s.
Proof.
  unfold stack_words. rewrite !app_assoc. transitivity ((let! sp := push_words hhdm frames sp (padding argv envp) in
   let! sp := push_words hhdm frames sp (aux_words entry ph_addr ph_num) in
   let! sp := push_words hhdm frames sp [0] in
   let! sp := push_words hhdm frames sp (string_addrs (USER_STACK_TOP - 16) envp) in
   let! sp := push_words hhdm frames sp [0] in
   let! sp := push_words hhdm frames sp (string_addrs (USER_STACK_TOP - 16 - strings_size envp) argv) in
   push_words hhdm frames sp [len argv]) s).
  - unfold padding. replace (1 + (len argv + 1) + (len envp + 1) + 14 * 2) with (len argv + len envp + 31) by lia.
    by destruct ((len argv + len envp + 31) mod 2 =? 0).
  - repeat (apply push_then; intros ? ?). reflexivity.
Qed.

Lemma fill_stack_run entry ph_addr ph_num argv envp s :
  Forall byte_list argv -> Forall byte_list envp -> stack_need argv envp <= 4096 ->
  exists s', fill_stack hhdm frames entry ph_addr ph_num argv envp s = (Ok (stack_pointer argv envp), s') /\
    shows s' (stack_pointer argv envp) (words (stack_words entry ph_addr ph_num argv envp)) /\
    strings_at s' (string_addrs (USER_STACK_TOP - 16 - strings_size envp) argv) argv /\
    strings_at s' (string_addrs (USER_STACK_TOP - 16) envp) envp /\ shows s' (USER_STACK_TOP - 16) RANDOM_BYTES /\
    same_outside s s' /\ stack_pointer argv envp mod 8 = 0 /\ TOP_PAGE <= stack_pointer argv envp.
Proof.
  intros Ha He Hneed. unfold stack_need in Hneed. pose proof (strings_size_nonneg argv). pose proof (strings_size_nonneg envp).
  pose proof (len_nonneg argv). pose proof (len_nonneg envp). assert (Hpad : 0 <= len (padding argv envp) <= 1).
  { unfold padding. case_match; [change (len (@nil Z)) with 0|change (len [0]) with 1]; lia. }
  unfold fill_stack, bind at 1, lift at 1. rewrite sub_ok by (unfold USER_STACK_TOP; lia). cbv zeta.
  set (r := USER_STACK_TOP - 16). assert (Htop : TOP_PAGE = USER_STACK_TOP - 4096) by done.
  destruct (poke_bytes_run s r RANDOM_BYTES) as (s1 & R1 & S1 & A1 & O1); [by apply byte_list_check|unfold r; lia|unfold r; lia|unfold r; change (len RANDOM_BYTES) with 16; lia|].
  rewrite (bind_run _ _ _ _ _ R1). destruct (push_strings_run s1 r envp He) as (s2 & R2 & S2 & A2 & O2); [unfold r; lia|unfold r; lia|].
  rewrite (bind_run _ _ _ _ _ R2). destruct (push_strings_run s2 (r - strings_size envp) argv Ha) as (s3 & R3 & S3 & A3 & O3); [unfold r; lia|unfold r; lia|].
  rewrite (bind_run _ _ _ _ _ R3). set (low := r - strings_size envp - strings_size argv).
  assert (Hland : Z.land low (bitnot U64 7) = low - low mod 8) by (apply (land_bitnot_pow2 low 3 64); unfold low, r, USER_STACK_TOP in *; lia).
  rewrite Hland. assert (Hlowd : low = USER_STACK_TOP - 16 - strings_size envp - strings_size argv) by done.
  pose proof (Z.mod_pos_bound low 8 ltac:(lia)) as Hlow. assert (Hal : (low - low mod 8) mod 8 = 0) by apply word_split.
  match goal with |- exists s', ?l = _ /\ _ =>
    replace l with (push_words hhdm frames (low - low mod 8) (stack_words entry ph_addr ph_num argv envp ++ padding argv envp) s3)
      by (symmetry; exact (fill_pushes (low - low mod 8) entry ph_addr ph_num argv envp s3)) end.
  set (W := stack_words entry ph_addr ph_num argv envp ++ padding argv envp).
  assert (HW : len W = len argv + len envp + 31 + len (padding argv envp)) by (unfold W; rewrite len_app, len_stack_words; lia).
  destruct (push_words_run s3 (low - low mod 8) W Hal) as (s4 & R4 & S4 & A4 & O4).
  { rewrite HW. lia. }
  { lia. }
  assert (Hsp : low - low mod 8 - 8 * len W = stack_pointer argv envp) by (rewrite HW; reflexivity). rewrite Hsp in *.
  rewrite len_words in A4. replace (stack_pointer argv envp + 8 * len W) with (low - low mod 8) in A4 by lia.
  exists s4. split; [exact R4|]. split_and!.
  - unfold W, words in S4. rewrite fmap_app, concat_app in S4. intros i b Hi. apply S4. by apply lookup_app_l_Some.
  - eapply (strings_kept (low - low mod 8)); [exact S3|exact A4|lia|unfold r; lia].
  - eapply (strings_kept (low - low mod 8)); [|exact A4|lia|unfold r; lia].
    eapply (strings_kept (r - strings_size envp)); [exact S2|exact A3|lia|unfold r; lia].
  - eapply (shows_kept (low - low mod 8)); [|exact A4|lia|unfold r; change (len RANDOM_BYTES) with 16; lia].
    eapply (shows_kept (r - strings_size envp)); [|exact A3|lia|unfold r; change (len RANDOM_BYTES) with 16; lia].
    eapply (shows_kept r); [exact S1|exact A2|lia|unfold r; change (len RANDOM_BYTES) with 16; lia].
  - eapply outside_trans; [|exact O4]. eapply outside_trans; [|exact O3]. eapply outside_trans; [exact O1|exact O2].
  - rewrite <- Hsp. by apply sub8_mod.
  - rewrite <- Hsp, HW, Htop. lia.
Qed.
End top_page.

(** ** The frames of the stack *)
Definition frame_ok (f : Z) : Prop := f mod 4096 = 0 /\ 0 <= f /\ f + 4096 <= PHYS_LIMIT.

Lemma take_frame_run map g s : alloc_ok map g (pg_frames s) ->
  match take_frame s with
  | (Ok f, s') => frame_ok f /\ (exists g', alloc_ok map g' (pg_frames s')) /\ pg_words s' = pg_words s
  | (Err e, s') => e = InvalidSegmentMap /\ s' = s
  | _ => False
  end.
Proof.
  intros [Hinv Hlim]. unfold take_frame, bind, zoom, lift. pose proof (allocate_free InitExecActivateError map (pg_frames s) g Hinv) as Ha.
  destruct (allocate (pg_frames s)) as [[[f|]|e| |] a']; try done; simpl.
  - destruct Ha as (Hinv' & Hal & Hlow & Hfree & Hshrink). unfold PAGE_SIZE, BOOTSTRAP_RESERVED_END in *. split; [|split; [|done]].
    + split; [done|]. split; [lia|]. destruct (Hfree (start_address f + 4095) ltac:(lia)) as [Hfr _]. specialize (Hlim _ Hfr). lia.
    + eexists. split; [exact Hinv'|]. intros x Hx. by apply Hlim, Hshrink.
  - subst a'. split; [done|]. by destruct s.
Qed.

Lemma take_stack_run map n : forall g s frames s', alloc_ok map g (pg_frames s) -> take_stack n s = (Ok frames, s') ->
  length frames = n /\ Forall frame_ok frames /\ exists g', alloc_ok map g' (pg_frames s').
Proof.
  induction n as [|n IH]; intros g s frames s' Ha; cbn [take_stack].
  { intros [= <- <-]. eauto. }
  unfold bind at 1. pose proof (take_frame_run map g s Ha) as Hf. destruct (take_frame s) as [[f|e| |] s1]; try done.
  destruct Hf as (Hf & (g1 & Ha1) & _). unfold bind at 1. destruct (take_stack n s1) as [[fs|e| |] s2] eqn:Hs; try done.
  intros [= <- <-]. destruct (IH g1 s1 fs s2 Ha1 Hs) as (Hl & Hfs & Hg). split; [by rewrite <- Hl|]. split; [by constructor|done].
Qed.

(** ** Activation *)

(** What the entries of a prepared image satisfy. *)
Definition plan_fits (bytes : list Z) (g : VmMapPlanEntry) : Prop :=
  0 <= vm_file_offset g < U64 /\ 0 <= vm_file_bytes g /\ (0 < vm_file_bytes g -> vm_file_offset g + vm_file_bytes g <= len bytes) /\
  0 <= vm_map_start g <= vm_virtual_start g /\ vm_virtual_start g <= vm_virtual_end g <= vm_map_end g /\ vm_map_end g < U64.

(** A segment [delta] above where the image has it, with its file bytes. *)
Definition move_segment (bytes : list Z) (delta : Z) (g : VmMapPlanEntry) : ActivatedSegment :=
  mkSegment (vm_index g) (vm_virtual_start g + delta) (vm_virtual_end g + delta) (vm_map_start g + delta) (vm_map_end g + delta)
    (vm_file_bytes g) (vm_memory_bytes g) (vm_readable g) (vm_writable g) (vm_executable g)
    (take (Z.to_nat (vm_file_bytes g)) (drop (Z.to_nat (vm_file_offset g)) bytes)).
(** The only way a plan is refused: a segment without file bytes whose offset lies past the file. *)
Definition offset_past (bytes : list Z) (g : VmMapPlanEntry) : Prop := vm_file_bytes g = 0 /\ len bytes < vm_file_offset g.
Definition entered_at (entry : Z) (g : VmMapPlanEntry) : Prop := vm_executable g = true /\ vm_virtual_start g <= entry < vm_virtual_end g.

Lemma place_segment_run bytes start base g :
  len bytes < SLICE_LIMIT -> plan_fits bytes g -> 0 <= start <= vm_map_start g -> 0 <= base -> vm_map_end g + (base - start) < U64 ->
  place_segment bytes start base g = Ok (move_segment bytes (base - start) g) \/
  (place_segment bytes start base g = Err InvalidSegmentMap /\ offset_past bytes g).
Proof.
  intros Hlen (H1 & H2 & H3 & H4 & H5 & H6) Hs Hb Hend. pose proof (len_nonneg bytes). unfold place_segment, segment_file_bytes, offset_past.
  assert (Hadd : vm_file_offset g + vm_file_bytes g < U64) by (destruct (decide (vm_file_bytes g = 0)); lia). rewrite add_ok by done. cbn [obind].
  destruct (Z.leb_spec (vm_file_offset g + vm_file_bytes g) (len bytes)) as [Hle|Hgt].
  2: { right. split; [done|]. destruct (decide (vm_file_bytes g = 0)); lia. }
  left. rewrite slice_ok by lia. cbn [obind]. replace (vm_file_offset g + vm_file_bytes g - vm_file_offset g) with (vm_file_bytes g) by lia.
  set (d := take _ _). assert (Hd : len d = vm_file_bytes g) by (unfold d, len in *; rewrite length_take, length_drop; lia).
  rewrite Hd, Z.eqb_refl. cbn [negb obind]. unfold off, chk_sub, chk_add.
  rewrite (proj2 (Z.leb_le start _)) by lia. cbn [ok_or obind]. rewrite (proj2 (Z.ltb_lt (base + _) _)) by lia. cbn [ok_or obind].
  rewrite sub_ok by lia. cbn [obind]. rewrite (proj2 (Z.ltb_lt (base + (vm_map_start g - start) + _) _)) by lia. cbn [ok_or obind].
  rewrite (proj2 (Z.leb_le start _)) by lia. cbn [ok_or obind]. rewrite (proj2 (Z.ltb_lt (base + (vm_virtual_start g - start)) _)) by lia. cbn [ok_or obind].
  rewrite (proj2 (Z.leb_le start _)) by lia. cbn [ok_or obind]. rewrite (proj2 (Z.ltb_lt (base + (vm_virtual_end g - start)) _)) by lia. cbn [ok_or obind].
  unfold move_segment. f_equal. f_equal; lia.
Qed.

(** What the loop has found after the entries [gs]. *)
Definition found (bytes : list Z) (delta entry : Z) (gs : list VmMapPlanEntry) (p : Placing) : Prop :=
  pl_segments p = move_segment bytes delta <$> gs /\ (pl_has_exec p = true <-> Exists (fun g => vm_executable g = true) gs) /\
  match pl_entry p with
  | None => Forall (fun g => ~ entered_at entry g) gs
  | Some i => exists g, g ∈ gs /\ entered_at entry g /\ i = vm_index g /\ pl_entry_offset p = entry - vm_map_start g
  end.

Lemma add_placed_run bytes start base entry gs acc g :
  len bytes < SLICE_LIMIT -> plan_fits bytes g -> 0 <= start <= vm_map_start g -> 0 <= base -> vm_map_end g + (base - start) < U64 ->
  found bytes (base - start) entry gs acc ->
  (exists p, add_placed bytes start base entry acc g = Ok p /\ found bytes (base - start) entry (gs ++ [g]) p) \/
  (add_placed bytes start base entry acc g = Err InvalidSegmentMap /\ offset_past bytes g).
Proof.
  intros Hlen Hg Hs Hb Hend (F1 & F2 & F3). unfold add_placed.
  destruct (place_segment_run bytes start base g Hlen Hg Hs Hb Hend) as [->|[-> Hbad]]; [left|by right]. cbn [obind].
  assert (Hx : pl_has_exec acc || vm_executable g = true <-> Exists (fun g => vm_executable g = true) (gs ++ [g])).
  { rewrite orb_true_iff, Exists_app, F2. split; [intros [?|?]; [by left|right; by constructor]|]. intros [?|Hx]; [by left|right].
    apply Exists_cons in Hx as [?|Hx]; [done|]. by apply Exists_nil in Hx. }
  destruct (vm_executable g && ((vm_virtual_start g <=? entry) && (entry <? vm_virtual_end g))) eqn:Hin.
  - apply andb_true_iff in Hin as [He [H1%Z.leb_le H2%Z.ltb_lt]%andb_true_iff]. destruct Hg as (_ & _ & _ & H4 & _ & _).
    unfold off, chk_sub. rewrite (proj2 (Z.leb_le _ _)) by lia. cbn [ok_or obind]. eexists. split; [reflexivity|]. split; [|split; [exact Hx|]].
    + cbn [pl_segments]. by rewrite F1, fmap_app.
    + cbn [pl_entry pl_entry_offset]. exists g. split; [apply elem_of_app; right; by left|]. by split.
  - cbn [obind]. eexists. split; [reflexivity|]. split; [|split; [exact Hx|]].
    + cbn [pl_segments]. by rewrite F1, fmap_app.
    + cbn [pl_entry pl_entry_offset]. destruct (pl_entry acc) as [i|].
      * destruct F3 as (g0 & Hg0 & ?). exists g0. split; [by apply elem_of_app; left|done].
      * apply Forall_app. split; [done|]. constructor; [|done]. intros [He Hr]. rewrite He in Hin. cbn [andb] in Hin.
        rewrite (proj2 (Z.leb_le _ _)), (proj2 (Z.ltb_lt _ _)) in Hin by lia. done.
Qed.

Lemma place_segments_run bytes start base entry rest : forall gs acc,
  len bytes < SLICE_LIMIT -> 0 <= start -> 0 <= base ->
  Forall (fun g => plan_fits bytes g /\ start <= vm_map_start g /\ vm_map_end g + (base - start) < U64) rest ->
  found bytes (base - start) entry gs acc ->
  (exists p, place_segments bytes start base entry rest acc = Ok p /\ found bytes (base - start) entry (gs ++ rest) p) \/
  (place_segments bytes start base entry rest acc = Err InvalidSegmentMap /\ Exists (offset_past bytes) rest).
Proof.
  induction rest as [|g rest IH]; intros gs acc Hlen Hs Hb Hall Hf; cbn [place_segments].
  { left. exists acc. by rewrite app_nil_r. }
  apply Forall_cons_1 in Hall as [(Hg & Hlo & Hhi) Hall].
  destruct (add_placed_run bytes start base entry gs acc g Hlen Hg ltac:(lia) Hb Hhi Hf) as [(p & -> & Hp)|[-> Hbad]]; cbn [obind].
  - destruct (IH (gs ++ [g]) p Hlen Hs Hb Hall Hp) as [(q & -> & Hq)|[-> Hbad]]; [left; exists q|right].
    + split; [done|]. by rewrite <- app_assoc in Hq.
    + split; [done|]. by apply Exists_cons_tl.
  - right. split; [done|]. by apply Exists_cons_hd.
Qed.

Lemma lowest_spec gs : (forall g, g ∈ gs -> lowest gs <= vm_map_start g) /\ ((forall g, g ∈ gs -> 0 <= vm_map_start g) -> 0 <= lowest gs).
Proof.
  unfold lowest. induction gs as [|x gs [IH1 IH2]] using rev_ind; [split; [by intros g ?%elem_of_nil|done]|]. rewrite foldl_app. cbn [foldl]. split.
  - intros g [Hg| ->%list_elem_of_singleton]%elem_of_app; [specialize (IH1 g Hg)|]; lia.
  - intros H. assert (0 <= vm_map_start x) by (apply H, elem_of_app; right; by left).
    enough (0 <= foldl (fun a g => Z.min a (vm_map_start g)) (U64 - 1) gs) by lia. apply IH2. intros g Hg. apply H, elem_of_app. by left.
Qed.
Lemma highest_spec gs : (forall g, g ∈ gs -> vm_map_end g <= highest gs) /\ ((forall g, g ∈ gs -> vm_map_end g < U64) -> highest gs < U64).
Proof.
  unfold highest. induction gs as [|x gs [IH1 IH2]] using rev_ind; [split; [by intros g ?%elem_of_nil|done]|]. rewrite foldl_app. cbn [foldl]. split.
  - intros g [Hg| ->%list_elem_of_singleton]%elem_of_app; [specialize (IH1 g Hg)|]; lia.
  - intros H. assert (vm_map_end x < U64) by (apply H, elem_of_app; right; by left).
    enough (foldl (fun a g => Z.max a (vm_map_end g)) 0 gs < U64) by lia. apply IH2. intros g Hg. apply H, elem_of_app. by left.
Qed.

(** An entry of the plan of an accepted image. *)
Lemma plan_entry_fits bytes hs plan index p : Forall (header_valid bytes) hs ->
  Forall2 (fun x p => plan_ok x.1 x.2 p) (loadable index hs) plan -> p ∈ plan -> plan_fits bytes (vm_entry p).
Proof.
  intros Hv HF [i Hi]%list_elem_of_lookup. destruct (Forall2_lookup_r _ _ _ _ _ HF Hi) as ([k h] & Hk & Hp).
  assert (Hh : h ∈ hs).
  { apply list_elem_of_lookup_2 in Hk. clear -Hk. revert index Hk. induction hs as [|x l IH]; intros index; simpl; [by intros ?%elem_of_nil|].
    destruct (is_loadable x); simpl; rewrite ?elem_of_cons; [intros [[= -> ->]|?]|intros ?]; eauto. }
  rewrite list.Forall_forall in Hv. destruct (Hv h Hh) as (Hs & Ho & Hva & Hfile & _). unfold ELF_PAGE_SIZE in *.
  destruct Hp as (_ & Hfo & Hvs & Hve & Hm1 & _ & Hms & Hme & _ & Hf & Hz & Hm & _ & Hlim). unfold plan_fits, vm_entry, ELF_PAGE_SIZE in *. simpl in *.
  assert (0 <= pl_map_start p) by (pose proof (Z.div_mod (pl_map_start p) 4096); lia). repeat split; lia.
Qed.

Section prepared.
Context `{B : Block} (m : Mounts) (path bytes : list Z) (r : ExecutableLoadPrep).
Context (Hprep : prepare_executable_load m path = Ok r) (Himage : image_ok bytes).
Context (Hread : read_executable_bytes m (xc_mount (xl_candidate r)) (xc_path (xl_candidate r)) = Ok bytes).

(** What preparation tells of the image it was made from. *)
Lemma prepared_elf : xc_format (xl_candidate r) = FmtElf ->
  is_Some (xl_entry_point r) /\ is_Some (xl_image_type r) /\ is_Some (xl_machine r) /\ Forall (plan_fits bytes) (vm_map_entries (xl_totals r)).
Proof.
  revert Hprep Hread. unfold prepare_executable_load, discover_executable.
  destruct (from_option vfs_initialized false (vfs m)); cbn [negb obind omap_err]; [|done].
  destruct (vfs_lookup m path) as [n|]; cbn [ok_or obind omap_err]; [|done].
  destruct (bool_decide (n_kind n = VFile)); cbn [negb obind omap_err]; [|done].
  destruct (read_executable_bytes m (n_mount n) (n_path n)) as [bs|[]| |] eqn:Hb; cbn [omap_err obind]; try done.
  unfold detect_kind. destruct (inspect bs) as [i|e| |] eqn:Hi; cbn [omap_err obind]; try done. cbn [xc_mount xc_path]. rewrite Hb.
  cbn [omap_err obind]. rewrite Hi. cbn [omap_err obind]. destruct i as [elf|sc| |]; cbn [obind]; [|by intros [= <-]..].
  destruct (build_load_plan elf) as [plan|e| |] eqn:Hplan; cbn [omap_err obind]; try done. intros [= <-]. cbn [xl_candidate xc_mount xc_path xl_entry_point xl_image_type xl_machine xl_totals].
  intros [= ->]%(transitivity (eq_sym Hb)) _. destruct (inspect_returns bytes Himage) as [_ Helf]. destruct (Helf elf Hi) as (_ & _ & _ & _ & _ & _ & Hv).
  pose proof (plan_headers_run bytes (program_headers elf) 0 [] Hv) as Hp. unfold build_load_plan in Hplan. rewrite Hplan in Hp.
  destruct Hp as (new & -> & HF). cbn [app]. destruct (totals_run new) as (_ & -> & _); [by eapply plan_sizes|].
  split_and!; [by eexists..|]. apply Forall_fmap, list.Forall_forall. intros p Hp. by eapply plan_entry_fits.
Qed.
End prepared.

Lemma moved_range bytes g lo hi delta : plan_fits bytes g -> lo <= vm_map_start g + delta -> vm_map_end g + delta <= hi -> hi < U64 ->
  let s := move_segment bytes delta g in
  lo <= s_map_start s <= s_virtual_start s /\ s_virtual_start s <= s_virtual_end s <= s_map_end s /\ s_map_end s <= hi < U64 /\
  len (s_bytes s) = s_file_bytes s.
Proof.
  intros (H1 & H2 & H3 & H4 & H5 & H6) Hlo Hhi Hu. simpl. split; [lia|]. split; [lia|]. split; [lia|].
  unfold len in *. rewrite length_take, length_drop. destruct (decide (vm_file_bytes g = 0)); lia.
Qed.

(** * Theorems *)

(** C25: a new program finds the stack the System V ABI describes. When the sixteen
    frames of the stack have been taken and mapped, and arguments, environment and
    vectors fit in its top page, the rest of the set-up returns; from the stack
    pointer on there are the number of arguments, the addresses of the arguments, a
    zero, the addresses of the environment strings, a zero and the auxiliary vector
    (with the entry point, the program headers and the random bytes); each address
    is that of its string followed by a zero byte; nothing else in memory changes. *)
Theorem user_stack_layout (map : list MemoryMapEntry) (g : list (Z * Z)) (s s1 s2 : Paging) (pml4 hhdm entry ph_addr ph_num : Z)
    (argv envp : list (list Z)) (frames : list Z)
    (Hhhdm : hhdm mod 4096 = 0) (Hdirect : 0 <= hhdm <= U64 - PHYS_LIMIT) (Halloc : alloc_ok map g (pg_frames s))
    (Hargv : Forall byte_list argv) (Henvp : Forall byte_list envp) (Hneed : stack_need argv envp <= 4096)
    (Htake : take_stack STACK_PAGES s = (Ok frames, s1)) (Hmap : map_stack pml4 hhdm 0 frames s1 = (Ok tt, s2)) :
  let sp := stack_pointer argv envp in
  exists f s', setup_system_v_user_stack pml4 hhdm entry ph_addr ph_num argv envp s = (Ok sp, s') /\
    last frames = Some f /\ sp mod 8 = 0 /\ TOP_PAGE <= sp /\
    shows hhdm f s' sp (words (stack_words entry ph_addr ph_num argv envp)) /\
    strings_at hhdm f s' (string_addrs (USER_STACK_TOP - 16 - strings_size envp) argv) argv /\
    strings_at hhdm f s' (string_addrs (USER_STACK_TOP - 16) envp) envp /\
    shows hhdm f s' (USER_STACK_TOP - 16) RANDOM_BYTES /\ same_outside hhdm f s2 s'.
Proof.
  intros sp. destruct (take_stack_run map STACK_PAGES g s frames s1 Halloc Htake) as (Hlen & Hfs & _).
  destruct (lookup_lt_is_Some_2 frames 15) as [f Hf]; [rewrite Hlen; unfold STACK_PAGES; lia|].
  destruct (Forall_lookup_1 _ _ _ _ Hfs Hf) as (Hf1 & Hf2 & Hf3).
  destruct (fill_stack_run hhdm frames f Hhhdm Hf Hf1 ltac:(lia) entry ph_addr ph_num argv envp s2 Hargv Henvp Hneed)
    as (s' & Hrun & H1 & H2 & H3 & H4 & H5 & H6 & H7).
  exists f, s'. split; [|split; [rewrite last_lookup, Hlen; exact Hf|by split_and!]].
  unfold setup_system_v_user_stack. rewrite (bind_run _ _ _ _ _ Htake), (bind_run _ _ _ _ _ Hmap). exact Hrun.
Qed.

(** The stack pointer is a multiple of 8 and not always one of 16, as the ABI wants:
    an argument of one byte is enough. *)
Theorem stack_misaligned : stack_pointer [lit "x"] [] mod 16 = 8.
Proof. reflexivity. Qed.

Lemma pair_of_fst {A B} (p : A * B) a : fst p = a -> p = (a, snd p).
Proof. by intros <-; destruct p. Qed.

Definition stack_map : list MemoryMapEntry := [mkEntry 0 0x200000 Usable].
Definition stack_frames : FrameAllocator := snd (frame_initialize stack_map frame_allocator_new).
Definition stack_start : Paging := mkPaging stack_frames ∅.
Definition stack_hhdm : Z := U64 - PHYS_LIMIT.
#[local] Notation stack_taken := (take_stack STACK_PAGES stack_start).
Definition stack_list : list Z := (fun i => 0x100000 + i * 4096) <$> seqZ 0 16.
#[local] Notation stack_mapped := (map_stack 0x1ff000 stack_hhdm 0 stack_list (snd stack_taken)).

Lemma stack_alloc_ok : alloc_ok stack_map [] stack_frames.
Proof.
  assert (Hm : map_ok stack_map).
  { split; [constructor; [unfold entry_ok, in_range; simpl; lia|constructor]|]. repeat constructor. }
  assert (Hb : frame_initialize stack_map frame_allocator_new = (Ok (frame_stats stack_frames), stack_frames)) by (vm_compute; reflexivity).
  destruct (boot_inv stack_map _ _ Hm Hb) as [Hinv Hu]. split; [exact Hinv|].
  intros x (r & Hr & Hx). rewrite Hu in Hr. vm_compute in Hr. apply list_elem_of_singleton in Hr as ->. simpl in Hx. unfold PHYS_LIMIT. lia.
Qed.

Lemma user_stack_layout_witness :
  let sp := stack_pointer [lit "/initrd/init"] [lit "A=1"] in
  exists f s', setup_system_v_user_stack 0x1ff000 stack_hhdm 0x401000 0x400040 2 [lit "/initrd/init"] [lit "A=1"] stack_start = (Ok sp, s') /\
    last stack_list = Some f /\ sp mod 8 = 0 /\ TOP_PAGE <= sp /\
    shows stack_hhdm f s' sp (words (stack_words 0x401000 0x400040 2 [lit "/initrd/init"] [lit "A=1"])).
Proof.
  assert (Ht : stack_taken = (Ok stack_list, snd stack_taken)) by (apply pair_of_fst; vm_compute; reflexivity).
  assert (Hmp : stack_mapped = (Ok tt, snd stack_mapped)) by (apply pair_of_fst; vm_compute; reflexivity).
  destruct (user_stack_layout stack_map [] stack_start (snd stack_taken) (snd stack_mapped) 0x1ff000 stack_hhdm 0x401000 0x400040 2
    [lit "/initrd/init"] [lit "A=1"] stack_list eq_refl ltac:(unfold stack_hhdm, PHYS_LIMIT; lia) stack_alloc_ok) as (f & s' & H1 & H2 & H3 & H4 & H5 & _).
  - constructor; [by apply byte_list_check|constructor].
  - constructor; [by apply byte_list_check|constructor].
  - vm_compute. discriminate.
  - exact Ht.
  - exact Hmp.
  - exists f, s'. auto.
Defined.

(** Activation places an image faithfully. For an executable that was prepared
    from its bytes, activation returns; every load segment keeps its size, its
    permissions, its place relative to the others and exactly its bytes of the
    file, moved as a whole only when the image lies above user space; the entry
    point falls in an executable segment, which is the one reported. It is refused
    exactly when the file is no ELF image, has no load segment or no executable one,
    its entry point is in none of them, or a segment without file bytes has an
    offset past the end of the file. *)
Theorem activation_spec `{B : Block} (m : Mounts) (path bytes : list Z) (image : ExecutableLoadPrep)
    (Hprep : prepare_executable_load m path = Ok image) (Hbytes : image_ok bytes)
    (Hread : read_executable_bytes m (xc_mount (xl_candidate image)) (xc_path (xl_candidate image)) = Ok bytes) :
  let gs := vm_map_entries (xl_totals image) in
  match build_activation image bytes with
  | Ok a =>
      exists delta, (lowest gs < USER_SPACE_LIMIT -> delta = 0) /\ ac_vm_start a = lowest gs + delta /\ ac_vm_end a = highest gs + delta /\
      ac_segments a = move_segment bytes delta <$> gs /\
      Forall (fun s => ac_vm_start a <= s_map_start s <= s_virtual_start s /\ s_virtual_start s <= s_virtual_end s <= s_map_end s /\
        s_map_end s <= ac_vm_end a < U64 /\ len (s_bytes s) = s_file_bytes s) (ac_segments a) /\
      exists e g, xl_entry_point image = Some e /\ g ∈ gs /\ entered_at e g /\ ac_entry_point a = e + delta /\
        ac_entry_segment_index a = vm_index g /\ ac_entry_segment_map_offset a = e - vm_map_start g
  | Err UnsupportedFormat => xc_format (xl_candidate image) <> FmtElf
  | Err NoLoadSegments => gs = []
  | Err NoExecutableSegments => Forall (fun g => vm_executable g = false) gs
  | Err EntryOutsideExecutableSegments => exists e, xl_entry_point image = Some e /\ Forall (fun g => ~ entered_at e g) gs
  | Err InvalidSegmentMap => Exists (offset_past bytes) gs
  | _ => False
  end.
Proof.
  intros gs. unfold build_activation. destruct (bool_decide (xc_format (xl_candidate image) = FmtElf)) eqn:Hfmt; cbn [negb];
    [apply bool_decide_eq_true in Hfmt|by apply bool_decide_eq_false in Hfmt].
  destruct (prepared_elf m path bytes image Hprep Hbytes Hread Hfmt) as ([e He] & [ty ->] & [mach ->] & Hfit). rewrite He. cbn [ok_or obind].
  fold gs in Hfit |- *. destruct (Z.eqb_spec (len gs) 0) as [Hz|Hnz]; [by destruct gs; [|rewrite len_cons in Hz; pose proof (len_nonneg gs); lia]|].
  rewrite list.Forall_forall in Hfit. destruct (lowest_spec gs) as [Hlo Hlo0]. destruct (highest_spec gs) as [Hhi HhiU].
  specialize (Hlo0 ltac:(intros g Hg; destruct (Hfit g Hg) as (_ & _ & _ & ? & _); lia)).
  specialize (HhiU ltac:(intros g Hg; destruct (Hfit g Hg) as (_ & _ & _ & _ & _ & ?); lia)).
  set (start := lowest gs) in *. set (base := if start <? USER_SPACE_LIMIT then start else USER_SPACE_BASE).
  assert (Hbase : 0 <= base /\ base <= start /\ base < USER_SPACE_LIMIT /\ (start < USER_SPACE_LIMIT -> base = start)).
  { unfold base, USER_SPACE_LIMIT, USER_SPACE_BASE in *. destruct (Z.ltb_spec start 0x800000000000); lia. }
  destruct Hbase as (Hb0 & Hb1 & Hb2 & Hb3).
  destruct (place_segments_run bytes start base e gs [] (mkPlacing false None 0 []) (proj2 Hbytes) Hlo0 Hb0) as [(p & -> & F1 & F2 & F3)|[-> Hbad]].
  - apply list.Forall_forall. intros g Hg. split; [by apply Hfit|]. split; [by apply Hlo|]. destruct (Hfit g Hg) as (_ & _ & _ & _ & _ & ?). lia.
  - split; [done|]. split; [|by constructor]. split; [done|]. intros H. by apply Exists_nil in H.
  - cbn [obind app] in *. destruct (pl_has_exec p) eqn:Hexec; cbn [negb].
    2: { apply list.Forall_forall. intros g Hg. destruct (vm_executable g) eqn:Hx; [|done]. exfalso.
         assert (false = true) by (apply F2, Exists_exists; exists g; split; [exact Hg|exact Hx]). done. }
    destruct (pl_entry p) as [i|]; cbn [ok_or obind]; [|by exists e]. destruct F3 as (g & Hg & Hent & -> & Hoff).
    destruct (Hfit g Hg) as (_ & _ & _ & Hg1 & Hg2 & Hg3). pose proof (Hlo g Hg). pose proof (Hhi g Hg). destruct Hent as [Hx Hr].
    unfold off, chk_sub, chk_add. rewrite (proj2 (Z.leb_le start e)) by lia. cbn [ok_or obind]. rewrite (proj2 (Z.ltb_lt (base + (e - start)) _)) by lia.
    cbn [ok_or obind]. rewrite (proj2 (Z.leb_le start _)) by lia. cbn [ok_or obind]. rewrite (proj2 (Z.ltb_lt (base + (highest gs - start)) _)) by lia.
    cbn [ok_or obind]. rewrite add_ok by (unfold USER_SPACE_LIMIT in *; lia). cbn [obind ac_vm_start ac_vm_end ac_segments ac_entry_point ac_entry_segment_index ac_entry_segment_map_offset].
    exists (base - start). split; [intros Hs; specialize (Hb3 Hs); lia|]. split; [lia|]. split; [lia|]. split; [done|]. split.
    + rewrite F1. apply Forall_fmap, list.Forall_forall. intros g' Hg'. simpl. specialize (Hlo g' Hg'). specialize (Hhi g' Hg').
      by apply moved_range; [apply Hfit|lia..].
    + exists e, g. split_and!; try done; lia.
  - exact Hbad.
Qed.

Definition demo_prep : outcome ExecutableLoadPrepError ExecutableLoadPrep :=
  prepare_executable_load (B := stub_block) (demo_mounts exec_initrd) INIT_PATH.

Lemma activation_spec_witness :
  exists image a, prepare_executable_load (B := stub_block) (demo_mounts exec_initrd) INIT_PATH = Ok image /\
    build_activation image small_elf = Ok a /\ ac_vm_start a = 0x401000 /\
    exists delta, (lowest (vm_map_entries (xl_totals image)) < USER_SPACE_LIMIT -> delta = 0) /\
      ac_segments a = move_segment small_elf delta <$> vm_map_entries (xl_totals image).
Proof.
  assert (Hc : match demo_prep with
    | Ok i => bool_decide (xc_mount (xl_candidate i) = MInitrd) && bool_decide (xc_path (xl_candidate i) = INIT_PATH) &&
        match build_activation i small_elf with Ok a => ac_vm_start a =? 0x401000 | _ => false end
    | _ => false end = true) by (vm_compute; reflexivity).
  unfold demo_prep in Hc. destruct (prepare_executable_load (B := stub_block) (demo_mounts exec_initrd) INIT_PATH) as [i| | |] eqn:Hp; [|discriminate Hc..].
  apply andb_true_iff in Hc as [[Hm%bool_decide_eq_true Hpath%bool_decide_eq_true]%andb_true_iff Ha].
  assert (Hr : read_executable_bytes (B := stub_block) (demo_mounts exec_initrd) (xc_mount (xl_candidate i)) (xc_path (xl_candidate i)) = Ok small_elf).
  { rewrite Hm, Hpath. vm_compute. reflexivity. }
  pose proof (activation_spec (B := stub_block) (demo_mounts exec_initrd) INIT_PATH small_elf i Hp small_elf_ok Hr) as H. cbv zeta in H.
  destruct (build_activation i small_elf) as [a|e| |] eqn:Hb; [|discriminate Ha..]. apply Z.eqb_eq in Ha.
  destruct H as (delta & H1 & _ & _ & H2 & _). exists i, a. split; [reflexivity|]. split; [exact Hb|]. split; [exact Ha|]. exists delta. split; [exact H1|exact H2].
Defined.

(** ** Restarting init *)
Section restart.
Context (L : Layout) (cr3 : Z) (hhdm_offset : option Z).

(** A computation that leaves the state of this module alone. *)
Definition quiet {E A} (m : M Launch E A) : Prop := forall l, ln_init (snd (m l)) = ln_init l.
Lemma quiet_bind {E A C} (m : M Launch E A) (k : A -> M Launch E C) : quiet m -> (forall a, quiet (k a)) -> quiet (bind m k).
Proof. intros Hm Hk l. unfold bind. specialize (Hm l). destruct (m l) as [[a|e| |] l']; simpl in *; try done. by rewrite Hk. Qed.
Lemma quiet_catch {E F A C} (m : M Launch E A) (k : A + E -> M Launch F C) : quiet m -> (forall a, quiet (k a)) -> quiet (catch m k).
Proof. intros Hm Hk l. unfold catch. specialize (Hm l). destruct (m l) as [[a|e| |] l']; simpl in *; try done; by rewrite Hk. Qed.
Lemma quiet_lift {E A} (o : outcome E A) : quiet (lift o).
Proof. done. Qed.
Lemma quiet_pages {A} (m : M Paging InitExecActivateError A) : quiet (on_pages m).
Proof. intros l. unfold on_pages, zoom. by destruct (m (ln_paging l)). Qed.
Lemma quiet_sched {E A} (m : M Scheduler E A) : quiet (zoom ln_sched (set_field ln_sched) m).
Proof. intros l. unfold zoom. by destruct (m (ln_sched l)). Qed.

Lemma start_quiet a argv envp : quiet (start_image L cr3 hhdm_offset a argv envp).
Proof.
  unfold start_image. apply quiet_bind; [apply quiet_lift|intros hhdm]. do 3 (apply quiet_bind; [apply quiet_pages|intros ?]).
  apply quiet_catch; [apply quiet_sched|]. by intros [t|e].
Qed.

(** What the kernel does with this module once an image is active; the counter is
    the number of restarts attempted. *)
Inductive init_reach : Launch -> Z -> Prop :=
| init_active a sch pg : init_reach (mkLaunch (mkInitExec (Some a) None 0 0 false 0 None) sch pg) 0
| init_other l n sch pg : init_reach l n -> init_reach (mkLaunch (ln_init l) sch pg) n
| init_spawned l n : init_reach l n -> init_reach (snd (spawn_init_process L cr3 hhdm_offset l)) n
| init_program (B : Block) m path argv envp l n : init_reach l n -> init_reach (snd (spawn_executable (B := B) L cr3 hhdm_offset m path argv envp l)) n
| init_exited l n pid tid status : init_reach l n -> init_reach (snd (on_init (note_init_exit (E:=unit) pid tid status) l)) n
| init_served l n r l' : init_reach l n -> service_pending_restart L cr3 hhdm_offset (E:=unit) l = (r, l') ->
    init_reach l' (if restart_pending (ln_init l) then n + 1 else n).

Definition restarts_ok (st : InitExecState) (n : Z) : Prop :=
  restart_count st = n /\ 0 <= n <= MAX_INIT_RESTARTS /\ (restart_pending st = true -> n < MAX_INIT_RESTARTS).

Lemma spawn_init_ok l n : restarts_ok (ln_init l) n -> restarts_ok (ln_init (snd (spawn_init_process L cr3 hhdm_offset l))) n.
Proof.
  intros (H1 & H2 & H3). unfold spawn_init_process, bind, on_init, zoom, gets, lift. cbn [ln_init].
  replace (set_field ln_init (ln_init l) l) with l by (by destruct l). destruct (activation (ln_init l)) as [a|]; [|done]. cbn [ok_or].
  pose proof (start_quiet a [INIT_PATH] [] l) as Hq. destruct (start_image L cr3 hhdm_offset a [INIT_PATH] [] l) as [[t|e| |] l']; simpl in *; try by rewrite Hq.
Qed.

Lemma spawn_program_ok (B : Block) m path argv envp l n : restarts_ok (ln_init l) n ->
  restarts_ok (ln_init (snd (spawn_executable (B := B) L cr3 hhdm_offset m path argv envp l))) n.
Proof.
  intros (H1 & H2 & H3). unfold spawn_executable, bind, lift. destruct (omap_err LoadFailed _) as [i| | |]; try done.
  destruct (omap_err _ _) as [bs| | |]; try done. destruct (build_activation i bs) as [a| | |]; try done.
  pose proof (start_quiet a argv envp l) as Hq. destruct (start_image L cr3 hhdm_offset a argv envp l) as [[t|e| |] l']; simpl in *; try by rewrite Hq.
Qed.

Lemma init_reach_ok l n : init_reach l n -> restarts_ok (ln_init l) n.
Proof.
  induction 1 as [a sch pg|l n sch pg _ IH|l n _ IH|B m path argv envp l n _ IH|l n pid tid status _ IH|l n r l' _ IH Hs].
  - split; [done|]. split; [unfold MAX_INIT_RESTARTS; simpl; lia|done].
  - exact IH.
  - by apply spawn_init_ok.
  - by apply spawn_program_ok.
  - destruct IH as (H1 & H2 & H3). unfold on_init, zoom, note_init_exit, bind, gets. simpl.
    destruct ((current_process (ln_init l) =? 0) || negb (current_process (ln_init l) =? pid)); simpl; [done|].
    split; [done|]. split; [done|]. intros Hp%Z.ltb_lt. simpl in Hp. lia.
  - revert Hs. unfold service_pending_restart, bind, on_init, zoom, gets. simpl.
    replace (upd ln_init (fun _ => ln_init l) l) with l by (by destruct l). destruct (restart_pending (ln_init l)) eqn:Hp; cbn [negb]; [|by intros [= <- <-]]. unfold modify, catch.
    set (l1 := upd ln_init (fun _ => upd restart_count (fun n => sat_add U32 n 1) (upd restart_pending (fun _ => false) (ln_init l))) l).
    assert (Hl1 : restarts_ok (ln_init l1) (n + 1)).
    { destruct IH as (H1 & H2 & H3). specialize (H3 Hp). unfold MAX_INIT_RESTARTS in *. split.
      - change (restart_count (ln_init l1)) with (sat_add U32 (restart_count (ln_init l)) 1). rewrite H1. unfold sat_add. lia.
      - split; [unfold MAX_INIT_RESTARTS; lia|done]. }
    pose proof (spawn_init_ok l1 (n + 1) Hl1) as H. destruct (spawn_init_process L cr3 hhdm_offset l1) as [[p|e| |] l2]; intros [= <- <-]; exact H.
Qed.

(** C27: init is restarted at most four times. Whatever programs are started and
    whatever processes exit after an image was activated, the restarts attempted
    are those counted, never more than [MAX_INIT_RESTARTS]; the exit of the process
    recorded as current is reported with a restart scheduled exactly while fewer
    were made, and no other exit changes anything. *)
Theorem init_restarts_bounded (l : Launch) (n pid tid status : Z) (Hreach : init_reach l n) :
  let st := ln_init l in
  n <= MAX_INIT_RESTARTS /\ restart_count st = n /\ (restart_pending st = true -> n < MAX_INIT_RESTARTS) /\
  note_init_exit (E:=unit) pid tid status st =
    if (current_process st =? 0) || negb (current_process st =? pid) then (Ok None, st)
    else (Ok (Some (mkDisposition pid tid status (n <? MAX_INIT_RESTARTS) (n + 1) MAX_INIT_RESTARTS)),
          mkInitExec (activation st) (last_error st) 0 0 (n <? MAX_INIT_RESTARTS) n (Some status)).
Proof.
  intros st. destruct (init_reach_ok l n Hreach) as (H1 & H2 & H3). fold st in H1, H3. split; [lia|]. split; [done|]. split; [done|].
  unfold note_init_exit, bind, gets. destruct ((current_process st =? 0) || negb (current_process st =? pid)); [done|].
  unfold put, ret. rewrite H1. do 3 f_equal. unfold sat_add, MAX_INIT_RESTARTS in *. f_equal; lia.
Qed.
End restart.

Definition demo_image : ActivatedInitImage := mkActivated INIT_PATH FmtElf 2 62 0x401000 0x400000 0x402000 0x2000 0 0 0x1000 0x400040 1 [].
Definition demo_launch : Launch := mkLaunch (mkInitExec (Some demo_image) None 0 0 false 0 None) demo_sched (mkPaging stack_frames ∅).

(** The image is started, exits, is restarted. *)
Definition demo_started : Launch := snd (spawn_init_process demo_layout 0x1ff000 (Some stack_hhdm) demo_launch).
Definition demo_exited : Launch := snd (on_init (note_init_exit (E:=unit) 3 3 1) demo_started).
#[local] Notation demo_restarted := (service_pending_restart demo_layout 0x1ff000 (Some stack_hhdm) (E:=unit) demo_exited).

Lemma init_restarts_bounded_witness : restart_count (ln_init (snd demo_restarted)) = 1 /\ 1 <= MAX_INIT_RESTARTS.
Proof.
  assert (Hp : restart_pending (ln_init demo_exited) = true) by (vm_compute; reflexivity).
  assert (Hr : init_reach demo_layout 0x1ff000 (Some stack_hhdm) (snd demo_restarted) 1).
  { pose proof (init_served demo_layout 0x1ff000 (Some stack_hhdm) demo_exited 0 (fst demo_restarted) (snd demo_restarted)) as H.
    rewrite Hp in H. apply H; [|exact (pair_of_fst demo_restarted _ eq_refl)]. unfold demo_exited. apply init_exited. unfold demo_started. apply init_spawned. apply init_active. }
  destruct (init_restarts_bounded demo_layout 0x1ff000 (Some stack_hhdm) (snd demo_restarted) 1 0 0 0 Hr) as (H1 & H2 & _). by split.
Defined.

(** Any program that is started takes the place of init: its exit, not that of
    init, schedules the restart. *)
Theorem spawn_replaces_init (L : Layout) (cr3 : Z) (hhdm : option Z) `{B : Block} (m : Mounts) (path : list Z) (argv envp : list (list Z))
    (l l' : Launch) (p : SpawnedInitProcess) (Hspawn : spawn_executable L cr3 hhdm m path argv envp l = (Ok p, l')) :
  current_process (ln_init l') = si_process_id p.
Proof.
  revert Hspawn. unfold spawn_executable, bind, lift. destruct (omap_err LoadFailed _) as [i| | |]; try done.
  destruct (omap_err _ _) as [bs| | |]; try done. destruct (build_activation i bs) as [a| | |]; try done.
  destruct (start_image L cr3 hhdm a argv envp l) as [[t|e| |] l1]; try done. unfold on_init, zoom, modify, gets, ret. by intros [= <- <-].
Qed.

(** Only the lowest address of an image is compared with the limit of user space: a
    segment of the kernel's half is activated where it is. *)
Definition kernel_entry : VmMapPlanEntry :=
  mkVmEntry 1 0 0xffffffff80000000 0xffffffff80000008 0xffffffff80000000 0xffffffff80001000 0 8 8 0 4096 true true false.
Definition user_entry : VmMapPlanEntry := mkVmEntry 0 0 0x400000 0x400008 0x400000 0x401000 0 8 8 0 4096 true false true.
Definition kernel_prep : ExecutableLoadPrep :=
  mkPrep (mkCandidate INIT_PATH MInitrd FmtElf 8 true) (Some 2) (Some 62) (Some 0x400000) 2
    (mkTotals 2 None None 16 16 1 1 4096 [user_entry; kernel_entry] 0x2000 0 None None) None None None false.
Theorem kernel_segment_activated :
  exists a, build_activation kernel_prep (replicate 8 0x90) = Ok a /\ s_map_start <$> ac_segments a = [0x400000; 0xffffffff80000000].
Proof. eexists. split; vm_compute; reflexivity. Qed.
