(* ===== verification/Syscall.v ===== *)
(** * System calls: [kernel/src/syscall.rs]

    The state the handlers work on is [World]: the scheduler (whose current thread
    holds the descriptor table), the table of open files all processes share, user
    memory, the console, the file systems, the page tables and the queues. The
    processor supplies a time stamp counter, [cr3] and the offset of the direct map;
    the page table a cloned address space gets is an argument. *)
From stdpp Require Import base list numbers option strings gmap.
From Stdlib Require Import ZArith Lia Bool.
From S2P Require Import Prelude Paths Text Machine Frame Fat Sched Vfs Uaccess Lcl Hsched Paging InitExec.

(** ** Numbers *)
Definition LINUX_SYS_READ : Z := 0.
Definition LINUX_SYS_WRITE : Z := 1.
Definition LINUX_SYS_OPEN : Z := 2.
Definition LINUX_SYS_CLOSE : Z := 3.
Definition LINUX_SYS_STAT : Z := 4.
Definition LINUX_SYS_FSTAT : Z := 5.
Definition LINUX_SYS_POLL : Z := 7.
Definition LINUX_SYS_LSEEK : Z := 8.
Definition LINUX_SYS_MMAP : Z := 9.
Definition LINUX_SYS_MPROTECT : Z := 10.
Definition LINUX_SYS_MUNMAP : Z := 11.
Definition LINUX_SYS_BRK : Z := 12.
Definition LINUX_SYS_RT_SIGACTION : Z := 13.
Definition LINUX_SYS_RT_SIGPROCMASK : Z := 14.
Definition LINUX_SYS_IOCTL : Z := 16.
Definition LINUX_SYS_SCHED_YIELD : Z := 24.
Definition LINUX_SYS_MADVISE : Z := 28.
Definition LINUX_SYS_GETPID : Z := 39.
Definition LINUX_SYS_EXIT : Z := 60.
Definition LINUX_SYS_UNAME : Z := 63.
Definition LINUX_SYS_GETPPID : Z := 110.
Definition LINUX_SYS_SIGALTSTACK : Z := 131.
Definition LINUX_SYS_ARCH_PRCTL : Z := 158.
Definition LINUX_SYS_GETTID : Z := 186.
Definition LINUX_SYS_TKILL : Z := 200.
Definition LINUX_SYS_GETDENTS64 : Z := 217.
Definition LINUX_SYS_SET_TID_ADDRESS : Z := 218.
Definition LINUX_SYS_CLOCK_GETTIME : Z := 228.
Definition LINUX_SYS_EXIT_GROUP : Z := 231.
Definition LINUX_SYS_TGKILL : Z := 234.
Definition LINUX_SYS_OPENAT : Z := 257.
Definition LINUX_SYS_NEWFSTATAT : Z := 262.
Definition LINUX_SYS_PRLIMIT64 : Z := 302.
Definition LINUX_SYS_GETRANDOM : Z := 318.
Definition LINUX_SYS_RSEQ : Z := 334.
Definition ARCH_SET_FS : Z := 0x1002.

Definition GHOST_SYS_WRITE : Z := 1.
Definition GHOST_SYS_YIELD : Z := 2.
Definition GHOST_SYS_GETPID : Z := 3.
Definition GHOST_SYS_GETTID : Z := 4.
Definition GHOST_SYS_UPTIME_NSEC : Z := 5.
Definition GHOST_SYS_UNAME : Z := 6.
Definition GHOST_SYS_EXIT_GROUP : Z := 7.
Definition GHOST_SYS_OPEN : Z := 8.
Definition GHOST_SYS_READ : Z := 9.
Definition GHOST_SYS_CLOSE : Z := 10.

Definition HXNU_SYS_LOG_WRITE : Z := 0x484e0001.
Definition HXNU_SYS_THREAD_SELF : Z := 0x484e0002.
Definition HXNU_SYS_PROCESS_SELF : Z := 0x484e0003.
Definition HXNU_SYS_UPTIME_NSEC : Z := 0x484e0004.
Definition HXNU_SYS_SCHED_YIELD : Z := 0x484e0005.
Definition HXNU_SYS_ABI_VERSION : Z := 0x484e0006.
Definition HXNU_SYS_OPEN : Z := 0x484e0007.
Definition HXNU_SYS_READ : Z := 0x484e0008.
Definition HXNU_SYS_CLOSE : Z := 0x484e0009.
Definition HXNU_SYS_LCL_RECEIVE : Z := 0x484e000a.
Definition HXNU_SYS_LCL_RETURN : Z := 0x484e000b.
Definition HXNU_SYS_SPAWN : Z := 0x484e000c.
Definition HXNU_SYS_HETEREXEC_SUBMIT : Z := 0x484e0010.
Definition HXNU_SYS_HETEREXEC_POLL : Z := 0x484e0011.
Definition HXNU_SYS_EXIT_GROUP : Z := 0x484e00ff.
Definition HXNU_NATIVE_ABI_VERSION : Z := 0x00010000.

Definition AT_FDCWD : Z := -100.
Definition O_ACCMODE : Z := 3.
Definition O_RDONLY : Z := 0.
Definition O_CREAT : Z := 0x40.
Definition O_TRUNC : Z := 0x200.
Definition O_APPEND : Z := 0x400.
Definition MAX_WRITE_BYTES : Z := 16 * 1024.
Definition MAX_READ_BYTES : Z := 64 * 1024.
Definition MAX_PATH_BYTES : Z := 1024.
Definition STDOUT_FD : Z := 1.
Definition STDERR_FD : Z := 2.

Definition ENOENT : Z := 2.
Definition EIO : Z := 5.
Definition EBADF : Z := 9.
Definition ENOMEM : Z := 12.
Definition EFAULT : Z := 14.
Definition EINVAL : Z := 22.
Definition EMFILE : Z := 24.
Definition ERANGE : Z := 34.
Definition ENOSYS : Z := 38.

Inductive SyscallAbi : Type := LinuxBootstrap | GhostBootstrap | HxnuNativeBootstrap | PosixLcl.
Inductive SyscallAction : Type := Continue | YieldThread | ExitGroup (status : Z).
Record SyscallOutcome : Type := mkOut { value : Z; action : SyscallAction }.
Definition success (v : Z) : SyscallOutcome := mkOut v Continue.
Definition errno (e : Z) : SyscallOutcome := mkOut (- e) Continue.

(** [v as i32] *)
Definition as_i32 (v : Z) : Z := let w := cast U32 v in if w <? 2 ^ 31 then w else w - U32.
(** A signed 64-bit sum; an overflow panics. *)
Definition add_i64 {E} (a b : Z) : outcome E Z := if (- 2 ^ 63 <=? a + b) && (a + b <? 2 ^ 63) then Ok (a + b) else Panic.

(** ** The state *)
Definition MAX_SYSTEM_FILES : nat := 128.
Definition PATH_BYTES : nat := 128.
Definition CONTENT_BYTES : Z := 65536.

Record OpenFile : Type := mkOpen {
  is_used : bool; ref_count : Z; of_path : list Z; path_len : Z; offset : Z; content : list Z; content_len : Z }.
#[export] Instance OpenFile_eta : RecordEta OpenFile :=
  fun f => mkOpen (is_used f) (ref_count f) (of_path f) (path_len f) (offset f) (content f) (content_len f).
Definition file_empty : OpenFile := mkOpen false 0 (replicate PATH_BYTES 0) 0 0 (replicate (Z.to_nat CONTENT_BYTES) 0) 0.

Record World : Type := mkWorld {
  w_kernel : Kernel; w_files : list OpenFile; w_lcl : LclQueue; w_user : gmap Z Z; w_console : list Z; w_mounts : Mounts;
  w_paging : Paging; w_brk : Z; w_mmap : Z; w_fs_base : Z; w_hsched : Ring; w_clock : Clock; w_init : InitExecState }.
#[export] Instance World_eta : RecordEta World :=
  fun w => mkWorld (w_kernel w) (w_files w) (w_lcl w) (w_user w) (w_console w) (w_mounts w) (w_paging w) (w_brk w) (w_mmap w)
    (w_fs_base w) (w_hsched w) (w_clock w) (w_init w).

Definition INITIAL_BRK : Z := 0x600000000000.
Definition INITIAL_MMAP : Z := 0x700000000000.

(** The parts of the world the other components' operations run on. *)
Definition on_kernel {E A} (m : M Kernel E A) : M World E A := zoom w_kernel (set_field w_kernel) m.
Definition sch {E A} (m : M Scheduler E A) : M World E A := on_kernel (on_sched m).
Definition on_lcl {E A} (m : M LclQueue E A) : M World E A := zoom w_lcl (set_field w_lcl) m.
Definition on_paging {E A} (m : M Paging E A) : M World E A := zoom w_paging (set_field w_paging) m.
(** What starting a program works on. *)
Definition launch_of (w : World) : Launch := mkLaunch (w_init w) (SCHEDULER (w_kernel w)) (w_paging w).
Definition set_launch (l : Launch) (w : World) : World :=
  set_field w_init (ln_init l) (upd w_kernel (set_field SCHEDULER (ln_sched l)) (set_field w_paging (ln_paging l) w)).
Definition on_launch {E A} (m : M Launch E A) : M World E A := zoom launch_of set_launch m.
Definition on_user {A} (m : M (gmap Z Z) UserCopyError A) : M World Z A :=
  catch (zoom w_user (set_field w_user) m) (fun r => match r with inl a => ret a | inr e => throw (as_errno e) end).

(** A [Result<i64, i64>] as the outcome of a call. *)
Definition finish {E} (m : M World Z Z) : M World E SyscallOutcome :=
  catch m (fun r => match r with inl v => ret (success v) | inr e => ret (errno e) end).

(** [args[i]] of the six arguments. *)
Definition arg (args : list Z) (i : nat) : Z := nth i args 0.

(** [usize::try_from], [i64::try_from] and [i32::try_from] of a [u64]. *)
Definition try_i64 (v : Z) : M World Z Z := if v <? 2 ^ 63 then ret v else throw ERANGE.
Definition parse_fd (v : Z) : M World Z Z := if v <? 2 ^ 31 then ret v else throw EBADF.

(** ** User memory *)
Definition copyin_bytes (ptr n : Z) : M World Z (list Z) := on_user (copyin ptr n).
Definition copyout_bytes (ptr : Z) (bytes : list Z) : M World Z unit := on_user (copyout bytes ptr).
(** A [Copy] structure is copied out as its bytes. *)
Definition copyout_struct : Z -> list Z -> M World Z unit := copyout_bytes.

(** The bytes before the terminating zero, at most as many as the buffer has. *)
Fixpoint copyin_from (ptr index : Z) (room : nat) (buf : list Z) : M World Z (list Z) :=
  match room with
  | O => throw ERANGE
  | S room' =>
      let! address := lift (ok_or ERANGE (chk_add U64 ptr index)) in
      let! byte := copyin_bytes address 1 in
      match byte with
      | b :: _ => if b =? 0 then ret buf else copyin_from ptr (index + 1) room' (buf ++ [b])
      | [] => panic
      end
  end.
Definition copyin_c_string (ptr buf_len : Z) : M World Z (list Z) := copyin_from ptr 0 (Z.to_nat buf_len) [].

(** ** Open files *)
Definition process_fd_table {E} : M World E (list (option Z)) := sch get_fd_table.
Definition set_process_fd_table {E} (t : list (option Z)) : M World E unit := sch (set_fd_table t).
Definition get_file {E} (i : Z) : M World E OpenFile := let! fs := gets w_files in lift (idx fs i).
Definition set_file {E} (i : Z) (f : OpenFile -> OpenFile) : M World E unit :=
  let! _ := get_file i in modify (upd w_files (alter f (Z.to_nat i))).
Definition fd_entry {E} (t : list (option Z)) (fd : Z) : M World E (option Z) := lift (idx t fd).
Definition valid_fd (fd : Z) : bool := (0 <=? fd) && (fd <? Z.of_nat MAX_PROCESS_FDS).

(** [for i in 3..MAX_PROCESS_FDS]: the first descriptor that is free. *)
Definition free_fd_from (first : nat) (t : list (option Z)) : option Z :=
  (fun k => Z.of_nat (first + k)) <$> position (fun e => bool_decide (e = None)) (drop first t).
Definition free_fd : list (option Z) -> option Z := free_fd_from 3.

(** [for i in 0..MAX_SYSTEM_FILES]: the first unused file at or after [from]. *)
Definition free_file (from : nat) (fs : list OpenFile) : option Z :=
  (fun k => Z.of_nat (from + k)) <$> position (fun f => negb (is_used f)) (drop from fs).

(** The entry of a new file; the buffers keep what lies beyond the new contents. *)
Definition fill_file (path : list Z) (data : list Z) (f : OpenFile) : outcome Z OpenFile :=
  let p := take PATH_BYTES path in
  let? pb := blit (of_path f) 0 p in
  let c := take (Z.to_nat CONTENT_BYTES) data in
  let? cb := blit (content f) 0 c in
  Ok (mkOpen true 1 pb (len p) 0 cb (len c)).

Definition alloc_open_file (path data : list Z) : M World Z Z :=
  let! table := process_fd_table in
  let! fd := lift (ok_or EMFILE (free_fd table)) in
  let! files := gets w_files in
  let! i := lift (ok_or EMFILE (free_file 0 files)) in
  let! f := get_file i in
  let! f' := lift (fill_file path data f) in
  do! set_file i (fun _ => f') in
  do! set_process_fd_table (<[Z.to_nat fd := Some i]> table) in
  ret fd.

(** The open file a descriptor refers to: its index, or [EBADF]. *)
Definition fd_file (fd : Z) : M World Z Z :=
  if negb (valid_fd fd) then throw EBADF else
  let! table := process_fd_table in
  let! e := fd_entry table fd in
  lift (ok_or EBADF e).

Definition read_open_file (fd dst count : Z) : M World Z Z :=
  let! i := fd_file fd in
  let! open := get_file i in
  if negb (is_used open) then throw EBADF else
  if count =? 0 then ret 0 else
  let available := sat_sub (content_len open) (offset open) in
  let read_len := Z.min count available in
  do! (if 0 <? read_len then
         let! e := lift (add U64 (offset open) read_len) in
         let! bytes := lift (slice (content open) (offset open) e) in
         do! copyout_bytes dst bytes in
         set_file i (upd offset (fun o => sat_add U64 o read_len))
       else ret tt) in
  try_i64 read_len.

(** One reference less; the last one frees the entry. *)
Definition release_file {E} (i : Z) : M World E unit :=
  let! open := get_file i in
  if is_used open then
    if 1 <? ref_count open then
      let! n := lift (sub (ref_count open) 1) in set_file i (set_field ref_count n)
    else set_file i (set_field is_used false)
  else ret tt.
Definition retain_file {E} (i : Z) : M World E unit :=
  let! open := get_file i in
  if is_used open then let! n := lift (add U64 (ref_count open) 1) in set_file i (set_field ref_count n) else ret tt.

Definition close_open_file (fd : Z) : M World Z Z :=
  if negb (valid_fd fd) then throw EBADF else
  let! table := process_fd_table in
  let! e := fd_entry table fd in
  let! i := lift (ok_or EBADF e) in
  do! set_process_fd_table (<[Z.to_nat fd := None]> table) in
  do! release_file i in
  ret 0.

(** The loop over the descriptors from 3; [table] is the local copy. *)
Fixpoint purge_from {E} (fds : list nat) (table : list (option Z)) : M World E (list (option Z)) :=
  match fds with
  | [] => ret table
  | fd :: rest =>
      let! e := fd_entry table (Z.of_nat fd) in
      match e with
      | Some i => do! release_file i in purge_from rest (<[fd := None]> table)
      | None => purge_from rest table
      end
  end.
Definition purge_open_files_for_process {E} : M World E unit :=
  let! table := process_fd_table in
  let! table := purge_from (seq 3 (MAX_PROCESS_FDS - 3)) table in
  set_process_fd_table table.

Definition is_read_only_open (flags : Z) : bool :=
  (Z.land flags O_ACCMODE =? O_RDONLY) && (Z.land flags (Z.lor (Z.lor O_CREAT O_TRUNC) O_APPEND) =? 0).

(** The path of an open call, from the root; a relative one needs [AT_FDCWD].
    [copy_from_slice] panics when the lengths differ. *)
Definition resolve_open_path (dirfd : Z) (raw : list Z) : outcome Z (list Z) :=
  if starts_with raw [SLASH] then
    if len raw =? Z.min (len raw) MAX_PATH_BYTES then Ok raw else Panic
  else if dirfd =? AT_FDCWD then
    if len raw =? Z.min (len raw) (MAX_PATH_BYTES - 1) then Ok ([SLASH] ++ raw) else Panic
  else Err ENOSYS.

Definition open_path_at (dirfd path_ptr flags : Z) : M World Z Z :=
  if negb (is_read_only_open flags) then throw EINVAL else
  let! raw := copyin_c_string path_ptr MAX_PATH_BYTES in
  if negb (is_utf8 raw) then throw EINVAL else
  if str_eqb raw [] then throw EINVAL else
  let! resolved := lift (resolve_open_path dirfd raw) in
  if negb (is_utf8 resolved) then throw EINVAL else
  let! m := gets w_mounts in
  let! node := lift (ok_or ENOENT (vfs_lookup m resolved)) in
  let! text := lift (ok_or EIO (vfs_read m (n_path node))) in
  alloc_open_file (n_path node) text.

(** ** Handlers on descriptors *)
Definition read_from_fd {E} (args : list Z) : M World E SyscallOutcome :=
  finish (let! fd := parse_fd (arg args 0) in
    let count := arg args 2 in
    if MAX_READ_BYTES <? count then throw ERANGE else read_open_file fd (arg args 1) count).

Definition close_fd {E} (args : list Z) : M World E SyscallOutcome :=
  finish (let! fd := parse_fd (arg args 0) in close_open_file fd).

Definition tty_write {E} (text : list Z) : M World E unit := modify (upd w_console (fun c => c ++ text)).
Definition sanitize_for_console (bytes : list Z) : list Z := if is_utf8 bytes then bytes else [].

Definition write_text {E} (ptr n : Z) : M World E SyscallOutcome :=
  finish (if MAX_WRITE_BYTES <? n then throw ERANGE else
    if n =? 0 then ret 0 else
    let copy_len := Z.min n 1024 in
    let! bytes := copyin_bytes ptr copy_len in
    do! tty_write (sanitize_for_console bytes) in
    try_i64 copy_len).
Definition write_with_fd {E} (args : list Z) : M World E SyscallOutcome :=
  let fd := arg args 0 in
  if negb (fd =? STDOUT_FD) && negb (fd =? STDERR_FD) then ret (errno EBADF) else write_text (arg args 1) (arg args 2).
Definition write_without_fd {E} (args : list Z) : M World E SyscallOutcome := write_text (arg args 0) (arg args 1).

Definition sys_open {E} (dirfd path_ptr flags : Z) : M World E SyscallOutcome := finish (open_path_at dirfd path_ptr flags).
Definition linux_openat {E} (args : list Z) : M World E SyscallOutcome := sys_open (as_i64 (arg args 0)) (arg args 1) (arg args 2).

Definition sys_dup {E} (args : list Z) : M World E SyscallOutcome :=
  finish (let oldfd := as_i32 (arg args 0) in
    if negb (valid_fd oldfd) then throw EBADF else
    let! table := process_fd_table in
    let! e := fd_entry table oldfd in
    let! i := lift (ok_or EBADF e) in
    let! newfd := lift (ok_or EMFILE (free_fd table)) in
    do! retain_file i in
    do! set_process_fd_table (<[Z.to_nat newfd := Some i]> table) in
    ret newfd).

Definition sys_dup2 {E} (args : list Z) : M World E SyscallOutcome :=
  finish (let oldfd := as_i32 (arg args 0) in
    let newfd := as_i32 (arg args 1) in
    if negb (valid_fd oldfd) || negb (valid_fd newfd) then throw EBADF else
    if oldfd =? newfd then ret newfd else
    let! table := process_fd_table in
    let! e := fd_entry table oldfd in
    let! i := lift (ok_or EBADF e) in
    let! old := fd_entry table newfd in
    do! match old with Some j => release_file j | None => ret tt end in
    do! retain_file i in
    do! set_process_fd_table (<[Z.to_nat newfd := Some i]> table) in
    ret newfd).

Definition sys_lseek {E} (args : list Z) : M World E SyscallOutcome :=
  finish (let fd := as_i32 (arg args 0) in
    let delta := as_i64 (arg args 1) in
    let whence := as_i32 (arg args 2) in
    let! i := fd_file fd in
    let! open := get_file i in
    if negb (is_used open) then throw EBADF else
    let! target :=
      (if whence =? 0 then ret delta
       else if whence =? 1 then lift (add_i64 (as_i64 (offset open)) delta)
       else if whence =? 2 then lift (add_i64 (as_i64 (content_len open)) delta)
       else throw EINVAL) in
    if target <? 0 then throw EINVAL else
    do! set_file i (set_field offset target) in
    ret target).

Definition sys_ioctl {E} (args : list Z) : M World E SyscallOutcome :=
  finish (let fd := as_i32 (arg args 0) in
    if negb (valid_fd fd) then throw EBADF else
    let! table := process_fd_table in
    let! e := fd_entry table fd in
    let! open := get_file (default 9999 e) in
    if negb (is_used open) then throw EBADF else ret 0).

Definition pipe_end (name : list Z) (f : OpenFile) : outcome Z OpenFile :=
  let? pb := blit (of_path f) 0 name in
  Ok (mkOpen true 1 pb (len name) 0 (content f) 0).
Definition open_pipe_end (i : Z) (name : list Z) : M World Z unit :=
  let! f := get_file i in
  let! f' := lift (pipe_end name f) in
  set_file i (fun _ => f').

(** Two unused files and two free descriptors, in order. *)
Definition sys_pipe {E} (args : list Z) : M World E SyscallOutcome :=
  finish (let! files := gets w_files in
    let r := free_file 0 files in
    let w := match r with Some r => free_file (S (Z.to_nat r)) files | None => None end in
    match r, w with
    | Some r_idx, Some w_idx =>
        let! table := process_fd_table in
        let rf := free_fd table in
        let wf := match rf with Some f => free_fd_from (S (Z.to_nat f)) table | None => None end in
        match rf, wf with
        | Some r_fd, Some w_fd =>
            do! open_pipe_end r_idx (lit "pipe:read") in
            do! open_pipe_end w_idx (lit "pipe:write") in
            do! set_process_fd_table (<[Z.to_nat w_fd := Some w_idx]> (<[Z.to_nat r_fd := Some r_idx]> table)) in
            do! copyout_struct (arg args 0) (le_bytes 4 r_fd ++ le_bytes 4 w_fd) in
            ret 0
        | _, _ => throw EMFILE
        end
    | _, _ => throw EMFILE
    end).

(** [clone] is the page table [clone_space] returns, 0 when it fails. *)
Definition sys_fork {E} (clone : Z) : M World E SyscallOutcome :=
  finish (catch (sch (fork_current_thread clone)) (fun r => match r with inl pid => ret (as_i64 pid) | inr _ => throw ENOSYS end)).

(** [status << 8] of an [i32] *)
Definition shl8_i32 (v : Z) : Z := as_i32 (cast U32 v * 256).

Definition sys_wait4 {E} (args : list Z) : M World E SyscallOutcome :=
  let pid := as_i64 (arg args 0) in
  let status_ptr := arg args 1 in
  let options := cast U32 (arg args 2) in
  let! parent_pid := sch current_process_id in
  if pid =? -1 then
    catch (sch (reap_child parent_pid (-1))) (fun r =>
      match r with
      | inl (reaped, status) =>
          do! (if negb (status_ptr =? 0)
               then catch (copyout_struct status_ptr (le_bytes 4 (cast U32 (shl8_i32 status)))) (fun _ => ret tt) else ret tt) in
          ret (success (as_i64 reaped))
      | inr has_children =>
          if negb has_children then ret (errno ENOENT)
          else if negb (Z.land options 1 =? 0) then ret (success 0)
          else ret (mkOut 0 YieldThread)
      end)
  else ret (errno ENOSYS).

(** ** Files' attributes and directories *)
Definition i64_bytes (v : Z) : list Z := le_bytes 8 (cast U64 v).
Definition stat_bytes (mode size blocks : Z) : list Z :=
  le_bytes 8 0 ++ le_bytes 8 1 ++ le_bytes 8 1 ++ le_bytes 4 mode ++ le_bytes 4 0 ++ le_bytes 4 0 ++ le_bytes 4 0 ++ le_bytes 8 0 ++
  i64_bytes size ++ i64_bytes 4096 ++ i64_bytes blocks ++ concat (replicate 6 (le_bytes 8 0)) ++ concat (replicate 3 (le_bytes 8 0)).
Definition S_IFREG_MODE : Z := 33188.
Definition S_IFDIR_MODE : Z := 16877.

Definition sys_fstat {E} (args : list Z) : M World E SyscallOutcome :=
  finish (if negb (valid_fd (as_i32 (arg args 0))) then throw EBADF else
    do! copyout_struct (arg args 1) (stat_bytes S_IFREG_MODE 4096 1) in ret 0).

Definition sys_stat {E} (args : list Z) : M World E SyscallOutcome :=
  finish (let! raw := copyin_c_string (arg args 0) MAX_PATH_BYTES in
    if negb (is_utf8 raw) then throw EINVAL else
    let! m := gets w_mounts in
    let! node := lift (ok_or ENOENT (vfs_lookup m raw)) in
    let mode := if bool_decide (n_kind node = VDirectory) then S_IFDIR_MODE else S_IFREG_MODE in
    let! padded := lift (add U64 (n_size node) 4095) in
    do! copyout_struct (arg args 1) (stat_bytes mode (n_size node) (padded / 4096)) in
    ret 0).

Definition DIRENT_HEADER : Z := 19.
Definition dirent_header (next_offset reclen : Z) : list Z := le_bytes 8 1 ++ i64_bytes next_offset ++ le_bytes 2 (cast U16 reclen) ++ [8].

(** One record per line of the listing, as long as it fits; any failing copy is [EFAULT]. *)
Definition or_efault {A} (m : M World Z A) : M World Z A := catch m (fun r => match r with inl a => ret a | inr _ => throw EFAULT end).
Fixpoint dirent_lines (i dirp count : Z) (ls : list (list Z)) (written cur : Z) : M World Z Z :=
  match ls with
  | [] => ret written
  | line :: rest =>
      let name := trim line in
      if str_eqb name [] then dirent_lines i dirp count rest written cur else
      let raw_len := DIRENT_HEADER + len name + 1 in
      let reclen := Z.land (raw_len + 7) (bitnot U64 7) in
      if count <? written + reclen then ret written else
      let next_offset := cur + len line + 1 in
      let! dst := lift (add U64 dirp written) in
      do! or_efault (copyout_struct dst (dirent_header next_offset reclen)) in
      let! name_dst := lift (add U64 dst DIRENT_HEADER) in
      do! or_efault (copyout_bytes name_dst name) in
      let! null_dst := lift (add U64 name_dst (len name)) in
      do! or_efault (copyout_bytes null_dst [0]) in
      do! set_file i (set_field offset next_offset) in
      dirent_lines i dirp count rest (written + reclen) next_offset
  end.

Definition sys_getdents64 {E} (args : list Z) : M World E SyscallOutcome :=
  finish (let! i := fd_file (as_i32 (arg args 0)) in
    let! open := get_file i in
    if negb (is_used open) then throw EBADF else
    if content_len open <=? offset open then ret 0 else
    let! text := lift (slice (content open) (offset open) (content_len open)) in
    if negb (is_utf8 text) then throw EIO else
    dirent_lines i (arg args 1) (arg args 2) (lines text) 0 (offset open)).

(** ** Identity, time, names *)
Definition stats_field {E} (f : Thread -> Z) : M World E Z := sch (let! t := current_thread in ret (f t)).
Definition current_process_id_value {E} : M World E Z := stats_field Sched.process_id.
Definition sys_process_id {E} : M World E SyscallOutcome := finish (let! v := current_process_id_value in try_i64 v).
Definition process_parent_id {E} : M World E SyscallOutcome := finish (let! v := stats_field parent_process_id in try_i64 v).
Definition sys_thread_id {E} : M World E SyscallOutcome := finish (let! v := stats_field Sched.id in try_i64 v).

Definition uts_field (v : list Z) : list Z := let c := take 64 v in c ++ replicate (65 - length c) 0.
Definition write_uname {E} (ptr : Z) (fields : list (list Z)) : M World E SyscallOutcome :=
  finish (do! copyout_struct ptr (concat (uts_field <$> fields)) in ret 0).
Definition linux_uname {E} (args : list Z) : M World E SyscallOutcome :=
  write_uname (arg args 0) [lit "Linux"; lit "hxnu"; lit "0.1.0-hxnu"; lit "HXNU micro-hybrid kernel bootstrap"; lit "x86_64"; lit "localdomain"].
Definition ghost_uname {E} (args : list Z) : M World E SyscallOutcome :=
  write_uname (arg args 0) [lit "Ghost"; lit "hxnu"; lit "0.1.0-ghost"; lit "HXNU ghost compatibility bootstrap"; lit "x86_64"; lit "legacy"].

Definition sys_getrandom {E} (args : list Z) : M World E SyscallOutcome :=
  finish (let copy_len := Z.min (arg args 1) 256 in
    do! copyout_bytes (arg args 0) ((fun i => wrap_add U8 (wrap_mul U8 (cast U8 i) 37) 13) <$> seqZ 0 copy_len) in
    ret copy_len).

Definition sys_arch_prctl {E} (args : list Z) : M World E SyscallOutcome :=
  if arg args 0 =? ARCH_SET_FS then do! modify (set_field w_fs_base (arg args 1)) in ret (success 0) else ret (errno EINVAL).

Definition sys_exit_group {E} (args : list Z) : M World E SyscallOutcome :=
  do! purge_open_files_for_process in ret (mkOut 0 (ExitGroup (as_i32 (arg args 0)))).

(** ** The compatibility layer *)
Definition message_bytes (m : LclMessage) : list Z :=
  concat (le_bytes 8 <$> [m_number m; arg (m_args m) 0; arg (m_args m) 1; arg (m_args m) 2; arg (m_args m) 3; arg (m_args m) 4;
    arg (m_args m) 5; m_pid m; m_tid m; m_abi m]).
Definition lcl_receive {E} (args : list Z) : M World E SyscallOutcome :=
  let! msg := on_lcl dequeue_lcl_message in
  match msg with
  | None => ret (success 0)
  | Some m => catch (copyout_bytes (arg args 0) (message_bytes m)) (fun r => ret (success (match r with inl _ => 1 | inr _ => 0 end)))
  end.
Definition lcl_return {E} (args : list Z) : M World E SyscallOutcome :=
  catch (sch (unblock_thread_with_result (arg args 1) (arg args 2) (arg args 0)))
    (fun r => ret (match r with inl _ => success 0 | inr _ => errno EINVAL end)).

(** Hand a call to the daemon: queue it and block the caller. *)
Definition posix_lcl {E} (number : Z) (args : list Z) (abi : Z) : M World E SyscallOutcome :=
  do! tty_write (lit "[LCL Handler] Intercepted int 0x80" ++ [NEWLINE]) in
  let! pid := sch current_process_id in
  let! tid := sch current_thread_id in
  do! on_lcl (enqueue_lcl_message (mkMessage pid tid number args abi)) in
  do! sch block_current_thread in
  ret (mkOut 0 YieldThread).

(** ** The heterogeneous scheduler: a submission with no other thread running *)
Fixpoint hsched_run {E} (fuel : nat) (p : pc) : M World E result :=
  match p, fuel with
  | Idle r, _ => ret r
  | _, O => diverge
  | _, S fuel' =>
      let! r := gets w_hsched in
      let '(r', p') := advance Dispatch false r p in
      do! modify (set_field w_hsched r') in
      hsched_run fuel' p'
  end.
Definition submit_workload {E} (w : WorkloadType) : M World E result :=
  let! r := gets w_hsched in
  let '(r', p) := advance (Submit w) false r (Idle NoCall) in
  do! modify (set_field w_hsched r') in
  hsched_run 6 p.
Definition sys_heterexec_submit {E} (args : list Z) : M World E SyscallOutcome :=
  let! r := submit_workload (DirectTarget (cast U8 (Z.land (arg args 0) 0xFF))) in
  ret (match r with Accepted id => success id | _ => errno EIO end).
Definition sys_heterexec_poll {E} (args : list Z) : M World E SyscallOutcome :=
  let task_id := cast U32 (arg args 0) in
  let! r := gets w_hsched in
  if task_id =? 0 then
    ret (success (as_i64 (Z.lor (cast U64 (Z.shiftl (r_head r) 32)) (Z.land (r_tail r) 0xFFFFFFFF))))
  else ret (success (if task_id <=? r_head r then 1 else 0)).

(** ** Memory, time and dispatch, on a given processor *)
Section processor.
Variables (L : Layout) (tsc cr3 : Z) (hhdm_offset : option Z).
Context `{B : Block}.

Definition USER_PAGE_FLAGS : Z := Z.lor FLAG_USER_ACCESSIBLE FLAG_WRITABLE.
Definition round_page {E} (v : Z) : outcome E Z := let? p := add U64 v 4095 in Ok (Z.land p (bitnot U64 4095)).

(** A zeroed frame mapped at [va], when there is one; a failing mapping is ignored. *)
Definition map_fresh_page {E} (hhdm : Z) (va : outcome E Z) : M World E unit :=
  let! f := on_paging (zoom pg_frames (fun t s => set_field pg_frames t s) allocate) in
  match f with
  | None => ret tt
  | Some frame =>
      let phys := start_address frame in
      let! dst := lift (add U64 hhdm phys) in
      do! on_paging (modify (upd pg_words (Vmm.zero_bytes dst))) in
      let! va := lift va in
      catch (on_paging (map_user_region cr3 hhdm va phys 4096 USER_PAGE_FLAGS)) (fun _ => ret tt)
  end.

(** A page per index, at the address it gives. *)
Fixpoint map_fresh_pages {E} (hhdm : Z) (address : Z -> outcome E Z) (indices : list Z) : M World E unit :=
  match indices with
  | [] => ret tt
  | i :: rest => do! map_fresh_page hhdm (address i) in map_fresh_pages hhdm address rest
  end.

Definition sys_brk {E} (args : list Z) : M World E SyscallOutcome :=
  let new_brk := arg args 0 in
  let! brk := gets w_brk in
  if (new_brk =? 0) || (new_brk <=? brk) then ret (success (as_i64 brk)) else
  let! old_page := lift (round_page brk) in
  let! new_page := lift (round_page new_brk) in
  if old_page <? new_page then
    match hhdm_offset with
    | None => ret (errno ENOMEM)
    | Some hhdm =>
        do! map_fresh_pages hhdm (fun i => Ok (old_page + i * 4096)) (seqZ 0 ((new_page - old_page) / 4096)) in
        do! modify (set_field w_brk new_brk) in
        ret (success (as_i64 new_brk))
    end
  else
    do! modify (set_field w_brk new_brk) in
    ret (success (as_i64 new_brk)).

Definition sys_mmap {E} (args : list Z) : M World E SyscallOutcome :=
  let hint := arg args 0 in
  let n := arg args 1 in
  if n =? 0 then ret (errno EINVAL) else
  let! aligned := lift (round_page n) in
  let! va :=
    (if (0x100000000 <=? hint) && (Z.land hint 4095 =? 0) then ret hint
     else
       let! v := gets w_mmap in
       let! next := lift (add U64 v aligned) in
       do! modify (set_field w_mmap next) in
       ret v) in
  match hhdm_offset with
  | None => ret (errno ENOMEM)
  | Some hhdm =>
      do! map_fresh_pages hhdm (fun i => add U64 va (i * 4096)) (seqZ 0 (aligned / 4096)) in
      ret (success (as_i64 va))
  end.

Definition uptime_ns {E} : M World E SyscallOutcome :=
  finish (let! c := gets w_clock in try_i64 (uptime_nanoseconds c tsc)).
Definition linux_clock_gettime {E} (args : list Z) : M World E SyscallOutcome :=
  finish (let clock_id := as_i32 (arg args 0) in
    if negb (clock_id =? 0) && negb (clock_id =? 1) then throw EINVAL else
    let! c := gets w_clock in
    let t := uptime_nanoseconds c tsc in
    do! copyout_struct (arg args 1) (i64_bytes (t / 1000000000) ++ i64_bytes (t mod 1000000000)) in
    ret 0).

Definition ok {E} (v : Z) : M World E SyscallOutcome := ret (success v).
Definition no_such_call {E} : M World E SyscallOutcome := ret (errno ENOSYS).

Definition dispatch_linux_bootstrap {E} (number : Z) (args : list Z) : M World E SyscallOutcome :=
  if number =? LINUX_SYS_READ then read_from_fd args
  else if number =? LINUX_SYS_WRITE then write_with_fd args
  else if number =? LINUX_SYS_OPEN then sys_open AT_FDCWD (arg args 0) (arg args 1)
  else if number =? LINUX_SYS_CLOSE then close_fd args
  else if (number =? LINUX_SYS_STAT) || (number =? LINUX_SYS_NEWFSTATAT) then sys_stat args
  else if number =? LINUX_SYS_FSTAT then sys_fstat args
  else if number =? LINUX_SYS_POLL then ok 0
  else if number =? LINUX_SYS_LSEEK then ok 0
  else if number =? LINUX_SYS_MMAP then sys_mmap args
  else if number =? LINUX_SYS_MPROTECT then ok 0
  else if number =? LINUX_SYS_MUNMAP then ok 0
  else if number =? LINUX_SYS_BRK then sys_brk args
  else if number =? LINUX_SYS_RT_SIGACTION then ok 0
  else if number =? LINUX_SYS_RT_SIGPROCMASK then ok 0
  else if number =? LINUX_SYS_IOCTL then sys_ioctl args
  else if number =? LINUX_SYS_SCHED_YIELD then ok 0
  else if number =? LINUX_SYS_MADVISE then ok 0
  else if number =? LINUX_SYS_GETPID then sys_process_id
  else if number =? LINUX_SYS_GETPPID then process_parent_id
  else if number =? LINUX_SYS_SIGALTSTACK then ok 0
  else if number =? LINUX_SYS_ARCH_PRCTL then sys_arch_prctl args
  else if number =? LINUX_SYS_GETTID then sys_thread_id
  else if number =? LINUX_SYS_TKILL then ok 0
  else if number =? LINUX_SYS_GETDENTS64 then sys_getdents64 args
  else if number =? LINUX_SYS_SET_TID_ADDRESS then (let! r := sys_process_id in ok (value r))
  else if number =? LINUX_SYS_CLOCK_GETTIME then linux_clock_gettime args
  else if number =? LINUX_SYS_UNAME then linux_uname args
  else if (number =? LINUX_SYS_EXIT) || (number =? LINUX_SYS_EXIT_GROUP) then sys_exit_group args
  else if number =? LINUX_SYS_TGKILL then ok 0
  else if number =? LINUX_SYS_OPENAT then linux_openat args
  else if number =? LINUX_SYS_PRLIMIT64 then ok 0
  else if number =? LINUX_SYS_GETRANDOM then sys_getrandom args
  else no_such_call.

Definition dispatch_ghost_bootstrap {E} (number : Z) (args : list Z) : M World E SyscallOutcome :=
  if number =? GHOST_SYS_WRITE then write_with_fd args
  else if number =? GHOST_SYS_OPEN then sys_open AT_FDCWD (arg args 0) (arg args 1)
  else if number =? GHOST_SYS_READ then read_from_fd args
  else if number =? GHOST_SYS_CLOSE then close_fd args
  else if number =? GHOST_SYS_YIELD then ok 0
  else if number =? GHOST_SYS_GETPID then sys_process_id
  else if number =? GHOST_SYS_GETTID then sys_thread_id
  else if number =? GHOST_SYS_UPTIME_NSEC then uptime_ns
  else if number =? GHOST_SYS_UNAME then ghost_uname args
  else if number =? GHOST_SYS_EXIT_GROUP then sys_exit_group args
  else no_such_call.

(** The [argc] strings of an argument vector; one that is not UTF-8 is left out. *)
Fixpoint spawn_args (ptrs : list Z) (argv : list (list Z)) : M World Z (list (list Z)) :=
  match ptrs with
  | [] => ret argv
  | p :: rest => let! s := copyin_c_string p 256 in spawn_args rest (if is_utf8 s then argv ++ [s] else argv)
  end.
Fixpoint words_of (n : nat) (bytes : list Z) : list Z :=
  match n with O => [] | S n' => le_val (take 8 bytes) :: words_of n' (drop 8 bytes) end.

Definition hxnu_spawn {E} (args : list Z) : M World E SyscallOutcome :=
  finish (let argc := arg args 2 in
    let! path := copyin_c_string (arg args 0) MAX_PATH_BYTES in
    if negb (is_utf8 path) then throw EINVAL else
    let! argv :=
      (if negb (arg args 1 =? 0) && (0 <? argc) && (argc <=? 16) then
         let! bytes := copyin_bytes (arg args 1) (argc * 8) in
         spawn_args (words_of (Z.to_nat argc) bytes) []
       else ret []) in
    let! m := gets w_mounts in
    catch (on_launch (spawn_executable L cr3 hhdm_offset m path argv []))
      (fun r => match r with inl p => ret (as_i64 (si_process_id p)) | inr _ => throw ENOENT end)).

Definition dispatch_hxnu_bootstrap {E} (number : Z) (args : list Z) : M World E SyscallOutcome :=
  if number =? HXNU_SYS_LOG_WRITE then write_without_fd args
  else if number =? HXNU_SYS_OPEN then sys_open AT_FDCWD (arg args 0) (arg args 1)
  else if number =? HXNU_SYS_READ then read_from_fd args
  else if number =? HXNU_SYS_CLOSE then close_fd args
  else if number =? HXNU_SYS_THREAD_SELF then sys_thread_id
  else if number =? HXNU_SYS_PROCESS_SELF then sys_process_id
  else if number =? HXNU_SYS_UPTIME_NSEC then uptime_ns
  else if number =? HXNU_SYS_SCHED_YIELD then ret (mkOut 0 YieldThread)
  else if number =? HXNU_SYS_ABI_VERSION then ok HXNU_NATIVE_ABI_VERSION
  else if number =? HXNU_SYS_LCL_RECEIVE then lcl_receive args
  else if number =? HXNU_SYS_LCL_RETURN then lcl_return args
  else if number =? HXNU_SYS_SPAWN then hxnu_spawn args
  else if number =? HXNU_SYS_HETEREXEC_SUBMIT then sys_heterexec_submit args
  else if number =? HXNU_SYS_HETEREXEC_POLL then sys_heterexec_poll args
  else if number =? HXNU_SYS_EXIT_GROUP then sys_exit_group args
  else no_such_call.

Definition dispatch {E} (abi : SyscallAbi) (number : Z) (args : list Z) : M World E SyscallOutcome :=
  match abi with
  | LinuxBootstrap => dispatch_linux_bootstrap number args
  | GhostBootstrap => dispatch_ghost_bootstrap number args
  | HxnuNativeBootstrap => dispatch_hxnu_bootstrap number args
  | PosixLcl => posix_lcl number args 3
  end.

(** The registers of the trap frame that carry the call. *)
Record SyscallRegisterFrame : Type := mkFrameRegs { f_rax : Z; f_rdi : Z; f_rsi : Z; f_rdx : Z; f_r10 : Z; f_r8 : Z; f_r9 : Z; f_r12 : Z }.
Definition frame_args (f : SyscallRegisterFrame) : list Z := [f_rdi f; f_rsi f; f_rdx f; f_r10 f; f_r8 f; f_r9 f].
Definition syscall_handler {E} (f : SyscallRegisterFrame) : M World E SyscallOutcome :=
  if f_r12 f =? 2 then dispatch_hxnu_bootstrap (f_rax f) (frame_args f) else posix_lcl (f_rax f) (frame_args f) (f_r12 f).
End processor.
