(* ===== verification/SyscallFacts.v ===== *)
(** * Open files: invariant and theorems

    The reference count of an open file is the number of descriptors, over all
    threads, that refer to it. [Files w t] states this with the current thread's
    table taken to be [t], since the handlers work on a copy of it that they store
    at the end. *)
From stdpp Require Import base list numbers option gmap strings.
From Stdlib Require Import ZArith Lia Bool.
From S2P Require Import Prelude Paths Text Machine Frame Initrd Sched SchedFacts Pseudo Vfs Uaccess Lcl Hsched Paging InitExec Syscall.

Definition scheduler (w : World) : Scheduler := SCHEDULER (w_kernel w).
Definition ths (w : World) : list Thread := threads (scheduler w).

(** ** Counting references *)
Definition refs (t : list (option Z)) (i : Z) : Z := zsum (fun e => if decide (e = Some i) then 1 else 0) t.
Definition total_refs (l : list Thread) (i : Z) : Z := zsum (fun th => refs (fd_table th) i) l.
Definition with_table (c : nat) (t : list (option Z)) (l : list Thread) : list Thread := alter (set_field fd_table t) c l.

Lemma zsum_alter {A} (f : A -> Z) g l k x : l !! k = Some x -> zsum f (alter g k l) = zsum f l - f x + f (g x).
Proof.
  revert k. induction l as [|y l IH]; intros [|k] Hk; [done|done| |].
  - injection Hk as ->. change (alter g 0%nat (x :: l)) with (g x :: l). rewrite !zsum_cons. lia.
  - change (l !! k = Some x) in Hk. change (alter g (S k) (y :: l)) with (y :: alter g k l). rewrite !zsum_cons, (IH k Hk). lia.
Qed.

Lemma zsum_insert {A} (f : A -> Z) l k x y : l !! k = Some x -> zsum f (<[k := y]> l) = zsum f l - f x + f y.
Proof.
  revert k. induction l as [|z l IH]; intros [|k] Hk; [done|done| |].
  - injection Hk as ->. change (<[0%nat := y]> (x :: l)) with (y :: l). rewrite !zsum_cons. lia.
  - change (l !! k = Some x) in Hk. change (<[S k := y]> (z :: l)) with (z :: <[k := y]> l). rewrite !zsum_cons, (IH k Hk). lia.
Qed.

Definition one (e : option Z) (i : Z) : Z := if decide (e = Some i) then 1 else 0.

Lemma refs_insert t k e e' i : t !! k = Some e -> refs (<[k := e']> t) i = refs t i - one e i + one e' i.
Proof. intros Hk. unfold refs. by rewrite (zsum_insert _ _ _ _ _ Hk). Qed.

Lemma one_nonneg e i : 0 <= one e i <= 1.
Proof. unfold one. case_decide; lia. Qed.

Lemma refs_nonneg t i : 0 <= refs t i.
Proof. induction t as [|e t IH]; [done|]. unfold refs in *. rewrite zsum_cons. pose proof (one_nonneg e i). unfold one in *. lia. Qed.

Lemma refs_bound t i : refs t i <= len t.
Proof.
  induction t as [|e t IH]; [done|]. rewrite len_cons. unfold refs in *. rewrite zsum_cons. pose proof (one_nonneg e i). unfold one in *. lia.
Qed.

Lemma refs_pos t k i : t !! k = Some (Some i) -> 1 <= refs t i.
Proof.
  intros Hk. pose proof (refs_nonneg (<[k := None]> t) i) as H. rewrite (refs_insert t k (Some i) None i Hk) in H.
  unfold one in H. rewrite decide_True, decide_False in H by done. lia.
Qed.

(** Two descriptors of the same file. *)
Lemma refs_two t k j i : t !! k = Some (Some i) -> t !! j = Some (Some i) -> k <> j -> 2 <= refs t i.
Proof.
  intros Hk Hj Hne. pose proof (refs_pos (<[k := None]> t) j i) as H. rewrite list_lookup_insert_ne in H by done. specialize (H Hj).
  rewrite (refs_insert t k (Some i) None i Hk) in H. unfold one in H. rewrite decide_True, decide_False in H by done. lia.
Qed.

Lemma total_with_table l c th t i : l !! c = Some th -> total_refs (with_table c t l) i = total_refs l i - refs (fd_table th) i + refs t i.
Proof. intros Hc. unfold total_refs, with_table. rewrite (zsum_alter _ _ _ _ _ Hc). done. Qed.

Lemma total_refs_bound l i : Forall (fun th => length (fd_table th) = MAX_PROCESS_FDS) l -> 0 <= total_refs l i <= 64 * len l.
Proof.
  induction 1 as [|th l Hth _ IH]; [done|]. unfold total_refs in *. rewrite zsum_cons, len_cons.
  pose proof (refs_nonneg (fd_table th) i). pose proof (refs_bound (fd_table th) i). unfold len in *. rewrite Hth in *. unfold MAX_PROCESS_FDS in *. lia.
Qed.

Lemma total_nonneg l i : 0 <= total_refs l i.
Proof. induction l as [|th l IH]; [done|]. unfold total_refs in *. rewrite zsum_cons. pose proof (refs_nonneg (fd_table th) i). lia. Qed.

Lemma total_ge l c th i : l !! c = Some th -> refs (fd_table th) i <= total_refs l i.
Proof.
  revert c. induction l as [|x l IH]; intros [|c] Hc; [done|done| |].
  - injection Hc as ->. pose proof (total_nonneg l i). unfold total_refs in *. rewrite zsum_cons. lia.
  - specialize (IH c Hc). unfold total_refs in *. rewrite zsum_cons. pose proof (refs_nonneg (fd_table x) i). lia.
Qed.

Lemma total_with_ge l c th t i : l !! c = Some th -> refs t i <= total_refs (with_table c t l) i.
Proof. intros Hc. rewrite (total_with_table _ _ _ _ _ Hc). pose proof (total_ge l c th i Hc). lia. Qed.

(** ** The invariant *)
Record file_ok (f : OpenFile) : Prop := {
  fk_path : length (of_path f) = PATH_BYTES;
  fk_content : len (content f) = CONTENT_BYTES;
  fk_len : 0 <= content_len f <= CONTENT_BYTES;
  fk_offset : 0 <= offset f < SLICE_LIMIT }.

Record Files (w : World) (t : list (option Z)) : Prop := {
  fi_current : exists c th, current_slot (scheduler w) = Some c /\ ths w !! c = Some th;
  fi_threads : length (ths w) = MAX_THREADS;
  fi_tables : Forall (fun th => length (fd_table th) = MAX_PROCESS_FDS) (ths w);
  fi_table : length t = MAX_PROCESS_FDS;
  fi_files : length (w_files w) = MAX_SYSTEM_FILES;
  fi_ok : Forall file_ok (w_files w);
  fi_refs : forall c i f, current_slot (scheduler w) = Some c -> w_files w !! i = Some f ->
    total_refs (with_table c t (ths w)) (Z.of_nat i) = (if is_used f then ref_count f else 0) /\ (is_used f = true -> 1 <= ref_count f);
  fi_range : forall c i, current_slot (scheduler w) = Some c -> 0 < total_refs (with_table c t (ths w)) i -> 0 <= i < 128 }.

(** The table of the current thread. *)
Definition table_of (w : World) : list (option Z) :=
  match current_slot (scheduler w) with
  | Some c => from_option fd_table (replicate MAX_PROCESS_FDS None) (ths w !! c)
  | None => replicate MAX_PROCESS_FDS None
  end.
Definition files_ok (w : World) : Prop := Files w (table_of w).

(** ** Running the accessors *)
Definition set_table (t : list (option Z)) (w : World) : World :=
  match current_slot (scheduler w) with
  | Some c => upd w_kernel (upd SCHEDULER (upd threads (with_table c t))) w
  | None => w
  end.
Definition set_files (fs : list OpenFile) (w : World) : World := set_field w_files fs w.

Section accessors.
Context {E : Type} (w : World) (t : list (option Z)).
Hypothesis HF : Files w t.

Lemma table_run : process_fd_table (E:=E) w = (Ok (table_of w), w).
Proof.
  destruct (fi_current _ _ HF) as (c & th & Hc & Hth). unfold process_fd_table, sch, on_kernel, on_sched, zoom, get_fd_table, table_of.
  unfold bind at 1, gets. fold (scheduler w). rewrite Hc. unfold bind, get_thread, gets, at_. fold (scheduler w). unfold bind. fold (ths w).
  rewrite Hth. clear. by destruct w as [[]].
Qed.

Lemma set_table_run t' : set_process_fd_table (E:=E) t' w = (Ok tt, set_table t' w).
Proof.
  destruct (fi_current _ _ HF) as (c & th & Hc & Hth). unfold set_process_fd_table, sch, on_kernel, on_sched, zoom, set_fd_table, set_table.
  unfold bind at 1, gets. fold (scheduler w). rewrite Hc. unfold set_thread, bind, get_thread, gets, at_. fold (scheduler w). unfold bind. fold (ths w).
  rewrite Hth. reflexivity.
Qed.

Lemma get_file_run i : 0 <= i < 128 -> exists f, w_files w !! Z.to_nat i = Some f /\ get_file (E:=E) i w = (Ok f, w).
Proof.
  intros Hi. pose proof (fi_files _ _ HF) as Hl. unfold MAX_SYSTEM_FILES in Hl. unfold get_file, bind, gets, lift.
  destruct (idx_total (E:=E) (w_files w) i) as (f & -> & Hf); [unfold len; lia|]. by exists f.
Qed.

Lemma set_file_run i g : 0 <= i < 128 -> set_file (E:=E) i g w = (Ok tt, set_files (alter g (Z.to_nat i) (w_files w)) w).
Proof. intros Hi. destruct (get_file_run i Hi) as (f & _ & Hg). unfold set_file, bind. by rewrite Hg. Qed.
End accessors.

(** ** Changing one descriptor and the file it refers to *)
Lemma total_refs_insert l c th t k e e' i : l !! c = Some th -> t !! k = Some e ->
  total_refs (with_table c (<[k := e']> t) l) i = total_refs (with_table c t l) i - one e i + one e' i.
Proof. intros Hc Hk. rewrite !(total_with_table _ _ _ _ _ Hc), (refs_insert _ _ _ _ _ Hk). lia. Qed.

Definition live_refs (f : OpenFile) : Z := if is_used f then ref_count f else 0.

Lemma descriptor_change w t k e e' fs' :
  Files w t -> t !! k = Some e -> length fs' = MAX_SYSTEM_FILES -> Forall file_ok fs' ->
  (forall j f f', w_files w !! j = Some f -> fs' !! j = Some f' ->
     live_refs f' = live_refs f - one e (Z.of_nat j) + one e' (Z.of_nat j) /\ (is_used f' = true -> 1 <= ref_count f')) ->
  (forall i, e' = Some i -> 0 <= i < 128) -> Files (set_files fs' w) (<[k := e']> t).
Proof.
  intros HF Hk Hl Hok Hfs He. pose proof (fi_current _ _ HF) as (c & th & Hc & Hth). constructor; try (apply HF); try done.
  - rewrite length_insert. apply (fi_table _ _ HF).
  - intros c' i f' Hc' Hf'. change (scheduler (set_files fs' w)) with (scheduler w) in Hc'. rewrite Hc in Hc'. injection Hc' as <-.
    change (ths (set_files fs' w)) with (ths w). change (w_files (set_files fs' w)) with fs' in Hf'.
    destruct (lookup_lt_is_Some_2 (w_files w) i) as [f Hf]; [rewrite (fi_files _ _ HF), <- Hl; by eapply lookup_lt_Some|].
    destruct (Hfs i f f' Hf Hf') as [Hr H1]. destruct (fi_refs _ _ HF c i f Hc Hf) as [Ht _].
    rewrite (total_refs_insert _ _ _ _ _ _ _ _ Hth Hk), Ht. unfold live_refs in Hr. split; [lia|done].
  - intros c' i Hc'. change (scheduler (set_files fs' w)) with (scheduler w) in Hc'. rewrite Hc in Hc'. injection Hc' as <-.
    change (ths (set_files fs' w)) with (ths w). rewrite (total_refs_insert _ _ _ _ _ _ _ _ Hth Hk). intros Hpos.
    destruct (decide (e' = Some i)) as [->|Hne]; [by apply He|]. apply (fi_range _ _ HF c i Hc).
    unfold one at 2 in Hpos. rewrite decide_False in Hpos by done. pose proof (one_nonneg e i). lia.
Qed.

Lemma descriptor_keep w t fs' :
  Files w t -> length fs' = MAX_SYSTEM_FILES -> Forall file_ok fs' ->
  (forall j f f', w_files w !! j = Some f -> fs' !! j = Some f' -> is_used f' = is_used f /\ ref_count f' = ref_count f) ->
  Files (set_files fs' w) t.
Proof.
  intros HF Hl Hok Hfs. destruct (lookup_lt_is_Some_2 t 0) as [e He]; [rewrite (fi_table _ _ HF); unfold MAX_PROCESS_FDS; lia|].
  rewrite <- (list_insert_id t 0 e) by done. eapply descriptor_change; eauto.
  - intros j f f' Hf Hf'. destruct (Hfs j f f' Hf Hf') as [Hu Hr]. destruct (fi_current _ _ HF) as (c & th & Hc & _).
    destruct (fi_refs _ _ HF c j f Hc Hf) as [_ H1]. unfold live_refs. rewrite Hu, Hr. split; [lia|done].
  - intros i ->. destruct (fi_current _ _ HF) as (c & th & Hc & Hth). apply (fi_range _ _ HF c i Hc).
    pose proof (refs_pos t 0 i He). pose proof (total_with_ge _ _ _ t i Hth). lia.
Qed.

(** A descriptor of the table refers to a used file. *)
Lemma descriptor_file w t k i : Files w t -> t !! k = Some (Some i) ->
  0 <= i < 128 /\ exists f, w_files w !! Z.to_nat i = Some f /\ is_used f = true /\ file_ok f /\ 1 <= ref_count f <= 512 /\ refs t i <= ref_count f.
Proof.
  intros HF Hk. pose proof (fi_current _ _ HF) as (c & th & Hc & Hth).
  pose proof (total_with_ge _ _ _ t i Hth) as Hoth.
  pose proof (refs_pos t k i Hk). assert (Hi : 0 <= i < 128) by (apply (fi_range _ _ HF c i Hc); lia). split; [done|].
  destruct (lookup_lt_is_Some_2 (w_files w) (Z.to_nat i)) as [f Hf]; [rewrite (fi_files _ _ HF); unfold MAX_SYSTEM_FILES; lia|].
  destruct (fi_refs _ _ HF c _ f Hc Hf) as [Ht H1]. rewrite Z2Nat.id in Ht by lia.
  destruct (is_used f) eqn:Hu; [|lia]. exists f. split_and!; try done; [by eapply Forall_lookup_1 in Hf; [|apply (fi_ok _ _ HF)]|by apply H1| |lia].
  assert (Hb : Forall (fun th => length (fd_table th) = MAX_PROCESS_FDS) (with_table c t (ths w))).
  { unfold with_table. apply Forall_alter; [apply (fi_tables _ _ HF)|]. intros x _ _. simpl. apply (fi_table _ _ HF). }
  destruct (total_refs_bound _ i Hb) as [_ Hmax]. unfold len, with_table in Hmax. rewrite length_alter, (fi_threads _ _ HF) in Hmax.
  unfold MAX_THREADS in Hmax. unfold with_table in Ht. lia.
Qed.

(** ** The shared steps of the handlers *)
Lemma alter_entry {A} (g : A -> A) (l : list A) i j x x' : l !! j = Some x -> alter g i l !! j = Some x' ->
  (j = i /\ x' = g x) \/ (j <> i /\ x' = x).
Proof.
  intros Hx Hx'. destruct (decide (j = i)) as [->|Hne].
  - rewrite list_lookup_alter_eq, Hx in Hx'. injection Hx' as <-. auto.
  - rewrite list_lookup_alter_ne in Hx' by done. rewrite Hx in Hx'. injection Hx' as <-. auto.
Qed.

Lemma one_self i : one (Some i) i = 1.
Proof. unfold one. by rewrite decide_True. Qed.
Lemma one_none i : one None i = 0.
Proof. unfold one. by rewrite decide_False. Qed.
Lemma one_other i j : i <> j -> one (Some i) j = 0.
Proof. intros. unfold one. rewrite decide_False; [done|]. by intros [= ->]. Qed.

Lemma file_ok_alter g fs i : Forall file_ok fs -> (forall f, file_ok f -> file_ok (g f)) -> Forall file_ok (alter g i fs).
Proof. intros Hf Hg. apply Forall_alter; [done|]. auto. Qed.

Lemma release_run {E} w t k i : Files w t -> t !! k = Some (Some i) ->
  exists fs', (forall w2, w_files w2 = w_files w -> release_file (E:=E) i w2 = (Ok tt, set_files fs' w2)) /\
    Files (set_files fs' w) (<[k := None]> t).
Proof.
  intros HF Hk. destruct (descriptor_file w t k i HF Hk) as (Hi & f & Hf & Hu & Hfk & Hr & _).
  assert (Hgo : forall g, (forall x, file_ok x -> file_ok (g x)) -> live_refs (g f) = live_refs f - 1 -> (is_used (g f) = true -> 1 <= ref_count (g f)) ->
    Files (set_files (alter g (Z.to_nat i) (w_files w)) w) (<[k := None]> t)).
  { intros g Hgk Hl H1. eapply descriptor_change; [done|exact Hk|by rewrite length_alter; apply HF|apply file_ok_alter; [apply HF|done]| |done].
    intros j x x' Hx Hx'. rewrite one_none. destruct (alter_entry _ _ _ _ _ _ Hx Hx') as [[-> ->]|[Hne ->]].
    - rewrite Hf in Hx. injection Hx as <-. rewrite Z2Nat.id, one_self by lia. split; [lia|done].
    - rewrite one_other by lia. destruct (fi_current _ _ HF) as (c & th & Hc & _). destruct (fi_refs _ _ HF c j x Hc Hx) as [_ ?].
      split; [lia|done]. }
  exists (alter (if 1 <? ref_count f then set_field ref_count (ref_count f - 1) else set_field is_used false) (Z.to_nat i) (w_files w)). split.
  - intros w2 Hw2. assert (Hg : forall F, get_file (E:=F) i w2 = (Ok f, w2)).
    { intros F. pose proof (fi_files _ _ HF) as Hl. unfold MAX_SYSTEM_FILES in Hl. unfold get_file, bind, gets, lift. rewrite Hw2.
      destruct (idx_total (E:=F) (w_files w) i) as (f0 & -> & Hf0); [unfold len; lia|]. rewrite Hf in Hf0. by injection Hf0 as <-. }
    unfold release_file. rewrite (bind_run _ _ _ _ _ (Hg _)), Hu. rewrite <- Hw2. destruct (1 <? ref_count f) eqn:Hlt.
    + unfold bind at 1, lift. rewrite sub_ok by lia. unfold set_file. rewrite (bind_run _ _ _ _ _ (Hg _)). reflexivity.
    + unfold set_file. rewrite (bind_run _ _ _ _ _ (Hg _)). reflexivity.
  - destruct (Z.ltb_spec 1 (ref_count f)); apply Hgo; try (by intros x []; constructor); unfold live_refs; simpl; rewrite ?Hu; try lia; done.
Qed.

(** [k] is a free descriptor and [j] another that refers to the file. *)
Lemma retain_run {E} w t k j i : Files w t -> t !! k = Some None -> t !! j = Some (Some i) ->
  exists fs', retain_file (E:=E) i w = (Ok tt, set_files fs' w) /\ Files (set_files fs' w) (<[k := Some i]> t).
Proof.
  intros HF Hk Hj. destruct (descriptor_file w t j i HF Hj) as (Hi & f & Hf & Hu & Hfk & Hr & _).
  destruct (get_file_run (E:=E) w t HF i Hi) as (f' & Hf' & Hg). rewrite Hf in Hf'. injection Hf' as <-.
  unfold retain_file, bind at 1. rewrite Hg, Hu. unfold bind, lift. rewrite add_ok by lia. rewrite (set_file_run w t HF) by done.
  eexists. split; [reflexivity|]. eapply descriptor_change; [done|exact Hk|by rewrite length_alter; apply HF| | |].
  - apply file_ok_alter; [apply HF|by intros x []; constructor].
  - intros a x x' Hx Hx'. rewrite one_none. destruct (alter_entry _ _ _ _ _ _ Hx Hx') as [[-> ->]|[Hne ->]].
    + rewrite Hf in Hx. injection Hx as <-. rewrite Z2Nat.id, one_self by lia. unfold live_refs. simpl. rewrite Hu. lia.
    + rewrite one_other by lia. destruct (fi_current _ _ HF) as (c & th & Hc & _). destruct (fi_refs _ _ HF c a x Hc Hx) as [_ ?].
      split; [lia|done].
  - by intros ? [= <-].
Qed.

(** A new file in an unused entry. *)
Lemma occupy_run {E} w t k i f f' : Files w t -> t !! k = Some None -> w_files w !! i = Some f -> is_used f = false ->
  is_used f' = true -> ref_count f' = 1 -> file_ok f' ->
  set_file (E:=E) (Z.of_nat i) (fun _ => f') w = (Ok tt, set_files (alter (fun _ => f') i (w_files w)) w) /\
  Files (set_files (alter (fun _ => f') i (w_files w)) w) (<[k := Some (Z.of_nat i)]> t).
Proof.
  intros HF Hk Hf Hu Hu' Hr' Hok. assert (Hi : 0 <= Z.of_nat i < 128).
  { apply lookup_lt_Some in Hf. rewrite (fi_files _ _ HF) in Hf. unfold MAX_SYSTEM_FILES in Hf. lia. }
  rewrite (set_file_run w t HF) by done. rewrite Nat2Z.id. split; [done|].
  eapply descriptor_change; [done|exact Hk|by rewrite length_alter; apply HF| | |by intros ? [= <-]].
  - apply file_ok_alter; [apply HF|done].
  - intros a x x' Hx Hx'. rewrite one_none. destruct (alter_entry _ _ _ _ _ _ Hx Hx') as [[-> ->]|[Hne ->]].
    + rewrite Hf in Hx. injection Hx as <-. rewrite one_self. unfold live_refs. rewrite Hu, Hu', Hr'. split; [lia|done].
    + rewrite one_other by lia. destruct (fi_current _ _ HF) as (c & th & Hc & _). destruct (fi_refs _ _ HF c a x Hc Hx) as [_ ?].
      split; [lia|done].
Qed.

(** The current table as stored. *)
Lemma set_table_ok w t : Files w t -> files_ok (set_table t w) /\ table_of (set_table t w) = t /\ w_files (set_table t w) = w_files w /\
  w_user (set_table t w) = w_user w.
Proof.
  intros HF. pose proof (fi_current _ _ HF) as (c & th & Hc & Hth). unfold set_table. rewrite Hc.
  set (w' := upd w_kernel _ w). assert (Hs : current_slot (scheduler w') = Some c) by exact Hc.
  assert (Hl : ths w' = with_table c t (ths w)) by reflexivity.
  assert (Ht : table_of w' = t). { unfold table_of. rewrite Hs, Hl. unfold with_table. rewrite list_lookup_alter_eq, Hth. done. }
  split_and!; try done. unfold files_ok. rewrite Ht.
  assert (Hsame : with_table c t (ths w') = with_table c t (ths w)).
  { rewrite Hl. unfold with_table. apply list_eq. intros j. destruct (decide (j = c)) as [->|Hne].
    - rewrite !list_lookup_alter_eq, Hth. done.
    - by rewrite !list_lookup_alter_ne. }
  constructor; try (apply HF); try done.
  - exists c, (set_field fd_table t th). split; [done|]. rewrite Hl. unfold with_table. by rewrite list_lookup_alter_eq, Hth.
  - rewrite Hl. unfold with_table. rewrite length_alter. apply HF.
  - rewrite Hl. apply Forall_alter; [apply HF|]. intros x _ _. apply (fi_table _ _ HF).
  - intros c' i f Hc' Hf. rewrite Hs in Hc'. injection Hc' as <-. rewrite Hsame. by apply (fi_refs _ _ HF).
  - intros c' i Hc'. rewrite Hs in Hc'. injection Hc' as <-. rewrite Hsame. by apply (fi_range _ _ HF).
Qed.

(** What matters of the world to the invariant. *)
Lemma files_same w w' t : Files w t -> scheduler w' = scheduler w -> w_files w' = w_files w -> Files w' t.
Proof.
  intros HF Hs Hf. destruct HF. constructor; unfold ths in *; rewrite ?Hs, ?Hf; try done.
Qed.

(** ** Searches *)
Lemma free_fd_spec first t fd : free_fd_from first t = Some fd -> exists k, fd = Z.of_nat k /\ (first <= k < length t)%nat /\ t !! k = Some None.
Proof.
  unfold free_fd_from. intros (k & Hp & ->)%fmap_Some_1. apply position_Some in Hp as [(e & He & Hn) _]. apply bool_decide_eq_true in Hn as ->.
  rewrite lookup_drop in He. exists (first + k)%nat. split; [done|]. split; [|done]. apply lookup_lt_Some in He. lia.
Qed.

Lemma free_file_spec from fs i : free_file from fs = Some i -> exists k f, i = Z.of_nat k /\ (from <= k)%nat /\ fs !! k = Some f /\ is_used f = false.
Proof.
  unfold free_file. intros (k & Hp & ->)%fmap_Some_1. apply position_Some in Hp as [(f & Hf & Hn) _]. apply negb_true_iff in Hn.
  rewrite lookup_drop in Hf. exists (from + k)%nat, f. split_and!; try done. lia.
Qed.

Lemma valid_fd_spec fd : valid_fd fd = true <-> 0 <= fd < 64.
Proof. unfold valid_fd, MAX_PROCESS_FDS. rewrite andb_true_iff, Z.leb_le, Z.ltb_lt. lia. Qed.

Lemma fd_entry_run {E} w t fd : Files w t -> 0 <= fd < 64 -> exists e, t !! Z.to_nat fd = Some e /\ fd_entry (E:=E) t fd w = (Ok e, w).
Proof.
  intros HF Hfd. destruct (idx_total (E:=E) t fd) as (e & He & Hl); [unfold len; rewrite (fi_table _ _ HF); unfold MAX_PROCESS_FDS; lia|].
  exists e. split; [done|]. unfold fd_entry, lift. by rewrite He.
Qed.

Lemma fill_file_run path data f : file_ok f ->
  exists f', fill_file path data f = Ok f' /\ is_used f' = true /\ ref_count f' = 1 /\ file_ok f' /\ offset f' = 0 /\
    content_len f' = Z.min (len data) CONTENT_BYTES /\ take (Z.to_nat (content_len f')) (content f') = take (Z.to_nat CONTENT_BYTES) data.
Proof.
  intros [Hp Hc Hl Ho]. unfold fill_file. assert (HC : 0 <= CONTENT_BYTES) by done.
  remember CONTENT_BYTES as C eqn:HCd. clear Hl.
  assert (H1 : len (take PATH_BYTES path) <= len (of_path f)) by (unfold len; rewrite length_take, Hp; lia).
  assert (H2 : len (take (Z.to_nat C) data) = Z.min (len data) C) by (unfold len; rewrite length_take; lia).
  destruct (blit (E:=Z) (of_path f) 0 (take PATH_BYTES path)) as [pb| | |] eqn:Hpb.
  2-4: rewrite blit_ok in Hpb by lia; done.
  destruct (blit (E:=Z) (content f) 0 (take (Z.to_nat C) data)) as [cb| | |] eqn:Hb.
  2-4: rewrite blit_ok in Hb by lia; done.
  cbn [obind]. pose proof (blit_prefix _ _ _ _ Hb) as Hpre. apply blit_length in Hb. apply blit_length in Hpb.
  pose proof (len_nonneg data). eexists. split; [reflexivity|]. cbn [is_used ref_count offset content_len content].
  rewrite Z.add_0_l, Z2Nat.inj_0, take_0, app_nil_l in Hpre. split_and!; [reflexivity|reflexivity| |reflexivity|exact H2|exact Hpre].
  constructor; cbn [of_path content content_len offset]; rewrite <- ?HCd; [congruence|unfold len in *; lia|lia|done].
Qed.

Lemma alloc_file_run w path data : files_ok w ->
  match alloc_open_file path data w with
  | (Ok fd, w') => files_ok w' /\ exists k i f', free_fd (table_of w) = Some fd /\ fd = Z.of_nat k /\ (3 <= k < MAX_PROCESS_FDS)%nat /\ table_of w !! k = Some None /\
      table_of w' = <[k := Some (Z.of_nat i)]> (table_of w) /\ w_files w' !! i = Some f' /\ is_used f' = true /\ ref_count f' = 1 /\
      offset f' = 0 /\ content_len f' = Z.min (len data) CONTENT_BYTES /\
      take (Z.to_nat (content_len f')) (content f') = take (Z.to_nat CONTENT_BYTES) data /\ w_user w' = w_user w
  | (Err e, w') => e = EMFILE /\ w' = w /\ (free_fd (table_of w) = None \/ free_file 0 (w_files w) = None)
  | _ => False
  end.
Proof.
  intros HF. pose proof HF as HF'. unfold alloc_open_file. rewrite (bind_run _ _ _ _ _ (table_run w _ HF)).
  unfold bind at 1, lift at 1. destruct (free_fd (table_of w)) as [fd|] eqn:Hfd; [|simpl; auto]. cbn [ok_or].
  destruct (free_fd_spec 3 _ _ Hfd) as (k & -> & Hk & Hnone). rewrite (fi_table _ _ HF) in Hk.
  unfold bind at 1, gets, bind at 1, lift at 1. destruct (free_file 0 (w_files w)) as [i|] eqn:Hi; [|simpl; auto]. cbn [ok_or].
  destruct (free_file_spec 0 _ _ Hi) as (j & f & -> & _ & Hf & Hu).
  assert (Hj : 0 <= Z.of_nat j < 128) by (apply lookup_lt_Some in Hf; rewrite (fi_files _ _ HF) in Hf; unfold MAX_SYSTEM_FILES in Hf; lia).
  destruct (get_file_run (E:=Z) w _ HF _ Hj) as (f0 & Hf0 & Hg). rewrite Nat2Z.id, Hf in Hf0. injection Hf0 as <-.
  rewrite (bind_run _ _ _ _ _ Hg). destruct (fill_file_run path data f) as (f' & Hfill & Hu' & Hr' & Hok' & Ho' & Hcl & Hct).
  { by eapply Forall_lookup_1 in Hf; [|apply (fi_ok _ _ HF)]. }
  rewrite (bind_run (lift _) _ _ f' w) by (unfold lift; by rewrite Hfill).
  destruct (occupy_run (E:=Z) w _ k j f f' HF Hnone Hf Hu Hu' Hr' Hok') as [Hset HF2]. rewrite (bind_run _ _ _ _ _ Hset). rewrite Nat2Z.id.
  rewrite (bind_run _ _ _ _ _ (set_table_run _ _ HF2 _)). destruct (set_table_ok _ _ HF2) as (Hok & Ht & Hfs & Hus). split; [exact Hok|].
  exists k, j, f'. rewrite Ht, Hfs, Hus. split_and!; try done; try lia.
  unfold set_files. simpl. by rewrite list_lookup_alter_eq, Hf.
Qed.

(** ** Closing, duplicating, seeking *)
Lemma table_lookup w fd e : files_ok w -> table_of w !! Z.to_nat fd = Some e -> 0 <= fd -> fd_entry (E:=Z) (table_of w) fd w = (Ok e, w).
Proof.
  intros HF He Hfd. pose proof (lookup_lt_Some _ _ _ He) as Hl. rewrite (fi_table _ _ HF) in Hl. unfold MAX_PROCESS_FDS in Hl.
  destruct (fd_entry_run (E:=Z) w _ fd HF) as (e' & He' & Hr); [lia|]. rewrite He in He'. by injection He' as <-.
Qed.

Lemma set_files_table w fs t : set_files fs (set_table t w) = set_table t (set_files fs w).
Proof. unfold set_table, set_files. change (scheduler (set_field w_files fs w)) with (scheduler w). by destruct (current_slot (scheduler w)). Qed.

Lemma set_files_of_table w t : w_files (set_table t w) = w_files w.
Proof. unfold set_table. by destruct (current_slot (scheduler w)). Qed.

(** What a handler leaves: the invariant, and user memory as it was. *)
Definition kept (w w' : World) : Prop := files_ok w' /\ w_user w' = w_user w.

Lemma close_run w fd : files_ok w ->
  match close_open_file fd w with
  | (Ok v, w') => v = 0 /\ valid_fd fd = true /\ kept w w' /\ table_of w' = <[Z.to_nat fd := None]> (table_of w)
  | (Err e, w') => e = EBADF /\ w' = w /\ (valid_fd fd = true -> table_of w !! Z.to_nat fd = Some None)
  | _ => False
  end.
Proof.
  intros HF. unfold close_open_file. destruct (valid_fd fd) eqn:Hv; [|simpl; by split_and!]. apply valid_fd_spec in Hv. change (negb true) with false. cbv iota.
  rewrite (bind_run _ _ _ _ _ (table_run w _ HF)). destruct (fd_entry_run (E:=Z) w _ fd HF Hv) as (e & He & Hr).
  rewrite (bind_run _ _ _ _ _ Hr). destruct e as [i|]; [|simpl; by split_and!].
  change (lift (ok_or EBADF (Some i))) with (@ret World Z Z i). rewrite (bind_run (ret i) _ _ i w) by done.
  destruct (release_run (E:=Z) w _ _ i HF He) as (fs' & Hrel & HF2).
  rewrite (bind_run _ _ _ _ _ (set_table_run w _ HF _)).
  rewrite (bind_run _ _ _ _ _ (Hrel _ (set_files_of_table _ _))). rewrite set_files_table. destruct (set_table_ok _ _ HF2) as (Hok & Ht & _ & Hus).
  unfold ret. by split_and!.
Qed.

Ltac run H := rewrite (bind_run _ _ _ _ _ H).

Lemma finish_run {E} m w v w' : m w = (Ok v, w') -> finish (E:=E) m w = (Ok (success v), w').
Proof. intros Hm. unfold finish, catch. by rewrite Hm. Qed.
Lemma finish_err {E} m w e w' : m w = (Err e, w') -> finish (E:=E) m w = (Ok (errno e), w').
Proof. intros Hm. unfold finish, catch. by rewrite Hm. Qed.

(** A handler that returns a [Result] and keeps the invariant. *)
Definition safe {A} (w : World) (r : outcome Z A * World) : Prop :=
  match r with (Ok _, w') | (Err _, w') => files_ok w' | _ => False end.

Lemma finish_safe {E} m w : safe w (m w) -> exists out w', finish (E:=E) m w = (Ok out, w') /\ files_ok w'.
Proof.
  intros Hs. destruct (m w) as [[v|e| |] w'] eqn:Hm; try done.
  - exists (success v), w'. by rewrite (finish_run _ _ _ _ Hm).
  - exists (errno e), w'. by rewrite (finish_err _ _ _ _ Hm).
Qed.

Lemma fd_file_run w fd : files_ok w ->
  fd_file fd w = (Err EBADF, w) \/
  (exists i f, fd_file fd w = (Ok i, w) /\ valid_fd fd = true /\ table_of w !! Z.to_nat fd = Some (Some i) /\ 0 <= i < 128 /\
     w_files w !! Z.to_nat i = Some f /\ is_used f = true /\ file_ok f /\ get_file (E:=Z) i w = (Ok f, w)).
Proof.
  intros HF. unfold fd_file. destruct (valid_fd fd) eqn:Hv; [|by left]. apply valid_fd_spec in Hv as Hv'.
  change (negb true) with false. cbv iota. run (table_run (E:=Z) w _ HF).
  destruct (fd_entry_run (E:=Z) w _ fd HF Hv') as (e & He & Hr). run Hr. destruct e as [i|]; [right|by left].
  destruct (descriptor_file w _ _ i HF He) as (Hi & f & Hf & Hu & Hfk & _). destruct (get_file_run (E:=Z) w _ HF i Hi) as (f0 & Hf0 & Hg).
  rewrite Hf in Hf0. injection Hf0 as <-. exists i, f. split_and!; try done; lia.
Qed.

Lemma dup_run w fd newfd i : files_ok w -> table_of w !! fd = Some (Some i) -> table_of w !! newfd = Some None ->
  exists w1 w', retain_file (E:=Z) i w = (Ok tt, w1) /\ set_process_fd_table (E:=Z) (<[newfd := Some i]> (table_of w)) w1 = (Ok tt, w') /\
    kept w w' /\ table_of w' = <[newfd := Some i]> (table_of w).
Proof.
  intros HF Hi Hn. destruct (retain_run (E:=Z) w _ newfd fd i HF Hn Hi) as (fs' & Hr & HF2).
  destruct (set_table_ok _ _ HF2) as (Hok & Ht & _ & Hus). do 2 eexists. split; [exact Hr|]. split; [apply (set_table_run _ _ HF2)|]. by split_and!.
Qed.

Lemma sys_dup_safe {E} args w : files_ok w -> exists out w', sys_dup (E:=E) args w = (Ok out, w') /\ files_ok w'.
Proof.
  intros HF. unfold sys_dup. apply finish_safe. set (oldfd := as_i32 _). destruct (valid_fd oldfd) eqn:Hv; [|done]. apply valid_fd_spec in Hv.
  change (negb true) with false. cbv iota zeta. run (table_run (E:=Z) w _ HF). destruct (fd_entry_run (E:=Z) w _ oldfd HF Hv) as (e & He & Hr).
  run Hr. destruct e as [i|]; [|done]. change (lift (ok_or EBADF (Some i))) with (@ret World Z Z i). rewrite (bind_run (ret i) _ _ i w) by done.
  destruct (free_fd (table_of w)) as [nf|] eqn:Hnf; [|done]. change (lift (ok_or EMFILE (Some nf))) with (@ret World Z Z nf).
  rewrite (bind_run (ret nf) _ _ nf w) by done. destruct (free_fd_spec 3 _ _ Hnf) as (k & -> & Hk & Hnone). rewrite Nat2Z.id.
  destruct (dup_run w _ _ i HF He Hnone) as (w1 & w2 & H1 & H2 & [Hok _] & _). run H1. run H2. exact Hok.
Qed.

Lemma sys_dup2_safe {E} args w : files_ok w -> exists out w', sys_dup2 (E:=E) args w = (Ok out, w') /\ files_ok w'.
Proof.
  intros HF. unfold sys_dup2. apply finish_safe. set (oldfd := as_i32 (arg args 0)). set (newfd := as_i32 (arg args 1)). cbv zeta.
  destruct (valid_fd oldfd) eqn:Hv; [|done]. destruct (valid_fd newfd) eqn:Hn; [|done]. apply valid_fd_spec in Hv, Hn.
  change (negb true || negb true) with false. cbv iota. destruct (Z.eqb_spec oldfd newfd) as [|Hne]; [done|].
  run (table_run (E:=Z) w _ HF). destruct (fd_entry_run (E:=Z) w _ oldfd HF Hv) as (e & He & Hr).
  run Hr. destruct e as [i|]; [|done]. change (lift (ok_or EBADF (Some i))) with (@ret World Z Z i). rewrite (bind_run (ret i) _ _ i w) by done.
  destruct (fd_entry_run (E:=Z) w _ newfd HF Hn) as (e' & He' & Hr'). run Hr'.
  assert (Hrel : exists fs', (match e' with Some j => release_file j | None => ret tt end : M World Z unit) w = (Ok tt, set_files fs' w) /\
    Files (set_files fs' w) (<[Z.to_nat newfd := None]> (table_of w))).
  { destruct e' as [j|].
    - destruct (release_run (E:=Z) w _ _ j HF He') as (fs' & Hrel & HF2). exists fs'. by rewrite (Hrel w eq_refl).
    - exists (w_files w). rewrite list_insert_id by done. assert (set_files (w_files w) w = w) as -> by (by destruct w). done. }
  destruct Hrel as (fs' & Hrel & HF2). run Hrel.
  destruct (retain_run (E:=Z) _ _ (Z.to_nat newfd) (Z.to_nat oldfd) i HF2) as (fs2 & Hret & HF3).
  { apply list_lookup_insert_eq. rewrite (fi_table _ _ HF). unfold MAX_PROCESS_FDS. lia. }
  { rewrite list_lookup_insert_ne by lia. done. }
  rewrite list_insert_insert_eq in HF3. run Hret. run (set_table_run (E:=Z) _ _ HF3 (<[Z.to_nat newfd := Some i]> (table_of w))).
  apply (set_table_ok _ _ HF3).
Qed.

(** The range of [v as i64]. *)
Lemma as_i64_small v : 0 <= v < 2 ^ 63 -> as_i64 v = v.
Proof. intros Hv. unfold as_i64. bdestruct_if; lia. Qed.

(** A seek whose target fits in an [i64]; the sum panics otherwise. *)
Definition seek_fits (f : OpenFile) (args : list Z) : Prop :=
  let whence := as_i32 (arg args 2) in let delta := as_i64 (arg args 1) in
  (whence = 0 -> delta < 2 ^ 63) /\ (whence = 1 -> - 2 ^ 63 <= offset f + delta < 2 ^ 63) /\
  (whence = 2 -> - 2 ^ 63 <= content_len f + delta < 2 ^ 63).

Lemma add_i64_ok {E} a b : - 2 ^ 63 <= a + b < 2 ^ 63 -> add_i64 (E:=E) a b = Ok (a + b).
Proof. intros H. unfold add_i64. by rewrite (proj2 (Z.leb_le _ _)), (proj2 (Z.ltb_lt _ _)) by lia. Qed.

Lemma set_file_keeps w i g : files_ok w -> 0 <= i < 128 ->
  (forall f, w_files w !! Z.to_nat i = Some f -> file_ok f -> file_ok (g f) /\ is_used (g f) = is_used f /\ ref_count (g f) = ref_count f) ->
  exists w', set_file (E:=Z) i g w = (Ok tt, w') /\ w' = set_files (alter g (Z.to_nat i) (w_files w)) w /\ kept w w' /\ table_of w' = table_of w.
Proof.
  intros HF Hi Hg. rewrite (set_file_run w _ HF) by done. eexists. split; [reflexivity|]. split; [reflexivity|]. split; [split; [|done]|done].
  change (table_of w) with (table_of (set_files (alter g (Z.to_nat i) (w_files w)) w)). apply descriptor_keep; [exact HF|by rewrite length_alter; apply HF| |].
  - apply Forall_lookup_2. intros j f' Hf'. destruct (lookup_lt_is_Some_2 (w_files w) j) as [f Hf]; [apply lookup_lt_Some in Hf'; by rewrite length_alter in Hf'|].
    pose proof (Forall_lookup_1 _ _ _ _ (fi_ok _ _ HF) Hf). destruct (alter_entry _ _ _ _ _ _ Hf Hf') as [[-> ->]|[_ ->]]; [|done]. by apply Hg.
  - intros j f f' Hf Hf'. pose proof (Forall_lookup_1 _ _ _ _ (fi_ok _ _ HF) Hf).
    destruct (alter_entry _ _ _ _ _ _ Hf Hf') as [[-> ->]|[_ ->]]; [|done]. by apply Hg.
Qed.

Lemma sys_lseek_safe {E} args w : files_ok w ->
  (forall i f, table_of w !! Z.to_nat (as_i32 (arg args 0)) = Some (Some i) -> w_files w !! Z.to_nat i = Some f -> seek_fits f args) ->
  exists out w', sys_lseek (E:=E) args w = (Ok out, w') /\ files_ok w'.
Proof.
  intros HF Hfit. unfold sys_lseek. apply finish_safe. cbv zeta.
  destruct (fd_file_run w (as_i32 (arg args 0)) HF) as [Hr|(i & f & Hr & _ & He & Hi & Hf & Hu & Hfk & Hg)].
  { unfold bind at 1. by rewrite Hr. }
  run Hr. run Hg. rewrite Hu. change (negb true) with false. cbv iota. specialize (Hfit i f He Hf). unfold seek_fits in Hfit.
  set (delta := as_i64 _) in *. set (whence := as_i32 _) in *. destruct Hfit as (H0 & H1 & H2).
  assert (Hofs : as_i64 (offset f) = offset f /\ as_i64 (content_len f) = content_len f).
  { destruct Hfk as [_ _ Hl Ho]. unfold CONTENT_BYTES in *. split; apply as_i64_small; lia. }
  destruct Hofs as [-> ->]. set (target := if whence =? 0 then _ else _).
  assert (Ht : target w = (Err EINVAL, w) \/ exists v, target w = (Ok v, w) /\ v < 2 ^ 63).
  { unfold target, lift. destruct (Z.eqb_spec whence 0); [right; eauto|]. destruct (Z.eqb_spec whence 1); [|destruct (Z.eqb_spec whence 2); [|by left]];
      right; rewrite add_i64_ok by auto; eexists; (split; [reflexivity|]); [apply H1|apply H2]; done. }
  destruct Ht as [Ht|(v & Ht & Hv)]; [unfold bind at 1; by rewrite Ht|]. run Ht. destruct (Z.ltb_spec v 0); [done|].
  destruct (set_file_keeps w i (set_field offset v) HF Hi) as (w' & Hs & _ & [Hok _] & _); [|run Hs; exact Hok].
  intros f0 _ [? ? ? ?]. split; [|done]. constructor; try done.
Qed.

(** ** Exit: every descriptor from 3 is released *)
Lemma purge_run {E} fds w t : Files w t -> Forall (fun k => (k < MAX_PROCESS_FDS)%nat) fds ->
  exists w' t', purge_from (E:=E) fds t w = (Ok t', w') /\ Files w' t' /\ w_user w' = w_user w /\ (forall k, k ∈ fds -> t' !! k = Some None) /\
    (forall k, k ∉ fds -> t' !! k = t !! k).
Proof.
  revert w t. induction fds as [|k fds IH]; intros w t HF Hb; cbn [purge_from].
  { exists w, t. split_and!; try done. by intros k ?%elem_of_nil. }
  apply Forall_cons_1 in Hb as [Hk Hb]. unfold MAX_PROCESS_FDS in Hk.
  destruct (fd_entry_run (E:=E) w t (Z.of_nat k) HF) as (e & He & Hr); [lia|]. rewrite Nat2Z.id in He. run Hr.
  assert (Hgo : exists w1, Files w1 (<[k := None]> t) /\ w_user w1 = w_user w /\
    forall (m : list (option Z) -> M World E (list (option Z))),
      (match e with Some i => do! release_file i in m (<[k := None]> t) | None => m t end) w = m (<[k := None]> t) w1).
  { destruct e as [i|].
    - destruct (release_run (E:=E) w t k i HF He) as (fs' & Hrel & HF2). exists (set_files fs' w). split_and!; try done. intros m. by run (Hrel w eq_refl).
    - exists w. rewrite list_insert_id by done. by split_and!. }
  destruct Hgo as (w1 & HF1 & Hu1 & Hm). rewrite Hm. destruct (IH w1 _ HF1 Hb) as (w' & t' & Hp & HF' & Hu' & Hin & Hout).
  exists w', t'. split_and!; [done|done|congruence| |].
  - intros j [->|Hj]%elem_of_cons; [|by apply Hin]. destruct (decide (k ∈ fds)) as [Hj|Hj]; [by apply Hin|].
    rewrite Hout by done. apply list_lookup_insert_eq. rewrite (fi_table _ _ HF). unfold MAX_PROCESS_FDS. lia.
  - intros j [Hne Hj]%not_elem_of_cons. rewrite Hout by done. by apply list_lookup_insert_ne.
Qed.

Lemma exit_files_run {E} args w : files_ok w ->
  exists w', sys_exit_group (E:=E) args w = (Ok (mkOut 0 (ExitGroup (as_i32 (arg args 0)))), w') /\ kept w w' /\
    (forall k, (3 <= k < MAX_PROCESS_FDS)%nat -> table_of w' !! k = Some None) /\ forall k, (k < 3)%nat -> table_of w' !! k = table_of w !! k.
Proof.
  intros HF. unfold sys_exit_group, purge_open_files_for_process.
  destruct (purge_run (E:=E) (seq 3 (MAX_PROCESS_FDS - 3)) w _ HF) as (w1 & t1 & Hp & HF1 & Hu1 & Hin & Hout).
  { apply Forall_forall. intros k Hk%elem_of_seq. unfold MAX_PROCESS_FDS in *. lia. }
  destruct (set_table_ok _ _ HF1) as (Hok & Ht & _ & Hus).
  exists (set_table t1 w1). split_and!.
  - rewrite (bind_run _ _ _ tt (set_table t1 w1)); [done|]. run (table_run (E:=E) w _ HF). run Hp. apply (set_table_run _ _ HF1).
  - split; [exact Hok|congruence].
  - intros k Hk. rewrite Ht. apply Hin. apply elem_of_seq. unfold MAX_PROCESS_FDS in *. lia.
  - intros k Hk. rewrite Ht. apply Hout. rewrite elem_of_seq. lia.
Qed.

(** ** Copies to user memory *)
Lemma copyout_run w ptr bs : 0 <= ptr < U64 -> (user_range ptr (len bs) -> mapped (w_user w) ptr (len bs)) ->
  (exists e, copyout_bytes ptr bs w = (Err e, w)) \/
  (copyout_bytes ptr bs w = (Ok tt, set_field w_user (store_bytes (w_user w) ptr bs) w)).
Proof.
  intros Hp Hm. pose proof (validate_spec ptr (len bs) Hp (len_nonneg bs)) as Hv.
  assert (Hw : set_field w_user (w_user w) w = w) by (by destruct w).
  unfold copyout_bytes, on_user, catch, zoom, copyout, bind, lift. destruct (validate_user_range ptr (len bs)) as [[]|e| |] eqn:Hok; try done.
  - right. destruct (Z.eqb_spec (len bs) 0) as [Hz|Hnz].
    + assert (bs = []) as -> by (destruct bs; [done|unfold len in Hz; simpl in Hz; lia]). done.
    + destruct Hv as [_ [|Hr]]; [done|]. destruct (load_bytes_Some (w_user w) ptr (length bs) (Hm Hr)) as (old & Hl & _).
      unfold gets, put. by rewrite Hl.
  - left. exists (as_errno e). by rewrite Hw.
Qed.

(** A copy to a range of mapped user memory succeeds. *)
Lemma copyout_in_range w ptr bs : 0 <= ptr < U64 -> len bs <= MAX_COPY_BYTES -> bs = [] \/ user_range ptr (len bs) /\ mapped (w_user w) ptr (len bs) ->
  copyout_bytes ptr bs w = (Ok tt, set_field w_user (store_bytes (w_user w) ptr bs) w).
Proof.
  intros Hp Hmax Hr. destruct (copyout_run w ptr bs Hp) as [[e He]|]; [| |done].
  { intros Hu. destruct Hr as [->|[_ ?]]; [|done]. unfold user_range in Hu. intros i Hi. unfold len in Hi; simpl in Hi; lia. }
  exfalso. pose proof (validate_spec ptr (len bs) Hp (len_nonneg bs)) as Hv.
  unfold copyout_bytes, on_user, catch, zoom, copyout, bind, lift in He. destruct (validate_user_range ptr (len bs)) as [[]|e'| |] eqn:Hok; try done.
  - destruct (len bs =? 0) eqn:Hz; [done|]. unfold gets in He. by destruct (load_bytes _ _ _).
  - destruct Hr as [->|[Hr _]].
    + rewrite len_nil in Hok. done.
    + unfold user_range in Hr. destruct e'; [lia|lia| |lia]. destruct Hv as [_ (a & Ha & Hc)]. lia.
Qed.

(** ** Reading *)
Definition set_user (m : gmap Z Z) (w : World) : World := set_field w_user m w.
Lemma set_user_ok m w : files_ok w -> files_ok (set_user m w).
Proof. intros HF. change (table_of w) with (table_of (set_user m w)) in HF. by apply (files_same w). Qed.

Definition available (f : OpenFile) (count : Z) : Z := Z.min count (sat_sub (content_len f) (offset f)).
Definition next_bytes (f : OpenFile) (count : Z) : list Z := take (Z.to_nat (available f count)) (drop (Z.to_nat (offset f)) (content f)).
Definition advance_file (n : Z) : OpenFile -> OpenFile := upd offset (fun o => sat_add U64 o n).

Lemma read_slice f count : file_ok f -> 0 <= count -> 0 < available f count ->
  add (E:=Z) U64 (offset f) (available f count) = Ok (offset f + available f count) /\
  slice (E:=Z) (content f) (offset f) (offset f + available f count) = Ok (next_bytes f count) /\ len (next_bytes f count) = available f count.
Proof.
  intros [Hp Hc Hl Ho] Hcount Hpos. unfold available, sat_sub in *. assert (Hb : CONTENT_BYTES < 2 ^ 32) by done.
  rewrite add_ok by lia. split; [done|]. rewrite slice_ok by lia. split; [unfold next_bytes, available, sat_sub; do 2 f_equal; lia|].
  unfold next_bytes, available, sat_sub, len in *. rewrite length_take, length_drop.
  lia.
Qed.

(** What a read does on a descriptor of the table: the copy may be refused. *)
Lemma read_run w fd dst count i f :
  files_ok w -> 0 <= dst < U64 -> 0 <= count <= MAX_READ_BYTES -> valid_fd fd = true -> table_of w !! Z.to_nat fd = Some (Some i) ->
  w_files w !! Z.to_nat i = Some f ->
  (user_range dst (available f count) -> mapped (w_user w) dst (available f count)) ->
  let w' := set_files (alter (advance_file (available f count)) (Z.to_nat i) (w_files w)) (set_user (store_bytes (w_user w) dst (next_bytes f count)) w) in
  files_ok w' /\ table_of w' = table_of w /\
  ((exists e, 0 < available f count /\ ~ user_range dst (available f count) /\ read_open_file fd dst count w = (Err e, w)) \/
   (available f count = 0 /\ read_open_file fd dst count w = (Ok 0, w)) \/
   (0 < available f count /\ read_open_file fd dst count w = (Ok (available f count), w'))).
Proof.
  intros HF Hd Hc Hv He Hf Hm w'. destruct (descriptor_file w _ _ i HF He) as (Hi & f0 & Hf0 & Hu & Hfk & _). rewrite Hf in Hf0. injection Hf0 as <-.
  set (n := available f count) in *. assert (Hn : 0 <= n <= count) by (unfold n, available, sat_sub; lia).
  set (w1 := set_user (store_bytes (w_user w) dst (next_bytes f count)) w) in *. assert (HF1 : files_ok w1) by (by apply set_user_ok).
  destruct (set_file_keeps w1 i (advance_file n) HF1 Hi) as (w2 & Hs & Hw2 & [Hok _] & Ht).
  { intros f1 Hf1 [? ? ? ?]. change (w_files w1) with (w_files w) in Hf1. rewrite Hf in Hf1. injection Hf1 as <-. split; [|done].
    constructor; try done. simpl. unfold n, available, sat_sub, sat_add. assert (CONTENT_BYTES < 2 ^ 32) by done. lia. }
  change (w2 = w') in Hw2. subst w2. split; [exact Hok|]. split; [exact Ht|].
  assert (Hfile : fd_file fd w = (Ok i, w)).
  { unfold fd_file. rewrite Hv. change (negb true) with false. cbv iota. run (table_run (E:=Z) w _ HF). apply valid_fd_spec in Hv. by run (table_lookup w fd _ HF He ltac:(lia)). }
  unfold read_open_file. run Hfile. destruct (get_file_run (E:=Z) w _ HF i Hi) as (f1 & Hf1 & Hg). rewrite Hf in Hf1. injection Hf1 as <-. run Hg.
  rewrite Hu. change (negb true) with false. cbv iota zeta. fold (available f count). fold n.
  destruct (Z.eqb_spec count 0) as [Hz|Hnz]; [right; left; split; [lia|done]|]. change (Z.min count (sat_sub (content_len f) (offset f))) with n.
  destruct (Z.ltb_spec 0 n) as [Hpos|Hle]; [|right; left; split; [lia|]; replace n with 0 by lia; done].
  destruct (read_slice f count Hfk ltac:(lia) Hpos) as (Ha & Hsl & Hlen). fold n in Ha, Hsl, Hlen.
  destruct (copyout_run w dst (next_bytes f count) Hd) as [[e Hcopy]|Hcopy]; [by rewrite Hlen| |].
  - left. exists e. split; [done|]. split.
    + intros Hr. rewrite copyout_in_range in Hcopy; [done|done| |right; rewrite Hlen; auto].
      rewrite Hlen. unfold MAX_READ_BYTES, MAX_COPY_BYTES in *. lia.
    + unfold bind at 1 2, lift at 1. rewrite Ha. unfold bind at 1, lift at 1. rewrite Hsl. unfold bind at 1. by rewrite Hcopy.
  - right. right. split; [done|]. change (set_field w_user (store_bytes (w_user w) dst (next_bytes f count)) w) with w1 in Hcopy.
    rewrite (bind_run _ _ _ tt w').
    + unfold try_i64. rewrite (proj2 (Z.ltb_lt _ _)); [done|]. unfold MAX_READ_BYTES in Hc. lia.
    + unfold bind at 1, lift at 1. rewrite Ha. unfold bind at 1, lift at 1. rewrite Hsl. run Hcopy. exact Hs.
Qed.

(** ** Pipes *)
Lemma free_fd_from_lt first t fd : free_fd_from first t = Some fd -> Z.of_nat first <= fd.
Proof. intros (k & -> & Hk & _)%free_fd_spec. lia. Qed.

Lemma pipe_end_run w t k i f name : Files w t -> t !! k = Some None -> w_files w !! i = Some f -> is_used f = false -> len name <= 128 ->
  exists f', open_pipe_end (Z.of_nat i) name w = (Ok tt, set_files (alter (fun _ => f') i (w_files w)) w) /\
    Files (set_files (alter (fun _ => f') i (w_files w)) w) (<[k := Some (Z.of_nat i)]> t).
Proof.
  intros HF Hk Hf Hu Hn. assert (Hi : 0 <= Z.of_nat i < 128).
  { apply lookup_lt_Some in Hf. rewrite (fi_files _ _ HF) in Hf. unfold MAX_SYSTEM_FILES in Hf. lia. }
  pose proof (Forall_lookup_1 _ _ _ _ (fi_ok _ _ HF) Hf) as [Hp Hc Hl Ho]. unfold PATH_BYTES in Hp.
  destruct (blit (E:=Z) (of_path f) 0 name) as [pb| | |] eqn:Hb; [|rewrite blit_ok in Hb; [done|lia|unfold len in *; lia]..].
  set (f' := mkOpen true 1 pb (len name) 0 (content f) 0). exists f'.
  destruct (occupy_run (E:=Z) w t k i f f' HF Hk Hf Hu) as [Hs HF2]; [done|done| |].
  { constructor; [|done| |done]; unfold f'; cbn [of_path content_len].
    - apply blit_length in Hb. unfold PATH_BYTES. congruence.
    - done. }
  split; [|exact HF2]. destruct (get_file_run (E:=Z) w t HF _ Hi) as (f0 & Hf0 & Hg). rewrite Nat2Z.id, Hf in Hf0. injection Hf0 as <-.
  unfold open_pipe_end. run Hg. rewrite (bind_run (lift _) _ _ f' w); [exact Hs|]. unfold lift, pipe_end. by rewrite Hb.
Qed.

Lemma sys_pipe_safe {E} args w : files_ok w -> 0 <= arg args 0 < U64 -> (user_range (arg args 0) 8 -> mapped (w_user w) (arg args 0) 8) ->
  exists out w', sys_pipe (E:=E) args w = (Ok out, w') /\ files_ok w'.
Proof.
  intros HF Hptr Hm. unfold sys_pipe. apply finish_safe. unfold bind at 1, gets.
  destruct (free_file 0 (w_files w)) as [r|] eqn:Hr; [|done]. destruct (free_file_spec _ _ _ Hr) as (i & f & -> & _ & Hf & Hu). rewrite Nat2Z.id.
  destruct (free_file (S i) (w_files w)) as [wi|] eqn:Hw; [|done]. destruct (free_file_spec _ _ _ Hw) as (j & g & -> & Hij & Hg & Hu2).
  run (table_run (E:=Z) w _ HF). destruct (free_fd (table_of w)) as [rf|] eqn:Hrf; [|done].
  destruct (free_fd_spec 3 _ _ Hrf) as (k & -> & Hk & Hnone). rewrite Nat2Z.id.
  destruct (free_fd_from (S k) (table_of w)) as [wf|] eqn:Hwf; [|done]. destruct (free_fd_spec _ _ _ Hwf) as (l & -> & Hl & Hnone2). rewrite Nat2Z.id.
  destruct (pipe_end_run w _ k i f (lit "pipe:read") HF Hnone Hf Hu) as (f1 & H1 & HF1); [done|]. run H1.
  destruct (pipe_end_run _ _ l j g (lit "pipe:write") HF1) as (f2 & H2 & HF2); [by rewrite list_lookup_insert_ne by lia| |done|done|].
  { unfold set_files. simpl. rewrite list_lookup_alter_ne by lia. done. }
  run H2. run (set_table_run (E:=Z) _ _ HF2 (<[l := Some (Z.of_nat j)]> (<[k := Some (Z.of_nat i)]> (table_of w)))).
  destruct (set_table_ok _ _ HF2) as (Hok & _ & _ & Hus). set (w3 := set_table _ _) in *.
  assert (Hlen : len (le_bytes 4 (Z.of_nat k) ++ le_bytes 4 (Z.of_nat l)) = 8) by done.
  destruct (copyout_run w3 (arg args 0) (le_bytes 4 (Z.of_nat k) ++ le_bytes 4 (Z.of_nat l)) Hptr) as [[e Hc]|Hc].
  - rewrite Hlen, Hus. exact Hm.
  - unfold bind at 1, copyout_struct. rewrite Hc. exact Hok.
  - unfold copyout_struct. run Hc. by apply set_user_ok.
Qed.

(** ** Opening *)
Definition user_string (m : gmap Z Z) (ptr : Z) (s : list Z) : Prop :=
  user_range ptr (len s + 1) /\ Forall (fun b => b <> 0) s /\ forall i b, (s ++ [0]) !! i = Some b -> m !! (ptr + Z.of_nat i) = Some b.

Lemma copyin_byte w a b : 0 <= a < U64 -> user_range a 1 -> w_user w !! a = Some b -> copyin_bytes a 1 w = (Ok [b], w).
Proof.
  intros Ha Hr Hb. pose proof (validate_spec a 1 Ha ltac:(lia)) as Hv. unfold copyin_bytes, on_user, catch, zoom, copyin, bind, lift.
  assert (Hw : set_field w_user (w_user w) w = w) by (by destruct w).
  destruct (validate_user_range a 1) as [[]|e| |] eqn:Hok; try done.
  - unfold gets. change (1 =? 0) with false. change (Z.to_nat 1) with 1%nat. cbv iota beta. assert (load_bytes (w_user w) a 1 = Some [b]) as -> by (simpl; by rewrite Hb).
    cbn [unwrap]. by rewrite Hw.
  - exfalso. unfold user_range, MAX_COPY_BYTES in *. destruct e; try lia. destruct Hv as [_ (x & Hx & Hc)]. lia.
Qed.

Lemma copyin_from_run w ptr s : forall room index buf, user_string (w_user w) ptr (buf ++ s) -> index = len buf -> (length s < room)%nat ->
  copyin_from ptr index room buf w = (Ok (buf ++ s), w).
Proof.
  induction s as [|b s IH]; intros [|room] index buf Hs -> Hr; try (simpl in Hr; lia); cbn [copyin_from].
  - destruct Hs as (Hu & _ & Hm). rewrite app_nil_r in *. pose proof (len_nonneg buf). unfold user_range in Hu.
    specialize (Hm (length buf) 0). rewrite lookup_app_r, Nat.sub_diag in Hm by lia. specialize (Hm eq_refl). fold (len buf) in Hm.
    unfold chk_add. rewrite (proj2 (Z.ltb_lt _ _)) by lia. unfold bind at 1, lift at 1. cbn [ok_or].
    rewrite (bind_run _ _ _ [0] w); [done|]. apply copyin_byte; [lia| |done]. unfold user_range. lia.
  - pose proof Hs as (Hu & Hnz & Hm). rewrite len_app, len_cons in Hu. pose proof (len_nonneg buf). pose proof (len_nonneg s). unfold user_range in Hu.
    specialize (Hm (length buf) b). rewrite <- app_assoc, lookup_app_r, Nat.sub_diag in Hm by lia. specialize (Hm eq_refl). fold (len buf) in Hm.
    unfold chk_add. rewrite (proj2 (Z.ltb_lt _ _)) by lia. unfold bind at 1, lift at 1. cbn [ok_or].
    rewrite (bind_run _ _ _ [b] w) by (apply copyin_byte; [lia| |done]; unfold user_range; lia).
    apply Forall_app in Hnz as [_ Hnz%Forall_cons_1]. rewrite (proj2 (Z.eqb_neq _ _)) by tauto.
    replace (buf ++ b :: s) with ((buf ++ [b]) ++ s) in * by (by rewrite <- app_assoc). apply IH; [done| |simpl in Hr; lia].
    rewrite len_app. done.
Qed.

Lemma copyin_c_string_run w ptr s n : user_string (w_user w) ptr s -> len s < n -> copyin_c_string ptr n w = (Ok s, w).
Proof. intros Hs Hn. unfold copyin_c_string. rewrite (copyin_from_run w ptr s); [done|done|done|unfold len in Hn; lia]. Qed.

Lemma resolve_total dirfd raw : len raw < MAX_PATH_BYTES -> (exists e, resolve_open_path dirfd raw = Err e) \/ exists p, resolve_open_path dirfd raw = Ok p.
Proof.
  intros Hl. unfold MAX_PATH_BYTES in Hl. unfold resolve_open_path, MAX_PATH_BYTES.
  rewrite !(proj2 (Z.eqb_eq (len raw) _)) by lia. repeat case_match; eauto.
Qed.

Lemma alloc_safe w path data : files_ok w -> safe w (alloc_open_file path data w).
Proof. intros HF. pose proof (alloc_file_run w path data HF) as H. unfold safe. destruct (alloc_open_file path data w) as [[]]; try done; [apply H|by destruct H as (_ & -> & _)]. Qed.

(** Every byte of a path the kernel comes to read, those before it not being zero, is mapped. *)
Definition path_mapped (m : gmap Z Z) (ptr : Z) : Prop :=
  forall i, 0 <= i < MAX_PATH_BYTES -> user_range (ptr + i) 1 -> (forall j, 0 <= j < i -> exists b, m !! (ptr + j) = Some b /\ b <> 0) -> is_Some (m !! (ptr + i)).

Lemma copyin_byte_cases w a : 0 <= a < U64 -> (user_range a 1 -> is_Some (w_user w !! a)) ->
  (exists e, copyin_bytes a 1 w = (Err e, w)) \/ exists b, w_user w !! a = Some b /\ copyin_bytes a 1 w = (Ok [b], w).
Proof.
  intros Ha Hm. pose proof (validate_spec a 1 Ha ltac:(lia)) as Hv. unfold copyin_bytes, on_user, catch, zoom, copyin, bind, lift.
  assert (Hw : set_field w_user (w_user w) w = w) by (by destruct w).
  destruct (validate_user_range a 1) as [[]|e| |]; try done; [|left; unfold throw; rewrite Hw; eauto].
  right. destruct Hv as [_ [|Hr]]; [lia|]. destruct (Hm Hr) as [b Hb]. exists b. split; [done|].
  unfold gets. change (1 =? 0) with false. change (Z.to_nat 1) with 1%nat. cbv iota beta. assert (load_bytes (w_user w) a 1 = Some [b]) as -> by (simpl; by rewrite Hb).
  cbn [unwrap]. by rewrite Hw.
Qed.

Lemma copyin_from_cases w ptr : 0 <= ptr < U64 -> path_mapped (w_user w) ptr -> forall room buf,
  len buf + Z.of_nat room = MAX_PATH_BYTES -> (forall j, 0 <= j < len buf -> exists b, w_user w !! (ptr + j) = Some b /\ b <> 0) ->
  (exists e, copyin_from ptr (len buf) room buf w = (Err e, w)) \/ exists s, len s < MAX_PATH_BYTES /\ copyin_from ptr (len buf) room buf w = (Ok s, w).
Proof.
  intros Hp Hm. induction room as [|room IH]; intros buf Hl Hb; cbn [copyin_from]; [left; by eexists|]. pose proof (len_nonneg buf).
  unfold chk_add. destruct (Z.ltb_spec (ptr + len buf) U64); [|left; by eexists]. unfold bind, lift. cbn [ok_or].
  destruct (copyin_byte_cases w (ptr + len buf)) as [[e He]|(b & Hlook & Hr)]; [lia|intros Hu; apply Hm; [lia|done|done]|left; rewrite He; by eexists|].
  rewrite Hr. destruct (Z.eqb_spec b 0) as [|Hne]; [right; exists buf; split; [lia|done]|].
  replace (len buf + 1) with (len (buf ++ [b])) by (rewrite len_app; done). apply IH; [rewrite len_app; change (len [b]) with 1; lia|].
  intros j Hj. rewrite len_app in Hj. change (len [b]) with 1 in Hj. destruct (Z.eq_dec j (len buf)) as [->|]; [by exists b|]. apply Hb. lia.
Qed.

Lemma sys_open_safe {E} w dirfd ptr flags : files_ok w -> 0 <= ptr < U64 -> path_mapped (w_user w) ptr ->
  exists out w', sys_open (E:=E) dirfd ptr flags w = (Ok out, w') /\ files_ok w'.
Proof.
  intros HF Hp Hm. unfold sys_open. apply finish_safe. unfold open_path_at. destruct (is_read_only_open flags); [|done]. change (negb true) with false. cbv iota.
  destruct (copyin_from_cases w ptr Hp Hm (Z.to_nat MAX_PATH_BYTES) []) as [[e He]|(s & Hl & Hr)]; [unfold len, MAX_PATH_BYTES; cbn; lia|intros j Hj; unfold len in Hj; cbn in Hj; lia| |].
  { change (len (@nil Z)) with 0 in He. unfold bind at 1, copyin_c_string. by rewrite He. }
  change (len (@nil Z)) with 0 in Hr. fold (copyin_c_string ptr MAX_PATH_BYTES) in Hr.
  run Hr. destruct (is_utf8 s); [|done]. destruct (str_eqb s []); [done|]. change (negb true) with false. cbv iota.
  destruct (resolve_total dirfd s Hl) as [[e He]|[p Hpath]]; unfold bind at 1, lift at 1; rewrite ?He, ?Hpath; [done|].
  destruct (is_utf8 p); [|done]. change (negb true) with false. cbv iota. unfold bind at 1, gets. unfold bind at 1, lift at 1.
  destruct (vfs_lookup (w_mounts w) p) as [n|]; [|done]. cbn [ok_or]. unfold bind at 1, lift at 1.
  destruct (vfs_read (w_mounts w) (n_path n)) as [text|]; [|done]. cbn [ok_or]. by apply alloc_safe.
Qed.

Lemma close_safe {E} args w : files_ok w -> exists out w', close_fd (E:=E) args w = (Ok out, w') /\ files_ok w'.
Proof.
  intros HF. apply finish_safe. unfold parse_fd. destruct (arg args 0 <? 2 ^ 31); [|done]. rewrite (bind_run (ret _) _ _ (arg args 0) w) by done.
  pose proof (close_run w (arg args 0) HF) as H. unfold safe. destruct (close_open_file _ w) as [[]]; try done; [apply H|by destruct H as (_ & -> & _)].
Qed.

Lemma read_safe {E} args w : files_ok w -> 0 <= arg args 1 < U64 -> 0 <= arg args 2 ->
  (forall n, 0 < n <= arg args 2 -> user_range (arg args 1) n -> mapped (w_user w) (arg args 1) n) ->
  exists out w', read_from_fd (E:=E) args w = (Ok out, w') /\ files_ok w'.
Proof.
  intros HF Hd Hc Hm. apply finish_safe. unfold parse_fd. destruct (arg args 0 <? 2 ^ 31); [|done]. rewrite (bind_run (ret _) _ _ (arg args 0) w) by done.
  cbv zeta. destruct (Z.ltb_spec MAX_READ_BYTES (arg args 2)); [done|].
  destruct (fd_file_run w (arg args 0) HF) as [Hr|(i & f & Hr & Hv & He & Hi & Hf & Hu & Hfk & Hg)].
  { unfold read_open_file, bind at 1. by rewrite Hr. }
  destruct (read_run w (arg args 0) (arg args 1) (arg args 2) i f HF Hd ltac:(lia) Hv He Hf) as (Hok & _ & [(e & _ & _ & ->)|[[_ ->]|[_ ->]]]); try done.
  assert (Ha : 0 <= available f (arg args 2) <= arg args 2) by (unfold available, sat_sub; lia). intros Hu'.
  destruct (decide (available f (arg args 2) = 0)) as [Hz|]; [rewrite Hz; intros j Hj; lia|]. apply Hm; [lia|done].
Qed.

(** * Theorems *)

(** The calls on descriptors, with their arguments. *)
Inductive FdOp : Type :=
  | OpOpen (dirfd path_ptr flags : Z) | OpRead (args : list Z) | OpClose (args : list Z) | OpDup (args : list Z) | OpDup2 (args : list Z)
  | OpLseek (args : list Z) | OpPipe (args : list Z) | OpExitGroup (args : list Z).

Definition handle (o : FdOp) : M World unit SyscallOutcome :=
  match o with
  | OpOpen dirfd p flags => sys_open dirfd p flags
  | OpRead args => read_from_fd args
  | OpClose args => close_fd args
  | OpDup args => sys_dup args
  | OpDup2 args => sys_dup2 args
  | OpLseek args => sys_lseek args
  | OpPipe args => sys_pipe args
  | OpExitGroup args => sys_exit_group args
  end.

(** What a call needs of user memory (a page that is not mapped faults) and, for a
    seek, of its offset. *)
Definition ready (w : World) (o : FdOp) : Prop :=
  match o with
  | OpOpen _ p _ => 0 <= p < U64 /\ path_mapped (w_user w) p
  | OpRead args => 0 <= arg args 1 < U64 /\ 0 <= arg args 2 /\
      forall n, 0 < n <= arg args 2 -> user_range (arg args 1) n -> mapped (w_user w) (arg args 1) n
  | OpLseek args => forall i f, table_of w !! Z.to_nat (as_i32 (arg args 0)) = Some (Some i) -> w_files w !! Z.to_nat i = Some f -> seek_fits f args
  | OpPipe args => 0 <= arg args 0 < U64 /\ (user_range (arg args 0) 8 -> mapped (w_user w) (arg args 0) 8)
  | _ => True
  end.

(** C29: open files and descriptors stay consistent. From a state in which every
    used file's reference count is the number of descriptors, over all threads,
    that refer to it, and no descriptor refers to an unused file, each call on
    descriptors (open, read, close, dup, dup2, lseek, pipe, exit_group) returns a value or
    an error without a panic and leaves such a state. The arguments are 64-bit words; what
    is asked of them ([ready]): the bytes of a path the kernel comes to read, and the buffer of a read
    or a pipe if its range is one of user memory, are mapped, and the offset a seek computes fits a
    signed 64-bit integer (otherwise the addition panics: [lseek_overflow_panics]). *)
Theorem descriptors_consistent (w : World) (o : FdOp) (Hw : files_ok w) (Ho : ready w o) :
  exists out w', handle o w = (Ok out, w') /\ files_ok w'.
Proof.
  destruct o; simpl in Ho |- *.
  - destruct Ho as [Hp Hm]. by apply sys_open_safe.
  - destruct Ho as (H1 & H2 & H3). by apply read_safe.
  - by apply close_safe.
  - by apply sys_dup_safe.
  - by apply sys_dup2_safe.
  - by apply sys_lseek_safe.
  - destruct Ho. by apply sys_pipe_safe.
  - destruct (exit_files_run (E:=unit) args w Hw) as (w' & Hr & [Hok _] & _). eauto.
Qed.

(** ** What an open file holds *)
Definition holds (f : OpenFile) (data : list Z) : Prop := content_len f = len data /\ take (Z.to_nat (len data)) (content f) = data.

Lemma holds_read f data n : file_ok f -> holds f data -> 0 <= n ->
  next_bytes f n = take (Z.to_nat n) (drop (Z.to_nat (offset f)) data) /\ available f n = len (next_bytes f n).
Proof.
  intros [_ _ _ Ho] [Hcl Hct] Hn. assert (Hr : next_bytes f n = take (Z.to_nat n) (drop (Z.to_nat (offset f)) data)).
  { unfold next_bytes. rewrite <- Hct, skipn_firstn_comm, take_take. f_equal. unfold available, sat_sub. rewrite Hcl. lia. }
  split; [done|]. rewrite Hr. unfold available, sat_sub, len in *. rewrite Hcl, length_take, length_drop. lia.
Qed.

Lemma user_range_le dst n m : user_range dst n -> 0 <= m <= n -> user_range dst m.
Proof. unfold user_range. lia. Qed.
Lemma mapped_le m dst n k : mapped m dst n -> k <= n -> mapped m dst k.
Proof. intros Hm Hk j Hj. apply Hm. lia. Qed.
Lemma mapped_store m p bs a n : mapped m a n -> mapped (store_bytes m p bs) a n.
Proof.
  intros Hm j Hj. rewrite store_bytes_lookup. case_decide; [|by apply Hm]. apply lookup_lt_is_Some_2. unfold len in *. lia.
Qed.

(** A read of an open descriptor whose destination is mapped. *)
Lemma read_holds w fd dst n i f data :
  files_ok w -> valid_fd fd = true -> table_of w !! Z.to_nat fd = Some (Some i) -> w_files w !! Z.to_nat i = Some f -> holds f data ->
  0 < n <= MAX_READ_BYTES -> user_range dst n -> mapped (w_user w) dst n ->
  let chunk := take (Z.to_nat n) (drop (Z.to_nat (offset f)) data) in
  exists w' f', read_from_fd (E:=unit) [fd; dst; n] w = (Ok (success (len chunk)), w') /\ load_bytes (w_user w') dst (length chunk) = Some chunk /\
    files_ok w' /\ table_of w' = table_of w /\ w_files w' !! Z.to_nat i = Some f' /\ holds f' data /\ offset f' = offset f + len chunk /\
    (forall a m, mapped (w_user w) a m -> mapped (w_user w') a m) /\ w_user w' = store_bytes (w_user w) dst chunk.
Proof.
  intros HF Hv He Hf Hh Hn Hu Hm chunk. destruct (descriptor_file w _ _ i HF He) as (Hi & f0 & Hf0 & _ & Hfk & _). rewrite Hf in Hf0. injection Hf0 as <-.
  destruct (holds_read f data n Hfk Hh ltac:(lia)) as [Hr Ha]. fold chunk in Hr. rewrite Hr in Ha.
  assert (Hle : 0 <= available f n <= n) by (unfold available, sat_sub; lia).
  assert (Hd : 0 <= dst < U64) by (unfold user_range in Hu; lia). pose proof Hv as Hv'%valid_fd_spec.
  assert (Hgo : forall v w', read_open_file fd dst n w = (Ok v, w') -> read_from_fd (E:=unit) [fd; dst; n] w = (Ok (success v), w')).
  { intros v w' Hrun. apply finish_run. unfold arg, parse_fd. cbn [nth]. rewrite (proj2 (Z.ltb_lt fd _)) by lia.
    rewrite (bind_run (ret _) _ _ fd w) by done. cbv zeta. by rewrite (proj2 (Z.ltb_ge _ _)) by lia. }
  destruct (read_run w fd dst n i f HF Hd ltac:(lia) Hv He Hf) as (Hok & Ht & [(e & Hpos & Hbad & _)|[[Hz Hrun]|[Hpos Hrun]]]).
  - intros _. by apply (mapped_le _ _ n); [|lia].
  - destruct Hbad. by apply (user_range_le _ n).
  - exists w, f. assert (Hnil : chunk = []) by (destruct chunk as [|b l]; [done|rewrite len_cons in Ha; pose proof (len_nonneg l); lia]).
    rewrite Hnil. split_and!; [by apply Hgo|done|done|done|done|done| |done|done].
    rewrite len_nil. lia.
  - eexists _, (advance_file (available f n) f). rewrite Ha in *. rewrite Hr in *. split; [apply Hgo; exact Hrun|].
    split_and!; [apply load_stored|exact Hok|exact Ht| |exact Hh| | |reflexivity].
    + unfold set_files. simpl. by rewrite list_lookup_alter_eq, Hf.
    + destruct Hfk as [_ _ _ Ho]. unfold MAX_READ_BYTES in Hn. unfold advance_file, sat_add. simpl. lia.
    + intros a m Hma. by apply mapped_store.
Qed.

Lemma fresh_holds f data : content_len f = Z.min (len data) CONTENT_BYTES ->
  take (Z.to_nat (content_len f)) (content f) = take (Z.to_nat CONTENT_BYTES) data -> holds f (take (Z.to_nat CONTENT_BYTES) data).
Proof.
  intros Hcl Hct. assert (HC : 0 <= CONTENT_BYTES) by done. remember CONTENT_BYTES as C. clear HeqC.
  assert (Hl : content_len f = len (take (Z.to_nat C) data)) by (rewrite Hcl; unfold len; rewrite length_take; lia).
  split; [done|]. by rewrite <- Hl.
Qed.

Lemma drop_read (l : list Z) n : 0 <= n -> drop (Z.to_nat (len (take (Z.to_nat n) l))) l = drop (Z.to_nat n) l.
Proof.
  intros Hn. unfold len. rewrite Nat2Z.id, length_take. destruct (Nat.min_spec (Z.to_nat n) (length l)) as [[? ->]|[? ->]]; [done|].
  rewrite !drop_ge by lia. done.
Qed.

Lemma read_closed w fd dst n : files_ok w -> valid_fd fd = true -> n <= MAX_READ_BYTES -> table_of w !! Z.to_nat fd = Some None ->
  read_from_fd (E:=unit) [fd; dst; n] w = (Ok (errno EBADF), w).
Proof.
  intros HF Hv Hn He. pose proof Hv as Hv'%valid_fd_spec. apply finish_err. unfold arg, parse_fd. cbn [nth]. rewrite (proj2 (Z.ltb_lt fd _)) by lia.
  rewrite (bind_run (ret _) _ _ fd w) by done. cbv zeta. rewrite (proj2 (Z.ltb_ge _ _)) by lia.
  unfold read_open_file, bind at 1. destruct (fd_file_run w fd HF) as [->|(i & f & _ & _ & He' & _)]; [done|]. rewrite He in He'. done.
Qed.

(** C30: a file that is opened reads back what the file system holds. When the path
    in user memory resolves to a node with a text, and a descriptor and an entry of
    the file table are free, open returns the lowest free descriptor; a read of [n]
    bytes returns the length of the prefix of the text (at most 64 KiB of it are
    held) that fits, which user memory then holds; a second read goes on where the
    first stopped; close gives the descriptor table back as it was, and a read of
    the closed descriptor is [EBADF]. *)
Theorem open_read_close (w : World) (dirfd ptr flags dst n k : Z) (raw path text : list Z) (node : VfsNode) (fd i : Z)
    (Hw : files_ok w) (Hflags : is_read_only_open flags = true)
    (Hraw : user_string (w_user w) ptr raw) (Hlen : len raw < MAX_PATH_BYTES) (Hutf : is_utf8 raw = true) (Hne : raw <> [])
    (Hpath : resolve_open_path dirfd raw = Ok path) (Hutf' : is_utf8 path = true)
    (Hnode : vfs_lookup (w_mounts w) path = Some node) (Htext : vfs_read (w_mounts w) (n_path node) = Some text)
    (Hfd : free_fd (table_of w) = Some fd) (Hfile : free_file 0 (w_files w) = Some i)
    (Hn : 0 < n <= MAX_READ_BYTES) (Hk : 0 < k <= MAX_READ_BYTES)
    (Hdst : user_range dst (Z.max n k)) (Hmap : mapped (w_user w) dst (Z.max n k)) :
  let held := take (Z.to_nat CONTENT_BYTES) text in
  exists w1 w2 w3 w4,
    sys_open (E:=unit) dirfd ptr flags w = (Ok (success fd), w1) /\
    read_from_fd (E:=unit) [fd; dst; n] w1 = (Ok (success (len (take (Z.to_nat n) held))), w2) /\
    load_bytes (w_user w2) dst (length (take (Z.to_nat n) held)) = Some (take (Z.to_nat n) held) /\
    read_from_fd (E:=unit) [fd; dst; k] w2 = (Ok (success (len (take (Z.to_nat k) (drop (Z.to_nat n) held)))), w3) /\
    load_bytes (w_user w3) dst (length (take (Z.to_nat k) (drop (Z.to_nat n) held))) = Some (take (Z.to_nat k) (drop (Z.to_nat n) held)) /\
    close_fd (E:=unit) [fd] w3 = (Ok (success 0), w4) /\ files_ok w4 /\ table_of w4 = table_of w /\
    read_from_fd (E:=unit) [fd; dst; n] w4 = (Ok (errno EBADF), w4).
Proof.
  intros held. pose proof (alloc_file_run w (n_path node) text Hw) as Halloc.
  assert (Hopen : open_path_at dirfd ptr flags w = alloc_open_file (n_path node) text w).
  { unfold open_path_at. rewrite Hflags. change (negb true) with false. cbv iota. run (copyin_c_string_run w ptr raw _ Hraw Hlen).
    rewrite Hutf. rewrite (proj2 (str_eqb_false raw []) Hne). change (negb true) with false. cbv iota. unfold bind at 1, lift at 1. rewrite Hpath, Hutf'.
    change (negb true) with false. cbv iota. unfold bind at 1, gets, bind at 1, lift at 1. rewrite Hnode. cbn [ok_or].
    unfold bind at 1, lift at 1. by rewrite Htext. }
  destruct (alloc_open_file (n_path node) text w) as [[fd'|e| |] w1] eqn:Hal; [|destruct Halloc as (_ & _ & [H|H]); congruence|done|done].
  destruct Halloc as (Hok1 & j & a & f1 & Hfd1 & -> & Hj & Hnone & Ht1 & Hf1 & Hu & Hr & Ho1 & Hcl1 & Hct1 & Hu1).
  rewrite Hfd in Hfd1. injection Hfd1 as ->. unfold MAX_PROCESS_FDS in Hj. set (fd := Z.of_nat j).
  assert (Hv : valid_fd fd = true) by (apply valid_fd_spec; lia).
  assert (He1 : table_of w1 !! Z.to_nat fd = Some (Some (Z.of_nat a))).
  { unfold fd. rewrite Nat2Z.id, Ht1. apply list_lookup_insert_eq. by eapply lookup_lt_Some. }
  assert (Hh1 : holds f1 held). { apply fresh_holds; done. }
  rewrite <- (Nat2Z.id a) in Hf1.
  destruct (read_holds w1 fd dst n _ f1 held Hok1 Hv He1 Hf1 Hh1 Hn) as (w2 & f2 & Hr2 & Hl2 & Hok2 & Ht2 & Hf2 & Hh2 & Ho2 & Hm2 & _);
    [by apply (user_range_le _ _ _ Hdst); lia|rewrite Hu1; by apply (mapped_le _ _ _ _ Hmap); lia|].
  rewrite Ho1, Z2Nat.inj_0, drop_0, ?Z.add_0_l in *.
  rewrite <- Ht2 in He1.
  destruct (read_holds w2 fd dst k _ f2 held Hok2 Hv He1 Hf2 Hh2 Hk) as (w3 & f3 & Hr3 & Hl3 & Hok3 & Ht3 & _);
    [by apply (user_range_le _ _ _ Hdst); lia|apply Hm2; rewrite Hu1; by apply (mapped_le _ _ _ _ Hmap); lia|].
  rewrite Ho2, (drop_read held) in Hr3, Hl3 by lia.
  pose proof (close_run w3 fd Hok3) as Hclose. destruct (close_open_file fd w3) as [[v|e| |] w4] eqn:Hc; [| |done|done].
  2: { destruct Hclose as (_ & _ & Hbad). specialize (Hbad Hv). rewrite Ht3, He1 in Hbad. done. }
  destruct Hclose as (-> & _ & [Hok4 _] & Ht4). exists w1, w2, w3, w4.
  assert (Ht : table_of w4 = table_of w).
  { rewrite Ht4, Ht3, Ht2, Ht1. unfold fd. rewrite Nat2Z.id, list_insert_insert_eq. by apply list_insert_id. }
  split_and!; try done.
  - unfold sys_open. by apply finish_run.
  - apply finish_run. unfold arg, parse_fd. cbn [nth]. rewrite (proj2 (Z.ltb_lt fd _)) by lia. by rewrite (bind_run (ret _) _ _ fd w3) by done.
  - apply read_closed; [done|done|lia|]. rewrite Ht. unfold fd. by rewrite Nat2Z.id.
Qed.

(** ** A concrete state *)
Definition demo_user : gmap Z Z := store_bytes (store_bytes ∅ 4096 (lit "/initrd/d/f" ++ [0])) 8192 (replicate 16 0).
Definition demo_world : World :=
  mkWorld (snd demo_boot) (replicate MAX_SYSTEM_FILES file_empty) lcl_empty demo_user [] (demo_mounts demo_initrd)
    (mkPaging frame_allocator_new ∅) INITIAL_BRK INITIAL_MMAP 0 ring_new clock_new init_exec_new.

Lemma refs_none n i : refs (replicate n None) i = 0.
Proof. induction n as [|n IH]; [done|]. unfold refs in *. simpl replicate. rewrite zsum_cons, IH. done. Qed.

(** No file is open. *)
Lemma files_ok_initial w c th : current_slot (scheduler w) = Some c -> ths w !! c = Some th -> length (ths w) = MAX_THREADS ->
  Forall (fun th => fd_table th = replicate MAX_PROCESS_FDS None) (ths w) -> w_files w = replicate MAX_SYSTEM_FILES file_empty -> files_ok w.
Proof.
  intros Hc Hth Hl Ht Hf. assert (Htab : table_of w = replicate MAX_PROCESS_FDS None).
  { unfold table_of. rewrite Hc, Hth. simpl. exact (Forall_lookup_1 _ _ _ _ Ht Hth). }
  unfold files_ok. rewrite Htab. assert (Hz : forall i, total_refs (with_table c (replicate MAX_PROCESS_FDS None) (ths w)) i = 0).
  { intros i. rewrite (total_with_table _ _ _ _ _ Hth), refs_none, (Forall_lookup_1 _ _ _ _ Ht Hth), refs_none.
    clear -Ht. induction Ht as [|x l Hx _ IH]; [done|]. unfold total_refs in *. rewrite zsum_cons, Hx, refs_none. lia. }
  constructor.
  - by exists c, th.
  - done.
  - eapply Forall_impl; [exact Ht|]. intros x ->. apply length_replicate.
  - apply length_replicate.
  - rewrite Hf. apply length_replicate.
  - rewrite Hf. apply Forall_replicate. constructor; unfold file_empty; cbn [of_path content content_len offset].
    + apply length_replicate.
    + unfold len. rewrite length_replicate. unfold CONTENT_BYTES. lia.
    + done.
    + done.
  - intros c' i f Hc' Hfi. rewrite Hc in Hc'. injection Hc' as <-. rewrite Hz. rewrite Hf in Hfi. apply lookup_replicate_1 in Hfi as [-> _]. done.
  - intros c' i Hc' Hpos. rewrite Hc in Hc'. injection Hc' as <-. rewrite Hz in Hpos. lia.
Qed.

Lemma demo_files_ok : files_ok demo_world.
Proof.
  assert (Hs : scheduler demo_world = demo_sched) by (unfold scheduler, demo_world, demo_sched; cbn [w_kernel]; reflexivity).
  eapply (files_ok_initial demo_world 0); [rewrite Hs; apply demo_fields|vm_compute; reflexivity|vm_compute; reflexivity| |unfold demo_world; cbn [w_files]; reflexivity].
  apply Forall_lookup_2. intros k th Hk. assert (Hlen : length (ths demo_world) = 8%nat) by (vm_compute; reflexivity).
  assert (Hlt : (k < 8)%nat) by (apply lookup_lt_Some in Hk; lia).
  assert (Hall : fd_table <$> ths demo_world = replicate 8 (replicate MAX_PROCESS_FDS None)) by (vm_compute; reflexivity).
  apply (f_equal (lookup k)) in Hall. rewrite list_lookup_fmap, Hk, lookup_replicate_2 in Hall by done. by injection Hall.
Qed.

Lemma demo_mapped : user_range 8192 16 /\ mapped (w_user demo_world) 8192 16.
Proof.
  split; [unfold user_range; lia|]. intros i Hi. unfold demo_world; cbn [w_user]. unfold demo_user.
  rewrite store_bytes_lookup, decide_True by (change (len (replicate 16 0)) with 16; lia). apply lookup_lt_is_Some_2. rewrite length_replicate. lia.
Qed.

Lemma demo_path : user_string (w_user demo_world) 4096 (lit "/initrd/d/f").
Proof.
  split; [|split].
  - vm_compute. split_and!; try done. by left.
  - apply (bool_decide_unpack _). vm_compute. exact I.
  - intros i b Hi. unfold demo_world; cbn [w_user]. assert (Hlt : (i < 12)%nat) by (apply lookup_lt_Some in Hi; exact Hi).
    unfold demo_user. rewrite store_bytes_lookup, decide_False by lia. rewrite store_bytes_lookup, decide_True by (change (len _) with 12; lia).
    replace (Z.to_nat (4096 + Z.of_nat i - 4096)) with i by lia. exact Hi.
Qed.

Lemma descriptors_consistent_witness : exists out w', handle (OpPipe [8192]) demo_world = (Ok out, w') /\ files_ok w'.
Proof.
  apply (descriptors_consistent demo_world (OpPipe [8192]) demo_files_ok). split; [unfold arg; cbn [nth]; lia|]. intros _.
  apply (mapped_le _ _ 16); [exact (proj2 demo_mapped)|lia].
Defined.

Lemma open_read_close_witness :
  exists w1 w2 w3 w4,
    sys_open (E:=unit) AT_FDCWD 4096 0 demo_world = (Ok (success 3), w1) /\ read_from_fd (E:=unit) [3; 8192; 4] w1 = (Ok (success 4), w2) /\
    load_bytes (w_user w2) 8192 4 = Some (lit "data") /\ read_from_fd (E:=unit) [3; 8192; 16] w2 = (Ok (success 1), w3) /\
    load_bytes (w_user w3) 8192 1 = Some (lit "!") /\ close_fd (E:=unit) [3] w3 = (Ok (success 0), w4).
Proof.
  destruct (open_read_close demo_world AT_FDCWD 4096 0 8192 4 16 (lit "/initrd/d/f") (lit "/initrd/d/f") (lit "data!")
    (mkNode (lit "/initrd/d/f") MInitrd VFile 5 true) 3 0 demo_files_ok) as (w1 & w2 & w3 & w4 & H1 & H2 & H3 & H4 & H5 & H6 & _).
  - reflexivity.
  - exact demo_path.
  - reflexivity.
  - vm_compute. reflexivity.
  - discriminate.
  - vm_compute. reflexivity.
  - vm_compute. reflexivity.
  - vm_compute. reflexivity.
  - vm_compute. reflexivity.
  - vm_compute. reflexivity.
  - vm_compute. reflexivity.
  - split; [lia|discriminate].
  - split; [lia|discriminate].
  - exact (proj1 demo_mapped).
  - exact (proj2 demo_mapped).
  - assert (Hh : take (Z.to_nat CONTENT_BYTES) (lit "data!") = lit "data!") by (vm_compute; reflexivity).
    rewrite Hh in H2, H3, H4, H5. exists w1, w2, w3, w4. split_and!; [exact H1|exact H2|exact H3|exact H4|exact H5|exact H6].
Defined.

(** ** Calls that do not keep to this *)

(** An [ioctl] on a descriptor that is not open indexes the file table at 9999. *)
Theorem ioctl_closed_panics (w : World) (fd : Z) (Hw : files_ok w) (Hfd : 0 <= fd < 64)
    (Hclosed : table_of w !! Z.to_nat fd = Some None) : sys_ioctl (E:=unit) [fd] w = (Panic, w).
Proof.
  assert (Hfd' : as_i32 fd = fd). { unfold as_i32, cast. rewrite Z.mod_small by lia. rewrite (proj2 (Z.ltb_lt _ _)) by lia. done. }
  unfold sys_ioctl, finish, catch. unfold arg. cbn [nth]. cbv zeta. rewrite Hfd', (proj2 (valid_fd_spec fd)) by lia. change (negb true) with false. cbv iota.
  run (table_run (E:=Z) w _ Hw). run (table_lookup w fd None Hw Hclosed ltac:(lia)). cbn [default from_option]. unfold get_file, bind, gets, lift, idx.
  rewrite (proj2 (Z.ltb_ge 9999 (len (w_files w)))); [done|]. unfold len. rewrite (fi_files _ _ Hw). unfold MAX_SYSTEM_FILES. lia.
Qed.

(** A relative seek past the largest [i64] overflows. *)
Theorem lseek_overflow_panics (w : World) (fd i : Z) (f : OpenFile) (Hw : files_ok w) (Hfd : 0 <= fd < 64)
    (Hopen : table_of w !! Z.to_nat fd = Some (Some i)) (Hf : w_files w !! Z.to_nat i = Some f) (Hoff : 0 < offset f) :
  sys_lseek (E:=unit) [fd; 2 ^ 63 - 1; 1] w = (Panic, w).
Proof.
  assert (Hfd' : as_i32 fd = fd). { unfold as_i32, cast. rewrite Z.mod_small by lia. rewrite (proj2 (Z.ltb_lt _ _)) by lia. done. }
  unfold sys_lseek, finish, catch. unfold arg. cbn [nth]. cbv zeta. rewrite Hfd'.
  destruct (descriptor_file w _ _ i Hw Hopen) as (Hi & f0 & Hf0 & _ & [_ _ _ Ho] & _). rewrite Hf in Hf0. injection Hf0 as <-.
  destruct (fd_file_run w fd Hw) as [Hr|(i' & f' & Hr & _ & He & _ & Hf' & Hu & _ & Hg)].
  { exfalso. unfold fd_file in Hr. rewrite (proj2 (valid_fd_spec fd)) in Hr by lia. change (negb true) with false in Hr. cbv iota in Hr.
    rewrite (bind_run _ _ _ _ _ (table_run (E:=Z) w _ Hw)), (bind_run _ _ _ _ _ (table_lookup w fd _ Hw Hopen ltac:(lia))) in Hr. done. }
  rewrite Hopen in He. injection He as <-. rewrite Hf in Hf'. injection Hf' as <-. run Hr. run Hg. rewrite Hu. change (negb true) with false. cbv iota.
  change (as_i32 1 =? 0) with false. change (as_i32 1 =? 1) with true. cbv iota. rewrite as_i64_small by lia. change (as_i64 (2 ^ 63 - 1)) with (2 ^ 63 - 1).
  unfold bind, lift, add_i64. rewrite (proj2 (Z.ltb_ge (offset f + (2 ^ 63 - 1)) (2 ^ 63))) by lia. by rewrite andb_false_r.
Qed.

(** A fork copies the descriptors and counts none of them: after the parent's close
    the entry is free while a descriptor of the child still refers to it. *)
Definition forked_close : M World unit SyscallOutcome :=
  do! sys_open AT_FDCWD 4096 0 in do! sys_fork 0x4000 in close_fd [3].
Theorem fork_loses_reference :
  match forked_close demo_world with
  | (Ok out, w) => value out = 0 /\ is_used <$> w_files w !! 0%nat = Some false /\ total_refs (ths w) 0 = 1
  | _ => False
  end.
Proof.
  assert (H : match forked_close demo_world with
    | (Ok out, w) => (value out =? 0) && bool_decide (is_used <$> w_files w !! 0%nat = Some false) && (total_refs (ths w) 0 =? 1)
    | _ => false end = true) by (vm_compute; reflexivity).
  destruct (forked_close demo_world) as [[out| | |] w]; try done. apply andb_true_iff in H as [[H1%Z.eqb_eq H2%bool_decide_eq_true]%andb_true_iff H3%Z.eqb_eq]. auto.
Qed.
