(* ===== verification/Interrupts.v ===== *)
(** * Interrupts, exceptions and the system call gate:
      [kernel/src/arch/x86_64/interrupts.rs]

    [Machine] is what the handlers work on: the world of the system calls, the region
    table of the memory manager, the APIC, the interrupt table, the model-specific
    registers and the bytes sent straight to the serial port. A handler ends by
    returning to the interrupted code, by resuming the context of a thread, or by
    halting the processor. The frame of a system call is its twenty saved words. *)
From stdpp Require Import base list numbers option strings gmap.
From Stdlib Require Import ZArith Lia Bool.
From S2P Require Import Prelude Paths Text Frame Vmm Fat Sched Machine Hsched Paging Apic InitExec Gdt Trap Syscall.

Definition SYSCALL_VECTOR : Z := 0x80.
Definition INTERRUPT_GATE : Z := 0x8e.
Definition USER_INTERRUPT_GATE : Z := 0xee.
Definition IA32_EFER : Z := 0xc0000080.
Definition IA32_STAR : Z := 0xc0000081.
Definition IA32_LSTAR : Z := 0xc0000082.
Definition IA32_FMASK : Z := 0xc0000084.

(** ** The interrupt table *)
Record IdtEntry : Type := mkIdt {
  pointer_low : Z; ie_selector : Z; ie_ist : Z; type_attributes : Z; pointer_middle : Z; pointer_high : Z; ie_reserved : Z }.
Definition idt_missing : IdtEntry := mkIdt 0 0 0 0 0 0 0.
Definition handler_entry (handler selector type_attributes : Z) : IdtEntry :=
  mkIdt (cast U16 handler) selector 0 type_attributes (cast U16 (Z.shiftr handler 16)) (cast U32 (Z.shiftr handler 32)) 0.

(** The addresses of the handlers. *)
Record Handlers : Type := mkHandlers {
  h_nmi : Z; h_breakpoint : Z; h_invalid_opcode : Z; h_double_fault : Z; h_general_protection : Z; h_page_fault : Z; h_timer : Z; h_spurious : Z;
  h_syscall : Z; h_asymmetric : Z; h_fast_syscall : Z }.

Record Machine : Type := mkMachine {
  m_world : World; m_regions : list ProcessVmm; m_apic : Lapic; m_idt : list IdtEntry; m_idtr : option DescriptorTablePointer; m_msrs : gmap Z Z; m_serial : list Z }.
#[export] Instance Machine_eta : RecordEta Machine := fun m =>
  mkMachine (m_world m) (m_regions m) (m_apic m) (m_idt m) (m_idtr m) (m_msrs m) (m_serial m).

Section setup.
Context {E : Type}.
Definition set_gate (vector : Z) (entry : IdtEntry) : M Machine E unit :=
  let! idt := gets m_idt in let! idt := lift (set_at idt vector entry) in modify (set_field m_idt idt).
Definition set_handler_addr (vector handler selector : Z) : M Machine E unit := set_gate vector (handler_entry handler selector INTERRUPT_GATE).

Definition read_msr (msr : Z) : M Machine E Z := gets (fun m => default 0 (m_msrs m !! msr)).
Definition write_msr (msr value : Z) : M Machine E unit := modify (upd m_msrs <[msr := value]>).

Definition init_syscall_msrs (h : Handlers) (code_selector : Z) : M Machine E unit :=
  let! efer := read_msr IA32_EFER in
  do! write_msr IA32_EFER (Z.lor efer 1) in
  do! write_msr IA32_STAR (syscall_star code_selector) in
  do! write_msr IA32_LSTAR (h_fast_syscall h) in
  write_msr IA32_FMASK 0x200.

(** [interrupts::initialize]: [code_selector] is the [cs] register, [idt_address] the table's address. *)
Definition interrupts_initialize (h : Handlers) (code_selector idt_address : Z) : M Machine E unit :=
  do! set_handler_addr 2 (h_nmi h) code_selector in
  do! set_handler_addr 3 (h_breakpoint h) code_selector in
  do! set_handler_addr 6 (h_invalid_opcode h) code_selector in
  do! set_handler_addr 8 (h_double_fault h) code_selector in
  do! set_handler_addr 13 (h_general_protection h) code_selector in
  do! set_handler_addr 14 (h_page_fault h) code_selector in
  do! set_handler_addr TIMER_VECTOR (h_timer h) code_selector in
  do! set_handler_addr SPURIOUS_VECTOR (h_spurious h) code_selector in
  do! set_gate SYSCALL_VECTOR (handler_entry (h_syscall h) code_selector USER_INTERRUPT_GATE) in
  do! set_handler_addr 0x81 (h_asymmetric h) code_selector in
  do! modify (set_field m_idtr (Some (mkDtr (cast U16 (256 * 16 - 1)) idt_address))) in
  init_syscall_msrs h code_selector.
End setup.

(** How the processor reads a gate: the handler's address, the privilege level a
    software interrupt needs, and whether the gate turns interrupts off. *)
Definition gate_handler (e : IdtEntry) : Z := pointer_low e + 2 ^ 16 * pointer_middle e + 2 ^ 32 * pointer_high e.
Definition gate_present (e : IdtEntry) : bool := bits (type_attributes e) 7 1 =? 1.
Definition gate_dpl (e : IdtEntry) : Z := bits (type_attributes e) 5 2.
Definition gate_masks (e : IdtEntry) : bool := bits (type_attributes e) 0 4 =? 14.

(** ** Messages *)
Definition dec_i (v : Z) : list Z := if v <? 0 then lit "-" ++ dec (- v) else dec v.
Definition yes_no (b : bool) : list Z := if b then lit "yes" else lit "no".

Definition abi_str (a : SyscallAbi) : list Z :=
  match a with
  | LinuxBootstrap => lit "linux-x86_64-bootstrap" | GhostBootstrap => lit "ghost-bootstrap" | HxnuNativeBootstrap => lit "hxnu-native-bootstrap" | PosixLcl => lit "posix-lcl"
  end.

Definition syscall_abi_selector (a : SyscallAbi) : Z :=
  match a with LinuxBootstrap => 0 | GhostBootstrap => 1 | HxnuNativeBootstrap => 2 | PosixLcl => 3 end.
Definition decode_syscall_abi (selector : Z) : option SyscallAbi :=
  if selector =? 2 then Some HxnuNativeBootstrap else if selector =? 1 then Some GhostBootstrap else Some LinuxBootstrap.

Record InterruptStackFrame : Type := mkStackFrame {
  instruction_pointer : Z; code_segment : Z; cpu_flags : Z; stack_pointer : Z; stack_segment : Z }.
Definition fault_from_user (f : InterruptStackFrame) : bool := Z.land (code_segment f) 3 =? 3.

(** How a handler ends. *)
Inductive TrapEnd : Type := Returned (rax : Z) | Resumed (slot : nat) | Halted.

Definition report_fatal_exception (kind : list Z) (f : InterruptStackFrame) (error_code fault_address : option Z) : list Z :=
  let code := default 0 error_code in
  lines_text ([lit "================= FATAL EXCEPTION =================="; lit "kind      " ++ kind; lit "rip       " ++ hex_wide 16 (instruction_pointer f);
    lit "cs        " ++ hex_wide 4 (code_segment f); lit "rflags    " ++ hex_wide 16 (cpu_flags f); lit "rsp       " ++ hex_wide 16 (stack_pointer f);
    lit "ss        " ++ hex_wide 4 (stack_segment f)]
    ++ (match error_code with Some e => [lit "error     " ++ hex e] | None => [] end)
    ++ (match fault_address with
        | Some a => [lit "cr2       " ++ hex_wide 16 a;
            lit "decode    present=" ++ yes_no (Z.testbit code 0) ++ lit " write=" ++ yes_no (Z.testbit code 1) ++ lit " user=" ++ yes_no (Z.testbit code 2)
              ++ lit " reserved=" ++ yes_no (Z.testbit code 3) ++ lit " instruction=" ++ yes_no (Z.testbit code 4)]
        | None => []
        end)
    ++ [lit "action    cpu halted"; lit "===================================================="]).

Section handlers.
Variables (L : Layout) (tsc cr3 : Z) (hhdm_offset : option Z).
Context `{B : Block} {E : Type}.

(** [kprintln!]: the record of [log.rs] on the console. *)
Definition kprintln (text : list Z) : M World E unit :=
  let! clock := gets w_clock in
  let '(seconds, nanoseconds) := timestamp clock tsc in
  tty_write (lit "[" ++ dec seconds ++ lit "." ++ zero_pad 9 (dec nanoseconds) ++ lit "] " ++ text ++ [10]).

Definition init_exit_line (d : InitExitDisposition) : list Z :=
  lit "HXNU: init lifecycle exit pid=" ++ dec (xd_process_id d) ++ lit " tid=" ++ dec (xd_thread_id d) ++ lit " status=" ++ dec_i (xd_exit_status d)
  ++ lit " action=" ++ (if xd_restart_scheduled d then lit "restart-pending" else lit "restart-limit-reached")
  ++ lit " attempt=" ++ dec (xd_next_restart_attempt d) ++ lit "/" ++ dec (xd_restart_limit d).
Definition exit_line (first : list Z) (r : ExitGroupRecord) : list Z :=
  first ++ lit " status=" ++ dec_i (eg_status r) ++ lit " exited=" ++ lit (eg_thread_name r) ++ lit "#" ++ dec (eg_thread_id r) ++ lit " pid=" ++ dec (eg_process_id r)
  ++ lit " threads=" ++ dec (Z.of_nat (eg_thread_count r)) ++ lit " next=" ++ lit (eg_next_thread_name r) ++ lit "#" ++ dec (eg_next_thread_id r)
  ++ lit " pid=" ++ dec (eg_next_process_id r) ++ lit " runqueue=" ++ dec (Z.of_nat (eg_runqueue_depth r)).

(** After an exit: the record is logged and the exit of the first process noted. *)
Definition note_exit (line : list Z) (r : ExitGroupRecord) : M World E unit :=
  do! kprintln line in
  let! d := zoom w_init (fun i w => set_field w_init i w) (note_init_exit (eg_process_id r) (eg_thread_id r) (eg_status r)) in
  match d with Some d => kprintln (init_exit_line d) | None => ret tt end.

(** ** The system call *)
Definition frame_word (frame : list Z) (i : nat) : Z := nth i frame 0.
Definition syscall_from_user (frame : list Z) : bool := Z.land (frame_word frame (SYSCALL_REGISTER_QWORDS + 1)) 3 =? 3.

(** The frame is [frame], at address [frame_ptr]; the result comes with the frame the
    resumed thread will find, its [rax] set. *)
Definition handle_syscall_frame (frame_ptr : Z) (frame : list Z) : M World E (TrapEnd * list Z) :=
  match decode_syscall_abi (frame_word frame 11) with
  | None => ret (Returned (cast U64 (-38)), frame)
  | Some abi =>
      let! out := dispatch L tsc cr3 hhdm_offset abi (frame_word frame 0)
        [frame_word frame 6; frame_word frame 5; frame_word frame 4; frame_word frame 9; frame_word frame 7; frame_word frame 8] in
      let syscall_value := cast U64 (value out) in
      let from_user := syscall_from_user frame in
      match action out with
      | Continue => ret (Returned syscall_value, frame)
      | YieldThread =>
          let! next := (if from_user then sch (yield_current_user_thread L frame_ptr) else ret None) in
          match next with
          | Some slot => ret (Resumed slot, <[0%nat := syscall_value]> frame)
          | None => ret (Returned syscall_value, frame)
          end
      | ExitGroup status =>
          let! record := sch (request_exit_group status) in
          do! match record with
              | Some r => note_exit (exit_line (lit "HXNU: syscall exit_group abi=" ++ abi_str abi) r) r
              | None => kprintln (lit "HXNU: syscall exit_group abi=" ++ abi_str abi ++ lit " status=" ++ dec_i status ++ lit " scheduler=unavailable")
              end in
          let! next := (if from_user then sch (current_context_ptr_for_resume L) else ret None) in
          match next with
          | Some slot => ret (Resumed slot, <[0%nat := syscall_value]> frame)
          | None => ret (Returned syscall_value, frame)
          end
      end
  end.

(** ** Exceptions *)
Definition on_world {A} (m : M World E A) : M Machine E A := zoom m_world (fun w s => set_field m_world w s) m.
(** The memory manager works on its region table and on the frames and page tables of the world. *)
Definition vmm_of (s : Machine) : vmm := mkVmm (m_regions s) (pg_frames (w_paging (m_world s))) (pg_words (w_paging (m_world s))).
Definition set_vmm (v : vmm) (s : Machine) : Machine :=
  set_field m_regions (v_table v) (upd m_world (fun w => set_field w_paging (mkPaging (v_frames v) (v_mem v)) w) s).
Definition on_vmm {A} (m : M vmm E A) : M Machine E A := zoom vmm_of set_vmm m.

(** [Some slot]: the thread to resume; [None]: the function returned [false]. *)
Definition resume_after_user_exception (kind : list Z) (f : InterruptStackFrame) (error_code fault_address : option Z) (exit_status : Z) : M World E (option nat) :=
  if negb (fault_from_user f) then ret None else
  let! t := sch current_thread in
  do! kprintln (lit "HXNU: user fault kind=" ++ kind ++ lit " current=" ++ lit (name t) ++ lit "#" ++ dec (id t) ++ lit " pid=" ++ dec (Sched.process_id t)
    ++ lit " rip=" ++ hex_wide 16 (instruction_pointer f) ++ lit " error=" ++ hex (default 0 error_code) ++ lit " addr=" ++ hex_wide 16 (default 0 fault_address)
    ++ lit " action=kill-group") in
  let! record := sch (request_exit_group exit_status) in
  match record with
  | Some r =>
      do! note_exit (exit_line (lit "HXNU: user fault exit") r) r in
      sch (current_context_ptr_for_resume L)
  | None => ret None
  end.

Definition fatal (kind : list Z) (f : InterruptStackFrame) (error_code fault_address : option Z) : M Machine E TrapEnd :=
  do! modify (upd m_serial (fun s => s ++ report_fatal_exception kind f error_code fault_address)) in ret Halted.

(** An exception that kills the thread that caused it, or the machine. *)
Definition user_or_fatal (kind : list Z) (f : InterruptStackFrame) (error_code fault_address : option Z) (exit_status : Z) : M Machine E TrapEnd :=
  let! next := on_world (resume_after_user_exception kind f error_code fault_address exit_status) in
  match next with Some slot => ret (Resumed slot) | None => fatal kind f error_code fault_address end.

Definition nmi_handler : M Machine E TrapEnd := ret (Returned 0).
Definition asymmetric_irq_handler : M Machine E TrapEnd := do! on_world (submit_workload GpuCompute) in ret (Returned 0).
Definition breakpoint_handler (f : InterruptStackFrame) : M Machine E TrapEnd :=
  do! on_world (kprintln (lit "HXNU: exception breakpoint rip=" ++ hex_wide 16 (instruction_pointer f) ++ lit " rsp=" ++ hex_wide 16 (stack_pointer f))) in ret (Returned 0).
Definition invalid_opcode_handler (f : InterruptStackFrame) : M Machine E TrapEnd := user_or_fatal (lit "invalid opcode") f None None 132.
Definition double_fault_handler (f : InterruptStackFrame) (error_code : Z) : M Machine E TrapEnd := fatal (lit "double fault") f (Some error_code) None.
Definition general_protection_fault_handler (f : InterruptStackFrame) (error_code : Z) : M Machine E TrapEnd :=
  user_or_fatal (lit "general protection fault") f (Some error_code) None 139.
Definition page_fault_handler (f : InterruptStackFrame) (error_code fault_address : Z) : M Machine E TrapEnd :=
  let! pid := on_world (sch current_process_id) in
  let! handled := on_vmm (handle_page_fault pid cr3 fault_address error_code) in
  if handled : bool then ret (Returned 0) else user_or_fatal (lit "page fault") f (Some error_code) (Some fault_address) 139.
Definition timer_handler : M Machine E TrapEnd :=
  do! (fun s => let '(o, a) := handle_timer_interrupt (m_apic s) in
        (match o with Ok t => Ok t | Err _ => Panic | Panic => Panic | Diverge => Diverge end, set_field m_apic a s)) in
  do! on_world (on_kernel on_timer_interrupt) in ret (Returned 0).
Definition spurious_interrupt_handler : M Machine E TrapEnd :=
  do! (fun s => let '(o, a) := handle_spurious_interrupt (m_apic s) in
        (match o with Ok t => Ok t | Err _ => Panic | Panic => Panic | Diverge => Diverge end, set_field m_apic a s)) in
  ret (Returned 0).
End handlers.
