(* ===== verification/InterruptsFacts.v ===== *)
(** * Interrupts and exceptions: theorems *)
From stdpp Require Import base list numbers option strings gmap.
From Stdlib Require Import ZArith Lia Bool.
From S2P Require Import Prelude Paths Text Frame Vmm Fat Sched SchedFacts Machine Hsched Paging Apic InitExec Gdt Trap Syscall SyscallFacts Interrupts.

(** ** The interrupt table *)
Lemma gate_handler_entry h selector attr : 0 <= h < U64 -> gate_handler (handler_entry h selector attr) = h.
Proof.
  intros Hh. unfold gate_handler, handler_entry. cbn [pointer_low pointer_middle pointer_high]. unfold cast. rewrite !Z.shiftr_div_pow2 by lia.
  change (2 ^ 16) with U16. change (2 ^ 32) with U32. Z.to_euclidean_division_equations. lia.
Qed.

(** The table after the gates of [vs] were set, in order. *)
Definition set_gates {E} (vs : list (Z * IdtEntry)) : M Machine E unit := Prelude.for_each vs (fun g => set_gate g.1 g.2).
Lemma set_gates_run {E} vs : forall m, length (m_idt m) = 256%nat -> Forall (fun g => 0 <= g.1 < 256) vs ->
  exists idt, set_gates (E:=E) vs m = (Ok tt, set_field m_idt idt m) /\ length idt = 256%nat /\
    forall i, 0 <= i < 256 -> idt !! Z.to_nat i = match List.find (fun g => fst g =? i) (rev vs) with Some g => Some g.2 | None => m_idt m !! Z.to_nat i end.
Proof.
  induction vs as [|[v e] vs IH]; intros m Hl Hv; unfold set_gates; cbn [Prelude.for_each].
  - exists (m_idt m). split; [by destruct m|]. split; [done|]. done.
  - apply Forall_cons_iff in Hv as [Hv Hvs]. cbn in Hv. unfold bind at 1, set_gate at 1, bind at 1, gets. unfold bind at 1, lift, set_at.
    rewrite blit_ok by (unfold len; cbn; lia). unfold modify. set (idt1 := take _ _ ++ _ ++ _).
    assert (Hidt1 : idt1 = <[Z.to_nat v := e]> (m_idt m)).
    { unfold idt1. rewrite insert_take_drop by lia. cbn [fst snd]. unfold len. cbn [length]. do 3 f_equal. f_equal. lia. }
    assert (Hl1 : length idt1 = 256%nat) by (by rewrite Hidt1, length_insert).
    set (m1 := set_field m_idt idt1 m). destruct (IH m1 Hl1 Hvs) as (idt & Hrun & Hlen & Hlook). exists idt. split; [exact Hrun|]. split; [done|]. intros i Hi. rewrite (Hlook i Hi). cbn [rev].
    assert (Hf : forall l, List.find (fun g : Z * IdtEntry => g.1 =? i) (l ++ [(v, e)]) = match List.find (fun g => g.1 =? i) l with Some g => Some g | None => if v =? i then Some (v, e) else None end).
    { induction l as [|[a b] l IHl]; cbn; [done|]. by destruct (a =? i). }
    rewrite Hf. destruct (List.find _ (rev vs)); [done|]. cbn. rewrite Hidt1. destruct (Z.eqb_spec v i) as [->|Hne].
    + by rewrite list_lookup_insert_eq by lia.
    + by rewrite list_lookup_insert_ne by lia.
Qed.

Definition kernel_gates (h : Handlers) (cs : Z) : list (Z * IdtEntry) :=
  [(2, handler_entry (h_nmi h) cs INTERRUPT_GATE); (3, handler_entry (h_breakpoint h) cs INTERRUPT_GATE); (6, handler_entry (h_invalid_opcode h) cs INTERRUPT_GATE);
   (8, handler_entry (h_double_fault h) cs INTERRUPT_GATE); (13, handler_entry (h_general_protection h) cs INTERRUPT_GATE); (14, handler_entry (h_page_fault h) cs INTERRUPT_GATE);
   (TIMER_VECTOR, handler_entry (h_timer h) cs INTERRUPT_GATE); (SPURIOUS_VECTOR, handler_entry (h_spurious h) cs INTERRUPT_GATE);
   (SYSCALL_VECTOR, handler_entry (h_syscall h) cs USER_INTERRUPT_GATE); (0x81, handler_entry (h_asymmetric h) cs INTERRUPT_GATE)].

Lemma for_each_app {S E A} (xs ys : list A) (body : A -> M S E unit) s : Prelude.for_each (xs ++ ys) body s = (do! Prelude.for_each xs body in Prelude.for_each ys body) s.
Proof.
  revert s. induction xs as [|x xs IH]; intros s; cbn [Prelude.for_each app]; [done|]. unfold bind. destruct (body x s) as [[[]|e| |] s1]; [|done..]. rewrite IH. unfold bind. done.
Qed.

Lemma initialize_run {E} h cs base m : length (m_idt m) = 256%nat ->
  exists idt, interrupts_initialize (E:=E) h cs base m = init_syscall_msrs h cs (set_field m_idtr (Some (mkDtr 4095 base)) (set_field m_idt idt m)) /\ length idt = 256%nat /\
    forall i, 0 <= i < 256 -> idt !! Z.to_nat i = match List.find (fun g => fst g =? i) (rev (kernel_gates h cs)) with Some g => Some g.2 | None => m_idt m !! Z.to_nat i end.
Proof.
  intros Hl. destruct (set_gates_run (E:=E) (kernel_gates h cs) m Hl) as (idt & Hrun & Hlen & Hlook); [repeat constructor; cbn; unfold TIMER_VECTOR, SPURIOUS_VECTOR, SYSCALL_VECTOR; lia|].
  exists idt. split; [|done]. assert (Hsame : interrupts_initialize (E:=E) h cs base m = (do! set_gates (kernel_gates h cs) in
    do! modify (set_field m_idtr (Some (mkDtr (cast U16 (256 * 16 - 1)) base))) in init_syscall_msrs h cs) m).
  { unfold interrupts_initialize, set_handler_addr, set_gates, kernel_gates. cbn [Prelude.for_each fst snd]. unfold bind. do 10 (match goal with |- context [set_gate ?v ?e ?s] => destruct (set_gate v e s) as [[[]|?| |] ?] end; [|done..]). done. }
  rewrite Hsame. unfold bind at 1. rewrite Hrun. reflexivity.
Qed.

(** The vectors of the kernel, with the handler each must reach. *)
Definition vector_table (h : Handlers) : list (Z * Z) :=
  [(2, h_nmi h); (3, h_breakpoint h); (6, h_invalid_opcode h); (8, h_double_fault h); (13, h_general_protection h); (14, h_page_fault h);
   (TIMER_VECTOR, h_timer h); (SPURIOUS_VECTOR, h_spurious h); (SYSCALL_VECTOR, h_syscall h); (0x81, h_asymmetric h)].

(** What the processor does with vector [v] through entry [e]. *)
Definition enters (e : IdtEntry) (cs v handler : Z) : Prop :=
  gate_present e = true /\ gate_handler e = handler /\ ie_selector e = cs /\ gate_masks e = true /\ ie_ist e = 0 /\
  gate_dpl e = (if v =? SYSCALL_VECTOR then 3 else 0).

Lemma handler_entry_enters cs v handler attr : 0 <= handler < U64 -> attr = (if v =? SYSCALL_VECTOR then USER_INTERRUPT_GATE else INTERRUPT_GATE) ->
  enters (handler_entry handler cs attr) cs v handler.
Proof.
  intros Hh ->. unfold enters. rewrite (gate_handler_entry handler cs _ Hh). unfold handler_entry, gate_present, gate_dpl, gate_masks. cbn [type_attributes ie_selector ie_ist].
  by destruct (v =? SYSCALL_VECTOR).
Qed.

Lemma kernel_gates_enter h cs v handler : In (v, handler) (vector_table h) -> 0 <= handler < U64 ->
  exists e, List.find (fun g => fst g =? v) (rev (kernel_gates h cs)) = Some (v, e) /\ enters e cs v handler.
Proof.
  intros Hin Hh. unfold vector_table, TIMER_VECTOR, SPURIOUS_VECTOR, SYSCALL_VECTOR in Hin. cbn [In] in Hin.
  repeat (destruct Hin as [[= <- <-]|Hin]; [eexists; split; [reflexivity|by apply handler_entry_enters]|]). done.
Qed.

Lemma kernel_gates_other h cs v : ~ In v (map fst (vector_table h)) -> List.find (fun g => fst g =? v) (rev (kernel_gates h cs)) = None.
Proof.
  intros Hn. destruct (List.find _ _) as [g|] eqn:Hg; [|done]. exfalso. apply Hn. apply List.find_some in Hg as [Hin Heq]. apply in_rev in Hin.
  apply Z.eqb_eq in Heq. subst v. apply (in_map fst) in Hin. exact Hin.
Qed.

(** After [interrupts::initialize] each of the ten vectors the kernel serves leads,
    through a present gate that turns interrupts off and loads the kernel's code
    segment, to its own handler at its full 64-bit address; user code can raise only
    vector 0x80 (every other gate has privilege level 0); no other entry of the table
    changed; the processor's table register covers all 256 entries; and the [syscall]
    instruction is enabled, enters at the fast entry point and masks the interrupt flag. *)
Theorem interrupts_initialize_spec {E} h cs base m (Hlen : length (m_idt m) = 256%nat) (Hh : Forall (fun p => 0 <= snd p < U64) (vector_table h)) :
  exists m', interrupts_initialize (E:=E) h cs base m = (Ok tt, m') /\
    (forall v handler, In (v, handler) (vector_table h) -> exists e, m_idt m' !! Z.to_nat v = Some e /\ enters e cs v handler) /\
    (forall v, 0 <= v < 256 -> ~ In v (map fst (vector_table h)) -> m_idt m' !! Z.to_nat v = m_idt m !! Z.to_nat v) /\
    m_idtr m' = Some (mkDtr (256 * 16 - 1) base) /\ length (m_idt m') = 256%nat /\
    m_msrs m' !! IA32_LSTAR = Some (h_fast_syscall h) /\ m_msrs m' !! IA32_STAR = Some (syscall_star cs) /\ m_msrs m' !! IA32_FMASK = Some 0x200 /\
    m_msrs m' !! IA32_EFER = Some (Z.lor (default 0 (m_msrs m !! IA32_EFER)) 1) /\
    m_world m' = m_world m /\ m_regions m' = m_regions m /\ m_apic m' = m_apic m /\ m_serial m' = m_serial m.
Proof.
  destruct (initialize_run (E:=E) h cs base m Hlen) as (idt & Hrun & Hl & Hlook). rewrite Hrun. eexists. split; [reflexivity|].
  cbn [m_idt m_msrs m_idtr m_world m_regions m_apic m_serial set_field upd]. split; [|split].
  - intros v handler Hin. assert (Hv : 0 <= handler < U64) by (rewrite List.Forall_forall in Hh; exact (Hh _ Hin)).
    destruct (kernel_gates_enter h cs v handler Hin Hv) as (e & Hf & He). exists e. split; [|done]. rewrite Hlook, Hf; [done|].
    apply (in_map fst) in Hin. cbn in Hin. unfold TIMER_VECTOR, SPURIOUS_VECTOR, SYSCALL_VECTOR in Hin. lia.
  - intros v Hv Hn. by rewrite Hlook, kernel_gates_other.
  - split; [done|]. split; [done|]. unfold IA32_LSTAR, IA32_STAR, IA32_FMASK, IA32_EFER. simplify_map_eq. done.
Qed.

Definition demo_handlers : Handlers := mkHandlers 0xffffffff80001000 0xffffffff80001100 0xffffffff80001200 0xffffffff80001300 0xffffffff80001400
  0xffffffff80001500 0xffffffff80001600 0xffffffff80001700 0xffffffff80001800 0xffffffff80001900 0xffffffff80001a00.

(** The selector a program puts in [r12] names the personality it meant: the
    selector of every personality but one decodes back to that personality. The
    selector of the POSIX layer, 3, does not: it decodes to the Linux one, as does
    every selector that names no personality, so the handler's error result for an
    unknown selector is never given. *)
Theorem abi_selector_decodes :
  (forall a, decode_syscall_abi (syscall_abi_selector a) = Some a <-> a <> PosixLcl) /\
  (forall s, decode_syscall_abi s <> None) /\
  decode_syscall_abi (syscall_abi_selector PosixLcl) = Some LinuxBootstrap.
Proof.
  split; [intros []; split; vm_compute; congruence|]. split; [|done]. intros s. unfold decode_syscall_abi. by destruct (s =? 2), (s =? 1).
Qed.

(** ** Exceptions of user code *)
Definition msched (m : Machine) : Scheduler := SCHEDULER (w_kernel (m_world m)).

(** [m'] differs from [m] at most in the scheduler, the console and the record of the first process. *)
Definition only_sched (m m' : World) : Prop :=
  m' = mkWorld (w_kernel m') (w_files m) (w_lcl m) (w_user m) (w_console m') (w_mounts m) (w_paging m) (w_brk m) (w_mmap m) (w_fs_base m) (w_hsched m)
    (w_clock m) (w_init m').

Lemma sch_run {E A} (c : M Scheduler E A) w a s' : c (SCHEDULER (w_kernel w)) = (Ok a, s') -> sch c w = (Ok a, upd w_kernel (set_field SCHEDULER s') w).
Proof. intros H. unfold sch, on_kernel, on_sched, zoom. by rewrite H. Qed.

Lemma kprintln_run {E} tsc text w : exists c, kprintln (E:=E) tsc text w = (Ok tt, set_field w_console c w).
Proof. unfold kprintln, bind, gets. destruct (timestamp _ _). by eexists. Qed.

(** The record of the first process after process [pid] ended with [status]: a restart is
    pending when it was the first process and its restarts are not used up. *)
Definition init_noted (pid status : Z) (i i' : InitExecState) : Prop :=
  if (current_process i =? 0) || negb (current_process i =? pid) then i' = i
  else last_exit_status i' = Some status /\ current_process i' = 0 /\ restart_pending i' = (restart_count i <? MAX_INIT_RESTARTS) /\ restart_count i' = restart_count i.

Lemma note_exit_run {E} tsc line r w : exists w', note_exit (E:=E) tsc line r w = (Ok tt, w') /\ w_kernel w' = w_kernel w /\ only_sched w w' /\
  init_noted (eg_process_id r) (eg_status r) (w_init w) (w_init w').
Proof.
  unfold note_exit. destruct (kprintln_run (E:=E) tsc line w) as [c Hc]. rewrite (bind_run _ _ _ _ _ Hc). set (w1 := set_field w_console c w).
  unfold init_noted, note_init_exit, bind, zoom, gets, put, ret. cbn beta iota. change (w_init w1) with (w_init w). destruct (_ || _); cbn beta iota; [by eexists|].
  match goal with |- context [kprintln tsc ?t ?v] => destruct (kprintln_run (E:=E) tsc t v) as [c2 Hc2] end. rewrite Hc2. by eexists.
Qed.

(** What a fault of user code does: the thread group of the current thread [t] ends, and the
    next thread is resumed; only when no thread is left is the fault reported and the machine halted. *)
Definition kills_group (t : Thread) (status : Z) (report : list Z) (m m' : Machine) (e : TrapEnd) : Prop :=
  sched_inv (msched m') /\ exited_from (msched m) (msched m') (thread_group_id t) /\ only_sched (m_world m) (m_world m') /\
  init_noted (Sched.process_id t) status (w_init (m_world m)) (w_init (m_world m')) /\ m_regions m' = m_regions m /\ m_apic m' = m_apic m /\ m_idt m' = m_idt m /\ m_msrs m' = m_msrs m /\
  match current_slot (msched m') with
  | Some slot => e = Resumed slot /\ m_serial m' = m_serial m
  | None => e = Halted /\ m_serial m' = m_serial m ++ report /\ forall p, (p < MAX_PRIORITIES)%nat -> queue (msched m') p = []
  end.

Section faults.
Context (L : Layout) (tsc : Z) {E : Type} (m : Machine) (c : nat) (t : Thread).
Context (Hinv : sched_inv (msched m)) (Hcur : current_slot (msched m) = Some c) (Ht : threads (msched m) !! c = Some t).
Context (Hlive : state t <> Exited) (Hgroup : thread_group_id t <> 0).

Lemma resume_after_exception_run kind f ec fa status : fault_from_user f = true ->
  exists o w', resume_after_user_exception (E:=E) L tsc kind f ec fa status (m_world m) = (Ok o, w') /\ only_sched (m_world m) w' /\
    let s' := SCHEDULER (w_kernel w') in sched_inv s' /\ exited_from (msched m) s' (thread_group_id t) /\ o = current_slot s' /\
    init_noted (Sched.process_id t) status (w_init (m_world m)) (w_init w') /\
    (o = None -> forall p, (p < MAX_PRIORITIES)%nat -> queue s' p = []).
Proof.
  intros Hu. unfold resume_after_user_exception. rewrite Hu. cbn [negb].
  assert (Hct : current_thread (E:=E) (msched m) = (Ok t, msched m)) by (unfold current_thread, bind, gets; rewrite Hcur; by apply get_thread_run).
  rewrite (bind_run _ _ _ _ _ (sch_run _ _ _ _ Hct)). replace (upd w_kernel _ (m_world m)) with (m_world m) by (unfold msched; by destruct (m_world m) as [[]]).
  match goal with |- context [bind (kprintln tsc ?x) ?k] => destruct (kprintln_run (E:=E) tsc x (m_world m)) as [c1 Hc1]; rewrite (bind_run _ _ _ _ _ Hc1) end.
  set (w1 := set_field w_console c1 (m_world m)). destruct (exit_live_run (E:=E) (msched m) status c t Hinv Hcur Ht Hlive Hgroup) as (rec & s' & Hx & Hinv' & Hex & Hst & _ & Hpid & _).
  assert (Hx1 : request_exit_group (E:=E) status (SCHEDULER (w_kernel w1)) = (Ok (Some rec), s')) by exact Hx.
  rewrite (bind_run _ _ _ _ _ (sch_run _ _ _ _ Hx1)). set (w2 := upd w_kernel _ w1).
  match goal with |- context [note_exit tsc ?l rec] => destruct (note_exit_run (E:=E) tsc l rec w2) as (w3 & Hw3 & Hk3 & Ho3 & Hn3); rewrite (bind_run _ _ _ _ _ Hw3) end.
  assert (Hs3 : SCHEDULER (w_kernel w3) = s') by (by rewrite Hk3).
  assert (Hq : current_slot s' = None -> forall p, (p < MAX_PRIORITIES)%nat -> queue s' p = []).
  { intros Hn. apply bitmap_zero; [by destruct Hinv' as [[? _] _]|]. by eapply exit_idle. }
  assert (Hres : exists o s4, current_context_ptr_for_resume (E:=E) L s' = (Ok o, s4) /\ o = current_slot s' /\ exists v, s4 = set_field Sched.tss_rsp0 v s').
  { unfold current_context_ptr_for_resume, bind, gets. pose proof Hinv' as (_ & -> & _). cbn [negb]. destruct (current_slot s') as [n|] eqn:Hn.
    - destruct (current_thread_some s' n Hinv' Hn) as [u Hu']. destruct (prepare_resume_run (E:=E) L s' n u Hu') as [v ->]. do 2 eexists. split; [done|]. split; [done|]. by exists v.
    - do 2 eexists. split; [done|]. split; [done|]. exists (Sched.tss_rsp0 s'). by destruct s'. }
  destruct Hres as (o & s4 & Hr & Ho & v & Hs4). rewrite <- Hs3 in Hr. rewrite (sch_run _ _ _ _ Hr). do 2 eexists. split; [reflexivity|].
  split; [unfold only_sched in *; cbn [w_kernel w_files w_lcl w_user w_console w_mounts w_paging w_brk w_mmap w_fs_base w_hsched w_clock w_init upd] in *; rewrite Ho3; done|].
  cbn [w_kernel upd SCHEDULER set_field]. subst s4 o. split; [by apply (same_fields_inv s')|]. split; [exact Hex|]. split; [done|]. rewrite Hst, Hpid in Hn3. split; [exact Hn3|]. exact Hq.
Qed.

Lemma user_or_fatal_run kind f ec fa status : fault_from_user f = true ->
  exists e m', user_or_fatal (E:=E) L tsc kind f ec fa status m = (Ok e, m') /\ kills_group t status (report_fatal_exception kind f ec fa) m m' e.
Proof.
  intros Hu. destruct (resume_after_exception_run kind f ec fa status Hu) as (o & w' & Hrun & Ho & Hi & Hex & Hc & Hn & Hq).
  assert (Hon : on_world (resume_after_user_exception (E:=E) L tsc kind f ec fa status) m = (Ok o, set_field m_world w' m)) by (unfold on_world, zoom; by rewrite Hrun).
  unfold user_or_fatal. rewrite (bind_run _ _ _ _ _ Hon). unfold kills_group, msched.
  destruct o as [slot|]; do 2 eexists; (split; [reflexivity|]); cbn [m_world m_regions m_apic m_idt m_msrs m_serial upd set_field]; rewrite <- Hc; auto 20.
Qed.
End faults.

(** No region of the process covers the address: the memory manager declines. *)
Lemma uncovered_declined {E} pid cr3 cr2 ec v i p : vt_ok (v_table v) -> v_table v !! i = Some p -> slot_of pid p -> position (covers cr2) (pv_regions p) = None ->
  handle_page_fault (E:=E) pid cr3 cr2 ec v = (Ok false, v).
Proof.
  intros Hv Hi Hs Hp. unfold handle_page_fault, regions_of. rewrite (bind_run _ _ _ _ _ (get_process_vmm_present _ pid v i p Hv Hi Hs)). unfold bind, gets, lift, unwrap.
  rewrite Hi. cbn [fmap option_fmap option_map]. change (fun r => n_used r && (n_start r <=? cr2) && (cr2 <? n_end r)) with (covers cr2). by rewrite Hp.
Qed.

(** The machine with a region table in which the process [pid] has its slot. *)
Definition slot_found (pid : Z) (m m1 : Machine) (p : ProcessVmm) : Prop :=
  m1 = set_field m_regions (m_regions m1) m /\ exists i, slot_ready pid (m_regions m) (m_regions m1) i /\ m_regions m1 !! i = Some p.

(** The memory manager at an address the process's regions do not cover. *)
Lemma declined_run {E} pid cr3 addr ec m : vt_ok (m_regions m) ->
  (exists m1 p, slot_found pid m m1 p /\ (position (covers addr) (pv_regions p) = None ->
     on_vmm (handle_page_fault pid cr3 addr ec) m = ((Ok false : outcome E bool), m1))) \/
  Forall (fun p => pv_active p = true /\ Vmm.process_id p <> pid) (m_regions m) /\ on_vmm (handle_page_fault pid cr3 addr ec) m = ((Panic : outcome E bool), m).
Proof.
  intros Htable. pose proof (get_process_vmm_run E pid (vmm_of m) Htable) as Hg.
  assert (Hback : forall v, v_frames v = pg_frames (w_paging (m_world m)) -> v_mem v = pg_words (w_paging (m_world m)) -> set_vmm v m = set_field m_regions (v_table v) m).
  { intros [t f w] Hf Hm. cbn in Hf, Hm. subst. by destruct m as [[? ? ? ? ? ? []]]. }
  destruct (get_process_vmm (E:=E) pid (vmm_of m)) as [[i|e| |] v1] eqn:Hrun; [|done| |done].
  - destruct Hg as (Hready & Hf & Hm). pose proof Hready as (_ & p & Hi & _). left. exists (set_field m_regions (v_table v1) m), p.
    split; [split; [by destruct m|]; exists i; by destruct m|]. intros Hout. unfold on_vmm, zoom. rewrite (fault_in_slot _ _ _ _ _ _ _ _ _ Hrun Hi), Hout. by rewrite Hback.
  - destruct Hg as (-> & Hall). right. split; [done|]. unfold on_vmm, zoom, handle_page_fault, bind at 1. rewrite Hrun. by rewrite Hback; [destruct m|..].
Qed.

(** C37: a user program that faults is ended, and the machine goes on while a thread can
    run. For a live current thread [t] of a group: an invalid opcode ends the group with
    status 132, a general protection fault with status 139, and so does a page fault at an
    address that no region of the process covers. Every thread of the group has exited, the
    other threads are as they were but for the one dispatched, the scheduler's invariant
    holds, a restart is scheduled when the first process died, and the handler resumes the
    thread now current; only when no thread is runnable is the fault reported on the serial
    port and the processor halted. Files, memory, the interrupt controller and tables are
    untouched, but a page fault of a process without a slot in the region table first claims
    one, and panics when all slots belong to others. The other exceptions of user
    code, a divide error among them, have no gate of their own and are not covered. *)
Theorem user_fault_kills_group (L : Layout) (tsc cr3 : Z) (m : Machine) (c : nat) (t : Thread) (f : InterruptStackFrame) (ec addr : Z)
    (Hreach : sched_reach L (msched m)) (Hcur : current_slot (msched m) = Some c) (Ht : threads (msched m) !! c = Some t)
    (Hlive : state t <> Exited) (Hgroup : thread_group_id t <> 0) (Huser : fault_from_user f = true) (Htable : vt_ok (m_regions m)) :
  (exists e m', invalid_opcode_handler (E:=unit) L tsc f m = (Ok e, m') /\ kills_group t 132 (report_fatal_exception (lit "invalid opcode") f None None) m m' e) /\
  (exists e m', general_protection_fault_handler (E:=unit) L tsc f ec m = (Ok e, m') /\
    kills_group t 139 (report_fatal_exception (lit "general protection fault") f (Some ec) None) m m' e) /\
  ((exists m1 p, slot_found (Sched.process_id t) m m1 p /\ (position (covers addr) (pv_regions p) = None ->
      exists e m', page_fault_handler (E:=unit) L tsc cr3 f ec addr m = (Ok e, m') /\
        kills_group t 139 (report_fatal_exception (lit "page fault") f (Some ec) (Some addr)) m1 m' e)) \/
   Forall (fun p => pv_active p = true /\ Vmm.process_id p <> Sched.process_id t) (m_regions m) /\ page_fault_handler (E:=unit) L tsc cr3 f ec addr m = (Panic, m)).
Proof.
  assert (Hinv : sched_inv (msched m)) by (by eapply sched_reach_inv). assert (Hrun := user_or_fatal_run L tsc (E:=unit) m c t Hinv Hcur Ht Hlive Hgroup).
  split; [by apply Hrun|]. split; [by apply Hrun|]. unfold page_fault_handler.
  assert (Hpid : on_world (sch current_process_id) m = (Ok (Sched.process_id t) : outcome unit Z, m)).
  { unfold on_world, sch, on_kernel, on_sched, zoom, current_process_id, current_field, bind, gets. fold (msched m). rewrite Hcur, (get_thread_run _ _ _ Ht). unfold ret, msched. by destruct m as [[[]]]. }
  rewrite (bind_run _ _ _ _ _ Hpid). destruct (declined_run (E:=unit) (Sched.process_id t) cr3 addr ec m Htable) as [(m1 & p & Hfound & Hd)|[Hall Hp]].
  - left. exists m1, p. split; [exact Hfound|]. intros Hout. rewrite (bind_run _ _ _ _ _ (Hd Hout)). destruct Hfound as [Hm1 _].
    assert (Hs : msched m1 = msched m) by (rewrite Hm1; by destruct m). apply (user_or_fatal_run L tsc (E:=unit) m1 c t); [by rewrite Hs..|exact Hlive|exact Hgroup|exact Huser].
  - right. split; [exact Hall|]. unfold bind. by rewrite Hp.
Qed.

(** A fault of the kernel itself is never taken for one of a program: a double
    fault at any privilege, and an invalid opcode, a general protection fault or a page
    fault the memory manager declines in kernel mode, put the report of the fault on
    the serial port and halt; no thread is ended and nothing else changes. *)
Theorem kernel_fault_halts (L : Layout) (tsc cr3 pid : Z) (m : Machine) (f : InterruptStackFrame) (ec addr : Z) (Hkernel : fault_from_user f = false)
    (Hpid : current_process_id (E:=unit) (msched m) = (Ok pid, msched m)) (Hdeclined : handle_page_fault (E:=unit) pid cr3 addr ec (vmm_of m) = (Ok false, vmm_of m)) :
  let reported kind ec fa := (Ok Halted : outcome unit TrapEnd, upd m_serial (fun s => s ++ report_fatal_exception (lit kind) f ec fa) m) in
  invalid_opcode_handler L tsc f m = reported "invalid opcode"%string None None /\
  general_protection_fault_handler L tsc f ec m = reported "general protection fault"%string (Some ec) None /\
  page_fault_handler L tsc cr3 f ec addr m = reported "page fault"%string (Some ec) (Some addr) /\
  (forall f', double_fault_handler f' ec m = (Ok Halted : outcome unit TrapEnd, upd m_serial (fun s => s ++ report_fatal_exception (lit "double fault") f' (Some ec) None) m)).
Proof.
  assert (Hw : set_field m_world (m_world m) m = m) by (by destruct m).
  assert (Hon : forall kind e fa st, on_world (resume_after_user_exception (E:=unit) L tsc kind f e fa st) m = (Ok None, m)).
  { intros. unfold on_world, zoom, resume_after_user_exception. rewrite Hkernel. cbn [negb]. unfold ret. by rewrite Hw. }
  assert (Hfault : forall kind e fa st, user_or_fatal (E:=unit) L tsc kind f e fa st m = (Ok Halted, upd m_serial (fun s => s ++ report_fatal_exception kind f e fa) m)).
  { intros. unfold user_or_fatal. by rewrite (bind_run _ _ _ _ _ (Hon _ _ _ _)). }
  split; [apply Hfault|]. split; [apply Hfault|]. split; [|done]. unfold page_fault_handler.
  assert (Hp : on_world (sch current_process_id) m = (Ok pid : outcome unit Z, m)).
  { unfold on_world, zoom. rewrite (sch_run _ _ _ _ Hpid). unfold msched. by destruct m as [[[]]]. }
  rewrite (bind_run _ _ _ _ _ Hp). assert (Hv : on_vmm (handle_page_fault pid cr3 addr ec) m = (Ok false : outcome unit bool, m)).
  { unfold on_vmm, zoom. rewrite Hdeclined. by destruct m as [[? ? ? ? ? ? []]]. }
  rewrite (bind_run _ _ _ _ _ Hv). apply Hfault.
Qed.

(** ** Concrete states *)
Definition fresh_slot (pid : Z) : ProcessVmm := mkProcessVmm pid true (set_field n_used false <$> replicate 128 (mkNative 0 0 0 false)).
Definition demo_regions : list ProcessVmm :=
  alter (fun p => mkProcessVmm (Sched.process_id demo_thread) true (set_field n_used false <$> pv_regions p)) O vmm_table_new.
Definition demo_machine : Machine := mkMachine demo_world demo_regions apic_off (replicate 256 idt_missing) None ∅ [].
Definition fault_frame : InterruptStackFrame := mkStackFrame 0x400000 0x23 0x202 0x7fff0000 0x1b.
Definition kernel_frame : InterruptStackFrame := mkStackFrame 0xffffffff80001000 8 0x202 0xffffffff80100000 0x10.

Lemma demo_regions_ok : vt_ok demo_regions /\ demo_regions !! O = Some (fresh_slot (Sched.process_id demo_thread)).
Proof.
  split; [|reflexivity]. eapply (claim_slot (Sched.process_id demo_thread) vmm_table_new O); [exact vt_new_ok| |reflexivity|reflexivity].
  apply Forall_replicate. intros [H _]. discriminate H.
Qed.

Lemma demo_msched : msched demo_machine = demo_sched.
Proof. unfold msched, demo_machine, demo_sched, demo_world. cbn [m_world w_kernel]. reflexivity. Qed.
Lemma demo_reached : sched_reach demo_layout (msched demo_machine).
Proof. rewrite demo_msched. exact demo_reach. Qed.

Lemma interrupts_initialize_spec_witness : exists m' e, interrupts_initialize (E:=unit) demo_handlers 8 0xffffffff80200000 demo_machine = (Ok tt, m') /\
  m_idt m' !! 14%nat = Some e /\ gate_handler e = 0xffffffff80001500 /\ gate_dpl e = 0.
Proof.
  destruct (interrupts_initialize_spec (E:=unit) demo_handlers 8 0xffffffff80200000 demo_machine) as (m' & Hrun & Hgate & _).
  - unfold demo_machine. cbn [m_idt]. apply length_replicate.
  - repeat constructor; cbn; change U64 with 18446744073709551616; lia.
  - destruct (Hgate 14 0xffffffff80001500) as (e & He & _ & Hh & _ & _ & _ & Hd); [cbn; auto 20|]. exists m', e. split; [exact Hrun|]. split; [exact He|]. split; [exact Hh|exact Hd].
Defined.

Lemma user_fault_kills_group_witness : exists e m', general_protection_fault_handler (E:=unit) demo_layout 0 fault_frame 0 demo_machine = (Ok e, m') /\
  kills_group demo_thread 139 (report_fatal_exception (lit "general protection fault") fault_frame (Some 0) None) demo_machine m' e.
Proof.
  destruct demo_regions_ok as [Hv _]. destruct (user_fault_kills_group demo_layout 0 0x1000 demo_machine 0 demo_thread fault_frame 0 0x123) as (_ & H & _);
    [exact demo_reached|rewrite demo_msched; vm_compute; reflexivity|rewrite demo_msched; vm_compute; reflexivity|vm_compute; discriminate|vm_compute; discriminate|reflexivity|exact Hv|exact H].
Defined.

Lemma kernel_fault_halts_witness : fst (invalid_opcode_handler (E:=unit) demo_layout 0 kernel_frame demo_machine) = Ok Halted.
Proof.
  destruct demo_regions_ok as [Hv Hi].
  destruct (kernel_fault_halts demo_layout 0 0x1000 (Sched.process_id demo_thread) demo_machine kernel_frame 6 0x123) as [H _]; [reflexivity|rewrite demo_msched; vm_compute; reflexivity| |].
  - apply (uncovered_declined (Sched.process_id demo_thread) 0x1000 0x123 6 (vmm_of demo_machine) O (fresh_slot (Sched.process_id demo_thread)) Hv Hi); [split; reflexivity|reflexivity].
  - rewrite H. reflexivity.
Defined.
