(* ===== verification/Idle.v ===== *)
(** * The idle thread: [idle_thread_entry] of [kernel/src/sched.rs]

    When no program can run, the idle thread does: it restarts init when that is due, and
    switches to a thread that became ready. A turn of its loop ends at [hlt], with the pair of
    contexts to switch between if there is one. The poll hook is set by code outside the
    repository and is [None] here. *)
From stdpp Require Import base list numbers option strings gmap.
From Stdlib Require Import ZArith Lia Bool.
From S2P Require Import Prelude Paths Text Machine Frame Vmm Initrd Fat Sched SchedFacts Pseudo Vfs Uaccess Lcl Hsched Paging Apic InitExec InitExecFacts Gdt Trap Syscall SyscallFacts Interrupts InterruptsFacts.

Section idle.
Variables (L : Layout) (tsc cr3 : Z) (hhdm_offset : option Z).
Context {E : Type}.

(** The line on entry. *)
Definition idle_entered : M World E unit :=
  let! ticks := gets (fun w => SCHEDULER_TICKS (w_kernel w)) in
  let! s := sch (sched_stats ticks) in
  kprintln tsc (lit "HXNU: scheduler idle loop entered current=" ++ lit (ss_thread_name s) ++ lit " role=" ++ lit (ss_thread_role s) ++ lit " id=" ++ dec (ss_thread_id s)).

Definition restart_line (r : RestartedInitProcess) : list Z :=
  lit "HXNU: init lifecycle restarted pid=" ++ dec (ri_process_id r) ++ lit " tid=" ++ dec (ri_thread_id r) ++ lit " count=" ++ dec (ri_restart_count r)
    ++ lit " last-status=" ++ dec_i (ri_last_exit_status r).

Definition idle_restart : M World E unit :=
  let! result := on_launch (service_pending_restart L cr3 hhdm_offset) in
  match result with
  | None => ret tt
  | Some (inl restart) => do! kprintln tsc (restart_line restart) in on_kernel sched_yield_switch
  | Some (inr error) => kprintln tsc (lit "HXNU: init lifecycle restart failed reason=" ++ activate_error_str error)
  end.

(** One turn of the loop. *)
Definition idle_turn : M World E (option (nat * nat)) :=
  do! idle_restart in on_kernel (run_idle_cycle L).
End idle.

(** * Facts *)

(** ** A ready thread is switched to *)
Lemma ready_queued s k t : sched_inv s -> threads s !! k = Some t -> state t = Runnable -> k ∈ queue s (priority_of t) /\ (priority_of t < MAX_PRIORITIES)%nat.
Proof.
  intros [[_ (H1 & _)] _] Ht Hs. split; [by apply (H1 k t Ht)|]. unfold priority_of, MAX_PRIORITIES. destruct (Z.ltb_spec 63 (base_priority t)); lia.
Qed.
Lemma ready_switch s k t c u : sched_inv s -> threads s !! k = Some t -> state t = Runnable -> current_slot s = Some c -> threads s !! c = Some u -> state u = Running -> ~ no_switch s.
Proof.
  intros Hinv Ht Hr Hc Hu Hrun [Hall|(p & c' & rest & Hq & Hc')].
  - destruct (ready_queued s k t Hinv Ht Hr) as [Hin Hp]. rewrite (Hall _ Hp) in Hin. by apply elem_of_nil in Hin.
  - assert (c' = c) as -> by congruence. destruct (queue_owner s p c (proj1 Hinv)) as (v & Hv & _ & Hs); [rewrite Hq; by left|]. congruence.
Qed.

Lemma cycle_run {E} L k c n d s : NEED_RESCHEDULE k = true -> context_switch_pair (E:=E) L (SCHEDULER k) = (Ok (Some (c, n, d)), s) ->
  run_idle_cycle (E:=E) L k = (Ok (Some (c, n)), set_field SCHEDULER s (set_field NEED_RESCHEDULE false k)).
Proof.
  intros Hn Hs. unfold run_idle_cycle. unfold bind at 1, gets. unfold bind at 1, modify. rewrite Hn. unfold bind, on_sched, zoom.
  change (SCHEDULER (set_field NEED_RESCHEDULE false k)) with (SCHEDULER k). by rewrite Hs.
Qed.

(** ** Starting init *)

(** A new user thread in the next slot, ready to run; the others as they were. *)
Definition spawned (s s' : Scheduler) (tid : Z) : Prop :=
  exists t, threads s' !! thread_count s = Some t /\ Sched.id t = tid /\ state t = Runnable /\ role t = RUser /\ current_slot s' = current_slot s /\
    forall k, k <> thread_count s -> threads s' !! k = threads s !! k.

Lemma pages_sched {A} (m : M Paging InitExecActivateError A) l a l' : on_pages m l = (Ok a, l') -> ln_sched l' = ln_sched l.
Proof. unfold on_pages, zoom. destruct (m (ln_paging l)) as [[x|e| |] pg]; intros [= _ <-]; done. Qed.

Section restart.
Context (L : Layout) (cr3 : Z) (hhdm_offset : option Z).

Lemma start_sched a argv envp l t l' : sched_inv (ln_sched l) -> start_image L cr3 hhdm_offset a argv envp l = (Ok t, l') ->
  sched_inv (ln_sched l') /\ spawned (ln_sched l) (ln_sched l') (sp_thread_id t).
Proof.
  intros Hinv. unfold start_image. intros (hhdm & l0 & H0 & H)%bind_inv. unfold lift in H0. injection H0 as _ <-.
  apply bind_inv in H as (pml4 & l1 & H1%pages_sched & H). apply bind_inv in H as (u & l2 & H2%pages_sched & H). apply bind_inv in H as (rsp & l3 & H3%pages_sched & H).
  rewrite <- H1, <- H2, <- H3 in *. unfold catch, zoom in H. destruct (create_user_run L (ac_entry_point a) rsp pml4 (ln_sched l3)) as (r & s' & Hr & Hinv' & Hs); [congruence|].
  rewrite Hr in H. destruct r as [sp|e| |]; try done. injection H as <- <-. split; [done|]. destruct Hs as (th & G1 & G2 & -> & G3 & G4 & _ & _ & G5 & G6 & _).
  by exists th.
Qed.

(** The attempt is counted before it is made. *)
Definition counted (i : InitExecState) : InitExecState := upd restart_count (fun n => sat_add U32 n 1) (set_field restart_pending false i).

Lemma on_init_gets {E A} (f : InitExecState -> A) l : on_init (E:=E) (gets f) l = (Ok (f (ln_init l)), l).
Proof. by destruct l. Qed.
Lemma on_init_modify {E} f l : on_init (E:=E) (modify f) l = (Ok tt, upd ln_init f l).
Proof. by destruct l. Qed.

Lemma spawn_sched l p l' : sched_inv (ln_sched l) -> spawn_init_process L cr3 hhdm_offset l = (Ok p, l') ->
  sched_inv (ln_sched l') /\ spawned (ln_sched l) (ln_sched l') (si_thread_id p) /\
  restart_pending (ln_init l') = false /\ restart_count (ln_init l') = restart_count (ln_init l).
Proof.
  intros Hinv. unfold spawn_init_process. rewrite (bind_run _ _ _ _ _ (on_init_gets _ _)).
  intros (a & l0 & H0 & H)%bind_inv. unfold lift in H0. injection H0 as _ <-. apply bind_inv in H as (t & l1 & H1 & H).
  destruct (start_sched _ _ _ _ _ _ Hinv H1) as [Hinv1 Hsp]. pose proof (start_quiet L cr3 hhdm_offset a [INIT_PATH] [] l) as Hq. rewrite H1 in Hq. cbn [snd] in Hq.
  rewrite (bind_run _ _ _ _ _ (on_init_modify _ _)), (bind_run _ _ _ _ _ (on_init_gets _ _)) in H. injection H as <- <-.
  cbn. by rewrite Hq.
Qed.

Lemma service_run {E} l p l' : restart_pending (ln_init l) = true -> spawn_init_process L cr3 hhdm_offset (upd ln_init counted l) = (Ok p, l') ->
  service_pending_restart (E:=E) L cr3 hhdm_offset l =
    (Ok (Some (inl (mkRestarted (si_thread_id p) (si_process_id p) (si_restart_count p) (default 0 (last_exit_status (ln_init l)))))), l').
Proof.
  intros Hd Hs. unfold service_pending_restart. rewrite (bind_run _ _ _ _ _ (on_init_gets _ _)).
  rewrite Hd. cbn [negb]. rewrite (bind_run _ _ _ _ _ (on_init_modify _ _)).
  unfold catch. unfold counted in Hs. by rewrite Hs.
Qed.

(** C28: after init ended, one turn of the idle loop brings it back. When a restart is due and the
    image can be started, a new user thread is queued in the next slot and the turn ends with a
    switch away from the idle thread to the head of the best queue that holds a thread, which
    then runs; when nothing else is ready, that is the new init. The restart is counted, and no
    other is due. *)
Theorem idle_restarts_init {E} (tsc : Z) (w : World) (c : nat) (u : Thread) (p : SpawnedInitProcess) (l : Launch)
    (Hinv : sched_inv (scheduler w)) (Hcur : current_slot (scheduler w) = Some c) (Hu : ths w !! c = Some u) (Hrun : state u = Running)
    (Hdue : restart_pending (w_init w) = true)
    (Hspawn : spawn_init_process L cr3 hhdm_offset (upd ln_init counted (launch_of w)) = (Ok p, l)) :
  exists n w', idle_turn (E:=E) L tsc cr3 hhdm_offset w = (Ok (Some (c, n)), w') /\ sched_inv (scheduler w') /\ current_slot (scheduler w') = Some n /\
    (exists q rest t, queue (ln_sched l) q = n :: rest /\ (forall q', (q' < q)%nat -> queue (ln_sched l) q' = []) /\ ths w' !! n = Some t /\ state t = Running) /\
    spawned (scheduler w) (ln_sched l) (si_thread_id p) /\
    ((forall k t, ths w !! k = Some t -> state t <> Runnable) ->
      n = thread_count (scheduler w) /\ exists t, threads (ln_sched l) !! n = Some t /\ Sched.id t = si_thread_id p /\ role t = RUser) /\
    restart_pending (w_init w') = false /\ restart_count (w_init w') = sat_add U32 (restart_count (w_init w)) 1.
Proof.
  destruct (spawn_sched (upd ln_init counted (launch_of w)) p l) as (Hinv1 & Hsp & Hpend & Hcount); [exact Hinv|exact Hspawn|].
  pose proof Hsp as (t & Ht & Hid & Hready & Hrole & Hslot & Hother). change (ln_sched (upd ln_init counted (launch_of w))) with (scheduler w) in *.
  assert (Hcn : c <> thread_count (scheduler w)).
  { intros ->. destruct Hinv as (_ & _ & _ & _ & _ & Hcomp). assert (state u = Unused) as Hun by (by apply (Hcomp _ _ Hu)). congruence. }
  assert (Hu1 : threads (ln_sched l) !! c = Some u) by (by rewrite Hother).
  assert (Hsw : ~ no_switch (ln_sched l)) by (eapply (ready_switch _ _ t c u); try done; congruence).
  set (r := mkRestarted (si_thread_id p) (si_process_id p) (si_restart_count p) (default 0 (last_exit_status (w_init w)))).
  assert (Hserve : on_launch (E:=E) (service_pending_restart L cr3 hhdm_offset) w = (Ok (Some (inl r)), set_launch l w)).
  { unfold on_launch, zoom. by rewrite (service_run (launch_of w) p l Hdue Hspawn). }
  destruct (kprintln_run (E:=E) tsc (restart_line r) (set_launch l w)) as (con & Hline). set (w1 := set_field w_console con (set_launch l w)) in *.
  assert (Hs1 : SCHEDULER (w_kernel w1) = ln_sched l) by done.
  destruct (next_switch_run (E:=E) (ln_sched l) Hinv1) as ([n0|] & Hnext & Hn0); [|contradiction].
  destruct (switch_run (E:=E) L (ln_sched l) Hinv1) as ([[[c' n] d]|] & s2 & Hswitch & Hinv2 & Hspec).
  2:{ destruct Hspec as [_ [Hnone|Hno]]; [congruence|contradiction]. }
  destruct Hspec as (Hc' & Hne & q & rest & v & Hq & Hbest & Hcur2 & Hv & Hvr & _). assert (c' = c) as -> by congruence.
  assert (Hyield : on_kernel (E:=E) sched_yield_switch w1 = (Ok tt, upd w_kernel (set_field NEED_RESCHEDULE true) w1)).
  { unfold on_kernel, zoom, sched_yield_switch. unfold bind at 1. unfold on_sched at 1, zoom. rewrite Hs1, Hnext. cbn [bool_decide]. rewrite bool_decide_true by done. by destruct w as [[]], l. }
  exists n, (upd w_kernel (fun k => set_field SCHEDULER s2 (set_field NEED_RESCHEDULE false k)) w1).
  split; [|split; [done|split; [done|split; [by exists q, rest, v|split; [done|split; [|done]]]]]].
  - unfold idle_turn, idle_restart. rewrite (bind_run _ _ _ tt (upd w_kernel (set_field NEED_RESCHEDULE true) w1)).
    2:{ rewrite (bind_run _ _ _ _ _ Hserve), (bind_run _ _ _ _ _ Hline). exact Hyield. }
    unfold on_kernel, zoom. rewrite (cycle_run L _ c n d s2); [done|done|exact Hswitch].
  - intros Hnone. assert (Hn : n = thread_count (scheduler w)).
    { destruct (queue_owner (ln_sched l) q n (proj1 Hinv1)) as (x & Hx & _ & Hxs); [rewrite Hq; by left|]. destruct (decide (n = thread_count (scheduler w))); [done|].
      rewrite Hother in Hx by done. by destruct (Hnone n x Hx). }
    split; [done|]. rewrite Hn. by exists t.
Qed.
End restart.

(** ** Init exits and is restarted *)
Lemma scheduler_set_launch l w : scheduler (set_launch l w) = ln_sched l.
Proof. done. Qed.
Lemma launch_set_launch l w : launch_of (set_launch l w) = l.
Proof. by destruct l. Qed.

Definition idle_world : World := set_launch demo_exited demo_world.
#[local] Notation restarting := (spawn_init_process demo_layout 0x1ff000 (Some stack_hhdm) (upd ln_init counted demo_exited)).

Lemma idle_world_inv : sched_inv (ln_sched demo_exited).
Proof.
  assert (Hs : ln_sched demo_exited = ln_sched demo_started) by (unfold demo_exited; generalize demo_started; intros l; unfold on_init, zoom; by destruct (note_init_exit 3 3 1 (ln_init l))).
  rewrite Hs. assert (Hok : exists p, fst (spawn_init_process demo_layout 0x1ff000 (Some stack_hhdm) demo_launch) = Ok p) by (vm_compute; by eexists).
  destruct Hok as [p Hp]. eapply (spawn_sched demo_layout 0x1ff000 (Some stack_hhdm) demo_launch p); [apply (sched_reach_inv demo_layout), demo_reach|].
  unfold demo_started. by apply pair_of_fst.
Qed.

Lemma idle_restarts_init_witness : exists n w', idle_turn (E:=unit) demo_layout 0 0x1ff000 (Some stack_hhdm) idle_world = (Ok (Some (0%nat, n)), w') /\
  sched_inv (scheduler w') /\ restart_count (w_init w') = 1.
Proof.
  assert (Hok : exists p, fst restarting = Ok p) by (vm_compute; by eexists). destruct Hok as [p Hp].
  assert (Hth : exists u, threads (ln_sched demo_exited) !! 0%nat = Some u /\ state u = Running) by (eexists; split; vm_compute; reflexivity). destruct Hth as (u & Hu & Hrun).
  destruct (idle_restarts_init (E:=unit) demo_layout 0x1ff000 (Some stack_hhdm) 0 idle_world 0 u p (snd restarting)) as (n & w' & H1 & H2 & _ & _ & _ & _ & _ & H3).
  - unfold idle_world. rewrite scheduler_set_launch. exact idle_world_inv.
  - unfold idle_world. rewrite scheduler_set_launch. vm_compute. reflexivity.
  - exact Hu.
  - exact Hrun.
  - vm_compute. reflexivity.
  - unfold idle_world. rewrite launch_set_launch. by apply pair_of_fst.
  - exists n, w'. split; [exact H1|]. split; [exact H2|]. rewrite H3. vm_compute. reflexivity.
Defined.
