(* ===== verification/Probe.v ===== *)
(** * The system call probes of the boot: [kernel/src/syscall.rs] and
      [kernel/src/arch/x86_64/interrupts.rs]

    At the end of the boot the kernel calls itself: three probes go through [dispatch] with
    each set of call numbers, and one goes through the interrupt gate. Their buffers are
    variables of the kernel, so the memory a call reaches is kernel memory: [Where] says at
    which addresses the compiler put the texts and the local variables.

    The theorems: every probe ends, reports what the calls are specified to return, and
    leaves the open files consistent. *)
From stdpp Require Import base list numbers option strings gmap.
From Stdlib Require Import ZArith Lia Bool.
From S2P Require Import Prelude Paths Text Machine Frame Vmm Initrd Fat Sched SchedFacts Pseudo Vfs Uaccess Lcl Hsched Paging Apic InitExec Gdt Trap Syscall SyscallFacts Interrupts.

Record LinuxBootstrapProbe : Type := mkLinuxProbe {
  lp_write : Z; lp_openat : Z; lp_read : Z; lp_close : Z; lp_getpid : Z; lp_getppid : Z; lp_gettid : Z; lp_sched_yield : Z; lp_clock_gettime : Z;
  lp_clock_seconds : Z; lp_clock_nanoseconds : Z; lp_uname : Z; lp_exit_captured : bool; lp_exit_status : Z; lp_machine_bytes : list Z; lp_machine_len : Z }.
Record GhostBootstrapProbe : Type := mkGhostProbe {
  gp_write : Z; gp_open : Z; gp_read : Z; gp_close : Z; gp_getpid : Z; gp_gettid : Z; gp_yield : Z; gp_uptime : Z; gp_uname : Z;
  gp_exit_captured : bool; gp_exit_status : Z; gp_machine_bytes : list Z; gp_machine_len : Z }.
Record HxnuBootstrapProbe : Type := mkHxnuProbe {
  hp_write : Z; hp_open : Z; hp_read : Z; hp_close : Z; hp_process_self : Z; hp_thread_self : Z; hp_sched_yield : Z; hp_uptime : Z; hp_abi_version : Z;
  hp_exit_captured : bool; hp_exit_status : Z }.

Definition exit_status (o : SyscallOutcome) : bool * Z :=
  match action o with ExitGroup status => (true, status) | YieldThread => (false, 0) | Continue => (false, 0) end.

(** [while length < output.len() && length < field.len() { .. }] *)
Fixpoint copy_prefix (output field : list Z) (length_ : Z) : list Z * Z :=
  match output, field with
  | o :: os, byte :: fs =>
      if byte =? 0 then (output, length_) else
      let '(out, n) := copy_prefix os fs (length_ + 1) in (byte :: out, n)
  | _, _ => (output, length_)
  end.
Definition copy_c_field_prefix (output field : list Z) : list Z * Z := copy_prefix output field 0.
Definition machine_str {E} (machine_bytes : list Z) (machine_len : Z) : outcome E (list Z) :=
  let? bytes := slice machine_bytes 0 machine_len in Ok (if is_utf8 bytes then bytes else lit "<invalid>").

(** Where the texts and the local variables lie. *)
Record Where : Type := mkWhere { at_text : Z; at_path : Z; at_buffer : Z; at_timespec : Z; at_utsname : Z }.

Definition OPEN_PATH : list Z := lit "/proc/version".
Definition LINUX_WRITE_SMOKE : list Z := lit "HXNU: linux syscall write() compatibility smoke" ++ [10].
Definition GHOST_WRITE_SMOKE : list Z := lit "HXNU: ghost syscall write() compatibility smoke" ++ [10].
Definition HXNU_WRITE_SMOKE : list Z := lit "HXNU: native syscall log_write() bootstrap smoke" ++ [10].
Definition LINUX_CLOCK_MONOTONIC : Z := 1.
Definition UTSNAME_BYTES : nat := 6 * 65.

Section probes.
Variables (L : Layout) (tsc cr3 : Z) (hhdm_offset : option Z).
Context `{B : Block} {E : Type}.

Definition call (abi : SyscallAbi) (number : Z) (args : list Z) : M World E Z :=
  let! o := dispatch L tsc cr3 hhdm_offset abi number args in ret (value o).
(** [let mut x = ..]: the bytes of a local variable. *)
Definition place (ptr : Z) (bytes : list Z) : M World E unit := modify (upd w_user (fun m => store_bytes m ptr bytes)).
Definition variable (ptr : Z) (n : nat) : M World E (list Z) :=
  let! m := gets w_user in lift (unwrap (load_bytes m ptr n)).

Definition zeros : list Z := [0; 0; 0; 0; 0; 0].

(** The buffer, and the two calls that follow an [open] that succeeded. *)
Definition read_and_close (invoke : Z -> list Z -> M World E Z) (sys_read sys_close opened buffer : Z) (size : nat) : M World E (Z * Z) :=
  do! place buffer (replicate size 0) in
  if 0 <=? opened then
    let fd := cast U64 opened in
    let! read_result := invoke sys_read [fd; buffer; Z.of_nat size; 0; 0; 0] in
    let! close_result := invoke sys_close [fd; 0; 0; 0; 0; 0] in
    ret (read_result, close_result)
  else ret (- EBADF, - EBADF).

Definition run_linux_bootstrap_probe (p : Where) : M World E LinuxBootstrapProbe :=
  let abi := LinuxBootstrap in
  let! write_result := call abi LINUX_SYS_WRITE [STDOUT_FD; at_text p; len LINUX_WRITE_SMOKE; 0; 0; 0] in
  let! openat_result := call abi LINUX_SYS_OPENAT [cast U64 AT_FDCWD; at_path p; 0; 0; 0; 0] in
  let! rc := read_and_close (call abi) LINUX_SYS_READ LINUX_SYS_CLOSE openat_result (at_buffer p) 64 in
  let! getpid_result := call abi LINUX_SYS_GETPID zeros in
  let! getppid_result := call abi LINUX_SYS_GETPPID zeros in
  let! gettid_result := call abi LINUX_SYS_GETTID zeros in
  let! sched_yield_result := call abi LINUX_SYS_SCHED_YIELD zeros in
  do! place (at_timespec p) (i64_bytes 0 ++ i64_bytes 0) in
  let! clock_gettime_result := call abi LINUX_SYS_CLOCK_GETTIME [LINUX_CLOCK_MONOTONIC; at_timespec p; 0; 0; 0; 0] in
  do! place (at_utsname p) (replicate UTSNAME_BYTES 0) in
  let! uname_result := call abi LINUX_SYS_UNAME [at_utsname p; 0; 0; 0; 0; 0] in
  let! exit_group := dispatch L tsc cr3 hhdm_offset abi LINUX_SYS_EXIT_GROUP [17; 0; 0; 0; 0; 0] in
  let '(captured, status) := exit_status exit_group in
  let! utsname := variable (at_utsname p) UTSNAME_BYTES in
  let '(machine_bytes, machine_len) := copy_c_field_prefix (replicate 16 0) (take 65 (drop (4 * 65) utsname)) in
  let! timespec := variable (at_timespec p) 16 in
  ret (mkLinuxProbe write_result openat_result (fst rc) (snd rc) getpid_result getppid_result gettid_result sched_yield_result clock_gettime_result
    (as_i64 (le_val (take 8 timespec))) (as_i64 (le_val (drop 8 timespec))) uname_result captured status machine_bytes machine_len).

Definition run_ghost_bootstrap_probe (p : Where) : M World E GhostBootstrapProbe :=
  let abi := GhostBootstrap in
  let! write_result := call abi GHOST_SYS_WRITE [STDERR_FD; at_text p; len GHOST_WRITE_SMOKE; 0; 0; 0] in
  let! open_result := call abi GHOST_SYS_OPEN [at_path p; 0; 0; 0; 0; 0] in
  let! rc := read_and_close (call abi) GHOST_SYS_READ GHOST_SYS_CLOSE open_result (at_buffer p) 64 in
  let! getpid_result := call abi GHOST_SYS_GETPID zeros in
  let! gettid_result := call abi GHOST_SYS_GETTID zeros in
  let! yield_result := call abi GHOST_SYS_YIELD zeros in
  let! uptime_result := call abi GHOST_SYS_UPTIME_NSEC zeros in
  do! place (at_utsname p) (replicate UTSNAME_BYTES 0) in
  let! uname_result := call abi GHOST_SYS_UNAME [at_utsname p; 0; 0; 0; 0; 0] in
  let! exit_group := dispatch L tsc cr3 hhdm_offset abi GHOST_SYS_EXIT_GROUP [19; 0; 0; 0; 0; 0] in
  let '(captured, status) := exit_status exit_group in
  let! utsname := variable (at_utsname p) UTSNAME_BYTES in
  let '(machine_bytes, machine_len) := copy_c_field_prefix (replicate 16 0) (take 65 (drop (4 * 65) utsname)) in
  ret (mkGhostProbe write_result open_result (fst rc) (snd rc) getpid_result gettid_result yield_result uptime_result uname_result captured status
    machine_bytes machine_len).

Definition run_hxnu_bootstrap_probe (p : Where) : M World E HxnuBootstrapProbe :=
  let abi := HxnuNativeBootstrap in
  let! write_result := call abi HXNU_SYS_LOG_WRITE [at_text p; len HXNU_WRITE_SMOKE; 0; 0; 0; 0] in
  let! open_result := call abi HXNU_SYS_OPEN [at_path p; 0; 0; 0; 0; 0] in
  let! rc := read_and_close (call abi) HXNU_SYS_READ HXNU_SYS_CLOSE open_result (at_buffer p) 64 in
  let! process_self_result := call abi HXNU_SYS_PROCESS_SELF zeros in
  let! thread_self_result := call abi HXNU_SYS_THREAD_SELF zeros in
  let! sched_yield_result := call abi HXNU_SYS_SCHED_YIELD zeros in
  let! uptime_result := call abi HXNU_SYS_UPTIME_NSEC zeros in
  let! abi_version_result := call abi HXNU_SYS_ABI_VERSION zeros in
  let! exit_group := dispatch L tsc cr3 hhdm_offset abi HXNU_SYS_EXIT_GROUP [23; 0; 0; 0; 0; 0] in
  let '(captured, status) := exit_status exit_group in
  ret (mkHxnuProbe write_result open_result (fst rc) (snd rc) process_self_result thread_self_result sched_yield_result uptime_result abi_version_result
    captured status).

(** ** Through the gate *)
Record SyscallSelfTest : Type := mkSelfTest {
  st_linux_write : Z; st_linux_openat : Z; st_linux_read : Z; st_linux_close : Z; st_linux_getpid : Z; st_ghost_open : Z; st_ghost_read : Z; st_ghost_close : Z;
  st_ghost_gettid : Z; st_hxnu_open : Z; st_hxnu_read : Z; st_hxnu_close : Z; st_hxnu_abi_version : Z }.

Definition GATE_SMOKE : list Z := lit "HXNU: int 0x80 linux syscall self-test" ++ [10].

(** [int 0x80]: the frame the entry code saves holds the registers of the call; the others
    and the words the processor pushes are those of [frame], pushed at [frame_ptr]. *)
Definition invoke_frame (frame : list Z) (abi : SyscallAbi) (number : Z) (args : list Z) : list Z :=
  <[0%nat := number]> (<[11%nat := syscall_abi_selector abi]> (<[6%nat := arg args 0]> (<[5%nat := arg args 1]> (<[4%nat := arg args 2]>
    (<[9%nat := arg args 3]> (<[7%nat := arg args 4]> (<[8%nat := arg args 5]> frame))))))).
Definition invoke_syscall (frame_ptr : Z) (frame : list Z) (abi : SyscallAbi) (number : Z) (args : list Z) : M World E Z :=
  let! r := handle_syscall_frame L tsc cr3 hhdm_offset frame_ptr (invoke_frame frame abi number args) in
  match fst r with
  | Returned rax => ret (as_i64 rax)
  | _ => diverge
  end.

(** [b1], [b2], [b3]: the three buffers. *)
Definition run_syscall_self_test (frame_ptr : Z) (frame : list Z) (text path b1 b2 b3 : Z) : M World E SyscallSelfTest :=
  let invoke := invoke_syscall frame_ptr frame in
  let! linux_write_result := invoke LinuxBootstrap LINUX_SYS_WRITE [1; text; len GATE_SMOKE; 0; 0; 0] in
  let! linux_openat_result := invoke LinuxBootstrap LINUX_SYS_OPENAT [cast U64 (-100); path; 0; 0; 0; 0] in
  let! linux := read_and_close (invoke LinuxBootstrap) LINUX_SYS_READ LINUX_SYS_CLOSE linux_openat_result b1 48 in
  let! linux_getpid_result := invoke LinuxBootstrap LINUX_SYS_GETPID zeros in
  let! ghost_open_result := invoke GhostBootstrap GHOST_SYS_OPEN [path; 0; 0; 0; 0; 0] in
  let! ghost := read_and_close (invoke GhostBootstrap) GHOST_SYS_READ GHOST_SYS_CLOSE ghost_open_result b2 48 in
  let! ghost_gettid_result := invoke GhostBootstrap GHOST_SYS_GETTID zeros in
  let! hxnu_open_result := invoke HxnuNativeBootstrap HXNU_SYS_OPEN [path; 0; 0; 0; 0; 0] in
  let! hxnu := read_and_close (invoke HxnuNativeBootstrap) HXNU_SYS_READ HXNU_SYS_CLOSE hxnu_open_result b3 48 in
  let! hxnu_abi_version_result := invoke HxnuNativeBootstrap HXNU_SYS_ABI_VERSION zeros in
  ret (mkSelfTest linux_write_result linux_openat_result (fst linux) (snd linux) linux_getpid_result ghost_open_result (fst ghost) (snd ghost)
    ghost_gettid_result hxnu_open_result (fst hxnu) (snd hxnu) hxnu_abi_version_result).
End probes.

(** * Facts *)

(** ** What the calls on files do not touch *)
Definition ids (t : Thread) : Z * Z * Z := (Sched.id t, Sched.process_id t, parent_process_id t).

Record stable (w w' : World) : Prop := {
  sb_mounts : w_mounts w' = w_mounts w;
  sb_clock : w_clock w' = w_clock w;
  sb_console : w_console w' = w_console w;
  sb_slot : current_slot (scheduler w') = current_slot (scheduler w);
  sb_ids : ids <$> ths w' = ids <$> ths w;
  sb_others k : current_slot (scheduler w) <> Some k -> fd_table <$> ths w' !! k = fd_table <$> ths w !! k }.

Lemma stable_refl w : stable w w.
Proof. by split. Qed.
Lemma stable_trans w1 w2 w3 : stable w1 w2 -> stable w2 w3 -> stable w1 w3.
Proof.
  intros [A1 A2 A3 A4 A5 A6] [B1 B2 B3 B4 B5 B6]. split; try congruence. intros k Hk. rewrite B6 by congruence. by apply A6.
Qed.

(** A run that keeps to this, whatever its outcome. *)
Definition keeps {E A} (m : M World E A) : Prop := forall w, stable w (snd (m w)).

Create HintDb keeps.

Lemma keeps_ret {E A} (a : A) : keeps (ret (E:=E) a).
Proof. intros w. apply stable_refl. Qed.
Lemma keeps_throw {E A} (e : E) : keeps (throw (A:=A) e).
Proof. intros w. apply stable_refl. Qed.
Lemma keeps_panic {E A} : keeps (panic (E:=E) (A:=A)).
Proof. intros w. apply stable_refl. Qed.
Lemma keeps_lift {E A} (o : outcome E A) : keeps (lift o).
Proof. intros w. apply stable_refl. Qed.
Lemma keeps_gets {E A} (f : World -> A) : keeps (gets (E:=E) f).
Proof. intros w. apply stable_refl. Qed.
Lemma keeps_bind {E A C} (m : M World E A) (k : A -> M World E C) : keeps m -> (forall a, keeps (k a)) -> keeps (bind m k).
Proof.
  intros Hm Hk w. specialize (Hm w). unfold bind. destruct (m w) as [[a|e| |] w1]; [|done..]. eapply stable_trans; [exact Hm|apply Hk].
Qed.
Lemma keeps_catch {E F A C} (m : M World E A) (k : A + E -> M World F C) : keeps m -> (forall r, keeps (k r)) -> keeps (catch m k).
Proof.
  intros Hm Hk w. specialize (Hm w). unfold catch. destruct (m w) as [[a|e| |] w1]; [| |done..]; (eapply stable_trans; [exact Hm|apply Hk]).
Qed.
Lemma keeps_modify {E} f : (forall w, stable w (f w)) -> keeps (modify (E:=E) f).
Proof. intros Hf w. apply Hf. Qed.
Lemma keeps_memory {A F E} (m : M (gmap Z Z) F A) (k : A + F -> M World E A) : (forall r, keeps (k r)) -> keeps (catch (zoom w_user (set_field w_user) m) k).
Proof. intros Hk. apply keeps_catch; [|done]. intros w. unfold zoom. destruct (m (w_user w)) as [o t]. by split. Qed.
#[local] Hint Resolve keeps_ret keeps_throw keeps_panic keeps_lift keeps_gets keeps_bind keeps_catch : keeps.

(** Reading a part of the scheduler. *)
Lemma keeps_sch {E A} (m : M Scheduler E A) : (forall s, snd (m s) = s) -> keeps (sch m).
Proof.
  intros Hm w. unfold sch, on_kernel, on_sched, zoom. specialize (Hm (SCHEDULER (w_kernel w))). destruct (m (SCHEDULER (w_kernel w))) as [o s]. cbn in Hm. subst s.
  assert (Hw : set_field w_kernel (set_field SCHEDULER (SCHEDULER (w_kernel w)) (w_kernel w)) w = w) by (by destruct w as [[]]). rewrite Hw. apply stable_refl.
Qed.
Lemma get_fd_table_state {E} s : snd (get_fd_table (E:=E) s) = s.
Proof. unfold get_fd_table, bind, gets, get_thread, at_, bind. destruct (current_slot s) as [c|]; [|done]. unfold gets. by destruct (threads s !! c). Qed.
Lemma keeps_table {E} : keeps (process_fd_table (E:=E)).
Proof. apply keeps_sch, get_fd_table_state. Qed.
Lemma keeps_set_table {E} t : keeps (set_process_fd_table (E:=E) t).
Proof.
  intros w. unfold set_process_fd_table, sch, on_kernel, on_sched, zoom, set_fd_table. unfold bind at 1, gets at 1. fold (scheduler w).
  assert (Hw : forall s, s = scheduler w -> set_field w_kernel (set_field SCHEDULER s (w_kernel w)) w = w) by (intros s ->; by destruct w as [[]]).
  destruct (current_slot (scheduler w)) as [c|] eqn:Hc; [|cbv beta iota delta [ret snd]; rewrite Hw by done; apply stable_refl].
  unfold set_thread, bind, get_thread, gets, at_, bind, modify. fold (ths w). destruct (ths w !! c) as [th|] eqn:Hth; cbv beta iota delta [ret panic snd]; [|rewrite Hw by done; apply stable_refl].
  split; try done; cbn.
  - change (ids <$> alter (set_field fd_table t) c (ths w) = ids <$> ths w). apply list_eq. intros k. rewrite !list_lookup_fmap. destruct (decide (k = c)) as [->|Hk]; [by rewrite list_lookup_alter_eq, Hth|by rewrite list_lookup_alter_ne].
  - intros k Hk. change (fd_table <$> alter (set_field fd_table t) c (ths w) !! k = fd_table <$> ths w !! k). rewrite list_lookup_alter_ne by congruence. done.
Qed.
#[local] Hint Resolve keeps_table keeps_set_table : keeps.
(** One case of a handler after the other. *)
Ltac keeping := repeat (first [solve [auto with keeps]|apply keeps_bind; [|intros ?]|case_match|apply keeps_catch; [|intros ?]]).

Lemma keeps_get_file {E} i : keeps (get_file (E:=E) i).
Proof. unfold get_file. keeping. Qed.
#[local] Hint Resolve keeps_get_file : keeps.
Lemma keeps_set_file {E} i f : keeps (set_file (E:=E) i f).
Proof. unfold set_file. apply keeps_bind; [auto with keeps|]. intros _. apply keeps_modify. intros w. by split. Qed.
Lemma keeps_copyin ptr n : keeps (copyin_bytes ptr n).
Proof. apply keeps_memory. intros r. keeping. Qed.
Lemma keeps_copyout ptr bs : keeps (copyout_bytes ptr bs).
Proof. apply keeps_memory. intros r. keeping. Qed.
#[local] Hint Resolve keeps_set_file keeps_copyin keeps_copyout : keeps.
Lemma keeps_c_string ptr n : keeps (copyin_c_string ptr n).
Proof.
  unfold copyin_c_string. generalize (@nil Z), 0. induction (Z.to_nat n) as [|k IH]; intros buf i; cbn [copyin_from]; keeping.
Qed.
#[local] Hint Resolve keeps_c_string : keeps.
Lemma keeps_fd_file fd : keeps (fd_file fd).
Proof. unfold fd_file, fd_entry. keeping. Qed.
Lemma keeps_release {E} i : keeps (release_file (E:=E) i).
Proof. unfold release_file. keeping. Qed.
#[local] Hint Resolve keeps_fd_file keeps_release : keeps.

Lemma keeps_open {E} dirfd ptr flags : keeps (sys_open (E:=E) dirfd ptr flags).
Proof. unfold sys_open, finish, open_path_at, alloc_open_file. keeping. Qed.
Lemma keeps_read {E} args : keeps (read_from_fd (E:=E) args).
Proof. unfold read_from_fd, finish, parse_fd, read_open_file, try_i64. keeping. Qed.
Lemma keeps_close {E} args : keeps (close_fd (E:=E) args).
Proof. unfold close_fd, finish, parse_fd, close_open_file, fd_entry. keeping. Qed.
Lemma keeps_purge {E} : keeps (purge_open_files_for_process (E:=E)).
Proof.
  unfold purge_open_files_for_process. apply keeps_bind; [auto with keeps|]. intros t. apply keeps_bind; [|auto with keeps].
  revert t. induction (seq 3 (MAX_PROCESS_FDS - 3)) as [|k l IH]; intros t; cbn [purge_from]; unfold fd_entry; keeping.
Qed.

(** ** The files that are in use follow from the tables *)
Lemma total_refs_tables l l' i : fd_table <$> l' = fd_table <$> l -> total_refs l' i = total_refs l i.
Proof.
  revert l'. induction l as [|t l IH]; intros [|t' l'] H; cbn in H; try done. injection H as H1 H2. unfold total_refs in *. rewrite !zsum_cons, H1, (IH l' H2). done.
Qed.
Lemma total_refs_own w c i : files_ok w -> current_slot (scheduler w) = Some c -> total_refs (with_table c (table_of w) (ths w)) i = total_refs (ths w) i.
Proof.
  intros HF Hc. destruct (fi_current _ _ HF) as (c' & th & Hc' & Hth). rewrite Hc in Hc'. injection Hc' as <-. rewrite (total_with_table _ _ _ _ _ Hth).
  unfold table_of. rewrite Hc, Hth. unfold from_option. lia.
Qed.
Lemma same_tables_files w w' : files_ok w -> files_ok w' -> current_slot (scheduler w') = current_slot (scheduler w) ->
  (forall k, fd_table <$> ths w' !! k = fd_table <$> ths w !! k) -> is_used <$> w_files w' = is_used <$> w_files w.
Proof.
  intros HF HF' Hslot Htab. destruct (fi_current _ _ HF) as (c & th & Hc & Hth).
  assert (Hrefs : forall i, total_refs (with_table c (table_of w') (ths w')) i = total_refs (with_table c (table_of w) (ths w)) i).
  { intros i. rewrite (total_refs_own w' c i HF') by congruence. rewrite (total_refs_own w c i HF Hc). apply total_refs_tables, list_eq. intros k. rewrite !list_lookup_fmap. apply Htab. }
  apply list_eq. intros i. rewrite !list_lookup_fmap.
  destruct (w_files w !! i) as [f|] eqn:Hf, (w_files w' !! i) as [f'|] eqn:Hf'; cbn; [| | |done].
  - destruct (fi_refs _ _ HF c i f Hc Hf) as [R1 R2]. destruct (fi_refs _ _ HF' c i f' ltac:(congruence) Hf') as [R1' R2']. rewrite Hrefs in R1'.
    destruct (is_used f), (is_used f'); try done; [specialize (R2 eq_refl)|specialize (R2' eq_refl)]; cbv iota in R1, R1'; lia.
  - apply lookup_lt_Some in Hf. apply lookup_ge_None in Hf'. rewrite (fi_files _ _ HF) in Hf. rewrite (fi_files _ _ HF') in Hf'. lia.
  - apply lookup_lt_Some in Hf'. apply lookup_ge_None in Hf. rewrite (fi_files _ _ HF') in Hf'. rewrite (fi_files _ _ HF) in Hf. lia.
Qed.

Lemma free_file_used fs fs' from : is_used <$> fs' = is_used <$> fs -> free_file from fs' = free_file from fs.
Proof.
  intros H. unfold free_file. f_equal. assert (Hd : is_used <$> drop from fs' = is_used <$> drop from fs) by (rewrite !fmap_drop; congruence).
  revert Hd. generalize (drop from fs), (drop from fs'). clear. intros l. induction l as [|f l IH]; intros [|f' l'] H; cbn in H; try done.
  injection H as H1 H2. cbn. rewrite H1. by rewrite (IH l' H2).
Qed.

(** The table of the current thread is the one entry [stable] leaves open. *)
Lemma stable_tables w w' : files_ok w -> files_ok w' -> stable w w' -> table_of w' = table_of w -> forall k, fd_table <$> ths w' !! k = fd_table <$> ths w !! k.
Proof.
  intros HF HF' [_ _ _ Hs _ Ho] Ht k. destruct (fi_current _ _ HF) as (c & th & Hc & Hth). destruct (fi_current _ _ HF') as (c' & th' & Hc' & Hth').
  destruct (decide (k = c)) as [->|Hk]; [|apply Ho; congruence]. assert (c' = c) as -> by congruence. unfold table_of in Ht. rewrite Hc, Hc', Hth, Hth' in Ht. cbn in Ht.
  rewrite Hth, Hth'. change (Some (fd_table th') = Some (fd_table th)). by rewrite Ht.
Qed.

Definition in_i64 (v : Z) : Prop := - 2 ^ 63 <= v < 2 ^ 63.

(** ** What an open, a read and a close of the probed file return *)
Definition file_results (w : World) (size : Z) : Z * (Z * Z) :=
  match vfs_lookup (w_mounts w) OPEN_PATH with
  | None => (- ENOENT, (- EBADF, - EBADF))
  | Some node =>
      match vfs_read (w_mounts w) (n_path node) with
      | None => (- EIO, (- EBADF, - EBADF))
      | Some text =>
          match free_fd (table_of w), free_file 0 (w_files w) with
          | Some fd, Some _ => (fd, (Z.min size (Z.min CONTENT_BYTES (len text)), 0))
          | _, _ => (- EMFILE, (- EBADF, - EBADF))
          end
      end
  end.

(** A world in which the same calls return the same. *)
Lemma file_results_same w w' size : files_ok w -> files_ok w' -> stable w w' -> table_of w' = table_of w -> file_results w' size = file_results w size.
Proof.
  intros HF HF' Hs Ht. unfold file_results. rewrite (sb_mounts _ _ Hs), Ht. destruct (vfs_lookup (w_mounts w) OPEN_PATH) as [node|]; [|done]. destruct (vfs_read _ _); [|done].
  rewrite (free_file_used (w_files w) (w_files w')); [done|]. apply same_tables_files; [done|done|apply (sb_slot _ _ Hs)|]. by apply stable_tables.
Qed.

(** The descriptor [k] is open on a file that holds [text] and was not read yet. *)
Definition open_at_start (w w1 : World) (k : nat) (text : list Z) : Prop :=
  (3 <= k < MAX_PROCESS_FDS)%nat /\ table_of w !! k = Some None /\ exists i f, table_of w1 = <[k := Some (Z.of_nat i)]> (table_of w) /\
    w_files w1 !! i = Some f /\ SyscallFacts.holds f text /\ offset f = 0.

Lemma alloc_needs_file w path data : files_ok w -> free_file 0 (w_files w) = None -> exists e, alloc_open_file path data w = (Err e, w).
Proof.
  intros HF Hn. unfold alloc_open_file. rewrite (bind_run _ _ _ _ _ (table_run w _ HF)). unfold bind at 1, lift at 1.
  destruct (free_fd (table_of w)); cbn [ok_or]; [|by eexists]. unfold bind at 1, gets, bind at 1, lift at 1. rewrite Hn. by eexists.
Qed.

Lemma open_probe w path size : files_ok w -> user_string (w_user w) path OPEN_PATH ->
  exists w1, sys_open (E:=unit) AT_FDCWD path 0 w = (Ok (success (fst (file_results w size))), w1) /\ files_ok w1 /\ w_user w1 = w_user w /\
    ((in_i64 (fst (file_results w size)) /\ fst (file_results w size) < 0 /\ snd (file_results w size) = (- EBADF, - EBADF) /\ w1 = w) \/
     exists k text, fst (file_results w size) = Z.of_nat k /\ snd (file_results w size) = (Z.min size (len text), 0) /\ open_at_start w w1 k text).
Proof.
  intros HF Hs. unfold file_results.
  assert (Hopen : open_path_at AT_FDCWD path 0 w =
    match vfs_lookup (w_mounts w) OPEN_PATH with
    | None => (Err ENOENT, w)
    | Some node => match vfs_read (w_mounts w) (n_path node) with None => (Err EIO, w) | Some text => alloc_open_file (n_path node) text w end
    end).
  { unfold open_path_at. change (negb (is_read_only_open 0)) with false. cbv iota. rewrite (bind_run _ _ _ _ _ (copyin_c_string_run w path OPEN_PATH MAX_PATH_BYTES Hs eq_refl)).
    change (negb (is_utf8 OPEN_PATH)) with false. change (str_eqb OPEN_PATH []) with false. cbv iota. unfold bind at 1, lift at 1.
    change (resolve_open_path AT_FDCWD OPEN_PATH) with (Ok (E:=Z) OPEN_PATH). cbv iota. change (negb (is_utf8 OPEN_PATH)) with false. cbv iota.
    unfold bind at 1, gets, bind at 1, lift at 1. destruct (vfs_lookup (w_mounts w) OPEN_PATH) as [node|]; [|done]. cbn [ok_or].
    unfold bind at 1, lift at 1. by destruct (vfs_read (w_mounts w) (n_path node)). }
  destruct (vfs_lookup (w_mounts w) OPEN_PATH) as [node|].
  2:{ exists w. split; [by apply finish_err|]. split; [done|]. split; [done|]. by left. }
  destruct (vfs_read (w_mounts w) (n_path node)) as [text|].
  2:{ exists w. split; [by apply finish_err|]. split; [done|]. split; [done|]. by left. }
  pose proof (alloc_file_run w (n_path node) text HF) as Ha. destruct (alloc_open_file (n_path node) text w) as [[fd|e| |] w1] eqn:Hal; try done.
  - destruct Ha as (HF1 & k & i & f & -> & -> & Hk & Hnone & Ht1 & Hf & _ & _ & Ho & Hcl & Hct & Hu).
    assert (Hff : exists j, free_file 0 (w_files w) = Some j).
    { destruct (free_file 0 (w_files w)) as [j|] eqn:Hj; [by exists j|]. destruct (alloc_needs_file w (n_path node) text HF Hj) as [e He]. congruence. }
    destruct Hff as [j ->]. cbn [fst snd]. exists w1. split; [by apply finish_run|]. split; [done|]. split; [done|]. right.
    exists k, (take (Z.to_nat CONTENT_BYTES) text). split; [done|]. split; [|split; [done|]; split; [done|]; exists i, f].
    { unfold len. rewrite length_take. do 2 f_equal. assert (0 <= CONTENT_BYTES) by done. lia. }
    split; [done|]. split; [done|]. split; [by apply fresh_holds|done].
  - destruct Ha as (-> & -> & Hnone). exists w. destruct Hnone as [Hn|Hn]; rewrite Hn; [|destruct (free_fd (table_of w))]; (split; [by apply finish_err|]; split; [done|]; split; [done|]; by left).
Qed.

(** ** Making a call *)

(** The call [number] made by [invoke] returns what the handler does. *)
Definition answers (invoke : Z -> list Z -> M World unit Z) (number : Z) (handler : list Z -> M World unit SyscallOutcome) : Prop :=
  forall args w v w', handler args w = (Ok (success v), w') -> in_i64 v -> invoke number args w = (Ok v, w').

Lemma place_run {E} ptr bs w : place (E:=E) ptr bs w = (Ok tt, set_user (store_bytes (w_user w) ptr bs) w).
Proof. reflexivity. Qed.
Lemma place_mapped m ptr (n : nat) : mapped (store_bytes m ptr (replicate n 0)) ptr (Z.of_nat n).
Proof.
  intros i Hi. rewrite store_bytes_lookup, decide_True by (unfold len; rewrite length_replicate; lia). apply lookup_lt_is_Some_2. rewrite length_replicate. lia.
Qed.
Lemma stable_user w m : stable w (set_user m w).
Proof. by split. Qed.

Section smoke.
Context (invoke : Z -> list Z -> M World unit Z) (sys_read sys_close : Z).
Context (Hread : answers invoke sys_read read_from_fd) (Hclose : answers invoke sys_close close_fd).

Lemma read_close_probe w w1 buffer (size k : nat) text :
  files_ok w1 -> open_at_start w w1 k text -> (0 < size)%nat -> Z.of_nat size <= MAX_READ_BYTES -> user_range buffer (Z.of_nat size) ->
  exists w2, read_and_close invoke sys_read sys_close (Z.of_nat k) buffer size w1 = (Ok (Z.min (Z.of_nat size) (len text), 0), w2) /\
    files_ok w2 /\ stable w1 w2 /\ table_of w2 = table_of w /\
    forall a, ~ (buffer <= a < buffer + Z.of_nat size) -> w_user w2 !! a = w_user w1 !! a.
Proof.
  intros HF (Hk & Hnone & i & f & Ht & Hf & Hh & Ho) Hs Hmax Hr. unfold MAX_PROCESS_FDS in Hk. unfold read_and_close.
  rewrite (bind_run _ _ _ _ _ (place_run _ _ _)). set (w1' := set_user _ w1). assert (HF1 : files_ok w1') by (by apply set_user_ok).
  rewrite (proj2 (Z.leb_le _ _)) by lia. cbv zeta. replace (cast U64 (Z.of_nat k)) with (Z.of_nat k) by (unfold cast; rewrite Z.mod_small; lia).
  assert (Hv : valid_fd (Z.of_nat k) = true) by (apply valid_fd_spec; lia).
  assert (He : table_of w1' !! Z.to_nat (Z.of_nat k) = Some (Some (Z.of_nat i))).
  { change (table_of w1') with (table_of w1). rewrite Ht, Nat2Z.id. apply list_lookup_insert_eq. by eapply lookup_lt_Some. }
  rewrite <- (Nat2Z.id i) in Hf.
  destruct (read_holds w1' (Z.of_nat k) buffer (Z.of_nat size) _ f text HF1 Hv He Hf Hh ltac:(lia) Hr (place_mapped _ _ _)) as (w2 & f2 & Hr2 & _ & HF2 & Ht2 & _ & _ & _ & _ & Hu2).
  rewrite Ho in Hr2, Hu2. change (drop (Z.to_nat 0) text) with text in Hr2, Hu2. set (chunk := take (Z.to_nat (Z.of_nat size)) text) in *.
  assert (Hlen : len chunk = Z.min (Z.of_nat size) (len text)) by (unfold chunk, len; rewrite length_take; lia).
  rewrite (bind_run _ _ _ (len chunk) w2).
  2:{ apply Hread; [exact Hr2|]. unfold in_i64, MAX_READ_BYTES in *. pose proof (len_nonneg chunk). lia. }
  pose proof (close_run w2 (Z.of_nat k) HF2) as Hc. destruct (close_open_file (Z.of_nat k) w2) as [[v|e| |] w3] eqn:Hcl; try done.
  2:{ destruct Hc as (_ & _ & Hbad). specialize (Hbad Hv). rewrite Ht2, He in Hbad. done. }
  destruct Hc as (-> & _ & [HF3 Hu3] & Ht3).
  assert (Hclosed : close_fd (E:=unit) [Z.of_nat k; 0; 0; 0; 0; 0] w2 = (Ok (success 0), w3)).
  { apply finish_run. unfold arg, parse_fd. cbn [nth]. rewrite (proj2 (Z.ltb_lt _ _)) by lia. by rewrite (bind_run (ret _) _ _ (Z.of_nat k) w2). }
  rewrite (bind_run _ _ _ 0 w3) by (apply Hclose; [exact Hclosed|unfold in_i64; lia]). rewrite Hlen. exists w3. split; [done|]. split; [done|]. split; [|split].
  - eapply stable_trans; [apply (stable_user w1)|]. fold w1'. pose proof (keeps_read (E:=unit) [Z.of_nat k; buffer; Z.of_nat size] w1') as K1. rewrite Hr2 in K1.
    pose proof (keeps_close (E:=unit) [Z.of_nat k; 0; 0; 0; 0; 0] w2) as K2. rewrite Hclosed in K2. by eapply stable_trans.
  - rewrite Ht3, Ht2. change (table_of w1') with (table_of w1). rewrite Ht, Nat2Z.id, list_insert_insert_eq. by apply list_insert_id.
  - intros a Ha. rewrite Hu3, Hu2, store_bytes_lookup, decide_False by lia. unfold w1'. cbn. rewrite store_bytes_lookup, decide_False; [done|].
    unfold len. rewrite length_replicate. lia.
Qed.

(** The three calls on the probed file. [sys_open] is called with [oargs]. *)
Lemma smoke_run sysopen oargs w path buffer (size : nat) :
  (forall w v w', sys_open (E:=unit) AT_FDCWD path 0 w = (Ok (success v), w') -> in_i64 v -> invoke sysopen oargs w = (Ok v, w')) ->
  files_ok w -> user_string (w_user w) path OPEN_PATH -> (0 < size)%nat -> Z.of_nat size <= MAX_READ_BYTES -> user_range buffer (Z.of_nat size) ->
  exists w1 w2, invoke sysopen oargs w = (Ok (fst (file_results w (Z.of_nat size))), w1) /\
    read_and_close invoke sys_read sys_close (fst (file_results w (Z.of_nat size))) buffer size w1 = (Ok (snd (file_results w (Z.of_nat size))), w2) /\
    files_ok w2 /\ stable w w2 /\ table_of w2 = table_of w /\ forall a, ~ (buffer <= a < buffer + Z.of_nat size) -> w_user w2 !! a = w_user w !! a.
Proof.
  intros Hopen HF Hs Hsize Hmax Hr. destruct (open_probe w path (Z.of_nat size) HF Hs) as (w1 & Ho & HF1 & Hu & Hcase).
  pose proof (keeps_open (E:=unit) AT_FDCWD path 0 w) as K1. rewrite Ho in K1. exists w1. destruct Hcase as [(Hi & Hneg & Hres & ->)|(k & text & Hfd & Hres & Hat)].
  - exists (set_user (store_bytes (w_user w) buffer (replicate size 0)) w). split; [by apply Hopen|]. split.
    { unfold read_and_close. rewrite (bind_run _ _ _ _ _ (place_run _ _ _)). rewrite (proj2 (Z.leb_gt _ _)) by lia. by rewrite Hres. }
    split; [by apply set_user_ok|]. split; [apply stable_user|]. split; [done|]. intros a Ha. cbn. rewrite store_bytes_lookup, decide_False; [done|]. unfold len. rewrite length_replicate. lia.
  - destruct (read_close_probe w w1 buffer size k text HF1 Hat Hsize Hmax Hr) as (w2 & Hrc & HF2 & K2 & Ht2 & Hu2). exists w2. rewrite Hfd in Ho |- *. rewrite Hres.
    split; [apply Hopen; [exact Ho|]|]. { destruct Hat as [Hk _]. unfold MAX_PROCESS_FDS, in_i64 in *. lia. }
    split; [exact Hrc|]. split; [done|]. split; [by eapply stable_trans|]. split; [done|]. intros a Ha. rewrite Hu2 by done. by rewrite Hu.
Qed.
End smoke.

(** ** The other calls *)
Definition current_ids (w : World) : Z * Z * Z :=
  match current_slot (scheduler w) with Some c => from_option ids (0, 0, 0) (ths w !! c) | None => (0, 0, 0) end.
Definition id_result (v : Z) : Z := if v <? 2 ^ 63 then v else - ERANGE.

Lemma id_result_i64 v : 0 <= v -> in_i64 (id_result v).
Proof. unfold id_result, in_i64, ERANGE. intros Hv. destruct (Z.ltb_spec v (2 ^ 63)); lia. Qed.

Lemma current_ids_same w w' : stable w w' -> current_ids w' = current_ids w.
Proof.
  intros [_ _ _ Hs Hi _]. unfold current_ids. rewrite Hs. destruct (current_slot (scheduler w)) as [c|]; [|done].
  apply (f_equal (lookup c)) in Hi. rewrite !list_lookup_fmap in Hi. apply (f_equal (default (0, 0, 0))) in Hi. by destruct (ths w' !! c), (ths w !! c).
Qed.

Lemma stats_field_run {E} w c th (f : Thread -> Z) : current_slot (scheduler w) = Some c -> ths w !! c = Some th -> stats_field (E:=E) f w = (Ok (f th), w).
Proof.
  intros Hc Hth. unfold stats_field, sch, on_kernel, on_sched, zoom, current_thread. unfold bind at 1, bind at 1, gets at 1. fold (scheduler w). rewrite Hc.
  unfold get_thread, bind, gets, at_. fold (ths w). rewrite Hth. by destruct w as [[]].
Qed.
Lemma id_call {E} w (f : Thread -> Z) c th : current_slot (scheduler w) = Some c -> ths w !! c = Some th ->
  finish (E:=E) (let! v := stats_field f in try_i64 v) w = (Ok (success (id_result (f th))), w).
Proof.
  intros Hc Hth. unfold id_result. destruct (Z.ltb_spec (f th) (2 ^ 63)) as [H|H].
  - apply finish_run. rewrite (bind_run _ _ _ _ _ (stats_field_run w c th f Hc Hth)). unfold try_i64. by rewrite (proj2 (Z.ltb_lt _ _) H).
  - apply (finish_err _ _ ERANGE). rewrite (bind_run _ _ _ _ _ (stats_field_run w c th f Hc Hth)). unfold try_i64. by rewrite (proj2 (Z.ltb_ge _ _) H).
Qed.
Lemma id_calls {E} w : files_ok w -> let '(tid, pid, ppid) := current_ids w in
  sys_thread_id (E:=E) w = (Ok (success (id_result tid)), w) /\ sys_process_id (E:=E) w = (Ok (success (id_result pid)), w) /\
  process_parent_id (E:=E) w = (Ok (success (id_result ppid)), w).
Proof.
  intros HF. destruct (fi_current _ _ HF) as (c & th & Hc & Hth). unfold current_ids. rewrite Hc, Hth. cbn.
  split; [|split]; by apply (id_call w _ c th).
Qed.

Lemma uptime_run {E} tsc w : uptime_ns (E:=E) tsc w = (Ok (success (id_result (uptime_nanoseconds (w_clock w) tsc))), w).
Proof.
  unfold uptime_ns, id_result. destruct (Z.ltb_spec (uptime_nanoseconds (w_clock w) tsc) (2 ^ 63)) as [H|H]; [apply finish_run|apply (finish_err _ _ ERANGE)];
    unfold bind, gets, try_i64; [by rewrite (proj2 (Z.ltb_lt _ _) H)|by rewrite (proj2 (Z.ltb_ge _ _) H)].
Qed.

Lemma copyin_run w ptr n bs : user_range ptr n -> 0 < n <= MAX_COPY_BYTES -> load_bytes (w_user w) ptr (Z.to_nat n) = Some bs -> copyin_bytes ptr n w = (Ok bs, w).
Proof.
  intros Hr Hn Hl. unfold user_range in Hr. pose proof (validate_spec ptr n ltac:(lia) ltac:(lia)) as Hv. unfold copyin_bytes, on_user, catch, zoom, copyin, bind, lift.
  assert (Hw : set_field w_user (w_user w) w = w) by (by destruct w). destruct (validate_user_range ptr n) as [[]|e| |] eqn:Hok; try done.
  - rewrite (proj2 (Z.eqb_neq _ _)) by lia. unfold gets. rewrite Hl. cbn [unwrap]. by rewrite Hw.
  - exfalso. destruct e; try lia. destruct Hv as [_ (x & Hx & Hc)]. lia.
Qed.
Lemma write_run {E} w ptr text : is_utf8 text = true -> 0 < len text <= 1024 -> user_range ptr (len text) -> load_bytes (w_user w) ptr (length text) = Some text ->
  write_text (E:=E) ptr (len text) w = (Ok (success (len text)), upd w_console (fun c => c ++ text) w).
Proof.
  intros Hu Hn Hr Hl. apply finish_run. rewrite (proj2 (Z.ltb_ge _ _)) by (unfold MAX_WRITE_BYTES; lia). rewrite (proj2 (Z.eqb_neq _ _)) by lia. cbv zeta. rewrite Z.min_l by lia.
  rewrite (bind_run _ _ _ text w) by (apply copyin_run; [done|unfold MAX_COPY_BYTES; lia|by unfold len; rewrite Nat2Z.id]).
  unfold sanitize_for_console. rewrite Hu. rewrite (bind_run _ _ _ tt (upd w_console (fun c => c ++ text) w)) by done. unfold try_i64. by rewrite (proj2 (Z.ltb_lt _ _)) by lia.
Qed.

Lemma uptime_range c tsc : 0 <= uptime_nanoseconds c tsc < U64.
Proof.
  pose proof (timestamp_range c tsc) as Hn. unfold uptime_nanoseconds. destruct (timestamp c tsc) as [s n] eqn:Ht. cbn in Hn.
  assert (Hs : 0 <= s). { unfold timestamp in Ht. destruct (negb (clock_initialized c)); injection Ht as <- _; [done|]. apply Z.div_pos; [apply Z.mod_pos_bound|]; lia. }
  unfold sat_add, sat_mul. lia.
Qed.

(** ** The probes, part by part *)

(** [text] on the console. *)
Definition said (text : list Z) (w : World) : World := upd w_console (fun c => c ++ text) w.
Lemma said_ok text w : files_ok w -> files_ok (said text w).
Proof. intros HF. change (table_of w) with (table_of (said text w)) in HF. by apply (files_same w). Qed.

(** A text the kernel holds at [ptr]. *)
Definition text_at (w : World) (ptr : Z) (text : list Z) : Prop :=
  user_range ptr (len text) /\ load_bytes (w_user w) ptr (length text) = Some text.

(** What is left of [w] after the calls that opened, read and closed a file. *)
Record after_file (w w' : World) (buffer size : Z) : Prop := {
  af_files : files_ok w'; af_stable : stable w w'; af_table : table_of w' = table_of w;
  af_memory a : ~ (buffer <= a < buffer + size) -> w_user w' !! a = w_user w !! a }.

Section head.
Context (invoke : Z -> list Z -> M World unit Z) (sys_read sys_close sysopen : Z) (oargs : list Z) (path : Z).
Context (Hread : answers invoke sys_read read_from_fd) (Hclose : answers invoke sys_close close_fd).
Context (Hopen : forall w v w', sys_open (E:=unit) AT_FDCWD path 0 w = (Ok (success v), w') -> in_i64 v -> invoke sysopen oargs w = (Ok v, w')).

Lemma file_part w buffer (size : nat) : files_ok w -> user_string (w_user w) path OPEN_PATH -> (0 < size)%nat -> Z.of_nat size <= MAX_READ_BYTES ->
  user_range buffer (Z.of_nat size) ->
  exists w', after_file w w' buffer (Z.of_nat size) /\ forall {A} (k : Z -> Z * Z -> M World unit A),
    (let! o := invoke sysopen oargs in let! rc := read_and_close invoke sys_read sys_close o buffer size in k o rc) w =
    k (fst (file_results w (Z.of_nat size))) (snd (file_results w (Z.of_nat size))) w'.
Proof.
  intros HF Hs H1 H2 Hr. destruct (smoke_run invoke sys_read sys_close Hread Hclose sysopen oargs w path buffer size Hopen HF Hs H1 H2 Hr) as (w1 & w2 & Ho & Hrc & HF2 & Hst & Ht & Hm).
  exists w2. split; [by split|]. intros A k. by rewrite (bind_run _ _ _ _ _ Ho), (bind_run _ _ _ _ _ Hrc).
Qed.

Lemma head_part syswrite wargs text w at_text buffer (size : nat) :
  (forall w v w', write_text (E:=unit) at_text (len text) w = (Ok (success v), w') -> in_i64 v -> invoke syswrite wargs w = (Ok v, w')) ->
  is_utf8 text = true -> 0 < len text <= 1024 -> text_at w at_text text ->
  files_ok w -> user_string (w_user w) path OPEN_PATH -> (0 < size)%nat -> Z.of_nat size <= MAX_READ_BYTES -> user_range buffer (Z.of_nat size) ->
  exists w', after_file (said text w) w' buffer (Z.of_nat size) /\ forall {A} (k : Z -> Z -> Z * Z -> M World unit A),
    (let! v := invoke syswrite wargs in let! o := invoke sysopen oargs in let! rc := read_and_close invoke sys_read sys_close o buffer size in k v o rc) w =
    k (len text) (fst (file_results w (Z.of_nat size))) (snd (file_results w (Z.of_nat size))) w'.
Proof.
  intros Hwrite Hu Hn [Hr Hl] HF Hs H1 H2 Hb. destruct (file_part (said text w) buffer size (said_ok _ _ HF) Hs H1 H2 Hb) as (w' & Haf & Hk).
  exists w'. split; [done|]. intros A k. rewrite (bind_run _ _ _ (len text) (said text w)).
  - rewrite Hk. done.
  - apply Hwrite; [by apply write_run|]. unfold in_i64. lia.
Qed.
End head.

(** A structure copied out to a variable of its size. *)
Lemma struct_part {E} w ptr init bs : length init = length bs -> 0 < len bs <= MAX_COPY_BYTES -> user_range ptr (len bs) ->
  finish (E:=E) (do! copyout_struct ptr bs in ret 0) (set_user (store_bytes (w_user w) ptr init) w) =
    (Ok (success 0), set_user (store_bytes (store_bytes (w_user w) ptr init) ptr bs) w).
Proof.
  intros Hi Hn Hr. apply finish_run. rewrite (bind_run _ _ _ tt (set_user (store_bytes (store_bytes (w_user w) ptr init) ptr bs) w)); [done|].
  unfold copyout_struct. rewrite copyout_in_range; [done|unfold user_range in Hr; lia|lia|]. right. split; [done|].
  intros i Hin. cbn. rewrite store_bytes_lookup, decide_True by (unfold len in *; lia). apply lookup_lt_is_Some_2. unfold len in *. lia.
Qed.

(** The descriptors after an exit. *)
Definition purged (w w' : World) : Prop :=
  (forall k, (3 <= k < MAX_PROCESS_FDS)%nat -> table_of w' !! k = Some None) /\ forall k, (k < 3)%nat -> table_of w' !! k = table_of w !! k.

Lemma exit_part {E} args w : files_ok w ->
  exists w', sys_exit_group (E:=E) args w = (Ok (mkOut 0 (ExitGroup (as_i32 (arg args 0)))), w') /\ files_ok w' /\ w_user w' = w_user w /\ stable w w' /\ purged w w'.
Proof.
  intros HF. destruct (exit_files_run (E:=E) args w HF) as (w' & Hx & [Hok Hu] & Ht). exists w'. split; [done|]. split; [done|]. split; [done|]. split; [|done].
  pose proof (keeps_purge (E:=E) w) as Hk. unfold sys_exit_group, bind in Hx. destruct (purge_open_files_for_process w) as [[u|e| |] w1]; try done. by injection Hx as <-.
Qed.

Lemma as_i64_cast v : in_i64 v -> as_i64 (cast U64 v) = v.
Proof.
  unfold in_i64, as_i64, cast. intros Hv. destruct (Z.ltb_spec v 0) as [H|H].
  - replace (v mod U64) with (v + U64) by (apply (Z.mod_unique v U64 (-1)); lia). rewrite (proj2 (Z.ltb_ge _ _)) by lia. lia.
  - rewrite Z.mod_small by lia. by rewrite (proj2 (Z.ltb_lt _ _)) by lia.
Qed.
Lemma i64_field v : in_i64 v -> as_i64 (le_val (i64_bytes v)) = v.
Proof.
  intros Hv. unfold i64_bytes. rewrite le_val_bytes_small; [by apply as_i64_cast|]. unfold cast. pose proof (Z.mod_pos_bound v U64). lia.
Qed.

(** A variable the later stores do not reach. *)
Lemma load_other m ptr q bs (n : nat) : ptr + Z.of_nat n <= q \/ q + len bs <= ptr -> load_bytes (store_bytes m q bs) ptr n = load_bytes m ptr n.
Proof.
  revert ptr. induction n as [|n IH]; intros ptr H; [done|]. cbn. rewrite store_bytes_lookup, decide_False by lia. by rewrite IH by lia.
Qed.

Lemma timespec_i64 t : 0 <= t < U64 -> in_i64 (t / 1000000000) /\ in_i64 (t mod 1000000000).
Proof.
  intros Ht. pose proof (Z.div_pos t 1000000000 ltac:(lia) ltac:(lia)). pose proof (Z.div_le_upper_bound t 1000000000 18446744074 ltac:(lia) ltac:(lia)).
  pose proof (Z.mod_pos_bound t 1000000000 ltac:(lia)). unfold in_i64. lia.
Qed.
Lemma variable_run {E} ptr n bs w : load_bytes (w_user w) ptr n = Some bs -> variable (E:=E) ptr n w = (Ok bs, w).
Proof. intros H. unfold variable, bind, gets, lift. by rewrite H. Qed.

(** A byte outside a structure that was cleared and filled. *)
Lemma store_twice m q init bs a : length init = length bs -> ~ (q <= a < q + len bs) -> store_bytes (store_bytes m q init) q bs !! a = m !! a.
Proof. intros Hl Ha. unfold len in Ha. rewrite !store_bytes_lookup, !decide_False by (unfold len; lia). done. Qed.
Lemma purged_from w w1 w2 text buffer size : after_file (said text w) w1 buffer size -> purged w1 w2 -> purged w w2.
Proof. intros Haf [H1 H2]. split; [done|]. intros k Hk. rewrite H2 by done. by rewrite (af_table _ _ _ _ Haf). Qed.

Record probe_ready (w : World) (p : Where) (text : list Z) : Prop := {
  pr_files : files_ok w;
  pr_text : text_at w (at_text p) text;
  pr_path : user_string (w_user w) (at_path p) OPEN_PATH;
  pr_buffer : user_range (at_buffer p) 64;
  pr_timespec : user_range (at_timespec p) 16;
  pr_utsname : user_range (at_utsname p) (Z.of_nat UTSNAME_BYTES);
  pr_apart : at_timespec p + 16 <= at_utsname p \/ at_utsname p + Z.of_nat UTSNAME_BYTES <= at_timespec p }.

(** How a probe leaves the system: its text on the console, the open files consistent, the
    descriptors from 3 on closed by the exit, and memory as it was but for its variables. *)
Record probed (w w' : World) (p : Where) (text : list Z) : Prop := {
  pd_files : files_ok w';
  pd_stable : stable (said text w) w';
  pd_table : purged w w';
  pd_memory a : ~ (at_buffer p <= a < at_buffer p + 64) -> ~ (at_timespec p <= a < at_timespec p + 16) ->
    ~ (at_utsname p <= a < at_utsname p + Z.of_nat UTSNAME_BYTES) -> w_user w' !! a = w_user w !! a }.

(** The registers the entry code saves. *)
Lemma invoke_frame_words frame abi number args : (12 <= length frame)%nat ->
  let f := invoke_frame frame abi number args in
  frame_word f 11 = syscall_abi_selector abi /\ frame_word f 0 = number /\
  [frame_word f 6; frame_word f 5; frame_word f 4; frame_word f 9; frame_word f 7; frame_word f 8] = [arg args 0; arg args 1; arg args 2; arg args 3; arg args 4; arg args 5].
Proof. intros H. do 12 (destruct frame as [|? frame]; [cbn in H; lia|]). done. Qed.

Section answers.
Variables (L : Layout) (tsc cr3 : Z) (hhdm_offset : option Z).
Context `{B : Block}.

Lemma call_run {E} abi number args w out w' : dispatch (E:=E) L tsc cr3 hhdm_offset abi number args w = (Ok out, w') ->
  call (E:=E) L tsc cr3 hhdm_offset abi number args w = (Ok (value out), w').
Proof. intros H. unfold call. by rewrite (bind_run _ _ _ _ _ H). Qed.

Ltac answered H := match goal with |- call _ _ _ _ ?abi ?n ?a ?s = (Ok ?v, ?s') => exact (call_run abi n a s (success v) s' H) end.

Ltac calls H := match type of H with _ = (Ok (success ?v), ?s) => rewrite (bind_run _ _ _ v s); [|answered H] end.

(** The head of a probe, and what the rest of it finds. *)
Ltac probe_head abi r c o oargs wr wargs text Htext HF Hpath Hbuf :=
  match type of Hbuf with user_range (at_buffer ?p) _ => match type of HF with files_ok ?w =>
    destruct (head_part (call (E:=unit) L tsc cr3 hhdm_offset abi) r c o oargs (at_path p)
      ltac:(intros ? ? ? ? H _; answered H) ltac:(intros ? ? ? ? H _; answered H) ltac:(intros ? ? ? H _; answered H)
      wr wargs text w (at_text p) (at_buffer p) 64 ltac:(intros ? ? ? H _; answered H) eq_refl ltac:(done) Htext HF Hpath ltac:(lia) ltac:(done) Hbuf) as (w3 & Haf & Hk);
    assert (HF3 := af_files _ _ _ _ Haf); assert (St3 := af_stable _ _ _ _ Haf); rewrite <- (sb_clock _ _ St3 : w_clock w3 = w_clock w);
    assert (Hids := id_calls (E:=unit) w3 HF3); rewrite (current_ids_same _ _ St3) in Hids; change (current_ids (said text w)) with (current_ids w) in Hids
  end end.

Definition MACHINE_BYTES : list Z := lit "x86_64" ++ replicate 10 0.

(** What the probes report of a world. *)
Definition linux_expected (w : World) : LinuxBootstrapProbe :=
  let '(tid, pid, ppid) := current_ids w in
  let '(opened, (read, closed)) := file_results w 64 in
  let t := uptime_nanoseconds (w_clock w) tsc in
  mkLinuxProbe (len LINUX_WRITE_SMOKE) opened read closed (id_result pid) (id_result ppid) (id_result tid) 0 0
    (t / 1000000000) (t mod 1000000000) 0 true 17 MACHINE_BYTES 6.
Definition ghost_expected (w : World) : GhostBootstrapProbe :=
  let '(tid, pid, _) := current_ids w in
  let '(opened, (read, closed)) := file_results w 64 in
  mkGhostProbe (len GHOST_WRITE_SMOKE) opened read closed (id_result pid) (id_result tid) 0 (id_result (uptime_nanoseconds (w_clock w) tsc)) 0 true 19
    MACHINE_BYTES 6.
Definition hxnu_expected (w : World) : HxnuBootstrapProbe :=
  let '(tid, pid, _) := current_ids w in
  let '(opened, (read, closed)) := file_results w 64 in
  mkHxnuProbe (len HXNU_WRITE_SMOKE) opened read closed (id_result pid) (id_result tid) 0 (id_result (uptime_nanoseconds (w_clock w) tsc))
    HXNU_NATIVE_ABI_VERSION true 23.
Definition gate_expected (w : World) : SyscallSelfTest :=
  let '(tid, pid, _) := current_ids w in
  let '(o, (r, c)) := file_results w 48 in
  mkSelfTest (len GATE_SMOKE) o r c (id_result pid) o r c (id_result tid) o r c HXNU_NATIVE_ABI_VERSION.

Definition LINUX_UTSNAME : list Z :=
  concat (uts_field <$> [lit "Linux"; lit "hxnu"; lit "0.1.0-hxnu"; lit "HXNU micro-hybrid kernel bootstrap"; lit "x86_64"; lit "localdomain"]).

Definition GHOST_UTSNAME : list Z :=
  concat (uts_field <$> [lit "Ghost"; lit "hxnu"; lit "0.1.0-ghost"; lit "HXNU ghost compatibility bootstrap"; lit "x86_64"; lit "legacy"]).

(** The Linux probe ends with the results the calls promise. The text is written whole; the
    open, the read and the close return what the mounts, the descriptor table and the file table
    say; the identifiers are those of the current thread, or [-ERANGE] when one does not fit; the
    clock is the uptime split into seconds and nanoseconds; the machine name is read back from
    the structure [uname] filled; the exit is captured with its status and not performed. The
    open files stay consistent, the descriptors from 3 on are closed, and nothing else changes
    but the console. *)
Theorem linux_probe_spec (w : World) (p : Where) (Hready : probe_ready w p LINUX_WRITE_SMOKE) :
  exists w', run_linux_bootstrap_probe (E:=unit) L tsc cr3 hhdm_offset p w =
    (Ok (linux_expected w), w') /\
    probed w w' p LINUX_WRITE_SMOKE.
Proof.
  destruct Hready as [HF Htext Hpath Hbuf Hts Huts Hap]. unfold run_linux_bootstrap_probe, linux_expected. cbv zeta.
  probe_head LinuxBootstrap LINUX_SYS_READ LINUX_SYS_CLOSE LINUX_SYS_OPENAT [cast U64 AT_FDCWD; at_path p; 0; 0; 0; 0]
    LINUX_SYS_WRITE [STDOUT_FD; at_text p; len LINUX_WRITE_SMOKE; 0; 0; 0] LINUX_WRITE_SMOKE Htext HF Hpath Hbuf.
  destruct (current_ids w) as [[tid pid] ppid]. destruct Hids as (Htid & Hpid & Hppid). set (t := uptime_nanoseconds (w_clock w3) tsc).
  assert (Ht : 0 <= t < U64) by apply uptime_range.
  set (clock := i64_bytes (t / 1000000000) ++ i64_bytes (t mod 1000000000)). set (w4 := set_user (store_bytes (store_bytes (w_user w3) (at_timespec p) (i64_bytes 0 ++ i64_bytes 0)) (at_timespec p) clock) w3).
  set (w5 := set_user (store_bytes (store_bytes (w_user w4) (at_utsname p) (replicate UTSNAME_BYTES 0)) (at_utsname p) LINUX_UTSNAME) w4).
  destruct (exit_part (E:=unit) [17; 0; 0; 0; 0; 0] w5) as (w6 & Hexit & HF6 & Hu6 & St6 & Hpurged); [by apply set_user_ok, set_user_ok|].
  exists w6. split; [etransitivity; [exact (Hk _ _)|]|].
  - calls Hpid. calls Hppid. calls Htid. rewrite (bind_run _ _ _ 0 w3) by done. rewrite (bind_run _ _ _ _ _ (place_run _ _ _)).
    rewrite (bind_run _ _ _ 0 w4). 2:{ assert (H := struct_part (E:=unit) w3 (at_timespec p) (i64_bytes 0 ++ i64_bytes 0) clock eq_refl ltac:(done) Hts). answered H. }
    rewrite (bind_run _ _ _ _ _ (place_run _ _ _)).
    rewrite (bind_run _ _ _ 0 w5). 2:{ assert (H := struct_part (E:=unit) w4 (at_utsname p) (replicate UTSNAME_BYTES 0) LINUX_UTSNAME eq_refl ltac:(done) Huts). answered H. }
    rewrite (bind_run _ _ _ _ w6 Hexit).
    cbv beta iota delta [exit_status action].
    rewrite (bind_run _ _ _ LINUX_UTSNAME w6) by (apply variable_run; rewrite Hu6; apply (load_stored _ _ LINUX_UTSNAME)).
    change (copy_c_field_prefix (replicate 16 0) (take 65 (drop (4 * 65) LINUX_UTSNAME))) with (MACHINE_BYTES, 6). cbv beta iota.
    rewrite (bind_run _ _ _ clock w6).
    2:{ apply variable_run. rewrite Hu6. etransitivity; [apply (load_other _ _ _ LINUX_UTSNAME 16 Hap)|]. etransitivity; [apply (load_other _ _ _ (replicate UTSNAME_BYTES 0) 16 Hap)|apply (load_stored _ _ clock)]. }
    unfold clock. rewrite take_app_length', drop_app_length' by done. destruct (timespec_i64 t Ht) as [Hsec Hnsec]. rewrite !i64_field by done.
    change (Z.of_nat 64) with 64. by destruct (file_results w 64) as [? [? ?]].
  - split; [done|eapply stable_trans; [exact St3|]; by eapply stable_trans; [|exact St6]|by apply (purged_from w w3 w6 _ _ _ Haf)|].
    intros a H1 H2 H3. rewrite Hu6. etransitivity; [apply store_twice; [done|exact H3]|]. etransitivity; [apply store_twice; [done|exact H2]|]. exact (af_memory _ _ _ _ Haf a H1).
Qed.

(** The same for the Ghost numbers. *)
Theorem ghost_probe_spec (w : World) (p : Where) (Hready : probe_ready w p GHOST_WRITE_SMOKE) :
  exists w', run_ghost_bootstrap_probe (E:=unit) L tsc cr3 hhdm_offset p w =
    (Ok (ghost_expected w), w') /\
    probed w w' p GHOST_WRITE_SMOKE.
Proof.
  destruct Hready as [HF Htext Hpath Hbuf _ Huts _]. unfold run_ghost_bootstrap_probe, ghost_expected. cbv zeta.
  probe_head GhostBootstrap GHOST_SYS_READ GHOST_SYS_CLOSE GHOST_SYS_OPEN [at_path p; 0; 0; 0; 0; 0]
    GHOST_SYS_WRITE [STDERR_FD; at_text p; len GHOST_WRITE_SMOKE; 0; 0; 0] GHOST_WRITE_SMOKE Htext HF Hpath Hbuf.
  destruct (current_ids w) as [[tid pid] ppid]. destruct Hids as (Htid & Hpid & _). assert (Hup := uptime_run (E:=unit) tsc w3).
  set (w5 := set_user (store_bytes (store_bytes (w_user w3) (at_utsname p) (replicate UTSNAME_BYTES 0)) (at_utsname p) GHOST_UTSNAME) w3).
  destruct (exit_part (E:=unit) [19; 0; 0; 0; 0; 0] w5) as (w6 & Hexit & HF6 & Hu6 & St6 & Hpurged); [by apply set_user_ok|].
  exists w6. split; [etransitivity; [exact (Hk _ _)|]|].
  - calls Hpid. calls Htid. rewrite (bind_run _ _ _ 0 w3) by done. calls Hup. rewrite (bind_run _ _ _ _ _ (place_run _ _ _)).
    rewrite (bind_run _ _ _ 0 w5). 2:{ assert (H := struct_part (E:=unit) w3 (at_utsname p) (replicate UTSNAME_BYTES 0) GHOST_UTSNAME eq_refl ltac:(done) Huts). answered H. }
    rewrite (bind_run _ _ _ _ w6 Hexit). cbv beta iota delta [exit_status action].
    rewrite (bind_run _ _ _ GHOST_UTSNAME w6) by (apply variable_run; rewrite Hu6; apply (load_stored _ _ GHOST_UTSNAME)).
    change (copy_c_field_prefix (replicate 16 0) (take 65 (drop (4 * 65) GHOST_UTSNAME))) with (MACHINE_BYTES, 6). cbv beta iota.
    change (Z.of_nat 64) with 64. by destruct (file_results w 64) as [? [? ?]].
  - split; [done|eapply stable_trans; [exact St3|]; by eapply stable_trans; [|exact St6]|by apply (purged_from w w3 w6 _ _ _ Haf)|].
    intros a H1 H2 H3. rewrite Hu6. etransitivity; [apply store_twice; [done|exact H3]|]. exact (af_memory _ _ _ _ Haf a H1).
Qed.

(** The same for the native numbers. *)
Theorem hxnu_probe_spec (w : World) (p : Where) (Hready : probe_ready w p HXNU_WRITE_SMOKE) :
  exists w', run_hxnu_bootstrap_probe (E:=unit) L tsc cr3 hhdm_offset p w =
    (Ok (hxnu_expected w), w') /\
    probed w w' p HXNU_WRITE_SMOKE.
Proof.
  destruct Hready as [HF Htext Hpath Hbuf _ _ _]. unfold run_hxnu_bootstrap_probe, hxnu_expected. cbv zeta.
  probe_head HxnuNativeBootstrap HXNU_SYS_READ HXNU_SYS_CLOSE HXNU_SYS_OPEN [at_path p; 0; 0; 0; 0; 0]
    HXNU_SYS_LOG_WRITE [at_text p; len HXNU_WRITE_SMOKE; 0; 0; 0; 0] HXNU_WRITE_SMOKE Htext HF Hpath Hbuf.
  destruct (current_ids w) as [[tid pid] ppid]. destruct Hids as (Htid & Hpid & _). assert (Hup := uptime_run (E:=unit) tsc w3).
  destruct (exit_part (E:=unit) [23; 0; 0; 0; 0; 0] w3 HF3) as (w6 & Hexit & HF6 & Hu6 & St6 & Hpurged).
  exists w6. split; [etransitivity; [exact (Hk _ _)|]|].
  - calls Hpid. calls Htid. rewrite (bind_run _ _ _ 0 w3) by done. calls Hup. rewrite (bind_run _ _ _ HXNU_NATIVE_ABI_VERSION w3) by done.
    rewrite (bind_run _ _ _ _ w6 Hexit). change (Z.of_nat 64) with 64. by destruct (file_results w 64) as [? [? ?]].
  - split; [done|by eapply stable_trans; [exact St3|]|by apply (purged_from w w3 w6 _ _ _ Haf)|]. intros a H1 _ _. rewrite Hu6. exact (af_memory _ _ _ _ Haf a H1).
Qed.

(** ** The gate *)
Context (frame_ptr : Z) (frame : list Z) (Hframe : (12 <= length frame)%nat).

(** The call that goes through the gate is the call of [dispatch], its value as 64 bits. *)
Lemma invoke_run {E} abi number args w v w' : abi <> PosixLcl ->
  dispatch (E:=E) L tsc cr3 hhdm_offset abi number [arg args 0; arg args 1; arg args 2; arg args 3; arg args 4; arg args 5] w = (Ok (success v), w') -> in_i64 v ->
  invoke_syscall (E:=E) L tsc cr3 hhdm_offset frame_ptr frame abi number args w = (Ok v, w').
Proof.
  intros Habi H Hv. unfold invoke_syscall, handle_syscall_frame. destruct (invoke_frame_words frame abi number args Hframe) as (-> & -> & Hargs).
  assert (Hd : decode_syscall_abi (syscall_abi_selector abi) = Some abi) by (by destruct abi). rewrite Hd.
  unfold bind at 1. rewrite (bind_run _ _ _ (success v) w') by (rewrite Hargs; exact H). cbv beta iota delta [success action value ret fst]. by rewrite as_i64_cast.
Qed.

Ltac through H := match goal with |- invoke_syscall _ _ _ _ _ _ ?abi ?n ?a ?s = (Ok ?v, ?s') => apply (invoke_run abi n a s v s'); [done|exact H|] end.

Lemma gate_file abi rd cl op oargs path w buffer : abi <> PosixLcl ->
  (forall args s, dispatch (E:=unit) L tsc cr3 hhdm_offset abi rd args s = read_from_fd args s) ->
  (forall args s, dispatch (E:=unit) L tsc cr3 hhdm_offset abi cl args s = close_fd args s) ->
  (forall s, dispatch (E:=unit) L tsc cr3 hhdm_offset abi op [arg oargs 0; arg oargs 1; arg oargs 2; arg oargs 3; arg oargs 4; arg oargs 5] s = sys_open AT_FDCWD path 0 s) ->
  files_ok w -> user_string (w_user w) path OPEN_PATH -> user_range buffer 48 ->
  exists w', after_file w w' buffer 48 /\ forall {A} (k : Z -> Z * Z -> M World unit A),
    (let! o := invoke_syscall L tsc cr3 hhdm_offset frame_ptr frame abi op oargs in
     let! rc := read_and_close (invoke_syscall L tsc cr3 hhdm_offset frame_ptr frame abi) rd cl o buffer 48 in k o rc) w =
    k (fst (file_results w 48)) (snd (file_results w 48)) w'.
Proof.
  intros Habi Hr Hc Ho HF Hp Hb. apply (file_part (invoke_syscall (E:=unit) L tsc cr3 hhdm_offset frame_ptr frame abi) rd cl op oargs path) with (size := 48%nat); try first [done|lia].
  - intros args s v s' H. apply invoke_run; [done|]. by rewrite Hr.
  - intros args s v s' H. apply invoke_run; [done|]. by rewrite Hc.
  - intros s v s' H. apply invoke_run; [done|]. by rewrite Ho.
Qed.

(** A path that lies outside the buffer is still there. *)
Lemma after_file_path w w' buffer path : after_file w w' buffer 48 -> user_string (w_user w) path OPEN_PATH -> path + 14 <= buffer \/ buffer + 48 <= path ->
  user_string (w_user w') path OPEN_PATH.
Proof.
  intros Haf (Hr & Hnz & Hb) Hap. split; [done|]. split; [done|]. intros i b Hi. rewrite (af_memory _ _ _ _ Haf); [by apply Hb|].
  apply lookup_lt_Some in Hi. change (length (OPEN_PATH ++ [0])) with 14%nat in Hi. lia.
Qed.
Lemma after_file_trans w w1 w2 buffer buffer' : after_file w w1 buffer 48 -> after_file w1 w2 buffer' 48 -> stable w w2 /\ table_of w2 = table_of w.
Proof. intros [_ S1 T1 _] [_ S2 T2 _]. split; [by eapply stable_trans|congruence]. Qed.

Record gate_ready (w : World) (text path b1 b2 b3 : Z) : Prop := {
  gr_files : files_ok w;
  gr_text : text_at w text GATE_SMOKE;
  gr_path : user_string (w_user w) path OPEN_PATH;
  gr_buffers : Forall (fun b => user_range b 48 /\ (path + 14 <= b \/ b + 48 <= path)) [b1; b2; b3];
  gr_ids : let '(tid, pid, _) := current_ids w in 0 <= tid /\ 0 <= pid }.

(** Through [int 0x80] the three sets of call numbers return the same results: each opens the
    lowest free descriptor of the same file, reads and closes it, and so leaves the tables as the
    next one found them; the values come back through the saved [rax] unchanged. *)
Theorem syscall_self_test_spec (w : World) (text path b1 b2 b3 : Z) (Hready : gate_ready w text path b1 b2 b3) :
  exists w', run_syscall_self_test (E:=unit) L tsc cr3 hhdm_offset frame_ptr frame text path b1 b2 b3 w =
    (Ok (gate_expected w), w') /\
    files_ok w' /\ stable (said GATE_SMOKE w) w' /\ table_of w' = table_of w.
Proof.
  destruct Hready as [HF [Htr Htl] Hp Hbufs Hpos]. unfold gate_expected. apply Forall_cons in Hbufs as [[R1 A1] Hbufs]. apply Forall_cons in Hbufs as [[R2 A2] Hbufs]. apply Forall_cons in Hbufs as [[R3 A3] _].
  set (w0 := said GATE_SMOKE w). assert (HF0 : files_ok w0) by (by apply said_ok).
  destruct (gate_file LinuxBootstrap LINUX_SYS_READ LINUX_SYS_CLOSE LINUX_SYS_OPENAT [cast U64 (-100); path; 0; 0; 0; 0] path w0 b1 ltac:(done) ltac:(done) ltac:(done) ltac:(done) HF0 Hp R1)
    as (w1 & F1 & K1). assert (P1 := after_file_path _ _ _ _ F1 Hp A1).
  destruct (gate_file GhostBootstrap GHOST_SYS_READ GHOST_SYS_CLOSE GHOST_SYS_OPEN [path; 0; 0; 0; 0; 0] path w1 b2 ltac:(done) ltac:(done) ltac:(done) ltac:(done) (af_files _ _ _ _ F1) P1 R2)
    as (w2 & F2 & K2). assert (P2 := after_file_path _ _ _ _ F2 P1 A2). destruct (after_file_trans _ _ _ _ _ F1 F2) as [S2 T2].
  destruct (gate_file HxnuNativeBootstrap HXNU_SYS_READ HXNU_SYS_CLOSE HXNU_SYS_OPEN [path; 0; 0; 0; 0; 0] path w2 b3 ltac:(done) ltac:(done) ltac:(done) ltac:(done) (af_files _ _ _ _ F2) P2 R3)
    as (w3 & F3 & K3).
  assert (I1 := id_calls (E:=unit) w1 (af_files _ _ _ _ F1)). assert (I2 := id_calls (E:=unit) w2 (af_files _ _ _ _ F2)).
  rewrite (current_ids_same _ _ (af_stable _ _ _ _ F1)) in I1. rewrite (current_ids_same _ _ S2) in I2. change (current_ids w0) with (current_ids w) in I1, I2.
  rewrite (file_results_same w0 w1) in K2 by (apply F1 || done). rewrite (file_results_same w0 w2) in K3 by (apply F2 || done).
  change (file_results w0 48) with (file_results w 48) in K1, K2, K3.
  destruct (current_ids w) as [[tid pid] ppid]. destruct I1 as (_ & Ipid & _), I2 as (Itid & _ & _), Hpos as [Pt Pp].
  exists w3. split; [|split; [apply F3|]; split; [eapply stable_trans; [exact S2|apply F3]|]].
  - unfold run_syscall_self_test. cbv zeta. rewrite (bind_run _ _ _ (len GATE_SMOKE) w0).
    2:{ assert (Hw := write_run (E:=unit) w text GATE_SMOKE eq_refl ltac:(done) Htr Htl). through Hw. done. }
    etransitivity; [exact (K1 _ _)|]. rewrite (bind_run _ _ _ (id_result pid) w1) by (through Ipid; by apply id_result_i64).
    etransitivity; [exact (K2 _ _)|]. rewrite (bind_run _ _ _ (id_result tid) w2) by (through Itid; by apply id_result_i64).
    etransitivity; [exact (K3 _ _)|]. rewrite (bind_run _ _ _ HXNU_NATIVE_ABI_VERSION w3).
    2:{ apply invoke_run; [done|reflexivity|done]. }
    by destruct (file_results w 48) as [? [? ?]].
  - rewrite (af_table _ _ _ _ F3). exact T2.
Qed.
End answers.
