(* ===== verification/Secinter.v ===== *)
(** * Identification of system calls: [kernel/src/secinter.rs]

    A call is identified by 64 bits: its thread, an entropy score of the bytes of its
    number and arguments, and a hash of them. The score of [n] bytes is
    [(n log n - sum of c log c) / n] over the counts [c] of the byte values, from a
    table of [c log2 c] scaled by 1024. *)
From stdpp Require Import base list numbers option gmap sorting.
From Stdlib Require Import ZArith Lia Bool.
From S2P Require Import Prelude Sched.

Definition C_LOG_C_LUT : list Z :=
  [0; 0; 2048; 4869; 8192; 11888; 15882; 20123; 24576; 29214; 34017; 38967; 44052;
   49260; 54582; 60010; 65536; 71155; 76860; 82648; 88513; 94452; 100462; 106539;
   112680; 118883; 125145; 131463; 137836; 144263; 150740; 157266; 163840; 170460;
   177125; 183834; 190584; 197376; 204207; 211078; 217986; 224931; 231913; 238929;
   245980; 253065; 260182; 267331; 274512; 281724; 288965; 296237; 303537; 310866;
   318222; 325606; 333017; 340454; 347917; 355406; 362919; 370458; 378020; 385606;
   393216].
Definition FNV_PRIME : Z := 16777619.
Definition FNV_OFFSET_BASIS : Z := 2166136261.

Fixpoint fnv1a (hash : Z) (data : list Z) : Z :=
  match data with
  | [] => hash
  | byte :: rest => fnv1a (wrap_mul U32 (Z.lxor hash byte) FNV_PRIME) rest
  end.
Definition fnv1a_32 (data : list Z) : Z := fnv1a FNV_OFFSET_BASIS data.

Section entropy.
Context {E : Type}.
Fixpoint count_bytes (counts data : list Z) : outcome E (list Z) :=
  match data with
  | [] => Ok counts
  | byte :: rest =>
      let? c := idx counts byte in
      let? c := add U8 c 1 in
      let? counts := set_at counts byte c in
      count_bytes counts rest
  end.

Fixpoint sum_c_log_c (counts : list Z) (sum : Z) : outcome E Z :=
  match counts with
  | [] => Ok sum
  | count :: rest =>
      if 0 <? count then
        let? v := idx C_LOG_C_LUT (Z.min count 64) in
        let? sum := add U32 sum v in
        sum_c_log_c rest sum
      else sum_c_log_c rest sum
  end.

Definition compute_entropy (data : list Z) : outcome E Z :=
  let? counts := count_bytes (replicate 256 0) data in
  let? sum := sum_c_log_c counts 0 in
  let? total := idx C_LOG_C_LUT (Z.min (len data) 64) in
  Ok (if 0 <? len data then cast U16 (sat_sub total sum / cast U32 (len data)) else 0).

(** [args[i]] is copied to [payload[8 + 8i .. 16 + 8i]]. *)
Fixpoint fill_payload (payload : list Z) (start : Z) (words : list Z) : outcome E (list Z) :=
  match words with
  | [] => Ok payload
  | w :: rest => let? payload := blit payload start (le_bytes 8 w) in fill_payload payload (start + 8) rest
  end.

Definition generate_syscall_entropy_id (number : Z) (args : list Z) : M Scheduler E Z :=
  let! payload := lift (blit (replicate 56 0) 0 (le_bytes 8 number)) in
  let! payload := lift (fill_payload payload 8 args) in
  let! entropy_score := lift (compute_entropy payload) in
  let hash := fnv1a_32 payload in
  let! tid := current_thread_id in
  let thread_id := cast U16 (Z.land tid 0xffff) in
  ret (Z.lor (Z.lor (Z.shiftl thread_id 48) (Z.shiftl entropy_score 32)) hash).
End entropy.

(** ** The table *)
Definition lut (c : Z) : Z := default 0 (C_LOG_C_LUT !! Z.to_nat (Z.min c 64)).

(** Two counts merged into one weigh more, by more than one unit per byte. *)
Definition lut_gap : bool :=
  forallb (fun a => forallb (fun b => if a + b <=? 64 then lut a + lut b + (a + b) <=? lut (a + b) else true) (seqZ 1 63)) (seqZ 1 63).
Lemma lut_superadditive a b : 1 <= a -> 1 <= b -> a + b <= 64 -> lut a + lut b + (a + b) <= lut (a + b).
Proof.
  intros Ha Hb Hab. assert (H : lut_gap = true) by (vm_compute; reflexivity). unfold lut_gap in H.
  rewrite forallb_forall in H. specialize (H a). assert (Hin : forall x, 1 <= x <= 63 -> In x (seqZ 1 63)).
  { intros x Hx. apply list_elem_of_In, elem_of_seqZ. lia. }
  specialize (H (Hin a ltac:(lia))). cbv beta in H. rewrite forallb_forall in H. specialize (H b (Hin b ltac:(lia))).
  cbv beta in H. rewrite (proj2 (Z.leb_le (a + b) 64) ltac:(lia)) in H. by apply Z.leb_le.
Qed.

Lemma lut_bound c : 0 <= lut c <= 393216.
Proof.
  assert (H : forallb (fun v => (0 <=? v) && (v <=? 393216)) C_LOG_C_LUT = true) by (vm_compute; reflexivity). rewrite forallb_forall in H.
  unfold lut. destruct (C_LOG_C_LUT !! _) as [v|] eqn:Hv; [|cbn; lia]. apply list_elem_of_lookup_2, list_elem_of_In in Hv.
  specialize (H v Hv). apply andb_true_iff in H as [H1%Z.leb_le H2%Z.leb_le]. cbn. unfold id. lia.
Qed.

Lemma lut_idx {E} c : 0 <= c -> idx (E:=E) C_LOG_C_LUT (Z.min c 64) = Ok (lut c).
Proof.
  intros Hc. destruct (idx_total (E:=E) C_LOG_C_LUT (Z.min c 64)) as (x & Hx & Hl); [unfold len; cbn; lia|]. rewrite Hx. unfold lut. by rewrite Hl.
Qed.

(** ** Counting *)
Definition count_of (data : list Z) (b : Z) : Z := len (filter (eq b) data).
Definition counted (data : list Z) : list Z := count_of data <$> seqZ 0 256.

Lemma count_cons x data b : count_of (x :: data) b = (if decide (b = x) then 1 else 0) + count_of data b.
Proof. unfold count_of. rewrite filter_cons. destruct (decide (b = x)); [rewrite len_cons|]; lia. Qed.
Lemma count_nonneg data b : 0 <= count_of data b <= len data.
Proof. unfold count_of, len. pose proof (length_filter (eq b) data). lia. Qed.

(** The counters after [data], when they held those of [before]. *)
Lemma count_bytes_run {E} data : forall before, byte_list data -> byte_list before -> len before + len data <= 255 ->
  count_bytes (E:=E) (counted before) data = Ok (counted (rev data ++ before)).
Proof.
  induction data as [|x data IH]; intros before Hd Hb Hl; [done|]. apply Forall_cons_iff in Hd as [Hx Hd]. unfold in_range in Hx. rewrite len_cons in Hl.
  cbn [count_bytes]. pose proof (len_nonneg data) as Hn. assert (Hlk : counted before !! Z.to_nat x = Some (count_of before x)).
  { unfold counted. rewrite list_lookup_fmap, lookup_seqZ_lt by lia. cbn. do 2 f_equal. lia. }
  rewrite (idx_ok _ x _ ltac:(lia) Hlk). cbn [obind]. pose proof (count_nonneg before x) as Hc. rewrite add_ok by lia. cbn [obind].
  assert (Hlen : length (counted before) = 256%nat) by (unfold counted; by rewrite length_fmap, length_seqZ).
  unfold set_at. rewrite blit_ok by (unfold len; rewrite ?Hlen; cbn; lia). cbn [obind].
  match goal with |- count_bytes ?l data = _ => replace l with (counted (x :: before)) end.
  - rewrite (IH (x :: before)); [|done|by constructor|rewrite len_cons; lia]. cbn [rev]. by rewrite <- app_assoc.
  - unfold len. cbn [length]. replace (Z.to_nat (x + Z.of_nat 1)) with (S (Z.to_nat x)) by lia. cbn [app]. rewrite <- insert_take_drop by lia. apply list_eq. intros i.
    destruct (decide (i < 256)%nat) as [Hi|Hi].
    + assert (Hcnt : forall l, counted l !! i = Some (count_of l (Z.of_nat i))).
      { intros l. unfold counted. rewrite list_lookup_fmap, lookup_seqZ_lt by lia. done. }
      rewrite Hcnt, count_cons. destruct (decide (i = Z.to_nat x)) as [->|Hne].
      * rewrite list_lookup_insert_eq by lia. rewrite decide_True by lia. f_equal. rewrite Z2Nat.id by lia. lia.
      * rewrite list_lookup_insert_ne by lia. rewrite decide_False by lia. by rewrite Hcnt.
    + rewrite !lookup_ge_None_2; [done| |]; rewrite ?length_insert; unfold counted in *; rewrite ?length_fmap, ?length_seqZ in *; lia.
Qed.

Lemma counted_perm l k : l ≡ₚ k -> counted l = counted k.
Proof. intros H. unfold counted. apply list_fmap_ext. intros i x _. unfold count_of, len. by rewrite H. Qed.
Lemma counted_nil : counted [] = replicate 256 0.
Proof. vm_compute. reflexivity. Qed.

(** ** The sum over the counters *)
Lemma sum_run {E} counts : forall sum, Forall (fun c => 0 <= c) counts -> 0 <= sum -> sum + 393216 * len counts < U32 ->
  sum_c_log_c (E:=E) counts sum = Ok (sum + zsum lut counts).
Proof.
  induction counts as [|c counts IH]; intros sum Hc Hs Hl; cbn [sum_c_log_c]; [unfold zsum; cbn; f_equal; lia|].
  apply Forall_cons_iff in Hc as [Hc Hcs]. rewrite len_cons in Hl. rewrite zsum_cons. pose proof (lut_bound c) as Hb.
  destruct (Z.ltb_spec 0 c) as [Hpos|Hz].
  - rewrite lut_idx by lia. cbn [obind]. pose proof (len_nonneg counts). rewrite add_ok by lia. cbn [obind]. rewrite IH; [f_equal; lia|done|lia|lia].
  - replace c with 0 by lia. rewrite IH; [|done|lia|lia]. replace (lut 0) with 0 by reflexivity. f_equal.
Qed.

Lemma zsum_plus {A} (f g : A -> Z) l : zsum (fun x => f x + g x) l = zsum f l + zsum g l.
Proof. induction l as [|x l IH]; [done|]. rewrite !zsum_cons, IH. lia. Qed.
Lemma zsum_fmap {A B} (f : B -> Z) (g : A -> B) l : zsum f (g <$> l) = zsum (fun x => f (g x)) l.
Proof. induction l as [|x l IH]; [done|]. cbn [fmap list_fmap]. by rewrite !zsum_cons, IH. Qed.
Lemma zsum_single (x : Z) l : NoDup l -> x ∈ l -> zsum (fun b => if decide (b = x) then 1 else 0) l = 1.
Proof.
  induction 1 as [|y l Hy Hl IH]; intros Hx; [by apply elem_of_nil in Hx|]. rewrite zsum_cons. destruct (decide (y = x)) as [->|Hne].
  - assert (Hz : zsum (fun b => if decide (b = x) then 1 else 0) l = 0); [|lia]. clear -Hy. induction l as [|z l IHl]; [done|].
    apply not_elem_of_cons in Hy as [Hz Hy]. rewrite zsum_cons, decide_False by congruence. by rewrite IHl.
  - apply elem_of_cons in Hx as [->|Hx]; [done|]. rewrite IH by done. lia.
Qed.

Lemma counted_sum data : byte_list data -> zsum (fun c => c) (counted data) = len data.
Proof.
  intros Hd. unfold counted. rewrite zsum_fmap. induction Hd as [|x data Hx Hd IH]; [vm_compute; reflexivity|]. unfold in_range in Hx.
  rewrite (zsum_ext _ (fun b => (if decide (b = x) then 1 else 0) + count_of data b)) by (apply Forall_forall; intros b _; apply count_cons).
  rewrite zsum_plus, zsum_single; [rewrite len_cons; f_equal; exact IH|apply NoDup_seqZ|apply elem_of_seqZ; lia].
Qed.

(** The counts of [n] bytes weigh at most what one count of [n] does, and less by [n] or
    more unless one count is [n]. *)
Lemma lut_sum cs : Forall (fun c => 0 <= c) cs -> zsum (fun c => c) cs <= 64 ->
  let n := zsum (fun c => c) cs in 0 <= n /\ 0 <= zsum lut cs <= lut n /\ (n ∈ cs \/ n = 0 \/ zsum lut cs + n <= lut n).
Proof.
  induction 1 as [|c cs Hc Hcs IH]; cbn zeta; [unfold zsum; cbn; intros _; replace (lut 0) with 0 by reflexivity; lia|].
  rewrite !zsum_cons. intros Hl. destruct IH as (Hn & Hb & Hor); [lia|]. set (n := zsum (fun c => c) cs) in *. pose proof (lut_bound c) as Hc2.
  split; [lia|]. destruct (Z.eq_dec c 0) as [->|Hcz].
  - replace (lut 0) with 0 by reflexivity. rewrite !Z.add_0_l. split; [done|]. destruct Hor as [H|H]; [left; by right|by right].
  - destruct (Z.eq_dec n 0) as [Hz|Hnz].
    + rewrite Hz in *. replace (lut 0) with 0 in * by reflexivity. rewrite !Z.add_0_r. replace (zsum lut cs) with 0 by lia. split; [lia|]. left. left.
    + pose proof (lut_superadditive c n ltac:(lia) ltac:(lia) ltac:(lia)). split; [lia|]. right. right. lia.
Qed.

Lemma counted_nonneg data : Forall (fun c => 0 <= c) (counted data).
Proof. apply Forall_fmap, Forall_forall. intros b _. apply count_nonneg. Qed.

Lemma lut_rate n : 1 <= n <= 64 -> lut n / n <= 6144.
Proof.
  intros Hn. assert (H : forallb (fun n => lut n / n <=? 6144) (seqZ 1 64) = true) by (vm_compute; reflexivity). rewrite forallb_forall in H.
  apply Z.leb_le, H, list_elem_of_In, elem_of_seqZ. lia.
Qed.

(** The score of at most 64 bytes, in closed form. *)
Lemma entropy_run {E} data : byte_list data -> len data <= 64 ->
  compute_entropy (E:=E) data = Ok (if 0 <? len data then (lut (len data) - zsum lut (counted data)) / len data else 0).
Proof.
  intros Hd Hl. unfold compute_entropy. rewrite <- counted_nil, (count_bytes_run data []); [|done|constructor|rewrite (@len_nil Z); lia]. cbn [obind].
  rewrite app_nil_r, (counted_perm (rev data) data) by (by rewrite <- Permutation_rev).
  rewrite sum_run; [|apply counted_nonneg|lia|unfold counted, len; rewrite length_fmap, length_seqZ; vm_compute; reflexivity]. cbn [obind].
  pose proof (len_nonneg data) as Hn. rewrite lut_idx by lia. cbn [obind]. rewrite Z.add_0_l. f_equal.
  destruct (Z.ltb_spec 0 (len data)) as [Hpos|]; [|done]. destruct (lut_sum (counted data) (counted_nonneg data)) as (_ & Hs & _); [rewrite counted_sum by done; lia|].
  rewrite counted_sum in Hs by done. pose proof (lut_bound (len data)) as Hb. unfold cast, sat_sub. rewrite (Z.mod_small (len data)) by lia.
  rewrite Z.max_l by lia. apply Z.mod_small. split; [apply Z.div_pos; lia|]. 
  pose proof (lut_rate (len data) ltac:(lia)). assert ((lut (len data) - zsum lut (counted data)) / len data <= lut (len data) / len data) by (apply Z.div_le_mono; lia). lia.
Qed.

Lemma count_all data b : count_of data b = len data <-> Forall (eq b) data.
Proof.
  induction data as [|x data IH]; [split; [constructor|done]|]. rewrite count_cons, len_cons, Forall_cons_iff, <- IH. pose proof (count_nonneg data b).
  destruct (decide (b = x)) as [->|Hne]; [split; [intros; split; [done|lia]|intros [_ ?]; lia]|]. split; [lia|]. by intros [? _].
Qed.

(** Equal bytes: one counter holds them all. *)
Lemma counted_equal data b : 0 <= b < 256 -> Forall (eq b) data -> zsum lut (counted data) = lut (len data).
Proof.
  intros Hbr Hb. pose proof (proj2 (count_all data b) Hb) as Hbc. unfold counted. rewrite zsum_fmap.
  rewrite (zsum_ext _ (fun x => lut (len data) * (if decide (x = b) then 1 else 0))).
  - transitivity (lut (len data) * zsum (fun x => if decide (x = b) then 1 else 0) (seqZ 0 256)).
    + generalize (seqZ 0 256). intros l. induction l as [|y l IH]; [unfold zsum; cbn; lia|]. rewrite !zsum_cons, IH. lia.
    + rewrite zsum_single; [lia|apply NoDup_seqZ|apply elem_of_seqZ; lia].
  - apply Forall_forall. intros x _. destruct (decide (x = b)) as [->|Hne]; [rewrite Hbc; lia|].
    assert (count_of data x = 0) as ->; [|replace (lut 0) with 0 by reflexivity; lia].
    clear -Hb Hne. induction Hb as [|y l <- Hl IH]; [done|]. rewrite count_cons, IH, decide_False by congruence. lia.
Qed.

(** The entropy score of one to 64 bytes never panics, lies between 0 and 6144 (six
    bits, scaled by 1024), does not depend on the order of the bytes, and is 0 exactly
    when all the bytes are equal; the subtraction never saturates. *)
Theorem entropy_score_spec {E} (data : list Z) (Hbytes : byte_list data) (Hlen : 0 < len data <= 64) :
  exists s, compute_entropy (E:=E) data = Ok s /\ 0 <= s <= 6144 /\ (s = 0 <-> exists b, Forall (eq b) data) /\
    forall data', data' ≡ₚ data -> compute_entropy (E:=E) data' = Ok s.
Proof.
  rewrite (entropy_run data) by (done || lia). rewrite (proj2 (Z.ltb_lt 0 (len data))) by lia. eexists. split; [reflexivity|].
  destruct (lut_sum (counted data) (counted_nonneg data)) as (_ & Hs & Hor); [rewrite counted_sum by done; lia|]. rewrite counted_sum in Hs, Hor by done.
  pose proof (lut_rate (len data) ltac:(lia)) as Hmax. split; [|split].
  - assert ((lut (len data) - zsum lut (counted data)) / len data <= lut (len data) / len data) by (apply Z.div_le_mono; lia). split; [apply Z.div_pos; lia|lia].
  - split.
    + intros Hz. destruct Hor as [Hin|[?|Hgap]]; [|lia|].
      * unfold counted in Hin. apply list_elem_of_fmap in Hin as (b & Hb & _). exists b. by apply count_all.
      * exfalso. assert (1 <= (lut (len data) - zsum lut (counted data)) / len data) by (apply Z.div_le_lower_bound; lia). lia.
    + intros (b & Hb). rewrite (counted_equal data b), Z.sub_diag; [apply Z.div_0_l; lia| |done].
      destruct data as [|x data]; [unfold len in Hlen; cbn in Hlen; lia|]. apply Forall_cons_iff in Hb as [-> _]. apply Forall_cons_iff in Hbytes as [Hx _]. exact Hx.
  - intros data' Hp. assert (Hb' : byte_list data') by (unfold byte_list; by rewrite Hp). assert (Hl' : len data' = len data) by (unfold len; by rewrite Hp).
    rewrite (entropy_run data') by (done || lia). rewrite Hl', (counted_perm _ _ Hp). by rewrite (proj2 (Z.ltb_lt 0 (len data))) by lia.
Qed.

Lemma entropy_score_spec_witness : exists s, compute_entropy (E:=unit) [1; 2; 3; 1] = Ok s /\ 0 <= s <= 6144 /\ compute_entropy (E:=unit) [3; 1; 1; 2] = Ok s.
Proof.
  destruct (entropy_score_spec (E:=unit) [1; 2; 3; 1]) as (s & Hs & Hb & _ & Hp); [apply byte_list_check; reflexivity|unfold len; cbn [length]; lia|].
  exists s. split; [exact Hs|]. split; [exact Hb|]. apply Hp. vm_compute. solve_Permutation.
Defined.

(** The counters are bytes: 256 equal bytes overflow one. *)
Example entropy_counter_overflows : compute_entropy (E:=unit) (replicate 256 0) = Panic.
Proof. vm_compute. reflexivity. Qed.

(** ** The identifier *)
Lemma fnv1a_range data : forall h, 0 <= h < U32 -> 0 <= fnv1a h data < U32.
Proof. induction data as [|b data IH]; intros h Hh; cbn [fnv1a]; [done|]. apply IH. unfold wrap_mul. apply Z.mod_pos_bound. lia. Qed.

Definition payload_of (number : Z) (args : list Z) : list Z := concat (le_bytes 8 <$> number :: args).

Lemma fill_payload_run {E} words : forall done_ rest, length rest = (8 * length words)%nat ->
  fill_payload (E:=E) (done_ ++ rest) (len done_) words = Ok (done_ ++ concat (le_bytes 8 <$> words)).
Proof.
  induction words as [|w words IH]; intros done_ rest Hr; cbn [fill_payload fmap list_fmap concat].
  - destruct rest; [done|]. cbn in Hr. lia.
  - rewrite <- (take_drop 8 rest). cbn [length] in Hr. rewrite (blit_app done_ (take 8 rest) (drop 8 rest) (le_bytes 8 w)); [|done|rewrite length_take, length_le_bytes; lia]. cbn [obind].
    replace (len done_ + 8) with (len (done_ ++ le_bytes 8 w)) by (rewrite len_app; unfold len; rewrite length_le_bytes; lia).
    rewrite (app_assoc done_), (IH (done_ ++ le_bytes 8 w) (drop 8 rest)); [by rewrite <- app_assoc|]. rewrite length_drop. lia.
Qed.

(** Every system call gets its identifier without a panic and without a change of the
    scheduler: bits 48 to 63 are the thread's number modulo 65536, bits 32 to 47 the
    entropy score of the call's 56 bytes and bits 0 to 31 their FNV-1a hash, so the
    three parts can be read back. *)
Theorem syscall_entropy_id_spec {E} (number : Z) (args : list Z) (s : Scheduler) (tid : Z) (Hargs : length args = 6%nat) (Htid : 0 <= tid)
    (Hrun : current_thread_id (E:=E) s = (Ok tid, s)) :
  exists score v, generate_syscall_entropy_id (E:=E) number args s = (Ok v, s) /\ compute_entropy (E:=E) (payload_of number args) = Ok score /\
    0 <= v < U64 /\ Z.shiftr v 48 = tid mod U16 /\ Z.shiftr v 32 mod U16 = score /\ v mod U32 = fnv1a_32 (payload_of number args).
Proof.
  set (p := payload_of number args). assert (Hp : byte_list p).
  { unfold p, payload_of, byte_list. apply Forall_concat, Forall_fmap, Forall_forall. intros w _. apply le_bytes_byte. }
  assert (Hlen : length p = 56%nat).
  { unfold p, payload_of. rewrite length_concat. do 7 (destruct args as [|? args]; try (cbn in Hargs; lia)); cbn [fmap list_fmap]; unfold fmap, list_fmap, sum_list, sum_list_with; rewrite ?length_le_bytes; reflexivity. }
  destruct (entropy_score_spec (E:=E) p Hp) as (score & Hscore & Hb & _); [unfold len; rewrite Hlen; lia|].
  assert (Hpay : (let? q := blit (E:=E) (replicate 56 0) 0 (le_bytes 8 number) in fill_payload q 8 args) = Ok p).
  { change (replicate 56 0) with ([] ++ replicate 8 0 ++ replicate 48 0). rewrite blit_app; [|done|by rewrite length_le_bytes]. cbn [obind app].
    replace 8 with (len (le_bytes 8 number)) by (unfold len; by rewrite length_le_bytes). rewrite fill_payload_run by (by rewrite Hargs). done. }
  exists score. unfold generate_syscall_entropy_id, bind, lift. destruct (blit (replicate 56 0) 0 (le_bytes 8 number)) as [q|e| |]; try done. cbn [obind] in Hpay. rewrite Hpay, Hscore, Hrun. unfold ret.
  eexists. split; [reflexivity|]. split; [done|]. pose proof (fnv1a_range p FNV_OFFSET_BASIS ltac:(unfold FNV_OFFSET_BASIS; lia)) as Hh. fold (fnv1a_32 p) in Hh.
  set (h := fnv1a_32 p) in *. assert (Ht : cast U16 (Z.land tid 0xffff) = tid mod U16).
  { unfold cast. change 0xffff with (Z.ones 16). rewrite Z.land_ones by lia. change (2 ^ 16) with U16. by rewrite Z.mod_mod. }
  rewrite Ht. pose proof (Z.mod_pos_bound tid U16 ltac:(lia)) as Htr. set (t := tid mod U16) in *. clearbody t h.
  rewrite !Z.shiftl_mul_pow2, !Z.shiftr_div_pow2 by lia.
  assert (Hv : Z.lor (Z.lor (t * 2 ^ 48) (score * 2 ^ 32)) h = t * 2 ^ 48 + score * 2 ^ 32 + h).
  { rewrite (lor_disjoint _ (score * 2 ^ 32) 48), (lor_disjoint _ h 32); try lia; [|exists t; lia]. exists (t * 2 ^ 16 + score). lia. }
  rewrite Hv. change (2 ^ 48) with 281474976710656. change (2 ^ 32) with 4294967296. Z.to_euclidean_division_equations. lia.
Qed.

Lemma syscall_entropy_id_spec_witness : exists v, generate_syscall_entropy_id (E:=unit) 1 [1; 0x400000; 14; 0; 0; 0] (new_sched ∅ 0 []) = (Ok v, new_sched ∅ 0 []) /\
  v mod U32 = fnv1a_32 (payload_of 1 [1; 0x400000; 14; 0; 0; 0]).
Proof.
  destruct (syscall_entropy_id_spec (E:=unit) 1 [1; 0x400000; 14; 0; 0; 0] (new_sched ∅ 0 []) 0) as (score & v & Hrun & _ & _ & _ & _ & Hh); [reflexivity|lia|reflexivity|].
  exists v. split; [exact Hrun|exact Hh].
Defined.
