(* ===== verification/Rk3588.v ===== *)
(** * Registers of the RK3588: [boot/gboot/src/rk3588_regs.rs]

    The addresses and bit masks the boot loader uses, and its helpers for registers
    whose upper half selects the bits of the lower half that a write changes. *)
From stdpp Require Import base list numbers option.
From Stdlib Require Import ZArith Lia Bool.
From S2P Require Import Prelude.

(** ** Base addresses *)
Definition SYS_GRF_BASE : Z := 0xFD580000.
Definition PHP_GRF_BASE : Z := 0xFD5B0000.
Definition PCIE30_PHY_GRF_BASE : Z := 0xFD5B8000.
Definition CRU_BASE : Z := 0xFD7C0000.
Definition PMU_BASE : Z := 0xFD8D0000.
Definition RK3588_UART2_BASE : Z := 0xFEB50000.
Definition GICD_BASE : Z := 0xFE600000.
Definition GICD_CTLR : Z := GICD_BASE + 0x0000.

(** ** Registers and bits *)
Definition SOC_CON0_OFFSET : Z := 0x0300.
Definition SYS_GRF_SOC_CON0 : Z := SYS_GRF_BASE + SOC_CON0_OFFSET.
Definition PCIE_EP_MODE_FORCE_BIT : Z := 4.
Definition PCIE_EP_MODE_FORCE_MASK : Z := Z.shiftl 1 4.
Definition PCIE_EP_MODE_FORCE_ENABLE : Z := Z.shiftl 1 4.
Definition SYS_GRF_SOC_CON0_EP_FORCE : Z := Z.lor (Z.shiftl 1 20) (Z.shiftl 1 4).

Definition PHP_GRF_CON0 : Z := PHP_GRF_BASE + 0x0000.
Definition PCIE30X4_DEVICE_TYPE_BIT : Z := 0.
Definition PCIE30X4_DEVICE_TYPE_MASK : Z := Z.shiftl 1 0.
Definition PCIE30X4_DEVICE_TYPE_EP : Z := Z.shiftl 1 0.
Definition PHP_GRF_CON0_EP_MODE : Z := Z.lor (Z.shiftl 1 16) (Z.shiftl 1 0).

Definition PCIE30_PHY_GRF_CON0 : Z := PCIE30_PHY_GRF_BASE + 0x0000.
Definition STATUS0_OFFSET : Z := 0x0080.
Definition PCIE30_PHY_GRF_STATUS0 : Z := PCIE30_PHY_GRF_BASE + STATUS0_OFFSET.
Definition PHY_MODE_SEL_BIT : Z := 0.
Definition PHY_MODE_SEL_MASK : Z := Z.shiftl 1 0.
Definition PHY_MODE_SEL_EP : Z := Z.shiftl 1 0.
Definition REFCLK_SEL_BIT : Z := 1.
Definition REFCLK_SEL_MASK : Z := Z.shiftl 1 1.
Definition REFCLK_SEL_EXT : Z := Z.shiftl 0 1.
Definition PHY_RESET_N_BIT : Z := 4.
Definition PHY_RESET_N_MASK : Z := Z.shiftl 1 4.
Definition PHY_RESET_N_RELEASE : Z := Z.shiftl 1 4.
Definition STATUS0_PHY_PLL_LOCK : Z := Z.shiftl 1 0.
Definition PCIE30_PHY_GRF_CON0_EP_MODE : Z := Z.lor (Z.shiftl 1 16) (Z.shiftl 1 0).
Definition PCIE30_PHY_GRF_CON0_REFCLK_EXT : Z := Z.lor (Z.shiftl 1 17) (Z.shiftl 0 1).
Definition PCIE30_PHY_GRF_CON0_PHY_RST_DEASSERT : Z := Z.lor (Z.shiftl 1 20) (Z.shiftl 1 4).

Definition CLKGATE_CON28_OFFSET : Z := 0x0370.
Definition CRU_CLKGATE_CON28 : Z := CRU_BASE + CLKGATE_CON28_OFFSET.
Definition CLKGATE_CON29_OFFSET : Z := 0x0374.
Definition CRU_CLKGATE_CON29 : Z := CRU_BASE + CLKGATE_CON29_OFFSET.
Definition SOFTRST_CON28_OFFSET : Z := 0x0A70.
Definition CRU_SOFTRST_CON28 : Z := CRU_BASE + SOFTRST_CON28_OFFSET.
Definition CLKGATE_CON28_ALL_MASK : Z := 0x0007.
Definition CLKGATE_CON29_ALL_MASK : Z := 0x0030.
Definition SOFTRST_ALL_MASK : Z := 0x000F.
Definition SOFTRST_PHY_MASK : Z := 0x0008.
Definition SOFTRST_CTRL_MASK : Z := 0x0007.
Definition CRU_CLKGATE_CON28_PCIE_UNGATE : Z := 0x00070000.
Definition CRU_CLKGATE_CON29_PCIE_UNGATE : Z := 0x00300000.
Definition CRU_SOFTRST_CON28_ASSERT_ALL : Z := 0x000F000F.
Definition CRU_SOFTRST_CON28_DEASSERT_PHY : Z := 0x00080000.
Definition CRU_SOFTRST_CON28_DEASSERT_ALL : Z := 0x000F0000.

Definition PMU_PD_CON : Z := PMU_BASE + 0x0000.
Definition POWER_ST_OFFSET : Z := 0x0080.
Definition PMU_POWER_ST : Z := PMU_BASE + POWER_ST_OFFSET.
Definition PD_PCIE_CON_MASK : Z := Z.shiftl 1 4.
Definition PD_PCIE_CON_PWR_ON : Z := Z.shiftl 0 4.
Definition PMU_PD_CON_PCIE_ENABLE : Z := Z.lor (Z.shiftl 1 20) (Z.shiftl 0 4).
Definition PMU_POWER_ST_PD_PCIE_MASK : Z := Z.shiftl 1 4.

(** ** Values with their write mask *)
Definition write_enable_mask (mask val : Z) : Z := Z.lor (cast U32 (Z.shiftl mask 16)) (Z.land val mask).
Definition high_word_mask (mask val : Z) : Z := write_enable_mask mask val.
(** [1u16 << bit]: a shift by 16 or more is an overflow. *)
Definition write_enable_bit {E} (bit : Z) (val : bool) : outcome E Z :=
  if bit <? 16 then Ok (let mask := cast U16 (Z.shiftl 1 bit) in write_enable_mask mask (if val then mask else 0)) else Panic.

(** What such a register of the chip holds after [v] is written to it: a bit changes
    only where the upper half of [v] selects it. *)
Definition grf_latch (old v : Z) : Z :=
  let sel := Z.shiftr v 16 in Z.lor (Z.land old (bitnot U16 sel)) (Z.land (Z.land v 0xffff) sel).

(** ** Facts *)
Lemma testbit_high x k i : 0 <= x < 2 ^ k -> k <= i -> Z.testbit x i = false.
Proof.
  intros Hx Hi. assert (0 <= k) by (destruct (Z.ltb_spec k 0); [rewrite Z.pow_neg_r in Hx by lia; lia|done]).
  destruct (Z.eq_dec x 0) as [->|]; [apply Z.bits_0|]. apply Z.bits_above_log2; [lia|]. apply Z.log2_lt_pow2; [lia|].
  apply Z.lt_le_trans with (2 ^ k); [lia|]. apply Z.pow_le_mono_r; lia.
Qed.

Lemma land_small a b : 0 <= a -> 0 <= b < 65536 -> 0 <= Z.land a b < 65536.
Proof.
  intros Ha Hb. split; [apply Z.land_nonneg; lia|]. destruct (Z.ltb_spec (Z.land a b) 65536); [done|]. exfalso.
  assert (Z.testbit (Z.land a b) (Z.log2 (Z.land a b)) = true) as Hbit by (apply Z.bit_log2; lia).
  rewrite Z.land_spec, (testbit_high b 16) in Hbit; [by rewrite andb_false_r in Hbit|lia|]. apply Z.log2_le_pow2; lia.
Qed.

Lemma bitnot_bits sel i : 0 <= sel < U16 -> 0 <= i < 16 -> Z.testbit (bitnot U16 sel) i = negb (Z.testbit sel i).
Proof.
  intros Hs Hi. unfold bitnot. replace (U16 - 1 - sel) with (Z.lnot sel + 1 * 2 ^ 16) by (unfold Z.lnot; lia).
  transitivity (Z.testbit (Z.lnot sel mod 2 ^ 16) i); [|rewrite Z.mod_pow2_bits_low by lia; apply Z.lnot_spec; lia].
  rewrite <- (Z.mod_pow2_bits_low (Z.lnot sel + 1 * 2 ^ 16) 16) by lia. by rewrite Z.mod_add.
Qed.

(** A write changes exactly the bits its upper half selects. *)
Lemma latch_bit old v i : 0 <= v < U32 -> 0 <= i < 16 -> Z.testbit (grf_latch old v) i = if Z.testbit v (i + 16) then Z.testbit v i else Z.testbit old i.
Proof.
  intros Hv Hi. unfold grf_latch. assert (Hs : 0 <= Z.shiftr v 16 < U16) by (rewrite Z.shiftr_div_pow2 by lia; Z.to_euclidean_division_equations; lia).
  rewrite Z.lor_spec, !Z.land_spec, bitnot_bits, Z.shiftr_spec by lia. change 0xffff with (Z.ones 16). rewrite Z.ones_spec_low by lia.
  destruct (Z.testbit v (i + 16)), (Z.testbit v i), (Z.testbit old i); done.
Qed.

(** Each bit of the mask takes the bit of the value, every other bit keeps its own. *)
Lemma masked_write_bits old mask val i : 0 <= mask < U16 -> 0 <= val < U16 -> 0 <= i < 16 ->
  0 <= write_enable_mask mask val < U32 /\
  Z.testbit (grf_latch old (write_enable_mask mask val)) i = if Z.testbit mask i then Z.testbit val i else Z.testbit old i.
Proof.
  intros Hmask Hval Hi. assert (Hand : 0 <= Z.land val mask < 65536) by (apply land_small; lia).
  assert (Hw : write_enable_mask mask val = mask * 2 ^ 16 + Z.land val mask).
  { unfold write_enable_mask, cast. rewrite Z.shiftl_mul_pow2, Z.mod_small by lia. apply (lor_disjoint _ _ 16); [lia|exact Hand|exists mask; lia]. }
  assert (Hr : 0 <= write_enable_mask mask val < U32) by (rewrite Hw; lia). split; [done|]. rewrite latch_bit by done.
  unfold write_enable_mask, cast. rewrite Z.shiftl_mul_pow2, Z.mod_small by lia. rewrite !Z.lor_spec, !Z.land_spec.
  rewrite !Z.mul_pow2_bits, (Z.testbit_neg_r mask (i - 16)) by lia. replace (i + 16 - 16) with i by lia.
  rewrite (testbit_high mask 16 (i + 16)) by lia. rewrite !andb_false_r, orb_false_r. cbn [orb].
  destruct (Z.testbit mask i); [apply andb_true_r|done].
Qed.

(** The precomputed values are those the helpers compute. *)
Example precomputed_values :
  write_enable_mask PCIE_EP_MODE_FORCE_MASK PCIE_EP_MODE_FORCE_ENABLE = SYS_GRF_SOC_CON0_EP_FORCE /\
  write_enable_mask PCIE30X4_DEVICE_TYPE_MASK PCIE30X4_DEVICE_TYPE_EP = PHP_GRF_CON0_EP_MODE /\
  write_enable_mask PHY_MODE_SEL_MASK PHY_MODE_SEL_EP = PCIE30_PHY_GRF_CON0_EP_MODE /\
  write_enable_mask REFCLK_SEL_MASK REFCLK_SEL_EXT = PCIE30_PHY_GRF_CON0_REFCLK_EXT /\
  write_enable_mask PHY_RESET_N_MASK PHY_RESET_N_RELEASE = PCIE30_PHY_GRF_CON0_PHY_RST_DEASSERT /\
  write_enable_mask CLKGATE_CON28_ALL_MASK 0 = CRU_CLKGATE_CON28_PCIE_UNGATE /\
  write_enable_mask CLKGATE_CON29_ALL_MASK 0 = CRU_CLKGATE_CON29_PCIE_UNGATE /\
  write_enable_mask SOFTRST_ALL_MASK SOFTRST_ALL_MASK = CRU_SOFTRST_CON28_ASSERT_ALL /\
  write_enable_mask SOFTRST_PHY_MASK 0 = CRU_SOFTRST_CON28_DEASSERT_PHY /\
  write_enable_mask SOFTRST_ALL_MASK 0 = CRU_SOFTRST_CON28_DEASSERT_ALL /\
  write_enable_mask PD_PCIE_CON_MASK PD_PCIE_CON_PWR_ON = PMU_PD_CON_PCIE_ENABLE.
Proof. vm_compute. repeat split. Qed.
