(* ===== verification/Gboot.v ===== *)
(** * The boot loader of the RK3588: [boot/gboot/src]

    [Soc] is the processor and the writes it has made: the trace of register writes and
    maintenance instructions in order, the system registers, the general registers, the
    exception level and, once the loader has left, the address execution goes on at.
    What a read returns is an input: [device t p n] is the [n]-th read of place [p]
    after the trace [t]. Delay loops without an access have no effect here. *)
From stdpp Require Import base list numbers option strings.
From Stdlib Require Import ZArith Lia Bool.
From S2P Require Import Prelude Paths Text Rk3588.

Inductive Place : Type := Mem (addr : Z) | Port (port : Z).
Inductive SysReg : Type :=
  | ICC_SRE_EL1 | ICC_IGRPEN1_EL1 | ICC_PMR_EL1 | CPACR_EL1 | SCTLR_EL1 | CSSELR_EL1 | SCR_EL3 | HCR_EL2 | SPSR_EL3 | ELR_EL3 | SPSR_EL2 | ELR_EL2.
#[export] Instance SysReg_eq_dec : EqDecision SysReg. Proof. solve_decision. Defined.
#[export] Instance Place_eq_dec : EqDecision Place. Proof. solve_decision. Defined.

Inductive Op : Type :=
  | Wr (p : Place) (v : Z)
  | Daifset
  | Msr (r : SysReg) (v : Z)
  | DcCivac (addr : Z)
  | DcCisw (v : Z)
  | TlbiVmalle1is
  | IcIallu
  | Dsb
  | Isb.

(** [pstate_daif]: interrupts are masked. *)
Record Soc : Type := mkSoc {
  trace : list Op; sys : SysReg -> Z; xregs : list Z; el : Z; pstate_daif : bool; jumped : option Z }.
#[export] Instance Soc_eta : RecordEta Soc := fun s => mkSoc (trace s) (sys s) (xregs s) (el s) (pstate_daif s) (jumped s).

(** How the loader ends: a hang after a message, or the kernel. *)
Inductive BootEnd : Type := BootPanic (message : list Z) | Entered.

Section soc.
Context (device : list Op -> Place -> nat -> Z) (polls : nat).
Let B (A : Type) : Type := M Soc BootEnd A.

Definition op (o : Op) : B unit := modify (upd trace (fun t => t ++ [o])).
Definition read_place (p : Place) (n : nat) : B Z := gets (fun s => device (trace s) p n).
Definition write_place (p : Place) (v : Z) : B unit := op (Wr p v).
(** [read_reg(base, offset)] and [write_reg(base, offset, val)]; the [n]-th read since the last write. *)
Definition read_reg (base offset : Z) (n : nat) : B Z := read_place (Mem (base + offset)) n.
Definition write_reg (base offset val : Z) : B unit := write_place (Mem (base + offset)) val.
Definition msr (r : SysReg) (v : Z) : B unit :=
  do! modify (upd sys (fun f q => if decide (q = r) then v else f q)) in op (Msr r v).
Definition mrs (r : SysReg) : B Z := gets (fun s => sys s r).

(** ** The console *)
Definition UART_THR_OFFSET : Z := 0x00.
Definition UART_LSR_OFFSET : Z := 0x14.
Definition THR : Place := Mem (RK3588_UART2_BASE + UART_THR_OFFSET).
Definition LSR : Place := Mem (RK3588_UART2_BASE + UART_LSR_OFFSET).

Definition uart_byte (b : Z) : B unit :=
  do! loop polls (fun n => let! v := read_place LSR n in ret (if Z.land v (Z.shiftl 1 5) =? 0 then inl (S n) else inr tt)) O in
  write_place THR b.
Definition uart_print (s : list Z) : B unit := for_each s uart_byte.
Definition print (s : string) : B unit := uart_print (lit s).

(** [buf] holds the digits from the least significant one; as many iterations as a
    64-bit number has digits are enough. *)
Fixpoint dec_digits (fuel : nat) (val : Z) (buf : list Z) : outcome BootEnd (list Z) :=
  match fuel with
  | O => Diverge
  | S fuel' => if 0 <? val then dec_digits fuel' (val / 10) (buf ++ [48 + val mod 10]) else Ok buf
  end.
Definition print_dec (val : Z) : B unit :=
  if val =? 0 then print "0" else
  let! buf := lift (dec_digits 21 val []) in
  for_each (rev buf) (fun d => uart_print [d]).

Definition hex_digit (d : Z) : Z := if d <? 10 then 48 + d else 55 + d.
Definition print_hex_digit (val : Z) (started : bool) (i : Z) : B bool :=
  let digit := Z.land (Z.shiftr val (i * 4)) 0xF in
  if negb (digit =? 0) || started || (i =? 0) then do! uart_print [hex_digit digit] in ret true else ret started.
Fixpoint print_hex_from (val : Z) (started : bool) (positions : list Z) : B unit :=
  match positions with
  | [] => ret tt
  | i :: rest => let! started := print_hex_digit val started i in print_hex_from val started rest
  end.
Definition print_hex_handover (val : Z) : B unit :=
  do! print "0x" in print_hex_from val false (rev (seqZ 0 16)).

(** ** [for _ in 0..bound { if test(read) { ready = true; break } }] *)
Fixpoint poll (bound : nat) (p : Place) (test : Z -> bool) (n : nat) : B bool :=
  match bound with
  | O => ret false
  | S bound' => let! v := read_place p n in if test v then ret true else poll bound' p test (S n)
  end.
Definition bit_set (mask v : Z) : bool := negb (Z.land v mask =? 0).
Definition bit_clear (mask v : Z) : bool := Z.land v mask =? 0.

(** ** The display: [drivers/gui.rs] *)
Inductive FsmState : Type := Init | Polling | Ready | Error.
#[export] Instance FsmState_eq_dec : EqDecision FsmState. Proof. solve_decision. Defined.

Definition GUI_ADDR : Z := 0xFDD90000.
Definition Vop2Regs_sys_ctrl : Z := GUI_ADDR.
Definition Vop2Regs_sys_status : Z := GUI_ADDR + 4.
Definition Vop2Regs_bg_color : Z := GUI_ADDR + 8.
Definition Vop2Regs_dsp_ctrl : Z := GUI_ADDR + 12.

(** [GuiDriver::init]: the state of the driver is the value it returns. *)
Definition gui_init : B FsmState :=
  do! write_place (Mem Vop2Regs_sys_ctrl) 0x00000001 in
  let! ready := poll 100 (Mem Vop2Regs_sys_status) (bit_set 0x1) O in
  if negb ready then ret Error else
  do! write_place (Mem Vop2Regs_bg_color) 0xFF000000 in
  do! write_place (Mem Vop2Regs_dsp_ctrl) 0x00000001 in
  ret Ready.
Definition gui_init_x86 : B FsmState :=
  let! ready := poll 100 (Port 0x3DA) (bit_set 0x08) O in
  if negb ready then ret Error else
  do! write_place (Mem 0xB8000) (Z.lor 0x0200 71) in
  ret Ready.

(** ** The touch controller: [drivers/touch.rs] *)
Definition TOUCH_ADDR : Z := 0xFEAB0000.
Definition I2cRegs_con : Z := TOUCH_ADDR.
Definition I2cRegs_txdata : Z := TOUCH_ADDR + 4.
Definition I2cRegs_rxdata : Z := TOUCH_ADDR + 8.
Definition I2cRegs_sr : Z := TOUCH_ADDR + 12.

Definition touch_init : B FsmState :=
  do! write_place (Mem I2cRegs_con) 0x00000001 in
  do! write_place (Mem I2cRegs_txdata) 0x00000055 in
  let! ready := poll (Z.to_nat 100000) (Mem I2cRegs_sr) (bit_set 0x1) O in
  if negb ready then ret Error else
  do! read_place (Mem I2cRegs_rxdata) O in
  ret Ready.
Definition touch_init_x86 : B FsmState :=
  let! ready := poll (Z.to_nat 100000) (Port 0x64) (bit_clear 0x02) O in
  if negb ready then ret Error else
  do! write_place (Port 0x64) 0xAA in
  let! ready := poll (Z.to_nat 100000) (Port 0x64) (bit_set 0x01) O in
  if negb ready then ret Error else
  let! response := read_place (Port 0x60) O in
  if negb (response =? 0x55) then ret Error else
  ret Ready.

(** ** The modem: [drivers/alveo_sim.rs] *)
Definition ALVEO_ADDR : Z := 0xFEB50000.
Definition UartRegs_rbr_thr_dll : Z := ALVEO_ADDR.
Definition UartRegs_ier_dlh : Z := ALVEO_ADDR + 4.
Definition UartRegs_fcr : Z := ALVEO_ADDR + 8.
Definition UartRegs_lcr : Z := ALVEO_ADDR + 12.
Definition UartRegs_lsr : Z := ALVEO_ADDR + 16.

Definition alveo_send (status data : Place) (c : Z) (k : B FsmState) : B FsmState :=
  let! ready := poll 100 status (bit_set 0x20) O in
  if negb ready then ret Error else
  do! write_place data c in k.
Definition alveo_init : B FsmState :=
  do! write_place (Mem UartRegs_lcr) 0x00000080 in
  do! write_place (Mem UartRegs_rbr_thr_dll) 0x00000001 in
  do! write_place (Mem UartRegs_ier_dlh) 0x00000000 in
  do! write_place (Mem UartRegs_lcr) 0x00000003 in
  do! write_place (Mem UartRegs_fcr) 0x000000C7 in
  alveo_send (Mem UartRegs_lsr) (Mem UartRegs_rbr_thr_dll) 0x41
    (alveo_send (Mem UartRegs_lsr) (Mem UartRegs_rbr_thr_dll) 0x54 (ret Ready)).
Definition alveo_init_x86 : B FsmState :=
  alveo_send (Port 0x3FD) (Port 0x3F8) 0x41 (alveo_send (Port 0x3FD) (Port 0x3F8) 0x54 (ret Ready)).

(** ** The PCIe endpoint: [pcie_ep.rs] *)

(** The bounded wait for the power domain: [pmu_timeout] counts down from 100000. *)
Fixpoint power_wait (pmu_timeout : nat) (n : nat) : B unit :=
  let! st := read_reg PMU_POWER_ST 0 n in
  if bit_clear PMU_POWER_ST_PD_PCIE_MASK st then ret tt else
  match pmu_timeout with
  | O => ret tt
  | S timeout =>
      match timeout with
      | O => print "[G-BOOT] WARNING: PMU PD_PCIE power domain polling timed out!
"
      | S _ => power_wait timeout (S n)
      end
  end.

Definition init_pcie_endpoint : B unit :=
  do! print "[G-BOOT] Starting PCIe 3.0 Endpoint Mode Bit-Flip Sequence...
" in
  do! print "[G-BOOT] STEP 1: Writing SYS_GRF_SOC_CON0 @ 0xFD580300 (Bit 4 = 1 -> 0x00100010)...
" in
  do! write_reg SYS_GRF_SOC_CON0 0 (write_enable_mask PCIE_EP_MODE_FORCE_MASK PCIE_EP_MODE_FORCE_ENABLE) in
  do! print "[G-BOOT] STEP 2: Writing PHP_GRF_CON0 @ 0xFD5B0000 (Bit 0 = 1 -> 0x00010001)...
" in
  do! write_reg PHP_GRF_CON0 0 (write_enable_mask PCIE30X4_DEVICE_TYPE_MASK PCIE30X4_DEVICE_TYPE_EP) in
  do! print "[G-BOOT] STEP 3: Writing PCIE30_PHY_GRF_CON0 @ 0xFD5B8000 (Bit 0 = 1, Bit 1 = 0 -> 0x00030001)...
" in
  do! write_reg PCIE30_PHY_GRF_CON0 0 (write_enable_mask (Z.lor PHY_MODE_SEL_MASK REFCLK_SEL_MASK) (Z.lor PHY_MODE_SEL_EP REFCLK_SEL_EXT)) in
  do! print "[G-BOOT] STEP 4: Enabling PD_PCIE Power Domain via PMU_PD_CON @ 0xFD8D0000...
" in
  do! write_reg PMU_PD_CON 0 (write_enable_mask PD_PCIE_CON_MASK PD_PCIE_CON_PWR_ON) in
  do! print "[G-BOOT] Polling PMU_POWER_ST @ 0xFD8D0080 Bit 4 for PD_PCIE active state...
" in
  do! power_wait (Z.to_nat 100000) O in
  do! print "[G-BOOT] PD_PCIE Power Domain active and stable.
" in
  do! print "[G-BOOT] STEP 5a: Ungating PCIe Controller Clocks via CRU_CLKGATE_CON28 @ 0xFD7C0370...
" in
  do! write_reg CRU_CLKGATE_CON28 0 (write_enable_mask CLKGATE_CON28_ALL_MASK 0x0000) in
  do! print "[G-BOOT] STEP 5b: Ungating PHY Refclk & APB Clocks via CRU_CLKGATE_CON29 @ 0xFD7C0374...
" in
  do! write_reg CRU_CLKGATE_CON29 0 (write_enable_mask CLKGATE_CON29_ALL_MASK 0x0000) in
  do! print "[G-BOOT] STEP 6a: Asserting soft resets via CRU_SOFTRST_CON28 @ 0xFD7C0A70...
" in
  do! write_reg CRU_SOFTRST_CON28 0 (write_enable_mask SOFTRST_ALL_MASK SOFTRST_ALL_MASK) in
  do! print "[G-BOOT] STEP 6b: De-asserting PHY soft reset via CRU_SOFTRST_CON28...
" in
  do! write_reg CRU_SOFTRST_CON28 0 (write_enable_mask SOFTRST_PHY_MASK 0x0000) in
  do! print "[G-BOOT] STEP 6c: Releasing PHY internal reset via PCIE30_PHY_GRF_CON0 @ 0xFD5B8000 Bit 4...
" in
  do! write_reg PCIE30_PHY_GRF_CON0 0 (write_enable_mask PHY_RESET_N_MASK PHY_RESET_N_RELEASE) in
  do! print "[G-BOOT] STEP 6d: De-asserting PCIe controller soft resets via CRU_SOFTRST_CON28...
" in
  do! write_reg CRU_SOFTRST_CON28 0 (write_enable_mask SOFTRST_CTRL_MASK 0x0000) in
  do! print "[G-BOOT] STEP 7: Polling PCIE30_PHY_GRF_STATUS0 @ 0xFD5B8080 Bit 0 for PHY_PLL_LOCK...
" in
  let! pll_locked := poll (Z.to_nat 10000000) (Mem PCIE30_PHY_GRF_STATUS0) (bit_set STATUS0_PHY_PLL_LOCK) O in
  do! (if pll_locked : bool then print "[G-BOOT] SUCCESS: PCIe 3.0 PHY PLL Locked (PHY_PLL_LOCK = 1).
" else print "[G-BOOT] WARNING: PCIe 3.0 PHY PLL Lock polling timed out! (Host refclk present?)
") in
  print "[G-BOOT] PCIe 3.0 Endpoint Initialization Sequence Complete.
".

(** ** Leaving the loader: [handover.rs] *)
Section caches.
(** The cache geometry registers: [ccsidr sel] is [CCSIDR_EL1] while [CSSELR_EL1] holds [sel]. *)
Context (ctr_el0 clidr_el1 : Z) (ccsidr : Z -> Z).

Definition line_size_of (ctr : Z) : Z := Z.shiftl 1 (Z.land (Z.shiftr ctr 16) 0xF + 2).
(** One line an iteration: as many iterations as lines from [start] to [end], and two more. *)
Definition flush_dcache_range (start end_ : Z) : B unit :=
  let line_size := line_size_of ctr_el0 in
  do! loop (Z.to_nat ((end_ - start) / line_size + 3)) (fun addr =>
        if addr <? end_ then
          do! op (DcCivac addr) in
          let! addr := lift (add U64 addr line_size) in ret (inl addr)
        else ret (inr tt)) (Z.land start (bitnot U64 (line_size - 1))) in
  op Dsb.

(** [v << s] on [u32]: a shift by 32 or more is an overflow. *)
Definition shl32 (v s : Z) : outcome BootEnd Z := if s <? 32 then Ok (cast U32 (Z.shiftl v s)) else Panic.
Definition leading_zeros32 (v : Z) : Z := if v =? 0 then 32 else 31 - Z.log2 v.

Definition flush_level (level : Z) : B unit :=
  let csselr := Z.shiftl level 1 in
  do! msr CSSELR_EL1 csselr in
  do! op Isb in
  let! sel := mrs CSSELR_EL1 in
  let info := ccsidr sel in
  let line_shift := Z.land info 0x7 + 4 in
  let num_ways := Z.land (Z.shiftr info 3) 0x3FF + 1 in
  let num_sets := Z.land (Z.shiftr info 13) 0x7FFF + 1 in
  let way_shift := leading_zeros32 (num_ways - 1) in
  for_range 0 num_ways (fun way => for_range 0 num_sets (fun set =>
    let! w := lift (shl32 way way_shift) in
    let! s := lift (shl32 set line_shift) in
    let! l := lift (shl32 level 1) in
    op (DcCisw (Z.lor (Z.lor w s) l)))).
Definition flush_dcache_all_setway : B unit :=
  let loc := Z.land (Z.shiftr clidr_el1 24) 0x7 in
  do! for_range 0 loc flush_level in
  op Dsb.

Definition disable_mmu_and_caches : B unit :=
  let! sctlr := mrs SCTLR_EL1 in
  do! msr SCTLR_EL1 (Z.land sctlr (bitnot U64 (Z.lor (Z.lor (Z.shiftl 1 0) (Z.shiftl 1 2)) (Z.shiftl 1 12)))) in
  do! op Dsb in op Isb.
Definition invalidate_tlb : B unit := do! op TlbiVmalle1is in do! op Dsb in op Isb.
Definition invalidate_icache : B unit := do! op IcIallu in do! op Dsb in op Isb.

Definition disable_gicv3 : B unit :=
  do! modify (set_field pstate_daif true) in
  do! op Daifset in
  let! sre := mrs ICC_SRE_EL1 in
  do! (if Z.land sre 0x1 =? 0 then do! msr ICC_SRE_EL1 (Z.lor sre 0x1) in op Isb else ret tt) in
  do! msr ICC_IGRPEN1_EL1 0 in
  do! msr ICC_PMR_EL1 0 in
  do! write_place (Mem GICD_CTLR) 0 in
  do! op Dsb in op Isb.

Definition enable_fp_simd_el1 : B unit :=
  let! cpacr := mrs CPACR_EL1 in
  do! msr CPACR_EL1 (Z.lor cpacr (Z.shiftl 3 20)) in op Isb.

(** ** The last instructions

    The compiler chooses the registers [re] and [rd] that hold the entry point and the
    device tree's address when the assembly starts; the assembly itself uses [x0] to [x4]. *)
Definition xmov (d : nat) (v : Z) : B unit := modify (upd xregs <[d := v]>).
Definition xreg (r : nat) : B Z := gets (fun s => nth r (xregs s) 0).
Definition msr_x (r : SysReg) (x : nat) : B unit := let! v := xreg x in msr r v.
Definition contract (rd : nat) : B unit :=
  do! (let! d := xreg rd in xmov 0 d) in do! xmov 1 0 in do! xmov 2 0 in do! xmov 3 0 in op Isb.
(** [eret]: execution goes on at the saved address, at the level, with the mask the saved status names. *)
Definition eret (spsr elr : SysReg) : B unit :=
  let! st := mrs spsr in
  let! pc := mrs elr in
  do! modify (fun s => set_field jumped (Some pc) (set_field el (Z.land (Z.shiftr st 2) 3) (set_field pstate_daif (Z.land st 0x3C0 =? 0x3C0) s))) in
  throw Entered.
Definition br (re : nat) : B unit :=
  let! pc := xreg re in do! modify (set_field jumped (Some pc)) in throw Entered.

Definition jump_from_el3 (re rd : nat) : B unit :=
  let! scr := mrs SCR_EL3 in do! xmov 4 scr in
  do! (let! v := xreg 4 in xmov 4 (Z.lor v (Z.shiftl 1 0))) in
  do! (let! v := xreg 4 in xmov 4 (Z.lor v (Z.shiftl 1 8))) in
  do! (let! v := xreg 4 in xmov 4 (Z.lor v (Z.shiftl 1 10))) in
  do! (let! v := xreg 4 in xmov 4 (Z.lor v (Z.shiftl 1 11))) in
  do! msr_x SCR_EL3 4 in
  do! xmov 4 (Z.shiftl 1 31) in
  do! msr_x HCR_EL2 4 in
  do! xmov 4 0x3C5 in
  do! msr_x SPSR_EL3 4 in
  do! msr_x ELR_EL3 re in
  do! contract rd in
  eret SPSR_EL3 ELR_EL3.
Definition jump_from_el2 (re rd : nat) : B unit :=
  do! xmov 4 (Z.shiftl 1 31) in
  do! msr_x HCR_EL2 4 in
  do! xmov 4 0x3C5 in
  do! msr_x SPSR_EL2 4 in
  do! msr_x ELR_EL2 re in
  do! contract rd in
  eret SPSR_EL2 ELR_EL2.
Definition jump_from_el1 (re rd : nat) : B unit := do! contract rd in br re.

Definition perform_handover (re rd : nat) (kernel_entry dtb_ptr : Z) : B unit :=
  do! print "
[G-BOOT] Executing hardware teardown & HXNU handover sequence...
" in
  do! disable_gicv3 in
  do! enable_fp_simd_el1 in
  let! dtb_end := lift (add U64 dtb_ptr 0x10000) in
  do! flush_dcache_range dtb_ptr dtb_end in
  let! kernel_end := lift (add U64 kernel_entry 0x200000) in
  do! flush_dcache_range kernel_entry kernel_end in
  do! flush_dcache_all_setway in
  do! disable_mmu_and_caches in
  do! invalidate_tlb in
  do! invalidate_icache in
  do! print "[G-BOOT] Maintenance complete. Transferring control to HXNU Kernel at " in
  do! print_hex_handover kernel_entry in
  do! print " (DTB @ " in
  do! print_hex_handover dtb_ptr in
  do! print ")...

" in
  let! level := gets el in
  do! xmov re kernel_entry in
  do! xmov rd dtb_ptr in
  if level =? 3 then jump_from_el3 re rd else if level =? 2 then jump_from_el2 re rd else jump_from_el1 re rd.

(** ** [main.rs] *)
Definition boot_panic (message : string) : B unit :=
  do! print "[G-BOOT] PANIC: " in
  do! print message in
  do! print "
" in
  throw (BootPanic (lit message)).
Definition chainload_hxnu (re rd : nat) : B unit :=
  do! print "[G-BOOT] Chainloading HXNU Kernel at 0x00200000 (DTB @ 0x0A000000)...
" in
  perform_handover re rd 0x00200000 0x0A000000.
Definition start_rust (re rd : nat) : B unit :=
  do! print "
==================================================
" in
  do! print "[G-BOOT] Starting bare-metal payload on Rockchip RK3588S (AArch64)...
" in
  do! print "==================================================
" in
  let! level := gets el in
  do! print "[G-BOOT] Current Exception Level: EL" in
  do! print_dec level in
  do! print "
" in
  do! print "[G-BOOT] Debug UART2 verified active at physical address 0xFEB50000.
" in
  do! init_pcie_endpoint in
  let! gui := gui_init in
  do! (if decide (gui = Ready) then ret tt else do! print "[G-BOOT] ERROR: GUI initialization failed!
" in boot_panic "GUI") in
  let! touch := touch_init in
  do! (if decide (touch = Ready) then ret tt else do! print "[G-BOOT] ERROR: Touch initialization failed!
" in boot_panic "TOUCH") in
  let! alveo := alveo_init in
  do! (if decide (alveo = Ready) then ret tt else do! print "[G-BOOT] ERROR: Alveo driver initialization failed!
" in boot_panic "ALVEO") in
  do! print "[G-BOOT] Driver initialization complete.
" in
  chainload_hxnu re rd.
End caches.
End soc.
