(* ===== verification/GbootFacts.v ===== *)
(** * The boot loader: theorems *)
From stdpp Require Import base list numbers option strings.
From Stdlib Require Import ZArith Lia Bool.
From S2P Require Import Prelude Paths Text Rk3588 Gboot.

(** [st] after the operations [t]. *)
Definition after (t : list Op) (st : Soc) : Soc := upd trace (fun t0 => t0 ++ t) st.

Lemma after_nil st : after [] st = st.
Proof. destruct st. unfold after, upd. cbn. by rewrite app_nil_r. Qed.
Lemma after_app t1 t2 st : after t2 (after t1 st) = after (t1 ++ t2) st.
Proof. destruct st. unfold after, upd. cbn. by rewrite app_assoc. Qed.
Lemma bind_after {A C} (m : M Soc BootEnd A) (k : A -> M Soc BootEnd C) st st' a : m st = (Ok a, st') -> bind m k st = k a st'.
Proof. intros H. unfold bind. by rewrite H. Qed.

(** What the console was sent, and the other operations. *)
Definition is_console (o : Op) : bool := match o with Wr p _ => bool_decide (p = THR) | _ => false end.
Definition control (t : list Op) : list Op := List.filter (fun o => negb (is_console o)) t.
Lemma control_app t1 t2 : control (t1 ++ t2) = control t1 ++ control t2.
Proof. apply List.filter_app. Qed.

(** Bits of a register after the writes of a trace. *)
Definition latched (r : Z) (t : list Op) (old : Z) : Z :=
  foldl (fun v o => match o with Wr p w => if bool_decide (p = Mem r) then grf_latch v w else v | _ => v end) old t.

Section facts.
Context (device : list Op -> Place -> nat -> Z) (polls : nat).
(** The transmitter becomes empty within [polls] reads. *)
Definition uart_ready : Prop := forall t, exists n, (n < polls)%nat /\ Z.land (device t LSR n) (Z.shiftl 1 5) <> 0.
Hypothesis ready : uart_ready.

Lemma uart_byte_run b st : uart_byte device polls b st = (Ok tt, after [Wr THR b] st).
Proof.
  unfold uart_byte. destruct (ready (trace st)) as (n & Hn & Hr). set (body := fun k : nat => _).
  rewrite (bind_after _ _ st st tt); [done|].
  apply (loop_rule body (fun k s => s = st /\ (k <= n)%nat) (fun r => r = (Ok tt, st)) (fun k => (n - k)%nat)); [|lia|by split; [|lia]].
  intros k s [-> Hk]. unfold body, bind, read_place, gets, ret. destruct (Z.eqb_spec (Z.land (device (trace st) LSR k) (Z.shiftl 1 5)) 0) as [Hz|]; [|done].
  assert (k <> n) by (by intros ->). split; [split; [done|]|]; lia.
Qed.

Lemma uart_print_run s st : uart_print device polls s st = (Ok tt, after (Wr THR <$> s) st).
Proof.
  revert st. unfold uart_print. induction s as [|b s IH]; intros st; cbn [for_each]; [by rewrite after_nil|].
  rewrite (bind_after _ _ _ _ _ (uart_byte_run b st)), IH, after_app. done.
Qed.
Lemma console_control s : control (Wr THR <$> s) = [].
Proof. unfold control. induction s as [|b s IH]; [done|]. cbn. by rewrite bool_decide_eq_true_2. Qed.

(** [m] returns, and its operations beside the console are [ws]. *)
Definition does {A} (m : M Soc BootEnd A) (ws : list Op) : Prop := forall st, exists a t, m st = (Ok a, after t st) /\ control t = ws.

Lemma does_print s : does (print device polls s) [].
Proof. intros st. exists tt, (Wr THR <$> lit s). split; [apply uart_print_run|apply console_control]. Qed.
Lemma does_write p v : p <> THR -> does (write_place p v) [Wr p v].
Proof. intros Hp st. exists tt, [Wr p v]. split; [done|]. cbn. by rewrite bool_decide_eq_false_2. Qed.
Lemma does_ret {A} (a : A) : does (ret a) [].
Proof. intros st. exists a, []. by rewrite after_nil. Qed.
Lemma does_bind {A C} (m : M Soc BootEnd A) (k : A -> M Soc BootEnd C) ws1 ws2 : does m ws1 -> (forall a, does (k a) ws2) -> does (bind m k) (ws1 ++ ws2).
Proof.
  intros Hm Hk st. destruct (Hm st) as (a & t1 & H1 & Hc1). destruct (Hk a (after t1 st)) as (c & t2 & H2 & Hc2). exists c, (t1 ++ t2).
  rewrite (bind_after _ _ _ _ _ H1), H2, after_app, control_app. by subst.
Qed.
Lemma does_poll bound p test n : does (poll device bound p test n) [].
Proof.
  revert n. induction bound as [|bound IH]; intros n st; cbn [poll]; [exists false, []; by rewrite after_nil|]. unfold bind, read_place, gets.
  destruct (test _); [exists true, []; by rewrite after_nil|]. apply IH.
Qed.
Lemma does_power_wait timeout n : does (power_wait device polls timeout n) [].
Proof.
  revert n. induction timeout as [|timeout IH]; intros n st; cbn [power_wait]; unfold read_reg, read_place, gets, bind at 1.
  - destruct (bit_clear _ _); by apply (does_ret tt).
  - destruct (bit_clear _ _); [by apply (does_ret tt)|]. destruct timeout; [apply does_print|apply IH].
Qed.

(** The register writes of the endpoint set-up, in order. *)
Definition PCIE_WRITES : list Op :=
  [Wr (Mem 0xFD580300) 0x00100010; Wr (Mem 0xFD5B0000) 0x00010001; Wr (Mem 0xFD5B8000) 0x00030001; Wr (Mem 0xFD8D0000) 0x00100000;
   Wr (Mem 0xFD7C0370) 0x00070000; Wr (Mem 0xFD7C0374) 0x00300000; Wr (Mem 0xFD7C0A70) 0x000F000F; Wr (Mem 0xFD7C0A70) 0x00080000;
   Wr (Mem 0xFD5B8000) 0x00100010; Wr (Mem 0xFD7C0A70) 0x00070000].

Lemma init_pcie_run : does (init_pcie_endpoint device polls) PCIE_WRITES.
Proof.
  unfold init_pcie_endpoint, write_reg.
  repeat match goal with
  | |- does (bind (print _ _ _) _) _ => apply (does_bind _ _ []); [apply does_print|intros _]
  | |- does (bind (power_wait _ _ _ _) _) _ => apply (does_bind _ _ []); [apply does_power_wait|intros _]
  | |- does (bind (poll _ _ _ _ _) _) _ => apply (does_bind _ _ []); [apply does_poll|intros locked]
  | |- does (bind (if _ then _ else _) _) _ => apply (does_bind _ _ []); [destruct locked; apply does_print|intros _]
  | |- does (bind (write_place _ _) _) (?w :: ?ws) => apply (does_bind _ _ [w] ws); [by apply does_write|intros _]
  | |- does (print _ _ _) _ => apply does_print
  end.
Qed.

Lemma latched_control r t old : Mem r <> THR -> latched r t old = latched r (control t) old.
Proof.
  intros Hr. revert old. unfold latched, control. induction t as [|o t IH]; intros old; [done|]. cbn [List.filter foldl].
  destruct o as [p w| |rr v|a|v| | | |]; cbn [is_console negb foldl]; try apply IH. destruct (bool_decide_reflect (p = THR)) as [->|Hp]; cbn [negb foldl]; [|apply IH].
  rewrite bool_decide_eq_false_2 by congruence. apply IH.
Qed.

(** The endpoint set-up always returns, whatever the polled registers read, and makes
    exactly its ten register writes in the documented order: endpoint mode, power,
    clocks, all resets asserted, then the PHY and after it the controller released.
    Afterwards every bit of the seven registers is as documented, and every bit that is
    not named kept its value. *)
Theorem pcie_endpoint_spec (st : Soc) :
  exists t, init_pcie_endpoint device polls st = (Ok tt, after t st) /\ control t = PCIE_WRITES /\
  forall old i, 0 <= i < 16 ->
    Z.testbit (latched SYS_GRF_SOC_CON0 t old) i = (if i =? PCIE_EP_MODE_FORCE_BIT then true else Z.testbit old i) /\
    Z.testbit (latched PHP_GRF_CON0 t old) i = (if i =? PCIE30X4_DEVICE_TYPE_BIT then true else Z.testbit old i) /\
    Z.testbit (latched PCIE30_PHY_GRF_CON0 t old) i =
      (if (i =? PHY_MODE_SEL_BIT) || (i =? PHY_RESET_N_BIT) then true else if i =? REFCLK_SEL_BIT then false else Z.testbit old i) /\
    Z.testbit (latched PMU_PD_CON t old) i = (if i =? 4 then false else Z.testbit old i) /\
    Z.testbit (latched CRU_CLKGATE_CON28 t old) i = (if i <? 3 then false else Z.testbit old i) /\
    Z.testbit (latched CRU_CLKGATE_CON29 t old) i = (if (i =? 4) || (i =? 5) then false else Z.testbit old i) /\
    Z.testbit (latched CRU_SOFTRST_CON28 t old) i = (if i <? 4 then false else Z.testbit old i).
Proof.
  destruct (init_pcie_run st) as ([] & t & Hrun & Hc). exists t. split; [done|]. split; [done|]. intros old i Hi.
  rewrite !(latched_control _ t) by (intros H; discriminate H). rewrite Hc.
  change (latched SYS_GRF_SOC_CON0 PCIE_WRITES old) with (grf_latch old 0x00100010).
  change (latched PHP_GRF_CON0 PCIE_WRITES old) with (grf_latch old 0x00010001).
  change (latched PCIE30_PHY_GRF_CON0 PCIE_WRITES old) with (grf_latch (grf_latch old 0x00030001) 0x00100010).
  change (latched PMU_PD_CON PCIE_WRITES old) with (grf_latch old 0x00100000).
  change (latched CRU_CLKGATE_CON28 PCIE_WRITES old) with (grf_latch old 0x00070000).
  change (latched CRU_CLKGATE_CON29 PCIE_WRITES old) with (grf_latch old 0x00300000).
  change (latched CRU_SOFTRST_CON28 PCIE_WRITES old) with (grf_latch (grf_latch (grf_latch old 0x000F000F) 0x00080000) 0x00070000).
  rewrite !latch_bit by lia.
  assert (Hcases : i = 0 \/ i = 1 \/ i = 2 \/ i = 3 \/ i = 4 \/ i = 5 \/ i = 6 \/ i = 7 \/ i = 8 \/ i = 9 \/ i = 10 \/ i = 11 \/ i = 12 \/ i = 13 \/ i = 14 \/ i = 15 \/ False) by lia.
  repeat (destruct Hcases as [->|Hcases]; [repeat split; reflexivity|]). done.
Qed.
End facts.

(** ** Cleaning the caches *)
Definition cleans (t : list Op) (line a b : Z) : Prop := forall x, a <= x < b -> exists l, DcCivac l ∈ t /\ l <= x < l + line.

Section caches.
Context (ctr clidr : Z) (ccsidr : Z -> Z).
Let line := line_size_of ctr.

Lemma line_pow : exists k, 2 <= k <= 17 /\ line = 2 ^ k.
Proof.
  exists (Z.land (Z.shiftr ctr 16) 0xF + 2). change 0xF with (Z.ones 4). rewrite Z.land_ones by lia.
  pose proof (Z.mod_pos_bound (Z.shiftr ctr 16) (2 ^ 4) ltac:(lia)) as Hm. split; [change (2 ^ 4) with 16 in *; lia|].
  unfold line, line_size_of. change 0xF with (Z.ones 4). rewrite Z.land_ones by lia. rewrite Z.shiftl_mul_pow2 by lia. lia.
Qed.

Definition civacs (a : Z) (n : nat) : list Op := (fun k => DcCivac (a + Z.of_nat k * line)) <$> seq 0 n.

Lemma flush_range_run start end_ st : 0 <= start -> start <= end_ -> end_ + line <= U64 ->
  exists t, flush_dcache_range ctr start end_ st = (Ok tt, after t st) /\ cleans t line start end_ /\ Forall (fun o => o = Dsb \/ exists a, o = DcCivac a) t.
Proof.
  intros Hs Hse Hend. destruct line_pow as (k & Hk & Hl). assert (Hpos : 0 < line) by (rewrite Hl; apply Z.pow_pos_nonneg; lia).
  set (a := Z.land start (bitnot U64 (line - 1))).
  assert (Ha : a <= start < a + line /\ 0 <= a).
  { destruct (align_down_pow2 start k 64) as (_ & H1 & H2 & _); [lia|change (2 ^ 64) with U64; lia|]. unfold a. rewrite Hl. change U64 with (2 ^ 64). lia. }
  unfold flush_dcache_range. fold line a. set (body := fun addr : Z => _). set (fuel := Z.to_nat _).
  assert (Hloop : exists n, loop (S:=Soc) fuel body a st = (Ok tt, after (civacs a n) st) /\ end_ <= a + Z.of_nat n * line).
  { set (meas := fun addr => Z.to_nat ((end_ - addr + line - 1) / line)).
    apply (loop_rule body (fun addr s => exists n, addr = a + Z.of_nat n * line /\ s = after (civacs a n) st /\ addr < end_ + line)
      (fun r => exists n, r = (Ok tt, after (civacs a n) st) /\ end_ <= a + Z.of_nat n * line) meas).
    - intros addr s (n & Hadr & -> & Hlt). unfold body. destruct (Z.ltb_spec addr end_) as [Hin|Hout].
      + unfold bind, op, modify, lift. rewrite add_ok by lia. unfold ret. split.
        * exists (S n). split; [lia|]. split; [|lia]. change (after [DcCivac addr] (after (civacs a n) st) = after (civacs a (S n)) st). rewrite after_app. unfold civacs.
          rewrite seq_S, fmap_app. cbn [fmap list_fmap Nat.add]. by rewrite Hadr.
        * unfold meas. replace (end_ - (addr + line) + line - 1) with (end_ - addr + line - 1 + (-1) * line) by lia. rewrite Z.div_add by lia.
          assert (1 <= (end_ - addr + line - 1) / line) by (apply Z.div_le_lower_bound; lia). lia.
      + exists n. split; [done|lia].
    - unfold meas, fuel. assert (0 <= (end_ - start) / line) by (apply Z.div_pos; lia). assert ((end_ - a + line - 1) / line <= (end_ - start) / line + 2); [|lia].
      replace ((end_ - start) / line + 2) with ((end_ - start + 2 * line) / line) by (rewrite Z.div_add by lia; lia). apply Z.div_le_mono; lia.
    - exists O. split; [lia|]. unfold civacs. cbn. rewrite after_nil. split; [done|]. lia. }
  destruct Hloop as (n & Hrun & Hcover). exists (civacs a n ++ [Dsb]). split; [|split].
  - rewrite (bind_after _ _ _ _ _ Hrun). unfold op, modify. by rewrite <- after_app.
  - intros x Hx. exists (a + (x - a) / line * line). pose proof (Z.div_mod (x - a) line ltac:(lia)) as Hdm. pose proof (Z.mod_pos_bound (x - a) line Hpos).
    assert (0 <= (x - a) / line) by (apply Z.div_pos; lia). split; [|nia]. apply elem_of_app. left. unfold civacs. apply list_elem_of_fmap. exists (Z.to_nat ((x - a) / line)).
    rewrite Z2Nat.id by lia. split; [done|]. apply elem_of_seq. assert ((x - a) / line < Z.of_nat n); [|lia]. apply Z.div_lt_upper_bound; lia.
  - apply Forall_app. split; [|by repeat constructor]. unfold civacs. apply Forall_fmap, Forall_forall. intros j _. right. by eexists.
Qed.

(** The geometry of cache level [l], as [CCSIDR_EL1] reports it. *)
Definition ways (l : Z) : Z := Z.land (Z.shiftr (ccsidr (Z.shiftl l 1)) 3) 0x3FF + 1.
Definition sets (l : Z) : Z := Z.land (Z.shiftr (ccsidr (Z.shiftl l 1)) 13) 0x7FFF + 1.
Definition line_shift (l : Z) : Z := Z.land (ccsidr (Z.shiftl l 1)) 0x7 + 4.
Definition way_shift (l : Z) : Z := leading_zeros32 (ways l - 1).
(** More than one way, and the set number below the way number. *)
Definition geometry_ok (l : Z) : Prop := 2 <= ways l /\ sets l * 2 ^ line_shift l <= 2 ^ way_shift l.

Lemma way_set_bounds l : 1 <= ways l <= 1024 /\ 1 <= sets l <= 32768 /\ 4 <= line_shift l <= 11.
Proof.
  unfold ways, sets, line_shift. change 0x3FF with (Z.ones 10). change 0x7FFF with (Z.ones 15). change 0x7 with (Z.ones 3). rewrite !Z.land_ones by lia.
  change (2 ^ 10) with 1024. change (2 ^ 15) with 32768. change (2 ^ 3) with 8.
  pose proof (Z.mod_pos_bound (Z.shiftr (ccsidr (Z.shiftl l 1)) 3) 1024 ltac:(lia)). pose proof (Z.mod_pos_bound (Z.shiftr (ccsidr (Z.shiftl l 1)) 13) 32768 ltac:(lia)).
  pose proof (Z.mod_pos_bound (ccsidr (Z.shiftl l 1)) 8 ltac:(lia)). lia.
Qed.

Lemma way_shift_bound l : 2 <= ways l -> 22 <= way_shift l <= 31 /\ (ways l - 1) * 2 ^ way_shift l < 2 ^ 32.
Proof.
  intros Hw. pose proof (way_set_bounds l) as (Hb & _). unfold way_shift, leading_zeros32. rewrite (proj2 (Z.eqb_neq _ _)) by lia.
  assert (Hlog : 0 <= Z.log2 (ways l - 1) < 10) by (split; [apply Z.log2_nonneg|apply Z.log2_lt_pow2; lia]). split; [lia|].
  destruct (Z.log2_spec (ways l - 1) ltac:(lia)) as [_ Hlt]. replace (2 ^ 32) with (2 ^ Z.succ (Z.log2 (ways l - 1)) * 2 ^ (31 - Z.log2 (ways l - 1))) by (rewrite <- Z.pow_add_r by lia; f_equal; lia).
  apply Z.mul_lt_mono_pos_r; [apply Z.pow_pos_nonneg; lia|lia].
Qed.

(** The operand of [dc cisw] for way [w] and set [s] of level [l]. *)
Definition operand (l w s : Z) : Z := w * 2 ^ way_shift l + s * 2 ^ line_shift l + 2 * l.

Lemma operand_run l w s : geometry_ok l -> 0 <= l < 8 -> 0 <= w < ways l -> 0 <= s < sets l ->
  shl32 w (way_shift l) = Ok (w * 2 ^ way_shift l) /\ shl32 s (line_shift l) = Ok (s * 2 ^ line_shift l) /\ shl32 l 1 = Ok (2 * l) /\
  Z.lor (Z.lor (w * 2 ^ way_shift l) (s * 2 ^ line_shift l)) (2 * l) = operand l w s.
Proof.
  intros [Hw2 Hg] Hl Hw Hs. destruct (way_shift_bound l Hw2) as [Hws Hmax]. pose proof (way_set_bounds l) as (_ & _ & Hls).
  pose proof (Z.pow_pos_nonneg 2 (way_shift l) ltac:(lia) ltac:(lia)) as Hp1. pose proof (Z.pow_pos_nonneg 2 (line_shift l) ltac:(lia) ltac:(lia)) as Hp2.
  assert (H16 : 2 ^ 4 <= 2 ^ line_shift l) by (apply Z.pow_le_mono_r; lia). change (2 ^ 4) with 16 in H16.
  assert (Hsmall : 2 ^ way_shift l <= 2 ^ 31) by (apply Z.pow_le_mono_r; lia).
  unfold shl32. rewrite !(proj2 (Z.ltb_lt _ _)) by lia. rewrite !Z.shiftl_mul_pow2 by lia. unfold cast. change U32 with (2 ^ 32).
  rewrite !Z.mod_small by (change (2 ^ 32) with 4294967296 in *; change (2 ^ 31) with 2147483648 in *; nia).
  split; [done|]. split; [done|]. split; [f_equal; lia|].
  rewrite (lor_disjoint _ (s * 2 ^ line_shift l) (way_shift l)); [|lia|nia|by exists w].
  rewrite (lor_disjoint _ (2 * l) (line_shift l)); [done|lia|lia|].
  exists (w * 2 ^ (way_shift l - line_shift l) + s). rewrite Z.mul_add_distr_r, <- Z.mul_assoc, <- Z.pow_add_r by lia. do 2 f_equal. f_equal. lia.
Qed.

(** The processor finds the way, the set and the level in the operand. *)
Lemma operand_decodes l w s : geometry_ok l -> 0 <= l < 8 -> 0 <= w < ways l -> 0 <= s < sets l ->
  operand l w s / 2 ^ way_shift l = w /\ operand l w s mod 2 ^ way_shift l / 2 ^ line_shift l = s /\ operand l w s mod 2 ^ line_shift l / 2 = l.
Proof.
  intros [Hw2 Hg] Hl Hw Hs. destruct (way_shift_bound l Hw2) as [Hws _]. pose proof (way_set_bounds l) as (_ & _ & Hls).
  pose proof (Z.pow_pos_nonneg 2 (line_shift l) ltac:(lia) ltac:(lia)) as Hp2. assert (H16 : 2 ^ 4 <= 2 ^ line_shift l) by (apply Z.pow_le_mono_r; lia). change (2 ^ 4) with 16 in H16.
  assert (Hsplit : 2 ^ way_shift l = 2 ^ (way_shift l - line_shift l) * 2 ^ line_shift l) by (rewrite <- Z.pow_add_r by lia; f_equal; lia).
  set (P := 2 ^ way_shift l) in *. set (Q := 2 ^ line_shift l) in *. assert (Hlow : 0 <= s * Q + 2 * l < P) by nia. unfold operand. fold P Q.
  assert (Hd : (w * P + s * Q + 2 * l) / P = w) by (symmetry; apply (Z.div_unique _ _ _ (s * Q + 2 * l)); lia).
  assert (Hm : (w * P + s * Q + 2 * l) mod P = s * Q + 2 * l) by (symmetry; apply (Z.mod_unique _ _ w); lia).
  split; [done|]. rewrite Hm. split; [symmetry; apply (Z.div_unique _ _ _ (2 * l)); lia|].
  assert (Hm2 : (w * P + s * Q + 2 * l) mod Q = 2 * l) by (symmetry; apply (Z.mod_unique _ _ (w * 2 ^ (way_shift l - line_shift l) + s)); [lia|rewrite Hsplit; lia]).
  rewrite Hm2. replace (2 * l) with (l * 2) by lia. apply Z.div_mul. lia.
Qed.

(** A loop whose body only adds operations. *)
Lemma for_ops (f : Z -> list Op) (body : Z -> M Soc BootEnd unit) xs st :
  (forall x s, x ∈ xs -> body x s = (Ok tt, after (f x) s)) -> for_each xs body st = (Ok tt, after (concat (f <$> xs)) st).
Proof.
  revert st. induction xs as [|x xs IH]; intros st Hb; cbn [for_each fmap list_fmap concat]; [by rewrite after_nil|].
  rewrite (bind_after _ _ _ _ _ (Hb x st ltac:(left))), IH, after_app; [done|]. intros y s Hy. apply Hb. by right.
Qed.

Definition select (l : Z) (st : Soc) : Soc := upd sys (fun f q => if decide (q = CSSELR_EL1) then Z.shiftl l 1 else f q) st.
Definition level_ops (l : Z) : list Op :=
  [Msr CSSELR_EL1 (Z.shiftl l 1); Isb] ++ concat ((fun w => concat ((fun s => [DcCisw (operand l w s)]) <$> seqZ 0 (sets l))) <$> seqZ 0 (ways l)).

Lemma flush_level_run l st : geometry_ok l -> 0 <= l < 8 -> flush_level ccsidr l st = (Ok tt, after (level_ops l) (select l st)).
Proof.
  intros Hg Hl. unfold flush_level, msr.
  rewrite (bind_after _ _ st (after [Msr CSSELR_EL1 (Z.shiftl l 1)] (select l st)) tt) by done.
  rewrite (bind_after _ _ _ (after [Msr CSSELR_EL1 (Z.shiftl l 1); Isb] (select l st)) tt)
    by (change [Msr CSSELR_EL1 (Z.shiftl l 1); Isb] with ([Msr CSSELR_EL1 (Z.shiftl l 1)] ++ [Isb]); by rewrite <- after_app).
  rewrite (bind_after _ _ _ (after [Msr CSSELR_EL1 (Z.shiftl l 1); Isb] (select l st)) (Z.shiftl l 1)) by done. cbn zeta.
  unfold for_range. rewrite !Z.sub_0_r. unfold level_ops. rewrite <- after_app. apply for_ops. intros w s0 Hw%elem_of_seqZ. apply for_ops. intros s s1 Hs%elem_of_seqZ.
  destruct (operand_run l w s Hg Hl ltac:(unfold ways in *; lia) ltac:(unfold sets in *; lia)) as (H1 & H2 & H3 & H4). unfold way_shift, ways, line_shift in H1, H2, H3, H4.
  unfold lift, bind. rewrite H1, H2, H3. unfold op, modify. rewrite H4. done.
Qed.

Definition loc : Z := Z.land (Z.shiftr clidr 24) 0x7.
(** Operations that clean a cache by set and way, or select the level. *)
Definition setway_op (o : Op) : bool := match o with DcCisw _ | Isb | Dsb | Msr CSSELR_EL1 _ => true | _ => false end.
Definition cleans_all (t : list Op) : Prop :=
  forall l w s, 0 <= l < loc -> 0 <= w < ways l -> 0 <= s < sets l -> DcCisw (operand l w s) ∈ t.

Lemma level_ops_in l w s : 0 <= w < ways l -> 0 <= s < sets l -> DcCisw (operand l w s) ∈ level_ops l.
Proof.
  intros Hw Hs. unfold level_ops. apply elem_of_app. right. apply list_elem_of_In, in_concat. exists (concat ((fun s => [DcCisw (operand l w s)]) <$> seqZ 0 (sets l))).
  split; [|apply in_concat; exists [DcCisw (operand l w s)]; split; [|by left]]; apply list_elem_of_In, list_elem_of_fmap; eexists; (split; [reflexivity|]); apply elem_of_seqZ; lia.
Qed.
Lemma level_ops_setway l : Forall (fun o => setway_op o = true) (level_ops l).
Proof.
  unfold level_ops. apply Forall_app. split; [by repeat constructor|]. apply Forall_concat, Forall_fmap, Forall_forall. intros w _. apply Forall_concat, Forall_fmap, Forall_forall.
  intros s _. by repeat constructor.
Qed.

Lemma levels_run ls st : Forall (fun l => geometry_ok l /\ 0 <= l < 8) ls ->
  exists f, for_each ls (flush_level ccsidr) st = (Ok tt, after (concat (level_ops <$> ls)) (set_field sys f st)) /\ forall q, q <> CSSELR_EL1 -> f q = sys st q.
Proof.
  revert st. induction ls as [|l ls IH]; intros st Hls; cbn [for_each fmap list_fmap concat].
  - exists (sys st). rewrite after_nil. split; [by destruct st|done].
  - apply Forall_cons_iff in Hls as [[Hg Hl] Hls]. rewrite (bind_after _ _ _ _ _ (flush_level_run l st Hg Hl)).
    destruct (IH (after (level_ops l) (select l st)) Hls) as (f & Hrun & Hf). exists f. rewrite Hrun. split.
    + rewrite <- after_app. done.
    + intros q Hq. rewrite (Hf q Hq). unfold after, select. cbn. by rewrite decide_False.
Qed.

Lemma flush_all_run st : (forall l, 0 <= l < loc -> geometry_ok l) ->
  exists f t, flush_dcache_all_setway clidr ccsidr st = (Ok tt, after t (set_field sys f st)) /\ (forall q, q <> CSSELR_EL1 -> f q = sys st q) /\
    cleans_all t /\ Forall (fun o => setway_op o = true) t.
Proof.
  intros Hg. assert (Hloc : 0 <= loc < 8) by (unfold loc; change 0x7 with (Z.ones 3); rewrite Z.land_ones by lia; apply Z.mod_pos_bound; lia).
  destruct (levels_run (seqZ 0 loc) st) as (f & Hrun & Hf).
  { apply Forall_forall. intros l Hl%elem_of_seqZ. split; [apply Hg; lia|lia]. }
  exists f, (concat (level_ops <$> seqZ 0 loc) ++ [Dsb]). split; [|split; [done|split]].
  - unfold flush_dcache_all_setway, for_range. fold loc. rewrite Z.sub_0_r, (bind_after _ _ _ _ _ Hrun). by rewrite <- after_app.
  - intros l w s Hl Hw Hs. apply elem_of_app. left. apply list_elem_of_In, in_concat. exists (level_ops l). split; [|by apply list_elem_of_In, level_ops_in].
    apply list_elem_of_In, list_elem_of_fmap. exists l. split; [done|]. apply elem_of_seqZ. lia.
  - apply Forall_app. split; [|by repeat constructor]. apply Forall_concat, Forall_fmap, Forall_forall. intros l _. apply level_ops_setway.
Qed.
End caches.

(** ** The jump *)
Lemma nth_insert (l : list Z) r d v : (d < length l)%nat -> nth r (<[d := v]> l) 0 = if decide (r = d) then v else nth r l 0.
Proof.
  intros Hd. rewrite !nth_lookup. destruct (decide (r = d)) as [->|Hne]; [by rewrite list_lookup_insert_eq|by rewrite list_lookup_insert_ne].
Qed.

(** The registers the compiler chose survive until they are used. *)
Definition safe_registers (level : Z) (re rd : nat) : Prop :=
  (re < 31)%nat /\ (rd < 31)%nat /\ re <> rd /\ (if level =? 1 then (4 <= re)%nat else re <> 4%nat /\ rd <> 4%nat).

Definition entered_kernel (entry dtb : Z) (st : Soc) : Prop :=
  jumped st = Some entry /\ el st = 1 /\ pstate_daif st = true /\
  nth 0 (xregs st) 0 = dtb /\ nth 1 (xregs st) 0 = 0 /\ nth 2 (xregs st) 0 = 0 /\ nth 3 (xregs st) 0 = 0.

(** The state as the last instructions find it, and what they keep. *)
Definition jump (level : Z) (re rd : nat) : M Soc BootEnd unit :=
  if level =? 3 then jump_from_el3 re rd else if level =? 2 then jump_from_el2 re rd else jump_from_el1 re rd.
Definition jump_regs (q : SysReg) : bool := match q with SCR_EL3 | HCR_EL2 | SPSR_EL3 | ELR_EL3 | SPSR_EL2 | ELR_EL2 => true | _ => false end.
Definition jump_op (o : Op) : bool := match o with Isb => true | Msr q _ => jump_regs q | _ => false end.

Definition setreg (r : SysReg) (v : Z) (f : SysReg -> Z) : SysReg -> Z := fun q => if decide (q = r) then v else f q.
Definition contract_regs (rd : nat) (xs : list Z) : list Z := <[3%nat := 0]> (<[2%nat := 0]> (<[1%nat := 0]> (<[0%nat := nth rd xs 0]> xs))).
Lemma contract_run rd tr f xs lv da ju : contract rd (mkSoc tr f xs lv da ju) = (Ok tt, mkSoc (tr ++ [Isb]) f (contract_regs rd xs) lv da ju).
Proof. reflexivity. Qed.
Lemma msr_x_run r x tr f xs lv da ju : msr_x r x (mkSoc tr f xs lv da ju) = (Ok tt, mkSoc (tr ++ [Msr r (nth x xs 0)]) (setreg r (nth x xs 0) f) xs lv da ju).
Proof. reflexivity. Qed.
Lemma xmov_run d v tr f xs lv da ju : xmov d v (mkSoc tr f xs lv da ju) = (Ok tt, mkSoc tr f (<[d := v]> xs) lv da ju).
Proof. reflexivity. Qed.
Lemma xor_run d b tr f xs lv da ju : (let! v := xreg d in xmov d (Z.lor v b)) (mkSoc tr f xs lv da ju) = (Ok tt, mkSoc tr f (<[d := Z.lor (nth d xs 0) b]> xs) lv da ju).
Proof. reflexivity. Qed.
Lemma eret_run a b tr f xs lv da ju : eret a b (mkSoc tr f xs lv da ju) = (Err Entered, mkSoc tr f xs (Z.land (Z.shiftr (f a) 2) 3) (Z.land (f a) 0x3C0 =? 0x3C0) (Some (f b))).
Proof. reflexivity. Qed.

Lemma contract_nth rd xs i : length xs = 31%nat -> (i < 4)%nat -> nth i (contract_regs rd xs) 0 = if decide (i = 0%nat) then nth rd xs 0 else 0.
Proof. intros Hl Hi. unfold contract_regs. rewrite !nth_insert by (rewrite ?length_insert; lia). do 4 (destruct i as [|i]; [done|]). lia. Qed.
Lemma contract_nth_high rd xs i : length xs = 31%nat -> (4 <= i)%nat -> nth i (contract_regs rd xs) 0 = nth i xs 0.
Proof. intros Hl Hi. unfold contract_regs. rewrite !nth_insert by (rewrite ?length_insert; lia). by rewrite !decide_False by lia. Qed.

(** The instructions between the first one and [eret]; [xs] keeps every register but [x4]. *)
Definition saves (spsr elr : SysReg) (re rd : nat) : M Soc BootEnd unit :=
  do! xmov 4 (Z.shiftl 1 31) in do! msr_x HCR_EL2 4 in do! xmov 4 0x3C5 in do! msr_x spsr 4 in do! msr_x elr re in do! contract rd in eret spsr elr.

Lemma saves_run spsr elr re rd tr f xs lv da ju : spsr <> elr -> jump_regs spsr = true -> jump_regs elr = true -> length xs = 31%nat -> re <> 4%nat -> rd <> 4%nat ->
  exists st' t, saves spsr elr re rd (mkSoc tr f xs lv da ju) = (Err Entered, st') /\ entered_kernel (nth re xs 0) (nth rd xs 0) st' /\ trace st' = tr ++ t /\
    Forall (fun o => jump_op o = true) t /\ forall q, jump_regs q = false -> sys st' q = f q.
Proof.
  intros Hne Hsp Hel Hl Hre Hrd. unfold saves. set (x1 := <[4%nat := Z.shiftl 1 31]> xs). set (x2 := <[4%nat := 0x3C5]> x1).
  assert (Hx : forall r, r <> 4%nat -> nth r x2 0 = nth r xs 0) by (intros r Hr; unfold x2, x1; rewrite !nth_insert by (rewrite ?length_insert; lia); by rewrite !decide_False).
  assert (H4 : nth 4 x2 0 = 0x3C5) by (unfold x2; rewrite nth_insert by (unfold x1; rewrite length_insert; lia); done). assert (Hl2 : length x2 = 31%nat) by (unfold x2, x1; by rewrite !length_insert).
  unfold bind at 1. rewrite xmov_run. fold x1. unfold bind at 1. rewrite msr_x_run. unfold bind at 1. rewrite xmov_run. fold x2. unfold bind at 1. rewrite msr_x_run, H4.
  unfold bind at 1. rewrite msr_x_run, (Hx re Hre). unfold bind at 1. rewrite contract_run, eret_run. do 2 eexists. split; [reflexivity|].
  unfold entered_kernel. cbn [jumped el pstate_daif xregs trace sys]. unfold setreg. rewrite !(decide_False (P := spsr = elr)) by done. rewrite !(decide_True (P := elr = elr)), !(decide_True (P := spsr = spsr)) by done.
  rewrite !contract_nth by (done || lia). rewrite (Hx rd Hrd). split; [by repeat split|]. split; [rewrite <- !app_assoc; reflexivity|].
  split; [repeat constructor; cbn; done|]. intros q Hq. rewrite !decide_False by congruence. destruct q; done.
Qed.

Lemma jump_run level re rd entry dtb st : 1 <= level <= 3 -> safe_registers level re rd -> length (xregs st) = 31%nat -> el st = level -> pstate_daif st = true ->
  nth re (xregs st) 0 = entry -> nth rd (xregs st) 0 = dtb ->
  exists st' t, jump level re rd st = (Err Entered, st') /\ entered_kernel entry dtb st' /\ trace st' = trace st ++ t /\ Forall (fun o => jump_op o = true) t /\
    forall q, jump_regs q = false -> sys st' q = sys st q.
Proof.
  intros Hlev (Hre & Hrd & Hne & Hsafe) Hlen Hel Hdaif <- <-. destruct st as [tr f xs lv da ju]. cbn [xregs el pstate_daif sys trace] in *.
  assert (H3 : level = 3 \/ level = 2 \/ level = 1) by lia. destruct H3 as [ -> | [ -> | -> ] ]; cbn [Z.eqb Pos.eqb] in Hsafe; unfold jump; cbn [Z.eqb Pos.eqb].
  - destruct Hsafe as [Hr4 Hd4]. set (x4 := Z.lor (Z.lor (Z.lor (Z.lor (f SCR_EL3) (Z.shiftl 1 0)) (Z.shiftl 1 8)) (Z.shiftl 1 10)) (Z.shiftl 1 11)).
    set (xs1 := <[4%nat := x4]> (<[4%nat := Z.lor (Z.lor (Z.lor (f SCR_EL3) (Z.shiftl 1 0)) (Z.shiftl 1 8)) (Z.shiftl 1 10)]> (<[4%nat := Z.lor (Z.lor (f SCR_EL3) (Z.shiftl 1 0)) (Z.shiftl 1 8)]> (<[4%nat := Z.lor (f SCR_EL3) (Z.shiftl 1 0)]> (<[4%nat := f SCR_EL3]> xs))))).
    assert (Hn : forall v (l : list Z), length l = 31%nat -> nth 4 (<[4%nat := v]> l) 0 = v) by (intros; rewrite nth_insert by lia; done).
    assert (Hrun : jump_from_el3 re rd (mkSoc tr f xs lv da ju) = saves SPSR_EL3 ELR_EL3 re rd (mkSoc (tr ++ [Msr SCR_EL3 x4]) (setreg SCR_EL3 x4 f) xs1 lv da ju)).
    { unfold jump_from_el3, mrs. unfold bind at 1, gets. cbn [sys]. unfold bind at 1. rewrite xmov_run. do 4 (unfold bind at 1; rewrite xor_run, Hn by (rewrite ?length_insert; lia)).
      unfold bind at 1. rewrite msr_x_run, Hn by (rewrite ?length_insert; lia). reflexivity. }
    assert (Hx : forall r, r <> 4%nat -> nth r xs1 0 = nth r xs 0) by (intros r Hr; unfold xs1; rewrite !nth_insert by (rewrite ?length_insert; lia); by rewrite !decide_False).
    destruct (saves_run SPSR_EL3 ELR_EL3 re rd (tr ++ [Msr SCR_EL3 x4]) (setreg SCR_EL3 x4 f) xs1 lv da ju) as (st' & t & Hs & He & Ht & Hf & Hq); try done; [unfold xs1; by rewrite !length_insert|].
    rewrite (Hx re), (Hx rd) in He by done. exists st', ([Msr SCR_EL3 x4] ++ t). rewrite Hrun. split; [done|]. split; [done|]. rewrite app_assoc. split; [done|].
    split; [by constructor|]. intros q Hjq. rewrite (Hq q Hjq). unfold setreg. by destruct q.
  - destruct Hsafe as [Hr4 Hd4]. destruct (saves_run SPSR_EL2 ELR_EL2 re rd tr f xs lv da ju) as (st' & t & Hs & H); try done. exists st', t. done.
  - unfold jump_from_el1, bind at 1. rewrite contract_run. do 2 eexists. split; [reflexivity|]. unfold entered_kernel. cbn [jumped el pstate_daif xregs trace sys upd set_field].
    rewrite (contract_nth_high rd xs re), !contract_nth by (done || lia). split; [by repeat split|]. split; [reflexivity|]. split; [by repeat constructor|done].
Qed.

(** ** The whole handover *)
Definition becomes (t : list Op) (f : SysReg -> Z) (da : bool) (st : Soc) : Soc := mkSoc (trace st ++ t) f (xregs st) (el st) da (jumped st).
Lemma after_becomes t st : after t st = becomes t (sys st) (pstate_daif st) st.
Proof. by destruct st. Qed.
Lemma becomes_becomes t1 f1 d1 t2 f2 d2 st : becomes t2 f2 d2 (becomes t1 f1 d1 st) = becomes (t1 ++ t2) f2 d2 st.
Proof. unfold becomes. cbn. by rewrite app_assoc. Qed.
Lemma becomes_after t1 f d t2 st : after t2 (becomes t1 f d st) = becomes (t1 ++ t2) f d st.
Proof. by rewrite after_becomes, becomes_becomes. Qed.

Definition gic_regs (q : SysReg) : bool := match q with ICC_SRE_EL1 | ICC_IGRPEN1_EL1 | ICC_PMR_EL1 => true | _ => false end.
Lemma disable_gicv3_run st : exists t f, disable_gicv3 st = (Ok tt, becomes t f true st) /\ Daifset ∈ t /\ Wr (Mem GICD_CTLR) 0 ∈ t /\
  f ICC_IGRPEN1_EL1 = 0 /\ f ICC_PMR_EL1 = 0 /\ Z.testbit (f ICC_SRE_EL1) 0 = true /\ forall q, gic_regs q = false -> f q = sys st q.
Proof.
  destruct st as [tr f xs lv da ju]. unfold disable_gicv3, becomes. cbn [sys trace xregs el jumped].
  destruct (Z.eqb_spec (Z.land (f ICC_SRE_EL1) 1) 0) as [Hz|Hnz].
  - exists [Daifset; Msr ICC_SRE_EL1 (Z.lor (f ICC_SRE_EL1) 1); Isb; Msr ICC_IGRPEN1_EL1 0; Msr ICC_PMR_EL1 0; Wr (Mem GICD_CTLR) 0; Dsb; Isb],
      (setreg ICC_PMR_EL1 0 (setreg ICC_IGRPEN1_EL1 0 (setreg ICC_SRE_EL1 (Z.lor (f ICC_SRE_EL1) 1) f))).
    split; [unfold msr, mrs, write_place, op; unfold bind, modify, gets, ret; unfold set_field, upd; cbn [sys trace xregs el jumped pstate_daif]; rewrite Hz; cbn [Z.eqb];
      cbn [sys trace xregs el jumped pstate_daif]; rewrite <- !app_assoc; reflexivity|].
    split; [left|]. split; [do 5 right; left|]. split; [done|]. split; [done|]. split; [change (Z.testbit (Z.lor (f ICC_SRE_EL1) 1) 0 = true); by rewrite Z.lor_spec, orb_true_r|]. intros q Hq. by destruct q.
  - exists [Daifset; Msr ICC_IGRPEN1_EL1 0; Msr ICC_PMR_EL1 0; Wr (Mem GICD_CTLR) 0; Dsb; Isb], (setreg ICC_PMR_EL1 0 (setreg ICC_IGRPEN1_EL1 0 f)).
    split; [unfold msr, mrs, write_place, op; unfold bind, modify, gets, ret; unfold set_field, upd; cbn [sys trace xregs el jumped pstate_daif];
      rewrite (proj2 (Z.eqb_neq _ _) Hnz); cbn [sys trace xregs el jumped pstate_daif]; rewrite <- !app_assoc; reflexivity|].
    split; [left|]. split; [do 3 right; left|]. split; [done|]. split; [done|]. split; [|intros q Hq; by destruct q].
    change (Z.testbit (f ICC_SRE_EL1) 0 = true). change 1 with (Z.ones 1) in Hnz. rewrite Z.land_ones in Hnz by lia. rewrite Z.bit0_odd. rewrite Zmod_odd in Hnz. by destruct (Z.odd (f ICC_SRE_EL1)).
Qed.

Lemma enable_fp_run st : enable_fp_simd_el1 st =
  (Ok tt, becomes [Msr CPACR_EL1 (Z.lor (sys st CPACR_EL1) (Z.shiftl 3 20)); Isb] (setreg CPACR_EL1 (Z.lor (sys st CPACR_EL1) (Z.shiftl 3 20)) (sys st)) (pstate_daif st) st).
Proof. destruct st. unfold enable_fp_simd_el1, msr, mrs, op. unfold bind, modify, gets, becomes. unfold upd. cbn. by rewrite <- app_assoc. Qed.

Definition no_mmu (v : Z) : Z := Z.land v (bitnot U64 (Z.lor (Z.lor (Z.shiftl 1 0) (Z.shiftl 1 2)) (Z.shiftl 1 12))).
Lemma disable_mmu_run st : disable_mmu_and_caches st =
  (Ok tt, becomes [Msr SCTLR_EL1 (no_mmu (sys st SCTLR_EL1)); Dsb; Isb] (setreg SCTLR_EL1 (no_mmu (sys st SCTLR_EL1)) (sys st)) (pstate_daif st) st).
Proof. destruct st. unfold disable_mmu_and_caches, msr, mrs, op. unfold bind, modify, gets, becomes. unfold upd. cbn. by rewrite <- !app_assoc. Qed.
Lemma invalidate_tlb_run st : invalidate_tlb st = (Ok tt, after [TlbiVmalle1is; Dsb; Isb] st).
Proof. destruct st. unfold invalidate_tlb, op. unfold bind, modify, after. unfold upd. cbn. by rewrite <- !app_assoc. Qed.
Lemma invalidate_icache_run st : invalidate_icache st = (Ok tt, after [IcIallu; Dsb; Isb] st).
Proof. destruct st. unfold invalidate_icache, op. unfold bind, modify, after. unfold upd. cbn. by rewrite <- !app_assoc. Qed.
Lemma no_mmu_bits v : Z.testbit (no_mmu v) 0 = false /\ Z.testbit (no_mmu v) 2 = false /\ Z.testbit (no_mmu v) 12 = false.
Proof. unfold no_mmu. rewrite !Z.land_spec. rewrite !andb_false_iff. repeat split; right; reflexivity. Qed.

Section handover.
Context (device : list Op -> Place -> nat -> Z) (polls : nat) (ctr clidr : Z) (ccsidr : Z -> Z).
Hypothesis ready : uart_ready device polls.
Hypothesis geometry : forall l, 0 <= l < loc clidr -> geometry_ok ccsidr l.

Lemma print_hex_run v positions started st : exists s, print_hex_from device polls v started positions st = (Ok tt, after (Wr THR <$> s) st).
Proof.
  revert started st. induction positions as [|i rest IH]; intros started st; cbn [print_hex_from]; [exists []; by rewrite after_nil|]. unfold print_hex_digit.
  destruct (_ || _).
  - match goal with |- context [uart_print _ _ ?d] => set (s := d) end. rewrite (bind_after _ _ st (after (Wr THR <$> s) st) true) by (unfold bind; by rewrite (uart_print_run _ _ ready)).
    destruct (IH true (after (Wr THR <$> s) st)) as (s2 & Hs2). exists (s ++ s2). rewrite Hs2, after_app, fmap_app. done.
  - rewrite (bind_after _ _ st st started) by done. apply IH.
Qed.
Lemma print_hex_handover_run v st : exists s, print_hex_handover device polls v st = (Ok tt, after (Wr THR <$> s) st).
Proof.
  unfold print_hex_handover, print. rewrite (bind_after _ _ _ _ _ (uart_print_run _ _ ready (lit "0x") st)). destruct (print_hex_run v (rev (seqZ 0 16)) false (after (Wr THR <$> lit "0x") st)) as (s & ->).
  exists (lit "0x" ++ s). by rewrite after_app, fmap_app.
Qed.

(** The work of the handover before the jump, in order: the interrupt controller, the
    two ranges and every line of the caches, then the memory management unit, the
    translations and the instructions. *)
Definition teardown (entry dtb : Z) (t : list Op) : Prop :=
  exists clean v1 t1 t2 t3, t = clean ++ Msr SCTLR_EL1 v1 :: t1 ++ TlbiVmalle1is :: t2 ++ IcIallu :: t3 /\
    Daifset ∈ clean /\ Wr (Mem GICD_CTLR) 0 ∈ clean /\
    cleans clean (line_size_of ctr) dtb (dtb + 0x10000) /\ cleans clean (line_size_of ctr) entry (entry + 0x200000) /\ cleans_all clidr ccsidr clean.

Lemma cleans_app_r t1 t2 line a b : cleans t1 line a b -> cleans (t1 ++ t2) line a b.
Proof. intros H x Hx. destruct (H x Hx) as (l & Hl & Hb). exists l. split; [apply elem_of_app; by left|done]. Qed.
Lemma cleans_app_l t1 t2 line a b : cleans t2 line a b -> cleans (t1 ++ t2) line a b.
Proof. intros H x Hx. destruct (H x Hx) as (l & Hl & Hb). exists l. split; [apply elem_of_app; by right|done]. Qed.

(** The handover, step by step. *)
Lemma handover_run (re rd : nat) (entry dtb level : Z) (st : Soc) (Hlevel : 1 <= level <= 3) (Hel : el st = level) (Hsafe : safe_registers level re rd)
    (Hregs : length (xregs st) = 31%nat) (Hdtb : 0 <= dtb) (Hentry : 0 <= entry) (Hfit : dtb + 0x200000 <= U64 /\ entry + 0x400000 <= U64) :
  exists st' t, perform_handover device polls ctr clidr ccsidr re rd entry dtb st = (Err Entered, st') /\ entered_kernel entry dtb st' /\
    trace st' = trace st ++ t /\ teardown entry dtb t /\
    Z.testbit (sys st' SCTLR_EL1) 0 = false /\ Z.testbit (sys st' SCTLR_EL1) 2 = false /\ Z.testbit (sys st' SCTLR_EL1) 12 = false /\
    Z.testbit (sys st' CPACR_EL1) 20 = true /\ Z.testbit (sys st' CPACR_EL1) 21 = true /\ sys st' ICC_IGRPEN1_EL1 = 0 /\ sys st' ICC_PMR_EL1 = 0.
Proof.
  assert (Hline : line_size_of ctr <= 131072).
  { destruct (line_pow ctr) as (k & Hk & ->). change 131072 with (2 ^ 17). apply Z.pow_le_mono_r; lia. }
  unfold perform_handover, print. rewrite (bind_after _ _ _ _ _ (uart_print_run _ _ ready _ st)). set (p0 := Wr THR <$> _). rewrite after_becomes.
  destruct (disable_gicv3_run (becomes p0 (sys st) (pstate_daif st) st)) as (t1 & f1 & H1 & Hd1 & Hg1 & Hi1 & Hm1 & _ & Hk1). rewrite (bind_after _ _ _ _ _ H1), becomes_becomes.
  rewrite (bind_after _ _ _ _ _ (enable_fp_run _)). cbn [sys pstate_daif becomes]. rewrite becomes_becomes. set (cp := Z.lor (f1 CPACR_EL1) (Z.shiftl 3 20)). set (f2 := setreg CPACR_EL1 cp f1).
  unfold bind at 1, lift at 1. rewrite add_ok by lia.
  match goal with |- context [becomes ?t f2 true st] => destruct (flush_range_run ctr dtb (dtb + 0x10000) (becomes t f2 true st) ltac:(lia) ltac:(lia) ltac:(lia)) as (t3 & H3 & Hc3 & _) end.
  rewrite (bind_after _ _ _ _ _ H3), becomes_after. unfold bind at 1, lift at 1. rewrite add_ok by lia.
  match goal with |- context [becomes ?t f2 true st] => destruct (flush_range_run ctr entry (entry + 0x200000) (becomes t f2 true st) ltac:(lia) ltac:(lia) ltac:(lia)) as (t4 & H4 & Hc4 & _) end.
  rewrite (bind_after _ _ _ _ _ H4), becomes_after.
  match goal with |- context [becomes ?t f2 true st] => destruct (flush_all_run ctr clidr ccsidr (becomes t f2 true st) geometry) as (f5 & t5 & H5 & Hk5 & Hc5 & _); set (tc := t) in * end.
  rewrite (bind_after _ _ _ _ _ H5). change (after t5 (set_field sys f5 (becomes tc f2 true st))) with (after t5 (becomes tc f5 true st)). rewrite becomes_after.
  rewrite (bind_after _ _ _ _ _ (disable_mmu_run _)). cbn [sys pstate_daif becomes]. rewrite becomes_becomes. set (f6 := setreg SCTLR_EL1 (no_mmu (f5 SCTLR_EL1)) f5).
  rewrite (bind_after _ _ _ _ _ (invalidate_tlb_run _)), becomes_after. rewrite (bind_after _ _ _ _ _ (invalidate_icache_run _)), becomes_after.
  rewrite (bind_after _ _ _ _ _ (uart_print_run _ _ ready _ _)), becomes_after. set (p7 := Wr THR <$> _).
  match goal with |- context [bind (print_hex_handover _ _ entry) _ ?s] => destruct (print_hex_handover_run entry s) as (p8 & H8) end. rewrite (bind_after _ _ _ _ _ H8), becomes_after.
  rewrite (bind_after _ _ _ _ _ (uart_print_run _ _ ready _ _)), becomes_after. set (p9 := Wr THR <$> lit _).
  match goal with |- context [bind (print_hex_handover _ _ dtb) _ ?s] => destruct (print_hex_handover_run dtb s) as (p10 & H10) end. rewrite (bind_after _ _ _ _ _ H10), becomes_after.
  rewrite (bind_after _ _ _ _ _ (uart_print_run _ _ ready _ _)), becomes_after. set (p11 := Wr THR <$> lit _).
  match goal with |- context [becomes ?t f6 true st] => set (tf := t) end.
  rewrite (bind_after _ _ _ _ _ (eq_refl : gets el (becomes tf f6 true st) = (Ok (el st), becomes tf f6 true st))). rewrite Hel.
  set (sj := mkSoc (trace st ++ tf) f6 (<[rd := dtb]> (<[re := entry]> (xregs st))) (el st) true (jumped st)). fold (jump level re rd).
  rewrite (bind_after _ _ _ (mkSoc (trace st ++ tf) f6 (<[re := entry]> (xregs st)) (el st) true (jumped st)) tt) by done. rewrite (bind_after _ _ _ sj tt) by done.
  pose proof Hsafe as (Hre & Hrd & Hne & _).
  destruct (jump_run level re rd entry dtb sj Hlevel Hsafe) as (st' & t' & Hj & Hent & Htr & _ & Hsys); [unfold sj; cbn; by rewrite !length_insert|done|done| | |].
  { unfold sj. cbn [xregs]. rewrite !nth_insert by (rewrite ?length_insert; lia). by rewrite decide_False, decide_True. }
  { unfold sj. cbn [xregs]. rewrite nth_insert by (rewrite ?length_insert; lia). by rewrite decide_True. }
  exists st', (tf ++ t'). split; [exact Hj|]. split; [done|]. split; [rewrite Htr; unfold sj; cbn [trace]; by rewrite app_assoc|]. split.
  - exists (tc ++ t5), (no_mmu (f5 SCTLR_EL1)), [Dsb; Isb], [Dsb; Isb], ([Dsb; Isb] ++ p7 ++ (Wr THR <$> p8) ++ p9 ++ (Wr THR <$> p10) ++ p11 ++ t').
    split; [unfold tf; rewrite <- !app_assoc; reflexivity|]. split; [|split; [|split; [|split]]].
    + unfold tc. rewrite <- !app_assoc. apply elem_of_app. right. apply elem_of_app. by left.
    + unfold tc. rewrite <- !app_assoc. apply elem_of_app. right. apply elem_of_app. by left.
    + apply cleans_app_r. unfold tc. apply cleans_app_r, cleans_app_l. exact Hc3.
    + apply cleans_app_r. unfold tc. apply cleans_app_l. exact Hc4.
    + intros l w s Hl Hw Hs. apply elem_of_app. right. by apply Hc5.
  - rewrite !Hsys by done. unfold sj. cbn [sys]. unfold f6 at 1 2 3. unfold setreg at 1 2 3. rewrite !decide_True by done. destruct (no_mmu_bits (f5 SCTLR_EL1)) as (-> & -> & ->).
    assert (Hcp : f6 CPACR_EL1 = cp) by (change (f6 CPACR_EL1) with (f5 CPACR_EL1); rewrite Hk5 by done; done).
    assert (Hig : f6 ICC_IGRPEN1_EL1 = 0) by (change (f6 ICC_IGRPEN1_EL1) with (f5 ICC_IGRPEN1_EL1); rewrite Hk5 by done; exact Hi1).
    assert (Hpm : f6 ICC_PMR_EL1 = 0) by (change (f6 ICC_PMR_EL1) with (f5 ICC_PMR_EL1); rewrite Hk5 by done; exact Hm1).
    rewrite Hcp, Hig, Hpm. unfold cp. rewrite !Z.lor_spec. change (Z.testbit (Z.shiftl 3 20) 20) with true. change (Z.testbit (Z.shiftl 3 20) 21) with true. by rewrite !orb_true_r.
Qed.
End handover.

(** ** The drivers *)
Section drivers.
Context (device : list Op -> Place -> nat -> Z) (polls : nat).

(** One of the first [bound] reads of [p] after [t] passes the test. *)
Definition answers (t : list Op) (p : Place) (bound : nat) (test : Z -> bool) : bool := existsb (fun n => test (device t p n)) (seq 0 bound).

Lemma poll_run bound p test st : poll device bound p test 0 st = (Ok (answers (trace st) p bound test), st).
Proof.
  unfold answers. generalize 0%nat as n. induction bound as [|bound IH]; intros n; cbn [poll seq existsb]; [done|]. unfold bind, read_place, gets.
  destruct (test _); [done|]. apply IH.
Qed.

Definition GUI_ON : list Op := [Wr (Mem 0xFDD90000) 1].
Definition GUI_SHOWN : list Op := [Wr (Mem 0xFDD90008) 0xFF000000; Wr (Mem 0xFDD9000C) 1].
Lemma gui_run st : gui_init device st =
  if answers (trace st ++ GUI_ON) (Mem 0xFDD90004) 100 (bit_set 1) then (Ok Ready, after (GUI_ON ++ GUI_SHOWN) st) else (Ok Error, after GUI_ON st).
Proof.
  unfold gui_init. rewrite (bind_after _ _ st (after GUI_ON st) tt) by done. rewrite (bind_after _ _ _ _ _ (poll_run _ _ _ _)).
  change (trace (after GUI_ON st)) with (trace st ++ GUI_ON). change (Mem Vop2Regs_sys_status) with (Mem 0xFDD90004). destruct (answers _ _ _ _); cbn [negb]; [|done]. rewrite <- after_app.
  unfold GUI_SHOWN. change ([Wr (Mem 0xFDD90008) 0xFF000000; Wr (Mem 0xFDD9000C) 1]) with ([Wr (Mem 0xFDD90008) 0xFF000000] ++ [Wr (Mem 0xFDD9000C) 1]). by rewrite <- after_app.
Qed.

Definition TOUCH_QUERY : list Op := [Wr (Mem 0xFEAB0000) 1; Wr (Mem 0xFEAB0004) 0x55].
Lemma touch_run st : touch_init device st =
  (Ok (if answers (trace st ++ TOUCH_QUERY) (Mem 0xFEAB000C) (Z.to_nat 100000) (bit_set 1) then Ready else Error), after TOUCH_QUERY st).
Proof.
  unfold touch_init. rewrite (bind_after _ _ st (after [Wr (Mem 0xFEAB0000) 1] st) tt) by done.
  rewrite (bind_after _ _ _ (after TOUCH_QUERY st) tt) by (change TOUCH_QUERY with ([Wr (Mem 0xFEAB0000) 1] ++ [Wr (Mem 0xFEAB0004) 0x55]); by rewrite <- after_app).
  rewrite (bind_after _ _ _ _ _ (poll_run _ _ _ _)). change (trace (after TOUCH_QUERY st)) with (trace st ++ TOUCH_QUERY). change (Mem I2cRegs_sr) with (Mem 0xFEAB000C).
  destruct (answers _ _ _ _); done.
Qed.

Definition ALVEO_SETUP : list Op := [Wr (Mem 0xFEB5000C) 0x80; Wr THR 1; Wr (Mem 0xFEB50004) 0; Wr (Mem 0xFEB5000C) 3; Wr (Mem 0xFEB50008) 0xC7].
Definition ALVEO_STATUS : Place := Mem 0xFEB50010.
Lemma alveo_run st : let t1 := trace st ++ ALVEO_SETUP in
  alveo_init device st =
  if answers t1 ALVEO_STATUS 100 (bit_set 0x20) then
    if answers (t1 ++ [Wr THR 0x41]) ALVEO_STATUS 100 (bit_set 0x20) then (Ok Ready, after (ALVEO_SETUP ++ [Wr THR 0x41; Wr THR 0x54]) st)
    else (Ok Error, after (ALVEO_SETUP ++ [Wr THR 0x41]) st)
  else (Ok Error, after ALVEO_SETUP st).
Proof.
  cbn zeta. unfold alveo_init. assert (Hset : forall k, (do! write_place (Mem UartRegs_lcr) 0x80 in do! write_place (Mem UartRegs_rbr_thr_dll) 1 in do! write_place (Mem UartRegs_ier_dlh) 0 in
    do! write_place (Mem UartRegs_lcr) 3 in do! write_place (Mem UartRegs_fcr) 0xC7 in k) st = (k : M Soc BootEnd FsmState) (after ALVEO_SETUP st)).
  { intros k. destruct st. unfold write_place, op, bind, modify, after. unfold upd. cbn. by rewrite <- !app_assoc. }
  rewrite Hset. unfold alveo_send. rewrite (bind_after _ _ _ _ _ (poll_run _ _ _ _)). change (trace (after ALVEO_SETUP st)) with (trace st ++ ALVEO_SETUP). change (Mem UartRegs_lsr) with ALVEO_STATUS.
  destruct (answers _ _ _ _); cbn [negb]; [|done]. rewrite (bind_after _ _ _ (after (ALVEO_SETUP ++ [Wr THR 0x41]) st) tt) by (by rewrite <- after_app).
  rewrite (bind_after _ _ _ _ _ (poll_run _ _ _ _)). change (trace (after (ALVEO_SETUP ++ [Wr THR 0x41]) st)) with (trace st ++ ALVEO_SETUP ++ [Wr THR 0x41]). rewrite app_assoc.
  destruct (answers _ _ _ _); cbn [negb]; [|done]. rewrite (bind_after _ _ _ (after (ALVEO_SETUP ++ [Wr THR 0x41; Wr THR 0x54]) st) tt); [done|].
  change (ALVEO_SETUP ++ [Wr THR 0x41; Wr THR 0x54]) with ((ALVEO_SETUP ++ [Wr THR 0x41]) ++ [Wr THR 0x54]). by rewrite <- (after_app (ALVEO_SETUP ++ [Wr THR 0x41]) [Wr THR 0x54]).
Qed.

(** The modem's driver uses the registers of the console's UART, and takes the register
    at offset 16, the modem control register, for the line status register at offset 20. *)
Lemma alveo_shares_console : Mem UartRegs_rbr_thr_dll = THR /\ Mem UartRegs_lsr <> LSR /\ UartRegs_lsr = RK3588_UART2_BASE + 0x10.
Proof. split; [done|]. split; [discriminate|done]. Qed.
End drivers.

(** ** Decimal numbers *)
Lemma digits_acc n z acc : digits n 10 z acc = digits n 10 z [] ++ acc.
Proof.
  revert z acc. induction n as [|n IH]; intros z acc; cbn [digits]; [done|]. destruct (z <? 10); [done|]. rewrite IH, (IH _ [_]), <- app_assoc. done.
Qed.
Lemma digit_char_dec d : 0 <= d < 10 -> digit_char d = 48 + d.
Proof. intros Hd. unfold digit_char. by rewrite (proj2 (Z.ltb_lt d 10)) by lia. Qed.

Lemma dec_digits_run n z buf : 0 < z < 10 ^ Z.of_nat n -> dec_digits (S n) z buf = Ok (buf ++ rev (digits n 10 z [])).
Proof.
  revert z buf. induction n as [|n IH]; intros z buf Hz; [cbn in Hz; lia|].
  change (dec_digits (S (S n)) z buf) with (if 0 <? z then dec_digits (S n) (z / 10) (buf ++ [48 + z mod 10]) else Ok buf). rewrite (proj2 (Z.ltb_lt 0 z)) by lia. cbn [digits].
  pose proof (Z.mod_pos_bound z 10 ltac:(lia)) as Hm. rewrite digit_char_dec by lia. destruct (Z.ltb_spec z 10) as [Hlt|Hge].
  - rewrite Z.div_small by lia. destruct n; cbn [dec_digits]; [done|]. done.
  - rewrite IH; [|rewrite Nat2Z.inj_succ, Z.pow_succ_r in Hz by lia; Z.to_euclidean_division_equations; lia].
    rewrite (digits_acc n (z / 10) [_]), rev_app_distr. cbn [rev app]. by rewrite <- app_assoc.
Qed.

Section boot.
Context (device : list Op -> Place -> nat -> Z) (polls : nat) (ctr clidr : Z) (ccsidr : Z -> Z).
Hypothesis ready : uart_ready device polls.
Hypothesis geometry : forall l, 0 <= l < loc clidr -> geometry_ok ccsidr l.

(** The digits the loader prints are those of the number. *)
Lemma print_dec_run z st : 0 <= z < 10 ^ 20 -> print_dec device polls z st = (Ok tt, after (Wr THR <$> dec z) st).
Proof.
  intros Hz. unfold print_dec, print. destruct (Z.eqb_spec z 0) as [->|Hne]; [apply (uart_print_run _ _ ready)|].
  rewrite (bind_after _ _ st st (rev (dec z))) by (unfold lift; by rewrite (dec_digits_run 20) by (change (Z.of_nat 20) with 20; lia)). rewrite rev_involutive.
  generalize (dec z). intros s. revert st. induction s as [|d s IH]; intros st; cbn [for_each]; [by rewrite after_nil|].
  rewrite (bind_after _ _ _ _ _ (uart_print_run _ _ ready [d] st)), IH, after_app. done.
Qed.

Lemma boot_panic_run s st : exists t, boot_panic device polls s st = (Err (BootPanic (lit s)), after t st) /\ control t = [].
Proof.
  unfold boot_panic, print. rewrite (bind_after _ _ _ _ _ (uart_print_run _ _ ready _ st)), (bind_after _ _ _ _ _ (uart_print_run _ _ ready _ _)), (bind_after _ _ _ _ _ (uart_print_run _ _ ready _ _)).
  rewrite !after_app. eexists. split; [reflexivity|]. by rewrite !control_app, !console_control.
Qed.

(** How far the loader came: what it had written to the chip beside the console. *)
Definition ALVEO_CONTROL : list Op := [Wr (Mem 0xFEB5000C) 0x80; Wr (Mem 0xFEB50004) 0; Wr (Mem 0xFEB5000C) 3; Wr (Mem 0xFEB50008) 0xC7].
Definition boot_ends (st st' : Soc) (t : list Op) (e : BootEnd) : Prop :=
  match e with
  | Entered => entered_kernel 0x00200000 0x0A000000 st' /\
      exists t1 t2, t = t1 ++ t2 /\ control t1 = PCIE_WRITES ++ (GUI_ON ++ GUI_SHOWN) ++ TOUCH_QUERY ++ ALVEO_CONTROL /\ teardown ctr clidr ccsidr 0x00200000 0x0A000000 t2
  | BootPanic m => jumped st' = jumped st /\
      ((m = lit "GUI" /\ control t = PCIE_WRITES ++ GUI_ON) \/
       (m = lit "TOUCH" /\ control t = PCIE_WRITES ++ (GUI_ON ++ GUI_SHOWN) ++ TOUCH_QUERY) \/
       (m = lit "ALVEO" /\ control t = PCIE_WRITES ++ (GUI_ON ++ GUI_SHOWN) ++ TOUCH_QUERY ++ ALVEO_CONTROL))
  end.

(** A failed driver ends the boot. *)
Lemma driver_failed line name st : exists t, (do! print device polls line in boot_panic device polls name) st = (Err (BootPanic (lit name)), after t st) /\ control t = [].
Proof.
  unfold print at 1. rewrite (bind_after _ _ _ _ _ (uart_print_run _ _ ready _ st)). match goal with |- context [boot_panic _ _ name ?s] => destruct (boot_panic_run name s) as (t & Ht & Hc) end.
  rewrite Ht, after_app. eexists. split; [reflexivity|]. by rewrite control_app, console_control, Hc.
Qed.
Lemma bind_failed {A C} (m : M Soc BootEnd A) (k : A -> M Soc BootEnd C) st st' e : m st = (Err e, st') -> bind m k st = (Err e, st').
Proof. intros H. unfold bind. by rewrite H. Qed.

(** The loader always ends, whatever the polled registers read: with the kernel entered
    as the handover's contract says, after the endpoint set-up and all three drivers, or
    in the hang that names the first driver whose device did not answer, before any
    later device was touched and without a jump. *)
Theorem start_rust_spec (re rd : nat) (st : Soc) (Hlevel : 1 <= el st <= 3) (Hsafe : safe_registers (el st) re rd) (Hregs : length (xregs st) = 31%nat) :
  exists e st' t, start_rust device polls ctr clidr ccsidr re rd st = (Err e, st') /\ trace st' = trace st ++ t /\ boot_ends st st' t e.
Proof.
  unfold start_rust, print. rewrite !(bind_after _ _ _ _ _ (uart_print_run _ _ ready _ _)), !after_app.
  rewrite (bind_after _ _ _ _ _ (eq_refl : gets el (after _ st) = (Ok (el st), after _ st))).
  rewrite (bind_after _ _ _ _ _ (uart_print_run _ _ ready _ _)), after_app. rewrite (bind_after _ _ _ _ _ (print_dec_run (el st) _ ltac:(lia))), after_app.
  rewrite !(bind_after _ _ _ _ _ (uart_print_run _ _ ready _ _)), !after_app.
  match goal with |- context [after ?t st] => set (p0 := t); assert (Hp0 : control p0 = []) by (unfold p0; by rewrite !control_app, !console_control) end.
  destruct (init_pcie_run device polls ready (after p0 st)) as ([] & t1 & Hpcie & Hc1). rewrite (bind_after _ _ _ _ _ Hpcie), after_app.
  unfold bind at 1. rewrite gui_run. destruct (answers _ _ _ 100 _); cbn [decide].
  2: { destruct (driver_failed "[G-BOOT] ERROR: GUI initialization failed!
" "GUI" (after GUI_ON (after (p0 ++ t1) st))) as (t2 & Ht2 & Hc2). rewrite (bind_failed _ _ _ _ _ Ht2), !after_app. do 3 eexists. split; [reflexivity|].
       split; [reflexivity|]. split; [done|]. left. split; [done|]. by rewrite !control_app, Hp0, Hc1, Hc2, app_nil_r. }
  rewrite (bind_after (ret tt) _ _ _ tt) by done. rewrite after_app. unfold bind at 1. rewrite touch_run. set (p1 := (p0 ++ t1) ++ GUI_ON ++ GUI_SHOWN).
  assert (Hp1 : control p1 = PCIE_WRITES ++ GUI_ON ++ GUI_SHOWN) by (unfold p1; by rewrite !control_app, Hp0, Hc1).
  destruct (answers _ _ _ (Z.to_nat 100000) _); cbn [decide].
  2: { destruct (driver_failed "[G-BOOT] ERROR: Touch initialization failed!
" "TOUCH" (after TOUCH_QUERY (after p1 st))) as (t2 & Ht2 & Hc2). rewrite (bind_failed _ _ _ _ _ Ht2), !after_app. do 3 eexists. split; [reflexivity|].
       split; [reflexivity|]. split; [done|]. right. left. split; [done|]. by rewrite !control_app, Hp1, Hc2, app_nil_r, <- app_assoc. }
  rewrite (bind_after (ret tt) _ _ _ tt) by done. rewrite after_app. unfold bind at 1. set (p2 := p1 ++ TOUCH_QUERY).
  assert (Hp2 : control p2 = PCIE_WRITES ++ (GUI_ON ++ GUI_SHOWN) ++ TOUCH_QUERY) by (unfold p2; by rewrite control_app, Hp1, <- app_assoc).
  assert (Halveo : exists r t2, alveo_init device (after p2 st) = (Ok r, after t2 (after p2 st)) /\ control t2 = ALVEO_CONTROL).
  { rewrite alveo_run. destruct (answers _ _ _ _ _); [destruct (answers _ _ _ _ _)|]; do 2 eexists; (split; [reflexivity|reflexivity]). }
  destruct Halveo as (r & t2 & Ha & Hc2). rewrite Ha, after_app. assert (Hp3 : control (p2 ++ t2) = PCIE_WRITES ++ (GUI_ON ++ GUI_SHOWN) ++ TOUCH_QUERY ++ ALVEO_CONTROL).
  { rewrite control_app, Hp2, Hc2, <- !app_assoc. done. }
  destruct (decide (r = Ready)) as [->|Hr].
  - rewrite (bind_after (ret tt) _ _ _ tt) by done. rewrite (bind_after _ _ _ _ _ (uart_print_run _ _ ready _ _)), after_app. unfold chainload_hxnu, print.
    rewrite (bind_after _ _ _ _ _ (uart_print_run _ _ ready _ _)), after_app. match goal with |- context [perform_handover _ _ _ _ _ _ _ _ _ (after ?t st)] => set (p4 := t) end.
    destruct (handover_run device polls ctr clidr ccsidr ready geometry re rd 0x00200000 0x0A000000 (el st) (after p4 st)) as (st' & t5 & Hh & He & Htr & Htd & _); try done; try lia.
    exists Entered, st', (p4 ++ t5). split; [exact Hh|]. split; [rewrite Htr; change (trace (after p4 st)) with (trace st ++ p4); by rewrite app_assoc|]. split; [done|]. exists p4, t5. split; [done|]. split; [|done].
    unfold p4. by rewrite !control_app, !console_control, !app_nil_r, <- control_app, Hp3.
  - destruct (driver_failed "[G-BOOT] ERROR: Alveo driver initialization failed!
" "ALVEO" (after (p2 ++ t2) st)) as (t3 & Ht3 & Hc3). rewrite (bind_failed _ _ _ _ _ Ht3), !after_app. do 3 eexists. split; [reflexivity|].
    split; [reflexivity|]. split; [done|]. right. right. split; [done|]. rewrite (control_app (p2 ++ t2)), Hp3, Hc3, app_nil_r. done.
Qed.
End boot.

(** C39: The kernel starts as the handover's contract says from each of the exception
    levels 1 to 3, provided that the serial port becomes ready, every cache level has at least two
    ways and set numbers that stay below the way's bits ([geometry_ok]), both images end within the address space, and the registers the
    compiler chose for the two addresses survive the assembly ([safe_registers]: other choices break
    the contract, [handover_clobbers]). Execution goes on at the entry point at level 1 with
    interrupts masked, the device tree's address in [x0] and zero in [x1] to [x3]; the memory
    management unit and both caches are off, floating point is on, the interrupt
    controller is quiet; and before the caches went off every line of the device tree
    and of the kernel, and every set and way of every level, was cleaned. *)
Theorem handover_contract (device : list Op -> Place -> nat -> Z) (polls : nat) (ctr clidr : Z) (ccsidr : Z -> Z) (re rd : nat) (entry dtb level : Z) (st : Soc)
    (Hready : uart_ready device polls) (Hgeometry : forall l, 0 <= l < loc clidr -> geometry_ok ccsidr l) (Hlevel : 1 <= level <= 3) (Hel : el st = level)
    (Hsafe : safe_registers level re rd) (Hregs : length (xregs st) = 31%nat) (Hdtb : 0 <= dtb) (Hentry : 0 <= entry)
    (Hfit : dtb + 0x200000 <= U64 /\ entry + 0x400000 <= U64) :
  exists st' t, perform_handover device polls ctr clidr ccsidr re rd entry dtb st = (Err Entered, st') /\ entered_kernel entry dtb st' /\
    trace st' = trace st ++ t /\ teardown ctr clidr ccsidr entry dtb t /\
    Z.testbit (sys st' SCTLR_EL1) 0 = false /\ Z.testbit (sys st' SCTLR_EL1) 2 = false /\ Z.testbit (sys st' SCTLR_EL1) 12 = false /\
    Z.testbit (sys st' CPACR_EL1) 20 = true /\ Z.testbit (sys st' CPACR_EL1) 21 = true /\ sys st' ICC_IGRPEN1_EL1 = 0 /\ sys st' ICC_PMR_EL1 = 0.
Proof. by apply (handover_run device polls ctr clidr ccsidr Hready Hgeometry re rd entry dtb level st). Qed.

(** The assembly writes [x0] to [x4] without declaring it. A compiler that keeps the
    entry point in [x0] makes the loader jump to the device tree from level 1, and one
    that keeps the device tree's address in [x4] hands the kernel the saved status. *)
Theorem handover_clobbers (entry dtb : Z) (f : SysReg -> Z) (xs : list Z) (tr : list Op) (Hxs : length xs = 31%nat) :
  (let '(_, st) := jump 1 0 5 (mkSoc tr f (<[5%nat := dtb]> (<[0%nat := entry]> xs)) 1 true None) in jumped st = Some dtb) /\
  (let '(_, st) := jump 2 5 4 (mkSoc tr f (<[4%nat := dtb]> (<[5%nat := entry]> xs)) 2 true None) in nth 0 (xregs st) 0 = 0x3C5).
Proof.
  split.
  - unfold jump. cbn [Z.eqb Pos.eqb]. unfold jump_from_el1, bind at 1. rewrite contract_run. cbn [br bind xreg gets modify throw jumped xregs]. f_equal.
    unfold set_field, upd. cbn [jumped]. rewrite contract_nth by (rewrite ?length_insert; lia). rewrite decide_True, nth_insert by (rewrite ?length_insert; lia || done). done.
  - change (jump 2 5 4) with (saves SPSR_EL2 ELR_EL2 5 4). unfold saves. unfold bind at 1. rewrite xmov_run. unfold bind at 1. rewrite msr_x_run. unfold bind at 1. rewrite xmov_run.
    unfold bind at 1. rewrite msr_x_run. unfold bind at 1. rewrite msr_x_run. unfold bind at 1. rewrite contract_run, eret_run. cbn [xregs].
    rewrite contract_nth by (rewrite ?length_insert; lia). rewrite decide_True by done. rewrite nth_insert by (rewrite ?length_insert; lia). by rewrite decide_True.
Qed.

(** ** A concrete board *)
Definition demo_device : list Op -> Place -> nat -> Z := fun _ _ _ => 0x21.
Definition demo_ccsidr : Z -> Z := fun _ => Z.lor (Z.shiftl 255 13) (Z.lor (Z.shiftl 3 3) 2).
Definition demo_soc : Soc := mkSoc [] (fun _ => 0) (replicate 31 0) 2 false None.
Lemma demo_uart : uart_ready demo_device 1.
Proof. intros t. exists O. split; [lia|]. vm_compute. discriminate. Qed.
Lemma demo_geometry l : 0 <= l < loc (Z.shiftl 2 24) -> geometry_ok demo_ccsidr l.
Proof. intros _. split; vm_compute; discriminate. Qed.

Lemma pcie_endpoint_spec_witness : exists t, init_pcie_endpoint demo_device 1 demo_soc = (Ok tt, after t demo_soc) /\ control t = PCIE_WRITES.
Proof. destruct (pcie_endpoint_spec demo_device 1 demo_uart demo_soc) as (t & Hrun & Hc & _). exists t. split; [exact Hrun|exact Hc]. Defined.
Lemma handover_contract_witness : exists st', perform_handover demo_device 1 0x84448004 (Z.shiftl 2 24) demo_ccsidr 9 10 0x200000 0x0A000000 demo_soc = (Err Entered, st') /\
  entered_kernel 0x200000 0x0A000000 st'.
Proof.
  destruct (handover_contract demo_device 1 0x84448004 (Z.shiftl 2 24) demo_ccsidr 9 10 0x200000 0x0A000000 2 demo_soc demo_uart demo_geometry) as (st' & t & Hrun & He & _);
    [lia|reflexivity|unfold safe_registers; cbn; lia|reflexivity|lia|lia|lia|]. exists st'. split; [exact Hrun|exact He].
Defined.
Lemma start_rust_spec_witness : exists e st' t, start_rust demo_device 1 0x84448004 (Z.shiftl 2 24) demo_ccsidr 9 10 demo_soc = (Err e, st') /\
  boot_ends 0x84448004 (Z.shiftl 2 24) demo_ccsidr demo_soc st' t e.
Proof.
  destruct (start_rust_spec demo_device 1 0x84448004 (Z.shiftl 2 24) demo_ccsidr demo_uart demo_geometry 9 10 demo_soc) as (e & st' & t & Hrun & _ & He);
    [cbn; lia|unfold safe_registers; cbn; lia|reflexivity|]. exists e, st', t. split; [exact Hrun|exact He].
Defined.
Lemma handover_clobbers_witness : jumped (snd (jump 1 0 5 (mkSoc [] (fun _ => 0) (<[5%nat := 0x0A000000]> (<[0%nat := 0x200000]> (replicate 31 0))) 1 true None))) = Some 0x0A000000.
Proof. destruct (handover_clobbers 0x200000 0x0A000000 (fun _ => 0) (replicate 31 0) []) as [H _]; [reflexivity|]. exact H. Defined.
