(* ===== verification/Lock.v ===== *)
(** * The spin lock: [kernel/src/lock.rs]

    Each thread that uses a lock is at a point of [lock], [try_lock] or its critical
    section, and moves by one atomic access of the lock at a time. [advance] is that
    move: [c] is what the thread does next when it has a choice, [spurious] that a weak
    compare-and-exchange fails although the lock is free. *)
From stdpp Require Import base list numbers option.
From Stdlib Require Import ZArith Lia Bool.
From S2P Require Import Prelude.

Section lock.
Context {T : Type}.

Record SpinLock : Type := mkLock { locked : bool; data : T }.
Definition lock_new (d : T) : SpinLock := mkLock false d.

(** [AtCas], [AtLoad]: the two loops of [lock]; [Holding]: a [SpinLockGuard] exists. *)
Inductive LockPc : Type := Outside | AtCas | AtLoad | Holding.
(** [DoWork f]: a use of the guard through [Deref] or [DerefMut]. *)
Inductive LockCmd : Type := DoLock | DoTryLock | DoWork (f : T -> T) | DoDrop.

Definition advance (c : LockCmd) (spurious : bool) (l : SpinLock) (p : LockPc) : SpinLock * LockPc :=
  match p with
  | Outside =>
      match c with
      | DoLock => (l, AtCas)
      | DoTryLock => if locked l then (l, Outside) else (mkLock true (data l), Holding)
      | _ => (l, Outside)
      end
  | AtCas => if negb (locked l) && negb spurious then (mkLock true (data l), Holding) else (l, AtLoad)
  | AtLoad => if locked l then (l, AtLoad) else (l, AtCas)
  | Holding =>
      match c with
      | DoWork f => (mkLock (locked l) (f (data l)), Holding)
      | DoDrop => (mkLock false (data l), Outside)
      | _ => (l, Holding)
      end
  end.

Record Users : Type := mkUsers { the_lock : SpinLock; users : list LockPc }.

Inductive lock_step : nat -> Users -> Users -> Prop :=
| step_user l ps i p c spurious l' p' :
    ps !! i = Some p -> advance c spurious l p = (l', p') -> lock_step i (mkUsers l ps) (mkUsers l' (<[i := p']> ps)).

Inductive lock_reach (n : nat) (d : T) : Users -> Prop :=
| lock_start : lock_reach n d (mkUsers (lock_new d) (replicate n Outside))
| lock_next i s s' : lock_reach n d s -> lock_step i s s' -> lock_reach n d s'.

(** The lock is taken exactly when one thread holds a guard, and no two do. *)
Definition lock_inv (s : Users) : Prop :=
  (locked (the_lock s) = true <-> exists i, users s !! i = Some Holding) /\
  (forall i j, users s !! i = Some Holding -> users s !! j = Some Holding -> i = j).

Lemma insert_holding (ps : list LockPc) i p j : (i < length ps)%nat -> <[i := p]> ps !! j = Some Holding <-> (j = i /\ p = Holding) \/ (j <> i /\ ps !! j = Some Holding).
Proof.
  intros Hi. destruct (decide (j = i)) as [->|Hne]; [rewrite list_lookup_insert_eq by done|rewrite list_lookup_insert_ne by done]; split; intros H; try naive_solver.
Qed.

(** A thread that holds no guard and gets none keeps the lock as it is. *)
Lemma step_inv i s s' : lock_inv s -> lock_step i s s' -> lock_inv s'.
Proof.
  intros [Hiff Huniq] Hstep. destruct Hstep as [l ps i p c spurious l' p' Hp Hadv]. cbn [the_lock users] in *. pose proof (lookup_lt_Some _ _ _ Hp) as Hi.
  assert (Hfree : locked l = false -> forall j, ps !! j <> Some Holding) by (intros Hf j Hj; rewrite (proj2 Hiff) in Hf; [done|eauto]).
  assert (Hcases : (l' = l /\ (p' = Holding <-> p = Holding)) \/ (locked l = false /\ locked l' = true /\ p' = Holding) \/
    (p = Holding /\ p' = Holding /\ locked l' = locked l) \/ (p = Holding /\ p' = Outside /\ locked l' = false)).
  { destruct p; cbn in Hadv; [destruct c; cbn in Hadv| | |destruct c; cbn in Hadv]; try destruct (locked l) eqn:Hl; cbn in Hadv; try destruct spurious; cbn in Hadv;
      injection Hadv as <- <-; naive_solver. }
  assert (Hat : forall j, <[i := p']> ps !! j = Some Holding <-> (j = i /\ p' = Holding) \/ (j <> i /\ ps !! j = Some Holding)) by (intros j; by apply insert_holding).
  unfold lock_inv. cbn [the_lock users]. destruct Hcases as [[-> Hsame]|[(Hl & Hl' & ->)|[(-> & -> & Hl')|(-> & -> & Hl')]]].
  - assert (Hsm : forall j, <[i := p']> ps !! j = Some Holding <-> ps !! j = Some Holding).
    { intros j. rewrite Hat, Hsame. destruct (decide (j = i)) as [->|Hne]; [|tauto]. rewrite Hp. split; [intros [[_ ->]|[? _]]; done|intros [= ->]; by left]. }
    setoid_rewrite Hsm. done.
  - split; [split; [intros _; exists i; apply Hat; by left|done]|]. intros j k Hj%Hat Hk%Hat.
    destruct Hj as [[-> _]|[_ Hj]]; [|by apply Hfree in Hj]. destruct Hk as [[-> _]|[_ Hk]]; [done|by apply Hfree in Hk].
  - assert (Hsm : <[i := Holding]> ps = ps) by (by apply list_insert_id). by rewrite Hsm, Hl'.
  - rewrite Hl'. split; [split; [done|]|].
    + intros (j & [[_ ?]|[Hne Hj]]%Hat); [done|]. by specialize (Huniq _ _ Hj Hp).
    + intros j k [[_ ?]|[Hne Hj]]%Hat; [done|]. by specialize (Huniq _ _ Hj Hp).
Qed.

Lemma reach_inv n d s : lock_reach n d s -> lock_inv s.
Proof.
  induction 1 as [|i s s' _ IH Hstep]; [|by eapply step_inv]. split; cbn [the_lock users locked lock_new].
  - split; [done|]. intros (i & Hi). by apply lookup_replicate in Hi as [? _].
  - intros i j Hi. by apply lookup_replicate in Hi as [? _].
Qed.

(** C38: At any time of any interleaving of threads that lock, try to lock and release, at
    most one holds a guard, the flag is set exactly while one does, and the protected
    data changes only by a step of that thread. *)
Theorem lock_exclusive (n : nat) (d : T) (s : Users) (Hreach : lock_reach n d s) :
  (forall i j, users s !! i = Some Holding -> users s !! j = Some Holding -> i = j) /\
  (locked (the_lock s) = true <-> exists i, users s !! i = Some Holding) /\
  (forall i s', lock_step i s s' -> data (the_lock s') <> data (the_lock s) -> users s !! i = Some Holding /\ forall j, j <> i -> users s !! j <> Some Holding).
Proof.
  destruct (reach_inv n d s Hreach) as [Hiff Huniq]. split; [done|]. split; [done|]. intros i s' Hstep Hdata.
  destruct Hstep as [l ps i p c spurious l' p' Hp Hadv]. cbn [the_lock users] in *.
  assert (p = Holding) as ->.
  { destruct p; cbn in Hadv; [destruct c; cbn in Hadv| | |done]; try destruct (locked l); cbn in Hadv; try destruct spurious; cbn in Hadv; injection Hadv as <- <-; done. }
  split; [done|]. intros j Hne Hj. by specialize (Huniq _ _ Hj Hp).
Qed.

(** Steps of one thread, then of another. *)
Inductive lock_steps : list nat -> Users -> Users -> Prop :=
| steps_nil s : lock_steps [] s s
| steps_cons i is_ s s1 s2 : lock_step i s s1 -> lock_steps is_ s1 s2 -> lock_steps (i :: is_) s s2.

Lemma step_intro i c spurious l ps p l' p' ps' : ps !! i = Some p -> advance c spurious l p = (l', p') -> ps' = <[i := p']> ps -> lock_step i (mkUsers l ps) (mkUsers l' ps').
Proof. intros Hp Ha ->. by econstructor. Qed.

(** A waiting thread enters once the lock is free: two steps of its own. *)
Lemma enters_free i ps l p : locked l = false -> ps !! i = Some p -> p = AtCas \/ p = AtLoad ->
  exists is_ s', lock_steps is_ (mkUsers l ps) s' /\ users s' !! i = Some Holding /\ (length is_ <= 2)%nat /\ Forall (eq i) is_.
Proof.
  intros Hl Hp Hw. pose proof (lookup_lt_Some _ _ _ Hp) as Hi. assert (Hcas : forall ps1, length ps1 = length ps -> ps1 !! i = Some AtCas ->
    lock_step i (mkUsers l ps1) (mkUsers (mkLock true (data l)) (<[i := Holding]> ps1))).
  { intros ps1 _ H1. apply (step_intro i DoLock false l ps1 AtCas (mkLock true (data l)) Holding); [done| |done]. cbn. by rewrite Hl. }
  destruct Hw as [->| ->].
  - exists [i], (mkUsers (mkLock true (data l)) (<[i := Holding]> ps)). split; [econstructor; [by apply Hcas|constructor]|]. cbn [users].
    split; [by rewrite list_lookup_insert_eq|]. split; [cbn; lia|by repeat constructor].
  - exists [i; i], (mkUsers (mkLock true (data l)) (<[i := Holding]> (<[i := AtCas]> ps))). split.
    + econstructor; [apply (step_intro i DoLock false l ps AtLoad l AtCas); [done|cbn; by rewrite Hl|done]|].
      econstructor; [apply Hcas; [by rewrite length_insert|by rewrite list_lookup_insert_eq]|constructor].
    + cbn [users]. rewrite list_insert_insert_eq. split; [by rewrite list_lookup_insert_eq|]. split; [cbn; lia|by repeat constructor].
Qed.

(** No interleaving leads to a dead end: whatever the state, a thread that waits in
    [lock] holds a guard after the holder, if there is one, drops its own and the
    waiting thread takes at most two steps. *)
Theorem lock_progress (n : nat) (d : T) (s : Users) (i : nat) (p : LockPc) (Hreach : lock_reach n d s) (Hp : users s !! i = Some p) (Hwaits : p = AtCas \/ p = AtLoad) :
  exists is_ s', lock_steps is_ s s' /\ users s' !! i = Some Holding /\ (length is_ <= 3)%nat /\ forall k, k ∈ is_ -> k = i \/ users s !! k = Some Holding.
Proof.
  destruct (reach_inv n d s Hreach) as [Hiff Huniq]. destruct s as [l ps]. cbn [the_lock users] in *. destruct (locked l) eqn:Hl.
  - destruct (proj1 Hiff eq_refl) as (h & Hh). assert (Hne : h <> i) by (intros ->; rewrite Hp in Hh; injection Hh as ->; by destruct Hwaits).
    set (ps1 := <[h := Outside]> ps). assert (Hp1 : ps1 !! i = Some p) by (unfold ps1; by rewrite list_lookup_insert_ne).
    destruct (enters_free i ps1 (mkLock false (data l)) p eq_refl Hp1 Hwaits) as (is_ & s' & Hs & Hin & Hlen & Hall).
    exists (h :: is_), s'. split; [econstructor; [apply (step_intro h DoDrop false l ps Holding (mkLock false (data l)) Outside); done|exact Hs]|].
    split; [done|]. split; [cbn; lia|]. intros k [->|Hk]%elem_of_cons; [right; exact Hh|]. left. rewrite list.Forall_forall in Hall. symmetry. by apply Hall.
  - destruct (enters_free i ps l p Hl Hp Hwaits) as (is_ & s' & Hs & Hin & Hlen & Hall). exists is_, s'. split; [done|]. split; [done|]. split; [lia|].
    intros k Hk. left. rewrite list.Forall_forall in Hall. symmetry. by apply Hall.
Qed.
End lock.

(** Two threads, one inside and one waiting. *)
Definition demo_users : Users := mkUsers (mkLock true 5) [Holding; AtLoad].
Lemma demo_users_reach : lock_reach 2 5 demo_users.
Proof.
  apply (lock_next 2 5 1%nat (mkUsers (mkLock true 5) [Holding; AtCas])).
  - apply (lock_next 2 5 0%nat (mkUsers (mkLock false 5) [AtCas; AtCas])).
    + apply (lock_next 2 5 1%nat (mkUsers (mkLock false 5) [AtCas; Outside])).
      * apply (lock_next 2 5 0%nat (mkUsers (mkLock false 5) [Outside; Outside])); [apply (lock_start 2 5)|by apply (step_intro 0 DoLock false _ _ Outside _ AtCas)].
      * by apply (step_intro 1 DoLock false _ _ Outside _ AtCas).
    + by apply (step_intro 0 DoLock false _ _ AtCas _ Holding).
  - by apply (step_intro 1 DoLock false _ _ AtCas _ AtLoad).
Qed.
Lemma lock_exclusive_witness : locked (the_lock demo_users) = true /\ exists i, users demo_users !! i = Some Holding.
Proof. destruct (lock_exclusive 2 5 demo_users demo_users_reach) as (_ & Hiff & _). split; [reflexivity|]. apply Hiff. reflexivity. Defined.
Lemma lock_progress_witness : exists is_ s', lock_steps is_ demo_users s' /\ users s' !! 1%nat = Some Holding.
Proof.
  destruct (lock_progress 2 5 demo_users 1 AtLoad demo_users_reach) as (is_ & s' & Hs & Hin & _); [reflexivity|right; reflexivity|]. exists is_, s'. split; [exact Hs|exact Hin].
Defined.
