(* ===== verification/Supernova.v ===== *)
(** * The accelerator driver: [kernel/src/supernova.rs] and [kernel/src/sxrc_core.rs]

    The state is the driver's own fields, the processor's interrupt flag, the writes
    made to the mapped registers, in order, and the page tables. [completion w n] is
    the [n]-th read of the completion register after the writes [w]; [polls] bounds the
    reads of one wait and [spins] the attempts to take the lock. *)
From stdpp Require Import base list numbers option gmap.
From Stdlib Require Import ZArith Lia Bool.
From S2P Require Import Prelude Frame Vmm Paging.

Definition SUPERNOVA_PHYS_BASE : Z := 0xFE000000.

Record Hex2Payload : Type := mkHex2 { hex2_data : list Z; hex2_size : Z }.
Record Hex4Payload : Type := mkHex4 { hex4_data : list Z; hex4_size : Z }.
Inductive SxrcPayload : Type := Hex2 (p : Hex2Payload) | Hex4 (p : Hex4Payload).
(** The arrays have their declared lengths. *)
Definition payload_ok (p : SxrcPayload) : Prop :=
  match p with
  | Hex2 p => length (hex2_data p) = 32%nat /\ byte_list (hex2_data p) /\ 0 <= hex2_size p
  | Hex4 p => length (hex4_data p) = 64%nat /\ byte_list (hex4_data p) /\ 0 <= hex4_size p
  end.
Definition payload_parts (p : SxrcPayload) : Z * list Z :=
  match p with Hex2 p => (hex2_size p, hex2_data p) | Hex4 p => (hex4_size p, hex4_data p) end.

Record SupernovaDriver : Type := mkSupernova {
  is_initialized : bool; seq_tracker : Z; mmio : Z; sn_locked : bool; sn_interrupts : bool; sn_writes : list (Z * Z); sn_paging : Paging }.
#[export] Instance SupernovaDriver_eta : RecordEta SupernovaDriver := fun d =>
  mkSupernova (is_initialized d) (seq_tracker d) (mmio d) (sn_locked d) (sn_interrupts d) (sn_writes d) (sn_paging d).

(** Offsets of the registers in [SupernovaHardware]. *)
Definition REG_DOORBELL : Z := 0.
Definition REG_COMPLETION : Z := 4.
Definition REG_ACK : Z := 8.
Definition REG_RING : Z := 16.

Section driver.
Context (hhdm_offset : option Z) (cr3 : Z) (completion : list (Z * Z) -> nat -> Z) (polls spins : nat).
Context {E : Type}.
Let D (A : Type) : Type := M SupernovaDriver E A.

Definition supernova_mmio_base : outcome E Z := add U64 (default 0 hhdm_offset) SUPERNOVA_PHYS_BASE.

Definition supernova_new (interrupts : bool) (p : Paging) : outcome E SupernovaDriver :=
  let? base_virt := match hhdm_offset with Some offset => add U64 offset SUPERNOVA_PHYS_BASE | None => Ok SUPERNOVA_PHYS_BASE end in
  Ok (mkSupernova false 0 base_virt false interrupts [] p).

(** [map_kernel_region(..).ok()]: an error of the mapping is dropped. *)
Definition map_quietly (va pa length flags : Z) : D unit := fun d =>
  let '(o, p) := map_kernel_region hhdm_offset cr3 va pa length flags (sn_paging d) in
  (match o with Ok _ | Err _ => Ok tt | Panic => Panic | Diverge => Diverge end, set_field sn_paging p d).

Definition supernova_init : D unit :=
  do! match hhdm_offset with
      | Some offset =>
          let! virt_addr := lift (add U64 offset SUPERNOVA_PHYS_BASE) in
          do! map_quietly virt_addr SUPERNOVA_PHYS_BASE 0x2000 (Z.lor (Z.lor (Z.lor FLAG_WRITE_THROUGH FLAG_CACHE_DISABLE) FLAG_GLOBAL) FLAG_WRITABLE) in
          modify (set_field mmio virt_addr)
      | None => ret tt
      end in
  modify (set_field is_initialized true).

Definition mmio_ptr : D Z :=
  let! addr := gets mmio in
  if addr <? 0x100000000000 then
    match hhdm_offset with
    | Some offset =>
        let! virt := lift (add U64 offset SUPERNOVA_PHYS_BASE) in
        do! modify (set_field mmio virt) in ret virt
    | None => ret addr
    end
  else ret addr.

Definition write_volatile (addr value : Z) : D unit := modify (upd sn_writes (fun w => w ++ [(addr, value)])).
Definition ring_doorbell (task_id : Z) : D unit := let! p := mmio_ptr in write_volatile (p + REG_DOORBELL) task_id.
Definition ack_task (task_id : Z) : D unit := let! p := mmio_ptr in write_volatile (p + REG_ACK) task_id.
Definition wait_for_gsp (expected_task_id : Z) : D unit :=
  loop polls (fun n =>
    do! mmio_ptr in
    let! v := gets (fun d => completion (sn_writes d) n) in
    ret (if v =? expected_task_id then inr tt else inl (S n))) O.

(** [data.chunks(4)]: the word of each chunk, padded with zeros. *)
Fixpoint chunk_words (fuel : nat) (data : list Z) : list Z :=
  match fuel, data with
  | _, [] | O, _ => []
  | S fuel', _ => le_val (take 4 data ++ replicate (4 - length (take 4 data)) 0) :: chunk_words fuel' (drop 4 data)
  end.
Fixpoint write_words (buffer : Z) (index : Z) (words : list Z) : D unit :=
  match words with
  | [] => ret tt
  | w :: rest => do! write_volatile (buffer + 4 * index) w in write_words buffer (index + 1) rest
  end.
Definition write_to_ring_buffer (offset : Z) (data : list Z) : D bool :=
  let! end_ := lift (add U64 offset (len data)) in
  if 4096 <? end_ then ret false else
  let! p := mmio_ptr in
  do! write_words (p + REG_RING) (offset / 4) (chunk_words (length data) data) in
  ret true.

Definition supernova_lock : D unit :=
  do! modify (set_field sn_interrupts false) in
  loop spins (fun _ =>
    let! l := gets sn_locked in
    if l : bool then ret (inl tt) else do! modify (set_field sn_locked true) in ret (inr tt)) tt.
Definition guard_drop : D unit :=
  do! modify (set_field sn_locked false) in modify (set_field sn_interrupts true).

Definition route_sxrc (payload : SxrcPayload) : D unit :=
  do! supernova_lock in
  let '(size, data) := payload_parts payload in
  if len data <? size then guard_drop else
  let! bytes := lift (slice data 0 size) in
  let! written := write_to_ring_buffer 0 bytes in
  do! (if written : bool then ring_doorbell (cast U32 size) else ret tt) in
  guard_drop.

Definition synchronize : D unit :=
  do! supernova_lock in
  let! old := gets seq_tracker in
  do! modify (set_field seq_tracker (wrap_add U32 old 1)) in
  let sync_task_id := wrap_add U32 old 1 in
  do! ring_doorbell sync_task_id in
  do! wait_for_gsp sync_task_id in
  do! ack_task sync_task_id in
  guard_drop.
End driver.

(** ** Facts *)
Section facts.
Context (hhdm_offset : option Z) (completion : list (Z * Z) -> nat -> Z) (polls spins : nat) {E : Type}.

(** The registers are mapped in the upper half, where [mmio_ptr] keeps the address. *)
Definition mapped_high (d : SupernovaDriver) : Prop := 0x100000000000 <= mmio d.
Lemma mmio_ptr_run d : mapped_high d -> mmio_ptr (E:=E) hhdm_offset d = (Ok (mmio d), d).
Proof. intros H. unfold mmio_ptr, bind, gets. by rewrite (proj2 (Z.ltb_ge _ _) H). Qed.

Lemma lock_run d : sn_locked d = false -> (0 < spins)%nat ->
  supernova_lock (E:=E) spins d = (Ok tt, set_field sn_locked true (set_field sn_interrupts false d)).
Proof. intros Hl Hs. destruct spins as [|n]; [lia|]. unfold supernova_lock, bind, modify. cbn [loop]. unfold bind, gets, ret, modify. cbn. by rewrite Hl. Qed.

Definition ring_writes (buffer index : Z) (words : list Z) : list (Z * Z) := imap (fun k w => (buffer + 4 * (index + Z.of_nat k), w)) words.
Lemma write_words_run buffer words : forall index d,
  write_words (E:=E) buffer index words d = (Ok tt, upd sn_writes (fun w => w ++ ring_writes buffer index words) d).
Proof.
  induction words as [|w words IH]; intros index d; cbn [write_words].
  - unfold ring_writes, ret. destruct d. unfold upd. cbn. by rewrite app_nil_r.
  - unfold bind, write_volatile, modify. rewrite IH.
    assert (Hr : ring_writes buffer index (w :: words) = (buffer + 4 * index, w) :: ring_writes buffer (index + 1) words).
    { unfold ring_writes. rewrite imap_cons. f_equal; [f_equal; lia|]. apply imap_ext. intros k x _. cbn. f_equal. lia. }
    rewrite Hr. destruct d. unfold upd. cbn. by rewrite <- app_assoc.
Qed.

(** The bytes of the words are the data, padded to a whole word. *)
Lemma chunk_words_bytes fuel data : byte_list data -> (length data <= fuel)%nat ->
  exists pad, concat (le_bytes 4 <$> chunk_words fuel data) = data ++ replicate pad 0 /\ (pad < 4)%nat /\ (length data + pad = 4 * length (chunk_words fuel data))%nat.
Proof.
  revert data. induction fuel as [|fuel IH]; intros data Hb Hl.
  - destruct data; [|cbn in Hl; lia]. exists O; cbn; split_and!; [done|lia|lia].
  - destruct data as [|x data]; [exists O; cbn; split_and!; [done|lia|lia]|]. cbn [chunk_words]. set (l := x :: data) in *.
    assert (Hd : byte_list (drop 4 l)) by (by apply Forall_drop). assert (Ht : byte_list (take 4 l)) by (by apply Forall_take).
    destruct (IH (drop 4 l) Hd ltac:(rewrite length_drop; cbn in *; lia)) as (pad & Hc & Hp & Hlen).
    cbn [fmap list_fmap concat]. set (w := take 4 l ++ replicate (4 - length (take 4 l)) 0).
    assert (Hw : le_bytes 4 (le_val w) = w).
    { assert (Hw4 : length w = 4%nat) by (unfold w; rewrite length_app, length_replicate, length_take; lia).
      rewrite <- Hw4. apply le_bytes_val. apply Forall_app. split; [done|]. apply Forall_replicate. unfold in_range. lia. }
    rewrite Hw. destruct (decide (4 <= length l)%nat) as [Hge|Hlt].
    + exists pad. rewrite Hc. split; [|split; [done|cbn [length]; rewrite length_drop in Hlen; lia]]. unfold w. rewrite length_take, Nat.min_l by lia. rewrite Nat.sub_diag. cbn [replicate]. rewrite app_nil_r.
      by rewrite app_assoc, take_drop.
    + exists (4 - length l)%nat. assert (Hz : drop 4 l = []) by (apply drop_ge; lia). rewrite Hz in *. cbn [fmap list_fmap] in Hc.
      assert (Hnil : chunk_words fuel [] = []) by (by destruct fuel). rewrite Hnil. cbn [fmap list_fmap concat length]. rewrite app_nil_r. unfold w. rewrite take_ge by lia.
      split; [done|]. unfold l in *. cbn [length] in *. lia.
Qed.

(** What a routed payload leaves on the device: the words of the ring, then the doorbell
    with the size; nothing for a size beyond the array. *)
Definition routed (base size : Z) (data : list Z) : list (Z * Z) :=
  if len data <? size then []
  else ring_writes (base + REG_RING) 0 (chunk_words (Z.to_nat size) (take (Z.to_nat size) data)) ++ [(base + REG_DOORBELL, size)].

Lemma write_to_ring_run bytes d : mapped_high d -> len bytes <= 64 ->
  write_to_ring_buffer (E:=E) hhdm_offset 0 bytes d
  = (Ok true, upd sn_writes (fun w => w ++ ring_writes (mmio d + REG_RING) 0 (chunk_words (length bytes) bytes)) d).
Proof.
  intros Hm Hl. pose proof (len_nonneg bytes). unfold write_to_ring_buffer. rewrite (add_ok U64) by lia. unfold bind, lift, ret.
  rewrite (proj2 (Z.ltb_ge 4096 _)) by lia. rewrite mmio_ptr_run by done. change (0 / 4) with 0. by rewrite write_words_run.
Qed.
End facts.

(** A payload routed to a free, mapped device: the bytes of the payload, padded with zeros
    to a whole word, are written to the ring buffer from its start, one word after the
    other, and only then the doorbell is rung with the size. A payload whose size exceeds
    its array touches no register. The lock is free again and interrupts are on, whether
    they were before or not. *)
Theorem route_sxrc_spec {E} hhdm_offset spins payload d :
  payload_ok payload -> mapped_high d -> sn_locked d = false -> (0 < spins)%nat ->
  let '(size, data) := payload_parts payload in
  route_sxrc (E:=E) hhdm_offset spins payload d
  = (Ok tt, set_field sn_interrupts true (upd sn_writes (fun w => w ++ routed (mmio d) size data) d))
  /\ (size <= len data -> exists pad, (pad < 4)%nat /\
      concat (le_bytes 4 <$> chunk_words (Z.to_nat size) (take (Z.to_nat size) data)) = take (Z.to_nat size) data ++ replicate pad 0).
Proof.
  intros Hp Hm Hl Hs. destruct (payload_parts payload) as [size data] eqn:Epp.
  assert (Hd : byte_list data /\ 0 <= size /\ len data <= 64).
  { destruct payload as [[]|[]]; cbn in Hp, Epp; injection Epp as <- <-; unfold len; destruct Hp as (? & ? & ?); split_and!; (done || lia). }
  destruct Hd as (Hb & H0 & H64). split.
  - unfold route_sxrc, routed. unfold bind at 1. rewrite lock_run by done. rewrite Epp.
    destruct (Z.ltb_spec (len data) size) as [Hbig|Hfit].
    + unfold guard_drop, bind, modify. destruct d; cbn in *. subst. unfold upd. cbn. by rewrite app_nil_r.
    + rewrite slice_ok by lia. rewrite Z.sub_0_r. change (drop (Z.to_nat 0) data) with data. unfold bind at 1, lift at 1.
      set (bytes := take (Z.to_nat size) data).
      assert (Hlb : length bytes = Z.to_nat size) by (unfold bytes; rewrite length_take; unfold len in *; lia).
      unfold bind at 1. rewrite write_to_ring_run; [|done|unfold len in *; rewrite Hlb; lia]. rewrite Hlb. cbn match.
      unfold ring_doorbell, bind at 1. unfold bind at 1. rewrite mmio_ptr_run by done.
      unfold write_volatile, guard_drop, bind, modify. unfold cast. rewrite (Z.mod_small size) by lia.
      destruct d; cbn in *. subst. unfold upd. cbn. by rewrite <- app_assoc.
  - intros Hle. destruct (chunk_words_bytes (Z.to_nat size) (take (Z.to_nat size) data)) as (pad & Hc & Hlt & _).
    + by apply Forall_take.
    + rewrite length_take. lia.
    + by exists pad.
Qed.

(** The wait returns at the first read that shows the task, and never returns when no
    read does. *)
Lemma wait_loop hhdm_offset completion id {E} fuel n k d : mapped_high d ->
  (forall i, (i < k)%nat -> completion (sn_writes d) (n + i)%nat <> id) -> (k < fuel)%nat -> completion (sn_writes d) (n + k)%nat = id ->
  loop (E:=E) fuel (fun n => do! mmio_ptr hhdm_offset in let! v := gets (fun d => completion (sn_writes d) n) in
    ret (if v =? id then inr tt else inl (S n))) n d = (Ok tt, d).
Proof.
  intros Hm. revert fuel n. induction k as [|k IH]; intros fuel n Hlt Hf Hk; (destruct fuel as [|fuel]; [lia|]); cbn [loop].
  - rewrite Nat.add_0_r in Hk. unfold bind. rewrite mmio_ptr_run by done. unfold gets, ret. by rewrite Hk, Z.eqb_refl.
  - unfold bind at 1. unfold bind at 1. rewrite mmio_ptr_run by done. unfold bind at 1, gets, ret at 1.
    assert (Hne : completion (sn_writes d) n <> id) by (specialize (Hlt O ltac:(lia)); by rewrite Nat.add_0_r in Hlt).
    rewrite (proj2 (Z.eqb_neq _ _) Hne). apply IH; [|lia|by rewrite Nat.add_succ_comm].
    intros i Hi. rewrite Nat.add_succ_comm. apply Hlt. lia.
Qed.
Lemma wait_forever hhdm_offset completion id {E} fuel n d : mapped_high d ->
  (forall i, completion (sn_writes d) i <> id) ->
  loop (E:=E) fuel (fun n => do! mmio_ptr hhdm_offset in let! v := gets (fun d => completion (sn_writes d) n) in
    ret (if v =? id then inr tt else inl (S n))) n d = (Diverge, d).
Proof.
  intros Hm Hne. revert n. induction fuel as [|fuel IH]; intros n; [done|]. cbn [loop].
  unfold bind at 1. unfold bind at 1. rewrite mmio_ptr_run by done. unfold bind at 1, gets, ret at 1.
  rewrite (proj2 (Z.eqb_neq _ _) (Hne n)). apply IH.
Qed.

(** What the registers see of a synchronisation: the doorbell and, once the device shows
    the task, its acknowledgement. *)
Definition sync_id (d : SupernovaDriver) : Z := wrap_add U32 (seq_tracker d) 1.
Definition rung (d : SupernovaDriver) : list (Z * Z) := sn_writes d ++ [(mmio d + REG_DOORBELL, sync_id d)].

Lemma synchronize_upto {E} hhdm_offset completion polls spins d :
  mapped_high d -> sn_locked d = false -> (0 < spins)%nat ->
  synchronize (E:=E) hhdm_offset completion polls spins d
  = (do! wait_for_gsp hhdm_offset completion polls (sync_id d) in do! ack_task hhdm_offset (sync_id d) in guard_drop)
      (mkSupernova (is_initialized d) (sync_id d) (mmio d) true false (rung d) (sn_paging d)).
Proof.
  intros Hm Hl Hs. unfold synchronize. unfold bind at 1. rewrite lock_run by done. unfold bind at 1, gets. unfold bind at 1, modify at 1.
  unfold bind at 1, ring_doorbell. unfold bind at 1. rewrite mmio_ptr_run by (by destruct d). unfold write_volatile, modify at 1.
  destruct d; cbn in *. done.
Qed.

(** A synchronisation of a free, mapped device takes the next number after the last one,
    modulo [2^32], rings the doorbell with it, returns once the device shows that number
    within the reads allowed and acknowledges exactly that number, with the lock free and
    interrupts on. When the device never shows the number, the call never returns: the
    lock stays taken and interrupts stay off. *)
Theorem synchronize_spec {E} hhdm_offset completion polls spins d :
  mapped_high d -> sn_locked d = false -> (0 < spins)%nat ->
  (forall k, (k < polls)%nat -> completion (rung d) k = sync_id d -> (forall i, (i < k)%nat -> completion (rung d) i <> sync_id d) ->
     synchronize (E:=E) hhdm_offset completion polls spins d
     = (Ok tt, mkSupernova (is_initialized d) (sync_id d) (mmio d) false true (rung d ++ [(mmio d + REG_ACK, sync_id d)]) (sn_paging d)))
  /\ ((forall i, completion (rung d) i <> sync_id d) ->
     synchronize (E:=E) hhdm_offset completion polls spins d
     = (Diverge, mkSupernova (is_initialized d) (sync_id d) (mmio d) true false (rung d) (sn_paging d))).
Proof.
  intros Hm Hl Hs. rewrite (synchronize_upto hhdm_offset completion polls spins d Hm Hl Hs).
  set (d1 := mkSupernova _ _ _ true false _ _). assert (Hm1 : mapped_high d1) by exact Hm.
  split.
  - intros k Hk Hc Hmin. unfold bind at 1, wait_for_gsp. rewrite (wait_loop _ _ _ polls O k d1 Hm1 Hmin Hk Hc).
    unfold bind at 1, ack_task. unfold bind at 1. by rewrite mmio_ptr_run by done.
  - intros Hne. unfold bind at 1, wait_for_gsp. by rewrite (wait_forever _ _ _ polls O d1 Hm1 Hne).
Qed.

(** The kernel's driver after [new] and [init], with the direct map in the upper half: its
    registers are mapped high and its lock is free. *)
Lemma supernova_init_ready {E} offset cr3 interrupts p d d' :
  0x100000000000 <= offset -> supernova_new (E:=E) (Some offset) interrupts p = Ok d ->
  supernova_init (E:=E) (Some offset) cr3 d = (Ok tt, d') ->
  mapped_high d' /\ sn_locked d' = false /\ is_initialized d' = true /\ seq_tracker d' = 0 /\ sn_writes d' = [].
Proof.
  intros Ho Hn Hi. unfold supernova_new in Hn. destruct (add U64 offset SUPERNOVA_PHYS_BASE) as [b| | |] eqn:Ea; try done. cbn in Hn. injection Hn as <-.
  assert (Hb : b = offset + SUPERNOVA_PHYS_BASE). { unfold add, unwrap, chk_add in Ea. destruct (_ <? _) in Ea; congruence. }
  revert Hi. unfold supernova_init, bind, lift, map_quietly, modify. rewrite Ea.
  destruct (map_kernel_region _ _ _ _ _ _ _) as [[] p']; intros Hi; try done; injection Hi as <-; unfold mapped_high; cbn; rewrite Hb; unfold SUPERNOVA_PHYS_BASE; split_and!; (done || lia).
Qed.

(** A device that completes the last number rung after two reads. *)
Definition quick_device (w : list (Z * Z)) (n : nat) : Z := if (n <? 2)%nat then 0 else match last w with Some (_, v) => v | None => 0 end.
Definition ready_driver (interrupts : bool) : SupernovaDriver :=
  mkSupernova true 41 0xFFFF8000FE000000 false interrupts [] (mkPaging frame_allocator_new ∅).
Definition five_bytes : SxrcPayload := Hex2 (mkHex2 ([1; 2; 3; 4; 5] ++ replicate 27 9) 5).

Lemma route_sxrc_spec_witness :
  route_sxrc (E:=unit) (Some 0xFFFF800000000000) 1 five_bytes (ready_driver false)
  = (Ok tt, set_field sn_interrupts true (upd sn_writes (fun w => w ++ [(0xFFFF8000FE000010, 0x04030201); (0xFFFF8000FE000014, 5); (0xFFFF8000FE000000, 5)]) (ready_driver false))).
Proof.
  assert (Hp : payload_ok five_bytes) by (cbn; split_and!; [done|repeat constructor; unfold in_range; lia|lia]).
  destruct (route_sxrc_spec (E:=unit) (Some 0xFFFF800000000000) 1 five_bytes (ready_driver false) Hp ltac:(unfold mapped_high; cbn; lia) eq_refl ltac:(lia)) as [Hr _].
  rewrite Hr. reflexivity.
Defined.

Lemma synchronize_spec_witness :
  synchronize (E:=unit) (Some 0xFFFF800000000000) quick_device 3 1 (ready_driver true)
  = (Ok tt, mkSupernova true 42 0xFFFF8000FE000000 false true [(0xFFFF8000FE000000, 42); (0xFFFF8000FE000008, 42)] (mkPaging frame_allocator_new ∅))
  /\ fst (synchronize (E:=unit) (Some 0xFFFF800000000000) (fun _ _ => 7) 3 1 (ready_driver true)) = Diverge.
Proof.
  assert (Hm : mapped_high (ready_driver true)) by (unfold mapped_high; cbn; lia). split.
  - destruct (synchronize_spec (E:=unit) (Some 0xFFFF800000000000) quick_device 3 1 (ready_driver true) Hm eq_refl ltac:(lia)) as [Hr _].
    rewrite (Hr 2%nat); [reflexivity|lia|reflexivity|]. intros i Hi. destruct i as [|[|i]]; [discriminate|discriminate|lia].
  - destruct (synchronize_spec (E:=unit) (Some 0xFFFF800000000000) (fun _ _ => 7) 3 1 (ready_driver true) Hm eq_refl ltac:(lia)) as [_ Hf].
    rewrite Hf; [reflexivity|]. intros i. vm_compute. discriminate.
Defined.
