(* ===== verification/Vector.v ===== *)
(** * Vector units: [kernel/src/vector.rs]

    What the processor's identification leaves and the enabled state mask allow the kernel
    to use and to save. [cpuid] is the instruction, [xgetbv] the mask it would read. *)
From stdpp Require Import base list numbers option strings.
From Stdlib Require Import ZArith Lia Bool.
From S2P Require Import Prelude Paths Text Machine Pseudo.

Definition AVX : Z := Z.shiftl 1 0.
Definition AVX2 : Z := Z.shiftl 1 1.
Definition AVX512F : Z := Z.shiftl 1 2.
Definition NEON : Z := Z.shiftl 1 3.
Definition ALTIVEC : Z := Z.shiftl 1 4.
Definition VSX : Z := Z.shiftl 1 5.
Definition AVX512BW : Z := Z.shiftl 1 0.
Definition AVX512DQ : Z := Z.shiftl 1 1.
Definition AVX512VL : Z := Z.shiftl 1 2.

Inductive VectorContextMode : Type := ScalarOnly | Fxsave | Xsave | Aarch64FpSimd | Ppc64Vsx.
Definition mode_str (m : VectorContextMode) : list Z :=
  match m with
  | ScalarOnly => lit "scalar-only" | Fxsave => lit "fxsave" | Xsave => lit "xsave"
  | Aarch64FpSimd => lit "aarch64-fpsimd" | Ppc64Vsx => lit "ppc64-vsx"
  end.
Inductive VectorContextPolicy : Type := Eager | ScalarFallback.
Definition policy_str (p : VectorContextPolicy) : list Z := match p with Eager => lit "eager" | ScalarFallback => lit "scalar-fallback" end.

Record VectorCaps : Type := mkCaps {
  initialized : bool; base_bits : Z; ext_bits : Z; xsave_mask : Z; context_mode : VectorContextMode; policy : VectorContextPolicy }.
#[export] Instance VectorCaps_eta : RecordEta VectorCaps := fun c =>
  mkCaps (initialized c) (base_bits c) (ext_bits c) (xsave_mask c) (context_mode c) (policy c).
Definition caps_empty : VectorCaps := mkCaps false 0 0 0 ScalarOnly ScalarFallback.
Definition has_base (c : VectorCaps) (bit : Z) : bool := negb (Z.land (base_bits c) bit =? 0).
Definition has_ext (c : VectorCaps) (bit : Z) : bool := negb (Z.land (ext_bits c) bit =? 0).

Definition XCR0_XMM : Z := Z.shiftl 1 1.
Definition XCR0_YMM : Z := Z.shiftl 1 2.
Definition XCR0_OPMASK : Z := Z.shiftl 1 5.
Definition XCR0_ZMM_HI256 : Z := Z.shiftl 1 6.
Definition XCR0_HI16_ZMM : Z := Z.shiftl 1 7.

Definition on_base (b : bool) (bit : Z) (c : VectorCaps) : VectorCaps := if b then upd base_bits (fun v => Z.lor v bit) c else c.
Definition on_ext (b : bool) (bit : Z) (c : VectorCaps) : VectorCaps := if b then upd ext_bits (fun v => Z.lor v bit) c else c.

Definition decode_x86_caps (leaf1_ecx leaf1_edx leaf7_ebx xcr0 : Z) : VectorCaps :=
  let caps := set_field initialized true caps_empty in
  let has_xsave_instruction := bit_set leaf1_ecx 26 in
  let has_osxsave := bit_set leaf1_ecx 27 in
  let has_avx_hw := bit_set leaf1_ecx 28 in
  let has_fxsave := bit_set leaf1_edx 24 in
  let ymm_mask := Z.lor XCR0_XMM XCR0_YMM in
  let ymm_state_enabled := Z.land xcr0 ymm_mask =? ymm_mask in
  let avx_usable := has_xsave_instruction && has_osxsave && has_avx_hw && ymm_state_enabled in
  let caps := on_base avx_usable AVX caps in
  let caps := on_base (avx_usable && bit_set leaf7_ebx 5) AVX2 caps in
  let avx512_state_mask := Z.lor (Z.lor (Z.lor (Z.lor XCR0_XMM XCR0_YMM) XCR0_OPMASK) XCR0_ZMM_HI256) XCR0_HI16_ZMM in
  let avx512_state_enabled := Z.land xcr0 avx512_state_mask =? avx512_state_mask in
  let avx512f := avx_usable && avx512_state_enabled && bit_set leaf7_ebx 16 in
  let caps := on_base avx512f AVX512F caps in
  let caps := on_ext (avx512f && bit_set leaf7_ebx 30) AVX512BW caps in
  let caps := on_ext (avx512f && bit_set leaf7_ebx 17) AVX512DQ caps in
  let caps := on_ext (avx512f && bit_set leaf7_ebx 31) AVX512VL caps in
  if has_xsave_instruction && has_osxsave && ymm_state_enabled then
    set_field policy Eager (set_field xsave_mask (if avx512_state_enabled then avx512_state_mask else ymm_mask) (set_field context_mode Xsave caps))
  else if has_fxsave then set_field policy Eager (set_field context_mode Fxsave caps)
  else set_field policy ScalarFallback (set_field context_mode ScalarOnly caps).

Section detect.
Context (cpuid : Z -> Z -> CpuidResult) (xgetbv : Z -> Z * Z).
(** [xgetbv index] gives [eax] and [edx]. *)
Definition read_xcr0 (index : Z) : Z := let '(low, high) := xgetbv index in Z.lor (Z.shiftl high 32) low.
Definition detect_caps_x86 : VectorCaps :=
  let leaf1 := query cpuid 1 in
  let leaf7_ebx := if 7 <=? eax (query cpuid 0) then ebx (cpuid 7 0) else 0 in
  let xcr0 := if negb (Z.land (ecx leaf1) (Z.shiftl 1 27) =? 0) then read_xcr0 0 else 0 in
  decode_x86_caps (ecx leaf1) (edx leaf1) leaf7_ebx xcr0.
End detect.
Definition detect_caps_aarch64 : VectorCaps :=
  let caps := upd base_bits (fun v => Z.lor v NEON) (set_field initialized true caps_empty) in
  set_field policy Eager (set_field context_mode Aarch64FpSimd caps).
Definition detect_caps_powerpc64 (altivec vsx : bool) : VectorCaps :=
  let caps := on_base altivec ALTIVEC (set_field initialized true caps_empty) in
  if vsx then set_field policy Eager (set_field context_mode Ppc64Vsx (on_base true VSX caps))
  else set_field policy ScalarFallback (set_field context_mode ScalarOnly caps).
Definition detect_caps_other : VectorCaps := set_field initialized true caps_empty.

(** [initialize]: the stored and returned capabilities are the detected ones. *)
Definition vector_initialize {E} (detected : VectorCaps) : M VectorCaps E VectorCaps := do! put detected in ret detected.

Definition render_proc_status (c : VectorCaps) : list Z :=
  lines_text [
    lit "initialized " ++ yes_no (initialized c); lit "policy " ++ policy_str (policy c); lit "context_mode " ++ mode_str (context_mode c);
    lit "base_bits " ++ hex_wide 16 (base_bits c); lit "ext_bits " ++ hex_wide 16 (ext_bits c); lit "xsave_mask " ++ hex_wide 16 (xsave_mask c);
    lit "feature_avx " ++ yes_no (has_base c AVX); lit "feature_avx2 " ++ yes_no (has_base c AVX2);
    lit "feature_avx512f " ++ yes_no (has_base c AVX512F); lit "feature_avx512bw " ++ yes_no (has_ext c AVX512BW);
    lit "feature_avx512dq " ++ yes_no (has_ext c AVX512DQ); lit "feature_avx512vl " ++ yes_no (has_ext c AVX512VL);
    lit "feature_neon " ++ yes_no (has_base c NEON); lit "feature_altivec " ++ yes_no (has_base c ALTIVEC);
    lit "feature_vsx " ++ yes_no (has_base c VSX)].

Definition append_flag (text flag : list Z) : list Z := (match text with [] => [] | _ => text ++ [32] end) ++ flag.
Definition flag_if (b : bool) (flag text : list Z) : list Z := if b then append_flag text flag else text.
Definition append_cpuinfo_flags (c : VectorCaps) (text : list Z) : list Z :=
  let text := flag_if (has_base c AVX) (lit "avx") text in
  let text := flag_if (has_base c AVX2) (lit "avx2") text in
  let text := flag_if (has_base c AVX512F) (lit "avx512f") text in
  let text := flag_if (has_ext c AVX512BW) (lit "avx512bw") text in
  let text := flag_if (has_ext c AVX512DQ) (lit "avx512dq") text in
  let text := flag_if (has_ext c AVX512VL) (lit "avx512vl") text in
  let text := flag_if (has_base c NEON) (lit "neon") text in
  let text := flag_if (has_base c ALTIVEC) (lit "altivec") text in
  flag_if (has_base c VSX) (lit "vsx") text.

(** ** What the capabilities mean *)
(** The register state an instruction set needs the context switch to save. *)
Definition YMM_STATE : Z := Z.lor XCR0_XMM XCR0_YMM.
Definition ZMM_STATE : Z := 0xE6.
Definition saves (mask state : Z) : Prop := Z.land mask state = state.

Record x86_sound (leaf1_ecx leaf7_ebx xcr0 : Z) (c : VectorCaps) : Prop := {
  avx_ok : has_base c AVX = true -> bit_set leaf1_ecx 28 = true /\ context_mode c = Xsave /\ saves (xsave_mask c) YMM_STATE;
  avx2_ok : has_base c AVX2 = true -> has_base c AVX = true /\ bit_set leaf7_ebx 5 = true;
  avx512f_ok : has_base c AVX512F = true -> has_base c AVX = true /\ bit_set leaf7_ebx 16 = true /\ saves (xsave_mask c) ZMM_STATE;
  avx512bw_ok : has_ext c AVX512BW = true -> has_base c AVX512F = true /\ bit_set leaf7_ebx 30 = true;
  avx512dq_ok : has_ext c AVX512DQ = true -> has_base c AVX512F = true /\ bit_set leaf7_ebx 17 = true;
  avx512vl_ok : has_ext c AVX512VL = true -> has_base c AVX512F = true /\ bit_set leaf7_ebx 31 = true;
  foreign_ok : has_base c NEON = false /\ has_base c ALTIVEC = false /\ has_base c VSX = false;
  mask_ok : saves xcr0 (xsave_mask c) /\ (xsave_mask c <> 0 <-> context_mode c = Xsave);
  policy_ok : policy c = ScalarFallback <-> context_mode c = ScalarOnly }.

(** The feature words read back as the conditions they were built from. *)
Definition feature_words (avx avx2 f bw dq vl : bool) (c : VectorCaps) : VectorCaps :=
  on_ext vl AVX512VL (on_ext dq AVX512DQ (on_ext bw AVX512BW (on_base f AVX512F (on_base avx2 AVX2 (on_base avx AVX c))))).
Lemma feature_words_read avx avx2 f bw dq vl mask mode pol :
  let w := feature_words avx avx2 f bw dq vl (set_field initialized true caps_empty) in
  let c := mkCaps true (base_bits w) (ext_bits w) mask mode pol in
  has_base c AVX = avx /\ has_base c AVX2 = avx2 /\ has_base c AVX512F = f /\ has_ext c AVX512BW = bw /\ has_ext c AVX512DQ = dq /\ has_ext c AVX512VL = vl
  /\ has_base c NEON = false /\ has_base c ALTIVEC = false /\ has_base c VSX = false.
Proof. destruct avx, avx2, f, bw, dq, vl; repeat split; reflexivity. Qed.

Lemma feature_words_rest avx avx2 f bw dq vl :
  let w := feature_words avx avx2 f bw dq vl (set_field initialized true caps_empty) in
  initialized w = true /\ xsave_mask w = 0 /\ context_mode w = ScalarOnly /\ policy w = ScalarFallback.
Proof. destruct avx, avx2, f, bw, dq, vl; repeat split. Qed.

(** The decoder as one record. *)
Lemma decode_x86_split leaf1_ecx leaf1_edx leaf7_ebx xcr0 :
  let ymm := Z.land xcr0 YMM_STATE =? YMM_STATE in
  let zmm := Z.land xcr0 ZMM_STATE =? ZMM_STATE in
  let saved := bit_set leaf1_ecx 26 && bit_set leaf1_ecx 27 && ymm in
  let u := bit_set leaf1_ecx 26 && bit_set leaf1_ecx 27 && bit_set leaf1_ecx 28 && ymm in
  let f := u && zmm && bit_set leaf7_ebx 16 in
  let w := feature_words u (u && bit_set leaf7_ebx 5) f (f && bit_set leaf7_ebx 30) (f && bit_set leaf7_ebx 17) (f && bit_set leaf7_ebx 31) (set_field initialized true caps_empty) in
  decode_x86_caps leaf1_ecx leaf1_edx leaf7_ebx xcr0
  = mkCaps true (base_bits w) (ext_bits w) (if saved then if zmm then ZMM_STATE else YMM_STATE else 0)
      (if saved then Xsave else if bit_set leaf1_edx 24 then Fxsave else ScalarOnly)
      (if saved then Eager else if bit_set leaf1_edx 24 then Eager else ScalarFallback).
Proof.
  intros ymm zmm saved u f w.
  assert (Hw : initialized w = true /\ xsave_mask w = 0 /\ context_mode w = ScalarOnly /\ policy w = ScalarFallback) by apply feature_words_rest.
  destruct Hw as (Hi & Hx & Hm & Hp).
  transitivity (if saved then set_field policy Eager (set_field xsave_mask (if zmm then ZMM_STATE else YMM_STATE) (set_field context_mode Xsave w))
     else if bit_set leaf1_edx 24 then set_field policy Eager (set_field context_mode Fxsave w) else set_field policy ScalarFallback (set_field context_mode ScalarOnly w)); [reflexivity|].
  clearbody w. destruct w. cbn in Hi, Hx, Hm, Hp. subst. destruct saved; [reflexivity|]. destruct (bit_set leaf1_edx 24); reflexivity.
Qed.

(** The decoded capabilities of an x86 processor never claim more than it has: each
    instruction set is reported only when the processor has it and, transitively, the sets
    it builds on; and only when the mask the context switch saves with covers the
    registers it uses. The mask never names state the system has not enabled, and it is
    there exactly in [Xsave] mode; no other architecture's units are reported. *)
Theorem x86_caps_sound (leaf1_ecx leaf1_edx leaf7_ebx xcr0 : Z) :
  x86_sound leaf1_ecx leaf7_ebx xcr0 (decode_x86_caps leaf1_ecx leaf1_edx leaf7_ebx xcr0).
Proof.
  rewrite decode_x86_split. set (ymm := Z.land xcr0 YMM_STATE =? YMM_STATE). set (zmm := Z.land xcr0 ZMM_STATE =? ZMM_STATE). cbv zeta.
  match goal with |- x86_sound _ _ _ (mkCaps _ (base_bits (feature_words ?a ?b ?c ?d ?e ?f _)) _ ?m ?o ?p) =>
    destruct (feature_words_read a b c d e f m o p) as (H1 & H2 & H3 & H4 & H5 & H6 & H7 & H8 & H9) end.
  assert (Hz : zmm = true -> ymm = true).
  { unfold zmm, ymm. rewrite !Z.eqb_eq. intros Hz. transitivity (Z.land (Z.land xcr0 ZMM_STATE) YMM_STATE); [by rewrite <- Z.land_assoc|by rewrite Hz]. }
  assert (Hy : ymm = true -> Z.land xcr0 YMM_STATE = YMM_STATE) by (unfold ymm; by rewrite Z.eqb_eq).
  assert (Hzz : zmm = true -> Z.land xcr0 ZMM_STATE = ZMM_STATE) by (unfold zmm; by rewrite Z.eqb_eq).
  constructor; rewrite ?H1, ?H2, ?H3, ?H4, ?H5, ?H6, ?H7, ?H8, ?H9; cbn [xsave_mask context_mode policy]; unfold saves; clearbody ymm zmm; clear H1 H2 H3 H4 H5 H6 H7 H8 H9.
  all: destruct (bit_set leaf1_ecx 26), (bit_set leaf1_ecx 27), (bit_set leaf1_edx 24), ymm, zmm; cbn [andb]; rewrite ?andb_true_r, ?andb_false_r; try (specialize (Hz eq_refl); discriminate Hz).
  all: try (rewrite ?andb_true_iff; intuition (try (reflexivity || apply Z.land_0_r || discriminate || congruence))).
Qed.
