(* ===== verification/Percpu.v ===== *)
(** * Per-processor areas: [kernel/src/percpu.rs]

    One page for each processor of the topology, reached through the direct map, starts
    with a header that describes the processor; the address of the running processor's
    page goes into both GS base registers. [current_apic_id] is the number the running
    processor reports. *)
From stdpp Require Import base list numbers option strings gmap.
From Stdlib Require Import ZArith Lia Bool.
From S2P Require Import Prelude Paths Text Machine Pseudo Frame Vmm Paging Memory.

Definition PERCPU_AREA_BYTES : Z := PAGE_SIZE.
Definition PERCPU_MAGIC : Z := 0x50435055.
Definition PERCPU_VERSION : Z := 1.
Definition PERCPU_FLAG_BSP : Z := Z.shiftl 1 0.
Definition PERCPU_FLAG_ONLINE : Z := Z.shiftl 1 1.
Definition IA32_GS_BASE : Z := 0xC0000101.
Definition IA32_KERNEL_GS_BASE : Z := 0xC0000102.

Record PerCpuEntry : Type := mkPerCpu {
  pc_index : nat; pc_apic_id : Z; pc_processor_uid : Z; pc_is_bsp : bool; pc_online : bool; pc_enabled : bool;
  pc_physical_base : Z; pc_virtual_base : Z; pc_area_bytes : Z }.
Record PerCpuState : Type := mkPerCpuState { ps_current_index : nat; ps_current_apic_id : Z; ps_entries : list PerCpuEntry }.
Record PerCpuSummary : Type := mkPerCpuSummary {
  su_cpu_count : Z; su_online_cpus : Z; su_current_index : nat; su_current_apic_id : Z; su_area_bytes : Z; su_total_bytes : Z }.
Inductive PerCpuError : Type := PerCpuAlreadyInitialized | MissingTopology | MissingHhdm | MissingCurrentCpu | FrameAllocationFailed.
Definition percpu_error_str (e : PerCpuError) : list Z :=
  match e with
  | PerCpuAlreadyInitialized => lit "per-cpu state is already initialized"
  | MissingTopology => lit "smp topology is not initialized"
  | MissingHhdm => lit "limine HHDM offset is not available"
  | MissingCurrentCpu => lit "current apic id is not present in smp topology"
  | FrameAllocationFailed => lit "failed to allocate bootstrap per-cpu frame"
  end.

(** The global slot, the memory and the model specific registers. *)
Record PerCpu : Type := mkPC { percpu : option PerCpuState; pc_paging : Paging; pc_msrs : gmap Z Z }.
#[export] Instance PerCpu_eta : RecordEta PerCpu := fun p => mkPC (percpu p) (pc_paging p) (pc_msrs p).

Definition cpu_flag_bits (cpu : CpuTopologyEntry) : Z :=
  let flags := 0 in
  let flags := if is_bsp cpu then Z.lor flags PERCPU_FLAG_BSP else flags in
  if online cpu then Z.lor flags PERCPU_FLAG_ONLINE else flags.

(** [PerCpuAreaHeader] as it lies in memory. *)
Definition area_header (cpu : CpuTopologyEntry) (virtual_base physical_base : Z) : list Z :=
  le_bytes 4 PERCPU_MAGIC ++ le_bytes 2 PERCPU_VERSION ++ le_bytes 2 (cpu_flag_bits cpu) ++ le_bytes 4 (Z.of_nat (cpu_index cpu)) ++
  le_bytes 4 (apic_id cpu) ++ le_bytes 4 (processor_uid cpu) ++ le_bytes 4 0 ++ le_bytes 8 virtual_base ++ le_bytes 8 physical_base.
Definition header_size : Z := 40.

Definition percpu_summary (s : PerCpuState) : PerCpuSummary :=
  let cpu_count := len (ps_entries s) in
  let area_bytes := match head (ps_entries s) with Some cpu => pc_area_bytes cpu | None => 0 end in
  mkPerCpuSummary cpu_count (len (List.filter pc_online (ps_entries s))) (ps_current_index s) (ps_current_apic_id s) area_bytes (sat_mul U64 area_bytes cpu_count).

Section percpu.
Context (topology : option SmpTopology) (hhdm : option Z) (current_apic_id : Z).
Let P (A : Type) : Type := M PerCpu PerCpuError A.

(** One iteration of the loop over the processors. *)
Definition percpu_area (hhdm_offset : Z) (cpu : CpuTopologyEntry) : P PerCpuEntry :=
  let! f := zoom (fun p => pg_frames (pc_paging p)) (fun t p => upd pc_paging (set_field pg_frames t) p) allocate in
  let! frame := lift (ok_or FrameAllocationFailed f) in
  let physical_base := start_address frame in
  let! virtual_base := lift (ok_or MissingHhdm (chk_add U64 hhdm_offset physical_base)) in
  do! modify (upd pc_paging (upd pg_words (zero_bytes virtual_base))) in
  do! modify (upd pc_paging (upd pg_words (fun m => copy_to m virtual_base (area_header cpu virtual_base physical_base)))) in
  ret (mkPerCpu (cpu_index cpu) (apic_id cpu) (processor_uid cpu) (is_bsp cpu) (online cpu) (enabled cpu) physical_base virtual_base PERCPU_AREA_BYTES).
Fixpoint percpu_areas (hhdm_offset : Z) (cs : list CpuTopologyEntry) : P (list PerCpuEntry) :=
  match cs with
  | [] => ret []
  | cpu :: rest =>
      let! e := percpu_area hhdm_offset cpu in
      let! es := percpu_areas hhdm_offset rest in
      ret (e :: es)
  end.

Definition percpu_initialize : P PerCpuSummary :=
  let! slot := gets percpu in
  if bool_decide (is_Some slot) then throw PerCpuAlreadyInitialized else
  let! topology := lift (ok_or MissingTopology topology) in
  let! hhdm_offset := lift (ok_or MissingHhdm hhdm) in
  let! current := lift (ok_or MissingCurrentCpu (position (fun cpu => apic_id cpu =? current_apic_id) (cpus topology))) in
  let! entries := percpu_areas hhdm_offset (cpus topology) in
  let state := mkPerCpuState current current_apic_id entries in
  let! own := lift (unwrap (entries !! current)) in
  do! modify (upd pc_msrs <[IA32_GS_BASE := pc_virtual_base own]>) in
  do! modify (upd pc_msrs <[IA32_KERNEL_GS_BASE := pc_virtual_base own]>) in
  do! modify (set_field percpu (Some state)) in
  ret (percpu_summary state).
End percpu.

Definition entry_virtual_base (s : option PerCpuState) (index : nat) : option Z :=
  match s with Some s => pc_virtual_base <$> ps_entries s !! index | None => None end.

Definition render_area (cpu : PerCpuEntry) : list Z :=
  lit "cpu" ++ dec (Z.of_nat (pc_index cpu)) ++ lit " apic=" ++ dec (pc_apic_id cpu) ++ lit " uid=" ++ dec (pc_processor_uid cpu) ++
  lit " bsp=" ++ yes_no (pc_is_bsp cpu) ++ lit " online=" ++ yes_no (pc_online cpu) ++ lit " enabled=" ++ yes_no (pc_enabled cpu) ++
  lit " phys=" ++ hex_wide 16 (pc_physical_base cpu) ++ lit " virt=" ++ hex_wide 16 (pc_virtual_base cpu) ++ lit " bytes=" ++ dec (pc_area_bytes cpu).
Definition percpu_render_status (s : option PerCpuState) : list Z :=
  match s with
  | None => lines_text [lit "initialized no"]
  | Some state =>
      let s := percpu_summary state in
      lines_text (
        (lit "initialized yes cpus=" ++ dec (su_cpu_count s) ++ lit " online=" ++ dec (su_online_cpus s) ++ lit " current_index=" ++
         dec (Z.of_nat (su_current_index s)) ++ lit " current_apic_id=" ++ dec (su_current_apic_id s) ++ lit " area_bytes=" ++
         dec (su_area_bytes s) ++ lit " total_bytes=" ++ dec (su_total_bytes s))
        :: (lit "cpus " ++ dec (su_cpu_count s)) :: (lit "online " ++ dec (su_online_cpus s))
        :: (lit "current_index " ++ dec (Z.of_nat (su_current_index s))) :: (lit "current_apic_id " ++ dec (su_current_apic_id s))
        :: (lit "area_bytes " ++ dec (su_area_bytes s)) :: (lit "total_bytes " ++ dec (su_total_bytes s))
        :: (render_area <$> ps_entries state))
  end.

(** ** Facts *)
Section facts.
Context (map : list MemoryMapEntry) (hhdm_offset : Z) (Haligned : hhdm_offset mod 4096 = 0) (Hdirect : 0 <= hhdm_offset <= U64 - PHYS_LIMIT).
Let mem (p : PerCpu) : gmap Z Z := pg_words (pc_paging p).
Let frames (p : PerCpu) : FrameAllocator := pg_frames (pc_paging p).

Definition page_frame (f : Z) : Prop := f mod 4096 = 0 /\ 0 <= f /\ f + 4096 <= PHYS_LIMIT.
Definition in_area (f x : Z) : Prop := hhdm_offset + f <= x < hhdm_offset + f + 4096.
Definition area_of (cpu : CpuTopologyEntry) (f : Z) : list Z := area_header cpu (hhdm_offset + f) f ++ replicate (Z.to_nat (4096 - header_size)) 0.
Definition entry_of (cpu : CpuTopologyEntry) (f : Z) : PerCpuEntry :=
  mkPerCpu (cpu_index cpu) (apic_id cpu) (processor_uid cpu) (is_bsp cpu) (online cpu) (enabled cpu) f (hhdm_offset + f) PERCPU_AREA_BYTES.

Lemma area_header_bytes cpu v f : byte_list (area_header cpu v f) /\ length (area_header cpu v f) = Z.to_nat header_size.
Proof.
  split.
  - unfold area_header, byte_list. repeat (apply Forall_app; split); apply le_bytes_byte.
  - unfold area_header. rewrite !length_app, !length_le_bytes. reflexivity.
Qed.
Lemma length_area cpu f : length (area_of cpu f) = 4096%nat.
Proof. unfold area_of. rewrite length_app, length_replicate, (proj2 (area_header_bytes _ _ _)). unfold header_size. lia. Qed.

Lemma area_written cpu f m : page_frame f ->
  let m' := copy_to (zero_bytes (hhdm_offset + f) m) (hhdm_offset + f) (area_header cpu (hhdm_offset + f) f) in
  bytes_from m' (hhdm_offset + f) 4096 = area_of cpu f /\ forall x, ~ in_area f x -> load_byte m' x = load_byte m x.
Proof.
  intros (Hmod & Hf0 & Hf) m'. destruct (area_header_bytes cpu (hhdm_offset + f) f) as [Hb Hlen].
  assert (Hal8 : (hhdm_offset + f) mod 8 = 0).
  { assert (Hs : (hhdm_offset + f) mod 4096 = 0) by (rewrite Zplus_mod, Haligned, Hmod; done). apply Z.mod_divide in Hs as [k Hk]; [|lia].
    rewrite Hk. replace (k * 4096) with (0 + k * 512 * 8) by lia. by rewrite Z.mod_add. }
  assert (Hm' : forall x, load_byte m' x = if decide (hhdm_offset + f <= x < hhdm_offset + f + 40) then nth (Z.to_nat (x - (hhdm_offset + f))) (area_header cpu (hhdm_offset + f) f) 0
                          else if decide (in_area f x) then 0 else load_byte m x).
  { intros x. unfold m'. rewrite load_copy, load_byte_zero by done. unfold len. rewrite Hlen. change (Z.of_nat (Z.to_nat header_size)) with 40. reflexivity. }
  clearbody m'. split.
  - apply (list_eq_same_length _ _ 4096); [by rewrite length_area|by rewrite length_bytes_from|].
    intros i a b Hi Ha Hb'. rewrite lookup_bytes_from in Ha by done. injection Ha as <-. rewrite Hm'. unfold in_area.
    unfold area_of in Hb'. destruct (decide (i < 40)%nat) as [Hlt|Hge].
    + rewrite decide_True by lia. rewrite lookup_app_l in Hb' by (rewrite Hlen; unfold header_size; lia). rewrite nth_lookup.
      replace (Z.to_nat (hhdm_offset + f + Z.of_nat i - (hhdm_offset + f))) with i by lia. by rewrite Hb'.
    + rewrite decide_False, decide_True by lia. apply lookup_app_Some in Hb' as [Hb'|[_ Hb']]; [apply lookup_lt_Some in Hb'; rewrite Hlen in Hb'; unfold header_size in Hb'; lia|].
      by apply lookup_replicate in Hb' as [-> _].
  - intros x Hx. rewrite Hm'. unfold in_area in *. by rewrite !decide_False by lia.
Qed.

(** The frames an iteration takes were free and are no longer. *)
Definition took (a a' : FrameAllocator) (f : Z) : Prop :=
  (forall x, f <= x < f + 4096 -> free_at a x /\ ~ free_at a' x) /\ forall x, free_at a' x -> free_at a x.

Lemma percpu_area_run cpu p g : alloc_ok map g (frames p) ->
  match percpu_area hhdm_offset cpu p with
  | (Ok e, p') => exists f, e = entry_of cpu f /\ page_frame f /\ took (frames p) (frames p') f /\ (exists g', alloc_ok map g' (frames p')) /\
      percpu p' = percpu p /\ pc_msrs p' = pc_msrs p /\ bytes_from (mem p') (hhdm_offset + f) 4096 = area_of cpu f /\
      (forall x, ~ in_area f x -> load_byte (mem p') x = load_byte (mem p) x)
  | (Err e, p') => e = FrameAllocationFailed /\ p' = p
  | _ => False
  end.
Proof.
  intros [Hinv Hlim]. unfold percpu_area. unfold bind at 1, zoom. pose proof (allocate_free PerCpuError map (frames p) g Hinv) as Ha. fold (frames p).
  destruct (allocate (frames p)) as [[[f|]|e| |] a'] eqn:Ealloc; try done; cbn [ok_or lift bind].
  2: { subst a'. split; [done|]. by destruct p as [? []]. }
  destruct Ha as (Hinv' & Hal & Hlow & Hfree & Hshrink). unfold PAGE_SIZE, BOOTSTRAP_RESERVED_END in *.
  assert (Hf : page_frame (start_address f)).
  { split; [done|]. split; [lia|]. destruct (Hfree (start_address f + 4095) ltac:(lia)) as [Hfr _]. specialize (Hlim _ Hfr). lia. }
  set (addr := start_address f) in *. assert (Hadd : chk_add U64 hhdm_offset addr = Some (hhdm_offset + addr)).
  { unfold chk_add. destruct Hf as (_ & _ & Hf). rewrite (proj2 (Z.ltb_lt _ _)) by lia. done. }
  rewrite Hadd. cbn [ok_or lift bind modify]. destruct (area_written cpu addr (mem p) Hf) as [Hb Ho].
  exists addr. split; [done|]. split; [done|]. split; [by split|]. split; [eexists; split; [exact Hinv'|]; intros x Hx; by apply Hlim, Hshrink|].
  split; [done|]. split; [done|]. split; [exact Hb|exact Ho].
Qed.

Lemma pages_apart f f' x : page_frame f -> page_frame f' -> f <> f' -> in_area f x -> ~ in_area f' x.
Proof.
  intros (Hm & _) (Hm' & _) Hne Hx Hx'. unfold in_area in *. apply Z.mod_divide in Hm as [k ->]; [|lia]. apply Z.mod_divide in Hm' as [k' ->]; [|lia]. lia.
Qed.

(** Every area of the list, as left by the loop over the processors. *)
Record areas_ready (p p' : PerCpu) (cs : list CpuTopologyEntry) (fs : list Z) : Prop := {
  ar_length : length fs = length cs;
  ar_frames : Forall page_frame fs;
  ar_distinct : NoDup fs;
  ar_free : Forall (free_at (frames p)) fs;
  ar_areas : Forall2 (fun cpu f => bytes_from (mem p') (hhdm_offset + f) 4096 = area_of cpu f) cs fs;
  ar_rest : forall x, Forall (fun f => ~ in_area f x) fs -> load_byte (mem p') x = load_byte (mem p) x }.

Lemma areas_cons p p1 p' cpu cs f fs : page_frame f -> took (frames p) (frames p1) f ->
  bytes_from (mem p1) (hhdm_offset + f) 4096 = area_of cpu f -> (forall x, ~ in_area f x -> load_byte (mem p1) x = load_byte (mem p) x) ->
  areas_ready p1 p' cs fs -> areas_ready p p' (cpu :: cs) (f :: fs).
Proof.
  intros Hf [Htook Hshrink] Hb Ho [Hl Hfs Hd Hfree Har Hrest].
  assert (Hnew : f ∉ fs).
  { intros Hin. rewrite list.Forall_forall in Hfree. specialize (Hfree f Hin). by apply (proj2 (Htook f ltac:(lia))). }
  assert (Hkept : forall x, in_area f x -> Forall (fun f' => ~ in_area f' x) fs).
  { intros x Hx. rewrite !list.Forall_forall in *. intros f' Hin. apply (pages_apart f f'); [exact Hf|exact (Hfs f' Hin)|congruence|exact Hx]. }
  constructor.
  - cbn. by rewrite Hl.
  - by constructor.
  - by constructor.
  - constructor; [apply (Htook f); lia|]. rewrite !list.Forall_forall in *. intros f' Hin. by apply Hshrink, Hfree.
  - constructor; [|done]. rewrite <- Hb. apply bytes_from_ext. intros i Hi. apply Hrest, Hkept. unfold in_area. lia.
  - intros x [Hx Hxs]%Forall_cons_1. rewrite Hrest by done. by apply Ho.
Qed.

Lemma online_entries cs fs : length cs = length fs -> length (List.filter pc_online (zip_with entry_of cs fs)) = length (filter (fun c => online c = true) cs).
Proof.
  revert fs. induction cs as [|c cs IH]; intros [|f fs] Hl; try done. cbn [zip_with List.filter pc_online entry_of]. injection Hl as Hl.
  destruct (online c) eqn:Eo; [rewrite filter_cons_True by done; cbn [length]; by rewrite IH|rewrite filter_cons_False by (by rewrite Eo); by apply IH].
Qed.

Lemma percpu_areas_run cs : forall p g, alloc_ok map g (frames p) ->
  match percpu_areas hhdm_offset cs p with
  | (Ok es, p') => exists fs, es = zip_with entry_of cs fs /\ areas_ready p p' cs fs /\ percpu p' = percpu p /\ pc_msrs p' = pc_msrs p
  | (Err e, p') => e = FrameAllocationFailed /\ percpu p' = percpu p /\ pc_msrs p' = pc_msrs p
  | _ => False
  end.
Proof.
  induction cs as [|cpu cs IH]; intros p g Ha; cbn [percpu_areas].
  { exists []. split; [done|]. split; [|done]. constructor; try constructor; done. }
  unfold bind at 1. pose proof (percpu_area_run cpu p g Ha) as Hrun. destruct (percpu_area hhdm_offset cpu p) as [[e|e| |] p1]; try contradiction.
  2: { destruct Hrun as [-> ->]. split; [reflexivity|]. by split. }
  destruct Hrun as (f & -> & Hf & Htook & (g1 & Ha1) & Hp1 & Hm1 & Hb & Ho). unfold bind at 1. specialize (IH p1 g1 Ha1).
  destruct (percpu_areas hhdm_offset cs p1) as [[es|e| |] p2]; try contradiction.
  - destruct IH as (fs & -> & Hready & Hp2 & Hm2). exists (f :: fs). split; [done|]. split; [by apply (areas_cons p p1)|]. rewrite Hp2, Hm2. exact (conj Hp1 Hm1).
  - destruct IH as (-> & Hp2 & Hm2). rewrite Hp2, Hm2. exact (conj eq_refl (conj Hp1 Hm1)).
Qed.

(** A kernel without per-processor state, whose topology and direct map are known,
    either gives every processor of the topology a page of its own, in the topology's
    order, or reports that the running processor is not listed (and changes nothing) or
    that memory ran out (and publishes nothing). On success the page of each processor
    starts with its header and is zero behind it, the pages are distinct and were free,
    the rest of memory is as before, and both GS base registers hold the address of the
    running processor's page, which is the one recorded. *)
Theorem percpu_initialize_spec (t : SmpTopology) (id : Z) (p : PerCpu) (g : list (Z * Z)) (Hnew : percpu p = None) (Halloc : alloc_ok map g (frames p)) :
  match percpu_initialize (Some t) (Some hhdm_offset) id p with
  | (Ok s, p') => exists i cpu f fs, cpus t !! i = Some cpu /\ apic_id cpu = id /\ fs !! i = Some f /\ areas_ready p p' (cpus t) fs /\
      percpu p' = Some (mkPerCpuState i id (zip_with entry_of (cpus t) fs)) /\
      pc_msrs p' = <[IA32_KERNEL_GS_BASE := hhdm_offset + f]> (<[IA32_GS_BASE := hhdm_offset + f]> (pc_msrs p)) /\
      entry_virtual_base (percpu p') i = Some (hhdm_offset + f) /\
      su_cpu_count s = len (cpus t) /\ su_online_cpus s = count_cpus online (cpus t)
  | (Err MissingCurrentCpu, p') => p' = p /\ Forall (fun cpu => apic_id cpu <> id) (cpus t)
  | (Err FrameAllocationFailed, p') => percpu p' = None /\ pc_msrs p' = pc_msrs p
  | _ => False
  end.
Proof.
  unfold percpu_initialize, bind at 1, gets at 1. rewrite Hnew, bool_decide_eq_false_2 by (intros [? ?]; discriminate). cbn [lift ok_or bind].
  destruct (position _ (cpus t)) as [i|] eqn:Epos; cbn [lift ok_or bind].
  2: { split; [done|]. apply position_None in Epos. eapply Forall_impl; [exact Epos|]. intros cpu. cbn. by rewrite Z.eqb_neq. }
  apply position_Some in Epos as [(cpu & Hcpu & Hid%Z.eqb_eq) _].
  unfold bind at 1. pose proof (percpu_areas_run (cpus t) p g Halloc) as Hrun. destruct (percpu_areas hhdm_offset (cpus t) p) as [[es|e| |] p1]; try contradiction.
  2: { destruct Hrun as (-> & Hp1 & Hm1). rewrite Hp1, Hm1. by split. }
  destruct Hrun as (fs & -> & Hready & Hp1 & Hm1). pose proof (ar_length _ _ _ _ Hready) as Hl.
  destruct (lookup_lt_is_Some_2 fs i) as [f Hf]; [rewrite Hl; by eapply lookup_lt_Some|].
  assert (Hown : zip_with entry_of (cpus t) fs !! i = Some (entry_of cpu f)) by (by rewrite lookup_zip_with, Hcpu, Hf). rewrite Hown. cbn [unwrap lift bind modify].
  exists i, cpu, f, fs. split; [done|]. split; [done|]. split; [done|]. split; [by destruct Hready; constructor|]. split; [done|].
  split; [cbn; by rewrite Hm1|]. split; [cbn; by rewrite Hown|]. split.
  - cbn. unfold len. rewrite length_zip_with. lia.
  - cbn. unfold count_cpus, len. f_equal. apply online_entries. by rewrite Hl.
Qed.
End facts.

Definition two_cpus : SmpTopology :=
  mkSmp 0 0 [mkCpu 0 0 0 true false false true true; mkCpu 1 1 4 true false false false false].
Definition fresh_percpu : PerCpu := mkPC None (mkPaging demo_frames ∅) ∅.
Lemma percpu_initialize_spec_witness :
  exists s p' fs, percpu_initialize (Some two_cpus) (Some 0xffff800000000000) 4 fresh_percpu = (Ok s, p') /\
    areas_ready 0xffff800000000000 fresh_percpu p' (cpus two_cpus) fs /\ su_cpu_count s = 2.
Proof.
  pose proof (percpu_initialize_spec demo_map 0xffff800000000000 eq_refl ltac:(unfold PHYS_LIMIT; lia) two_cpus 4 fresh_percpu [(0x100000, 0x1000)] eq_refl demo_alloc_ok) as H.
  assert (Hok : exists s, fst (percpu_initialize (Some two_cpus) (Some 0xffff800000000000) 4 fresh_percpu) = Ok s) by (eexists; vm_compute; reflexivity).
  destruct (percpu_initialize _ _ _ fresh_percpu) as [[s|e| |] p']; try (destruct Hok as [? Hok]; discriminate Hok).
  destruct H as (i & cpu & f & fs & _ & _ & _ & Hr & _ & _ & _ & Hc & _). exists s, p', fs. split; [reflexivity|]. split; [exact Hr|exact Hc].
Defined.
