(* ===== verification/User.v ===== *)
(** * The programs of the boot image: [user/init-zero] and [user/interp-zero]

    A program is its calls to the kernel, in order: [user_calls] lists each with the
    bytes its pointer arguments lead to, and [kernel] is what the kernel answers to the
    last call of a list. [rd] is the program's memory as its stack was prepared. *)
From stdpp Require Import base list numbers option strings gmap.
From Stdlib Require Import ZArith Lia Bool.
From S2P Require Import Prelude Paths Text Frame Vmm Exec Initrd Fat Sched SchedFacts Vfs Paging Memory InitExec InitExecFacts.

Definition ABI_HXNU_NATIVE_BOOTSTRAP : Z := 2.
Definition HXNU_SYS_LOG_WRITE : Z := 0x484e0001.
Definition HXNU_SYS_THREAD_SELF : Z := 0x484e0002.
Definition HXNU_SYS_PROCESS_SELF : Z := 0x484e0003.
Definition HXNU_SYS_UPTIME_NSEC : Z := 0x484e0004.
Definition HXNU_SYS_SCHED_YIELD : Z := 0x484e0005.
Definition HXNU_SYS_ABI_VERSION : Z := 0x484e0006.
Definition HXNU_SYS_SPAWN : Z := 0x484e000c.
Definition HXNU_SYS_EXIT_GROUP : Z := 0x484e00ff.
Definition AUX_AT_NULL : Z := 0.
Definition AUX_AT_PHDR : Z := 3.
Definition AUX_AT_PHENT : Z := 4.
Definition AUX_AT_PHNUM : Z := 5.
Definition AUX_AT_BASE : Z := 7.
Definition AUX_AT_ENTRY : Z := 9.
Definition AUX_AT_EXECFN : Z := 31.

(** ** Lines on the stack: [StackLine<N>] *)
Record StackLine : Type := mkLine { line_bytes : list Z; line_len : Z }.
Definition line_new (n : Z) : StackLine := mkLine (replicate (Z.to_nat n) 0) 0.
Definition line_as_bytes {E} (l : StackLine) : outcome E (list Z) := slice (line_bytes l) 0 (line_len l).
(** [write_str]: [None] is [fmt::Error]. *)
Definition line_write_str {E} (l : StackLine) (text : list Z) : outcome E (option StackLine) :=
  let remaining := sat_sub (len (line_bytes l)) (line_len l) in
  if remaining <? len text then Ok None else
  let? end_ := add U64 (line_len l) (len text) in
  let? bytes := blit (line_bytes l) (line_len l) text in
  Ok (Some (mkLine bytes end_)).
(** [write!]: the pieces in order, until one is refused. *)
Fixpoint line_write {E} (l : StackLine) (pieces : list (list Z)) : outcome E StackLine :=
  match pieces with
  | [] => Ok l
  | p :: rest => let? r := line_write_str l p in match r with Some l' => line_write l' rest | None => Ok l end
  end.

(** Pieces that the formatter writes for a number. *)
Definition piece_i64 (v : Z) : list (list Z) := if v <? 0 then [[45]; dec (- v)] else [dec v].
Definition piece_hex (v : Z) : list (list Z) := [lit "0x"; digits 16 16 v []].
Definition piece_hex18 (v : Z) : list (list Z) :=
  let d := digits 16 16 v [] in [lit "0x"] ++ replicate (16 - length d) [48] ++ [d].

(** ** The initial stack, as [interp-zero] reads it *)
Record InitialStackView : Type := mkView {
  v_argc : Z; v_argv0 : Z; v_at_entry : Z; v_at_base : Z; v_at_phdr : Z; v_at_phent : Z; v_at_phnum : Z; v_execfn : Z }.
#[export] Instance InitialStackView_eta : RecordEta InitialStackView := fun v =>
  mkView (v_argc v) (v_argv0 v) (v_at_entry v) (v_at_base v) (v_at_phdr v) (v_at_phent v) (v_at_phnum v) (v_execfn v).

(** As many words as the pages of the stack hold: a longer scan leaves them. *)
Definition STACK_WORDS : nat := Z.to_nat (STACK_SIZE / 8).

Section stack_view.
Context (rd : Z -> Z) {E : Type}.
Definition word_at (p : Z) : Z := le_val ((fun i => rd (p + Z.of_nat i)) <$> seq 0 8).

(** [while *cursor != 0 { cursor = cursor.add(1) }] *)
Fixpoint skip_environment (fuel : nat) (cursor : Z) : outcome E Z :=
  match fuel with
  | O => Diverge
  | S fuel' => if negb (word_at cursor =? 0) then skip_environment fuel' (cursor + 8) else Ok cursor
  end.
Definition aux_entry (key value : Z) (view : InitialStackView) : InitialStackView :=
  if key =? AUX_AT_PHDR then set_field v_at_phdr value view
  else if key =? AUX_AT_PHENT then set_field v_at_phent value view
  else if key =? AUX_AT_PHNUM then set_field v_at_phnum value view
  else if key =? AUX_AT_BASE then set_field v_at_base value view
  else if key =? AUX_AT_ENTRY then set_field v_at_entry value view
  else if key =? AUX_AT_EXECFN then set_field v_execfn value view
  else view.
Fixpoint read_auxiliary (fuel : nat) (cursor : Z) (view : InitialStackView) : outcome E InitialStackView :=
  match fuel with
  | O => Diverge
  | S fuel' =>
      let key := word_at cursor in
      let value := word_at (cursor + 8) in
      if key =? AUX_AT_NULL then Ok view else read_auxiliary fuel' (cursor + 16) (aux_entry key value view)
  end.
Definition parse_initial_stack (cursor : Z) : outcome E InitialStackView :=
  let argc := word_at cursor in
  let cursor := cursor + 8 in
  let argv0 := if negb (argc =? 0) then word_at cursor else 0 in
  let cursor := cursor + 8 * argc in
  let cursor := cursor + 8 in
  let? cursor := skip_environment STACK_WORDS cursor in
  let cursor := cursor + 8 in
  read_auxiliary STACK_WORDS cursor (mkView argc argv0 0 0 0 0 0 0).

(** [len]: the position of the first zero byte, at most [max_len]. *)
Fixpoint c_string_len (fuel : nat) (ptr len : Z) : Z :=
  match fuel with
  | O => len
  | S fuel' => if rd (ptr + len) =? 0 then len else c_string_len fuel' ptr (len + 1)
  end.
Definition c_string_bytes (ptr max_len : Z) : list Z :=
  let n := c_string_len (Z.to_nat max_len) ptr 0 in (fun i => rd (ptr + Z.of_nat i)) <$> seq 0 (Z.to_nat n).
Definition display_c_string (ptr : Z) : list Z :=
  if ptr =? 0 then lit "<none>" else
  let bytes := c_string_bytes ptr 256 in
  if is_utf8 bytes then bytes else lit "<invalid>".
End stack_view.

(** ** Calls *)
Record UserCall : Type := mkCall { uc_abi : Z; uc_number : Z; uc_args : list Z; uc_data : list (list Z) }.
Inductive UserEnd : Type := Spins.

Section calls.
Context (kernel : list UserCall -> Z).
Let U (A : Type) : Type := M (list UserCall) UserEnd A.

Definition user_syscall (number : Z) (args : list Z) (data : list (list Z)) : U Z := fun calls =>
  let calls' := calls ++ [mkCall ABI_HXNU_NATIVE_BOOTSTRAP number args data] in (Ok (kernel calls'), calls').
Definition syscall0 (number : Z) : U Z := user_syscall number [0; 0; 0; 0; 0; 0] [].
Definition syscall1 (number a0 : Z) : U Z := user_syscall number [a0; 0; 0; 0; 0; 0] [].
Definition syscall2 (number a0 a1 : Z) (data : list (list Z)) : U Z := user_syscall number [a0; a1; 0; 0; 0; 0] data.
Definition syscall3 (number a0 a1 a2 : Z) (data : list (list Z)) : U Z := user_syscall number [a0; a1; a2; 0; 0; 0] data.
(** [at_] is where the bytes lie. *)
Definition log_bytes (at_ : Z) (bytes : list Z) : U unit := do! syscall2 HXNU_SYS_LOG_WRITE at_ (len bytes) [bytes] in ret tt.

(** [loop { syscall0(SCHED_YIELD); }], [turns] times. *)
Fixpoint yields (turns : nat) : U unit :=
  match turns with O => diverge | S turns' => do! syscall0 HXNU_SYS_SCHED_YIELD in yields turns' end.

(** ** [init-zero] *)
Inductive Smoke : Type := NoSmoke | FaultPage | FaultGp | FaultUd | ExitImmediate.

Definition INIT_PATH : list Z := lit "/bin/rustybox" ++ [0].
Definition INIT_ARGS : list (list Z) :=
  [lit "rustybox" ++ [0]; lit "sh" ++ [0]; lit "-c" ++ [0]; lit "echo 'HXNU: rustybox integration online' && rustybox ls -la /" ++ [0]].

(** A fault ends the program: what the kernel does with it is not the program's. *)
Definition maybe_trigger_fault_smoke (smoke : Smoke) (at_ : Z) : U unit :=
  match smoke with
  | FaultPage => do! log_bytes at_ (lit "HXNU-INIT: fault-page smoke armed" ++ [10]) in throw Spins
  | FaultGp => do! log_bytes at_ (lit "HXNU-INIT: fault-gp smoke armed" ++ [10]) in throw Spins
  | FaultUd => do! log_bytes at_ (lit "HXNU-INIT: fault-ud smoke armed" ++ [10]) in throw Spins
  | _ => ret tt
  end.
Definition maybe_trigger_exit_smoke (smoke : Smoke) (at_ : Z) : U unit :=
  match smoke with
  | ExitImmediate =>
      do! log_bytes at_ (lit "HXNU-INIT: exit-immediate smoke armed" ++ [10]) in
      do! syscall1 HXNU_SYS_EXIT_GROUP 33 in
      throw Spins
  | _ => ret tt
  end.

Definition init_line (abi process_id thread_id uptime_ns : Z) : list (list Z) :=
  [lit "HXNU-INIT: abi="] ++ piece_hex (cast U64 abi) ++ [lit " pid="] ++ piece_i64 process_id ++ [lit " tid="] ++ piece_i64 thread_id ++
  [lit " uptime-ns="] ++ piece_i64 uptime_ns ++ [[10]].

(** [text_at], [line_at], [path_at], [argv_at]: where the compiler put the texts. *)
Definition init_start (smoke : Smoke) (text_at line_at path_at argv_at : Z) (turns : nat) : U unit :=
  do! log_bytes text_at (lit "HXNU-INIT: payload online via int 0x80" ++ [10]) in
  let! abi := syscall0 HXNU_SYS_ABI_VERSION in
  let! process_id := syscall0 HXNU_SYS_PROCESS_SELF in
  let! thread_id := syscall0 HXNU_SYS_THREAD_SELF in
  let! uptime_ns := syscall0 HXNU_SYS_UPTIME_NSEC in
  let! line := lift (line_write (line_new 160) (init_line abi process_id thread_id uptime_ns)) in
  let! bytes := lift (line_as_bytes line) in
  do! log_bytes line_at bytes in
  do! syscall3 HXNU_SYS_SPAWN path_at argv_at 4 (INIT_PATH :: INIT_ARGS) in
  do! maybe_trigger_fault_smoke smoke text_at in
  do! maybe_trigger_exit_smoke smoke text_at in
  yields turns.

(** ** [interp-zero] *)
Definition interp_line (abi process_id thread_id uptime_ns rsp : Z) (v : InitialStackView) (argv0 execfn : list Z) : list (list Z) :=
  [lit "HXNU-INTERP: abi="] ++ piece_hex (cast U64 abi) ++ [lit " pid="] ++ piece_i64 process_id ++ [lit " tid="] ++ piece_i64 thread_id ++
  [lit " argc="; dec (v_argc v); lit " argv0="; argv0; lit " execfn="; execfn; lit " at-entry="] ++ piece_hex18 (v_at_entry v) ++
  [lit " at-base="] ++ piece_hex18 (v_at_base v) ++ [lit " at-phdr="] ++ piece_hex18 (v_at_phdr v) ++
  [lit " at-phent="; dec (v_at_phent v); lit " at-phnum="; dec (v_at_phnum v); lit " rsp="] ++ piece_hex18 rsp ++
  [lit " uptime-ns="] ++ piece_i64 uptime_ns ++ [[10]].
Definition interp_entry (rd : Z -> Z) (initial_stack_pointer line_at : Z) (turns : nat) : U unit :=
  let! abi := syscall0 HXNU_SYS_ABI_VERSION in
  let! process_id := syscall0 HXNU_SYS_PROCESS_SELF in
  let! thread_id := syscall0 HXNU_SYS_THREAD_SELF in
  let! uptime_ns := syscall0 HXNU_SYS_UPTIME_NSEC in
  let! stack := lift (parse_initial_stack rd initial_stack_pointer) in
  let argv0 := display_c_string rd (v_argv0 stack) in
  let execfn := display_c_string rd (v_execfn stack) in
  let! line := lift (line_write (line_new 320) (interp_line abi process_id thread_id uptime_ns initial_stack_pointer stack argv0 execfn)) in
  let! bytes := lift (line_as_bytes line) in
  do! log_bytes line_at bytes in
  yields turns.
End calls.

(** ** The interpreter reads what the kernel prepared *)
Lemma word_bytes_lookup ws i j w : ws !! i = Some w -> (j < 8)%nat -> words ws !! (8 * i + j)%nat = le_bytes 8 w !! j.
Proof.
  revert i. induction ws as [|x ws IH]; intros i Hi Hj; [done|]. unfold words. rewrite fmap_cons, concat_cons. destruct i as [|i].
  - injection Hi as ->. rewrite Nat.mul_0_r, Nat.add_0_l. apply lookup_app_l. rewrite length_le_bytes. lia.
  - rewrite lookup_app_r by (rewrite length_le_bytes; lia). rewrite length_le_bytes. replace (8 * S i + j - 8)%nat with (8 * i + j)%nat by lia. by apply IH.
Qed.

Section reads.
Context (rd : Z -> Z) (sp : Z).
(** The words [ws] lie from [a] on. *)
Definition words_at (a : Z) (ws : list Z) : Prop := forall i w, ws !! i = Some w -> word_at rd (a + 8 * Z.of_nat i) = w.

Lemma words_at_app a ws ws' : words_at a (ws ++ ws') -> words_at a ws /\ words_at (a + 8 * len ws) ws'.
Proof.
  intros H. split; intros i w Hi.
  - apply H. by apply lookup_app_l_Some.
  - replace (a + 8 * len ws + 8 * Z.of_nat i) with (a + 8 * Z.of_nat (length ws + i)) by (unfold len; lia). apply H.
    rewrite lookup_app_r by lia. by replace (length ws + i - length ws)%nat with i by lia.
Qed.
Lemma words_at_cons a w ws : words_at a (w :: ws) -> word_at rd a = w /\ words_at (a + 8) ws.
Proof.
  intros H. split; [rewrite <- (Z.add_0_r a); by apply (H O)|]. intros i x Hi. replace (a + 8 + 8 * Z.of_nat i) with (a + 8 * Z.of_nat (S i)) by lia. by apply (H (S i)).
Qed.

Lemma skip_environment_run {E} fuel a ws rest : words_at a (ws ++ 0 :: rest) -> Forall (fun w => w <> 0) ws -> (length ws < fuel)%nat ->
  skip_environment rd (E:=E) fuel a = Ok (a + 8 * len ws).
Proof.
  revert fuel a. induction ws as [|w ws IH]; intros fuel a Hw Hn Hf; (destruct fuel as [|fuel]; [cbn in Hf; lia|]); cbn [skip_environment].
  - apply words_at_cons in Hw as [-> _]. cbn. f_equal. unfold len. cbn. lia.
  - apply Forall_cons_1 in Hn as [Hw0 Hn]. destruct (words_at_cons _ _ _ Hw) as [-> Hrest]. rewrite (proj2 (Z.eqb_neq _ _) Hw0). cbn [negb].
    rewrite (IH fuel (a + 8) Hrest Hn) by (cbn in Hf; lia). f_equal. rewrite len_cons. lia.
Qed.

Definition aux_flat (kvs : list (Z * Z)) : list Z := concat ((fun kv => [fst kv; snd kv]) <$> kvs).
Lemma read_auxiliary_run {E} fuel a kvs x view : words_at a (aux_flat (kvs ++ [(0, x)])) -> Forall (fun kv => fst kv <> 0) kvs -> (length kvs < fuel)%nat ->
  read_auxiliary rd (E:=E) fuel a view = Ok (foldl (fun v kv => aux_entry (fst kv) (snd kv) v) view kvs).
Proof.
  revert fuel a view. induction kvs as [|[k v] kvs IH]; intros fuel a view Hw Hn Hf; (destruct fuel as [|fuel]; [cbn in Hf; lia|]); cbn [read_auxiliary].
  - apply words_at_cons in Hw as [-> _]. done.
  - apply Forall_cons_1 in Hn as [Hk Hn]. cbn in Hk. destruct (words_at_cons a k (v :: aux_flat (kvs ++ [(0, x)])) Hw) as [-> Hw1].
    destruct (words_at_cons _ _ _ Hw1) as [-> Hw2]. unfold AUX_AT_NULL. rewrite (proj2 (Z.eqb_neq _ _) Hk).
    replace (a + 16) with (a + 8 + 8) by lia. rewrite (IH fuel _ _ Hw2 Hn) by (cbn in Hf; lia). done.
Qed.

Lemma c_string_len_run str : forall fuel p n, (forall i b, str !! i = Some b -> rd (p + n + Z.of_nat i) = b /\ b <> 0) -> rd (p + n + len str) = 0 -> (length str < fuel)%nat ->
  c_string_len rd fuel p n = n + len str.
Proof.
  induction str as [|b str IH]; intros fuel p n Hs Hz Hf; (destruct fuel as [|fuel]; [cbn in Hf; lia|]); cbn [c_string_len].
  - unfold len in *. cbn in *. rewrite Z.add_0_r in Hz. rewrite Hz. cbn. lia.
  - destruct (Hs O b eq_refl) as [Hb Hne]. rewrite Z.add_0_r in Hb. rewrite Hb, (proj2 (Z.eqb_neq _ _) Hne). rewrite len_cons in *.
    rewrite (IH fuel p (n + 1)); [lia| |rewrite <- Hz; f_equal; lia|cbn in Hf; lia].
    intros i c Hi. replace (p + (n + 1) + Z.of_nat i) with (p + n + Z.of_nat (S i)) by lia. by apply (Hs (S i)).
Qed.
Lemma display_c_string_run p str : p <> 0 -> (forall i b, (str ++ [0]) !! i = Some b -> rd (p + Z.of_nat i) = b) -> Forall (fun b => b <> 0) str ->
  len str < 256 -> is_utf8 str = true -> display_c_string rd p = str.
Proof.
  intros Hp Hs Hn Hl Hu. unfold display_c_string. rewrite (proj2 (Z.eqb_neq _ _) Hp).
  assert (Hb : c_string_bytes rd p 256 = str).
  { unfold c_string_bytes. rewrite (c_string_len_run str).
    - rewrite Z.add_0_l. unfold len. rewrite Nat2Z.id. apply (list_eq_same_length _ _ (length str)); [done|by rewrite length_fmap, length_seq|].
      intros i x y Hi Hx Hy. rewrite list_lookup_fmap, lookup_seq_lt in Hx by done. cbn in Hx. injection Hx as <-. apply Hs. by apply lookup_app_l_Some.
    - intros i b Hi. rewrite Z.add_0_r. split; [apply Hs; by apply lookup_app_l_Some|]. exact (Forall_lookup_1 _ _ _ _ Hn Hi).
    - rewrite Z.add_0_r. apply Hs. unfold len. rewrite lookup_app_r, Nat.sub_diag; done.
    - unfold len in Hl. lia. }
  by rewrite Hb, Hu.
Qed.
End reads.

(** Bytes of the prepared page, read as words. *)
Lemma shows_words hhdm f s a ws : shows hhdm f s a (words ws) -> Forall (in_range U64) ws -> words_at (user_byte hhdm f s) a ws.
Proof.
  intros Hs Hr i w Hi. unfold word_at. pose proof (Forall_lookup_1 _ _ _ _ Hr Hi) as Hw.
  assert (Hb : (fun j => user_byte hhdm f s (a + 8 * Z.of_nat i + Z.of_nat j)) <$> seq 0 8 = le_bytes 8 w).
  { apply (list_eq_same_length _ _ 8); [by rewrite length_le_bytes|by rewrite length_fmap, length_seq|].
    intros j x y Hj Hx Hy. rewrite list_lookup_fmap, lookup_seq_lt in Hx by done. cbn in Hx. injection Hx as <-.
    replace (a + 8 * Z.of_nat i + Z.of_nat j) with (a + Z.of_nat (8 * i + j)) by lia. apply Hs. by rewrite (word_bytes_lookup ws i j w Hi Hj). }
  rewrite Hb. apply le_val_bytes_small. exact Hw.
Qed.

Lemma addrs_ok sp ss : 4096 < sp - strings_size ss -> sp < U64 -> Forall (fun a => a <> 0 /\ in_range U64 a) (string_addrs sp ss).
Proof.
  intros Hlo Hhi. apply Forall_lookup_2. intros i a Ha. pose proof (addrs_range sp ss) as Hr.
  destruct (Forall2_lookup_l _ _ _ _ _ Hr Ha) as (str & _ & H1 & H2). pose proof (len_nonneg (str ++ [0])). unfold in_range. split; lia.
Qed.

(** What the auxiliary vector of the kernel says to the interpreter. *)
Lemma aux_view entry ph_addr ph_num at_random argc argv0 :
  foldl (fun v kv => aux_entry (fst kv) (snd kv) v) (mkView argc argv0 0 0 0 0 0 0) (removelast (auxv entry ph_addr ph_num at_random))
  = mkView argc argv0 entry 0 ph_addr 56 ph_num 0.
Proof. reflexivity. Qed.

Lemma parse_prepared {E} rd sp entry ph_addr ph_num argv envp :
  let aa := string_addrs (USER_STACK_TOP - 16 - strings_size envp) argv in
  words_at rd sp (stack_words entry ph_addr ph_num argv envp) -> Forall (fun a => a <> 0) (string_addrs (USER_STACK_TOP - 16) envp) -> len envp < 512 ->
  parse_initial_stack rd (E:=E) sp = Ok (mkView (len argv) (default 0 (head aa)) entry 0 ph_addr 56 ph_num 0).
Proof.
  intros aa Hw Hne Hl. unfold parse_initial_stack, stack_words in *. set (ea := string_addrs (USER_STACK_TOP - 16) envp) in *.
  destruct (words_at_cons _ _ _ _ Hw) as [-> Hw1]. fold aa in Hw1. destruct (words_at_app _ _ _ _ Hw1) as [Ha Hw2].
  assert (Hla : len aa = len argv) by apply len_addrs. assert (Hle : len ea = len envp) by apply len_addrs. rewrite Hla in Hw2.
  destruct (words_at_cons _ _ _ _ Hw2) as [_ Hw3].
  rewrite (skip_environment_run rd STACK_WORDS _ ea (aux_words entry ph_addr ph_num) Hw3 Hne); [|change STACK_WORDS with (Z.to_nat 8192); unfold len in *; lia].
  cbn [obind]. destruct (words_at_app _ _ _ _ Hw3) as [_ Hw4]. destruct (words_at_cons _ _ _ _ Hw4) as [_ Hw5].
  rewrite (read_auxiliary_run rd STACK_WORDS _ (removelast (auxv entry ph_addr ph_num (USER_STACK_TOP - 16))) 0).
  - rewrite aux_view. f_equal. f_equal. destruct argv as [|a argv]; [done|]. rewrite (proj2 (Z.eqb_neq _ _)) by (rewrite len_cons; pose proof (len_nonneg argv); lia).
    cbn [negb]. destruct (words_at_cons _ _ _ _ Ha) as [-> _]. done.
  - exact Hw5.
  - repeat constructor; discriminate.
  - change STACK_WORDS with (Z.to_nat 8192). cbn [auxv removelast length]. lia.
Qed.

(** C26: The interpreter program finds what the kernel left for it. When the sixteen
    frames of the stack have been taken and mapped, and arguments, environment and vectors
    fit in its top page, reading the stack from the pointer the kernel returned ends within
    the stack and gives the number of arguments, the address of the first argument's
    string (0 without arguments) and, of the auxiliary vector, the six values the
    interpreter looks for: the entry point, the address and number of the program
    headers the kernel was given and their size of 56, no interpreter base, and no name of the program
    file, which the kernel does not pass and which is shown as absent. The first argument's text
    reads back, if it is UTF-8 without zero bytes and shorter than 256. *)
Theorem interpreter_reads_stack (map : list MemoryMapEntry) (g : list (Z * Z)) (s s1 s2 : Paging) (pml4 hhdm entry ph_addr ph_num : Z)
    (argv envp : list (list Z)) (frames : list Z)
    (Hhhdm : hhdm mod 4096 = 0) (Hdirect : 0 <= hhdm <= U64 - PHYS_LIMIT) (Halloc : alloc_ok map g (pg_frames s))
    (Hargv : Forall byte_list argv) (Henvp : Forall byte_list envp) (Hneed : stack_need argv envp <= 4096)
    (Htake : take_stack STACK_PAGES s = (Ok frames, s1)) (Hmap : map_stack pml4 hhdm 0 frames s1 = (Ok tt, s2))
    (Hentry : in_range U64 entry) (Hph : in_range U64 ph_addr) (Hnum : in_range U64 ph_num) :
  exists f sp s' v, setup_system_v_user_stack pml4 hhdm entry ph_addr ph_num argv envp s = (Ok sp, s') /\ last frames = Some f /\
    parse_initial_stack (E:=Empty_set) (user_byte hhdm f s') sp = Ok v /\
    v = mkView (len argv) (match argv with [] => 0 | a :: _ => USER_STACK_TOP - 16 - strings_size envp - (len a + 1) end) entry 0 ph_addr 56 ph_num 0 /\
    display_c_string (user_byte hhdm f s') (v_execfn v) = lit "<none>" /\
    match argv with
    | [] => display_c_string (user_byte hhdm f s') (v_argv0 v) = lit "<none>"
    | a :: _ => Forall (fun b => b <> 0) a -> len a < 256 -> is_utf8 a = true -> display_c_string (user_byte hhdm f s') (v_argv0 v) = a
    end.
Proof.
  destruct (take_stack_run map STACK_PAGES g s frames s1 Halloc Htake) as (Hlen & Hfs & _).
  destruct (lookup_lt_is_Some_2 frames 15) as [f Hf]; [rewrite Hlen; unfold STACK_PAGES; lia|].
  destruct (Forall_lookup_1 _ _ _ _ Hfs Hf) as (Hf1 & Hf2 & Hf3).
  destruct (fill_stack_run hhdm frames f Hhhdm Hf Hf1 ltac:(lia) entry ph_addr ph_num argv envp s2 Hargv Henvp Hneed)
    as (s' & Hrun & Hshow & Hargs & _ & _ & _ & _ & _).
  pose proof (strings_size_nonneg argv). pose proof (strings_size_nonneg envp). pose proof (len_nonneg argv). pose proof (len_nonneg envp).
  assert (Hne : strings_size argv + strings_size envp + 8 * (len argv + len envp) + 256 <= 4096) by (unfold stack_need in Hneed; lia).
  pose proof (addrs_ok (USER_STACK_TOP - 16 - strings_size envp) argv ltac:(unfold USER_STACK_TOP; lia) ltac:(unfold USER_STACK_TOP; lia)) as Haa.
  pose proof (addrs_ok (USER_STACK_TOP - 16) envp ltac:(unfold USER_STACK_TOP; lia) ltac:(unfold USER_STACK_TOP; lia)) as Hea.
  set (rd := user_byte hhdm f s'). set (sp := stack_pointer argv envp).
  assert (Hwords : words_at rd sp (stack_words entry ph_addr ph_num argv envp)).
  { apply shows_words; [exact Hshow|]. unfold stack_words. apply Forall_app; split; [constructor; [unfold in_range; lia|constructor]|].
    apply Forall_app; split; [eapply Forall_impl; [exact Haa|]; by intros a [_ Ha]|]. constructor; [unfold in_range; lia|].
    apply Forall_app; split; [eapply Forall_impl; [exact Hea|]; by intros a [_ Ha]|]. constructor; [unfold in_range; lia|].
    unfold aux_words, USER_STACK_TOP. cbn. repeat constructor; unfold in_range in *; lia. }
  exists f, sp, s', (mkView (len argv) (default 0 (head (string_addrs (USER_STACK_TOP - 16 - strings_size envp) argv))) entry 0 ph_addr 56 ph_num 0).
  split; [unfold setup_system_v_user_stack; by rewrite (bind_run _ _ _ _ _ Htake), (bind_run _ _ _ _ _ Hmap)|].
  split; [rewrite last_lookup, Hlen; exact Hf|]. split; [apply parse_prepared; [exact Hwords| |lia]; eapply Forall_impl; [exact Hea|]; by intros a [Ha _]|].
  split; [f_equal; destruct argv as [|a argv']; [done|]; cbn [string_addrs head default]; rewrite ?len_app; done || (cbn; lia)|].
  split; [done|]. destruct argv as [|a argv]; [done|]. cbn [string_addrs head default v_argv0] in *.
  intros Hnz Hl Hu. apply Forall_cons_1 in Haa as [[Ha0 _] _]. inversion Hargs as [|? ? ? ? Ha _]; subst. by apply display_c_string_run.
Qed.

(** ** Lines *)
Lemma len_zeros n : len (replicate n (0 : Z)) = Z.of_nat n.
Proof. unfold len. by rewrite length_replicate. Qed.
(** A line that holds [text], with [room] bytes left. *)
Definition holding (text : list Z) (room : nat) : StackLine := mkLine (text ++ replicate room 0) (len text).

Lemma line_write_fits {E} text room p : len text + Z.of_nat room < U64 -> (length p <= room)%nat ->
  line_write_str (E:=E) (holding text room) p = Ok (Some (holding (text ++ p) (room - length p))).
Proof.
  intros Hu Hp. unfold line_write_str, holding. cbn [line_bytes line_len]. rewrite len_app, len_zeros. pose proof (len_nonneg text).
  unfold sat_sub. rewrite (proj2 (Z.ltb_ge _ _)) by (unfold len in *; lia). rewrite add_ok by (unfold len in *; lia). cbn [obind].
  replace room with (length p + (room - length p))%nat at 1 by lia. rewrite replicate_add.
  rewrite (blit_app text (replicate (length p) 0) (replicate (room - length p) 0) p) by (rewrite ?length_replicate; reflexivity). cbn [obind].
  rewrite len_app, app_assoc. done.
Qed.
Lemma line_write_refused {E} text room p : (room < length p)%nat -> line_write_str (E:=E) (holding text room) p = Ok None.
Proof.
  intros Hp. unfold line_write_str, holding. cbn [line_bytes line_len]. rewrite len_app, len_zeros. unfold sat_sub.
  rewrite (proj2 (Z.ltb_lt _ _)); [done|]. unfold len. lia.
Qed.

Definition size_of (pieces : list (list Z)) : nat := length (concat pieces).
Lemma line_write_run {E} pieces : forall text room, len text + Z.of_nat room < U64 -> (size_of pieces <= room)%nat ->
  line_write (E:=E) (holding text room) pieces = Ok (holding (text ++ concat pieces) (room - size_of pieces)).
Proof.
  induction pieces as [|p pieces IH]; intros text room Hu Hs; cbn [line_write].
  - unfold size_of. cbn. by rewrite app_nil_r, Nat.sub_0_r.
  - unfold size_of in *. rewrite concat_cons, length_app in Hs. rewrite line_write_fits by lia. cbn [obind]. rewrite IH; [|rewrite len_app; unfold len in *; lia|lia].
    cbn [concat]. rewrite app_assoc, length_app. by replace (room - length p - length (concat pieces))%nat with (room - (length p + length (concat pieces)))%nat by lia.
Qed.
(** A piece that does not fit ends the line with the pieces before it. *)
Lemma line_write_cut {E} pieces p rest text room : len text + Z.of_nat room < U64 -> (size_of pieces <= room)%nat -> (room - size_of pieces < length p)%nat ->
  line_write (E:=E) (holding text room) (pieces ++ p :: rest) = Ok (holding (text ++ concat pieces) (room - size_of pieces)).
Proof.
  revert text room. induction pieces as [|q pieces IH]; intros text room Hu Hs Hp; cbn [line_write app].
  - unfold size_of in *. cbn in *. rewrite line_write_refused by lia. cbn. by rewrite app_nil_r, Nat.sub_0_r.
  - unfold size_of in *. rewrite concat_cons, length_app in Hs. cbn [concat] in Hp. rewrite length_app in Hp. rewrite line_write_fits by lia. cbn [obind].
    rewrite IH; [|rewrite len_app; unfold len in *; lia|lia|lia].
    cbn [concat]. rewrite app_assoc, length_app. by replace (room - length q - length (concat pieces))%nat with (room - (length q + length (concat pieces)))%nat by lia.
Qed.

Lemma line_as_bytes_run {E} text room : line_as_bytes (E:=E) (holding text room) = Ok text.
Proof. unfold line_as_bytes, holding. cbn [line_bytes line_len]. exact (slice_app [] text (replicate room 0) 0 (len text) eq_refl eq_refl). Qed.

Lemma digits_length fuel base z acc : (length (digits fuel base z acc) <= fuel + length acc)%nat.
Proof. revert z acc. induction fuel as [|fuel IH]; intros z acc; cbn [digits]; [lia|]. destruct (z <? base); [cbn; lia|]. etransitivity; [apply IH|]. cbn. lia. Qed.
Lemma piece_i64_size v : (size_of (piece_i64 v) <= 21)%nat.
Proof.
  unfold piece_i64, dec, size_of. pose proof (digits_length 20 10 v []). pose proof (digits_length 20 10 (- v) []). destruct (v <? 0); cbn [concat length] in *; rewrite ?length_app, ?app_nil_r; cbn [length]; lia.
Qed.
Lemma piece_hex_size v : (size_of (piece_hex v) <= 18)%nat.
Proof. unfold piece_hex, size_of. pose proof (digits_length 16 16 v []). cbn [concat]. rewrite length_app, app_nil_r. cbn [length] in *. change (length (lit "0x")) with 2%nat. lia. Qed.
Lemma piece_hex18_size v : (size_of (piece_hex18 v) <= 18)%nat.
Proof.
  unfold piece_hex18, size_of. pose proof (digits_length 16 16 v []). rewrite !concat_app, !length_app. cbn [concat length] in *. rewrite !app_nil_r.
  assert (Hr : forall n, length (concat (replicate n [48])) = n) by (intros n; induction n as [|n IH]; cbn; congruence). rewrite Hr.
  change (length (lit "0x")) with 2%nat. lia.
Qed.

(** ** What the programs ask of the kernel *)
Definition call (number : Z) (args : list Z) (data : list (list Z)) : UserCall := mkCall ABI_HXNU_NATIVE_BOOTSTRAP number args data.
Definition ask (number : Z) : UserCall := call number [0; 0; 0; 0; 0; 0] [].
Definition logged (at_ : Z) (bytes : list Z) : UserCall := call HXNU_SYS_LOG_WRITE [at_; len bytes; 0; 0; 0; 0] [bytes].

Lemma yields_run kernel turns calls : yields kernel turns calls = (Diverge, calls ++ replicate turns (ask HXNU_SYS_SCHED_YIELD)).
Proof.
  revert calls. induction turns as [|n IH]; intros calls; cbn [yields]; [unfold diverge; cbn; by rewrite app_nil_r|].
  unfold bind at 1, syscall0 at 1, user_syscall at 1. rewrite IH. cbn [replicate]. rewrite <- app_assoc. done.
Qed.

Section answers.
Context (kernel : list UserCall -> Z).
(** The four questions after the calls [before], with their answers. *)
Definition questions : list UserCall := [ask HXNU_SYS_ABI_VERSION; ask HXNU_SYS_PROCESS_SELF; ask HXNU_SYS_THREAD_SELF; ask HXNU_SYS_UPTIME_NSEC].
Definition answer (before : list UserCall) (n : nat) : Z := kernel (before ++ take (S n) questions).

Lemma questions_run {A} (k : Z -> Z -> Z -> Z -> M (list UserCall) UserEnd A) before :
  (let! a := syscall0 kernel HXNU_SYS_ABI_VERSION in let! b := syscall0 kernel HXNU_SYS_PROCESS_SELF in
   let! c := syscall0 kernel HXNU_SYS_THREAD_SELF in let! d := syscall0 kernel HXNU_SYS_UPTIME_NSEC in k a b c d) before
  = k (answer before 0) (answer before 1) (answer before 2) (answer before 3) (before ++ questions).
Proof.
  unfold bind, syscall0, user_syscall. rewrite <- !app_assoc. reflexivity.
Qed.

(** The calls of [init-zero] up to its last part, for answers that the line can hold
    whatever they are. *)
Definition init_calls (text_at line_at path_at argv_at : Z) : list UserCall :=
  let hello := [logged text_at (lit "HXNU-INIT: payload online via int 0x80" ++ [10])] in
  let line := concat (init_line (answer hello 0) (answer hello 1) (answer hello 2) (answer hello 3)) in
  hello ++ questions ++ [logged line_at line; call HXNU_SYS_SPAWN [path_at; argv_at; 4; 0; 0; 0] (INIT_PATH :: INIT_ARGS)].
End answers.

Lemma init_line_size a b c d : (size_of (init_line a b c d) <= 160)%nat.
Proof.
  unfold init_line. pose proof (piece_hex_size (cast U64 a)). pose proof (piece_i64_size b). pose proof (piece_i64_size c). pose proof (piece_i64_size d).
  unfold size_of in *. rewrite !concat_app, !length_app. cbn [concat]. rewrite !app_nil_r.
  change (length (lit "HXNU-INIT: abi=")) with 15%nat. change (length (lit " pid=")) with 5%nat. change (length (lit " tid=")) with 5%nat.
  change (length (lit " uptime-ns=")) with 11%nat. cbn [length]. lia.
Qed.

(** The init program, whatever the kernel answers: it says that it is online, asks for
    the ABI version, its process, its thread and the uptime, logs them on one line that
    always fits, asks once for the shell with its three arguments and then only yields,
    for ever. The build for the exit test asks the kernel to end its group with status
    33 instead of yielding, and the three fault builds log their name and then fault:
    none of these makes any other call. *)
Theorem init_program_calls (kernel : list UserCall -> Z) (smoke : Smoke) (text_at line_at path_at argv_at : Z) (turns : nat) :
  let armed name := logged text_at (lit "HXNU-INIT: " ++ name ++ lit " smoke armed" ++ [10]) in
  let calls := init_calls kernel text_at line_at path_at argv_at in
  init_start kernel smoke text_at line_at path_at argv_at turns [] =
  match smoke with
  | NoSmoke => (Diverge, calls ++ replicate turns (ask HXNU_SYS_SCHED_YIELD))
  | FaultPage => (Err Spins, calls ++ [armed (lit "fault-page")])
  | FaultGp => (Err Spins, calls ++ [armed (lit "fault-gp")])
  | FaultUd => (Err Spins, calls ++ [armed (lit "fault-ud")])
  | ExitImmediate => (Err Spins, calls ++ [armed (lit "exit-immediate"); call HXNU_SYS_EXIT_GROUP [33; 0; 0; 0; 0; 0] []])
  end.
Proof.
  intros armed calls. unfold init_start. unfold bind at 1, log_bytes at 1. unfold bind at 1, syscall2 at 1, user_syscall at 1, ret at 1.
  set (hello := [] ++ [mkCall _ HXNU_SYS_LOG_WRITE _ _]). rewrite questions_run.
  set (pieces := init_line _ _ _ _). unfold bind at 1, lift at 1. change (line_new 160) with (holding [] 160).
  rewrite (line_write_run pieces [] 160) by (done || apply init_line_size). unfold bind at 1, lift at 1. rewrite line_as_bytes_run. cbn [app].
  unfold bind at 1, log_bytes at 1. unfold bind at 1, syscall2 at 1, user_syscall at 1, ret at 1. unfold bind at 1, syscall3 at 1, user_syscall at 1.
  match goal with |- (do! maybe_trigger_fault_smoke _ _ _ in _) ?l = _ => replace l with calls by (unfold calls, init_calls; rewrite <- !app_assoc; reflexivity) end.
  clearbody calls. destruct smoke; try reflexivity.
  - unfold bind, ret. cbn. apply yields_run.
  - transitivity (Err Spins : outcome UserEnd unit, (calls ++ [armed (lit "exit-immediate")]) ++ [call HXNU_SYS_EXIT_GROUP [33; 0; 0; 0; 0; 0] []]); [reflexivity|].
    by rewrite <- app_assoc.
Qed.

(** An argument of 200 bytes fills the interpreter's line before its end: what it logs
    stops in front of the program headers' address, without the end of the line. *)
Example interp_line_cut :
  let line := line_write (E:=Empty_set) (line_new 320)
    (interp_line 1 4 4 1000000 0x7fffffffef00 (mkView 1 0x7fffffffef80 0x401000 0 0x400040 56 2 0) (replicate 200 97) (lit "<none>")) in
  exists l text, line = Ok l /\ line_as_bytes (E:=Empty_set) l = Ok text /\ last text <> Some 10.
Proof. eexists _, _. split; [vm_compute; reflexivity|]. split; [vm_compute; reflexivity|]. vm_compute. discriminate. Qed.

Lemma interpreter_reads_stack_witness :
  exists f sp s' v, setup_system_v_user_stack 0x1ff000 stack_hhdm 0x401000 0x400040 2 [lit "/initrd/init"] [lit "A=1"] stack_start = (Ok sp, s') /\
    parse_initial_stack (E:=Empty_set) (user_byte stack_hhdm f s') sp = Ok v /\ v_argc v = 1 /\ v_at_entry v = 0x401000 /\
    display_c_string (user_byte stack_hhdm f s') (v_argv0 v) = lit "/initrd/init".
Proof.
  assert (Ht : take_stack STACK_PAGES stack_start = (Ok stack_list, snd (take_stack STACK_PAGES stack_start))) by (apply pair_of_fst; vm_compute; reflexivity).
  set (s1 := snd (take_stack STACK_PAGES stack_start)) in *.
  assert (Hmp : map_stack 0x1ff000 stack_hhdm 0 stack_list s1 = (Ok tt, snd (map_stack 0x1ff000 stack_hhdm 0 stack_list s1))) by (apply pair_of_fst; vm_compute; reflexivity).
  destruct (interpreter_reads_stack stack_map [] stack_start s1 (snd (map_stack 0x1ff000 stack_hhdm 0 stack_list s1)) 0x1ff000 stack_hhdm 0x401000 0x400040 2
    [lit "/initrd/init"] [lit "A=1"] stack_list eq_refl ltac:(unfold stack_hhdm, PHYS_LIMIT; lia) stack_alloc_ok) as (f & sp & s' & v & H1 & _ & H3 & H4 & _ & H6).
  - constructor; [by apply byte_list_check|constructor].
  - constructor; [by apply byte_list_check|constructor].
  - vm_compute. discriminate.
  - exact Ht.
  - exact Hmp.
  - unfold in_range. lia.
  - unfold in_range. lia.
  - unfold in_range. lia.
  - exists f, sp, s', v. split; [exact H1|]. split; [exact H3|]. rewrite H4. split; [reflexivity|]. split; [reflexivity|].
    rewrite H4 in H6. apply H6; [repeat constructor; discriminate|vm_compute; reflexivity|vm_compute; reflexivity].
Defined.
