(* ===== verification/Bga.v ===== *)
(** * The display adapter: [kernel/src/drivers/bga.rs]

    The driver sees two ports: writes to them are listed in order, and [inw t port] is what
    a read gives after the writes [t]. The facts are about an adapter that keeps one
    register per index, as the interface of the device defines it. *)
From stdpp Require Import base list numbers option gmap.
From Stdlib Require Import ZArith Lia Bool.
From S2P Require Import Prelude.

Definition VBE_DISPI_IOPORT_INDEX : Z := 0x01CE.
Definition VBE_DISPI_IOPORT_DATA : Z := 0x01CF.
Definition VBE_DISPI_INDEX_ID : Z := 0x0.
Definition VBE_DISPI_INDEX_XRES : Z := 0x1.
Definition VBE_DISPI_INDEX_YRES : Z := 0x2.
Definition VBE_DISPI_INDEX_BPP : Z := 0x3.
Definition VBE_DISPI_INDEX_ENABLE : Z := 0x4.
Definition VBE_DISPI_ID0 : Z := 0xB0C0.
Definition VBE_DISPI_ID5 : Z := 0xB0C5.
Definition VBE_DISPI_DISABLED : Z := 0x00.
Definition VBE_DISPI_ENABLED : Z := 0x01.
Definition VBE_DISPI_GETCAPS : Z := 0x02.
Definition VBE_DISPI_LFB_ENABLED : Z := 0x40.

Record BgaCaps : Type := mkBgaCaps { max_width : Z; max_height : Z; max_bpp : Z }.
Record BgaDisplayMode : Type := mkMode { bm_width : Z; bm_height : Z; bm_bpp : Z; bm_pitch : Z }.

Section bga.
Context (inw_port : list (Z * Z) -> Z -> Z) {E : Type}.
Let P (A : Type) : Type := M (list (Z * Z)) E A.

Definition outw (port value : Z) : P unit := modify (fun t => t ++ [(port, value)]).
Definition inw (port : Z) : P Z := gets (fun t => inw_port t port).
Definition bga_write (index value : Z) : P unit :=
  do! outw VBE_DISPI_IOPORT_INDEX index in outw VBE_DISPI_IOPORT_DATA value.
Definition bga_read (index : Z) : P Z :=
  do! outw VBE_DISPI_IOPORT_INDEX index in inw VBE_DISPI_IOPORT_DATA.
Definition is_available : P bool :=
  do! bga_write VBE_DISPI_INDEX_ID VBE_DISPI_ID5 in
  let! id := bga_read VBE_DISPI_INDEX_ID in
  ret ((VBE_DISPI_ID0 <=? id) && (id <=? VBE_DISPI_ID5)).
Definition probe_caps : P BgaCaps :=
  do! bga_write VBE_DISPI_INDEX_ENABLE VBE_DISPI_GETCAPS in
  let! width := bga_read VBE_DISPI_INDEX_XRES in
  let! height := bga_read VBE_DISPI_INDEX_YRES in
  let! bpp := bga_read VBE_DISPI_INDEX_BPP in
  ret (mkBgaCaps (if width =? 0 then 1920 else width) (if height =? 0 then 1080 else height) (if bpp =? 0 then 32 else bpp)).
Definition set_mode (width height bpp : Z) : P BgaDisplayMode :=
  do! bga_write VBE_DISPI_INDEX_ENABLE VBE_DISPI_DISABLED in
  do! bga_write VBE_DISPI_INDEX_XRES (cast U16 width) in
  do! bga_write VBE_DISPI_INDEX_YRES (cast U16 height) in
  do! bga_write VBE_DISPI_INDEX_BPP bpp in
  do! bga_write VBE_DISPI_INDEX_ENABLE (Z.lor VBE_DISPI_ENABLED VBE_DISPI_LFB_ENABLED) in
  let! pitch := lift (mul U32 width (bpp / 8)) in
  ret (mkMode width height bpp pitch).
End bga.

(** ** An adapter *)
(** The selected index and the registers after a list of port writes. *)
Record Adapter : Type := mkAdapter { selected : Z; registers : gmap Z Z }.
Definition adapter_write (a : Adapter) (w : Z * Z) : Adapter :=
  if w.1 =? VBE_DISPI_IOPORT_INDEX then mkAdapter w.2 (registers a)
  else if w.1 =? VBE_DISPI_IOPORT_DATA then mkAdapter (selected a) (<[selected a := w.2]> (registers a))
  else a.
Definition adapter_after (a : Adapter) (t : list (Z * Z)) : Adapter := foldl adapter_write a t.
Definition register (a : Adapter) (index : Z) : Z := default 0 (registers a !! index).

Lemma adapter_bga_write a index value :
  adapter_after a [(VBE_DISPI_IOPORT_INDEX, index); (VBE_DISPI_IOPORT_DATA, value)] = mkAdapter index (<[index := value]> (registers a)).
Proof. reflexivity. Qed.

Ltac adapter := unfold register, adapter_after; cbn [take foldl];
  repeat match goal with |- context [adapter_write ?a (?p, ?v)] => let r := eval cbn in (adapter_write a (p, v)) in change (adapter_write a (p, v)) with r end;
  cbn [registers selected]; repeat (rewrite lookup_insert_eq || rewrite lookup_insert_ne by discriminate); try reflexivity.

(** The mode a caller asks for is the mode the adapter ends up in. For sizes of 16 bits
    whose line fits 32 bits, the adapter is switched off before any size changes and on
    again, with the linear frame buffer, only after all of them; at the end its width,
    height and depth are the ones asked for and the pitch returned is the bytes of a
    line. *)
Theorem set_mode_spec {E} (width height bpp : Z) (t : list (Z * Z)) (a : Adapter)
    (Hw : 0 <= width < U16) (Hh : 0 <= height < U16) (Hpitch : width * (bpp / 8) < U32) :
  exists writes, set_mode (E:=E) width height bpp t = (Ok (mkMode width height bpp (width * (bpp / 8))), t ++ writes) /\
    let after n := adapter_after a (take n writes) in
    register (after 2%nat) VBE_DISPI_INDEX_ENABLE = VBE_DISPI_DISABLED /\
    (forall n, (2 <= n < 10)%nat -> register (after n) VBE_DISPI_INDEX_ENABLE = VBE_DISPI_DISABLED) /\
    length writes = 10%nat /\
    register (after 10%nat) VBE_DISPI_INDEX_XRES = width /\ register (after 10%nat) VBE_DISPI_INDEX_YRES = height /\
    register (after 10%nat) VBE_DISPI_INDEX_BPP = bpp /\ register (after 10%nat) VBE_DISPI_INDEX_ENABLE = 0x41.
Proof.
  set (writes := [(VBE_DISPI_IOPORT_INDEX, VBE_DISPI_INDEX_ENABLE); (VBE_DISPI_IOPORT_DATA, VBE_DISPI_DISABLED);
    (VBE_DISPI_IOPORT_INDEX, VBE_DISPI_INDEX_XRES); (VBE_DISPI_IOPORT_DATA, width); (VBE_DISPI_IOPORT_INDEX, VBE_DISPI_INDEX_YRES); (VBE_DISPI_IOPORT_DATA, height);
    (VBE_DISPI_IOPORT_INDEX, VBE_DISPI_INDEX_BPP); (VBE_DISPI_IOPORT_DATA, bpp); (VBE_DISPI_IOPORT_INDEX, VBE_DISPI_INDEX_ENABLE); (VBE_DISPI_IOPORT_DATA, 0x41)]).
  exists writes. split.
  - unfold set_mode, bga_write, outw, bind, modify, lift, ret. unfold cast. rewrite !Z.mod_small by lia. unfold mul, chk_mul, unwrap. rewrite (proj2 (Z.ltb_lt _ _) Hpitch).
    rewrite <- !app_assoc. reflexivity.
  - cbv zeta. unfold writes. split; [adapter|]. split; [|split; [reflexivity|split_and!; adapter]].
    intros n Hn. do 10 (destruct n as [|n]; [try lia; adapter|]). lia.
Qed.

Lemma set_mode_spec_witness : exists writes, set_mode (E:=unit) 1920 1080 32 [] = (Ok (mkMode 1920 1080 32 7680), [] ++ writes).
Proof.
  destruct (set_mode_spec (E:=unit) 1920 1080 32 [] (mkAdapter 0 ∅) ltac:(lia) ltac:(lia) ltac:(reflexivity)) as (w & H & _). exists w. exact H.
Defined.

(** A width that does not fit 16 bits is programmed modulo [65536] and reported in full. *)
Example set_mode_truncates : exists writes, set_mode (E:=unit) 65616 80 32 [] = (Ok (mkMode 65616 80 32 262464), writes) /\
  register (adapter_after (mkAdapter 0 ∅) writes) VBE_DISPI_INDEX_XRES = 80.
Proof. eexists. split; reflexivity. Qed.
