(* ===== verification/Neoio.v ===== *)
(** * Device topology: [kernel/src/neoio/mod.rs] and [kernel/src/neoio/iommu.rs]

    The manager's tree, its lock and its flag, with the processor's interrupt flag and the
    text the functions write to the terminal. [spins] bounds the attempts to take the lock. *)
From stdpp Require Import base list numbers option strings.
From Stdlib Require Import ZArith Lia Bool.
From S2P Require Import Prelude Paths Text Machine Frame Vmm Paging Memory Acpi Power.

Inductive TopologySource : Type := TopoAcpi | DeviceTreeBlob | HotPlugPcie.
Record NeoNode : Type := mkNeoNode {
  vendor_id : Z; device_id : Z; is_npu : bool; is_gpu : bool; node_source : TopologySource; iommu_domain_isolated : bool }.
Record NeoDeviceTree : Type := mkTree { nodes : list (option NeoNode); node_count : Z }.
#[export] Instance NeoDeviceTree_eta : RecordEta NeoDeviceTree := fun t => mkTree (nodes t) (node_count t).
Record NeoIoManager : Type := mkNeo { is_active : bool; neo_locked : bool; neo_tree : NeoDeviceTree; neo_interrupts : bool; neo_text : list (list Z) }.
#[export] Instance NeoIoManager_eta : RecordEta NeoIoManager := fun m =>
  mkNeo (is_active m) (neo_locked m) (neo_tree m) (neo_interrupts m) (neo_text m).

Definition MAX_NODES : Z := 64.
Definition neo_new (interrupts : bool) : NeoIoManager :=
  mkNeo false false (mkTree (replicate (Z.to_nat MAX_NODES) None) 0) interrupts [].

Section neoio.
Context (spins : nat) {E : Type}.
Let N (A : Type) : Type := M NeoIoManager E A.

Definition neo_write (s : string) : N unit := modify (upd neo_text (fun t => t ++ [lit s ++ [10]])).

(** [iommu.rs] *)
Definition reconfigure_iommu_group (bus device function : Z) : N unit :=
  do! neo_write "NeoIO(IOMMU): Hot-plug detected. Enforcing ACS isolation..." in
  neo_write "NeoIO(IOMMU): Device placed in strict isolation domain (DENY ALL).".
Definition grant_dma_access (bus device function physical_addr size : Z) : N unit :=
  neo_write "NeoIO(IOMMU): Granting DMA access to authenticated device.".
Definition revoke_dma_access_for_swap (bus device function : Z) : N unit :=
  neo_write "NeoIO(IOMMU): Revoking DMA access for device hot-swap (preventing UAF).".

Definition lock_tree : N unit :=
  do! modify (set_field neo_interrupts false) in
  loop spins (fun _ =>
    let! l := gets neo_locked in
    if l : bool then ret (inl tt) else do! modify (set_field neo_locked true) in ret (inr tt)) tt.
Definition unlock_tree : N unit :=
  do! modify (set_field neo_locked false) in modify (set_field neo_interrupts true).

Definition neo_init : N unit :=
  do! lock_tree in
  do! modify (set_field is_active true) in
  unlock_tree.

Definition inject_dynamic_fdt_node (vendor device : Z) (npu gpu : bool) : N unit :=
  let! active := gets is_active in
  if negb active then ret tt else
  do! lock_tree in
  let! tree := gets neo_tree in
  do! (if node_count tree <? len (nodes tree) then
         do! reconfigure_iommu_group 0 0 0 in
         let! nodes' := lift (set_at (nodes tree) (node_count tree) (Some (mkNeoNode vendor device npu gpu HotPlugPcie true))) in
         let! count := lift (add U64 (node_count tree) 1) in
         modify (set_field neo_tree (mkTree nodes' count))
       else neo_write "NeoIO: [ERROR] Device tree capacity exceeded during hot-plug!") in
  unlock_tree.
End neoio.

(** [system_reboot] and [system_halt]: the text, then the reset of [power.rs]; what is left
    is the processor halted. *)
Definition system_reboot (cr3 : Z) (port_in : Z -> Z) (st : PowerState) : M (Bus * list (list Z)) ResetError unit :=
  do! modify (fun s => (s.1, s.2 ++ [lit "NeoIO: Orchestrating system reboot..." ++ [10]])) in
  fun s => let '(o, b) := reboot cr3 port_in st s.1 in (match o with Panic => Panic | _ => Diverge end, (b, s.2)).
Definition system_halt : M (Bus * list (list Z)) ResetError unit :=
  do! modify (fun s => (s.1, s.2 ++ [lit "NeoIO: Orchestrating system halt..." ++ [10]])) in
  diverge.

(** ** Facts *)
Record Request : Type := mkRequest { rq_vendor : Z; rq_device : Z; rq_npu : bool; rq_gpu : bool }.
Definition node_of (r : Request) : NeoNode := mkNeoNode (rq_vendor r) (rq_device r) (rq_npu r) (rq_gpu r) HotPlugPcie true.
(** The tree after the requests [rs]: the first 64 of them, in order. *)
Definition tree_of (rs : list Request) : NeoDeviceTree :=
  let kept := take 64 rs in mkTree ((Some <$> (node_of <$> kept)) ++ replicate (64 - length kept) None) (len kept).
Fixpoint inject_all {E} (spins : nat) (rs : list Request) : M NeoIoManager E unit :=
  match rs with
  | [] => ret tt
  | r :: rest => do! inject_dynamic_fdt_node spins (rq_vendor r) (rq_device r) (rq_npu r) (rq_gpu r) in inject_all spins rest
  end.

Lemma lock_tree_run {E} spins m : neo_locked m = false -> (0 < spins)%nat ->
  lock_tree (E:=E) spins m = (Ok tt, set_field neo_locked true (set_field neo_interrupts false m)).
Proof. intros Hl Hs. destruct spins as [|n]; [lia|]. unfold lock_tree, bind, modify. cbn [loop]. unfold bind, gets, ret, modify. cbn. by rewrite Hl. Qed.

(** One request on the tree of the requests before it. *)
Lemma inject_run {E} spins rs r m : is_active m = true -> neo_locked m = false -> (0 < spins)%nat -> neo_tree m = tree_of rs ->
  exists text, inject_dynamic_fdt_node (E:=E) spins (rq_vendor r) (rq_device r) (rq_npu r) (rq_gpu r) m
  = (Ok tt, mkNeo true false (tree_of (rs ++ [r])) true text).
Proof.
  intros Ha Hl Hs Ht. destruct m as [ac lk tr int tx]. cbn in Ha, Hl, Ht. subst. unfold inject_dynamic_fdt_node, bind at 1, gets at 1. cbn [is_active negb]. unfold bind at 1. rewrite lock_tree_run by done.
  unfold bind at 1, gets at 1.
  match goal with |- context [neo_tree ?x] => change (neo_tree x) with (tree_of rs) end. cbn [nodes node_count tree_of].
  assert (Hlen : len ((Some <$> (node_of <$> take 64 rs)) ++ replicate (64 - length (take 64 rs)) None) = 64).
  { rewrite len_app. unfold len. rewrite !length_fmap, length_replicate, length_take. lia. }
  rewrite Hlen. destruct (Z.ltb_spec (len (take 64 rs)) 64) as [Hroom|Hfull].
  - assert (Hk : take 64 rs = rs) by (apply take_ge; unfold len in Hroom; rewrite length_take in Hroom; lia). rewrite Hk in *.
    unfold bind at 1. unfold bind at 1, reconfigure_iommu_group. unfold bind at 1, neo_write at 1, modify at 1. unfold neo_write at 1, modify at 1.
    assert (Hset : set_at (E:=E) ((Some <$> (node_of <$> rs)) ++ replicate (64 - length rs) None) (len rs) (Some (node_of r))
      = Ok ((Some <$> (node_of <$> (rs ++ [r]))) ++ replicate (64 - length (rs ++ [r])) None)).
    { unfold set_at. assert (Hn : (length rs < 64)%nat) by (unfold len in Hroom; lia). replace (64 - length rs)%nat with (1 + (64 - length (rs ++ [r])))%nat by (rewrite length_app; cbn; lia).
      rewrite replicate_add. rewrite (blit_app (Some <$> (node_of <$> rs)) (replicate 1 None) _ [Some (node_of r)]); [|unfold len; by rewrite !length_fmap|done].
      rewrite !fmap_app. by rewrite <- app_assoc. }
    unfold bind at 1, lift at 1. unfold node_of in Hset at 2. rewrite Hset. unfold bind at 1, lift at 1. rewrite add_ok by (unfold len in *; lia).
    assert (Hk' : take 64 (rs ++ [r]) = rs ++ [r]) by (apply take_ge; rewrite length_app; unfold len in Hroom; cbn [length]; lia).
    assert (Htree : tree_of (rs ++ [r]) = mkTree ((Some <$> (node_of <$> (rs ++ [r]))) ++ replicate (64 - length (rs ++ [r])) None) (len rs + 1)).
    { unfold tree_of. rewrite Hk', len_app. reflexivity. }
    rewrite Htree. eexists. reflexivity.
  - assert (Hn : (64 <= length rs)%nat) by (unfold len in Hfull; rewrite length_take in Hfull; lia).
    assert (Hsame : tree_of (rs ++ [r]) = tree_of rs) by (unfold tree_of; by rewrite take_app_le by lia). rewrite Hsame. eexists. reflexivity.
Qed.

(** Hot-plugged devices are kept in the order they came, each marked isolated, up to 64;
    later ones are dropped. After [init] and any sequence of requests the tree is exactly
    that, its count is the number of devices kept, and the lock is free. Requests before
    [init] change nothing. Interrupts are on afterwards even when they were off. *)
Theorem topology_keeps_devices {E} (spins : nat) (rs : list Request) (interrupts : bool) (Hs : (0 < spins)%nat) :
  (exists text, (do! neo_init (E:=E) spins in inject_all spins rs) (neo_new interrupts) = (Ok tt, mkNeo true false (tree_of rs) true text)) /\
  inject_all (E:=E) spins rs (neo_new interrupts) = (Ok tt, neo_new interrupts).
Proof.
  split.
  - unfold bind at 1, neo_init. unfold bind at 1. rewrite lock_tree_run by done. unfold bind, modify, unlock_tree, bind, modify.
    change (mkTree _ 0) with (tree_of []).
    assert (Hgen : forall rest done_ text, exists text', inject_all (E:=E) spins rest (mkNeo true false (tree_of done_) true text) = (Ok tt, mkNeo true false (tree_of (done_ ++ rest)) true text')).
    { intros rest. induction rest as [|r rest IH]; intros done_ text; cbn [inject_all]; [rewrite app_nil_r; by exists text|].
      destruct (inject_run (E:=E) spins done_ r (mkNeo true false (tree_of done_) true text)) as (text1 & Hr); [done..|].
      unfold bind at 1. rewrite Hr. destruct (IH (done_ ++ [r]) text1) as (text2 & H2). exists text2. rewrite H2, <- app_assoc. done. }
    apply (Hgen rs []).
  - induction rs as [|r rs IH]; [done|]. cbn [inject_all]. unfold bind at 1, inject_dynamic_fdt_node, bind, gets. cbn. exact IH.
Qed.

Lemma topology_keeps_devices_witness : exists text,
  (do! neo_init (E:=unit) 1 in inject_all 1 [mkRequest 0x10de 0x2204 false true]) (neo_new false)
  = (Ok tt, mkNeo true false (tree_of [mkRequest 0x10de 0x2204 false true]) true text).
Proof. exact (proj1 (topology_keeps_devices (E:=unit) 1 [mkRequest 0x10de 0x2204 false true] false ltac:(lia))). Defined.
