(* ===== verification/Modules.v ===== *)
(** * Kernel modules: [kernel/src/module_loader.rs] and [kernel/src/live_update.rs]

    Each module of the initrd is mapped page by page: a frame is taken, cleared, filled
    with the part of the file that falls in the page and mapped. The state is the memory
    and the lines printed; [cr3] is the page table register. *)
From stdpp Require Import base list numbers option strings gmap.
From Stdlib Require Import ZArith Lia Bool.
From S2P Require Import Prelude Paths Text Frame Vmm Exec Initrd Fat Pseudo Vfs Paging Memory.

Record Loader : Type := mkLoader { ml_paging : Paging; ml_lines : list (list Z) }.
#[export] Instance Loader_eta : RecordEta Loader := fun l => mkLoader (ml_paging l) (ml_lines l).

Section loader.
Context (hhdm_offset : option Z) (cr3 : Z) {E : Type}.
Let L (A : Type) : Type := M Loader E A.
Definition say (line : list Z) : L unit := modify (upd ml_lines (fun l => l ++ [line])).
Definition on_memory {A} (m : M Paging E A) : L A := zoom ml_paging (fun p l => set_field ml_paging p l) m.
(** [.ok()]: an error is dropped. *)
Definition ignore_error {A F} (m : M Paging F A) : M Paging E unit := fun p =>
  let '(o, p') := m p in (match o with Ok _ | Err _ => Ok tt | Panic => Panic | Diverge => Diverge end, p').

Definition HETEREXEC : list Z := lit "heterexec.hxext".

(** The part of the file that falls in the page: where it goes in the page, where it is in
    the file and how long it is. *)
Definition page_part (s : VmMapPlanEntry) (page : Z) : outcome E (option (Z * Z * Z)) :=
  let file_start := vm_virtual_start s in
  let? file_end := add U64 file_start (vm_file_bytes s) in
  let? page_end := add U64 page 4096 in
  let copy_start := Z.max page file_start in
  let copy_end := Z.min page_end file_end in
  if copy_start <? copy_end then
    let? src_offset := add U64 (vm_file_offset s) (copy_start - file_start) in
    Ok (Some (copy_start - page, src_offset, copy_end - copy_start))
  else Ok None.

(** The frame of one page, cleared and filled. *)
Definition fill_page (hhdm : Z) (bytes : list Z) (s : VmMapPlanEntry) (page phys : Z) : M Paging E unit :=
  let! virt := lift (add U64 hhdm phys) in
  do! modify (upd pg_words (zero_bytes virt)) in
  let! part := lift (page_part s page) in
  match part with
  | Some (dest_offset, src_offset, copy_len) =>
      let! src_end := lift (add U64 src_offset copy_len) in
      if src_end <=? len bytes then
        let! bs := lift (slice bytes src_offset src_end) in
        copy_bytes (virt + dest_offset) bs
      else ret tt
  | None => ret tt
  end.

Definition load_page (bytes : list Z) (s : VmMapPlanEntry) (flags page : Z) : M Paging E unit :=
  let! f := zoom pg_frames (fun t p => set_field pg_frames t p) allocate in
  match f with
  | Some frame =>
      let phys := start_address frame in
      let! hhdm := lift (unwrap hhdm_offset) in
      do! fill_page hhdm bytes s page phys in
      let pml4 := Z.land cr3 0x000ffffffffff000 in
      ignore_error (map_kernel_page hhdm pml4 page phys flags)
  | None => ret tt
  end.

(** [while page < segment.map_end { ..; page += 4096 }]: one iteration per page. *)
Definition load_segment (bytes : list Z) (s : VmMapPlanEntry) : M Paging E unit :=
  let flags := if vm_writable s then FLAG_WRITE_THROUGH else 0 in
  loop (S (pages_between (vm_map_start s) (vm_map_end s))) (fun page =>
    if page <? vm_map_end s then
      do! load_page bytes s flags page in
      let! next := lift (add U64 page 4096) in
      ret (inl next)
    else ret (inr tt)) (vm_map_start s).

Definition load_segments (bytes : list Z) (ss : list VmMapPlanEntry) : M Paging E unit := for_each ss (load_segment bytes).
End loader.

Section modules.
Context `{B : Block}.
Context (hhdm_offset : option Z) (cr3 : Z) (mounts : Mounts) {E : Type}.
Let L (A : Type) : Type := M Loader E A.

Definition load_module (full_path : list Z) : L unit :=
  if contains full_path HETEREXEC then
    say (lit "HXNU: heterexec deferred (relocation pass not yet implemented): " ++ full_path)
  else
  do! say (lit "HXNU: Discovered module: " ++ full_path) in
  match prepare_executable_load mounts full_path with
  | Ok prep =>
      match xl_entry_point prep with
      | Some entry_point =>
          do! match read_executable_bytes mounts (xc_mount (xl_candidate prep)) full_path with
              | Ok bytes => on_memory (load_segments hhdm_offset cr3 bytes (vm_map_entries (xl_totals prep)))
              | Err _ => ret tt
              | Panic => panic
              | Diverge => diverge
              end in
          say (lit "HXNU: Successfully loaded module " ++ full_path ++ lit " at entry " ++ hex entry_point)
      | None => ret tt
      end
  | Err _ => say (lit "HXNU: Module found but failed to load: " ++ full_path)
  | Panic => panic
  | Diverge => diverge
  end.

Definition load_modules (initrd : option InitrdState) : L unit :=
  do! say (lit "HXNU: Searching for .hxext and .hxmd modules...") in
  let module_paths := get_module_paths initrd in
  let modules_found := len module_paths in
  do! for_each module_paths load_module in
  if modules_found =? 0 then say (lit "HXNU: No .hxext or .hxmd modules found.")
  else say (lit "HXNU: Module loading phase complete. Loaded " ++ dec modules_found ++ lit " module(s).").
End modules.

(** ** Facts *)
(** The segment lies in the file and in the address space. *)
Definition segment_in_file (bytes : list Z) (s : VmMapPlanEntry) : Prop :=
  0 <= vm_virtual_start s /\ 0 <= vm_file_bytes s /\ vm_virtual_start s + vm_file_bytes s < U64 /\ 0 <= vm_file_offset s /\
  vm_file_offset s + vm_file_bytes s <= len bytes < U64.
(** What a page of the segment must hold: its bytes of the file, and zeros around them. *)
Definition page_byte (bytes : list Z) (s : VmMapPlanEntry) (page : Z) (k : nat) : Z :=
  let va := page + Z.of_nat k in
  if decide (vm_virtual_start s <= va < vm_virtual_start s + vm_file_bytes s)
  then nth (Z.to_nat (vm_file_offset s + (va - vm_virtual_start s))) bytes 0 else 0.
Definition page_image (bytes : list Z) (s : VmMapPlanEntry) (page : Z) : list Z := page_byte bytes s page <$> seq 0 4096.

Lemma page_part_run {E} bytes s page : segment_in_file bytes s -> 0 <= page -> page + 4096 < U64 ->
  page_part (E:=E) s page =
  let copy_start := Z.max page (vm_virtual_start s) in
  let copy_end := Z.min (page + 4096) (vm_virtual_start s + vm_file_bytes s) in
  Ok (if copy_start <? copy_end then Some (copy_start - page, vm_file_offset s + (copy_start - vm_virtual_start s), copy_end - copy_start) else None).
Proof.
  intros (H1 & H2 & H3 & H4 & H5) Hp Hpe. unfold page_part. rewrite !add_ok by lia. cbn [obind].
  destruct (Z.ltb_spec (Z.max page (vm_virtual_start s)) (Z.min (page + 4096) (vm_virtual_start s + vm_file_bytes s))); [|done].
  rewrite add_ok by lia. done.
Qed.

(** A page of a module holds what the program header says, whatever the frame held
    before: its part of the file at the right place and zeros everywhere else. Filling
    it succeeds and touches no other byte of memory and no frame. *)
Theorem module_page_filled {E} (hhdm : Z) (bytes : list Z) (s : VmMapPlanEntry) (page phys : Z) (p : Paging)
    (Hhhdm : hhdm mod 4096 = 0) (Hphys : phys mod 4096 = 0) (H0 : 0 <= hhdm + phys) (Hlimit : hhdm + phys + 4096 < U64)
    (Hbytes : byte_list bytes) (Hseg : segment_in_file bytes s) (Hpage : 0 <= page) (Hend : page + 4096 < U64) :
  exists p', fill_page (E:=E) hhdm bytes s page phys p = (Ok tt, p') /\ pg_frames p' = pg_frames p /\
    bytes_from (pg_words p') (hhdm + phys) 4096 = page_image bytes s page /\
    forall x, ~ (hhdm + phys <= x < hhdm + phys + 4096) -> load_byte (pg_words p') x = load_byte (pg_words p) x.
Proof.
  assert (Hal : (hhdm + phys) mod 8 = 0).
  { assert (Hs : (hhdm + phys) mod 4096 = 0) by (rewrite Zplus_mod, Hhhdm, Hphys; done). apply Z.mod_divide in Hs as [k Hk]; [|lia].
    rewrite Hk. replace (k * 4096) with (0 + k * 512 * 8) by lia. by rewrite Z.mod_add. }
  pose proof Hseg as (H1 & H2 & H3 & H4 & H5). unfold fill_page. rewrite (add_ok U64 hhdm phys) by lia. unfold bind at 1, lift at 1. unfold bind at 1, modify at 1.
  rewrite (page_part_run bytes) by done. cbv zeta. unfold bind at 1, lift at 1.
  set (virt := hhdm + phys) in *. set (cs := Z.max page (vm_virtual_start s)) in *. set (ce := Z.min (page + 4096) (vm_virtual_start s + vm_file_bytes s)) in *.
  destruct (Z.ltb_spec cs ce) as [Hlt|Hge].
  - set (src := vm_file_offset s + (cs - vm_virtual_start s)). rewrite (add_ok U64 src) by lia. unfold bind at 1, lift at 1.
    rewrite (proj2 (Z.leb_le _ _)) by lia. rewrite slice_ok by lia. unfold bind at 1, lift at 1, copy_bytes, modify.
    set (part := take (Z.to_nat (src + (ce - cs) - src)) (drop (Z.to_nat src) bytes)).
    assert (Hpb : byte_list part) by (by apply Forall_take, Forall_drop).
    assert (Hpl : len part = ce - cs) by (unfold part, len; rewrite length_take, length_drop; unfold len in H5; lia).
    eexists. split; [reflexivity|]. split; [done|]. cbn [pg_words].
    match goal with |- bytes_from ?m _ _ = _ /\ _ => assert (Hm : forall x, load_byte m x = if decide (virt + (cs - page) <= x < virt + (cs - page) + (ce - cs)) then nth (Z.to_nat (x - (virt + (cs - page)))) part 0
        else if decide (virt <= x < virt + 4096) then 0 else load_byte (pg_words p) x); [|revert Hm; generalize m; intros mem Hm] end.
    { intros x. unfold upd. cbn [pg_words]. rewrite load_copy, load_byte_zero, Hpl by done. done. }
    split; [|intros x Hx; rewrite Hm, !decide_False by lia; done].
    apply (list_eq_same_length _ _ 4096); [by unfold page_image; rewrite length_fmap, length_seq|by rewrite length_bytes_from|].
    intros k a b Hk Ha Hb. rewrite lookup_bytes_from in Ha by done. injection Ha as <-. unfold page_image in Hb. rewrite list_lookup_fmap, lookup_seq_lt in Hb by done.
    injection Hb as <-. rewrite Hm. unfold page_byte. destruct (decide (vm_virtual_start s <= page + Z.of_nat k < vm_virtual_start s + vm_file_bytes s)) as [Hin|Hout].
    + rewrite decide_True by lia. unfold part. rewrite !nth_lookup, lookup_take_lt, lookup_drop by lia. f_equal. f_equal. unfold src. lia.
    + rewrite decide_False, decide_True by lia. done.
  - eexists. split; [reflexivity|]. split; [done|]. unfold upd. cbn [pg_words]. split; [|intros x Hx; rewrite load_byte_zero, decide_False by (done || lia); done].
    apply (list_eq_same_length _ _ 4096); [by unfold page_image; rewrite length_fmap, length_seq|by rewrite length_bytes_from|].
    intros k a b Hk Ha Hb. rewrite lookup_bytes_from in Ha by done. injection Ha as <-. unfold page_image in Hb. rewrite list_lookup_fmap, lookup_seq_lt in Hb by done.
    injection Hb as <-. rewrite load_byte_zero, decide_True by (done || lia). unfold page_byte. by rewrite decide_False by lia.
Qed.

(** ** Loading ends *)
Lemma fill_page_steady {E} hhdm bytes s page phys : segment_in_file bytes s -> 0 <= page -> page + 4096 < U64 ->
  forall p, paging_ok p -> match add (E:=E) U64 hhdm phys with
    | Ok _ => exists p', fill_page (E:=E) hhdm bytes s page phys p = (Ok tt, p') /\ paging_ok p'
    | _ => fill_page (E:=E) hhdm bytes s page phys p = (Panic, p) end.
Proof.
  intros Hs Hp Hpe p Hok. pose proof Hs as (H1 & H2 & H3 & H4 & H5). unfold fill_page, add, chk_add, unwrap.
  destruct (Z.ltb_spec (hhdm + phys) U64); [|done]. unfold bind at 1, lift at 1. unfold bind at 1, modify at 1. rewrite (page_part_run bytes) by done. cbv zeta.
  unfold bind at 1, lift at 1. destruct (Z.ltb_spec (Z.max page (vm_virtual_start s)) (Z.min (page + 4096) (vm_virtual_start s + vm_file_bytes s))); [|by eexists].
  rewrite (proj2 (Z.ltb_lt (_ + _ + _) U64)) by lia. unfold bind at 1, lift at 1. rewrite (proj2 (Z.leb_le _ _)) by lia. rewrite slice_ok by lia.
  unfold bind at 1, lift at 1. by eexists.
Qed.

Lemma load_page_steady {E} hhdm cr3 bytes s flags page map g : segment_in_file bytes s -> 0 <= page -> page + 4096 < U64 -> 0 <= hhdm <= U64 - PHYS_LIMIT ->
  forall p, alloc_ok map g (pg_frames p) -> exists p', load_page (E:=E) (Some hhdm) cr3 bytes s flags page p = (Ok tt, p') /\ paging_ok p'.
Proof.
  intros Hs Hp Hpe Hd p [Hinv Hlim]. unfold load_page. unfold bind at 1, zoom. pose proof (allocate_free E map (pg_frames p) g Hinv) as Ha.
  destruct (allocate (pg_frames p)) as [[[f|]|e| |] a']; try done.
  2: { eexists. split; [reflexivity|]. subst a'. apply (fi_table _ _ _ Hinv). }
  destruct Ha as (Hinv' & _ & Hlow & Hfree & _). unfold PAGE_SIZE in *. destruct (Hfree (start_address f + 4095) ltac:(lia)) as [Hfr _]. specialize (Hlim _ Hfr).
  unfold bind at 1, lift at 1, unwrap. unfold bind at 1.
  pose proof (fill_page_steady (E:=E) hhdm bytes s page (start_address f) Hs Hp Hpe (set_field pg_frames a' p) (fi_table _ _ _ Hinv')) as Hfill.
  rewrite add_ok in Hfill by (unfold BOOTSTRAP_RESERVED_END in Hlow; lia). destruct Hfill as (p1 & -> & Hok1).
  unfold ignore_error. destruct (steady_kernel_page hhdm (Z.land cr3 0x000ffffffffff000) page (start_address f) flags p1 Hok1) as [Hr Hok2].
  destruct (map_kernel_page _ _ _ _ _ p1) as [[[]|e| |] p2]; try done; by exists p2.
Qed.

(** ** [live_update.rs] *)
Definition CLONE_MAGIC : Z := 0x48584E55434C4F4E.
(** [KernelCloneState] in memory; the function returns its size. *)
Definition clone_header : list Z := le_bytes 8 CLONE_MAGIC ++ le_bytes 4 1 ++ le_bytes 4 0.
Definition clone_kernel_state {E} (dest_ptr : Z) : M Loader E Z :=
  do! say (lit "HPS: Cloning kernel state for live swap without breaking active syscalls...") in
  do! on_memory (copy_bytes dest_ptr clone_header) in
  ret (len clone_header).
(** The registers the new kernel starts with: interrupts off, [rdi] the state and [rip] the entry. *)
Record Swap : Type := mkSwap { sw_interrupts : bool; sw_rdi : Z; sw_rip : Z }.
Definition migrate_active_contexts {E} (new_kernel_entry state_addr : Z) : M (Loader * option Swap) E unit :=
  do! modify (fun s => (upd ml_lines (fun l => l ++ [lit "HPS: Gracefully migrating context switches to new kernel at " ++ hex_wide 16 new_kernel_entry ++ lit "..."]) s.1, s.2)) in
  do! modify (fun s => (s.1, Some (mkSwap false state_addr new_kernel_entry))) in
  diverge.

(** ** A module of one page *)
Definition one_page : VmMapPlanEntry := mkVmEntry 0 0x100 0x2100 0x2104 0x2000 0x3000 0x100 4 4 0 4096 true true true.
Definition file_bytes : list Z := replicate 256 7 ++ [1; 2; 3; 4].
Lemma module_page_filled_witness : exists p',
  fill_page (E:=unit) 0xffff800000000000 file_bytes one_page 0x2000 0x100000 (mkPaging demo_frames ∅) = (Ok tt, p') /\
  load_byte (pg_words p') 0xffff800000100102 = 3 /\ load_byte (pg_words p') 0xffff800000100104 = 0.
Proof.
  destruct (module_page_filled (E:=unit) 0xffff800000000000 file_bytes one_page 0x2000 0x100000 (mkPaging demo_frames ∅)) as (p' & Hr & _ & Hb & _);
    [reflexivity|reflexivity|lia|lia|by apply byte_list_check|unfold segment_in_file; change (len file_bytes) with 260; cbn; lia|lia|lia|].
  exists p'. split; [exact Hr|].
  assert (Hbyte : forall i, (i < 4096)%nat -> load_byte (pg_words p') (0xffff800000100000 + Z.of_nat i) = page_byte file_bytes one_page 0x2000 i).
  { intros i Hi. pose proof (lookup_bytes_from (pg_words p') 0xffff800000100000 4096 i Hi) as Hl.
    change (0xffff800000000000 + 0x100000) with 0xffff800000100000 in Hb. rewrite Hb in Hl. unfold page_image in Hl. rewrite list_lookup_fmap, lookup_seq_lt in Hl by exact Hi. by injection Hl as ->. }
  split; [exact (Hbyte 0x102%nat ltac:(lia))|exact (Hbyte 0x104%nat ltac:(lia))].
Defined.

(** Two segments that share a page: the frame of the second is filled but never mapped,
    because the page already has an entry, and the loader does not notice. *)
Lemma mapped_page_kept hhdm pml4 va pa flags p pte : page_entry next_table (hhdm + pml4) va hhdm p = (Ok (Some pte), p) -> hhdm + pml4 < U64 ->
  Z.land (load (pg_words p) pte) PAGE_PRESENT <> 0 -> map_kernel_page hhdm pml4 va pa flags p = (Ok tt, p).
Proof.
  intros He Hlt Hp. unfold map_kernel_page, chk_off, chk_add. rewrite (proj2 (Z.ltb_lt _ _) Hlt). cbn [ok_or]. unfold bind at 1, lift at 1. unfold bind at 1. rewrite He.
  unfold bind, word_at, gets. by rewrite (proj2 (Z.eqb_neq _ _) Hp).
Qed.
