(* ===== verification/Limine.v ===== *)
(** * Boot protocol: [kernel/src/limine.rs]

    The kernel places its requests in a section the boot loader scans; the loader stores
    the address of an answer in each request it serves, and the answers are C structures
    in memory that the kernel reads through raw pointers. [m] is that memory.

    The theorem: when memory holds the C layout of an answer, the readers return the
    values it was made from: every map entry in order, the modules up to the first null
    pointer, the fields of the first framebuffer, the offset of the direct map and the address
    of the ACPI root pointer. *)
From stdpp Require Import base list numbers option strings gmap.
From Stdlib Require Import ZArith Lia Bool.
From S2P Require Import Prelude Paths Frame Vmm Paging Memory Initrd Fb.

(** ** Requests *)
Record Request : Type := mkRequest { rq_id : list Z; rq_revision : Z; rq_response : Z }.
Definition MEMMAP_REQUEST : Request := mkRequest [0xc7b1dd30df4c8b88; 0x0a82e883a194f07b; 0x67cf3d9d378a806f; 0xe304acdfc50c3c62] 0 0.
Definition HHDM_REQUEST : Request := mkRequest [0xc7b1dd30df4c8b88; 0x0a82e883a194f07b; 0x48dcf1cb8ad2b852; 0x63984e959a98244b] 0 0.
Definition FRAMEBUFFER_REQUEST : Request := mkRequest [0xc7b1dd30df4c8b88; 0x0a82e883a194f07b; 0x9d5827dcd881dd75; 0xa3148604f6fab11b] 0 0.
(** [internal_module_count] and [internal_modules] are zero. *)
Definition MODULE_REQUEST : Request := mkRequest [0xc7b1dd30df4c8b88; 0x0a82e883a194f07b; 0x3e7e279702be32af; 0xca1c4f3bd1280cee] 0 0.
Definition RSDP_REQUEST : Request := mkRequest [0xc7b1dd30df4c8b88; 0x0a82e883a194f07b; 0xc5e77b6b397e7b43; 0x27637845accdcf3c] 0 0.
Definition LIMINE_BASE_REVISION : list Z := [0xf9562b2d5c95a6c8; 0x6a7b384944536bdc; 0].
Definition LIMINE_REQUESTS_START_MARKER : list Z := [0xf6b8f4b39de7d1ae; 0xfab91a6940fcb9cf; 0x785c6ed015d3e316; 0x181e920a7852b9d9].
Definition LIMINE_REQUESTS_END_MARKER : list Z := [0xadc0e0531bb10d03; 0x9572709f31764c62].

(** The request section, which the loader writes before the kernel runs. *)
Record Requests : Type := mkRequests {
  base_revision : list Z; memmap_request : Request; hhdm_request : Request; framebuffer_request : Request; module_request : Request; rsdp_request : Request }.
Definition requests_unanswered : Requests := mkRequests LIMINE_BASE_REVISION MEMMAP_REQUEST HHDM_REQUEST FRAMEBUFFER_REQUEST MODULE_REQUEST RSDP_REQUEST.
Definition base_revision_supported (r : Requests) : bool := bool_decide (base_revision r !! 2%nat = Some 0).

(** ** Structures in memory *)
Section answers.
Context (m : gmap Z Z).
Definition uint_at (n : nat) (a : Z) : Z := le_val (bytes_from m a n).

Record LimineMemmapEntry : Type := mkLimineEntry { lm_base : Z; lm_length : Z; lm_entry_type : Z }.
Definition memmap_entry_at (p : Z) : LimineMemmapEntry := mkLimineEntry (uint_at 8 p) (uint_at 8 (p + 8)) (uint_at 8 (p + 16)).
Record LimineMemmapResponse : Type := mkMemmapResponse { mr_entry_count : Z; mr_entries : Z }.
Definition memmap_response_at (p : Z) : LimineMemmapResponse := mkMemmapResponse (uint_at 8 (p + 8)) (uint_at 8 (p + 16)).
Definition hhdm_response_offset (p : Z) : Z := uint_at 8 (p + 8).
Definition rsdp_response_address (p : Z) : Z := uint_at 8 (p + 8).

Record LimineFramebufferResponse : Type := mkFbResponse { fb_count : Z; fb_framebuffers : Z }.
Definition framebuffer_response_at (p : Z) : LimineFramebufferResponse := mkFbResponse (uint_at 8 (p + 8)) (uint_at 8 (p + 16)).
(** The fields of [LimineFramebuffer] the kernel copies. *)
Definition framebuffer_at (p : Z) : Framebuffer :=
  mkFramebuffer (uint_at 8 p) (uint_at 8 (p + 8)) (uint_at 8 (p + 16)) (uint_at 8 (p + 24)) (uint_at 2 (p + 32)) (uint_at 1 (p + 34))
    (uint_at 1 (p + 35)) (uint_at 1 (p + 36)) (uint_at 1 (p + 37)) (uint_at 1 (p + 38)) (uint_at 1 (p + 39)) (uint_at 1 (p + 40)).

Record LimineFile : Type := mkLimineFile { lf_address : Z; lf_size : Z; lf_path : Z; lf_string : Z }.
Definition file_at (p : Z) : LimineFile := mkLimineFile (uint_at 8 (p + 8)) (uint_at 8 (p + 16)) (uint_at 8 (p + 24)) (uint_at 8 (p + 32)).
Record LimineModuleResponse : Type := mkModuleResponse { mo_module_count : Z; mo_modules : Z }.
Definition module_response_at (p : Z) : LimineModuleResponse := mkModuleResponse (uint_at 8 (p + 8)) (uint_at 8 (p + 16)).

(** ** The memory map *)
Record MemoryMapIter : Type := mkMapIter { mi_entries : Z; mi_index : Z; mi_len : Z }.
Definition map_len (response : Z) : Z := mr_entry_count (memmap_response_at response).
Definition map_is_empty (response : Z) : bool := map_len response =? 0.
Definition map_iter (response : Z) : MemoryMapIter :=
  mkMapIter (mr_entries (memmap_response_at response)) 0 (mr_entry_count (memmap_response_at response)).
Definition map_next (it : MemoryMapIter) : option MemoryMapEntry * MemoryMapIter :=
  if mi_len it <=? mi_index it then (None, it) else
  let slot := mi_entries it + 8 * mi_index it in
  let entry := memmap_entry_at (uint_at 8 slot) in
  (Some (mkEntry (lm_base entry) (lm_length entry) (from_raw (lm_entry_type entry))), mkMapIter (mi_entries it) (mi_index it + 1) (mi_len it)).
(** A [for] loop over the iterator sees these entries; the turns are the entries and the last [None]. *)
Fixpoint map_collect (turns : nat) (it : MemoryMapIter) : list MemoryMapEntry :=
  match turns with
  | O => []
  | S turns' => match map_next it with (Some e, it') => e :: map_collect turns' it' | (None, _) => [] end
  end.
Definition map_entries (response : Z) : list MemoryMapEntry := map_collect (S (Z.to_nat (map_len response))) (map_iter response).

(** ** Modules *)
(** [CStr::from_ptr] walks to the zero byte; [turns] bounds the walk. *)
Fixpoint c_bytes {E} (turns : nat) (p : Z) : outcome E (list Z) :=
  match turns with
  | O => Diverge
  | S turns' => if load_byte m p =? 0 then Ok [] else let? rest := c_bytes turns' (p + 1) in Ok (load_byte m p :: rest)
  end.
Definition c_str {E} (turns : nat) (p : Z) : outcome E (option (list Z)) :=
  if p =? 0 then Ok None else
  let? bytes := c_bytes turns p in
  Ok (if is_utf8 bytes then Some bytes else None).

(** What the accessors of [Module] return for a file: [bytes], [path] and [string]. *)
Definition module_at {E} (turns : nat) (file : Z) : outcome E Module_ :=
  let f := file_at file in
  let? path := c_str turns (lf_path f) in
  let? string := c_str turns (lf_string f) in
  Ok (mkModule (bytes_from m (lf_address f) (Z.to_nat (lf_size f))) path string).

Record ModuleIter : Type := mkModuleIter { mx_modules : Z; mx_index : Z; mx_len : Z }.
Definition modules_len (response : Z) : Z := mo_module_count (module_response_at response).
Definition modules_is_empty (response : Z) : bool := modules_len response =? 0.
Definition modules_iter (response : Z) : ModuleIter :=
  mkModuleIter (mo_modules (module_response_at response)) 0 (mo_module_count (module_response_at response)).
Definition modules_next (it : ModuleIter) : option Z * ModuleIter :=
  if mx_len it <=? mx_index it then (None, it) else
  let slot := mx_modules it + 8 * mx_index it in
  let it := mkModuleIter (mx_modules it) (mx_index it + 1) (mx_len it) in
  let file := uint_at 8 slot in
  if file =? 0 then (None, it) else (Some file, it).
Fixpoint modules_collect (turns : nat) (it : ModuleIter) : list Z :=
  match turns with
  | O => []
  | S turns' => match modules_next it with (Some f, it') => f :: modules_collect turns' it' | (None, _) => [] end
  end.
Definition module_files (response : Z) : list Z := modules_collect (S (Z.to_nat (modules_len response))) (modules_iter response).

(** ** The entry points: [None] when the loader left the request unanswered *)
Definition answered (r : Request) : option Z := if rq_response r =? 0 then None else Some (rq_response r).
Definition memory_map (r : Requests) : option Z := answered (memmap_request r).
Definition hhdm_offset (r : Requests) : option Z := hhdm_response_offset <$> answered (hhdm_request r).
Definition boot_framebuffer (r : Requests) : option Framebuffer :=
  match answered (framebuffer_request r) with
  | None => None
  | Some response =>
      if fb_count (framebuffer_response_at response) =? 0 then None else
      let framebuffer_ptr := uint_at 8 (fb_framebuffers (framebuffer_response_at response)) in
      if framebuffer_ptr =? 0 then None else Some (framebuffer_at framebuffer_ptr)
  end.
Definition modules (r : Requests) : option Z := answered (module_request r).
Definition rsdp_address (r : Requests) : option Z := rsdp_response_address <$> answered (rsdp_request r).
End answers.

(** ** Layouts *)
Definition entry_layout (e : LimineMemmapEntry) : list Z := words [lm_base e; lm_length e; lm_entry_type e].
Definition framebuffer_layout (f : Framebuffer) : list Z :=
  words [fr_address f; fr_width f; fr_height f; fr_pitch f] ++ le_bytes 2 (fr_bpp f) ++
  [fr_memory_model f; red_mask_size f; red_mask_shift f; green_mask_size f; green_mask_shift f; blue_mask_size f; blue_mask_shift f].
Definition word_list (ws : list Z) : Prop := Forall (in_range U64) ws.
Definition framebuffer_typed (f : Framebuffer) : Prop :=
  word_list [fr_address f; fr_width f; fr_height f; fr_pitch f] /\ in_range U16 (fr_bpp f) /\
  byte_list [fr_memory_model f; red_mask_size f; red_mask_shift f; green_mask_size f; green_mask_shift f; blue_mask_size f; blue_mask_shift f].
Definition text_of (s : option (list Z)) : list Z := default [] s.

Section laid_out.
Context (m : gmap Z Z).
(** An answer of three words whose second is the length of the array of pointers [ps] at the third. *)
Definition array_answer (response : Z) (ps : list Z) : Prop := exists revision array,
  holds m response (words [revision; len ps; array]) /\ holds m array (words ps) /\ word_list [revision; len ps; array] /\ word_list ps.
(** An answer of two words, the second its value. *)
Definition word_answer (response v : Z) : Prop := exists revision, holds m response (words [revision; v]) /\ word_list [revision; v].
Definition memmap_answer (response : Z) (es : list LimineMemmapEntry) : Prop := exists ps,
  array_answer response ps /\ Forall2 (fun p e => holds m p (entry_layout e) /\ word_list [lm_base e; lm_length e; lm_entry_type e]) ps es.
(** A string pointer: null for none, else the address of its bytes and a zero. *)
Definition string_laid (p : Z) (s : option (list Z)) : Prop :=
  match s with
  | None => p = 0
  | Some t => p <> 0 /\ holds m p (t ++ [0]) /\ Forall (fun b => b <> 0) t /\ is_utf8 t = true
  end.
Definition file_laid (p : Z) (x : Module_) : Prop := exists revision address path string,
  holds m p (words [revision; address; len (mod_bytes x); path; string]) /\ word_list [revision; address; len (mod_bytes x); path; string] /\
  holds m address (mod_bytes x) /\ string_laid path (mod_path x) /\ string_laid string (mod_string x).
Definition framebuffer_answer (response : Z) (f : Framebuffer) : Prop := exists p rest,
  array_answer response (p :: rest) /\ p <> 0 /\ holds m p (framebuffer_layout f) /\ framebuffer_typed f.

Lemma uint_held n a v : holds m a (le_bytes n v) -> 0 <= v < 256 ^ Z.of_nat n -> uint_at m n a = v.
Proof. unfold holds, uint_at. rewrite length_le_bytes. intros -> Hv. by apply le_val_bytes_small. Qed.
Lemma words_lookup ws a i w : holds m a (words ws) -> word_list ws -> ws !! i = Some w -> uint_at m 8 (a + 8 * Z.of_nat i) = w.
Proof.
  revert a i. induction ws as [|v ws IH]; intros a i Ha Hws Hi; [done|]. rewrite words_cons in Ha. apply holds_app in Ha as [Hv Hr]. apply Forall_cons in Hws as [Hv0 Hws].
  destruct i as [|i]; cbn in Hi.
  - injection Hi as <-. rewrite Z.add_0_r. apply uint_held; [done|]. apply Hv0.
  - rewrite <- (IH (a + 8) i); [f_equal; lia|exact Hr|done|done].
Qed.
Lemma load_held a b : holds m a [b] -> load_byte m a = b.
Proof.
  intros H. pose proof (lookup_bytes_from m a 1 0 ltac:(lia)) as Hl. unfold holds in H. cbn [length] in H. rewrite H in Hl.
  cbn [lookup list_lookup] in Hl. rewrite Z.add_0_r in Hl. by injection Hl.
Qed.
Lemma byte_held a b : holds m a [b] -> uint_at m 1 a = b.
Proof. unfold holds, uint_at. cbn [length]. intros ->. cbn. lia. Qed.
Lemma bytes_lookup bs a i b : holds m a bs -> bs !! i = Some b -> uint_at m 1 (a + Z.of_nat i) = b.
Proof.
  intros Ha Hi. rewrite <- (take_drop_middle bs i b Hi) in Ha. apply holds_app in Ha as [_ Ha].
  change (b :: drop (S i) bs) with ([b] ++ drop (S i) bs) in Ha. apply holds_app in Ha as [Ha _]. apply byte_held.
  replace (a + Z.of_nat i) with (a + len (take i bs)); [done|]. unfold len. rewrite length_take. apply lookup_lt_Some in Hi. lia.
Qed.

Lemma array_answer_read response ps : array_answer response ps -> exists array,
  uint_at m 8 (response + 8) = len ps /\ uint_at m 8 (response + 16) = array /\ forall i p, ps !! i = Some p -> uint_at m 8 (array + 8 * Z.of_nat i) = p.
Proof.
  intros (revision & array & Hr & Ha & Hw & Hp). exists array. split; [exact (words_lookup _ _ 1 _ Hr Hw eq_refl)|]. split; [exact (words_lookup _ _ 2 _ Hr Hw eq_refl)|].
  intros i p Hi. by apply (words_lookup ps).
Qed.

Lemma word_answer_read response v : word_answer response v -> uint_at m 8 (response + 8) = v.
Proof. intros (revision & Hr & Hw). exact (words_lookup _ _ 1 _ Hr Hw eq_refl). Qed.

Definition entry_of_raw (e : LimineMemmapEntry) : MemoryMapEntry := mkEntry (lm_base e) (lm_length e) (from_raw (lm_entry_type e)).
Lemma memmap_entry_held p e : holds m p (entry_layout e) -> word_list [lm_base e; lm_length e; lm_entry_type e] -> memmap_entry_at m p = e.
Proof.
  intros Hp Hw. unfold memmap_entry_at. pose proof (words_lookup _ _ 0 _ Hp Hw eq_refl) as H0. rewrite Z.add_0_r in H0.
  rewrite H0, (words_lookup _ _ 1 _ Hp Hw eq_refl : uint_at m 8 (p + 8) = _), (words_lookup _ _ 2 _ Hp Hw eq_refl : uint_at m 8 (p + 16) = _). by destruct e.
Qed.
Lemma map_collect_run array ps es : (forall i p, ps !! i = Some p -> uint_at m 8 (array + 8 * Z.of_nat i) = p) ->
  Forall2 (fun p e => holds m p (entry_layout e) /\ word_list [lm_base e; lm_length e; lm_entry_type e]) ps es ->
  forall todo k, (k + todo = length ps)%nat -> map_collect m (S todo) (mkMapIter array (Z.of_nat k) (len ps)) = entry_of_raw <$> drop k es.
Proof.
  intros Hread Hes. pose proof (Forall2_length _ _ _ Hes) as Hl. induction todo as [|todo IH]; intros k Hk.
  - cbn [map_collect]. unfold map_next. cbn [mi_len mi_index]. rewrite (proj2 (Z.leb_le _ _)) by (unfold len; lia). rewrite drop_ge by lia. done.
  - destruct (lookup_lt_is_Some_2 ps k ltac:(lia)) as [p Hp]. destruct (Forall2_lookup_l _ _ _ _ _ Hes Hp) as (e & He & Hheld & Hw).
    remember (S todo) as n. cbn [map_collect]. unfold map_next. cbn [mi_len mi_index mi_entries]. rewrite (proj2 (Z.leb_gt _ _)) by (unfold len; lia).
    rewrite (Hread k p Hp), (memmap_entry_held p e Hheld Hw). subst n. replace (Z.of_nat k + 1) with (Z.of_nat (S k)) by lia.
    rewrite IH by lia. by rewrite (drop_S _ _ _ He).
Qed.
Lemma map_entries_read response es : memmap_answer response es -> map_entries m response = entry_of_raw <$> es.
Proof.
  intros (ps & Ha & Hes). destruct (array_answer_read _ _ Ha) as (array & Hc & Hp & Hread).
  unfold map_entries, map_len, map_iter, memmap_response_at. cbn [mr_entry_count mr_entries]. rewrite Hc, Hp.
  unfold len at 1. rewrite Nat2Z.id. exact (map_collect_run array ps es Hread Hes (length ps) 0 eq_refl).
Qed.

(** The pointers before the first null one. *)
Fixpoint before_null (ps : list Z) : list Z := match ps with p :: rest => if p =? 0 then [] else p :: before_null rest | [] => [] end.
Lemma modules_collect_run array ps : (forall i p, ps !! i = Some p -> uint_at m 8 (array + 8 * Z.of_nat i) = p) ->
  forall todo k, (k + todo = length ps)%nat -> modules_collect m (S todo) (mkModuleIter array (Z.of_nat k) (len ps)) = before_null (drop k ps).
Proof.
  intros Hread. induction todo as [|todo IH]; intros k Hk.
  - cbn [modules_collect]. unfold modules_next. cbn [mx_len mx_index]. rewrite (proj2 (Z.leb_le _ _)) by (unfold len; lia). rewrite drop_ge by lia. done.
  - destruct (lookup_lt_is_Some_2 ps k ltac:(lia)) as [p Hp]. remember (S todo) as n. cbn [modules_collect]. unfold modules_next. cbn [mx_len mx_index mx_modules].
    rewrite (proj2 (Z.leb_gt _ _)) by (unfold len; lia). rewrite (Hread k p Hp), (drop_S _ _ _ Hp). cbn [before_null]. destruct (p =? 0); [done|].
    subst n. replace (Z.of_nat k + 1) with (Z.of_nat (S k)) by lia. by rewrite IH by lia.
Qed.
Lemma module_files_read response ps : array_answer response ps -> module_files m response = before_null ps.
Proof.
  intros Ha. destruct (array_answer_read _ _ Ha) as (array & Hc & Hp & Hread). unfold module_files, modules_len, modules_iter, module_response_at. cbn [mo_module_count mo_modules].
  rewrite Hc, Hp. unfold len at 1. rewrite Nat2Z.id. exact (modules_collect_run array ps Hread (length ps) 0 eq_refl).
Qed.

Lemma c_bytes_read {E} t : forall turns p, holds m p (t ++ [0]) -> Forall (fun b => b <> 0) t -> (length t < turns)%nat -> c_bytes (E:=E) m turns p = Ok t.
Proof.
  induction t as [|b t IH]; intros turns p Hp Hn Ht; (destruct turns as [|turns]; [cbn in Ht; lia|]); cbn [c_bytes].
  - change ([] ++ [0]) with [0] in Hp. by rewrite (load_held _ _ Hp).
  - apply Forall_cons in Hn as [Hb Hn]. change ((b :: t) ++ [0]) with ([b] ++ (t ++ [0])) in Hp. apply holds_app in Hp as [Hp Hr]. rewrite (load_held _ _ Hp), (proj2 (Z.eqb_neq _ _) Hb).
    by rewrite (IH turns (p + 1) Hr Hn) by (cbn in Ht; lia).
Qed.
Lemma c_str_read {E} turns p s : string_laid p s -> (length (text_of s) < turns)%nat -> c_str (E:=E) m turns p = Ok s.
Proof.
  unfold c_str. destruct s as [t|]; cbn [string_laid text_of default]; [|by intros ->]. intros (Hp & Ht & Hn & Hu) Hl. rewrite (proj2 (Z.eqb_neq _ _) Hp).
  rewrite c_bytes_read with (t := t) by done. cbn [obind]. by rewrite Hu.
Qed.
Lemma module_at_read {E} turns p x : file_laid p x -> (length (text_of (mod_path x)) < turns)%nat -> (length (text_of (mod_string x)) < turns)%nat ->
  module_at (E:=E) m turns p = Ok x.
Proof.
  intros (revision & address & path & string & Hp & Hw & Hd & H1 & H2) Hl1 Hl2. unfold module_at, file_at. cbn [lf_path lf_string lf_address lf_size].
  rewrite (words_lookup _ _ 1 _ Hp Hw eq_refl : uint_at m 8 (p + 8) = _), (words_lookup _ _ 2 _ Hp Hw eq_refl : uint_at m 8 (p + 16) = _),
    (words_lookup _ _ 3 _ Hp Hw eq_refl : uint_at m 8 (p + 24) = _), (words_lookup _ _ 4 _ Hp Hw eq_refl : uint_at m 8 (p + 32) = _).
  rewrite (c_str_read turns path _ H1 Hl1). cbn [obind]. rewrite (c_str_read turns string _ H2 Hl2). cbn [obind]. unfold len. rewrite Nat2Z.id.
  unfold holds in Hd. rewrite Hd. by destruct x.
Qed.
Lemma framebuffer_at_read p f : holds m p (framebuffer_layout f) -> framebuffer_typed f -> framebuffer_at m p = f.
Proof.
  intros Hp (Hw & Hb & Hbs). unfold framebuffer_layout in Hp. apply holds_app in Hp as [H0 Hp]. apply holds_app in Hp as [H1 H2].
  unfold framebuffer_at. pose proof (words_lookup _ _ 0 _ H0 Hw eq_refl) as E0. rewrite Z.add_0_r in E0.
  rewrite E0, (words_lookup _ _ 1 _ H0 Hw eq_refl : uint_at m 8 (p + 8) = _), (words_lookup _ _ 2 _ H0 Hw eq_refl : uint_at m 8 (p + 16) = _),
    (words_lookup _ _ 3 _ H0 Hw eq_refl : uint_at m 8 (p + 24) = _).
  rewrite len_words in H1, H2. change (p + 8 * len _) with (p + 32) in H1, H2. rewrite (uint_held 2 _ _ H1 Hb).
  replace (p + 32 + len (le_bytes 2 (fr_bpp f))) with (p + 34) in H2 by (unfold len; rewrite length_le_bytes; lia).
  pose proof (fun i b => bytes_lookup _ (p + 34) i b H2) as Hbyte.
  replace (p + 34) with (p + 34 + 0) by lia.
  replace (p + 35) with (p + 34 + 1) by lia. replace (p + 36) with (p + 34 + 2) by lia. replace (p + 37) with (p + 34 + 3) by lia.
  replace (p + 38) with (p + 34 + 4) by lia. replace (p + 39) with (p + 34 + 5) by lia. replace (p + 40) with (p + 34 + 6) by lia.
  rewrite (Hbyte 0%nat _ eq_refl : uint_at m 1 (p + 34 + 0) = _), (Hbyte 1%nat _ eq_refl : uint_at m 1 (p + 34 + 1) = _), (Hbyte 2%nat _ eq_refl : uint_at m 1 (p + 34 + 2) = _), (Hbyte 3%nat _ eq_refl : uint_at m 1 (p + 34 + 3) = _), (Hbyte 4%nat _ eq_refl : uint_at m 1 (p + 34 + 4) = _), (Hbyte 5%nat _ eq_refl : uint_at m 1 (p + 34 + 5) = _), (Hbyte 6%nat _ eq_refl : uint_at m 1 (p + 34 + 6) = _).
  by destruct f.
Qed.
End laid_out.

(** C21: Each answer is read back as the values the loader laid out: the memory map entry by
    entry and in order, the module list up to its first null pointer with every module's
    bytes, path and command string, the first framebuffer's geometry and masks, the offset of
    the direct map and the address of the ACPI root pointer. The answers are where the
    requests' response pointers say, laid out as the C structures. *)
Theorem boot_answers_read {E} m r map_response es module_response files framebuffer_response f
    (Hmap : answered (memmap_request r) = Some map_response) (Hes : memmap_answer m map_response es)
    (Hmod : answered (module_request r) = Some module_response) (Hfiles : array_answer m module_response files)
    (Hfbr : answered (framebuffer_request r) = Some framebuffer_response) (Hfb : framebuffer_answer m framebuffer_response f)
    hhdm_response offset rsdp_response address
    (Hhhdm : answered (hhdm_request r) = Some hhdm_response) (Hoffset : word_answer m hhdm_response offset)
    (Hrsdp : answered (rsdp_request r) = Some rsdp_response) (Haddress : word_answer m rsdp_response address) :
  (map_entries m <$> memory_map r = Some (entry_of_raw <$> es)) /\
  (module_files m <$> modules r = Some (before_null files)) /\
  (forall p x turns, p ∈ files -> file_laid m p x -> (length (text_of (mod_path x)) < turns)%nat -> (length (text_of (mod_string x)) < turns)%nat ->
     module_at (E:=E) m turns p = Ok x) /\
  boot_framebuffer m r = Some f /\ hhdm_offset m r = Some offset /\ rsdp_address m r = Some address.
Proof.
  unfold memory_map, modules, boot_framebuffer, hhdm_offset, rsdp_address. rewrite Hmap, Hmod, Hfbr, Hhhdm, Hrsdp. cbn [fmap option_fmap option_map].
  rewrite (map_entries_read m map_response es Hes), (module_files_read m module_response files Hfiles). split; [done|]. split; [done|].
  split; [intros p x turns _; by apply module_at_read|].
  unfold hhdm_response_offset, rsdp_response_address. rewrite (word_answer_read _ _ _ Hoffset), (word_answer_read _ _ _ Haddress). split; [|done]. destruct Hfb as (p & rest & Ha & Hp & Hh & Ht).
  destruct (array_answer_read _ _ _ Ha) as (array & Hc & Har & Hread). unfold framebuffer_response_at. cbn [fb_count fb_framebuffers].
  rewrite Hc, Har, (proj2 (Z.eqb_neq (len (p :: rest)) 0)) by (rewrite len_cons; pose proof (len_nonneg rest); lia).
  pose proof (Hread O p eq_refl) as H0. rewrite Z.add_0_r in H0. rewrite H0, (proj2 (Z.eqb_neq _ _) Hp). f_equal. by apply framebuffer_at_read.
Qed.

(** ** An answered request section *)
Definition demo_entry : LimineMemmapEntry := mkLimineEntry 0x100000 0x200000 0.
Definition demo_file : Module_ := mkModule [7; 8; 9] None (Some (lit "initrd")).
Definition demo_framebuffer : Framebuffer := mkFramebuffer 0xfd000000 800 600 3200 32 1 8 16 8 8 8 0.
Definition demo_memory : gmap Z Z :=
  foldr (fun '(a, bs) m => copy_to m a bs) ∅
    [(0x1000, words [0; 1; 0x1100]); (0x1100, words [0x1200]); (0x1200, entry_layout demo_entry);
     (0x2000, words [0; 2; 0x2100]); (0x2100, words [0x2200; 0]); (0x2200, words [0; 0x2300; 3; 0; 0x2400]); (0x2300, [7; 8; 9]); (0x2400, lit "initrd" ++ [0]);
     (0x3000, words [0; 1; 0x3100]); (0x3100, words [0x3200]); (0x3200, framebuffer_layout demo_framebuffer);
     (0x4000, words [0; 0xffff800000000000]); (0x5000, words [0; 0xffff8000000f5a00])].
Definition demo_requests : Requests :=
  mkRequests LIMINE_BASE_REVISION (mkRequest (rq_id MEMMAP_REQUEST) 0 0x1000) (mkRequest (rq_id HHDM_REQUEST) 0 0x4000) (mkRequest (rq_id FRAMEBUFFER_REQUEST) 0 0x3000)
    (mkRequest (rq_id MODULE_REQUEST) 0 0x2000) (mkRequest (rq_id RSDP_REQUEST) 0 0x5000).
Ltac held := repeat match goal with |- _ /\ _ => split end;
  lazymatch goal with
  | |- holds _ _ _ => vm_compute; exact eq_refl
  | |- _ <> _ => discriminate
  | |- is_utf8 _ = _ => vm_compute; exact eq_refl
  | |- Forall _ (lit _) => vm_compute; repeat constructor; discriminate
  | |- _ => repeat (constructor || (unfold in_range, len; cbn; lia))
  end.
Lemma boot_answers_read_witness :
  map_entries demo_memory <$> memory_map demo_requests = Some [mkEntry 0x100000 0x200000 Usable] /\
  module_files demo_memory <$> modules demo_requests = Some [0x2200] /\
  module_at (E:=unit) demo_memory 8 0x2200 = Ok demo_file /\ boot_framebuffer demo_memory demo_requests = Some demo_framebuffer /\
  hhdm_offset demo_memory demo_requests = Some 0xffff800000000000 /\ rsdp_address demo_memory demo_requests = Some 0xffff8000000f5a00.
Proof.
  destruct (boot_answers_read (E:=unit) demo_memory demo_requests 0x1000 [demo_entry] 0x2000 [0x2200; 0] 0x3000 demo_framebuffer eq_refl) with (hhdm_response := 0x4000) (offset := 0xffff800000000000) (rsdp_response := 0x5000) (address := 0xffff8000000f5a00) as (H1 & H2 & H3 & H4).
  - exists [0x1200]. split; [exists 0, 0x1100; held|]. constructor; [held|constructor].
  - reflexivity.
  - exists 0, 0x2100. held.
  - reflexivity.
  - exists 0x3200, []. split; [exists 0, 0x3100; held|]. held.
  - reflexivity.
  - exists 0. held.
  - reflexivity.
  - exists 0. held.
  - split; [exact H1|]. split; [exact H2|]. split; [|exact H4]. apply H3; [by left| |vm_compute; lia|vm_compute; lia].
    exists 0, 0x2300, 0, 0x2400. cbn [string_laid mod_string mod_path demo_file]. held.
Defined.
