(* ===== verification/ApBoot.v ===== *)
(** * Starting the other processors: [kernel/src/arch/x86_64/ap_boot.rs]

    The boot processor copies a trampoline to physical page 8, patches its descriptors
    and, one processor after the other, fills the mailbox inside the page, sends INIT and
    start-up interrupts, and polls the done flag.

    The state is memory with the frame allocator, the text printed, the interrupts sent
    (each with the memory it was sent in), the processors marked online and the number of
    times the clock was read. What is not source here is a parameter: [map_virtual_page]
    and the printing of its error, the assembled trampoline [blob], the address
    [rust_entry] of [ap_main_rust], [reading n], the [n]-th reading of the clock (the
    nanoseconds since start when [clock_ready], else the cycle counter), and
    [ap_wrote sent n], whether the started processor has stored its done flag by the
    [n]-th reading. *)
From stdpp Require Import base list numbers option strings gmap.
From Stdlib Require Import ZArith Lia Bool.
From S2P Require Import Prelude Paths Text Machine Frame Vmm Paging Memory Percpu.

Definition TRAMPOLINE_PHYSICAL_BASE : Z := 0x8000.
Definition MAILBOX_OFFSET : Z := 0x380.
Definition MAILBOX_DONE_FLAG : Z := 0x380.
Definition MAILBOX_CPU_INDEX : Z := 0x384.
Definition MAILBOX_STACK_PTR : Z := 0x388.
Definition MAILBOX_PAGE_TABLE : Z := 0x390.
Definition MAILBOX_RUST_ENTRY : Z := 0x398.
Definition MAILBOX_PERCPU_BASE : Z := 0x3A0.
Definition GDTR_BASE_OFFSET : Z := 0x02F2.
Definition GDT_32BIT_CODE_DESC_OFFSET : Z := 0x0308.
Definition GDT_32BIT_DATA_DESC_OFFSET : Z := 0x0310.

Record ApBringUpSummary : Type := mkBringUp { attempted : Z; bu_online : Z; bu_failed : Z }.

Inductive Ipi : Type := InitIpi (apic : Z) | InitDeassert (apic : Z) | StartupIpi (apic vector : Z).
Record Sent : Type := mkSent { sent_ipi : Ipi; sent_memory : gmap Z Z }.
Record ApBoot : Type := mkAp { ab_paging : Paging; ab_out : list (list Z); ab_sent : list Sent; ab_marked : list nat; ab_reads : nat }.
#[export] Instance ApBoot_eta : RecordEta ApBoot := fun s => mkAp (ab_paging s) (ab_out s) (ab_sent s) (ab_marked s) (ab_reads s).

Section ap_boot.
Context {ME : Type} (map_virtual_page : Z -> Z -> Z -> Z -> M Paging ME unit) (map_error_debug : ME -> list Z).
Context (blob : list Z) (rust_entry bsp_cr3 : Z) (topology : option SmpTopology) (percpu_state : option PerCpuState).
Context (clock_ready : bool) (reading : nat -> Z) (ap_wrote : list Sent -> nat -> bool).
Let B (A : Type) : Type := M ApBoot unit A.

Definition ap_print (line : list Z) : B unit := modify (upd ab_out (fun l => l ++ [line])).
Definition ap_store (a : Z) (bs : list Z) : B unit := modify (upd ab_paging (upd pg_words (fun m => copy_to m a bs))).
Definition send_ipi (i : Ipi) : B unit := modify (fun s => upd ab_sent (fun l => l ++ [mkSent i (pg_words (ab_paging s))]) s).
Definition read_clock : B Z := fun s => (Ok (reading (ab_reads s)), upd ab_reads S s).
(** The flag as the poll finds it: the started processor may have stored 1 since the last one. *)
Definition load_done (addr : Z) : B Z := fun s =>
  let m := pg_words (ab_paging s) in
  let m := if ap_wrote (ab_sent s) (ab_reads s) then copy_to m addr (le_bytes 4 1) else m in
  (Ok (le_val (bytes_from m addr 4)), upd ab_paging (set_field pg_words m) s).

(** The clock is read at most once for each unit of the wait, and once more. *)
Definition wait_turns (limit : Z) : nat := S (S (Z.to_nat limit)).

Definition wait_for_ap_done (done_flag_addr timeout_ns : Z) : B bool :=
  if negb clock_ready then
    let! start := read_clock in
    let timeout_cycles := Z.max timeout_ns 1 in
    loop (wait_turns timeout_cycles) (fun _ : unit =>
      let! now := read_clock in
      if negb (wrap_sub U64 now start <? timeout_cycles) then ret (inr false) else
      let! flag := load_done done_flag_addr in
      ret (if negb (flag =? 0) then inr true else inl tt)) tt
  else
    let! now := read_clock in
    let deadline := sat_add U64 now timeout_ns in
    loop (wait_turns timeout_ns) (fun _ : unit =>
      let! now := read_clock in
      if negb (now <? deadline) then ret (inr false) else
      let! flag := load_done done_flag_addr in
      ret (if negb (flag =? 0) then inr true else inl tt)) tt.

Definition busy_wait_ns (ns : Z) : B unit :=
  if negb clock_ready then
    let! start := read_clock in
    let wait_cycles := Z.max ns 1 in
    loop (wait_turns wait_cycles) (fun _ : unit =>
      let! now := read_clock in if negb (wrap_sub U64 now start <? wait_cycles) then ret (inr tt) else ret (inl tt)) tt
  else
    let! start := read_clock in
    loop (wait_turns ns) (fun _ : unit =>
      let! now := read_clock in if negb (sat_sub now start <? ns) then ret (inr tt) else ret (inl tt)) tt.

(** The base address of a 32-bit descriptor is spread over its bytes 2, 3, 4 and 7. *)
Definition patch_descriptor (desc base : Z) : B unit :=
  do! ap_store (desc + 2) [cast U8 base] in
  do! ap_store (desc + 3) [cast U8 (Z.shiftr base 8)] in
  do! ap_store (desc + 4) [cast U8 (Z.shiftr base 16)] in
  ap_store (desc + 7) [cast U8 (Z.shiftr base 24)].
Definition patch_trampoline (trampoline_virt : Z) : B unit :=
  let gdt_phys := cast U32 (TRAMPOLINE_PHYSICAL_BASE + 0x0300) in
  let trampoline_base := cast U32 TRAMPOLINE_PHYSICAL_BASE in
  do! ap_print (lit "HXNU: ap patching gdt phys=" ++ hex gdt_phys ++ lit " trampoline_base=" ++ hex trampoline_base) in
  do! ap_store (trampoline_virt + GDTR_BASE_OFFSET) (le_bytes 4 gdt_phys) in
  do! patch_descriptor (trampoline_virt + GDT_32BIT_CODE_DESC_OFFSET) trampoline_base in
  patch_descriptor (trampoline_virt + GDT_32BIT_DATA_DESC_OFFSET) trampoline_base.

Definition fill_mailbox (trampoline_virt index stack_virt cr3_phys percpu_virt : Z) : B unit :=
  let mb := trampoline_virt + MAILBOX_OFFSET in
  do! ap_store mb (le_bytes 4 0) in
  do! ap_store (mb + (MAILBOX_CPU_INDEX - MAILBOX_OFFSET)) (le_bytes 4 (cast U32 index)) in
  do! ap_store (mb + (MAILBOX_STACK_PTR - MAILBOX_OFFSET)) (le_bytes 8 stack_virt) in
  do! ap_store (mb + (MAILBOX_PAGE_TABLE - MAILBOX_OFFSET)) (le_bytes 8 cr3_phys) in
  do! ap_store (mb + (MAILBOX_RUST_ENTRY - MAILBOX_OFFSET)) (le_bytes 8 rust_entry) in
  ap_store (mb + (MAILBOX_PERCPU_BASE - MAILBOX_OFFSET)) (le_bytes 8 percpu_virt).

(** INIT, its release, and one or two start-up interrupts; the answer is the done flag. *)
Definition init_sipi_sipi (trampoline_virt : Z) (cpu : CpuTopologyEntry) : B bool :=
  let idx := dec (Z.of_nat (cpu_index cpu)) in
  do! ap_print (lit "HXNU: ap phase init-assert") in
  do! ap_print (lit "HXNU: ap sending INIT to cpu" ++ idx ++ lit " apic=" ++ dec (apic_id cpu)) in
  do! send_ipi (InitIpi (apic_id cpu)) in
  do! busy_wait_ns 10000000 in
  do! ap_print (lit "HXNU: ap phase init-deassert") in
  do! send_ipi (InitDeassert (apic_id cpu)) in
  do! busy_wait_ns 10000000 in
  let vector := cast U8 (Z.shiftr TRAMPOLINE_PHYSICAL_BASE 12) in
  do! ap_print (lit "HXNU: ap phase sipi-1") in
  do! ap_print (lit "HXNU: ap sending SIPI vector=" ++ dec vector ++ lit " to cpu" ++ idx) in
  do! send_ipi (StartupIpi (apic_id cpu) vector) in
  let! ap_done := wait_for_ap_done (trampoline_virt + MAILBOX_DONE_FLAG) 10000000 in
  if negb ap_done then
    do! ap_print (lit "HXNU: ap phase sipi-2") in
    do! ap_print (lit "HXNU: ap sending second SIPI to cpu" ++ idx) in
    do! send_ipi (StartupIpi (apic_id cpu) vector) in
    wait_for_ap_done (trampoline_virt + MAILBOX_DONE_FLAG) 50000000
  else ret true.

(** One processor of the loop: whether it came online. *)
Definition bring_up (hhdm_offset trampoline_virt cr3_phys : Z) (cpu : CpuTopologyEntry) : B bool :=
  let idx := dec (Z.of_nat (cpu_index cpu)) in
  let apic := dec (apic_id cpu) in
  do! ap_print (lit "HXNU: ap bringing up cpu" ++ idx ++ lit " apic=" ++ apic) in
  let! f := zoom (fun s => pg_frames (ab_paging s)) (fun t s => upd ab_paging (set_field pg_frames t) s) allocate in
  match f with
  | None => do! ap_print (lit "HXNU: failed to allocate stack for AP cpu" ++ idx) in ret false
  | Some stack_frame =>
      let! v := lift (add U64 hhdm_offset (start_address stack_frame)) in
      let! stack_virt := lift (add U64 v PAGE_SIZE) in
      match entry_virtual_base percpu_state (cpu_index cpu) with
      | None => do! ap_print (lit "HXNU: missing percpu area for AP cpu" ++ idx) in ret false
      | Some percpu_virt =>
          do! ap_print (lit "HXNU: ap mailbox cpu" ++ idx ++ lit " stack=" ++ hex_wide 16 stack_virt ++ lit " cr3=" ++ hex_wide 16 cr3_phys ++
                        lit " rust=" ++ hex_wide 16 rust_entry ++ lit " percpu=" ++ hex_wide 16 percpu_virt) in
          do! fill_mailbox trampoline_virt (Z.of_nat (cpu_index cpu)) stack_virt cr3_phys percpu_virt in
          let! ap_done := init_sipi_sipi trampoline_virt cpu in
          if ap_done then
            do! ap_print (lit "HXNU: AP cpu" ++ idx ++ lit " apic=" ++ apic ++ lit " online") in
            do! modify (upd ab_marked (fun l => l ++ [cpu_index cpu])) in ret true
          else
            do! ap_print (lit "HXNU: AP cpu" ++ idx ++ lit " apic=" ++ apic ++ lit " failed to boot (timeout)") in ret false
      end
  end.

Definition bringup_target (cpu : CpuTopologyEntry) : bool := enabled cpu && negb (is_bsp cpu).
Fixpoint bring_up_all (hhdm_offset trampoline_virt cr3_phys : Z) (cs : list CpuTopologyEntry) (online failed : Z) : B (Z * Z) :=
  match cs with
  | [] => ret (online, failed)
  | cpu :: rest =>
      if is_bsp cpu || negb (enabled cpu) then bring_up_all hhdm_offset trampoline_virt cr3_phys rest online failed else
      let! up := bring_up hhdm_offset trampoline_virt cr3_phys cpu in
      if up then bring_up_all hhdm_offset trampoline_virt cr3_phys rest (online + 1) failed
      else bring_up_all hhdm_offset trampoline_virt cr3_phys rest online (failed + 1)
  end.

Definition bringup_all_aps (hhdm_offset : Z) : B ApBringUpSummary :=
  do! ap_print (lit "HXNU: ap bringup starting") in
  let! topology := lift (unwrap topology) in
  let ap_count := count_cpus bringup_target (cpus topology) in
  if ap_count =? 0 then
    do! ap_print (lit "HXNU: no APs to bring up") in ret (mkBringUp 0 0 0)
  else
  do! ap_print (lit "HXNU: ap bringup targets=" ++ dec ap_count) in
  do! ap_print (lit "HXNU: ap identity-mapping trampoline") in
  catch (zoom ab_paging (set_field ab_paging) (map_virtual_page hhdm_offset TRAMPOLINE_PHYSICAL_BASE TRAMPOLINE_PHYSICAL_BASE 0)) (fun r =>
    match r with
    | inr error =>
        do! ap_print (lit "HXNU: failed to identity-map trampoline page at " ++ hex TRAMPOLINE_PHYSICAL_BASE ++ lit ": " ++ map_error_debug error) in
        ret (mkBringUp ap_count 0 ap_count)
    | inl _ =>
        let trampoline_size := len blob in
        if negb (trampoline_size <=? 4096) then panic else
        do! ap_print (lit "HXNU: ap copying trampoline size=" ++ dec trampoline_size) in
        let! trampoline_virt := lift (add U64 hhdm_offset TRAMPOLINE_PHYSICAL_BASE) in
        do! ap_store trampoline_virt blob in
        do! patch_trampoline trampoline_virt in
        let bsp_cr3_phys := Z.land bsp_cr3 0x000ffffffffff000 in
        let! counts := bring_up_all hhdm_offset trampoline_virt bsp_cr3_phys (cpus topology) 0 0 in
        let '(online, failed) := counts in
        ret (mkBringUp (online + failed) online failed)
    end).
End ap_boot.

(** [ap_main_rust]: what the started processor does before it stops: the GS base, the
    interrupt table, a line on the serial port, and then [cli; hlt] for ever. *)
Inductive ApAction : Type := ApWriteMsr (msr value : Z) | ApLoadIdt | ApSerial (text : list Z) | ApCliHlt.
Definition ap_main_rust (cpu_index percpu_base : Z) : list ApAction :=
  [ApWriteMsr 0xC0000101 percpu_base; ApLoadIdt; ApSerial (lit "HXNU: AP reached 64-bit Rust" ++ [10]); ApCliHlt].

(** ** Facts *)
Lemma le_bytes_len n v : len (le_bytes n v) = Z.of_nat n.
Proof. unfold len. by rewrite length_le_bytes. Qed.

(** Two memories agree but for the flag at [flag]. *)
Definition agree (flag : Z) (m m' : gmap Z Z) : Prop := forall x, ~ (flag <= x < flag + 4) -> load_byte m' x = load_byte m x.
(** The steps after the mailbox is filled change nothing but the text, the clock count
    (by at most [k]), the flag and the interrupts sent, which are [l], in the same memory. *)
Record waited (flag k : Z) (l : list Sent) (s s' : ApBoot) : Prop := {
  wd_frames : pg_frames (ab_paging s') = pg_frames (ab_paging s);
  wd_sent : ab_sent s' = ab_sent s ++ l;
  wd_seen : Forall (fun x => agree flag (pg_words (ab_paging s)) (sent_memory x)) l;
  wd_marked : ab_marked s' = ab_marked s;
  wd_reads : Z.of_nat (ab_reads s) <= Z.of_nat (ab_reads s') <= Z.of_nat (ab_reads s) + k;
  wd_memory : agree flag (pg_words (ab_paging s)) (pg_words (ab_paging s')) }.
Lemma waited_refl flag s : waited flag 0 [] s s.
Proof. constructor; try done; [by rewrite app_nil_r|lia]. Qed.
Lemma waited_trans flag k1 k2 l1 l2 s1 s2 s3 : waited flag k1 l1 s1 s2 -> waited flag k2 l2 s2 s3 -> waited flag (k1 + k2) (l1 ++ l2) s1 s3.
Proof.
  intros [F1 S1 N1 M1 R1 X1] [F2 S2 N2 M2 R2 X2].
  constructor; [congruence|by rewrite S2, S1, app_assoc| |congruence|lia|intros x Hx; rewrite X2, X1; done].
  apply Forall_app. split; [done|]. eapply Forall_impl; [exact N2|]. intros x Hx a Ha. by rewrite Hx, X1.
Qed.
Lemma waited_le flag k k' l s s' : waited flag k l s s' -> k <= k' -> waited flag k' l s s'.
Proof. intros [F1 S1 N1 M1 R1 X1] Hk. constructor; try done. lia. Qed.
Lemma agree_holds flag m m' a bs : agree flag m m' -> a + len bs <= flag \/ flag + 4 <= a -> holds m a bs -> holds m' a bs.
Proof.
  intros Hw Ha H. unfold holds in *. rewrite <- H at 2. apply bytes_from_ext. intros i Hi. apply Hw. unfold len in Ha. lia.
Qed.

Section waits.
Context (clock_ready : bool) (reading : nat -> Z) (ap_wrote : list Sent -> nat -> bool) (horizon flag : Z).
(** The clock moves between two readings, up to the [horizon]-th. *)
Definition clock_moves : Prop := forall n, Z.of_nat n < horizon -> 0 <= reading n /\ reading n < reading (S n) < U64.
Context (Hclock : clock_moves).

Lemma read_clock_run s : read_clock reading s = (Ok (reading (ab_reads s)), upd ab_reads S s) /\ waited flag 1 [] s (upd ab_reads S s).
Proof. split; [done|]. constructor; cbn [ab_reads upd]; try done; [by rewrite app_nil_r|lia]. Qed.
(** The done flag is clear. *)
Definition flag_clear (m : gmap Z Z) : Prop := holds m flag (le_bytes 4 0).
Definition kept (s s' : ApBoot) : Prop := pg_words (ab_paging s') = pg_words (ab_paging s) /\ ab_sent s' = ab_sent s.

Lemma load_done_clear s : flag_clear (pg_words (ab_paging s)) -> ap_wrote (ab_sent s) (ab_reads s) = false -> load_done ap_wrote flag s = (Ok 0, s).
Proof.
  intros Hc Hw. unfold load_done. rewrite Hw. unfold flag_clear, holds in Hc. change (length (le_bytes 4 0)) with 4%nat in Hc. rewrite Hc.
  change (le_val (le_bytes 4 0)) with 0. by destruct s as [[]].
Qed.
Lemma load_done_set s : ap_wrote (ab_sent s) (ab_reads s) = true -> exists s', load_done ap_wrote flag s = (Ok 1, s') /\ waited flag 0 [] s s'.
Proof.
  intros Hw. unfold load_done. rewrite Hw. set (m := copy_to _ _ _).
  assert (Hm : holds m flag (le_bytes 4 1)) by (apply holds_copy; apply le_bytes_byte). unfold holds in Hm. change (length (le_bytes 4 1)) with 4%nat in Hm. rewrite Hm.
  eexists. split; [reflexivity|]. constructor; [reflexivity|by rewrite app_nil_r|constructor|reflexivity|cbn [ab_reads upd]; lia|]. intros x Hx.
  change (load_byte m x = load_byte (pg_words (ab_paging s)) x). unfold m. rewrite load_copy by apply (le_bytes_byte 4 1). by rewrite decide_False.
Qed.

(** A busy wait: a loop that reads the clock and stops past a deadline ends. *)
Lemma busy_loop (stop : Z -> bool) deadline : (forall now, deadline <= now < U64 -> stop now = true) ->
  forall fuel s, 0 < Z.of_nat fuel -> deadline - reading (ab_reads s) < Z.of_nat fuel -> Z.of_nat (ab_reads s) + Z.of_nat fuel <= horizon ->
  exists s', loop fuel (fun _ : unit => let! now := read_clock reading in if stop now then ret (inr tt) else ret (inl tt)) tt s = ((Ok tt : outcome unit unit), s') /\
    waited flag (Z.of_nat fuel) [] s s' /\ kept s s'.
Proof.
  intros Hstop. induction fuel as [|fuel IH]; intros s H0 Hd Hh; [lia|]. cbn [loop]. unfold bind at 1. unfold bind at 1.
  destruct (read_clock_run s) as [-> Hw1]. set (s1 := upd ab_reads S s) in *. destruct (Hclock (ab_reads s)) as [Hr0 Hr1]; [lia|].
  destruct (stop (reading (ab_reads s))) eqn:Es.
  { unfold ret. eexists. split; [reflexivity|]. split; [apply (waited_le _ _ _ _ _ _ Hw1); lia|done]. }
  assert (Hlt : reading (ab_reads s) < deadline).
  { destruct (Z.lt_ge_cases (reading (ab_reads s)) deadline) as [|Hge]; [done|]. rewrite Hstop in Es by lia. discriminate. }
  unfold ret at 1. destruct (IH s1) as (s3 & -> & Hw3 & Hk3); [lia|change (ab_reads s1) with (S (ab_reads s)); lia|change (ab_reads s1) with (S (ab_reads s)); lia|].
  eexists. split; [reflexivity|]. split; [|exact Hk3]. apply (waited_le _ _ _ _ _ _ (waited_trans _ _ _ _ _ _ _ _ Hw1 Hw3)). lia.
Qed.

(** The wait that starts with reading number [r0] finds the flag stored: the processor has
    stored it by a poll before which every reading was within [limit] of the start. *)
Definition answers (sent : list Sent) (r0 : nat) (limit : Z) : Prop :=
  exists n, (S r0 < n)%nat /\ (forall i, (r0 < i < n)%nat -> reading i < reading r0 + limit) /\ ap_wrote sent n = true.

(** The loop of the wait: it ends at the first poll that finds the flag stored, or at the
    deadline with the flag still clear. *)
Lemma flag_loop (stop : Z -> bool) r0 limit : (forall now, reading r0 <= now < U64 - 1 -> stop now = negb (now <? reading r0 + limit)) ->
  forall fuel s, flag_clear (pg_words (ab_paging s)) -> reading r0 <= reading (ab_reads s) -> 0 < Z.of_nat fuel ->
  reading r0 + limit - reading (ab_reads s) < Z.of_nat fuel -> Z.of_nat (ab_reads s) + Z.of_nat fuel + 1 <= horizon ->
  exists up s', loop fuel (fun _ : unit => let! now := read_clock reading in if stop now then ret (inr false) else
      let! v := load_done ap_wrote flag in ret (if negb (v =? 0) then inr true else inl tt)) tt s = ((Ok up : outcome unit bool), s') /\ waited flag (Z.of_nat fuel) [] s s' /\
    if up : bool then exists n, (ab_reads s < n)%nat /\ (forall i, (ab_reads s <= i < n)%nat -> reading i < reading r0 + limit) /\ ap_wrote (ab_sent s) n = true
    else flag_clear (pg_words (ab_paging s')) /\
      forall n, (ab_reads s < n)%nat -> (forall i, (ab_reads s <= i < n)%nat -> reading i < reading r0 + limit) -> ap_wrote (ab_sent s) n = false.
Proof.
  intros Hstop. induction fuel as [|fuel IH]; intros s Hc Hle H0 Hd Hh; [lia|]. cbn [loop]. unfold bind at 1. unfold bind at 1.
  destruct (read_clock_run s) as [-> Hw1]. set (s1 := upd ab_reads S s) in *. destruct (Hclock (ab_reads s)) as [Hr0 Hr1]; [lia|]. rewrite Hstop by lia.
  destruct (Z.ltb_spec (reading (ab_reads s)) (reading r0 + limit)) as [Hlt|Hge]; cbn [negb].
  2:{ unfold ret. exists false. eexists. split; [reflexivity|]. split; [apply (waited_le _ _ _ _ _ _ Hw1); lia|]. split; [exact Hc|].
      intros n Hn Hin. specialize (Hin (ab_reads s) ltac:(lia)). lia. }
  destruct (ap_wrote (ab_sent s) (S (ab_reads s))) eqn:Ew.
  - destruct (load_done_set s1 Ew) as (s2 & Hl & Hw2). unfold bind at 1. rewrite Hl. unfold ret. exists true, s2. split; [reflexivity|].
    split; [apply (waited_le _ _ _ _ _ _ (waited_trans _ _ _ _ _ _ _ _ Hw1 Hw2)); lia|]. exists (S (ab_reads s)). split; [lia|]. split; [|exact Ew].
    intros i Hi. by replace i with (ab_reads s) by lia.
  - unfold bind at 1. rewrite (load_done_clear s1 Hc Ew). unfold ret at 1. cbn [negb Z.eqb].
    destruct (IH s1) as (up & s3 & -> & Hw3 & Hup); [exact Hc|change (ab_reads s1) with (S (ab_reads s)); lia|lia|change (ab_reads s1) with (S (ab_reads s)); lia|change (ab_reads s1) with (S (ab_reads s)); lia|].
    exists up, s3. split; [reflexivity|]. split; [apply (waited_le _ _ _ _ _ _ (waited_trans _ _ _ _ _ _ _ _ Hw1 Hw3)); lia|].
    change (ab_reads s1) with (S (ab_reads s)) in Hup. change (ab_sent s1) with (ab_sent s) in Hup. destruct up.
    + destruct Hup as (n & Hn & Hin & Hwn). exists n. split; [lia|]. split; [|exact Hwn]. intros i Hi. destruct (decide (i = ab_reads s)) as [->|]; [exact Hlt|]. apply Hin. lia.
    + destruct Hup as [Hc3 Hno]. split; [exact Hc3|]. intros n Hn Hin. destruct (decide (n = S (ab_reads s))) as [->|]; [exact Ew|]. apply Hno; [lia|]. intros i Hi. apply Hin. lia.
Qed.

Lemma past_wrap start limit now : 0 <= start -> 0 <= limit -> start + limit <= now < U64 -> negb (wrap_sub U64 now start <? limit) = true.
Proof. intros H0 Hl Hn. unfold wrap_sub. rewrite Z.mod_small by lia. by rewrite (proj2 (Z.ltb_ge _ _)) by lia. Qed.
Lemma past_elapsed start limit now : start + limit <= now < U64 -> negb (sat_sub now start <? limit) = true.
Proof. intros Hn. unfold sat_sub. by rewrite (proj2 (Z.ltb_ge _ _)) by lia. Qed.
Lemma stop_wrap start limit now : 0 <= start -> start <= now < U64 - 1 -> negb (wrap_sub U64 now start <? limit) = negb (now <? start + limit).
Proof. intros H0 Hn. unfold wrap_sub. rewrite Z.mod_small by lia. f_equal. destruct (Z.ltb_spec (now - start) limit), (Z.ltb_spec now (start + limit)); lia || done. Qed.
Lemma stop_deadline start limit now : start <= now < U64 - 1 -> negb (now <? sat_add U64 start limit) = negb (now <? start + limit).
Proof. intros Hn. unfold sat_add. f_equal. destruct (Z.ltb_spec now (Z.min (start + limit) (U64 - 1))), (Z.ltb_spec now (start + limit)); lia || done. Qed.

Lemma turns_len limit : 0 <= limit -> Z.of_nat (wait_turns limit) = limit + 2.
Proof. unfold wait_turns. lia. Qed.

(** The wait answers whether the flag was stored in time. *)
Lemma wait_for_ap_done_run limit s : 1 <= limit -> flag_clear (pg_words (ab_paging s)) -> Z.of_nat (ab_reads s) + (limit + 4) <= horizon ->
  exists up s', wait_for_ap_done clock_ready reading ap_wrote flag limit s = (Ok up, s') /\ waited flag (limit + 4) [] s s' /\
    if up : bool then answers (ab_sent s) (ab_reads s) limit else ~ answers (ab_sent s) (ab_reads s) limit /\ flag_clear (pg_words (ab_paging s')).
Proof.
  intros Hl Hc Hh. destruct (Hclock (ab_reads s)) as [H0 H1]; [lia|]. destruct (read_clock_run s) as [Hread Hw]. set (s1 := upd ab_reads S s) in *.
  assert (Hgen : forall stop : Z -> bool, (forall now, reading (ab_reads s) <= now < U64 - 1 -> stop now = negb (now <? reading (ab_reads s) + limit)) ->
    exists up s', loop (wait_turns limit) (fun _ : unit => let! now := read_clock reading in if stop now then ret (inr false) else
      let! v := load_done ap_wrote flag in ret (if negb (v =? 0) then inr true else inl tt)) tt s1 = ((Ok up : outcome unit bool), s') /\ waited flag (limit + 4) [] s s' /\
    if up : bool then answers (ab_sent s) (ab_reads s) limit else ~ answers (ab_sent s) (ab_reads s) limit /\ flag_clear (pg_words (ab_paging s'))).
  { intros stop Hstop. pose proof (turns_len limit ltac:(lia)) as Hf.
    destruct (flag_loop stop (ab_reads s) limit Hstop (wait_turns limit) s1) as (up & s2 & Hr & Hw2 & Hup);
      [exact Hc|change (ab_reads s1) with (S (ab_reads s)); lia|lia|change (ab_reads s1) with (S (ab_reads s)); lia|change (ab_reads s1) with (S (ab_reads s)); lia|].
    exists up, s2. split; [exact Hr|]. split; [rewrite Hf in Hw2; apply (waited_le _ _ _ _ _ _ (waited_trans _ _ _ _ _ _ _ _ Hw Hw2)); lia|].
    change (ab_reads s1) with (S (ab_reads s)) in Hup. change (ab_sent s1) with (ab_sent s) in Hup. destruct up.
    - destruct Hup as (n & Hn & Hin & Hwn). exists n. split; [exact Hn|]. split; [|exact Hwn]. intros i Hi. apply Hin. lia.
    - destruct Hup as [Hc2 Hno]. split; [|exact Hc2]. intros (n & Hn & Hin & Hwn). rewrite Hno in Hwn; [done|exact Hn|]. intros i Hi. apply Hin. lia. }
  unfold wait_for_ap_done. rewrite (Z.max_l limit 1) by lia. destruct clock_ready; cbn [negb]; unfold bind at 1; rewrite Hread.
  - exact (Hgen (fun now => negb (now <? sat_add U64 (reading (ab_reads s)) limit)) (fun now => stop_deadline _ limit now)).
  - exact (Hgen (fun now => negb (wrap_sub U64 now (reading (ab_reads s)) <? limit)) (fun now => stop_wrap _ limit now H0)).
Qed.
Lemma busy_wait_run limit s : 1 <= limit -> Z.of_nat (ab_reads s) + (limit + 4) <= horizon ->
  exists s', busy_wait_ns clock_ready reading limit s = (Ok tt, s') /\ waited flag (limit + 4) [] s s' /\ kept s s'.
Proof.
  intros Hl Hh. destruct (Hclock (ab_reads s)) as [H0 H1]; [lia|]. destruct (read_clock_run s) as [Hread Hw]. set (s1 := upd ab_reads S s) in *.
  assert (Hgen : forall stop : Z -> bool, (forall now, reading (ab_reads s) + limit <= now < U64 -> stop now = true) ->
    exists s', loop (wait_turns limit) (fun _ : unit => let! now := read_clock reading in if stop now then ret (inr tt) else ret (inl tt)) tt s1 = ((Ok tt : outcome unit unit), s') /\
      waited flag (limit + 4) [] s s' /\ kept s s').
  { intros stop Hstop. pose proof (turns_len limit ltac:(lia)) as Hf.
    destruct (busy_loop stop _ Hstop (wait_turns limit) s1) as (s2 & Hr & Hw2 & Hk2); [lia|change (ab_reads s1) with (S (ab_reads s)); lia|change (ab_reads s1) with (S (ab_reads s)); lia|].
    exists s2. split; [exact Hr|]. split; [rewrite Hf in Hw2; apply (waited_le _ _ _ _ _ _ (waited_trans _ _ _ _ _ _ _ _ Hw Hw2)); lia|exact Hk2]. }
  unfold busy_wait_ns. rewrite (Z.max_l limit 1) by lia. destruct clock_ready; cbn [negb]; unfold bind at 1; rewrite Hread.
  - exact (Hgen (fun now => negb (sat_sub now (reading (ab_reads s)) <? limit)) (fun now => past_elapsed _ limit now)).
  - exact (Hgen (fun now => negb (wrap_sub U64 now (reading (ab_reads s)) <? limit)) (fun now => past_wrap _ limit now H0 ltac:(lia))).
Qed.

(** [m] returns within [k] readings of the clock, and its result, the interrupts it sends and the state it leaves satisfy [P]. *)
Definition runs {A} (k : Z) (m : M ApBoot unit A) (s : ApBoot) (P : A -> list Sent -> ApBoot -> Prop) : Prop :=
  exists a s' l, m s = (Ok a, s') /\ waited flag k l s s' /\ P a l s'.
Lemma runs_ret {A} (a : A) s (P : A -> list Sent -> ApBoot -> Prop) : P a [] s -> runs 0 (ret a) s P.
Proof. intros H. exists a, s, []. split; [done|]. split; [apply waited_refl|done]. Qed.
Lemma runs_bind {A C} k1 k2 (m : M ApBoot unit A) (f : A -> M ApBoot unit C) s P Q : runs k1 m s P ->
  (forall a js s', P a js s' -> Z.of_nat (ab_reads s) <= Z.of_nat (ab_reads s') <= Z.of_nat (ab_reads s) + k1 -> runs k2 (f a) s' (fun c ks s'' => Q c (js ++ ks) s'')) -> runs (k1 + k2) (bind m f) s Q.
Proof.
  intros (a & s1 & l1 & Hm & Hw1 & HP) Hf. destruct (Hf a _ s1 HP) as (c & s2 & l2 & Hc & Hw2 & HQ); [apply (wd_reads _ _ _ _ _ Hw1)|].
  exists c, s2, (l1 ++ l2). unfold bind. rewrite Hm. split; [done|]. split; [exact (waited_trans _ _ _ _ _ _ _ _ Hw1 Hw2)|done].
Qed.
Lemma runs_le {A} k k' (m : M ApBoot unit A) s P : runs k m s P -> k <= k' -> runs k' m s P.
Proof. intros (a & s1 & l1 & Hm & Hw1 & HP) Hk. exists a, s1, l1. split; [done|]. split; [exact (waited_le _ _ _ _ _ _ Hw1 Hk)|done]. Qed.
Lemma print_runs line s : runs 0 (ap_print line) s (fun _ js s' => js = [] /\ kept s s').
Proof. eexists _, _, []. split; [reflexivity|]. split; [|done]. constructor; try done; [by rewrite app_nil_r|cbn; lia]. Qed.
Lemma send_runs i s : runs 0 (send_ipi i) s (fun _ js s' => js = [mkSent i (pg_words (ab_paging s))] /\ pg_words (ab_paging s') = pg_words (ab_paging s) /\ ab_sent s' = ab_sent s ++ js).
Proof. eexists tt, _, [mkSent i (pg_words (ab_paging s))]. split; [reflexivity|]. split; [|done]. constructor; try done; [by constructor|cbn; lia]. Qed.
Lemma busy_runs limit s : 1 <= limit -> Z.of_nat (ab_reads s) + (limit + 4) <= horizon -> runs (limit + 4) (busy_wait_ns clock_ready reading limit) s (fun _ js s' => js = [] /\ kept s s').
Proof. intros H1 H2. destruct (busy_wait_run limit s H1 H2) as (s' & H & Hw & Hk). exists tt, s', []. by split. Qed.
Lemma wait_runs limit s : 1 <= limit -> flag_clear (pg_words (ab_paging s)) -> Z.of_nat (ab_reads s) + (limit + 4) <= horizon ->
  runs (limit + 4) (wait_for_ap_done clock_ready reading ap_wrote flag limit) s (fun up js s' => js = [] /\ ab_sent s' = ab_sent s /\
    if up : bool then answers (ab_sent s) (ab_reads s) limit else ~ answers (ab_sent s) (ab_reads s) limit /\ flag_clear (pg_words (ab_paging s'))).
Proof.
  intros H1 Hc H2. destruct (wait_for_ap_done_run limit s H1 Hc H2) as (up & s' & H & Hw & Hup). exists up, s', []. split; [done|]. split; [done|]. split; [done|].
  split; [|done]. rewrite (wd_sent _ _ _ _ _ Hw). by rewrite app_nil_r.
Qed.

Lemma runs_print {C} k line (f : M ApBoot unit C) s Q : (forall s', kept s s' -> Z.of_nat (ab_reads s) <= Z.of_nat (ab_reads s') <= Z.of_nat (ab_reads s) -> runs k f s' Q) -> runs k (do! ap_print line in f) s Q.
Proof. intros Hf. apply (runs_bind 0 k _ _ _ _ _ (print_runs line s)). intros [] js s' [-> Hk] Hr. apply Hf; [done|lia]. Qed.
Lemma runs_send {C} k i (f : M ApBoot unit C) s Q : (forall s', pg_words (ab_paging s') = pg_words (ab_paging s) -> ab_sent s' = ab_sent s ++ [mkSent i (pg_words (ab_paging s))] ->
    Z.of_nat (ab_reads s) <= Z.of_nat (ab_reads s') <= Z.of_nat (ab_reads s) -> runs k f s' (fun c js s'' => Q c (mkSent i (pg_words (ab_paging s)) :: js) s'')) ->
  runs k (do! send_ipi i in f) s Q.
Proof. intros Hf. apply (runs_bind 0 k _ _ _ _ _ (send_runs i s)). intros [] js s' (-> & Hm & Hs) Hr. apply Hf; [done|done|lia]. Qed.
Lemma runs_busy {C} k limit (f : M ApBoot unit C) s Q : 1 <= limit -> Z.of_nat (ab_reads s) + (limit + 4) <= horizon ->
  (forall s', kept s s' -> Z.of_nat (ab_reads s) <= Z.of_nat (ab_reads s') <= Z.of_nat (ab_reads s) + (limit + 4) -> runs k f s' Q) -> runs (limit + 4 + k) (do! busy_wait_ns clock_ready reading limit in f) s Q.
Proof. intros H1 H2 Hf. apply (runs_bind _ k _ _ _ _ _ (busy_runs limit s H1 H2)). intros [] js s' [-> Hk] Hr. by apply Hf. Qed.

(** The interrupts of one processor: the second start-up only when the first brought no answer. *)
Definition start_sequence (apic : Z) (second : bool) : list Ipi :=
  [InitIpi apic; InitDeassert apic; StartupIpi apic 8] ++ if second then [StartupIpi apic 8] else [].
Definition READS_PER_CPU : Z := 80000016.
End waits.

Section starts.
Context (clock_ready : bool) (reading : nat -> Z) (ap_wrote : list Sent -> nat -> bool) (horizon : Z) (Hclock : clock_moves reading horizon).

(** What the polls decided, for the interrupts [l] sent after [before] between the readings
    [r] and [r']: a second start-up interrupt is sent exactly when the processor did not
    store its flag within ten million after the first, and it is [up] exactly when it stored
    it then or within fifty million after the second. *)
Definition polled (r r' : nat) (before l : list Sent) (second up : bool) : Prop := exists r1 r2, (r <= r1 <= r')%nat /\ (second = true -> (r1 <= r2 <= r')%nat) /\
  (second = true <-> ~ answers reading ap_wrote (before ++ take 3 l) r1 10000000) /\
  (up = true <-> answers reading ap_wrote (before ++ take 3 l) r1 10000000 \/ (second = true /\ answers reading ap_wrote (before ++ l) r2 50000000)).

Lemma init_sipi_sipi_runs trampoline_virt cpu s : let flag := trampoline_virt + MAILBOX_DONE_FLAG in
  Z.of_nat (ab_reads s) + READS_PER_CPU <= horizon -> flag_clear flag (pg_words (ab_paging s)) ->
  runs flag READS_PER_CPU (init_sipi_sipi clock_ready reading ap_wrote trampoline_virt cpu) s
    (fun up l s' => exists second, sent_ipi <$> l = start_sequence (apic_id cpu) second /\ Forall (fun x => flag_clear flag (sent_memory x)) l /\
      polled (ab_reads s) (ab_reads s') (ab_sent s) l second up).
Proof.
  intros flag Hh Hc. unfold READS_PER_CPU in *. unfold init_sipi_sipi. fold flag.
  apply (runs_le _ (10000000 + 4 + (10000000 + 4 + (10000000 + 4 + (50000000 + 4))))); [|lia].
  apply runs_print. intros s1 [M1 S1] H1. apply runs_print. intros s2 [M2 S2] H2. apply runs_send. intros s3 M3 S3 H3.
  apply (runs_busy clock_ready reading horizon _ Hclock); [lia|lia|]. intros s4 [M4 S4] H4. apply runs_print. intros s5 [M5 S5] H5. apply runs_send. intros s6 M6 S6 H6.
  apply (runs_busy clock_ready reading horizon _ Hclock); [lia|lia|]. intros s7 [M7 S7] H7. apply runs_print. intros s8 [M8 S8] H8. apply runs_print. intros s9 [M9 S9] H9. apply runs_send. intros s10 M10 S10 H10.
  rewrite M1 in *. rewrite M2 in *. rewrite M3 in *. rewrite M4 in *. rewrite M5 in *. rewrite M6 in *. rewrite M7 in *. rewrite M8 in *. rewrite M9 in *. set (m := pg_words (ab_paging s)) in *.
  change (cast U8 (Z.shiftr TRAMPOLINE_PHYSICAL_BASE 12)) with 8 in *.
  rewrite S9, S8, S7, S6, S5, S4, S3, S2, S1, <- !app_assoc in S10. cbn [app] in S10.
  assert (Hclear : forall l, Forall (fun x => flag_clear flag (sent_memory x)) l -> Forall (fun x => flag_clear flag (sent_memory x))
    (mkSent (InitIpi (apic_id cpu)) m :: mkSent (InitDeassert (apic_id cpu)) m :: mkSent (StartupIpi (apic_id cpu) 8) m :: l)) by (intros l Hl; by repeat constructor).
  eapply runs_bind; [apply (wait_runs clock_ready reading ap_wrote horizon _ Hclock); [lia|by rewrite M10|lia]|]. intros up js s11 (-> & S11 & Hup) H11. rewrite S10 in Hup. destruct up; cbn [negb app].
  - eapply runs_le; [apply runs_ret|lia]. exists false. split; [done|]. split; [by apply Hclear|]. exists (ab_reads s10), 0%nat. split; [lia|]. split; [done|]. cbn [take].
    split; [split; [done|intros Hn; by destruct (Hn Hup)]|]. split; [by left|done].
  - destruct Hup as [Hno Hc11]. apply runs_print. intros s12 [M12 S12] H12. apply runs_print. intros s13 [M13 S13] H13. apply runs_send. intros s14 M14 S14 H14.
    rewrite M12 in *. rewrite M13 in *. rewrite S13, S12, S11, S10, <- !app_assoc in S14. cbn [app] in S14.
    destruct (wait_runs clock_ready reading ap_wrote horizon flag Hclock 50000000 s14) as (up & s15 & l & Hr & Hw & Hl & S15 & Hup); [lia|by rewrite M14|lia|]. rewrite S14 in Hup. subst l.
    exists up, s15, []. split; [exact Hr|]. split; [exact Hw|]. exists true. split; [done|]. split; [apply Hclear; by repeat constructor|]. exists (ab_reads s10), (ab_reads s14).
    pose proof (wd_reads _ _ _ _ _ Hw) as H15. split; [lia|]. split; [lia|]. cbn [take]. split; [done|]. destruct up; [split; [|done]; intros _; right; done|]. destruct Hup as [Hno2 _].
    split; [done|]. intros [Ha|[_ Ha]]; [by destruct (Hno Ha)|by destruct (Hno2 Ha)].
Qed.
End starts.

(** ** Memory *)
Lemma load_copy1 m a b x : 0 <= b < 256 -> load_byte (copy_to m a [b]) x = if decide (x = a) then b else load_byte m x.
Proof. intros Hb. cbn [copy_to]. by apply load_store_byte. Qed.
Lemma cast_u8 v : 0 <= cast U8 v < 256.
Proof. unfold cast. apply Z.mod_pos_bound. lia. Qed.

Section memory.
Context (blob : list Z) (rust_entry tv : Z) (Hblob : byte_list blob).
(** The bytes of the trampoline page in front of the mailbox, as patched. *)
Definition trampoline_byte (i : Z) : Z :=
  if decide (0x2f2 <= i < 0x2f6) then nth (Z.to_nat (i - 0x2f2)) (le_bytes 4 0x8300) 0
  else if decide (i = 0x30b \/ i = 0x313) then 0x80
  else if decide (i = 0x30a \/ i = 0x30c \/ i = 0x30f \/ i = 0x312 \/ i = 0x314 \/ i = 0x317) then 0
  else nth (Z.to_nat i) blob 0.
Definition trampoline_ready (m : gmap Z Z) : Prop := forall i, 0 <= i < Z.min (len blob) MAILBOX_OFFSET -> load_byte m (tv + i) = trampoline_byte i.
(** The mailbox, its done flag clear. *)
Definition mailbox (index stack_virt cr3_phys percpu_virt : Z) : list Z :=
  le_bytes 4 0 ++ le_bytes 4 (cast U32 index) ++ le_bytes 8 stack_virt ++ le_bytes 8 cr3_phys ++ le_bytes 8 rust_entry ++ le_bytes 8 percpu_virt.

Lemma words_store f s : pg_words (ab_paging (upd ab_paging (upd pg_words f) s)) = f (pg_words (ab_paging s)).
Proof. reflexivity. Qed.
Lemma words_print f s : pg_words (ab_paging (upd ab_out f s)) = pg_words (ab_paging s).
Proof. reflexivity. Qed.
Lemma patch_trampoline_run s : exists s', patch_trampoline tv s = (Ok tt, s') /\ pg_frames (ab_paging s') = pg_frames (ab_paging s) /\
  ab_sent s' = ab_sent s /\ ab_marked s' = ab_marked s /\ ab_reads s' = ab_reads s /\
  (holds (pg_words (ab_paging s)) tv blob -> trampoline_ready (pg_words (ab_paging s'))).
Proof.
  eexists. split; [reflexivity|]. do 4 (split; [reflexivity|]). intros Hm i Hi. unfold MAILBOX_OFFSET in Hi.
  assert (Hlook : load_byte (pg_words (ab_paging s)) (tv + i) = nth (Z.to_nat i) blob 0).
  { pose proof (nth_bytes_from (pg_words (ab_paging s)) tv (length blob) i) as Hn. unfold holds in Hm. rewrite Hm in Hn. rewrite Hn; [done|unfold len in Hi; lia]. }
  rewrite !words_store, words_print, !load_copy1 by apply cast_u8. rewrite load_copy by apply le_bytes_byte. rewrite Hlook, le_bytes_len.
  unfold trampoline_byte, GDTR_BASE_OFFSET, GDT_32BIT_CODE_DESC_OFFSET, GDT_32BIT_DATA_DESC_OFFSET.
  replace (tv + i - (tv + 754)) with (i - 0x2f2) by lia. repeat case_decide; first [reflexivity | exfalso; lia].
Qed.

Lemma mailbox_filled index stack_virt cr3_phys percpu_virt s : exists s', fill_mailbox rust_entry tv index stack_virt cr3_phys percpu_virt s = (Ok tt, s') /\
  pg_frames (ab_paging s') = pg_frames (ab_paging s) /\ ab_sent s' = ab_sent s /\ ab_marked s' = ab_marked s /\ ab_reads s' = ab_reads s /\
  holds (pg_words (ab_paging s')) (tv + MAILBOX_OFFSET) (mailbox index stack_virt cr3_phys percpu_virt) /\
  (forall x, x < tv + MAILBOX_OFFSET -> load_byte (pg_words (ab_paging s')) x = load_byte (pg_words (ab_paging s)) x).
Proof.
  eexists. split; [reflexivity|]. do 4 (split; [reflexivity|]). rewrite !words_store.
  unfold MAILBOX_CPU_INDEX, MAILBOX_OFFSET, MAILBOX_STACK_PTR, MAILBOX_PAGE_TABLE, MAILBOX_RUST_ENTRY, MAILBOX_PERCPU_BASE.
  change (0x384 - 0x380) with 4. change (0x388 - 0x380) with 8. change (0x390 - 0x380) with 16. change (0x398 - 0x380) with 24. change (0x3A0 - 0x380) with 32.
  split; [|intros x Hx; rewrite !load_copy, !le_bytes_len by apply le_bytes_byte; rewrite !decide_False by lia; reflexivity].
  unfold mailbox. rewrite !holds_app, !le_bytes_len.
  replace (tv + 896 + Z.of_nat 4) with (tv + 896 + 4) by lia. replace (tv + 896 + 4 + Z.of_nat 4) with (tv + 896 + 8) by lia. replace (tv + 896 + 8 + Z.of_nat 8) with (tv + 896 + 16) by lia.
  replace (tv + 896 + 16 + Z.of_nat 8) with (tv + 896 + 24) by lia. replace (tv + 896 + 24 + Z.of_nat 8) with (tv + 896 + 32) by lia.
  repeat split; repeat first [apply holds_copy; apply le_bytes_byte | apply holds_copy_away; [apply le_bytes_byte|rewrite !le_bytes_len; lia|]].
Qed.
End memory.

(** ** The processors one after the other *)
(** What became of a processor: no memory or no area for it, or started on the stack
    frame [frame] with one or two start-up interrupts, and online or not. *)
Inductive ApOutcome : Type := ApSkipped | ApStarted (frame percpu_virt : Z) (second up : bool).
Definition came_up (o : ApOutcome) : bool := match o with ApStarted _ _ _ up => up | ApSkipped => false end.
Definition stacks (os : list ApOutcome) : list Z := os ≫= (fun o => match o with ApStarted f _ _ _ => [f] | ApSkipped => [] end).

Section bring_up.
Context {ME : Type} (map_virtual_page : Z -> Z -> Z -> Z -> M Paging ME unit) (map_error_debug : ME -> list Z).
Context (blob : list Z) (rust_entry bsp_cr3 : Z) (percpu_state : option PerCpuState).
Context (clock_ready : bool) (reading : nat -> Z) (ap_wrote : list Sent -> nat -> bool) (horizon : Z) (Hclock : clock_moves reading horizon).
Context (map : list MemoryMapEntry) (hhdm_offset tv cr3_phys : Z).
Let mem (s : ApBoot) : gmap Z Z := pg_words (ab_paging s).
Let frames (s : ApBoot) : FrameAllocator := pg_frames (ab_paging s).

(** The interrupts [l] of processor [cpu], sent after [before], each while the mailbox held
    its values and a clear flag; it counts as online when it stored the flag in time. *)
Definition sent_for (r r' : nat) (before : list Sent) (cpu : CpuTopologyEntry) (o : ApOutcome) (l : list Sent) : Prop :=
  match o with
  | ApSkipped => l = []
  | ApStarted f percpu_virt second up =>
      sent_ipi <$> l = start_sequence (apic_id cpu) second /\ polled reading ap_wrote r r' before l second up /\
      entry_virtual_base percpu_state (cpu_index cpu) = Some percpu_virt /\ f mod 4096 = 0 /\
      Forall (fun x => holds (sent_memory x) (tv + MAILBOX_OFFSET) (mailbox rust_entry (Z.of_nat (cpu_index cpu)) (hhdm_offset + f + 4096) cr3_phys percpu_virt) /\
                       trampoline_ready blob tv (sent_memory x)) l
  end.
Definition shrinks (a a' : FrameAllocator) : Prop := forall x, free_at a' x -> free_at a x.
Record one_done (cpu : CpuTopologyEntry) (o : ApOutcome) (l : list Sent) (s s' : ApBoot) : Prop := {
  od_alloc : exists g, alloc_ok map g (frames s');
  od_ready : trampoline_ready blob tv (mem s');
  od_reads : Z.of_nat (ab_reads s) <= Z.of_nat (ab_reads s') <= Z.of_nat (ab_reads s) + READS_PER_CPU;
  od_sent : ab_sent s' = ab_sent s ++ l;
  od_marked : ab_marked s' = ab_marked s ++ (if came_up o then [cpu_index cpu] else []);
  od_for : sent_for (ab_reads s) (ab_reads s') (ab_sent s) cpu o l;
  od_shrinks : shrinks (frames s) (frames s');
  od_stack : Forall (fun f => free_at (frames s) f /\ ~ free_at (frames s') f) (stacks [o]) }.

(** The direct map has an address behind every free frame. *)
Definition stack_room (a : FrameAllocator) : Prop := forall x, free_at a x -> hhdm_offset + x + 4096 < U64.
Lemma room_kept a a' : stack_room a -> shrinks a a' -> stack_room a'.
Proof. intros H Hs x Hx. by apply H, Hs. Qed.
Lemma agree_ready flag m m' : flag = tv + MAILBOX_DONE_FLAG -> agree flag m m' -> trampoline_ready blob tv m -> trampoline_ready blob tv m'.
Proof. intros -> Ha Hr i Hi. rewrite Ha; [by apply Hr|]. unfold MAILBOX_DONE_FLAG, MAILBOX_OFFSET in *. lia. Qed.

Lemma skipped_done cpu s s' g : alloc_ok map g (frames s') -> trampoline_ready blob tv (mem s) -> mem s' = mem s -> ab_reads s' = ab_reads s -> ab_sent s' = ab_sent s ->
  ab_marked s' = ab_marked s -> shrinks (frames s) (frames s') -> one_done cpu ApSkipped [] s s'.
Proof.
  intros Ha Hr Hm Hn Hs Hk Hf. constructor; [by exists g|by rewrite Hm|rewrite Hn; unfold READS_PER_CPU; lia|by rewrite app_nil_r|by rewrite app_nil_r|done|done|constructor].
Qed.
Lemma bring_up_run cpu s g : alloc_ok map g (frames s) -> stack_room (frames s) -> trampoline_ready blob tv (mem s) -> Z.of_nat (ab_reads s) + READS_PER_CPU <= horizon ->
  exists o l s', bring_up rust_entry percpu_state clock_ready reading ap_wrote hhdm_offset tv cr3_phys cpu s = (Ok (came_up o), s') /\ one_done cpu o l s s'.
Proof.
  intros [Hinv Hlim] Hroom Hready Hh. unfold bring_up. unfold bind at 1, ap_print at 1, modify at 1. set (s1 := upd ab_out _ s). unfold bind at 1, zoom.
  change (pg_frames (ab_paging s1)) with (frames s). pose proof (allocate_free unit map (frames s) g Hinv) as Ha.
  destruct (allocate (frames s)) as [[[f|]|e| |] a']; try contradiction.
  2: { subst a'. exists ApSkipped, []. eexists. split; [reflexivity|]. apply (skipped_done _ _ _ g); [by split|exact Hready|reflexivity|reflexivity|reflexivity|reflexivity|intros x Hx; exact Hx]. }
  destruct Ha as (Hinv' & Hal & Hlow & Hfree & Hshrink). unfold PAGE_SIZE, BOOTSTRAP_RESERVED_END in *.
  set (s2 := upd ab_paging (set_field pg_frames a') s1). set (fa := start_address f) in *.
  pose proof (Hroom fa (proj1 (Hfree fa ltac:(lia)))) as Hf.
  assert (Halloc' : exists g', alloc_ok map g' a') by (eexists; split; [exact Hinv'|]; intros x Hx; by apply Hlim, Hshrink).
  rewrite (add_ok U64 hhdm_offset) by lia. unfold bind at 1, lift at 1. rewrite (add_ok U64 (hhdm_offset + fa)) by lia. unfold bind at 1, lift at 1.
  destruct (entry_virtual_base percpu_state (cpu_index cpu)) as [pv|] eqn:Epv.
  2: { exists ApSkipped, []. eexists. split; [reflexivity|]. destruct Halloc' as [g' Hg']. apply (skipped_done _ _ _ g'); [exact Hg'|exact Hready|reflexivity|reflexivity|reflexivity|reflexivity|exact Hshrink]. }
  unfold bind at 1, ap_print at 1, modify at 1. set (s3 := upd ab_out _ s2). unfold bind at 1.
  destruct (mailbox_filled rust_entry tv (Z.of_nat (cpu_index cpu)) (hhdm_offset + fa + 4096) cr3_phys pv s3) as (s4 & -> & Hf4 & Hs4 & Hk4 & Hn4 & Hbox & Hlow4).
  unfold bind at 1. destruct (init_sipi_sipi_runs clock_ready reading ap_wrote horizon Hclock tv cpu s4) as (up & s5 & l & -> & Hw & second & Hl & Hclear & Hpoll);
    [rewrite Hn4; exact Hh|by apply holds_app in Hbox as [? _]|].
  assert (Hready4 : trampoline_ready blob tv (mem s4)).
  { intros i Hi. unfold mem. rewrite Hlow4 by lia. by apply Hready. }
  exists (ApStarted fa pv second up), l. cbn [came_up].
  match goal with |- exists s', ?run = _ /\ _ => assert (Hend : exists s', run = (Ok up, s') /\ ab_paging s' = ab_paging s5 /\ ab_sent s' = ab_sent s5 /\ ab_reads s' = ab_reads s5 /\
    ab_marked s' = ab_marked s5 ++ (if up then [cpu_index cpu] else [])) end.
  { destruct up; eexists; (split; [reflexivity|]); repeat split; cbn; by rewrite ?app_nil_r. }
  destruct Hend as (s' & Hrun & Hp' & Hs' & Hn' & Hk'). exists s'. split; [exact Hrun|].
  assert (Hs4' : ab_sent s4 = ab_sent s) by (by rewrite Hs4). assert (Hn4' : ab_reads s4 = ab_reads s) by (by rewrite Hn4).
  destruct Hw as [Wf Ws Wseen Wk Wn Wm]. constructor; unfold frames, mem; rewrite ?Hp'.
  - rewrite Wf, Hf4. exact Halloc'.
  - by apply (agree_ready _ _ _ eq_refl Wm).
  - rewrite Hn'. rewrite Hn4 in Wn. change (ab_reads s3) with (ab_reads s) in Wn. lia.
  - rewrite Hs', Ws, Hs4. reflexivity.
  - rewrite Hk', Wk, Hk4. reflexivity.
  - rewrite Hn', <- Hs4', <- Hn4'. split; [exact Hl|]. split; [exact Hpoll|]. split; [exact Epv|]. split; [exact Hal|]. eapply Forall_impl; [exact (proj2 (Forall_and _ _) (conj Wseen Hclear))|]. intros x [Hx Hcx]. cbn beta. split.
    + apply holds_app. split; [exact Hcx|]. apply holds_app in Hbox as [_ Hbox]. apply (agree_holds _ _ _ _ _ Hx); [|exact Hbox]. rewrite le_bytes_len. unfold MAILBOX_DONE_FLAG, MAILBOX_OFFSET. lia.
    + by apply (agree_ready _ _ _ eq_refl Hx).
  - rewrite Wf, Hf4. exact Hshrink.
  - rewrite Wf, Hf4. constructor; [apply (Hfree fa); lia|constructor].
Qed.

Definition targets (cs : list CpuTopologyEntry) : list CpuTopologyEntry := filter (fun c => bringup_target c = true) cs.
Definition ups (os : list ApOutcome) : Z := len (List.filter came_up os).
Definition marked_of (ts : list CpuTopologyEntry) (os : list ApOutcome) : list nat :=
  concat (zip_with (fun cpu o => if came_up o then [cpu_index cpu] else []) ts os).
(** Every target in the order of the topology. *)
Fixpoint sent_each (r : nat) (before : list Sent) (ts : list CpuTopologyEntry) (os : list ApOutcome) (ls : list (list Sent)) : Prop :=
  match ts, os, ls with
  | [], [], [] => True
  | cpu :: ts', o :: os', l :: ls' => exists r', (r <= r')%nat /\ sent_for r r' before cpu o l /\ sent_each r' (before ++ l) ts' os' ls'
  | _, _, _ => False
  end.
(** Each on a stack of its own. *)
Record all_done (ts : list CpuTopologyEntry) (os : list ApOutcome) (ls : list (list Sent)) (s s' : ApBoot) : Prop := {
  ad_for : sent_each (ab_reads s) (ab_sent s) ts os ls;
  ad_sent : ab_sent s' = ab_sent s ++ concat ls;
  ad_marked : ab_marked s' = ab_marked s ++ marked_of ts os;
  ad_distinct : NoDup (stacks os);
  ad_free : Forall (free_at (frames s)) (stacks os) }.

Lemma all_done_cons cpu o l ts os ls s s1 s' : one_done cpu o l s s1 -> all_done ts os ls s1 s' -> all_done (cpu :: ts) (o :: os) (l :: ls) s s'.
Proof.
  intros [Ha Hr Hn Hs Hk Hf Hsh Hst] [Af As Ak Ad Afr].
  assert (Hold : Forall (free_at (frames s)) (stacks os)) by (eapply Forall_impl; [exact Afr|]; intros f Hx; by apply Hsh).
  constructor.
  - exists (ab_reads s1). split; [lia|]. split; [exact Hf|]. by rewrite <- Hs.
  - rewrite As, Hs. cbn [concat]. by rewrite app_assoc.
  - rewrite Ak, Hk. unfold marked_of. cbn [zip_with concat]. by rewrite app_assoc.
  - destruct o as [|f pv second up]; [exact Ad|]. cbn in Hst. apply Forall_cons in Hst as [[_ Hnew] _]. change (NoDup (f :: stacks os)). constructor; [|exact Ad].
    intros Hin. rewrite list.Forall_forall in Afr. by apply Hnew, Afr.
  - destruct o as [|f pv second up]; [exact Hold|]. cbn in Hst. apply Forall_cons in Hst as [[Hnew _] _]. change (Forall (free_at (frames s)) (f :: stacks os)). by constructor.
Qed.

Lemma bring_up_all_run cs : forall online failed s g, alloc_ok map g (frames s) -> stack_room (frames s) -> trampoline_ready blob tv (mem s) ->
  Z.of_nat (ab_reads s) + len (targets cs) * READS_PER_CPU <= horizon ->
  exists os ls s', bring_up_all rust_entry percpu_state clock_ready reading ap_wrote hhdm_offset tv cr3_phys cs online failed s =
      (Ok (online + ups os, failed + (len (targets cs) - ups os)), s') /\ all_done (targets cs) os ls s s'.
Proof.
  induction cs as [|cpu cs IH]; intros online failed s g Ha Hroom Hr Hh; cbn [bring_up_all].
  { exists [], [], s. unfold targets, ups. rewrite filter_nil. change (len []) with 0. rewrite !Z.add_0_r. split; [done|].
    constructor; try constructor; by rewrite app_nil_r. }
  assert (Hskip : is_bsp cpu || negb (enabled cpu) = negb (bringup_target cpu)) by (unfold bringup_target; by destruct (is_bsp cpu), (enabled cpu)).
  rewrite Hskip. destruct (bringup_target cpu) eqn:Et; cbn [negb].
  2: { unfold targets in *. rewrite filter_cons_False in * by (by rewrite Et). by apply (IH online failed s g). }
  unfold targets in *. rewrite filter_cons_True in * by done. rewrite len_cons in *. fold (targets cs) in *. pose proof (len_nonneg (targets cs)) as Hts. unfold READS_PER_CPU in Hh.
  destruct (bring_up_run cpu s g Ha Hroom Hr) as (o & l & s1 & Hrun & Hone); [unfold READS_PER_CPU; lia|]. unfold bind at 1. rewrite Hrun.
  destruct (od_alloc _ _ _ _ _ Hone) as [g1 Hg1]. pose proof (od_reads _ _ _ _ _ Hone) as Hn1. unfold READS_PER_CPU in Hn1.
  assert (Hh1 : Z.of_nat (ab_reads s1) + len (targets cs) * READS_PER_CPU <= horizon) by (unfold READS_PER_CPU; lia).
  destruct (came_up o) eqn:Eo.
  - destruct (IH (online + 1) failed s1 g1 Hg1 (room_kept _ _ Hroom (od_shrinks _ _ _ _ _ Hone)) (od_ready _ _ _ _ _ Hone) Hh1) as (os & ls & s' & -> & Hall).
    exists (o :: os), (l :: ls), s'. split; [|by apply (all_done_cons _ _ _ _ _ _ _ s1)]. unfold ups. cbn [List.filter]. rewrite Eo, len_cons. do 2 f_equal. f_equal; lia.
  - destruct (IH online (failed + 1) s1 g1 Hg1 (room_kept _ _ Hroom (od_shrinks _ _ _ _ _ Hone)) (od_ready _ _ _ _ _ Hone) Hh1) as (os & ls & s' & -> & Hall).
    exists (o :: os), (l :: ls), s'. split; [|by apply (all_done_cons _ _ _ _ _ _ _ s1)]. unfold ups. cbn [List.filter]. rewrite Eo. do 2 f_equal. f_equal; lia.
Qed.
End bring_up.

(** ** The whole bring-up *)
Section whole.
Context {ME : Type} (map_virtual_page : Z -> Z -> Z -> Z -> M Paging ME unit) (map_error_debug : ME -> list Z).
Context (blob : list Z) (rust_entry bsp_cr3 : Z) (percpu_state : option PerCpuState).
Context (clock_ready : bool) (reading : nat -> Z) (ap_wrote : list Sent -> nat -> bool) (horizon : Z).
Context (map : list MemoryMapEntry) (hhdm_offset : Z).
(** The mapping of the trampoline page returns, and takes frames only through the allocator. *)
Definition mapping_returns : Prop := forall p g, alloc_ok map g (pg_frames p) ->
  match map_virtual_page hhdm_offset TRAMPOLINE_PHYSICAL_BASE TRAMPOLINE_PHYSICAL_BASE 0 p with
  | (Ok _, p') => (exists g', alloc_ok map g' (pg_frames p')) /\ shrinks (pg_frames p) (pg_frames p')
  | (Err _, _) => True
  | _ => False
  end.

End whole.

Definition two_percpu : option PerCpuState := Some (mkPerCpuState 0 4 [mkPerCpu 0 4 0 true true true 0x200000 0x200000 4096; mkPerCpu 1 0 1 false false true 0x201000 0x201000 4096]).
Definition two_boot : ApBoot := mkAp (mkPaging demo_frames ∅) [] [] [] 0.
Definition two_topology : SmpTopology := mkSmp 4 0 [mkCpu 0 0 4 true false false true true; mkCpu 1 1 0 true false false false false].
