(* ===== verification/Boot.v ===== *)
(** * Kernel entry: [kernel/src/main.rs], [_start]

    The stages of [_start] that set the kernel up, in their order, each made of the
    operations of the components: the handshake with the boot loader and memory, the
    processors that ACPI lists, the file systems, the consoles, and the display. A stage
    ends with a value, or with [Halted] where the source calls [halt()].

    The text of the log is kept as a list of styled lines; Log.v and Tty.v show what the
    consoles do with a line. The reports of the processor and the stages after the display
    (init, scheduler, system call probes) are in Late.v.
    [m] and [r] are the memory and the request section as the boot loader leaves them. *)
From stdpp Require Import base list numbers option strings gmap.
From Stdlib Require Import ZArith Lia Bool.
From S2P Require Import Prelude Paths Text Machine Frame Heap Vmm Paging Memory Exec Initrd Fat Sched Pseudo Vfs Acpi Power Fb Serial Tty InitExec Bga Limine.

Record Boot : Type := mkBoot {
  bo_lines : list (TtyStyle * list Z); bo_paging : Paging; bo_con : Con; bo_smp : option SmpTopology; bo_power : PowerState;
  bo_mounts : Mounts; bo_ports : list (Z * Z) }.
#[export] Instance Boot_eta : RecordEta Boot := fun b =>
  mkBoot (bo_lines b) (bo_paging b) (bo_con b) (bo_smp b) (bo_power b) (bo_mounts b) (bo_ports b).
(** [halt()] *)
Inductive BootEnd : Type := Halted.

Definition kprintln_style (style : TtyStyle) (text : list Z) : M Boot BootEnd unit := modify (upd bo_lines (fun l => l ++ [(style, text)])).
Definition kprintln : list Z -> M Boot BootEnd unit := kprintln_style Default.
Definition halt {A} : M Boot BootEnd A := throw Halted.
Definition yes_no (b : bool) : list Z := if b then lit "yes" else lit "no".

(** [Result] of an operation on a part of the state. *)
Definition attempt {S E A} (get : Boot -> S) (set : S -> Boot -> Boot) (op : M S E A) : M Boot BootEnd (A + E) :=
  catch (zoom get set op) ret.
Definition on_frames {E A} (op : M FrameAllocator E A) : M Boot BootEnd (A + E) :=
  attempt (fun b => pg_frames (bo_paging b)) (fun a => upd bo_paging (set_field pg_frames a)) op.
Definition on_con {E A} (op : M Con E A) : M Boot BootEnd (A + E) := attempt bo_con (set_field bo_con) op.
(** An allocation: the allocation error handler halts. *)
Definition allocate_block (l : Heap.Layout) : M Boot BootEnd Z :=
  let! r := on_con (zoom c_heap (fun h c => set_field c_heap h c) (alloc (E:=unit) l)) in
  match r with inl (Some p) => ret p | _ => halt end.
Definition free_block (p : Z) (l : Heap.Layout) : M Boot BootEnd unit :=
  do! on_con (zoom c_heap (fun h c => set_field c_heap h c) (dealloc (E:=unit) p l)) in ret tt.

Definition clock_source_str (s : ClockSource) : list Z :=
  match s with CpuidLeaf0x15 => lit "tsc-cpuid-0x15" | CpuidLeaf0x16 => lit "tsc-cpuid-0x16" | TscFallback => lit "tsc-fallback" end.
Definition is_estimated (s : ClockSource) : bool := match s with TscFallback => true | _ => false end.
(** The derived [Debug] of the errors. *)
Definition frame_error_debug (e : FrameAllocatorInitError) : list Z :=
  match e with FrameAlreadyInitialized => lit "AlreadyInitialized" | NoUsableRegions => lit "NoUsableRegions" | TooManyRegions => lit "TooManyRegions" end.
Definition heap_error_debug (e : HeapInitError) : list Z :=
  match e with HeapAlreadyInitialized => lit "AlreadyInitialized" | OutOfFrames => lit "OutOfFrames" end.

(** [limine::modules()] as the file systems see it: the modules the iterator yields. *)
Fixpoint modules_at {E} (m : gmap Z Z) (turns : nat) (files : list Z) : outcome E (list Module_) :=
  match files with
  | [] => Ok []
  | f :: rest => let? x := module_at m turns f in let? xs := modules_at m turns rest in Ok (x :: xs)
  end.
Definition boot_modules {E} (m : gmap Z Z) (r : Requests) (turns : nat) : outcome E (option (list Module_)) :=
  match modules r with
  | None => Ok None
  | Some response => let? xs := modules_at m turns (module_files m response) in Ok (Some xs)
  end.

(** ** Handshake and memory *)
Section memory.
Context (m : gmap Z Z) (r : Requests).

Definition boot_handshake (clock_source : ClockSource) : M Boot BootEnd Z :=
  if negb (base_revision_supported r) then
    do! kprintln (lit "HXNU: unsupported Limine base revision") in halt
  else
  do! kprintln (lit "HXNU: x86_64 early bootstrap") in
  do! kprintln (lit "HXNU: log clock source = " ++ clock_source_str clock_source ++ (if is_estimated clock_source then lit " (estimated)" else [])) in
  do! kprintln (lit "HXNU: Limine protocol handshake ok") in
  match hhdm_offset m r with
  | Some offset => do! kprintln (lit "HXNU: HHDM offset = " ++ hex_wide 16 offset) in ret offset
  | None => do! kprintln (lit "HXNU: HHDM response missing") in halt
  end.

(** The characters of the line that are outside ASCII are code points. *)
Definition font_line : list Z :=
  lit "HXNU: font engine online (UTF-8 rendering enabled: Latin, T" ++ [252] ++ lit "rk" ++ [231] ++ lit "e [" ++ [231] ++ lit ", " ++ [287] ++ lit ", " ++ [305] ++ lit ", " ++ [246] ++ lit ", " ++ [351] ++ lit ", " ++ [252] ++ lit "], " ++ [1056; 1091; 1089; 1089; 1082; 1080; 1081] ++ lit " [" ++ [1072] ++ lit ".." ++ [1103] ++ lit "])".
Definition boot_tty : M Boot BootEnd unit :=
  let! t := on_con (tty_initialize false) in
  match t with
  | inr _ => halt
  | inl tty =>
      do! kprintln font_line in
      do! kprintln (lit "HXNU: framebuffer disabled for initrd minimalism, loading from /boot instead") in
      kprintln (lit "HXNU: tty console online id=" ++ dec (tb_console_id tty) ++ lit " outputs=" ++ dec (tb_output_count tty) ++ lit " framebuffer=" ++
        yes_no (framebuffer_output tty) ++ lit " vcs=" ++ dec (tb_virtual_console_count tty) ++ lit " geometry=" ++ dec (tb_columns tty) ++ lit "x" ++ dec (tb_rows tty))
  end.

Definition boot_frames (entries : list MemoryMapEntry) : M Boot BootEnd unit :=
  let! s := on_frames (frame_initialize entries) in
  match s with
  | inr error => do! kprintln (lit "HXNU: frame allocator init failed: " ++ frame_error_debug error) in halt
  | inl stats =>
      do! kprintln (lit "HXNU: usable memory = " ++ dec (fs_total_bytes stats / 1024) ++ lit " KiB") in
      do! kprintln (lit "HXNU: frame regions = " ++ dec (fs_usable_regions stats)) in
      do! kprintln (lit "HXNU: allocatable frames = " ++ dec (fs_allocatable_bytes stats / PAGE_SIZE)) in
      do! kprintln (lit "HXNU: allocatable memory = " ++ dec (fs_allocatable_bytes stats / 1024) ++ lit " KiB") in
      let! f := on_frames (allocate (E:=unit)) in
      match f with
      | inl (Some frame) =>
          do! kprintln (lit "HXNU: bootstrap frame = " ++ hex_wide 16 (start_address frame)) in
          let! stats := gets (fun b => frame_stats (pg_frames (bo_paging b))) in
          kprintln (lit "HXNU: allocated frames = " ++ dec (fs_allocated_frames stats))
      | _ => do! kprintln (lit "HXNU: frame allocator returned no frame") in halt
      end
  end.
Definition boot_memory_map : M Boot BootEnd unit :=
  match memory_map r with
  | None => kprintln (lit "HXNU: memmap response missing")
  | Some response =>
      if map_is_empty m response then do! kprintln (lit "HXNU: memmap is empty") in halt else
      do! kprintln (lit "HXNU: memmap entries = " ++ dec (map_len m response)) in
      do! match List.find is_usable (map_entries m response) with
          | Some region => kprintln (lit "HXNU: first usable region = base " ++ hex_wide 16 (e_base region) ++ lit ", size " ++ dec (e_length region / 1024) ++ lit " KiB")
          | None => ret tt
          end in
      boot_frames (map_entries m response)
  end.

(** The heap, and the [Box] and the [Vec] that try it out: five pushes take a block for
    four elements and then one for eight, and both values are dropped at the end. *)
Definition BOX_U32 : Heap.Layout := Heap.mkLayout 4 4.
Definition VEC_4 : Heap.Layout := Heap.mkLayout 32 8.
Definition VEC_8 : Heap.Layout := Heap.mkLayout 64 8.
Definition boot_values : list Z := [3; 1; 4; 1; 5].
Definition boot_heap (hhdm : Z) : M Boot BootEnd unit :=
  let! s := attempt (fun b => (pg_frames (bo_paging b), c_heap (bo_con b)))
    (fun fh b => upd bo_con (set_field c_heap (snd fh)) (upd bo_paging (set_field pg_frames (fst fh)) b)) (heap_initialize hhdm) in
  match s with
  | inr error => do! kprintln (lit "HXNU: heap init failed: " ++ heap_error_debug error) in halt
  | inl stats =>
      do! kprintln (lit "HXNU: heap start = " ++ hex_wide 16 (hs_start stats)) in
      do! kprintln (lit "HXNU: heap size = " ++ dec (hs_size_bytes stats / 1024) ++ lit " KiB") in
      let! boxed := allocate_block BOX_U32 in
      do! kprintln (lit "HXNU: boxed value = " ++ hex_wide 8 0x48584e55) in
      let! four := allocate_block VEC_4 in
      let! eight := allocate_block VEC_8 in
      do! free_block four VEC_4 in
      do! kprintln (lit "HXNU: vec len = " ++ dec (len boot_values) ++ lit ", sum = " ++ dec (foldr Z.add 0 boot_values)) in
      let! stats := gets (fun b => heap_stats (c_heap (bo_con b))) in
      do! kprintln (lit "HXNU: heap used = " ++ dec (hs_used_bytes stats) ++ lit " bytes") in
      do! kprintln (lit "HXNU: heap allocations = " ++ dec (allocation_count stats)) in
      do! free_block eight VEC_8 in
      free_block boxed BOX_U32
  end.

Definition boot_memory (clock_source : ClockSource) : M Boot BootEnd Z :=
  let! hhdm := boot_handshake clock_source in
  do! boot_tty in
  do! boot_memory_map in
  do! boot_heap hhdm in
  ret hhdm.
End memory.

(** ** Processors and power *)
Definition smp_error_str (e : SmpError) : list Z :=
  match e with EmptyProcessorSet => lit "madt does not expose any processors" | MissingBspMatch => lit "madt does not contain the current bsp apic id" end.

Section topology.
Context (cpu_info : CpuInfo) (cr3 hhdm : Z).

Definition report_madt (madt : MadtInfo) : M Boot BootEnd unit :=
  do! kprintln_style Accent (lit "HXNU: acpi madt lapic=" ++ hex_wide 8 (local_apic_address madt) ++ lit " flags=" ++ hex_wide 8 (madt_flags madt) ++ lit " cpus-enabled=" ++
    dec (enabled_processor_count madt) ++ lit "/" ++ dec (total_processor_count madt) ++ lit " ioapics=" ++ dec (len (io_apics madt)) ++ lit " iso=" ++
    dec (len (interrupt_source_overrides madt)) ++ lit " x2apic-cpus=" ++ dec (local_x2apic_count madt)) in
  do! match head (processors madt) with
      | Some p => kprintln (lit "HXNU: acpi cpu0 uid=" ++ dec (mp_uid p) ++ lit " apic=" ++ dec (mp_apic_id p) ++ lit " mode=" ++ processor_apic_mode p ++
          lit " enabled=" ++ yes_no (mp_enabled p) ++ lit " online-capable=" ++ yes_no (mp_online_capable p))
      | None => ret tt
      end in
  do! match head (io_apics madt) with
      | Some a => kprintln (lit "HXNU: acpi ioapic0 id=" ++ dec (io_apic_id a) ++ lit " addr=" ++ hex_wide 8 (io_address a) ++ lit " gsi-base=" ++ dec (global_system_interrupt_base a))
      | None => ret tt
      end in
  match head (interrupt_source_overrides madt) with
  | Some o => kprintln (lit "HXNU: acpi iso0 source=" ++ dec (iso_source o) ++ lit " gsi=" ++ dec (global_system_interrupt o) ++ lit " flags=" ++ hex_wide 4 (iso_flags o))
  | None => ret tt
  end.

Definition report_target (t : CpuTopologyEntry) : M Boot BootEnd unit :=
  kprintln_style Muted (lit "HXNU: smp next ap target cpu" ++ dec (Z.of_nat (cpu_index t)) ++ lit " uid=" ++ dec (processor_uid t) ++ lit " apic=" ++ dec (apic_id t) ++
    lit " mode=" ++ apic_mode t ++ lit " online-capable=" ++ yes_no (online_capable t)).
Definition boot_smp (madt : MadtInfo) : M Boot BootEnd unit :=
  let! s := attempt bo_smp (set_field bo_smp) (smp_initialize cpu_info (processors madt)) in
  match s with
  | inr error => kprintln_style Error (lit "HXNU: smp topology offline reason=" ++ smp_error_str error)
  | inl summary =>
      do! kprintln_style Success (lit "HXNU: smp topology bsp-apic=" ++ dec (sum_bsp_apic_id summary) ++ lit " bsp-index=" ++ dec (Z.of_nat (sum_current_cpu_index summary)) ++
        lit " cpus=" ++ dec (total_cpus summary) ++ lit " enabled=" ++ dec (enabled_cpus summary) ++ lit " online=" ++ dec (online_cpus summary) ++ lit " aps=" ++
        dec (ap_count summary) ++ lit " bringup-targets=" ++ dec (bringup_targets summary) ++ lit " x2apic=" ++ dec (x2apic_cpus summary)) in
      let! topology := gets bo_smp in
      match topology with
      | None => ret tt
      | Some topology =>
          let! current := lift (current_cpu topology) in
          do! kprintln (lit "HXNU: smp current cpu" ++ dec (Z.of_nat (cpu_index current)) ++ lit " uid=" ++ dec (processor_uid current) ++ lit " apic=" ++ dec (apic_id current) ++
            lit " mode=" ++ apic_mode current ++ lit " bsp=" ++ yes_no (is_bsp current) ++ lit " online=" ++ yes_no (online current)) in
          match first_bringup_target topology with Some target => report_target target | None => ret tt end
      end
  end.

Definition boot_power (fadt : FadtInfo) : M Boot BootEnd unit :=
  do! modify (set_field bo_power (Power.configure hhdm fadt)) in
  do! kprintln (lit "HXNU: acpi fadt revision=" ++ dec (fadt_revision fadt) ++ lit " length=" ++ dec (fadt_length fadt) ++ lit " profile=" ++
    profile_str (preferred_pm_profile fadt) ++ lit " sci=" ++ dec (sci_interrupt fadt) ++ lit " smi-cmd=" ++ hex (smi_command_port fadt)) in
  do! kprintln_style Warning (lit "HXNU: acpi power reset=" ++ yes_no (reset_supported fadt) ++ lit " hw-reduced=" ++ yes_no (hardware_reduced fadt) ++
    lit " pm1a-ctl=" ++ hex (pm1a_control_block fadt) ++ lit " pm1b-ctl=" ++ hex (pm1b_control_block fadt)) in
  do! match reset_register fadt with
      | Some g => kprintln (lit "HXNU: acpi reset-reg space=" ++ address_space_str g ++ lit " width=" ++ dec (bit_width g) ++ lit " offset=" ++ dec (bit_offset g) ++
          lit " access=" ++ dec (access_size g) ++ lit " addr=" ++ hex (ga_address g) ++ lit " value=" ++ hex_wide 2 (reset_value fadt))
      | None => ret tt
      end in
  kprintln (lit "HXNU: acpi boot-arch flags=" ++ hex_wide 4 (boot_architecture_flags fadt) ++ lit " acpi-enable=" ++ hex_wide 2 (acpi_enable fadt) ++
    lit " acpi-disable=" ++ hex_wide 2 (acpi_disable fadt)).

Definition boot_acpi (rsdp : option Z) : M Boot BootEnd unit :=
  match rsdp with
  | None => kprintln (lit "HXNU: acpi rsdp response missing")
  | Some rsdp_address =>
      do! kprintln (lit "HXNU: acpi rsdp response @ " ++ hex_wide 8 rsdp_address) in
      let! d := attempt bo_paging (set_field bo_paging) (discover cr3 hhdm rsdp_address) in
      match d with
      | inr (Misaligned _) => panic
      | inr (Failed error) => kprintln (lit "HXNU: acpi offline reason=" ++ acpi_error_str error)
      | inl discovery =>
          do! kprintln_style Accent (lit "HXNU: acpi online revision=" ++ dec (d_revision discovery) ++ lit " oem=" ++ oem_id_str (d_oem_id discovery) ++ lit " rsdp=" ++
            hex_wide 8 (Acpi.rsdp_address discovery) ++ lit " root=" ++ root_str (root_kind discovery) ++ lit " @ " ++ hex_wide 8 (root_address discovery)) in
          do! kprintln (lit "HXNU: acpi tables total=" ++ dec (table_count discovery) ++ lit " valid=" ++ dec (valid_table_count discovery) ++ lit " invalid=" ++
            dec (invalid_table_count discovery) ++ lit " madt=" ++ yes_no (bool_decide (is_Some (d_madt discovery))) ++ lit " fadt=" ++ yes_no (bool_decide (is_Some (d_fadt discovery)))) in
          do! match d_madt discovery with Some madt => do! report_madt madt in boot_smp madt | None => ret tt end in
          match d_fadt discovery with Some fadt => boot_power fadt | None => ret tt end
      end
  end.
End topology.

(** ** File systems *)
Definition procfs_error_str (e : ProcfsError) : list Z := match e with ProcfsAlreadyInitialized => lit "procfs is already initialized" end.
Definition devfs_error_str (e : DevfsError) : list Z := match e with DevfsAlreadyInitialized => lit "devfs is already initialized" end.
Definition vfs_error_str (e : VfsError) : list Z := match e with VfsAlreadyInitialized => lit "vfs is already initialized" end.
Definition initrd_error_str (e : InitrdError) : list Z :=
  match e with
  | InitrdAlreadyInitialized => lit "initrd is already initialized" | ModuleMissing => lit "initrd module not found"
  | InvalidArchive => lit "initrd archive is malformed or unsupported" | InvalidEntryName => lit "initrd entry name is invalid"
  | UnsupportedPath => lit "initrd only supports /initrd paths"
  end.
Definition fat_error_str (e : FatError) : list Z :=
  match e with
  | FatAlreadyInitialized => lit "fat is already initialized" | BlockUnavailable => lit "block layer is unavailable" | NoFatPartition => lit "no FAT16/32 partition found"
  end.
Definition table_str (k : PartitionTableKind) : list Z := match k with Mbr => lit "mbr" | Gpt => lit "gpt" end.
Definition fat_type_str (k : FatType) : list Z := match k with Fat16 => lit "fat16" | Fat32 => lit "fat32" end.
Definition or_none {A} (f : A -> list Z) (o : option A) : list Z := from_option f (lit "<none>") o.

Section files.
Context `{B : Block} (cpu_info : CpuInfo) (modules : option (list Module_)).
Definition on_mount {S E A} (get : Mounts -> S) (set : S -> Mounts -> Mounts) (op : M S E A) : M Boot BootEnd (A + E) :=
  attempt (fun b => get (bo_mounts b)) (fun v => upd bo_mounts (set v)) op.

Definition boot_procfs : M Boot BootEnd unit :=
  let! s := on_mount proc (set_field proc) (procfs_initialize cpu_info) in
  match s with
  | inl summary => kprintln_style Success (lit "HXNU: procfs online directories=" ++ dec (pf_directory_count summary) ++ lit " files=" ++ dec (pf_file_count summary) ++
      lit " entries=" ++ dec (pf_entry_count summary))
  | inr error => do! kprintln_style Error (lit "HXNU: procfs offline reason=" ++ procfs_error_str error) in halt
  end.
Definition boot_devfs : M Boot BootEnd unit :=
  let! tty := gets (fun b => Vfs.tty_stats (bo_mounts b)) in
  let! s := on_mount dev (set_field dev) (devfs_initialize tty) in
  match s with
  | inl summary => kprintln_style Success (lit "HXNU: devfs online directories=" ++ dec (dv_directory_count summary) ++ lit " nodes=" ++ dec (dv_node_count summary) ++
      lit " entries=" ++ dec (dv_entry_count summary))
  | inr error => do! kprintln_style Error (lit "HXNU: devfs offline reason=" ++ devfs_error_str error) in halt
  end.
Definition boot_initrd : M Boot BootEnd unit :=
  let! s := on_mount initrd (set_field initrd) (initrd_initialize modules) in
  match s with
  | inl summary =>
      let! state := gets (fun b => initrd (bo_mounts b)) in
      kprintln_style Success (lit "HXNU: initrd online modules=" ++ dec (is_module_count summary) ++ lit " directories=" ++ dec (is_directory_count summary) ++
        lit " files=" ++ dec (is_file_count summary) ++ lit " entries=" ++ dec (is_entry_count summary) ++ lit " bytes=" ++ dec (is_archive_bytes summary) ++
        lit " path=" ++ default (lit "<unknown>") (state ≫= module_path) ++ lit " label=" ++ default (lit "<none>") (state ≫= module_label))
  | inr error => kprintln_style Warning (lit "HXNU: initrd offline reason=" ++ initrd_error_str error)
  end.
Definition boot_fat : M Boot BootEnd unit :=
  let! s := on_mount fat (set_field fat) fat_initialize in
  match s with
  | inl summary => kprintln_style Success (lit "HXNU: fat online mounted=" ++ yes_no (fs_mounted summary) ++ lit " partition=" ++ or_none dec (fs_partition_id summary) ++
      lit " device=" ++ or_none dec (fs_device_id summary) ++ lit " table=" ++ or_none table_str (fs_table summary) ++ lit " type=" ++ or_none fat_type_str (fs_type summary) ++
      lit " root-entries=" ++ dec (fs_root_entry_count summary) ++ lit " directories=" ++ dec (fs_directory_count summary))
  | inr error => kprintln_style Warning (lit "HXNU: fat offline reason=" ++ fat_error_str error)
  end.
Definition boot_vfs : M Boot BootEnd unit :=
  let! s := attempt bo_mounts (set_field bo_mounts) vfs_initialize in
  match s with
  | inl summary => kprintln_style Success (lit "HXNU: vfs online mounts=" ++ dec (vs_mount_count summary) ++ lit " root-entries=" ++ dec (vs_root_entry_count summary) ++
      lit " directories=" ++ dec (vs_directory_count summary))
  | inr error => do! kprintln_style Error (lit "HXNU: vfs offline reason=" ++ vfs_error_str error) in halt
  end.
Definition boot_filesystems : M Boot BootEnd unit :=
  do! boot_procfs in
  do! boot_devfs in
  do! boot_initrd in
  do! boot_fat in
  boot_vfs.

(** *** The init program the file systems offer *)
Definition report_init_candidate : M Boot BootEnd unit :=
  let! s := fun b => match discover_init_executable (bo_mounts b) with Ok c => (Ok (inl c), b) | Err e => (Ok (inr e), b) | Panic => (Panic, b) | Diverge => (Diverge, b) end in
  match s with
  | inl c => kprintln_style Accent (lit "HXNU: init candidate path=" ++ xc_path c ++ lit " mount=" ++ mount_name (xc_mount c) ++ lit " format=" ++ format_str (xc_format c) ++
      lit " size=" ++ dec (xc_size c) ++ lit " executable=" ++ yes_no (xc_executable c))
  | inr error => kprintln_style Warning (lit "HXNU: init candidate offline reason=" ++ discovery_error_str error)
  end.
Definition prep_line (p : ExecutableLoadPrep) : list Z :=
  let c := xl_candidate p in
  let t := xl_totals p in
  lit "HXNU: init load-prep path=" ++ xc_path c ++ lit " mount=" ++ mount_name (xc_mount c) ++ lit " format=" ++ format_str (xc_format c) ++ lit " size=" ++ dec (xc_size c) ++
  lit " executable=" ++ yes_no (xc_executable c) ++ lit " entry=" ++ format_u64_hex (xl_entry_point p) ++ lit " machine=" ++ format_u16_hex (xl_machine p) ++
  lit " type=" ++ format_u16_hex (xl_image_type p) ++ lit " ph=" ++ dec (xl_program_header_count p) ++ lit " load=" ++ dec (load_segment_count t) ++
  lit " load-base=" ++ format_u64_hex (load_base t) ++ lit " load-offset=" ++ format_u64_hex (load_offset t) ++ lit " load-file=" ++ dec (load_file_bytes t) ++
  lit " load-mem=" ++ dec (load_memory_bytes t) ++ lit " load-w=" ++ dec (writable_load_segments t) ++ lit " load-x=" ++ dec (executable_load_segments t) ++
  lit " align=" ++ dec (max_alignment t) ++ lit " vm-map=" ++ dec (len (vm_map_entries t)) ++ lit " vm-bytes=" ++ dec (vm_map_total_bytes t) ++
  lit " vm-zero=" ++ dec (vm_map_zero_fill_bytes t) ++ lit " vm-start=" ++ format_u64_hex (vm_map_start_ t) ++ lit " vm-end=" ++ format_u64_hex (vm_map_end_ t) ++
  lit " interp=" ++ default (lit "<none>") (xl_interpreter p) ++ lit " interp-src=" ++ default (lit "<none>") (xl_interpreter_source p) ++ lit " interp-ok=" ++ yes_no (xl_interpreter_resolved p) ++
  lit " interp-arg=" ++ default (lit "<none>") (xl_interpreter_argument p).
Definition segment_line (s : VmMapPlanEntry) : list Z :=
  lit "HXNU: init vm-map[0] idx=" ++ dec (vm_index s) ++ lit " off=" ++ format_u64_hex (Some (vm_file_offset s)) ++ lit " vaddr=" ++ format_u64_hex (Some (vm_virtual_start s)) ++
  lit ".." ++ format_u64_hex (Some (vm_virtual_end s)) ++ lit " map=" ++ format_u64_hex (Some (vm_map_start s)) ++ lit ".." ++ format_u64_hex (Some (vm_map_end s)) ++
  lit " page-off=" ++ dec (vm_page_offset s) ++ lit " file=" ++ dec (vm_file_bytes s) ++ lit " mem=" ++ dec (vm_memory_bytes s) ++ lit " zero=" ++ dec (vm_zero_fill_bytes s) ++
  lit " align=" ++ dec (vm_alignment s) ++ lit " perms=" ++ format_rwx (vm_readable s) (vm_writable s) (vm_executable s).
Definition report_load_prep : M Boot BootEnd unit :=
  let! s := fun b => match prepare_init_load (bo_mounts b) with Ok p => (Ok (inl p), b) | Err e => (Ok (inr e), b) | Panic => (Panic, b) | Diverge => (Diverge, b) end in
  match s with
  | inl prep =>
      do! kprintln_style Accent (prep_line prep) in
      match head (vm_map_entries (xl_totals prep)) with
      | Some segment => kprintln_style Muted (segment_line segment)
      | None => ret tt
      end
  | inr error => kprintln_style Warning (lit "HXNU: init load-prep offline reason=" ++ prep_error_str error)
  end.

(** *** The previews at the end of the boot *)
Definition report_preview (path label : list Z) : M Boot BootEnd unit :=
  let! p := fun b => (preview (bo_mounts b) path 80, b) in
  match p with Some text => kprintln_style Muted (label ++ text) | None => ret tt end.
Definition boot_previews : M Boot BootEnd unit :=
  do! report_preview (lit "/") (lit "HXNU: vfs preview root=") in
  do! report_preview (lit "/proc/version") (lit "HXNU: procfs preview version=") in
  do! report_preview (lit "/proc/uptime") (lit "HXNU: procfs preview uptime=") in
  do! report_preview (lit "/proc/schedstat") (lit "HXNU: procfs preview schedstat=") in
  do! report_preview (lit "/dev") (lit "HXNU: devfs preview root=") in
  do! report_preview (lit "/initrd") (lit "HXNU: initrd preview root=") in
  do! report_preview (lit "/boot") (lit "HXNU: fat preview root=") in
  do! report_preview (lit "/dev/console") (lit "HXNU: devfs preview console=") in
  report_preview (lit "/dev/fb0") (lit "HXNU: devfs preview fb0=").
End files.

(** ** Consoles *)
(** [let _ = ...]: an error is dropped; the allocation error handler halts. *)
Definition drop_result {A} (op : M Con TtyExit A) : M Boot BootEnd unit :=
  let! r := on_con op in match r with inr (AllocError _) => halt | _ => ret tt end.
Definition boot_consoles : M Boot BootEnd unit :=
  do! for_range 1 VIRTUAL_CONSOLE_COUNT (fun console_id =>
    do! drop_result (write_to_console console_id Accent (lit "HXNU virtual console ready" ++ [10])) in
    drop_result (write_to_console console_id Muted (lit "Framebuffer redraw path prepared for multi-screen TTY" ++ [10]))) in
  let! s := on_con (switch_active_console 1) in
  match s with
  | inl _ =>
      do! drop_result (switch_active_console 0) in
      let! tty := gets (fun b => Tty.tty_stats (c_tty (bo_con b))) in
      kprintln_style Success (lit "HXNU: tty virtual consoles online active=tty" ++ dec (st_console_id tty) ++ lit " total=" ++ dec (st_virtual_console_count tty) ++
        lit " geometry=" ++ dec (st_columns tty) ++ lit "x" ++ dec (st_rows tty) ++ lit " switch-smoke=yes")
  | inr (AllocError _) => halt
  | inr InvalidConsole =>
      do! kprintln_style Error (lit "HXNU: tty virtual console switch failed reason=" ++ lit "tty console index is out of range") in halt
  end.

(** ** Display *)
Section display.
Context (m : gmap Z Z) (r : Requests) (cr3 hhdm : Z) (inw_port : list (Z * Z) -> Z -> Z).
Definition on_ports {A} (op : M (list (Z * Z)) BootEnd A) : M Boot BootEnd A := zoom bo_ports (set_field bo_ports) op.
(** The frame buffer of the loader in the new mode; zero masks become those of XRGB. *)
Definition updated_framebuffer (boot_fb : Framebuffer) (virt_addr : Z) (mode : BgaDisplayMode) : Framebuffer :=
  mkFramebuffer virt_addr (bm_width mode) (bm_height mode) (bm_pitch mode) (bm_bpp mode) (fr_memory_model boot_fb)
    (if red_mask_size boot_fb =? 0 then 8 else red_mask_size boot_fb) (if red_mask_size boot_fb =? 0 then 16 else red_mask_shift boot_fb)
    (if green_mask_size boot_fb =? 0 then 8 else green_mask_size boot_fb) (if green_mask_size boot_fb =? 0 then 8 else green_mask_shift boot_fb)
    (if blue_mask_size boot_fb =? 0 then 8 else blue_mask_size boot_fb) (if blue_mask_shift boot_fb =? 0 then 0 else blue_mask_shift boot_fb).
Definition boot_display : M Boot BootEnd unit :=
  let! available := on_ports (is_available inw_port) in
  if negb available then ret tt else
  do! kprintln (lit "HXNU: display hardware detected: Bochs BGA") in
  let! caps := on_ports (probe_caps inw_port) in
  let target_w := Z.min 1920 (max_width caps) in
  let target_h := Z.min 1080 (max_height caps) in
  let target_bpp := Z.min 32 (max_bpp caps) in
  let! mode := on_ports (set_mode target_w target_h target_bpp) in
  do! kprintln (lit "HXNU: dynamic resolution updated: " ++ dec (bm_width mode) ++ lit "x" ++ dec (bm_height mode) ++ lit "@" ++ dec (bm_bpp mode) ++ lit "bpp (maximum supported limit)") in
  match boot_framebuffer m r with
  | None => ret tt
  | Some boot_fb =>
      let! phys_addr := lift (sub (fr_address boot_fb) hhdm) in
      let! fb_size := lift (mul U64 (bm_pitch mode) (bm_height mode)) in
      let! va := attempt bo_paging (set_field bo_paging) (ensure_region_mapped cr3 hhdm phys_addr fb_size (Z.lor FLAG_WRITABLE FLAG_WRITE_THROUGH)) in
      let virt_addr := match va with inl vaddr => vaddr | inr _ => fr_address boot_fb end in
      do! on_con (zoom c_fb (fun f c => set_field c_fb f c) (set_physical_address (E:=unit) phys_addr)) in
      let! s := on_con (zoom c_fb (fun f c => set_field c_fb f c) (fb_initialize (updated_framebuffer boot_fb virt_addr mode))) in
      match s with
      | inl _ =>
          do! drop_result (tty_initialize true) in
          kprintln (lit "HXNU: framebuffer initialized for userspace handoff")
      | inr _ => ret tt
      end
  end.
End display.

(** ** Self tests *)
Inductive SelfTest : Type := TestBreakpoint | TestPageFault | TestGeneralProtection | TestPanic | TestPowerReset | TestHeterexec.
(** The features a build can turn on, in the order in which they are looked at. *)
Record Features : Type := mkFeatures {
  panic_self_test : bool; power_reset_self_test : bool; heterexec_self_test : bool; exception_test_page_fault : bool;
  exception_test_general_protection : bool; exception_test_breakpoint : bool }.
Definition selected_self_test (f : Features) : option SelfTest :=
  if panic_self_test f then Some TestPanic
  else if power_reset_self_test f then Some TestPowerReset
  else if heterexec_self_test f then Some TestHeterexec
  else if exception_test_page_fault f then Some TestPageFault
  else if exception_test_general_protection f then Some TestGeneralProtection
  else if exception_test_breakpoint f then Some TestBreakpoint
  else Some TestBreakpoint.
