(* ===== verification/BootFacts.v ===== *)
(** * Facts about the kernel entry

    The memory stage, for every answer of the boot loader: it returns with a frame
    allocator and a heap that keep their invariants, or halts for one of the listed
    reasons. The file stage: a file of the archive the loader placed in memory is the
    file its path names afterwards. *)
From stdpp Require Import base list numbers option strings gmap.
From Stdlib Require Import ZArith Lia Bool.
From S2P Require Import Prelude Paths Text Machine Frame Heap Vmm Paging Memory Exec Initrd Fat Sched Pseudo Vfs Acpi Power Fb Serial Tty TtyFacts InitExec Bga Limine Boot.

Definition frames (b : Boot) : FrameAllocator := pg_frames (bo_paging b).
Definition heap (b : Boot) : BumpAllocator := c_heap (bo_con b).
(** Only the log (and the consoles) changed. *)
Record talked (b b' : Boot) : Prop := {
  tk_paging : bo_paging b' = bo_paging b;
  tk_heap : heap b' = heap b;
  tk_con : con_ok (bo_con b) -> con_ok (bo_con b');
  tk_mounts : bo_mounts b' = bo_mounts b }.
Lemma talked_refl b : talked b b.
Proof. by constructor. Qed.
Lemma talked_trans b1 b2 b3 : talked b1 b2 -> talked b2 b3 -> talked b1 b3.
Proof. intros [P1 H1 C1 M1] [P2 H2 C2 M2]. constructor; [congruence|congruence|auto|congruence]. Qed.

Lemma say_run {A} style text (k : M Boot BootEnd A) b : (do! kprintln_style style text in k) b = k (upd bo_lines (fun l => l ++ [(style, text)]) b).
Proof. done. Qed.
Lemma said_talked f b b' : talked b b' -> talked b (upd bo_lines f b').
Proof. intros [P H C Mo]. by constructor. Qed.
Ltac talk := repeat apply said_talked; apply talked_refl.

(** One operation of a component, and what follows. *)
Lemma attempt_ok {S E A C} get set (op : M S E A) (k : A + E -> M Boot BootEnd C) b a s' : op (get b) = (Ok a, s') ->
  bind (attempt get set op) k b = k (inl a) (set s' b).
Proof. intros H. unfold bind, attempt, catch, zoom. by rewrite H. Qed.
Lemma attempt_err {S E A C} get set (op : M S E A) (k : A + E -> M Boot BootEnd C) b e s' : op (get b) = (Err e, s') ->
  bind (attempt get set op) k b = k (inr e) (set s' b).
Proof. intros H. unfold bind, attempt, catch, zoom. by rewrite H. Qed.

Section memory.
Context (m : gmap Z Z) (r : Requests).

Lemma boot_handshake_run src b :
  match boot_handshake m r src b with
  | (Ok h, b') => hhdm_offset m r = Some h /\ talked b b'
  | (Err Halted, b') => (base_revision_supported r = false \/ hhdm_offset m r = None) /\ talked b b'
  | _ => False
  end.
Proof.
  unfold boot_handshake, kprintln. destruct (base_revision_supported r); cbn [negb]; [|rewrite say_run; split; [by left|talk]].
  rewrite !say_run. destruct (hhdm_offset m r) as [h|]; rewrite say_run; (split; [auto|]); talk.
Qed.
Lemma boot_tty_run b : con_ok (bo_con b) -> exists b', boot_tty b = (Ok tt, b') /\ talked b b' /\ con_ok (bo_con b').
Proof.
  intros Hc. destruct (initialize_serial (bo_con b) Hc) as (t & c' & Hr & Hok & Hh). unfold boot_tty, on_con. rewrite (attempt_ok _ _ _ _ _ _ _ Hr).
  eexists. split; [reflexivity|]. split; [|exact Hok]. constructor; [reflexivity|exact Hh|intros _; exact Hok|reflexivity].
Qed.

Lemma serve_allocate a : match serve OneFrame a with (Ok o, a') => allocate (E:=unit) a = (Ok o, a') | _ => True end.
Proof.
  cbn [serve]. unfold allocate, take_frames. run. destruct (negb (fa_initialized a)); [done|]. unfold slice. destruct ((0 <=? 0) && _ && _); [|done].
  by destruct (first_fit _ _) as [[? ?]|].
Qed.
(** What the allocator is after the stage, and why the stage can halt. *)
Definition frames_ready (map : list MemoryMapEntry) (b : Boot) : Prop := exists f, frame_reach map (frames b) [(f, PAGE_SIZE)].
Definition frames_halt (map : list MemoryMapEntry) (b : Boot) : Prop :=
  MAX_USABLE_REGIONS < len (omap region_of map) \/ omap region_of map = [] \/ Forall (fun r => ~ room_for (Contiguous HEAP_PAGES) r) (used (frames b)).
Lemma boot_frames_run map b : map_ok map -> frames b = frame_allocator_new ->
  match boot_frames map b with
  | (Ok _, b') => frames_ready map b' /\ heap b' = heap b /\ bo_mounts b' = bo_mounts b
  | (Err Halted, b') => frames_halt map b'
  | _ => False
  end.
Proof.
  intros Hmap Hnew. unfold boot_frames, on_frames. pose proof (frame_initialize_spec map Hmap) as Hi.
  destruct (frame_initialize map frame_allocator_new) as [[st|e| |] a] eqn:Ei; try contradiction; rewrite <- Hnew in Ei.
  - rewrite (attempt_ok _ _ _ _ b _ _ Ei). unfold kprintln. rewrite !say_run. set (b1 := upd bo_lines _ _). rewrite Hnew in Ei.
    pose proof (fr_boot map st a Ei) as Hreach. pose proof (frame_reach_inv map a [] Hmap Hreach) as Hinv.
    pose proof (serve_run map a [] OneFrame Hinv ltac:(unfold request_ok, in_range; simpl; lia)) as Hs.
    pose proof (serve_allocate a) as Hsame.
    destruct (serve OneFrame a) as [[[f|]|e| |] a'] eqn:Es; try contradiction.
    + rewrite (attempt_ok (fun b => pg_frames (bo_paging b)) _ _ _ b1 _ _ Hsame). rewrite say_run. unfold bind at 1, gets at 1. split; [|by split].
      exists (start_address f). exact (fr_grant map OneFrame a a' [] f Hreach ltac:(unfold request_ok, in_range; simpl; lia) Es).
    + rewrite (attempt_ok (fun b => pg_frames (bo_paging b)) _ _ _ b1 _ _ Hsame). right. right. destruct Hs as [-> [Hz|Hno]]; [discriminate|].
      eapply Forall_impl; [exact Hno|]. intros x Hx Hroom. apply Hx. unfold room_for, frames_of, HEAP_PAGES, PAGE_SIZE in *. lia.
  - rewrite (attempt_err _ _ _ _ b _ _ Ei). destruct e; [contradiction|right; left; exact Hi|left; exact Hi].
Qed.

Lemma on_heap_ok {E A C} (op : M BumpAllocator E A) (k : A + E -> M Boot BootEnd C) b a h' : op (heap b) = (Ok a, h') ->
  bind (on_con (zoom c_heap (fun h c => set_field c_heap h c) op)) k b = k (inl a) (upd bo_con (set_field c_heap h') b).
Proof. intros H. unfold on_con. rewrite (attempt_ok bo_con (set_field bo_con) _ k b a (set_field c_heap h' (bo_con b))); [done|]. unfold zoom. fold (heap b). by rewrite H. Qed.
Lemma allocate_block_run limit l b : heap_ok limit (heap b) -> layout_ok limit l -> b_next (heap b) + l_align l + l_size l <= b_end (heap b) ->
  exists p h', allocate_block l b = (Ok p, upd bo_con (set_field c_heap h') b) /\ heap_ok limit h' /\ b_next h' <= b_next (heap b) + l_align l + l_size l /\
    b_start h' = b_start (heap b) /\ b_end h' = b_end (heap b) /\ allocations h' = allocations (heap b) + 1.
Proof.
  intros Hok Hl Hfit. destruct (alloc_fits unit limit l (heap b) Hok Hl Hfit) as (p & h' & Hr & H). exists p, h'. split; [|exact H].
  unfold allocate_block. by rewrite (on_heap_ok _ _ _ _ _ Hr).
Qed.
(** The heap with one block less. *)
Definition released (h : BumpAllocator) : BumpAllocator :=
  mkBump (b_start h) (b_end h) (if allocations h =? 1 then b_start h else b_next h) (allocations h - 1) (b_initialized h).
Lemma free_block_run p l b : 0 < allocations (heap b) -> free_block p l b = (Ok tt, upd bo_con (set_field c_heap (released (heap b))) b).
Proof.
  intros Hn. unfold free_block. rewrite (on_heap_ok _ _ _ tt (released (heap b))); [done|].
  destruct (heap b) as [st en nx n ini]. cbn in Hn. unfold released. cbn [allocations b_start b_end b_next b_initialized]. unfold dealloc. run. unfold Datatypes.id.
  cbn [allocations b_start b_end b_next b_initialized]. rewrite (proj2 (Z.ltb_lt _ _) Hn). rewrite sub_ok by lia. cbn.
  destruct (Z.eqb_spec n 1) as [->|Hne]; [reflexivity|]. rewrite (proj2 (Z.eqb_neq (n - 1) 0)) by lia. reflexivity.
Qed.

Lemma small_layouts : layout_ok page_limit BOX_U32 /\ layout_ok page_limit VEC_4 /\ layout_ok page_limit VEC_8.
Proof. split_and!; (split; [cbn; lia|]); [exists 2|exists 3|exists 3]; cbn; unfold page_limit; lia. Qed.

Lemma boot_heap_run map h b f : map_ok map -> frame_reach map (frames b) [(f, PAGE_SIZE)] -> heap b = bump_new -> 0 <= h ->
  Forall (fun e => h + e_base e + e_length e + page_limit < U64) map ->
  match boot_heap h b with
  | (Ok _, b') => exists g, frame_reach map (frames b') [(g, HEAP_PAGES * PAGE_SIZE); (f, PAGE_SIZE)] /\
      heap b' = mkBump (h + g) (h + g + HEAP_PAGES * PAGE_SIZE) (h + g) 0 true
  | (Err Halted, b') => Forall (fun r => ~ room_for (Contiguous HEAP_PAGES) r) (used (frames b'))
  | _ => False
  end.
Proof.
  intros Hmap Hreach Hnew Hh Hfits. unfold boot_heap. pose proof (heap_initialize_spec map (frames b) _ h page_limit Hmap Hreach ltac:(unfold page_limit; lia) Hh Hfits) as Hi.
  rewrite <- Hnew in Hi. destruct (heap_initialize h (frames b, heap b)) as [[st|[|]| |] [a' h0]] eqn:Ei; try contradiction.
  2: { rewrite (attempt_err (fun b => (pg_frames (bo_paging b), c_heap (bo_con b))) _ _ _ b _ _ Ei). apply (proj2 (proj2 Hi)) || (destruct Hi as (-> & _ & Hno); exact Hno). }
  destruct Hi as (g & Hr' & Hst & Hen & Hok & Hnx & Hal & _). rewrite (attempt_ok (fun b => (pg_frames (bo_paging b), c_heap (bo_con b))) _ _ _ b _ _ Ei).
  unfold kprintln. rewrite !say_run. set (b1 := upd bo_lines _ _). destruct small_layouts as (Hbox & Hv4 & Hv8).
  assert (Hroom : b_end h0 = b_start h0 + 8388608) by (rewrite Hst, Hen; unfold HEAP_PAGES, PAGE_SIZE; lia).
  destruct (allocate_block_run page_limit BOX_U32 b1) as (p1 & h1 & Hr1 & Hok1 & Hn1 & Hs1 & He1 & Ha1); [exact Hok|exact Hbox|change (heap b1) with h0; cbn; lia|].
  change (heap b1) with h0 in *. cbn [l_align l_size BOX_U32] in Hn1. unfold bind at 1. rewrite Hr1, say_run. set (b2 := upd bo_lines _ _).
  destruct (allocate_block_run page_limit VEC_4 b2) as (p2 & h2 & Hr2 & Hok2 & Hn2 & Hs2 & He2 & Ha2); [exact Hok1|exact Hv4|change (heap b2) with h1; cbn; lia|].
  change (heap b2) with h1 in *. cbn [l_align l_size VEC_4] in Hn2. unfold bind at 1. rewrite Hr2. set (b3 := upd bo_con _ b2).
  destruct (allocate_block_run page_limit VEC_8 b3) as (p3 & h3 & Hr3 & Hok3 & Hn3 & Hs3 & He3 & Ha3); [exact Hok2|exact Hv8|change (heap b3) with h2; cbn; lia|].
  change (heap b3) with h2 in *. unfold bind at 1. rewrite Hr3. set (b4 := upd bo_con _ b3). assert (Hcount : allocations h3 = 3) by lia.
  unfold bind at 1. rewrite free_block_run by (change (heap b4) with h3; lia). change (heap b4) with h3. rewrite say_run. unfold bind at 1, gets at 1. rewrite !say_run.
  set (b5 := upd bo_lines _ _). change (heap b5) with (released h3). assert (Hc5 : allocations (released h3) = 2) by (cbn; lia).
  unfold bind at 1. rewrite free_block_run by (change (heap b5) with (released h3); lia). change (heap b5) with (released h3). set (b6 := upd bo_con _ b5).
  assert (Hc6 : allocations (released (released h3)) = 1) by (cbn; lia). rewrite free_block_run by (change (heap b6) with (released (released h3)); lia).
  change (heap b6) with (released (released h3)). exists g. split; [exact Hr'|]. change (released (released (released h3)) = mkBump (h + g) (h + g + HEAP_PAGES * PAGE_SIZE) (h + g) 0 true).
  unfold released. cbn [allocations b_start b_end b_next b_initialized]. destruct Hok3 as (Hini & _). rewrite Hcount, Hini.
  assert (b_start h3 = h + g) as -> by lia. assert (b_end h3 = h + g + HEAP_PAGES * PAGE_SIZE) as -> by lia. reflexivity.
Qed.

Lemma hhdm_offset_nonneg h : hhdm_offset m r = Some h -> 0 <= h.
Proof.
  unfold hhdm_offset. intros (p & _ & ->)%fmap_Some. unfold hhdm_response_offset, uint_at. apply (le_val_range _ (bytes_from_byte m (p + 8) 8)).
Qed.

(** What the answers of the loader must be for memory to work: separate ranges, below
    the end of the direct map. *)
Definition map_usable (h : Z) (map : list MemoryMapEntry) : Prop := map_ok map /\ Forall (fun e => h + e_base e + e_length e + page_limit < U64) map.

(** C19: The first stage of the kernel, on a machine whose memory map describes separate
    ranges below the end of the direct map, either completes or halts. When it completes,
    the loader answered with a direct map offset and a memory map, one frame and then 8 MiB
    were granted out of usable memory, and the heap covers exactly these 8 MiB, empty
    again after its trial values were dropped. When it halts, the protocol revision is not
    supported, the offset or the map is missing, or the map is empty, has no usable range
    or more than 64, or has no range with room for the heap. *)
Theorem boot_memory_spec (src : ClockSource) (b : Boot) (Hcon : con_ok (bo_con b)) (Hframes : frames b = frame_allocator_new) (Hheap : heap b = bump_new)
    (Husable : forall h response, hhdm_offset m r = Some h -> memory_map r = Some response -> map_usable h (map_entries m response)) :
  match boot_memory m r src b with
  | (Ok h, b') => hhdm_offset m r = Some h /\ exists response f g, memory_map r = Some response /\
      frame_reach (map_entries m response) (frames b') [(g, HEAP_PAGES * PAGE_SIZE); (f, PAGE_SIZE)] /\
      heap b' = mkBump (h + g) (h + g + HEAP_PAGES * PAGE_SIZE) (h + g) 0 true
  | (Err Halted, b') =>
      base_revision_supported r = false \/ hhdm_offset m r = None \/ memory_map r = None \/
      exists response, memory_map r = Some response /\ (map_is_empty m response = true \/ frames_halt (map_entries m response) b')
  | _ => False
  end.
Proof.
  unfold boot_memory. unfold bind at 1. pose proof (boot_handshake_run src b) as H1. destruct (boot_handshake m r src b) as [[h|[]| |] b1]; try contradiction.
  2: { destruct H1 as [[H|H] _]; auto. }
  destruct H1 as [Hh [P1 K1 C1 _]]. destruct (boot_tty_run b1 (C1 Hcon)) as (b2 & Hr2 & [P2 K2 _ _] & Hc2). unfold bind at 1. rewrite Hr2. unfold bind at 1, boot_memory_map.
  assert (Hf2 : frames b2 = frame_allocator_new) by (unfold frames; rewrite P2, P1; exact Hframes). assert (Hh2 : heap b2 = bump_new) by congruence.
  destruct (memory_map r) as [response|] eqn:Emap.
  2: { unfold kprintln, kprintln_style, modify. unfold bind at 1, boot_heap. rewrite (attempt_err (fun b => (pg_frames (bo_paging b), c_heap (bo_con b))) _ _ _ _ OutOfFrames (frames b2, heap b2)); [hnf; right; right; left; reflexivity|].
       change (heap_initialize h (frames b2, heap b2) = (Err OutOfFrames, (frames b2, heap b2))). by rewrite Hf2, Hh2. }
  destruct (map_is_empty m response) eqn:Eempty; [right; right; right; exists response; auto|]. destruct (Husable h response Hh eq_refl) as [Hmap Hfits].
  unfold kprintln. rewrite say_run. set (b3 := upd bo_lines _ b2).
  assert (H4 : exists b4, (match List.find is_usable (map_entries m response) with
      | Some region => kprintln_style Default (lit "HXNU: first usable region = base " ++ hex_wide 16 (e_base region) ++ lit ", size " ++ dec (e_length region / 1024) ++ lit " KiB")
      | None => ret tt end) b3 = (Ok tt, b4) /\ bo_paging b4 = bo_paging b2 /\ heap b4 = heap b2) by (destruct (List.find _ _); eexists; by repeat split).
  destruct H4 as (b4 & Hr4 & P4 & K4). unfold bind at 1. rewrite Hr4.
  pose proof (boot_frames_run (map_entries m response) b4 Hmap ltac:(unfold frames; rewrite P4; exact Hf2)) as H5.
  destruct (boot_frames (map_entries m response) b4) as [[[]|[]| |] b5]; try contradiction; [|right; right; right; exists response; auto].
  destruct H5 as ((f & Hreach) & Hh5 & _). unfold bind at 1.
  pose proof (boot_heap_run (map_entries m response) h b5 f Hmap Hreach ltac:(congruence) (hhdm_offset_nonneg h Hh) Hfits) as H6.
  destruct (boot_heap h b5) as [[[]|[]| |] b6]; try contradiction.
  - destruct H6 as (g & Hr6 & Hheap6). split; [exact Hh|]. exists response, f, g. by split.
  - right. right. right. exists response. split; [reflexivity|]. right. right. right. exact H6.
Qed.
End memory.

(** ** A machine *)
Definition boot_layout : list (Z * list Z) :=
  [(0x1000, words [0; 1; 0x1100]); (0x1100, words [0x1200]); (0x1200, entry_layout (mkLimineEntry 0x100000 0x1000000 0)); (0x4000, words [0; 0xffff800000000000])].
Definition loader_memory (layout : list (Z * list Z)) : gmap Z Z := foldr (fun '(a, bs) m => copy_to m a bs) ∅ layout.
Definition boot_requests : Requests :=
  mkRequests LIMINE_BASE_REVISION (mkRequest (rq_id MEMMAP_REQUEST) 0 0x1000) (mkRequest (rq_id HHDM_REQUEST) 0 0x4000) FRAMEBUFFER_REQUEST
    (mkRequest (rq_id MODULE_REQUEST) 0 0x2000) RSDP_REQUEST.
Definition cold_con : Con := boot_con (mkFbState None ∅ 0) bump_new.
Definition cold_mounts : Mounts := mkMounts None None None None None (mkTtyStats 0 1 0 0 4 80 25) (mkFbInfo None None) demo_view (mkHfs 0 0 false).
Definition cold_boot : Boot := mkBoot [] (mkPaging frame_allocator_new ∅) cold_con None power_new cold_mounts [].
Definition small_memory : gmap Z Z := loader_memory boot_layout.
Lemma boot_memory_spec_witness : exists f g b', boot_memory small_memory boot_requests TscFallback cold_boot = (Ok 0xffff800000000000, b') /\
  frame_reach [mkEntry 0x100000 0x1000000 Usable] (frames b') [(g, 0x800000); (f, 4096)] /\ b_start (heap b') = 0xffff800000000000 + g.
Proof.
  assert (Hok : fst (boot_memory small_memory boot_requests TscFallback cold_boot) = Ok 0xffff800000000000) by (vm_compute; reflexivity).
  assert (Hh : hhdm_offset small_memory boot_requests = Some 0xffff800000000000) by (vm_compute; reflexivity).
  assert (He : map_entries small_memory 0x1000 = [mkEntry 0x100000 0x1000000 Usable]) by (vm_compute; reflexivity).
  pose proof (boot_memory_spec small_memory boot_requests TscFallback cold_boot) as H. destruct (boot_memory _ _ _ _) as [[h|[]| |] b']; try discriminate Hok.
  destruct H as (_ & response & f & g & Hr & Hreach & Hheap).
  - apply boot_con_ok. discriminate.
  - reflexivity.
  - reflexivity.
  - intros h0 response H0 Hr. rewrite Hh in H0. injection H0 as <-. injection Hr as <-. rewrite He. split; [split; repeat constructor; unfold in_range; simpl; lia|repeat constructor].
  - injection Hok as ->. injection Hr as <-. rewrite He in Hreach. exists f, g, b'. split; [reflexivity|]. split; [exact Hreach|]. rewrite Hheap. reflexivity.
Defined.

(** ** From the loader's memory to a file *)
Lemma modules_at_read {E} m turns files xs : Forall2 (file_laid m) files xs ->
  Forall (fun x => (length (text_of (mod_path x)) < turns)%nat /\ (length (text_of (mod_string x)) < turns)%nat) xs -> modules_at (E:=E) m turns files = Ok xs.
Proof.
  induction 1 as [|f x files xs Hf _ IH]; intros Hs; [done|]. apply Forall_cons in Hs as [[H1 H2] Hs]. cbn [modules_at].
  rewrite (module_at_read m turns f x Hf H1 H2). cbn [obind]. by rewrite IH.
Qed.

(** No boot sector declares sizes whose sum exceeds 32 bits. *)
Definition volumes_sane (B : Block) : Prop :=
  forall i p boot, blk_partition i = Some p -> blk_read (part_device p) (start_lba p) 1 ZERO_SECTOR = Some boot -> no_overflow boot.
Lemma fat_initialize_returns {B : Block} {L : BlockLaws B} : volumes_sane B ->
  (exists su s, fat_initialize None = (Ok su, s)) \/ (exists e s, fat_initialize None = (Err e, s)).
Proof.
  intros Hsane. unfold fat_initialize, gets, bind. rewrite bool_decide_eq_false_2 by (by intros [? ?]). destruct blk_initialized; cbn [negb]; [|right; by eexists _, _].
  pose proof (mount_loop_run Hsane) as H. destruct (loop _ mount_step 0 None) as [[su|e| |] s]; try contradiction; [left|right]; by eexists _, _.
Qed.

Section files.
Context {B : Block} {L : BlockLaws B} (sane : volumes_sane B).
Context (cpu : CpuInfo) (modules : list Module_).

(** Nothing is mounted before the stage. *)
Definition unmounted (mo : Mounts) : Prop := vfs mo = None /\ dev mo = None /\ proc mo = None /\ initrd mo = None /\ fat mo = None.

(** On a kernel that has mounted nothing, the stage never halts, whatever the modules;
    the initrd is mounted exactly when its archive parses. *)
Lemma boot_filesystems_run b st : unmounted (bo_mounts b) ->
  match initrd_initialize (Some modules) None with (Ok _, s) => s = Some st | _ => False end ->
  exists b', boot_filesystems cpu (Some modules) b = (Ok tt, b') /\ is_Some (vfs (bo_mounts b')) /\ is_Some (dev (bo_mounts b')) /\ is_Some (proc (bo_mounts b')) /\
    initrd (bo_mounts b') = Some st.
Proof.
  intros (Hv & Hd & Hp & Hi & Hf) Hst. unfold boot_filesystems.
  destruct (initrd_initialize (Some modules) None) as [[su|e| |] s] eqn:Einit; try contradiction. subst s.
  unfold boot_procfs, on_mount. unfold bind at 1. rewrite (attempt_ok (fun b => proc (bo_mounts b)) _ _ _ b procfs_summary (Some (mkProcfs cpu))) by (by rewrite Hp).
  unfold kprintln_style at 1, modify at 1. set (b1 := upd bo_lines _ _).
  unfold boot_devfs, on_mount. unfold bind at 1. unfold bind at 1, gets at 1.
  rewrite (attempt_ok (fun b => dev (bo_mounts b)) _ _ _ b1 devfs_summary (Some (mkDevfs (ts_console_id (Vfs.tty_stats (bo_mounts b1))) (ts_output_count (Vfs.tty_stats (bo_mounts b1))))))
    by (change (dev (bo_mounts b1)) with (dev (bo_mounts b)); by rewrite Hd).
  unfold kprintln_style at 1, modify at 1. set (b2 := upd bo_lines _ _).
  unfold boot_initrd, on_mount. unfold bind at 1. rewrite (attempt_ok (fun b => initrd (bo_mounts b)) _ _ _ b2 su (Some st))
    by (change (initrd (bo_mounts b2)) with (initrd (bo_mounts b)); by rewrite Hi).
  unfold bind at 1, gets at 1. unfold kprintln_style at 1, modify at 1. set (b3 := upd bo_lines _ _).
  assert (Hfat : exists b4, boot_fat b3 = (Ok tt, b4) /\ vfs (bo_mounts b4) = None /\ dev (bo_mounts b4) = dev (bo_mounts b3) /\ proc (bo_mounts b4) = proc (bo_mounts b3) /\ initrd (bo_mounts b4) = Some st).
  { unfold boot_fat, on_mount. destruct (fat_initialize_returns sane) as [(fs & s & Hr)|(e & s & Hr)].
    - rewrite (attempt_ok (fun b => fat (bo_mounts b)) _ _ _ b3 fs s) by (change (fat (bo_mounts b3)) with (fat (bo_mounts b)); by rewrite Hf). eexists. split; [reflexivity|]. by repeat split.
    - rewrite (attempt_err (fun b => fat (bo_mounts b)) _ _ _ b3 e s) by (change (fat (bo_mounts b3)) with (fat (bo_mounts b)); by rewrite Hf). eexists. split; [reflexivity|]. by repeat split. }
  destruct Hfat as (b4 & Hr4 & Hv4 & Hd4 & Hp4 & Hi4). unfold bind at 1. rewrite Hr4.
  unfold boot_vfs. erewrite (attempt_ok bo_mounts _ _ _ b4).
  2: { unfold vfs_initialize. run. rewrite Hv4. reflexivity. }
  eexists. split; [reflexivity|]. cbn. rewrite Hd4, Hp4, Hi4. split_and!; by eexists.
Qed.

(** The archive's file in the initrd state that the stage publishes. *)
Lemma archive_mounted x ts1 ts2 t : select_initrd_module modules = Some x -> mod_bytes x = encode_archive (tree_member <$> ts1 ++ t :: ts2) ->
  Forall tree_ok (ts1 ++ t :: ts2) -> len (mod_bytes x) < SLICE_LIMIT - 16 -> tree_is_dir t = false ->
  Forall (fun t' => ~ tr_segments t `prefix_of` tr_segments t') (ts1 ++ ts2) ->
  exists st, match initrd_initialize (Some modules) None with (Ok _, s) => s = Some st | _ => False end /\
    initrd_read_bytes (Some st) (tree_path (tr_segments t)) = Some (tr_data t) /\
    initrd_node_info (Some st) (tree_path (tr_segments t)) = Some (mkNodeInfo NFile (len (tr_data t)) (negb (Z.land (tr_mode t) MODE_EXECUTABLE_MASK =? 0))).
Proof.
  intros Hsel Hbytes Hok Hlen Hfile Hothers. rewrite Hbytes in Hlen.
  assert (Hmok : Forall member_ok (tree_member <$> ts1 ++ t :: ts2)) by (apply Forall_fmap; eapply Forall_impl; [exact Hok|apply tree_member_ok]).
  pose proof (parse_encoded _ Hmok Hlen) as Hparse. set (es := foldl add_member root_entries _) in Hparse.
  exists (mkInitrd (mod_path x) (mod_string x) (len modules) (mod_bytes x) (len (mod_bytes x)) es). split.
  - unfold initrd_initialize. run. assert (Hne : modules <> []) by (intros He; rewrite He in Hsel; discriminate). rewrite bool_decide_false by exact Hne.
    rewrite Hsel. cbn [ok_or]. rewrite Hbytes, Hparse. by rewrite <- Hbytes.
  - by apply (tree_read_back ts1 t ts2 (mkInitrd _ _ _ _ _ es)).
Qed.
End files.

(** The segments [q] of a path name the archive's file at [segs]: below [initrd], or as they
    are when the first is not the name of a mount. *)
Definition names_file (q segs : list (list Z)) : Prop :=
  q = lit "initrd" :: segs \/ q = segs /\ exists s l, segs = s :: l /\ s ∉ [lit "dev"; lit "boot"; lit "initrd"; lit "proc"; lit "hfs"].
Lemma names_file_real q segs : names_file q segs -> mount_of q = MInitrd /\ render (real_segments q) = tree_path segs.
Proof.
  assert (Hpath : render (lit "initrd" :: segs) = tree_path segs) by (unfold render, tree_path; cbn [push_segments app]; by rewrite push_false).
  intros [->|(-> & s & l & -> & Hs)]; [done|]. rewrite !not_elem_of_cons in Hs. destruct Hs as (H1 & H2 & H3 & H4 & H5 & _).
  unfold real_segments. cbn [mount_of]. rewrite (proj2 (str_eqb_false _ _) H1), (proj2 (str_eqb_false _ _) H2), (proj2 (str_eqb_false _ _) H3),
    (proj2 (str_eqb_false _ _) H4), (proj2 (str_eqb_false _ _) H5). done.
Qed.

(** C20: From the memory the boot loader fills to the file system, over any block layer
    that fulfils its laws and whose boot sectors declare sizes below 32 bits (others panic:
    [parse_bpb_overflow]), whether a FAT volume mounts or not. When the loader answered the
    module request, the modules of its list are read as they lie in memory; the file stage
    then completes on a kernel that has nothing mounted, and each file of the tree
    archived in the module it selects ([tree_ok]) is found at every path that names it,
    with [/initrd] in front or, unless it begins with the name of a mount, without, with
    the data, the size and the executable bit it has in the archive, provided no
    other member has its path or lies below it. *)
Theorem boot_mounts_archive {E} {B : Block} {L : BlockLaws B} (m : gmap Z Z) (r : Requests) (turns : nat) (response : Z) (files : list Z) (mods : list Module_) (x : Module_)
    (ts1 ts2 : list TreeMember) (t : TreeMember) (p : list Z) (q : list (list Z)) (cpu : CpuInfo) (b : Boot) (Hsane : volumes_sane B)
    (Hanswer : answered (module_request r) = Some response) (Harray : array_answer m response files) (Hlaid : Forall2 (file_laid m) (before_null files) mods)
    (Hturns : Forall (fun x => (length (text_of (mod_path x)) < turns)%nat /\ (length (text_of (mod_string x)) < turns)%nat) mods)
    (Hsel : select_initrd_module mods = Some x) (Hbytes : mod_bytes x = encode_archive (tree_member <$> ts1 ++ t :: ts2))
    (Hok : Forall tree_ok (ts1 ++ t :: ts2)) (Hlen : len (mod_bytes x) < SLICE_LIMIT - 16) (Hfile : tree_is_dir t = false)
    (Hothers : Forall (fun t' => ~ tr_segments t `prefix_of` tr_segments t') (ts1 ++ ts2))
    (Hp : normalize_path p = Some (render q)) (Hq : Forall plain_segment q) (Hnames : names_file q (tr_segments t))
    (Hfresh : unmounted (bo_mounts b)) :
  boot_modules (E:=E) m r turns = Ok (Some mods) /\
  exists b', boot_filesystems cpu (Some mods) b = (Ok tt, b') /\
    vfs_lookup (bo_mounts b') p = Some (mkNode (tree_path (tr_segments t)) MInitrd VFile (len (tr_data t)) (negb (Z.land (tr_mode t) MODE_EXECUTABLE_MASK =? 0))) /\
    read_executable_bytes (bo_mounts b') MInitrd (tree_path (tr_segments t)) = Ok (tr_data t).
Proof.
  split.
  - unfold boot_modules, modules. rewrite Hanswer, (module_files_read m response files Harray). by rewrite (modules_at_read m turns _ mods Hlaid Hturns).
  - destruct (archive_mounted mods x ts1 ts2 t Hsel Hbytes Hok Hlen Hfile Hothers) as (st & Hinit & Hdata & Hinfo). destruct (names_file_real q _ Hnames) as [Hmount Hreal].
    destruct (boot_filesystems_run Hsane cpu mods b st Hfresh Hinit) as (b' & Hrun & [v Hv] & _ & _ & Hi). exists b'. split; [exact Hrun|].
    unfold vfs_lookup. rewrite Hv, Hp, resolve_node_spec by exact Hq. rewrite Hmount, Hreal. cbn [resolve_in]. unfold resolve_initrd_node, read_executable_bytes.
    rewrite Hi, Hinfo, Hdata. by split.
Qed.

(** The archive of a tree in memory, and a disk with one FAT32 volume, which mounts. *)
Definition archive_layout : list (Z * list Z) :=
  [(0x2000, words [0; 1; 0x2100]); (0x2100, words [0x2200]); (0x2200, words [0; 0x8000; len (encode_archive (tree_member <$> demo_tree)); 0; 0x2400]); (0x2400, lit "initrd" ++ [0]);
   (0x8000, encode_archive (tree_member <$> demo_tree))].
Definition archive_memory : gmap Z Z := loader_memory archive_layout.
Definition archive_module : Module_ := mkModule (encode_archive (tree_member <$> demo_tree)) None (Some (lit "initrd")).
Lemma demo_disk_sane : volumes_sane demo_block.
Proof.
  intros i p boot Hp. cbn in Hp. destruct (i =? 0); [|done]. injection Hp as <-. intros Hb. cbn in Hb. injection Hb as <-. vm_compute. reflexivity.
Qed.
Lemma boot_mounts_archive_witness : exists b', boot_filesystems (B := demo_block) demo_cpu (Some [archive_module]) cold_boot = (Ok tt, b') /\
  vfs_lookup (bo_mounts b') (lit "/d/./f") = Some (mkNode (lit "/initrd/d/f") MInitrd VFile 5 true) /\ is_Some (fat (bo_mounts b')).
Proof.
  destruct (boot_mounts_archive (E:=unit) (B := demo_block) (L := demo_block_laws) archive_memory boot_requests 8 0x2000 [0x2200] [archive_module] archive_module [mkTree [lit "d"] false 16832 []] [mkTree [] false 16877 []]
    (mkTree [lit "d"; lit "f"] true 33261 (lit "data!")) (lit "/d/./f") [lit "d"; lit "f"] demo_cpu cold_boot) as (_ & b' & Hr & Hl & _).
  - exact demo_disk_sane.
  - reflexivity.
  - exists 0, 0x2100. held.
  - constructor; [|constructor]. exists 0, 0x8000, 0, 0x2400. cbn [string_laid mod_string mod_path archive_module]. held.
  - repeat constructor; vm_compute; lia.
  - vm_compute. reflexivity.
  - reflexivity.
  - exact demo_tree_ok.
  - vm_compute. reflexivity.
  - reflexivity.
  - apply Forall_cons. split; [|apply Forall_singleton]; intros [k Hk]; discriminate.
  - vm_compute. reflexivity.
  - repeat constructor; try discriminate; unfold no_char; vm_compute; intros H; repeat (apply elem_of_cons in H as [H|H]; [discriminate|]); by apply elem_of_nil in H.
  - right. split; [reflexivity|]. exists (lit "d"), [lit "f"]. split; [reflexivity|]. apply (bool_decide_unpack _). vm_compute. exact I.
  - repeat split.
  - exists b'. split; [exact Hr|]. split; [rewrite Hl; reflexivity|].
    assert (Hfat : bool_decide (is_Some (fat (bo_mounts (snd (boot_filesystems (B := demo_block) demo_cpu (Some [archive_module]) cold_boot))))) = true) by (vm_compute; reflexivity).
    rewrite Hr in Hfat. by apply bool_decide_eq_true in Hfat.
Defined.
