(* ===== verification/Late.v ===== *)
(** * The end of the boot: [kernel/src/main.rs], the last part of [_start]

    The report of the processor and of its timer, and what follows the file systems: the init
    image is activated, the scheduler started, init spawned, and the system calls are probed.
    The state is the world of the system calls and the lines of the log. What the timer does is
    an argument: whether it started, and how many ticks arrive before the deadline. *)
From stdpp Require Import base list numbers option strings gmap.
From Stdlib Require Import ZArith Lia Bool.
From S2P Require Import Prelude Paths Text Machine Frame Vmm Initrd Fat Sched SchedFacts Pseudo Vfs Uaccess Tty Lcl Hsched Paging Apic InitExec Gdt Trap Boot Syscall SyscallFacts Interrupts Probe.

Record Late : Type := mkLate { lt_world : World; lt_lines : list (TtyStyle * list Z) }.
#[export] Instance Late_eta : RecordEta Late := fun l => mkLate (lt_world l) (lt_lines l).

Definition late_say (style : TtyStyle) (text : list Z) : M Late BootEnd unit := modify (upd lt_lines (fun l => l ++ [(style, text)])).
Definition on_late {E A} (op : M World E A) : M Late BootEnd (A + E) := catch (zoom lt_world (set_field lt_world) op) ret.
Definition on_late_total {A} (op : M World unit A) : M Late BootEnd A :=
  let! r := on_late op in match r with inl a => ret a | inr _ => diverge end.

(** [" a=1 b=2 .."]: the fields of a log record. *)
Definition kv (key : string) (v : list Z) : list Z := lit " " ++ lit key ++ lit "=" ++ v.
Arguments kv key%_string v%_list_scope.

(** ** The processor *)
Definition cpu_vendor_str (v : CpuVendor) : list Z := match v with Intel => lit "intel" | Amd => lit "amd" | UnknownVendor => lit "unknown" end.
Definition level_type_str (t : TopologyLevelType) : list Z :=
  match t with LInvalid => lit "invalid" | LSmt => lit "smt" | LCore => lit "core" | LUnknown _ => lit "unknown" end.

Definition report_selectors (s : SegmentSelectors) : M Late BootEnd unit :=
  late_say Default (lit "HXNU: x86_64 descriptor tables loaded" ++ concat [
    kv "cs" (hex_wide 4 (s_cs s)); kv "ds" (hex_wide 4 (s_ds s)); kv "es" (hex_wide 4 (s_es s)); kv "fs" (hex_wide 4 (s_fs s)); kv "gs" (hex_wide 4 (s_gs s));
    kv "ss" (hex_wide 4 (s_ss s))]).

Definition level_line (l : TopologyLevel) : list Z :=
  lit "HXNU: cpuid topo" ++ concat [kv "level" (dec (level_number l)); kv "type" (level_type_str (level_type l)); kv "shift" (dec (shift l));
    kv "logical" (dec (logical_processors l)); kv "x2apic-id" (dec (tl_x2apic_id l))].
Definition report_topology (t : CpuTopologyInfo) : M Late BootEnd unit :=
  do! late_say Muted (lit "HXNU: cpuid topology" ++ concat [kv "leaf" (leaf_name (leaf_kind t)); kv "x2apic-id" (dec (ti_x2apic_id t)); kv "smt-shift" (dec (smt_shift t));
    kv "core-shift" (dec (core_shift t)); kv "threads/core" (dec (threads_per_core t)); kv "logical/package" (dec (logical_processors_per_package t));
    kv "smt-id" (dec (smt_id t)); kv "core-id" (dec (core_id t)); kv "package-id" (dec (package_id t))]) in
  let! ls := lift (slice (levels t) 0 (Z.of_nat (level_count t))) in
  Prelude.for_each ls (fun l => late_say Muted (level_line l)).

Definition report_cpu (c : CpuInfo) : M Late BootEnd unit :=
  do! late_say Default (lit "HXNU: cpu" ++ concat [kv "local-apic" (yes_no (local_apic_supported c)); kv "x2apic" (yes_no (x2apic_supported c));
    kv "tsc-deadline" (yes_no (tsc_deadline_supported c)); kv "invariant-tsc" (yes_no (invariant_tsc_supported c)); kv "nx" (yes_no (nx_supported c));
    kv "hypervisor" (yes_no (hypervisor_present c)); kv "initial-apic-id" (dec (initial_apic_id c))]) in
  do! late_say Muted (lit "HXNU: cpuid" ++ concat [kv "vendor" (cpu_vendor_str (vendor c)); kv "vendor-id" (vendor_str c); kv "max-basic" (hex (max_basic_leaf c));
    kv "max-extended" (hex (max_extended_leaf c))]) in
  do! match brand_str c with Some b => late_say Muted (lit "HXNU: cpuid brand " ++ b) | None => ret tt end in
  do! match topology c with Some t => report_topology t | None => late_say Muted (lit "HXNU: cpuid topology leaf unavailable") end in
  if local_apic_supported c then
    late_say Default (lit "HXNU: apic" ++ concat [kv "base" (hex_wide 8 (apic_base c)); kv "enabled" (yes_no (apic_global_enabled c));
      kv "x2apic-mode" (yes_no (x2apic_enabled c)); kv "bsp" (yes_no (bootstrap_processor c))])
  else ret tt.

Definition report_timer (r : TimerBringUp + TimerError) : M Late BootEnd unit :=
  match r with
  | inl t => late_say Default (lit "HXNU: apic timer online" ++ concat [kv "vector" (hex_wide 2 (tu_vector t)); kv "divide" (dec (tu_divide_value t));
      kv "initial-count" (dec (tu_initial_count t)); kv "ticks" (dec (ticks_observed t))])
  | inr e => late_say Default (lit "HXNU: apic timer offline reason=" ++ timer_error_str e)
  end.

Section late.
Variables (L : Layout) (tsc cr3 : Z) (hhdm_offset : option Z).
Context `{B : Block}.

(** ** Init and the scheduler *)
Definition late_activation : M Late BootEnd unit :=
  let! m := gets (fun s => w_mounts (lt_world s)) in
  let! r := on_late (zoom w_init (set_field w_init) (activate_init_handoff m)) in
  match r with
  | inl s => late_say Success (lit "HXNU: init activation" ++ concat [kv "armed" (yes_no (is_armed s)); kv "entry" (hex_wide 16 (is_entry_point s));
      kv "vm" (hex_wide 16 (is_vm_start s) ++ lit ".." ++ hex_wide 16 (is_vm_end s)); kv "segments" (dec (is_segment_count s)); kv "bytes" (dec (is_total_bytes s));
      kv "zero" (dec (is_zero_fill_bytes s))])
  | inr e => late_say Error (lit "HXNU: init activation failed reason=" ++ activate_error_str e)
  end.

Definition scheduler_error_str (timer : PeriodicTimer + TimerError) (e : SchedulerError) : list Z :=
  match e with
  | Timer => match timer with inr t => timer_error_str t | inl _ => [] end
  | Timeout => lit "scheduler bootstrap timed out waiting for periodic timer ticks"
  | ThreadTableFull => lit "scheduler thread table is full"
  | RunQueueFull => lit "scheduler run queue is full"
  | MissingIdleThread => lit "scheduler idle thread is missing"
  end.
Definition started (timer : PeriodicTimer + TimerError) : bool := match timer with inl _ => true | inr _ => false end.
(** A thread as the lines show it: [name#id]. *)
Definition thread_text (s : SchedulerStats) : list Z := lit (ss_thread_name s) ++ lit "#" ++ dec (ss_thread_id s).

Definition late_scheduler (timer : PeriodicTimer + TimerError) (timed_out : bool) (ticks : nat) : M Late BootEnd unit :=
  let! r := on_late (on_kernel (bootstrap L cr3 (started timer) timed_out ticks)) in
  match r, timer with
  | inl s, inl t => late_say Success (lit "HXNU: scheduler bootstrap online" ++ concat [kv "source" (lit "local-apic-periodic"); kv "vector" (hex_wide 2 (pt_vector t));
      kv "divide" (dec (pt_divide_value t)); kv "initial-count" (dec (pt_initial_count t)); kv "ticks" (dec (ss_total_ticks s));
      kv "threads" (dec (Z.of_nat (ss_thread_count s))); kv "runqueue" (dec (Z.of_nat (ss_runqueue_depth s))); kv "current" (thread_text s);
      kv "pid" (dec (ss_process_id s)); kv "ppid" (dec (ss_parent_process_id s)); kv "role" (lit (ss_thread_role s)); kv "switches" (dec (ss_context_switches s));
      kv "bootstrap-id" (dec (ss_bootstrap_thread_id s)); kv "idle-id" (dec (ss_idle_thread_id s))])
  | inl _, inr _ => diverge
  | inr e, _ => do! late_say Default (lit "HXNU: scheduler bootstrap offline reason=" ++ scheduler_error_str timer e) in throw Boot.Halted
  end.

Definition late_spawn : M Late BootEnd unit :=
  let! r := on_late (on_launch (spawn_init_process L cr3 hhdm_offset)) in
  match r with
  | inl p => late_say Success (lit "HXNU: init process spawned" ++ concat [kv "pid" (dec (si_process_id p)); kv "thread_id" (dec (si_thread_id p));
      kv "restart-count" (dec (si_restart_count p))])
  | inr e => late_say Error (lit "HXNU: init process spawn failed reason=" ++ activate_error_str e)
  end.

Definition late_stats : M Late BootEnd unit :=
  let! t := gets (fun s => Vfs.tty_stats (w_mounts (lt_world s))) in
  let! ticks := gets (fun s => SCHEDULER_TICKS (w_kernel (lt_world s))) in
  let! s := on_late_total (sch (sched_stats ticks)) in
  do! late_say Default (lit "HXNU: tty stats" ++ concat [kv "id" (dec (ts_console_id t)); kv "outputs" (dec (ts_output_count t)); kv "bytes" (dec (ts_bytes_written t));
    kv "lines" (dec (ts_lines_written t))]) in
  late_say Default (lit "HXNU: scheduler stats" ++ concat [kv "threads" (dec (Z.of_nat (ss_thread_count s))); kv "runqueue" (dec (Z.of_nat (ss_runqueue_depth s)));
    kv "current" (thread_text s); kv "pid" (dec (ss_process_id s)); kv "ppid" (dec (ss_parent_process_id s)); kv "state" (lit (ss_thread_state s));
    kv "ticks" (dec (ss_total_ticks s)); kv "switches" (dec (ss_context_switches s)); kv "bootstrap-id" (dec (ss_bootstrap_thread_id s));
    kv "idle-id" (dec (ss_idle_thread_id s))]).

(** ** The probes *)
Definition linux_line (p : LinuxBootstrapProbe) (machine : list Z) : list Z :=
  lit "HXNU: syscall bootstrap" ++ concat [kv "abi" (abi_str LinuxBootstrap); kv "write" (dec_i (lp_write p)); kv "openat" (dec_i (lp_openat p));
    kv "read" (dec_i (lp_read p)); kv "close" (dec_i (lp_close p)); kv "getpid" (dec_i (lp_getpid p)); kv "getppid" (dec_i (lp_getppid p));
    kv "gettid" (dec_i (lp_gettid p)); kv "sched_yield" (dec_i (lp_sched_yield p)); kv "clock_gettime" (dec_i (lp_clock_gettime p));
    kv "monotonic" (dec_i (lp_clock_seconds p) ++ lit "." ++ zero_pad 9 (dec_i (lp_clock_nanoseconds p))); kv "uname" (dec_i (lp_uname p)); kv "machine" (machine);
    kv "exit-captured" (yes_no (lp_exit_captured p)); kv "exit-status" (dec_i (lp_exit_status p))].
Definition ghost_line (p : GhostBootstrapProbe) (machine : list Z) : list Z :=
  lit "HXNU: syscall bootstrap" ++ concat [kv "abi" (abi_str GhostBootstrap); kv "write" (dec_i (gp_write p)); kv "open" (dec_i (gp_open p));
    kv "read" (dec_i (gp_read p)); kv "close" (dec_i (gp_close p)); kv "getpid" (dec_i (gp_getpid p)); kv "gettid" (dec_i (gp_gettid p));
    kv "yield" (dec_i (gp_yield p)); kv "uptime-ns" (dec_i (gp_uptime p)); kv "uname" (dec_i (gp_uname p)); kv "machine" (machine);
    kv "exit-captured" (yes_no (gp_exit_captured p)); kv "exit-status" (dec_i (gp_exit_status p))].
Definition hxnu_line (p : HxnuBootstrapProbe) : list Z :=
  lit "HXNU: syscall bootstrap" ++ concat [kv "abi" (abi_str HxnuNativeBootstrap); kv "log_write" (dec_i (hp_write p)); kv "open" (dec_i (hp_open p));
    kv "read" (dec_i (hp_read p)); kv "close" (dec_i (hp_close p)); kv "process_self" (dec_i (hp_process_self p)); kv "thread_self" (dec_i (hp_thread_self p));
    kv "sched_yield" (dec_i (hp_sched_yield p)); kv "uptime-ns" (dec_i (hp_uptime p)); kv "abi-version" (hex (cast U64 (hp_abi_version p)));
    kv "exit-captured" (yes_no (hp_exit_captured p)); kv "exit-status" (dec_i (hp_exit_status p))].
Definition gate_line (p : SyscallSelfTest) : list Z :=
  lit "HXNU: syscall entry self-test" ++ concat [kv "int" (lit "0x80"); kv "linux_write" (dec_i (st_linux_write p)); kv "linux_openat" (dec_i (st_linux_openat p));
    kv "linux_read" (dec_i (st_linux_read p)); kv "linux_close" (dec_i (st_linux_close p)); kv "linux_getpid" (dec_i (st_linux_getpid p));
    kv "ghost_open" (dec_i (st_ghost_open p)); kv "ghost_read" (dec_i (st_ghost_read p)); kv "ghost_close" (dec_i (st_ghost_close p));
    kv "ghost_gettid" (dec_i (st_ghost_gettid p)); kv "hxnu_open" (dec_i (st_hxnu_open p)); kv "hxnu_read" (dec_i (st_hxnu_read p));
    kv "hxnu_close" (dec_i (st_hxnu_close p)); kv "hxnu_abi_version" (hex (cast U64 (st_hxnu_abi_version p)))].

(** Where the texts and the variables of the four functions lie; the frame of the gate. *)
Record Statics : Type := mkStatics {
  at_linux : Where; at_ghost : Where; at_hxnu : Where; gate_text : Z; gate_path : Z; gate_b1 : Z; gate_b2 : Z; gate_b3 : Z; gate_frame_ptr : Z; gate_frame : list Z }.

Definition late_probes (p : Statics) : M Late BootEnd unit :=
  let! linux := on_late_total (run_linux_bootstrap_probe L tsc cr3 hhdm_offset (at_linux p)) in
  let! machine := lift (machine_str (lp_machine_bytes linux) (lp_machine_len linux)) in
  do! late_say Success (linux_line linux machine) in
  let! ghost := on_late_total (run_ghost_bootstrap_probe L tsc cr3 hhdm_offset (at_ghost p)) in
  let! machine := lift (machine_str (gp_machine_bytes ghost) (gp_machine_len ghost)) in
  do! late_say Success (ghost_line ghost machine) in
  let! hxnu := on_late_total (run_hxnu_bootstrap_probe L tsc cr3 hhdm_offset (at_hxnu p)) in
  do! late_say Success (hxnu_line hxnu) in
  let! gate := on_late_total (run_syscall_self_test L tsc cr3 hhdm_offset (gate_frame_ptr p) (gate_frame p) (gate_text p) (gate_path p) (gate_b1 p) (gate_b2 p) (gate_b3 p)) in
  late_say Success (gate_line gate).

(** The last part of [_start], up to the previews of the file systems. *)
Definition late_boot (timer : PeriodicTimer + TimerError) (timed_out : bool) (ticks : nat) (p : Statics) : M Late BootEnd unit :=
  do! late_activation in
  do! late_scheduler timer timed_out ticks in
  do! late_spawn in
  do! late_stats in
  late_probes p.
End late.

(** * Facts *)

(** The memory a probe writes; a constant that lies outside it. *)
Definition scratch (p : Where) : list (Z * Z) := [(at_buffer p, 64); (at_timespec p, 16); (at_utsname p, Z.of_nat UTSNAME_BYTES)].
Definition clear_of (areas : list (Z * Z)) (ptr n : Z) : Prop := Forall (fun r => ptr + n <= fst r \/ fst r + snd r <= ptr) areas.

Lemma load_bytes_same m m' ptr n : (forall a, ptr <= a < ptr + Z.of_nat n -> m' !! a = m !! a) -> load_bytes m' ptr n = load_bytes m ptr n.
Proof.
  revert ptr. induction n as [|n IH]; intros ptr H; [done|]. cbn. rewrite H by lia. rewrite (IH (ptr + 1)); [done|]. intros a Ha. apply H. lia.
Qed.

Section after_probe.
Context (w w' : World) (p : Where) (said_text : list Z) (Hw : files_ok w) (Hp : probed w w' p said_text).
Local Notation clear := (clear_of (scratch p)).

Lemma kept_byte ptr n a : clear ptr n -> ptr <= a < ptr + n -> w_user w' !! a = w_user w !! a.
Proof.
  intros Hc Ha. apply Forall_cons in Hc as [H1 Hc]. apply Forall_cons in Hc as [H2 Hc]. apply Forall_cons in Hc as [H3 _]. cbn [fst snd] in H1, H2, H3.
  apply (pd_memory _ _ _ _ Hp); lia.
Qed.
Lemma text_at_after ptr text : clear ptr (len text) -> text_at w ptr text -> text_at w' ptr text.
Proof.
  intros Hc [Hr Hl]. split; [done|]. rewrite <- Hl. apply load_bytes_same. intros a Ha. by apply (kept_byte ptr (len text)).
Qed.
Lemma path_after ptr : clear ptr 14 -> user_string (w_user w) ptr OPEN_PATH -> user_string (w_user w') ptr OPEN_PATH.
Proof.
  intros Hc (Hr & Hnz & Hb). split; [done|]. split; [done|]. intros i b Hi. rewrite (kept_byte ptr 14); [by apply Hb|done|].
  apply lookup_lt_Some in Hi. change (length (OPEN_PATH ++ [0])) with 14%nat in Hi. lia.
Qed.
Lemma probe_ready_after q text : clear (at_text q) (len text) -> clear (at_path q) 14 -> probe_ready w q text -> probe_ready w' q text.
Proof.
  intros Ht Hq [_ H1 H2 H3 H4 H5 H6]. split; [apply Hp|by apply text_at_after|by apply path_after|done..].
Qed.
Lemma ids_after : current_ids w' = current_ids w.
Proof. exact (current_ids_same (said said_text w) w' (pd_stable _ _ _ _ Hp)). Qed.
Lemma gate_ready_after text path b1 b2 b3 : clear text (len GATE_SMOKE) -> clear path 14 -> gate_ready w text path b1 b2 b3 -> gate_ready w' text path b1 b2 b3.
Proof.
  intros Ht Hq [_ H1 H2 H3 H4]. split; [apply Hp|by apply text_at_after|by apply path_after|done|by rewrite ids_after].
Qed.

(** With no descriptor open before, the exit changes nothing. *)
Definition closed (w : World) : Prop := forall k, (3 <= k < MAX_PROCESS_FDS)%nat -> table_of w !! k = Some None.
Context (Hclosed : closed w).
Lemma table_after : table_of w' = table_of w.
Proof.
  destruct (pd_table _ _ _ _ Hp) as [H1 H2]. apply list_eq. intros k. destruct (decide (k < 3)%nat); [by apply H2|].
  destruct (decide (k < MAX_PROCESS_FDS)%nat); [rewrite H1, Hclosed by lia; done|]. pose proof (fi_table _ _ Hw). pose proof (fi_table _ _ (pd_files _ _ _ _ Hp)).
  rewrite !lookup_ge_None_2 by lia. done.
Qed.
Lemma results_after size : file_results w' size = file_results w size.
Proof. exact (file_results_same (said said_text w) w' size (said_ok _ _ Hw) (pd_files _ _ _ _ Hp) (pd_stable _ _ _ _ Hp) table_after). Qed.

Lemma closed_after : closed w'.
Proof. exact (proj1 (pd_table _ _ _ _ Hp)). Qed.
Lemma console_after : w_console w' = w_console w ++ said_text.
Proof. exact (sb_console _ _ (pd_stable _ _ _ _ Hp)). Qed.
(** The next probe reports what it would have reported before. *)
Lemma expected_after tsc : ghost_expected tsc w' = ghost_expected tsc w /\ hxnu_expected tsc w' = hxnu_expected tsc w /\ gate_expected w' = gate_expected w.
Proof.
  unfold ghost_expected, hxnu_expected, gate_expected. rewrite ids_after, !results_after. by rewrite (sb_clock _ _ (pd_stable _ _ _ _ Hp) : w_clock w' = w_clock w).
Qed.
End after_probe.

(** The constants of the probes and of the self test. *)
Definition constants (p : Statics) : list (Z * Z) :=
  [(at_text (at_ghost p), len GHOST_WRITE_SMOKE); (at_path (at_ghost p), 14); (at_text (at_hxnu p), len HXNU_WRITE_SMOKE); (at_path (at_hxnu p), 14);
   (gate_text p, len GATE_SMOKE); (gate_path p, 14)].

Record late_ready (w : World) (p : Statics) : Prop := {
  lr_linux : probe_ready w (at_linux p) LINUX_WRITE_SMOKE;
  lr_ghost : probe_ready w (at_ghost p) GHOST_WRITE_SMOKE;
  lr_hxnu : probe_ready w (at_hxnu p) HXNU_WRITE_SMOKE;
  lr_gate : gate_ready w (gate_text p) (gate_path p) (gate_b1 p) (gate_b2 p) (gate_b3 p);
  lr_frame : (12 <= length (gate_frame p))%nat;
  lr_closed : closed w;
  lr_clear : Forall (fun c => Forall (fun q => clear_of (scratch q) (fst c) (snd c)) [at_linux p; at_ghost p; at_hxnu p]) (constants p) }.

Lemma on_late_run {A} (op : M World unit A) w a w' lines : op w = (Ok a, w') -> on_late_total op (mkLate w lines) = (Ok a, mkLate w' lines).
Proof. intros H. unfold on_late_total, on_late, catch, zoom, bind. cbn [lt_world]. by rewrite H. Qed.
Lemma late_say_run style text w lines : late_say style text (mkLate w lines) = (Ok tt, mkLate w (lines ++ [(style, text)])).
Proof. done. Qed.

(** The name the [uname] structure gives. *)
Lemma linux_machine {E} tsc w : machine_str (E:=E) (lp_machine_bytes (linux_expected tsc w)) (lp_machine_len (linux_expected tsc w)) = Ok (lit "x86_64").
Proof. unfold linux_expected. destruct (current_ids w) as [[? ?] ?], (file_results w 64) as [? [? ?]]. reflexivity. Qed.
Lemma ghost_machine {E} tsc w : machine_str (E:=E) (gp_machine_bytes (ghost_expected tsc w)) (gp_machine_len (ghost_expected tsc w)) = Ok (lit "x86_64").
Proof. unfold ghost_expected. destruct (current_ids w) as [[? ?] ?], (file_results w 64) as [? [? ?]]. reflexivity. Qed.

Section late_facts.
Variables (L : Layout) (tsc cr3 : Z) (hhdm_offset : option Z).
Context `{B : Block}.

(** C31: the last stage of the boot before the previews. The three probes and the self test run one
    after the other, each on what the others left, and the log shows what each of them would
    show on its own: the exits the probes capture close no descriptor, the files they open are
    released, and a call through the gate returns what the call by its number does. The console
    has the four texts in order. *)
Theorem late_probes_spec (w : World) (lines : list (TtyStyle * list Z)) (p : Statics) (Hready : late_ready w p) :
  exists w', late_probes L tsc cr3 hhdm_offset p (mkLate w lines) =
    (Ok tt, mkLate w' (lines ++ [(Success, linux_line (linux_expected tsc w) (lit "x86_64")); (Success, ghost_line (ghost_expected tsc w) (lit "x86_64"));
      (Success, hxnu_line (hxnu_expected tsc w)); (Success, gate_line (gate_expected w))])) /\
    files_ok w' /\ table_of w' = table_of w /\
    w_console w' = w_console w ++ LINUX_WRITE_SMOKE ++ GHOST_WRITE_SMOKE ++ HXNU_WRITE_SMOKE ++ GATE_SMOKE.
Proof.
  destruct Hready as [R1 R2 R3 R4 Hframe Hclosed Hclear].
  assert (C : forall c q, c ∈ constants p -> q ∈ [at_linux p; at_ghost p; at_hxnu p] -> clear_of (scratch q) (fst c) (snd c)).
  { intros c q Hc Hq. rewrite Forall_forall in Hclear. specialize (Hclear c Hc). rewrite Forall_forall in Hclear. by apply Hclear. }
  clear Hclear. assert (HF := pr_files _ _ _ R1).
  destruct (linux_probe_spec L tsc cr3 hhdm_offset w (at_linux p) R1) as (w1 & E1 & P1).
  destruct (expected_after w w1 _ _ HF P1 Hclosed tsc) as (X1 & Y1 & Z1). assert (HF1 := pd_files _ _ _ _ P1). assert (C1 := closed_after _ _ _ _ P1).
  destruct (ghost_probe_spec L tsc cr3 hhdm_offset w1 (at_ghost p)) as (w2 & E2 & P2).
  { by apply (probe_ready_after _ _ _ _ P1); [apply (C (_, _)); set_solver..|]. }
  destruct (expected_after w1 w2 _ _ HF1 P2 C1 tsc) as (_ & Y2 & Z2). assert (HF2 := pd_files _ _ _ _ P2). assert (C2 := closed_after _ _ _ _ P2).
  destruct (hxnu_probe_spec L tsc cr3 hhdm_offset w2 (at_hxnu p)) as (w3 & E3 & P3).
  { apply (probe_ready_after _ _ _ _ P2); [apply (C (_, _)); set_solver..|]. by apply (probe_ready_after _ _ _ _ P1); [apply (C (_, _)); set_solver..|]. }
  destruct (expected_after w2 w3 _ _ HF2 P3 C2 tsc) as (_ & _ & Z3).
  destruct (syscall_self_test_spec L tsc cr3 hhdm_offset (gate_frame_ptr p) (gate_frame p) Hframe w3 (gate_text p) (gate_path p) (gate_b1 p) (gate_b2 p) (gate_b3 p)) as (w4 & E4 & HF4 & S4 & T4).
  { apply (gate_ready_after _ _ _ _ P3); [apply (C (_, _)); set_solver..|]. apply (gate_ready_after _ _ _ _ P2); [apply (C (_, _)); set_solver..|].
    by apply (gate_ready_after _ _ _ _ P1); [apply (C (_, _)); set_solver..|]. }
  exists w4. split; [|split; [done|split]].
  - unfold late_probes. rewrite (bind_run _ _ _ _ _ (on_late_run _ _ _ _ lines E1)).
    unfold bind at 1, lift at 1. rewrite linux_machine. rewrite (bind_run _ _ _ _ _ (late_say_run _ _ _ _)). rewrite X1 in E2. rewrite (bind_run _ _ _ _ _ (on_late_run _ _ _ _ _ E2)).
    unfold bind at 1, lift at 1. rewrite ghost_machine. rewrite (bind_run _ _ _ _ _ (late_say_run _ _ _ _)). rewrite Y2, Y1 in E3. rewrite (bind_run _ _ _ _ _ (on_late_run _ _ _ _ _ E3)).
    rewrite (bind_run _ _ _ _ _ (late_say_run _ _ _ _)). rewrite Z3, Z2, Z1 in E4. rewrite (bind_run _ _ _ _ _ (on_late_run _ _ _ _ _ E4)).
    rewrite late_say_run. by rewrite <- !app_assoc.
  - rewrite T4, (table_after _ _ _ _ HF2 P3 C2), (table_after _ _ _ _ HF1 P2 C1). by apply (table_after _ _ _ _ HF P1).
  - rewrite (sb_console _ _ S4). change (w_console (said GATE_SMOKE w3)) with (w_console w3 ++ GATE_SMOKE).
    by rewrite (console_after _ _ _ _ P3), (console_after _ _ _ _ P2), (console_after _ _ _ _ P1), <- !app_assoc.
Qed.
End late_facts.

(** ** The processor report *)
Lemma read_topology_levels cpuid max_basic t : read_topology cpuid max_basic = Ok (Some t) -> (level_count t <= length (levels t))%nat.
Proof.
  assert (H : forall leaf k, read_topology_leaf cpuid leaf k = Ok (Some t) -> (level_count t <= length (levels t))%nat).
  2:{ unfold read_topology. repeat bdestruct_if; by eauto. }
  intros leaf k. unfold read_topology_leaf.
  destruct (scan_levels_ok cpuid leaf (seq 0 MAX_TOPOLOGY_LEVELS) (mkScan (replicate MAX_TOPOLOGY_LEVELS level_empty) 0 0 0 0 1 1)) as (s & -> & Hl & Hc); [done..|].
  cbn [obind]. destruct (sc_count s =? 0)%nat; [done|]. destruct (if sc_core s =? 0 then _ else _) as [[core package]|e| |]; cbn [obind]; try done.
  intros [= <-]. cbn. lia.
Qed.

(** A report: it ends, whatever the log is. *)
Definition reports (m : M Late BootEnd unit) : Prop := forall l, exists l', m l = (Ok tt, l').
Lemma reports_say style text : reports (late_say style text).
Proof. by intros l; eexists. Qed.
Lemma reports_ret : reports (ret tt).
Proof. by intros l; eexists. Qed.
Lemma reports_seq m k : reports m -> reports k -> reports (do! m in k).
Proof. intros Hm Hk l. destruct (Hm l) as (l1 & H1). destruct (Hk l1) as (l2 & H2). exists l2. by rewrite (bind_run _ _ _ _ _ H1). Qed.
Lemma reports_each {A} (xs : list A) body : (forall x, reports (body x)) -> reports (Prelude.for_each xs body).
Proof. intros H. induction xs as [|x xs IH]; [apply reports_ret|]. by apply reports_seq. Qed.
Lemma report_topology_ends t : (level_count t <= length (levels t))%nat -> reports (report_topology t).
Proof.
  intros H. apply reports_seq; [apply reports_say|]. intros l. rewrite slice_ok by (unfold len; lia). unfold bind, lift. apply reports_each. intros x. apply reports_say.
Qed.

(** The report of the processor the kernel identified ends, whatever the processor answers: the
    levels it shows are among those that were read. *)
Theorem report_cpu_ends cpuid rdmsr c (Hc : probe cpuid rdmsr = Ok c) : reports (report_cpu c).
Proof.
  unfold probe in Hc. destruct (read_topology cpuid _) as [t|e| |] eqn:Ht; try done. injection Hc as <-. unfold report_cpu. cbn [topology].
  repeat apply reports_seq; try apply reports_say.
  - case_match; [apply reports_say|apply reports_ret].
  - destruct t as [t|]; [|apply reports_say]. apply report_topology_ends. by eapply read_topology_levels.
  - case_match; [apply reports_say|apply reports_ret].
Qed.

(** ** A concrete boot *)
#[local] Existing Instance stub_block.
Definition static_texts : list Z := LINUX_WRITE_SMOKE ++ GHOST_WRITE_SMOKE ++ HXNU_WRITE_SMOKE ++ GATE_SMOKE.
Definition static_user : gmap Z Z := store_bytes (store_bytes ∅ 4096 (OPEN_PATH ++ [0])) 8192 static_texts.
Definition static_world : World := set_user static_user demo_world.
Definition static_places : Statics :=
  mkStatics (mkWhere 8192 4096 12288 16384 20480) (mkWhere 8240 4096 12288 16384 20480) (mkWhere 8288 4096 12288 16384 20480) 8337 4096 12288 12336 12384
    0 (replicate 20 0).

Lemma static_path : user_string (w_user static_world) 4096 OPEN_PATH.
Proof.
  split; [vm_compute; split_and!; [done..|by left]|split].
  - apply (bool_decide_unpack _). vm_compute. exact I.
  - intros i b Hi. assert (Hlt : (i < 14)%nat) by (apply lookup_lt_Some in Hi; exact Hi).
    change (w_user static_world) with static_user. unfold static_user. rewrite store_bytes_lookup, decide_False by lia.
    rewrite store_bytes_lookup, decide_True by (change (len _) with 14; lia). replace (Z.to_nat (4096 + Z.of_nat i - 4096)) with i by lia. exact Hi.
Qed.
Lemma static_text ptr text : 8192 <= ptr <= 8400 -> len text <= 4096 -> load_bytes static_user ptr (length text) = Some text -> text_at static_world ptr text.
Proof. intros Hp Hn Hl. split; [unfold user_range; pose proof (len_nonneg text); lia|exact Hl]. Qed.
Lemma static_probe p text : text_at static_world (at_text p) text -> at_path p = 4096 -> at_buffer p = 12288 -> at_timespec p = 16384 -> at_utsname p = 20480 ->
  probe_ready static_world p text.
Proof.
  intros Ht H1 H2 H3 H4. split; rewrite ?H1, ?H2, ?H3, ?H4; [apply set_user_ok, demo_files_ok|done|exact static_path|unfold user_range; vm_compute; split_and!; [done..|by left]..|].
  left. vm_compute. discriminate.
Qed.

Lemma static_ready : late_ready static_world static_places.
Proof.
  split.
  - apply static_probe; [|done..]. apply static_text; [cbn; lia|vm_compute; discriminate|vm_compute; reflexivity].
  - apply static_probe; [|done..]. apply static_text; [cbn; lia|vm_compute; discriminate|vm_compute; reflexivity].
  - apply static_probe; [|done..]. apply static_text; [cbn; lia|vm_compute; discriminate|vm_compute; reflexivity].
  - split; [apply set_user_ok, demo_files_ok|apply static_text; [cbn; lia|vm_compute; discriminate|vm_compute; reflexivity]|exact static_path| |vm_compute; split; discriminate].
    unfold user_range. apply (bool_decide_unpack _). vm_compute. exact I.
  - vm_compute. lia.
  - intros k Hk. assert (Ht : table_of static_world = replicate MAX_PROCESS_FDS None) by (vm_compute; reflexivity). rewrite Ht. by apply lookup_replicate_2, Hk.
  - unfold clear_of. apply (bool_decide_unpack _). vm_compute. exact I.
Qed.

Lemma late_probes_spec_witness : exists w',
  late_probes demo_layout 0 0 None static_places (mkLate static_world []) =
    (Ok tt, mkLate w' [
      (Success, lit "HXNU: syscall bootstrap abi=linux-x86_64-bootstrap write=48 openat=3 read=17 close=0 getpid=1 getppid=0 gettid=1 sched_yield=0 clock_gettime=0 monotonic=0.000000000 uname=0 machine=x86_64 exit-captured=yes exit-status=17");
      (Success, lit "HXNU: syscall bootstrap abi=ghost-bootstrap write=48 open=3 read=17 close=0 getpid=1 gettid=1 yield=0 uptime-ns=0 uname=0 machine=x86_64 exit-captured=yes exit-status=19");
      (Success, lit "HXNU: syscall bootstrap abi=hxnu-native-bootstrap log_write=49 open=3 read=17 close=0 process_self=1 thread_self=1 sched_yield=0 uptime-ns=0 abi-version=0x10000 exit-captured=yes exit-status=23");
      (Success, lit "HXNU: syscall entry self-test int=0x80 linux_write=39 linux_openat=3 linux_read=17 linux_close=0 linux_getpid=1 ghost_open=3 ghost_read=17 ghost_close=0 ghost_gettid=1 hxnu_open=3 hxnu_read=17 hxnu_close=0 hxnu_abi_version=0x10000")]) /\
  files_ok w'.
Proof.
  destruct (late_probes_spec demo_layout 0 0 None static_world [] static_places static_ready) as (w' & H & HF & _).
  exists w'. split; [|exact HF]. rewrite H. vm_compute. reflexivity.
Defined.
